(* ===== verification/_CoqProject ===== *)
-Q . S2P
Prelude.v
Uapi.v
Kernel.v
State.v
Demo.v
Bdf.v
QueueReg.v
DmaBuf.v
BufferReg.v
Contig.v
Quiesce.v
Snapshot.v
Poison.v
Kprobe.v
Frame.v
Driver.v
DataPattern.v
NvmeEp.v
NvmeDrive.v
NvmeLaunch.v
NvmeDriveProps.v
NvmeWave.v
WorkRing.v
FioEngine.v
FioRun.v
SdmaLayout.v
SdmaMacros.v
SdmaPacket.v
SdmaQueue.v
SdmaRing.v
SdmaLive.v
SdmaOps.v
SdmaProps.v
Endian.v
TcpExchange.v
PingPong.v
BnxtSize.v
Mlx5.v
Bnxt.v
Ionic.v
IonicInv.v
IonicLive.v
IonicProps.v
FileLife.v
HostEnv.v
HostDemo.v
HostMem.v
HostModule.v
HostContig.v
HostPhys.v
HostPci.v
HostAdmin.v
HostQueue.v
RdmaTopo.v
RdmaEnv.v
RdmaGpu.v
RdmaBackend.v
RdmaConnect.v
RdmaHeld.v
RdmaAccount.v
RdmaDemo.v
RdmaLife.v
