(* ===== verification/Prelude.v ===== *)
(** * A verification development of rocm-xio

    rocm-xio lets GPU code drive I/O devices directly: an NVMe controller, an
    RDMA NIC or the GPU's own SDMA engines.  A kernel module resolves and
    registers memory, translates commands on their way to the NVMe driver and
    looks after queues that user space has taken over; libraries and GPU
    kernels build commands and ring doorbells; a fio engine and a tester use
    them.  This library models six parts of it, in this order of the files.

    ** The kernel module ([src/kernel/rocm-xio/rocm-xio.c])

    - [Uapi]: the ioctl ABI ([src/src/include/rocm-xio-uapi.h]): requests,
      their layout in memory, command numbers, the BDF encoding.
    - [Kernel]: the services of the kernel the module calls, as a class of
      functions of the history of calls; [KernelOk] are the documented
      promises the module relies on.  [held] counts the references acquired
      and not released in a history.
    - [State]: the structures and file-scope lists of the module as one
      record, and who owns which reference.
    - [Demo]: one concrete kernel, for the witnesses.
    - [Bdf], [QueueReg], [DmaBuf], [BufferReg], [Contig], [Quiesce],
      [Snapshot], [Poison], [Kprobe]: a component each, one definition per
      handler or ioctl case under the source's name, with its guards, early
      returns and error labels; each [iterM] is a loop over a list.
    - [Frame]: which parts of the state an operation can touch.
    - [Driver]: dispatch, release, loading with its unwinding and unloading,
      and the transition system of the loaded module.

    The theorems show: every list is accounted for in every reachable state,
    and loading, any run, closing and unloading gives every reference back
    ([module_reachable_accounted], [module_lifecycle_clean]); mapping and
    freeing use no freed object, in every interleaving of their critical
    sections with those of allocation, as long as nobody frees an id before the
    ioctl that allocates it has published it ([contig_interleaving_safe]; when
    somebody does, the copy to user space reads a freed object,
    [alloc_contig_copyout_race]); the interleavings of the poisoned list keep
    it unique; lookups refine maps; registration and
    dma-buf resolution are all or nothing; the probe injects and tracks what
    its branches say; resurrection restores a hijacked queue, or retries.

    ** Commands and the fio engine

    - [NvmeEp] ([src/src/endpoints/nvme-ep/nvme-ep.h]): PRP entries in both
      overloads, the PRP list pool, the fields of a command.
    - [WorkRing] ([src/docker/rocm-xio-engine/rocm-xio-hip.hip], and
      [gpuKernelPersistent] of [nvme-ep.hip]): the context of a queue, with a
      ledger of what each path acquires, the ring of work items and the loop
      that serves it.
    - [FioEngine] ([src/docker/rocm-xio-engine/rocm-xio.c]): open, close,
      queue, getevents and event of the ioengine, composed with the shim and
      with a GPU that may have made any progress at each poll.
    - [FioRun]: whole runs of the engine, from the opening of the files, with
      the log of the commands that the GPUs have built.

    [FioEngine] has an abstract specification, a FIFO of I/O units per file
    ([spec_step]); [queue_refines] and [getevents_refines] are the simulation,
    [getevents_returns] that the call comes back, [completed_units_executed]
    that in every run the units reported of a file are the accepted ones in
    their order, and each after a command with its direction, block address
    and length was built.  [open_close_balanced] says what opening and closing
    a file gives back, and what it does not: the memory of the rings and the
    mapping of the BAR.

    ** The NVMe endpoint's GPU path ([nvme-ep.hip])

    - [DataPattern] ([src/src/common/xio-data-pattern.hpp]): the bytes a
      transfer is tested with; verifying accepts what generating writes.
    - [NvmeDrive]: [driveEndpointSingle], one GPU thread that fills a
      submission queue in batches, rings the doorbells and polls completions
      by phase.  The thread is a step function and the controller the other
      half of a step relation: hardware that fetches up to the doorbell in
      order and completes in any order with any status.
    - [NvmeLaunch]: what the host computes before the launch: batch, threads,
      checks, the PRP list pool ([launch_prp_lists], [launch_places_fit]).
    - [NvmeDriveProps]: [serving] is the invariant, by four cursors; from it,
      that the controller fetches the commands in order and a finished kernel
      has them all completed ([drive_fifo], [drive_finished]), that neither
      queue starves the other ([drive_not_stuck]), that the kernel returns
      ([drive_returns]); that both ways to a command's addresses agree
      ([prp_paths_agree]); the range of blocks.
    - [NvmeWave]: [driveEndpointWavefront], a block of threads that run in
      any order between barriers.  [same_view] is a simulation by the single
      thread: the controller cannot tell the two apart
      ([wave_refines_single]), which carries the theorems over
      ([wave_finished]).

    ** SDMA ([src/src/endpoints/sdma-ep/])

    - [SdmaLayout] ([sdma_pkt_struct.h], [sdma_pkt_struct_mi4.h],
      [sdma-packet.h]): the packet structures as tables of bit fields;
      assignment and reading; agreement with the field macros.
    - [SdmaMacros] ([sdma-packet.h]): the macros of every packet; which fields
      can be read back from the words they make ([macros_roundtrip]).
    - [SdmaPacket] ([sdma_packets.hpp], [sdma_device.hpp],
      [sdma_opcodes.h]): the builders, the packets of the composite
      operation, and [parse], the commands that words in those structures ask
      for.  The engine is hardware; [packet_length] and [read_cmd] read the
      fields the structures name, and [meaning] says what a command does.
    - [SdmaQueue] ([SdmaQueueHandle] of [sdma_device.hpp] and
      [sdma-host-queue.hip]): any number of producers as a step relation, one
      step per atomic access or store, in every interleaving with the engine.
    - [SdmaRing]: the invariant [ring_ok] and that every step keeps it.
    - [SdmaLive]: that every state can run on to completion.
    - [SdmaOps]: the calls of both handles, with the host's validation.
    - [SdmaProps]: the theorems: the ring is a FIFO of reservations and
      nothing unread is overwritten ([sdma_fifo]); the engine executes the
      operations whole and in order, wrap-around included
      ([sdma_executes_in_order]); no deadlock ([ring_completes]); waits
      ([quiet_waits]); limits ([oversized_never_reserved]).

    ** RDMA: the GPU's queue pairs ([src/src/endpoints/rdma-ep/])

    - [Endian] ([src/src/common/endian.hpp]): the conversions of byte order.
    - [TcpExchange] ([src/src/common/tcp-exchange.hpp]): two peers swap their
      connection data; turns of both, partial sends and receives and
      interrupts in any order ([exchange_delivers], [exchange_completes]).
    - [PingPong] ([pingpong_client_kernel] and [pingpong_server_kernel] of
      [rdma-ep.hip]): two nodes swap numbered messages; if a message becomes
      visible as a whole no error is counted and every schedule ends with all
      iterations done ([pingpong_no_errors], [pingpong_terminates]).
    - [BnxtSize] ([bnxt/bnxt-dv-sizing.hpp]): the sizes of the bnxt queues
      ([sq_table_fits], [sq_size_wraps]).
    - [Bnxt] ([bnxt/bnxt-queue-pair.hip]): the bnxt queue pair, its ring as
      memory of bytes, by one caller interleaved with the NIC ([bnxt_fifo],
      [bnxt_quiet_waits], [bnxt_wait_ends], [bnxt_entry_meaning]), and where
      the ring overruns or inline data is lost ([full_looks_empty],
      [inline_overwritten], [inline_leaves_ring], [stop_overwrites]).
    - [Mlx5] ([mlx5/mlx5-queue-pair.hip], [mlx5/mlx5-provider.hpp]): work
      queue entries in the NIC's byte order ([mlx5_entry_meaning]); posting,
      polling and quiet by one group of lanes as a step relation with the NIC
      ([mlx5_fifo], [mlx5_quiet_waits]).  A variable that the polling loop
      reads before it is written holds an arbitrary value: the theorems are
      for waits in which it reads as no room ([steady]); with another value a
      call overwrites an entry that has not been executed
      ([mlx5_junk_overwrites]), and with that one a wait with nothing
      outstanding does not end ([mlx5_drained_hangs]).  The constants of
      [infiniband/mlx5dv.h] are a class, [Mlx5dv].
    - [Ionic] ([ionic/ionic-queue-pair.hip], [ionic/ionic-fw.h]): any number of
      waves on one queue, a step per access.  [IonicInv] is the invariant,
      [IonicLive] progress, [IonicProps] the theorems: execution in the order
      of the reservations ([ionic_fifo]), waits ([ionic_quiet_waits]), every
      run in which one lane of a wave commits can be completed
      ([ionic_completes]), what an entry asks for ([ionic_entry_meaning]).
      Every lane takes the doorbell's lock for itself, so that a wave of
      several lanes, once one of them has it, cannot go on
      ([ionic_wave_deadlocks]).

    ** The host library ([src/src/common/xio-common.hip], [nvme-ep.hip])

    - [FileLife]: what the module does for one file, as exact states.
    - [HostEnv]: the process with what it holds, and the calls of the C
      library, HIP, HSA and the kernel as a class; [HostEnvOk] are their
      promises.  [HostDemo] is one concrete host.  Ioctls, mappings and admin
      commands run the module's own definitions.
    - [HostMem], [HostModule], [HostContig], [HostPhys], [HostPci],
      [HostAdmin], [HostQueue]: memory; calls to the module; contiguous
      queues; physical addresses, PRP lists and data buffers; discovery in
      sysfs; admin commands; the whole of [createQueue].

    The theorems: allocation and freeing are inverse on every path
    ([memory_roundtrip]); a contiguous queue lives as long as its mapping,
    module included ([contig_queue_lifetime]); a PRP list names the pages of
    its queue ([prp_list_describes_queue]); a creation that fails leaves
    nothing behind but what is listed ([failed_creation_leaves_nothing]); one
    that succeeds has told the controller the registered addresses
    ([controller_told_queues]); the address of a device is found
    ([device_address_found]).

    ** RDMA: the host ([gda-backend.cpp] and the providers' back ends)

    - [RdmaTopo] ([src/src/common/rdma-topology.cpp]): the choice of a GID and
      of the closest NIC ([gid_choice], [closest_nic]).
    - [RdmaEnv]: the [Backend] object, the verbs as a class [VerbsEnv], the
      wrapper [IBVWrapper] and the check macros, which end the process: a
      computation of [RM] that ends it has no result.
    - [RdmaGpu]: the set-up of mlx5 and ionic.  [RdmaBackend]: the functions
      of the class, from [init] to [shutdown].
    - [RdmaConnect]: connecting with a NIC that keeps to the tables of verbs
      ([connect_to_peer_outcome]), and the two-node step of [rdma-ep.hip].
    - [RdmaHeld]: the promises of verbs and the account of what the process
      holds; [RdmaAccount]: every function keeps it; [RdmaDemo]: one concrete
      NIC.
    - [RdmaLife]: the theorems: what is left after any life of the object
      ([backend_lifetime]), what registering data makes of the keys
      ([registration_outcome]), and two nodes that connect over the exchange
      of [TcpExchange] ([peers_connected]).

    ** Conventions

    A [w]-bit integer is a [Z] with its wrap-around written out ([u8], [u16],
    [u32], [u64]).  Pointers are [ptr]; [NULL] is 0.  The module's code runs in
    the state-passing type [M] below, and [wp] states what it does.  Theorems
    named in a finding as code defects are proved on concrete or general runs
    ([register_queue_addr_owner_lost], [exit_leaves_kprobe],
    [slot_outside_buffer], [failed_open_leaks], [ring_stalls_at_wrap],
    [copy_count_truncated], [host_quiet_missed], [lone_coordinator],
    [sequential_overruns], [mlx5_drained_hangs],
    [mlx5_junk_overwrites], [ionic_wave_deadlocks], [ionic_upper_half_silent], [ionic_late_lane_stalls],
    [rejected_creation_succeeds], [freed_queue_stays_registered],
    [gcc_fields_are_one], [distance_ignores_domain], [sq_size_wraps],
    [queue_pair_leaks] and others).

    ** Fuel and bounds

    [reap_loop] is given the number of units in the ring, which each turn
    that goes on decreases; [getevents_loop] is given a number of passes, and
    [getevents_returns] gives one that is enough.  [parse] is given the number
    of packets.  The work ring's invariant holds for runs of fewer than [2^32]
    posts (the counters wrap there: [ring_stalls_at_wrap]); the SDMA ring's
    for fewer than [2^64] bytes reserved ([bounded]); the theorems on the GPU
    path are for finite runs of fewer than [2^32 - 2^16] operations
    ([finite_drive]), those on the mlx5 queue for fewer than [2^32] entries
    ([few]), as those on the bnxt queue are ([few_entries]), which also ask that
    nobody has requested to stop, and in every step either a number of slots
    that is not a multiple of three or room for what is outstanding
    ([bnxt_roomy]); [budget] asks for room for what programs have left, at most
    twice their words.  An ionic call is taken when no wave in flight
    is more than [2^22] entries behind ([not_overtaken]).  [eintr_loop] is
    given a number of retries, and more change nothing once a command is not
    interrupted ([eintr_enough]); loops over text are
    given the text's length; [poll_until] is given the code's [max_polls].
    [exchange_completes] asks for room for one message each way, without which
    both sides can wait for ever ([small_buffers_deadlock]); [sq_table_fits]
    for a product of at most [2^30].

    ** Not modelled

    - Locks are not modelled as such: a critical section is one step, and
      where the code drops a lock in between, there are several.  The lanes
      of one mlx5 queue pair are one group; several groups, and a quiet of one
      beside the lock of another, are not modelled.
    - The order of memory accesses: accesses take effect in one global order,
      which the code's fences and release/acquire accesses are there for.
    - [printk], error messages of exceptions, the insides of kobjects, device
      classes and kernel structures other than the mirrored ones.
    - The HIP runtime, HSA, libibverbs, the providers' libraries, sysfs, the
      C library and the hardware: parameters ([Rxio], [FioEnv], [HostEnv],
      [VerbsEnv], [TopoEnv]) or not there.
    - Timing statistics, which no decision depends on but the cap on a timed
      batch; the contents of data buffers beyond their pattern.
    - The single-producer SDMA handle, [rxio_submit] and the table behind the
      BAR0 cache (whether it has a controller is the environment's),
      [gpuKernelStateful], identify and option handling of the NVMe endpoint,
      queue creation through the KFD thunk, the back ends of bnxt
      and rocm-ernic (the host build modelled has mlx5 and ionic) and the
      device queue pair of rocm-ernic, the loopback benchmark of [rdma-ep.hip], the test
      endpoint, the tester and its options, [xio.h]'s declarations, examples,
      bindings and tests: orchestration, reporting, or glue around what is
      modelled. *)

From Stdlib Require Export ZArith Lia.
From stdpp Require Export base list gmap numbers.

#[global] Open Scope Z_scope.

(** ** Notations *)

Declare Scope xio_scope.
Delimit Scope xio_scope with xio.

(** Addresses are machine words; [NULL] is the zero word. *)
Abbreviation ptr := Z (only parsing).
Definition NULL : ptr := 0.

Notation "'is_null' p" := (Z.eqb p NULL) (at level 10, p at next level) : xio_scope.
#[global] Open Scope xio_scope.

(** ** Machine integers: a [w]-bit unsigned value is an integer kept below [2^w] *)

Definition u8 (x : Z) : Z := x mod 256.
Definition u16 (x : Z) : Z := x mod 65536.
Definition u32 (x : Z) : Z := x mod 4294967296.
Definition u64 (x : Z) : Z := x mod 18446744073709551616.

(** ** Error numbers returned by the kernel code (negated) *)

Definition EPERM : Z := 1.
Definition ENOENT : Z := 2.
Definition EIO : Z := 5.
Definition EBADF : Z := 9.
Definition ENOMEM : Z := 12.
Definition EFAULT : Z := 14.
Definition ENOTBLK : Z := 15.
Definition ENODEV : Z := 19.
Definition EINVAL : Z := 22.
Definition ENOTTY : Z := 25.
Definition ENOSPC : Z := 28.
Definition ERANGE : Z := 34.
Definition ENOSYS : Z := 38.
Definition EOPNOTSUPP : Z := 95.

(** ** State-passing computations *)

Section StateMonad.
Context {St : Type}.

Definition M (A : Type) : Type := St -> A * St.

Definition ret {A} (a : A) : M A := fun s => (a, s).
Definition bind {A B} (m : M A) (f : A -> M B) : M B :=
  fun s => match m s with (a, s1) => f a s1 end.
Definition gets {A} (f : St -> A) : M A := fun s => (f s, s).
Definition modify (f : St -> St) : M unit := fun s => (tt, f s).

Fixpoint iterM {A} (f : A -> M unit) (l : list A) : M unit :=
  match l with
  | [] => ret tt
  | x :: l' => bind (f x) (fun _ => iterM f l')
  end.

(** The weakest precondition of a computation for a postcondition on its
    result and final state. *)
Definition wp {A} (m : M A) (Q : A -> St -> Prop) (s : St) : Prop :=
  match m s with (a, s1) => Q a s1 end.

Lemma wp_ret {A} (a : A) (Q : A -> St -> Prop) s : Q a s -> wp (ret a) Q s.
Proof. done. Qed.

Lemma wp_bind {A B} (m : M A) (f : A -> M B) (Q : B -> St -> Prop) s :
  wp m (fun a s1 => wp (f a) Q s1) s -> wp (bind m f) Q s.
Proof. unfold wp, bind. by destruct (m s). Qed.

Lemma wp_gets {A} (f : St -> A) (Q : A -> St -> Prop) s :
  Q (f s) s -> wp (gets f) Q s.
Proof. done. Qed.

Lemma wp_modify (f : St -> St) (Q : unit -> St -> Prop) s :
  Q tt (f s) -> wp (modify f) Q s.
Proof. done. Qed.

Lemma wp_mono {A} (m : M A) (P Q : A -> St -> Prop) s :
  wp m P s -> (forall a s1, P a s1 -> Q a s1) -> wp m Q s.
Proof. unfold wp. destruct (m s). eauto. Qed.

(** A computation run is its weakest precondition read as an equation. *)
Lemma wp_run {A} (m : M A) (Q : A -> St -> Prop) s a s1 :
  wp m Q s -> m s = (a, s1) -> Q a s1.
Proof. unfold wp. intros H E. by rewrite E in H. Qed.

Lemma wp_snd {A} (m : M A) (P : St -> Prop) s :
  wp m (fun _ s' => P s') s -> P (snd (m s)).
Proof. unfold wp. by destruct (m s). Qed.

Lemma wp_of_snd {A} (m : M A) (P : St -> Prop) s :
  P (snd (m s)) -> wp m (fun _ s' => P s') s.
Proof. unfold wp. by destruct (m s). Qed.

(** A loop over a list keeps an invariant indexed by what is left to do. *)
Lemma wp_iterM {A} (f : A -> M unit) (I : list A -> St -> Prop) l s :
  I l s ->
  (forall x l' s, I (x :: l') s -> wp (f x) (fun _ s1 => I l' s1) s) ->
  wp (iterM f l) (fun _ s1 => I [] s1) s.
Proof.
  intros HI Hstep. revert s HI.
  induction l as [|x l IH]; intros s HI; simpl.
  - by apply wp_ret.
  - apply wp_bind. eapply wp_mono; [by apply Hstep|]. eauto.
Qed.
End StateMonad.

Arguments M : clear implicits.

Notation "'let*' x ':=' m 'in' k" := (bind m (fun x => k))
  (at level 10, x name, m at level 100, k at level 200) : xio_scope.
Notation "'let*' ' p ':=' m 'in' k" := (bind m (fun x => match x with p => k end))
  (at level 10, p pattern, m at level 100, k at level 200) : xio_scope.
Notation "m ;;; k" := (bind m (fun _ => k))
  (at level 100, k at level 200, right associativity) : xio_scope.

(** ** Finite sums of integers over lists and maps *)

Fixpoint sumZ {A} (f : A -> Z) (l : list A) : Z :=
  match l with
  | [] => 0
  | x :: l' => f x + sumZ f l'
  end.

(** 1 when the test holds, 0 otherwise. *)
Definition ind (b : bool) : Z := if b then 1 else 0.

Lemma ind_nonneg b : 0 <= ind b.
Proof. by destruct b. Qed.

Definition msum {V} (f : V -> Z) (m : gmap Z V) : Z :=
  sumZ (fun kv : Z * V => f (snd kv)) (map_to_list m).

Section Sums.
Context {A : Type}.
Implicit Types (f g : A -> Z) (l : list A).

Lemma sumZ_nil f : sumZ f [] = 0.
Proof. done. Qed.

Lemma sumZ_cons f x l : sumZ f (x :: l) = f x + sumZ f l.
Proof. done. Qed.

Lemma sumZ_app f l1 l2 : sumZ f (l1 ++ l2) = sumZ f l1 + sumZ f l2.
Proof. induction l1; simpl; lia. Qed.

Lemma sumZ_reverse f l : sumZ f (reverse l) = sumZ f l.
Proof.
  induction l as [|x l IH]; [done|].
  rewrite reverse_cons, sumZ_app, IH. simpl. lia.
Qed.

Lemma sumZ_perm f l1 l2 : l1 ≡ₚ l2 -> sumZ f l1 = sumZ f l2.
Proof. induction 1; simpl; lia. Qed.

Lemma sumZ_filter_split f (P : A -> bool) l :
  sumZ f (filter (fun x => P x = true) l)
  + sumZ f (filter (fun x => P x = false) l) = sumZ f l.
Proof.
  induction l as [|x l IH]; [done|].
  rewrite !filter_cons. destruct (P x); simpl;
    repeat (case_decide || case_match); simpl; lia || congruence.
Qed.

Lemma sumZ_nonneg f l : (forall x, 0 <= f x) -> 0 <= sumZ f l.
Proof. intros H. induction l as [|x l IH]; simpl; [lia|]. specialize (H x). lia. Qed.

Lemma sumZ_ext f g l : (forall x, x ∈ l -> f x = g x) -> sumZ f l = sumZ g l.
Proof.
  induction l as [|x l IH]; intros H; simpl; [done|].
  rewrite (H x) by left. rewrite IH; [done|]. intros y Hy. apply H. by right.
Qed.

Lemma sumZ_zero f l : (forall x, x ∈ l -> f x = 0) -> sumZ f l = 0.
Proof.
  induction l as [|x l IH]; intros H; simpl; [done|].
  rewrite (H x) by left. rewrite IH; [done|]. intros y Hy. apply H. by right.
Qed.

Lemma sumZ_elem_le f l x : (forall y, 0 <= f y) -> x ∈ l -> f x <= sumZ f l.
Proof.
  intros Hf. induction l as [|y l IH]; [by intros ?%elem_of_nil|].
  intros [->|Hx]%elem_of_cons; simpl.
  - pose proof (sumZ_nonneg f l Hf). lia.
  - specialize (IH Hx). specialize (Hf y). lia.
Qed.
End Sums.

Section MapSums.
Context {V : Type}.
Implicit Types (f : V -> Z) (m : gmap Z V).

Lemma msum_empty f : msum f ∅ = 0.
Proof. unfold msum. by rewrite map_to_list_empty. Qed.

Lemma msum_insert f m i x : m !! i = None -> msum f (<[i:=x]> m) = f x + msum f m.
Proof.
  intros Hi. unfold msum.
  by rewrite (sumZ_perm _ _ _ (map_to_list_insert m i x Hi)).
Qed.

Lemma msum_delete f m i x : m !! i = Some x -> msum f m = f x + msum f (delete i m).
Proof.
  intros Hi. rewrite <- (insert_id m i x Hi) at 1.
  rewrite <- insert_delete_eq. apply msum_insert, lookup_delete_eq.
Qed.

Lemma msum_nonneg f m : (forall x, 0 <= f x) -> 0 <= msum f m.
Proof. intros H. apply sumZ_nonneg. intros [k x]. apply H. Qed.

Lemma msum_update f m i x y :
  m !! i = Some x -> msum f (<[i:=y]> m) = msum f m - f x + f y.
Proof.
  intros Hi. rewrite <- insert_delete_eq.
  rewrite msum_insert by apply lookup_delete_eq.
  rewrite (msum_delete f m i x Hi). lia.
Qed.
End MapSums.

(** ** First match in a list: how every [list_for_each_entry] search with a
    [break] reads *)

Fixpoint find_first {A} (P : A -> bool) (l : list A) : option A :=
  match l with
  | [] => None
  | x :: l' => if P x then Some x else find_first P l'
  end.

(** [list_del] of the first match, the rest in order. *)
Fixpoint remove_first {A} (P : A -> bool) (l : list A) : list A :=
  match l with
  | [] => []
  | x :: l' => if P x then l' else x :: remove_first P l'
  end.

(** In-place update of the first match. *)
Fixpoint update_first {A} (P : A -> bool) (f : A -> A) (l : list A) : list A :=
  match l with
  | [] => []
  | x :: l' => if P x then f x :: l' else x :: update_first P f l'
  end.

Section Search.
Context {A : Type}.
Implicit Types (P : A -> bool) (l : list A).

Lemma find_first_Some P l x : find_first P l = Some x -> x ∈ l /\ P x = true.
Proof.
  induction l as [|y l IH]; simpl; [done|].
  destruct (P y) eqn:E; intros H; simplify_eq.
  - split; [left|done].
  - destruct (IH H). split; [by right|done].
Qed.

Lemma find_first_None P l : find_first P l = None <-> forall x, x ∈ l -> P x = false.
Proof.
  induction l as [|y l IH]; simpl; [by split; [intros _ ? ?%elem_of_nil|]|].
  destruct (P y) eqn:E.
  - split; [done|]. intros H. rewrite (H y) in E by left. done.
  - rewrite IH. split.
    + intros H x [->|Hx]%elem_of_cons; auto.
    + intros H x Hx. apply H. by right.
Qed.

Lemma find_first_split P l x :
  find_first P l = Some x ->
  exists l1 l2, l = l1 ++ x :: l2 /\ remove_first P l = l1 ++ l2 /\
    (forall y, y ∈ l1 -> P y = false).
Proof.
  induction l as [|y l IH]; simpl; [done|].
  destruct (P y) eqn:E; intros H; simplify_eq.
  - exists [], l. repeat split. by intros ? ?%elem_of_nil.
  - destruct (IH H) as (l1 & l2 & -> & -> & Hl1).
    exists (y :: l1), l2. repeat split. intros z [->|Hz]%elem_of_cons; auto.
Qed.

Lemma sumZ_remove_first (f : A -> Z) P l x :
  find_first P l = Some x -> sumZ f l = f x + sumZ f (remove_first P l).
Proof.
  intros (l1 & l2 & -> & -> & _)%find_first_split.
  rewrite !sumZ_app. simpl. lia.
Qed.

Lemma elem_of_remove_first P l x : x ∈ remove_first P l -> x ∈ l.
Proof.
  induction l as [|y l IH]; simpl; [done|].
  destruct (P y); [by right|].
  intros [->|H]%elem_of_cons; [left|right; auto].
Qed.

Lemma sumZ_update_first (f : A -> Z) P g l :
  (forall x, f (g x) = f x) -> sumZ f (update_first P g l) = sumZ f l.
Proof.
  intros H. induction l as [|y l IH]; simpl; [done|].
  destruct (P y); simpl; rewrite ?H; lia.
Qed.

Lemma update_first_id P g l : find_first P l = None -> update_first P g l = l.
Proof.
  induction l as [|y l IH]; simpl; [done|].
  destruct (P y); [done|]. intros H. by rewrite IH.
Qed.

Lemma find_first_update P g l x :
  (forall y, P (g y) = P y) -> find_first P l = Some x ->
  find_first P (update_first P g l) = Some (g x).
Proof.
  intros Hg. induction l as [|y l IH]; [done|]. cbn [find_first update_first].
  destruct (P y) eqn:E; intros H.
  - cbn [find_first]. rewrite Hg, E. congruence.
  - cbn [find_first]. rewrite E. auto.
Qed.

Lemma elem_of_update_first P g l y :
  y ∈ update_first P g l -> y ∈ l \/ exists x, x ∈ l /\ P x = true /\ y = g x.
Proof.
  induction l as [|x l IH]; simpl; [auto|].
  destruct (P x) eqn:E; intros [->|H]%elem_of_cons.
  - right. exists x. repeat split; [left|done].
  - left. by right.
  - left. left.
  - destruct (IH H) as [?|(z & ? & ? & ?)]; [left; by right|].
    right. exists z. repeat split; [by right|done|done].
Qed.

Lemma map_update_first {B} (h : A -> B) P g l :
  (forall x, h (g x) = h x) -> map h (update_first P g l) = map h l.
Proof.
  intros H. induction l as [|x l IH]; simpl; [done|].
  destruct (P x); simpl; rewrite ?H, ?IH; done.
Qed.
End Search.

(** ** Filters and quantified lists *)

Lemma Forall_elem {A} (P : A -> Prop) (l : list A) (x : A) : Forall P l -> x ∈ l -> P x.
Proof. induction 1; [by intros ?%elem_of_nil|intros [->|]%elem_of_cons; auto]. Qed.

Lemma elem_Forall {A} (P : A -> Prop) (l : list A) : (forall x, x ∈ l -> P x) -> Forall P l.
Proof.
  induction l as [|y l IH]; intros H; constructor; [apply H; left|].
  apply IH. intros x Hx. apply H. by right.
Qed.

Lemma filter_all {A} (P : A -> Prop) `{forall x, Decision (P x)} (l : list A) :
  (forall x, x ∈ l -> P x) -> filter P l = l.
Proof.
  induction l as [|x l IH]; intros Hl; [done|].
  rewrite filter_cons, decide_True by (apply Hl; left).
  f_equal. apply IH. intros y Hy. apply Hl. by right.
Qed.

Lemma filter_none {A} (P : A -> Prop) `{forall x, Decision (P x)} (l : list A) :
  (forall x, x ∈ l -> ~ P x) -> filter P l = [].
Proof.
  induction l as [|x l IH]; intros Hl; [done|].
  rewrite filter_cons, decide_False by (apply Hl; left).
  apply IH. intros y Hy. apply Hl. by right.
Qed.

(** Keys stay distinct when entries are removed. *)
Lemma filter_NoDup_map {A B} (f : A -> B) (P : A -> bool) b l :
  NoDup (map f l) -> NoDup (map f (filter (fun e => P e = b) l)).
Proof.
  induction l as [|x l IH]; [done|]. cbn [map]. intros [H1 H2]%list_relations.list.NoDup_cons.
  rewrite filter_cons. destruct (decide _); [|auto]. cbn [map]. apply list_relations.list.NoDup_cons. split; [|auto].
  intros (y & E & [_ Hy]%list_elem_of_filter)%list_elem_of_fmap. apply H1. rewrite E.
  by apply list_elem_of_fmap_2.
Qed.

Lemma remove_first_NoDup_map {A B} (f : A -> B) (P : A -> bool) l :
  NoDup (map f l) -> NoDup (map f (remove_first P l)).
Proof.
  induction l as [|x l IH]; [done|]. cbn [map remove_first]. intros [H1 H2]%list_relations.list.NoDup_cons.
  destruct (P x); [done|]. cbn [map]. apply list_relations.list.NoDup_cons. split; [|auto].
  intros (y & E & Hy%elem_of_remove_first)%list_elem_of_fmap. apply H1. rewrite E.
  by apply list_elem_of_fmap_2.
Qed.
(** ** Machine-integer lemmas *)

Lemma u8_range x : 0 <= u8 x < 256.
Proof. apply Z.mod_pos_bound; lia. Qed.
Lemma u16_range x : 0 <= u16 x < 65536.
Proof. apply Z.mod_pos_bound; lia. Qed.
Lemma u32_range x : 0 <= u32 x < 4294967296.
Proof. apply Z.mod_pos_bound; lia. Qed.
Lemma u64_range x : 0 <= u64 x < 18446744073709551616.
Proof. apply Z.mod_pos_bound; lia. Qed.

Lemma u16_small x : 0 <= x < 65536 -> u16 x = x.
Proof. apply Z.mod_small. Qed.
Lemma u32_small x : 0 <= x < 4294967296 -> u32 x = x.
Proof. apply Z.mod_small. Qed.
Lemma u64_small x : 0 <= x < 18446744073709551616 -> u64 x = x.
Proof. apply Z.mod_small. Qed.

(** Masks with all-ones constants are remainders, right shifts are quotients. *)
Lemma land_ones_mod x n : 0 <= n -> Z.land x (Z.ones n) = x mod 2 ^ n.
Proof. apply Z.land_ones. Qed.

(** [Z.lor] of a multiple of [2^n] and a value below [2^n] is their sum. *)
Lemma lor_shiftl_add a b n :
  0 <= n -> 0 <= b < 2 ^ n -> Z.lor (Z.shiftl a n) b = a * 2 ^ n + b.
Proof.
  intros Hn Hb. rewrite <- Z.shiftl_mul_pow2 by lia.
  assert (Z.land (Z.shiftl a n) b = 0) as Hl.
  { apply Z.bits_inj'. intros i Hi. rewrite Z.land_spec, Z.bits_0.
    destruct (Z.lt_ge_cases i n).
    - rewrite Z.shiftl_spec_low by lia. done.
    - rewrite <- (Z.mod_small b (2 ^ n)) by lia.
      rewrite Z.mod_pow2_bits_high by lia. apply andb_false_r. }
  pose proof (Z.add_lor_land (Z.shiftl a n) b). lia.
Qed.

(** ** Automation *)

(** Case analysis on every test and match of the goal, then closing. *)
Ltac cases := repeat (case_match || case_decide); simplify_eq/=.

(** Symbolic execution of a state-passing computation: one rule per
    combinator, tests split, results of pure reads substituted. *)
Ltac wp_step :=
  match goal with
  | |- wp (bind _ _) _ _ => apply wp_bind
  | |- wp (ret _) _ _ => apply wp_ret
  | |- wp (gets _) _ _ => apply wp_gets
  | |- wp (modify _) _ _ => apply wp_modify
  | |- wp (if ?b then _ else _) _ _ => destruct b eqn:?
  | |- wp (match ?x with _ => _ end) _ _ => destruct x eqn:?
  end.
Ltac wp_steps := repeat (wp_step; simpl).

(** Booleans computed by the code turned into propositions. *)
Ltac bool_to_prop :=
  repeat match goal with
  | H : negb _ = true |- _ => apply negb_true_iff in H
  | H : negb _ = false |- _ => apply negb_false_iff in H
  | H : _ && _ = true |- _ => apply andb_true_iff in H; destruct H
  | H : _ || _ = false |- _ => apply orb_false_iff in H; destruct H
  | H : (_ =? _) = true |- _ => apply Z.eqb_eq in H
  | H : (_ =? _) = false |- _ => apply Z.eqb_neq in H
  | H : (_ <? _) = true |- _ => apply Z.ltb_lt in H
  | H : (_ <? _) = false |- _ => apply Z.ltb_ge in H
  | H : (_ <=? _) = true |- _ => apply Z.leb_le in H
  | H : (_ <=? _) = false |- _ => apply Z.leb_gt in H
  end.

(** A value cut off at a limit. *)
Lemma clamp_min m b : (if m <? b then m else b) = Z.min m b.
Proof. destruct (m <? b) eqn:?; bool_to_prop; lia. Qed.

(** [Z.lor] keeps a bound that is a power of two. *)
Lemma lor_below n a b : 0 <= a < 2 ^ n -> 0 <= b < 2 ^ n -> 0 <= Z.lor a b < 2 ^ n.
Proof.
  intros Ha Hb. assert (0 <= Z.lor a b) as H0 by (apply Z.lor_nonneg; lia). split; [done|].
  destruct (decide (Z.lor a b = 0)) as [->|Hne]; [lia|]. apply Z.log2_lt_pow2; [lia|].
  rewrite Z.log2_lor by lia. apply Z.max_lub_lt.
  - destruct (decide (a = 0)) as [->|]; [|apply Z.log2_lt_pow2; lia].
    destruct (decide (b = 0)) as [->|]; [done|]. eapply Z.le_lt_trans; [apply Z.log2_nonneg|apply Z.log2_lt_pow2; [|apply Hb]; lia].
  - destruct (decide (b = 0)) as [->|]; [|apply Z.log2_lt_pow2; lia].
    destruct (decide (a = 0)) as [->|]; [done|]. eapply Z.le_lt_trans; [apply Z.log2_nonneg|apply Z.log2_lt_pow2; [|apply Ha]; lia].
Qed.

(** Within a window of [d], positions are told apart by their remainders. *)
Lemma slot_inj d n m : 0 < d -> n <= m < n + d -> n mod d = m mod d -> n = m.
Proof.
  intros Hd Hr E. pose proof (Z.div_mod n d ltac:(lia)). pose proof (Z.div_mod m d ltac:(lia)).
  rewrite E in *. assert (m / d - n / d = 0); [nia|]. assert (m / d = n / d) by lia. congruence.
Qed.

Create HintDb xio discriminated.
#[export] Hint Resolve u8_range u16_range u32_range u64_range : xio.
Create Rewrite HintDb sums.
#[export] Hint Rewrite @sumZ_nil @sumZ_cons @sumZ_app @sumZ_reverse : sums.
