(* ===== verification/Uapi.v ===== *)
(** * The ioctl ABI shared by user space and the kernel module

    Models [src/src/include/rocm-xio-uapi.h]: the request structures as records,
    the ioctl command table, the 32-bit PCI address encoding
    [ROCM_XIO_BDF], and the memory layout a C compiler gives the request
    structures (natural alignment, as on x86-64). *)

From S2P Require Import Prelude.

(** ** PCI bus/device/function encoding *)

(** [ROCM_XIO_BDF(domain, bus, dev, func)]; every operand is cast to 32 bits
    before it is shifted. *)
Definition ROCM_XIO_BDF (domain bus dev func : Z) : Z :=
  Z.lor (Z.lor (Z.lor (u32 (Z.shiftl (u32 domain) 16)) (u32 (Z.shiftl (u32 bus) 8)))
               (u32 (Z.shiftl (u32 dev) 3)))
        (u32 func).

(** ** Flags *)

Definition ROCM_XIO_FLAG_EMULATED : Z := Z.shiftl 1 0.
Definition ROCM_XIO_FLAG_PASSTHROUGH : Z := Z.shiftl 1 1.

(** ** Request structures *)

Record rocm_xio_vram_req := {
  vr_dmabuf_fd : Z;
  vr_nvme_bdf : Z;
  vr_flags : Z;
  vr_phys_addr : Z;
  vr_size : Z
}.

Record rocm_xio_create_queue_req := {
  cr_queue_id : Z;
  cr_queue_size : Z;
  cr_cq_vector : Z;
  cr_sq_phys_addr : Z;
  cr_cq_phys_addr : Z;
  cr_doorbell_addr : Z;
  cr_doorbell_offset : Z
}.

Record rocm_xio_delete_queue_req := {
  dr_queue_id : Z;
  dr_queue_type : Z
}.

Record rocm_xio_device_info := {
  di_bdf : Z;
  di_bar0_addr : Z;
  di_bar0_size : Z;
  di_doorbell_stride : Z;
  di_max_queues : Z
}.

Record rocm_xio_bind_device_req := { bd_bdf : Z }.

Record rocm_xio_register_queue_addr_req := {
  rq_virt_addr : Z;
  rq_phys_addr : Z;
  rq_size : Z;
  rq_prp2 : Z;
  rq_nvme_bdf : Z;
  rq_queue_type : Z
}.

Record rocm_xio_unregister_queue_addr_req := { uq_virt_addr : Z }.

Record rocm_xio_register_buffer_req := {
  rb_dmabuf_fd : Z;
  rb_virt_addr : Z;
  rb_phys_addr : Z;
  rb_size : Z;
  rb_nvme_bdf : Z;
  rb_flags : Z
}.

Record rocm_xio_unregister_buffer_req := { ub_virt_addr : Z }.

Record rocm_xio_mmio_bridge_shadow_req := {
  mb_bridge_bdf : Z;
  mb_shadow_gpa : Z;
  mb_shadow_size : Z
}.

Record rocm_xio_alloc_contig_req := {
  ac_size : Z;
  ac_nvme_bdf : Z;
  ac_phys_addr : Z;
  ac_mmap_offset : Z
}.

Record rocm_xio_free_contig_req := { fc_mmap_offset : Z }.

Record rocm_xio_quiesce_ns_req := {
  qn_bdev_fd : Z;
  qn_qid : Z
}.

Record rocm_xio_debug_resurrect_req := {
  dq_bdf : Z;
  dq_qid : Z
}.

(** ** The ioctl command table *)

Inductive ioctl_cmd :=
| GET_VRAM_PHYS_ADDR
| CREATE_QUEUE
| DELETE_QUEUE
| GET_DEVICE_INFO
| BIND_DEVICE
| REGISTER_QUEUE_ADDR
| UNREGISTER_QUEUE_ADDR
| REGISTER_BUFFER
| UNREGISTER_BUFFER
| GET_MMIO_BRIDGE_SHADOW_BUFFER
| ALLOC_CONTIG_QUEUE
| FREE_CONTIG_QUEUE
| QUIESCE_NS
| UNQUIESCE_NS
| DEBUG_RESURRECT_QID.

#[global] Instance ioctl_cmd_eq_dec : EqDecision ioctl_cmd.
Proof. solve_decision. Defined.

(** Transfer direction of the [_IOW] / [_IOWR] macro the command is defined
    with. *)
Inductive ioc_dir := IOW | IOWR.

#[global] Instance ioc_dir_eq_dec : EqDecision ioc_dir.
Proof. solve_decision. Defined.

(** ** C structure layout *)

(** A field is its size in bytes; a scalar's alignment is its size. *)
Definition align_up (x a : Z) : Z := (x + a - 1) / a * a.

Fixpoint offsets_from (off : Z) (fields : list Z) : list Z :=
  match fields with
  | [] => []
  | sz :: rest => let o := align_up off sz in o :: offsets_from (o + sz) rest
  end.

Definition struct_offsets (fields : list Z) : list Z := offsets_from 0 fields.

Fixpoint end_from (off : Z) (fields : list Z) : Z :=
  match fields with
  | [] => off
  | sz :: rest => end_from (align_up off sz + sz) rest
  end.

Definition struct_align (fields : list Z) : Z := foldr Z.max 1 fields.
Definition struct_size (fields : list Z) : Z :=
  align_up (end_from 0 fields) (struct_align fields).

(** Field sizes of each request structure, in declaration order. *)
Definition vram_req_fields : list Z := [4; 4; 4; 8; 8].
Definition create_queue_fields : list Z := [2; 2; 4; 8; 8; 8; 4].
Definition delete_queue_fields : list Z := [2; 1].
Definition device_info_fields : list Z := [4; 8; 8; 4; 4].
Definition bind_device_fields : list Z := [4].
Definition register_queue_addr_fields : list Z := [8; 8; 8; 8; 4; 1; 1; 1; 1].
Definition unregister_queue_addr_fields : list Z := [8].
Definition register_buffer_fields : list Z := [4; 8; 8; 8; 4; 4].
Definition unregister_buffer_fields : list Z := [8].
Definition mmio_bridge_shadow_fields : list Z := [4; 8; 8].
Definition alloc_contig_fields : list Z := [8; 4; 8; 4].
Definition free_contig_fields : list Z := [4].
Definition quiesce_ns_fields : list Z := [4; 4].
Definition debug_resurrect_fields : list Z := [2; 2].

(** [_IOW(ROCM_XIO_IOC_MAGIC, nr, type)] reduced to what it is built from: the
    direction, the command number and the argument structure's fields. *)
Definition ioctl_spec (c : ioctl_cmd) : ioc_dir * Z * list Z :=
  match c with
  | GET_VRAM_PHYS_ADDR => (IOWR, 1, vram_req_fields)
  | CREATE_QUEUE => (IOWR, 2, create_queue_fields)
  | DELETE_QUEUE => (IOW, 3, delete_queue_fields)
  | GET_DEVICE_INFO => (IOWR, 4, device_info_fields)
  | BIND_DEVICE => (IOW, 5, bind_device_fields)
  | REGISTER_QUEUE_ADDR => (IOW, 6, register_queue_addr_fields)
  | UNREGISTER_QUEUE_ADDR => (IOW, 7, unregister_queue_addr_fields)
  | REGISTER_BUFFER => (IOW, 8, register_buffer_fields)
  | UNREGISTER_BUFFER => (IOW, 9, unregister_buffer_fields)
  | GET_MMIO_BRIDGE_SHADOW_BUFFER => (IOWR, 10, mmio_bridge_shadow_fields)
  | ALLOC_CONTIG_QUEUE => (IOWR, 11, alloc_contig_fields)
  | FREE_CONTIG_QUEUE => (IOW, 12, free_contig_fields)
  | QUIESCE_NS => (IOW, 13, quiesce_ns_fields)
  | UNQUIESCE_NS => (IOW, 14, quiesce_ns_fields)
  | DEBUG_RESURRECT_QID => (IOW, 15, debug_resurrect_fields)
  end.

Definition ioctl_nr (c : ioctl_cmd) : Z := snd (fst (ioctl_spec c)).
Definition ioctl_arg_size (c : ioctl_cmd) : Z := struct_size (snd (ioctl_spec c)).

Definition all_ioctls : list ioctl_cmd :=
  [GET_VRAM_PHYS_ADDR; CREATE_QUEUE; DELETE_QUEUE; GET_DEVICE_INFO; BIND_DEVICE;
   REGISTER_QUEUE_ADDR; UNREGISTER_QUEUE_ADDR; REGISTER_BUFFER; UNREGISTER_BUFFER;
   GET_MMIO_BRIDGE_SHADOW_BUFFER; ALLOC_CONTIG_QUEUE; FREE_CONTIG_QUEUE;
   QUIESCE_NS; UNQUIESCE_NS; DEBUG_RESURRECT_QID].

(** The command selected by a number: what the [switch] of the ioctl handler
    recovers from the number user space passes. *)
Definition ioctl_of_nr (n : Z) : option ioctl_cmd :=
  find_first (fun c => ioctl_nr c =? n) all_ioctls.

(** ** Lemmas: the encoding as arithmetic *)

(** In range, the encoding is the mixed-radix number of its components. *)
Lemma ROCM_XIO_BDF_arith domain bus dev func :
  0 <= domain < 65536 -> 0 <= bus < 256 -> 0 <= dev < 32 -> 0 <= func < 8 ->
  ROCM_XIO_BDF domain bus dev func = domain * 65536 + bus * 256 + dev * 8 + func.
Proof.
  intros Hd Hb Hv Hf. unfold ROCM_XIO_BDF.
  rewrite (u32_small domain), (u32_small bus), (u32_small dev), (u32_small func) by lia.
  rewrite (u32_small (Z.shiftl domain 16)), (u32_small (Z.shiftl bus 8)),
    (u32_small (Z.shiftl dev 3)) by (rewrite Z.shiftl_mul_pow2 by lia; lia).
  rewrite <- !Z.lor_assoc.
  rewrite (lor_shiftl_add dev func 3) by (change (2 ^ 3) with 8; lia).
  rewrite (lor_shiftl_add bus _ 8) by (change (2 ^ 3) with 8; change (2 ^ 8) with 256; lia).
  rewrite (lor_shiftl_add domain _ 16)
    by (change (2 ^ 3) with 8; change (2 ^ 8) with 256; change (2 ^ 16) with 65536; lia).
  change (2 ^ 3) with 8. change (2 ^ 8) with 256. change (2 ^ 16) with 65536. lia.
Qed.

Lemma all_ioctls_complete c : c ∈ all_ioctls.
Proof. apply list_elem_of_In. destruct c; cbv; tauto. Qed.

(** The ioctl table is unambiguous: each command number selects exactly
    the command it was defined for, so the driver's dispatch on the number
    recovers the command user space issued. *)
Theorem ioctl_table_roundtrip (c : ioctl_cmd) : ioctl_of_nr (ioctl_nr c) = Some c.
Proof. by destruct c. Qed.

(** The compiler's layout of every request structure is the one the
    unit test of the ABI pins down: total sizes of the argument structures,
    and the offsets of the fields of the VRAM, quiesce and resurrect
    requests. *)
Theorem uapi_layout :
  map ioctl_arg_size all_ioctls =
    [32; 40; 4; 32; 4; 40; 8; 40; 8; 24; 32; 4; 8; 8; 4]
  /\ struct_offsets vram_req_fields = [0; 4; 8; 16; 24]
  /\ struct_offsets quiesce_ns_fields = [0; 4]
  /\ struct_offsets debug_resurrect_fields = [0; 2].
Proof. by vm_compute. Qed.
