(* ===== verification/Kernel.v ===== *)
(** * The kernel around the module

    The module calls kernel services whose code is not part of the
    repository: memory allocation, PCI, dma-buf, the coherent DMA allocator,
    blk-mq, probes, the NVMe driver.  They are the parameters of the model:
    the class [Kernel] has one field per service, a function of the history of
    calls made so far, so that every answer the kernel may give, in any order,
    is some instance.  Each call the module makes is recorded as an [event];
    the history of events is the module's observable behaviour.

    Services that hand out a reference (allocations, reference counts, DMA
    mappings, quiesce depths, probe registrations) are tracked by a ledger:
    [held tr r] is the number of references to [r] acquired and not yet
    released in the history [tr]. *)

From S2P Require Import Prelude Uapi.

(** ** Admin commands the module submits itself *)

Inductive admin_cmd :=
| create_cq (prp1 cqid qsize cq_flags irq_vector : Z)
| create_sq (prp1 sqid qsize sq_flags cqid : Z).

(** ** What the module writes back to user space *)

Inductive user_payload :=
| UVram (r : rocm_xio_vram_req)
| UInfo (r : rocm_xio_device_info)
| UBuffer (r : rocm_xio_register_buffer_req)
| UShadow (r : rocm_xio_mmio_bridge_shadow_req)
| UContig (r : rocm_xio_alloc_contig_req).

(** ** Calls that fail without side effect *)

Inductive failed_call :=
| FKmalloc | FPciLookup | FDmaBufGet | FAttach | FPin | FMap | FDmaAlloc
| FCopyToUser | FFget | FMmap | FRemap | FChrdev | FClass | FDevice
| FKprobe | FKretprobe.

Inductive krp := KrpAllocQueue | KrpCreateQueue.

#[global] Instance krp_eq_dec : EqDecision krp.
Proof. solve_decision. Defined.

Inductive event :=
| EvFail (c : failed_call)
| EvKmalloc (p : ptr)
| EvKfree (p : ptr)
| EvPciGet (dev : ptr)
| EvPciPut (dev : ptr)
| EvDmaBufGet (d : ptr)
| EvDmaBufPut (d : ptr)
| EvAttach (d a : ptr)
| EvDetach (d a : ptr)
| EvPin (a : ptr)
| EvUnpin (a : ptr)
| EvMap (a sgt : ptr)
| EvUnmap (a sgt : ptr)
| EvFget (f : ptr)
| EvFput (f : ptr)
| EvDmaAlloc (dev : ptr) (size : Z) (cpu dma : Z)
| EvDmaFree (dev : ptr) (size : Z) (cpu dma : Z)
| EvMemset (addr len : Z)
| EvQuiesce (q : ptr)
| EvUnquiesce (q : ptr)
| EvStopHw (hctx : ptr)
| EvStartHw (hctx : ptr)
| EvSubmit (q : ptr) (c : admin_cmd) (rc : Z)
| EvSchedSnapshot
| EvSchedResurrect
| EvCancelWork
| EvCopyOut (u : user_payload)
| EvRemapPfn (vm_start pfn size : Z)
| EvDmaMmap (dev vm_start vm_pgoff cpu dma size : Z)
| EvRegChrdev (major : Z)
| EvUnregChrdev (major : Z)
| EvClassCreate (c : ptr)
| EvClassDestroy (c : ptr)
| EvDeviceCreate (c : ptr) (major : Z)
| EvDeviceDestroy (c : ptr) (major : Z)
| EvRegKprobe
| EvUnregKprobe
| EvRegKretprobe (k : krp)
| EvUnregKretprobe (k : krp)
| EvUseAfterFree (p : ptr).

(** Most recent event first. *)
Definition trace : Type := list event.

(** ** The ledger *)

Inductive resource :=
| RMem (p : ptr)                       (* a kmalloc'ed object *)
| RPci (dev : ptr)                     (* references on a pci_dev *)
| RDmaBuf (d : ptr)                    (* references on a dma_buf *)
| RAttach (d a : ptr)                  (* an attachment of a dma_buf *)
| RPin (a : ptr)                       (* pin count of an attachment *)
| RMap (a sgt : ptr)                   (* a mapped scatter-gather table *)
| RFile (f : ptr)                      (* references on a struct file *)
| RCoherent (dev : ptr) (size cpu dma : Z)
| RQuiesce (q : ptr)                   (* quiesce_depth of a request_queue *)
| RChrdev (major : Z)
| RClass (c : ptr)
| RDevice (c : ptr) (major : Z)
| RKprobe
| RKretprobe (k : krp).

#[global] Instance resource_eq_dec : EqDecision resource.
Proof. solve_decision. Defined.

(** The resource an event acquires or releases, with its sign. *)
Definition effect (e : event) : option (resource * Z) :=
  match e with
  | EvKmalloc p => Some (RMem p, 1)
  | EvKfree p => Some (RMem p, -1)
  | EvPciGet d => Some (RPci d, 1)
  | EvPciPut d => Some (RPci d, -1)
  | EvDmaBufGet d => Some (RDmaBuf d, 1)
  | EvDmaBufPut d => Some (RDmaBuf d, -1)
  | EvAttach d a => Some (RAttach d a, 1)
  | EvDetach d a => Some (RAttach d a, -1)
  | EvPin a => Some (RPin a, 1)
  | EvUnpin a => Some (RPin a, -1)
  | EvMap a s => Some (RMap a s, 1)
  | EvUnmap a s => Some (RMap a s, -1)
  | EvFget f => Some (RFile f, 1)
  | EvFput f => Some (RFile f, -1)
  | EvDmaAlloc d n c a => Some (RCoherent d n c a, 1)
  | EvDmaFree d n c a => Some (RCoherent d n c a, -1)
  | EvQuiesce q => Some (RQuiesce q, 1)
  | EvUnquiesce q => Some (RQuiesce q, -1)
  | EvRegChrdev m => Some (RChrdev m, 1)
  | EvUnregChrdev m => Some (RChrdev m, -1)
  | EvClassCreate c => Some (RClass c, 1)
  | EvClassDestroy c => Some (RClass c, -1)
  | EvDeviceCreate c m => Some (RDevice c m, 1)
  | EvDeviceDestroy c m => Some (RDevice c m, -1)
  | EvRegKprobe => Some (RKprobe, 1)
  | EvUnregKprobe => Some (RKprobe, -1)
  | EvRegKretprobe k => Some (RKretprobe k, 1)
  | EvUnregKretprobe k => Some (RKretprobe k, -1)
  | _ => None
  end.

(** One unit of [r'] seen from [r]. *)
Definition unit_of (r' r : resource) : Z := ind (bool_decide (r' = r)).

Definition delta (e : event) (r : resource) : Z :=
  match effect e with
  | Some (r', n) => n * unit_of r' r
  | None => 0
  end.

Definition held (tr : trace) (r : resource) : Z := sumZ (fun e => delta e r) tr.

(** ** Values the kernel returns *)

(** A pointer or an error encoded in a pointer ([IS_ERR]/[PTR_ERR]); the
    error is the positive errno, so [PTR_ERR] is always negative. *)
Inductive errptr :=
| ErrPtr (e : positive)
| OkPtr (p : ptr).

Definition PTR_ERR (e : positive) : Z := Z.neg e.

(** One mapped segment of a scatter-gather table. *)
Record scatterlist := { sg_phys : Z; sg_dma_address : Z; sg_length : Z }.

(** The part of a TTM resource that the module reads. *)
Record ttm_resource := { tr_start : Z; tr_mem_type : Z; tr_size : Z }.

(** ** The services *)

Class Kernel := {
  (** kmalloc: the object's address and the stale word left in it, or NULL *)
  k_kmalloc : trace -> option (ptr * Z);
  (** pci_get_domain_bus_and_slot *)
  k_pci_lookup : trace -> Z -> Z -> Z -> ptr;
  (** pci_get_device(PCI_VENDOR_ID_ATI, PCI_ANY_ID, NULL) *)
  k_pci_get_amd_gpu : trace -> ptr;
  (** the order in which for_each_pci_dev visits the devices *)
  k_pci_devices : trace -> list ptr;
  k_pci_has_driver : trace -> ptr -> bool;
  k_pci_get_drvdata : trace -> ptr -> ptr;
  k_pci_domain_nr : ptr -> Z;
  k_pci_bus_number : ptr -> Z;
  k_pci_devfn : ptr -> Z;
  k_pci_resource_mem : ptr -> nat -> bool;
  k_pci_resource_prefetch : ptr -> nat -> bool;
  k_pci_resource_start : ptr -> nat -> Z;
  k_pci_resource_len : ptr -> nat -> Z;
  k_pci_read_config_dword : trace -> ptr -> Z -> Z;
  (** dma-buf *)
  k_dma_buf_get : trace -> Z -> errptr;
  k_dma_buf_size : ptr -> Z;
  k_dma_buf_priv : ptr -> ptr;
  k_ttm_resource : ptr -> option ttm_resource;
  k_dma_buf_attach : trace -> ptr -> ptr -> errptr;
  k_dma_buf_pin : trace -> ptr -> Z;
  k_dma_buf_map : trace -> ptr -> errptr;
  k_sgt : ptr -> list scatterlist;
  (** coherent DMA: CPU address and bus address, or NULL *)
  k_dma_alloc : trace -> ptr -> Z -> option (Z * Z);
  k_dma_mmap : trace -> ptr -> Z -> Z;
  k_remap_pfn_range : trace -> Z -> Z -> Z -> Z;
  (** user space and files *)
  k_copy_to_user_faults : trace -> bool;
  k_capable_sys_admin : trace -> bool;
  k_fget : trace -> Z -> ptr;
  (** block layer: rocm_xio_file_to_bdev's reads, and blk-mq *)
  k_f_mapping_host : ptr -> option ptr;
  k_file_inode : ptr -> ptr;
  k_S_ISBLK : ptr -> bool;
  k_I_BDEV : ptr -> ptr;
  k_bdev_get_queue : ptr -> ptr;
  k_queue_is_mq : ptr -> bool;
  k_nr_hw_queues : trace -> ptr -> Z;
  k_hctx : ptr -> Z -> ptr;
  k_queue_disk : ptr -> ptr;
  (** NVMe driver, and the constants of the NVMe header *)
  k_NVME_QUEUE_PHYS_CONTIG : Z;
  k_NVME_CQ_IRQ_ENABLED : Z;
  k_sizeof_nvme_completion : Z;
  k_submit_sync_cmd : trace -> ptr -> admin_cmd -> Z;
  k_virt_addr_valid : Z -> bool;
  k_virt_to_phys : Z -> Z;
  (** module registration *)
  k_register_chrdev : trace -> Z;
  k_class_create : trace -> errptr;
  k_device_create : trace -> ptr -> Z -> errptr;
  k_register_kprobe : trace -> Z;
  k_register_kretprobe : trace -> krp -> Z
}.

(** What the code relies on, as the kernel documents it: pointers returned by
    the dma-buf calls are not NULL when they are not errors, [dma_buf_pin]
    returns zero or a negative errno, kmalloc never returns NULL as an
    object nor the address of an object that is still allocated. *)
Class KernelOk (K : Kernel) := {
  ok_dma_buf_get : forall tr fd d, k_dma_buf_get tr fd = OkPtr d -> d <> NULL;
  ok_attach : forall tr d dev a, k_dma_buf_attach tr d dev = OkPtr a -> a <> NULL;
  ok_map : forall tr a s, k_dma_buf_map tr a = OkPtr s -> s <> NULL;
  ok_pin : forall tr a, k_dma_buf_pin tr a <= 0;
  ok_kmalloc : forall tr p g, k_kmalloc tr = Some (p, g) -> p <> NULL /\ held tr (RMem p) = 0
}.

(** ** Ledger lemmas *)

Lemma held_cons e tr r : held (e :: tr) r = delta e r + held tr r.
Proof. done. Qed.

Lemma held_nil r : held [] r = 0.
Proof. done. Qed.

Lemma held_app tr1 tr2 r : held (tr1 ++ tr2) r = held tr1 r + held tr2 r.
Proof. apply sumZ_app. Qed.

Lemma unit_of_nonneg r' r : 0 <= unit_of r' r.
Proof. unfold unit_of, ind. by destruct (bool_decide _). Qed.

Lemma unit_of_refl r : unit_of r r = 1.
Proof. unfold unit_of. by rewrite bool_decide_eq_true_2. Qed.

Lemma unit_of_ne r' r : r' <> r -> unit_of r' r = 0.
Proof. intros. unfold unit_of. by rewrite bool_decide_eq_false_2. Qed.

(** Last start/stop of a hardware queue: [true] when it was stopped. *)
Fixpoint hw_stopped (tr : trace) (h : ptr) : bool :=
  match tr with
  | [] => false
  | EvStopHw h' :: tr' => if h' =? h then true else hw_stopped tr' h
  | EvStartHw h' :: tr' => if h' =? h then false else hw_stopped tr' h
  | _ :: tr' => hw_stopped tr' h
  end.

(** The admin commands of a history, most recent first. *)
Definition submitted (tr : trace) : list (ptr * admin_cmd * Z) :=
  omap (fun e => match e with EvSubmit q c rc => Some (q, c, rc) | _ => None end) tr.

(** Whether a history dereferenced a freed object. *)
Definition uaf_free (tr : trace) : bool :=
  forallb (fun e => match e with EvUseAfterFree _ => false | _ => true end) tr.

#[export] Hint Rewrite held_cons : sums.
