(* ===== verification/State.v ===== *)
(** * Data model of the kernel module

    The structures and file-scope variables of
    [src/kernel/rocm-xio/rocm-xio.c] as one state record, the kernel calls as
    state-passing primitives that log the event they cause, and the resources
    each tracked structure owns. *)

From S2P Require Import Prelude Uapi Kernel.

(** ** Structures.  An entry linked into a kernel list carries its own address
    ([*_self]), which is what [kfree] and the list operations act on. *)

Record queue_addr_entry := {
  qa_self : ptr;
  qa_virt_addr : Z;
  qa_phys_addr : Z;
  qa_size : Z;
  qa_queue_type : Z;
  qa_nvme_bdf : Z;
  qa_prp2 : Z;
  qa_owner : ptr
}.

Record vram_buffer_entry := {
  vb_self : ptr;
  vb_virt_addr : Z;
  vb_phys_addr : Z;
  vb_size : Z;
  vb_owner : ptr;
  vb_dmabuf : ptr;
  vb_attach : ptr;
  vb_sgt : ptr;
  vb_nvme_pdev : ptr;
  vb_is_passthrough : bool
}.

Record contig_alloc_entry := {
  ca_self : ptr;
  ca_cpu_addr : Z;
  ca_dma_addr : Z;
  ca_size : Z;
  ca_id : Z;
  ca_pdev : ptr;
  ca_owner : ptr;
  ca_ref : Z
}.

Inductive quiesced_ns_mode := QUIESCED_NS_MODE_FULL | QUIESCED_NS_MODE_HCTX.

#[global] Instance quiesced_ns_mode_eq_dec : EqDecision quiesced_ns_mode.
Proof. solve_decision. Defined.

Record quiesced_ns_entry := {
  qe_self : ptr;
  qe_bdev_file : ptr;
  qe_bd : ptr;
  qe_owner : ptr;
  qe_mode : quiesced_ns_mode;
  qe_hctx_idx : Z
}.

(** Mirror of the driver's [struct nvme_queue]. *)
Record rocm_xio_nvmeq_layout := {
  nq_dev : ptr;
  nq_cqes : ptr;
  nq_sq_dma_addr : Z;
  nq_cq_dma_addr : Z;
  nq_q_depth : Z;
  nq_cq_vector : Z;
  nq_sq_tail : Z;
  nq_last_sq_tail : Z;
  nq_cq_head : Z;
  nq_qid : Z;
  nq_cq_phase : Z;
  nq_flags : Z
}.

(** Mirror of the head of the driver's [struct nvme_dev]. *)
Record rocm_xio_nvme_dev_layout := { dl_queues : ptr }.

(** Position of the polled bit within [nvme_queue->flags]. *)
Definition ROCM_XIO_NVMEQ_POLLED : Z := 3.

Record nvme_queue_snapshot := {
  sn_self : ptr;
  sn_pdev : ptr;
  sn_qid : Z;
  sn_sq_dma_addr : Z;
  sn_cq_dma_addr : Z;
  sn_q_depth : Z;
  sn_cq_vector : Z;
  sn_polled : bool;
  sn_admin_q : ptr;
  sn_dev : ptr
}.

Record poisoned_qid_entry := {
  pq_self : ptr;
  pq_bdf : Z;
  pq_qid : Z;
  pq_created : bool;
  pq_needs_resurrect : bool
}.

Record pending_snapshot_entry := {
  ps_self : ptr;
  ps_nvme_dev : ptr;
  ps_qid : Z;
  ps_sq_dma_addr : Z;
  ps_cq_dma_addr : Z;
  ps_q_depth : Z;
  ps_cq_vector : Z;
  ps_polled : bool;
  ps_admin_q : ptr
}.

(** Data a kretprobe passes from function entry to function return. *)
Record rocm_xio_alloc_queue_ctx := {
  cx_nvme_dev : ptr;
  cx_nvmeq : ptr;
  cx_qid : Z
}.

(** ** Build configuration ([CONFIG_X86_64], [LINUX_VERSION_CODE]) *)

Record build_config := {
  cfg_x86_64 : bool;
  cfg_linux_6_8_to_6_10 : bool
}.

(** ** The contiguous-allocation component: live objects by address, the list
    [contig_allocs], the next id, and the VMAs whose private data point to an
    object ([vm_private_data] with [contig_vm_ops]). *)
Record contig_state := {
  cs_objs : gmap Z contig_alloc_entry;
  cs_list : list ptr;
  cs_next_id : Z;
  cs_vmas : gmap Z ptr
}.

(** ** Registration state: the module parameter and the handles kept by
    [rocm_xio_init] *)
Record module_regs := {
  mr_inject_enabled : bool;
  mr_major : Z;
  mr_class : ptr;
  mr_device : ptr;
  mr_alloc_krp_registered : bool;
  mr_create_krp_registered : bool
}.

(** ** Driver memory the module reads and writes through its mirrors *)
Record nvme_memory := {
  nm_nvmeq : ptr -> rocm_xio_nvmeq_layout;
  nm_dev : ptr -> rocm_xio_nvme_dev_layout;
  nm_admin_q : ptr -> ptr
}.

(** ** The whole state *)
Record xio_state := {
  st_trace : trace;
  st_queue_addrs : list queue_addr_entry;
  st_vram_buffers : list vram_buffer_entry;
  st_contig : contig_state;
  st_quiesced : list quiesced_ns_entry;
  st_snapshots : list nvme_queue_snapshot;
  st_pending : list pending_snapshot_entry;
  st_poisoned : list poisoned_qid_entry;
  st_shadow_gpa : Z;
  st_shadow_size : Z;
  st_regs : module_regs;
  st_nvme : nvme_memory
}.

Abbreviation X := (M xio_state).

(** ** Field updates *)

Definition set_trace (f : trace -> trace) (s : xio_state) : xio_state :=
  {| st_trace := f (st_trace s); st_queue_addrs := st_queue_addrs s;
     st_vram_buffers := st_vram_buffers s; st_contig := st_contig s;
     st_quiesced := st_quiesced s; st_snapshots := st_snapshots s;
     st_pending := st_pending s; st_poisoned := st_poisoned s;
     st_shadow_gpa := st_shadow_gpa s; st_shadow_size := st_shadow_size s;
     st_regs := st_regs s; st_nvme := st_nvme s |}.

Definition set_queue_addrs (f : list queue_addr_entry -> list queue_addr_entry)
    (s : xio_state) : xio_state :=
  {| st_trace := st_trace s; st_queue_addrs := f (st_queue_addrs s);
     st_vram_buffers := st_vram_buffers s; st_contig := st_contig s;
     st_quiesced := st_quiesced s; st_snapshots := st_snapshots s;
     st_pending := st_pending s; st_poisoned := st_poisoned s;
     st_shadow_gpa := st_shadow_gpa s; st_shadow_size := st_shadow_size s;
     st_regs := st_regs s; st_nvme := st_nvme s |}.

Definition set_vram_buffers (f : list vram_buffer_entry -> list vram_buffer_entry)
    (s : xio_state) : xio_state :=
  {| st_trace := st_trace s; st_queue_addrs := st_queue_addrs s;
     st_vram_buffers := f (st_vram_buffers s); st_contig := st_contig s;
     st_quiesced := st_quiesced s; st_snapshots := st_snapshots s;
     st_pending := st_pending s; st_poisoned := st_poisoned s;
     st_shadow_gpa := st_shadow_gpa s; st_shadow_size := st_shadow_size s;
     st_regs := st_regs s; st_nvme := st_nvme s |}.

Definition set_contig (f : contig_state -> contig_state) (s : xio_state) : xio_state :=
  {| st_trace := st_trace s; st_queue_addrs := st_queue_addrs s;
     st_vram_buffers := st_vram_buffers s; st_contig := f (st_contig s);
     st_quiesced := st_quiesced s; st_snapshots := st_snapshots s;
     st_pending := st_pending s; st_poisoned := st_poisoned s;
     st_shadow_gpa := st_shadow_gpa s; st_shadow_size := st_shadow_size s;
     st_regs := st_regs s; st_nvme := st_nvme s |}.

Definition set_quiesced (f : list quiesced_ns_entry -> list quiesced_ns_entry)
    (s : xio_state) : xio_state :=
  {| st_trace := st_trace s; st_queue_addrs := st_queue_addrs s;
     st_vram_buffers := st_vram_buffers s; st_contig := st_contig s;
     st_quiesced := f (st_quiesced s); st_snapshots := st_snapshots s;
     st_pending := st_pending s; st_poisoned := st_poisoned s;
     st_shadow_gpa := st_shadow_gpa s; st_shadow_size := st_shadow_size s;
     st_regs := st_regs s; st_nvme := st_nvme s |}.

Definition set_snapshots (f : list nvme_queue_snapshot -> list nvme_queue_snapshot)
    (s : xio_state) : xio_state :=
  {| st_trace := st_trace s; st_queue_addrs := st_queue_addrs s;
     st_vram_buffers := st_vram_buffers s; st_contig := st_contig s;
     st_quiesced := st_quiesced s; st_snapshots := f (st_snapshots s);
     st_pending := st_pending s; st_poisoned := st_poisoned s;
     st_shadow_gpa := st_shadow_gpa s; st_shadow_size := st_shadow_size s;
     st_regs := st_regs s; st_nvme := st_nvme s |}.

Definition set_pending (f : list pending_snapshot_entry -> list pending_snapshot_entry)
    (s : xio_state) : xio_state :=
  {| st_trace := st_trace s; st_queue_addrs := st_queue_addrs s;
     st_vram_buffers := st_vram_buffers s; st_contig := st_contig s;
     st_quiesced := st_quiesced s; st_snapshots := st_snapshots s;
     st_pending := f (st_pending s); st_poisoned := st_poisoned s;
     st_shadow_gpa := st_shadow_gpa s; st_shadow_size := st_shadow_size s;
     st_regs := st_regs s; st_nvme := st_nvme s |}.

Definition set_poisoned (f : list poisoned_qid_entry -> list poisoned_qid_entry)
    (s : xio_state) : xio_state :=
  {| st_trace := st_trace s; st_queue_addrs := st_queue_addrs s;
     st_vram_buffers := st_vram_buffers s; st_contig := st_contig s;
     st_quiesced := st_quiesced s; st_snapshots := st_snapshots s;
     st_pending := st_pending s; st_poisoned := f (st_poisoned s);
     st_shadow_gpa := st_shadow_gpa s; st_shadow_size := st_shadow_size s;
     st_regs := st_regs s; st_nvme := st_nvme s |}.

Definition set_shadow (gpa size : Z) (s : xio_state) : xio_state :=
  {| st_trace := st_trace s; st_queue_addrs := st_queue_addrs s;
     st_vram_buffers := st_vram_buffers s; st_contig := st_contig s;
     st_quiesced := st_quiesced s; st_snapshots := st_snapshots s;
     st_pending := st_pending s; st_poisoned := st_poisoned s;
     st_shadow_gpa := gpa; st_shadow_size := size;
     st_regs := st_regs s; st_nvme := st_nvme s |}.

Definition set_regs (f : module_regs -> module_regs) (s : xio_state) : xio_state :=
  {| st_trace := st_trace s; st_queue_addrs := st_queue_addrs s;
     st_vram_buffers := st_vram_buffers s; st_contig := st_contig s;
     st_quiesced := st_quiesced s; st_snapshots := st_snapshots s;
     st_pending := st_pending s; st_poisoned := st_poisoned s;
     st_shadow_gpa := st_shadow_gpa s; st_shadow_size := st_shadow_size s;
     st_regs := f (st_regs s); st_nvme := st_nvme s |}.

Definition set_nvme (f : nvme_memory -> nvme_memory) (s : xio_state) : xio_state :=
  {| st_trace := st_trace s; st_queue_addrs := st_queue_addrs s;
     st_vram_buffers := st_vram_buffers s; st_contig := st_contig s;
     st_quiesced := st_quiesced s; st_snapshots := st_snapshots s;
     st_pending := st_pending s; st_poisoned := st_poisoned s;
     st_shadow_gpa := st_shadow_gpa s; st_shadow_size := st_shadow_size s;
     st_regs := st_regs s; st_nvme := f (st_nvme s) |}.

(** ** Kernel calls as primitives *)

Definition log (e : event) : X unit := modify (set_trace (cons e)).

(** The kernel's answer given the history so far. *)
Definition ask {A} (f : trace -> A) : X A := gets (fun s => f (st_trace s)).

Section Primitives.
Context `{K : Kernel}.

Definition kmalloc : X (option (ptr * Z)) :=
  let* r := ask k_kmalloc in
  match r with
  | Some (p, g) => log (EvKmalloc p) ;;; ret (Some (p, g))
  | None => log (EvFail FKmalloc) ;;; ret None
  end.

Definition kfree (p : ptr) : X unit := log (EvKfree p).

(** [pci_get_domain_bus_and_slot]: takes a reference when it finds a device. *)
Definition pci_get_domain_bus_and_slot (domain bus devfn : Z) : X ptr :=
  let* p := ask (fun tr => k_pci_lookup tr domain bus devfn) in
  if is_null p then log (EvFail FPciLookup) ;;; ret NULL
  else log (EvPciGet p) ;;; ret p.

Definition pci_dev_put (p : ptr) : X unit := log (EvPciPut p).

(** [copy_to_user]: [true] when the copy faults. *)
Definition copy_to_user (u : user_payload) : X bool :=
  let* f := ask k_copy_to_user_faults in
  if (f : bool) then log (EvFail FCopyToUser) ;;; ret true
  else log (EvCopyOut u) ;;; ret false.

(** What each tracked structure owns, counted against a resource. *)
Definition own_queue (e : queue_addr_entry) (r : resource) : Z :=
  unit_of (RMem (qa_self e)) r.

(** The bundle a passthrough registration keeps alive. *)
Definition own_attachment (d a t dev : ptr) (r : resource) : Z :=
  unit_of (RDmaBuf d) r + unit_of (RAttach d a) r + unit_of (RPin a) r
  + unit_of (RMap a t) r + unit_of (RPci dev) r.

Definition own_buffer (e : vram_buffer_entry) (r : resource) : Z :=
  unit_of (RMem (vb_self e)) r +
  (if vb_is_passthrough e
   then own_attachment (vb_dmabuf e) (vb_attach e) (vb_sgt e) (vb_nvme_pdev e) r
   else 0).

Definition own_contig (ca : contig_alloc_entry) (r : resource) : Z :=
  unit_of (RMem (ca_self ca)) r + unit_of (RPci (ca_pdev ca)) r
  + unit_of (RCoherent (ca_pdev ca) (ca_size ca) (ca_cpu_addr ca) (ca_dma_addr ca)) r.

Definition own_quiesced (e : quiesced_ns_entry) (r : resource) : Z :=
  unit_of (RMem (qe_self e)) r + unit_of (RFile (qe_bdev_file e)) r +
  (match qe_mode e with
   | QUIESCED_NS_MODE_FULL => unit_of (RQuiesce (k_bdev_get_queue (qe_bd e))) r
   | QUIESCED_NS_MODE_HCTX => 0
   end).

Definition own_snapshot (e : nvme_queue_snapshot) (r : resource) : Z :=
  unit_of (RMem (sn_self e)) r + unit_of (RPci (sn_pdev e)) r.

Definition own_pending (e : pending_snapshot_entry) (r : resource) : Z :=
  unit_of (RMem (ps_self e)) r.

Definition own_poisoned (e : poisoned_qid_entry) (r : resource) : Z :=
  unit_of (RMem (pq_self e)) r.

(** Everything the module's tables account for. *)
Definition owned (s : xio_state) (r : resource) : Z :=
  sumZ (fun e => own_queue e r) (st_queue_addrs s)
  + sumZ (fun e => own_buffer e r) (st_vram_buffers s)
  + msum (fun e => own_contig e r) (cs_objs (st_contig s))
  + sumZ (fun e => own_quiesced e r) (st_quiesced s)
  + sumZ (fun e => own_snapshot e r) (st_snapshots s)
  + sumZ (fun e => own_pending e r) (st_pending s)
  + sumZ (fun e => own_poisoned e r) (st_poisoned s).

(** The ledger is balanced relative to a base history: whatever was acquired
    since then and not released is accounted for by a table entry. *)
Definition balanced (tr0 : trace) (s : xio_state) : Prop :=
  forall r, held (st_trace s) r = held tr0 r + owned s r.

(** Same, with [extra] references in the hands of the running handler. *)
Definition balanced_with (tr0 : trace) (extra : resource -> Z) (s : xio_state) : Prop :=
  forall r, held (st_trace s) r = held tr0 r + owned s r + extra r.

Lemma balanced_with_0 tr0 s : balanced tr0 s <-> balanced_with tr0 (fun _ => 0) s.
Proof. split; intros H r; specialize (H r); cbv beta in *; lia. Qed.

(** What is held beyond the tables; a computation that leaves it alone keeps
    every balance. *)
Definition slack (s : xio_state) (r : resource) : Z := held (st_trace s) r - owned s r.

Lemma balanced_slack tr0 s : balanced tr0 s <-> forall r, slack s r = held tr0 r.
Proof. unfold balanced, slack. split; intros H r; specialize (H r); lia. Qed.

(** *** Nothing is owned a negative number of times *)

Lemma own_buffer_nonneg e r : 0 <= own_buffer e r.
Proof.
  unfold own_buffer, own_attachment.
  destruct (vb_is_passthrough e); repeat apply Z.add_nonneg_nonneg; apply unit_of_nonneg || done.
Qed.

Lemma own_contig_nonneg e r : 0 <= own_contig e r.
Proof. unfold own_contig. repeat apply Z.add_nonneg_nonneg; apply unit_of_nonneg. Qed.

Lemma own_quiesced_nonneg e r : 0 <= own_quiesced e r.
Proof.
  unfold own_quiesced.
  destruct (qe_mode e); repeat apply Z.add_nonneg_nonneg; apply unit_of_nonneg || done.
Qed.

Lemma own_snapshot_nonneg e r : 0 <= own_snapshot e r.
Proof. unfold own_snapshot. repeat apply Z.add_nonneg_nonneg; apply unit_of_nonneg. Qed.

(** Everything in the tables but the contiguous objects. *)
Lemma owned_contig_le s r :
  msum (fun e => own_contig e r) (cs_objs (st_contig s)) <= owned s r.
Proof.
  pose proof (sumZ_nonneg (fun e => own_queue e r) (st_queue_addrs s)
    (fun e => unit_of_nonneg _ _)).
  pose proof (sumZ_nonneg _ (st_vram_buffers s) (fun e => own_buffer_nonneg e r)).
  pose proof (sumZ_nonneg _ (st_quiesced s) (fun e => own_quiesced_nonneg e r)).
  pose proof (sumZ_nonneg _ (st_snapshots s) (fun e => own_snapshot_nonneg e r)).
  pose proof (sumZ_nonneg (fun e => own_pending e r) (st_pending s)
    (fun e => unit_of_nonneg _ _)).
  pose proof (sumZ_nonneg (fun e => own_poisoned e r) (st_poisoned s)
    (fun e => unit_of_nonneg _ _)).
  unfold owned. lia.
Qed.

(** *** The books after an update *)

Lemma owned_set_trace f s r : owned (set_trace f s) r = owned s r.
Proof. done. Qed.

Lemma owned_set_queue_addrs f s r :
  owned (set_queue_addrs f s) r = owned s r
    - sumZ (fun e => own_queue e r) (st_queue_addrs s)
    + sumZ (fun e => own_queue e r) (f (st_queue_addrs s)).
Proof. destruct s. unfold owned. cbn [set_queue_addrs st_queue_addrs st_vram_buffers
  st_contig st_quiesced st_snapshots st_pending st_poisoned]. lia. Qed.

Lemma owned_set_vram_buffers f s r :
  owned (set_vram_buffers f s) r = owned s r
    - sumZ (fun e => own_buffer e r) (st_vram_buffers s)
    + sumZ (fun e => own_buffer e r) (f (st_vram_buffers s)).
Proof. destruct s. unfold owned. cbn [set_vram_buffers st_queue_addrs st_vram_buffers
  st_contig st_quiesced st_snapshots st_pending st_poisoned]. lia. Qed.

Lemma owned_set_contig f s r :
  owned (set_contig f s) r = owned s r
    - msum (fun e => own_contig e r) (cs_objs (st_contig s))
    + msum (fun e => own_contig e r) (cs_objs (f (st_contig s))).
Proof. destruct s. unfold owned. cbn [set_contig st_queue_addrs st_vram_buffers
  st_contig st_quiesced st_snapshots st_pending st_poisoned]. lia. Qed.

Lemma owned_set_quiesced f s r :
  owned (set_quiesced f s) r = owned s r
    - sumZ (fun e => own_quiesced e r) (st_quiesced s)
    + sumZ (fun e => own_quiesced e r) (f (st_quiesced s)).
Proof. destruct s. unfold owned. cbn [set_quiesced st_queue_addrs st_vram_buffers
  st_contig st_quiesced st_snapshots st_pending st_poisoned]. lia. Qed.

Lemma owned_set_snapshots f s r :
  owned (set_snapshots f s) r = owned s r
    - sumZ (fun e => own_snapshot e r) (st_snapshots s)
    + sumZ (fun e => own_snapshot e r) (f (st_snapshots s)).
Proof. destruct s. unfold owned. cbn [set_snapshots st_queue_addrs st_vram_buffers
  st_contig st_quiesced st_snapshots st_pending st_poisoned]. lia. Qed.

Lemma owned_set_pending f s r :
  owned (set_pending f s) r = owned s r
    - sumZ (fun e => own_pending e r) (st_pending s)
    + sumZ (fun e => own_pending e r) (f (st_pending s)).
Proof. destruct s. unfold owned. cbn [set_pending st_queue_addrs st_vram_buffers
  st_contig st_quiesced st_snapshots st_pending st_poisoned]. lia. Qed.

Lemma owned_set_poisoned f s r :
  owned (set_poisoned f s) r = owned s r
    - sumZ (fun e => own_poisoned e r) (st_poisoned s)
    + sumZ (fun e => own_poisoned e r) (f (st_poisoned s)).
Proof. destruct s. unfold owned. cbn [set_poisoned st_queue_addrs st_vram_buffers
  st_contig st_quiesced st_snapshots st_pending st_poisoned]. lia. Qed.

Lemma owned_set_shadow g z s r : owned (set_shadow g z s) r = owned s r.
Proof. done. Qed.

Lemma owned_set_regs f s r : owned (set_regs f s) r = owned s r.
Proof. done. Qed.

Lemma owned_set_nvme f s r : owned (set_nvme f s) r = owned s r.
Proof. done. Qed.

(** *** Rules of the primitives *)

Lemma wp_log e (Q : unit -> xio_state -> Prop) s :
  Q tt (set_trace (cons e) s) -> wp (log e) Q s.
Proof. done. Qed.

Lemma wp_ask {A} (f : trace -> A) (Q : A -> xio_state -> Prop) s :
  Q (f (st_trace s)) s -> wp (ask f) Q s.
Proof. done. Qed.

Lemma wp_kmalloc (Q : option (ptr * Z) -> xio_state -> Prop) s :
  (forall p g, k_kmalloc (st_trace s) = Some (p, g) ->
     Q (Some (p, g)) (set_trace (cons (EvKmalloc p)) s)) ->
  (k_kmalloc (st_trace s) = None -> Q None (set_trace (cons (EvFail FKmalloc)) s)) ->
  wp kmalloc Q s.
Proof.
  intros H1 H2. unfold wp, kmalloc, bind, ask, gets. cbn.
  destruct (k_kmalloc (st_trace s)) as [[p g]|]; cbn; auto.
Qed.

Lemma wp_pci_get domain bus devfn (Q : ptr -> xio_state -> Prop) s :
  (forall p, p <> NULL -> k_pci_lookup (st_trace s) domain bus devfn = p ->
     Q p (set_trace (cons (EvPciGet p)) s)) ->
  (k_pci_lookup (st_trace s) domain bus devfn = NULL ->
     Q NULL (set_trace (cons (EvFail FPciLookup)) s)) ->
  wp (pci_get_domain_bus_and_slot domain bus devfn) Q s.
Proof.
  intros H1 H2. unfold wp, pci_get_domain_bus_and_slot, bind, ask, gets. cbn.
  destruct (Z.eqb_spec (k_pci_lookup (st_trace s) domain bus devfn) NULL); cbn; auto.
Qed.

Lemma wp_copy_to_user u (Q : bool -> xio_state -> Prop) s :
  Q true (set_trace (cons (EvFail FCopyToUser)) s) ->
  Q false (set_trace (cons (EvCopyOut u)) s) ->
  wp (copy_to_user u) Q s.
Proof.
  intros H1 H2. unfold wp, copy_to_user, bind, ask, gets. cbn.
  destruct (k_copy_to_user_faults (st_trace s)); cbn; auto.
Qed.
End Primitives.

(** ** Computations that only call the kernel

    [releases m c]: running [m] changes nothing but the history, and gives
    back [c r] references to each resource [r]. *)

Definition releases (m : X unit) (c : resource -> Z) : Prop :=
  forall s, exists tr, m s = (tt, set_trace (fun _ => tr) s) /\
    forall r, held tr r = held (st_trace s) r - c r.

Lemma releases_ret : releases (ret tt) (fun _ => 0).
Proof. intros s. exists (st_trace s). split; [by destruct s|]. intros; lia. Qed.

Lemma releases_log e : releases (log e) (fun r => - delta e r).
Proof.
  intros s. exists (e :: st_trace s). split; [done|]. intros r. rewrite held_cons. lia.
Qed.

Lemma releases_bind m1 m2 c1 c2 :
  releases m1 c1 -> releases m2 c2 ->
  releases (m1 ;;; m2) (fun r => c1 r + c2 r).
Proof.
  intros H1 H2 s. destruct (H1 s) as (tr1 & E1 & Hc1).
  destruct (H2 (set_trace (fun _ => tr1) s)) as (tr2 & E2 & Hc2). exists tr2. split.
  - unfold bind. rewrite E1, E2. by destruct s.
  - intros r. rewrite Hc2. simpl. specialize (Hc1 r). lia.
Qed.

Lemma releases_ask {A} (f : trace -> A) (k : A -> X unit) c :
  (forall a, releases (k a) c) -> releases (let* a := ask f in k a) c.
Proof. intros H s. unfold bind, ask, gets. apply H. Qed.

(** A computation that only reads may come first. *)
Lemma releases_read {A} (m : X A) (k : A -> X unit) c :
  (forall s, exists a, m s = (a, s)) -> (forall a, releases (k a) c) -> releases (bind m k) c.
Proof. intros Hm Hk s. destruct (Hm s) as [a E]. unfold bind. rewrite E. apply Hk. Qed.

Lemma releases_if (b : bool) m1 m2 c :
  (b = true -> releases m1 c) -> (b = false -> releases m2 c) ->
  releases (if b then m1 else m2) c.
Proof. destruct b; auto. Qed.

Lemma releases_ext m c c' :
  (forall r, c' r = c r) -> releases m c -> releases m c'.
Proof.
  intros He H s. destruct (H s) as (tr & E & Hc). exists tr. split; [done|].
  intros r. by rewrite He.
Qed.

Lemma releases_iter {A} (f : A -> X unit) (c : A -> resource -> Z) (l : list A) :
  (forall x, x ∈ l -> releases (f x) (c x)) ->
  releases (iterM f l) (fun r => sumZ (fun x => c x r) l).
Proof.
  induction l as [|x l IH]; intros H; simpl; [apply releases_ret|].
  apply releases_bind; [apply H; by left|]. apply IH. intros y Hy. apply H. by right.
Qed.

Lemma wp_releases m c (Q : unit -> xio_state -> Prop) s :
  releases m c ->
  (forall tr, (forall r, held tr r = held (st_trace s) r - c r) ->
     Q tt (set_trace (fun _ => tr) s)) ->
  wp m Q s.
Proof. intros H HQ. destruct (H s) as (tr & E & Hc). unfold wp. rewrite E. auto. Qed.

(** ** Symbolic execution of the module's handlers *)

Ltac xwp_step :=
  match goal with
  | |- wp (log _) _ _ => apply wp_log
  | |- wp (ask _) _ _ => apply wp_ask
  | |- wp kmalloc _ _ => apply wp_kmalloc; [intros ? ? ?|intros ?]
  | |- wp (kfree _) _ _ => unfold kfree
  | |- wp (pci_dev_put _) _ _ => unfold pci_dev_put
  | |- wp (pci_get_domain_bus_and_slot _ _ _) _ _ =>
      apply wp_pci_get; [intros ? ? ?|intros ?]
  | |- wp (copy_to_user _) _ _ => apply wp_copy_to_user
  | _ => wp_step
  end.
Ltac xwp := repeat (xwp_step; cbv beta).

Create Rewrite HintDb books.
#[export] Hint Rewrite @owned_set_trace @owned_set_queue_addrs @owned_set_vram_buffers
  @owned_set_contig @owned_set_quiesced @owned_set_snapshots @owned_set_pending
  @owned_set_poisoned @owned_set_shadow @owned_set_regs @owned_set_nvme : books.

(** Projections of updated states. *)
Ltac proj :=
  cbn [set_trace set_queue_addrs set_vram_buffers set_contig set_quiesced
       set_snapshots set_pending set_poisoned set_shadow set_regs set_nvme
       st_trace st_queue_addrs st_vram_buffers st_contig st_quiesced st_snapshots
       st_pending st_poisoned st_shadow_gpa st_shadow_size st_regs st_nvme].

(** Closing a ledger goal: the books for one resource, added up. *)
Ltac ledger_open r :=
  match goal with
  | |- @balanced _ _ _ => intros r
  | |- @balanced_with _ _ _ _ => intros r
  end;
  repeat match goal with
  | H : @balanced _ _ _ |- _ => specialize (H r)
  | H : @balanced_with _ _ _ _ |- _ => specialize (H r)
  end.
Ltac ledger_close :=
  autorewrite with books; proj; autorewrite with sums in *;
  cbn [delta effect negb] in *; cbv beta in *;
  unfold own_queue, own_contig, own_snapshot, own_pending, own_poisoned, own_attachment in *;
  cbn [qa_self vb_self ca_self ca_pdev ca_size ca_cpu_addr ca_dma_addr qe_self
       sn_self sn_pdev ps_self pq_self] in *;
  try lia.
Ltac ledger := let r := fresh "rs" in ledger_open r; ledger_close.
