(* ===== verification/Demo.v ===== *)
(** * A concrete kernel

    One instance of the kernel services, used to evaluate the module on
    concrete inputs: one GPU, one NVMe controller at 0000:85:00.0 with one
    namespace of four hardware queues, an allocator that always succeeds and
    never reuses a live address.  Variations override single services. *)

From S2P Require Import Prelude Uapi Kernel State.

(** An address above every address the history allocated or freed. *)
Fixpoint fresh_above (tr : trace) : Z :=
  match tr with
  | [] => 4096
  | EvKmalloc p :: tr' => Z.max (fresh_above tr') (p + 4096)
  | EvKfree p :: tr' => Z.max (fresh_above tr') (p + 4096)
  | _ :: tr' => fresh_above tr'
  end.

Lemma fresh_above_pos tr : 4096 <= fresh_above tr.
Proof. induction tr as [|e tr IH]; simpl; [lia|]. destruct e; lia. Qed.

Lemma fresh_above_unheld tr p : fresh_above tr <= p -> held tr (RMem p) = 0.
Proof.
  induction tr as [|e tr IH]; intros Hp; [done|].
  rewrite held_cons. simpl in Hp. unfold delta.
  destruct e; cbn [effect]; try (rewrite IH by lia);
    try (rewrite unit_of_ne by (intros [=]; lia)); lia.
Qed.

Definition gpu_dev : ptr := 7000.
Definition nvme_dev : ptr := 7001.
Definition ns_queue : ptr := 8000.

Definition demo_kmalloc (tr : trace) : option (ptr * Z) := Some (fresh_above tr, 0).

Definition demo_pci_lookup (tr : trace) (domain bus devfn : Z) : ptr :=
  if (domain =? 0) && (bus =? 133) && (devfn =? 0) then nvme_dev else NULL.

Definition demo (kmalloc : trace -> option (ptr * Z)) (copy_faults : trace -> bool) : Kernel := {|
  k_kmalloc := kmalloc;
  k_pci_lookup := demo_pci_lookup;
  k_pci_get_amd_gpu := fun _ => gpu_dev;
  k_pci_devices := fun _ => [gpu_dev; nvme_dev];
  k_pci_has_driver := fun _ _ => true;
  k_pci_get_drvdata := fun _ d => if d =? nvme_dev then 9000 else 1;
  k_pci_domain_nr := fun _ => 0;
  k_pci_bus_number := fun _ => 133;
  k_pci_devfn := fun _ => 0;
  k_pci_resource_mem := fun _ i => Nat.eqb i 0;
  k_pci_resource_prefetch := fun _ i => Nat.eqb i 0;
  k_pci_resource_start := fun _ _ => 274877906944;
  k_pci_resource_len := fun _ _ => 17179869184;
  k_pci_read_config_dword := fun _ _ off => if off =? 64 then 3221225472 else 0;
  k_dma_buf_get := fun _ fd => if fd <? 0 then ErrPtr 9 else OkPtr (500 + fd);
  k_dma_buf_size := fun _ => 65536;
  k_dma_buf_priv := fun _ => 600;
  k_ttm_resource := fun _ => Some {| tr_start := 256; tr_mem_type := 2; tr_size := 65536 |};
  k_dma_buf_attach := fun _ d dev => OkPtr (1000 + Z.abs d);
  k_dma_buf_pin := fun _ _ => 0;
  k_dma_buf_map := fun _ a => OkPtr (2000 + Z.abs a);
  k_sgt := fun _ => [{| sg_phys := 0; sg_dma_address := 4294967296; sg_length := 65536 |}];
  k_dma_alloc := fun tr _ _ => Some (4096 * Z.of_nat (length tr) + 4096, 1048576);
  k_dma_mmap := fun _ _ _ => 0;
  k_remap_pfn_range := fun _ _ _ _ => 0;
  k_copy_to_user_faults := copy_faults;
  k_capable_sys_admin := fun _ => true;
  k_fget := fun _ fd => if (0 <? fd) && (fd <? 10) then 300 + fd else NULL;
  k_f_mapping_host := fun f => Some (f + 100);
  k_file_inode := fun f => f;
  k_S_ISBLK := fun i => 403 <=? i;
  k_I_BDEV := fun _ => 450;
  k_bdev_get_queue := fun bd => if bd =? 450 then ns_queue else NULL;
  k_queue_is_mq := fun _ => true;
  k_nr_hw_queues := fun _ _ => 4;
  k_hctx := fun q i => q + 1 + i;
  k_queue_disk := fun q => if q =? ns_queue then 8500 else NULL;
  k_NVME_QUEUE_PHYS_CONTIG := 1;
  k_NVME_CQ_IRQ_ENABLED := 2;
  k_sizeof_nvme_completion := 16;
  k_submit_sync_cmd := fun _ _ _ => 0;
  k_virt_addr_valid := fun _ => false;
  k_virt_to_phys := fun v => v;
  k_register_chrdev := fun _ => 240;
  k_class_create := fun _ => OkPtr 10000;
  k_device_create := fun _ _ _ => OkPtr 10001;
  k_register_kprobe := fun _ => 0;
  k_register_kretprobe := fun _ _ => 0
|}.

Definition demo_kernel : Kernel := demo demo_kmalloc (fun _ => false).

#[global] Instance demo_ok copy_faults : KernelOk (demo demo_kmalloc copy_faults).
Proof.
  split; cbn; unfold NULL.
  - intros _ fd d. destruct (Z.ltb_spec fd 0); intros [=]. lia.
  - intros _ d _ a [=]. lia.
  - intros _ a t [=]. lia.
  - done.
  - intros tr p g [= <- <-]. split; [pose proof (fresh_above_pos tr); lia|].
    by apply fresh_above_unheld.
Qed.

(** ** The state before the module is loaded *)

Definition zero_nvmeq : rocm_xio_nvmeq_layout :=
  {| nq_dev := 0; nq_cqes := 0; nq_sq_dma_addr := 0; nq_cq_dma_addr := 0; nq_q_depth := 0;
     nq_cq_vector := 0; nq_sq_tail := 0; nq_last_sq_tail := 0; nq_cq_head := 0; nq_qid := 0;
     nq_cq_phase := 0; nq_flags := 0 |}.

Definition state0 : xio_state :=
  {| st_trace := [];
     st_queue_addrs := [];
     st_vram_buffers := [];
     st_contig := {| cs_objs := ∅; cs_list := []; cs_next_id := 1; cs_vmas := ∅ |};
     st_quiesced := [];
     st_snapshots := [];
     st_pending := [];
     st_poisoned := [];
     st_shadow_gpa := 0;
     st_shadow_size := 0;
     st_regs := {| mr_inject_enabled := true; mr_major := 0; mr_class := NULL; mr_device := NULL;
                   mr_alloc_krp_registered := false; mr_create_krp_registered := false |};
     st_nvme := {| nm_nvmeq := fun _ => zero_nvmeq;
                   nm_dev := fun _ => {| dl_queues := NULL |};
                   nm_admin_q := fun _ => NULL |} |}.

Lemma owned_state0 `{Kernel} r : owned state0 r = 0.
Proof. done. Qed.
