(* ===== verification/Bdf.v ===== *)
(** * PCI addresses in the kernel module

    Decoding of the 32-bit BDF encoding, [pci_dev_to_bdf] and
    [format_bdf_as_pci_addr] of [src/kernel/rocm-xio/rocm-xio.c], with the
    round trips between the encoding, its components and the printed
    address. *)

From Stdlib Require Import Ascii.
From S2P Require Import Prelude Uapi Kernel.

(** ** Decoding: bits 31:16 domain, 15:8 bus, 7:0 device and function *)

Definition bdf_domain (bdf : Z) : Z := Z.land (Z.shiftr bdf 16) 65535.
Definition bdf_bus (bdf : Z) : Z := Z.land (Z.shiftr bdf 8) 255.
Definition bdf_devfn (bdf : Z) : Z := Z.land bdf 255.

(** [PCI_SLOT] and [PCI_FUNC] of the kernel's PCI header. *)
Definition PCI_SLOT (devfn : Z) : Z := Z.land (Z.shiftr devfn 3) 31.
Definition PCI_FUNC (devfn : Z) : Z := Z.land devfn 7.

Section PciDev.
Context `{K : Kernel}.

Definition pci_dev_to_bdf (pdev : ptr) : Z :=
  if is_null pdev then 0
  else Z.lor (Z.lor (u32 (Z.shiftl (u32 (k_pci_domain_nr pdev)) 16))
                    (u32 (Z.shiftl (u32 (k_pci_bus_number pdev)) 8)))
             (u32 (k_pci_devfn pdev)).
End PciDev.

(** ** Printing *)

Definition hex_digit (d : Z) : ascii :=
  if d <? 10 then ascii_of_nat (Z.to_nat (48 + d)) else ascii_of_nat (Z.to_nat (87 + d)).

(** [%0nx] of a value below [16^n]: exactly [n] digits. *)
Fixpoint hex_fixed (n : nat) (x : Z) : list ascii :=
  match n with
  | O => []
  | S n' => hex_fixed n' (x / 16) ++ [hex_digit (x mod 16)]
  end.

Definition colon : ascii := ":"%char.
Definition dot : ascii := "."%char.

(** [snprintf(buf, buf_size, "%04x:%02x:%02x.%x", domain, bus, slot, func)]
    for components that fit their fields. *)
Definition print_pci_addr (domain bus slot func : Z) : list ascii :=
  hex_fixed 4 domain ++ [colon] ++ hex_fixed 2 bus ++ [colon]
  ++ hex_fixed 2 slot ++ [dot] ++ hex_fixed 1 func.

(** The contents of the buffer up to its terminating NUL; [None] when the
    buffer pointer is NULL or the buffer has no room for the NUL, in which
    case nothing is written. *)
Definition format_bdf_as_pci_addr (bdf : Z) (buf : ptr) (buf_size : Z)
    : option (list ascii) :=
  if (bdf =? 0) || is_null buf || (buf_size <? 13) then
    if negb (is_null buf) && (0 <? buf_size) then Some [] else None
  else
    let domain := bdf_domain bdf in
    let bus := bdf_bus bdf in
    let devfn := bdf_devfn bdf in
    Some (print_pci_addr domain bus (PCI_SLOT devfn) (PCI_FUNC devfn)).

(** ** Reading a printed address back *)

Definition hex_val (c : ascii) : option Z :=
  let n := Z.of_nat (nat_of_ascii c) in
  if (48 <=? n) && (n <=? 57) then Some (n - 48)
  else if (97 <=? n) && (n <=? 102) then Some (n - 87)
  else None.

Fixpoint unhex (acc : Z) (l : list ascii) : option Z :=
  match l with
  | [] => Some acc
  | c :: l' => match hex_val c with Some d => unhex (acc * 16 + d) l' | None => None end
  end.

(** The address a user reads off the log: the components at their columns. *)
Definition parse_pci_addr (l : list ascii) : option Z :=
  match unhex 0 (take 4 l), unhex 0 (take 2 (drop 5 l)),
        unhex 0 (take 2 (drop 8 l)), unhex 0 (drop 11 l) with
  | Some d, Some b, Some v, Some f => Some (ROCM_XIO_BDF d b v f)
  | _, _, _, _ => None
  end.

(** ** Lemmas *)

Lemma bdf_domain_arith bdf : bdf_domain bdf = (bdf / 65536) mod 65536.
Proof.
  unfold bdf_domain. rewrite (land_ones_mod _ 16) by lia.
  by rewrite Z.shiftr_div_pow2 by lia.
Qed.

Lemma bdf_bus_arith bdf : bdf_bus bdf = (bdf / 256) mod 256.
Proof.
  unfold bdf_bus. rewrite (land_ones_mod _ 8) by lia.
  by rewrite Z.shiftr_div_pow2 by lia.
Qed.

Lemma bdf_devfn_arith bdf : bdf_devfn bdf = bdf mod 256.
Proof. unfold bdf_devfn. by rewrite (land_ones_mod _ 8) by lia. Qed.

Lemma PCI_SLOT_arith d : PCI_SLOT d = (d / 8) mod 32.
Proof.
  unfold PCI_SLOT. rewrite (land_ones_mod _ 5) by lia.
  by rewrite Z.shiftr_div_pow2 by lia.
Qed.

Lemma PCI_FUNC_arith d : PCI_FUNC d = d mod 8.
Proof. unfold PCI_FUNC. by rewrite (land_ones_mod _ 3) by lia. Qed.

(** The four components determine a 32-bit BDF. *)
Lemma bdf_components bdf :
  0 <= bdf < 4294967296 ->
  ROCM_XIO_BDF (bdf_domain bdf) (bdf_bus bdf)
    (PCI_SLOT (bdf_devfn bdf)) (PCI_FUNC (bdf_devfn bdf)) = bdf.
Proof.
  intros H. rewrite bdf_domain_arith, bdf_bus_arith, PCI_SLOT_arith, PCI_FUNC_arith,
    bdf_devfn_arith.
  rewrite ROCM_XIO_BDF_arith by (apply Z.mod_pos_bound; lia).
  Z.div_mod_to_equations. lia.
Qed.

Lemma hex_val_digit d : 0 <= d < 16 -> hex_val (hex_digit d) = Some d.
Proof.
  intros H.
  assert (d = 0 \/ d = 1 \/ d = 2 \/ d = 3 \/ d = 4 \/ d = 5 \/ d = 6 \/ d = 7 \/
          d = 8 \/ d = 9 \/ d = 10 \/ d = 11 \/ d = 12 \/ d = 13 \/ d = 14 \/ d = 15)
    as Hd by lia.
  by repeat destruct Hd as [->|Hd]; [..|subst].
Qed.

Lemma unhex_app acc l1 l2 :
  unhex acc (l1 ++ l2) = match unhex acc l1 with Some a => unhex a l2 | None => None end.
Proof.
  revert acc. induction l1 as [|c l1 IH]; intros acc; simpl; [done|].
  destruct (hex_val c); [apply IH|done].
Qed.

Lemma length_hex_fixed n x : length (hex_fixed n x) = n.
Proof.
  revert x. induction n as [|n IH]; intros x; simpl; [done|].
  rewrite length_app, IH. simpl. lia.
Qed.

(** Printing [n] hex digits and reading them back loses nothing that fits. *)
Lemma unhex_hex_fixed n x acc :
  0 <= x < 16 ^ Z.of_nat n ->
  unhex acc (hex_fixed n x) = Some (acc * 16 ^ Z.of_nat n + x).
Proof.
  revert x. induction n as [|n IH]; intros x Hx.
  - simpl in *. f_equal. lia.
  - rewrite Nat2Z.inj_succ, Z.pow_succ_r in * by lia. cbn [hex_fixed].
    rewrite unhex_app, IH by (Z.div_mod_to_equations; lia). cbn [unhex].
    rewrite hex_val_digit by (apply Z.mod_pos_bound; lia). f_equal.
    Z.div_mod_to_equations. lia.
Qed.

Lemma length_print_pci_addr d b v f : length (print_pci_addr d b v f) = 12%nat.
Proof. unfold print_pci_addr. by rewrite !length_app, !length_hex_fixed. Qed.

(** Reading a printed address back gives its components. *)
Lemma parse_print_pci_addr d b v f :
  0 <= d < 65536 -> 0 <= b < 256 -> 0 <= v < 256 -> 0 <= f < 16 ->
  parse_pci_addr (print_pci_addr d b v f) = Some (ROCM_XIO_BDF d b v f).
Proof.
  intros Hd Hb Hv Hf. unfold parse_pci_addr, print_pci_addr.
  set (D := hex_fixed 4 d). set (B := hex_fixed 2 b).
  set (V := hex_fixed 2 v). set (F := hex_fixed 1 f).
  assert (length D = 4%nat /\ length B = 2%nat /\ length V = 2%nat) as (LD & LB & LV)
    by (repeat split; apply length_hex_fixed).
  rewrite take_app_length' by done.
  rewrite (app_assoc D [colon]).
  rewrite (drop_app_length' (D ++ [colon])) by (by rewrite length_app, LD).
  rewrite take_app_length' by done.
  rewrite (app_assoc (D ++ [colon]) B), (app_assoc ((D ++ [colon]) ++ B) [colon]).
  rewrite (drop_app_length' (((D ++ [colon]) ++ B) ++ [colon]))
    by (by rewrite !length_app, LD, LB).
  rewrite take_app_length' by done.
  rewrite (app_assoc _ V), (app_assoc _ [dot]), drop_app_length'
    by (by rewrite !length_app, LD, LB, LV).
  subst D B V F. by rewrite !unhex_hex_fixed by (simpl; lia).
Qed.

(** Decoding inverts the encoding macro: from [ROCM_XIO_BDF] of
    components in range the module recovers the same domain and bus, and a
    devfn whose slot and function are the original ones. *)
Theorem bdf_decode_encode domain bus dev func :
  0 <= domain < 65536 -> 0 <= bus < 256 -> 0 <= dev < 32 -> 0 <= func < 8 ->
  let bdf := ROCM_XIO_BDF domain bus dev func in
  bdf_domain bdf = domain /\ bdf_bus bdf = bus /\
  PCI_SLOT (bdf_devfn bdf) = dev /\ PCI_FUNC (bdf_devfn bdf) = func.
Proof.
  intros Hd Hb Hv Hf bdf. subst bdf.
  rewrite ROCM_XIO_BDF_arith, bdf_domain_arith, bdf_bus_arith, PCI_SLOT_arith,
    PCI_FUNC_arith, bdf_devfn_arith by done.
  repeat split; Z.div_mod_to_equations; lia.
Qed.

Lemma bdf_decode_encode_witness :
  bdf_domain (ROCM_XIO_BDF 1 133 2 3) = 1 /\ bdf_bus (ROCM_XIO_BDF 1 133 2 3) = 133 /\
  PCI_SLOT (bdf_devfn (ROCM_XIO_BDF 1 133 2 3)) = 2 /\
  PCI_FUNC (bdf_devfn (ROCM_XIO_BDF 1 133 2 3)) = 3.
Proof. apply (bdf_decode_encode 1 133 2 3); lia. Defined.

(** A printed PCI address identifies the device: for a non-zero 32-bit
    BDF and a buffer with room, the formatter writes exactly twelve
    characters, and reading them back gives the BDF. *)
Theorem format_bdf_roundtrip bdf buf buf_size :
  0 < bdf < 4294967296 -> buf <> NULL -> 13 <= buf_size ->
  exists text, format_bdf_as_pci_addr bdf buf buf_size = Some text /\
    length text = 12%nat /\ parse_pci_addr text = Some bdf.
Proof.
  intros Hb Hbuf Hsz. eexists. split; [|split; [apply length_print_pci_addr|]].
  - unfold format_bdf_as_pci_addr.
    rewrite (proj2 (Z.eqb_neq bdf 0)), (proj2 (Z.eqb_neq buf NULL)),
      (proj2 (Z.ltb_ge buf_size 13)) by (done || lia). done.
  - rewrite parse_print_pci_addr; [by rewrite bdf_components by lia|..];
      rewrite ?bdf_domain_arith, ?bdf_bus_arith, ?PCI_SLOT_arith, ?PCI_FUNC_arith;
      Z.div_mod_to_equations; lia.
Qed.

Lemma format_bdf_roundtrip_witness :
  exists text, format_bdf_as_pci_addr 34048 1 16 = Some text /\
    length text = 12%nat /\ parse_pci_addr text = Some 34048.
Proof. apply (format_bdf_roundtrip 34048 1 16); vm_compute; done. Defined.
