(* ===== verification/QueueReg.v ===== *)
(** * Queue-address registrations

    The list [queue_addrs] of [src/kernel/rocm-xio/rocm-xio.c]: registration
    and unregistration through the ioctl interface, the three lookups the
    NVMe probe performs, and the clean-up when a file is released or the
    module unloaded.  The lookups are related to the translation map that the
    sequence of registrations denotes. *)

From S2P Require Import Prelude Uapi Kernel State Demo.

(** ** Lookups *)

(** [virt_addr >= entry->virt_addr && virt_addr < entry->virt_addr + entry->size]
    on 64-bit operands. *)
Definition addr_in (virt_addr base size : Z) : bool :=
  (base <=? virt_addr) && (virt_addr <? u64 (base + size)).

Definition queue_covers (virt_addr : Z) (e : queue_addr_entry) : bool :=
  addr_in virt_addr (qa_virt_addr e) (qa_size e).

Definition lookup_queue_phys_addr (l : list queue_addr_entry) (virt_addr : Z) : Z :=
  match find_first (queue_covers virt_addr) l with
  | Some e => u64 (qa_phys_addr e + (virt_addr - qa_virt_addr e))
  | None => 0
  end.

Definition lookup_queue_bdf (l : list queue_addr_entry) (virt_addr : Z) : Z :=
  match find_first (queue_covers virt_addr) l with
  | Some e => qa_nvme_bdf e
  | None => 0
  end.

Definition lookup_queue_prp2 (l : list queue_addr_entry) (virt_addr : Z) : Z :=
  match find_first (queue_covers virt_addr) l with
  | Some e => qa_prp2 e
  | None => 0
  end.

Section QueueReg.
Context `{K : Kernel}.

(** ** Operations *)

(** The object as the handler fills it in: every field from the request
    except [owner], which is not assigned and keeps the stale word the
    allocator left there. *)
Definition fill_queue_entry (req : rocm_xio_register_queue_addr_req) (entry : ptr) (stale : Z)
    : queue_addr_entry :=
  {| qa_self := entry;
     qa_virt_addr := rq_virt_addr req;
     qa_phys_addr := rq_phys_addr req;
     qa_size := rq_size req;
     qa_queue_type := rq_queue_type req;
     qa_nvme_bdf := rq_nvme_bdf req;
     qa_prp2 := rq_prp2 req;
     qa_owner := stale |}.

(** [ROCM_XIO_REGISTER_QUEUE_ADDR]. *)
Definition ioctl_register_queue_addr (file : ptr)
    (arg : option rocm_xio_register_queue_addr_req) : X Z :=
  match arg with
  | None => ret (- EFAULT)
  | Some req =>
    let* m := kmalloc in
    match m with
    | None => ret (- ENOMEM)
    | Some (entry, stale) =>
      modify (set_queue_addrs (cons (fill_queue_entry req entry stale))) ;;;
      ret 0
    end
  end.

Definition owns_queue_at (file : ptr) (virt : Z) (e : queue_addr_entry) : bool :=
  (qa_virt_addr e =? virt) && (qa_owner e =? file).

(** [ROCM_XIO_UNREGISTER_QUEUE_ADDR]. *)
Definition ioctl_unregister_queue_addr (file : ptr)
    (arg : option rocm_xio_unregister_queue_addr_req) : X Z :=
  match arg with
  | None => ret (- EFAULT)
  | Some req =>
    let mine := owns_queue_at file (uq_virt_addr req) in
    let* l := gets st_queue_addrs in
    match find_first mine l with
    | None => ret (- ENOENT)
    | Some entry =>
      modify (set_queue_addrs (remove_first mine)) ;;;
      kfree (qa_self entry) ;;;
      ret 0
    end
  end.

(** First block of [rocm_xio_release]: entries owned by the file move to a
    private list ([list_add], so in reverse order) and are freed. *)
Definition release_queue_addrs (file : ptr) : X unit :=
  let* l := gets st_queue_addrs in
  modify (set_queue_addrs (filter (fun e => (qa_owner e =? file) = false))) ;;;
  iterM (fun e => kfree (qa_self e))
    (reverse (filter (fun e => (qa_owner e =? file) = true) l)).

(** The block of [rocm_xio_exit] that empties the list. *)
Definition exit_queue_addrs : X unit :=
  let* l := gets st_queue_addrs in
  modify (set_queue_addrs (fun _ => [])) ;;;
  iterM (fun e => kfree (qa_self e)) l.

(** ** The translation map a list of registrations denotes *)

(** Later registrations shadow earlier ones. *)
Definition register_map (m : Z -> option queue_addr_entry) (e : queue_addr_entry)
    : Z -> option queue_addr_entry :=
  fun v => if bool_decide (qa_virt_addr e <= v < qa_virt_addr e + qa_size e)
           then Some e else m v.

Definition map_of (l : list queue_addr_entry) : Z -> option queue_addr_entry :=
  foldr (fun e m => register_map m e) (fun _ => None) l.

(** A registration that does not wrap the 64-bit address space. *)
Definition queue_fits (e : queue_addr_entry) : Prop :=
  0 <= qa_virt_addr e /\ 0 <= qa_size e /\
  qa_virt_addr e + qa_size e < 18446744073709551616.

(** ** Lemmas *)

Lemma addr_in_spec v base size :
  0 <= base -> 0 <= size -> base + size < 18446744073709551616 ->
  addr_in v base size = bool_decide (base <= v < base + size).
Proof.
  intros H1 H2 H3. unfold addr_in. rewrite u64_small by lia.
  destruct (Z.leb_spec base v), (Z.ltb_spec v (base + size)); simpl;
    symmetry; (apply bool_decide_eq_true_2; lia) || (apply bool_decide_eq_false_2; lia).
Qed.

(** A match never lies outside the registered range, wrap-around included. *)
Lemma addr_in_sound v base size :
  0 <= base < 18446744073709551616 -> 0 <= size < 18446744073709551616 ->
  addr_in v base size = true -> base <= v < base + size.
Proof.
  intros Hb Hs H. unfold addr_in in H. bool_to_prop. unfold u64 in *.
  Z.div_mod_to_equations. lia.
Qed.

Lemma find_first_map_of l v :
  Forall queue_fits l -> find_first (queue_covers v) l = map_of l v.
Proof.
  induction 1 as [|e l (H1 & H2 & H3) _ IH]; simpl; [done|].
  unfold register_map. rewrite <- addr_in_spec by done.
  unfold queue_covers at 1. by rewrite IH.
Qed.

Lemma releases_kfree_queue e : releases (kfree (qa_self e)) (own_queue e).
Proof.
  eapply releases_ext; [|apply releases_log]. intros r. unfold delta; simpl.
  unfold own_queue. lia.
Qed.

(** What a successful registration does. *)
Lemma register_queue_addr_ok file req s p g :
  k_kmalloc (st_trace s) = Some (p, g) ->
  ioctl_register_queue_addr file (Some req) s =
    (0, set_queue_addrs (cons (fill_queue_entry req p g)) (set_trace (cons (EvKmalloc p)) s)).
Proof.
  intros Hk. unfold ioctl_register_queue_addr, kmalloc, bind, ask, gets. by rewrite Hk.
Qed.

(** *** The ledger *)

Lemma register_queue_addr_balanced tr0 file arg s :
  balanced tr0 s ->
  wp (ioctl_register_queue_addr file arg) (fun _ s' => balanced tr0 s') s.
Proof. intros H. unfold ioctl_register_queue_addr, fill_queue_entry. xwp; ledger. Qed.

Lemma unregister_queue_addr_balanced tr0 file arg s :
  balanced tr0 s ->
  wp (ioctl_unregister_queue_addr file arg) (fun _ s' => balanced tr0 s') s.
Proof.
  intros H. unfold ioctl_unregister_queue_addr. xwp; try exact H.
  ledger_open rs. pose proof (sumZ_remove_first (fun e => own_queue e rs) _ _ _ Heqo0).
  ledger_close.
Qed.

Lemma release_queue_addrs_balanced tr0 file s :
  balanced tr0 s -> wp (release_queue_addrs file) (fun _ s' => balanced tr0 s') s.
Proof.
  intros H. unfold release_queue_addrs. xwp.
  eapply wp_releases; [apply (releases_iter _ own_queue); intros; apply releases_kfree_queue|].
  intros tr Htr. ledger_open rs. specialize (Htr rs).
  pose proof (sumZ_filter_split (fun e => own_queue e rs) (fun e => qa_owner e =? file)
    (st_queue_addrs s)).
  revert Htr. proj. rewrite sumZ_reverse. intros. ledger_close.
Qed.

Lemma exit_queue_addrs_balanced tr0 s :
  balanced tr0 s -> wp exit_queue_addrs (fun _ s' => balanced tr0 s' /\ st_queue_addrs s' = []) s.
Proof.
  intros H. unfold exit_queue_addrs. xwp.
  eapply wp_releases; [apply (releases_iter _ own_queue); intros; apply releases_kfree_queue|].
  intros tr Htr. split; [|done]. ledger_open rs. specialize (Htr rs).
  revert Htr. proj. intros. ledger_close.
Qed.

(** ** Theorems *)

(** The lookups implement the translation map of the registrations: when
    no registered range wraps the address space, an address translates to the
    offset within the most recent registration that covers it, and the bus
    address, the PRP2 value and the BDF come from that same registration; an
    address that no registration covers yields zero in all three. *)
Theorem queue_lookup_refines_map l v :
  Forall queue_fits l ->
  lookup_queue_phys_addr l v =
    match map_of l v with
    | Some e => u64 (qa_phys_addr e + (v - qa_virt_addr e))
    | None => 0
    end /\
  lookup_queue_prp2 l v = match map_of l v with Some e => qa_prp2 e | None => 0 end /\
  lookup_queue_bdf l v = match map_of l v with Some e => qa_nvme_bdf e | None => 0 end.
Proof.
  intros H. unfold lookup_queue_phys_addr, lookup_queue_prp2, lookup_queue_bdf.
  by rewrite find_first_map_of by done.
Qed.

Definition sample_queue : queue_addr_entry :=
  {| qa_self := 4096; qa_virt_addr := 1048576; qa_phys_addr := 1073741824; qa_size := 8192;
     qa_queue_type := 0; qa_nvme_bdf := 256; qa_prp2 := 77; qa_owner := 5 |}.

Lemma queue_lookup_refines_map_witness :
  lookup_queue_phys_addr [sample_queue] 1048584 = 1073741832 /\
  lookup_queue_prp2 [sample_queue] 1048584 = 77 /\
  lookup_queue_bdf [sample_queue] 1048584 = 256.
Proof.
  assert (Forall queue_fits [sample_queue]) as Hf by (repeat constructor; vm_compute; done).
  destruct (queue_lookup_refines_map [sample_queue] 1048584 Hf) as (-> & -> & ->).
  by vm_compute.
Defined.

(** No stray translation, even for ranges that wrap: whenever a lookup
    returns a non-zero physical address, some registration of the list
    contains the address and the result is its physical base plus the
    offset. *)
Theorem queue_lookup_sound l v :
  Forall (fun e => 0 <= qa_virt_addr e < 18446744073709551616 /\
                   0 <= qa_size e < 18446744073709551616) l ->
  lookup_queue_phys_addr l v <> 0 ->
  exists e, e ∈ l /\ qa_virt_addr e <= v < qa_virt_addr e + qa_size e /\
    lookup_queue_phys_addr l v = u64 (qa_phys_addr e + (v - qa_virt_addr e)).
Proof.
  unfold lookup_queue_phys_addr. intros Hl Hne.
  destruct (find_first _ l) as [e|] eqn:E; [|done].
  apply find_first_Some in E as [Hin Hc]. exists e. split_and!; [done|..|done];
    destruct (Forall_elem _ _ _ Hl Hin) as [Hv Hs];
    destruct (addr_in_sound v _ _ Hv Hs Hc); done.
Qed.

Lemma queue_lookup_sound_witness :
  exists e, e ∈ [sample_queue] /\ qa_virt_addr e <= 1048584 < qa_virt_addr e + qa_size e /\
    lookup_queue_phys_addr [sample_queue] 1048584
      = u64 (qa_phys_addr e + (1048584 - qa_virt_addr e)).
Proof.
  apply (queue_lookup_sound [sample_queue] 1048584).
  - repeat constructor; vm_compute; done.
  - vm_compute. done.
Defined.

(** Registering a queue address takes effect immediately and only there:
    after a successful registration an address inside the new range
    translates into it, and an address outside the range translates as
    before. *)
Theorem register_queue_addr_lookup file req s p g v :
  k_kmalloc (st_trace s) = Some (p, g) ->
  0 <= rq_virt_addr req -> 0 <= rq_size req ->
  rq_virt_addr req + rq_size req < 18446744073709551616 ->
  let s' := snd (ioctl_register_queue_addr file (Some req) s) in
  fst (ioctl_register_queue_addr file (Some req) s) = 0 /\
  lookup_queue_phys_addr (st_queue_addrs s') v =
    if bool_decide (rq_virt_addr req <= v < rq_virt_addr req + rq_size req)
    then u64 (rq_phys_addr req + (v - rq_virt_addr req))
    else lookup_queue_phys_addr (st_queue_addrs s) v.
Proof.
  intros Hk H1 H2 H3. rewrite (register_queue_addr_ok _ _ _ _ _ Hk).
  split; [done|]. unfold lookup_queue_phys_addr. cbn [snd]. proj. cbn [find_first].
  unfold queue_covers at 1. cbn [fill_queue_entry qa_virt_addr qa_size].
  rewrite addr_in_spec by done. by case_bool_decide.
Qed.

(** The owner of a registration is never recorded: the handler leaves the
    field with the word the allocator returned, so a file whose handle does
    not happen to equal that word can neither unregister its own queue
    (-ENOENT) nor have it removed when the file is closed, and the address
    keeps translating. *)
Theorem register_queue_addr_owner_lost file req s p stale :
  k_kmalloc (st_trace s) = Some (p, stale) ->
  stale <> file ->
  (forall e, e ∈ st_queue_addrs s -> qa_owner e <> file) ->
  let s1 := snd (ioctl_register_queue_addr file (Some req) s) in
  fst (ioctl_register_queue_addr file (Some req) s) = 0 /\
  fst (ioctl_unregister_queue_addr file (Some {| uq_virt_addr := rq_virt_addr req |}) s1)
    = - ENOENT /\
  st_queue_addrs (snd (release_queue_addrs file s1)) = st_queue_addrs s1.
Proof.
  intros Hk Hne Hown s1. unfold s1. rewrite (register_queue_addr_ok _ _ _ _ _ Hk).
  cbn [fst snd]. clear s1. set (s2 := set_queue_addrs _ _).
  assert (forall e, e ∈ st_queue_addrs s2 -> (qa_owner e =? file) = false) as Hall.
  { intros e [->|He]%elem_of_cons; apply Z.eqb_neq; [done|by apply Hown]. }
  split; [done|split].
  - unfold ioctl_unregister_queue_addr, bind, gets.
    rewrite (proj2 (find_first_None _ (st_queue_addrs s2))); [done|].
    intros e He. unfold owns_queue_at. rewrite (Hall e He). apply andb_false_r.
  - unfold release_queue_addrs, bind, gets, modify.
    rewrite (filter_none (fun e => (qa_owner e =? file) = true))
      by (intros e He; by rewrite (Hall e He)).
    by apply (filter_all (fun e => (qa_owner e =? file) = false)).
Qed.
End QueueReg.

Definition sample_queue_req : rocm_xio_register_queue_addr_req :=
  {| rq_virt_addr := 1048576; rq_phys_addr := 1073741824; rq_size := 8192; rq_prp2 := 0;
     rq_nvme_bdf := 34048; rq_queue_type := 0 |}.

Lemma register_queue_addr_lookup_witness :
  let s' := snd (ioctl_register_queue_addr (K := demo_kernel) 42 (Some sample_queue_req) state0) in
  fst (ioctl_register_queue_addr (K := demo_kernel) 42 (Some sample_queue_req) state0) = 0 /\
  lookup_queue_phys_addr (st_queue_addrs s') 1048600 = 1073741848.
Proof.
  apply (register_queue_addr_lookup (K := demo_kernel) 42 sample_queue_req state0 4096 0 1048600);
    vm_compute; done.
Defined.

Lemma register_queue_addr_owner_lost_witness :
  let s1 := snd (ioctl_register_queue_addr (K := demo_kernel) 42 (Some sample_queue_req) state0) in
  fst (ioctl_register_queue_addr (K := demo_kernel) 42 (Some sample_queue_req) state0) = 0 /\
  fst (ioctl_unregister_queue_addr 42
         (Some {| uq_virt_addr := 1048576 |}) s1) = - ENOENT /\
  st_queue_addrs (snd (release_queue_addrs 42 s1)) = st_queue_addrs s1.
Proof.
  apply (register_queue_addr_owner_lost (K := demo_kernel) 42 sample_queue_req state0 4096 0).
  - reflexivity.
  - done.
  - intros e He. by apply elem_of_nil in He.
Defined.
