(* ===== verification/DmaBuf.v ===== *)
(** * From a dma-buf to a device address

    [extract_vram_offset_from_amdgpu_bo], [extract_vram_offset_from_sg],
    [get_dmabuf_bar_gpa], [get_dmabuf_phys_addr], [get_nvme_device_info] and
    [get_mmio_bridge_shadow_buffer] of [src/kernel/rocm-xio/rocm-xio.c].  The
    C functions unwind with a chain of labels; here every exit lists the calls
    the labels make, in order.  The theorems: no exit leaks a reference, the
    passthrough path hands over exactly the bundle its caller must keep alive,
    and the address computed for the emulated path is the specified one. *)

From S2P Require Import Prelude Uapi Kernel State Demo Bdf.

(** ** VRAM offset *)

Definition PAGE_SHIFT : Z := 12.
Definition PCI_STD_NUM_BARS : nat := 6.
Definition TTM_PL_VRAM : Z := 2.

Section DmaBuf.
Context `{K : Kernel}.

(** Returns the status and the value of [*offset], which is written before
    the placement is checked. *)
Definition extract_vram_offset_from_amdgpu_bo (dmabuf : ptr) (offset : Z) : Z * Z :=
  if is_null dmabuf || is_null (k_dma_buf_priv dmabuf) then (- EINVAL, offset)
  else
    match k_ttm_resource (k_dma_buf_priv dmabuf) with
    | None => (- EINVAL, offset)
    | Some resource =>
      let page_offset := tr_start resource in
      let offset := u64 (Z.shiftl page_offset PAGE_SHIFT) in
      if negb (tr_mem_type resource =? TTM_PL_VRAM) then (- EINVAL, offset)
      else (0, offset)
    end.

Definition sg_in_bar (bar_start bar_size : Z) (sg : scatterlist) : bool :=
  (bar_start <=? sg_phys sg) && (sg_phys sg <? u64 (bar_start + bar_size)).

Definition extract_vram_offset_from_sg (sgt : ptr) (bar_start bar_size : Z)
    (dmabuf : ptr) (offset : Z) : Z * Z :=
  match k_sgt sgt with
  | [] => (- EINVAL, offset)
  | sg0 :: _ =>
    if is_null sgt then (- EINVAL, offset)
    else
      match find_first (sg_in_bar bar_start bar_size) (k_sgt sgt) with
      | Some sg => (0, u64 (sg_phys sg - bar_start))
      | None =>
        let (rc, offset) := extract_vram_offset_from_amdgpu_bo dmabuf offset in
        if rc =? 0 then (0, offset)
        else
          let dma_addr := sg_dma_address sg0 in
          if (0 <? dma_addr) && (dma_addr <? bar_size) then (0, dma_addr)
          else (- EINVAL, offset)
      end
  end.

(** ** Emulated path: the GPU BAR address *)

(** The BAR loop: only memory BARs are looked at, and only BAR 0, if it is
    prefetchable, ends it.  Returns the status and [*bar_gpa]. *)
Fixpoint bar_loop (gpu_dev sgt dmabuf : ptr) (bars : list nat) (bar_gpa : Z) : Z * Z :=
  match bars with
  | [] => (- EINVAL, bar_gpa)
  | i :: rest =>
    if negb (k_pci_resource_mem gpu_dev i) then bar_loop gpu_dev sgt dmabuf rest bar_gpa
    else
      let bar_start := k_pci_resource_start gpu_dev i in
      let bar_size := k_pci_resource_len gpu_dev i in
      if Nat.eqb i 0 && k_pci_resource_prefetch gpu_dev i then
        let (rc, vram_offset) :=
          extract_vram_offset_from_sg sgt bar_start bar_size dmabuf 0 in
        if rc =? 0 then (0, u64 (bar_start + vram_offset)) else (0, bar_start)
      else bar_loop gpu_dev sgt dmabuf rest bar_gpa
  end.

(** Labels [cleanup], [cleanup_detach], [cleanup_no_attach]. *)
Definition cleanup_no_attach (dmabuf gpu_dev : ptr) : X unit :=
  (if is_null gpu_dev then ret tt else pci_dev_put gpu_dev) ;;;
  log (EvDmaBufPut dmabuf).

Definition cleanup_detach (dmabuf attach gpu_dev : ptr) : X unit :=
  log (EvDetach dmabuf attach) ;;;
  cleanup_no_attach dmabuf gpu_dev.

Definition cleanup (dmabuf attach gpu_dev : ptr) (sgt : option ptr) : X unit :=
  match sgt with
  | Some t => log (EvUnmap attach t)
  | None => ret tt
  end ;;;
  log (EvUnpin attach) ;;;
  cleanup_detach dmabuf attach gpu_dev.

(** Returns the status and the final values of [*bar_gpa] and [*size]. *)
Definition get_dmabuf_bar_gpa (dmabuf_fd bar_gpa size : Z) : X (Z * Z * Z) :=
  let* r := ask (fun tr => k_dma_buf_get tr dmabuf_fd) in
  match r with
  | ErrPtr e => log (EvFail FDmaBufGet) ;;; ret (PTR_ERR e, bar_gpa, size)
  | OkPtr dmabuf =>
    log (EvDmaBufGet dmabuf) ;;;
    let size := k_dma_buf_size dmabuf in
    let* gpu_dev := ask k_pci_get_amd_gpu in
    if is_null gpu_dev then
      cleanup_no_attach dmabuf NULL ;;; ret (- ENODEV, bar_gpa, size)
    else
      log (EvPciGet gpu_dev) ;;;
      let* r := ask (fun tr => k_dma_buf_attach tr dmabuf gpu_dev) in
      match r with
      | ErrPtr e =>
        log (EvFail FAttach) ;;;
        cleanup_no_attach dmabuf gpu_dev ;;; ret (PTR_ERR e, bar_gpa, size)
      | OkPtr attach =>
        log (EvAttach dmabuf attach) ;;;
        let* rc := ask (fun tr => k_dma_buf_pin tr attach) in
        if negb (rc =? 0) then
          log (EvFail FPin) ;;;
          cleanup_detach dmabuf attach gpu_dev ;;; ret (rc, bar_gpa, size)
        else
          log (EvPin attach) ;;;
          let* r := ask (fun tr => k_dma_buf_map tr attach) in
          match r with
          | ErrPtr e =>
            log (EvFail FMap) ;;;
            cleanup dmabuf attach gpu_dev None ;;; ret (PTR_ERR e, bar_gpa, size)
          | OkPtr sgt =>
            log (EvMap attach sgt) ;;;
            let (rc, bar_gpa) :=
              bar_loop gpu_dev sgt dmabuf (seq 0 PCI_STD_NUM_BARS) bar_gpa in
            cleanup dmabuf attach gpu_dev (Some sgt) ;;; ret (rc, bar_gpa, size)
          end
      end
  end.

(** ** Passthrough path: the P2PDMA address *)

(** The out-parameters [dmabuf_out], [attach_out], [sgt_out], [pdev_out]. *)
Record attachment := {
  at_dmabuf : ptr;
  at_attach : ptr;
  at_sgt : ptr;
  at_pdev : ptr
}.

Definition no_attachment : attachment :=
  {| at_dmabuf := NULL; at_attach := NULL; at_sgt := NULL; at_pdev := NULL |}.

(** Labels [err_put_pci] up to [err_unmap]. *)
Definition err_put_pci (pdev : ptr) : X unit := pci_dev_put pdev.
Definition err_put_dmabuf (dmabuf pdev : ptr) : X unit :=
  log (EvDmaBufPut dmabuf) ;;; err_put_pci pdev.
Definition err_detach (dmabuf attach pdev : ptr) : X unit :=
  log (EvDetach dmabuf attach) ;;; err_put_dmabuf dmabuf pdev.
Definition err_unpin (dmabuf attach pdev : ptr) : X unit :=
  log (EvUnpin attach) ;;; err_detach dmabuf attach pdev.
Definition err_unmap (dmabuf attach sgt pdev : ptr) : X unit :=
  log (EvUnmap attach sgt) ;;; err_unpin dmabuf attach pdev.

(** Returns the status, [*phys_addr], [*size] and the attachment. *)
Definition get_dmabuf_phys_addr (dmabuf_fd nvme_bdf phys_addr size : Z)
    : X (Z * Z * Z * attachment) :=
  let domain := bdf_domain nvme_bdf in
  let bus := bdf_bus nvme_bdf in
  let devfn := bdf_devfn nvme_bdf in
  let* pdev := pci_get_domain_bus_and_slot domain bus devfn in
  if is_null pdev then ret (- ENODEV, phys_addr, size, no_attachment)
  else
    let* r := ask (fun tr => k_dma_buf_get tr dmabuf_fd) in
    match r with
    | ErrPtr e =>
      log (EvFail FDmaBufGet) ;;;
      err_put_pci pdev ;;; ret (PTR_ERR e, phys_addr, size, no_attachment)
    | OkPtr dmabuf =>
      log (EvDmaBufGet dmabuf) ;;;
      let size := k_dma_buf_size dmabuf in
      let* r := ask (fun tr => k_dma_buf_attach tr dmabuf pdev) in
      match r with
      | ErrPtr e =>
        log (EvFail FAttach) ;;;
        err_put_dmabuf dmabuf pdev ;;; ret (PTR_ERR e, phys_addr, size, no_attachment)
      | OkPtr attach =>
        log (EvAttach dmabuf attach) ;;;
        let* rc := ask (fun tr => k_dma_buf_pin tr attach) in
        if negb (rc =? 0) then
          log (EvFail FPin) ;;;
          err_detach dmabuf attach pdev ;;; ret (rc, phys_addr, size, no_attachment)
        else
          log (EvPin attach) ;;;
          let* r := ask (fun tr => k_dma_buf_map tr attach) in
          match r with
          | ErrPtr e =>
            log (EvFail FMap) ;;;
            err_unpin dmabuf attach pdev ;;; ret (PTR_ERR e, phys_addr, size, no_attachment)
          | OkPtr sgt =>
            log (EvMap attach sgt) ;;;
            match k_sgt sgt with
            | [] =>
              err_unmap dmabuf attach sgt pdev ;;;
              ret (- EINVAL, phys_addr, size, no_attachment)
            | [sg] =>
              ret (0, u64 (sg_dma_address sg), size,
                   {| at_dmabuf := dmabuf; at_attach := attach; at_sgt := sgt; at_pdev := pdev |})
            | _ :: _ :: _ =>
              err_unmap dmabuf attach sgt pdev ;;;
              ret (- EOPNOTSUPP, phys_addr, size, no_attachment)
            end
          end
      end
    end.

(** ** Device queries *)

Definition get_nvme_device_info (bdf : Z) (info : rocm_xio_device_info)
    : X (Z * rocm_xio_device_info) :=
  let* nvme_dev := pci_get_domain_bus_and_slot (bdf_domain bdf) (bdf_bus bdf) (bdf_devfn bdf) in
  if is_null nvme_dev then ret (- ENODEV, info)
  else
    pci_dev_put nvme_dev ;;;
    ret (0, {| di_bdf := bdf;
               di_bar0_addr := k_pci_resource_start nvme_dev 0;
               di_bar0_size := k_pci_resource_len nvme_dev 0;
               di_doorbell_stride := 4;
               di_max_queues := 65535 |}).

Definition get_mmio_bridge_shadow_buffer (bridge_bdf : Z)
    (req : rocm_xio_mmio_bridge_shadow_req) : X (Z * rocm_xio_mmio_bridge_shadow_req) :=
  let* bridge_dev := pci_get_domain_bus_and_slot
    (bdf_domain bridge_bdf) (bdf_bus bridge_bdf) (bdf_devfn bridge_bdf) in
  if is_null bridge_dev then ret (- ENODEV, req)
  else
    let* gpa_low := ask (fun tr => k_pci_read_config_dword tr bridge_dev 64) in
    let* gpa_high := ask (fun tr => k_pci_read_config_dword tr bridge_dev 68) in
    let shadow_gpa := Z.lor (u64 (Z.shiftl (u64 (u32 gpa_high)) 32)) (u32 gpa_low) in
    if shadow_gpa =? 0 then pci_dev_put bridge_dev ;;; ret (- EINVAL, req)
    else
      pci_dev_put bridge_dev ;;;
      ret (0, {| mb_bridge_bdf := bridge_bdf; mb_shadow_gpa := shadow_gpa; mb_shadow_size := 8192 |}).

(** ** The releasing sequence shared by the buffer operations *)

(** [dma_buf_unmap_attachment; dma_buf_unpin; dma_buf_detach; dma_buf_put;
    if (pdev) pci_dev_put(pdev)] *)
Definition put_attachment (a : attachment) : X unit :=
  log (EvUnmap (at_attach a) (at_sgt a)) ;;;
  log (EvUnpin (at_attach a)) ;;;
  log (EvDetach (at_dmabuf a) (at_attach a)) ;;;
  log (EvDmaBufPut (at_dmabuf a)) ;;;
  (if is_null (at_pdev a) then ret tt else pci_dev_put (at_pdev a)).

Definition own_att (a : attachment) (r : resource) : Z :=
  own_attachment (at_dmabuf a) (at_attach a) (at_sgt a) (at_pdev a) r.

Definition att_ok (a : attachment) : Prop :=
  at_dmabuf a <> NULL /\ at_attach a <> NULL /\ at_sgt a <> NULL /\ at_pdev a <> NULL.

(** ** Specification of the emulated address *)

(** The address of the VRAM allocation as the guest sees it through BAR 0. *)
Definition vram_gpa_spec (sgt dmabuf : ptr) (bar_start bar_size : Z) : Z :=
  match find_first (sg_in_bar bar_start bar_size) (k_sgt sgt) with
  | Some sg => sg_phys sg
  | None =>
    match k_sgt sgt, k_ttm_resource (k_dma_buf_priv dmabuf) with
    | [], _ => bar_start
    | sg0 :: _, Some t =>
      if tr_mem_type t =? TTM_PL_VRAM then u64 (bar_start + tr_start t * 4096)
      else if (0 <? sg_dma_address sg0) && (sg_dma_address sg0 <? bar_size)
           then u64 (bar_start + sg_dma_address sg0) else bar_start
    | sg0 :: _, None =>
      if (0 <? sg_dma_address sg0) && (sg_dma_address sg0 <? bar_size)
      then u64 (bar_start + sg_dma_address sg0) else bar_start
    end
  end.

(** ** Ledger lemmas *)

(** A computation that only calls the kernel and gains [gain a] references,
    with a further fact about its result. *)
Definition gains {A} (m : X A) (gain : A -> resource -> Z) (R : A -> Prop) : Prop :=
  forall s (Q : A -> xio_state -> Prop),
    (forall a tr, R a -> (forall r, held tr r = held (st_trace s) r + gain a r) ->
       Q a (set_trace (fun _ => tr) s)) ->
    wp m Q s.

Lemma set_trace_eq f s : set_trace f s = set_trace (fun _ => f (st_trace s)) s.
Proof. done. Qed.

Lemma set_trace_twice f g s : set_trace f (set_trace g s) = set_trace (fun t => f (g t)) s.
Proof. done. Qed.
End DmaBuf.

(** Finishing an exit of a computation that only logs. *)
Ltac gains_exit HQ :=
  rewrite ?set_trace_twice; rewrite set_trace_eq; apply HQ;
  [|intros rs; autorewrite with sums; cbn [delta effect];
    unfold own_att, own_attachment; cbn [at_dmabuf at_attach at_sgt at_pdev]; try lia].

Section DmaBufLemmas.
Context {K : Kernel} {KO : KernelOk K}.

Lemma bar_loop_status g t d bars x rc y : bar_loop g t d bars x = (rc, y) -> rc <= 0.
Proof.
  induction bars as [|i bars IH]; simpl; [by intros [= <- _]|].
  destruct (k_pci_resource_mem g i); simpl; [|done].
  destruct (_ && _); [|done].
  destruct (extract_vram_offset_from_sg _ _ _ _ _) as [rc' o].
  by destruct (rc' =? 0); intros [= <- _].
Qed.

Lemma get_dmabuf_bar_gpa_gains fd x z :
  gains (get_dmabuf_bar_gpa fd x z) (fun _ _ => 0) (fun '(rc, _, _) => rc <= 0).
Proof.
  intros s Q HQ. unfold get_dmabuf_bar_gpa, cleanup, cleanup_detach, cleanup_no_attach.
  xwp; gains_exit HQ; try done.
  - apply ok_pin.
  - by eapply bar_loop_status.
Qed.

Lemma get_dmabuf_phys_addr_gains fd bdf x z :
  gains (get_dmabuf_phys_addr fd bdf x z)
    (fun '(rc, _, _, a) r => if rc =? 0 then own_att a r else 0)
    (fun '(rc, _, _, a) => rc <= 0 /\ (rc = 0 -> att_ok a)).
Proof.
  intros s Q HQ. unfold get_dmabuf_phys_addr, err_unmap, err_unpin, err_detach,
    err_put_dmabuf, err_put_pci.
  xwp; bool_to_prop; gains_exit HQ; try done;
    repeat match goal with |- context [?x =? 0] => destruct (Z.eqb_spec x 0) end;
    unfold PTR_ERR, EINVAL, EOPNOTSUPP, ENODEV in *; try lia.
  - split; [apply ok_pin|done].
  - exfalso. by apply Heqb0.
  - split; [done|intros _]. repeat split; cbn [at_dmabuf at_attach at_sgt at_pdev]; [..|done].
    + by eapply ok_dma_buf_get.
    + by eapply ok_attach.
    + by eapply ok_map.
Qed.

Lemma get_nvme_device_info_gains bdf info :
  gains (get_nvme_device_info bdf info) (fun _ _ => 0) (fun '(rc, _) => rc = 0 \/ rc = - ENODEV).
Proof. intros s Q HQ. unfold get_nvme_device_info. xwp; gains_exit HQ; auto. Qed.

Lemma get_mmio_bridge_shadow_buffer_gains bdf req :
  gains (get_mmio_bridge_shadow_buffer bdf req) (fun _ _ => 0)
    (fun '(rc, q) => rc < 0 \/ (rc = 0 /\ mb_shadow_gpa q <> 0 /\ mb_shadow_size q = 8192)).
Proof.
  intros s Q HQ. unfold get_mmio_bridge_shadow_buffer. xwp; bool_to_prop; gains_exit HQ; try by left.
  right. cbn [mb_shadow_gpa mb_shadow_size]. split_and!; [done| |done]. exact Heqb0.
Qed.

Lemma put_attachment_releases a : at_pdev a <> NULL -> releases (put_attachment a) (own_att a).
Proof.
  intros Hp. unfold put_attachment, pci_dev_put.
  rewrite (proj2 (Z.eqb_neq _ _) Hp).
  eapply releases_ext; [|repeat (apply releases_bind || apply releases_log)].
  intros r. unfold own_att, own_attachment. cbn [delta effect]. lia.
Qed.

(** ** Theorems *)

(** [get_dmabuf_bar_gpa] is balanced on every exit: whichever of its
    kernel calls fails, and also when it succeeds, the references it took on
    the dma-buf, the attachment, the pin, the mapping and the GPU are all
    given back, nothing but the call history changes, and the status is zero
    or negative. *)
Theorem get_dmabuf_bar_gpa_no_leak fd x z s :
  wp (get_dmabuf_bar_gpa fd x z)
    (fun '(rc, _, _) s' => rc <= 0 /\
       (forall r, held (st_trace s') r = held (st_trace s) r) /\
       (exists tr, s' = set_trace (fun _ => tr) s)) s.
Proof.
  apply get_dmabuf_bar_gpa_gains. intros [[rc g] sz] tr Hrc Htr. split_and!; [done| |by exists tr].
  intros r. proj. rewrite Htr. lia.
Qed.

(** [get_dmabuf_phys_addr] either fails with a negative status and holds
    nothing, or succeeds and holds exactly one reference on the dma-buf, the
    attachment, its pin, its mapping and the NVMe device, all non-NULL: the
    bundle its caller must keep alive and later release. *)
Theorem get_dmabuf_phys_addr_holds fd bdf x z s :
  wp (get_dmabuf_phys_addr fd bdf x z)
    (fun '(rc, _, _, a) s' =>
       (rc < 0 /\ forall r, held (st_trace s') r = held (st_trace s) r) \/
       (rc = 0 /\ att_ok a /\
        forall r, held (st_trace s') r = held (st_trace s) r + own_att a r)) s.
Proof.
  apply get_dmabuf_phys_addr_gains. intros [[[rc g] sz] a] tr [Hrc Ha] Htr.
  proj. destruct (Z.eqb_spec rc 0) as [->|Hne].
  - right. split_and!; auto.
  - left. split; [lia|]. intros r. rewrite Htr. lia.
Qed.

(** The BAR loop computes the specified address. *)
Lemma bar_loop_spec gpu sgt dmabuf x :
  k_pci_resource_mem gpu 0 = true -> k_pci_resource_prefetch gpu 0 = true ->
  sgt <> NULL -> dmabuf <> NULL -> k_dma_buf_priv dmabuf <> NULL ->
  0 <= k_pci_resource_start gpu 0 -> 0 <= k_pci_resource_len gpu 0 ->
  k_pci_resource_start gpu 0 + k_pci_resource_len gpu 0 < 18446744073709551616 ->
  (forall t, k_ttm_resource (k_dma_buf_priv dmabuf) = Some t ->
     0 <= tr_start t < 2 ^ 52) ->
  bar_loop gpu sgt dmabuf (seq 0 PCI_STD_NUM_BARS) x =
    (0, vram_gpa_spec sgt dmabuf (k_pci_resource_start gpu 0) (k_pci_resource_len gpu 0)).
Proof.
  intros Hm Hp Ht Hd Hv Hs Hl Hw Htt. cbn [bar_loop seq PCI_STD_NUM_BARS].
  rewrite Hm, Hp. cbn [negb Nat.eqb andb]. unfold vram_gpa_spec, extract_vram_offset_from_sg.
  set (bs := k_pci_resource_start gpu 0) in *. set (bl := k_pci_resource_len gpu 0) in *.
  rewrite (proj2 (Z.eqb_neq _ _) Ht).
  destruct (k_sgt sgt) as [|sg0 sgs] eqn:Hsg; [done|].
  destruct (find_first _ _) as [sg|] eqn:Hf.
  { apply find_first_Some in Hf as [_ Hin]. unfold sg_in_bar in Hin. bool_to_prop.
    rewrite u64_small in * by lia. cbn [Z.eqb]. f_equal.
    rewrite (u64_small (sg_phys sg - bs)), u64_small by lia. lia. }
  unfold extract_vram_offset_from_amdgpu_bo.
  rewrite (proj2 (Z.eqb_neq _ _) Hd), (proj2 (Z.eqb_neq _ _) Hv). cbn [orb].
  destruct (k_ttm_resource (k_dma_buf_priv dmabuf)) as [t|] eqn:Et.
  - specialize (Htt t eq_refl). destruct (tr_mem_type t =? TTM_PL_VRAM); cbn [negb].
    + cbn [Z.eqb]. rewrite Z.shiftl_mul_pow2 by (unfold PAGE_SHIFT; lia).
      change (2 ^ PAGE_SHIFT) with 4096. rewrite (u64_small (tr_start t * 4096)) by lia. done.
    + destruct (_ && _); done.
  - destruct (_ && _); done.
Qed.
(** On success the emulated path returns the specified guest address.
    When every kernel call succeeds and BAR 0 of the GPU is a prefetchable
    memory BAR that does not wrap, the status is zero, the size is the size of
    the dma-buf and the address is: the physical address of the first segment
    inside the BAR; failing that, the BAR base plus the TTM page offset of a
    VRAM placement; failing that, the BAR base plus the DMA address if it lies
    within the BAR; and the BAR base otherwise. *)
Theorem get_dmabuf_bar_gpa_value fd x z s d gpu a t :
  (forall tr, k_dma_buf_get tr fd = OkPtr d) -> (forall tr, k_pci_get_amd_gpu tr = gpu) ->
  gpu <> NULL -> (forall tr, k_dma_buf_attach tr d gpu = OkPtr a) ->
  (forall tr, k_dma_buf_pin tr a = 0) -> (forall tr, k_dma_buf_map tr a = OkPtr t) ->
  k_pci_resource_mem gpu 0 = true -> k_pci_resource_prefetch gpu 0 = true ->
  k_dma_buf_priv d <> NULL ->
  0 <= k_pci_resource_start gpu 0 -> 0 <= k_pci_resource_len gpu 0 ->
  k_pci_resource_start gpu 0 + k_pci_resource_len gpu 0 < 18446744073709551616 ->
  (forall t, k_ttm_resource (k_dma_buf_priv d) = Some t -> 0 <= tr_start t < 2 ^ 52) ->
  fst (get_dmabuf_bar_gpa fd x z s) =
    (0, vram_gpa_spec t d (k_pci_resource_start gpu 0) (k_pci_resource_len gpu 0),
     k_dma_buf_size d).
Proof.
  intros Hd Hg Hgn Ha Hpin Hmap Hm Hp Hpr Hs Hl Hw Htt.
  assert (d <> NULL /\ t <> NULL) as [Hdn Htn]
    by (split; [eapply ok_dma_buf_get, (Hd [])|eapply ok_map, (Hmap [])]).
  pose proof (bar_loop_spec gpu t d x Hm Hp Htn Hdn Hpr Hs Hl Hw Htt) as Hb.
  unfold get_dmabuf_bar_gpa, bind, ask, gets.
  rewrite Hd. cbn -[bar_loop seq PCI_STD_NUM_BARS]. rewrite Hg, (proj2 (Z.eqb_neq _ _) Hgn).
  cbn -[bar_loop seq PCI_STD_NUM_BARS]. rewrite Ha. cbn -[bar_loop seq PCI_STD_NUM_BARS]. rewrite Hpin. cbn -[bar_loop seq PCI_STD_NUM_BARS].
  rewrite Hmap. cbn -[bar_loop seq PCI_STD_NUM_BARS]. rewrite Hb. cbn.
  by destruct (cleanup_no_attach _ _ _).
Qed.
End DmaBufLemmas.

Lemma get_dmabuf_bar_gpa_value_witness :
  fst (get_dmabuf_bar_gpa (K := demo_kernel) 3 0 0 state0)
    = (0, 274877906944 + 256 * 4096, 65536).
Proof.
  rewrite (get_dmabuf_bar_gpa_value (K := demo_kernel) 3 0 0 state0 503 gpu_dev 1503 3503);
    try done.
  intros t [= <-]. done.
Defined.

Lemma get_dmabuf_bar_gpa_no_leak_witness :
  wp (get_dmabuf_bar_gpa (K := demo_kernel) 3 0 0)
    (fun '(rc, _, _) s' => rc <= 0 /\
       (forall r, held (st_trace s') r = held (st_trace state0) r) /\
       (exists tr, s' = set_trace (fun _ => tr) state0)) state0.
Proof. apply (get_dmabuf_bar_gpa_no_leak (K := demo_kernel) 3 0 0 state0). Defined.

Lemma get_dmabuf_phys_addr_holds_witness :
  wp (get_dmabuf_phys_addr (K := demo_kernel) 3 34048 0 0)
    (fun '(rc, _, _, a) s' =>
       (rc < 0 /\ forall r, held (st_trace s') r = held (st_trace state0) r) \/
       (rc = 0 /\ att_ok a /\
        forall r, held (st_trace s') r = held (st_trace state0) r + own_att a r)) state0.
Proof. apply (get_dmabuf_phys_addr_holds (K := demo_kernel) 3 34048 0 0 state0). Defined.
