(* ===== verification/BufferReg.v ===== *)
(** * Data-buffer registrations

    The list [vram_buffers] of [src/kernel/rocm-xio/rocm-xio.c]: address
    resolution ([ROCM_XIO_GET_VRAM_PHYS_ADDR]), registration and
    unregistration of data buffers, the lookup the NVMe probe performs, and
    the clean-up on file release and module exit.  A passthrough
    registration keeps a DMA attachment alive until it is removed. *)

From S2P Require Import Prelude Uapi Kernel State Demo Bdf QueueReg DmaBuf.

Section BufferReg.
Context `{K : Kernel}.

(** ** Lookup *)

Definition buffer_covers (virt_addr : Z) (e : vram_buffer_entry) : bool :=
  addr_in virt_addr (vb_virt_addr e) (vb_size e).

Definition lookup_buffer_phys_addr (l : list vram_buffer_entry) (virt_addr : Z) : Z :=
  let phys_addr :=
    match find_first (buffer_covers virt_addr) l with
    | Some e => u64 (vb_phys_addr e + (virt_addr - vb_virt_addr e))
    | None => 0
    end in
  if negb (phys_addr =? 0) then phys_addr
  else if k_virt_addr_valid virt_addr then k_virt_to_phys virt_addr
  else 0.

(** ** Operations *)

(** [ROCM_XIO_GET_VRAM_PHYS_ADDR]: always the BAR address. *)
Definition ioctl_get_vram_phys_addr (arg : option rocm_xio_vram_req) : X Z :=
  match arg with
  | None => ret (- EFAULT)
  | Some req =>
    let* '(rc, phys, size) :=
      get_dmabuf_bar_gpa (vr_dmabuf_fd req) (vr_phys_addr req) (vr_size req) in
    if rc <? 0 then ret rc
    else
      let* fault := copy_to_user (UVram
        {| vr_dmabuf_fd := vr_dmabuf_fd req; vr_nvme_bdf := vr_nvme_bdf req;
           vr_flags := vr_flags req; vr_phys_addr := phys; vr_size := size |}) in
      if (fault : bool) then ret (- EFAULT) else ret 0
  end.

Definition buffer_attachment (e : vram_buffer_entry) : attachment :=
  {| at_dmabuf := vb_dmabuf e; at_attach := vb_attach e; at_sgt := vb_sgt e;
     at_pdev := vb_nvme_pdev e |}.

(** [if (entry->is_passthrough && entry->sgt && entry->attach && entry->dmabuf)]
    followed by the release of the attachment. *)
Definition drop_attachment (e : vram_buffer_entry) : X unit :=
  if vb_is_passthrough e && negb (is_null (vb_sgt e)) && negb (is_null (vb_attach e))
     && negb (is_null (vb_dmabuf e))
  then put_attachment (buffer_attachment e)
  else ret tt.

(** Whether the flags select the emulated controller; passthrough is the
    default. *)
Definition is_emulated (flags : Z) : bool :=
  negb (Z.land flags ROCM_XIO_FLAG_EMULATED =? 0).

Definition fill_buffer_entry (file : ptr) (req : rocm_xio_register_buffer_req) (entry : ptr)
    (phys size : Z) (a : attachment) : vram_buffer_entry :=
  let emu := is_emulated (rb_flags req) in
  {| vb_self := entry;
     vb_virt_addr := rb_virt_addr req;
     vb_phys_addr := phys;
     vb_size := size;
     vb_owner := file;
     vb_dmabuf := if emu then NULL else at_dmabuf a;
     vb_attach := if emu then NULL else at_attach a;
     vb_sgt := if emu then NULL else at_sgt a;
     vb_nvme_pdev := if emu then NULL else at_pdev a;
     vb_is_passthrough := negb emu |}.

(** The address-resolution half of [ROCM_XIO_REGISTER_BUFFER]. *)
Definition resolve_buffer (req : rocm_xio_register_buffer_req)
    : X (Z * Z * Z * attachment) :=
  if is_emulated (rb_flags req) then
    let* '(rc, phys, size) := get_dmabuf_bar_gpa (rb_dmabuf_fd req) 0 (rb_size req) in
    ret (rc, phys, size, no_attachment)
  else get_dmabuf_phys_addr (rb_dmabuf_fd req) (rb_nvme_bdf req) 0 (rb_size req).

(** [ROCM_XIO_REGISTER_BUFFER]. *)
Definition ioctl_register_buffer (file : ptr) (arg : option rocm_xio_register_buffer_req)
    : X Z :=
  match arg with
  | None => ret (- EFAULT)
  | Some req =>
    let* '(rc, phys, size, a) := resolve_buffer req in
    if rc <? 0 then ret rc
    else
      let* m := kmalloc in
      match m with
      | None =>
        (if negb (is_emulated (rb_flags req)) && negb (is_null (at_sgt a))
            && negb (is_null (at_attach a)) && negb (is_null (at_dmabuf a))
         then put_attachment a else ret tt) ;;;
        ret (- ENOMEM)
      | Some (entry, _) =>
        let e := fill_buffer_entry file req entry phys size a in
        modify (set_vram_buffers (cons e)) ;;;
        let* fault := copy_to_user (UBuffer
          {| rb_dmabuf_fd := rb_dmabuf_fd req; rb_virt_addr := rb_virt_addr req;
             rb_phys_addr := phys; rb_size := size; rb_nvme_bdf := rb_nvme_bdf req;
             rb_flags := rb_flags req |}) in
        if (fault : bool) then
          modify (set_vram_buffers (remove_first (fun e' => vb_self e' =? entry))) ;;;
          drop_attachment e ;;;
          kfree entry ;;;
          ret (- EFAULT)
        else ret 0
      end
  end.

Definition owns_buffer_at (file : ptr) (virt : Z) (e : vram_buffer_entry) : bool :=
  (vb_virt_addr e =? virt) && (vb_owner e =? file).

(** [ROCM_XIO_UNREGISTER_BUFFER]. *)
Definition ioctl_unregister_buffer (file : ptr) (arg : option rocm_xio_unregister_buffer_req)
    : X Z :=
  match arg with
  | None => ret (- EFAULT)
  | Some req =>
    let mine := owns_buffer_at file (ub_virt_addr req) in
    let* l := gets st_vram_buffers in
    match find_first mine l with
    | None => ret (- ENOENT)
    | Some entry =>
      modify (set_vram_buffers (remove_first mine)) ;;;
      drop_attachment entry ;;;
      kfree (vb_self entry) ;;;
      ret 0
    end
  end.

Definition drop_buffer (e : vram_buffer_entry) : X unit :=
  drop_attachment e ;;; kfree (vb_self e).

(** Second block of [rocm_xio_release]. *)
Definition release_vram_buffers (file : ptr) : X unit :=
  let* l := gets st_vram_buffers in
  modify (set_vram_buffers (filter (fun e => (vb_owner e =? file) = false))) ;;;
  iterM drop_buffer (reverse (filter (fun e => (vb_owner e =? file) = true) l)).

(** The block of [rocm_xio_exit] that splices the list out and drops it. *)
Definition exit_vram_buffers : X unit :=
  let* l := gets st_vram_buffers in
  modify (set_vram_buffers (fun _ => [])) ;;;
  iterM drop_buffer l.

(** ** Invariant: a passthrough entry has a complete attachment *)

Definition buffer_wf (e : vram_buffer_entry) : Prop :=
  vb_is_passthrough e = true -> att_ok (buffer_attachment e).

Definition buffers_wf (s : xio_state) : Prop := Forall buffer_wf (st_vram_buffers s).

(** ** Lemmas *)

Lemma drop_attachment_releases e :
  buffer_wf e ->
  releases (drop_attachment e) (fun r => own_buffer e r - unit_of (RMem (vb_self e)) r).
Proof.
  intros Hwf. unfold drop_attachment.
  destruct (vb_is_passthrough e) eqn:E; cbn [andb].
  - destruct (Hwf E) as (Hd & Ha & Ht & Hp). cbn in Hd, Ha, Ht, Hp.
    rewrite (proj2 (Z.eqb_neq _ _) Hd), (proj2 (Z.eqb_neq _ _) Ha), (proj2 (Z.eqb_neq _ _) Ht).
    eapply releases_ext; [|by apply put_attachment_releases].
    intros r. unfold own_buffer. rewrite E. unfold own_att. cbn. lia.
  - eapply releases_ext; [|apply releases_ret]. intros r. unfold own_buffer. rewrite E. lia.
Qed.

Lemma drop_buffer_releases e : buffer_wf e -> releases (drop_buffer e) (own_buffer e).
Proof.
  intros Hwf. eapply releases_ext; [|apply releases_bind;
    [by apply drop_attachment_releases|apply releases_log]].
  intros r. cbn [delta effect]. lia.
Qed.

Lemma fill_buffer_entry_wf file req p x z a :
  (is_emulated (rb_flags req) = false -> att_ok a) ->
  buffer_wf (fill_buffer_entry file req p x z a).
Proof.
  unfold buffer_wf, fill_buffer_entry, buffer_attachment. cbn.
  destruct (is_emulated (rb_flags req)); [done|]. intros H _. by apply H.
Qed.

Lemma own_fill_buffer_entry file req p x z a r :
  own_buffer (fill_buffer_entry file req p x z a) r =
  unit_of (RMem p) r + (if is_emulated (rb_flags req) then 0 else own_att a r).
Proof.
  unfold own_buffer, fill_buffer_entry. cbn [vb_self vb_is_passthrough vb_dmabuf vb_attach
    vb_sgt vb_nvme_pdev]. by destruct (is_emulated (rb_flags req)).
Qed.

(** Unlinking the entry just linked in restores the list. *)
Lemma unlink_buffer P e f s :
  P e = true ->
  set_vram_buffers (remove_first P) (set_trace f (set_vram_buffers (cons e) s)) = set_trace f s.
Proof. intros HP. destruct s. unfold set_vram_buffers at 1. proj. cbn [remove_first]. rewrite HP. reflexivity. Qed.
End BufferReg.

Section BufferRegLedger.
Context {K : Kernel} {KO : KernelOk K}.

(** What address resolution gains: nothing on failure or on the emulated
    path, the attachment on the passthrough path. *)
Lemma resolve_buffer_gains req :
  gains (resolve_buffer req)
    (fun '(rc, _, _, a) r =>
       if (rc =? 0) && negb (is_emulated (rb_flags req)) then own_att a r else 0)
    (fun '(rc, _, _, a) => rc <= 0 /\
       (rc = 0 -> is_emulated (rb_flags req) = false -> att_ok a)).
Proof.
  intros s Q HQ. unfold resolve_buffer. destruct (is_emulated (rb_flags req)).
  - apply wp_bind, get_dmabuf_bar_gpa_gains. intros [[rc x] z] tr Hrc Htr. apply wp_ret.
    apply HQ; [done|]. intros r. rewrite andb_false_r. apply Htr.
  - apply get_dmabuf_phys_addr_gains. intros [[[rc x] z] a] tr [Hrc Ha] Htr.
    apply HQ; [auto|]. intros r. rewrite andb_true_r. apply Htr.
Qed.

Lemma get_vram_phys_addr_balanced tr0 arg s :
  balanced tr0 s -> wp (ioctl_get_vram_phys_addr arg) (fun _ s' => balanced tr0 s') s.
Proof.
  intros H. unfold ioctl_get_vram_phys_addr. destruct arg as [req|]; [|by apply wp_ret].
  apply wp_bind, get_dmabuf_bar_gpa_gains. intros [[rc x] z] tr _ Htr. xwp; ledger_open rs;
    specialize (Htr rs); ledger_close.
Qed.

(** Every outcome of a registration: on failure only the history changed and
    no reference was gained; on success the new entry is at the head of the
    list and accounts for everything that was acquired. *)
Lemma register_buffer_core file req s :
  wp (ioctl_register_buffer file (Some req)) (fun rc s' => exists tr,
    (rc < 0 /\ s' = set_trace (fun _ => tr) s /\
       forall r, held tr r = held (st_trace s) r) \/
    (rc = 0 /\ exists p x z a,
       let e := fill_buffer_entry file req p x z a in
       s' = set_vram_buffers (cons e) (set_trace (fun _ => tr) s) /\ buffer_wf e /\
       forall r, held tr r = held (st_trace s) r + own_buffer e r)) s.
Proof.
  unfold ioctl_register_buffer.
  apply wp_bind, resolve_buffer_gains. intros [[[rc x] z] a] tr [Hrc Ha] Htr.
  destruct (rc <? 0) eqn:Eneg; bool_to_prop.
  { apply wp_ret. exists tr. left. split_and!; [done..|]. intros r. rewrite Htr.
    rewrite (proj2 (Z.eqb_neq rc 0)) by lia. cbn [andb]. lia. }
  assert (rc = 0) as -> by lia. cbn [Z.eqb andb] in Htr. specialize (Ha eq_refl).
  assert (forall p, buffer_wf (fill_buffer_entry file req p x z a)) as Hw0
    by (intros; by apply fill_buffer_entry_wf).
  apply wp_bind, wp_kmalloc.
  - intros p g Hk. apply wp_bind, wp_modify, wp_bind, wp_copy_to_user.
    + apply wp_bind, wp_modify, wp_bind.
      eapply wp_releases; [apply drop_attachment_releases, Hw0|].
      intros tr1 Htr1. xwp. exists (EvKfree p :: tr1). left. split_and!; [done|..].
      * rewrite unlink_buffer by apply Z.eqb_refl. reflexivity.
      * intros r. revert Htr1. proj. intros Htr1. specialize (Htr r). specialize (Htr1 r).
        rewrite own_fill_buffer_entry in Htr1. cbn [fill_buffer_entry vb_self] in Htr1.
        destruct (is_emulated (rb_flags req)); ledger_close.
    + apply wp_ret. eexists. right. split; [done|]. exists p, x, z, a.
      split_and!; [reflexivity|done|]. intros r. specialize (Htr r).
      rewrite own_fill_buffer_entry. proj. destruct (is_emulated (rb_flags req)); ledger_close.
  - intros Hk. apply wp_bind. destruct (is_emulated (rb_flags req)); cbn [negb andb] in *.
    + xwp. eexists. left. split_and!; [done|reflexivity|]. intros r. specialize (Htr r).
      proj. ledger_close.
    + destruct (Ha eq_refl) as (Hd & Hat & Ht & Hp).
      rewrite (proj2 (Z.eqb_neq _ _) Hd), (proj2 (Z.eqb_neq _ _) Hat), (proj2 (Z.eqb_neq _ _) Ht).
      eapply wp_releases; [by apply put_attachment_releases|]. intros tr1 Htr1.
      xwp. exists tr1. left. split_and!; [done..|]. intros r. revert Htr1. proj.
      intros Htr1. specialize (Htr r). specialize (Htr1 r). ledger_close.
Qed.

Lemma register_buffer_balanced tr0 file arg s :
  balanced tr0 s -> buffers_wf s ->
  wp (ioctl_register_buffer file arg) (fun _ s' => balanced tr0 s' /\ buffers_wf s') s.
Proof.
  intros H Hwf. destruct arg as [req|]; [|by apply wp_ret].
  eapply wp_mono; [apply register_buffer_core|].
  intros rc s' (tr & [(_ & -> & Htr)|(_ & p & x & z & a & -> & He & Htr)]).
  - split; [|done]. ledger_open rs. specialize (Htr rs). ledger_close.
  - split; [|by constructor]. ledger_open rs. specialize (Htr rs). ledger_close.
Qed.

Lemma buffers_wf_remove P s :
  buffers_wf s -> Forall buffer_wf (remove_first P (st_vram_buffers s)).
Proof.
  intros H. apply elem_Forall. intros e He%elem_of_remove_first. by eapply Forall_elem.
Qed.

Lemma unregister_buffer_balanced tr0 file arg s :
  balanced tr0 s -> buffers_wf s ->
  wp (ioctl_unregister_buffer file arg) (fun _ s' => balanced tr0 s' /\ buffers_wf s') s.
Proof.
  intros H Hwf. unfold ioctl_unregister_buffer. destruct arg as [req|]; [|by apply wp_ret].
  apply wp_bind, wp_gets. destruct (find_first _ _) as [e|] eqn:E; [|by apply wp_ret].
  assert (buffer_wf e) as He by (eapply Forall_elem; [exact Hwf|by apply find_first_Some in E as []]).
  apply wp_bind, wp_modify, wp_bind. eapply wp_releases; [by apply drop_attachment_releases|].
  intros tr1 Htr1. xwp. split; [|by apply buffers_wf_remove].
  ledger_open rs. specialize (Htr1 rs).
  pose proof (sumZ_remove_first (fun e => own_buffer e rs) _ _ _ E).
  revert Htr1. proj. intros. ledger_close.
Qed.

Lemma drop_all_buffers_releases l :
  Forall buffer_wf l -> releases (iterM drop_buffer l) (fun r => sumZ (fun e => own_buffer e r) l).
Proof.
  intros H. apply releases_iter. intros e He. apply drop_buffer_releases. by eapply Forall_elem.
Qed.

Lemma release_vram_buffers_balanced tr0 file s :
  balanced tr0 s -> buffers_wf s ->
  wp (release_vram_buffers file) (fun _ s' => balanced tr0 s' /\ buffers_wf s') s.
Proof.
  intros H Hwf. unfold release_vram_buffers. xwp.
  assert (forall b, Forall buffer_wf (filter (fun e => (vb_owner e =? file) = b) (st_vram_buffers s)))
    as Hf by (intros b; apply elem_Forall; intros e [_ He]%list_elem_of_filter; by eapply Forall_elem).
  eapply wp_releases; [apply drop_all_buffers_releases; by apply Forall_reverse|].
  intros tr1 Htr1. split; [|apply Hf]. ledger_open rs. specialize (Htr1 rs).
  pose proof (sumZ_filter_split (fun e => own_buffer e rs) (fun e => vb_owner e =? file)
    (st_vram_buffers s)).
  revert Htr1. proj. rewrite sumZ_reverse. intros. ledger_close.
Qed.

Lemma exit_vram_buffers_balanced tr0 s :
  balanced tr0 s -> buffers_wf s ->
  wp exit_vram_buffers (fun _ s' => balanced tr0 s' /\ st_vram_buffers s' = []) s.
Proof.
  intros H Hwf. unfold exit_vram_buffers. xwp.
  eapply wp_releases; [by apply drop_all_buffers_releases|].
  intros tr1 Htr1. split; [|done]. ledger_open rs. specialize (Htr1 rs).
  revert Htr1. proj. intros. ledger_close.
Qed.

(** ** Theorems *)

(** Registering a buffer is all or nothing.  Whichever step fails
    (address resolution, allocation, or copying the result back), the call
    returns a negative status, the registry is what it was and no reference
    of any kind is left held; on success the new entry is first in the list,
    belongs to the calling file, starts at the requested address, and the
    references held grew by exactly what that entry accounts for. *)
Theorem register_buffer_all_or_nothing file req s :
  wp (ioctl_register_buffer file (Some req)) (fun rc s' =>
    (rc < 0 /\ st_vram_buffers s' = st_vram_buffers s /\
       forall r, held (st_trace s') r = held (st_trace s) r) \/
    (rc = 0 /\ exists e, st_vram_buffers s' = e :: st_vram_buffers s /\
       vb_owner e = file /\ vb_virt_addr e = rb_virt_addr req /\
       vb_is_passthrough e = negb (is_emulated (rb_flags req)) /\ buffer_wf e /\
       forall r, held (st_trace s') r = held (st_trace s) r + own_buffer e r)) s.
Proof.
  eapply wp_mono; [apply register_buffer_core|].
  intros rc s' (tr & [(? & -> & Htr)|(? & p & x & z & a & -> & He & Htr)]); [by left|].
  right. split; [done|]. exists (fill_buffer_entry file req p x z a). split_and!; done.
Qed.

(** Only the owner can unregister: if no entry at the address belongs to
    the calling file, the call returns -ENOENT and changes nothing; otherwise
    it returns 0, removes the first such entry and leaves every entry of
    other files where it was. *)
Theorem unregister_buffer_owner_only file req s :
  Forall buffer_wf (st_vram_buffers s) ->
  wp (ioctl_unregister_buffer file (Some req)) (fun rc s' =>
    match find_first (owns_buffer_at file (ub_virt_addr req)) (st_vram_buffers s) with
    | None => rc = - ENOENT /\ s' = s
    | Some e => rc = 0 /\
        st_vram_buffers s' = remove_first (owns_buffer_at file (ub_virt_addr req)) (st_vram_buffers s) /\
        filter (fun e => vb_owner e <> file) (st_vram_buffers s')
          = filter (fun e => vb_owner e <> file) (st_vram_buffers s) /\
        forall r, held (st_trace s') r = held (st_trace s) r - own_buffer e r
    end) s.
Proof.
  intros Hwf. unfold ioctl_unregister_buffer. apply wp_bind, wp_gets.
  destruct (find_first _ _) as [e|] eqn:E; [|by apply wp_ret].
  assert (buffer_wf e) as He by (eapply Forall_elem; [exact Hwf|by apply find_first_Some in E as []]).
  apply wp_bind, wp_modify, wp_bind. eapply wp_releases; [by apply drop_attachment_releases|].
  intros tr1 Htr1. xwp. split_and!; [done|done|..].
  - proj. apply find_first_split in E as Es. destruct Es as (l1 & l2 & -> & -> & _).
    rewrite !list_basics.list.filter_app, filter_cons, decide_False; [done|].
    apply find_first_Some in E as [_ Ee]. unfold owns_buffer_at in Ee. bool_to_prop. tauto.
  - intros r. specialize (Htr1 r). revert Htr1. proj. intros. ledger_close.
Qed.
End BufferRegLedger.

Definition sample_buffer_req (flags : Z) : rocm_xio_register_buffer_req :=
  {| rb_dmabuf_fd := 3; rb_virt_addr := 2097152; rb_phys_addr := 0; rb_size := 0;
     rb_nvme_bdf := 34048; rb_flags := flags |}.

Lemma register_buffer_all_or_nothing_witness :
  length (st_vram_buffers
    (snd (ioctl_register_buffer (K := demo_kernel) 42 (Some (sample_buffer_req 2)) state0)))
    = 1%nat /\
  wp (ioctl_register_buffer (K := demo_kernel) 42 (Some (sample_buffer_req 2)))
    (fun rc s' => rc < 0 \/ exists e, st_vram_buffers s' = [e] /\ vb_owner e = 42) state0.
Proof.
  split; [by vm_compute|].
  eapply wp_mono;
    [apply (register_buffer_all_or_nothing (K := demo_kernel) 42 (sample_buffer_req 2) state0)|].
  intros rc s' [(? & _)|(_ & e & ? & ? & _)]; eauto.
Defined.

Lemma unregister_buffer_owner_only_witness :
  let s1 := set_vram_buffers (cons (fill_buffer_entry 42 (sample_buffer_req 1) 4096 0 0 no_attachment))
              state0 in
  wp (ioctl_unregister_buffer 43 (Some {| ub_virt_addr := 2097152 |}))
    (fun rc s' => rc = - ENOENT /\ s' = s1) s1 /\
  fst (ioctl_unregister_buffer 42 (Some {| ub_virt_addr := 2097152 |}) s1) = 0.
Proof.
  intros s1. split; [|by vm_compute].
  apply (unregister_buffer_owner_only 43 {| ub_virt_addr := 2097152 |} s1).
  constructor; [by intros [=]|constructor].
Defined.
