(* ===== verification/Contig.v ===== *)
(** * Contiguous DMA allocations

    The list [contig_allocs] of [src/kernel/rocm-xio/rocm-xio.c] and the
    reference-counted objects on it: [ROCM_XIO_ALLOC_CONTIG_QUEUE],
    [ROCM_XIO_FREE_CONTIG_QUEUE], [rocm_xio_mmap], the VMA callbacks
    [contig_vma_open] and [contig_vma_close], [contig_alloc_release], and the
    clean-up blocks of [rocm_xio_release] and [rocm_xio_exit].

    Objects live in a store indexed by address; touching an address that is
    no longer there is recorded as [EvUseAfterFree].  The handlers are split
    where the code drops its lock with an object in hand, so that the steps
    of concurrent callers can be interleaved. *)

From S2P Require Import Prelude Uapi Kernel State Demo Bdf DmaBuf.

(** ** The store *)

Definition with_objs (f : gmap Z contig_alloc_entry -> gmap Z contig_alloc_entry)
    (c : contig_state) : contig_state :=
  {| cs_objs := f (cs_objs c); cs_list := cs_list c; cs_next_id := cs_next_id c;
     cs_vmas := cs_vmas c |}.
Definition with_list (f : list ptr -> list ptr) (c : contig_state) : contig_state :=
  {| cs_objs := cs_objs c; cs_list := f (cs_list c); cs_next_id := cs_next_id c;
     cs_vmas := cs_vmas c |}.
Definition with_next_id (f : Z -> Z) (c : contig_state) : contig_state :=
  {| cs_objs := cs_objs c; cs_list := cs_list c; cs_next_id := f (cs_next_id c);
     cs_vmas := cs_vmas c |}.
Definition with_vmas (f : gmap Z ptr -> gmap Z ptr) (c : contig_state) : contig_state :=
  {| cs_objs := cs_objs c; cs_list := cs_list c; cs_next_id := cs_next_id c;
     cs_vmas := f (cs_vmas c) |}.

Definition set_ref (n : Z) (ca : contig_alloc_entry) : contig_alloc_entry :=
  {| ca_self := ca_self ca; ca_cpu_addr := ca_cpu_addr ca; ca_dma_addr := ca_dma_addr ca;
     ca_size := ca_size ca; ca_id := ca_id ca; ca_pdev := ca_pdev ca;
     ca_owner := ca_owner ca; ca_ref := n |}.

(** The part of a [vm_area_struct] the handlers look at. *)
Record vm_area := { vma_id : Z; vm_start : Z; vm_end : Z; vm_pgoff : Z; vm_file : ptr }.

Section Contig.
Context `{K : Kernel}.

(** ** Reference counts *)

Definition deref (p : ptr) : X (option contig_alloc_entry) :=
  let* o := gets (fun s => cs_objs (st_contig s) !! p) in
  match o with
  | Some ca => ret (Some ca)
  | None => log (EvUseAfterFree p) ;;; ret None
  end.

Definition contig_alloc_release (ca : contig_alloc_entry) : X unit :=
  log (EvDmaFree (ca_pdev ca) (ca_size ca) (ca_cpu_addr ca) (ca_dma_addr ca)) ;;;
  pci_dev_put (ca_pdev ca) ;;;
  kfree (ca_self ca) ;;;
  modify (set_contig (with_objs (delete (ca_self ca)))).

Definition kref_get (p : ptr) : X unit :=
  let* o := deref p in
  match o with
  | None => ret tt
  | Some ca => modify (set_contig (with_objs (insert p (set_ref (ca_ref ca + 1) ca))))
  end.

(** [kref_put(&ca->ref, contig_alloc_release)]. *)
Definition kref_put (p : ptr) : X unit :=
  let* o := deref p in
  match o with
  | None => ret tt
  | Some ca =>
    if ca_ref ca =? 1 then contig_alloc_release ca
    else modify (set_contig (with_objs (insert p (set_ref (ca_ref ca - 1) ca))))
  end.

Definition contig_vma_open (v v' : Z) : X unit :=
  let* o := gets (fun s => cs_vmas (st_contig s) !! v) in
  match o with
  | None => ret tt
  | Some ca =>
    kref_get ca ;;;
    modify (set_contig (with_vmas (insert v' ca)))
  end.

Definition contig_vma_close (v : Z) : X unit :=
  let* o := gets (fun s => cs_vmas (st_contig s) !! v) in
  match o with
  | None => ret tt
  | Some ca =>
    modify (set_contig (with_vmas (delete v))) ;;;
    kref_put ca
  end.

(** ** Searching the list *)

Fixpoint list_walk (P : contig_alloc_entry -> bool) (l : list ptr) : X (option ptr) :=
  match l with
  | [] => ret None
  | p :: l' =>
    let* o := deref p in
    match o with
    | None => ret None
    | Some ca => if P ca then ret (Some p) else list_walk P l'
    end
  end.

Definition owned_id (file : ptr) (id : Z) (ca : contig_alloc_entry) : bool :=
  (ca_id ca =? id) && (ca_owner ca =? file).

Definition list_del (p : ptr) : X unit :=
  modify (set_contig (with_list (remove_first (fun q : ptr => q =? p)))).

(** ** ALLOC_CONTIG_QUEUE *)

(** The local variables of the handler once the object is linked in. *)
Record alloc_locals := {
  al_ca : ptr; al_pdev : ptr; al_cpu_addr : Z; al_dma_addr : Z; al_req : rocm_xio_alloc_contig_req
}.

(** Up to and including the critical section that links the object. *)
Definition contig_alloc_insert (file : ptr) (req : rocm_xio_alloc_contig_req)
    : X (Z + alloc_locals) :=
  if (ac_size req =? 0) || (16 * 1024 * 1024 <? ac_size req) then ret (inl (- EINVAL))
  else
    let domain := bdf_domain (ac_nvme_bdf req) in
    let bus := bdf_bus (ac_nvme_bdf req) in
    let devfn := bdf_devfn (ac_nvme_bdf req) in
    let* pdev := pci_get_domain_bus_and_slot domain bus devfn in
    if is_null pdev then ret (inl (- ENODEV))
    else
      let* mem := ask (fun tr => k_dma_alloc tr pdev (ac_size req)) in
      match mem with
      | None =>
        log (EvFail FDmaAlloc) ;;;
        pci_dev_put pdev ;;;
        ret (inl (- ENOMEM))
      | Some (cpu_addr, dma_addr) =>
        log (EvDmaAlloc pdev (ac_size req) cpu_addr dma_addr) ;;;
        log (EvMemset cpu_addr (ac_size req)) ;;;
        let* m := kmalloc in
        match m with
        | None =>
          log (EvDmaFree pdev (ac_size req) cpu_addr dma_addr) ;;;
          pci_dev_put pdev ;;;
          ret (inl (- ENOMEM))
        | Some (ca, _) =>
          let* id := gets (fun s => cs_next_id (st_contig s)) in
          modify (set_contig (fun c =>
            with_list (cons ca)
              (with_objs (insert ca
                 {| ca_self := ca; ca_cpu_addr := cpu_addr; ca_dma_addr := dma_addr;
                    ca_size := ac_size req; ca_id := id; ca_pdev := pdev;
                    ca_owner := file; ca_ref := 1 |})
                 (with_next_id (fun n => u32 (n + 1)) c)))) ;;;
          ret (inr {| al_ca := ca; al_pdev := pdev; al_cpu_addr := cpu_addr;
                      al_dma_addr := dma_addr; al_req := req |})
        end
      end.

(** After the lock is dropped: the id is read through the object again, and
    a faulting copy takes the object apart with the local variables, whatever
    its reference count. *)
Definition contig_alloc_publish (l : alloc_locals) : X Z :=
  let* o := deref (al_ca l) in
  let req := {| ac_size := ac_size (al_req l); ac_nvme_bdf := ac_nvme_bdf (al_req l);
                ac_phys_addr := al_dma_addr l;
                ac_mmap_offset := match o with Some ca => ca_id ca | None => 0 end |} in
  let* fault := copy_to_user (UContig req) in
  if (fault : bool) then
    deref (al_ca l) ;;;
    list_del (al_ca l) ;;;
    log (EvDmaFree (al_pdev l) (ac_size req) (al_cpu_addr l) (al_dma_addr l)) ;;;
    pci_dev_put (al_pdev l) ;;;
    kfree (al_ca l) ;;;
    modify (set_contig (with_objs (delete (al_ca l)))) ;;;
    ret (- EFAULT)
  else ret 0.

Definition ioctl_alloc_contig_queue (file : ptr) (arg : option rocm_xio_alloc_contig_req) : X Z :=
  match arg with
  | None => ret (- EFAULT)
  | Some req =>
    let* r := contig_alloc_insert file req in
    match r with
    | inl rc => ret rc
    | inr l => contig_alloc_publish l
    end
  end.

(** ** FREE_CONTIG_QUEUE *)

Definition ioctl_free_contig_queue (file : ptr) (arg : option rocm_xio_free_contig_req) : X Z :=
  match arg with
  | None => ret (- EFAULT)
  | Some req =>
    let* l := gets (fun s => cs_list (st_contig s)) in
    let* found := list_walk (owned_id file (fc_mmap_offset req)) l in
    match found with
    | None => ret (- ENOENT)
    | Some ca =>
      list_del ca ;;;
      kref_put ca ;;;
      ret 0
    end
  end.

(** ** mmap *)

(** [vm_pgoff == 0]: the MMIO bridge shadow buffer. *)
Definition mmap_shadow (vma : vm_area) : X Z :=
  let* gpa := gets st_shadow_gpa in
  let* size := gets st_shadow_size in
  if gpa =? 0 then ret (- EINVAL)
  else
    let pfn := Z.shiftr gpa PAGE_SHIFT in
    let* rc := ask (fun tr => k_remap_pfn_range tr (vm_start vma) pfn size) in
    if rc <? 0 then log (EvFail FRemap) ;;; ret rc
    else log (EvRemapPfn (vm_start vma) pfn size) ;;; ret 0.

(** The critical section: look the object up and take a reference. *)
Definition mmap_contig_get (vma : vm_area) : X (option ptr) :=
  let target_id := u32 (vm_pgoff vma) in
  let* l := gets (fun s => cs_list (st_contig s)) in
  let* found := list_walk (owned_id (vm_file vma) target_id) l in
  match found with
  | None => ret None
  | Some ca => kref_get ca ;;; ret (Some ca)
  end.

(** The rest of the handler, with a reference in hand. *)
Definition mmap_contig_map (vma : vm_area) (ca : ptr) : X Z :=
  let* o := deref ca in
  match o with
  | None => ret 0
  | Some e =>
    let size := u64 (vm_end vma - vm_start vma) in
    if ca_size e <? size then kref_put ca ;;; ret (- EINVAL)
    else
      let* rc := ask (fun tr => k_dma_mmap tr (ca_pdev e) size) in
      if rc <? 0 then log (EvFail FMmap) ;;; kref_put ca ;;; ret rc
      else
        log (EvDmaMmap (ca_pdev e) (vm_start vma) 0 (ca_cpu_addr e) (ca_dma_addr e) size) ;;;
        modify (set_contig (with_vmas (insert (vma_id vma) ca))) ;;;
        ret 0
  end.

Definition rocm_xio_mmap (vma : vm_area) : X Z :=
  if vm_pgoff vma =? 0 then mmap_shadow vma
  else
    let* found := mmap_contig_get vma in
    match found with
    | None => ret (- ENOENT)
    | Some ca => mmap_contig_map vma ca
    end.

(** ** Clean-up *)

Definition obj_owned_by (file : ptr) (c : contig_state) (p : ptr) : bool :=
  match cs_objs c !! p with Some ca => ca_owner ca =? file | None => false end.

(** Third block of [rocm_xio_release]: the walk reads every object on the
    list, moves the file's own to a private list, and drops their list
    references. *)
Definition release_contig (file : ptr) : X unit :=
  let* c := gets st_contig in
  iterM (fun p => deref p ;;; ret tt) (cs_list c) ;;;
  modify (set_contig (with_list (filter (fun p => obj_owned_by file c p = false)))) ;;;
  iterM kref_put (reverse (filter (fun p => obj_owned_by file c p = true) (cs_list c))).

(** The block of [rocm_xio_exit]. *)
Definition exit_contig : X unit :=
  let* l := gets (fun s => cs_list (st_contig s)) in
  modify (set_contig (with_list (fun _ => []))) ;;;
  iterM kref_put (reverse l).

(** ** Invariant *)

Definition refcount (c : contig_state) (p : ptr) : Z :=
  match cs_objs c !! p with Some ca => ca_ref ca | None => 0 end.

(** References held by the list and by the mappings. *)
Definition links (c : contig_state) (p : ptr) : Z := sumZ (fun q : ptr => ind (q =? p)) (cs_list c).
Definition maps (c : contig_state) (p : ptr) : Z := msum (fun q : ptr => ind (q =? p)) (cs_vmas c).

(** Each object's count is the number of its holders: the list, the
    mappings, and [x], the references in the hands of running handlers. *)
Record contig_inv (x : ptr -> Z) (c : contig_state) : Prop := {
  ci_ref : forall p, refcount c p = links c p + maps c p + x p;
  ci_obj : forall p ca, cs_objs c !! p = Some ca -> ca_self ca = p /\ 1 <= ca_ref ca
}.

Definition no_refs : ptr -> Z := fun _ => 0.
Definition one_ref (p : ptr) : ptr -> Z := fun q => ind (p =? q).

(** The component's invariant: counts, ledger, and no freed object touched. *)
Record contig_ok (tr0 : trace) (x : ptr -> Z) (s : xio_state) : Prop := {
  co_inv : contig_inv x (st_contig s);
  co_bal : balanced tr0 s;
  co_uaf : uaf_free (st_trace s) = true
}.

(** ** Lemmas *)

Lemma links_nonneg c p : 0 <= links c p.
Proof. apply sumZ_nonneg. intros q. apply ind_nonneg. Qed.

Lemma maps_nonneg c p : 0 <= maps c p.
Proof. apply msum_nonneg. intros q. apply ind_nonneg. Qed.

(** Whatever is referenced is live. *)
Lemma contig_live x c p :
  contig_inv x c -> (forall q, 0 <= x q) -> 1 <= links c p + maps c p + x p ->
  exists ca, cs_objs c !! p = Some ca /\ ca_self ca = p /\
    ca_ref ca = links c p + maps c p + x p.
Proof.
  intros [Href Hobj] Hx H. specialize (Href p). revert Href. unfold refcount.
  destruct (cs_objs c !! p) as [ca|] eqn:E; intros Href; [|lia].
  exists ca. by destruct (Hobj p ca E).
Qed.

Lemma links_elem c p : p ∈ cs_list c -> 1 <= links c p.
Proof.
  intros H. unfold links.
  etrans; [|apply (sumZ_elem_le (fun q : ptr => ind (q =? p)) _ p); [|done]].
  - by rewrite Z.eqb_refl.
  - intros q. apply ind_nonneg.
Qed.

Lemma maps_elem c v p : cs_vmas c !! v = Some p -> 1 <= maps c p.
Proof.
  intros H. unfold maps. rewrite (msum_delete _ _ _ _ H), Z.eqb_refl. cbn [ind].
  pose proof (msum_nonneg (fun q : ptr => ind (q =? p)) (delete v (cs_vmas c))
    (fun q => ind_nonneg _)). lia.
Qed.

Lemma wp_deref_live p ca (Q : option contig_alloc_entry -> xio_state -> Prop) s :
  cs_objs (st_contig s) !! p = Some ca -> Q (Some ca) s -> wp (deref p) Q s.
Proof. intros E HQ. unfold wp, deref, bind, gets. by rewrite E. Qed.

(** On a list of live objects the walk is a first-match search that changes
    nothing. *)
Definition obj_sat (c : contig_state) (P : contig_alloc_entry -> bool) (p : ptr) : bool :=
  match cs_objs c !! p with Some ca => P ca | None => false end.

Lemma list_walk_live P l s :
  (forall p, p ∈ l -> is_Some (cs_objs (st_contig s) !! p)) ->
  list_walk P l s = (find_first (obj_sat (st_contig s) P) l, s).
Proof.
  induction l as [|p l IH]; intros H; [done|].
  cbn [list_walk find_first]. unfold bind at 1.
  destruct (H p) as [ca E]; [left|].
  unfold deref, bind, gets, obj_sat at 1. rewrite E. cbn.
  destruct (P ca); [done|]. apply IH. intros q Hq. apply H. by right.
Qed.

Lemma refcount_insert c p q ca :
  refcount (with_objs (insert p ca) c) q = if p =? q then ca_ref ca else refcount c q.
Proof.
  unfold refcount, with_objs. cbn [cs_objs]. destruct (Z.eqb_spec p q) as [->|Hne].
  - by rewrite lookup_insert_eq.
  - by rewrite lookup_insert_ne.
Qed.

Lemma refcount_delete c p q :
  refcount (with_objs (delete p) c) q = if p =? q then 0 else refcount c q.
Proof.
  unfold refcount, with_objs. cbn [cs_objs]. destruct (Z.eqb_spec p q) as [->|Hne].
  - by rewrite lookup_delete_eq.
  - by rewrite lookup_delete_ne.
Qed.

(** Changing a count in step with the references in hand. *)
Lemma contig_inv_set_ref x c p ca n :
  contig_inv x c -> cs_objs c !! p = Some ca -> 1 <= ca_ref ca + n ->
  contig_inv (fun q => x q + n * one_ref p q)
    (with_objs (insert p (set_ref (ca_ref ca + n) ca)) c).
Proof.
  intros [Href Hobj] E Hn. split.
  - intros q. rewrite refcount_insert. unfold one_ref. specialize (Href q).
    change (links (with_objs ?f c) q) with (links c q).
    change (maps (with_objs ?f c) q) with (maps c q).
    destruct (Z.eqb_spec p q) as [<-|]; cbn [ind set_ref ca_ref]; [|lia].
    unfold refcount in Href. rewrite E in Href. lia.
  - intros q cb. unfold with_objs. cbn [cs_objs].
    intros [[<- <-]|[_ H]]%lookup_insert_Some; [|by apply Hobj].
    destruct (Hobj p ca E). by cbn.
Qed.

Lemma contig_inv_drop_last x c p ca :
  contig_inv x c -> cs_objs c !! p = Some ca -> ca_ref ca = 1 ->
  contig_inv (fun q => x q - one_ref p q) (with_objs (delete p) c).
Proof.
  intros [Href Hobj] E H1. split.
  - intros q. rewrite refcount_delete. unfold one_ref. specialize (Href q).
    change (links (with_objs ?f c) q) with (links c q).
    change (maps (with_objs ?f c) q) with (maps c q).
    destruct (Z.eqb_spec p q) as [<-|]; cbn [ind]; [|lia].
    unfold refcount in Href. rewrite E in Href. lia.
  - intros q cb. unfold with_objs. cbn [cs_objs].
    intros [_ H]%lookup_delete_Some. by apply Hobj.
Qed.

(** Moving a reference between the list and a handler. *)
Lemma contig_inv_list_del x c p :
  contig_inv x c -> p ∈ cs_list c ->
  contig_inv (fun q => x q + one_ref p q) (with_list (remove_first (fun q : ptr => q =? p)) c).
Proof.
  intros [Href Hobj] Hin. split; [|done]. intros q. specialize (Href q).
  change (refcount (with_list ?f c) q) with (refcount c q).
  change (maps (with_list ?f c) q) with (maps c q).
  unfold one_ref. revert Href. unfold links, with_list. cbn [cs_list].
  destruct (find_first (fun q : ptr => q =? p) (cs_list c)) as [p'|] eqn:E.
  - rewrite (sumZ_remove_first _ _ _ _ E). apply find_first_Some in E as [_ E].
    apply Z.eqb_eq in E as ->. lia.
  - rewrite find_first_None in E. specialize (E p Hin). by rewrite Z.eqb_refl in E.
Qed.

(** Moving a reference between a mapping and a handler. *)
Lemma contig_inv_vma_add x c v p :
  contig_inv x c -> cs_vmas c !! v = None ->
  contig_inv (fun q => x q - one_ref p q) (with_vmas (insert v p) c).
Proof.
  intros [Href Hobj] Hv. split; [|done]. intros q. specialize (Href q).
  change (refcount (with_vmas ?f c) q) with (refcount c q).
  change (links (with_vmas ?f c) q) with (links c q).
  unfold one_ref. revert Href. unfold maps, with_vmas. cbn [cs_vmas].
  rewrite (msum_insert _ _ _ _ Hv). lia.
Qed.

Lemma contig_inv_vma_del x c v p :
  contig_inv x c -> cs_vmas c !! v = Some p ->
  contig_inv (fun q => x q + one_ref p q) (with_vmas (delete v) c).
Proof.
  intros [Href Hobj] Hv. split; [|done]. intros q. specialize (Href q).
  change (refcount (with_vmas ?f c) q) with (refcount c q).
  change (links (with_vmas ?f c) q) with (links c q).
  unfold one_ref. revert Href. unfold maps, with_vmas. cbn [cs_vmas].
  rewrite (msum_delete _ _ _ _ Hv). lia.
Qed.

Lemma contig_inv_ext x x' c : (forall q, x' q = x q) -> contig_inv x c -> contig_inv x' c.
Proof. intros He [H1 H2]. split; [|done]. intros q. by rewrite He. Qed.

(** *** The operations keep the invariant *)

(** The list and the mappings are untouched. *)
Definition same_holders (s s' : xio_state) : Prop :=
  cs_list (st_contig s') = cs_list (st_contig s) /\
  cs_vmas (st_contig s') = cs_vmas (st_contig s).

Lemma balanced_same_objs tr0 f s :
  cs_objs (f (st_contig s)) = cs_objs (st_contig s) ->
  balanced tr0 s -> balanced tr0 (set_contig f s).
Proof. intros He H. ledger_open rs. autorewrite with books. rewrite He. proj. lia. Qed.

Lemma contig_ok_list tr0 x s p :
  contig_ok tr0 x s -> p ∈ cs_list (st_contig s) ->
  contig_ok tr0 (fun q => x q + one_ref p q)
    (set_contig (with_list (remove_first (fun q : ptr => q =? p))) s).
Proof.
  intros [Hi Hb Hu] Hp. split; [by apply contig_inv_list_del|by apply balanced_same_objs|done].
Qed.

Lemma contig_ok_vma_add tr0 x s v p :
  contig_ok tr0 x s -> cs_vmas (st_contig s) !! v = None ->
  contig_ok tr0 (fun q => x q - one_ref p q) (set_contig (with_vmas (insert v p)) s).
Proof. intros [Hi Hb Hu] Hp. split; [by apply contig_inv_vma_add|by apply balanced_same_objs|done]. Qed.

Lemma contig_ok_vma_del tr0 x s v p :
  contig_ok tr0 x s -> cs_vmas (st_contig s) !! v = Some p ->
  contig_ok tr0 (fun q => x q + one_ref p q) (set_contig (with_vmas (delete v)) s).
Proof. intros [Hi Hb Hu] Hp. split; [by apply contig_inv_vma_del|by apply balanced_same_objs|done]. Qed.

Lemma contig_ok_log tr0 x s e :
  contig_ok tr0 x s -> effect e = None -> uaf_free [e] = true ->
  contig_ok tr0 x (set_trace (cons e) s).
Proof.
  intros [Hi Hb Hu] He Hn. split; [done|..].
  - ledger_open rs. autorewrite with books. proj. rewrite held_cons. unfold delta. rewrite He. lia.
  - proj. cbn in Hn |- *. rewrite andb_true_r in Hn. by rewrite Hn.
Qed.

Lemma own_contig_set_ref n ca r : own_contig (set_ref n ca) r = own_contig ca r.
Proof. done. Qed.

Lemma contig_ok_set_ref tr0 x s p ca n :
  contig_ok tr0 x s -> cs_objs (st_contig s) !! p = Some ca -> 1 <= ca_ref ca + n ->
  contig_ok tr0 (fun q => x q + n * one_ref p q)
    (set_contig (with_objs (insert p (set_ref (ca_ref ca + n) ca))) s).
Proof.
  intros [Hi Hb Hu] E Hn. split; [by apply contig_inv_set_ref| |done].
  ledger_open rs. autorewrite with books. proj. cbn [with_objs cs_objs].
  rewrite (msum_update _ _ _ _ _ E), own_contig_set_ref. lia.
Qed.

Lemma contig_ok_ext tr0 x x' s :
  (forall q, x' q = x q) -> contig_ok tr0 x s -> contig_ok tr0 x' s.
Proof. intros He [H1 H2 H3]. split; [by eapply contig_inv_ext|done..]. Qed.

Lemma kref_get_ok tr0 x p s :
  contig_ok tr0 x s -> (forall q, 0 <= x q) ->
  1 <= links (st_contig s) p + maps (st_contig s) p + x p ->
  wp (kref_get p) (fun _ s' =>
    contig_ok tr0 (fun q => x q + one_ref p q) s' /\ same_holders s s') s.
Proof.
  intros Hok Hx Hp. destruct (contig_live x _ p (co_inv _ _ _ Hok) Hx Hp) as (ca & E & _ & Hr).
  unfold kref_get. apply wp_bind. eapply wp_deref_live; [exact E|]. apply wp_modify.
  split; [|done]. eapply contig_ok_ext; [|apply contig_ok_set_ref; [done|done|lia]].
  intros q. cbv beta. lia.
Qed.

Lemma contig_ok_release tr0 x s p ca :
  contig_ok tr0 x s -> cs_objs (st_contig s) !! p = Some ca -> ca_ref ca = 1 ->
  wp (contig_alloc_release ca) (fun _ s' =>
    contig_ok tr0 (fun q => x q - one_ref p q) s' /\ same_holders s s') s.
Proof.
  intros [Hi Hb Hu] E Hr. destruct (ci_obj _ _ Hi p ca E) as [Hself _].
  unfold contig_alloc_release. rewrite Hself. xwp. split; [split|done].
  - by eapply contig_inv_drop_last.
  - ledger_open rs. autorewrite with books. proj. cbn [with_objs cs_objs].
    rewrite (msum_delete (fun e => own_contig e rs) _ _ _ E).
    unfold own_contig at 1. rewrite Hself. ledger_close.
  - done.
Qed.

Lemma kref_put_ok tr0 x p s :
  contig_ok tr0 x s -> (forall q, 0 <= x q) -> 1 <= x p ->
  wp (kref_put p) (fun _ s' =>
    contig_ok tr0 (fun q => x q - one_ref p q) s' /\ same_holders s s') s.
Proof.
  intros Hok Hx Hp.
  pose proof (links_nonneg (st_contig s) p). pose proof (maps_nonneg (st_contig s) p).
  destruct (contig_live x _ p (co_inv _ _ _ Hok) Hx) as (ca & E & _ & Hr); [lia|].
  unfold kref_put. apply wp_bind. eapply wp_deref_live; [exact E|].
  destruct (Z.eqb_spec (ca_ref ca) 1) as [H1|H1]; [by apply contig_ok_release|].
  apply wp_modify. split; [|done].
  eapply contig_ok_ext; [|apply contig_ok_set_ref; [done|done|lia]].
  intros q. cbv beta. lia.
Qed.
End Contig.

Section ContigHandlers.
Context {K : Kernel} {KO : KernelOk K}.
Variables (tr0 : trace) (x : ptr -> Z).
Hypothesis Hbase : forall r, 0 <= held tr0 r.
Hypothesis Hx : forall q, 0 <= x q.

(** A new object does not clash with a live one. *)
Lemma kmalloc_fresh_obj s tr p g :
  held tr0 (RMem p) + owned s (RMem p) <= held tr (RMem p) -> k_kmalloc tr = Some (p, g) ->
  (forall q ca, cs_objs (st_contig s) !! q = Some ca -> ca_self ca = q) ->
  cs_objs (st_contig s) !! p = None.
Proof.
  intros Hb Hk Hself. destruct (ok_kmalloc _ _ _ Hk) as [_ H0].
  destruct (cs_objs (st_contig s) !! p) as [ca|] eqn:E; [exfalso|done].
  specialize (Hbase (RMem p)).
  pose proof (owned_contig_le s (RMem p)) as Hle. rewrite (msum_delete _ _ _ _ E) in Hle.
  pose proof (msum_nonneg _ (delete p (cs_objs (st_contig s)))
    (fun e => own_contig_nonneg e (RMem p))).
  unfold own_contig at 1 in Hle. rewrite (Hself _ _ E), unit_of_refl in Hle.
  pose proof (unit_of_nonneg (RPci (ca_pdev ca)) (RMem p)).
  pose proof (unit_of_nonneg
    (RCoherent (ca_pdev ca) (ca_size ca) (ca_cpu_addr ca) (ca_dma_addr ca)) (RMem p)).
  lia.
Qed.

(** The object an allocation links in. *)
Definition new_contig (file : ptr) (id : Z) (l : alloc_locals) : contig_alloc_entry :=
  {| ca_self := al_ca l; ca_cpu_addr := al_cpu_addr l; ca_dma_addr := al_dma_addr l;
     ca_size := ac_size (al_req l); ca_id := id; ca_pdev := al_pdev l;
     ca_owner := file; ca_ref := 1 |}.

Definition link_contig (ca : contig_alloc_entry) (c : contig_state) : contig_state :=
  with_list (cons (ca_self ca))
    (with_objs (insert (ca_self ca) ca) (with_next_id (fun n => u32 (n + 1)) c)).

Lemma contig_inv_link ca c :
  contig_inv x c -> cs_objs c !! ca_self ca = None -> ca_ref ca = 1 ->
  contig_inv x (link_contig ca c).
Proof.
  intros [Href Hobj] Hn H1. unfold link_contig. split.
  - intros q. specialize (Href q).
    change (refcount (with_list _ (with_objs ?f _)) q) with (refcount (with_objs f c) q).
    change (links (with_list _ _) q) with (ind (ca_self ca =? q) + links c q).
    change (maps (with_list _ _) q) with (maps c q).
    rewrite refcount_insert. destruct (Z.eqb_spec (ca_self ca) q) as [<-|]; cbn [ind]; [|lia].
    unfold refcount in Href. rewrite Hn in Href. lia.
  - intros q cb. unfold with_list, with_objs, with_next_id. cbn [cs_objs].
    intros [[<- <-]|[_ H]]%lookup_insert_Some; [by rewrite H1|by apply Hobj].
Qed.

(** Every outcome of the first phase of an allocation. *)
Lemma contig_alloc_insert_core file req s :
  contig_ok tr0 x s ->
  wp (contig_alloc_insert file req) (fun r s' => exists tr, uaf_free tr = true /\
    match r with
    | inl rc => rc < 0 /\ s' = set_trace (fun _ => tr) s /\
        forall rs, held tr rs = held (st_trace s) rs
    | inr l => al_req l = req /\ cs_objs (st_contig s) !! al_ca l = None /\
        let ca := new_contig file (cs_next_id (st_contig s)) l in
        s' = set_contig (link_contig ca) (set_trace (fun _ => tr) s) /\
        forall rs, held tr rs = held (st_trace s) rs + own_contig ca rs
    end) s.
Proof.
  intros [Hi Hb Hu]. unfold contig_alloc_insert. xwp;
    (eexists; split; [|split_and!; try reflexivity];
     [proj; exact Hu|..]);
    try (intros rs; proj; autorewrite with sums; cbn [delta effect];
         unfold new_contig, own_contig; cbn; lia).
  - by destruct s.
  - eapply kmalloc_fresh_obj; [|eassumption|by intros; eapply ci_obj].
    proj. rewrite !held_cons. cbn [delta effect]. rewrite Hb.
    rewrite !unit_of_ne by done. lia.
  - done.
Qed.

(** Taking the object just linked apart again. *)
Lemma unlink_contig ca c :
  cs_objs c !! ca_self ca = None ->
  with_objs (delete (ca_self ca))
    (with_list (remove_first (fun q : ptr => q =? ca_self ca)) (link_contig ca c))
  = with_next_id (fun n => u32 (n + 1)) c.
Proof.
  intros Hn. destruct c as [o l n v]. unfold link_contig, with_objs, with_list, with_next_id.
  cbn [cs_objs cs_list cs_next_id cs_vmas remove_first]. rewrite Z.eqb_refl.
  f_equal. by apply delete_insert_id.
Qed.

(** Every outcome of an allocation run without interference. *)
Lemma alloc_contig_queue_core file req s :
  contig_ok tr0 x s ->
  wp (ioctl_alloc_contig_queue file (Some req)) (fun rc s' => exists tr,
    uaf_free tr = true /\
    ((rc < 0 /\ (s' = set_trace (fun _ => tr) s \/
        s' = set_contig (with_next_id (fun n => u32 (n + 1))) (set_trace (fun _ => tr) s)) /\
        forall rs, held tr rs = held (st_trace s) rs) \/
     (rc = 0 /\ exists l, al_req l = req /\ cs_objs (st_contig s) !! al_ca l = None /\
        let id := cs_next_id (st_contig s) in
        let ca := new_contig file id l in
        s' = set_contig (link_contig ca) (set_trace (fun _ => tr) s) /\
        (exists tr', tr = EvCopyOut (UContig {| ac_size := ac_size req;
                       ac_nvme_bdf := ac_nvme_bdf req; ac_phys_addr := al_dma_addr l;
                       ac_mmap_offset := id |}) :: tr') /\
        forall rs, held tr rs = held (st_trace s) rs + own_contig ca rs))) s.
Proof.
  intros Hok. unfold ioctl_alloc_contig_queue. apply wp_bind.
  eapply wp_mono; [by apply contig_alloc_insert_core|].
  intros [rc|l] s' (tr & Hu & H).
  { apply wp_ret. destruct H as (? & -> & ?). exists tr. split; [done|]. left. auto. }
  destruct H as (Hreq & Hn & -> & Hh). unfold contig_alloc_publish.
  set (ca := new_contig file _ l) in *. set (s1 := set_contig _ _).
  assert (cs_objs (st_contig s1) !! al_ca l = Some ca) as E by apply lookup_insert_eq.
  apply wp_bind. eapply wp_deref_live; [exact E|]. cbv zeta. apply wp_bind, wp_copy_to_user.
  - apply wp_bind. eapply wp_deref_live; [exact E|]. unfold list_del. xwp.
    exists (EvKfree (al_ca l) :: EvPciPut (al_pdev l)
      :: EvDmaFree (al_pdev l) (ac_size (al_req l)) (al_cpu_addr l) (al_dma_addr l)
      :: EvFail FCopyToUser :: tr).
    split; [done|]. left. split_and!; [done|right|].
    + transitivity (set_contig (fun _ => with_next_id (fun n => u32 (n + 1)) (st_contig s))
        (set_trace (fun _ => EvKfree (al_ca l) :: EvPciPut (al_pdev l)
          :: EvDmaFree (al_pdev l) (ac_size (al_req l)) (al_cpu_addr l) (al_dma_addr l)
          :: EvFail FCopyToUser :: tr) s)); [|reflexivity].
      rewrite <- (unlink_contig ca (st_contig s)) by done. reflexivity.
    + intros rs. specialize (Hh rs). subst ca. unfold new_contig in Hh. ledger_close.
  - apply wp_ret. eexists. split; [|right; split; [done|]; exists l; split_and!;
      [done|done|reflexivity|subst req; eexists; reflexivity|]]; [done|].
    intros rs. specialize (Hh rs). subst s1 ca. revert Hh. unfold new_contig. intros. ledger_close.
Qed.

Lemma linked_ok tr file req l s :
  contig_ok tr0 x s -> uaf_free tr = true -> al_req l = req -> cs_objs (st_contig s) !! al_ca l = None ->
  (forall rs, held tr rs = held (st_trace s) rs + own_contig (new_contig file (cs_next_id (st_contig s)) l) rs) ->
  contig_ok tr0 x (set_contig (link_contig (new_contig file (cs_next_id (st_contig s)) l)) (set_trace (fun _ => tr) s)).
Proof.
  intros [Hi Hb _] Hu _ Hn Hh. split; [by apply contig_inv_link| |done]. ledger_open rs. specialize (Hh rs).
  autorewrite with books. proj. cbn [link_contig with_list with_objs with_next_id cs_objs].
  rewrite msum_insert by done. lia.
Qed.

Lemma refused_ok tr s :
  contig_ok tr0 x s -> uaf_free tr = true -> (forall rs, held tr rs = held (st_trace s) rs) ->
  contig_ok tr0 x (set_trace (fun _ => tr) s).
Proof. intros [Hi Hb _] Hu Hh. split; [done| |done]. ledger_open rs. specialize (Hh rs). ledger_close. Qed.

Lemma alloc_insert_ok file req s :
  contig_ok tr0 x s ->
  wp (contig_alloc_insert file req) (fun r s' =>
    contig_ok tr0 x s' /\ match r with
    | inl _ => True
    | inr l => cs_objs (st_contig s') !! al_ca l = Some (new_contig file (cs_next_id (st_contig s)) l)
               /\ al_ca l ∈ cs_list (st_contig s')
    end) s.
Proof.
  intros Hok. eapply wp_mono; [by apply contig_alloc_insert_core|].
  intros [rc|l] s' (tr & Hu & H); [destruct H as (_ & -> & Hh); split; [by apply refused_ok|done]|].
  destruct H as (Hreq & Hn & -> & Hh). split; [by eapply linked_ok|]. proj.
  cbn [link_contig with_list with_objs with_next_id cs_objs cs_list]. split; [apply lookup_insert_eq|left].
Qed.

Lemma alloc_contig_queue_ok file arg s :
  contig_ok tr0 x s ->
  wp (ioctl_alloc_contig_queue file arg) (fun _ s' => contig_ok tr0 x s') s.
Proof.
  intros Hok. destruct arg as [req|]; [|by apply wp_ret].
  eapply wp_mono; [by apply alloc_contig_queue_core|].
  intros rc s' (tr & Hu & [(_ & [->| ->] & Hh)|(_ & l & Hr & Hn & -> & _ & Hh)]);
    [by apply refused_ok| |by eapply linked_ok].
  destruct (refused_ok tr s Hok Hu Hh) as [[H1 H2] Hb _]. split; [by split|by apply balanced_same_objs|done].
Qed.

Lemma wp_list_walk P (Q : option ptr -> xio_state -> Prop) s :
  contig_ok tr0 x s ->
  (forall p ca, p ∈ cs_list (st_contig s) -> cs_objs (st_contig s) !! p = Some ca ->
     P ca = true -> Q (Some p) s) ->
  ((forall p, p ∈ cs_list (st_contig s) -> obj_sat (st_contig s) P p = false) -> Q None s) ->
  wp (list_walk P (cs_list (st_contig s))) Q s.
Proof.
  intros Hok HS HN. unfold wp. rewrite list_walk_live.
  - destruct (find_first _ _) as [p|] eqn:E; [|apply HN; by apply find_first_None].
    apply find_first_Some in E as [Hp HP]. unfold obj_sat in HP.
    destruct (cs_objs (st_contig s) !! p) as [ca|] eqn:Ep; [|done]. by eapply HS.
  - intros p Hp. apply links_elem in Hp. pose proof (maps_nonneg (st_contig s) p).
    destruct (contig_live x _ p (co_inv _ _ _ Hok) Hx) as (ca & E & _); [specialize (Hx p); lia|].
    by exists ca.
Qed.

Lemma one_ref_nonneg p q : 0 <= one_ref p q.
Proof. apply ind_nonneg. Qed.
Lemma one_ref_refl p : one_ref p p = 1.
Proof. unfold one_ref. by rewrite Z.eqb_refl. Qed.

(** Dropping a reference the handler just obtained. *)
Lemma kref_put_own p s :
  contig_ok tr0 (fun q => x q + one_ref p q) s ->
  wp (kref_put p) (fun _ s' => contig_ok tr0 x s') s.
Proof.
  intros Hok. eapply wp_mono; [apply (kref_put_ok tr0 _ p s Hok)|].
  - intros q. specialize (Hx q). pose proof (one_ref_nonneg p q). lia.
  - rewrite one_ref_refl. specialize (Hx p). lia.
  - intros _ s' [H _]. eapply contig_ok_ext; [|exact H]. intros q. cbv beta. lia.
Qed.

Lemma free_contig_queue_ok file arg s :
  contig_ok tr0 x s ->
  wp (ioctl_free_contig_queue file arg) (fun _ s' => contig_ok tr0 x s') s.
Proof.
  intros Hok. destruct arg as [req|]; [|by apply wp_ret].
  unfold ioctl_free_contig_queue, list_del. apply wp_bind, wp_gets, wp_bind, wp_list_walk; [done|..].
  - intros p ca Hp _ _. apply wp_bind, wp_modify, wp_bind.
    eapply wp_mono; [by apply kref_put_own, contig_ok_list|]. intros. by apply wp_ret.
  - intros _. by apply wp_ret.
Qed.

Lemma mmap_contig_get_ok vma s :
  contig_ok tr0 x s ->
  wp (mmap_contig_get vma) (fun r s' =>
    same_holders s s' /\
    match r with
    | Some p => contig_ok tr0 (fun q => x q + one_ref p q) s'
    | None => contig_ok tr0 x s'
    end) s.
Proof.
  intros Hok. unfold mmap_contig_get. apply wp_bind, wp_gets, wp_bind, wp_list_walk; [done|..].
  - intros p ca Hp _ _. apply wp_bind.
    eapply wp_mono; [apply (kref_get_ok tr0 x p s Hok Hx)|].
    + apply links_elem in Hp. pose proof (maps_nonneg (st_contig s) p). specialize (Hx p). lia.
    + intros _ s' [H1 H2]. by apply wp_ret.
  - intros _. by apply wp_ret.
Qed.

Lemma mmap_contig_map_ok vma p s :
  contig_ok tr0 (fun q => x q + one_ref p q) s ->
  cs_vmas (st_contig s) !! vma_id vma = None ->
  wp (mmap_contig_map vma p) (fun _ s' => contig_ok tr0 x s') s.
Proof.
  intros Hok Hv. unfold mmap_contig_map.
  pose proof (links_nonneg (st_contig s) p). pose proof (maps_nonneg (st_contig s) p).
  destruct (contig_live _ _ p (co_inv _ _ _ Hok)) as (ca & E & _ & _);
    [intros q; specialize (Hx q); pose proof (one_ref_nonneg p q); lia
    |rewrite one_ref_refl; specialize (Hx p); lia|].
  apply wp_bind. eapply wp_deref_live; [exact E|]. cbv zeta.
  destruct (_ <? _); [|apply wp_bind, wp_ask; destruct (_ <? _)]; xwp.
  - eapply wp_mono; [by apply kref_put_own|]. intros. by apply wp_ret.
  - eapply wp_mono; [by apply kref_put_own, contig_ok_log|]. intros. by apply wp_ret.
  - eapply contig_ok_ext; [|apply contig_ok_vma_add; [by apply contig_ok_log|done]].
    intros q. cbv beta. lia.
Qed.

Lemma mmap_shadow_ok vma s :
  contig_ok tr0 x s -> wp (mmap_shadow vma) (fun _ s' => contig_ok tr0 x s') s.
Proof. intros Hok. unfold mmap_shadow. xwp; try done; by apply contig_ok_log. Qed.

Lemma mmap_ok vma s :
  contig_ok tr0 x s -> cs_vmas (st_contig s) !! vma_id vma = None ->
  wp (rocm_xio_mmap vma) (fun _ s' => contig_ok tr0 x s') s.
Proof.
  intros Hok Hv. unfold rocm_xio_mmap. destruct (_ =? _); [by apply mmap_shadow_ok|].
  apply wp_bind. eapply wp_mono; [by apply mmap_contig_get_ok|].
  intros [p|] s' [[_ Hs] Hok']; [|by apply wp_ret].
  apply mmap_contig_map_ok; [done|]. by rewrite Hs.
Qed.

Lemma vma_open_ok v v' s :
  contig_ok tr0 x s -> cs_vmas (st_contig s) !! v' = None ->
  wp (contig_vma_open v v') (fun _ s' => contig_ok tr0 x s') s.
Proof.
  intros Hok Hv'. unfold contig_vma_open. apply wp_bind, wp_gets.
  destruct (cs_vmas (st_contig s) !! v) as [p|] eqn:Ev; [|by apply wp_ret].
  apply wp_bind. eapply wp_mono; [apply (kref_get_ok tr0 x p s Hok Hx)|].
  - apply maps_elem in Ev. pose proof (links_nonneg (st_contig s) p). specialize (Hx p). lia.
  - intros _ s' [H1 [_ H2]]. apply wp_modify. rewrite <- H2 in Hv'.
    eapply contig_ok_ext; [|by apply contig_ok_vma_add]. intros q. cbv beta. lia.
Qed.

Lemma vma_close_ok v s :
  contig_ok tr0 x s -> wp (contig_vma_close v) (fun _ s' => contig_ok tr0 x s') s.
Proof.
  intros Hok. unfold contig_vma_close. apply wp_bind, wp_gets.
  destruct (cs_vmas (st_contig s) !! v) as [p|] eqn:Ev; [|by apply wp_ret].
  apply wp_bind, wp_modify, kref_put_own. by apply contig_ok_vma_del.
Qed.

(** References to a list of objects. *)
Definition refs_of (l : list ptr) (q : ptr) : Z := sumZ (fun p => one_ref p q) l.

Lemma refs_of_cons p l q : refs_of (p :: l) q = one_ref p q + refs_of l q.
Proof. done. Qed.

Lemma refs_of_nonneg l q : 0 <= refs_of l q.
Proof. apply sumZ_nonneg. intros p. apply one_ref_nonneg. Qed.

Lemma kref_put_all l s :
  contig_ok tr0 (fun q => x q + refs_of l q) s ->
  wp (iterM kref_put l) (fun _ s' => contig_ok tr0 x s' /\ same_holders s s') s.
Proof.
  intros Hok.
  eapply wp_mono; [apply (wp_iterM _ (fun l s' =>
    contig_ok tr0 (fun q => x q + refs_of l q) s' /\ same_holders s s'))|].
  - done.
  - intros p l' s1 [Hok1 [Hs1 Hs2]].
    eapply wp_mono; [apply (kref_put_ok tr0 _ p s1 Hok1)|].
    + intros q. specialize (Hx q). pose proof (refs_of_nonneg (p :: l') q). lia.
    + rewrite refs_of_cons, one_ref_refl. specialize (Hx p).
      pose proof (refs_of_nonneg l' p). lia.
    + intros _ s2 [H [Hs3 Hs4]]. split; [|split; congruence].
      eapply contig_ok_ext; [|exact H]. intros q. cbv beta. rewrite refs_of_cons. lia.
  - intros _ s1 [H1 H2]. split; [|done].
    eapply contig_ok_ext; [|exact H1]. intros q. cbn. lia.
Qed.

(** Taking a set of list entries over as references in hand. *)
Lemma contig_ok_take (keep take : list ptr) s :
  contig_ok tr0 x s ->
  (forall q, links (st_contig s) q = refs_of keep q + refs_of take q) ->
  contig_ok tr0 (fun q => x q + refs_of take q) (set_contig (with_list (fun _ => keep)) s).
Proof.
  intros [[Hr Ho] Hb Hu] Hsplit. split; [|by apply balanced_same_objs|done].
  split; [|done]. intros q. specialize (Hr q). specialize (Hsplit q). proj.
  change (refcount (with_list ?f (st_contig s)) q) with (refcount (st_contig s) q).
  change (maps (with_list ?f (st_contig s)) q) with (maps (st_contig s) q).
  change (links (with_list _ _) q) with (refs_of keep q). lia.
Qed.

Lemma walk_live_id l s :
  (forall p, p ∈ l -> is_Some (cs_objs (st_contig s) !! p)) ->
  iterM (fun p => deref p ;;; ret tt) l s = (tt, s).
Proof.
  induction l as [|p l IH]; intros H; [done|]. cbn [iterM]. unfold bind at 1 2.
  destruct (H p) as [ca E]; [left|]. unfold deref, bind, gets. rewrite E. cbn.
  apply IH. intros q Hq. apply H. by right.
Qed.

Lemma listed_live s p :
  contig_ok tr0 x s -> p ∈ cs_list (st_contig s) -> is_Some (cs_objs (st_contig s) !! p).
Proof.
  intros Hok Hp%links_elem. pose proof (maps_nonneg (st_contig s) p).
  destruct (contig_live x _ p (co_inv _ _ _ Hok) Hx) as (ca & E & _); [specialize (Hx p); lia|].
  by exists ca.
Qed.

Lemma release_contig_ok file s :
  contig_ok tr0 x s -> wp (release_contig file) (fun _ s' => contig_ok tr0 x s') s.
Proof.
  intros Hok. unfold release_contig. apply wp_bind, wp_gets, wp_bind.
  unfold wp at 1. rewrite walk_live_id by (intros; by apply listed_live).
  apply wp_bind, wp_modify.
  eapply wp_mono; [apply kref_put_all|by intros _ s' []].
  apply (contig_ok_take (filter (fun p => obj_owned_by file (st_contig s) p = false)
    (cs_list (st_contig s)))); [done|].
  intros q. unfold refs_of. rewrite sumZ_reverse.
  rewrite Z.add_comm, sumZ_filter_split. done.
Qed.

Lemma exit_contig_ok s :
  contig_ok tr0 x s ->
  wp exit_contig (fun _ s' => contig_ok tr0 x s' /\ cs_list (st_contig s') = [] /\
    cs_vmas (st_contig s') = cs_vmas (st_contig s)) s.
Proof.
  intros Hok. unfold exit_contig. apply wp_bind, wp_gets, wp_bind, wp_modify.
  eapply wp_mono; [apply kref_put_all|].
  - apply (contig_ok_take []); [done|]. intros q. unfold refs_of. by rewrite sumZ_reverse.
  - intros _ s' (H1 & H2 & H3). by rewrite H2, H3.
Qed.
End ContigHandlers.

(** With no list entry, no mapping and no reference in hand, no object is
    left. *)
Lemma contig_drained c :
  contig_inv no_refs c -> cs_list c = [] -> cs_vmas c = ∅ -> cs_objs c = ∅.
Proof.
  intros [Hr Ho] Hl Hv. apply map_empty. intros p.
  destruct (cs_objs c !! p) as [ca|] eqn:E; [exfalso|done].
  destruct (Ho p ca E) as [_ H1]. specialize (Hr p). unfold refcount, links, maps in Hr.
  rewrite E, Hl, Hv, msum_empty, sumZ_nil in Hr. unfold no_refs in Hr. lia.
Qed.

(** ** Interleaved callers

    One step per critical section.  Besides the state a configuration has the
    mmap calls between their lookup and their mapping, and the allocations
    that have linked their object and dropped the lock, but have not returned. *)

Section Interleaving.
Context {K : Kernel} {KO : KernelOk K}.

Definition config : Type := xio_state * list (vm_area * ptr) * list alloc_locals.

(** No allocation that has not returned yet is one of [file]'s with this id. *)
Definition published (file : ptr) (id : Z) (s : xio_state) (al : list alloc_locals) : Prop :=
  forall l ca, l ∈ al -> cs_objs (st_contig s) !! al_ca l = Some ca -> owned_id file id ca = false.

(** User space names an id only after the call that gives it out has returned,
    and a file is released only when no call on it is running. *)
Inductive contig_step : config -> config -> Prop :=
| step_alloc_fails file req s rc s' fl al :
    contig_alloc_insert file req s = (inl rc, s') ->
    contig_step (s, fl, al) (s', fl, al)
| step_alloc_insert file req s l s' fl al :
    contig_alloc_insert file req s = (inr l, s') ->
    contig_step (s, fl, al) (s', fl, l :: al)
| step_alloc_publish l s fl al1 al2 :
    contig_step (s, fl, al1 ++ l :: al2) (snd (contig_alloc_publish l s), fl, al1 ++ al2)
| step_free file req s fl al :
    published file (fc_mmap_offset req) s al ->
    contig_step (s, fl, al) (snd (ioctl_free_contig_queue file (Some req) s), fl, al)
| step_mmap_get vma p s s' fl al :
    published (vm_file vma) (u32 (vm_pgoff vma)) s al ->
    mmap_contig_get vma s = (Some p, s') ->
    contig_step (s, fl, al) (s', (vma, p) :: fl, al)
| step_mmap_miss vma s s' fl al :
    mmap_contig_get vma s = (None, s') ->
    contig_step (s, fl, al) (s', fl, al)
| step_mmap_map vma p s fl1 fl2 al :
    cs_vmas (st_contig s) !! vma_id vma = None ->
    contig_step (s, fl1 ++ (vma, p) :: fl2, al) (snd (mmap_contig_map vma p s), fl1 ++ fl2, al)
| step_vma_open v v' s fl al :
    cs_vmas (st_contig s) !! v' = None ->
    contig_step (s, fl, al) (snd (contig_vma_open v v' s), fl, al)
| step_vma_close v s fl al :
    contig_step (s, fl, al) (snd (contig_vma_close v s), fl, al)
| step_release file s fl al :
    (forall l ca, l ∈ al -> cs_objs (st_contig s) !! al_ca l = Some ca -> ca_owner ca <> file) ->
    contig_step (s, fl, al) (snd (release_contig file s), fl, al).

Definition in_flight (fl : list (vm_area * ptr)) : ptr -> Z := refs_of (map snd fl).

(** The object of an allocation that has not returned is as it was linked: on
    the list, and held by nobody else. *)
Record unreturned (s : xio_state) (l : alloc_locals) : Prop := {
  un_obj : exists file id, cs_objs (st_contig s) !! al_ca l = Some (new_contig file id l);
  un_listed : al_ca l ∈ cs_list (st_contig s)
}.

Record config_ok (tr0 : trace) (s : xio_state) (fl : list (vm_area * ptr)) (al : list alloc_locals) : Prop := {
  cg_ok : contig_ok tr0 (in_flight fl) s;
  cg_al : Forall (unreturned s) al;
  cg_distinct : NoDup (map al_ca al)
}.

Lemma in_flight_nonneg fl q : 0 <= in_flight fl q.
Proof. apply refs_of_nonneg. Qed.

(** *** What an operation leaves alone *)

Definition untouched (p : ptr) (s s' : xio_state) : Prop :=
  cs_objs (st_contig s') !! p = cs_objs (st_contig s) !! p
  /\ (p ∈ cs_list (st_contig s) -> p ∈ cs_list (st_contig s')).

Lemma untouched_refl p s : untouched p s s.
Proof. by split. Qed.

Lemma untouched_trans p s1 s2 s3 : untouched p s1 s2 -> untouched p s2 s3 -> untouched p s1 s3.
Proof. intros [A1 A2] [B1 B2]. split; [congruence|auto]. Qed.

Lemma unreturned_untouched s s' l : untouched (al_ca l) s s' -> unreturned s l -> unreturned s' l.
Proof. intros [H1 H2] [(f & i & E) Hl]. split; [exists f, i; congruence|auto]. Qed.

(** Nobody but the list holds the object of such an allocation. *)
Lemma unreturned_alone tr0 x s l :
  contig_ok tr0 x s -> (forall q, 0 <= x q) -> unreturned s l ->
  links (st_contig s) (al_ca l) = 1 /\ maps (st_contig s) (al_ca l) = 0 /\ x (al_ca l) = 0.
Proof.
  intros [[Hr _] _ _] Hx [(f & i & E) Hl%links_elem]. specialize (Hr (al_ca l)). specialize (Hx (al_ca l)).
  unfold refcount in Hr. rewrite E in Hr. cbn in Hr. pose proof (maps_nonneg (st_contig s) (al_ca l)). lia.
Qed.

Lemma untouched_list p q s :
  q <> p -> untouched p s (set_contig (with_list (remove_first (fun a : ptr => a =? q))) s).
Proof.
  intros Hne. split; [done|]. proj. cbn [with_list cs_list].
  induction (cs_list (st_contig s)) as [|a l IH]; [done|]. cbn [remove_first].
  intros [Ea|H]%elem_of_cons.
  - rewrite (proj2 (Z.eqb_neq a q)) by congruence. rewrite Ea. left.
  - destruct (a =? q); [done|]. right. auto.
Qed.

Lemma deref_untouched p q s : wp (deref q) (fun o s' => untouched p s s' /\ cs_objs (st_contig s) !! q = o) s.
Proof. unfold deref. apply wp_bind, wp_gets. destruct (cs_objs _ !! q); xwp; split; done. Qed.

Lemma kref_get_untouched p q s : q <> p -> wp (kref_get q) (fun _ s' => untouched p s s') s.
Proof.
  intros Hne. unfold kref_get. apply wp_bind. eapply wp_mono; [apply deref_untouched|].
  intros [ca|] s1 [Hu _]; xwp; [|done]. eapply untouched_trans; [exact Hu|].
  split; [|done]. proj. cbn [with_objs cs_objs]. by rewrite lookup_insert_ne.
Qed.

Lemma kref_put_untouched p q s :
  (forall ca, cs_objs (st_contig s) !! q = Some ca -> ca_self ca = q) -> q <> p ->
  wp (kref_put q) (fun _ s' => untouched p s s') s.
Proof.
  intros Hs Hne. unfold kref_put, contig_alloc_release. apply wp_bind. eapply wp_mono; [apply deref_untouched|].
  intros [ca|] s1 [Hu E]; [|by apply wp_ret]. destruct (_ =? 1); xwp.
  - eapply untouched_trans; [exact Hu|]. split; [|done]. proj. cbn [with_objs cs_objs].
    rewrite (Hs ca E). by rewrite lookup_delete_ne.
  - eapply untouched_trans; [exact Hu|]. split; [|done]. proj. cbn [with_objs cs_objs]. by rewrite lookup_insert_ne.
Qed.


(** *** The steps, with an allocation that has not returned beside them *)

Lemma wp_both {A} (m : X A) (P Q : A -> xio_state -> Prop) s :
  wp m P s -> wp m Q s -> wp m (fun a s' => P a s' /\ Q a s') s.
Proof. unfold wp. by destruct (m s). Qed.

Section Beside.
Variables (tr0 : trace) (x : ptr -> Z) (p : ptr).
Hypothesis Hbase : forall r, 0 <= held tr0 r.
Hypothesis Hx : forall q, 0 <= x q.

Lemma self_of s q ca : contig_ok tr0 x s -> cs_objs (st_contig s) !! q = Some ca -> ca_self ca = q.
Proof using Type. intros Hok E. exact (proj1 (ci_obj _ _ (co_inv _ _ _ Hok) q ca E)). Qed.

Lemma alloc_insert_untouched file req s :
  contig_ok tr0 x s -> is_Some (cs_objs (st_contig s) !! p) ->
  wp (contig_alloc_insert file req) (fun r s' => untouched p s s' /\
    match r with inl _ => True | inr l => al_ca l <> p end) s.
Proof using KO Hbase.
  intros Hok [ca Ep]. eapply wp_mono; [by apply (contig_alloc_insert_core tr0 x Hbase)|].
  intros [rc|l] s' (tr & _ & H); [destruct H as (_ & -> & _); by split|].
  destruct H as (_ & Hn & -> & _). assert (al_ca l <> p) by congruence.
  split; [split|done]; proj; cbn [link_contig with_list with_objs with_next_id cs_objs cs_list new_contig ca_self].
  - by rewrite lookup_insert_ne.
  - intros Hp. by right.
Qed.

Lemma free_untouched file req s :
  contig_ok tr0 x s -> (forall ca, cs_objs (st_contig s) !! p = Some ca -> owned_id file (fc_mmap_offset req) ca = false) ->
  wp (ioctl_free_contig_queue file (Some req)) (fun _ s' => untouched p s s') s.
Proof using Hx.
  intros Hok Hp. unfold ioctl_free_contig_queue, list_del.
  apply wp_bind, wp_gets, wp_bind, (wp_list_walk tr0 x Hx); [done| |intros _; by apply wp_ret].
  intros q ca Hq E Ho. assert (q <> p) as Hne by (intros ->; rewrite (Hp ca E) in Ho; done).
  apply wp_bind, wp_modify, wp_bind. eapply wp_mono; [apply (kref_put_untouched p q)|]; [|done|].
  - intros cb. proj. by apply self_of.
  - intros u s' Hu. apply wp_ret. eapply untouched_trans; [by apply (untouched_list p q)|done].
Qed.

Lemma mmap_get_untouched vma s :
  contig_ok tr0 x s ->
  (forall ca, cs_objs (st_contig s) !! p = Some ca -> owned_id (vm_file vma) (u32 (vm_pgoff vma)) ca = false) ->
  wp (mmap_contig_get vma) (fun _ s' => untouched p s s') s.
Proof using Hx.
  intros Hok Hp. unfold mmap_contig_get.
  apply wp_bind, wp_gets, wp_bind, (wp_list_walk tr0 x Hx); [done| |intros _; by apply wp_ret].
  intros q ca Hq E Ho. apply wp_bind. eapply wp_mono; [apply (kref_get_untouched p q)|].
  - intros ->. by rewrite (Hp ca E) in Ho.
  - intros u s' Hu. by apply wp_ret.
Qed.

Lemma mmap_map_untouched vma q s :
  contig_ok tr0 x s -> q <> p -> wp (mmap_contig_map vma q) (fun _ s' => untouched p s s') s.
Proof using Type.
  intros Hok Hne. assert (Hself : forall ca, cs_objs (st_contig s) !! q = Some ca -> ca_self ca = q) by (intros; by eapply self_of).
  unfold mmap_contig_map, deref. apply wp_bind, wp_bind, wp_gets. destruct (cs_objs (st_contig s) !! q) as [ca|] eqn:E; xwp; try done.
  - eapply wp_mono; [apply (kref_put_untouched p q)|]; [|done|]; [by rewrite E|]. intros. by apply wp_ret.
  - eapply wp_mono; [apply (kref_put_untouched p q)|]; [|done|]; [proj; by rewrite E|]. intros. by apply wp_ret.
Qed.

Lemma vma_open_untouched v v' s :
  (forall q, cs_vmas (st_contig s) !! v = Some q -> q <> p) -> wp (contig_vma_open v v') (fun _ s' => untouched p s s') s.
Proof using Type.
  intros Hv. unfold contig_vma_open. apply wp_bind, wp_gets. destruct (cs_vmas _ !! v) as [q|]; [|by apply wp_ret].
  apply wp_bind. eapply wp_mono; [by apply (kref_get_untouched p q), Hv|]. intros u s' Hu. by apply wp_modify.
Qed.

Lemma vma_close_untouched v s :
  contig_ok tr0 x s -> (forall q, cs_vmas (st_contig s) !! v = Some q -> q <> p) ->
  wp (contig_vma_close v) (fun _ s' => untouched p s s') s.
Proof using Type.
  intros Hok Hv. unfold contig_vma_close. apply wp_bind, wp_gets. destruct (cs_vmas _ !! v) as [q|]; [|by apply wp_ret].
  apply wp_bind, wp_modify. eapply wp_mono; [apply (kref_put_untouched p q)|]; [|by apply Hv|done].
  intros cb. proj. by apply self_of.
Qed.

Lemma kref_put_all_untouched l s :
  contig_ok tr0 (fun q => x q + refs_of l q) s -> Forall (fun q => q <> p) l ->
  wp (iterM kref_put l) (fun _ s' => untouched p s s') s.
Proof using Hx.
  intros Hok Hl. eapply wp_mono; [apply (wp_iterM _ (fun l s' =>
    contig_ok tr0 (fun q => x q + refs_of l q) s' /\ Forall (fun q => q <> p) l /\ untouched p s s'))|by intros _ s' (_ & _ & H)].
  - done.
  - intros q l' s1 (Hok1 & Hl1 & Hu). inversion_clear Hl1 as [|? ? Hq Hl2].
    assert (Hs : forall ca, cs_objs (st_contig s1) !! q = Some ca -> ca_self ca = q)
      by (intros ca; exact (fun E => proj1 (ci_obj _ _ (co_inv _ _ _ Hok1) q ca E))).
    apply wp_both; [eapply wp_mono; [apply (kref_put_ok tr0 (fun r => x r + refs_of (q :: l') r) q s1 Hok1)|]|eapply wp_mono; [by apply (kref_put_untouched p q)|]].
    + intros r. specialize (Hx r). pose proof (refs_of_nonneg (q :: l') r). lia.
    + rewrite refs_of_cons, one_ref_refl. specialize (Hx q). pose proof (refs_of_nonneg l' q). lia.
    + intros _ s2 [H _]. eapply contig_ok_ext; [|exact H]. intros r. cbv beta. rewrite refs_of_cons. lia.
    + intros u s2 Hu2. split; [done|]. by eapply untouched_trans.
Qed.

Lemma release_untouched file s :
  contig_ok tr0 x s -> (exists ca, cs_objs (st_contig s) !! p = Some ca /\ ca_owner ca <> file) ->
  wp (release_contig file) (fun _ s' => untouched p s s') s.
Proof using Hx.
  intros Hok (ca & E & Hne). unfold release_contig. apply wp_bind, wp_gets, wp_bind.
  unfold wp at 1. rewrite walk_live_id by (intros; by eapply (listed_live tr0 x)).
  assert (Ho : obj_owned_by file (st_contig s) p = false) by (unfold obj_owned_by; rewrite E; by apply Z.eqb_neq).
  apply wp_bind, wp_modify. eapply wp_mono; [apply kref_put_all_untouched|].
  - apply (contig_ok_take tr0 x (filter (fun p => obj_owned_by file (st_contig s) p = false) (cs_list (st_contig s)))); [done|].
    intros q. unfold refs_of. rewrite sumZ_reverse, Z.add_comm, sumZ_filter_split. done.
  - apply list.Forall_forall. intros q Hq ->. apply elem_of_reverse, list_elem_of_filter in Hq as [Hq _]. congruence.
  - intros u s' Hu. eapply untouched_trans; [|exact Hu]. split; [done|]. proj. cbn [with_list cs_list].
    intros H. by apply list_elem_of_filter.
Qed.

(** The end of an allocation: a faulting copy takes the object apart, and
    nobody else holds it. *)
Lemma alloc_publish_ok l s :
  contig_ok tr0 x s -> unreturned s l -> wp (contig_alloc_publish l) (fun _ s' => contig_ok tr0 x s') s.
Proof using Hx.
  intros Hok Hun. destruct (unreturned_alone tr0 x s l Hok Hx Hun) as (H1 & H2 & H3). destruct Hun as [(f & i & E) Hin].
  unfold contig_alloc_publish, list_del. apply wp_bind. eapply wp_deref_live; [exact E|]. cbv zeta. apply wp_bind, wp_copy_to_user.
  - apply wp_bind. eapply wp_deref_live; [exact E|].
    pose proof (contig_ok_list tr0 x _ _ (contig_ok_log tr0 x s (EvFail FCopyToUser) Hok eq_refl eq_refl) Hin) as Hok'.
    apply wp_bind, wp_modify, wp_bind, wp_log.
    pose proof (contig_ok_release tr0 _ _ (al_ca l) _ Hok' E eq_refl) as Hr.
    unfold contig_alloc_release in Hr. unfold wp, bind in Hr |- *. cbn in Hr |- *. destruct Hr as [Hr _].
    eapply contig_ok_ext; [|exact Hr]. intros q. cbv beta. lia.
  - apply wp_ret. by apply contig_ok_log.
Qed.

Lemma alloc_publish_untouched l s :
  unreturned s l -> al_ca l <> p -> wp (contig_alloc_publish l) (fun _ s' => untouched p s s') s.
Proof using Type.
  intros [(f & i & E) Hin] Hne. unfold contig_alloc_publish, list_del. apply wp_bind. eapply wp_deref_live; [exact E|].
  cbv zeta. apply wp_bind, wp_copy_to_user; [|by apply wp_ret]. apply wp_bind. eapply wp_deref_live; [exact E|]. xwp.
  eapply untouched_trans; [by apply (untouched_list p (al_ca l))|]. split; [|done]. proj. cbn [with_objs cs_objs with_list].
  by rewrite lookup_delete_ne.
Qed.
End Beside.

Lemma unreturned_keep s s' al :
  (forall l, l ∈ al -> unreturned s l -> untouched (al_ca l) s s') ->
  Forall (unreturned s) al -> Forall (unreturned s') al.
Proof.
  intros Hu. rewrite !list.Forall_forall. intros H l Hl. eapply unreturned_untouched; [by apply Hu; [|apply H]|by apply H].
Qed.

Lemma config_keep {A} tr0 (m : X A) s fl fl' al :
  config_ok tr0 s fl al ->
  wp m (fun _ s' => contig_ok tr0 (in_flight fl') s') s ->
  (forall l, l ∈ al -> unreturned s l -> wp m (fun _ s' => untouched (al_ca l) s s') s) ->
  config_ok tr0 (snd (m s)) fl' al.
Proof.
  intros [H1 H2 H3] Hok Hu. split; [by apply wp_snd| |done].
  eapply unreturned_keep; [|exact H2]. intros l Hl Hun. by apply wp_snd, Hu.
Qed.

Lemma in_flight_ne tr0 s fl al l q :
  config_ok tr0 s fl al -> l ∈ al -> q ∈ map snd fl -> q <> al_ca l.
Proof.
  intros [H1 H2 H3] Hl Hq ->. rewrite list.Forall_forall in H2.
  destruct (unreturned_alone tr0 _ s l H1 (in_flight_nonneg fl) (H2 l Hl)) as (_ & _ & H0).
  unfold in_flight, refs_of in H0.
  pose proof (sumZ_elem_le (fun p => one_ref p (al_ca l)) (map snd fl) (al_ca l) (fun p => one_ref_nonneg p _) Hq) as Hle.
  cbv beta in Hle. rewrite one_ref_refl in Hle. lia.
Qed.

Lemma mapped_ne tr0 s fl al l v q :
  config_ok tr0 s fl al -> l ∈ al -> cs_vmas (st_contig s) !! v = Some q -> q <> al_ca l.
Proof.
  intros [H1 H2 H3] Hl Hq%maps_elem ->. rewrite list.Forall_forall in H2.
  destruct (unreturned_alone tr0 _ s l H1 (in_flight_nonneg fl) (H2 l Hl)) as (_ & H0 & _). lia.
Qed.

Lemma alloc_config_ok tr0 file req s fl al :
  (forall r, 0 <= held tr0 r) -> config_ok tr0 s fl al ->
  wp (contig_alloc_insert file req) (fun r s' =>
    config_ok tr0 s' fl (match r with inl _ => al | inr l => l :: al end)) s.
Proof.
  intros Hb Hc. pose proof Hc as [Hok Hal Hnd]. pose proof (in_flight_nonneg fl) as Hfl.
  assert (Hun : forall l, l ∈ al -> unreturned s l) by by apply list.Forall_forall.
  assert (Hw : forall l, l ∈ al -> wp (contig_alloc_insert file req) (fun r s' => untouched (al_ca l) s s' /\
    match r with inl _ => True | inr l' => al_ca l' <> al_ca l end) s).
  { intros l Hl. destruct (Hun l Hl) as [(f & i & E) _]. apply (alloc_insert_untouched tr0 (in_flight fl) _ Hb); eauto. }
  pose proof (alloc_insert_ok tr0 (in_flight fl) Hb file req s Hok) as Hi.
  unfold wp in *. destruct (contig_alloc_insert file req s) as [[rc|l] s'].
  - split; [by destruct Hi| |done]. eapply unreturned_keep; [|exact Hal]. intros l Hl _. by apply Hw.
  - destruct Hi as [Hi [Ho Hl]]. split; [done| |].
    + constructor; [by split; [do 2 eexists|]|]. eapply unreturned_keep; [|exact Hal]. intros l' Hl' _. by apply Hw.
    + cbn. constructor; [|done]. intros (l' & El & Hl')%list_elem_of_fmap. by destruct (Hw l' Hl').
Qed.

Lemma publish_config_ok tr0 l s fl al1 al2 :
  config_ok tr0 s fl (al1 ++ l :: al2) -> config_ok tr0 (snd (contig_alloc_publish l s)) fl (al1 ++ al2).
Proof.
  intros [Hok Hal Hnd]. pose proof (in_flight_nonneg fl) as Hfl.
  apply list.Forall_app in Hal as [Ha1 [Hl Ha2]%list.Forall_cons].
  rewrite map_app in Hnd. cbn [map] in Hnd. apply list.NoDup_app in Hnd as (N1 & N2 & N3). apply list.NoDup_cons in N3 as [N4 N5].
  assert (Hne : forall l', l' ∈ al1 ++ al2 -> al_ca l <> al_ca l').
  { intros l' [H|H]%elem_of_app E.
    - apply (N2 (al_ca l')); [by apply list_elem_of_fmap_2|]. rewrite <- E. left.
    - apply N4. rewrite E. by apply list_elem_of_fmap_2. }
  split.
  - by apply wp_snd, (alloc_publish_ok tr0 (in_flight fl)).
  - eapply unreturned_keep; [|by apply list.Forall_app]. intros l' Hl' _. by apply wp_snd, alloc_publish_untouched; [|apply Hne].
  - rewrite map_app. apply list.NoDup_app. split_and!; [done| |done]. intros q Hq Hq2. apply (N2 q Hq). by right.
Qed.

Lemma mmap_miss_same tr0 x vma s s' :
  contig_ok tr0 x s -> (forall q, 0 <= x q) -> mmap_contig_get vma s = (None, s') -> s' = s.
Proof.
  intros Hok Hx E. assert (Hw : wp (mmap_contig_get vma) (fun r s' => r = None -> s' = s) s).
  { unfold mmap_contig_get. apply wp_bind, wp_gets, wp_bind, (wp_list_walk tr0 x Hx); [done| |].
    - intros p ca _ _ _. apply wp_bind. unfold wp. destruct (kref_get p s). by apply wp_ret.
    - intros _. by apply wp_ret. }
  unfold wp in Hw. rewrite E in Hw. by apply Hw.
Qed.

Lemma contig_step_ok tr0 s fl al s' fl' al' :
  (forall r, 0 <= held tr0 r) -> contig_step (s, fl, al) (s', fl', al') ->
  config_ok tr0 s fl al -> config_ok tr0 s' fl' al'.
Proof.
  intros Hb Hstep Hc. pose proof Hc as [Hok Hal Hnd]. pose proof (in_flight_nonneg fl) as Hfl.
  assert (Hobj : forall l, l ∈ al -> exists f i, cs_objs (st_contig s) !! al_ca l = Some (new_contig f i l))
    by (rewrite list.Forall_forall in Hal; intros l Hl; by destruct (Hal l Hl)).
  inversion Hstep as [file req ? rc ? ? ? E|file req ? l ? ? ? E|l ? ? al1 al2|file req ? ? ? Hp|vma p ? ? ? ? Hp E|vma ? ? ? ? E
    |vma p ? fl1 fl2 ? Hv|v v' ? ? ? Hv|v ? ? ?|file ? ? ? Hp]; subst; clear Hstep.
  - pose proof (alloc_config_ok tr0 file req s fl' al' Hb Hc) as Hw. unfold wp in Hw. by rewrite E in Hw.
  - pose proof (alloc_config_ok tr0 file req s fl' al Hb Hc) as Hw. unfold wp in Hw. by rewrite E in Hw.
  - by apply publish_config_ok.
  - apply (config_keep tr0 _ s fl' fl' al' Hc); [exact (free_contig_queue_ok tr0 _ Hfl file (Some req) s Hok)|]. intros l Hl _.
    apply (free_untouched tr0 _ _ Hfl); [done|]. intros ca. by apply Hp.
  - replace s' with (snd (mmap_contig_get vma s)) by by rewrite E.
    apply (config_keep tr0 _ s fl ((vma, p) :: fl) al' Hc).
    + pose proof (mmap_contig_get_ok tr0 _ Hfl vma s Hok) as Hw. unfold wp in Hw |- *. rewrite E in Hw |- *.
      destruct Hw as [_ Hw]. eapply contig_ok_ext; [|exact Hw]. intros q. unfold in_flight. cbn [map snd]. rewrite refs_of_cons. lia.
    + intros l Hl _. apply (mmap_get_untouched tr0 _ _ Hfl); [done|]. intros ca. by apply Hp.
  - by rewrite (mmap_miss_same tr0 _ vma s s' Hok Hfl E).
  - apply (config_keep tr0 _ s _ _ al' Hc).
    + apply mmap_contig_map_ok; [apply in_flight_nonneg| |done].
      eapply contig_ok_ext; [|exact Hok]. intros q. unfold in_flight, refs_of. rewrite !map_app, !sumZ_app. cbn. lia.
    + intros l Hl _. apply (mmap_map_untouched tr0 _ _ vma p s Hok). eapply in_flight_ne; [done..|].
      rewrite map_app. apply elem_of_app. right. left.
  - apply (config_keep tr0 _ s fl' fl' al' Hc); [exact (vma_open_ok tr0 _ Hfl v v' s Hok Hv)|]. intros l Hl _.
    apply vma_open_untouched. intros q. by eapply mapped_ne.
  - apply (config_keep tr0 _ s fl' fl' al' Hc); [exact (vma_close_ok tr0 _ Hfl v s Hok)|]. intros l Hl _.
    apply (vma_close_untouched tr0 _ _ v s Hok). intros q. by eapply mapped_ne.
  - apply (config_keep tr0 _ s fl' fl' al' Hc); [exact (release_contig_ok tr0 _ Hfl file s Hok)|]. intros l Hl _.
    destruct (Hobj l Hl) as (f & i & E). apply (release_untouched tr0 _ _ Hfl); [done|]. eexists. split; [exact E|].
    by apply (Hp l _ Hl).
Qed.

Lemma contig_reach_ok tr0 c c' :
  (forall r, 0 <= held tr0 r) -> rtc contig_step c c' ->
  (let '(s, fl, al) := c in config_ok tr0 s fl al) -> (let '(s, fl, al) := c' in config_ok tr0 s fl al).
Proof.
  intros Hb. induction 1 as [|[[s1 fl1] al1] [[s2 fl2] al2] c3 Hs _ IH]; [done|]. intros. by eapply IH, contig_step_ok.
Qed.

(** A state without contiguous allocations whose books are the base. *)
Definition contig_fresh (tr0 : trace) (s : xio_state) : Prop :=
  cs_objs (st_contig s) = ∅ /\ cs_list (st_contig s) = [] /\ cs_vmas (st_contig s) = ∅ /\
  balanced tr0 s /\ uaf_free (st_trace s) = true.

Lemma contig_fresh_ok tr0 s : contig_fresh tr0 s -> contig_ok tr0 (in_flight []) s.
Proof.
  intros (Ho & Hl & Hv & Hb & Hu). split; [split|done..].
  - intros p. unfold refcount, links, maps. by rewrite Ho, Hl, Hv.
  - intros p ca. by rewrite Ho.
Qed.
(** *** One allocation seen by mmap *)

Lemma mmap_contig_get_head vma p ca l s :
  cs_list (st_contig s) = p :: l -> cs_objs (st_contig s) !! p = Some ca ->
  owned_id (vm_file vma) (u32 (vm_pgoff vma)) ca = true ->
  mmap_contig_get vma s =
    (Some p, set_contig (with_objs (insert p (set_ref (ca_ref ca + 1) ca))) s).
Proof.
  intros Hl E Ho. unfold mmap_contig_get, kref_get, bind, gets. rewrite Hl.
  cbn [list_walk]. unfold deref, bind, gets. rewrite E. cbn. rewrite Ho. cbn. by rewrite E.
Qed.

Lemma mmap_contig_map_fits vma p ca s :
  cs_objs (st_contig s) !! p = Some ca ->
  0 <= vm_end vma - vm_start vma < 18446744073709551616 ->
  vm_end vma - vm_start vma <= ca_size ca ->
  0 <= k_dma_mmap (st_trace s) (ca_pdev ca) (vm_end vma - vm_start vma) ->
  mmap_contig_map vma p s =
    (0, set_contig (with_vmas (insert (vma_id vma) p))
      (set_trace (cons (EvDmaMmap (ca_pdev ca) (vm_start vma) 0 (ca_cpu_addr ca)
        (ca_dma_addr ca) (vm_end vma - vm_start vma))) s)).
Proof.
  intros E Hr Hs Hm. unfold mmap_contig_map, deref, bind, gets. rewrite E. cbn.
  rewrite u64_small by done. rewrite (proj2 (Z.ltb_ge _ _) Hs).
  unfold ask, gets. by rewrite (proj2 (Z.ltb_ge _ _) Hm).
Qed.

(** ** Theorems *)

(** C4: the reference counting of contiguous allocations is safe under every
    interleaving of its critical sections: linking a new object and, the lock
    dropped, returning it, with copies to user space that may fault; frees,
    mmap lookups and mappings, VMA duplications and closes, file releases.
    The only conditions are that user space names an id only after the call
    that gives it out has returned, and that a file is not released under a
    call running on it.  In every reachable configuration no freed object has
    been touched, the object behind every live mapping and every listed id is
    still allocated, each object's count is exactly the number of its holders,
    and every reference acquired from the kernel is accounted for. *)
Theorem contig_interleaving_safe tr0 s0 s fl al :
  (forall r, 0 <= held tr0 r) -> contig_fresh tr0 s0 ->
  rtc contig_step (s0, [], []) (s, fl, al) ->
  uaf_free (st_trace s) = true /\
  (forall v p, cs_vmas (st_contig s) !! v = Some p -> is_Some (cs_objs (st_contig s) !! p)) /\
  (forall p, p ∈ cs_list (st_contig s) -> is_Some (cs_objs (st_contig s) !! p)) /\
  (forall p, refcount (st_contig s) p
     = links (st_contig s) p + maps (st_contig s) p + in_flight fl p) /\
  balanced tr0 s.
Proof.
  intros Hb Hf%contig_fresh_ok Hr.
  destruct (contig_reach_ok tr0 _ _ Hb Hr) as [Hok _ _]; [by split; [|constructor..]|].
  split_and!; try apply Hok; [|intros p; by eapply listed_live, Hok; apply in_flight_nonneg].
  intros v p Hv%maps_elem. pose proof (links_nonneg (st_contig s) p).
  destruct (contig_live _ _ p (co_inv _ _ _ Hok) (in_flight_nonneg fl)) as (ca & E & _).
  - pose proof (in_flight_nonneg fl p). lia.
  - by exists ca.
Qed.

(** What ALLOC_CONTIG_QUEUE returns is what mmap maps: after a successful
    allocation, mapping the returned offset through the same file with a
    length within the allocation succeeds, maps from page offset zero the
    very DMA address reported to the caller, and leaves the object with two
    references, one for the list and one for the mapping. *)
Theorem alloc_contig_mmap_roundtrip tr0 file req s :
  (forall r, 0 <= held tr0 r) -> contig_ok tr0 no_refs s ->
  0 < cs_next_id (st_contig s) < 4294967296 ->
  wp (ioctl_alloc_contig_queue file (Some req)) (fun rc s' => rc = 0 ->
    exists out tr', st_trace s' = EvCopyOut (UContig out) :: tr' /\
      ac_mmap_offset out = cs_next_id (st_contig s) /\
      forall vma, vm_file vma = file -> vm_pgoff vma = ac_mmap_offset out ->
        0 <= vm_end vma - vm_start vma < 18446744073709551616 ->
        vm_end vma - vm_start vma <= ac_size req ->
        (forall d n, 0 <= k_dma_mmap (st_trace s') d n) ->
        exists p pdev cpu,
          fst (rocm_xio_mmap vma s') = 0 /\
          st_trace (snd (rocm_xio_mmap vma s')) =
            EvDmaMmap pdev (vm_start vma) 0 cpu (ac_phys_addr out)
              (vm_end vma - vm_start vma) :: st_trace s' /\
          cs_vmas (st_contig (snd (rocm_xio_mmap vma s'))) !! vma_id vma = Some p /\
          refcount (st_contig (snd (rocm_xio_mmap vma s'))) p = 2) s.
Proof.
  intros Hb Hok Hid. eapply wp_mono; [by apply (alloc_contig_queue_core tr0 no_refs)|].
  intros rc s' (tr & _ & [(Hneg & _)|(_ & l & Hreq & _ & -> & (tr' & Htr) & _)]) Hrc; [lia|].
  eexists _, tr'. split; [exact Htr|]. split; [done|]. intros vma Hf Hp Hr Hsz Hm.
  cbn [ac_mmap_offset ac_phys_addr] in Hp |- *.
  set (ca := new_contig file _ l) in *. set (s1 := set_contig (link_contig ca) _) in *.
  assert (cs_objs (st_contig s1) !! al_ca l = Some ca) as E by apply lookup_insert_eq.
  exists (al_ca l), (al_pdev l), (al_cpu_addr l).
  unfold rocm_xio_mmap, bind. rewrite (proj2 (Z.eqb_neq _ _)) by lia.
  rewrite (mmap_contig_get_head vma (al_ca l) ca (cs_list (st_contig s)) s1 eq_refl E).
  2:{ unfold owned_id. rewrite Hf, Hp, u32_small by lia. cbn. by rewrite !Z.eqb_refl. }
  rewrite (mmap_contig_map_fits vma (al_ca l) (set_ref 2 ca));
    [|apply lookup_insert_eq|done|by rewrite <- Hreq in Hsz|apply Hm].
  split_and!; [done|reflexivity|apply lookup_insert_eq|].
  unfold refcount. cbn [snd]. proj. cbn [with_vmas with_objs cs_objs]. by rewrite lookup_insert_eq.
Qed.

(** Allocations of other files cannot be freed or mapped: when no listed
    object with the given id belongs to the calling file, FREE_CONTIG_QUEUE
    and mmap both return -ENOENT and change nothing. *)
Theorem contig_owner_isolation tr0 file id vma s :
  contig_ok tr0 no_refs s ->
  (forall p ca, p ∈ cs_list (st_contig s) -> cs_objs (st_contig s) !! p = Some ca ->
     ca_id ca = id -> ca_owner ca <> file) ->
  vm_file vma = file -> vm_pgoff vma <> 0 -> u32 (vm_pgoff vma) = id ->
  ioctl_free_contig_queue file (Some {| fc_mmap_offset := id |}) s = (- ENOENT, s) /\
  rocm_xio_mmap vma s = (- ENOENT, s).
Proof.
  intros Hok Hno Hf Hp Hid.
  assert (list_walk (owned_id file id) (cs_list (st_contig s)) s = (None, s)) as Hw.
  { rewrite list_walk_live by (intros; by eapply (listed_live tr0 no_refs)).
    f_equal. apply find_first_None. intros p Hin. unfold obj_sat.
    destruct (cs_objs (st_contig s) !! p) as [ca|] eqn:E; [|done]. unfold owned_id.
    destruct (Z.eqb_spec (ca_id ca) id) as [Hi|]; [|done]. cbn.
    apply Z.eqb_neq. by apply (Hno p ca). }
  split.
  - unfold ioctl_free_contig_queue, bind, gets. cbn [fc_mmap_offset]. by rewrite Hw.
  - unfold rocm_xio_mmap, mmap_contig_get, bind, gets. rewrite (proj2 (Z.eqb_neq _ _) Hp).
    by rewrite Hf, Hid, Hw.
Qed.
End Interleaving.

Definition sample_contig_req : rocm_xio_alloc_contig_req :=
  {| ac_size := 8192; ac_nvme_bdf := 34048; ac_phys_addr := 0; ac_mmap_offset := 0 |}.

Definition faulting_kernel : Kernel := demo demo_kmalloc (fun _ => true).

Lemma state0_fresh `{K : Kernel} : contig_fresh [] state0.
Proof. split_and!; done. Qed.

Lemma state0_contig_ok `{K : Kernel} : contig_ok [] no_refs state0.
Proof. exact (contig_fresh_ok [] state0 state0_fresh). Qed.

Lemma held_nil_nonneg r : 0 <= held [] r.
Proof. done. Qed.

(** Two allocations side by side: the second links its object before the
    first returns; then the first is freed and the second's copy is made. *)
Definition demo_insert (file : ptr) (s : xio_state) : option (alloc_locals * xio_state) :=
  match contig_alloc_insert (K := demo_kernel) file sample_contig_req s with
  | (inr l, s') => Some (l, s')
  | (inl _, _) => None
  end.

Lemma demo_insert_step file s l s' fl al :
  demo_insert file s = Some (l, s') -> contig_step (K := demo_kernel) (s, fl, al) (s', fl, l :: al).
Proof.
  unfold demo_insert. intros H. destruct (contig_alloc_insert _ _ _) as [[rc|l1] s1] eqn:E; [done|].
  injection H as <- <-. by eapply step_alloc_insert.
Qed.

Lemma contig_interleaving_safe_witness :
  exists l1 l2 s1 s2,
    demo_insert 42 state0 = Some (l1, s1) /\ demo_insert 43 s1 = Some (l2, s2) /\
    let s3 := snd (contig_alloc_publish (K := demo_kernel) l1 s2) in
    let s4 := snd (ioctl_free_contig_queue 42 (Some {| fc_mmap_offset := 1 |}) s3) in
    let s5 := snd (contig_alloc_publish (K := demo_kernel) l2 s4) in
    uaf_free (st_trace s5) = true /\ balanced (K := demo_kernel) [] s5.
Proof.
  destruct (demo_insert 42 state0) as [[l1 s1]|] eqn:E1; [|vm_compute in E1; done].
  destruct (demo_insert 43 s1) as [[l2 s2]|] eqn:E2; [|vm_compute in E1; injection E1 as <- <-; vm_compute in E2; done].
  exists l1, l2, s1, s2. split; [done|]. split; [done|]. cbv zeta.
  match goal with |- uaf_free (st_trace ?s) = true /\ _ =>
    destruct (contig_interleaving_safe (K := demo_kernel) [] state0 s [] []) as (H1 & _ & _ & _ & H2) end.
  - exact held_nil_nonneg.
  - exact state0_fresh.
  - eapply rtc_l; [exact (demo_insert_step _ _ _ _ _ _ E1)|]. eapply rtc_l; [exact (demo_insert_step _ _ _ _ _ _ E2)|].
    eapply rtc_l; [apply (step_alloc_publish l1 s2 [] [l2] [])|]. eapply rtc_l; [apply (step_free 42 {| fc_mmap_offset := 1 |})|].
    + vm_compute in E1. injection E1 as <- <-. vm_compute in E2. injection E2 as <- <-.
      intros l ca ->%list_elem_of_singleton E. vm_compute in E. injection E as <-. reflexivity.
    + apply rtc_once, (step_alloc_publish l2 _ [] [] []).
  - done.
Defined.

Lemma alloc_contig_mmap_roundtrip_witness :
  fst (ioctl_alloc_contig_queue (K := demo_kernel) 42 (Some sample_contig_req) state0) = 0 /\
  wp (ioctl_alloc_contig_queue (K := demo_kernel) 42 (Some sample_contig_req)) (fun rc s' => rc = 0 ->
    exists out tr', st_trace s' = EvCopyOut (UContig out) :: tr' /\ ac_mmap_offset out = 1) state0.
Proof.
  split; [by vm_compute|].
  eapply wp_mono; [apply (alloc_contig_mmap_roundtrip (K := demo_kernel) [] 42 sample_contig_req state0)|].
  - exact held_nil_nonneg.
  - exact state0_contig_ok.
  - done.
  - intros rc s' H Hrc. destruct (H Hrc) as (out & tr' & H1 & H2 & _). by exists out, tr'.
Defined.

Lemma contig_owner_isolation_witness :
  let s1 := snd (ioctl_alloc_contig_queue (K := demo_kernel) 42 (Some sample_contig_req) state0) in
  ioctl_free_contig_queue 43 (Some {| fc_mmap_offset := 1 |}) s1 = (- ENOENT, s1).
Proof.
  intros s1.
  apply (contig_owner_isolation (K := demo_kernel) [] 43 1
    {| vma_id := 0; vm_start := 0; vm_end := 4096; vm_pgoff := 1; vm_file := 43 |} s1).
  - apply wp_snd, (alloc_contig_queue_ok [] no_refs held_nil_nonneg), state0_contig_ok.
  - intros p ca Hp E. assert (p = 4096) as -> by (vm_compute in Hp; inversion Hp as [|??? H]; [done|inversion H]).
    vm_compute in E. injection E as <-. done.
  - done.
  - done.
  - done.
Defined.

(** The error path of ALLOC_CONTIG_QUEUE is not safe against a concurrent
    caller: the object is already on the list when the copy to user space
    faults, and that path frees it without consulting its count.  If another
    thread of the same file frees the (guessable) id in between, the object
    is read after it was freed, and freed a second time. *)
Theorem alloc_contig_copyout_race :
  exists l s1 s2,
    contig_alloc_insert (K := faulting_kernel) 42 sample_contig_req state0 = (inr l, s1) /\
    ioctl_free_contig_queue 42 (Some {| fc_mmap_offset := 1 |}) s1 = (0, s2) /\
    held (st_trace s2) (RMem (al_ca l)) = 0 /\
    let s3 := snd (contig_alloc_publish (K := faulting_kernel) l s2) in
    uaf_free (st_trace s3) = false /\ held (st_trace s3) (RMem (al_ca l)) = -1.
Proof.
  destruct (contig_alloc_insert (K := faulting_kernel) 42 sample_contig_req state0)
    as [[rc|l] s1] eqn:E1; vm_compute in E1; [done|injection E1 as <- <-].
  eexists _, _, _. split; [done|]. split; [vm_compute; done|]. by vm_compute.
Qed.
