(* ===== verification/Quiesce.v ===== *)
(** * Quiesced namespaces

    [ROCM_XIO_QUIESCE_NS] and [ROCM_XIO_UNQUIESCE_NS] of
    [src/kernel/rocm-xio/rocm-xio.c], their helpers [rocm_xio_file_to_bdev]
    and [rocm_xio_hctx_at], and the blocks of [rocm_xio_release] and
    [rocm_xio_exit] that resume what a file or the module left quiesced.

    The block layer counts whole-queue quiesces ([quiesce_depth]) but a
    stopped hardware queue is a single bit; the theorems show what that means
    for the two modes. *)

From S2P Require Import Prelude Uapi Kernel State Demo.

Section Quiesce.
Context `{K : Kernel}.

(** ** Helpers *)

Definition rocm_xio_file_to_bdev (bdev_file : ptr) : ptr :=
  if is_null bdev_file then NULL
  else
    let inode := match k_f_mapping_host bdev_file with
                 | Some host => host
                 | None => k_file_inode bdev_file
                 end in
    if is_null inode || negb (k_S_ISBLK inode) then NULL
    else k_I_BDEV inode.

Definition rocm_xio_hctx_at (q : ptr) (idx : Z) : X ptr :=
  let* n := ask (fun tr => k_nr_hw_queues tr q) in
  if is_null q || (n <=? idx) then ret NULL
  else ret (k_hctx q idx).

Definition fget (fd : Z) : X ptr :=
  let* f := ask (fun tr => k_fget tr fd) in
  if is_null f then log (EvFail FFget) ;;; ret NULL
  else log (EvFget f) ;;; ret f.

Definition fput (f : ptr) : X unit := log (EvFput f).

(** ** QUIESCE_NS *)

(** An entry that the duplicate check of a request for [(mode, hctx_idx)]
    by [file] on [bd] stops at. *)
Definition same_ns (file bd : ptr) (mode : quiesced_ns_mode) (hctx_idx : Z)
    (e : quiesced_ns_entry) : bool :=
  (qe_owner e =? file) && (qe_bd e =? bd) &&
  match qe_mode e, mode with
  | QUIESCED_NS_MODE_FULL, QUIESCED_NS_MODE_FULL => true
  | QUIESCED_NS_MODE_HCTX, QUIESCED_NS_MODE_HCTX => qe_hctx_idx e =? hctx_idx
  | _, _ => false
  end.

(** Mode and hardware queue asked for: a negative status, or the mode, the
    index and the hardware context. *)
Definition quiesce_target (q : ptr) (qid : Z) : X (Z + quiesced_ns_mode * Z * ptr) :=
  if qid =? 0 then ret (inr (QUIESCED_NS_MODE_FULL, 0, NULL))
  else if negb (k_queue_is_mq q) then ret (inl (- EOPNOTSUPP))
  else
    let hctx_idx := u32 (qid - 1) in
    let* n := ask (fun tr => k_nr_hw_queues tr q) in
    if n <=? hctx_idx then ret (inl (- ERANGE))
    else
      let* hctx := rocm_xio_hctx_at q hctx_idx in
      if is_null hctx then ret (inl (- ENODEV))
      else ret (inr (QUIESCED_NS_MODE_HCTX, hctx_idx, hctx)).

(** The critical section: duplicate check, quiesce and insertion. *)
Definition quiesce_commit (q hctx : ptr) (entry : quiesced_ns_entry) : X Z :=
  let* l := gets st_quiesced in
  match find_first (same_ns (qe_owner entry) (qe_bd entry) (qe_mode entry) (qe_hctx_idx entry)) l with
  | Some existing =>
    kfree (qe_self entry) ;;;
    fput (qe_bdev_file entry) ;;;
    ret 0
  | None =>
    match qe_mode entry with
    | QUIESCED_NS_MODE_FULL => log (EvQuiesce q)
    | QUIESCED_NS_MODE_HCTX =>
      log (EvQuiesce q) ;;;
      log (EvStopHw hctx) ;;;
      log (EvUnquiesce q)
    end ;;;
    modify (set_quiesced (cons entry)) ;;;
    ret 0
  end.

Definition ioctl_quiesce_ns (file : ptr) (arg : option rocm_xio_quiesce_ns_req) : X Z :=
  match arg with
  | None => ret (- EFAULT)
  | Some req =>
    if qn_bdev_fd req <? 0 then ret (- EINVAL)
    else
      let* bdev_file := fget (qn_bdev_fd req) in
      if is_null bdev_file then ret (- EBADF)
      else
        let bd := rocm_xio_file_to_bdev bdev_file in
        if is_null bd then fput bdev_file ;;; ret (- ENOTBLK)
        else
          let q := k_bdev_get_queue bd in
          if is_null q then fput bdev_file ;;; ret (- ENODEV)
          else
            let* t := quiesce_target q (qn_qid req) in
            match t with
            | inl rc => fput bdev_file ;;; ret rc
            | inr (mode, hctx_idx, hctx) =>
              let* m := kmalloc in
              match m with
              | None => fput bdev_file ;;; ret (- ENOMEM)
              | Some (entry, _) =>
                quiesce_commit q hctx
                  {| qe_self := entry; qe_bdev_file := bdev_file; qe_bd := bd;
                     qe_owner := file; qe_mode := mode; qe_hctx_idx := hctx_idx |}
              end
            end
  end.

(** ** UNQUIESCE_NS *)

Definition resume_ns (q : ptr) (e : quiesced_ns_entry) : X unit :=
  if is_null q then ret tt
  else
    match qe_mode e with
    | QUIESCED_NS_MODE_FULL => log (EvUnquiesce q)
    | QUIESCED_NS_MODE_HCTX =>
      let* hctx := rocm_xio_hctx_at q (qe_hctx_idx e) in
      if is_null hctx then ret tt else log (EvStartHw hctx)
    end.

(** The critical section takes the entry off the list... *)
Definition unquiesce_remove (file bd : ptr) (want_mode : quiesced_ns_mode) (hctx_idx : Z)
    : X (option quiesced_ns_entry) :=
  let* l := gets st_quiesced in
  let P := same_ns file bd want_mode hctx_idx in
  match find_first P l with
  | None => ret None
  | Some e => modify (set_quiesced (remove_first P)) ;;; ret (Some e)
  end.

(** ... and the queue is resumed after the lock is dropped. *)
Definition unquiesce_resume (bdev_file : ptr) (found : quiesced_ns_entry) : X Z :=
  resume_ns (k_bdev_get_queue (qe_bd found)) found ;;;
  fput (qe_bdev_file found) ;;;
  kfree (qe_self found) ;;;
  fput bdev_file ;;;
  ret 0.

Definition want_of (qid : Z) : quiesced_ns_mode * Z :=
  if qid =? 0 then (QUIESCED_NS_MODE_FULL, 0) else (QUIESCED_NS_MODE_HCTX, u32 (qid - 1)).

Definition ioctl_unquiesce_ns (file : ptr) (arg : option rocm_xio_quiesce_ns_req) : X Z :=
  match arg with
  | None => ret (- EFAULT)
  | Some req =>
    if qn_bdev_fd req <? 0 then ret (- EINVAL)
    else
      let* bdev_file := fget (qn_bdev_fd req) in
      if is_null bdev_file then ret (- EBADF)
      else
        let bd := rocm_xio_file_to_bdev bdev_file in
        if is_null bd then fput bdev_file ;;; ret (- ENOTBLK)
        else
          let (want_mode, hctx_idx) := want_of (qn_qid req) in
          let* found := unquiesce_remove file bd want_mode hctx_idx in
          match found with
          | None => fput bdev_file ;;; ret (- ENOENT)
          | Some e => unquiesce_resume bdev_file e
          end
  end.

(** ** Clean-up *)

Definition drop_ns (qn : quiesced_ns_entry) : X unit :=
  resume_ns (if is_null (qe_bd qn) then NULL else k_bdev_get_queue (qe_bd qn)) qn ;;;
  fput (qe_bdev_file qn) ;;;
  kfree (qe_self qn).

(** Last block of [rocm_xio_release]. *)
Definition release_quiesced (file : ptr) : X unit :=
  let* l := gets st_quiesced in
  modify (set_quiesced (filter (fun e => (qe_owner e =? file) = false))) ;;;
  iterM drop_ns (reverse (filter (fun e => (qe_owner e =? file) = true) l)).

(** The block of [rocm_xio_exit]. *)
Definition exit_quiesced : X unit :=
  let* l := gets st_quiesced in
  modify (set_quiesced (fun _ => [])) ;;;
  iterM drop_ns (reverse l).

(** ** Invariant: entries name a block device with a request queue, and no
    file has the same target twice *)

Definition ns_wf (e : quiesced_ns_entry) : Prop :=
  qe_bd e <> NULL /\ k_bdev_get_queue (qe_bd e) <> NULL.

Definition ns_key (e : quiesced_ns_entry) : ptr * ptr * quiesced_ns_mode * Z :=
  (qe_owner e, qe_bd e, qe_mode e,
   match qe_mode e with QUIESCED_NS_MODE_FULL => 0 | QUIESCED_NS_MODE_HCTX => qe_hctx_idx e end).

Record quiesce_inv (s : xio_state) : Prop := {
  qi_wf : Forall ns_wf (st_quiesced s);
  qi_unique : NoDup (map ns_key (st_quiesced s))
}.

(** ** Lemmas *)

Lemma same_ns_key file bd mode i e :
  same_ns file bd mode i e = true <->
  ns_key e = (file, bd, mode, match mode with QUIESCED_NS_MODE_FULL => 0 | _ => i end).
Proof.
  unfold same_ns, ns_key. rewrite !andb_true_iff, !Z.eqb_eq.
  destruct (qe_mode e), mode; rewrite ?Z.eqb_eq; split;
    try (intros ([-> ->] & H); congruence); intros [=]; subst; auto.
Qed.

Lemma hctx_at_reads q i s : exists h, rocm_xio_hctx_at q i s = (h, s).
Proof. unfold rocm_xio_hctx_at, bind, ask, gets. destruct (_ || _); by eexists. Qed.

Lemma releases_no_effect e : effect e = None -> releases (log e) (fun _ => 0).
Proof.
  intros He. eapply releases_ext; [|apply releases_log]. intros r. unfold delta. by rewrite He.
Qed.

Lemma resume_ns_releases q e :
  q <> NULL ->
  releases (resume_ns q e) (fun r =>
    match qe_mode e with
    | QUIESCED_NS_MODE_FULL => unit_of (RQuiesce q) r
    | QUIESCED_NS_MODE_HCTX => 0
    end).
Proof.
  intros Hq. unfold resume_ns. rewrite (proj2 (Z.eqb_neq _ _) Hq). destruct (qe_mode e).
  - eapply releases_ext; [|apply releases_log]. intros r. cbn [delta effect]. lia.
  - apply releases_read; [apply hctx_at_reads|]. intros h.
    apply releases_if; intros _; [apply releases_ret|by apply releases_no_effect].
Qed.

Lemma drop_ns_releases e : ns_wf e -> releases (drop_ns e) (own_quiesced e).
Proof.
  intros [Hbd Hq]. unfold drop_ns. rewrite (proj2 (Z.eqb_neq _ _) Hbd).
  eapply releases_ext; [|apply releases_bind; [by apply resume_ns_releases|
    apply releases_bind; apply releases_log]].
  intros r. unfold own_quiesced. cbn [delta effect]. lia.
Qed.

Lemma drop_all_ns_releases l :
  Forall ns_wf l -> releases (iterM drop_ns l) (fun r => sumZ (fun e => own_quiesced e r) l).
Proof. intros H. apply releases_iter. intros e He. apply drop_ns_releases. by eapply Forall_elem. Qed.

Lemma wp_fget fd (Q : ptr -> xio_state -> Prop) s :
  (forall f, f <> NULL -> k_fget (st_trace s) fd = f -> Q f (set_trace (cons (EvFget f)) s)) ->
  (k_fget (st_trace s) fd = NULL -> Q NULL (set_trace (cons (EvFail FFget)) s)) ->
  wp (fget fd) Q s.
Proof.
  intros H1 H2. unfold wp, fget, bind, ask, gets. cbn.
  destruct (Z.eqb_spec (k_fget (st_trace s) fd) NULL); cbn; auto.
Qed.

(** The target is computed without side effect. *)
Lemma quiesce_target_reads q qid s :
  exists r, quiesce_target q qid s = (r, s) /\
    match r with
    | inl rc => rc < 0
    | inr (mode, i, h) =>
        (mode, i) = want_of qid /\
        (mode = QUIESCED_NS_MODE_HCTX -> h = k_hctx q i /\ h <> NULL /\
           i < k_nr_hw_queues (st_trace s) q)
    end.
Proof.
  unfold quiesce_target, rocm_xio_hctx_at, want_of, bind, ask, gets, ret.
  destruct (qid =? 0); [by eexists|].
  destruct (negb _); [by eexists|]. destruct (_ <=? _) eqn:E; [by eexists|]. bool_to_prop.
  destruct (is_null q || _); [by eexists|].
  destruct (Z.eqb_spec (k_hctx q (u32 (qid - 1))) NULL); [by eexists|].
  eexists. split; [done|]. by split.
Qed.

Lemma wp_reads {A} (m : X A) (a : A) (Q : A -> xio_state -> Prop) s :
  m s = (a, s) -> Q a s -> wp m Q s.
Proof. intros E HQ. unfold wp. by rewrite E. Qed.

(** The entry a successful request records. *)
Definition quiesce_entry_ok (file : ptr) (qid : Z) (e : quiesced_ns_entry) : Prop :=
  qe_owner e = file /\ (qe_mode e, qe_hctx_idx e) = want_of qid /\ ns_wf e.

(** The block device a request names. *)
Definition req_bd (req : rocm_xio_quiesce_ns_req) (s : xio_state) : ptr :=
  rocm_xio_file_to_bdev (k_fget (st_trace s) (qn_bdev_fd req)).

(** Every outcome of QUIESCE_NS. *)
Lemma quiesce_ns_core file req s :
  wp (ioctl_quiesce_ns file (Some req)) (fun rc s' => exists tr,
    (s' = set_trace (fun _ => tr) s /\ (forall r, held tr r = held (st_trace s) r) /\
      (rc < 0 \/ rc = 0 /\ exists e, e ∈ st_quiesced s /\ qe_owner e = file)) \/
    (rc = 0 /\ 0 <= qn_bdev_fd req /\ exists e, quiesce_entry_ok file (qn_qid req) e /\
       qe_bd e = req_bd req s /\
       (ns_key e ∉ map ns_key (st_quiesced s)) /\
       s' = set_quiesced (cons e) (set_trace (fun _ => tr) s) /\
       (forall r, held tr r = held (st_trace s) r + own_quiesced e r) /\
       (qe_mode e = QUIESCED_NS_MODE_HCTX ->
          hw_stopped tr (k_hctx (k_bdev_get_queue (qe_bd e)) (qe_hctx_idx e)) = true))) s.
Proof.
  unfold ioctl_quiesce_ns. destruct (Z.ltb_spec (qn_bdev_fd req) 0).
  { apply wp_ret. exists (st_trace s). left. split_and!; [by destruct s|done|by left]. }
  apply wp_bind, wp_fget; [|intros _; apply wp_ret; eexists; left;
    split_and!; [reflexivity|done|by left]].
  intros f Hf Efile. unfold req_bd. rewrite Efile. rewrite (proj2 (Z.eqb_neq _ _) Hf). cbv zeta.
  destruct (Z.eqb_spec (rocm_xio_file_to_bdev f) NULL) as [_|Hbd].
  { unfold fput. xwp. eexists. left. split_and!; [reflexivity| |by left]. intros r. ledger_close. }
  destruct (Z.eqb_spec (k_bdev_get_queue (rocm_xio_file_to_bdev f)) NULL) as [_|Hq].
  { unfold fput. xwp. eexists. left. split_and!; [reflexivity| |by left]. intros r. ledger_close. }
  apply wp_bind. destruct (quiesce_target_reads (k_bdev_get_queue (rocm_xio_file_to_bdev f))
    (qn_qid req) (set_trace (cons (EvFget f)) s)) as (t & Et & Ht).
  eapply wp_reads; [exact Et|]. destruct t as [rc|[[mode i] h]].
  { unfold fput. xwp. eexists. left. split_and!; [reflexivity| |by left]. intros r. ledger_close. }
  destruct Ht as [Hw Hh]. apply wp_bind, wp_kmalloc.
  - intros p g _. unfold quiesce_commit, fput. cbn [qe_owner qe_bd qe_mode qe_hctx_idx qe_self qe_bdev_file].
    apply wp_bind, wp_gets. proj. destruct (find_first _ _) as [e|] eqn:E.
    + xwp. eexists. left. split_and!; [reflexivity|intros r; ledger_close|].
      right. split; [done|]. exists e. apply find_first_Some in E as [He HP]. split; [done|].
      apply same_ns_key in HP. by injection HP.
    + set (e := {| qe_self := p |}).
      assert (ns_key e ∉ map ns_key (st_quiesced s)) as Hnew.
      { intros (y & Ey & Hy)%list_elem_of_fmap. rewrite find_first_None in E.
        specialize (E y Hy). rewrite (proj2 (same_ns_key _ _ _ _ _)) in E; [done|]. by rewrite <- Ey. }
      apply wp_bind. destruct mode; xwp; eexists; right; (split_and!; [done..|]); exists e;
        (split_and!; [done..|reflexivity| |]).
      * intros r. unfold own_quiesced. cbn [e qe_self qe_bdev_file qe_mode qe_bd]. ledger_close.
      * done.
      * intros r. unfold own_quiesced. cbn [e qe_self qe_bdev_file qe_mode qe_bd]. ledger_close.
      * intros _. cbn. destruct (Hh eq_refl) as [-> _]. by rewrite Z.eqb_refl.
  - intros _. unfold fput. xwp. eexists. left. split_and!; [reflexivity| |by left].
    intros r. ledger_close.
Qed.

Lemma quiesce_ns_balanced tr0 file arg s :
  balanced tr0 s -> quiesce_inv s ->
  wp (ioctl_quiesce_ns file arg) (fun _ s' => balanced tr0 s' /\ quiesce_inv s') s.
Proof.
  intros Hb [Hwf Hnd]. destruct arg as [req|]; [|by apply wp_ret].
  eapply wp_mono; [apply quiesce_ns_core|].
  intros rc s' (tr & [(-> & Hh & _)|(_ & _ & e & He & _ & Hnew & -> & Hh & _)]).
  - split; [|done]. ledger_open r. specialize (Hh r). ledger_close.
  - split; [ledger_open r; specialize (Hh r); ledger_close|].
    split; [constructor; [apply He|done]|]. by apply list_relations.list.NoDup_cons.
Qed.

(** Every outcome of UNQUIESCE_NS. *)
Lemma unquiesce_ns_core file req s :
  Forall ns_wf (st_quiesced s) ->
  wp (ioctl_unquiesce_ns file (Some req)) (fun rc s' => exists tr,
    let P := same_ns file (req_bd req s) (fst (want_of (qn_qid req))) (snd (want_of (qn_qid req))) in
    (rc < 0 /\ s' = set_trace (fun _ => tr) s /\
       (forall r, held tr r = held (st_trace s) r) /\
       (0 <= qn_bdev_fd req -> req_bd req s <> NULL -> find_first P (st_quiesced s) = None)) \/
    (rc = 0 /\ exists e,
       find_first P (st_quiesced s) = Some e /\
       s' = set_quiesced (remove_first P) (set_trace (fun _ => tr) s) /\
       forall r, held tr r = held (st_trace s) r - own_quiesced e r)) s.
Proof.
  intros Hwf. unfold ioctl_unquiesce_ns. destruct (Z.ltb_spec (qn_bdev_fd req) 0).
  { apply wp_ret. exists (st_trace s). left. split_and!; [done|by destruct s|done|lia]. }
  apply wp_bind, wp_fget; [|intros Ef; apply wp_ret; eexists; left; split_and!;
    [done..|unfold req_bd; by rewrite Ef]].
  intros f Hf Efile. unfold req_bd. rewrite Efile.
  rewrite (proj2 (Z.eqb_neq _ _) Hf). cbv zeta.
  destruct (Z.eqb_spec (rocm_xio_file_to_bdev f) NULL) as [Eb|Hbd].
  { unfold fput. xwp. eexists. left. split_and!; [done|reflexivity| |by rewrite Eb].
    intros r. ledger_close. }
  destruct (want_of (qn_qid req)) as [want i] eqn:Ew. cbn [fst snd].
  unfold unquiesce_remove. apply wp_bind, wp_bind, wp_gets. proj.
  destruct (find_first _ _) as [e|] eqn:E.
  - apply wp_bind, wp_modify, wp_ret. unfold unquiesce_resume, fput.
    assert (ns_wf e) as He by (apply find_first_Some in E as []; by eapply Forall_elem).
    apply wp_bind. eapply wp_releases; [apply resume_ns_releases, He|]. intros tr1 Htr1. xwp.
    eexists. right. split; [done|]. exists e.
    split_and!; [done|reflexivity|]. intros r. specialize (Htr1 r). revert Htr1.
    unfold own_quiesced. proj. intros. destruct (qe_mode e); ledger_close.
  - xwp. eexists. left. split_and!; [done|reflexivity| |done]. intros r. ledger_close.
Qed.

Lemma unquiesce_ns_balanced tr0 file arg s :
  balanced tr0 s -> quiesce_inv s ->
  wp (ioctl_unquiesce_ns file arg) (fun _ s' => balanced tr0 s' /\ quiesce_inv s') s.
Proof.
  intros Hb [Hwf Hnd]. destruct arg as [req|]; [|by apply wp_ret].
  eapply wp_mono; [by apply unquiesce_ns_core|].
  intros rc s' (tr & [(_ & -> & Hh & _)|(_ & e & E & -> & Hh)]).
  - split; [|done]. ledger_open r. specialize (Hh r). ledger_close.
  - split; [|split].
    + ledger_open r. specialize (Hh r).
      pose proof (sumZ_remove_first (fun e => own_quiesced e r) _ _ _ E). ledger_close.
    + apply elem_Forall. intros y Hy%elem_of_remove_first. by eapply Forall_elem.
    + by apply remove_first_NoDup_map.
Qed.

Lemma release_quiesced_balanced tr0 file s :
  balanced tr0 s -> quiesce_inv s ->
  wp (release_quiesced file) (fun _ s' => balanced tr0 s' /\ quiesce_inv s' /\
    st_quiesced s' = filter (fun e => (qe_owner e =? file) = false) (st_quiesced s)) s.
Proof.
  intros Hb [Hwf Hnd]. unfold release_quiesced. xwp.
  assert (forall b, Forall ns_wf (filter (fun e => (qe_owner e =? file) = b) (st_quiesced s)))
    as Hf by (intros b; apply elem_Forall; intros e [_ He]%list_elem_of_filter; by eapply Forall_elem).
  eapply wp_releases; [apply drop_all_ns_releases; by apply Forall_reverse|].
  intros tr1 Htr1. split; [|split; [split; [apply Hf|by apply filter_NoDup_map]|done]].
  ledger_open rs. specialize (Htr1 rs).
  pose proof (sumZ_filter_split (fun e => own_quiesced e rs) (fun e => qe_owner e =? file)
    (st_quiesced s)).
  revert Htr1. proj. rewrite sumZ_reverse. intros. ledger_close.
Qed.

Lemma exit_quiesced_balanced tr0 s :
  balanced tr0 s -> quiesce_inv s ->
  wp exit_quiesced (fun _ s' => balanced tr0 s' /\ st_quiesced s' = []) s.
Proof.
  intros Hb [Hwf Hnd]. unfold exit_quiesced. xwp.
  eapply wp_releases; [apply drop_all_ns_releases; by apply Forall_reverse|].
  intros tr1 Htr1. split; [|done]. ledger_open rs. specialize (Htr1 rs).
  revert Htr1. proj. rewrite sumZ_reverse. intros. ledger_close.
Qed.
(** *** Sequences of operations *)

Inductive quiesce_step : xio_state -> xio_state -> Prop :=
| step_quiesce file arg s : quiesce_step s (snd (ioctl_quiesce_ns file arg s))
| step_unquiesce file arg s : quiesce_step s (snd (ioctl_unquiesce_ns file arg s))
| step_close file s : quiesce_step s (snd (release_quiesced file s)).

Lemma quiesce_step_inv tr0 s s' :
  quiesce_step s s' -> balanced tr0 s /\ quiesce_inv s -> balanced tr0 s' /\ quiesce_inv s'.
Proof.
  intros [] [Hb Hi].
  - by apply (wp_snd _ (fun s => balanced tr0 s /\ quiesce_inv s)), quiesce_ns_balanced.
  - by apply (wp_snd _ (fun s => balanced tr0 s /\ quiesce_inv s)), unquiesce_ns_balanced.
  - apply (wp_snd _ (fun s => balanced tr0 s /\ quiesce_inv s)).
    eapply wp_mono; [by apply release_quiesced_balanced|]. by intros _ ? (? & ? & _).
Qed.

Lemma quiesce_reach_inv tr0 s s' :
  rtc quiesce_step s s' -> balanced tr0 s /\ quiesce_inv s -> balanced tr0 s' /\ quiesce_inv s'.
Proof. induction 1; eauto using quiesce_step_inv. Qed.

(** Full quiesces of a request queue on record. *)
Definition full_on (q : ptr) (e : quiesced_ns_entry) : bool :=
  match qe_mode e with
  | QUIESCED_NS_MODE_FULL => k_bdev_get_queue (qe_bd e) =? q
  | QUIESCED_NS_MODE_HCTX => false
  end.

Lemma own_quiesced_depth e q : own_quiesced e (RQuiesce q) = ind (full_on q e).
Proof.
  unfold own_quiesced, full_on. rewrite !unit_of_ne by done.
  destruct (qe_mode e); [|done]. unfold unit_of.
  destruct (Z.eqb_spec (k_bdev_get_queue (qe_bd e)) q) as [->|Hne].
  - by rewrite bool_decide_eq_true_2.
  - rewrite bool_decide_eq_false_2; [done|]. congruence.
Qed.

Lemma owned_depth s q :
  owned s (RQuiesce q) = sumZ (fun e => ind (full_on q e)) (st_quiesced s).
Proof.
  unfold owned.
  rewrite (sumZ_zero (fun e => own_queue e (RQuiesce q))) by done.
  rewrite (sumZ_zero (fun e => own_buffer e (RQuiesce q)))
    by (intros e _; unfold own_buffer; by destruct (vb_is_passthrough e)).
  unfold msum. rewrite (sumZ_zero (fun kv => own_contig kv.2 (RQuiesce q))) by done.
  rewrite (sumZ_zero (fun e => own_snapshot e (RQuiesce q))) by done.
  rewrite (sumZ_zero (fun e => own_pending e (RQuiesce q))) by done.
  rewrite (sumZ_zero (fun e => own_poisoned e (RQuiesce q))) by done.
  rewrite (sumZ_ext _ (fun e => ind (full_on q e)) (st_quiesced s))
    by (intros; apply own_quiesced_depth). lia.
Qed.

(** ** Theorems *)

(** No queue is left quiesced or over-resumed.  After any sequence of
    QUIESCE_NS, UNQUIESCE_NS and file closes by any files, whatever fails on
    the way, the quiesce depth the module has added to each request queue is
    exactly the number of whole-queue entries recorded for it, and no file
    has two entries for the same target. *)
Theorem quiesce_depth_tracked tr0 s0 s :
  balanced tr0 s0 -> quiesce_inv s0 -> rtc quiesce_step s0 s ->
  NoDup (map ns_key (st_quiesced s)) /\
  forall q, held (st_trace s) (RQuiesce q)
            = held tr0 (RQuiesce q) + sumZ (fun e => ind (full_on q e)) (st_quiesced s).
Proof.
  intros Hb Hi Hr. destruct (quiesce_reach_inv tr0 _ _ Hr (conj Hb Hi)) as [Hb' Hi'].
  split; [apply Hi'|]. intros q. by rewrite (Hb' (RQuiesce q)), owned_depth.
Qed.

(** QUIESCE_NS followed by UNQUIESCE_NS of the same request undoes it: if
    the first call recorded something new, and the descriptor still names the
    same block device, the second returns 0, restores the list of entries,
    and gives back every reference and every quiesce taken. *)
Theorem quiesce_unquiesce_roundtrip file req s :
  Forall ns_wf (st_quiesced s) ->
  wp (ioctl_quiesce_ns file (Some req)) (fun rc s' =>
    st_quiesced s' <> st_quiesced s -> req_bd req s' = req_bd req s ->
    rc = 0 /\
    wp (ioctl_unquiesce_ns file (Some req)) (fun rc2 s2 =>
      rc2 = 0 /\ st_quiesced s2 = st_quiesced s /\
      forall r, held (st_trace s2) r = held (st_trace s) r) s') s.
Proof.
  intros Hwf. eapply wp_mono; [apply quiesce_ns_core|].
  intros rc s' (tr & [(-> & _)|(-> & Hfd & e & (Ho & Hm & He) & Hbd & Hnew & Hs & Hh & _)]) Hne Hreq;
    [done|]. split; [done|].
  assert (same_ns file (req_bd req s') (fst (want_of (qn_qid req))) (snd (want_of (qn_qid req))) e
    = true) as HP.
  { rewrite Hreq, <- Hm, <- Hbd. apply same_ns_key. unfold ns_key. cbn [fst snd]. rewrite Ho.
    by destruct (qe_mode e). }
  eapply wp_mono; [apply unquiesce_ns_core; rewrite Hs; by constructor|].
  intros rc2 s2 (tr2 & [(_ & _ & _ & Hnone)|(-> & e2 & E & -> & Hh2)]).
  - exfalso. assert (req_bd req s' <> NULL) as Hnn by (rewrite Hreq, <- Hbd; apply He).
    specialize (Hnone Hfd Hnn). revert Hnone.
    replace (st_quiesced s') with (e :: st_quiesced s) by by rewrite Hs.
    cbn [find_first]. by rewrite HP.
  - revert E. proj. replace (st_quiesced s') with (e :: st_quiesced s) by by rewrite Hs.
    cbn [find_first remove_first]. rewrite HP. intros [= <-]. split_and!; [done..|].
    intros r. rewrite Hh2. replace (st_trace s') with tr by by rewrite Hs. rewrite Hh. lia.
Qed.

(** Closing a file resumes everything it left quiesced and nothing else:
    its entries are gone, the entries of other files are unchanged, and the
    quiesce depth of each queue drops by the number of whole-queue entries
    the file had for it. *)
Theorem release_resumes_own file s :
  quiesce_inv s -> balanced [] s ->
  wp (release_quiesced file) (fun _ s' =>
    (forall e, e ∈ st_quiesced s' <-> e ∈ st_quiesced s /\ qe_owner e <> file) /\
    forall q, held (st_trace s') (RQuiesce q) =
      held (st_trace s) (RQuiesce q)
      - sumZ (fun e => ind (full_on q e)) (filter (fun e => (qe_owner e =? file) = true) (st_quiesced s))) s.
Proof.
  intros Hi Hb. eapply wp_mono; [by apply (release_quiesced_balanced [])|].
  intros _ s' (Hb' & _ & Hl). split.
  - intros e. rewrite Hl, list_elem_of_filter, Z.eqb_neq. tauto.
  - intros q. rewrite (Hb' (RQuiesce q)), (Hb (RQuiesce q)), !owned_depth, Hl.
    pose proof (sumZ_filter_split (fun e => ind (full_on q e)) (fun e => qe_owner e =? file)
      (st_quiesced s)) as Hsp. cbv beta in Hsp. lia.
Qed.
End Quiesce.

Definition ns_req (qid : Z) : rocm_xio_quiesce_ns_req := {| qn_bdev_fd := 5; qn_qid := qid |}.

Lemma quiesce_inv_state0 `{K : Kernel} : quiesce_inv state0.
Proof. split; constructor. Qed.

Lemma balanced_state0 `{K : Kernel} : balanced [] state0.
Proof. done. Qed.

Lemma quiesce_depth_tracked_witness :
  let s1 := snd (ioctl_quiesce_ns (K := demo_kernel) 42 (Some (ns_req 0)) state0) in
  length (st_quiesced s1) = 1%nat /\
  held (st_trace s1) (RQuiesce ns_queue) = 0 + sumZ (fun e => ind (full_on (K := demo_kernel) ns_queue e)) (st_quiesced s1).
Proof.
  intros s1. split; [by vm_compute|].
  apply (quiesce_depth_tracked (K := demo_kernel) [] state0 s1);
    [apply balanced_state0|apply quiesce_inv_state0|apply rtc_once, step_quiesce].
Defined.

Lemma quiesce_unquiesce_roundtrip_witness :
  let s1 := snd (ioctl_quiesce_ns (K := demo_kernel) 42 (Some (ns_req 2)) state0) in
  fst (ioctl_unquiesce_ns (K := demo_kernel) 42 (Some (ns_req 2)) s1) = 0 /\
  wp (ioctl_quiesce_ns (K := demo_kernel) 42 (Some (ns_req 2))) (fun rc s' =>
    st_quiesced s' <> [] -> req_bd (K := demo_kernel) (ns_req 2) s' = 450 -> rc = 0) state0.
Proof.
  intros s1. split; [by vm_compute|].
  eapply wp_mono; [apply (quiesce_unquiesce_roundtrip (K := demo_kernel) 42 (ns_req 2) state0);
    constructor|].
  intros rc s' H H1 H2. by apply H.
Defined.

Lemma release_resumes_own_witness :
  let s1 := snd (ioctl_quiesce_ns (K := demo_kernel) 42 (Some (ns_req 0)) state0) in
  held (st_trace s1) (RQuiesce ns_queue) = 1 /\
  wp (release_quiesced (K := demo_kernel) 42) (fun _ s' =>
    held (st_trace s') (RQuiesce ns_queue) = held (st_trace s1) (RQuiesce ns_queue) - 1) s1.
Proof.
  intros s1. split; [by vm_compute|].
  assert (balanced (K := demo_kernel) [] s1 /\ quiesce_inv (K := demo_kernel) s1) as [Hb Hi].
  { apply (quiesce_step_inv [] state0); [apply step_quiesce|split; [done|apply quiesce_inv_state0]]. }
  eapply wp_mono; [apply (release_resumes_own (K := demo_kernel) 42 s1 Hi Hb)|].
  intros _ s' [_ H]. exact (H ns_queue).
Defined.

(** A stopped hardware queue is one bit, not a count.  Two files stop the
    same hardware queue; when one of them unquiesces, the queue runs again
    although the other file's entry is still recorded as holding it
    stopped. *)
Theorem hctx_stop_not_counted :
  let quiesce file s := snd (ioctl_quiesce_ns (K := demo_kernel) file (Some (ns_req 2)) s) in
  let s2 := quiesce 43 (quiesce 42 state0) in
  let s3 := snd (ioctl_unquiesce_ns (K := demo_kernel) 43 (Some (ns_req 2)) s2) in
  let hctx := k_hctx (Kernel := demo_kernel) ns_queue 1 in
  hw_stopped (st_trace s2) hctx = true /\
  map qe_owner (st_quiesced s3) = [42] /\ map qe_hctx_idx (st_quiesced s3) = [1] /\
  hw_stopped (st_trace s3) hctx = false.
Proof. by vm_compute. Qed.

(** UNQUIESCE_NS resumes the hardware queue after it has dropped the lock
    that protects the list.  If another thread of the same file stops the
    queue again in between, the late resume restarts a queue whose new entry
    says it is stopped. *)
Theorem unquiesce_resume_race :
  exists e s1 s2,
    unquiesce_remove 42 450 QUIESCED_NS_MODE_HCTX 1
      (snd (ioctl_quiesce_ns (K := demo_kernel) 42 (Some (ns_req 2)) state0)) = (Some e, s1) /\
    ioctl_quiesce_ns (K := demo_kernel) 42 (Some (ns_req 2)) s1 = (0, s2) /\
    hw_stopped (st_trace s2) (k_hctx (Kernel := demo_kernel) ns_queue 1) = true /\
    let s3 := snd (unquiesce_resume (K := demo_kernel) 305 e s2) in
    length (st_quiesced s3) = 1%nat /\
    hw_stopped (st_trace s3) (k_hctx (Kernel := demo_kernel) ns_queue 1) = false.
Proof. eexists _, _, _. split; [vm_compute; done|]. split; [vm_compute; done|]. by vm_compute. Qed.
