(* ===== verification/Snapshot.v ===== *)
(** * Snapshots of the driver's NVMe queues

    The lists [nvme_queue_snapshots] and [pending_snapshots] of
    [src/kernel/rocm-xio/rocm-xio.c]: the kretprobe handlers on
    [nvme_alloc_queue] and [nvme_create_queue] that capture a queue's
    parameters in atomic context, the worker [rocm_xio_snapshot_work_fn] that
    resolves the PCI device and stores them, and the store, lookup and
    clean-up of snapshots.  The store is related to the map from (device,
    queue id) to parameters that it implements. *)

From S2P Require Import Prelude Uapi Kernel State Demo.

(** ** Layout of the mirror of [struct nvme_queue]

    Size and alignment of each field on a 64-bit build without lock
    debugging; [cq_poll_lock] starts a cache line. *)

Definition nvmeq_fields : list (Z * Z) :=
  [(8, 8);   (* dev *)
   (8, 8);   (* descriptor_pool_large *)
   (8, 8);   (* descriptor_pool_small *)
   (4, 4);   (* sq_lock *)
   (8, 8);   (* sq_cmds *)
   (4, 64);  (* cq_poll_lock, cache-line aligned *)
   (8, 8);   (* cqes *)
   (8, 8);   (* sq_dma_addr *)
   (8, 8);   (* cq_dma_addr *)
   (8, 8);   (* q_db *)
   (4, 4);   (* q_depth *)
   (2, 2);   (* cq_vector *)
   (2, 2);   (* sq_tail *)
   (2, 2);   (* last_sq_tail *)
   (2, 2);   (* cq_head *)
   (2, 2);   (* qid *)
   (1, 1);   (* cq_phase *)
   (1, 1);   (* sqes *)
   (8, 8)].  (* flags *)

Fixpoint offsets_aligned (off : Z) (fields : list (Z * Z)) : list Z :=
  match fields with
  | [] => []
  | (sz, al) :: rest => let o := align_up off al in o :: offsets_aligned (o + sz) rest
  end.

Fixpoint end_aligned (off : Z) (fields : list (Z * Z)) : Z :=
  match fields with
  | [] => off
  | (sz, al) :: rest => end_aligned (align_up off al + sz) rest
  end.

Definition sizeof_nvmeq_layout : Z :=
  align_up (end_aligned 0 nvmeq_fields) (foldr Z.max 1 (map snd nvmeq_fields)).

(** ** Machine registers at a probe *)

Record pt_regs := { rg_di : Z; rg_si : Z; rg_dx : Z; rg_ax : Z }.

(** [(int)x] of a 64-bit register. *)
Definition to_int (x : Z) : Z :=
  let w := u32 x in if w <? 2147483648 then w else w - 4294967296.

Definition test_bit (n flags : Z) : bool := Z.testbit flags n.

Section Snapshot.
Context `{K : Kernel}.
Variable cfg : build_config.

(** ** Kretprobe handlers *)

Definition nvme_alloc_queue_entry_handler (regs : pt_regs) : rocm_xio_alloc_queue_ctx :=
  if cfg_x86_64 cfg then
    {| cx_nvme_dev := rg_di regs; cx_nvmeq := NULL; cx_qid := to_int (rg_si regs) |}
  else {| cx_nvme_dev := NULL; cx_nvmeq := NULL; cx_qid := -1 |}.

Definition nvme_create_queue_entry_handler (regs : pt_regs) : rocm_xio_alloc_queue_ctx :=
  if cfg_x86_64 cfg then
    {| cx_nvme_dev := NULL; cx_nvmeq := rg_di regs; cx_qid := to_int (rg_si regs) |}
  else {| cx_nvme_dev := NULL; cx_nvmeq := NULL; cx_qid := -1 |}.

(** Distance between two elements of [dev->queues]. *)
Definition kernel_nvmeq_stride : Z :=
  if cfg_linux_6_8_to_6_10 cfg then 192 else sizeof_nvmeq_layout.

(** The entry filled in from a live queue. *)
Definition capture (pend nvme_dev : ptr) (qid : Z) (nvmeq : rocm_xio_nvmeq_layout) (admin_q : ptr)
    : pending_snapshot_entry :=
  {| ps_self := pend; ps_nvme_dev := nvme_dev; ps_qid := u16 qid;
     ps_sq_dma_addr := nq_sq_dma_addr nvmeq; ps_cq_dma_addr := nq_cq_dma_addr nvmeq;
     ps_q_depth := nq_q_depth nvmeq; ps_cq_vector := nq_cq_vector nvmeq;
     ps_polled := test_bit ROCM_XIO_NVMEQ_POLLED (nq_flags nvmeq);
     ps_admin_q := admin_q |}.

(** [admin_q] is read from the device only on the verified kernels. *)
Definition captured_admin_q (mem : nvme_memory) (nvme_dev : ptr) : ptr :=
  if cfg_linux_6_8_to_6_10 cfg then nm_admin_q mem nvme_dev else NULL.

Definition queue_capture (nvme_dev : ptr) (qid : Z) (nvmeq_addr : ptr) : X Z :=
  let* mem := gets st_nvme in
  let* m := kmalloc in
  match m with
  | None => ret 0
  | Some (pend, _) =>
    modify (set_pending (cons
      (capture pend nvme_dev qid (nm_nvmeq mem nvmeq_addr) (captured_admin_q mem nvme_dev)))) ;;;
    log EvSchedSnapshot ;;;
    ret 0
  end.

Definition nvme_alloc_queue_ret_handler (ctx : rocm_xio_alloc_queue_ctx) (regs : pt_regs) : X Z :=
  if negb (cfg_x86_64 cfg) then ret 0
  else if negb (rg_ax regs =? 0) then ret 0
  else if is_null (cx_nvme_dev ctx) || (cx_qid ctx <? 0) then ret 0
  else
    let* queues := gets (fun s => dl_queues (nm_dev (st_nvme s) (cx_nvme_dev ctx))) in
    if is_null queues then ret 0
    else queue_capture (cx_nvme_dev ctx) (cx_qid ctx)
           (u64 (queues + cx_qid ctx * kernel_nvmeq_stride)).

Definition nvme_create_queue_ret_handler (ctx : rocm_xio_alloc_queue_ctx) (regs : pt_regs) : X Z :=
  if negb (cfg_x86_64 cfg) then ret 0
  else if negb (rg_ax regs =? 0) then ret 0
  else if is_null (cx_nvmeq ctx) || (cx_qid ctx <? 0) then ret 0
  else
    let* nvme_dev_ptr := gets (fun s => nq_dev (nm_nvmeq (st_nvme s) (cx_nvmeq ctx))) in
    queue_capture nvme_dev_ptr (cx_qid ctx) (cx_nvmeq ctx).

(** ** The store *)

Definition snapshot_at (pdev : ptr) (qid : Z) (e : nvme_queue_snapshot) : bool :=
  (sn_pdev e =? pdev) && (sn_qid e =? qid).

(** The existing entry's parameters overwritten in place. *)
Definition snapshot_update (sq_dma cq_dma depth cq_vector : Z) (polled : bool)
    (admin_q nvme_dev : ptr) (e : nvme_queue_snapshot) : nvme_queue_snapshot :=
  {| sn_self := sn_self e; sn_pdev := sn_pdev e; sn_qid := sn_qid e;
     sn_sq_dma_addr := sq_dma; sn_cq_dma_addr := cq_dma; sn_q_depth := depth;
     sn_cq_vector := cq_vector; sn_polled := polled; sn_admin_q := admin_q; sn_dev := nvme_dev |}.

Definition nvme_queue_snapshot_store (pdev : ptr) (qid sq_dma cq_dma depth cq_vector : Z)
    (polled : bool) (admin_q nvme_dev : ptr) : X unit :=
  let* m := kmalloc in
  match m with
  | None => ret tt
  | Some (snap, _) =>
    log (EvPciGet pdev) ;;;
    let* l := gets st_snapshots in
    match find_first (snapshot_at pdev qid) l with
    | Some existing =>
      modify (set_snapshots (update_first (snapshot_at pdev qid)
        (snapshot_update sq_dma cq_dma depth cq_vector polled admin_q nvme_dev))) ;;;
      pci_dev_put pdev ;;;
      kfree snap
    | None =>
      modify (set_snapshots (cons
        {| sn_self := snap; sn_pdev := pdev; sn_qid := qid; sn_sq_dma_addr := sq_dma;
           sn_cq_dma_addr := cq_dma; sn_q_depth := depth; sn_cq_vector := cq_vector;
           sn_polled := polled; sn_admin_q := admin_q; sn_dev := nvme_dev |}))
    end
  end.

(** A copy of the entry, found by first match; the reference stays with the
    list. *)
Definition nvme_queue_snapshot_lookup (pdev : ptr) (qid : Z) (l : list nvme_queue_snapshot)
    : option nvme_queue_snapshot :=
  find_first (snapshot_at pdev qid) l.

Definition drop_snapshot (e : nvme_queue_snapshot) : X unit :=
  pci_dev_put (sn_pdev e) ;;; kfree (sn_self e).

Definition nvme_queue_snapshots_free_all : X unit :=
  let* l := gets st_snapshots in
  modify (set_snapshots (fun _ => [])) ;;;
  iterM drop_snapshot (reverse l).

(** ** The worker *)

(** [for_each_pci_dev] up to the first match: advancing takes a reference on
    the next device and drops the one on the previous; a [break] keeps the
    reference on the device found. *)
Fixpoint pci_walk (nvme_dev : ptr) (prev : option ptr) (devs : list ptr) : X (option ptr) :=
  let put_prev := match prev with Some d => pci_dev_put d | None => ret tt end in
  match devs with
  | [] => put_prev ;;; ret None
  | iter :: rest =>
    log (EvPciGet iter) ;;;
    put_prev ;;;
    let* has_driver := ask (fun tr => k_pci_has_driver tr iter) in
    let* drvdata := ask (fun tr => k_pci_get_drvdata tr iter) in
    if has_driver && (drvdata =? nvme_dev) then ret (Some iter)
    else pci_walk nvme_dev (Some iter) rest
  end.

Definition snapshot_work_one (entry : pending_snapshot_entry) : X unit :=
  let* devs := ask k_pci_devices in
  let* found := pci_walk (ps_nvme_dev entry) None devs in
  match found with
  | Some pdev =>
    nvme_queue_snapshot_store pdev (ps_qid entry) (ps_sq_dma_addr entry) (ps_cq_dma_addr entry)
      (ps_q_depth entry) (ps_cq_vector entry) (ps_polled entry) (ps_admin_q entry)
      (ps_nvme_dev entry) ;;;
    pci_dev_put pdev
  | None => ret tt
  end ;;;
  kfree (ps_self entry).

Definition rocm_xio_snapshot_work_fn : X unit :=
  let* local := gets st_pending in
  modify (set_pending (fun _ => [])) ;;;
  iterM snapshot_work_one local.

(** The block of [rocm_xio_exit] that drains what was never processed. *)
Definition exit_pending : X unit :=
  let* l := gets st_pending in
  modify (set_pending (fun _ => [])) ;;;
  iterM (fun e => kfree (ps_self e)) l.

(** ** Invariant: one snapshot per (device, queue id) *)

Definition sn_key (e : nvme_queue_snapshot) : ptr * Z := (sn_pdev e, sn_qid e).

Definition snapshots_unique (s : xio_state) : Prop := NoDup (map sn_key (st_snapshots s)).

(** ** The map the list implements *)

(** The parameters a snapshot records, without its own address. *)
Definition sn_params (e : nvme_queue_snapshot) :=
  (sn_sq_dma_addr e, sn_cq_dma_addr e, sn_q_depth e, sn_cq_vector e, sn_polled e,
   sn_admin_q e, sn_dev e).

Definition snap_map (l : list nvme_queue_snapshot) (k : ptr * Z) :=
  sn_params <$> nvme_queue_snapshot_lookup (fst k) (snd k) l.

(** ** Lemmas *)

Lemma snapshot_at_key pdev qid e : snapshot_at pdev qid e = true <-> sn_key e = (pdev, qid).
Proof.
  unfold snapshot_at, sn_key. rewrite andb_true_iff, !Z.eqb_eq.
  split; [by intros [-> ->]|by intros [= -> ->]].
Qed.

Lemma snapshot_at_key_false pdev qid e : snapshot_at pdev qid e = false <-> sn_key e <> (pdev, qid).
Proof. rewrite <- snapshot_at_key. destruct (snapshot_at pdev qid e); naive_solver. Qed.

Lemma snapshot_absent pdev qid l :
  find_first (snapshot_at pdev qid) l = None -> (pdev, qid) ∉ map sn_key l.
Proof.
  rewrite find_first_None. intros H (e & E & He)%list_elem_of_fmap.
  specialize (H e He). rewrite (proj2 (snapshot_at_key pdev qid e)) in H; done.
Qed.

Lemma snap_map_cons e l k :
  snap_map (e :: l) k = if bool_decide (sn_key e = k) then Some (sn_params e) else snap_map l k.
Proof.
  destruct k as [pdev qid]. unfold snap_map, nvme_queue_snapshot_lookup. cbn [find_first fst snd].
  case_bool_decide as Hk.
  - by rewrite (proj2 (snapshot_at_key _ _ _) Hk).
  - by rewrite (proj2 (snapshot_at_key_false _ _ _) Hk).
Qed.

Lemma snap_map_update sq cq d v p a n l pdev qid k e :
  find_first (snapshot_at pdev qid) l = Some e ->
  snap_map (update_first (snapshot_at pdev qid) (snapshot_update sq cq d v p a n) l) k =
    if bool_decide ((pdev, qid) = k) then Some (sq, cq, d, v, p, a, n) else snap_map l k.
Proof.
  induction l as [|x l IH]; [done|]. cbn [find_first update_first].
  destruct (snapshot_at pdev qid x) eqn:Hx.
  - intros _. rewrite !snap_map_cons. apply snapshot_at_key in Hx.
    change (sn_key (snapshot_update sq cq d v p a n x)) with (sn_key x). rewrite Hx.
    by case_bool_decide.
  - intros Hf. rewrite !snap_map_cons, (IH Hf). apply snapshot_at_key_false in Hx.
    repeat case_bool_decide; congruence.
Qed.

(** Everything a store does. *)
Lemma snapshot_store_core pdev qid sq cq d v p a n s :
  wp (nvme_queue_snapshot_store pdev qid sq cq d v p a n) (fun _ s' => exists l' tr,
    s' = set_snapshots (fun _ => l') (set_trace (fun _ => tr) s) /\
    (forall r, slack s' r = slack s r) /\
    (NoDup (map sn_key (st_snapshots s)) -> NoDup (map sn_key l')) /\
    ((k_kmalloc (st_trace s) = None /\ l' = st_snapshots s) \/
     (k_kmalloc (st_trace s) <> None /\
      forall k, snap_map l' k = if bool_decide ((pdev, qid) = k)
                                then Some (sq, cq, d, v, p, a, n)
                                else snap_map (st_snapshots s) k))) s.
Proof.
  unfold nvme_queue_snapshot_store. apply wp_bind, wp_kmalloc.
  - intros snap g Hk. apply wp_bind, wp_log, wp_bind, wp_gets. proj.
    destruct (find_first _ _) as [e|] eqn:E; xwp.
    + eexists (update_first (snapshot_at pdev qid) (snapshot_update sq cq d v p a n)
        (st_snapshots s)), _. split; [reflexivity|split; [|split]].
      * intros r. unfold slack. autorewrite with books. proj.
        rewrite (sumZ_update_first (fun e => own_snapshot e r)) by done. ledger_close.
      * intros H. by rewrite (map_update_first sn_key) by done.
      * right. split; [congruence|]. intros k. by eapply snap_map_update.
    + eexists ({| sn_self := snap |} :: st_snapshots s), _.
      split; [reflexivity|split; [|split]].
      * intros r. unfold slack. ledger_close.
      * intros H. cbn [map]. apply list_relations.list.NoDup_cons. split; [|done].
        by apply snapshot_absent.
      * right. split; [congruence|]. intros k. by rewrite snap_map_cons.
  - intros Hk. apply wp_ret. exists (st_snapshots s), (EvFail FKmalloc :: st_trace s).
    split; [by destruct s|split; [|split]].
    + intros r. unfold slack. ledger_close.
    + done.
    + by left.
Qed.

(** The bus walk ends with a reference on the device it found and on no
    other. *)
Lemma pci_walk_core nvme_dev devs : forall prev s,
  wp (pci_walk nvme_dev prev devs) (fun found s' => exists tr,
    s' = set_trace (fun _ => tr) s /\
    (forall d, found = Some d -> d ∈ devs) /\
    forall r, held tr r = held (st_trace s) r
      - match prev with Some d => unit_of (RPci d) r | None => 0 end
      + match found with Some d => unit_of (RPci d) r | None => 0 end) s.
Proof.
  induction devs as [|d devs IH]; intros prev s; cbn [pci_walk].
  - apply wp_bind. destruct prev as [p|]; xwp.
    + eexists. split_and!; [reflexivity|done|]. intros r. proj. ledger_close.
    + exists (st_trace s). split_and!; [by destruct s|done|]. intros. lia.
  - apply wp_bind, wp_log, wp_bind.
    eapply (wp_mono _ (fun _ s' => exists tr, s' = set_trace (fun _ => tr) s /\
      forall r, held tr r = held (st_trace s) r + unit_of (RPci d) r
        - match prev with Some d => unit_of (RPci d) r | None => 0 end)).
    { destruct prev; xwp; eexists; (split; [reflexivity|]); intros r; proj; ledger_close. }
    intros _ s1 (tr & -> & Htr). apply wp_bind, wp_ask, wp_bind, wp_ask. destruct (_ && _).
    + apply wp_ret. exists tr. split_and!; [done|by intros ? [= ->]; left|].
      intros r. rewrite Htr. lia.
    + eapply wp_mono; [apply IH|]. intros f s' (tr2 & -> & Hin & Htr2).
      exists tr2. split_and!; [done|intros; right; auto|].
      intros r. rewrite Htr2. proj. rewrite Htr. lia.
Qed.

Lemma snapshot_work_one_core entry s :
  wp (snapshot_work_one entry) (fun _ s' => exists l' tr,
    s' = set_snapshots (fun _ => l') (set_trace (fun _ => tr) s) /\
    (forall r, slack s' r = slack s r - unit_of (RMem (ps_self entry)) r) /\
    (NoDup (map sn_key (st_snapshots s)) -> NoDup (map sn_key l'))) s.
Proof.
  unfold snapshot_work_one. apply wp_bind, wp_ask, wp_bind.
  eapply wp_mono; [apply pci_walk_core|]. intros found s1 (tr & -> & _ & Htr). apply wp_bind.
  destruct found as [pdev|].
  - apply wp_bind. eapply wp_mono; [apply snapshot_store_core|].
    intros _ s2 (l' & tr2 & -> & Hsl & Hnd & _). xwp. eexists l', _.
    split; [reflexivity|split; [|done]]. intros r. specialize (Hsl r). specialize (Htr r).
    revert Hsl. unfold slack. autorewrite with books. proj. intros. ledger_close.
  - xwp. exists (st_snapshots s). exists (EvKfree (ps_self entry) :: tr). split; [reflexivity|split; [|done]].
    intros r. specialize (Htr r). unfold slack. ledger_close.
Qed.

Lemma snapshot_work_balanced tr0 s :
  balanced tr0 s -> snapshots_unique s ->
  wp rocm_xio_snapshot_work_fn (fun _ s' =>
    balanced tr0 s' /\ snapshots_unique s' /\ st_pending s' = []) s.
Proof.
  intros Hb Hu. unfold rocm_xio_snapshot_work_fn. apply wp_bind, wp_gets, wp_bind, wp_modify.
  eapply wp_mono; [apply (wp_iterM _ (fun l s' =>
    (forall r, slack s' r = held tr0 r + sumZ (fun e => own_pending e r) l) /\
    snapshots_unique s' /\ st_pending s' = []))|].
  - split; [|done]. intros r. rewrite balanced_slack in Hb. specialize (Hb r). unfold slack in *.
    ledger_close.
  - intros e l s1 (Hs & Hu1 & Hp). eapply wp_mono; [apply snapshot_work_one_core|].
    intros _ s2 (l' & tr & Es & Hsl & Hnd). split; [|split].
    + intros r. rewrite Hsl, Hs. cbn [sumZ]. unfold own_pending. lia.
    + subst s2. by apply Hnd.
    + by subst s2.
  - intros _ s1 (Hs & Hu1 & Hp). split; [|done]. apply balanced_slack. intros r. rewrite Hs. cbn. lia.
Qed.

Lemma queue_capture_balanced tr0 dev qid addr s :
  balanced tr0 s -> wp (queue_capture dev qid addr) (fun _ s' => balanced tr0 s') s.
Proof. intros H. unfold queue_capture, capture. xwp; ledger. Qed.

Lemma alloc_queue_ret_balanced tr0 ctx regs s :
  balanced tr0 s -> wp (nvme_alloc_queue_ret_handler ctx regs) (fun _ s' => balanced tr0 s') s.
Proof.
  intros H. unfold nvme_alloc_queue_ret_handler. xwp; try exact H. by apply queue_capture_balanced.
Qed.

Lemma create_queue_ret_balanced tr0 ctx regs s :
  balanced tr0 s -> wp (nvme_create_queue_ret_handler ctx regs) (fun _ s' => balanced tr0 s') s.
Proof.
  intros H. unfold nvme_create_queue_ret_handler. xwp; try exact H. by apply queue_capture_balanced.
Qed.

Lemma exit_pending_balanced tr0 s :
  balanced tr0 s -> wp exit_pending (fun _ s' => balanced tr0 s' /\ st_pending s' = []) s.
Proof.
  intros H. unfold exit_pending. xwp.
  eapply wp_releases; [apply (releases_iter _ own_pending); intros e _;
    eapply releases_ext; [|apply releases_log]; intros r; cbn [delta effect]; unfold own_pending; lia|].
  intros tr Htr. split; [|done]. ledger_open rs. specialize (Htr rs). revert Htr. proj.
  intros. ledger_close.
Qed.

Lemma snapshots_free_all_balanced tr0 s :
  balanced tr0 s ->
  wp nvme_queue_snapshots_free_all (fun _ s' => balanced tr0 s' /\ st_snapshots s' = []) s.
Proof.
  intros H. unfold nvme_queue_snapshots_free_all. xwp.
  eapply wp_releases; [apply (releases_iter _ own_snapshot); intros e _;
    eapply releases_ext; [|apply releases_bind; apply releases_log];
    intros r; cbn [delta effect]; unfold own_snapshot; lia|].
  intros tr Htr. split; [|done]. ledger_open rs. specialize (Htr rs). revert Htr. proj.
  rewrite sumZ_reverse. intros. ledger_close.
Qed.

(** *** Sequences of captures, worker runs and stores *)

Inductive snapshot_step : xio_state -> xio_state -> Prop :=
| step_alloc_ret ctx regs s : snapshot_step s (snd (nvme_alloc_queue_ret_handler ctx regs s))
| step_create_ret ctx regs s : snapshot_step s (snd (nvme_create_queue_ret_handler ctx regs s))
| step_work s : snapshot_step s (snd (rocm_xio_snapshot_work_fn s))
| step_driver mem s : snapshot_step s (set_nvme (fun _ => mem) s).

Lemma capture_snapshots dev qid addr s :
  st_snapshots (snd (queue_capture dev qid addr s)) = st_snapshots s.
Proof.
  unfold queue_capture, kmalloc, bind, ask, gets.
  by destruct (k_kmalloc (st_trace s)) as [[]|].
Qed.

Lemma snapshot_step_inv tr0 s s' :
  snapshot_step s s' -> balanced tr0 s /\ snapshots_unique s ->
  balanced tr0 s' /\ snapshots_unique s'.
Proof.
  intros [] [Hb Hu].
  - split; [by apply wp_snd, alloc_queue_ret_balanced|]. unfold snapshots_unique.
    unfold nvme_alloc_queue_ret_handler, bind, gets. repeat (destruct (_ : bool); [done|]).
    by rewrite capture_snapshots.
  - split; [by apply wp_snd, create_queue_ret_balanced|]. unfold snapshots_unique.
    unfold nvme_create_queue_ret_handler, bind, gets. repeat (destruct (_ : bool); [done|]).
    by rewrite capture_snapshots.
  - apply (wp_snd _ (fun s => balanced tr0 s /\ snapshots_unique s)).
    eapply wp_mono; [by apply snapshot_work_balanced|]. by intros _ ? (? & ? & _).
  - done.
Qed.

Lemma snapshot_reach_inv tr0 s s' :
  rtc snapshot_step s s' -> balanced tr0 s /\ snapshots_unique s ->
  balanced tr0 s' /\ snapshots_unique s'.
Proof. induction 1; eauto using snapshot_step_inv. Qed.

(** ** Theorems *)

(** Storing a snapshot is an update of the map from (device, queue id) to
    parameters: when memory is available, a lookup of the stored key returns
    exactly the parameters given, whether the key was new or already there,
    every other key looks up as before, and the device reference count
    changes only when a new entry is created. *)
Theorem snapshot_store_refines_map pdev qid sq cq d v p a n s :
  k_kmalloc (st_trace s) <> None ->
  wp (nvme_queue_snapshot_store pdev qid sq cq d v p a n) (fun _ s' =>
    (forall k, snap_map (st_snapshots s') k =
       if bool_decide ((pdev, qid) = k) then Some (sq, cq, d, v, p, a, n)
       else snap_map (st_snapshots s) k) /\
    forall r, held (st_trace s') r - held (st_trace s) r = owned s' r - owned s r) s.
Proof.
  intros Hk. eapply wp_mono; [apply snapshot_store_core|].
  intros _ s' (l' & tr & Es & Hsl & _ & [[? _]|[_ Hm]]); [done|]. split.
  - subst s'. exact Hm.
  - intros r. specialize (Hsl r). unfold slack in Hsl. lia.
Qed.

(** The capture pipeline leaks nothing and keeps one snapshot per queue.
    After any sequence of kretprobe captures, worker runs and driver
    activity, with any allocation failing and any device missing from the
    bus walk, every reference taken is accounted for by a table entry and no
    (device, queue id) has two snapshots. *)
Theorem snapshot_pipeline_safe tr0 s0 s :
  balanced tr0 s0 -> snapshots_unique s0 -> rtc snapshot_step s0 s ->
  NoDup (map sn_key (st_snapshots s)) /\
  forall r, held (st_trace s) r = held tr0 r + owned s r.
Proof.
  intros Hb Hu Hr. destruct (snapshot_reach_inv tr0 _ _ Hr (conj Hb Hu)) as [Hb' Hu'].
  by split.
Qed.

(** What the probe on nvme_alloc_queue captures: when the call succeeded,
    the arguments are a device with a queue array and a non-negative id, and
    memory is available, one entry is queued with the parameters of element
    [qid] of that array as they are in driver memory, and the worker is
    scheduled. *)
Theorem alloc_queue_capture_faithful regs0 regs s p g :
  cfg_x86_64 cfg = true ->
  rg_di regs0 <> NULL -> 0 <= rg_si regs0 < 65536 -> rg_ax regs = 0 ->
  dl_queues (nm_dev (st_nvme s) (rg_di regs0)) <> NULL ->
  k_kmalloc (st_trace s) = Some (p, g) ->
  let s' := snd (nvme_alloc_queue_ret_handler (nvme_alloc_queue_entry_handler regs0) regs s) in
  let q := nm_nvmeq (st_nvme s)
    (u64 (dl_queues (nm_dev (st_nvme s) (rg_di regs0)) + rg_si regs0 * kernel_nvmeq_stride)) in
  st_trace s' = EvSchedSnapshot :: EvKmalloc p :: st_trace s /\
  exists e, st_pending s' = e :: st_pending s /\
    ps_nvme_dev e = rg_di regs0 /\ ps_qid e = rg_si regs0 /\
    ps_sq_dma_addr e = nq_sq_dma_addr q /\ ps_cq_dma_addr e = nq_cq_dma_addr q /\
    ps_q_depth e = nq_q_depth q /\ ps_cq_vector e = nq_cq_vector q /\
    ps_polled e = Z.testbit (nq_flags q) 3.
Proof.
  intros Hx Hd Hq Ha Hn Hk. unfold nvme_alloc_queue_ret_handler, nvme_alloc_queue_entry_handler.
  rewrite Hx. cbn [negb cx_nvme_dev cx_qid]. rewrite Ha, (proj2 (Z.eqb_neq _ _) Hd). cbn [negb orb].
  assert (to_int (rg_si regs0) = rg_si regs0) as ->.
  { unfold to_int. rewrite u32_small by lia. by rewrite (proj2 (Z.ltb_lt _ _)) by lia. }
  rewrite (proj2 (Z.ltb_ge _ _)) by lia. change (negb (0 =? 0)) with false.
  unfold queue_capture, kmalloc, bind, ask, gets. cbv beta iota zeta.
  rewrite (proj2 (Z.eqb_neq _ _) Hn), Hk.
  split; [done|]. eexists. split; [done|]. unfold capture. cbn. by rewrite u16_small by lia.
Qed.
End Snapshot.

(** The mirror satisfies the source's static assertion
    ([sq_dma_addr] at offset 80) and is 128 bytes long; that size, not the
    192 bytes used on the verified kernels, is the array stride everywhere
    else, so there element [qid] is looked for at a different address for
    every queue but the admin queue. *)
Theorem nvmeq_mirror_layout :
  offsets_aligned 0 nvmeq_fields !! 7%nat = Some 80 /\
  sizeof_nvmeq_layout = 128 /\
  (forall x, kernel_nvmeq_stride {| cfg_x86_64 := x; cfg_linux_6_8_to_6_10 := true |} = 192) /\
  (forall x, kernel_nvmeq_stride {| cfg_x86_64 := x; cfg_linux_6_8_to_6_10 := false |} = 128).
Proof. split_and!; by vm_compute. Qed.

Definition cfg_demo : build_config := {| cfg_x86_64 := true; cfg_linux_6_8_to_6_10 := true |}.

(** Driver memory with one device at 9000 whose queue array is at 20000;
    every queue reads with the given interrupt vector. *)
Definition driver_mem (vector : Z) : nvme_memory :=
  {| nm_nvmeq := fun _ =>
       {| nq_dev := 9000; nq_cqes := 30000; nq_sq_dma_addr := 4096; nq_cq_dma_addr := 8192;
          nq_q_depth := 64; nq_cq_vector := vector; nq_sq_tail := 7; nq_last_sq_tail := 7;
          nq_cq_head := 5; nq_qid := 1; nq_cq_phase := 0; nq_flags := 1 |};
     nm_dev := fun d => {| dl_queues := if d =? 9000 then 20000 else NULL |};
     nm_admin_q := fun _ => 9500 |}.

Definition alloc_regs : pt_regs := {| rg_di := 9000; rg_si := 1; rg_dx := 64; rg_ax := 0 |}.
Definition create_regs : pt_regs := {| rg_di := 20192; rg_si := 1; rg_dx := 0; rg_ax := 0 |}.

Definition alloc_hook : X Z :=
  nvme_alloc_queue_ret_handler (K := demo_kernel) cfg_demo
    (nvme_alloc_queue_entry_handler cfg_demo alloc_regs) alloc_regs.
Definition create_hook : X Z :=
  nvme_create_queue_ret_handler (K := demo_kernel) cfg_demo
    (nvme_create_queue_entry_handler cfg_demo create_regs) create_regs.

Lemma snapshot_store_refines_map_witness :
  wp (nvme_queue_snapshot_store (K := demo_kernel) nvme_dev 1 4096 8192 64 3 false 9500 9000)
    (fun _ s' => snap_map (st_snapshots s') (nvme_dev, 1) = Some (4096, 8192, 64, 3, false, 9500, 9000))
    state0.
Proof.
  eapply wp_mono; [apply (snapshot_store_refines_map (K := demo_kernel)); done|].
  intros _ s' [H _]. rewrite H. by rewrite bool_decide_eq_true_2.
Defined.

Lemma snapshot_pipeline_safe_witness :
  let s1 := set_nvme (fun _ => driver_mem 3) state0 in
  let s2 := snd (rocm_xio_snapshot_work_fn (K := demo_kernel) (snd (alloc_hook s1))) in
  length (st_snapshots s2) = 1%nat /\ NoDup (map sn_key (st_snapshots s2)).
Proof.
  intros s1 s2. split; [by vm_compute|].
  apply (snapshot_pipeline_safe (K := demo_kernel) cfg_demo [] s1 s2).
  - done.
  - constructor.
  - eapply rtc_l; [apply step_alloc_ret|]. apply rtc_once, step_work.
Defined.

Lemma alloc_queue_capture_faithful_witness :
  let s1 := set_nvme (fun _ => driver_mem 3) state0 in
  exists e, st_pending (snd (alloc_hook s1)) = [e] /\ ps_cq_vector e = 3 /\ ps_qid e = 1.
Proof.
  intros s1.
  destruct (alloc_queue_capture_faithful (K := demo_kernel) cfg_demo alloc_regs alloc_regs s1 4096 0)
    as (_ & e & H1 & _ & H2 & _ & _ & _ & H3 & _); [done..|].
  exists e. split_and!; [exact H1|exact H3|exact H2].
Defined.

(** Captures are stored newest first, so the oldest one wins.  The driver
    allocates a queue (captured with interrupt vector 0) and then creates it
    with vector 3 (captured again); when both captures are pending, the
    worker stores the second and overwrites it with the first, and the
    snapshot that a later resurrection would use has the stale vector 0. *)
Theorem snapshot_stale_capture_wins :
  let s1 := snd (alloc_hook (set_nvme (fun _ => driver_mem 0) state0)) in
  let s2 := snd (create_hook (set_nvme (fun _ => driver_mem 3) s1)) in
  let s3 := snd (rocm_xio_snapshot_work_fn (K := demo_kernel) s2) in
  map ps_cq_vector (st_pending s2) = [3; 0] /\
  sn_cq_vector <$> nvme_queue_snapshot_lookup nvme_dev 1 (st_snapshots s3) = Some 0.
Proof. by vm_compute. Qed.
