(* ===== verification/Poison.v ===== *)
(** * Hijacked queues and their resurrection

    The list [poisoned_qids] of [src/kernel/rocm-xio/rocm-xio.c]: which
    (BDF, queue id) pairs had their creation redirected
    ([poisoned_qid_mark_created]), which of them were then deleted on the
    device ([poisoned_qid_mark_deleted]), and the worker
    [rocm_xio_resurrect_work_fn] that recreates them from their snapshots and
    resets the driver's ring pointers. *)

From S2P Require Import Prelude Uapi Kernel State Demo Snapshot.

Section Poison.
Context `{K : Kernel}.
Variable cfg : build_config.

(** ** Tracking *)

Definition poisoned_at (bdf qid : Z) (e : poisoned_qid_entry) : bool :=
  (pq_bdf e =? bdf) && (pq_qid e =? qid).

Definition set_created (e : poisoned_qid_entry) : poisoned_qid_entry :=
  {| pq_self := pq_self e; pq_bdf := pq_bdf e; pq_qid := pq_qid e; pq_created := true;
     pq_needs_resurrect := pq_needs_resurrect e |}.

Definition set_needs_resurrect (e : poisoned_qid_entry) : poisoned_qid_entry :=
  {| pq_self := pq_self e; pq_bdf := pq_bdf e; pq_qid := pq_qid e; pq_created := pq_created e;
     pq_needs_resurrect := true |}.

Definition clear_flags (e : poisoned_qid_entry) : poisoned_qid_entry :=
  {| pq_self := pq_self e; pq_bdf := pq_bdf e; pq_qid := pq_qid e; pq_created := false;
     pq_needs_resurrect := false |}.

(** First critical section of [poisoned_qid_mark_created]: [true] when an
    entry was there. *)
Definition mark_created_check (bdf qid : Z) : X bool :=
  let* l := gets st_poisoned in
  match find_first (poisoned_at bdf qid) l with
  | Some _ => modify (set_poisoned (update_first (poisoned_at bdf qid) set_created)) ;;; ret true
  | None => ret false
  end.

(** Allocation and second critical section. *)
Definition mark_created_insert (bdf qid : Z) : X unit :=
  let* m := kmalloc in
  match m with
  | None => ret tt
  | Some (e, _) =>
    let* l := gets st_poisoned in
    match find_first (poisoned_at bdf qid) l with
    | Some _ =>
      modify (set_poisoned (update_first (poisoned_at bdf qid) set_created)) ;;;
      kfree e
    | None =>
      modify (set_poisoned (cons
        {| pq_self := e; pq_bdf := bdf; pq_qid := qid; pq_created := true;
           pq_needs_resurrect := false |}))
    end
  end.

Definition poisoned_qid_mark_created (bdf qid : Z) : X unit :=
  let* existing := mark_created_check bdf qid in
  if (existing : bool) then ret tt else mark_created_insert bdf qid.

Definition poisoned_qid_mark_deleted (bdf qid : Z) : X unit :=
  let* l := gets st_poisoned in
  match find_first (poisoned_at bdf qid) l with
  | Some e =>
    if pq_created e then
      modify (set_poisoned (update_first (poisoned_at bdf qid) set_needs_resurrect)) ;;;
      log EvSchedResurrect
    else ret tt
  | None => ret tt
  end.

(** ** The worker *)

(** The loop under the lock: the entries after it, the clones in list order,
    and whether an allocation failed. *)
Fixpoint resurrect_collect (l : list poisoned_qid_entry)
    : X (list poisoned_qid_entry * list poisoned_qid_entry * bool) :=
  match l with
  | [] => ret ([], [], false)
  | pe :: l' =>
    if pq_needs_resurrect pe then
      let* m := kmalloc in
      match m with
      | None =>
        let* '(kept, clones, _) := resurrect_collect l' in
        ret (pe :: kept, clones, true)
      | Some (clone, _) =>
        let* '(kept, clones, oom) := resurrect_collect l' in
        ret (clear_flags pe :: kept,
             {| pq_self := clone; pq_bdf := pq_bdf pe; pq_qid := pq_qid pe;
                pq_created := false; pq_needs_resurrect := false |} :: clones, oom)
      end
    else
      let* '(kept, clones, oom) := resurrect_collect l' in
      ret (pe :: kept, clones, oom)
  end.

Definition nvme_submit_sync_cmd (q : ptr) (c : admin_cmd) : X Z :=
  let* rc := ask (fun tr => k_submit_sync_cmd tr q c) in
  log (EvSubmit q c rc) ;;;
  ret rc.

Definition create_cq_cmd (qid : Z) (snap : nvme_queue_snapshot) : admin_cmd :=
  let cq_flags := if sn_polled snap then k_NVME_QUEUE_PHYS_CONTIG
                  else Z.lor k_NVME_QUEUE_PHYS_CONTIG k_NVME_CQ_IRQ_ENABLED in
  create_cq (sn_cq_dma_addr snap) qid (u16 (u32 (sn_q_depth snap - 1))) (u16 cq_flags)
    (sn_cq_vector snap).

Definition create_sq_cmd (qid : Z) (snap : nvme_queue_snapshot) : admin_cmd :=
  create_sq (sn_sq_dma_addr snap) qid (u16 (u32 (sn_q_depth snap - 1)))
    (u16 k_NVME_QUEUE_PHYS_CONTIG) qid.

(** The four ring pointers as [nvme_init_queue] sets them. *)
Definition reset_ring (q : rocm_xio_nvmeq_layout) : rocm_xio_nvmeq_layout :=
  {| nq_dev := nq_dev q; nq_cqes := nq_cqes q; nq_sq_dma_addr := nq_sq_dma_addr q;
     nq_cq_dma_addr := nq_cq_dma_addr q; nq_q_depth := nq_q_depth q;
     nq_cq_vector := nq_cq_vector q; nq_sq_tail := 0; nq_last_sq_tail := 0; nq_cq_head := 0;
     nq_qid := nq_qid q; nq_cq_phase := 1; nq_flags := nq_flags q |}.

Definition poke_nvmeq (addr : ptr) (f : rocm_xio_nvmeq_layout -> rocm_xio_nvmeq_layout)
    (m : nvme_memory) : nvme_memory :=
  {| nm_nvmeq := fun a => if a =? addr then f (nm_nvmeq m a) else nm_nvmeq m a;
     nm_dev := nm_dev m; nm_admin_q := nm_admin_q m |}.

(** Write-back of the host's ring pointers, compiled in on the verified
    kernels only. *)
Definition ring_writeback (pdev : ptr) (qid : Z) (snap : nvme_queue_snapshot) : X unit :=
  if negb (cfg_linux_6_8_to_6_10 cfg) then ret tt
  else
    let* drvdata := ask (fun tr => k_pci_get_drvdata tr pdev) in
    if negb (is_null (sn_dev snap)) && (drvdata =? sn_dev snap) then
      let* queues := gets (fun s => dl_queues (nm_dev (st_nvme s) (sn_dev snap))) in
      if is_null queues then ret tt
      else
        let live := u64 (queues + qid * 192) in
        let* cqes := gets (fun s => nq_cqes (nm_nvmeq (st_nvme s) live)) in
        (if negb (is_null cqes) && negb (sn_q_depth snap =? 0)
         then log (EvMemset cqes (u64 (sn_q_depth snap * k_sizeof_nvme_completion)))
         else ret tt) ;;;
        modify (set_nvme (poke_nvmeq live reset_ring))
    else ret tt.

Definition resurrect_submit (pdev : ptr) (qid : Z) (snap : nvme_queue_snapshot) : X unit :=
  let* rc := nvme_submit_sync_cmd (sn_admin_q snap) (create_cq_cmd qid snap) in
  if negb (rc =? 0) then ret tt
  else
    let* rc := nvme_submit_sync_cmd (sn_admin_q snap) (create_sq_cmd qid snap) in
    if negb (rc =? 0) then ret tt
    else ring_writeback pdev qid snap.

Definition snapshot_bogus (snap : nvme_queue_snapshot) : bool :=
  (sn_q_depth snap =? 0) || (sn_sq_dma_addr snap =? 0) || (sn_cq_dma_addr snap =? 0).

(** One clone; every exit drops the device reference and frees the clone. *)
Definition resurrect_one (pe : poisoned_qid_entry) : X unit :=
  let bus := Z.land (Z.shiftr (pq_bdf pe) 8) 255 in
  let devfn := Z.land (pq_bdf pe) 255 in
  let* pdev := pci_get_domain_bus_and_slot 0 bus devfn in
  if is_null pdev then kfree (pq_self pe)
  else
    let* snaps := gets st_snapshots in
    match nvme_queue_snapshot_lookup pdev (pq_qid pe) snaps with
    | None => ret tt
    | Some snap =>
      if is_null (sn_admin_q snap) then ret tt
      else if snapshot_bogus snap then ret tt
      else resurrect_submit pdev (pq_qid pe) snap
    end ;;;
    pci_dev_put pdev ;;;
    kfree (pq_self pe).

Definition rocm_xio_resurrect_work_fn : X unit :=
  let* l := gets st_poisoned in
  let* '(kept, clones, clone_oom) := resurrect_collect l in
  modify (set_poisoned (fun _ => kept)) ;;;
  (if (clone_oom : bool) then log EvSchedResurrect else ret tt) ;;;
  iterM resurrect_one clones.

(** The block of [rocm_xio_exit]. *)
Definition exit_poisoned : X unit :=
  let* l := gets st_poisoned in
  modify (set_poisoned (fun _ => [])) ;;;
  iterM (fun e => kfree (pq_self e)) (reverse l).

(** ** Invariant: one entry per (BDF, queue id) *)

Definition pq_key (e : poisoned_qid_entry) : Z * Z := (pq_bdf e, pq_qid e).

Definition poisoned_unique (s : xio_state) : Prop := NoDup (map pq_key (st_poisoned s)).

(** ** Lemmas *)

Lemma poisoned_at_key bdf qid e : poisoned_at bdf qid e = true <-> pq_key e = (bdf, qid).
Proof.
  unfold poisoned_at, pq_key. rewrite andb_true_iff, !Z.eqb_eq.
  split; [by intros [-> ->]|by intros [= -> ->]].
Qed.

Lemma poisoned_absent bdf qid l :
  find_first (poisoned_at bdf qid) l = None -> (bdf, qid) ∉ map pq_key l.
Proof.
  rewrite find_first_None. intros H (e & E & He)%list_elem_of_fmap.
  specialize (H e He). rewrite (proj2 (poisoned_at_key bdf qid e)) in H; done.
Qed.

Definition poison_ok (tr0 : trace) (s : xio_state) : Prop :=
  balanced tr0 s /\ poisoned_unique s.

(** In-place flag updates keep keys and books. *)
Lemma poison_ok_update tr0 P f s :
  (forall e, pq_self (f e) = pq_self e /\ pq_key (f e) = pq_key e) ->
  poison_ok tr0 s -> poison_ok tr0 (set_poisoned (update_first P f) s).
Proof.
  intros Hf [Hb Hu]. split.
  - ledger_open r. autorewrite with books. proj.
    rewrite (sumZ_update_first (fun e => own_poisoned e r)); [lia|].
    intros e. unfold own_poisoned. by rewrite (proj1 (Hf e)).
  - unfold poisoned_unique. proj. rewrite (map_update_first pq_key); [done|]. apply Hf.
Qed.

Lemma poison_ok_log tr0 e s :
  effect e = None -> poison_ok tr0 s -> poison_ok tr0 (set_trace (cons e) s).
Proof.
  intros He [Hb Hu]. split; [|done]. ledger_open r. autorewrite with books. proj.
  rewrite held_cons. unfold delta. rewrite He. lia.
Qed.

Lemma mark_created_check_ok tr0 bdf qid s :
  poison_ok tr0 s -> wp (mark_created_check bdf qid) (fun _ s' => poison_ok tr0 s') s.
Proof. intros H. unfold mark_created_check. xwp; [|done]. by apply poison_ok_update. Qed.

Lemma mark_created_insert_ok tr0 bdf qid s :
  poison_ok tr0 s -> wp (mark_created_insert bdf qid) (fun _ s' => poison_ok tr0 s') s.
Proof.
  intros [Hb Hu]. unfold mark_created_insert. apply wp_bind, wp_kmalloc.
  - intros p g _. apply wp_bind, wp_gets. proj. destruct (find_first _ _) eqn:E; xwp.
    + split.
      * ledger_open r. autorewrite with books. proj.
        rewrite (sumZ_update_first (fun e => own_poisoned e r)) by done. ledger_close.
      * unfold poisoned_unique. proj. by rewrite (map_update_first pq_key).
    + split; [ledger|]. unfold poisoned_unique. proj. cbn [map].
      apply list_relations.list.NoDup_cons. split; [by apply poisoned_absent|done].
  - intros _. apply wp_ret. by apply poison_ok_log.
Qed.

Lemma mark_created_ok tr0 bdf qid s :
  poison_ok tr0 s -> wp (poisoned_qid_mark_created bdf qid) (fun _ s' => poison_ok tr0 s') s.
Proof.
  intros H. unfold poisoned_qid_mark_created. apply wp_bind.
  eapply wp_mono; [by apply mark_created_check_ok|]. intros [] s' H'; [by apply wp_ret|].
  by apply mark_created_insert_ok.
Qed.

(** With memory available the pair is tracked as created afterwards. *)
Lemma mark_created_tracked bdf qid s p g :
  k_kmalloc (st_trace s) = Some (p, g) ->
  wp (poisoned_qid_mark_created bdf qid) (fun _ s' =>
    exists e, find_first (poisoned_at bdf qid) (st_poisoned s') = Some e /\ pq_created e = true) s.
Proof.
  intros Hk. unfold poisoned_qid_mark_created, mark_created_check, mark_created_insert.
  apply wp_bind, wp_bind, wp_gets. destruct (find_first _ _) as [e|] eqn:E; xwp; proj.
  - exists (set_created e). split; [by apply find_first_update|done].
  - exists (set_created p1). split; [by apply find_first_update|done].
  - eexists. cbn [find_first]. unfold poisoned_at at 1. cbn [pq_bdf pq_qid].
    by rewrite !Z.eqb_refl.
  - congruence.
Qed.

Lemma mark_deleted_ok tr0 bdf qid s :
  poison_ok tr0 s -> wp (poisoned_qid_mark_deleted bdf qid) (fun _ s' => poison_ok tr0 s') s.
Proof.
  intros H. unfold poisoned_qid_mark_deleted. xwp; try done.
  by apply poison_ok_log, poison_ok_update.
Qed.

(** How often the worker was scheduled. *)
Definition sched_count (tr : trace) : Z :=
  sumZ (fun e => match e with EvSchedResurrect => 1 | _ => 0 end) tr.

(** What the locked loop does to one entry. *)
Inductive collected : list poisoned_qid_entry -> list poisoned_qid_entry ->
    list poisoned_qid_entry -> bool -> Prop :=
| collected_nil : collected [] [] [] false
| collected_skip e l k c b :
    pq_needs_resurrect e = false -> collected l k c b -> collected (e :: l) (e :: k) c b
| collected_oom e l k c b :
    pq_needs_resurrect e = true -> collected l k c b -> collected (e :: l) (e :: k) c true
| collected_clone e p l k c b :
    pq_needs_resurrect e = true -> collected l k c b ->
    collected (e :: l) (clear_flags e :: k)
      ({| pq_self := p; pq_bdf := pq_bdf e; pq_qid := pq_qid e; pq_created := false;
          pq_needs_resurrect := false |} :: c) b.

Lemma resurrect_collect_core l : forall s,
  wp (resurrect_collect l) (fun '(kept, clones, oom) s' => exists tr,
    s' = set_trace (fun _ => tr) s /\ collected l kept clones oom /\
    submitted tr = submitted (st_trace s) /\ sched_count tr = sched_count (st_trace s) /\
    forall r, held tr r = held (st_trace s) r + sumZ (fun e => own_poisoned e r) clones) s.
Proof.
  induction l as [|e l IH]; intros s; cbn [resurrect_collect].
  - apply wp_ret. exists (st_trace s). split_and!; [by destruct s|constructor|done|done|]. intros. cbn. lia.
  - destruct (pq_needs_resurrect e) eqn:En.
    + apply wp_bind, wp_kmalloc.
      * intros p g _. apply wp_bind. eapply wp_mono; [apply IH|].
        intros [[k c] b] s' (tr & -> & Hc & Hsub & Hsc & Htr). apply wp_ret. exists tr.
        split_and!; [done|by constructor|done|done|].
        intros r. rewrite Htr. proj. cbn [sumZ]. rewrite held_cons. cbn [delta effect].
        unfold own_poisoned. cbn [pq_self]. lia.
      * intros _. apply wp_bind. eapply wp_mono; [apply IH|].
        intros [[k c] b] s' (tr & -> & Hc & Hsub & Hsc & Htr). apply wp_ret. exists tr.
        split_and!; [done|by eapply collected_oom|done|done|].
        intros r. rewrite Htr. proj. rewrite held_cons. cbn [delta effect]. lia.
    + apply wp_bind. eapply wp_mono; [apply IH|].
      intros [[k c] b] s' (tr & -> & Hc & Hsub & Hsc & Htr). apply wp_ret. exists tr.
      split_and!; [done|by constructor|done|done|done].
Qed.

Lemma collected_keys l k c b : collected l k c b -> map pq_key k = map pq_key l.
Proof. induction 1; cbn [map]; by f_equal. Qed.

Lemma collected_own l k c b r :
  collected l k c b ->
  sumZ (fun e => own_poisoned e r) k = sumZ (fun e => own_poisoned e r) l.
Proof. induction 1; cbn [sumZ]; unfold own_poisoned in *; cbn [clear_flags pq_self]; lia. Qed.

(** Flags still up after the loop mean an allocation failed. *)
Lemma collected_oom_flag l k c b e :
  collected l k c b -> e ∈ k -> pq_needs_resurrect e = true -> b = true.
Proof.
  induction 1 as [| | |]; intros He Hn; [by apply elem_of_nil in He|..];
    apply elem_of_cons in He as [->|He]; try congruence; auto. done.
Qed.

(** Driver memory and history only. *)
Definition only_driver (s s' : xio_state) : Prop :=
  exists tr mem, s' = set_nvme (fun _ => mem) (set_trace (fun _ => tr) s).

Lemma ring_writeback_core pdev qid snap s :
  wp (ring_writeback pdev qid snap) (fun _ s' => exists tr mem,
    s' = set_nvme (fun _ => mem) (set_trace (fun _ => tr) s) /\
    submitted tr = submitted (st_trace s) /\ sched_count tr = sched_count (st_trace s) /\
    forall r, held tr r = held (st_trace s) r) s.
Proof.
  unfold ring_writeback. xwp;
    lazymatch goal with
    | |- exists tr mem, set_nvme ?f (set_trace _ _) = _ /\ _ =>
        eexists _, (f (st_nvme s)); split_and!; [reflexivity|done..]
    | |- exists tr mem, set_nvme ?f _ = _ /\ _ =>
        exists (st_trace s), (f (st_nvme s)); split_and!; [reflexivity|done..]
    | |- _ => exists (st_trace s), (st_nvme s); split_and!; [by destruct s|done..]
    end.
Qed.
(** The admin commands a resurrection may submit, most recent first: nothing,
    or per queue a CREATE_CQ that failed, or a CREATE_CQ that succeeded
    followed by a CREATE_SQ, all from a usable snapshot. *)
Inductive resurrect_log (snaps : list nvme_queue_snapshot) : list (ptr * admin_cmd * Z) -> Prop :=
| rl_nil : resurrect_log snaps []
| rl_cq_failed qid snap rc ext :
    snap ∈ snaps -> sn_qid snap = qid -> sn_admin_q snap <> NULL -> snapshot_bogus snap = false ->
    rc <> 0 -> resurrect_log snaps ext ->
    resurrect_log snaps ((sn_admin_q snap, create_cq_cmd qid snap, rc) :: ext)
| rl_pair qid snap rc ext :
    snap ∈ snaps -> sn_qid snap = qid -> sn_admin_q snap <> NULL -> snapshot_bogus snap = false ->
    resurrect_log snaps ext ->
    resurrect_log snaps ((sn_admin_q snap, create_sq_cmd qid snap, rc)
      :: (sn_admin_q snap, create_cq_cmd qid snap, 0) :: ext).

Lemma submitted_cons e tr :
  submitted (e :: tr) = match e with EvSubmit q c rc => [(q, c, rc)] | _ => [] end ++ submitted tr.
Proof. by destruct e. Qed.

(** One clone: the ledger, the frame and the commands. *)
Lemma resurrect_one_core pe ext0 s :
  resurrect_log (st_snapshots s) ext0 ->
  wp (resurrect_one pe) (fun _ s' => exists tr mem ext,
    s' = set_nvme (fun _ => mem) (set_trace (fun _ => tr) s) /\
    submitted tr = ext ++ submitted (st_trace s) /\
    sched_count tr = sched_count (st_trace s) /\
    resurrect_log (st_snapshots s) (ext ++ ext0) /\
    forall r, held tr r = held (st_trace s) r - unit_of (RMem (pq_self pe)) r) s.
Proof.
  intros Hl. unfold resurrect_one. apply wp_bind, wp_pci_get.
  2:{ intros _. rewrite Z.eqb_refl. xwp. exists (EvKfree (pq_self pe) :: EvFail FPciLookup :: st_trace s), (st_nvme s), [].
      split_and!; [by destruct s|done|done|done|]. intros r. ledger_close. }
  intros pdev Hp _. rewrite (proj2 (Z.eqb_neq _ _) Hp). apply wp_bind, wp_gets, wp_bind.
  set (s1 := set_trace (cons (EvPciGet pdev)) s).
  eapply (wp_mono _ (fun _ s' => exists tr mem ext,
    s' = set_nvme (fun _ => mem) (set_trace (fun _ => tr) s1) /\
    submitted tr = ext ++ submitted (st_trace s1) /\
    sched_count tr = sched_count (st_trace s1) /\
    resurrect_log (st_snapshots s) (ext ++ ext0) /\
    forall r, held tr r = held (st_trace s1) r)).
  2:{ intros _ s2 (tr & mem & ext & -> & Hs & Hsc & Hx & Hh). xwp.
      exists (EvKfree (pq_self pe) :: EvPciPut pdev :: tr), mem, ext.
      split_and!; [done|by rewrite !submitted_cons|done|done|].
      intros r. specialize (Hh r). revert Hh. unfold s1. proj. intros Hh. ledger_close. }
  assert (wp (ret tt) (fun _ s' => exists tr mem ext,
    s' = set_nvme (fun _ => mem) (set_trace (fun _ => tr) s1) /\
    submitted tr = ext ++ submitted (st_trace s1) /\
    sched_count tr = sched_count (st_trace s1) /\
    resurrect_log (st_snapshots s) (ext ++ ext0) /\
    forall r, held tr r = held (st_trace s1) r) s1) as Hskip.
  { apply wp_ret. exists (st_trace s1), (st_nvme s1), []. by destruct s. }
  destruct (nvme_queue_snapshot_lookup _ _ _) as [snap|] eqn:E; [|done].
  destruct (Z.eqb_spec (sn_admin_q snap) NULL) as [|Hq]; [done|].
  destruct (snapshot_bogus snap) eqn:Hbog; [done|]. clear Hskip.
  apply find_first_Some in E as [Hin Hk]. apply snapshot_at_key in Hk. injection Hk as _ Hqid.
  unfold resurrect_submit, nvme_submit_sync_cmd.
  apply wp_bind, wp_bind, wp_ask, wp_bind, wp_log, wp_ret.
  set (rc := k_submit_sync_cmd _ _ _). destruct (Z.eqb_spec rc 0) as [Hrc|Hrc]; cbn [negb].
  2:{ apply wp_ret. exists (EvSubmit (sn_admin_q snap) (create_cq_cmd (pq_qid pe) snap) rc :: st_trace s1),
        (st_nvme s1), [(sn_admin_q snap, create_cq_cmd (pq_qid pe) snap, rc)].
      split_and!; [reflexivity|reflexivity|done| |done].
      by apply rl_cq_failed. }
  apply wp_bind, wp_bind, wp_ask, wp_bind, wp_log, wp_ret.
  set (rc2 := k_submit_sync_cmd _ _ _). rewrite Hrc. destruct (negb _).
  - apply wp_ret. exists (EvSubmit (sn_admin_q snap) (create_sq_cmd (pq_qid pe) snap) rc2
      :: EvSubmit (sn_admin_q snap) (create_cq_cmd (pq_qid pe) snap) 0 :: st_trace s1),
      (st_nvme s1), [(sn_admin_q snap, create_sq_cmd (pq_qid pe) snap, rc2);
                     (sn_admin_q snap, create_cq_cmd (pq_qid pe) snap, 0)].
    split_and!; [reflexivity|reflexivity|done| |done].
    by apply rl_pair.
  - eapply wp_mono; [apply ring_writeback_core|]. intros _ s2 (tr & mem & -> & Hs & Hsc & Hh).
    exists tr, mem, [(sn_admin_q snap, create_sq_cmd (pq_qid pe) snap, rc2);
                     (sn_admin_q snap, create_cq_cmd (pq_qid pe) snap, 0)].
    split_and!; [done|by rewrite Hs|exact Hsc| |exact Hh]. by apply rl_pair.
Qed.

(** The worker: keys, ledger, flags and commands. *)
Lemma resurrect_work_core tr0 s :
  poison_ok tr0 s ->
  wp rocm_xio_resurrect_work_fn (fun _ s' =>
    poison_ok tr0 s' /\
    st_snapshots s' = st_snapshots s /\
    (exists ext, submitted (st_trace s') = ext ++ submitted (st_trace s) /\
       resurrect_log (st_snapshots s) ext) /\
    exists clones oom, collected (st_poisoned s) (st_poisoned s') clones oom /\
      sched_count (st_trace s') = sched_count (st_trace s) + ind oom) s.
Proof.
  intros [Hb Hu]. unfold rocm_xio_resurrect_work_fn. apply wp_bind, wp_gets, wp_bind.
  eapply wp_mono; [apply resurrect_collect_core|].
  intros [[kept clones] oom] s1 (tr & -> & Hc & Hsub & Hsc & Htr). apply wp_bind, wp_modify, wp_bind.
  eapply (wp_mono _ (fun _ s2 => exists tr2, s2 = set_poisoned (fun _ => kept) (set_trace (fun _ => tr2) s)
    /\ submitted tr2 = submitted (st_trace s) /\
    sched_count tr2 = sched_count (st_trace s) + ind oom /\ forall r, held tr2 r = held tr r)).
  { destruct oom; xwp; eexists; (split_and!; [reflexivity|done| |]).
    - change (1 + sched_count tr = sched_count (st_trace s) + 1). lia.
    - intros r. proj. ledger_close.
    - cbn [ind]. lia.
    - done. }
  intros _ s2 (tr2 & -> & Hsub2 & Hsc2 & Htr2).
  eapply wp_mono; [apply (wp_iterM _ (fun l s' =>
    (forall r, slack s' r = held tr0 r + sumZ (fun e => own_poisoned e r) l) /\
    poisoned_unique s' /\ st_snapshots s' = st_snapshots s /\
    (exists ext, submitted (st_trace s') = ext ++ submitted (st_trace s) /\
       resurrect_log (st_snapshots s) ext) /\
    st_poisoned s' = kept /\
    sched_count (st_trace s') = sched_count (st_trace s) + ind oom))|].
  - split_and!.
    + intros r. specialize (Hb r). specialize (Htr r). specialize (Htr2 r).
      unfold slack. autorewrite with books. proj. rewrite (collected_own _ _ _ _ _ Hc). lia.
    + unfold poisoned_unique. proj. by rewrite (collected_keys _ _ _ _ Hc).
    + done.
    + exists []. split; [done|constructor].
    + done.
    + done.
  - intros pe l s3 (Hs & Hu3 & Hsn & (ext & Hx & Hlog) & Hk & Hsc3). rewrite <- Hsn in Hlog.
    eapply wp_mono; [by apply resurrect_one_core|].
    intros _ s4 (tr4 & mem & ext4 & -> & Hs4 & Hsc4 & Hl4 & Hh4).
    split_and!; [|done|done| |done|by proj; rewrite Hsc4].
    + intros r. specialize (Hs r). specialize (Hh4 r). cbn [sumZ] in Hs. unfold own_poisoned in Hs at 1.
      unfold slack in *. autorewrite with books. proj. lia.
    + exists (ext4 ++ ext). proj. rewrite Hs4, Hx, (assoc_L app). by rewrite <- Hsn.
  - intros _ s3 (Hs & Hu3 & Hsn & Hx & Hk & Hsc3).
    split_and!; [split; [|done]|done|done|exists clones, oom; by rewrite Hk].
    apply balanced_slack. intros r. rewrite Hs. cbn. lia.
Qed.

Lemma exit_poisoned_balanced tr0 s :
  balanced tr0 s -> wp exit_poisoned (fun _ s' => balanced tr0 s' /\ st_poisoned s' = []) s.
Proof.
  intros H. unfold exit_poisoned. xwp.
  eapply wp_releases; [apply (releases_iter _ own_poisoned); intros e _;
    eapply releases_ext; [|apply releases_log]; intros r; cbn [delta effect]; unfold own_poisoned; lia|].
  intros tr Htr. split; [|done]. ledger_open rs. specialize (Htr rs). revert Htr. proj.
  rewrite sumZ_reverse. intros. ledger_close.
Qed.
(** *** Interleavings: the critical sections of concurrent probes and of the
    worker *)

Inductive poison_step : xio_state -> xio_state -> Prop :=
| step_check bdf qid s : poison_step s (snd (mark_created_check bdf qid s))
| step_insert bdf qid s : poison_step s (snd (mark_created_insert bdf qid s))
| step_deleted bdf qid s : poison_step s (snd (poisoned_qid_mark_deleted bdf qid s))
| step_resurrect s : poison_step s (snd (rocm_xio_resurrect_work_fn s)).

Lemma poison_step_ok tr0 s s' : poison_step s s' -> poison_ok tr0 s -> poison_ok tr0 s'.
Proof.
  intros [] H.
  - by apply wp_snd, mark_created_check_ok.
  - by apply wp_snd, mark_created_insert_ok.
  - by apply wp_snd, mark_deleted_ok.
  - apply wp_snd. eapply wp_mono; [by apply resurrect_work_core|]. by intros _ ? [].
Qed.

Lemma poison_reach_ok tr0 s s' : rtc poison_step s s' -> poison_ok tr0 s -> poison_ok tr0 s'.
Proof. induction 1; eauto using poison_step_ok. Qed.

(** Kept entries are untouched or cleared. *)
Lemma collected_elem l k c b e :
  collected l k c b -> e ∈ k ->
  e ∈ l \/ exists e0, e0 ∈ l /\ pq_needs_resurrect e0 = true /\ e = clear_flags e0.
Proof.
  induction 1 as [|e0 l k c b Hn Hc IH|e0 l k c b Hn Hc IH|e0 p l k c b Hn Hc IH];
    intros He; [by apply elem_of_nil in He|..];
    apply elem_of_cons in He as [->|He].
  all: try (left; by left).
  all: try (destruct (IH He) as [?|(x & ? & ? & ?)]; [left; by right|right; exists x; split_and!; [by right|done..]]).
  right. exists e0. split_and!; [left|done..].
Qed.

(** ** Theorems *)

(** One tracking entry per (BDF, queue id), whatever the interleaving.
    [poisoned_qid_mark_created] checks for an entry, drops the lock to
    allocate, and checks again before inserting; with the two critical
    sections of any number of callers, deletions and worker runs interleaved
    in any order, no pair is ever tracked twice and no object is leaked or
    freed twice. *)
Theorem poisoned_unique_interleaved tr0 s0 s :
  balanced tr0 s0 -> NoDup (map pq_key (st_poisoned s0)) -> rtc poison_step s0 s ->
  NoDup (map pq_key (st_poisoned s)) /\
  forall r, held (st_trace s) r = held tr0 r + owned s r.
Proof.
  intros Hb Hu Hr. destruct (poison_reach_ok tr0 _ _ Hr (conj Hb Hu)) as [Hb' Hu']. by split.
Qed.

(** Memory pressure strands no queue.  When the worker runs, an entry that
    still needs resurrection afterwards is exactly as it was before, its
    [created] mark included, and the worker has been scheduled once more;
    every other flagged entry has had both flags cleared. *)
Theorem resurrect_oom_retries tr0 s :
  balanced tr0 s -> NoDup (map pq_key (st_poisoned s)) ->
  wp rocm_xio_resurrect_work_fn (fun _ s' =>
    map pq_key (st_poisoned s') = map pq_key (st_poisoned s) /\
    (forall e, e ∈ st_poisoned s' -> pq_needs_resurrect e = true ->
       e ∈ st_poisoned s /\ sched_count (st_trace s') = sched_count (st_trace s) + 1)) s.
Proof.
  intros Hb Hu. eapply wp_mono; [by apply (resurrect_work_core tr0)|].
  intros _ s' (_ & _ & _ & clones & oom & Hc & Hs). split; [by eapply collected_keys|].
  intros e He Hn. split.
  - destruct (collected_elem _ _ _ _ _ Hc He) as [?|(e0 & _ & _ & ->)]; [done|done].
  - by rewrite Hs, (collected_oom_flag _ _ _ _ _ Hc He Hn).
Qed.

(** The commands a worker run submits are well-formed and well-ordered:
    each comes from a stored snapshot with an admin queue, a depth and both
    DMA addresses; a CREATE_SQ is submitted only right after a CREATE_CQ of
    the same queue on the same controller that succeeded; a CREATE_CQ that
    fails is followed by nothing for that queue. *)
Theorem resurrect_commands_ordered tr0 s :
  balanced tr0 s -> NoDup (map pq_key (st_poisoned s)) ->
  wp rocm_xio_resurrect_work_fn (fun _ s' =>
    exists ext, submitted (st_trace s') = ext ++ submitted (st_trace s) /\
      resurrect_log (st_snapshots s) ext) s.
Proof.
  intros Hb Hu. eapply wp_mono; [by apply (resurrect_work_core tr0)|].
  by intros _ s' (_ & _ & ? & _).
Qed.

(** C38: a resurrection restores the queue: with a usable snapshot of an
    attached device (depth at most 65536) and a controller that accepts both
    commands, on the kernels whose queue layout is known, the controller gets
    first CREATE_CQ with the snapshot's completion queue address, the queue's
    id, its depth less one, the contiguity flag (and the interrupt flag unless
    the queue is polled) and the snapshot's vector, then CREATE_SQ with the
    snapshot's submission queue address, the same id, size and flag, bound to
    the completion queue of that id; and the driver's queue structure at
    [dev->queues[qid]] has tail, last tail and head 0 and phase 1, as after
    initialisation, its other fields unchanged; no other queue structure
    changes. *)
Theorem resurrect_restores_queue pe snap pdev s :
  cfg_linux_6_8_to_6_10 cfg = true -> pdev <> NULL ->
  (forall tr, k_pci_lookup tr 0 (Z.land (Z.shiftr (pq_bdf pe) 8) 255) (Z.land (pq_bdf pe) 255) = pdev) ->
  nvme_queue_snapshot_lookup pdev (pq_qid pe) (st_snapshots s) = Some snap ->
  sn_admin_q snap <> NULL -> snapshot_bogus snap = false ->
  (forall tr c, k_submit_sync_cmd tr (sn_admin_q snap) c = 0) ->
  sn_dev snap <> NULL -> (forall tr, k_pci_get_drvdata tr pdev = sn_dev snap) ->
  dl_queues (nm_dev (st_nvme s) (sn_dev snap)) <> NULL -> 0 <= sn_q_depth snap <= 65536 ->
  let live := u64 (dl_queues (nm_dev (st_nvme s) (sn_dev snap)) + pq_qid pe * 192) in
  let s' := snd (resurrect_one pe s) in
  submitted (st_trace s') =
    [(sn_admin_q snap,
      create_sq (sn_sq_dma_addr snap) (pq_qid pe) (sn_q_depth snap - 1)
        (u16 k_NVME_QUEUE_PHYS_CONTIG) (pq_qid pe), 0);
     (sn_admin_q snap,
      create_cq (sn_cq_dma_addr snap) (pq_qid pe) (sn_q_depth snap - 1)
        (u16 (if sn_polled snap then k_NVME_QUEUE_PHYS_CONTIG
              else Z.lor k_NVME_QUEUE_PHYS_CONTIG k_NVME_CQ_IRQ_ENABLED))
        (sn_cq_vector snap), 0)] ++ submitted (st_trace s) /\
  (let q := nm_nvmeq (st_nvme s) live in
   nm_nvmeq (st_nvme s') live =
   {| nq_dev := nq_dev q; nq_cqes := nq_cqes q; nq_sq_dma_addr := nq_sq_dma_addr q;
      nq_cq_dma_addr := nq_cq_dma_addr q; nq_q_depth := nq_q_depth q; nq_cq_vector := nq_cq_vector q;
      nq_sq_tail := 0; nq_last_sq_tail := 0; nq_cq_head := 0; nq_qid := nq_qid q; nq_cq_phase := 1;
      nq_flags := nq_flags q |}) /\
  (forall a, a <> live -> nm_nvmeq (st_nvme s') a = nm_nvmeq (st_nvme s) a) /\
  st_poisoned s' = st_poisoned s.
Proof.
  intros Hcfg Hp Hpci Hsn Hq Hbog Hsub Hdev Hdrv Hqs Hdepth.
  assert (u16 (u32 (sn_q_depth snap - 1)) = sn_q_depth snap - 1) as Hsize.
  { pose proof Hbog as Hb. unfold snapshot_bogus in Hb. repeat apply orb_false_iff in Hb as [Hb _].
    bool_to_prop. rewrite u32_small, u16_small; lia. }
  intros live s'. pattern s'. apply wp_snd. subst s'. unfold resurrect_one.
  apply wp_bind, wp_pci_get; rewrite Hpci; [|done]. intros ? _ <-.
  rewrite (proj2 (Z.eqb_neq _ _) Hp). apply wp_bind, wp_gets, wp_bind. proj.
  rewrite Hsn, (proj2 (Z.eqb_neq _ _) Hq), Hbog. unfold resurrect_submit, nvme_submit_sync_cmd.
  apply wp_bind, wp_bind, wp_ask, wp_bind, wp_log, wp_ret. rewrite Hsub. cbn [Z.eqb negb].
  apply wp_bind, wp_bind, wp_ask, wp_bind, wp_log, wp_ret. rewrite Hsub. cbn [Z.eqb negb].
  unfold ring_writeback. rewrite Hcfg. cbn [negb]. apply wp_bind, wp_ask.
  rewrite Hdrv, (proj2 (Z.eqb_neq _ _) Hdev), Z.eqb_refl. cbn [negb andb].
  apply wp_bind, wp_gets. proj. rewrite (proj2 (Z.eqb_neq _ _) Hqs). xwp;
    (split_and!; [|intros|intros a Ha|done]); proj; unfold poke_nvmeq, create_sq_cmd, create_cq_cmd;
    cbn [nm_nvmeq]; fold live; by rewrite ?Hsize, ?Z.eqb_refl, ?(proj2 (Z.eqb_neq _ _) Ha).
Qed.

(** Exactly the hijacked queues are resurrected.  A delete seen for a
    tracked, created pair flags its entry and schedules the worker; a delete
    for a pair that is not tracked, or whose creation was not redirected
    since the last resurrection, changes nothing. *)
Theorem mark_deleted_only_hijacked bdf qid s :
  let s' := snd (poisoned_qid_mark_deleted bdf qid s) in
  match find_first (poisoned_at bdf qid) (st_poisoned s) with
  | Some e =>
    if pq_created e then
      st_trace s' = EvSchedResurrect :: st_trace s /\
      find_first (poisoned_at bdf qid) (st_poisoned s') = Some (set_needs_resurrect e)
    else s' = s
  | None => s' = s
  end.
Proof.
  unfold poisoned_qid_mark_deleted, bind, gets.
  destruct (find_first _ _) as [e|] eqn:E; [|done]. destruct (pq_created e); [|done].
  split; [done|]. by apply find_first_update.
Qed.
End Poison.

(** ** Witnesses *)

Definition poisoned1 : poisoned_qid_entry :=
  {| pq_self := 4096; pq_bdf := 34048; pq_qid := 1; pq_created := true; pq_needs_resurrect := true |}.

Definition snap1 : nvme_queue_snapshot :=
  {| sn_self := 8192; sn_pdev := nvme_dev; sn_qid := 1; sn_sq_dma_addr := 4096;
     sn_cq_dma_addr := 8192; sn_q_depth := 64; sn_cq_vector := 3; sn_polled := false;
     sn_admin_q := 9500; sn_dev := 9000 |}.

(** The state after the two objects were allocated and linked. *)
Definition poisoned_state : xio_state :=
  set_trace (fun _ => [EvPciGet nvme_dev; EvKmalloc 8192; EvKmalloc 4096])
    (set_nvme (fun _ => driver_mem 3)
      (set_snapshots (fun _ => [snap1]) (set_poisoned (fun _ => [poisoned1]) state0))).

Lemma poisoned_state_balanced `{K : Kernel} : balanced [] poisoned_state.
Proof.
  intros r. unfold poisoned_state. autorewrite with books. rewrite owned_state0.
  proj. cbn [state0 st_snapshots st_poisoned sumZ]. unfold own_snapshot, own_poisoned.
  cbn [snap1 poisoned1 sn_self sn_pdev pq_self].
  rewrite !held_cons, held_nil. cbn [delta effect]. lia.
Qed.

Lemma poisoned_unique_interleaved_witness :
  let s1 := snd (mark_created_insert (K := demo_kernel) 34048 1 state0) in
  let s2 := snd (mark_created_insert (K := demo_kernel) 34048 1 s1) in
  length (st_poisoned s2) = 1%nat /\ NoDup (map pq_key (st_poisoned s2)).
Proof.
  intros s1 s2. split; [by vm_compute|].
  apply (poisoned_unique_interleaved (K := demo_kernel) cfg_demo [] state0 s2).
  - done.
  - constructor.
  - eapply rtc_l; [apply step_insert|]. apply rtc_once, step_insert.
Defined.

Definition oom_kernel : Kernel := demo (fun _ => None) (fun _ => false).

Lemma resurrect_oom_retries_witness :
  wp (rocm_xio_resurrect_work_fn (K := oom_kernel) cfg_demo) (fun _ s' =>
    map pq_key (st_poisoned s') = [(34048, 1)]) poisoned_state /\
  map pq_needs_resurrect
    (st_poisoned (snd (rocm_xio_resurrect_work_fn (K := oom_kernel) cfg_demo poisoned_state))) = [true].
Proof.
  split; [|by vm_compute].
  eapply wp_mono; [apply (resurrect_oom_retries (K := oom_kernel) cfg_demo [] poisoned_state)|].
  - apply poisoned_state_balanced.
  - repeat constructor; by intros ?%elem_of_nil.
  - by intros _ s' [H _].
Defined.

Lemma resurrect_commands_ordered_witness :
  wp (rocm_xio_resurrect_work_fn (K := demo_kernel) cfg_demo) (fun _ s' =>
    exists ext, submitted (st_trace s') = ext ++ submitted (st_trace poisoned_state) /\
      resurrect_log (K := demo_kernel) [snap1] ext) poisoned_state /\
  length (submitted (st_trace
    (snd (rocm_xio_resurrect_work_fn (K := demo_kernel) cfg_demo poisoned_state)))) = 2%nat.
Proof.
  split; [|by vm_compute].
  apply (resurrect_commands_ordered (K := demo_kernel) cfg_demo [] poisoned_state).
  - apply poisoned_state_balanced.
  - repeat constructor; by intros ?%elem_of_nil.
Defined.

Lemma resurrect_restores_queue_witness :
  let s' := snd (resurrect_one (K := demo_kernel) cfg_demo poisoned1 poisoned_state) in
  submitted (st_trace s') = [(9500, create_sq 4096 1 63 1 1, 0); (9500, create_cq 8192 1 63 3 3, 0)] /\
  nq_sq_tail (nm_nvmeq (st_nvme s') 20192) = 0 /\ nq_cq_phase (nm_nvmeq (st_nvme s') 20192) = 1 /\
  nq_sq_tail (nm_nvmeq (st_nvme s') 20384) = 7.
Proof.
  destruct (resurrect_restores_queue (K := demo_kernel) cfg_demo poisoned1 snap1 nvme_dev poisoned_state)
    as (Hs & H1 & H2 & _); [done..|].
  cbv zeta. split; [exact Hs|].
  assert (u64 (dl_queues (nm_dev (st_nvme poisoned_state) (sn_dev snap1)) + pq_qid poisoned1 * 192) = 20192) as E
    by (by vm_compute).
  rewrite E in H1, H2. rewrite H1, H2 by done. by vm_compute.
Defined.
