(* ===== verification/Kprobe.v ===== *)
(** * The NVMe command probe

    [nvme_submit_user_cmd_pre] of [src/kernel/rocm-xio/rocm-xio.c], the
    handler that sees every user-submitted NVMe command before the driver
    does: it rewrites the data pointers of queue-creation and I/O commands
    from the registrations, and tracks which queues were redirected and
    deleted. *)

From S2P Require Import Prelude Uapi Kernel State Demo QueueReg DmaBuf BufferReg Snapshot Poison.

(** The fields of a [struct nvme_command] the handler reads or writes, in CPU
    byte order. *)
Record nvme_command := { cm_opcode : Z; cm_prp1 : Z; cm_prp2 : Z; cm_cdw10 : Z }.

Definition set_prp1 (v : Z) (c : nvme_command) : nvme_command :=
  {| cm_opcode := cm_opcode c; cm_prp1 := v; cm_prp2 := cm_prp2 c; cm_cdw10 := cm_cdw10 c |}.
Definition set_prp2 (v : Z) (c : nvme_command) : nvme_command :=
  {| cm_opcode := cm_opcode c; cm_prp1 := cm_prp1 c; cm_prp2 := v; cm_cdw10 := cm_cdw10 c |}.

Section Kprobe.
Context `{K : Kernel}.
Variable cfg : build_config.

Definition queue_id_of (c : nvme_command) : Z := Z.land (cm_cdw10 c) 65535.

Definition is_admin_queue (q : ptr) : bool := is_null q || is_null (k_queue_disk q).

(** DELETE_SQ (0x00) and DELETE_CQ (0x04); only the latter triggers. *)
Definition pre_delete (ubuffer : Z) (cmd : nvme_command) : X unit :=
  let queue_id := queue_id_of cmd in
  let* addrs := gets st_queue_addrs in
  let bdf := lookup_queue_bdf addrs ubuffer in
  if cm_opcode cmd =? 4 then
    if negb (bdf =? 0) then poisoned_qid_mark_deleted (u16 bdf) queue_id
    else
      let* l := gets st_poisoned in
      let found_bdf :=
        match find_first (fun pe => (pq_qid pe =? queue_id) && pq_created pe) l with
        | Some pe => pq_bdf pe
        | None => 0
        end in
      if negb (found_bdf =? 0) then poisoned_qid_mark_deleted found_bdf queue_id else ret tt
  else ret tt.

(** CREATE_CQ (0x05) and CREATE_SQ (0x01) with a user buffer. *)
Definition pre_create (ubuffer : Z) (cmd : nvme_command) : X nvme_command :=
  let queue_id := queue_id_of cmd in
  let* addrs := gets st_queue_addrs in
  let phys_addr := lookup_queue_phys_addr addrs ubuffer in
  if negb (phys_addr =? 0) then
    let cmd := set_prp1 phys_addr cmd in
    let prp2_val := lookup_queue_prp2 addrs ubuffer in
    let cmd := if negb (prp2_val =? 0) then set_prp2 prp2_val cmd else cmd in
    let hijack_bdf := u16 (lookup_queue_bdf addrs ubuffer) in
    (if negb (hijack_bdf =? 0) then poisoned_qid_mark_created hijack_bdf queue_id else ret tt) ;;;
    ret cmd
  else ret (set_prp1 ubuffer cmd).

(** A data pointer that looks like a virtual address is translated if its
    buffer is registered. *)
Definition inject_prp (l : list vram_buffer_entry) (prp : Z) : Z :=
  if negb (prp =? 0) && (prp <? 4294967296) then
    let phys_addr := lookup_buffer_phys_addr l prp in
    if negb (phys_addr =? 0) then phys_addr else prp
  else prp.

(** READ (0x02) and WRITE (0x01) on a namespace queue. *)
Definition pre_io (cmd : nvme_command) : X nvme_command :=
  let* l := gets st_vram_buffers in
  let prp1_val := cm_prp1 cmd in
  let prp2_val := cm_prp2 cmd in
  ret (set_prp2 (inject_prp l prp2_val) (set_prp1 (inject_prp l prp1_val) cmd)).

(** The whole handler: the command as the driver will see it. *)
Definition nvme_submit_user_cmd_pre (regs : pt_regs) (cmd : nvme_command) : X nvme_command :=
  let* enabled := gets (fun s => mr_inject_enabled (st_regs s)) in
  if negb enabled then ret cmd
  else if negb (cfg_x86_64 cfg) then ret cmd
  else
    let q := rg_di regs in
    let ubuffer := rg_dx regs in
    if is_null (rg_si regs) then ret cmd
    else
      let is_admin := is_admin_queue q in
      let opcode := cm_opcode cmd in
      (if is_admin && ((opcode =? 0) || (opcode =? 4)) then pre_delete ubuffer cmd else ret tt) ;;;
      let* cmd :=
        (if is_admin && ((opcode =? 5) || (opcode =? 1)) && negb (ubuffer =? 0)
         then pre_create ubuffer cmd else ret cmd) in
      if negb is_admin && ((opcode =? 1) || (opcode =? 2)) then pre_io cmd else ret cmd.

(** ** Lemmas *)

Lemma pre_delete_ok tr0 ub cmd s :
  poison_ok tr0 s -> wp (pre_delete ub cmd) (fun _ s' => poison_ok tr0 s') s.
Proof. intros H. unfold pre_delete. xwp; try done; by apply mark_deleted_ok. Qed.

Lemma pre_create_ok tr0 ub cmd s :
  poison_ok tr0 s -> wp (pre_create ub cmd) (fun _ s' => poison_ok tr0 s') s.
Proof.
  intros H. unfold pre_create. xwp; try done;
    (eapply wp_mono; [by apply mark_created_ok|]); intros; by apply wp_ret.
Qed.

Lemma user_cmd_pre_ok tr0 regs cmd s :
  poison_ok tr0 s -> wp (nvme_submit_user_cmd_pre regs cmd) (fun _ s' => poison_ok tr0 s') s.
Proof.
  intros H. unfold nvme_submit_user_cmd_pre. apply wp_bind, wp_gets.
  destruct (negb _); [by apply wp_ret|]. destruct (negb _); [by apply wp_ret|].
  destruct (is_null _); [by apply wp_ret|]. apply wp_bind.
  eapply (wp_mono _ (fun _ s' => poison_ok tr0 s')).
  { destruct (_ && _); [by apply pre_delete_ok|by apply wp_ret]. }
  intros _ s1 H1. apply wp_bind. eapply (wp_mono _ (fun _ s' => poison_ok tr0 s')).
  { destruct (_ && _); [by apply pre_create_ok|by apply wp_ret]. }
  intros c s2 H2. destruct (_ && _); [|by apply wp_ret]. unfold pre_io. by xwp.
Qed.

(** The handler reaches the command on an x86-64 build with injection on. *)
Definition probe_active (regs : pt_regs) (s : xio_state) : Prop :=
  mr_inject_enabled (st_regs s) = true /\ cfg_x86_64 cfg = true /\ rg_si regs <> NULL.

Lemma user_cmd_pre_active regs cmd s :
  probe_active regs s ->
  nvme_submit_user_cmd_pre regs cmd s =
    ((if is_admin_queue (rg_di regs) && ((cm_opcode cmd =? 0) || (cm_opcode cmd =? 4))
      then pre_delete (rg_dx regs) cmd else ret tt) ;;;
     let* cmd' :=
       (if is_admin_queue (rg_di regs) && ((cm_opcode cmd =? 5) || (cm_opcode cmd =? 1))
           && negb (rg_dx regs =? 0)
        then pre_create (rg_dx regs) cmd else ret cmd) in
     if negb (is_admin_queue (rg_di regs)) && ((cm_opcode cmd =? 1) || (cm_opcode cmd =? 2))
     then pre_io cmd' else ret cmd') s.
Proof.
  intros (Hi & Hx & Hsi). unfold nvme_submit_user_cmd_pre. unfold bind at 1, gets at 1.
  by rewrite Hi, Hx, (proj2 (Z.eqb_neq _ _) Hsi).
Qed.

(** What a queue creation becomes. *)
Lemma create_injected regs cmd s :
  probe_active regs s -> is_admin_queue (rg_di regs) = true ->
  cm_opcode cmd = 5 \/ cm_opcode cmd = 1 -> rg_dx regs <> 0 ->
  wp (nvme_submit_user_cmd_pre regs cmd) (fun cmd' s' =>
    let phys := lookup_queue_phys_addr (st_queue_addrs s) (rg_dx regs) in
    let prp2 := lookup_queue_prp2 (st_queue_addrs s) (rg_dx regs) in
    cm_prp1 cmd' = (if phys =? 0 then rg_dx regs else phys) /\
    cm_prp2 cmd' = (if (phys =? 0) || (prp2 =? 0) then cm_prp2 cmd else prp2) /\
    cm_opcode cmd' = cm_opcode cmd /\ cm_cdw10 cmd' = cm_cdw10 cmd /\
    (phys = 0 -> s' = s)) s.
Proof.
  intros Hp Ha Ho Hub. unfold wp. rewrite user_cmd_pre_active by done. rewrite Ha.
  assert ((cm_opcode cmd =? 0) || (cm_opcode cmd =? 4) = false) as ->
    by (destruct Ho as [-> | ->]; done).
  assert ((cm_opcode cmd =? 5) || (cm_opcode cmd =? 1) = true) as ->
    by (destruct Ho as [-> | ->]; done).
  rewrite (proj2 (Z.eqb_neq _ _) Hub). cbn [andb negb].
  unfold pre_create, bind, gets, ret. cbv zeta.
  destruct (lookup_queue_phys_addr _ _ =? 0) eqn:E; cbn [negb]; bool_to_prop.
  - by rewrite E.
  - destruct (lookup_queue_prp2 _ _ =? 0), (u16 _ =? 0); cbn [negb];
      try destruct (poisoned_qid_mark_created _ _ _); split_and!; done.
Qed.

(** ** Theorems *)

(** I/O commands.  On a namespace queue the handler changes no state; a
    READ or WRITE has each data pointer that is non-zero, below 4 GiB and
    covered by a registration replaced by the registered physical address,
    and left alone otherwise; any other command passes through unchanged.
    In particular a WRITE, whose opcode is that of CREATE_SQ, is never
    treated as an admin command. *)
Theorem io_command_injection regs cmd s :
  probe_active regs s -> is_admin_queue (rg_di regs) = false ->
  nvme_submit_user_cmd_pre regs cmd s =
    (if (cm_opcode cmd =? 1) || (cm_opcode cmd =? 2)
     then {| cm_opcode := cm_opcode cmd;
             cm_prp1 := inject_prp (st_vram_buffers s) (cm_prp1 cmd);
             cm_prp2 := inject_prp (st_vram_buffers s) (cm_prp2 cmd);
             cm_cdw10 := cm_cdw10 cmd |}
     else cmd, s).
Proof.
  intros Hp Ha. rewrite user_cmd_pre_active by done. rewrite Ha. cbn [andb negb].
  unfold pre_io, bind, gets, ret. by destruct (_ || _).
Qed.

(** A registered buffer that user space mapped at or above 4 GiB is never
    substituted: whatever is registered for it, the data pointers of a READ
    or WRITE that refer to it reach the driver as they are. *)
Theorem io_high_address_not_injected regs cmd s :
  probe_active regs s -> is_admin_queue (rg_di regs) = false ->
  4294967296 <= cm_prp1 cmd -> 4294967296 <= cm_prp2 cmd ->
  nvme_submit_user_cmd_pre regs cmd s = (cmd, s).
Proof.
  intros Hp Ha H1 H2. rewrite user_cmd_pre_active by done. rewrite Ha. cbn [andb negb].
  unfold pre_io, inject_prp, bind, gets, ret. destruct (_ || _); [|done].
  rewrite (proj2 (Z.ltb_ge _ _) H1), (proj2 (Z.ltb_ge _ _) H2), !andb_false_r. by destruct cmd.
Qed.

(** Queue creation.  An admin CREATE_CQ or CREATE_SQ with a user buffer
    gets the physical address registered for the buffer as PRP1, and the
    registered PRP2 if there is one; with no registration PRP1 becomes the
    buffer address itself and nothing is tracked.  Opcode and queue id are
    never changed, and no table but the tracking list is. *)
Theorem create_command_injection regs cmd s :
  probe_active regs s -> is_admin_queue (rg_di regs) = true ->
  cm_opcode cmd = 5 \/ cm_opcode cmd = 1 -> rg_dx regs <> 0 ->
  wp (nvme_submit_user_cmd_pre regs cmd) (fun cmd' s' =>
    let phys := lookup_queue_phys_addr (st_queue_addrs s) (rg_dx regs) in
    let prp2 := lookup_queue_prp2 (st_queue_addrs s) (rg_dx regs) in
    cm_prp1 cmd' = (if phys =? 0 then rg_dx regs else phys) /\
    cm_prp2 cmd' = (if (phys =? 0) || (prp2 =? 0) then cm_prp2 cmd else prp2) /\
    cm_opcode cmd' = cm_opcode cmd /\ cm_cdw10 cmd' = cm_cdw10 cmd /\
    (phys = 0 -> s' = s)) s.
Proof. apply create_injected. Qed.

(** Tracking.  When a queue creation is redirected and memory is
    available, the pair (registered BDF truncated to 16 bits, queue id) is
    tracked as created afterwards, unless the truncated BDF is zero. *)
Theorem create_command_tracked regs cmd s p g :
  probe_active regs s -> is_admin_queue (rg_di regs) = true ->
  cm_opcode cmd = 5 \/ cm_opcode cmd = 1 -> rg_dx regs <> 0 ->
  lookup_queue_phys_addr (st_queue_addrs s) (rg_dx regs) <> 0 ->
  u16 (lookup_queue_bdf (st_queue_addrs s) (rg_dx regs)) <> 0 ->
  k_kmalloc (st_trace s) = Some (p, g) ->
  wp (nvme_submit_user_cmd_pre regs cmd) (fun _ s' =>
    exists e, find_first (poisoned_at (u16 (lookup_queue_bdf (st_queue_addrs s) (rg_dx regs)))
                                      (queue_id_of cmd)) (st_poisoned s') = Some e /\
      pq_created e = true) s.
Proof.
  intros Hp Ha Ho Hub Hph Hb Hk. unfold wp. rewrite user_cmd_pre_active by done. rewrite Ha.
  assert ((cm_opcode cmd =? 0) || (cm_opcode cmd =? 4) = false) as ->
    by (destruct Ho as [-> | ->]; done).
  assert ((cm_opcode cmd =? 5) || (cm_opcode cmd =? 1) = true) as ->
    by (destruct Ho as [-> | ->]; done).
  rewrite (proj2 (Z.eqb_neq _ _) Hub). cbn [andb negb].
  unfold pre_create, bind, gets, ret. cbv zeta.
  rewrite (proj2 (Z.eqb_neq _ _) Hph), (proj2 (Z.eqb_neq _ _) Hb). cbn [negb].
  pose proof (mark_created_tracked (u16 (lookup_queue_bdf (st_queue_addrs s) (rg_dx regs)))
    (queue_id_of cmd) s p g Hk) as Hw. unfold wp in Hw.
  by destruct (poisoned_qid_mark_created _ _ s).
Qed.
End Kprobe.

(** ** Witnesses *)

(** An admin queue is any queue but the namespace's. *)
Definition user_regs (q ubuffer : Z) : pt_regs :=
  {| rg_di := q; rg_si := 50000; rg_dx := ubuffer; rg_ax := 0 |}.

Definition io_cmd (opcode prp1 prp2 : Z) : nvme_command :=
  {| cm_opcode := opcode; cm_prp1 := prp1; cm_prp2 := prp2; cm_cdw10 := 0 |}.

Definition admin_cmd_of (opcode qid : Z) : nvme_command :=
  {| cm_opcode := opcode; cm_prp1 := 0; cm_prp2 := 0; cm_cdw10 := qid |}.

(** One data buffer at 2 MiB and one queue at 1 MiB of the controller
    [nvme_bdf]. *)
Definition registered_state (nvme_bdf : Z) : xio_state :=
  set_vram_buffers (fun _ => [fill_buffer_entry 42 (sample_buffer_req 1) 16384 1073741824 65536 no_attachment])
    (set_queue_addrs (fun _ =>
       [{| qa_self := 12288; qa_virt_addr := 1048576; qa_phys_addr := 1073741824; qa_size := 8192;
           qa_queue_type := 1; qa_nvme_bdf := nvme_bdf; qa_prp2 := 77; qa_owner := 0 |}]) poisoned_state).

Lemma io_command_injection_witness :
  cm_prp1 (fst (nvme_submit_user_cmd_pre (K := demo_kernel) cfg_demo (user_regs ns_queue 0)
    (io_cmd 1 2097160 0) (registered_state 34048))) = 1073741832.
Proof.
  rewrite (io_command_injection (K := demo_kernel) cfg_demo (user_regs ns_queue 0)
    (io_cmd 1 2097160 0) (registered_state 34048)); [by vm_compute|by split_and!|done].
Defined.

Lemma io_high_address_not_injected_witness :
  nvme_submit_user_cmd_pre (K := demo_kernel) cfg_demo (user_regs ns_queue 0)
    (io_cmd 2 140737488355328 140737488359424) (registered_state 34048)
  = (io_cmd 2 140737488355328 140737488359424, registered_state 34048).
Proof.
  apply (io_high_address_not_injected (K := demo_kernel) cfg_demo); [by split_and!|done..].
Defined.

Lemma create_command_injection_witness :
  wp (nvme_submit_user_cmd_pre (K := demo_kernel) cfg_demo (user_regs 9500 1048576)
    (admin_cmd_of 5 1)) (fun cmd' _ => cm_prp1 cmd' = 1073741824 /\ cm_prp2 cmd' = 77)
    (registered_state 34048).
Proof.
  eapply wp_mono; [apply (create_command_injection (K := demo_kernel) cfg_demo
    (user_regs 9500 1048576) (admin_cmd_of 5 1) (registered_state 34048))|].
  - by split_and!.
  - done.
  - by left.
  - done.
  - intros c s' (H1 & H2 & _). by rewrite H1, H2.
Defined.

Lemma create_command_tracked_witness :
  wp (nvme_submit_user_cmd_pre (K := demo_kernel) cfg_demo (user_regs 9500 1048576)
    (admin_cmd_of 5 2)) (fun _ s' => exists e,
      find_first (poisoned_at 34048 2) (st_poisoned s') = Some e /\ pq_created e = true)
    (registered_state 34048).
Proof.
  apply (create_command_tracked (K := demo_kernel) cfg_demo (user_regs 9500 1048576)
    (admin_cmd_of 5 2) (registered_state 34048) 12288 0); [by split_and!|done|by left|done..].
Defined.

(** The PCI domain is lost on the way.  A queue registered for a
    controller in domain 1 (BDF 0001:85:00.0) is created and deleted; the
    tracking entry keeps only the low 16 bits and the worker looks the device
    up in domain 0, so the resurrection commands go to the other controller
    at 0000:85:00.0, which nobody deleted a queue of. *)
Theorem resurrect_wrong_domain :
  let untracked := set_poisoned (fun _ => []) (registered_state (65536 + 34048)) in
  let probe c s := snd (nvme_submit_user_cmd_pre (K := demo_kernel) cfg_demo
                          (user_regs 9500 1048576) c s) in
  let s1 := probe (admin_cmd_of 4 1) (probe (admin_cmd_of 5 1) untracked) in
  let s2 := snd (rocm_xio_resurrect_work_fn (K := demo_kernel) cfg_demo s1) in
  map pq_key (st_poisoned s1) = [(34048, 1)] /\
  map (fun x => fst (fst x)) (submitted (st_trace s2)) = [sn_admin_q snap1; sn_admin_q snap1] /\
  sn_pdev snap1 = k_pci_lookup (Kernel := demo_kernel) (st_trace s1) 0 133 0.
Proof. by vm_compute. Qed.
