(* ===== verification/Frame.v ===== *)
(** * What each operation can touch

    A footprint is the set of parts of the module's state an operation may
    change; [touches P m] says that running [m] leaves every part outside [P]
    as it was.  The part [PUaf] stands for the use-after-free history: an
    operation without it touches no freed object. *)

From S2P Require Import Prelude Uapi Kernel State QueueReg DmaBuf BufferReg Contig Quiesce Snapshot Poison Kprobe.

Inductive part :=
| PQueues | PBuffers | PContig | PQuiesced | PSnapshots | PPending | PPoisoned
| PShadow | PRegs | PNvme | PUaf.

#[global] Instance part_eq_dec : EqDecision part.
Proof. solve_decision. Defined.

Definition part_same (p : part) (s s' : xio_state) : Prop :=
  match p with
  | PQueues => st_queue_addrs s' = st_queue_addrs s
  | PBuffers => st_vram_buffers s' = st_vram_buffers s
  | PContig => st_contig s' = st_contig s
  | PQuiesced => st_quiesced s' = st_quiesced s
  | PSnapshots => st_snapshots s' = st_snapshots s
  | PPending => st_pending s' = st_pending s
  | PPoisoned => st_poisoned s' = st_poisoned s
  | PShadow => st_shadow_gpa s' = st_shadow_gpa s /\ st_shadow_size s' = st_shadow_size s
  | PRegs => st_regs s' = st_regs s
  | PNvme => st_nvme s' = st_nvme s
  | PUaf => uaf_free (st_trace s') = uaf_free (st_trace s)
  end.

Definition footprint : Type := part -> bool.
Definition only (l : list part) : footprint := fun p => bool_decide (p ∈ l).

Definition touches (P : footprint) {A} (m : X A) : Prop :=
  forall s p, P p = false -> part_same p s (snd (m s)).

Lemma part_same_refl p s : part_same p s s.
Proof. by destruct p. Qed.

Lemma part_same_trans p s1 s2 s3 : part_same p s1 s2 -> part_same p s2 s3 -> part_same p s1 s3.
Proof. destruct p; simpl; try congruence. intros [] []. split; congruence. Qed.

Section Rules.
Variable P : footprint.

Lemma touches_ret {A} (a : A) : touches P (ret a).
Proof. intros s p _. apply part_same_refl. Qed.

Lemma touches_gets {A} (f : xio_state -> A) : touches P (gets f).
Proof. intros s p _. apply part_same_refl. Qed.

Lemma touches_ask {A} (f : trace -> A) : touches P (ask f).
Proof. intros s p _. apply part_same_refl. Qed.

Lemma touches_bind {A B} (m : X A) (k : A -> X B) :
  touches P m -> (forall a, touches P (k a)) -> touches P (bind m k).
Proof.
  intros Hm Hk s p Hp. unfold bind. specialize (Hm s p Hp).
  destruct (m s) as [a s1]. eapply part_same_trans; [exact Hm|]. by apply Hk.
Qed.

Lemma touches_modify f :
  (forall s p, P p = false -> part_same p s (f s)) -> touches P (modify f).
Proof. intros H s p Hp. by apply H. Qed.

Lemma touches_log e : P PUaf = true \/ uaf_free [e] = true -> touches P (log e).
Proof.
  intros He s p Hp. destruct p; simpl; try done. destruct He as [He|He]; [congruence|].
  unfold uaf_free in *. cbn in He |- *. rewrite andb_true_r in He. by rewrite He.
Qed.

Lemma touches_iter {A} (f : A -> X unit) l : (forall x, touches P (f x)) -> touches P (iterM f l).
Proof.
  intros H. induction l as [|x l IH]; [apply touches_ret|]. cbn [iterM]. by apply touches_bind.
Qed.
End Rules.

(** Symbolic execution of footprints. *)
Ltac touch_modify :=
  apply touches_modify; intros ? [] Hp;
  first [exact (part_same_refl _ _) | by split | discriminate Hp | (by vm_compute in Hp)].
Ltac touch_step :=
  match goal with
  | |- touches _ (ret _) => apply touches_ret
  | |- touches _ (gets _) => apply touches_gets
  | |- touches _ (ask _) => apply touches_ask
  | |- touches _ (bind _ _) => apply touches_bind; [|intros ?]
  | |- touches _ (log _) => apply touches_log; first [by right|by left; vm_compute]
  | |- touches _ (modify _) => touch_modify
  | |- touches _ (iterM _ _) => apply touches_iter; intros ?
  | |- touches _ kmalloc => unfold kmalloc
  | |- touches _ (kfree _) => unfold kfree
  | |- touches _ (pci_dev_put _) => unfold pci_dev_put
  | |- touches _ (copy_to_user _) => unfold copy_to_user
  | |- touches _ (fput _) => unfold fput
  | |- touches _ (fget _) => unfold fget
  | |- touches _ (pci_get_domain_bus_and_slot _ _ _) => unfold pci_get_domain_bus_and_slot
  | |- touches _ (if ?b then _ else _) => destruct b
  | |- touches _ (match ?x with _ => _ end) => destruct x
  | |- touches _ (let _ := _ in _) => cbv zeta
  end.
Ltac touch := repeat (touch_step || solve [auto with footprints]).

Create HintDb footprints discriminated.

Section Footprints.
Context `{K : Kernel}.
Variable cfg : build_config.

(** ** Queue addresses *)

Lemma register_queue_addr_touches file arg :
  touches (only [PQueues]) (ioctl_register_queue_addr file arg).
Proof. unfold ioctl_register_queue_addr. touch. Qed.

Lemma unregister_queue_addr_touches file arg :
  touches (only [PQueues]) (ioctl_unregister_queue_addr file arg).
Proof. unfold ioctl_unregister_queue_addr. touch. Qed.

Lemma release_queue_addrs_touches file : touches (only [PQueues]) (release_queue_addrs file).
Proof. unfold release_queue_addrs. touch. Qed.

Lemma exit_queue_addrs_touches : touches (only [PQueues]) exit_queue_addrs.
Proof. unfold exit_queue_addrs. touch. Qed.

(** ** Buffers *)

Lemma get_dmabuf_bar_gpa_touches P fd a z : touches P (get_dmabuf_bar_gpa fd a z).
Proof.
  unfold get_dmabuf_bar_gpa, cleanup, cleanup_detach, cleanup_no_attach. touch.
Qed.

Lemma get_dmabuf_phys_addr_touches P fd b a z : touches P (get_dmabuf_phys_addr fd b a z).
Proof.
  unfold get_dmabuf_phys_addr, err_unmap, err_unpin, err_detach, err_put_dmabuf, err_put_pci. touch.
Qed.
#[local] Hint Resolve get_dmabuf_bar_gpa_touches get_dmabuf_phys_addr_touches : footprints.

Lemma get_vram_phys_addr_touches P arg : touches P (ioctl_get_vram_phys_addr arg).
Proof. unfold ioctl_get_vram_phys_addr. touch. Qed.

Lemma put_attachment_touches P a : touches P (put_attachment a).
Proof. unfold put_attachment. touch. Qed.
#[local] Hint Resolve put_attachment_touches : footprints.

Lemma drop_attachment_touches P e : touches P (drop_attachment e).
Proof. unfold drop_attachment. touch. Qed.
#[local] Hint Resolve drop_attachment_touches : footprints.

Lemma register_buffer_touches file arg :
  touches (only [PBuffers]) (ioctl_register_buffer file arg).
Proof. unfold ioctl_register_buffer, resolve_buffer. touch. Qed.

Lemma unregister_buffer_touches file arg :
  touches (only [PBuffers]) (ioctl_unregister_buffer file arg).
Proof. unfold ioctl_unregister_buffer. touch. Qed.

Lemma release_vram_buffers_touches file : touches (only [PBuffers]) (release_vram_buffers file).
Proof. unfold release_vram_buffers, drop_buffer. touch. Qed.

Lemma exit_vram_buffers_touches : touches (only [PBuffers]) exit_vram_buffers.
Proof. unfold exit_vram_buffers, drop_buffer. touch. Qed.

(** ** Contiguous allocations *)

Lemma deref_touches P p : P PUaf = true -> touches P (deref p).
Proof.
  intros H. unfold deref. touch_step; [touch|]. destruct a; [touch|].
  touch_step; [|touch]. apply touches_log. by left.
Qed.

Lemma kref_get_touches p : touches (only [PContig; PUaf]) (kref_get p).
Proof. unfold kref_get. touch_step; [by apply deref_touches|]. touch. Qed.

Lemma kref_put_touches p : touches (only [PContig; PUaf]) (kref_put p).
Proof. unfold kref_put, contig_alloc_release. touch_step; [by apply deref_touches|]. touch. Qed.

Lemma list_walk_touches Q l : touches (only [PContig; PUaf]) (list_walk Q l).
Proof.
  induction l as [|p l IH]; cbn [list_walk]; [touch|].
  touch_step; [by apply deref_touches|]. touch.
Qed.
#[local] Hint Resolve kref_get_touches kref_put_touches list_walk_touches : footprints.

Lemma deref_touches_contig p : touches (only [PContig; PUaf]) (deref p).
Proof. by apply deref_touches. Qed.
#[local] Hint Resolve deref_touches_contig : footprints.

Lemma alloc_contig_touches file arg :
  touches (only [PContig; PUaf]) (ioctl_alloc_contig_queue file arg).
Proof.
  unfold ioctl_alloc_contig_queue, contig_alloc_insert, contig_alloc_publish, list_del. touch.
Qed.

Lemma free_contig_touches file arg :
  touches (only [PContig; PUaf]) (ioctl_free_contig_queue file arg).
Proof. unfold ioctl_free_contig_queue, list_del. touch. Qed.

Lemma mmap_touches vma : touches (only [PContig; PUaf]) (rocm_xio_mmap vma).
Proof. unfold rocm_xio_mmap, mmap_shadow, mmap_contig_get, mmap_contig_map. touch. Qed.

Lemma vma_open_touches v v' : touches (only [PContig; PUaf]) (contig_vma_open v v').
Proof. unfold contig_vma_open. touch. Qed.

Lemma vma_close_touches v : touches (only [PContig; PUaf]) (contig_vma_close v).
Proof. unfold contig_vma_close. touch. Qed.

Lemma release_contig_touches file : touches (only [PContig; PUaf]) (release_contig file).
Proof. unfold release_contig. touch. Qed.

Lemma exit_contig_touches : touches (only [PContig; PUaf]) exit_contig.
Proof. unfold exit_contig. touch. Qed.

(** ** Quiesced namespaces *)

Lemma quiesce_ns_touches file arg : touches (only [PQuiesced]) (ioctl_quiesce_ns file arg).
Proof.
  unfold ioctl_quiesce_ns, quiesce_target, quiesce_commit, rocm_xio_hctx_at. touch.
Qed.

Lemma unquiesce_ns_touches file arg : touches (only [PQuiesced]) (ioctl_unquiesce_ns file arg).
Proof.
  unfold ioctl_unquiesce_ns, unquiesce_remove, unquiesce_resume, resume_ns, rocm_xio_hctx_at. touch.
Qed.

Lemma release_quiesced_touches file : touches (only [PQuiesced]) (release_quiesced file).
Proof. unfold release_quiesced, drop_ns, resume_ns, rocm_xio_hctx_at. touch. Qed.

Lemma exit_quiesced_touches : touches (only [PQuiesced]) exit_quiesced.
Proof. unfold exit_quiesced, drop_ns, resume_ns, rocm_xio_hctx_at. touch. Qed.

(** ** Snapshots *)

Lemma pci_walk_touches P d devs : forall prev, touches P (pci_walk d prev devs).
Proof. induction devs as [|x devs IH]; intros prev; cbn [pci_walk]; touch. Qed.
#[local] Hint Resolve pci_walk_touches : footprints.

Lemma alloc_queue_ret_touches ctx regs :
  touches (only [PPending]) (nvme_alloc_queue_ret_handler cfg ctx regs).
Proof. unfold nvme_alloc_queue_ret_handler, queue_capture. touch. Qed.

Lemma create_queue_ret_touches ctx regs :
  touches (only [PPending]) (nvme_create_queue_ret_handler cfg ctx regs).
Proof. unfold nvme_create_queue_ret_handler, queue_capture. touch. Qed.

Lemma snapshot_work_touches : touches (only [PPending; PSnapshots]) rocm_xio_snapshot_work_fn.
Proof.
  unfold rocm_xio_snapshot_work_fn, snapshot_work_one, nvme_queue_snapshot_store. touch.
Qed.

Lemma exit_pending_touches : touches (only [PPending]) exit_pending.
Proof. unfold exit_pending. touch. Qed.

Lemma snapshots_free_all_touches : touches (only [PSnapshots]) nvme_queue_snapshots_free_all.
Proof. unfold nvme_queue_snapshots_free_all, drop_snapshot. touch. Qed.

(** ** Hijacked queues and the probe *)

Lemma mark_created_touches b q : touches (only [PPoisoned]) (poisoned_qid_mark_created b q).
Proof. unfold poisoned_qid_mark_created, mark_created_check, mark_created_insert. touch. Qed.

Lemma mark_deleted_touches b q : touches (only [PPoisoned]) (poisoned_qid_mark_deleted b q).
Proof. unfold poisoned_qid_mark_deleted. touch. Qed.
#[local] Hint Resolve mark_created_touches mark_deleted_touches : footprints.

Lemma resurrect_collect_touches P l : touches P (resurrect_collect l).
Proof. induction l as [|e l IH]; cbn [resurrect_collect]; touch. Qed.
#[local] Hint Resolve resurrect_collect_touches : footprints.

Lemma resurrect_work_touches :
  touches (only [PPoisoned; PNvme]) (rocm_xio_resurrect_work_fn cfg).
Proof.
  unfold rocm_xio_resurrect_work_fn, resurrect_one, resurrect_submit, nvme_submit_sync_cmd,
    ring_writeback. touch.
Qed.

Lemma exit_poisoned_touches : touches (only [PPoisoned]) exit_poisoned.
Proof. unfold exit_poisoned. touch. Qed.

Lemma user_cmd_pre_touches regs cmd :
  touches (only [PPoisoned]) (nvme_submit_user_cmd_pre cfg regs cmd).
Proof. unfold nvme_submit_user_cmd_pre, pre_delete, pre_create, pre_io. touch. Qed.
End Footprints.
