(* ===== verification/Driver.v ===== *)
(** * The module as a whole

    The ioctl dispatcher [rocm_xio_ioctl] of
    [src/kernel/rocm-xio/rocm-xio.c] with the commands not modelled
    elsewhere, the file operations, [rocm_xio_init] and [rocm_xio_exit], and
    the transition system of a loaded module: any file issuing any command,
    mappings coming and going, probes firing and workers running, in any
    order, with every kernel service failing at will. *)

From S2P Require Import Prelude Uapi Kernel State Demo Bdf QueueReg DmaBuf BufferReg Contig Quiesce Snapshot Poison Kprobe Frame.

(** ** ioctl *)

(** A command with its argument as [copy_from_user] delivers it: [None] when
    the copy faults.  [CREATE_QUEUE], [DELETE_QUEUE] and unknown commands do
    not read theirs. *)
Inductive ioctl_call :=
| Call_get_vram_phys_addr (arg : option rocm_xio_vram_req)
| Call_get_device_info (arg : option rocm_xio_device_info)
| Call_create_queue
| Call_delete_queue
| Call_bind_device (arg : option rocm_xio_bind_device_req)
| Call_register_queue_addr (arg : option rocm_xio_register_queue_addr_req)
| Call_unregister_queue_addr (arg : option rocm_xio_unregister_queue_addr_req)
| Call_register_buffer (arg : option rocm_xio_register_buffer_req)
| Call_unregister_buffer (arg : option rocm_xio_unregister_buffer_req)
| Call_get_mmio_bridge_shadow_buffer (arg : option rocm_xio_mmio_bridge_shadow_req)
| Call_alloc_contig_queue (arg : option rocm_xio_alloc_contig_req)
| Call_quiesce_ns (arg : option rocm_xio_quiesce_ns_req)
| Call_unquiesce_ns (arg : option rocm_xio_quiesce_ns_req)
| Call_debug_resurrect_qid (arg : option rocm_xio_debug_resurrect_req)
| Call_free_contig_queue (arg : option rocm_xio_free_contig_req)
| Call_unknown.

Section Module.
Context `{K : Kernel}.
Variable cfg : build_config.

Definition ioctl_get_device_info (arg : option rocm_xio_device_info) : X Z :=
  match arg with
  | None => ret (- EFAULT)
  | Some info =>
    let* '(rc, info) := get_nvme_device_info (di_bdf info) info in
    if rc <? 0 then ret rc
    else
      let* fault := copy_to_user (UInfo info) in
      if (fault : bool) then ret (- EFAULT) else ret 0
  end.

Definition ioctl_bind_device (arg : option rocm_xio_bind_device_req) : X Z :=
  match arg with
  | None => ret (- EFAULT)
  | Some req => ret 0
  end.

Definition ioctl_get_mmio_bridge_shadow_buffer (arg : option rocm_xio_mmio_bridge_shadow_req)
    : X Z :=
  match arg with
  | None => ret (- EFAULT)
  | Some req =>
    let* '(rc, req) := get_mmio_bridge_shadow_buffer (mb_bridge_bdf req) req in
    if rc <? 0 then ret rc
    else
      modify (set_shadow (mb_shadow_gpa req) (mb_shadow_size req)) ;;;
      let* fault := copy_to_user (UShadow req) in
      if (fault : bool) then ret (- EFAULT) else ret 0
  end.

Definition ioctl_debug_resurrect_qid (arg : option rocm_xio_debug_resurrect_req) : X Z :=
  let* capable := ask k_capable_sys_admin in
  if negb capable then ret (- EPERM)
  else
    match arg with
    | None => ret (- EFAULT)
    | Some req =>
      poisoned_qid_mark_created (dq_bdf req) (dq_qid req) ;;;
      poisoned_qid_mark_deleted (dq_bdf req) (dq_qid req) ;;;
      ret 0
    end.

Definition rocm_xio_ioctl (file : ptr) (call : ioctl_call) : X Z :=
  match call with
  | Call_get_vram_phys_addr arg => ioctl_get_vram_phys_addr arg
  | Call_get_device_info arg => ioctl_get_device_info arg
  | Call_create_queue => ret (- EOPNOTSUPP)
  | Call_delete_queue => ret (- EOPNOTSUPP)
  | Call_bind_device arg => ioctl_bind_device arg
  | Call_register_queue_addr arg => ioctl_register_queue_addr file arg
  | Call_unregister_queue_addr arg => ioctl_unregister_queue_addr file arg
  | Call_register_buffer arg => ioctl_register_buffer file arg
  | Call_unregister_buffer arg => ioctl_unregister_buffer file arg
  | Call_get_mmio_bridge_shadow_buffer arg => ioctl_get_mmio_bridge_shadow_buffer arg
  | Call_alloc_contig_queue arg => ioctl_alloc_contig_queue file arg
  | Call_quiesce_ns arg => ioctl_quiesce_ns file arg
  | Call_unquiesce_ns arg => ioctl_unquiesce_ns file arg
  | Call_debug_resurrect_qid arg => ioctl_debug_resurrect_qid arg
  | Call_free_contig_queue arg => ioctl_free_contig_queue file arg
  | Call_unknown => ret (- ENOTTY)
  end.

(** ** File operations *)

Definition rocm_xio_uring_cmd : X Z := ret (- ENOSYS).

Definition rocm_xio_release (file : ptr) : X Z :=
  release_queue_addrs file ;;;
  release_vram_buffers file ;;;
  release_contig file ;;;
  release_quiesced file ;;;
  ret 0.

(** ** Loading *)

Definition with_major (m : Z) (r : module_regs) : module_regs :=
  {| mr_inject_enabled := mr_inject_enabled r; mr_major := m; mr_class := mr_class r;
     mr_device := mr_device r; mr_alloc_krp_registered := mr_alloc_krp_registered r;
     mr_create_krp_registered := mr_create_krp_registered r |}.
Definition with_class (c : ptr) (r : module_regs) : module_regs :=
  {| mr_inject_enabled := mr_inject_enabled r; mr_major := mr_major r; mr_class := c;
     mr_device := mr_device r; mr_alloc_krp_registered := mr_alloc_krp_registered r;
     mr_create_krp_registered := mr_create_krp_registered r |}.
Definition with_device (d : ptr) (r : module_regs) : module_regs :=
  {| mr_inject_enabled := mr_inject_enabled r; mr_major := mr_major r; mr_class := mr_class r;
     mr_device := d; mr_alloc_krp_registered := mr_alloc_krp_registered r;
     mr_create_krp_registered := mr_create_krp_registered r |}.
Definition with_inject (b : bool) (r : module_regs) : module_regs :=
  {| mr_inject_enabled := b; mr_major := mr_major r; mr_class := mr_class r;
     mr_device := mr_device r; mr_alloc_krp_registered := mr_alloc_krp_registered r;
     mr_create_krp_registered := mr_create_krp_registered r |}.
Definition with_krp (k : krp) (b : bool) (r : module_regs) : module_regs :=
  match k with
  | KrpAllocQueue =>
    {| mr_inject_enabled := mr_inject_enabled r; mr_major := mr_major r; mr_class := mr_class r;
       mr_device := mr_device r; mr_alloc_krp_registered := b;
       mr_create_krp_registered := mr_create_krp_registered r |}
  | KrpCreateQueue =>
    {| mr_inject_enabled := mr_inject_enabled r; mr_major := mr_major r; mr_class := mr_class r;
       mr_device := mr_device r; mr_alloc_krp_registered := mr_alloc_krp_registered r;
       mr_create_krp_registered := b |}
  end.
Definition krp_registered (k : krp) (r : module_regs) : bool :=
  match k with
  | KrpAllocQueue => mr_alloc_krp_registered r
  | KrpCreateQueue => mr_create_krp_registered r
  end.

(** A failed registration of the kprobe turns injection off and the load goes
    on. *)
Definition init_kprobe : X unit :=
  let* enabled := gets (fun s => mr_inject_enabled (st_regs s)) in
  if enabled then
    let* rc := ask k_register_kprobe in
    if rc <? 0 then log (EvFail FKprobe) ;;; modify (set_regs (with_inject false))
    else log EvRegKprobe
  else ret tt.

Definition init_kretprobe (k : krp) : X unit :=
  let* rc := ask (fun tr => k_register_kretprobe tr k) in
  if rc <? 0 then log (EvFail FKretprobe)
  else log (EvRegKretprobe k) ;;; modify (set_regs (with_krp k true)).

Definition rocm_xio_init : X Z :=
  let* major := ask k_register_chrdev in
  modify (set_regs (with_major major)) ;;;
  if major <? 0 then log (EvFail FChrdev) ;;; ret major
  else
    log (EvRegChrdev major) ;;;
    let* class := ask k_class_create in
    match class with
    | ErrPtr e =>
      log (EvFail FClass) ;;;
      log (EvUnregChrdev major) ;;;
      ret (PTR_ERR e)
    | OkPtr c =>
      log (EvClassCreate c) ;;;
      modify (set_regs (with_class c)) ;;;
      let* device := ask (fun tr => k_device_create tr c major) in
      match device with
      | ErrPtr e =>
        log (EvFail FDevice) ;;;
        log (EvClassDestroy c) ;;;
        log (EvUnregChrdev major) ;;;
        ret (PTR_ERR e)
      | OkPtr d =>
        log (EvDeviceCreate c major) ;;;
        modify (set_regs (with_device d)) ;;;
        init_kprobe ;;;
        init_kretprobe KrpAllocQueue ;;;
        init_kretprobe KrpCreateQueue ;;;
        ret 0
      end
    end.

(** ** Unloading *)

Definition exit_kretprobe (k : krp) : X unit :=
  let* registered := gets (fun s => krp_registered k (st_regs s)) in
  if registered then
    log (EvUnregKretprobe k) ;;; modify (set_regs (with_krp k false))
  else ret tt.

Definition exit_probes : X unit :=
  let* enabled := gets (fun s => mr_inject_enabled (st_regs s)) in
  (if enabled then log EvUnregKprobe else ret tt) ;;;
  exit_kretprobe KrpAllocQueue ;;;
  exit_kretprobe KrpCreateQueue.

Definition exit_device : X unit :=
  let* r := gets st_regs in
  log (EvDeviceDestroy (mr_class r) (mr_major r)) ;;;
  log (EvClassDestroy (mr_class r)) ;;;
  log (EvUnregChrdev (mr_major r)).

Definition rocm_xio_exit : X unit :=
  exit_probes ;;;
  log EvCancelWork ;;;
  log EvCancelWork ;;;
  exit_pending ;;;
  nvme_queue_snapshots_free_all ;;;
  exit_poisoned ;;;
  exit_queue_addrs ;;;
  exit_vram_buffers ;;;
  exit_contig ;;;
  exit_quiesced ;;;
  exit_device.

(** ** Transitions of the loaded module *)

Inductive module_step : xio_state -> xio_state -> Prop :=
| step_ioctl file call s : module_step s (snd (rocm_xio_ioctl file call s))
| step_mmap vma s :
    cs_vmas (st_contig s) !! vma_id vma = None ->
    module_step s (snd (rocm_xio_mmap vma s))
| step_open v v' s :
    cs_vmas (st_contig s) !! v' = None ->
    module_step s (snd (contig_vma_open v v' s))
| step_close v s : module_step s (snd (contig_vma_close v s))
| step_uring s : module_step s (snd (rocm_xio_uring_cmd s))
| step_release file s : module_step s (snd (rocm_xio_release file s))
| step_probe regs cmd s : module_step s (snd (nvme_submit_user_cmd_pre cfg regs cmd s))
| step_alloc_ret ctx regs s : module_step s (snd (nvme_alloc_queue_ret_handler cfg ctx regs s))
| step_create_ret ctx regs s : module_step s (snd (nvme_create_queue_ret_handler cfg ctx regs s))
| step_snapshot_work s : module_step s (snd (rocm_xio_snapshot_work_fn s))
| step_resurrect_work s : module_step s (snd (rocm_xio_resurrect_work_fn cfg s))
| step_driver mem s : module_step s (set_nvme (fun _ => mem) s).

(** ** Invariant *)

Record module_inv (tr0 : trace) (regs : module_regs) (s : xio_state) : Prop := {
  mi_balanced : balanced tr0 s;
  mi_buffers : buffers_wf s;
  mi_contig : contig_inv no_refs (st_contig s);
  mi_uaf : uaf_free (st_trace s) = true;
  mi_quiesce : quiesce_inv s;
  mi_snapshots : snapshots_unique s;
  mi_poisoned : poisoned_unique s;
  mi_regs : st_regs s = regs
}.

(** An operation keeps the invariant if it keeps the books and the invariants
    of the parts it touches. *)
Lemma module_inv_op P {A} (m : X A) tr0 regs s :
  touches P m -> module_inv tr0 regs s ->
  P PRegs = false ->
  balanced tr0 (snd (m s)) ->
  (P PBuffers = true -> buffers_wf (snd (m s))) ->
  (P PContig = true -> contig_inv no_refs (st_contig (snd (m s)))) ->
  (P PUaf = true -> uaf_free (st_trace (snd (m s))) = true) ->
  (P PQuiesced = true -> quiesce_inv (snd (m s))) ->
  (P PSnapshots = true -> snapshots_unique (snd (m s))) ->
  (P PPoisoned = true -> poisoned_unique (snd (m s))) ->
  module_inv tr0 regs (snd (m s)).
Proof.
  intros Ht [Hb Hbu Hc Hu [Hq1 Hq2] Hs Hp Hr] HR Hbal H1 H2 H3 H4 H5 H6. specialize (Ht s). split.
  - done.
  - destruct (P PBuffers) eqn:E; [auto|]. unfold buffers_wf. by rewrite (Ht _ E).
  - destruct (P PContig) eqn:E; [auto|]. by rewrite (Ht _ E).
  - destruct (P PUaf) eqn:E; [auto|]. by rewrite (Ht _ E).
  - destruct (P PQuiesced) eqn:E; [auto|]. split; by rewrite (Ht _ E).
  - destruct (P PSnapshots) eqn:E; [auto|]. unfold snapshots_unique. by rewrite (Ht _ E).
  - destruct (P PPoisoned) eqn:E; [auto|]. unfold poisoned_unique. by rewrite (Ht _ E).
  - by rewrite (Ht _ HR).
Qed.

(** ** The remaining commands *)

Lemma get_device_info_balanced tr0 arg s :
  balanced tr0 s -> wp (ioctl_get_device_info arg) (fun _ s' => balanced tr0 s') s.
Proof. intros H. unfold ioctl_get_device_info, get_nvme_device_info. xwp; ledger. Qed.

Lemma get_mmio_bridge_balanced tr0 arg s :
  balanced tr0 s ->
  wp (ioctl_get_mmio_bridge_shadow_buffer arg) (fun _ s' => balanced tr0 s') s.
Proof.
  intros H. unfold ioctl_get_mmio_bridge_shadow_buffer, get_mmio_bridge_shadow_buffer. xwp; ledger.
Qed.

Lemma debug_resurrect_ok tr0 arg s :
  poison_ok tr0 s -> wp (ioctl_debug_resurrect_qid arg) (fun _ s' => poison_ok tr0 s') s.
Proof.
  intros H. unfold ioctl_debug_resurrect_qid. xwp; try done.
  eapply (wp_mono _ (fun _ s' => poison_ok tr0 s')); [by apply mark_created_ok|].
  intros _ s1 H1. apply wp_bind.
  eapply (wp_mono _ (fun _ s' => poison_ok tr0 s')); [by apply mark_deleted_ok|].
  intros. by apply wp_ret.
Qed.

Lemma get_device_info_touches P arg : touches P (ioctl_get_device_info arg).
Proof. unfold ioctl_get_device_info, get_nvme_device_info. touch. Qed.

Lemma get_mmio_bridge_touches arg :
  touches (only [PShadow]) (ioctl_get_mmio_bridge_shadow_buffer arg).
Proof. unfold ioctl_get_mmio_bridge_shadow_buffer, get_mmio_bridge_shadow_buffer. touch. Qed.

Lemma debug_resurrect_touches arg : touches (only [PPoisoned]) (ioctl_debug_resurrect_qid arg).
Proof.
  unfold ioctl_debug_resurrect_qid. touch; (apply mark_created_touches || apply mark_deleted_touches).
Qed.
End Module.

Section ModuleInvariant.
Context {K : Kernel} {KO : KernelOk K}.
Variable cfg : build_config.
Variables (tr0 : trace) (regs : module_regs).
Hypothesis Hbase : forall r, 0 <= held tr0 r.

Abbreviation inv := (module_inv tr0 regs).

Lemma no_refs_nonneg q : 0 <= no_refs q.
Proof. done. Qed.

Lemma inv_contig_ok s : inv s -> contig_ok tr0 no_refs s.
Proof. intros []. by split. Qed.

Lemma inv_poison_ok s : inv s -> poison_ok tr0 s.
Proof. intros []. by split. Qed.

(** Operations on one component, by the lemma of that component. *)
Lemma inv_quiet {A} (m : X A) s :
  touches (only [PQueues; PPending; PNvme; PShadow]) m ->
  inv s -> balanced tr0 (snd (m s)) -> inv (snd (m s)).
Proof. intros Ht Hi Hb. eapply module_inv_op; done. Qed.

Lemma touches_weaken (P Q : footprint) {A} (m : X A) :
  (forall p, Q p = false -> P p = false) -> touches P m -> touches Q m.
Proof. intros H Ht s p Hp. by apply Ht, H. Qed.

Lemma inv_buffers {A} (m : X A) s :
  touches (only [PBuffers]) m -> inv s ->
  wp m (fun _ s' => balanced tr0 s' /\ buffers_wf s') s -> inv (snd (m s)).
Proof.
  intros Ht Hi Hw. apply (wp_snd m (fun s' => balanced tr0 s' /\ buffers_wf s')) in Hw as [Hb Hw].
  by eapply module_inv_op.
Qed.

Lemma inv_contig {A} (m : X A) s :
  touches (only [PContig; PUaf]) m -> inv s ->
  wp m (fun _ s' => contig_ok tr0 no_refs s') s -> inv (snd (m s)).
Proof. intros Ht Hi Hw. apply wp_snd in Hw as []. by eapply module_inv_op. Qed.

Lemma inv_quiesce {A} (m : X A) s :
  touches (only [PQuiesced]) m -> inv s ->
  wp m (fun _ s' => balanced tr0 s' /\ quiesce_inv s') s -> inv (snd (m s)).
Proof.
  intros Ht Hi Hw. apply (wp_snd m (fun s' => balanced tr0 s' /\ quiesce_inv s')) in Hw as [Hb Hw].
  by eapply module_inv_op.
Qed.

Lemma inv_snapshots {A} (m : X A) s :
  touches (only [PPending; PSnapshots]) m -> inv s ->
  wp m (fun _ s' => balanced tr0 s' /\ snapshots_unique s') s -> inv (snd (m s)).
Proof.
  intros Ht Hi Hw.
  apply (wp_snd m (fun s' => balanced tr0 s' /\ snapshots_unique s')) in Hw as [Hb Hw].
  by eapply module_inv_op.
Qed.

Lemma inv_poisoned {A} (m : X A) s :
  touches (only [PPoisoned; PNvme]) m -> inv s ->
  wp m (fun _ s' => poison_ok tr0 s') s -> inv (snd (m s)).
Proof. intros Ht Hi Hw. apply wp_snd in Hw as []. by eapply module_inv_op. Qed.

Ltac weaken := (eapply touches_weaken; [|eassumption || eauto]); by intros [].

(** Every command of every file. *)
Lemma ioctl_inv file call s : inv s -> inv (snd (rocm_xio_ioctl file call s)).
Proof.
  intros Hi. pose proof (mi_balanced _ _ _ Hi) as Hb. destruct call; cbn [rocm_xio_ioctl]; try done.
  - apply inv_quiet; [apply get_vram_phys_addr_touches|done|].
    by apply wp_snd, get_vram_phys_addr_balanced.
  - apply inv_quiet; [apply get_device_info_touches|done|].
    by apply wp_snd, get_device_info_balanced.
  - by destruct arg.
  - apply inv_quiet; [eapply touches_weaken; [|apply register_queue_addr_touches]; by intros []|done|].
    by apply wp_snd, register_queue_addr_balanced.
  - apply inv_quiet; [eapply touches_weaken; [|apply unregister_queue_addr_touches]; by intros []|done|].
    by apply wp_snd, unregister_queue_addr_balanced.
  - apply inv_buffers; [apply register_buffer_touches|done|].
    apply register_buffer_balanced; [done|apply Hi].
  - apply inv_buffers; [apply unregister_buffer_touches|done|].
    apply unregister_buffer_balanced; [done|apply Hi].
  - apply inv_quiet; [eapply touches_weaken; [|apply get_mmio_bridge_touches]; by intros []|done|].
    by apply wp_snd, get_mmio_bridge_balanced.
  - apply inv_contig; [apply alloc_contig_touches|done|].
    apply alloc_contig_queue_ok; [done|by apply inv_contig_ok].
  - apply inv_quiesce; [apply quiesce_ns_touches|done|].
    apply quiesce_ns_balanced; [done|apply Hi].
  - apply inv_quiesce; [apply unquiesce_ns_touches|done|].
    apply unquiesce_ns_balanced; [done|apply Hi].
  - apply inv_poisoned; [eapply touches_weaken; [|apply debug_resurrect_touches]; by intros []|done|].
    by apply debug_resurrect_ok, inv_poison_ok.
  - apply inv_contig; [apply free_contig_touches|done|].
    apply free_contig_queue_ok; [apply no_refs_nonneg|by apply inv_contig_ok].
Qed.

(** Sequences of operations. *)
Definition keeps {A} (m : X A) : Prop := forall s, inv s -> inv (snd (m s)).

Lemma keeps_bind {A B} (m : X A) (k : A -> X B) :
  keeps m -> (forall a, keeps (k a)) -> keeps (bind m k).
Proof.
  intros Hm Hk s Hi. specialize (Hm s Hi). unfold bind. destruct (m s) as [a s1].
  by apply Hk.
Qed.

Lemma release_queue_addrs_keeps file : keeps (release_queue_addrs file).
Proof.
  intros s Hi.
  apply inv_quiet; [eapply touches_weaken; [|apply release_queue_addrs_touches]; by intros []|done|].
  apply wp_snd, release_queue_addrs_balanced, Hi.
Qed.

Lemma release_vram_buffers_keeps file : keeps (release_vram_buffers file).
Proof.
  intros s Hi. apply inv_buffers; [apply release_vram_buffers_touches|done|].
  apply release_vram_buffers_balanced; apply Hi.
Qed.

Lemma release_contig_keeps file : keeps (release_contig file).
Proof.
  intros s Hi. apply inv_contig; [apply release_contig_touches|done|].
  apply release_contig_ok; [apply no_refs_nonneg|by apply inv_contig_ok].
Qed.

Lemma release_quiesced_keeps file : keeps (release_quiesced file).
Proof.
  intros s Hi. apply inv_quiesce; [apply release_quiesced_touches|done|].
  eapply wp_mono; [apply release_quiesced_balanced; apply Hi|]. by intros _ s' (? & ? & _).
Qed.

Lemma release_inv file : keeps (rocm_xio_release file).
Proof.
  unfold rocm_xio_release.
  apply keeps_bind; [apply release_queue_addrs_keeps|intros _].
  apply keeps_bind; [apply release_vram_buffers_keeps|intros _].
  apply keeps_bind; [apply release_contig_keeps|intros _].
  apply keeps_bind; [apply release_quiesced_keeps|by intros _ s Hi].
Qed.

Lemma module_step_inv s s' : module_step cfg s s' -> inv s -> inv s'.
Proof.
  intros [file call s1|vma s1 Hv|v v' s1 Hv|v s1|s1|file s1|rg cmd s1|ctx rg s1|ctx rg s1|s1|s1|mem s1] Hi.
  - by apply ioctl_inv.
  - apply inv_contig; [apply mmap_touches|done|].
    apply mmap_ok; [apply no_refs_nonneg|by apply inv_contig_ok|done].
  - apply inv_contig; [apply vma_open_touches|done|].
    apply vma_open_ok; [apply no_refs_nonneg|by apply inv_contig_ok|done].
  - apply inv_contig; [apply vma_close_touches|done|].
    apply vma_close_ok; [apply no_refs_nonneg|by apply inv_contig_ok].
  - done.
  - by apply release_inv.
  - apply inv_poisoned; [eapply touches_weaken; [|apply user_cmd_pre_touches]; by intros []|done|].
    by apply user_cmd_pre_ok, inv_poison_ok.
  - apply inv_quiet; [eapply touches_weaken; [|apply alloc_queue_ret_touches]; by intros []|done|].
    apply wp_snd, alloc_queue_ret_balanced, Hi.
  - apply inv_quiet; [eapply touches_weaken; [|apply create_queue_ret_touches]; by intros []|done|].
    apply wp_snd, create_queue_ret_balanced, Hi.
  - apply inv_snapshots; [apply snapshot_work_touches|done|].
    eapply wp_mono; [apply snapshot_work_balanced; apply Hi|]. by intros _ ? (? & ? & _).
  - apply inv_poisoned; [apply resurrect_work_touches|done|].
    eapply wp_mono; [by apply resurrect_work_core, inv_poison_ok|]. by intros _ ? [].
  - destruct Hi as [? ? ? ? [? ?] ? ? ?]. by split; [..|split| | |].
Qed.

Lemma module_reach_inv s s' : rtc (module_step cfg) s s' -> inv s -> inv s'.
Proof. induction 1; eauto using module_step_inv. Qed.
End ModuleInvariant.

(** ** Loading and unloading *)

Section Lifecycle.
Context {K : Kernel} {KO : KernelOk K}.
Variable cfg : build_config.

(** Nothing registered, nothing tracked. *)
Record tables_empty (s : xio_state) : Prop := {
  te_queues : st_queue_addrs s = [];
  te_buffers : st_vram_buffers s = [];
  te_objs : cs_objs (st_contig s) = ∅;
  te_list : cs_list (st_contig s) = [];
  te_vmas : cs_vmas (st_contig s) = ∅;
  te_quiesced : st_quiesced s = [];
  te_snapshots : st_snapshots s = [];
  te_pending : st_pending s = [];
  te_poisoned : st_poisoned s = []
}.

Lemma tables_empty_owned s r : tables_empty s -> owned s r = 0.
Proof.
  intros []. unfold owned. by rewrite te_queues0, te_buffers0, te_objs0, te_quiesced0,
    te_snapshots0, te_pending0, te_poisoned0, msum_empty.
Qed.

Lemma tables_empty_inv s :
  tables_empty s -> uaf_free (st_trace s) = true -> module_inv (st_trace s) (st_regs s) s.
Proof.
  intros He Hu. split; [intros r; rewrite tables_empty_owned by done; lia|..]; destruct He.
  - unfold buffers_wf. rewrite te_buffers0. constructor.
  - split.
    + intros p. unfold refcount, links, maps. by rewrite te_objs0, te_list0, te_vmas0, msum_empty.
    + intros p ca. by rewrite te_objs0.
  - done.
  - split; rewrite te_quiesced0; constructor.
  - unfold snapshots_unique. rewrite te_snapshots0. constructor.
  - unfold poisoned_unique. rewrite te_poisoned0. constructor.
  - done.
Qed.

(** The registrations the module's own flags account for. *)
Definition own_regs (rg : module_regs) (r : resource) : Z :=
  unit_of (RChrdev (mr_major rg)) r + unit_of (RClass (mr_class rg)) r
  + unit_of (RDevice (mr_class rg) (mr_major rg)) r
  + (if mr_inject_enabled rg then unit_of RKprobe r else 0)
  + (if mr_alloc_krp_registered rg then unit_of (RKretprobe KrpAllocQueue) r else 0)
  + (if mr_create_krp_registered rg then unit_of (RKretprobe KrpCreateQueue) r else 0).

(** The flags as the module starts with them. *)
Definition unloaded (s : xio_state) : Prop :=
  tables_empty s /\ uaf_free (st_trace s) = true /\
  mr_alloc_krp_registered (st_regs s) = false /\ mr_create_krp_registered (st_regs s) = false.

(** Only the history and the registration flags change. *)
Definition only_regs (s s' : xio_state) (tr : trace) (rg : module_regs) : Prop :=
  s' = set_regs (fun _ => rg) (set_trace (fun _ => tr) s).

Lemma init_kprobe_core s :
  wp init_kprobe (fun _ s' => exists tr b,
    only_regs s s' tr (with_inject b (st_regs s)) /\ uaf_free tr = uaf_free (st_trace s) /\
    forall r, held tr r = held (st_trace s) r + (if b then unit_of RKprobe r else 0)) s.
Proof.
  unfold init_kprobe, only_regs. apply wp_bind, wp_gets.
  destruct (mr_inject_enabled (st_regs s)) eqn:E; xwp.
  - exists (EvFail FKprobe :: st_trace s), false. split_and!; [done..|]. intros r. ledger_close.
  - exists (EvRegKprobe :: st_trace s), true. split_and!; [|done|intros r; ledger_close].
    unfold with_inject. rewrite <- E. by destruct s as [? ? ? ? ? ? ? ? ? ? [] ?].
  - exists (st_trace s), false. split_and!; [|done|intros r; lia].
    unfold with_inject. rewrite <- E. by destruct s as [? ? ? ? ? ? ? ? ? ? [] ?].
Qed.

Lemma init_kretprobe_core k s :
  krp_registered k (st_regs s) = false ->
  wp (init_kretprobe k) (fun _ s' => exists tr b,
    only_regs s s' tr (with_krp k b (st_regs s)) /\ uaf_free tr = uaf_free (st_trace s) /\
    forall r, held tr r = held (st_trace s) r + (if b then unit_of (RKretprobe k) r else 0)) s.
Proof.
  intros E. unfold init_kretprobe, only_regs. xwp.
  - exists (EvFail FKretprobe :: st_trace s), false. split_and!; [|done|intros r; ledger_close].
    destruct k; unfold with_krp; cbn [krp_registered] in E; rewrite <- E;
      by destruct s as [? ? ? ? ? ? ? ? ? ? [] ?].
  - exists (EvRegKretprobe k :: st_trace s), true. split_and!; [done..|]. intros r. ledger_close.
Qed.

Lemma tables_empty_frame s s' tr rg : only_regs s s' tr rg -> tables_empty s -> tables_empty s'.
Proof. intros -> []. by split. Qed.

(** Every outcome of loading: on failure nothing stays registered, on success
    exactly what the flags say. *)
Lemma init_core s :
  unloaded s ->
  wp rocm_xio_init (fun rc s' => exists tr rg, only_regs s s' tr rg /\
    rc <= 0 /\ uaf_free tr = uaf_free (st_trace s) /\
    forall r, held tr r = held (st_trace s) r +
      (if bool_decide (rc = 0) then own_regs rg r else 0)) s.
Proof.
  intros (He & Hu & Ha & Hc). unfold rocm_xio_init. apply wp_bind, wp_ask, wp_bind, wp_modify.
  destruct (_ <? 0) eqn:Em; bool_to_prop.
  { xwp. eexists _, _. split_and!; [reflexivity|lia|done|]. intros r. proj.
    rewrite bool_decide_eq_false_2 by lia. ledger_close. }
  set (major := k_register_chrdev (st_trace s)) in *.
  apply wp_bind, wp_log, wp_bind, wp_ask. destruct (k_class_create _) as [e|c].
  { xwp. eexists _, _. split_and!; [reflexivity|done|done|]. intros r. proj.
    rewrite bool_decide_eq_false_2 by done. ledger_close. }
  apply wp_bind, wp_log, wp_bind, wp_modify, wp_bind, wp_ask.
  destruct (k_device_create _ _ _) as [e|d].
  { xwp. eexists _, _. split_and!; [reflexivity|done|done|]. intros r. proj.
    rewrite bool_decide_eq_false_2 by done. ledger_close. }
  apply wp_bind, wp_log, wp_bind, wp_modify, wp_bind.
  eapply wp_mono; [apply init_kprobe_core|]. intros _ s1 (tr1 & b1 & -> & Hu1 & Hh1).
  apply wp_bind. eapply wp_mono; [apply init_kretprobe_core; exact Ha|].
  intros _ s2 (tr2 & b2 & -> & Hu2 & Hh2).
  apply wp_bind. eapply wp_mono; [apply init_kretprobe_core; exact Hc|].
  intros _ s3 (tr3 & b3 & -> & Hu3 & Hh3). apply wp_ret.
  eexists tr3, _. split_and!; [reflexivity|done|by rewrite Hu3; proj; rewrite Hu2; proj; rewrite Hu1|].
  intros r. rewrite bool_decide_eq_true_2 by done. unfold own_regs. proj.
  cbn [with_krp with_inject with_device with_class with_major mr_major mr_class mr_inject_enabled
    mr_alloc_krp_registered mr_create_krp_registered].
  rewrite Hh3. proj. rewrite Hh2. proj. rewrite Hh1. proj. ledger_close.
Qed.

(** *** Unloading, block by block *)

Definition part_empty (p : part) (s : xio_state) : Prop :=
  match p with
  | PQueues => st_queue_addrs s = []
  | PBuffers => st_vram_buffers s = []
  | PContig => cs_objs (st_contig s) = ∅ /\ cs_list (st_contig s) = [] /\ cs_vmas (st_contig s) = ∅
  | PQuiesced => st_quiesced s = []
  | PSnapshots => st_snapshots s = []
  | PPending => st_pending s = []
  | PPoisoned => st_poisoned s = []
  | _ => True
  end.

Definition emptied (l : list part) (s : xio_state) : Prop := Forall (fun p => part_empty p s) l.

Lemma part_empty_touches P {A} (m : X A) p s :
  touches P m -> P p = false -> part_empty p s -> part_empty p (snd (m s)).
Proof.
  intros Ht HP He. specialize (Ht s p HP). destruct p; simpl in *; congruence || done.
Qed.

(** One block of the clean-up empties its part and leaves the others empty. *)
Lemma emptied_next p ps {A} (m : X A) (l : list part) s :
  touches (only ps) m -> forallb (fun q => negb (only ps q)) l = true ->
  emptied l s -> part_empty p (snd (m s)) -> emptied (p :: l) (snd (m s)).
Proof.
  intros Ht Hd He Hp. constructor; [done|]. apply elem_Forall. intros q Hq.
  eapply part_empty_touches; [done| |].
  { rewrite forallb_forall in Hd. apply negb_true_iff, Hd. by apply list_elem_of_In. }
  by eapply (Forall_elem (fun p => part_empty p s)).
Qed.

Lemma wp_conj_snd {A} (m : X A) (P Q : xio_state -> Prop) s :
  wp m (fun _ s' => P s' /\ Q s') s -> P (snd (m s)) /\ Q (snd (m s)).
Proof. apply (wp_snd m (fun s' => P s' /\ Q s')). Qed.

Section Blocks.
Variables (tr0 : trace) (rg : module_regs).
Abbreviation inv := (module_inv tr0 rg).

Lemma exit_pending_inv s : inv s -> inv (snd (exit_pending s)) /\ part_empty PPending (snd (exit_pending s)).
Proof.
  intros Hi. destruct (wp_conj_snd _ _ _ _ (exit_pending_balanced tr0 s (mi_balanced _ _ _ Hi))) as [Hb He].
  split; [|done]. eapply module_inv_op; [apply exit_pending_touches|done..].
Qed.

Lemma exit_snapshots_inv s :
  inv s -> inv (snd (nvme_queue_snapshots_free_all s)) /\
           part_empty PSnapshots (snd (nvme_queue_snapshots_free_all s)).
Proof.
  intros Hi.
  destruct (wp_conj_snd _ _ _ _ (snapshots_free_all_balanced tr0 s (mi_balanced _ _ _ Hi))) as [Hb He].
  split; [|done]. eapply module_inv_op; [apply snapshots_free_all_touches|done..| |done].
  intros _. unfold snapshots_unique. rewrite He. constructor.
Qed.

Lemma exit_poisoned_inv s :
  inv s -> inv (snd (exit_poisoned s)) /\ part_empty PPoisoned (snd (exit_poisoned s)).
Proof.
  intros Hi. destruct (wp_conj_snd _ _ _ _ (exit_poisoned_balanced tr0 s (mi_balanced _ _ _ Hi))) as [Hb He].
  split; [|done]. eapply module_inv_op; [apply exit_poisoned_touches|done..|].
  intros _. unfold poisoned_unique. rewrite He. constructor.
Qed.

Lemma exit_queues_inv s :
  inv s -> inv (snd (exit_queue_addrs s)) /\ part_empty PQueues (snd (exit_queue_addrs s)).
Proof.
  intros Hi. destruct (wp_conj_snd _ _ _ _ (exit_queue_addrs_balanced tr0 s (mi_balanced _ _ _ Hi))) as [Hb He].
  split; [|done]. eapply module_inv_op; [apply exit_queue_addrs_touches|done..].
Qed.

Lemma exit_buffers_inv s :
  inv s -> inv (snd (exit_vram_buffers s)) /\ part_empty PBuffers (snd (exit_vram_buffers s)).
Proof.
  intros Hi. destruct (wp_conj_snd _ _ _ _ (exit_vram_buffers_balanced tr0 s (mi_balanced _ _ _ Hi)
    (mi_buffers _ _ _ Hi))) as [Hb He].
  split; [|done]. eapply module_inv_op; [apply exit_vram_buffers_touches|done..| | | | | |]; try done.
  intros _. unfold buffers_wf. rewrite He. constructor.
Qed.

Lemma exit_contig_inv s :
  inv s -> cs_vmas (st_contig s) = ∅ ->
  inv (snd (exit_contig s)) /\ part_empty PContig (snd (exit_contig s)).
Proof.
  intros Hi Hv.
  pose proof (exit_contig_ok tr0 no_refs (no_refs_nonneg) s (inv_contig_ok tr0 rg s Hi)) as Hw.
  apply (wp_snd _ (fun s' => contig_ok tr0 no_refs s' /\ cs_list (st_contig s') = [] /\
    cs_vmas (st_contig s') = cs_vmas (st_contig s))) in Hw as ([Hc Hb Hu] & Hl & Hvs).
  rewrite Hv in Hvs. split; [|split_and!; [by apply contig_drained|done..]].
  eapply module_inv_op; [apply exit_contig_touches|done..].
Qed.

Lemma exit_quiesced_inv s :
  inv s -> inv (snd (exit_quiesced s)) /\ part_empty PQuiesced (snd (exit_quiesced s)).
Proof.
  intros Hi. destruct (wp_conj_snd _ _ _ _ (exit_quiesced_balanced tr0 s (mi_balanced _ _ _ Hi)
    (mi_quiesce _ _ _ Hi))) as [Hb He].
  split; [|done]. eapply module_inv_op; [apply exit_quiesced_touches|done..| | |]; try done.
  intros _. split; rewrite He; constructor.
Qed.
End Blocks.

(** The invariant while the tables are being emptied. *)
Definition emptying (tr0 : trace) (rg : module_regs) (l : list part) (s : xio_state) : Prop :=
  module_inv tr0 rg s /\ emptied l s /\ cs_vmas (st_contig s) = ∅.

Lemma emptying_next p ps {A} (m : X A) l tr0 rg s :
  touches (only ps) m -> forallb (fun q => negb (only ps q)) l = true -> only ps PContig = false ->
  emptying tr0 rg l s ->
  (module_inv tr0 rg s -> module_inv tr0 rg (snd (m s)) /\ part_empty p (snd (m s))) ->
  wp m (fun _ s' => emptying tr0 rg (p :: l) s') s.
Proof.
  intros Ht Hd Hc (Hi & He & Hv) Hm. apply wp_of_snd. destruct (Hm Hi) as [Hi' Hp].
  split_and!; [done|by eapply emptied_next|]. by rewrite (Ht s PContig Hc).
Qed.

Lemma emptied_all s :
  emptied [PQuiesced; PContig; PBuffers; PQueues; PPoisoned; PSnapshots; PPending] s ->
  tables_empty s.
Proof.
  intros H. pose proof (fun p => Forall_elem (fun p => part_empty p s) _ p H) as Hp.
  assert (part_empty PContig s) as (H1 & H2 & H3) by (apply Hp; by repeat constructor).
  split; try done; first
    [apply (Hp PQueues)|apply (Hp PBuffers)|apply (Hp PQuiesced)|apply (Hp PSnapshots)
    |apply (Hp PPending)|apply (Hp PPoisoned)]; by repeat constructor.
Qed.

(** What unregistering the probes gives back. *)
Definition own_probes (rg : module_regs) (r : resource) : Z :=
  (if mr_inject_enabled rg then unit_of RKprobe r else 0)
  + (if mr_alloc_krp_registered rg then unit_of (RKretprobe KrpAllocQueue) r else 0)
  + (if mr_create_krp_registered rg then unit_of (RKretprobe KrpCreateQueue) r else 0).

Lemma exit_kretprobe_core k s :
  wp (exit_kretprobe k) (fun _ s' => exists evs,
    only_regs s s' (evs ++ st_trace s) (with_krp k false (st_regs s)) /\ uaf_free evs = true /\
    forall r, held evs r = - (if krp_registered k (st_regs s) then unit_of (RKretprobe k) r else 0)) s.
Proof.
  unfold exit_kretprobe, only_regs. apply wp_bind, wp_gets.
  destruct (krp_registered k (st_regs s)) eqn:E; xwp.
  - exists [EvUnregKretprobe k]. split_and!; [done..|]. intros r. rewrite held_cons, held_nil.
    cbn [delta effect]. lia.
  - exists []. split_and!; [|done|done].
    destruct k; unfold with_krp; cbn [krp_registered] in E; rewrite <- E;
      by destruct s as [? ? ? ? ? ? ? ? ? ? [] ?].
Qed.

Lemma exit_probes_core s :
  wp exit_probes (fun _ s' => exists evs,
    only_regs s s' (evs ++ st_trace s)
      (with_krp KrpCreateQueue false (with_krp KrpAllocQueue false (st_regs s))) /\
    uaf_free evs = true /\ forall r, held evs r = - own_probes (st_regs s) r) s.
Proof.
  unfold exit_probes. apply wp_bind, wp_gets, wp_bind.
  eapply (wp_mono _ (fun _ s' => exists evs, s' = set_trace (fun _ => evs ++ st_trace s) s /\
    uaf_free evs = true /\
    forall r, held evs r = - (if mr_inject_enabled (st_regs s) then unit_of RKprobe r else 0))).
  { destruct (mr_inject_enabled (st_regs s)); xwp.
    - exists [EvUnregKprobe]. split_and!; [done..|]. intros r. rewrite held_cons, held_nil.
      cbn [delta effect]. lia.
    - exists []. split_and!; [by destruct s|done|done]. }
  intros _ s1 (e1 & -> & Hu1 & Hh1). apply wp_bind.
  eapply wp_mono; [apply exit_kretprobe_core|]. intros _ s2 (e2 & -> & Hu2 & Hh2).
  eapply wp_mono; [apply exit_kretprobe_core|]. intros _ s3 (e3 & -> & Hu3 & Hh3).
  exists (e3 ++ e2 ++ e1). split_and!.
  - unfold only_regs. proj. by rewrite <- !(assoc_L app).
  - unfold uaf_free in *. by rewrite !forallb_app, Hu1, Hu2, Hu3.
  - intros r. rewrite !held_app, Hh3, Hh2, Hh1. unfold own_probes.
    cbn [krp_registered]. proj. cbn [with_krp mr_create_krp_registered]. lia.
Qed.

(** A history that only changes the registrations moves the base. *)
Lemma module_inv_rebase tr0 rg s s' evs rg' :
  module_inv tr0 rg s -> only_regs s s' (evs ++ st_trace s) rg' -> uaf_free evs = true ->
  module_inv (evs ++ tr0) rg' s'.
Proof.
  intros [Hb ? ? Hu [? ?] ? ? ?] -> He. split; try done.
  - intros r. rewrite held_app. autorewrite with books. proj. rewrite held_app, (Hb r). lia.
  - proj. unfold uaf_free in *. by rewrite forallb_app, He, Hu.
Qed.

Lemma emptying_contig l tr0 rg s :
  forallb (fun q => negb (only [PContig; PUaf] q)) l = true -> emptying tr0 rg l s ->
  wp exit_contig (fun _ s' => emptying tr0 rg (PContig :: l) s') s.
Proof.
  intros Hd (Hi & He & Hv). apply wp_of_snd. destruct (exit_contig_inv tr0 rg s Hi Hv) as [Hi' Hp].
  split_and!; [done|by eapply emptied_next; [apply exit_contig_touches|..]|apply Hp].
Qed.

Ltac exit_block T I HE :=
  apply wp_bind; (eapply wp_mono; [eapply emptying_next;
    [apply T| |done|exact HE|apply I]; done|]); clear HE; intros ? ? HE.

(** Unloading with no mapping left: tables empty, registrations returned. *)
Lemma exit_core tr0 rg s :
  module_inv tr0 rg s -> cs_vmas (st_contig s) = ∅ ->
  wp rocm_xio_exit (fun _ s' =>
    tables_empty s' /\ uaf_free (st_trace s') = true /\
    forall r, held (st_trace s') r = held tr0 r - own_regs rg r) s.
Proof.
  intros Hi Hv. pose proof (mi_regs _ _ _ Hi) as Hrg. unfold rocm_xio_exit. apply wp_bind.
  eapply wp_mono; [apply exit_probes_core|]. intros _ s1 (evs & Hs1 & Hue & Hhe).
  pose proof (module_inv_rebase _ _ _ _ _ _ Hi Hs1 Hue) as Hi1.
  set (rg1 := with_krp _ _ _) in *. set (tr1 := evs ++ tr0) in *.
  assert (emptying tr1 rg1 [] s1) as HE by (rewrite Hs1 in *; split_and!; [done|constructor|done]).
  assert (forall r, held tr1 r = held tr0 r - own_probes rg r) as Ht1
    by (intros r; subst tr1; rewrite held_app, Hhe, Hrg; lia).
  clearbody tr1. do 2 (apply wp_bind, wp_log).
  assert (forall s, emptying tr1 rg1 [] s -> emptying tr1 rg1 [] (set_trace (cons EvCancelWork) s))
    as Hcancel.
  { intros s2 ([Hb ? ? ? [? ?] ? ? ?] & ? & ?). by split_and!; [split|..]. }
  apply Hcancel, Hcancel in HE. set (s2 := set_trace _ (set_trace _ s1)) in *. clearbody s2.
  exit_block exit_pending_touches exit_pending_inv HE.
  exit_block snapshots_free_all_touches exit_snapshots_inv HE.
  exit_block exit_poisoned_touches exit_poisoned_inv HE.
  exit_block exit_queue_addrs_touches exit_queues_inv HE.
  exit_block exit_vram_buffers_touches exit_buffers_inv HE.
  apply wp_bind. eapply wp_mono; [apply emptying_contig; [|exact HE]; done|]. clear HE. intros ? ? HE.
  exit_block exit_quiesced_touches exit_quiesced_inv HE.
  destruct HE as (Hi7 & He & _). apply emptied_all in He. unfold exit_device. xwp.
  split_and!; [destruct He; by split|apply Hi7|].
  intros r. pose proof (mi_balanced _ _ _ Hi7 r) as Hb. rewrite (tables_empty_owned _ _ He) in Hb.
  rewrite (mi_regs _ _ _ Hi7). proj. autorewrite with sums. cbn [delta effect]. rewrite Hb, Ht1.
  subst rg1. rewrite Hrg. unfold own_regs, own_probes. cbn [with_krp mr_major mr_class]. lia.
Qed.

Lemma own_regs_nonneg rg r : 0 <= own_regs rg r.
Proof.
  unfold own_regs. destruct (mr_inject_enabled rg), (mr_alloc_krp_registered rg),
    (mr_create_krp_registered rg); repeat apply Z.add_nonneg_nonneg; apply unit_of_nonneg || done.
Qed.

(** A successful load establishes the invariant. *)
Lemma init_inv s0 s1 :
  unloaded s0 -> rocm_xio_init s0 = (0, s1) ->
  module_inv (st_trace s1) (st_regs s1) s1 /\
  forall r, held (st_trace s1) r = held (st_trace s0) r + own_regs (st_regs s1) r.
Proof.
  intros Hun E. pose proof (wp_run _ _ _ _ _ (init_core s0 Hun) E) as (tr & rg & Hs & _ & Hu & Hh).
  destruct Hun as (He & Hu0 & _). split.
  - apply tables_empty_inv; [by eapply tables_empty_frame|]. rewrite Hs. proj. by rewrite Hu.
  - intros r. rewrite Hs. proj. rewrite Hh. by rewrite bool_decide_eq_true_2.
Qed.

(** ** Theorems *)

(** C1: the life of the module leaves no trace.  Load it, let any sequence of
    ioctls of any files, mmaps, VMA duplications and closes, file releases,
    probe hits and worker runs happen, with any kernel service failing at any
    point, and unload it once no mapping is left: every allocation, device,
    file, dma-buf and pin reference, DMA mapping, quiesce and registration
    acquired since the load has been given back exactly once, all tables are
    empty, and no freed object was ever touched. *)
Theorem module_lifecycle_clean s0 s1 s2 :
  unloaded s0 -> (forall r, 0 <= held (st_trace s0) r) ->
  rocm_xio_init s0 = (0, s1) ->
  rtc (module_step cfg) s1 s2 -> cs_vmas (st_contig s2) = ∅ ->
  let s3 := snd (rocm_xio_exit s2) in
  (forall r, held (st_trace s3) r = held (st_trace s0) r) /\
  tables_empty s3 /\ uaf_free (st_trace s3) = true.
Proof.
  intros Hun Hbase Ei Hr Hv. destruct (init_inv s0 s1 Hun Ei) as [Hi Hh].
  assert (module_inv (st_trace s1) (st_regs s1) s2) as Hi2.
  { eapply module_reach_inv; [|done..]. intros r. rewrite Hh.
    pose proof (own_regs_nonneg (st_regs s1) r). specialize (Hbase r). lia. }
  destruct (wp_snd _ (fun s' => tables_empty s' /\ uaf_free (st_trace s') = true /\
    forall r, held (st_trace s') r = held (st_trace s1) r - own_regs (st_regs s1) r) _
    (exit_core _ _ s2 Hi2 Hv)) as (H1 & H2 & H3).
  split_and!; [|done|done]. intros r. rewrite H3, Hh. lia.
Qed.

(** C10: at every moment of its life the loaded module accounts for what it
    holds: in every reachable state each reference acquired since the load is
    owned by exactly one table entry, every passthrough buffer has a complete
    attachment, each contiguous object's count is the number of its list and
    mapping references, and the keyed tables have no duplicates. *)
Theorem module_reachable_accounted s0 s1 s2 :
  unloaded s0 -> (forall r, 0 <= held (st_trace s0) r) ->
  rocm_xio_init s0 = (0, s1) -> rtc (module_step cfg) s1 s2 ->
  (forall r, held (st_trace s2) r
             = held (st_trace s0) r + own_regs (st_regs s2) r + owned s2 r) /\
  Forall buffer_wf (st_vram_buffers s2) /\
  (forall p, refcount (st_contig s2) p = links (st_contig s2) p + maps (st_contig s2) p) /\
  NoDup (map ns_key (st_quiesced s2)) /\ NoDup (map sn_key (st_snapshots s2)) /\
  NoDup (map pq_key (st_poisoned s2)) /\ uaf_free (st_trace s2) = true.
Proof.
  intros Hun Hbase Ei Hr. destruct (init_inv s0 s1 Hun Ei) as [Hi Hh].
  assert (module_inv (st_trace s1) (st_regs s1) s2) as [Hb ? Hc ? [] ? ? Hrg].
  { eapply module_reach_inv; [|done..]. intros r. rewrite Hh.
    pose proof (own_regs_nonneg (st_regs s1) r). specialize (Hbase r). lia. }
  split_and!; try done.
  - intros r. rewrite (Hb r), Hh, Hrg. lia.
  - intros p. rewrite (ci_ref _ _ Hc). unfold no_refs. lia.
Qed.

(** A failed load leaves nothing registered: when [rocm_xio_init] returns
    anything but 0, the status is negative and every registration it made has
    been undone; when it returns 0, exactly the registrations that the
    module's flags record are in place, even if the probes could not be
    registered. *)
Theorem init_all_or_nothing s :
  unloaded s ->
  wp rocm_xio_init (fun rc s' =>
    (rc < 0 /\ forall r, held (st_trace s') r = held (st_trace s) r) \/
    (rc = 0 /\ forall r, held (st_trace s') r = held (st_trace s) r + own_regs (st_regs s') r)) s.
Proof.
  intros Hun. eapply wp_mono; [by apply init_core|].
  intros rc s' (tr & rg & -> & Hle & _ & Hh). destruct (decide (rc = 0)) as [->|Hne].
  - right. split; [done|]. intros r. by rewrite Hh, bool_decide_eq_true_2.
  - left. split; [lia|]. intros r. proj. rewrite Hh, bool_decide_eq_false_2 by done. lia.
Qed.
End Lifecycle.

Section Commands.
Context {K : Kernel}.

(** The same call with an argument that cannot be read. *)
Definition unreadable (call : ioctl_call) : ioctl_call :=
  match call with
  | Call_get_vram_phys_addr _ => Call_get_vram_phys_addr None
  | Call_get_device_info _ => Call_get_device_info None
  | Call_bind_device _ => Call_bind_device None
  | Call_register_queue_addr _ => Call_register_queue_addr None
  | Call_unregister_queue_addr _ => Call_unregister_queue_addr None
  | Call_register_buffer _ => Call_register_buffer None
  | Call_unregister_buffer _ => Call_unregister_buffer None
  | Call_get_mmio_bridge_shadow_buffer _ => Call_get_mmio_bridge_shadow_buffer None
  | Call_alloc_contig_queue _ => Call_alloc_contig_queue None
  | Call_quiesce_ns _ => Call_quiesce_ns None
  | Call_unquiesce_ns _ => Call_unquiesce_ns None
  | Call_debug_resurrect_qid _ => Call_debug_resurrect_qid None
  | Call_free_contig_queue _ => Call_free_contig_queue None
  | c => c
  end.

(** Rejected commands have no effect.  A command whose argument cannot be
    read returns -EFAULT (-EPERM for the debug command without the
    capability), queue creation and deletion return -EOPNOTSUPP, an unknown
    command -ENOTTY, an io_uring command -ENOSYS, and the debug command
    without CAP_SYS_ADMIN -EPERM whatever its argument; in all these cases
    the state, the history of kernel calls included, is unchanged. *)
Theorem ioctl_rejections file call s :
  (exists rc, rocm_xio_ioctl file (unreadable call) s = (rc, s) /\
     rc ∈ [- EFAULT; - EPERM; - EOPNOTSUPP; - ENOTTY]) /\
  rocm_xio_ioctl file Call_create_queue s = (- EOPNOTSUPP, s) /\
  rocm_xio_ioctl file Call_delete_queue s = (- EOPNOTSUPP, s) /\
  rocm_xio_ioctl file Call_unknown s = (- ENOTTY, s) /\
  rocm_xio_uring_cmd s = (- ENOSYS, s) /\
  (k_capable_sys_admin (st_trace s) = false ->
     forall arg, rocm_xio_ioctl file (Call_debug_resurrect_qid arg) s = (- EPERM, s)).
Proof.
  split_and!; try done.
  - destruct call; cbn [unreadable rocm_xio_ioctl];
      try (eexists; split; [reflexivity|]; by repeat constructor).
    unfold ioctl_debug_resurrect_qid, bind, ask, gets.
    destruct (k_capable_sys_admin (st_trace s)); eexists; (split; [reflexivity|]); by repeat constructor.
  - intros Hc arg. cbn [rocm_xio_ioctl]. unfold ioctl_debug_resurrect_qid, bind, ask, gets. by rewrite Hc.
Qed.

(** The length of the mapping is not checked on the MMIO bridge path:
    wherever the VMA ends, the whole recorded shadow buffer is remapped at
    its start, even if the buffer is longer than the VMA. *)
Theorem mmap_shadow_ignores_length vma s :
  vm_pgoff vma = 0 -> st_shadow_gpa s <> 0 ->
  0 <= k_remap_pfn_range (st_trace s) (vm_start vma) (Z.shiftr (st_shadow_gpa s) 12) (st_shadow_size s) ->
  rocm_xio_mmap vma s =
    (0, set_trace (cons (EvRemapPfn (vm_start vma) (Z.shiftr (st_shadow_gpa s) 12)
                           (st_shadow_size s))) s).
Proof.
  intros Hp Hg Hr. unfold rocm_xio_mmap, mmap_shadow, bind, gets, ask. cbn [vm_pgoff vm_start].
  rewrite Hp. change PAGE_SHIFT with 12. cbn [Z.eqb].
  rewrite (proj2 (Z.eqb_neq _ _) Hg). unfold gets. rewrite (proj2 (Z.ltb_ge _ _) Hr). done.
Qed.
End Commands.

(** ** Witnesses *)

Lemma state0_unloaded : unloaded state0.
Proof. split_and!; [by split|done..]. Qed.

Definition loaded0 : xio_state := snd (rocm_xio_init (K := demo_kernel) state0).

(** A passthrough buffer registered, a contiguous queue allocated, a
    namespace quiesced. *)
Definition busy0 : xio_state :=
  let ioctl call s := snd (rocm_xio_ioctl (K := demo_kernel) 42 call s) in
  ioctl (Call_quiesce_ns (Some (ns_req 0)))
    (ioctl (Call_alloc_contig_queue (Some sample_contig_req))
      (ioctl (Call_register_buffer (Some (sample_buffer_req 2))) loaded0)).

Lemma busy0_reachable : rtc (module_step (K := demo_kernel) cfg_demo) loaded0 busy0.
Proof.
  eapply rtc_l; [apply step_ioctl|]. eapply rtc_l; [apply step_ioctl|].
  apply rtc_once, step_ioctl.
Qed.

Lemma module_lifecycle_clean_witness :
  length (st_quiesced busy0) = 1%nat /\ length (st_vram_buffers busy0) = 1%nat /\
  (forall r, held (st_trace (snd (rocm_xio_exit (K := demo_kernel) busy0))) r = 0).
Proof.
  split; [by vm_compute|]. split; [by vm_compute|].
  apply (module_lifecycle_clean (K := demo_kernel) cfg_demo state0 loaded0 busy0).
  - exact state0_unloaded.
  - exact held_nil_nonneg.
  - by vm_compute.
  - exact busy0_reachable.
  - by vm_compute.
Defined.

Lemma module_reachable_accounted_witness :
  NoDup (map (ns_key) (st_quiesced busy0)) /\ uaf_free (st_trace busy0) = true.
Proof.
  destruct (module_reachable_accounted (K := demo_kernel) cfg_demo state0 loaded0 busy0)
    as (_ & _ & _ & H1 & _ & _ & H2).
  - exact state0_unloaded.
  - exact held_nil_nonneg.
  - by vm_compute.
  - exact busy0_reachable.
  - done.
Defined.

Lemma init_all_or_nothing_witness :
  fst (rocm_xio_init (K := demo_kernel) state0) = 0 /\
  wp (rocm_xio_init (K := demo_kernel)) (fun rc s' => rc < 0 \/ rc = 0) state0.
Proof.
  split; [by vm_compute|].
  eapply wp_mono; [apply (init_all_or_nothing (K := demo_kernel) state0 state0_unloaded)|].
  intros rc s' [[? _]|[? _]]; auto.
Defined.

Lemma ioctl_rejections_witness :
  rocm_xio_ioctl (K := demo_kernel) 42 Call_unknown state0 = (- ENOTTY, state0).
Proof. apply (ioctl_rejections (K := demo_kernel) 42 Call_create_queue state0). Defined.

Lemma mmap_shadow_ignores_length_witness :
  let s := set_shadow 3221225472 8192 state0 in
  rocm_xio_mmap (K := demo_kernel)
    {| vma_id := 1; vm_start := 4096; vm_end := 8192; vm_pgoff := 0; vm_file := 42 |} s
  = (0, set_trace (cons (EvRemapPfn 4096 786432 8192)) s).
Proof.
  apply (mmap_shadow_ignores_length (K := demo_kernel)
    {| vma_id := 1; vm_start := 4096; vm_end := 8192; vm_pgoff := 0; vm_file := 42 |}
    (set_shadow 3221225472 8192 state0)); by vm_compute.
Defined.

(** The module parameter can be written while the module is loaded, and
    unloading consults it instead of what was registered: after the
    administrator turns injection off, [rocm_xio_exit] leaves the kprobe
    registered, with its handler in the memory of the unloaded module. *)
Theorem exit_leaves_kprobe :
  let s1 := set_regs (with_inject false) loaded0 in
  let s2 := snd (rocm_xio_exit (K := demo_kernel) s1) in
  held (st_trace loaded0) RKprobe = 1 /\ held (st_trace s2) RKprobe = 1 /\
  held (st_trace s2) (RChrdev 240) = 0.
Proof. by vm_compute. Qed.
