(* ===== verification/DataPattern.v ===== *)
(** * The test pattern of data buffers

    [dataPattern] of [src/src/common/xio-data-pattern.hpp]: the bytes the
    endpoints write before a transfer and compare after it. *)

From S2P Require Import Prelude.

(** The parameters that are not the buffer; [pat_reports]: there is a place to
    report the first difference. *)
Record DataPatternParams := {
  pat_offset : Z; pat_blockSize : Z; pat_seed : Z; pat_reports : bool
}.

(** The expected byte [i] of a block's pattern. *)
Definition pattern_byte (block seed i : Z) : Z :=
  let rng := u32 (u64 (u64 (u64 (block * 2654435769) + seed) + i)) in
  let rng := Z.lxor rng (Z.shiftr rng 16) in
  let rng := u32 (rng * 2246822507) in
  let rng := Z.lxor rng (Z.shiftr rng 13) in
  let rng := u32 (rng * 3266489909) in
  let rng := Z.lxor rng (Z.shiftr rng 16) in
  Z.land rng 255.

Definition pattern_seed (block seed : Z) : Z := Z.lxor (u32 (u64 (block * 305419896))) seed.

(** The loop over the bytes from [i] on: the buffer afterwards, and where it
    stopped, if it did. *)
Fixpoint pattern_loop (isVerify : bool) (block seed i : Z) (buffer : list Z) : list Z * option Z :=
  match buffer with
  | [] => ([], None)
  | x :: l =>
      let expected := pattern_byte block seed i in
      if isVerify then
        if x =? expected
        then let (l', r) := pattern_loop isVerify block seed (i + 1) l in (x :: l', r)
        else (x :: l, Some i)
      else let (l', r) := pattern_loop isVerify block seed (i + 1) l in (expected :: l', r)
  end.

(** The result, the buffer and the offset reported; [None]: division by a
    block size of zero. *)
Definition dataPattern (isVerify : bool) (params : DataPatternParams) (buffer : list Z)
    : option (bool * list Z * option Z) :=
  if pat_blockSize params =? 0 then None else
  let block := pat_offset params / pat_blockSize params in
  let (buffer', stop) := pattern_loop isVerify block (pattern_seed block (pat_seed params)) 0 buffer in
  Some (bool_decide (stop = None), buffer', if pat_reports params then stop else None).

(** ** Theorems *)

Lemma pattern_written block seed : forall buffer i,
  snd (pattern_loop false block seed i buffer) = None /\
  length (fst (pattern_loop false block seed i buffer)) = length buffer /\
  forall k, (k < length buffer)%nat ->
    fst (pattern_loop false block seed i buffer) !! k = Some (pattern_byte block seed (i + Z.of_nat k)).
Proof.
  induction buffer as [|x l IH]; intros i; cbn; [split_and!; [done..|intros; lia]|].
  specialize (IH (i + 1)) as (H1 & H2 & H3). destruct (pattern_loop false block seed (i + 1) l) as [l' r].
  cbn in *. split_and!; [done|lia|]. intros [|k] Hk; cbn; [by rewrite Z.add_0_r|].
  rewrite H3 by lia. do 2 f_equal. lia.
Qed.

Lemma pattern_compared block seed : forall buffer i,
  fst (pattern_loop true block seed i buffer) = buffer /\
  match snd (pattern_loop true block seed i buffer) with
  | None => forall k x, buffer !! k = Some x -> x = pattern_byte block seed (i + Z.of_nat k)
  | Some j => exists k x, j = i + Z.of_nat k /\ buffer !! k = Some x /\ x <> pattern_byte block seed j /\
      forall k' x', (k' < k)%nat -> buffer !! k' = Some x' -> x' = pattern_byte block seed (i + Z.of_nat k')
  end.
Proof.
  induction buffer as [|x l IH]; intros i; cbn; [done|].
  destruct (x =? pattern_byte block seed i) eqn:E; bool_to_prop; cbn.
  2:{ split; [done|]. exists 0%nat, x. split_and!; [lia|done|done|intros; lia]. }
  specialize (IH (i + 1)) as [H1 H2]. destruct (pattern_loop true block seed (i + 1) l) as [l' r].
  cbn in *. subst l'. split; [done|]. destruct r as [j|].
  - destruct H2 as (k & y & -> & Hy & Hne & Hlt). exists (S k), y. split_and!; [lia|done|done|].
    intros [|k'] x' Hk' Hx'; cbn in Hx'; [simplify_eq; by rewrite Z.add_0_r|].
    rewrite (Hlt k' x') by (done || lia). f_equal. lia.
  - intros [|k] y Hy; cbn in Hy; [simplify_eq; by rewrite Z.add_0_r|].
    rewrite (H2 k y Hy). f_equal. lia.
Qed.

(** Verification accepts exactly what generation writes.  Generating
    replaces a buffer by one of the same length that does not depend on what
    it held; verifying a buffer of that length against it changes nothing
    and succeeds exactly if the two are equal; and where it fails, the offset
    reported is that of the first byte that differs. *)
Theorem verify_accepts_pattern params buffer received ok pattern r ok' received' r' :
  length received = length buffer ->
  dataPattern false params buffer = Some (ok, pattern, r) ->
  dataPattern true params received = Some (ok', received', r') ->
  ok = true /\ length pattern = length buffer /\ received' = received /\
  (ok' = true <-> received = pattern) /\
  (pat_reports params = true -> ok' = false -> exists k, r' = Some (Z.of_nat k) /\
     received !! k <> pattern !! k /\ take k received = take k pattern).
Proof.
  unfold dataPattern. intros Hl. destruct (pat_blockSize params =? 0); [done|].
  set (block := pat_offset params / pat_blockSize params). set (seed := pattern_seed block _).
  pose proof (pattern_written block seed buffer 0) as (H1 & H2 & H3).
  pose proof (pattern_compared block seed received 0) as (H4 & H5).
  destruct (pattern_loop false block seed 0 buffer) as [l1 r1].
  destruct (pattern_loop true block seed 0 received) as [l2 r2]. cbn in *. subst r1 l2.
  intros [= <- <- <-] [= <- <- <-]. split_and!; [done|done|done| |].
  - rewrite bool_decide_eq_true. split.
    + intros ->. apply list_eq_same_length with (length buffer); [done|done|].
      intros k x y Hk Hx Hy. rewrite H3 in Hy by lia. simplify_eq. by apply H5.
    + intros ->. destruct r2 as [j|]; [|done]. destruct H5 as (k & x & -> & Hx & Hne & _).
      rewrite H3 in Hx by (apply lookup_lt_Some in Hx; lia). by simplify_eq.
  - intros ->. rewrite bool_decide_eq_false. intros Hr. destruct r2 as [j|]; [|done].
    destruct H5 as (k & x & -> & Hx & Hne & Hlt). exists k. split_and!; [done| |].
    + rewrite Hx, H3 by (apply lookup_lt_Some in Hx; lia). congruence.
    + pose proof (lookup_lt_Some _ _ _ Hx). apply list_eq_same_length with k; rewrite ?length_take; [lia..|].
      intros i y z Hi Hy Hz. rewrite lookup_take_lt in Hy, Hz by done.
      rewrite H3 in Hz by lia. simplify_eq. by apply Hlt.
Qed.

(** ** Witnesses *)

Definition sample_params : DataPatternParams :=
  {| pat_offset := 4608; pat_blockSize := 512; pat_seed := 99; pat_reports := true |}.
Definition sample_pattern : list Z :=
  match dataPattern false sample_params [0; 0; 0; 0] with Some (_, l, _) => l | None => [] end.

(** A byte lost on the way is reported at its offset. *)
Lemma verify_accepts_pattern_witness :
  let received := <[2%nat := 256]> sample_pattern in
  dataPattern true sample_params received = Some (false, received, Some 2) /\
  exists k, Some 2 = Some (Z.of_nat k) /\ received !! k <> sample_pattern !! k /\
            take k received = take k sample_pattern.
Proof.
  split; [reflexivity|].
  apply (verify_accepts_pattern sample_params [0; 0; 0; 0] (<[2%nat := 256]> sample_pattern)
           true sample_pattern None false (<[2%nat := 256]> sample_pattern) (Some 2)); reflexivity.
Defined.
