(* ===== verification/NvmeEp.v ===== *)
(** * NVMe commands built for the GPU

    The inline helpers of [src/src/endpoints/nvme-ep/nvme-ep.h] that the GPU
    kernels use to build a submission queue entry: the PRP entries of a data
    transfer, the command fields, the layout of the PRP list pool and the
    decoding of a completion status. *)

From S2P Require Import Prelude.

(** 4 KiB NVMe pages, as the comments of the header assume. *)
Definition NVME_PAGE_SIZE : Z := 4096.
Definition doorbellBase : Z := 4096.
Definition doorBellStride : Z := 4.

Definition nvme_cmd_write : Z := 1.
Definition nvme_cmd_read : Z := 2.

(** The data buffer of a queue.  Pointers are addresses ([NULL] when absent);
    the three tables of addresses are the words the kernel reads, [None] for
    a null table. *)
Record nvmeBufferParams := {
  bp_readBuffer : ptr;
  bp_writeBuffer : ptr;
  bp_bufferSize : Z;
  bp_readBufferDma : Z;
  bp_writeBufferDma : Z;
  bp_readPagePhysAddrs : option (list Z);
  bp_writePagePhysAddrs : option (list Z);
  bp_prpListPool : ptr;
  bp_prpListPageDmas : option (list Z);
  bp_prpListPoolDma : Z;
  bp_prpEntriesPerCmd : Z;
  bp_prpSlotsPerBatch : Z
}.

(** A submission queue entry, the fields that are not reserved. *)
Record nvme_sqe := {
  sqe_opcode : Z; sqe_flags : Z; sqe_command_id : Z; sqe_nsid : Z;
  sqe_cdw2 : Z; sqe_cdw3 : Z; sqe_metadata : Z; sqe_prp1 : Z; sqe_prp2 : Z;
  sqe_cdw10 : Z; sqe_cdw11 : Z; sqe_cdw12 : Z; sqe_cdw13 : Z; sqe_cdw14 : Z; sqe_cdw15 : Z
}.

Definition with_prps (p1 p2 : Z) (q : nvme_sqe) : nvme_sqe :=
  {| sqe_opcode := sqe_opcode q; sqe_flags := sqe_flags q; sqe_command_id := sqe_command_id q;
     sqe_nsid := sqe_nsid q; sqe_cdw2 := sqe_cdw2 q; sqe_cdw3 := sqe_cdw3 q;
     sqe_metadata := sqe_metadata q; sqe_prp1 := p1; sqe_prp2 := p2;
     sqe_cdw10 := sqe_cdw10 q; sqe_cdw11 := sqe_cdw11 q; sqe_cdw12 := sqe_cdw12 q;
     sqe_cdw13 := sqe_cdw13 q; sqe_cdw14 := sqe_cdw14 q; sqe_cdw15 := sqe_cdw15 q |}.

(** ** PRP list pool *)

Definition prpListEntriesPerPage : Z := NVME_PAGE_SIZE / 8.

(** Element [i] of a table; [None] stands for a read past its end. *)
Definition word_at (l : list Z) (i : Z) : option Z :=
  if i <? 0 then None else l !! Z.to_nat i.

Definition prpListDmaForSlot (params : nvmeBufferParams) (slot : Z) : option Z :=
  match bp_prpListPageDmas params with
  | Some l => word_at l slot
  | None =>
    if negb (bp_prpListPoolDma params =? 0) && negb (bp_prpEntriesPerCmd params =? 0) then
      let stride := if bp_prpEntriesPerCmd params <? prpListEntriesPerPage
                    then prpListEntriesPerPage else bp_prpEntriesPerCmd params in
      Some (u64 (bp_prpListPoolDma params + slot * stride * 8))
    else Some 0
  end.

Definition nvmePrpSlotsPerBatchVal (p : nvmeBufferParams) : Z :=
  if bp_prpSlotsPerBatch p =? 2 then 2 else 1.

Definition nvmePrpListWordOffset (p : nvmeBufferParams) (batchIdx : Z) (isWrite : bool) : Z :=
  let mul := nvmePrpSlotsPerBatchVal p in
  let off := u32 (batchIdx * mul * bp_prpEntriesPerCmd p) in
  if (1 <? mul) && isWrite then u32 (off + bp_prpEntriesPerCmd p) else off.

Definition nvmePrpListDmaSlotIndex (p : nvmeBufferParams) (batchIdx : Z) (isWrite : bool) : Z :=
  let mul := nvmePrpSlotsPerBatchVal p in
  if 1 <? mul then u32 (batchIdx * mul + (if isWrite then 1 else 0)) else batchIdx.

(** ** PRP entries of a transfer *)

(** [x & ~(NVME_PAGE_SIZE - 1)] on 64 bits. *)
Definition page_base (x : Z) : Z := Z.land x (u64 (Z.lnot (NVME_PAGE_SIZE - 1))).

Definition kMaxPrpListEntries : Z := NVME_PAGE_SIZE / 8.

(** The address of page [i] after the first: from the table if there is one,
    by arithmetic on the buffer's address otherwise. *)
Definition later_page (bufferAddr first_page_size : Z) (pagePhysAddrs : option (list Z))
    (bufPageOffset i : Z) : option Z :=
  match pagePhysAddrs with
  | Some pages => word_at pages (u32 (bufPageOffset + 1 + i))
  | None => Some (u64 (page_base (u64 (bufferAddr + first_page_size)) + i * NVME_PAGE_SIZE))
  end.

(** The loop that fills the list, [n] entries from entry [i] on. *)
Fixpoint fill_prp_list (n : nat) (i : Z) (page : Z -> option Z) : option (list Z) :=
  match n with
  | O => Some []
  | S n' => x ← page i; l ← fill_prp_list n' (i + 1) page; Some (x :: l)
  end.

(** The entry with its two PRP fields and the words written to [prpList]
    (none when it is null); [None] if a page table is read past its end. *)
Definition calculatePrps (bufferAddr bufferSize : Z) (sqe : nvme_sqe) (prpList : ptr)
    (prpListDma : Z) (pagePhysAddrs : option (list Z)) (bufPageOffset : Z)
    : option (nvme_sqe * list Z) :=
  let offset_in_page := Z.land bufferAddr (NVME_PAGE_SIZE - 1) in
  let first_page_size := NVME_PAGE_SIZE - offset_in_page in
  if bufferSize <=? first_page_size then Some (with_prps bufferAddr 0 sqe, []) else
  let remaining := u32 (bufferSize - first_page_size) in
  let pages := u32 (remaining + NVME_PAGE_SIZE - 1) / NVME_PAGE_SIZE in
  let num_remaining_pages := if kMaxPrpListEntries <? pages then kMaxPrpListEntries else pages in
  let page := later_page bufferAddr first_page_size pagePhysAddrs bufPageOffset in
  if num_remaining_pages =? 1 then
    p2 ← page 0; Some (with_prps bufferAddr p2 sqe, [])
  else if is_null prpList then Some (with_prps bufferAddr prpListDma sqe, [])
  else
    l ← fill_prp_list (Z.to_nat num_remaining_pages) 0 page;
    Some (with_prps bufferAddr prpListDma sqe, l).

(** The overload for transfers of at most two pages. *)
Definition calculatePrps2 (bufferAddr bufferSize : Z) (sqe : nvme_sqe) : nvme_sqe :=
  let offset_in_page := Z.land bufferAddr (NVME_PAGE_SIZE - 1) in
  let first_page_size := NVME_PAGE_SIZE - offset_in_page in
  if bufferSize <=? first_page_size then with_prps bufferAddr 0 sqe
  else with_prps bufferAddr (page_base (u64 (bufferAddr + first_page_size))) sqe.

(** ** Command fields and completion status *)

Definition sqeSetup (sqe : nvme_sqe) (slba nlb : Z) : nvme_sqe :=
  {| sqe_opcode := sqe_opcode sqe; sqe_flags := 0; sqe_command_id := sqe_command_id sqe;
     sqe_nsid := sqe_nsid sqe; sqe_cdw2 := 0; sqe_cdw3 := 0; sqe_metadata := 0;
     sqe_prp1 := sqe_prp1 sqe; sqe_prp2 := sqe_prp2 sqe;
     sqe_cdw10 := if slba =? 0 then sqe_cdw10 sqe else Z.land slba 4294967295;
     sqe_cdw11 := if slba =? 0 then sqe_cdw11 sqe else Z.land (Z.shiftr slba 32) 4294967295;
     sqe_cdw12 := if nlb =? 0 then sqe_cdw12 sqe else nlb - 1;
     sqe_cdw13 := 0; sqe_cdw14 := 0; sqe_cdw15 := 0 |}.

Definition NVME_SCT_GENERIC : Z := 0.
Definition NVME_SC_SUCCESS : Z := 0.

Definition cqeStatusCode (status : Z) : Z := Z.land (Z.shiftr status 1) 255.
Definition cqeStatusType (status : Z) : Z := Z.land (Z.shiftr status 9) 7.
Definition cqeOk (status : Z) : bool :=
  (cqeStatusType status =? NVME_SCT_GENERIC) && (cqeStatusCode status =? NVME_SC_SUCCESS).

(** ** What the controller makes of the PRP entries *)

(** The bus address of byte [k] of a transfer of [size] bytes: within the
    page of PRP1; else in the page PRP2 names if it is the only other page;
    else in the page named by the list PRP2 points to, [words] being the
    memory the controller reads. *)
Definition controller_byte (q : nvme_sqe) (size : Z) (words : Z -> Z) (k : Z) : Z :=
  let first := NVME_PAGE_SIZE - sqe_prp1 q mod NVME_PAGE_SIZE in
  if k <? first then sqe_prp1 q + k
  else
    let i := (k - first) / NVME_PAGE_SIZE in
    (if size <=? first + NVME_PAGE_SIZE then sqe_prp2 q else words (sqe_prp2 q + 8 * i))
    + (k - first) mod NVME_PAGE_SIZE.

(** The memory holds the list [l] of words at [a]. *)
Definition holds (words : Z -> Z) (a : Z) (l : list Z) : Prop :=
  forall i x, l !! i = Some x -> words (a + 8 * Z.of_nat i) = x.

(** ** Lemmas *)

Lemma page_offset x : Z.land x (NVME_PAGE_SIZE - 1) = x mod NVME_PAGE_SIZE.
Proof. exact (land_ones_mod x 12 ltac:(lia)). Qed.

Lemma page_base_mod x :
  0 <= x < 18446744073709551616 -> page_base x = x - x mod NVME_PAGE_SIZE.
Proof.
  intros Hx. unfold page_base, NVME_PAGE_SIZE.
  transitivity (Z.land x (Z.shiftl (Z.ones 52) 12)); [by f_equal|].
  assert (Z.land x (Z.shiftl (Z.ones 52) 12) = Z.shiftl (Z.shiftr x 12) 12) as ->.
  { apply Z.bits_inj'. intros i Hi. rewrite Z.land_spec.
    destruct (Z.lt_ge_cases i 12).
    - rewrite !Z.shiftl_spec_low by done. apply andb_false_r.
    - rewrite !Z.shiftl_spec_high, Z.shiftr_spec by lia.
      replace (i - 12 + 12) with i by lia.
      destruct (Z.lt_ge_cases i 64).
      + rewrite Z.ones_spec_low by lia. apply andb_true_r.
      + rewrite <- (Z.mod_small x (2 ^ 64)) by lia.
        rewrite Z.mod_pow2_bits_high by lia. done. }
  rewrite Z.shiftl_mul_pow2, Z.shiftr_div_pow2 by lia.
  pose proof (Z.div_mod x 4096 ltac:(lia)). change (2 ^ 12) with 4096. lia.
Qed.

Lemma fill_prp_list_lookup n i page l j x :
  fill_prp_list n i page = Some l -> l !! j = Some x -> page (i + Z.of_nat j) = Some x.
Proof.
  revert i l j. induction n as [|n IH]; intros i l j; cbn [fill_prp_list].
  { by intros [= <-]. }
  destruct (page i) as [y|] eqn:Ey; [|done]. cbn [mbind option_bind].
  destruct (fill_prp_list n (i + 1) page) as [l'|] eqn:El; [|done]. cbn. intros [= <-].
  destruct j as [|j]; intros E; cbn in E.
  - rewrite Z.add_0_r. congruence.
  - replace (i + Z.of_nat (S j)) with (i + 1 + Z.of_nat j) by lia. by eapply IH.
Qed.

Lemma fill_prp_list_length n i page l :
  fill_prp_list n i page = Some l -> length l = n.
Proof.
  revert i l. induction n as [|n IH]; intros i l; cbn [fill_prp_list]; [by intros [= <-]|].
  destruct (page i); [|done]. cbn [mbind option_bind].
  destruct (fill_prp_list n (i + 1) page) eqn:El; [|done]. cbn. intros [= <-].
  cbn. f_equal. by eapply IH.
Qed.

Lemma fill_prp_list_total n i page :
  (forall j, i <= j < i + Z.of_nat n -> is_Some (page j)) -> is_Some (fill_prp_list n i page).
Proof.
  revert i. induction n as [|n IH]; intros i H; cbn [fill_prp_list]; [done|].
  destruct (H i) as [x ->]; [lia|]. cbn [mbind option_bind].
  destruct (IH (i + 1)) as [l ->]; [intros; apply H; lia|]. done.
Qed.

Lemma word_at_lookup l i x : word_at l i = Some x -> 0 <= i /\ l !! Z.to_nat i = Some x.
Proof. unfold word_at. destruct (i <? 0) eqn:E; [done|]. bool_to_prop. done. Qed.

Lemma word_at_total l i : 0 <= i < Z.of_nat (length l) -> is_Some (word_at l i).
Proof.
  intros H. unfold word_at. rewrite (proj2 (Z.ltb_ge _ _)) by lia.
  apply lookup_lt_is_Some. lia.
Qed.

(** Where byte [k] of a buffer lives: contiguously from its address, or in
    the page that the table lists for it. *)
Definition buffer_byte (addr : Z) (pagePhysAddrs : option (list Z)) (off k : Z) : option Z :=
  match pagePhysAddrs with
  | None => Some (addr + k)
  | Some pages =>
    let v := addr mod NVME_PAGE_SIZE + k in
    p ← word_at pages (off + v / NVME_PAGE_SIZE); Some (p + v mod NVME_PAGE_SIZE)
  end.

(** A transfer of [size] bytes from [addr] that the code can describe: it
    fits the address space and one list page, and a page table, if there is
    one, covers it and agrees with the address. *)
Record prp_request (addr size : Z) (pages : option (list Z)) (off : Z) : Prop := {
  pr_addr : 0 <= addr < 18446744073709551616;
  pr_size : 0 < size <= NVME_PAGE_SIZE - addr mod NVME_PAGE_SIZE + 512 * NVME_PAGE_SIZE;
  pr_pages : match pages with
             | None => addr + size <= 18446744073709551616
             | Some l => 0 <= off /\ off + 513 < 4294967296 /\
                 off * NVME_PAGE_SIZE + addr mod NVME_PAGE_SIZE + size
                   <= Z.of_nat (length l) * NVME_PAGE_SIZE /\
                 word_at l off = Some (addr - addr mod NVME_PAGE_SIZE)
             end
}.

Section Prps.
Context (addr size off : Z) (pages : option (list Z)).
Hypothesis Hreq : prp_request addr size pages off.

Let first := NVME_PAGE_SIZE - addr mod NVME_PAGE_SIZE.
Let npages := (size - first + NVME_PAGE_SIZE - 1) / NVME_PAGE_SIZE.

Lemma first_bounds : 0 < first <= 4096.
Proof. unfold first, NVME_PAGE_SIZE. pose proof (Z.mod_pos_bound addr 4096). lia. Qed.

Lemma npages_bounds : first < size -> 1 <= npages <= 512.
Proof.
  pose proof first_bounds. destruct Hreq as [_ Hs _]. fold first in Hs.
  unfold npages, NVME_PAGE_SIZE in *. intros. split.
  - apply Z.div_le_lower_bound; lia.
  - apply Z.lt_succ_r, Z.div_lt_upper_bound; lia.
Qed.

(** Bytes after the first page lie in the pages [later_page] names. *)
Lemma later_page_bytes k :
  first <= k < size ->
  (k - first) / NVME_PAGE_SIZE < npages /\
  exists p, later_page addr first pages off ((k - first) / NVME_PAGE_SIZE) = Some p /\
    buffer_byte addr pages off k = Some (p + (k - first) mod NVME_PAGE_SIZE).
Proof.
  intros Hk. pose proof first_bounds as Hf. destruct Hreq as [Ha Hs Hp]. fold first in Hs.
  assert (first = 4096 - addr mod 4096) as Hfe by done.
  pose proof (Z.div_mod addr 4096 ltac:(lia)) as Hd.
  pose proof (Z.div_mod (k - first) 4096 ltac:(lia)) as Hdk.
  pose proof (Z.mod_pos_bound (k - first) 4096 ltac:(lia)) as Hmk.
  pose proof (Z.div_pos (k - first) 4096 ltac:(lia) ltac:(lia)).
  unfold npages, later_page, buffer_byte, NVME_PAGE_SIZE in *.
  set (i := (k - first) / 4096) in *. set (r := (k - first) mod 4096) in *.
  assert (i + 1 <= (size - first + 4096 - 1) / 4096) by (apply Z.div_le_lower_bound; lia).
  split; [lia|].
  destruct pages as [l|].
  - destruct Hp as (Hoff & Hoff' & Hlen & _).
    assert (i < 512). { apply Z.div_lt_upper_bound; lia. }
    rewrite u32_small by lia.
    assert ((addr mod 4096 + k) / 4096 = 1 + i) as ->.
    { symmetry. apply (Z.div_unique _ _ _ r); lia. }
    assert ((addr mod 4096 + k) mod 4096 = r) as ->.
    { symmetry. apply (Z.mod_unique _ _ (1 + i)); lia. }
    destruct (word_at_total l (off + 1 + i)) as [p Ep].
    { assert (off + 1 + i < Z.of_nat (length l)); [|lia].
      apply (Z.mul_lt_mono_pos_r 4096); lia. }
    exists p. rewrite Z.add_assoc, Ep. done.
  - rewrite (u64_small (addr + first)) by lia.
    rewrite page_base_mod by (lia). unfold NVME_PAGE_SIZE.
    assert ((addr + first) mod 4096 = 0) as ->.
    { symmetry. apply (Z.mod_unique _ _ (addr / 4096 + 1)); lia. }
    rewrite u64_small by (lia).
    eexists. split; [done|]. f_equal. lia.
Qed.

Lemma prp_list_total :
  first < size ->
  is_Some (fill_prp_list (Z.to_nat npages) 0 (later_page addr first pages off)).
Proof.
  intros Hs. pose proof (npages_bounds Hs) as Hn. pose proof first_bounds.
  apply fill_prp_list_total. intros j Hj.
  assert (first + j * 4096 < size) as Hjs.
  { assert (j + 1 <= npages) as Hj1 by lia. unfold npages, NVME_PAGE_SIZE in Hj1.
    pose proof (Z.mul_div_le (size - first + 4096 - 1) 4096 ltac:(lia)). lia. }
  destruct (later_page_bytes (first + j * 4096)) as (_ & p & Ep & _); [lia|].
  unfold NVME_PAGE_SIZE in Ep. replace (first + j * 4096 - first) with (j * 4096) in Ep by lia.
  rewrite Z.div_mul in Ep by lia. eauto.
Qed.

(** The first page is described by PRP1. *)
Lemma first_page_bytes k :
  0 <= k < size -> k < first -> buffer_byte addr pages off k = Some (addr + k).
Proof.
  intros Hk Hf. destruct Hreq as [Ha Hs Hp]. unfold buffer_byte. destruct pages as [l|]; [|done].
  destruct Hp as (_ & _ & _ & Hl).
  assert (first = 4096 - addr mod 4096) as Hfe by done. unfold NVME_PAGE_SIZE in *.
  pose proof (Z.mod_pos_bound addr 4096 ltac:(lia)).
  rewrite (Z.div_small (addr mod 4096 + k)) by lia. rewrite Z.add_0_r, Hl. cbn.
  rewrite (Z.mod_small (addr mod 4096 + k)) by lia. f_equal. lia.
Qed.
(** What remains to show of PRP2 is where the later pages are. *)
Lemma prp_bytes p2 words q k :
  (forall k, first <= k < size ->
     later_page addr first pages off ((k - first) / NVME_PAGE_SIZE)
     = Some (if size <=? first + NVME_PAGE_SIZE then p2
             else words (p2 + 8 * ((k - first) / NVME_PAGE_SIZE)))) ->
  0 <= k < size ->
  buffer_byte addr pages off k = Some (controller_byte (with_prps addr p2 q) size words k).
Proof.
  intros Hp Hk. unfold controller_byte. cbn [sqe_prp1 sqe_prp2 with_prps]. fold first.
  destruct (k <? first) eqn:Ek; bool_to_prop.
  - by apply first_page_bytes.
  - destruct (later_page_bytes k) as (_ & p & Ep & ->); [lia|].
    rewrite Hp in Ep by lia. by injection Ep as ->.
Qed.

Lemma npages_one : npages = 1 -> size <= first + NVME_PAGE_SIZE.
Proof.
  unfold npages, NVME_PAGE_SIZE. intros H.
  pose proof (Z.div_mod (size - first + 4096 - 1) 4096 ltac:(lia)).
  pose proof (Z.mod_pos_bound (size - first + 4096 - 1) 4096 ltac:(lia)). lia.
Qed.

Lemma npages_more : 2 <= npages -> first + NVME_PAGE_SIZE < size.
Proof.
  unfold npages, NVME_PAGE_SIZE. intros H.
  pose proof (Z.mul_div_le (size - first + 4096 - 1) 4096 ltac:(lia)). lia.
Qed.

Lemma prp_two_pages p words q k :
  later_page addr first pages off 0 = Some p -> size <= first + NVME_PAGE_SIZE ->
  0 <= k < size ->
  buffer_byte addr pages off k = Some (controller_byte (with_prps addr p q) size words k).
Proof.
  intros Ep Hs. apply prp_bytes. intros k' Hk'. rewrite (proj2 (Z.leb_le _ _)) by lia.
  by rewrite Z.div_small by lia.
Qed.

Lemma prp_list_pages l dma words q k :
  fill_prp_list (Z.to_nat npages) 0 (later_page addr first pages off) = Some l ->
  2 <= npages -> holds words dma l -> 0 <= k < size ->
  buffer_byte addr pages off k = Some (controller_byte (with_prps addr dma q) size words k).
Proof.
  intros El Hn Hw. apply prp_bytes. intros k' Hk'. pose proof (npages_more Hn).
  rewrite (proj2 (Z.leb_gt _ _)) by lia.
  destruct (later_page_bytes k' Hk') as (Hi & _).
  pose proof (Z.div_pos (k' - first) NVME_PAGE_SIZE ltac:(lia) ltac:(done)) as Hi0.
  set (i := (k' - first) / NVME_PAGE_SIZE) in *.
  assert (is_Some (l !! Z.to_nat i)) as [x Ex].
  { apply lookup_lt_is_Some. rewrite (fill_prp_list_length _ _ _ _ El). lia. }
  pose proof (fill_prp_list_lookup _ _ _ _ _ _ El Ex) as Ex'.
  rewrite Z.add_0_l, Z2Nat.id in Ex' by done.
  specialize (Hw _ _ Ex). rewrite Z2Nat.id in Hw by done. congruence.
Qed.

(** The 32-bit page count of the code is the number of pages. *)
Lemma npages_u32 :
  first < size -> u32 (u32 (size - first) + NVME_PAGE_SIZE - 1) / NVME_PAGE_SIZE = npages.
Proof.
  intros H. pose proof first_bounds. destruct Hreq as [_ Hs _]. fold first in Hs.
  unfold npages, NVME_PAGE_SIZE in *. by rewrite (u32_small (size - first)), u32_small by lia.
Qed.
End Prps.

(** Without list memory of its own the routine relies on a list written
    beforehand: if the memory at [dma] holds the later pages whenever there
    is more than one of them, the bytes are in their place as well. *)
Lemma calculatePrps_prefilled addr size q dma pages off :
  prp_request addr size pages off ->
  exists p2, calculatePrps addr size q NULL dma pages off = Some (with_prps addr p2 q, []) /\
    forall words,
      (NVME_PAGE_SIZE - addr mod NVME_PAGE_SIZE + NVME_PAGE_SIZE < size ->
       forall i, 0 <= i ->
         NVME_PAGE_SIZE - addr mod NVME_PAGE_SIZE + i * NVME_PAGE_SIZE < size ->
         later_page addr (NVME_PAGE_SIZE - addr mod NVME_PAGE_SIZE) pages off i
         = Some (words (dma + 8 * i))) ->
      forall k, 0 <= k < size ->
        buffer_byte addr pages off k = Some (controller_byte (with_prps addr p2 q) size words k).
Proof.
  intros Hr. unfold calculatePrps. rewrite page_offset. cbv zeta.
  pose proof (fun p2 words k => prp_bytes addr size off pages Hr p2 words q k) as Hbytes.
  pose proof (npages_u32 addr size off pages Hr) as Hu.
  pose proof (npages_bounds addr size off pages Hr) as Hn.
  pose proof (npages_one addr size) as Hone. pose proof (npages_more addr size) as Hmore.
  pose proof (later_page_bytes addr size off pages Hr) as Hl.
  pose proof (first_bounds addr size) as Hf.
  set (first := NVME_PAGE_SIZE - addr mod NVME_PAGE_SIZE) in *.
  destruct (size <=? first) eqn:E1; bool_to_prop.
  { exists 0. split; [done|]. intros words _ k Hk. apply Hbytes; [lia|done]. }
  rewrite Hu by done. set (n := (size - first + NVME_PAGE_SIZE - 1) / NVME_PAGE_SIZE) in *.
  rewrite (proj2 (Z.ltb_ge kMaxPrpListEntries n)) by (change kMaxPrpListEntries with 512; lia).
  destruct (n =? 1) eqn:E2; bool_to_prop.
  - specialize (Hone E2). destruct (Hl first) as (_ & p & Ep & _); [lia|].
    rewrite Z.sub_diag in Ep. change (0 / NVME_PAGE_SIZE) with 0 in Ep. rewrite Ep.
    exists p. split; [done|]. intros words _ k Hk.
    eapply (prp_two_pages _ _ _ _ Hr); done.
  - exists dma. split; [done|]. intros words Hw k Hk. specialize (Hn E1).
    specialize (Hmore ltac:(lia)). apply Hbytes; [|done]. intros k' Hk'.
    rewrite (proj2 (Z.leb_gt _ _)) by lia.
    pose proof (Z.div_pos (k' - first) NVME_PAGE_SIZE ltac:(lia) ltac:(done)).
    apply Hw; [done..|].
    pose proof (Z.mul_div_le (k' - first) NVME_PAGE_SIZE ltac:(done)). lia.
Qed.

(** The fields of a command after [sqeSetup]. *)
Lemma sqe_setup_fields q slba nlb :
  sqe_cdw10 q = 0 -> sqe_cdw11 q = 0 ->
  0 <= slba < 18446744073709551616 -> 0 < nlb < 4294967296 ->
  let q' := sqeSetup q slba nlb in
  sqe_cdw10 q' + sqe_cdw11 q' * 4294967296 = slba /\ sqe_cdw12 q' + 1 = nlb /\
  sqe_opcode q' = sqe_opcode q /\ sqe_nsid q' = sqe_nsid q /\
  sqe_prp1 q' = sqe_prp1 q /\ sqe_prp2 q' = sqe_prp2 q.
Proof.
  intros H10 H11 Hs Hn. cbn. rewrite H10, H11, (proj2 (Z.eqb_neq nlb 0)) by lia.
  change 4294967295 with (Z.ones 32). rewrite !land_ones_mod, Z.shiftr_div_pow2 by lia.
  change (2 ^ 32) with 4294967296.
  pose proof (Z.div_mod slba 4294967296 ltac:(lia)).
  assert (0 <= slba / 4294967296 < 4294967296).
  { split; [apply Z.div_pos; lia|apply Z.div_lt_upper_bound; lia]. }
  destruct (slba =? 0) eqn:E; bool_to_prop; split_and!; try done; try lia.
  rewrite (Z.mod_small (slba / _)) by lia. lia.
Qed.

(** ** Properties *)

(** The PRP entries describe the buffer.  For a transfer that fits one
    list page, over a buffer that is contiguous or described by a page table,
    the code succeeds, changes nothing but the two PRP fields, and once the
    words it produced are in memory, the controller puts every byte of the
    transfer where the buffer keeps it. *)
Theorem calculatePrps_addresses addr size q prpList prpListDma pages off :
  prp_request addr size pages off -> prpList <> NULL ->
  exists q' l, calculatePrps addr size q prpList prpListDma pages off = Some (q', l) /\
    q' = with_prps addr (sqe_prp2 q') q /\ (length l <= 512)%nat /\
    forall words, holds words prpListDma l -> forall k, 0 <= k < size ->
      buffer_byte addr pages off k = Some (controller_byte q' size words k).
Proof.
  intros Hr Hl. unfold calculatePrps. rewrite page_offset.
  set (first := NVME_PAGE_SIZE - addr mod NVME_PAGE_SIZE).
  destruct (size <=? first) eqn:E1; bool_to_prop.
  { eexists _, []. split_and!; [done|done|cbn; lia|]. intros words _ k Hk.
    unfold controller_byte. cbn [sqe_prp1 sqe_prp2 with_prps]. fold first.
    rewrite (proj2 (Z.ltb_lt _ _)) by lia. apply (first_page_bytes addr size); [done..|].
    fold first. lia. }
  pose proof (npages_bounds _ _ _ _ Hr E1) as Hn.
  pose proof (npages_u32 _ _ _ _ Hr E1) as Hu. fold first in Hn, Hu. cbv zeta. rewrite Hu.
  set (n := (size - first + NVME_PAGE_SIZE - 1) / NVME_PAGE_SIZE) in *.
  rewrite (proj2 (Z.ltb_ge kMaxPrpListEntries n)) by (change kMaxPrpListEntries with 512; lia).
  destruct (n =? 1) eqn:E2; bool_to_prop.
  - pose proof (npages_one addr size E2) as Hone. fold first in Hone.
    destruct (later_page_bytes _ _ _ _ Hr first) as (_ & p & Ep & _); [fold first; lia|].
    fold first in Ep. rewrite Z.sub_diag in Ep. change (0 / NVME_PAGE_SIZE) with 0 in Ep.
    rewrite Ep. cbn [mbind option_bind].
    eexists _, []. split_and!; [done|done|cbn; lia|]. intros words _ k Hk.
    by apply (prp_two_pages _ _ _ _ Hr).
  - destruct (prp_list_total _ _ _ _ Hr E1) as [l El]. fold first in El. fold n in El.
    rewrite (proj2 (Z.eqb_neq _ _) Hl), El. cbn [mbind option_bind].
    eexists _, l. split_and!; [done|done| |].
    { rewrite (fill_prp_list_length _ _ _ _ El). lia. }
    intros words Hw k Hk. eapply (prp_list_pages _ _ _ _ Hr); try done. fold first. fold n. lia.
Qed.

(** For transfers of at most two pages the short overload computes the
    same entries as the full routine on a contiguous buffer. *)
Theorem calculatePrps2_agrees addr size q prpList prpListDma :
  prp_request addr size None 0 ->
  size <= NVME_PAGE_SIZE - addr mod NVME_PAGE_SIZE + NVME_PAGE_SIZE ->
  calculatePrps addr size q prpList prpListDma None 0 = Some (calculatePrps2 addr size q, []).
Proof.
  intros Hr Hs. unfold calculatePrps, calculatePrps2. rewrite page_offset.
  set (first := NVME_PAGE_SIZE - addr mod NVME_PAGE_SIZE) in *.
  destruct (size <=? first) eqn:E1; bool_to_prop; [done|].
  pose proof (npages_bounds _ _ _ _ Hr E1) as Hn.
  pose proof (npages_u32 _ _ _ _ Hr E1) as Hu. fold first in Hn, Hu. cbv zeta. rewrite Hu.
  pose proof (npages_more addr size) as Hm. fold first in Hm.
  set (n := (size - first + NVME_PAGE_SIZE - 1) / NVME_PAGE_SIZE) in *.
  assert (n = 1) as -> by lia. cbv beta iota zeta delta [later_page mbind option_bind]. change (kMaxPrpListEntries <? 1) with false. cbv iota.
  change (1 =? 1) with true. cbv iota. rewrite Z.mul_0_l, Z.add_0_r.
  pose proof (pr_pages _ _ _ _ Hr) as Ha. cbv beta iota in Ha.
  pose proof (pr_addr _ _ _ _ Hr). pose proof (first_bounds addr size) as Hf. fold first in Hf.
  rewrite (u64_small (addr + first)) by lia.
  assert (0 <= page_base (addr + first) <= addr + first).
  { rewrite page_base_mod by lia. unfold NVME_PAGE_SIZE.
    pose proof (Z.mod_pos_bound (addr + first) 4096 ltac:(lia)).
    pose proof (Z.mod_le (addr + first) 4096 ltac:(lia) ltac:(lia)). lia. }
  by rewrite u64_small by lia.
Qed.

(** The block address and count reach the command: for an entry whose
    address words start at zero, as both kernels build them, the two 32-bit
    words hold the 64-bit block address and the count field the 0-based
    count; opcode, identifiers and PRP entries are kept. *)
Theorem sqeSetup_command q slba nlb :
  sqe_cdw10 q = 0 -> sqe_cdw11 q = 0 ->
  0 <= slba < 18446744073709551616 -> 0 < nlb < 4294967296 ->
  let q' := sqeSetup q slba nlb in
  sqe_cdw10 q' + sqe_cdw11 q' * 4294967296 = slba /\ sqe_cdw12 q' + 1 = nlb /\
  0 <= sqe_cdw10 q' < 4294967296 /\ 0 <= sqe_cdw11 q' < 4294967296 /\
  sqe_opcode q' = sqe_opcode q /\ sqe_command_id q' = sqe_command_id q /\
  sqe_nsid q' = sqe_nsid q /\ sqe_prp1 q' = sqe_prp1 q /\ sqe_prp2 q' = sqe_prp2 q.
Proof.
  intros H10 H11 Hs Hn q'.
  destruct (sqe_setup_fields q slba nlb H10 H11 Hs Hn) as (H1 & H2 & H3 & H4 & H5 & H6).
  fold q' in H1, H2, H3, H4, H5, H6. split_and!; try done; unfold q'; cbn; rewrite ?H10, ?H11;
    destruct (slba =? 0); try lia; change 4294967295 with (Z.ones 32);
    rewrite land_ones_mod by lia; apply Z.mod_pos_bound; lia.
Qed.

(** The pool of PRP lists is consistent: when a list takes at least a
    page, the DMA address the controller is given for a command is the
    address of the words the GPU writes for it, and the lists of different
    commands (of another batch entry, or of the other direction when there
    are two lists per entry) do not overlap. *)
Theorem prp_list_pool_consistent p b1 w1 b2 w2 :
  bp_prpListPageDmas p = None -> bp_prpListPoolDma p <> 0 -> 512 <= bp_prpEntriesPerCmd p ->
  0 <= b1 -> 0 <= b2 ->
  0 <= bp_prpListPoolDma p ->
  (b1 + 1) * 2 * bp_prpEntriesPerCmd p < 4294967296 ->
  (b2 + 1) * 2 * bp_prpEntriesPerCmd p < 4294967296 ->
  bp_prpListPoolDma p + 8 * 4294967296 < 18446744073709551616 ->
  prpListDmaForSlot p (nvmePrpListDmaSlotIndex p b1 w1)
    = Some (bp_prpListPoolDma p + 8 * nvmePrpListWordOffset p b1 w1) /\
  (b1 <> b2 \/ nvmePrpSlotsPerBatchVal p = 2 /\ w1 <> w2 ->
   bp_prpEntriesPerCmd p <=
     Z.abs (nvmePrpListWordOffset p b1 w1 - nvmePrpListWordOffset p b2 w2)).
Proof.
  intros Hd Hp He Hb1 Hb2 Hp0 H1 H2 Hmax.
  assert (forall b (w : bool), 0 <= b -> (b + 1) * 2 * bp_prpEntriesPerCmd p < 4294967296 ->
    exists slot, nvmePrpListDmaSlotIndex p b w = slot /\
      slot = (if nvmePrpSlotsPerBatchVal p =? 2 then 2 * b + ind w else b) /\
      nvmePrpListWordOffset p b w = slot * bp_prpEntriesPerCmd p /\
      0 <= slot * bp_prpEntriesPerCmd p < 4294967296) as Hslot.
  { intros b w Hb Hlt. eexists. split; [done|].
    unfold nvmePrpListDmaSlotIndex, nvmePrpListWordOffset, nvmePrpSlotsPerBatchVal.
    destruct (bp_prpSlotsPerBatch p =? 2); cbn -[u32].
    - assert (b < 4294967296) by nia.
      rewrite (u32_small (b * 2 * _)) by nia. destruct w; cbn -[u32]; rewrite !u32_small; nia.
    - assert (b < 4294967296) by nia. rewrite ?u32_small by nia. nia. }
  destruct (Hslot b1 w1 Hb1 H1) as (s1 & E1 & Es1 & Eo1 & Hr1).
  destruct (Hslot b2 w2 Hb2 H2) as (s2 & E2 & Es2 & Eo2 & Hr2).
  split.
  - unfold prpListDmaForSlot. rewrite Hd, E1, Eo1, (proj2 (Z.eqb_neq _ _) Hp).
    rewrite (proj2 (Z.eqb_neq _ 0)) by lia. cbn -[u64].
    rewrite (proj2 (Z.ltb_ge _ _)) by (change prpListEntriesPerPage with 512; lia).
    rewrite u64_small by nia. f_equal. nia.
  - intros Hne. rewrite Eo1, Eo2. assert (1 <= Z.abs (s1 - s2)); [|nia].
    destruct (nvmePrpSlotsPerBatchVal p =? 2) eqn:Em; bool_to_prop.
    + destruct w1, w2; cbn [ind] in *; destruct Hne as [?|[_ ?]]; try congruence; lia.
    + destruct Hne as [?|[? _]]; [lia|congruence].
Qed.

(** ** Witnesses *)

Definition sqe0 : nvme_sqe :=
  {| sqe_opcode := 0; sqe_flags := 0; sqe_command_id := 0; sqe_nsid := 0; sqe_cdw2 := 0;
     sqe_cdw3 := 0; sqe_metadata := 0; sqe_prp1 := 0; sqe_prp2 := 0; sqe_cdw10 := 0;
     sqe_cdw11 := 0; sqe_cdw12 := 0; sqe_cdw13 := 0; sqe_cdw14 := 0; sqe_cdw15 := 0 |}.

(** 10000 bytes from the middle of the second of four scattered pages. *)
Lemma sample_prp_request : prp_request 20980 10000 (Some [40960; 20480; 81920; 12288]) 1.
Proof. split; [lia|vm_compute; split; [done|discriminate]|by split_and!]. Qed.

Lemma calculatePrps_addresses_witness :
  exists q' l, calculatePrps 20980 10000 sqe0 500 9000 (Some [40960; 20480; 81920; 12288]) 1
                 = Some (q', l) /\ l = [81920; 12288] /\
    forall words, holds words 9000 l ->
      Some (controller_byte q' 10000 words 9999)
      = buffer_byte 20980 (Some [40960; 20480; 81920; 12288]) 1 9999.
Proof.
  destruct (calculatePrps_addresses 20980 10000 sqe0 500 9000 _ 1 sample_prp_request)
    as (q' & l & E & _ & _ & H); [done|].
  exists q', l. split; [done|]. split.
  - vm_compute in E. by injection E as <- <-.
  - intros words Hw. symmetry. apply H; [done|lia].
Defined.

Lemma calculatePrps2_agrees_witness :
  calculatePrps 20980 5000 sqe0 0 0 None 0 = Some (calculatePrps2 20980 5000 sqe0, []).
Proof.
  apply (calculatePrps2_agrees 20980 5000 sqe0 0 0); [|by vm_compute].
  split; [lia|vm_compute; split; [done|discriminate]|lia].
Defined.

Lemma sqeSetup_command_witness :
  let q' := sqeSetup sqe0 (3 * 4294967296 + 7) 8 in
  sqe_cdw10 q' + sqe_cdw11 q' * 4294967296 = 3 * 4294967296 + 7.
Proof. apply (sqeSetup_command sqe0 (3 * 4294967296 + 7) 8); done || lia. Defined.

Definition sample_pool : nvmeBufferParams :=
  {| bp_readBuffer := 4096; bp_writeBuffer := 8192; bp_bufferSize := 4096;
     bp_readBufferDma := 0; bp_writeBufferDma := 0; bp_readPagePhysAddrs := None;
     bp_writePagePhysAddrs := None; bp_prpListPool := 16384; bp_prpListPageDmas := None;
     bp_prpListPoolDma := 1048576; bp_prpEntriesPerCmd := 512; bp_prpSlotsPerBatch := 2 |}.

Lemma prp_list_pool_consistent_witness :
  prpListDmaForSlot sample_pool (nvmePrpListDmaSlotIndex sample_pool 3 true)
    = Some (1048576 + 8 * nvmePrpListWordOffset sample_pool 3 true).
Proof.
  apply (prp_list_pool_consistent sample_pool 3 true 4 false); cbn; done || lia.
Defined.
