(* ===== verification/NvmeDrive.v ===== *)
(** * Driving an NVMe queue from the GPU

    [driveEndpointSingle] of [src/src/endpoints/nvme-ep/nvme-ep.hip]: the
    batches of commands one GPU thread writes into a submission queue, the
    addresses of their data, the doorbells and the polling of completions by
    phase, with the controller that serves the queue pair as the other half
    of a step relation.  The controller is hardware: it fetches the entries
    between its head and the doorbell in order, completes what it has fetched
    in any order and with any status, and flips the phase bit of its
    completions each time round, as the NVMe specification says. *)

From S2P Require Import Prelude NvmeEp.

Definition NVME_EP_MAX_POLLS : Z := 10000000.

(** The fields of [nvmeIoParams] this path reads. *)
Record drive_params := {
  dp_lbaSize : Z; dp_baseLba : Z; dp_lbaRangeLbas : Z; dp_useRandomAccess : bool;
  dp_readIo : Z; dp_writeIo : Z; dp_lfsrSeed : Z; dp_queueSize : Z; dp_nsid : Z;
  dp_lbasPerIo : Z; dp_infiniteMode : bool; dp_batchSize : Z
}.

(** ** Which block an operation accesses *)

Definition random_seed (op_index cmd_id lfsrSeed : Z) : Z :=
  let seed := u64 (u64 (u64 (op_index * 2654435769) + u32 (cmd_id * 2246822507)) + lfsrSeed) in
  let seed := Z.lxor seed (Z.shiftr seed 16) in
  let seed := u64 (seed * 3266489909) in
  let seed := Z.lxor seed (Z.shiftr seed 13) in
  let seed := u64 (seed * 2654435769) in
  Z.lxor seed (Z.shiftr seed 16).

Definition getRandomLba (op_index cmd_id blocks : Z) (p : drive_params) : Z :=
  if dp_useRandomAccess p && (0 <? dp_lbaRangeLbas p) then
    let max_lba := if (0 <? blocks) && (blocks <=? dp_lbaRangeLbas p)
                   then dp_lbaRangeLbas p - blocks + 1 else 1 in
    u64 (dp_baseLba p + random_seed op_index cmd_id (dp_lfsrSeed p) mod max_lba)
  else if 0 <? dp_lbaRangeLbas p
  then u64 (dp_baseLba p + u32 (op_index * blocks) mod dp_lbaRangeLbas p)
  else u64 (dp_baseLba p + u32 (op_index * blocks)).

Definition num_read_ops (p : drive_params) : Z := u32 (dp_readIo p).
Definition num_write_ops (p : drive_params) : Z := u32 (dp_writeIo p).
Definition total_ops (p : drive_params) : Z := u32 (num_read_ops p + num_write_ops p).

(** Writes come first. *)
Definition is_read_op (p : drive_params) (op_idx : Z) : bool :=
  if dp_infiniteMode p then 0 <? num_read_ops p
  else if (0 <? num_write_ops p) && (0 <? num_read_ops p) then num_write_ops p <=? op_idx
  else 0 <? num_read_ops p.

(** Reads start over at the first block written. *)
Definition op_lba (p : drive_params) (op_idx : Z) : Z :=
  let lba_idx := if is_read_op p op_idx && (0 <? num_write_ops p)
                 then u32 (op_idx - num_write_ops p) else op_idx in
  getRandomLba lba_idx (u16 (lba_idx mod 65535 + 1)) (dp_lbasPerIo p) p.

(** How many commands go out per doorbell. *)
Definition requested_batch (p : drive_params) : Z :=
  let b := if dp_batchSize p =? 0
           then (if dp_infiniteMode p then u32 (dp_queueSize p - 1) else total_ops p)
           else dp_batchSize p in
  let b := if u32 (dp_queueSize p - 1) <? b then u32 (dp_queueSize p - 1) else b in
  if negb (dp_infiniteMode p) && (total_ops p <? b) then total_ops p else b.

(** [timed]: there are timing statistics, for which at most 256 are kept. *)
Definition batch_size (p : drive_params) (timed : bool) : Z :=
  if timed && (256 <? requested_batch p) then 256 else requested_batch p.

(** ** Where an operation's data is *)

Definition transfer_size (p : drive_params) : Z := dp_lbasPerIo p * dp_lbaSize p.

Definition has_buffer (bp : nvmeBufferParams) (is_read : bool) : bool :=
  negb (is_null (if is_read then bp_readBuffer bp else bp_writeBuffer bp))
  && (0 <? bp_bufferSize bp).

(** The address of the region that starts [buf_off] bytes into a buffer;
    [None]: beyond the page table. *)
Definition region_addr (bp : nvmeBufferParams) (is_read : bool) (buf_off : Z) : option Z :=
  match (if is_read then bp_readPagePhysAddrs bp else bp_writePagePhysAddrs bp) with
  | Some pages =>
      x ← word_at pages (u32 (buf_off / NVME_PAGE_SIZE)); Some (u64 (x + buf_off mod NVME_PAGE_SIZE))
  | None =>
      let dma := if is_read then bp_readBufferDma bp else bp_writeBufferDma bp in
      let buffer := if is_read then bp_readBuffer bp else bp_writeBuffer bp in
      Some (u64 ((if dma =? 0 then buffer else dma) + buf_off))
  end.

Definition blank_sqe : nvme_sqe :=
  {| sqe_opcode := 0; sqe_flags := 0; sqe_command_id := 0; sqe_nsid := 0; sqe_cdw2 := 0;
     sqe_cdw3 := 0; sqe_metadata := 0; sqe_prp1 := 0; sqe_prp2 := 0; sqe_cdw10 := 0;
     sqe_cdw11 := 0; sqe_cdw12 := 0; sqe_cdw13 := 0; sqe_cdw14 := 0; sqe_cdw15 := 0 |}.

(** The PRP fields of place [b] of a batch, and the words that go into its
    list. *)
Definition place_prps (p : drive_params) (bp : nvmeBufferParams) (is_read : bool) (b : Z)
    : option (Z * Z * list Z) :=
  let buf_off := u64 (b * transfer_size p) in
  let prpSlot := if is_null (bp_prpListPool bp) then NULL
                 else u64 (bp_prpListPool bp + 8 * nvmePrpListWordOffset bp b (negb is_read)) in
  prpSlotDma ← prpListDmaForSlot bp (nvmePrpListDmaSlotIndex bp b (negb is_read));
  addr ← region_addr bp is_read buf_off;
  r ← calculatePrps addr (u32 (transfer_size p)) blank_sqe prpSlot prpSlotDma
        (if is_read then bp_readPagePhysAddrs bp else bp_writePagePhysAddrs bp)
        (u32 (buf_off / NVME_PAGE_SIZE));
  Some (sqe_prp1 (fst r), sqe_prp2 (fst r), snd r).

Definition place_fits (p : drive_params) (bp : nvmeBufferParams) (b : Z) : bool :=
  u64 (u64 (b * transfer_size p) + transfer_size p) <=? bp_bufferSize bp.

(** The tables filled before the first batch, on the thread's stack: what
    the loop does not assign is whatever was there. *)
Record prp_tables := { readPrps : list (Z * Z); writePrps : list (Z * Z) }.
Definition kMaxPrecomputedPrps : Z := 256.
Definition precompute_count (batch : Z) : Z :=
  if kMaxPrecomputedPrps <? batch then kMaxPrecomputedPrps else batch.

(** One entry of one table. *)
Definition precompute_dir (p : drive_params) (bp : nvmeBufferParams) (is_read : bool) (b : nat)
    (table : list (Z * Z)) : option (list (Z * Z)) :=
  if has_buffer bp is_read && place_fits p bp (Z.of_nat b) then
    r ← place_prps p bp is_read (Z.of_nat b); Some (<[b := fst r]> table)
  else Some table.

(** Entries [b] to [b + n - 1]. *)
Fixpoint precompute (p : drive_params) (bp : nvmeBufferParams) (n b : nat) (t : prp_tables)
    : option prp_tables :=
  match n with
  | O => Some t
  | S n' =>
      rd ← precompute_dir p bp true b (readPrps t);
      wr ← precompute_dir p bp false b (writePrps t);
      precompute p bp n' (S b) {| readPrps := rd; writePrps := wr |}
  end.

(** ** Commands *)

Record drive_env := {
  de_params : drive_params; de_buffers : nvmeBufferParams; de_timed : bool; de_tables : prp_tables
}.
Definition env_batch (e : drive_env) : Z := batch_size (de_params e) (de_timed e).

(** The PRP fields of a command at place [b]: from the table, or computed;
    [None] is [__builtin_trap()], or a read past a table. *)
Definition command_prps (e : drive_env) (is_read : bool) (b : Z) : option (Z * Z) :=
  if b <? precompute_count (env_batch e)
  then (if is_read then readPrps (de_tables e) else writePrps (de_tables e)) !! Z.to_nat b
  else if has_buffer (de_buffers e) is_read && place_fits (de_params e) (de_buffers e) b
  then r ← place_prps (de_params e) (de_buffers e) is_read b; Some (fst r)
  else None.

Definition build_command (e : drive_env) (op_idx b : Z) : option nvme_sqe :=
  let p := de_params e in
  let is_read := is_read_op p op_idx in
  prps ← command_prps e is_read b;
  Some (sqeSetup
    {| sqe_opcode := if is_read then nvme_cmd_read else nvme_cmd_write; sqe_flags := 0;
       sqe_command_id := u16 (op_idx mod 65535 + 1); sqe_nsid := dp_nsid p; sqe_cdw2 := 0;
       sqe_cdw3 := 0; sqe_metadata := 0; sqe_prp1 := fst prps; sqe_prp2 := snd prps;
       sqe_cdw10 := 0; sqe_cdw11 := 0; sqe_cdw12 := 0; sqe_cdw13 := 0; sqe_cdw14 := 0;
       sqe_cdw15 := 0 |} (op_lba p op_idx) (dp_lbasPerIo p)).

(** ** The queue pair and its two sides *)

(** A completion entry, the members read. *)
Record nvme_cqe := { cqe_command_id : Z; cqe_sq_head : Z; cqe_status : Z }.
Definition NVME_CQE_STATUS_PHASE (status : Z) : Z := Z.land status 1.

Inductive outcome := Finished | Stopped | Trapped | TimedOut | Failed (status : Z).

(** Where the GPU thread is: at the loop's test, writing entry [b] of the
    batch, at either doorbell, polling for completion [b], or out. *)
Inductive drive_pc :=
| Loop | Build (b : Z) | RingSq | Poll (b poll_count : Z) | RingCq | Exit (o : outcome).

Record gpu_thread := {
  g_pc : drive_pc; g_sq_tail : Z; g_cq_head : Z; g_phase : Z; g_ops_done : Z; g_batch_count : Z
}.

(** The queue pair in memory and the doorbell registers. *)
Record queue_pair := {
  qp_sq : Z -> nvme_sqe; qp_cq : Z -> nvme_cqe; qp_sq_doorbell : Z; qp_cq_doorbell : Z;
  qp_stop : bool
}.

(** The controller: its two positions and phase, what it has fetched, oldest
    first, what of it is in flight, and what it has completed. *)
Record controller := {
  ct_sq_head : Z; ct_cq_tail : Z; ct_phase : Z; ct_fetched : list nvme_sqe;
  ct_inflight : list nvme_sqe; ct_completed : list (nvme_sqe * Z)
}.

Definition goto (pc : drive_pc) (g : gpu_thread) : gpu_thread :=
  {| g_pc := pc; g_sq_tail := g_sq_tail g; g_cq_head := g_cq_head g; g_phase := g_phase g;
     g_ops_done := g_ops_done g; g_batch_count := g_batch_count g |}.
Definition set_sq (i : Z) (q : nvme_sqe) (m : queue_pair) : queue_pair :=
  {| qp_sq := fun k => if k =? i then q else qp_sq m k; qp_cq := qp_cq m;
     qp_sq_doorbell := qp_sq_doorbell m; qp_cq_doorbell := qp_cq_doorbell m; qp_stop := qp_stop m |}.
Definition set_cq (i : Z) (c : nvme_cqe) (m : queue_pair) : queue_pair :=
  {| qp_sq := qp_sq m; qp_cq := fun k => if k =? i then c else qp_cq m k;
     qp_sq_doorbell := qp_sq_doorbell m; qp_cq_doorbell := qp_cq_doorbell m; qp_stop := qp_stop m |}.
Definition ring_sq (v : Z) (m : queue_pair) : queue_pair :=
  {| qp_sq := qp_sq m; qp_cq := qp_cq m; qp_sq_doorbell := v; qp_cq_doorbell := qp_cq_doorbell m;
     qp_stop := qp_stop m |}.
Definition ring_cq (v : Z) (m : queue_pair) : queue_pair :=
  {| qp_sq := qp_sq m; qp_cq := qp_cq m; qp_sq_doorbell := qp_sq_doorbell m; qp_cq_doorbell := v;
     qp_stop := qp_stop m |}.

(** The next place in a queue. *)
Definition next_place (e : drive_env) (i : Z) : Z := (i + 1) mod dp_queueSize (de_params e).

(** One step of the GPU thread. *)
Definition gpu_step (e : drive_env) (m : queue_pair) (g : gpu_thread) : queue_pair * gpu_thread :=
  let p := de_params e in
  match g_pc g with
  | Loop =>
      if (dp_infiniteMode p || (g_ops_done g <? total_ops p)) && negb (qp_stop m) then
        let batch_count := env_batch e in
        let batch_count := if negb (dp_infiniteMode p) && (total_ops p <? u32 (g_ops_done g + batch_count))
                           then u32 (total_ops p - g_ops_done g) else batch_count in
        (m, {| g_pc := if 0 <? batch_count then Build 0 else RingSq; g_sq_tail := g_sq_tail g;
               g_cq_head := g_cq_head g; g_phase := g_phase g; g_ops_done := g_ops_done g;
               g_batch_count := batch_count |})
      else (m, goto (Exit (if qp_stop m then Stopped else Finished)) g)
  | Build b =>
      match build_command e (u32 (g_ops_done g + b)) b with
      | None => (m, goto (Exit Trapped) g)
      | Some q =>
          (set_sq (g_sq_tail g) q m,
           {| g_pc := if b + 1 <? g_batch_count g then Build (b + 1) else RingSq;
              g_sq_tail := next_place e (g_sq_tail g); g_cq_head := g_cq_head g;
              g_phase := g_phase g; g_ops_done := g_ops_done g; g_batch_count := g_batch_count g |})
      end
  | RingSq => (ring_sq (g_sq_tail g) m, goto (if 0 <? g_batch_count g then Poll 0 0 else RingCq) g)
  | Poll b poll_count =>
      if qp_stop m && (poll_count mod 100 =? 0) then (m, goto (Exit Stopped) g) else
      let cqe := qp_cq m (g_cq_head g) in
      if NVME_CQE_STATUS_PHASE (cqe_status cqe) =? g_phase g then
        if cqeOk (cqe_status cqe) then
          let cq_head := next_place e (g_cq_head g) in
          (m, {| g_pc := if b + 1 <? g_batch_count g then Poll (b + 1) 0 else RingCq;
                 g_sq_tail := g_sq_tail g; g_cq_head := cq_head;
                 g_phase := if cq_head =? 0 then Z.lxor (g_phase g) 1 else g_phase g;
                 g_ops_done := g_ops_done g; g_batch_count := g_batch_count g |})
        else (m, goto (Exit (Failed (cqe_status cqe))) g)
      else if NVME_EP_MAX_POLLS <=? poll_count + 1 then (m, goto (Exit TimedOut) g)
      else (m, goto (Poll b (poll_count + 1)) g)
  | RingCq =>
      (ring_cq (g_cq_head g) m,
       {| g_pc := Loop; g_sq_tail := g_sq_tail g; g_cq_head := g_cq_head g; g_phase := g_phase g;
          g_ops_done := u32 (g_ops_done g + g_batch_count g); g_batch_count := g_batch_count g |})
  | Exit _ => (m, g)
  end.

(** The controller takes the next entry before the doorbell. *)
Definition ctrl_fetch (e : drive_env) (m : queue_pair) (c : controller) : controller :=
  let q := qp_sq m (ct_sq_head c) in
  {| ct_sq_head := next_place e (ct_sq_head c); ct_cq_tail := ct_cq_tail c; ct_phase := ct_phase c;
     ct_fetched := ct_fetched c ++ [q]; ct_inflight := ct_inflight c ++ [q];
     ct_completed := ct_completed c |}.

(** It completes command [q] with [code], leaving [rest] in flight. *)
Definition completion (c : controller) (q : nvme_sqe) (code : Z) : nvme_cqe :=
  {| cqe_command_id := sqe_command_id q; cqe_sq_head := ct_sq_head c;
     cqe_status := 2 * code + ct_phase c |}.
Definition ctrl_complete (e : drive_env) (q : nvme_sqe) (rest : list nvme_sqe) (code : Z)
    (c : controller) : controller :=
  let tail := next_place e (ct_cq_tail c) in
  {| ct_sq_head := ct_sq_head c; ct_cq_tail := tail;
     ct_phase := if tail =? 0 then 1 - ct_phase c else ct_phase c;
     ct_fetched := ct_fetched c; ct_inflight := rest; ct_completed := ct_completed c ++ [(q, code)] |}.

Record drive := { dr_mem : queue_pair; dr_gpu : gpu_thread; dr_ctrl : controller }.

Inductive drive_step (e : drive_env) : drive -> drive -> Prop :=
| step_gpu s :
    drive_step e s (let (m, g) := gpu_step e (dr_mem s) (dr_gpu s) in
                    {| dr_mem := m; dr_gpu := g; dr_ctrl := dr_ctrl s |})
| step_fetch s :
    ct_sq_head (dr_ctrl s) <> qp_sq_doorbell (dr_mem s) ->
    drive_step e s {| dr_mem := dr_mem s; dr_gpu := dr_gpu s;
                      dr_ctrl := ctrl_fetch e (dr_mem s) (dr_ctrl s) |}
| step_complete s l1 q l2 code :
    ct_inflight (dr_ctrl s) = l1 ++ q :: l2 -> 0 <= code < 32768 ->
    next_place e (ct_cq_tail (dr_ctrl s)) <> qp_cq_doorbell (dr_mem s) ->
    drive_step e s
      {| dr_mem := set_cq (ct_cq_tail (dr_ctrl s)) (completion (dr_ctrl s) q code) (dr_mem s);
         dr_gpu := dr_gpu s; dr_ctrl := ctrl_complete e q (l1 ++ l2) code (dr_ctrl s) |}
| step_stop s :
    drive_step e s
      {| dr_mem := {| qp_sq := qp_sq (dr_mem s); qp_cq := qp_cq (dr_mem s);
                      qp_sq_doorbell := qp_sq_doorbell (dr_mem s);
                      qp_cq_doorbell := qp_cq_doorbell (dr_mem s); qp_stop := true |};
         dr_gpu := dr_gpu s; dr_ctrl := dr_ctrl s |}.

(** A fresh queue pair: the completion queue is zero, the submission queue
    holds anything. *)
Definition drive_start (sq : Z -> nvme_sqe) : drive :=
  {| dr_mem := {| qp_sq := sq; qp_cq := fun _ => {| cqe_command_id := 0; cqe_sq_head := 0; cqe_status := 0 |};
                  qp_sq_doorbell := 0; qp_cq_doorbell := 0; qp_stop := false |};
     dr_gpu := {| g_pc := Loop; g_sq_tail := 0; g_cq_head := 0; g_phase := 1; g_ops_done := 0;
                  g_batch_count := 0 |};
     dr_ctrl := {| ct_sq_head := 0; ct_cq_tail := 0; ct_phase := 1; ct_fetched := [];
                   ct_inflight := []; ct_completed := [] |} |}.
