(* ===== verification/NvmeLaunch.v ===== *)
(** * Launching the GPU path of the NVMe endpoint

    What the host of [src/src/endpoints/nvme-ep/nvme-ep.hip] computes before
    it launches [gpuKernel]: the batch it expects the kernel to use, the
    number of threads, the check that the data buffer holds a batch, and the
    pool of PRP lists with the physical address of each list. *)

From S2P Require Import Prelude NvmeEp NvmeDrive.

Definition effBatch (p : drive_params) : Z :=
  let effBatch := dp_batchSize p in
  let effBatch := if effBatch =? 0
                  then (if dp_infiniteMode p then u32 (dp_queueSize p - 1) else total_ops p)
                  else effBatch in
  let effBatch := if u32 (dp_queueSize p - 1) <? effBatch then u32 (dp_queueSize p - 1) else effBatch in
  if negb (dp_infiniteMode p) && (total_ops p <? effBatch) then total_ops p else effBatch.

(** One coordinator and a thread per command, when there is more than one. *)
Definition kernelThreads (p : drive_params) : Z :=
  if 1 <? effBatch p then u32 (effBatch p + 1) else 1.

(** [driveEndpoint]: whether the kernel takes the path for a block. *)
Definition driveEndpoint_block (p : drive_params) : bool := 1 <? dp_batchSize p.

(** ** Checks *)

(** The buffer has room for a batch. *)
Definition batch_fits (p : drive_params) (bufferSize : Z) : bool :=
  let eff_batch := if dp_batchSize p =? 0
                   then (if dp_infiniteMode p then u32 (dp_queueSize p - 1)
                         else u32 (dp_readIo p + dp_writeIo p))
                   else dp_batchSize p in
  let eff_batch := if u32 (dp_queueSize p - 1) <? eff_batch then u32 (dp_queueSize p - 1) else eff_batch in
  let needed := u64 (eff_batch * transfer_size p) in
  needed <=? bufferSize.

(** A transfer's list fits one page. *)
Definition xfer_pages_ok (p : drive_params) : bool :=
  u32 (u64 (transfer_size p + NVME_PAGE_SIZE - 1) / NVME_PAGE_SIZE) <=? kMaxPrpListEntries + 1.

(** ** The pool of PRP lists *)

Definition prpEntriesPerCmd (p : drive_params) : Z :=
  if NVME_PAGE_SIZE <? transfer_size p then prpListEntriesPerPage else 0.
Definition prpSlotsPerBatch (p : drive_params) : Z :=
  let slots := if negb (dp_readIo p =? 0) && negb (dp_writeIo p =? 0) then 2 else 1 in
  if prpEntriesPerCmd p =? 0 then 1 else slots.
Definition prpPoolEntriesPerQueue (p : drive_params) : Z :=
  u32 (u32 (prpEntriesPerCmd p * effBatch p) * prpSlotsPerBatch p).

(** The physical address of each list; [getPhysAddr] is the kernel's page
    table, read through /proc. *)
Definition prp_dma_slots (p : drive_params) : Z := u32 (effBatch p * prpSlotsPerBatch p).
Definition page_dmas (p : drive_params) (getPhysAddr : Z -> Z) (pool : ptr) : list Z :=
  map (fun s => getPhysAddr (pool + Z.of_nat s * prpEntriesPerCmd p * 8)) (seq 0 (Z.to_nat (prp_dma_slots p))).

(** The buffer parameters of a lane with a pool, which the GPU sees at
    [gpu_pool]. *)
Definition qBufParams (p : drive_params) (getPhysAddr : Z -> Z) (pool gpu_pool : ptr)
    (bp : nvmeBufferParams) : nvmeBufferParams :=
  {| bp_readBuffer := bp_readBuffer bp; bp_writeBuffer := bp_writeBuffer bp;
     bp_bufferSize := bp_bufferSize bp; bp_readBufferDma := bp_readBufferDma bp;
     bp_writeBufferDma := bp_writeBufferDma bp; bp_readPagePhysAddrs := bp_readPagePhysAddrs bp;
     bp_writePagePhysAddrs := bp_writePagePhysAddrs bp; bp_prpListPool := gpu_pool;
     bp_prpListPageDmas := Some (page_dmas p getPhysAddr pool);
     bp_prpListPoolDma := from_option id 0 (head (page_dmas p getPhysAddr pool));
     bp_prpEntriesPerCmd := prpEntriesPerCmd p; bp_prpSlotsPerBatch := prpSlotsPerBatch p |}.

(** ** Theorems *)

(** What the command line's types give. *)
Record launch_ok (p : drive_params) : Prop := {
  lo_queue : 2 <= dp_queueSize p < 65536;
  lo_batch : 0 <= dp_batchSize p < 4294967296;
  lo_reads : 0 <= dp_readIo p;
  lo_writes : 0 <= dp_writeIo p;
  lo_total : dp_readIo p + dp_writeIo p < 2147483648;
  lo_xfer : 0 < transfer_size p < 17592186044416
}.

(** The host and the kernel compute the same batch, but for the kernel's cap
    when it keeps times. *)
Lemma effBatch_batch_size p : effBatch p = batch_size p false.
Proof. done. Qed.

Lemma batch_size_timed p timed : batch_size p timed <= effBatch p.
Proof.
  rewrite effBatch_batch_size. unfold batch_size. destruct timed; cbn [andb]; [|lia].
  case_match eqn:E; bool_to_prop; lia.
Qed.

Lemma total_sum p : launch_ok p -> total_ops p = dp_readIo p + dp_writeIo p.
Proof.
  intros []. unfold total_ops, num_read_ops, num_write_ops.
  rewrite (u32_small (dp_readIo p)), (u32_small (dp_writeIo p)), u32_small by lia. done.
Qed.

Lemma effBatch_range p : launch_ok p -> 0 <= effBatch p <= dp_queueSize p - 1.
Proof.
  intros Hl. pose proof (total_sum p Hl). destruct Hl. unfold effBatch.
  rewrite (u32_small (dp_queueSize p - 1)) by lia. cbv zeta.
  destruct (dp_batchSize p =? 0), (dp_infiniteMode p); cbn [negb andb];
    repeat match goal with
           | |- context [?a <? (if ?b then _ else _)] => destruct b eqn:?
           | |- context [if ?b then _ else _] => destruct b eqn:?
           end; bool_to_prop; lia.
Qed.

(** After the host's check every place of a batch has its region inside
    the data buffer, so no command of a batch stops the kernel for want of
    room, with or without timing. *)
Theorem launch_places_fit p bp timed b :
  launch_ok p -> batch_fits p (bp_bufferSize bp) = true -> 0 <= b < batch_size p timed ->
  place_fits p bp b = true.
Proof.
  intros Hl Hc Hb. pose proof (batch_size_timed p timed). pose proof (total_sum p Hl) as Ht.
  pose proof (effBatch_range p Hl). destruct Hl. unfold batch_fits in Hc. rewrite <- Ht in Hc.
  rewrite (u32_small (total_ops p)) in Hc by lia.
  assert (Hle : effBatch p <= (let eff := if dp_batchSize p =? 0
      then if dp_infiniteMode p then u32 (dp_queueSize p - 1) else total_ops p else dp_batchSize p in
      if u32 (dp_queueSize p - 1) <? eff then u32 (dp_queueSize p - 1) else eff) <= dp_queueSize p - 1).
  { unfold effBatch. rewrite (u32_small (dp_queueSize p - 1)) by lia.
    cbv zeta. generalize (if dp_batchSize p =? 0
      then if dp_infiniteMode p then dp_queueSize p - 1 else total_ops p else dp_batchSize p). intros x.
    destruct (negb (dp_infiniteMode p)); cbn [andb]; rewrite !clamp_min; lia. }
  cbv zeta in Hc, Hle. match type of Hle with _ <= ?x <= _ => set (n := x) in * end.
  unfold place_fits. bool_to_prop. rewrite u64_small in Hc by nia.
  apply Z.leb_le. rewrite (u64_small (b * transfer_size p)), u64_small by nia. nia.
Qed.

Lemma page_dmas_at p phys pool s :
  0 <= s < prp_dma_slots p ->
  word_at (page_dmas p phys pool) s = Some (phys (pool + s * prpEntriesPerCmd p * 8)).
Proof.
  intros Hs. unfold word_at, page_dmas. rewrite (proj2 (Z.ltb_ge _ _)) by lia.
  rewrite list_lookup_fmap, lookup_seq_lt by lia. cbn. by rewrite Z2Nat.id by lia.
Qed.

(** C34: The lists of a batch lie in the pool, and the controller is given
    the physical address of the place where the kernel writes them: for
    each place and direction, the list's words are inside the pool the host
    allocates and its DMA address is the physical address of its first
    word. *)
Theorem launch_prp_lists p phys pool gpu_pool bp timed b (isWrite : bool) :
  launch_ok p -> 0 <= pool -> NVME_PAGE_SIZE < transfer_size p -> 0 <= b < batch_size p timed ->
  let bp' := qBufParams p phys pool gpu_pool bp in
  let off := nvmePrpListWordOffset bp' b isWrite in
  0 <= off /\ off + prpEntriesPerCmd p <= prpPoolEntriesPerQueue p /\
  prpListDmaForSlot bp' (nvmePrpListDmaSlotIndex bp' b isWrite) = Some (phys (pool + 8 * off)).
Proof.
  intros Hl Hp Hx Hb bp' off. pose proof (batch_size_timed p timed).
  pose proof (effBatch_range p Hl). destruct Hl.
  assert (He : prpEntriesPerCmd p = 512) by (unfold prpEntriesPerCmd; by rewrite (proj2 (Z.ltb_lt _ _))).
  assert (Hs : prpSlotsPerBatch p = 1 \/ prpSlotsPerBatch p = 2).
  { unfold prpSlotsPerBatch. repeat case_match; tauto. }
  assert (Hm : nvmePrpSlotsPerBatchVal bp' = prpSlotsPerBatch p).
  { unfold nvmePrpSlotsPerBatchVal. cbn. by destruct Hs as [->| ->]. }
  assert (Hpool : prpPoolEntriesPerQueue p = 512 * effBatch p * prpSlotsPerBatch p)
    by (unfold prpPoolEntriesPerQueue; rewrite He, !u32_small by (rewrite ?u32_small; lia); done).
  assert (Hslots : prp_dma_slots p = effBatch p * prpSlotsPerBatch p)
    by (unfold prp_dma_slots; apply u32_small; lia).
  set (sel := if (1 <? prpSlotsPerBatch p) && isWrite then 1 else 0).
  assert (Hsel : 0 <= sel < prpSlotsPerBatch p).
  { unfold sel. destruct Hs as [->| ->], isWrite; cbn; lia. }
  assert (Hoff : off = 512 * (b * prpSlotsPerBatch p + sel)).
  { unfold off, nvmePrpListWordOffset. rewrite Hm. cbn [bp_prpEntriesPerCmd bp' qBufParams]. rewrite He.
    unfold sel. rewrite (u32_small (b * _ * _)) by lia.
    destruct ((1 <? _) && isWrite); rewrite ?u32_small by lia; lia. }
  assert (Hidx : nvmePrpListDmaSlotIndex bp' b isWrite = b * prpSlotsPerBatch p + sel).
  { unfold nvmePrpListDmaSlotIndex, sel. rewrite Hm.
    destruct Hs as [->| ->]; cbn; [lia|]. destruct isWrite; rewrite u32_small by lia; done. }
  rewrite Hidx, Hoff, He, Hpool. split_and!; [lia|nia|].
  unfold prpListDmaForSlot. cbn [bp_prpListPageDmas bp' qBufParams].
  rewrite page_dmas_at by (rewrite Hslots; nia). rewrite He. do 2 f_equal. lia.
Qed.

(** ** Witnesses *)

(** Two-page transfers, reads and writes, four to a batch. *)
Definition sample_launch : drive_params :=
  {| dp_lbaSize := 512; dp_baseLba := 0; dp_lbaRangeLbas := 1000; dp_useRandomAccess := false;
     dp_readIo := 10; dp_writeIo := 10; dp_lfsrSeed := 0; dp_queueSize := 8; dp_nsid := 1;
     dp_lbasPerIo := 16; dp_infiniteMode := false; dp_batchSize := 4 |}.
Definition sample_lane : nvmeBufferParams :=
  {| bp_readBuffer := 4096; bp_writeBuffer := 65536; bp_bufferSize := 32768;
     bp_readBufferDma := 0; bp_writeBufferDma := 0; bp_readPagePhysAddrs := None;
     bp_writePagePhysAddrs := None; bp_prpListPool := NULL; bp_prpListPageDmas := None;
     bp_prpListPoolDma := 0; bp_prpEntriesPerCmd := 0; bp_prpSlotsPerBatch := 1 |}.

Lemma sample_launch_ok : launch_ok sample_launch.
Proof. by split; cbn. Qed.

Lemma launch_places_fit_witness : place_fits sample_launch sample_lane 3 = true.
Proof.
  apply (launch_places_fit sample_launch sample_lane true 3);
    [exact sample_launch_ok|reflexivity|split; [discriminate|reflexivity]].
Defined.

(** The pool at 1 MiB, mapped 16 MiB higher. *)
Lemma launch_prp_lists_witness :
  let bp := qBufParams sample_launch (fun v => v + 16777216) 1048576 2097152 sample_lane in
  prpListDmaForSlot bp (nvmePrpListDmaSlotIndex bp 3 true) = Some (1048576 + 7 * 4096 + 16777216).
Proof.
  apply (launch_prp_lists sample_launch (fun v => v + 16777216) 1048576 2097152 sample_lane true 3 true);
    [exact sample_launch_ok|discriminate|reflexivity|split; [discriminate|reflexivity]].
Defined.
