(* ===== verification/NvmeDriveProps.v ===== *)
(** * What driving an NVMe queue from the GPU guarantees

    Theorems on the definitions of [NvmeDrive.v]: the blocks the operations
    access, the two ways a command gets its addresses, the order in which
    commands reach the controller and completions the GPU, that the two
    queues never starve each other, and that the kernel returns. *)

From S2P Require Import Prelude NvmeEp NvmeDrive.

Arguments Z.mul : simpl never.
Arguments Z.add : simpl never.
Arguments Z.modulo : simpl never.
Arguments Z.div : simpl never.

(** ** Blocks *)

Definition in_range (p : drive_params) (lba : Z) : Prop :=
  dp_baseLba p <= lba /\ lba + dp_lbasPerIo p <= dp_baseLba p + dp_lbaRangeLbas p.

Record range_ok (p : drive_params) : Prop := {
  ro_base : 0 <= dp_baseLba p;
  ro_blocks : 0 < dp_lbasPerIo p <= dp_lbaRangeLbas p;
  ro_end : dp_baseLba p + dp_lbaRangeLbas p <= 18446744073709551616
}.

(** In random mode every operation stays inside the configured range of
    blocks, whatever the operation, the seed and the size of an access. *)
Theorem random_lba_in_range p op_idx :
  range_ok p -> dp_useRandomAccess p = true -> in_range p (op_lba p op_idx).
Proof.
  intros [H1 H2 H3] Hr. unfold op_lba, getRandomLba, in_range. cbv zeta. rewrite Hr.
  rewrite (proj2 (Z.ltb_lt 0 (dp_lbaRangeLbas p))) by lia. cbn [andb].
  rewrite (proj2 (Z.ltb_lt 0 (dp_lbasPerIo p))), (proj2 (Z.leb_le _ _)) by lia. cbn [andb].
  generalize (random_seed (if is_read_op p op_idx && (0 <? num_write_ops p)
    then u32 (op_idx - num_write_ops p) else op_idx)
    (u16 ((if is_read_op p op_idx && (0 <? num_write_ops p)
    then u32 (op_idx - num_write_ops p) else op_idx) mod 65535 + 1)) (dp_lfsrSeed p)). intros h.
  pose proof (Z.mod_pos_bound h (dp_lbaRangeLbas p - dp_lbasPerIo p + 1) ltac:(lia)).
  rewrite u64_small by lia. lia.
Qed.

(** In sequential mode it need not: when the range is not a multiple of
    the size of an access, the write whose blocks straddle the end of the
    range runs past it. *)
Theorem sequential_overruns p :
  range_ok p -> dp_useRandomAccess p = false -> dp_lbaRangeLbas p mod dp_lbasPerIo p <> 0 ->
  let op_idx := dp_lbaRangeLbas p / dp_lbasPerIo p in
  dp_lbaRangeLbas p < 4294967296 -> num_read_ops p = 0 -> ~ in_range p (op_lba p op_idx).
Proof.
  intros [H1 H2 H3] Hr Hm op_idx Hs Hn. unfold op_lba, is_read_op. rewrite Hn.
  replace (if dp_infiniteMode p then 0 <? 0
    else if (0 <? num_write_ops p) && (0 <? 0) then num_write_ops p <=? op_idx else 0 <? 0)
    with false by by destruct (dp_infiniteMode p), (0 <? num_write_ops p).
  cbn [andb]. cbv zeta. unfold getRandomLba, in_range. rewrite Hr.
  rewrite (proj2 (Z.ltb_lt 0 (dp_lbaRangeLbas p))) by lia. cbn [andb].
  pose proof (Z.div_mod (dp_lbaRangeLbas p) (dp_lbasPerIo p) ltac:(lia)) as E.
  pose proof (Z.mod_pos_bound (dp_lbaRangeLbas p) (dp_lbasPerIo p) ltac:(lia)).
  fold op_idx in E. assert (0 <= op_idx) by (apply Z.div_pos; lia).
  assert (0 <= op_idx * dp_lbasPerIo p < dp_lbaRangeLbas p) by nia.
  rewrite u32_small, Z.mod_small, u64_small by lia. lia.
Qed.

(** When a run has both, its reads access the blocks its writes wrote, in
    the same order: the [i]-th read what the [i]-th write did. *)
Theorem reads_follow_writes p i :
  dp_infiniteMode p = false -> 0 < num_read_ops p -> 0 <= i < num_write_ops p ->
  num_write_ops p + i < 4294967296 ->
  is_read_op p i = false /\ is_read_op p (num_write_ops p + i) = true /\
  op_lba p (num_write_ops p + i) = op_lba p i.
Proof.
  intros Hm Hr Hi Hs.
  assert (Ew : is_read_op p i = false).
  { unfold is_read_op. rewrite Hm, !(proj2 (Z.ltb_lt 0 _)) by lia. apply Z.leb_gt. lia. }
  assert (Er : is_read_op p (num_write_ops p + i) = true).
  { unfold is_read_op. rewrite Hm, !(proj2 (Z.ltb_lt 0 _)) by lia. apply Z.leb_le. lia. }
  split_and!; [done..|]. unfold op_lba. rewrite Ew, Er, (proj2 (Z.ltb_lt 0 _)) by lia.
  cbn [andb]. replace (num_write_ops p + i - num_write_ops p) with i by lia.
  rewrite (u32_small i) by lia. done.
Qed.

(** ** Tables *)

Definition table (t : prp_tables) (is_read : bool) : list (Z * Z) :=
  if is_read then readPrps t else writePrps t.

Lemma precompute_dir_at p bp d b l l' k :
  precompute_dir p bp d b l = Some l' -> length l' = length l /\
  (k <> b -> l' !! k = l !! k) /\
  (k = b -> (k < length l)%nat -> has_buffer bp d = true -> place_fits p bp (Z.of_nat k) = true ->
   option_map fst (place_prps p bp d (Z.of_nat k)) = l' !! k).
Proof.
  unfold precompute_dir. intros E. destruct (has_buffer bp d && place_fits p bp (Z.of_nat b)) eqn:Eb.
  - destruct (place_prps p bp d (Z.of_nat b)) as [r|] eqn:Er; [|done]. cbn in E. simplify_eq.
    split_and!; [apply length_insert|intros; by rewrite list_lookup_insert_ne|].
    intros -> Hl _ _. rewrite Er, list_lookup_insert_eq by done. done.
  - simplify_eq. split_and!; [done..|]. intros -> _ H1 H2. by rewrite H1, H2 in Eb.
Qed.

Lemma precompute_at p bp n : forall b t t' d k,
  precompute p bp n b t = Some t' ->
  length (table t' d) = length (table t d) /\
  ((k < b)%nat -> table t' d !! k = table t d !! k) /\
  ((b <= k < b + n)%nat -> (k < length (table t d))%nat -> has_buffer bp d = true ->
   place_fits p bp (Z.of_nat k) = true ->
   option_map fst (place_prps p bp d (Z.of_nat k)) = table t' d !! k).
Proof.
  induction n as [|n IH]; intros b t t' d k E; cbn in E.
  { simplify_eq. split_and!; [done..|lia]. }
  destruct (precompute_dir p bp true b (readPrps t)) as [rd|] eqn:E1; [|done]. cbn in E.
  destruct (precompute_dir p bp false b (writePrps t)) as [wr|] eqn:E2; [|done]. cbn in E.
  specialize (IH _ _ _ d k E) as (Hl & Hlt & Hin).
  assert (Ed : precompute_dir p bp d b (table t d)
               = Some (table {| readPrps := rd; writePrps := wr |} d)) by by destruct d.
  destruct (precompute_dir_at _ _ _ _ _ _ k Ed) as (Hl' & Hne & Heq).
  split_and!; [congruence|intros; rewrite Hlt, Hne by lia; done|].
  intros Hk Hlen Hb Hf. destruct (decide (k = b)) as [->|Hkb].
  - rewrite Hlt by lia. auto.
  - apply Hin; [lia|congruence|done..].
Qed.

Lemma command_prps_table e t0 is_read b :
  length (table t0 is_read) = 256%nat ->
  precompute (de_params e) (de_buffers e) (Z.to_nat (precompute_count (env_batch e))) 0 t0
    = Some (de_tables e) ->
  has_buffer (de_buffers e) is_read = true -> place_fits (de_params e) (de_buffers e) b = true ->
  0 <= b < precompute_count (env_batch e) ->
  command_prps e is_read b
  = (r ← place_prps (de_params e) (de_buffers e) is_read b; Some (fst r)).
Proof.
  intros Hl Hp Hb Hf Hr. unfold command_prps. rewrite (proj2 (Z.ltb_lt _ _)) by lia.
  assert (Hc : precompute_count (env_batch e) <= 256).
  { unfold precompute_count, kMaxPrecomputedPrps. case_match; bool_to_prop; lia. }
  destruct (precompute_at _ _ _ _ _ _ is_read (Z.to_nat b) Hp) as (_ & _ & H).
  rewrite Z2Nat.id in H by lia. fold (table (de_tables e) is_read). rewrite <- H by (done || lia).
  done.
Qed.

(** A command whose region fits the buffer gets the same addresses from
    the table filled before the first batch as the path without a table
    computes for it. *)
Theorem prp_paths_agree e t0 is_read b :
  length (table t0 is_read) = 256%nat ->
  precompute (de_params e) (de_buffers e) (Z.to_nat (precompute_count (env_batch e))) 0 t0
    = Some (de_tables e) ->
  has_buffer (de_buffers e) is_read = true -> place_fits (de_params e) (de_buffers e) b = true ->
  0 <= b < precompute_count (env_batch e) ->
  command_prps e is_read b
  = (r ← place_prps (de_params e) (de_buffers e) is_read b; Some (fst r)).
Proof. apply command_prps_table. Qed.

(** ** A run *)

(** Finite runs on a queue pair of at least two entries; the operation
    counts are what the command line gives, and stay clear of 32 bits. *)
Record finite_drive (e : drive_env) : Prop := {
  fd_mode : dp_infiniteMode (de_params e) = false;
  fd_queue : 2 <= dp_queueSize (de_params e) < 65536;
  fd_batch : 0 <= dp_batchSize (de_params e);
  fd_reads : 0 <= dp_readIo (de_params e);
  fd_writes : 0 <= dp_writeIo (de_params e);
  fd_total : dp_readIo (de_params e) + dp_writeIo (de_params e) + 65536 <= 4294967296
}.

(** The command of operation [n]: in a finite run, its place in its batch is
    the remainder of its number. *)
Definition command (e : drive_env) (n : Z) : option nvme_sqe :=
  build_command e n (n mod env_batch e).

(** The phase of the [n]-th entry of the completion queue, counted from the
    first ever; those before it are the zeros of the fresh queue. *)
Definition phase_at (e : drive_env) (n : Z) : Z := 1 - (n / dp_queueSize (de_params e)) mod 2.

(** How many commands the thread has written, announced, seen completed and
    given back. *)
Record cursors := { k_built : Z; k_rung : Z; k_polled : Z; k_acked : Z }.

Definition code_at (c : controller) (n : Z) : Z :=
  if n <? 0 then 0 else from_option snd 0 (ct_completed c !! Z.to_nat n).

Definition fetched_count (s : drive) : Z := Z.of_nat (length (ct_fetched (dr_ctrl s))).
Definition completed_count (s : drive) : Z := Z.of_nat (length (ct_completed (dr_ctrl s))).

Definition batch_at (e : drive_env) (g : gpu_thread) : Prop :=
  let N := g_ops_done g in
  0 <= N < total_ops (de_params e) /\ N mod env_batch e = 0 /\
  g_batch_count g = Z.min (env_batch e) (total_ops (de_params e) - N).

(** Where the cursors are at each point of the loop. *)
Definition cursors_at (e : drive_env) (g : gpu_thread) (k : cursors) : Prop :=
  let N := g_ops_done g in
  let full := N + g_batch_count g in
  match g_pc g with
  | Loop => (N mod env_batch e = 0 \/ N = total_ops (de_params e)) /\ k = Build_cursors N N N N
  | Build b => batch_at e g /\ 0 <= b < g_batch_count g /\ k = Build_cursors (N + b) N N N
  | RingSq => batch_at e g /\ k = Build_cursors full N N N
  | Poll b _ => batch_at e g /\ 0 <= b < g_batch_count g /\ k = Build_cursors full full (N + b) N
  | RingCq => batch_at e g /\ k = Build_cursors full full full N
  | Exit Finished => k = Build_cursors N N N N /\ N = total_ops (de_params e)
  | Exit _ => True
  end.

(** The queue pair and the controller agree with the cursors. *)
Record serving (e : drive_env) (s : drive) (k : cursors) : Prop := {
  sv_acked : 0 <= k_acked k <= k_polled k;
  sv_polled : k_polled k <= completed_count s <= fetched_count s;
  sv_rung : fetched_count s <= k_rung k <= k_built k;
  sv_total : k_built k <= total_ops (de_params e);
  sv_window : k_built k < k_acked k + dp_queueSize (de_params e);
  sv_sq_tail : g_sq_tail (dr_gpu s) = k_built k mod dp_queueSize (de_params e);
  sv_sq_door : qp_sq_doorbell (dr_mem s) = k_rung k mod dp_queueSize (de_params e);
  sv_sq_head : ct_sq_head (dr_ctrl s) = fetched_count s mod dp_queueSize (de_params e);
  sv_cq_head : g_cq_head (dr_gpu s) = k_polled k mod dp_queueSize (de_params e);
  sv_cq_door : qp_cq_doorbell (dr_mem s) = k_acked k mod dp_queueSize (de_params e);
  sv_cq_tail : ct_cq_tail (dr_ctrl s) = completed_count s mod dp_queueSize (de_params e);
  sv_phase : g_phase (dr_gpu s) = phase_at e (k_polled k);
  sv_ct_phase : ct_phase (dr_ctrl s) = phase_at e (completed_count s);
  sv_sq : forall n, fetched_count s <= n < k_built k ->
    command e n = Some (qp_sq (dr_mem s) (n mod dp_queueSize (de_params e)));
  sv_fetched : forall i q, ct_fetched (dr_ctrl s) !! i = Some q -> command e (Z.of_nat i) = Some q;
  sv_flight : ct_fetched (dr_ctrl s)
    ≡ₚ ct_inflight (dr_ctrl s) ++ map fst (ct_completed (dr_ctrl s));
  sv_cq : forall n, completed_count s - dp_queueSize (de_params e) <= n < completed_count s ->
    cqe_status (qp_cq (dr_mem s) (n mod dp_queueSize (de_params e)))
    = 2 * code_at (dr_ctrl s) n + phase_at e n;
  sv_ok : forall n, 0 <= n < k_polled k -> cqeOk (2 * code_at (dr_ctrl s) n) = true
}.

Definition drive_inv (e : drive_env) (s : drive) : Prop :=
  0 <= g_ops_done (dr_gpu s) <= total_ops (de_params e) /\
  exists k, cursors_at e (dr_gpu s) k /\ serving e s k.

(** *** Arithmetic of positions *)

Section Positions.
Context (e : drive_env) (Hf : finite_drive e).
Let Q := dp_queueSize (de_params e).

Lemma queue_pos : 2 <= Q < 65536.
Proof using Hf. apply Hf. Qed.

Lemma total_range : 0 <= total_ops (de_params e) /\ total_ops (de_params e) + 65536 <= 4294967296.
Proof using Hf.
  pose proof (fd_total _ Hf). pose proof (fd_reads _ Hf). pose proof (fd_writes _ Hf).
  unfold total_ops, num_read_ops, num_write_ops.
  rewrite (u32_small (dp_readIo (de_params e))), (u32_small (dp_writeIo (de_params e))), u32_small by lia. lia.
Qed.

(** A batch is never empty, and never fills the queue. *)
Lemma batch_range :
  (0 < total_ops (de_params e) -> 0 < env_batch e) /\ 0 <= env_batch e < Q /\
  env_batch e <= total_ops (de_params e).
Proof using Hf.
  pose proof queue_pos. pose proof total_range. pose proof (fd_batch _ Hf).
  unfold env_batch, batch_size, requested_batch. rewrite (fd_mode _ Hf). cbn [negb andb]. fold Q.
  rewrite (u32_small (Q - 1)) by lia. cbv zeta.
  rewrite !clamp_min. destruct (dp_batchSize (de_params e) =? 0) eqn:E0, (de_timed e);
    bool_to_prop; cbn [andb]; rewrite ?clamp_min; lia.
Qed.

Lemma mod_inj n m : n <= m < n + Q -> n mod Q = m mod Q -> n = m.
Proof using Hf.
  pose proof queue_pos. intros Hr E. pose proof (Z.div_mod n Q ltac:(lia)).
  pose proof (Z.div_mod m Q ltac:(lia)). rewrite E in *.
  assert (m / Q - n / Q = 0); [nia|]. assert (m / Q = n / Q) by lia. congruence.
Qed.

Lemma mod_next n : next_place e (n mod Q) = (n + 1) mod Q.
Proof using Hf. pose proof queue_pos. apply Z.add_mod_idemp_l. unfold Q in *. lia. Qed.

Lemma phase_bit n : phase_at e n = 0 \/ phase_at e n = 1.
Proof using Type.
  unfold phase_at. pose proof (Z.mod_pos_bound (n / dp_queueSize (de_params e)) 2). lia.
Qed.

Lemma phase_next n :
  phase_at e (n + 1) = if (n + 1) mod Q =? 0 then 1 - phase_at e n else phase_at e n.
Proof using Hf.
  pose proof queue_pos. unfold phase_at. fold Q.
  pose proof (Z.div_mod (n + 1) Q ltac:(lia)) as E. set (m := (n + 1) / Q) in *.
  pose proof (Z.mod_pos_bound (n + 1) Q ltac:(lia)).
  destruct ((n + 1) mod Q =? 0) eqn:E0; bool_to_prop.
  - assert (n / Q = m - 1) as ->.
    { symmetry. apply Z.div_unique with (Q - 1); nia. }
    pose proof (Z.div_mod m 2 ltac:(lia)). pose proof (Z.div_mod (m - 1) 2 ltac:(lia)).
    pose proof (Z.mod_pos_bound m 2). pose proof (Z.mod_pos_bound (m - 1) 2). lia.
  - assert (n / Q = m) as ->; [|done].
    symmetry. apply Z.div_unique with ((n + 1) mod Q - 1); nia.
Qed.

Lemma phase_lap n : phase_at e (n - Q) = 1 - phase_at e n.
Proof using Hf.
  pose proof queue_pos. unfold phase_at. fold Q.
  replace (n - Q) with (n + (-1) * Q) by lia. rewrite Z.div_add by lia. set (m := n / Q).
  pose proof (Z.div_mod m 2 ltac:(lia)). pose proof (Z.div_mod (m + -1) 2 ltac:(lia)).
  pose proof (Z.mod_pos_bound m 2). pose proof (Z.mod_pos_bound (m + -1) 2). lia.
Qed.
End Positions.

Lemma status_phase e code n : NVME_CQE_STATUS_PHASE (2 * code + phase_at e n) = phase_at e n.
Proof.
  unfold NVME_CQE_STATUS_PHASE. rewrite (land_ones_mod _ 1) by lia. change (2 ^ 1) with 2.
  rewrite (Z.add_comm (2 * code)), (Z.mul_comm 2), Z.mod_add by lia. apply Z.mod_small.
  pose proof (phase_bit e n). lia.
Qed.

Lemma status_ok e code n : cqeOk (2 * code + phase_at e n) = cqeOk (2 * code).
Proof.
  pose proof (phase_bit e n). unfold cqeOk, cqeStatusType, cqeStatusCode.
  rewrite !Z.shiftr_div_pow2 by lia. change (2 ^ 9) with (2 * 256). change (2 ^ 1) with 2.
  rewrite <- !Z.div_div by lia.
  replace ((2 * code + phase_at e n) / 2) with (2 * code / 2); [done|].
  apply Z.div_unique with (phase_at e n); [lia|]. rewrite Z.mul_comm, Z.div_mul by lia. lia.
Qed.

Lemma code_at_old c q code sq tail ph fl rest n :
  n < Z.of_nat (length (ct_completed c)) ->
  code_at {| ct_sq_head := sq; ct_cq_tail := tail; ct_phase := ph; ct_fetched := fl;
             ct_inflight := rest; ct_completed := ct_completed c ++ [(q, code)] |} n = code_at c n.
Proof.
  intros Hn. unfold code_at. cbn [ct_completed]. destruct (n <? 0) eqn:?; bool_to_prop; [done|].
  by rewrite lookup_app_l by lia.
Qed.

Lemma code_at_new c q code sq tail ph fl rest :
  code_at {| ct_sq_head := sq; ct_cq_tail := tail; ct_phase := ph; ct_fetched := fl;
             ct_inflight := rest; ct_completed := ct_completed c ++ [(q, code)] |}
    (Z.of_nat (length (ct_completed c))) = code.
Proof.
  unfold code_at. cbn [ct_completed]. rewrite (proj2 (Z.ltb_ge _ _)), Nat2Z.id by lia.
  by rewrite list_lookup_middle.
Qed.

(** *** What each step keeps *)

Section Steps.
Context (e : drive_env) (Hf : finite_drive e).
Abbreviation Q := (dp_queueSize (de_params e)).

Lemma flight_count s k :
  serving e s k ->
  fetched_count s = completed_count s + Z.of_nat (length (ct_inflight (dr_ctrl s))).
Proof using Type.
  intros Hs. pose proof (Permutation_length (sv_flight _ _ _ Hs)) as E.
  rewrite length_app, length_map in E. unfold fetched_count, completed_count. lia.
Qed.

Lemma serve_fetch s k :
  serving e s k -> ct_sq_head (dr_ctrl s) <> qp_sq_doorbell (dr_mem s) ->
  serving e {| dr_mem := dr_mem s; dr_gpu := dr_gpu s; dr_ctrl := ctrl_fetch e (dr_mem s) (dr_ctrl s) |} k.
Proof using Hf.
  intros Hs Hd. pose proof (queue_pos e Hf).
  assert (Hn : fetched_count s < k_rung k).
  { pose proof (sv_rung _ _ _ Hs). destruct (decide (fetched_count s = k_rung k)) as [E|]; [|lia].
    destruct Hd. by rewrite (sv_sq_head _ _ _ Hs), (sv_sq_door _ _ _ Hs), E. }
  pose proof (sv_sq _ _ _ Hs (fetched_count s)
    ltac:(pose proof (sv_rung _ _ _ Hs); lia)) as Hc.
  rewrite <- (sv_sq_head _ _ _ Hs) in Hc.
  destruct Hs. unfold fetched_count, completed_count in *.
  split; unfold fetched_count, completed_count; cbn; rewrite ?length_app; cbn [length];
    try done; try lia.
  - rewrite sv_sq_head0, mod_next by done. f_equal. lia.
  - intros n Hn'. apply sv_sq0. lia.
  - intros i q. destruct (decide (i = length (ct_fetched (dr_ctrl s)))) as [->|Hi].
    + rewrite list_lookup_middle by done. intros [= <-]. exact Hc.
    + intros Hl. apply sv_fetched0. rewrite lookup_app_l in Hl; [done|].
      apply lookup_lt_Some in Hl. rewrite length_app in Hl. cbn in Hl. lia.
  - rewrite sv_flight0. rewrite <- !app_assoc. apply Permutation_app_head, Permutation_app_comm.
Qed.

(** A completion never lands on one the thread has not read. *)
Lemma serve_complete s k l1 q l2 code :
  serving e s k -> ct_inflight (dr_ctrl s) = l1 ++ q :: l2 ->
  serving e {| dr_mem := set_cq (ct_cq_tail (dr_ctrl s)) (completion (dr_ctrl s) q code) (dr_mem s);
               dr_gpu := dr_gpu s; dr_ctrl := ctrl_complete e q (l1 ++ l2) code (dr_ctrl s) |} k.
Proof using Hf.
  intros Hs Hl. pose proof (queue_pos e Hf). pose proof (flight_count _ _ Hs) as Hc.
  rewrite Hl, length_app in Hc. cbn [length] in Hc.
  destruct Hs. unfold fetched_count, completed_count in *.
  split; unfold fetched_count, completed_count; cbn; rewrite ?length_app; cbn [length];
    try done; try lia.
  - rewrite sv_cq_tail0, mod_next by done. f_equal. lia.
  - rewrite sv_cq_tail0, sv_ct_phase0, mod_next by done.
    replace (Z.of_nat (length (ct_completed (dr_ctrl s)) + 1))
      with (Z.of_nat (length (ct_completed (dr_ctrl s))) + 1) by lia.
    symmetry. by apply phase_next.
  - rewrite sv_flight0, Hl, map_app. cbn. rewrite <- !app_assoc. apply Permutation_app_head.
    cbn. rewrite (app_assoc l2). apply Permutation_cons_append.
  - intros n Hn. unfold ctrl_complete. cbn. rewrite sv_cq_tail0.
    destruct (n mod Q =? _) eqn:E; bool_to_prop.
    + symmetry in E. replace n with (Z.of_nat (length (ct_completed (dr_ctrl s)))) in *.
      2:{ symmetry. apply (mod_inj e Hf); [lia|done]. }
      rewrite code_at_new. cbn. by rewrite sv_ct_phase0.
    + assert (n <> Z.of_nat (length (ct_completed (dr_ctrl s)))) by congruence.
      rewrite code_at_old by lia. apply sv_cq0. lia.
  - intros n Hn. unfold ctrl_complete. rewrite code_at_old by lia. by apply sv_ok0.
Qed.

Lemma serving_gpu s k k' m g :
  serving e s k ->
  0 <= k_acked k' <= k_polled k' ->
  k_polled k' <= completed_count s -> fetched_count s <= k_rung k' <= k_built k' ->
  k_built k' <= total_ops (de_params e) -> k_built k' < k_acked k' + Q ->
  g_sq_tail g = k_built k' mod Q -> qp_sq_doorbell m = k_rung k' mod Q ->
  g_cq_head g = k_polled k' mod Q -> qp_cq_doorbell m = k_acked k' mod Q ->
  g_phase g = phase_at e (k_polled k') -> qp_cq m = qp_cq (dr_mem s) ->
  (forall n, fetched_count s <= n < k_built k' -> command e n = Some (qp_sq m (n mod Q))) ->
  (forall n, 0 <= n < k_polled k' -> cqeOk (2 * code_at (dr_ctrl s) n) = true) ->
  serving e {| dr_mem := m; dr_gpu := g; dr_ctrl := dr_ctrl s |} k'.
Proof using Type.
  intros Hs. destruct Hs. unfold fetched_count, completed_count in *. intros.
  split; unfold fetched_count, completed_count; cbn; try done; try lia.
  match goal with H : qp_cq _ = _ |- _ => rewrite H end. done.
Qed.

Definition gpu_turn (s : drive) : drive :=
  {| dr_mem := fst (gpu_step e (dr_mem s) (dr_gpu s)); dr_gpu := snd (gpu_step e (dr_mem s) (dr_gpu s));
     dr_ctrl := dr_ctrl s |}.

(** Only the program counter moves. *)
Lemma serving_goto s k pc :
  serving e s k -> serving e {| dr_mem := dr_mem s; dr_gpu := goto pc (dr_gpu s); dr_ctrl := dr_ctrl s |} k.
Proof using Type. intros []. by split. Qed.

Lemma inv_out s o :
  (forall k, cursors_at e (dr_gpu s) k -> o = Finished ->
     g_pc (dr_gpu s) = Loop /\ g_ops_done (dr_gpu s) = total_ops (de_params e)) ->
  drive_inv e s ->
  drive_inv e {| dr_mem := dr_mem s; dr_gpu := goto (Exit o) (dr_gpu s); dr_ctrl := dr_ctrl s |}.
Proof using Type.
  intros Ho (HN & k & Hk & Hs). split; [done|]. exists k. split; [|by apply serving_goto].
  destruct o; try exact I. destruct (Ho k Hk eq_refl) as [E1 E2].
  unfold cursors_at in *. rewrite E1 in Hk. cbn. tauto.
Qed.

Lemma batch_count_at N :
  0 <= N < total_ops (de_params e) ->
  (if total_ops (de_params e) <? u32 (N + env_batch e) then u32 (total_ops (de_params e) - N)
   else env_batch e) = Z.min (env_batch e) (total_ops (de_params e) - N).
Proof using Hf.
  intros HN. pose proof (total_range e Hf). pose proof (batch_range e Hf) as (_ & Hb & _).
  pose proof (queue_pos e Hf). rewrite !u32_small by lia.
  destruct (_ <? _) eqn:E; bool_to_prop; lia.
Qed.

Lemma loop_ok s : g_pc (dr_gpu s) = Loop -> drive_inv e s -> drive_inv e (gpu_turn s).
Proof using Hf.
  intros Hpc Hi. pose proof Hi as (HN & k & Hk & Hs). unfold gpu_turn, gpu_step.
  rewrite Hpc. unfold cursors_at in Hk. rewrite Hpc in Hk. destruct Hk as [HB ->].
  rewrite (fd_mode _ Hf). cbn [orb negb andb].
  destruct (g_ops_done (dr_gpu s) <? total_ops (de_params e)) eqn:E1; bool_to_prop; cbn [andb].
  2:{ apply inv_out; [|done]. intros k' _ Ho. split; [done|lia]. }
  destruct (qp_stop (dr_mem s)); cbn [negb fst snd]; [by apply inv_out|].
  rewrite batch_count_at by lia. pose proof (batch_range e Hf) as (Hb & _).
  rewrite (proj2 (Z.ltb_lt 0 _)) by lia. split; [done|].
  exists (Build_cursors (g_ops_done (dr_gpu s)) (g_ops_done (dr_gpu s)) (g_ops_done (dr_gpu s))
            (g_ops_done (dr_gpu s))). split.
  - unfold cursors_at, batch_at. cbn. split_and!; try done; try lia. f_equal. lia.
  - destruct Hs. by split.
Qed.

Lemma build_ok s b : g_pc (dr_gpu s) = Build b -> drive_inv e s -> drive_inv e (gpu_turn s).
Proof using Hf.
  intros Hpc Hi. pose proof Hi as (HN & k & Hk & Hs). unfold gpu_turn, gpu_step.
  rewrite Hpc. unfold cursors_at in Hk. rewrite Hpc in Hk. destruct Hk as [HB [Hr ->]].
  destruct (build_command e _ b) as [q|] eqn:Eq; [|by apply inv_out].
  pose proof HB as (HT & Ha & Hc). pose proof (total_range e Hf) as [_ HT2].
  pose proof (batch_range e Hf) as (_ & Hb2 & _). pose proof (queue_pos e Hf).
  rewrite u32_small in Eq by lia.
  assert (Hcmd : command e (g_ops_done (dr_gpu s) + b) = Some q).
  { unfold command. rewrite Z.add_mod, Ha, Z.add_0_l, Z.mod_mod, Z.mod_small by lia. exact Eq. }
  split; [done|]. cbn [fst snd].
  exists (Build_cursors (g_ops_done (dr_gpu s) + b + 1) (g_ops_done (dr_gpu s))
            (g_ops_done (dr_gpu s)) (g_ops_done (dr_gpu s))). split.
  - unfold cursors_at. cbn. destruct (b + 1 <? _) eqn:E; bool_to_prop; cbn.
    + split_and!; try done; try lia. f_equal; lia.
    + split; [done|]. f_equal; lia.
  - destruct Hs. cbn in *. apply (serving_gpu s (Build_cursors (g_ops_done (dr_gpu s) + b)
        (g_ops_done (dr_gpu s)) (g_ops_done (dr_gpu s)) (g_ops_done (dr_gpu s)))); cbn;
      try done; try lia.
    + rewrite sv_sq_tail0, mod_next by done. done.
    + intros n Hn. rewrite sv_sq_tail0. destruct (n mod Q =? _) eqn:E; bool_to_prop.
      * apply (mod_inj e Hf) in E; [by subst|lia].
      * apply sv_sq0. assert (n <> g_ops_done (dr_gpu s) + b) by congruence. lia.
Qed.

Lemma ring_sq_ok s : g_pc (dr_gpu s) = RingSq -> drive_inv e s -> drive_inv e (gpu_turn s).
Proof using Hf.
  intros Hpc (HN & k & Hk & Hs). unfold gpu_turn, gpu_step.
  rewrite Hpc. unfold cursors_at in Hk. rewrite Hpc in Hk. destruct Hk as [HB ->].
  pose proof HB as (HT & Ha & Hc). pose proof (batch_range e Hf) as (Hb & _).
  rewrite (proj2 (Z.ltb_lt 0 _)) by lia. split; [done|].
  set (full := g_ops_done (dr_gpu s) + g_batch_count (dr_gpu s)) in *.
  exists (Build_cursors full full (g_ops_done (dr_gpu s)) (g_ops_done (dr_gpu s))). split.
  - unfold cursors_at. cbn. split_and!; try done; try lia. f_equal; lia.
  - pose proof Hs as []. cbn in *. eapply serving_gpu; [exact Hs|cbn; try done; lia..].
Qed.

Lemma ring_cq_ok s : g_pc (dr_gpu s) = RingCq -> drive_inv e s -> drive_inv e (gpu_turn s).
Proof using Hf.
  intros Hpc (HN & k & Hk & Hs). unfold gpu_turn, gpu_step.
  rewrite Hpc. unfold cursors_at in Hk. rewrite Hpc in Hk. destruct Hk as [HB ->].
  pose proof HB as (HT & Ha & Hc). pose proof (batch_range e Hf) as (Hb & _).
  pose proof (total_range e Hf) as [_ HT2].
  set (full := g_ops_done (dr_gpu s) + g_batch_count (dr_gpu s)) in *.
  assert (Hu : u32 full = full) by (apply u32_small; lia).
  cbn [fst snd]. split; [cbn; fold full; lia|].
  exists (Build_cursors full full full full). split.
  - unfold cursors_at. cbn. fold full. rewrite Hu. split; [|done].
    destruct (decide (full = total_ops (de_params e))); [by right|left].
    unfold full. replace (g_batch_count (dr_gpu s)) with (1 * env_batch e) by lia.
    by rewrite Z.mod_add by lia.
  - pose proof Hs as []. cbn in *. eapply serving_gpu; [exact Hs|cbn; try done; lia..].
Qed.

Lemma drive_poll_ok s b n : g_pc (dr_gpu s) = Poll b n -> drive_inv e s -> drive_inv e (gpu_turn s).
Proof using Hf.
  intros Hpc Hi. pose proof Hi as (HN & k & Hk & Hs). unfold gpu_turn, gpu_step.
  rewrite Hpc. unfold cursors_at in Hk. rewrite Hpc in Hk. destruct Hk as [HB [Hr ->]].
  pose proof HB as (HT & Ha & Hc). pose proof (queue_pos e Hf) as HQ.
  set (N := g_ops_done (dr_gpu s)) in *. set (full := N + g_batch_count (dr_gpu s)) in *.
  destruct (qp_stop (dr_mem s) && (n mod 100 =? 0)); [by apply inv_out|].
  destruct (_ =? g_phase (dr_gpu s)) eqn:E; bool_to_prop.
  2:{ case_match; [by apply inv_out|]. split; [done|].
      exists (Build_cursors full full (N + b) N). split; [|by apply serving_goto].
      unfold cursors_at. cbn. split_and!; [exact HB|apply Hr..|done]. }
  destruct (cqeOk _) eqn:Eok; [|by apply inv_out].
  assert (Hp : N + b < completed_count s).
  { destruct (decide (N + b = completed_count s)) as [Ec|]; [|pose proof (sv_polled _ _ _ Hs); cbn in *; lia].
    pose proof (sv_cq _ _ _ Hs (N + b - Q) ltac:(lia)) as Hcq.
    replace ((N + b - Q) mod Q) with ((N + b) mod Q) in Hcq
      by (replace (N + b - Q) with (N + b + (-1) * Q) by lia; by rewrite Z.mod_add by lia).
    rewrite (sv_cq_head _ _ _ Hs), (sv_phase _ _ _ Hs) in E. cbn in E.
    rewrite Hcq, status_phase, phase_lap in E by done. pose proof (phase_bit e (N + b)). lia. }
  assert (Hcode : cqeOk (2 * code_at (dr_ctrl s) (N + b)) = true).
  { rewrite <- (status_ok e _ (N + b)). pose proof (sv_polled _ _ _ Hs). pose proof (sv_rung _ _ _ Hs).
    pose proof (sv_window _ _ _ Hs). pose proof (sv_cq_head _ _ _ Hs) as Eh. cbn in *.
    rewrite <- (sv_cq _ _ _ Hs), <- Eh by lia. done. }
  split; [done|]. cbn [fst snd]. exists (Build_cursors full full (N + b + 1) N). split.
  - unfold cursors_at. cbn. destruct (b + 1 <? _) eqn:Eb; bool_to_prop; cbn.
    + split_and!; try done; try lia. f_equal; lia.
    + split; [done|]. unfold full, N in *. f_equal; lia.
  - pose proof Hs as []. cbn in *. eapply serving_gpu; [exact Hs|cbn; try done; try lia..].
    + by rewrite sv_cq_head0, mod_next.
    + rewrite sv_cq_head0, sv_phase0, mod_next, (phase_next e Hf) by done.
      destruct (_ =? 0); [|done]. destruct (phase_bit e (N + b)) as [->| ->]; done.
    + intros i Hi'. destruct (decide (i = N + b)) as [->|]; [done|]. apply sv_ok0. lia.
Qed.
End Steps.

Lemma drive_inv_start e sq : finite_drive e -> drive_inv e (drive_start sq).
Proof.
  intros Hf. pose proof (total_range e Hf). pose proof (queue_pos e Hf).
  split; [cbn; lia|]. exists (Build_cursors 0 0 0 0). split; [split; [by left|done]|].
  split; unfold fetched_count, completed_count; cbn; rewrite ?Z.mod_0_l by lia; try done; try lia.
  intros n Hn. unfold code_at, phase_at. rewrite (proj2 (Z.ltb_lt n 0)) by lia.
  replace (n / dp_queueSize (de_params e)) with (-1); [done|].
  apply Z.div_unique with (n + dp_queueSize (de_params e)); lia.
Qed.

Lemma drive_inv_step e s s' : finite_drive e -> drive_inv e s -> drive_step e s s' -> drive_inv e s'.
Proof.
  intros Hf Hi Hst. destruct Hst as [s|s Hd|s l1 q l2 code Hl Hc Hd|s].
  - assert (Hg : drive_inv e (gpu_turn e s)).
    2:{ unfold gpu_turn in Hg. by destruct (gpu_step e (dr_mem s) (dr_gpu s)). }
    destruct (g_pc (dr_gpu s)) eqn:Hpc; eauto using loop_ok, build_ok, ring_sq_ok, ring_cq_ok, drive_poll_ok.
    unfold gpu_turn, gpu_step. rewrite Hpc. destruct s. exact Hi.
  - destruct Hi as (HN & k & Hk & Hs). split; [done|]. exists k. split; [done|].
    by apply serve_fetch.
  - destruct Hi as (HN & k & Hk & Hs). split; [done|]. exists k. split; [done|].
    by apply serve_complete.
  - destruct Hi as (HN & k & Hk & Hs). split; [done|]. exists k. split; [done|].
    destruct Hs. by split.
Qed.

Definition drive_reachable (e : drive_env) (s : drive) : Prop :=
  exists sq, rtc (drive_step e) (drive_start sq) s.

Lemma drive_invariant e s : finite_drive e -> drive_reachable e s -> drive_inv e s.
Proof.
  intros Hf [sq Hr]. pose proof (drive_inv_start e sq Hf) as Hi.
  induction Hr; eauto using drive_inv_step.
Qed.

(** ** What a run does *)

(** The controller only ever fetches the commands of the run, each once
    and in the order of their numbers, never more than there are, whatever
    the schedule; and everything it completes is one of them.  An entry is
    never overwritten before it is fetched, nor fetched before it is
    written. *)
Theorem drive_fifo e s :
  finite_drive e -> drive_reachable e s ->
  (forall i q, ct_fetched (dr_ctrl s) !! i = Some q -> build_command e (Z.of_nat i) (Z.of_nat i mod env_batch e) = Some q) /\
  Z.of_nat (length (ct_fetched (dr_ctrl s))) <= total_ops (de_params e) /\
  ct_fetched (dr_ctrl s) ≡ₚ ct_inflight (dr_ctrl s) ++ map fst (ct_completed (dr_ctrl s)).
Proof.
  intros Hf Hr. destruct (drive_invariant e s Hf Hr) as (_ & k & _ & []). split_and!; [done| |done].
  unfold fetched_count in *. lia.
Qed.

Lemma finished_run e s :
  finite_drive e -> drive_reachable e s -> g_pc (dr_gpu s) = Exit Finished ->
  Z.of_nat (length (ct_fetched (dr_ctrl s))) = total_ops (de_params e) /\
  (forall i q, ct_fetched (dr_ctrl s) !! i = Some q -> build_command e (Z.of_nat i) (Z.of_nat i mod env_batch e) = Some q) /\
  ct_inflight (dr_ctrl s) = [] /\ map fst (ct_completed (dr_ctrl s)) ≡ₚ ct_fetched (dr_ctrl s) /\
  Forall (fun x => cqeOk (2 * snd x) = true) (ct_completed (dr_ctrl s)).
Proof.
  intros Hf Hr Hpc. destruct (drive_invariant e s Hf Hr) as (_ & k & Hk & Hs).
  unfold cursors_at in Hk. rewrite Hpc in Hk. destruct Hk as [-> HN].
  pose proof (flight_count _ _ _ Hs) as Hc. destruct Hs. cbn in *. rewrite HN in *.
  assert (Hi : ct_inflight (dr_ctrl s) = []) by (apply nil_length_inv; lia).
  rewrite Hi in sv_flight0. unfold fetched_count, completed_count in *.
  split_and!; [lia|done..|]. apply Forall_lookup. intros i [q code] Hl.
  pose proof (sv_ok0 (Z.of_nat i)) as Hok. unfold code_at in Hok.
  rewrite (proj2 (Z.ltb_ge _ _)), Nat2Z.id, Hl in Hok by lia. apply Hok.
  apply lookup_lt_Some in Hl. lia.
Qed.

(** C6: If the kernel ends its loop, all of its commands were fetched, in
    order, nothing is in flight, and every one of them completed with
    success. *)
Theorem drive_finished e s :
  finite_drive e -> drive_reachable e s -> g_pc (dr_gpu s) = Exit Finished ->
  Z.of_nat (length (ct_fetched (dr_ctrl s))) = total_ops (de_params e) /\
  (forall i q, ct_fetched (dr_ctrl s) !! i = Some q -> build_command e (Z.of_nat i) (Z.of_nat i mod env_batch e) = Some q) /\
  ct_inflight (dr_ctrl s) = [] /\ map fst (ct_completed (dr_ctrl s)) ≡ₚ ct_fetched (dr_ctrl s) /\
  Forall (fun x => cqeOk (2 * snd x) = true) (ct_completed (dr_ctrl s)).
Proof. apply finished_run. Qed.

(** The queues never starve each other: while the thread polls and the
    completion it waits for is not there, the controller has a command to
    fetch, or one in flight and room in the completion queue to complete
    it. *)
Theorem drive_not_stuck e s b n :
  finite_drive e -> drive_reachable e s -> g_pc (dr_gpu s) = Poll b n ->
  NVME_CQE_STATUS_PHASE (cqe_status (qp_cq (dr_mem s) (g_cq_head (dr_gpu s)))) <> g_phase (dr_gpu s) ->
  ct_sq_head (dr_ctrl s) <> qp_sq_doorbell (dr_mem s) \/
  (ct_inflight (dr_ctrl s) <> [] /\ next_place e (ct_cq_tail (dr_ctrl s)) <> qp_cq_doorbell (dr_mem s)).
Proof.
  intros Hf Hr Hpc Hne. destruct (drive_invariant e s Hf Hr) as (_ & k & Hk & Hs).
  unfold cursors_at in Hk. rewrite Hpc in Hk. destruct Hk as (_ & Hb & ->).
  pose proof (flight_count _ _ _ Hs) as Hc. pose proof (queue_pos e Hf). destruct Hs. cbn in *.
  set (full := g_ops_done (dr_gpu s) + g_batch_count (dr_gpu s)) in *.
  set (P := g_ops_done (dr_gpu s) + b) in *.
  destruct (decide (P < completed_count s)) as [Hlt|Hge].
  { destruct Hne. rewrite sv_cq_head0, sv_cq0, status_phase by lia. done. }
  destruct (decide (fetched_count s = full)) as [E|Hn].
  - right. split. { intros E0. rewrite E0 in Hc. cbn in Hc. lia. }
    rewrite sv_cq_tail0, sv_cq_door0, (mod_next e Hf). intros E1.
    symmetry in E1. apply (mod_inj e Hf) in E1; lia.
  - left. rewrite sv_sq_head0, sv_sq_door0. intros E1. apply (mod_inj e Hf) in E1; lia.
Qed.

(** ** The kernel returns *)

(** The thread's steps, the memory it sees at each one being anything. *)
Fixpoint gpu_alone (e : drive_env) (ms : nat -> queue_pair) (n : nat) (g : gpu_thread) : gpu_thread :=
  match n with
  | O => g
  | S n' => gpu_alone e (fun i => ms (S i)) n' (snd (gpu_step e (ms O) g))
  end.

Definition drive_rank (e : drive_env) (g : gpu_thread) : Z :=
  let M := NVME_EP_MAX_POLLS in
  let count := g_batch_count g in
  let after := (total_ops (de_params e) - g_ops_done g - count) * (M + 5) + 1 in
  match g_pc g with
  | Loop => (total_ops (de_params e) - g_ops_done g) * (M + 5) + 1
  | Build b => after + (count - b) + count * M + 3
  | RingSq => after + count * M + 2
  | Poll b n => after + (count - b) * M - n + 1
  | RingCq => after + 1
  | Exit _ => 0
  end.

Definition thread_ok (e : drive_env) (g : gpu_thread) : Prop :=
  let batch := 0 < g_batch_count g /\ g_ops_done g + g_batch_count g <= total_ops (de_params e) in
  0 <= g_ops_done g <= total_ops (de_params e) /\
  match g_pc g with
  | Loop => True
  | Build b => batch /\ 0 <= b < g_batch_count g
  | RingSq => batch
  | Poll b n => batch /\ 0 <= b < g_batch_count g /\ 0 <= n < NVME_EP_MAX_POLLS
  | RingCq => batch
  | Exit _ => True
  end.

Definition out (g : gpu_thread) : Prop := exists o, g_pc g = Exit o.

Lemma rank_pos e g : thread_ok e g -> out g \/ 0 < drive_rank e g.
Proof.
  unfold thread_ok, drive_rank, out, NVME_EP_MAX_POLLS. destruct (g_pc g); try (left; by eexists);
    intros; right; cbn; nia.
Qed.

Lemma gpu_step_rank e m g :
  finite_drive e -> thread_ok e g -> ~ out g ->
  thread_ok e (snd (gpu_step e m g)) /\
  (out (snd (gpu_step e m g)) \/ drive_rank e (snd (gpu_step e m g)) < drive_rank e g).
Proof.
  intros Hf [HN Hg] Ho. pose proof (total_range e Hf) as [HT HT2].
  pose proof (batch_range e Hf) as (Hb & _). unfold gpu_step.
  assert (Hexit : forall o, thread_ok e (goto (Exit o) g) /\
    (out (goto (Exit o) g) \/ drive_rank e (goto (Exit o) g) < drive_rank e g)).
  { intros o. split; [done|left; by exists o]. }
  unfold thread_ok, drive_rank in *. destruct (g_pc g) as [|b| |b n| |o] eqn:Hpc; cbn in Hg.
  - rewrite (fd_mode _ Hf). cbn [orb negb andb].
    destruct (_ <? _) eqn:E; bool_to_prop; cbn [andb]; [|apply Hexit].
    destruct (qp_stop m); cbn [negb snd]; [apply Hexit|].
    rewrite (batch_count_at e Hf) by lia. rewrite (proj2 (Z.ltb_lt 0 _)) by lia. cbn.
    unfold NVME_EP_MAX_POLLS. split; [lia|right; nia].
  - destruct (build_command _ _ _); [|apply Hexit]. cbn.
    destruct (_ <? _) eqn:E; bool_to_prop; cbn; unfold NVME_EP_MAX_POLLS; split; [lia|right; nia|lia|right; nia].
  - cbn. rewrite (proj2 (Z.ltb_lt 0 _)) by lia. unfold NVME_EP_MAX_POLLS. split; [lia|right; nia].
  - destruct (qp_stop m && _); [apply Hexit|]. destruct (_ =? _).
    + destruct (cqeOk _); [|apply Hexit]. cbn. unfold NVME_EP_MAX_POLLS in *.
      destruct (_ <? _) eqn:E; bool_to_prop; cbn; split; [lia|right; nia|lia|right; nia].
    + destruct (_ <=? _) eqn:E; bool_to_prop; [apply Hexit|]. cbn. split; [lia|right; lia].
  - cbn. rewrite u32_small by lia. unfold NVME_EP_MAX_POLLS. split; [lia|right; nia].
  - destruct Ho. by exists o.
Qed.

Lemma out_stays e ms : forall n g, out g -> out (gpu_alone e ms n g).
Proof.
  intros n. revert ms. induction n as [|n IH]; [done|]. intros ms g [o E]. cbn. apply IH.
  exists o. unfold gpu_step. by rewrite E.
Qed.

(** C16: In a finite run the kernel returns: with [infiniteMode] off (and a
    queue of 2 to 65535 entries and fewer than 2^32 - 2^16 operations), after
    a bounded number of its steps, ten million polls and five more per
    operation, the thread is out of its loop, whatever the controller does
    and whatever memory shows it.  In infinite mode only the stop request or
    an error ends the loop. *)
Theorem drive_returns e ms n :
  finite_drive e -> total_ops (de_params e) * (NVME_EP_MAX_POLLS + 5) + 1 <= Z.of_nat n ->
  exists o, g_pc (gpu_alone e ms n (dr_gpu (drive_start (fun _ => blank_sqe)))) = Exit o.
Proof.
  intros Hf Hn. set (g := dr_gpu _).
  assert (Hg : thread_ok e g) by (pose proof (total_range e Hf); split; cbn; lia || done).
  assert (Hr : drive_rank e g <= Z.of_nat n) by (unfold drive_rank; cbn; lia).
  clearbody g. clear Hn. revert ms g Hg Hr. induction n as [|n IH]; intros ms g Hg Hr.
  - destruct (rank_pos e g Hg); [done|lia].
  - cbn. destruct (rank_pos e g Hg) as [Ho|Hpos].
    { apply out_stays. destruct Ho as [o E]. exists o. unfold gpu_step. by rewrite E. }
    destruct (gpu_step_rank e (ms O) g Hf Hg) as [Hg' [Ho|Hlt]].
    { intros [o E]. unfold drive_rank in Hpos. rewrite E in Hpos. lia. }
    + by apply out_stays.
    + apply IH; [done|lia].
Qed.

(** ** Witnesses *)

(** 10 blocks from block 100, four to an access: two writes and two reads, in
    batches of three on queues of four entries. *)
Definition sample_drive (random : bool) (reads : Z) : drive_params :=
  {| dp_lbaSize := 512; dp_baseLba := 100; dp_lbaRangeLbas := 10; dp_useRandomAccess := random;
     dp_readIo := reads; dp_writeIo := 2; dp_lfsrSeed := 7; dp_queueSize := 4; dp_nsid := 1;
     dp_lbasPerIo := 4; dp_infiniteMode := false; dp_batchSize := 3 |}.

Lemma sample_range random reads : range_ok (sample_drive random reads).
Proof. split; cbn; lia. Qed.

Lemma random_lba_in_range_witness : in_range (sample_drive true 2) (op_lba (sample_drive true 2) 1).
Proof. apply (random_lba_in_range (sample_drive true 2) 1); [apply sample_range|reflexivity]. Defined.

Lemma sequential_overruns_witness :
  op_lba (sample_drive false 0) 2 = 108 /\ ~ in_range (sample_drive false 0) (op_lba (sample_drive false 0) 2).
Proof.
  split; [reflexivity|].
  apply (sequential_overruns (sample_drive false 0)); [apply sample_range|reflexivity|discriminate|reflexivity..].
Defined.

Lemma reads_follow_writes_witness : op_lba (sample_drive true 2) 3 = op_lba (sample_drive true 2) 1.
Proof.
  apply (reads_follow_writes (sample_drive true 2) 1); [reflexivity|reflexivity|split; [discriminate|reflexivity]|reflexivity].
Defined.

Definition sample_region : nvmeBufferParams :=
  {| bp_readBuffer := 4096; bp_writeBuffer := 65536; bp_bufferSize := 8192;
     bp_readBufferDma := 0; bp_writeBufferDma := 0; bp_readPagePhysAddrs := None;
     bp_writePagePhysAddrs := Some [40960; 20480]; bp_prpListPool := NULL; bp_prpListPageDmas := None;
     bp_prpListPoolDma := 0; bp_prpEntriesPerCmd := 0; bp_prpSlotsPerBatch := 1 |}.
Definition unset_tables : prp_tables :=
  {| readPrps := repeat (1, 1) 256; writePrps := repeat (1, 1) 256 |}.
Definition sample_tables : prp_tables :=
  {| readPrps := (4096, 0) :: (6144, 0) :: (8192, 0) :: repeat (1, 1) 253;
     writePrps := (40960, 0) :: (43008, 0) :: (20480, 0) :: repeat (1, 1) 253 |}.
Definition sample_env : drive_env :=
  {| de_params := sample_drive false 2; de_buffers := sample_region; de_timed := true;
     de_tables := sample_tables |}.

Lemma sample_finite : finite_drive sample_env.
Proof. split; cbn; lia || done. Qed.

(** The third place of a batch starts in the second, scattered page. *)
Lemma prp_paths_agree_witness :
  command_prps sample_env false 2 = Some (20480, 0) /\
  command_prps sample_env false 2
  = (r ← place_prps (sample_drive false 2) sample_region false 2; Some (fst r)).
Proof.
  split; [reflexivity|].
  apply (prp_paths_agree sample_env unset_tables false 2);
    [reflexivity|vm_compute; reflexivity|reflexivity|reflexivity|split; [discriminate|reflexivity]].
Defined.

(** A schedule: turns of the thread, fetches, and completions of the [i]-th
    command in flight. *)
Inductive turn := Gpu (n : nat) | Fetch | Complete (i : nat).

Definition take_turn (e : drive_env) (t : turn) (s : drive) : option drive :=
  match t with
  | Gpu n => Some (Nat.iter n (gpu_turn e) s)
  | Fetch =>
      if ct_sq_head (dr_ctrl s) =? qp_sq_doorbell (dr_mem s) then None
      else Some {| dr_mem := dr_mem s; dr_gpu := dr_gpu s; dr_ctrl := ctrl_fetch e (dr_mem s) (dr_ctrl s) |}
  | Complete i =>
      q ← ct_inflight (dr_ctrl s) !! i;
      if next_place e (ct_cq_tail (dr_ctrl s)) =? qp_cq_doorbell (dr_mem s) then None else
      Some {| dr_mem := set_cq (ct_cq_tail (dr_ctrl s)) (completion (dr_ctrl s) q 0) (dr_mem s);
              dr_gpu := dr_gpu s;
              dr_ctrl := ctrl_complete e q (take i (ct_inflight (dr_ctrl s)) ++ drop (S i) (ct_inflight (dr_ctrl s))) 0 (dr_ctrl s) |}
  end.

Lemma gpu_turn_step e s : drive_step e s (gpu_turn e s).
Proof.
  pose proof (step_gpu e s) as H. unfold gpu_turn.
  by destruct (gpu_step e (dr_mem s) (dr_gpu s)).
Qed.

Lemma take_turn_steps e t s s' : take_turn e t s = Some s' -> rtc (drive_step e) s s'.
Proof.
  destruct t as [n| |i]; cbn.
  - intros [= <-]. induction n as [|n IH]; [done|]. eapply rtc_r; [exact IH|apply gpu_turn_step].
  - destruct (_ =? _) eqn:E; bool_to_prop; [done|]. intros [= <-]. by apply rtc_once, step_fetch.
  - destruct (ct_inflight (dr_ctrl s) !! i) as [q|] eqn:Eq; [|done]. cbn.
    destruct (_ =? _) eqn:E; bool_to_prop; [done|]. intros [= <-]. apply rtc_once, step_complete;
      [by rewrite take_drop_middle|lia|done].
Qed.

Fixpoint take_turns (e : drive_env) (l : list turn) (s : drive) : option drive :=
  match l with [] => Some s | t :: l' => s' ← take_turn e t s; take_turns e l' s' end.

Lemma take_turns_reach e l s s' :
  drive_reachable e s -> take_turns e l s = Some s' -> drive_reachable e s'.
Proof.
  revert s. induction l as [|t l IH]; intros s Hr; cbn; [by intros [= <-]|].
  destruct (take_turn e t s) as [s1|] eqn:E; [|done]. cbn. apply IH.
  destruct Hr as [sq Hr]. exists sq. etransitivity; [exact Hr|by eapply take_turn_steps].
Qed.

(** The state a schedule leads to from the start. *)
Definition sample_at (l : list turn) : drive :=
  default (drive_start (fun _ => blank_sqe)) (take_turns sample_env l (drive_start (fun _ => blank_sqe))).

Lemma sample_reach l : drive_reachable sample_env (sample_at l).
Proof.
  unfold sample_at. destruct (take_turns _ _ _) eqn:E.
  - eapply take_turns_reach; [|exact E]. by exists (fun _ => blank_sqe).
  - by exists (fun _ => blank_sqe).
Qed.

(** The first batch goes out and completes last first; then the second. *)
Definition first_batch : list turn := [Gpu 5; Gpu 4; Fetch; Fetch; Complete 1; Fetch; Gpu 2].
Definition whole_run : list turn :=
  first_batch ++ [Complete 1; Complete 0; Gpu 3; Gpu 4; Fetch; Complete 0; Gpu 3].

Lemma drive_fifo_witness :
  length (ct_fetched (dr_ctrl (sample_at first_batch))) = 3%nat /\
  ct_fetched (dr_ctrl (sample_at first_batch))
    ≡ₚ ct_inflight (dr_ctrl (sample_at first_batch))
      ++ map fst (ct_completed (dr_ctrl (sample_at first_batch))).
Proof.
  split; [vm_compute; reflexivity|].
  apply (drive_fifo sample_env (sample_at first_batch)); [exact sample_finite|apply sample_reach].
Defined.

Lemma drive_finished_witness :
  length (ct_fetched (dr_ctrl (sample_at whole_run))) = 4%nat /\
  Z.of_nat (length (ct_fetched (dr_ctrl (sample_at whole_run)))) = 4.
Proof.
  split; [vm_compute; reflexivity|].
  apply (drive_finished sample_env (sample_at whole_run));
    [exact sample_finite|apply sample_reach|vm_compute; reflexivity].
Defined.

Lemma drive_not_stuck_witness :
  let s := sample_at [Gpu 5; Gpu 4; Fetch; Fetch; Fetch] in
  ct_sq_head (dr_ctrl s) <> qp_sq_doorbell (dr_mem s) \/
  (ct_inflight (dr_ctrl s) <> [] /\ next_place sample_env (ct_cq_tail (dr_ctrl s)) <> qp_cq_doorbell (dr_mem s)).
Proof.
  apply (drive_not_stuck sample_env (sample_at [Gpu 5; Gpu 4; Fetch; Fetch; Fetch]) 0 4);
    [exact sample_finite|apply sample_reach|vm_compute; reflexivity|vm_compute; discriminate].
Defined.

Lemma drive_returns_witness :
  exists o, g_pc (gpu_alone sample_env (fun _ => dr_mem (drive_start (fun _ => blank_sqe)))
                    (Z.to_nat 40000021) (dr_gpu (drive_start (fun _ => blank_sqe)))) = Exit o.
Proof.
  apply (drive_returns sample_env _ (Z.to_nat 40000021)); [exact sample_finite|].
  rewrite Z2Nat.id by discriminate. vm_compute. discriminate.
Defined.
