(* ===== verification/NvmeWave.v ===== *)
(** * Driving an NVMe queue with a block of threads

    [driveEndpointWavefront] of [src/src/endpoints/nvme-ep/nvme-ep.hip]: one
    thread for each command of a batch and a coordinator that rings the
    doorbells and polls, synchronised by barriers.  Between two barriers the
    threads run in any order.  The theorems show that to the controller the
    block is the single thread of [NvmeDrive.v]. *)

From S2P Require Import Prelude NvmeEp NvmeDrive NvmeLaunch NvmeDriveProps.

Arguments Z.mul : simpl never.
Arguments Z.add : simpl never.
Arguments Z.modulo : simpl never.
Arguments Z.div : simpl never.

Definition wave_batch (p : drive_params) : Z :=
  let b := dp_batchSize p in
  let b := if u32 (dp_queueSize p - 1) <? b then u32 (dp_queueSize p - 1) else b in
  if negb (dp_infiniteMode p) && (total_ops p <? b) then total_ops p else b.

(** The command of the thread with index [b + 1]; [None]: no valid address,
    [prp_valid] is false. *)
Definition wave_command (e : drive_env) (op_idx b : Z) : option nvme_sqe :=
  let p := de_params e in
  let is_read := is_read_op p op_idx in
  prps ← (if has_buffer (de_buffers e) is_read && place_fits p (de_buffers e) b
          then r ← place_prps p (de_buffers e) is_read b; Some (fst r) else None);
  Some (sqeSetup
    {| sqe_opcode := if is_read then nvme_cmd_read else nvme_cmd_write; sqe_flags := 0;
       sqe_command_id := u16 (op_idx mod 65535 + 1); sqe_nsid := dp_nsid p; sqe_cdw2 := 0;
       sqe_cdw3 := 0; sqe_metadata := 0; sqe_prp1 := fst prps; sqe_prp2 := snd prps;
       sqe_cdw10 := 0; sqe_cdw11 := 0; sqe_cdw12 := 0; sqe_cdw13 := 0; sqe_cdw14 := 0;
       sqe_cdw15 := 0 |} (op_lba p op_idx) (dp_lbasPerIo p)).

(** Where the block is: at the loop's test, between the first two barriers
    with the threads that have yet to run, with the coordinator at the
    doorbell, polling, or behind the poll loop; or returned. *)
Inductive wave_pc :=
| Top | Prepare (pending : list Z) | RingTail | PollCq (b poll_count : Z) | Epilogue | Return (o : outcome).

(** The shared variables, and the coordinator's own copies of the completion
    queue's head and phase.  [sh_stop] keeps the reason it was set for. *)
Record wave_block := {
  w_pc : wave_pc; sh_sq_tail : Z; sh_cq_head : Z; sh_expected_phase : Z; sh_ops_done : Z;
  sh_batch_count : Z; sh_stop : option outcome; sh_error : bool; w_cq_head : Z; w_phase : Z
}.

Definition wave_goto (pc : wave_pc) (w : wave_block) : wave_block :=
  {| w_pc := pc; sh_sq_tail := sh_sq_tail w; sh_cq_head := sh_cq_head w;
     sh_expected_phase := sh_expected_phase w; sh_ops_done := sh_ops_done w;
     sh_batch_count := sh_batch_count w; sh_stop := sh_stop w; sh_error := sh_error w;
     w_cq_head := w_cq_head w; w_phase := w_phase w |}.
Definition wave_stop (o : outcome) (w : wave_block) : wave_block :=
  {| w_pc := Epilogue; sh_sq_tail := sh_sq_tail w; sh_cq_head := sh_cq_head w;
     sh_expected_phase := sh_expected_phase w; sh_ops_done := sh_ops_done w;
     sh_batch_count := sh_batch_count w; sh_stop := Some o; sh_error := sh_error w;
     w_cq_head := w_cq_head w; w_phase := w_phase w |}.
Definition wave_fail (w : wave_block) : wave_block :=
  {| w_pc := w_pc w; sh_sq_tail := sh_sq_tail w; sh_cq_head := sh_cq_head w;
     sh_expected_phase := sh_expected_phase w; sh_ops_done := sh_ops_done w;
     sh_batch_count := sh_batch_count w; sh_stop := sh_stop w; sh_error := true;
     w_cq_head := w_cq_head w; w_phase := w_phase w |}.

(** Thread [b + 1] between the barriers. *)
Definition prepare (e : drive_env) (b : Z) (m : queue_pair) (w : wave_block)
    : queue_pair * wave_block :=
  match wave_command e (u32 (sh_ops_done w + b)) b with
  | None => (m, wave_fail w)
  | Some q =>
      if sh_error w then (m, w)
      else (set_sq ((sh_sq_tail w + b) mod dp_queueSize (de_params e)) q m, w)
  end.

Definition batch_indices (n : Z) : list Z := map Z.of_nat (seq 0 (Z.to_nat n)).

(** One step of the coordinator, or of the block at a barrier.  Of the
    threads that would prepare a batch, those that were launched run. *)
Definition wave_turn (e : drive_env) (m : queue_pair) (w : wave_block) : queue_pair * wave_block :=
  let p := de_params e in
  match w_pc w with
  | Top =>
      let bc := wave_batch p in
      let bc := if negb (dp_infiniteMode p) && (total_ops p <? u32 (sh_ops_done w + bc))
                then u32 (total_ops p - sh_ops_done w) else bc in
      (m, {| w_pc := Prepare (batch_indices (Z.min bc (kernelThreads p - 1))); sh_sq_tail := sh_sq_tail w;
             sh_cq_head := sh_cq_head w; sh_expected_phase := sh_expected_phase w;
             sh_ops_done := sh_ops_done w; sh_batch_count := bc; sh_stop := sh_stop w;
             sh_error := sh_error w; w_cq_head := w_cq_head w; w_phase := w_phase w |})
  | Prepare [] => (m, wave_goto (if sh_error w then Return Trapped else RingTail) w)
  | Prepare _ => (m, w)
  | RingTail =>
      let new_tail := (sh_sq_tail w + sh_batch_count w) mod dp_queueSize p in
      (ring_sq new_tail m,
       {| w_pc := if 0 <? sh_batch_count w then PollCq 0 0 else Epilogue; sh_sq_tail := new_tail;
          sh_cq_head := sh_cq_head w; sh_expected_phase := sh_expected_phase w;
          sh_ops_done := sh_ops_done w; sh_batch_count := sh_batch_count w; sh_stop := sh_stop w;
          sh_error := sh_error w; w_cq_head := sh_cq_head w; w_phase := sh_expected_phase w |})
  | PollCq b poll_count =>
      if qp_stop m && negb (poll_count =? 0) && (poll_count mod 100 =? 0)
      then (m, wave_stop Stopped w) else
      let cqe := qp_cq m (w_cq_head w) in
      if NVME_CQE_STATUS_PHASE (cqe_status cqe) =? w_phase w then
        if cqeOk (cqe_status cqe) then
          let cq_head := next_place e (w_cq_head w) in
          (m, {| w_pc := if b + 1 <? sh_batch_count w then PollCq (b + 1) 0 else Epilogue;
                 sh_sq_tail := sh_sq_tail w; sh_cq_head := sh_cq_head w;
                 sh_expected_phase := sh_expected_phase w; sh_ops_done := sh_ops_done w;
                 sh_batch_count := sh_batch_count w; sh_stop := sh_stop w; sh_error := sh_error w;
                 w_cq_head := cq_head;
                 w_phase := if cq_head =? 0 then Z.lxor (w_phase w) 1 else w_phase w |})
        else (m, wave_stop (Failed (cqe_status cqe)) w)
      else if NVME_EP_MAX_POLLS <=? poll_count + 1 then (m, wave_stop TimedOut w)
      else (m, wave_goto (PollCq b (poll_count + 1)) w)
  | Epilogue =>
      let m' := match sh_stop w with None => ring_cq (w_cq_head w) m | Some _ => m end in
      let ops_done := u32 (sh_ops_done w + sh_batch_count w) in
      let stop := match sh_stop w with
                  | Some o => Some o
                  | None => if negb (dp_infiniteMode p) && (total_ops p <=? ops_done) then Some Finished
                            else if qp_stop m then Some Stopped else None
                  end in
      (m', {| w_pc := match stop with Some o => Return o | None => Top end;
              sh_sq_tail := sh_sq_tail w; sh_cq_head := w_cq_head w; sh_expected_phase := w_phase w;
              sh_ops_done := ops_done; sh_batch_count := sh_batch_count w; sh_stop := stop;
              sh_error := sh_error w; w_cq_head := w_cq_head w; w_phase := w_phase w |})
  | Return _ => (m, w)
  end.

Record wave := { wv_mem : queue_pair; wv_block : wave_block; wv_ctrl : controller }.

Definition wave_with (mw : queue_pair * wave_block) (c : controller) : wave :=
  {| wv_mem := fst mw; wv_block := snd mw; wv_ctrl := c |}.

Inductive wave_step (e : drive_env) : wave -> wave -> Prop :=
| wave_coordinator s :
    wave_step e s (wave_with (wave_turn e (wv_mem s) (wv_block s)) (wv_ctrl s))
| wave_thread s l1 b l2 :
    w_pc (wv_block s) = Prepare (l1 ++ b :: l2) ->
    wave_step e s
      (wave_with (prepare e b (wv_mem s) (wave_goto (Prepare (l1 ++ l2)) (wv_block s))) (wv_ctrl s))
| wave_fetch s :
    ct_sq_head (wv_ctrl s) <> qp_sq_doorbell (wv_mem s) ->
    wave_step e s {| wv_mem := wv_mem s; wv_block := wv_block s;
                     wv_ctrl := ctrl_fetch e (wv_mem s) (wv_ctrl s) |}
| wave_complete s l1 q l2 code :
    ct_inflight (wv_ctrl s) = l1 ++ q :: l2 -> 0 <= code < 32768 ->
    next_place e (ct_cq_tail (wv_ctrl s)) <> qp_cq_doorbell (wv_mem s) ->
    wave_step e s
      {| wv_mem := set_cq (ct_cq_tail (wv_ctrl s)) (completion (wv_ctrl s) q code) (wv_mem s);
         wv_block := wv_block s; wv_ctrl := ctrl_complete e q (l1 ++ l2) code (wv_ctrl s) |}
| wave_stop_request s :
    wave_step e s
      {| wv_mem := {| qp_sq := qp_sq (wv_mem s); qp_cq := qp_cq (wv_mem s);
                      qp_sq_doorbell := qp_sq_doorbell (wv_mem s);
                      qp_cq_doorbell := qp_cq_doorbell (wv_mem s); qp_stop := true |};
         wv_block := wv_block s; wv_ctrl := wv_ctrl s |}.

(** The shared variables as the coordinator sets them before the first
    barrier. *)
Definition wave_start (sq : Z -> nvme_sqe) : wave :=
  {| wv_mem := dr_mem (drive_start sq);
     wv_block := {| w_pc := Top; sh_sq_tail := 0; sh_cq_head := 0; sh_expected_phase := 1;
                    sh_ops_done := 0; sh_batch_count := 0; sh_stop := None; sh_error := false;
                    w_cq_head := 0; w_phase := 1 |};
     wv_ctrl := dr_ctrl (drive_start sq) |}.

(** ** What the block has in common with the single thread *)

(** Runs of more than one command per batch, over a buffer with a region for
    each place of a batch; the single thread's tables are filled, and it
    keeps no timing statistics, which would cap its batches. *)
Record wave_ok (e : drive_env) : Prop := {
  wo_finite : finite_drive e;
  wo_batch : 1 < dp_batchSize (de_params e);
  wo_several : 1 < effBatch (de_params e);
  wo_timed : de_timed e = false;
  wo_tables : exists t, length (readPrps t) = 256%nat /\ length (writePrps t) = 256%nat /\
    precompute (de_params e) (de_buffers e) (Z.to_nat (precompute_count (env_batch e))) 0 t
      = Some (de_tables e);
  wo_fits : forall n b, 0 <= n < total_ops (de_params e) -> 0 <= b < env_batch e ->
    has_buffer (de_buffers e) (is_read_op (de_params e) n) = true /\
    place_fits (de_params e) (de_buffers e) b = true
}.

Lemma wave_batch_single e : wave_ok e -> wave_batch (de_params e) = env_batch e.
Proof.
  intros Hw. unfold env_batch, batch_size, requested_batch, wave_batch. rewrite (wo_timed _ Hw).
  rewrite (proj2 (Z.eqb_neq _ _)) by (pose proof (wo_batch _ Hw); lia). done.
Qed.

Lemma wo_total e : wave_ok e -> 0 < total_ops (de_params e).
Proof.
  intros Hw. pose proof (batch_range e (wo_finite _ Hw)) as (_ & _ & H). pose proof (wo_several _ Hw) as Hs.
  rewrite effBatch_batch_size in Hs. unfold env_batch in H. rewrite (wo_timed _ Hw) in H. lia.
Qed.

(** There is a thread for each command of a batch. *)
Lemma threads_cover e n : wave_ok e -> Z.min (Z.min (env_batch e) n) (kernelThreads (de_params e) - 1) = Z.min (env_batch e) n.
Proof.
  intros Hw. pose proof (batch_range e (wo_finite _ Hw)) as (_ & H & _). pose proof (wo_several _ Hw) as Hs.
  pose proof (queue_pos e (wo_finite _ Hw)). unfold kernelThreads. rewrite (proj2 (Z.ltb_lt _ _) Hs).
  rewrite effBatch_batch_size in *. unfold env_batch in *. rewrite (wo_timed _ Hw) in *.
  rewrite u32_small by lia. lia.
Qed.

Lemma wave_command_single e n b :
  wave_ok e -> 0 <= n < total_ops (de_params e) -> 0 <= b < env_batch e ->
  wave_command e n b = build_command e n b.
Proof.
  intros Hw Hn Hb. destruct (wo_fits _ Hw n b Hn Hb) as [H1 H2].
  destruct (wo_tables _ Hw) as (t & Hr & Hwr & Ht).
  unfold wave_command, build_command. rewrite H1, H2. cbn [andb].
  destruct (decide (b < precompute_count (env_batch e))) as [Hlt|Hge].
  - erewrite (command_prps_table e t); [reflexivity| |done..|lia].
    by destruct (is_read_op (de_params e) n).
  - unfold command_prps. rewrite (proj2 (Z.ltb_ge _ _)), H1, H2 by lia. done.
Qed.

(** The number of commands announced, from the doorbell and what has been
    fetched. *)
Definition announced (e : drive_env) (door fetched : Z) : Z :=
  fetched + (door - fetched) mod dp_queueSize (de_params e).

Lemma announced_rung e s k :
  finite_drive e -> serving e s k ->
  announced e (qp_sq_doorbell (dr_mem s)) (fetched_count s) = k_rung k.
Proof.
  intros Hf Hs. pose proof (queue_pos e Hf). unfold announced.
  destruct Hs as [A1 A2 A3 A4 A5 _ A6]. rewrite A6, Zminus_mod_idemp_l, Z.mod_small; lia.
Qed.

(** The entries from [a] up to [b] of a submission queue are the commands of
    the run. *)
Definition holds_commands (e : drive_env) (sq : Z -> nvme_sqe) (a b : Z) : Prop :=
  forall n, a <= n < b -> command e n = Some (sq (n mod dp_queueSize (de_params e))).

Definition thread_is (pc : drive_pc) (tail head phase : Z) (w : wave_block) (g : gpu_thread) : Prop :=
  g = {| g_pc := pc; g_sq_tail := tail; g_cq_head := head; g_phase := phase;
         g_ops_done := sh_ops_done w; g_batch_count := sh_batch_count w |}.

(** Where the single thread is for a point of the block. *)
Definition same_point (e : drive_env) (m : queue_pair) (w : wave_block) (g : gpu_thread) : Prop :=
  let N := sh_ops_done w in
  match w_pc w with
  | Top => thread_is Loop (sh_sq_tail w) (sh_cq_head w) (sh_expected_phase w) w g /\
      N < total_ops (de_params e) /\ sh_stop w = None /\ sh_error w = false
  | Prepare pending =>
      thread_is (Build 0) (sh_sq_tail w) (sh_cq_head w) (sh_expected_phase w) w g /\ sh_stop w = None /\
      (forall b, b ∈ pending -> 0 <= b < sh_batch_count w) /\
      if sh_error w then exists b, 0 <= b < sh_batch_count w /\ command e (N + b) = None
      else forall b, 0 <= b < sh_batch_count w -> b ∉ pending ->
        command e (N + b) = Some (qp_sq m ((N + b) mod dp_queueSize (de_params e)))
  | RingTail =>
      thread_is RingSq ((sh_sq_tail w + sh_batch_count w) mod dp_queueSize (de_params e))
        (sh_cq_head w) (sh_expected_phase w) w g /\ sh_stop w = None /\ sh_error w = false /\
      holds_commands e (qp_sq m) N (N + sh_batch_count w)
  | PollCq b n => thread_is (Poll b n) (sh_sq_tail w) (w_cq_head w) (w_phase w) w g /\
      sh_stop w = None /\ sh_error w = false
  | Epilogue =>
      match sh_stop w with
      | None => thread_is RingCq (sh_sq_tail w) (w_cq_head w) (w_phase w) w g /\ sh_error w = false
      | Some o => g_pc g = Exit o /\ o <> Finished
      end
  | Return o => g_pc g = Exit o
  end.

Record same_view (e : drive_env) (w : wave) (s : drive) : Prop := {
  sm_reach : drive_reachable e s;
  sm_ctrl : dr_ctrl s = wv_ctrl w;
  sm_cq : qp_cq (dr_mem s) = qp_cq (wv_mem w);
  sm_sq_door : qp_sq_doorbell (dr_mem s) = qp_sq_doorbell (wv_mem w);
  sm_cq_door : qp_cq_doorbell (dr_mem s) = qp_cq_doorbell (wv_mem w);
  sm_stop : qp_stop (dr_mem s) = true -> exists o, g_pc (dr_gpu s) = Exit o;
  sm_sq : holds_commands e (qp_sq (wv_mem w)) (fetched_count s)
            (announced e (qp_sq_doorbell (dr_mem s)) (fetched_count s));
  sm_point : same_point e (wv_mem w) (wv_block w) (dr_gpu s)
}.

(** *** The single thread catching up *)

(** Its state up to its program counter, its tail and the entries past the
    doorbell. *)
Record same_but_sq (s s' : drive) : Prop := {
  sb_ctrl : dr_ctrl s' = dr_ctrl s;
  sb_cq : qp_cq (dr_mem s') = qp_cq (dr_mem s);
  sb_sqd : qp_sq_doorbell (dr_mem s') = qp_sq_doorbell (dr_mem s);
  sb_cqd : qp_cq_doorbell (dr_mem s') = qp_cq_doorbell (dr_mem s);
  sb_stop : qp_stop (dr_mem s') = qp_stop (dr_mem s);
  sb_head : g_cq_head (dr_gpu s') = g_cq_head (dr_gpu s);
  sb_phase : g_phase (dr_gpu s') = g_phase (dr_gpu s);
  sb_ops : g_ops_done (dr_gpu s') = g_ops_done (dr_gpu s);
  sb_count : g_batch_count (dr_gpu s') = g_batch_count (dr_gpu s)
}.

Lemma same_but_sq_trans s1 s2 s3 : same_but_sq s1 s2 -> same_but_sq s2 s3 -> same_but_sq s1 s3.
Proof. intros [] []. split; congruence. Qed.

(** Building the rest of a batch: to the doorbell, or to the first command
    that cannot be built. *)
Lemma build_run e n : finite_drive e -> forall s b,
  g_pc (dr_gpu s) = Build b -> g_batch_count (dr_gpu s) = b + Z.of_nat n -> (0 < n)%nat ->
  0 <= g_sq_tail (dr_gpu s) < dp_queueSize (de_params e) ->
  exists s', rtc (drive_step e) s s' /\ same_but_sq s s' /\
    ((g_pc (dr_gpu s') = RingSq /\
      g_sq_tail (dr_gpu s') = (g_sq_tail (dr_gpu s) + Z.of_nat n) mod dp_queueSize (de_params e) /\
      forall i, b <= i < b + Z.of_nat n -> build_command e (u32 (g_ops_done (dr_gpu s) + i)) i <> None) \/
     (g_pc (dr_gpu s') = Exit Trapped /\
      exists i, b <= i < b + Z.of_nat n /\ build_command e (u32 (g_ops_done (dr_gpu s) + i)) i = None)).
Proof.
  intros Hf. pose proof (queue_pos e Hf) as HQ. induction n as [|n IH]; [lia|].
  intros s b Hpc Hc _ Ht. pose proof (gpu_turn_step e s) as Hst.
  unfold gpu_turn, gpu_step in Hst. rewrite Hpc in Hst.
  destruct (build_command e (u32 (g_ops_done (dr_gpu s) + b)) b) as [q|] eqn:Eq.
  2:{ eexists. split; [apply rtc_once, Hst|]. split; [by split|]. right. split; [done|].
      exists b. split; [lia|done]. }
  destruct (b + 1 <? g_batch_count (dr_gpu s)) eqn:E; bool_to_prop.
  - cbn [fst snd] in Hst. match type of Hst with drive_step _ _ ?u =>
      destruct (IH u (b + 1)) as (s' & Hr & Hsb & Hor) end; cbn; try done; try lia.
    { apply Z.mod_pos_bound. lia. }
    exists s'. split; [eapply rtc_l; [exact Hst|exact Hr]|].
    split; [eapply same_but_sq_trans; [|exact Hsb]; by split|]. cbn in Hor.
    destruct Hor as [(H1 & H2 & H3)|(H1 & i & H2 & H3)]; [left|right].
    + split_and!; [done| |].
      * rewrite H2. unfold next_place. rewrite Z.add_mod_idemp_l by lia. f_equal. lia.
      * intros i Hi. destruct (decide (i = b)) as [->|]; [by rewrite Eq|apply H3; lia].
    + split; [done|]. exists i. split; [lia|done].
  - eexists. split; [apply rtc_once, Hst|]. split; [by split|]. left. cbn.
    assert (n = 0%nat) as -> by lia. split_and!; [done|done|].
    intros i Hi. replace i with b by lia. by rewrite Eq.
Qed.

Lemma elem_of_batch_indices n b : b ∈ batch_indices n <-> 0 <= b < n.
Proof.
  unfold batch_indices. split.
  - intros (i & -> & Hi%elem_of_seq)%list_elem_of_fmap. lia.
  - intros Hb. apply list_elem_of_fmap. exists (Z.to_nat b). split; [lia|]. apply elem_of_seq. lia.
Qed.

Section Simulation.
Context (e : drive_env) (Hw : wave_ok e).
Let Q := dp_queueSize (de_params e).
Let Hf : finite_drive e := wo_finite e Hw.

Lemma view_inv w s : same_view e w s -> drive_inv e s.
Proof using Hf. intros Hv. apply drive_invariant; [exact Hf|apply Hv]. Qed.

Lemma view_step w s s' : same_view e w s -> rtc (drive_step e) s s' -> drive_reachable e s'.
Proof using Type.
  intros Hv Hr. destruct (sm_reach _ _ _ Hv) as [sq Hs]. exists sq. by etransitivity.
Qed.

Lemma not_stopped w s : same_view e w s -> (forall o, g_pc (dr_gpu s) <> Exit o) ->
  qp_stop (dr_mem s) = false.
Proof using Type.
  intros Hv Hne. destruct (qp_stop (dr_mem s)) eqn:E; [|done].
  destruct (sm_stop _ _ _ Hv E) as [o Ho]. by destruct (Hne o).
Qed.

Lemma view_top w s : w_pc (wv_block w) = Top -> same_view e w s ->
  exists s', same_view e (wave_with (wave_turn e (wv_mem w) (wv_block w)) (wv_ctrl w)) s'.
Proof using Hf.
  intros Hpc Hv. pose proof (sm_point _ _ _ Hv) as Hp. unfold same_point in Hp. rewrite Hpc in Hp.
  destruct Hp as (Hg & HN & Hst & Her). unfold thread_is in Hg.
  pose proof (view_inv w s Hv) as ([HN0 _] & _). rewrite Hg in HN0. cbn in HN0.
  assert (Hns : qp_stop (dr_mem s) = false) by (apply (not_stopped w s Hv); by rewrite Hg).
  exists (gpu_turn e s). unfold wave_turn, wave_with. rewrite Hpc. cbn [fst snd].
  assert (Hgt : gpu_turn e s = {| dr_mem := dr_mem s;
    dr_gpu := {| g_pc := Build 0; g_sq_tail := sh_sq_tail (wv_block w); g_cq_head := sh_cq_head (wv_block w);
                 g_phase := sh_expected_phase (wv_block w); g_ops_done := sh_ops_done (wv_block w);
                 g_batch_count := Z.min (env_batch e) (total_ops (de_params e) - sh_ops_done (wv_block w)) |};
    dr_ctrl := dr_ctrl s |}).
  { unfold gpu_turn, gpu_step. rewrite Hg, Hns, (fd_mode _ Hf). cbn [g_pc g_ops_done].
    rewrite (proj2 (Z.ltb_lt _ _) HN). cbn [orb andb negb fst snd].
    rewrite (batch_count_at e Hf) by lia. pose proof (batch_range e Hf) as (Hb & _).
    rewrite (proj2 (Z.ltb_lt 0 _)) by lia. done. }
  rewrite wave_batch_single, (fd_mode _ Hf) by done. cbn [negb andb].
  rewrite (batch_count_at e Hf), threads_cover by (done || lia).
  pose proof (view_step w s (gpu_turn e s) Hv (rtc_once _ _ (gpu_turn_step e s))) as Hr.
  rewrite Hgt in *. destruct Hv. split; cbn; try done.
  - by rewrite Hns.
  - unfold same_point, thread_is. cbn. rewrite Her. split_and!; [done|done| |].
    + intros b Hb. by apply elem_of_batch_indices in Hb.
    + intros b Hb Hn. destruct Hn. by apply elem_of_batch_indices.
Qed.

(** Between the barriers everything announced has been fetched. *)
Lemma building_facts w s :
  same_view e w s -> g_pc (dr_gpu s) = Build 0 ->
  let N := g_ops_done (dr_gpu s) in
  batch_at e (dr_gpu s) /\ g_sq_tail (dr_gpu s) = N mod Q /\ fetched_count s = N /\
  announced e (qp_sq_doorbell (dr_mem s)) (fetched_count s) = N.
Proof using Hf.
  intros Hv Hpc N. pose proof (view_inv w s Hv) as (_ & k & Hk & Hs).
  unfold cursors_at in Hk. rewrite Hpc in Hk. destruct Hk as (HB & _ & ->).
  rewrite (announced_rung e s _ Hf Hs). destruct Hs as [A1 A2 A3 A4 A5 A6]. cbn in *.
  rewrite A6, Z.add_0_r. split_and!; [done..|lia|done].
Qed.

Lemma command_at N b :
  0 <= N -> N mod env_batch e = 0 -> 0 <= b < env_batch e -> N + b < total_ops (de_params e) ->
  command e (N + b) = wave_command e (u32 (N + b)) b /\
  build_command e (u32 (N + b)) b = command e (N + b).
Proof using Hf.
  intros HN Ha Hb HT. pose proof (total_range e Hf) as [_ HT2]. rewrite u32_small by lia.
  rewrite wave_command_single by (done || lia). unfold command.
  rewrite Z.add_mod, Ha, Z.add_0_l, Z.mod_mod, (Z.mod_small b) by lia. done.
Qed.

Lemma view_thread w s l1 b l2 :
  w_pc (wv_block w) = Prepare (l1 ++ b :: l2) -> same_view e w s ->
  same_view e (wave_with (prepare e b (wv_mem w) (wave_goto (Prepare (l1 ++ l2)) (wv_block w)))
                 (wv_ctrl w)) s.
Proof using Hf.
  intros Hpc Hv. pose proof (sm_point _ _ _ Hv) as Hp. unfold same_point in Hp. rewrite Hpc in Hp.
  destruct Hp as (Hg & Hst & Hin & Her). unfold thread_is in Hg.
  destruct (building_facts w s Hv) as ((HN & Ha & Hc) & Ht & HF & Han); [by rewrite Hg|].
  rewrite Hg in *. cbn in HN, Ha, Hc, Ht, HF, Han.
  pose proof (batch_range e Hf) as (_ & Hb2 & _). pose proof (queue_pos e Hf) as HQ. fold Q in Hb2, HQ.
  assert (Hb : 0 <= b < sh_batch_count (wv_block w)) by (apply Hin; rewrite elem_of_app, elem_of_cons; tauto).
  destruct (command_at (sh_ops_done (wv_block w)) b) as [Hcmd _]; [lia..|].
  unfold prepare. cbn [sh_ops_done sh_error sh_sq_tail wave_goto]. rewrite <- Hcmd, Ht.
  assert (Hin' : forall b', b' ∈ l1 ++ l2 -> 0 <= b' < sh_batch_count (wv_block w))
    by (intros b' Hb'; apply Hin; rewrite elem_of_app, elem_of_cons in *; tauto).
  rewrite Z.add_mod_idemp_l by (unfold Q in HQ; lia). fold Q.
  destruct (command e (sh_ops_done (wv_block w) + b)) as [q|] eqn:Ec; [destruct (sh_error _) eqn:Ee|].
  - destruct Hv. split; try done. unfold same_point, thread_is. cbn. rewrite Ee. by split_and!.
  - destruct Hv as [V1 V2 V3 V4 V5 V6 V7 V8]. split; try done.
    + rewrite Han, HF. intros n Hn. lia.
    + unfold same_point, thread_is. cbn. rewrite Ee. split_and!; [done..|].
      intros b' Hb' Hn'. fold Q. destruct (_ =? _) eqn:E; bool_to_prop.
      * assert (b' = b) as ->; [|done].
        destruct (Z.le_ge_cases b' b).
        -- apply (mod_inj e Hf) in E; lia.
        -- symmetry in E. apply (mod_inj e Hf) in E; lia.
      * apply Her; [done|]. assert (b' <> b) by congruence.
        rewrite elem_of_app, elem_of_cons in *. tauto.
  - destruct Hv. split; try done. unfold same_point, thread_is. cbn. split_and!; try done.
    by exists b.
Qed.

(** What carries over when the single thread has moved and the block's
    memory has not. *)
Lemma view_moved w s s' b :
  same_view e w s -> rtc (drive_step e) s s' -> same_but_sq s s' ->
  (forall o, g_pc (dr_gpu s) <> Exit o) -> same_point e (wv_mem w) b (dr_gpu s') ->
  same_view e (wave_with (wv_mem w, b) (wv_ctrl w)) s'.
Proof using Type.
  intros Hv Hr [] Hne Hp. pose proof (not_stopped w s Hv Hne) as Hns.
  pose proof (view_step w s s' Hv Hr). destruct Hv as [V1 V2 V3 V4 V5 V6 V7 V8].
  split; cbn; try done; try congruence.
  unfold fetched_count in *. by rewrite sb_ctrl0, sb_sqd0.
Qed.

Lemma view_barrier w s : w_pc (wv_block w) = Prepare [] -> same_view e w s ->
  exists s', same_view e (wave_with (wave_turn e (wv_mem w) (wv_block w)) (wv_ctrl w)) s'.
Proof using Hf.
  intros Hpc Hv. pose proof (sm_point _ _ _ Hv) as Hp. unfold same_point in Hp. rewrite Hpc in Hp.
  destruct Hp as (Hg & Hst & _ & Her). unfold thread_is in Hg.
  destruct (building_facts w s Hv) as ((HN & Ha & Hc) & Ht & HF & Han); [by rewrite Hg|].
  pose proof (batch_range e Hf) as (Hb1 & Hb2 & _). pose proof (queue_pos e Hf) as HQ.
  destruct (build_run e (Z.to_nat (g_batch_count (dr_gpu s))) Hf s 0) as (s' & Hr & Hsb & Hor).
  { by rewrite Hg. } { lia. } { lia. } { rewrite Ht. apply Z.mod_pos_bound. unfold Q. lia. }
  assert (Hcmd : forall i, 0 <= i < g_batch_count (dr_gpu s) ->
    build_command e (u32 (g_ops_done (dr_gpu s) + i)) i = command e (g_ops_done (dr_gpu s) + i))
    by (intros i Hi; apply command_at; lia).
  rewrite Z2Nat.id in Hor by lia. rewrite Hg in *. cbn in HN, Ha, Hc, Ht, HF, Han, Hor, Hcmd.
  exists s'. unfold wave_turn. rewrite Hpc.
  apply (view_moved w s s' _ Hv Hr Hsb); [by rewrite Hg|].
  destruct Hsb as [S1 S2 S3 S4 S5 S6 S7 S8 S9]. rewrite Hg in S6, S7, S8, S9. cbn in S6, S7, S8, S9.
  destruct (sh_error (wv_block w)) eqn:Ee.
  - destruct Her as (b & Hb & Hn). destruct Hor as [(_ & _ & H)|[H _]]; [|exact H].
    destruct (H b); [lia|]. by rewrite Hcmd.
  - destruct Hor as [(H1 & H2 & _)|[_ (i & Hi & H)]].
    + unfold same_point, thread_is. cbn. split_and!; [|done..|].
      * destruct (dr_gpu s'). cbn in *. by subst.
      * intros n Hn. replace n with (sh_ops_done (wv_block w) + (n - sh_ops_done (wv_block w))) by lia.
        apply Her; [lia|by apply not_elem_of_nil].
    + rewrite Hcmd, Her in H by (lia || apply not_elem_of_nil). done.
Qed.

Lemma view_ring w s : w_pc (wv_block w) = RingTail -> same_view e w s ->
  exists s', same_view e (wave_with (wave_turn e (wv_mem w) (wv_block w)) (wv_ctrl w)) s'.
Proof using Hf.
  intros Hpc Hv. pose proof (sm_point _ _ _ Hv) as Hp. unfold same_point in Hp. rewrite Hpc in Hp.
  destruct Hp as (Hg & Hst & Her & Hh). unfold thread_is in Hg.
  assert (Hns : qp_stop (dr_mem s) = false) by (apply (not_stopped w s Hv); by rewrite Hg).
  pose proof (view_inv w s Hv) as (_ & k & Hk & Hs).
  unfold cursors_at in Hk. rewrite Hg in Hk. cbn in Hk. destruct Hk as ((HN & Ha & Hc) & ->).
  pose proof (batch_range e Hf) as (Hb & _).
  pose proof (view_step w s (gpu_turn e s) Hv (rtc_once _ _ (gpu_turn_step e s))) as Hr.
  exists (gpu_turn e s). unfold wave_turn. rewrite Hpc.
  assert (Hgt : gpu_turn e s = {| dr_mem := ring_sq (g_sq_tail (dr_gpu s)) (dr_mem s);
      dr_gpu := goto (Poll 0 0) (dr_gpu s); dr_ctrl := dr_ctrl s |}).
  { unfold gpu_turn, gpu_step. rewrite Hg. cbn [g_pc g_batch_count g_sq_tail].
    rewrite (proj2 (Z.ltb_lt 0 _)); [done|]. cbn in Hc, HN. lia. }
  assert (Hi : drive_inv e (gpu_turn e s)) by (apply drive_invariant; [exact Hf|exact Hr]).
  rewrite Hgt in *. rewrite Hg in *. cbn in Hi, HN, Hc.
  destruct Hi as (_ & k' & Hk' & Hs'). cbn in Hk'. destruct Hk' as (_ & _ & ->).
  pose proof (announced_rung e _ _ Hf Hs') as Han. cbn in Han.
  rewrite (proj2 (Z.ltb_lt 0 _)) by lia.
  destruct Hs as [A1 A2 A3 A4 A5 A6]. cbn in A1, A2, A3.
  destruct Hv as [V1 V2 V3 V4 V5 V6 V7 V8]. split; cbn; try done.
  - by rewrite Hns.
  - unfold fetched_count in *. cbn in *. rewrite Han. intros n Hn. apply Hh. lia.
Qed.

Lemma view_gpu w s g b :
  same_view e w s -> (forall o, g_pc (dr_gpu s) <> Exit o) ->
  gpu_turn e s = {| dr_mem := dr_mem s; dr_gpu := g; dr_ctrl := dr_ctrl s |} ->
  same_point e (wv_mem w) b g ->
  exists s', same_view e (wave_with (wv_mem w, b) (wv_ctrl w)) s'.
Proof using Type.
  intros Hv Hne Hgt Hp. exists (gpu_turn e s).
  pose proof (not_stopped w s Hv Hne) as Hns.
  pose proof (view_step w s _ Hv (rtc_once _ _ (gpu_turn_step e s))). rewrite Hgt in *.
  destruct Hv. split; cbn; try done. by rewrite Hns.
Qed.

(** The single thread sees the stop request when the block acts on it. *)
Lemma view_stopped w s b :
  same_view e w s -> same_point e (wv_mem w) b (goto (Exit Stopped) (dr_gpu s)) ->
  (forall m, gpu_step e {| qp_sq := qp_sq m; qp_cq := qp_cq m; qp_sq_doorbell := qp_sq_doorbell m;
                           qp_cq_doorbell := qp_cq_doorbell m; qp_stop := true |} (dr_gpu s)
             = ({| qp_sq := qp_sq m; qp_cq := qp_cq m; qp_sq_doorbell := qp_sq_doorbell m;
                   qp_cq_doorbell := qp_cq_doorbell m; qp_stop := true |},
                goto (Exit Stopped) (dr_gpu s))) ->
  exists s', same_view e (wave_with (wv_mem w, b) (wv_ctrl w)) s'.
Proof using Type.
  intros Hv Hp Hst. pose proof (step_stop e s) as H1.
  match type of H1 with drive_step _ _ ?u => pose proof (gpu_turn_step e u) as H2 end.
  unfold gpu_turn in H2. cbn in H2. rewrite Hst in H2. cbn in H2.
  pose proof (view_step w s _ Hv (rtc_l _ _ _ _ H1 (rtc_once _ _ H2))) as Hr.
  eexists. destruct Hv. split; [exact Hr|..]; cbn; try done. intros _. by exists Stopped.
Qed.

Lemma view_poll w s b n : w_pc (wv_block w) = PollCq b n -> same_view e w s ->
  exists s', same_view e (wave_with (wave_turn e (wv_mem w) (wv_block w)) (wv_ctrl w)) s'.
Proof using Hf.
  intros Hpc Hv. pose proof (sm_point _ _ _ Hv) as Hp. unfold same_point in Hp. rewrite Hpc in Hp.
  destruct Hp as (Hg & Hst & Her). unfold thread_is in Hg.
  assert (Hne : forall o, g_pc (dr_gpu s) <> Exit o) by by rewrite Hg.
  pose proof (not_stopped w s Hv Hne) as Hns. unfold wave_turn. rewrite Hpc.
  destruct (qp_stop (wv_mem w) && negb (n =? 0) && (n mod 100 =? 0)) eqn:Estop.
  { bool_to_prop. apply (view_stopped w s _ Hv); [by split|]. intros m. unfold gpu_step.
    rewrite Hg. cbn [g_pc qp_stop]. rewrite (proj2 (Z.eqb_eq _ _)) by done. done. }
  assert (Hgs : forall r, gpu_step e (dr_mem s) (dr_gpu s) = (dr_mem s, r) ->
    gpu_turn e s = {| dr_mem := dr_mem s; dr_gpu := r; dr_ctrl := dr_ctrl s |})
    by (intros r E; unfold gpu_turn; by rewrite E).
  unfold gpu_step in Hgs. rewrite Hns, (sm_cq _ _ _ Hv), Hg in Hgs.
  cbn [andb g_pc g_cq_head g_phase g_batch_count] in Hgs.
  destruct (_ =? w_phase (wv_block w)) eqn:E; [destruct (cqeOk _) eqn:Eok|].
  - eapply (view_gpu w s); [done|done|apply Hgs; reflexivity|].
    unfold same_point, thread_is. cbn. destruct (b + 1 <? sh_batch_count (wv_block w)); cbn;
      rewrite ?Hst, ?Her; by split_and!.
  - eapply (view_gpu w s); [done|done|apply Hgs; reflexivity|by split].
  - destruct (NVME_EP_MAX_POLLS <=? n + 1).
    + eapply (view_gpu w s); [done|done|apply Hgs; reflexivity|by split].
    + eapply (view_gpu w s); [done|done|apply Hgs; reflexivity|]. by split_and!.
Qed.

Lemma view_acked w s m' g' b head :
  same_view e w s ->
  let s' := {| dr_mem := m'; dr_gpu := g'; dr_ctrl := dr_ctrl s |} in
  rtc (drive_step e) s s' -> qp_cq m' = qp_cq (dr_mem s) ->
  qp_sq_doorbell m' = qp_sq_doorbell (dr_mem s) -> qp_cq_doorbell m' = head ->
  (qp_stop m' = true -> exists o, g_pc g' = Exit o) -> same_point e (ring_cq head (wv_mem w)) b g' ->
  exists s', same_view e (wave_with (ring_cq head (wv_mem w), b) (wv_ctrl w)) s'.
Proof using Type.
  intros Hv s' Hr Hc Hd Hh Hs Hp. exists s'. pose proof (view_step w s s' Hv Hr).
  destruct Hv. split; unfold fetched_count in *; cbn; try done; rewrite ?Hd; try congruence; done.
Qed.

Lemma view_epilogue w s : w_pc (wv_block w) = Epilogue -> same_view e w s ->
  exists s', same_view e (wave_with (wave_turn e (wv_mem w) (wv_block w)) (wv_ctrl w)) s'.
Proof using Hf.
  intros Hpc Hv. pose proof (sm_point _ _ _ Hv) as Hp. unfold same_point in Hp. rewrite Hpc in Hp.
  unfold wave_turn. rewrite Hpc. destruct (sh_stop (wv_block w)) as [o|] eqn:Est; cbv zeta.
  { destruct Hp as [Hp _]. exists s. destruct Hv. by split. }
  destruct Hp as [Hg Her]. unfold thread_is in Hg.
  assert (Hns : qp_stop (dr_mem s) = false) by (apply (not_stopped w s Hv); by rewrite Hg).
  pose proof (view_inv w s Hv) as (_ & k & Hk & _).
  unfold cursors_at in Hk. rewrite Hg in Hk. cbn in Hk. destruct Hk as ((HN & _ & Hc) & _).
  cbn in HN, Hc. pose proof (total_range e Hf) as [_ HT2].
  pose proof (batch_range e Hf) as (_ & Hb & _). rewrite (fd_mode _ Hf), u32_small by lia. cbn [negb andb].
  pose proof (gpu_turn_step e s) as H1. unfold gpu_turn, gpu_step in H1. rewrite Hg in H1.
  cbn [g_pc g_cq_head g_ops_done g_batch_count g_sq_tail g_phase fst snd] in H1.
  rewrite u32_small in H1 by lia.
  match type of H1 with drive_step _ _ ?u => set (s1 := u) in * end.
  pose proof (gpu_turn_step e s1) as H2. unfold gpu_turn, gpu_step in H2. cbn in H2.
  rewrite (fd_mode _ Hf), Hns in H2. cbn [orb negb andb] in H2.
  destruct (total_ops (de_params e) <=? _) eqn:ET; bool_to_prop.
  - rewrite (proj2 (Z.ltb_ge _ _)) in H2 by lia. cbn in H2.
    eapply (view_acked w s _ _ _ _ Hv);
      [eapply rtc_l; [exact H1|apply rtc_once, H2]|done..| |done].
    intros _. by eexists.
  - clear H2. destruct (qp_stop (wv_mem w)).
    + pose proof (step_stop e s1) as H2.
      match type of H2 with drive_step _ _ ?u => pose proof (gpu_turn_step e u) as H3 end.
      unfold gpu_turn, gpu_step in H3. cbn in H3. rewrite andb_false_r in H3. cbn in H3.
      eapply (view_acked w s _ _ _ _ Hv);
        [eapply rtc_l; [exact H1|eapply rtc_l; [exact H2|apply rtc_once, H3]]|done..| |done].
      intros _. by eexists.
    + eapply (view_acked w s _ _ _ _ Hv); [apply rtc_once, H1|done..| |].
      * cbn. by rewrite Hns.
      * unfold same_point, thread_is. cbn. by split_and!.
Qed.
End Simulation.

(** ** The block refines the single thread *)

Definition wave_reachable (e : drive_env) (w : wave) : Prop :=
  exists sq, rtc (wave_step e) (wave_start sq) w.

Lemma view_start e sq : wave_ok e -> same_view e (wave_start sq) (drive_start sq).
Proof.
  intros Hw. pose proof (queue_pos e (wo_finite e Hw)). split; cbn; try done.
  - by exists sq.
  - intros n. unfold fetched_count, announced. cbn. rewrite Z.mod_0_l by lia. lia.
  - unfold same_point, thread_is. cbn. split_and!; try done. by apply wo_total.
Qed.

Lemma view_fetch e w s : wave_ok e -> same_view e w s ->
  ct_sq_head (wv_ctrl w) <> qp_sq_doorbell (wv_mem w) ->
  exists s', same_view e {| wv_mem := wv_mem w; wv_block := wv_block w;
                            wv_ctrl := ctrl_fetch e (wv_mem w) (wv_ctrl w) |} s'.
Proof.
  intros Hw Hv Hd. pose proof (wo_finite e Hw) as Hf.
  pose proof (view_inv e Hw w s Hv) as (_ & k & _ & Hs). pose proof (announced_rung e s k Hf Hs) as Han.
  assert (Hd' : ct_sq_head (dr_ctrl s) <> qp_sq_doorbell (dr_mem s))
    by by rewrite (sm_ctrl _ _ _ Hv), (sm_sq_door _ _ _ Hv).
  pose proof (serve_fetch e Hf s k Hs Hd') as Hs'. pose proof (announced_rung e _ k Hf Hs') as Han'.
  pose proof (view_step e w s _ Hv (rtc_once _ _ (step_fetch e s Hd'))) as Hr.
  assert (Hlt : fetched_count s < k_rung k).
  { destruct Hs as [A1 A2 A3 A4 A5 A6 A7 A8]. destruct (decide (fetched_count s = k_rung k)) as [E|]; [|lia].
    destruct Hd'. by rewrite A7, A8, E. }
  pose proof (sm_sq _ _ _ Hv) as Hsq. rewrite Han in Hsq.
  assert (Hq : qp_sq (dr_mem s) (ct_sq_head (dr_ctrl s)) = qp_sq (wv_mem w) (ct_sq_head (wv_ctrl w))).
  { pose proof (Hsq (fetched_count s) ltac:(lia)) as E1.
    pose proof (sv_sq _ _ _ Hs (fetched_count s)) as E2. rewrite E1 in E2.
    rewrite <- (sm_ctrl _ _ _ Hv), (sv_sq_head _ _ _ Hs).
    injection E2; [done|]. pose proof (sv_rung _ _ _ Hs). lia. }
  eexists. split; [exact Hr|cbn..]; try apply Hv.
  - unfold ctrl_fetch. by rewrite Hq, (sm_ctrl _ _ _ Hv).
  - cbn in Han'. rewrite Han'. intros n Hn. apply Hsq.
    unfold fetched_count in *. cbn in Hn. rewrite length_app in Hn. cbn in Hn. lia.
Qed.

Lemma view_complete e w s l1 q l2 code : wave_ok e -> same_view e w s ->
  ct_inflight (wv_ctrl w) = l1 ++ q :: l2 -> 0 <= code < 32768 ->
  next_place e (ct_cq_tail (wv_ctrl w)) <> qp_cq_doorbell (wv_mem w) ->
  exists s', same_view e
    {| wv_mem := set_cq (ct_cq_tail (wv_ctrl w)) (completion (wv_ctrl w) q code) (wv_mem w);
       wv_block := wv_block w; wv_ctrl := ctrl_complete e q (l1 ++ l2) code (wv_ctrl w) |} s'.
Proof.
  intros Hw Hv Hl Hc Hd. rewrite <- (sm_ctrl _ _ _ Hv) in *. rewrite <- (sm_cq_door _ _ _ Hv) in Hd.
  pose proof (view_step e w s _ Hv (rtc_once _ _ (step_complete e s l1 q l2 code Hl Hc Hd))) as Hr.
  eexists. split; [exact Hr|cbn..]; try apply Hv; [done|]. by rewrite (sm_cq _ _ _ Hv).
Qed.

Lemma view_wave_step e w w' s :
  wave_ok e -> same_view e w s -> wave_step e w w' -> exists s', same_view e w' s'.
Proof.
  intros Hw Hv Hst. destruct Hst as [w|w l1 b l2 Hpc|w Hd|w l1 q l2 code Hl Hc Hd|w].
  - destruct (w_pc (wv_block w)) as [|[|b l]| |b n| |o] eqn:Hpc;
      eauto using view_top, view_barrier, view_ring, view_poll, view_epilogue.
    + exists s. unfold wave_turn. rewrite Hpc. by destruct w.
    + exists s. unfold wave_turn. rewrite Hpc. by destruct w.
  - exists s. by apply view_thread.
  - by eapply view_fetch.
  - by eapply view_complete.
  - exists s. destruct Hv. by split.
Qed.

Lemma wave_view e w : wave_ok e -> wave_reachable e w -> exists s, same_view e w s.
Proof.
  intros Hw [sq Hr]. pose proof (view_start e sq Hw) as Hv.
  remember (wave_start sq) as w0 eqn:E. clear E. revert Hv. generalize (drive_start sq).
  induction Hr as [w|w1 w2 w3 Hst Hr IH]; intros s Hv; [by exists s|].
  destruct (view_wave_step e _ _ _ Hw Hv Hst) as [s' Hv']. by apply (IH s').
Qed.

(** C5: To the controller a block of threads is the single thread.  However
    the threads of a batch, the coordinator and the controller interleave,
    there is a run of the single-thread path in which the controller is in
    the same state, with the same doorbells and completions before it; and
    if the block has returned, so has the thread, for the same reason.  This
    is about finite runs ([infiniteMode] off, a queue of 2 to 65535 entries,
    fewer than 2^32 - 2^16 operations) without timing, which would cap the
    single thread's batches, with a batch size over 1 that stays over 1 after
    the host's limits, and with a buffer region and a table filled for every
    place of a batch.  With an effective batch of 1 it fails
    ([lone_coordinator]). *)
Theorem wave_refines_single e w :
  wave_ok e -> wave_reachable e w ->
  exists s, drive_reachable e s /\ dr_ctrl s = wv_ctrl w /\
    qp_sq_doorbell (dr_mem s) = qp_sq_doorbell (wv_mem w) /\
    qp_cq_doorbell (dr_mem s) = qp_cq_doorbell (wv_mem w) /\ qp_cq (dr_mem s) = qp_cq (wv_mem w) /\
    forall o, w_pc (wv_block w) = Return o -> g_pc (dr_gpu s) = Exit o.
Proof.
  intros Hw Hr. destruct (wave_view e w Hw Hr) as [s Hv]. exists s.
  pose proof (sm_point _ _ _ Hv) as Hp. destruct Hv. split_and!; try done.
  intros o Hpc. unfold same_point in Hp. by rewrite Hpc in Hp.
Qed.

(** If the block ends because all operations are done, the controller
    fetched the command of every operation, computed without a table, in
    order, and completed each with success. *)
Theorem wave_finished e w :
  wave_ok e -> wave_reachable e w -> w_pc (wv_block w) = Return Finished ->
  Z.of_nat (length (ct_fetched (wv_ctrl w))) = total_ops (de_params e) /\
  (forall i q, ct_fetched (wv_ctrl w) !! i = Some q ->
     wave_command e (Z.of_nat i) (Z.of_nat i mod env_batch e) = Some q) /\
  ct_inflight (wv_ctrl w) = [] /\ map fst (ct_completed (wv_ctrl w)) ≡ₚ ct_fetched (wv_ctrl w) /\
  Forall (fun x => cqeOk (2 * snd x) = true) (ct_completed (wv_ctrl w)).
Proof.
  intros Hw Hr Hpc. destruct (wave_view e w Hw Hr) as [s Hv]. pose proof (wo_finite e Hw) as Hf.
  pose proof (sm_point _ _ _ Hv) as Hp. unfold same_point in Hp. rewrite Hpc in Hp.
  destruct (finished_run e s Hf (sm_reach _ _ _ Hv) Hp) as (H1 & H2 & H3 & H4 & H5).
  rewrite (sm_ctrl _ _ _ Hv) in *. split_and!; try done.
  intros i q Hi. pose proof (lookup_lt_Some _ _ _ Hi). pose proof (batch_range e Hf) as (Hb & _).
  pose proof (wo_total _ Hw). rewrite wave_command_single; [by apply H2|done|lia|].
  apply Z.mod_pos_bound. lia.
Qed.

(** With room for several commands per batch but only one to do, the host
    launches the coordinator alone, and the kernel still takes the path of
    the block: nobody writes the entry that the doorbell announces, and the
    controller fetches whatever the submission queue held. *)
Theorem lone_coordinator e sq :
  driveEndpoint_block (de_params e) = true -> effBatch (de_params e) = 1 -> finite_drive e ->
  exists w, rtc (wave_step e) (wave_start sq) w /\ ct_fetched (wv_ctrl w) = [sq 0].
Proof.
  intros Hb He Hf. unfold driveEndpoint_block in Hb. bool_to_prop. pose proof (queue_pos e Hf) as HQ.
  assert (Hk : kernelThreads (de_params e) = 1) by (unfold kernelThreads; by rewrite He).
  assert (Hw : wave_batch (de_params e) = 1).
  { rewrite <- He. unfold effBatch, wave_batch. by rewrite (proj2 (Z.eqb_neq _ 0)) by lia. }
  assert (HT : 1 <= total_ops (de_params e)).
  { rewrite effBatch_batch_size in He. unfold batch_size, requested_batch in He. rewrite (fd_mode _ Hf) in He.
    cbn [negb andb] in He. rewrite !clamp_min in He. lia. }
  pose proof (total_range e Hf) as [_ HT2].
  eexists. split.
  - eapply rtc_l; [apply wave_coordinator|]. unfold wave_turn. cbn.
    rewrite (fd_mode _ Hf), Hw, Hk. cbn [negb andb]. rewrite u32_small by lia. cbn.
    rewrite (proj2 (Z.ltb_ge _ _)) by lia. cbn.
    change (batch_indices (1 `min` (1 - 1))) with (@nil Z).
    eapply rtc_l; [apply wave_coordinator|]. cbn. eapply rtc_l; [apply wave_coordinator|]. cbn.
    eapply rtc_l; [apply wave_fetch|apply rtc_refl]. cbn. rewrite Z.mod_small by lia. done.
  - done.
Qed.

(** ** Witnesses *)

(** One read, in batches of up to eight. *)
Definition lone_env : drive_env :=
  {| de_params := {| dp_lbaSize := 512; dp_baseLba := 0; dp_lbaRangeLbas := 1000;
       dp_useRandomAccess := false; dp_readIo := 1; dp_writeIo := 0; dp_lfsrSeed := 0;
       dp_queueSize := 64; dp_nsid := 1; dp_lbasPerIo := 8; dp_infiniteMode := false;
       dp_batchSize := 8 |};
     de_buffers := sample_region; de_timed := false; de_tables := sample_tables |}.

Lemma lone_coordinator_witness :
  exists w, rtc (wave_step lone_env) (wave_start (fun _ => blank_sqe)) w /\
    ct_fetched (wv_ctrl w) = [blank_sqe].
Proof.
  apply (lone_coordinator lone_env (fun _ => blank_sqe)); [reflexivity|reflexivity|].
  split; cbn; lia || done.
Defined.

Definition wave_env : drive_env :=
  {| de_params := sample_drive false 2; de_buffers := sample_region; de_timed := false;
     de_tables := sample_tables |}.

Lemma wave_env_ok : wave_ok wave_env.
Proof.
  split; [split; cbn; lia || done|cbn; lia|vm_compute; done|done| |].
  - exists unset_tables. by vm_compute.
  - intros n b _ Hb. change (env_batch wave_env) with 3 in Hb.
    assert (b = 0 \/ b = 1 \/ b = 2) as [->|[->| ->]] by lia;
      (split; [|vm_compute; reflexivity]); by destruct (is_read_op _ n).
Qed.

(** A schedule of the block: steps of the coordinator, of the [i]-th thread
    that has yet to run, and of the controller. *)
Inductive block_turn := Coordinator (n : nat) | Thread (i : nat) | FetchOne | CompleteOne (i : nat).

Definition coordinate (e : drive_env) (s : wave) : wave :=
  wave_with (wave_turn e (wv_mem s) (wv_block s)) (wv_ctrl s).

Definition take_block_turn (e : drive_env) (t : block_turn) (s : wave) : option wave :=
  match t with
  | Coordinator n => Some (Nat.iter n (coordinate e) s)
  | Thread i =>
      match w_pc (wv_block s) with
      | Prepare l =>
          b ← l !! i;
          Some (wave_with (prepare e b (wv_mem s)
                  (wave_goto (Prepare (take i l ++ drop (S i) l)) (wv_block s))) (wv_ctrl s))
      | _ => None
      end
  | FetchOne =>
      if ct_sq_head (wv_ctrl s) =? qp_sq_doorbell (wv_mem s) then None
      else Some {| wv_mem := wv_mem s; wv_block := wv_block s; wv_ctrl := ctrl_fetch e (wv_mem s) (wv_ctrl s) |}
  | CompleteOne i =>
      q ← ct_inflight (wv_ctrl s) !! i;
      if next_place e (ct_cq_tail (wv_ctrl s)) =? qp_cq_doorbell (wv_mem s) then None else
      Some {| wv_mem := set_cq (ct_cq_tail (wv_ctrl s)) (completion (wv_ctrl s) q 0) (wv_mem s);
              wv_block := wv_block s;
              wv_ctrl := ctrl_complete e q (take i (ct_inflight (wv_ctrl s)) ++ drop (S i) (ct_inflight (wv_ctrl s))) 0 (wv_ctrl s) |}
  end.

Lemma take_block_turn_steps e t s s' : take_block_turn e t s = Some s' -> rtc (wave_step e) s s'.
Proof.
  destruct t as [n|i| |i]; cbn.
  - intros [= <-]. induction n as [|n IH]; [done|]. eapply rtc_r; [exact IH|apply wave_coordinator].
  - destruct (w_pc (wv_block s)) eqn:Hpc; try done.
    destruct (pending !! i) as [b|] eqn:Eb; [|done]. cbn. intros [= <-].
    apply rtc_once, wave_thread. by rewrite take_drop_middle.
  - destruct (_ =? _) eqn:E; bool_to_prop; [done|]. intros [= <-]. by apply rtc_once, wave_fetch.
  - destruct (ct_inflight (wv_ctrl s) !! i) as [q|] eqn:Eq; [|done]. cbn.
    destruct (_ =? _) eqn:E; bool_to_prop; [done|]. intros [= <-]. apply rtc_once, wave_complete;
      [by rewrite take_drop_middle|lia|done].
Qed.

Fixpoint take_block_turns (e : drive_env) (l : list block_turn) (s : wave) : option wave :=
  match l with [] => Some s | t :: l' => s' ← take_block_turn e t s; take_block_turns e l' s' end.

Lemma take_block_turns_reach e l s s' :
  wave_reachable e s -> take_block_turns e l s = Some s' -> wave_reachable e s'.
Proof.
  revert s. induction l as [|t l IH]; intros s Hr; cbn; [by intros [= <-]|].
  destruct (take_block_turn e t s) as [s1|] eqn:E; [|done]. cbn. apply IH.
  destruct Hr as [sq Hr]. exists sq. etransitivity; [exact Hr|by eapply take_block_turn_steps].
Qed.

Definition block_at (l : list block_turn) : wave :=
  default (wave_start (fun _ => blank_sqe)) (take_block_turns wave_env l (wave_start (fun _ => blank_sqe))).

Lemma block_reach l : wave_reachable wave_env (block_at l).
Proof.
  unfold block_at. destruct (take_block_turns _ _ _) eqn:E.
  - eapply take_block_turns_reach; [|exact E]. by exists (fun _ => blank_sqe).
  - by exists (fun _ => blank_sqe).
Qed.

(** The threads of the first batch run last first. *)
Definition whole_block : list block_turn :=
  [Coordinator 1; Thread 2; Thread 0; Thread 0; Coordinator 2; FetchOne; FetchOne; FetchOne;
   CompleteOne 2; CompleteOne 0; CompleteOne 0; Coordinator 4; Coordinator 1; Thread 0; Coordinator 2;
   FetchOne; CompleteOne 0; Coordinator 2].

Lemma wave_refines_single_witness :
  length (ct_completed (wv_ctrl (block_at whole_block))) = 4%nat /\
  exists s, drive_reachable wave_env s /\ dr_ctrl s = wv_ctrl (block_at whole_block) /\
    qp_sq_doorbell (dr_mem s) = qp_sq_doorbell (wv_mem (block_at whole_block)) /\
    qp_cq_doorbell (dr_mem s) = qp_cq_doorbell (wv_mem (block_at whole_block)) /\
    qp_cq (dr_mem s) = qp_cq (wv_mem (block_at whole_block)) /\
    forall o, w_pc (wv_block (block_at whole_block)) = Return o -> g_pc (dr_gpu s) = Exit o.
Proof.
  split; [vm_compute; reflexivity|].
  apply (wave_refines_single wave_env (block_at whole_block)); [exact wave_env_ok|apply block_reach].
Defined.

Lemma wave_finished_witness :
  ct_inflight (wv_ctrl (block_at whole_block)) = [] /\
  Z.of_nat (length (ct_fetched (wv_ctrl (block_at whole_block)))) = 4.
Proof.
  destruct (wave_finished wave_env (block_at whole_block)) as (H1 & _ & H3 & _);
    [exact wave_env_ok|apply block_reach|vm_compute; reflexivity|].
  split; [exact H3|exact H1].
Defined.
