(* ===== verification/WorkRing.v ===== *)
(** * The work ring between the fio engine and the GPU

    The shim [src/docker/rocm-xio-engine/rocm-xio-hip.hip] under the fio
    engine: the context of a queue with everything it acquires, the ring of
    work items the CPU fills and reaps, and the loop of the persistent GPU
    kernel ([gpuKernelPersistent] of [src/src/endpoints/nvme-ep/nvme-ep.hip])
    that serves it. *)

From S2P Require Import Prelude NvmeEp.

(** ** The environment: HIP, the core library and the system calls *)

Inductive rx_service :=
| SCalloc | SCtxCalloc | SEvCalloc | SArrCalloc
| SSetDevice | SDetectBdf | SQueryLba | SQueryCap | SQueryMaxQid | SOpenKmod | SBar0Cached | SMapPciBar
| SCreateQueue | SOpenNvme | SResolvePath | SQuiesce | SAllocBuffer
| SMallocPool | SMallocDmas | SPhysAddr | SMallocState | SStatePtr | SStreamCreate | SPrefill
| SMallocRing | SRingPtr | SMallocStop | SStopPtr | SLaunch.

(** What is acquired.  [RBar0] is a reference to the shared mapping of BAR 0
    and [RBarMap] the mapping itself, with its descriptor and its registration
    with HIP; [RNvmeQueue] is the controller's queue pair and [RQueueMemory]
    what [createQueue] allocated for it: the rings and their PRP lists. *)
Inductive rx_res :=
| RFileData | RCtx | RKmodFd | RBar0 | RBarMap | RNvmeQueue | RQueueMemory | RNvmeFd | RNsQuiesce | RDataBuf
| RPrpPool | RPrpDmas | RQueueState | RStream | RWorkRing | RStopFlag | RGpuKernel | REvents.

#[global] Instance rx_res_eq_dec : EqDecision rx_res.
Proof. solve_decision. Defined.

Inductive rx_event := EvCall (s : rx_service) | EvGet (r : rx_res) | EvPut (r : rx_res).

Abbreviation history := (list rx_event).

(** How often [r] is held after the history. *)
Fixpoint rx_held (h : history) (r : rx_res) : Z :=
  match h with
  | [] => 0
  | EvGet r' :: h' => ind (bool_decide (r' = r)) + rx_held h' r
  | EvPut r' :: h' => rx_held h' r - ind (bool_decide (r' = r))
  | EvCall _ :: h' => rx_held h' r
  end.

(** A service's status is negative on failure; the values that calls return
    through pointers are functions of the history too. *)
Class Rxio := {
  rx_status : history -> rx_service -> Z;
  rx_lba_size_of : history -> Z;
  rx_ns_capacity : history -> Z;
  rx_max_qid : history -> Z;
  rx_data_ptr : history -> ptr;
  rx_data_dma : history -> Z;
  rx_data_pages : history -> option (list Z);
  rx_prp_pages : history -> list Z
}.

Abbreviation R := (M history).

Definition emit (e : rx_event) : R unit := modify (cons e).
Definition acquire (r : rx_res) : R unit := emit (EvGet r).
Definition release (r : rx_res) : R unit := emit (EvPut r).

(** ** The persistent kernel *)

Record nvmeWorkItem := {
  wi_lba : Z; wi_lbas : Z; wi_slot : Z; wi_is_write : Z; wi_pad : Z; wi_seq : Z
}.
Definition work_item0 : nvmeWorkItem :=
  {| wi_lba := 0; wi_lbas := 0; wi_slot := 0; wi_is_write := 0; wi_pad := 0; wi_seq := 0 |}.
Definition with_seq (n : Z) (w : nvmeWorkItem) : nvmeWorkItem :=
  {| wi_lba := wi_lba w; wi_lbas := wi_lbas w; wi_slot := wi_slot w;
     wi_is_write := wi_is_write w; wi_pad := wi_pad w; wi_seq := n |}.

(** The fields of [nvmeIoParams] the kernel reads. *)
Record nvmeIoParams := { io_lbaSize : Z; io_queueSize : Z; io_nsid : Z; io_lbasPerIo : Z }.

(** The kernel's registers and the commands it has written, oldest first
    ([None]: the address came from beyond a page table). *)
Record gpu_kernel := {
  gk_index : Z; gk_sq_tail : Z; gk_cq_head : Z; gk_phase : Z; gk_log : list (option nvme_sqe)
}.

(** The entry before its addresses. *)
Definition new_sqe (io : nvmeIoParams) (sq_tail : Z) (is_write : bool) : nvme_sqe :=
  {| sqe_opcode := if is_write then nvme_cmd_write else nvme_cmd_read; sqe_flags := 0;
     sqe_command_id := u16 (sq_tail mod 65535 + 1); sqe_nsid := io_nsid io;
     sqe_cdw2 := 0; sqe_cdw3 := 0; sqe_metadata := 0; sqe_prp1 := 0; sqe_prp2 := 0;
     sqe_cdw10 := 0; sqe_cdw11 := 0; sqe_cdw12 := 0; sqe_cdw13 := 0; sqe_cdw14 := 0;
     sqe_cdw15 := 0 |}.

Definition slot_base (phys_addrs : option (list Z)) (dma : Z) (buffer : ptr) (buf_off : Z)
    : option Z :=
  match phys_addrs with
  | Some l => word_at l (buf_off / NVME_PAGE_SIZE)
  | None => Some (u64 ((if dma =? 0 then buffer else dma) + buf_off))
  end.

Definition lists_configured (bp : nvmeBufferParams) : bool :=
  (0 <? bp_prpEntriesPerCmd bp)
  && (negb (is_null (bp_prpListPool bp)) || negb (bp_prpListPoolDma bp =? 0)).

Definition build_sqe (io : nvmeIoParams) (bp : nvmeBufferParams) (sq_tail : Z)
    (w : nvmeWorkItem) : option nvme_sqe :=
  let blocks := io_lbasPerIo io in
  let xfer_size := blocks * io_lbaSize io in
  let lbas_op := if wi_lbas w =? 0 then blocks else wi_lbas w in
  let is_write := negb (wi_is_write w =? 0) in
  let buf_off := u64 (wi_slot w * xfer_size) in
  let sqeLocal := new_sqe io sq_tail is_write in
  let buffer := if is_write then bp_writeBuffer bp else bp_readBuffer bp in
  let dma := if is_write then bp_writeBufferDma bp else bp_readBufferDma bp in
  let phys_addrs := if is_write then bp_writePagePhysAddrs bp else bp_readPagePhysAddrs bp in
  let has_buf := negb (is_null buffer) && (0 <? bp_bufferSize bp) in
  q ← (if has_buf then
         base_addr ← slot_base phys_addrs dma buffer buf_off;
         let prpSlot := if lists_configured bp && negb (is_null (bp_prpListPool bp))
                        then u64 (bp_prpListPool bp + wi_slot w * bp_prpEntriesPerCmd bp * 8)
                        else NULL in
         prpDma ← (if lists_configured bp then prpListDmaForSlot bp (wi_slot w) else Some 0);
         r ← calculatePrps base_addr (u32 (lbas_op * io_lbaSize io)) sqeLocal prpSlot prpDma
               phys_addrs (u32 (buf_off / NVME_PAGE_SIZE));
         Some (fst r)
       else Some sqeLocal);
  Some (sqeSetup q (wi_lba w) lbas_op).

(** The ring in host memory with the CPU's two counters, and the kernel. *)
Record work_ring := {
  wr_items : list nvmeWorkItem; wr_depth : Z; wr_prod : Z; wr_cons : Z; wr_gpu : gpu_kernel
}.

Definition item_at (r : work_ring) (i : Z) : nvmeWorkItem :=
  nth (Z.to_nat (i mod wr_depth r)) (wr_items r) work_item0.
Definition set_item (i : Z) (w : nvmeWorkItem) (r : work_ring) : list nvmeWorkItem :=
  <[Z.to_nat (i mod wr_depth r) := w]> (wr_items r).

(** One turn of the kernel's loop.  Without a work item it keeps polling;
    with one it writes the command, rings the doorbell, and, when the
    completion has arrived, marks the item done and moves on. *)
Definition gpu_step (io : nvmeIoParams) (bp : nvmeBufferParams) (r : work_ring) : work_ring :=
  let k := wr_gpu r in
  let w := item_at r (gk_index k) in
  let expected_seq := u32 (gk_index k * 2 + 1) in
  if negb (wi_seq w =? expected_seq) then r else
  let sq_tail := (gk_sq_tail k + 1) mod io_queueSize io in
  let cq_head := (gk_cq_head k + 1) mod io_queueSize io in
  {| wr_items := set_item (gk_index k) (with_seq (u32 (expected_seq + 1)) w) r;
     wr_depth := wr_depth r; wr_prod := wr_prod r; wr_cons := wr_cons r;
     wr_gpu := {| gk_index := u32 (gk_index k + 1); gk_sq_tail := sq_tail; gk_cq_head := cq_head;
                  gk_phase := if cq_head =? 0 then Z.lxor (gk_phase k) 1 else gk_phase k;
                  gk_log := gk_log k ++ [build_sqe io bp (gk_sq_tail k) w] |} |}.

(** ** Posting and reaping *)

Definition ring_post (lba lbas is_write slot : Z) (r : work_ring) : Z * work_ring :=
  let idx := wr_prod r in
  if negb (wi_seq (item_at r idx) =? 0) then (- ENOSPC, r) else
  (0, {| wr_items := set_item idx
           {| wi_lba := lba; wi_lbas := lbas; wi_slot := u32 slot; wi_is_write := u32 is_write;
              wi_pad := 0; wi_seq := u32 (idx * 2 + 1) |} r;
         wr_depth := wr_depth r; wr_prod := u32 (idx + 1); wr_cons := wr_cons r;
         wr_gpu := wr_gpu r |}).

Definition ring_reap (r : work_ring) : Z * work_ring :=
  let idx := wr_cons r in
  if wr_prod r <=? idx then (0, r) else
  let done_seq := u32 (idx * 2 + 2) in
  if negb (wi_seq (item_at r idx) =? done_seq) then (0, r) else
  (1, {| wr_items := set_item idx (with_seq 0 (item_at r idx)) r;
         wr_depth := wr_depth r; wr_prod := wr_prod r; wr_cons := u32 (idx + 1);
         wr_gpu := wr_gpu r |}).

(** ** The queue context *)

(** Members of the context that say what it holds: a pointer that is not
    null, a descriptor that is not negative, a flag. *)
Inductive rx_field :=
| F_controller | F_kmod_fd | F_nvme_fd | F_quiesced | F_ns_path | F_data_buf | F_prp_pool
| F_prp_page_dmas | F_queue_state | F_stream | F_work_ring | F_stop_flag | F_persistent.

#[global] Instance rx_field_eq_dec : EqDecision rx_field.
Proof. solve_decision. Defined.

Record rxio_queue_ctx := {
  cx_field : rx_field -> bool;
  cx_lba_size : Z;
  cx_ns_capacity_lbas : Z;
  cx_nsid : Z;
  cx_queue_id : Z;
  cx_queue_size : Z;
  cx_single_buf_size : Z;
  cx_batch_cap : Z;
  cx_buf_params : nvmeBufferParams;
  cx_queue_state : Z * Z;
  cx_io : nvmeIoParams;
  cx_ring : work_ring
}.

Definition set_field (f : rx_field) (b : bool) (c : rxio_queue_ctx) : rxio_queue_ctx :=
  {| cx_field := fun g => if bool_decide (g = f) then b else cx_field c g;
     cx_lba_size := cx_lba_size c; cx_ns_capacity_lbas := cx_ns_capacity_lbas c;
     cx_nsid := cx_nsid c; cx_queue_id := cx_queue_id c; cx_queue_size := cx_queue_size c;
     cx_single_buf_size := cx_single_buf_size c; cx_batch_cap := cx_batch_cap c;
     cx_buf_params := cx_buf_params c; cx_queue_state := cx_queue_state c; cx_io := cx_io c;
     cx_ring := cx_ring c |}.

Definition with_ring (r : work_ring) (c : rxio_queue_ctx) : rxio_queue_ctx :=
  {| cx_field := cx_field c; cx_lba_size := cx_lba_size c;
     cx_ns_capacity_lbas := cx_ns_capacity_lbas c; cx_nsid := cx_nsid c;
     cx_queue_id := cx_queue_id c; cx_queue_size := cx_queue_size c;
     cx_single_buf_size := cx_single_buf_size c; cx_batch_cap := cx_batch_cap c;
     cx_buf_params := cx_buf_params c; cx_queue_state := cx_queue_state c; cx_io := cx_io c;
     cx_ring := r |}.

Definition buf_params0 : nvmeBufferParams :=
  {| bp_readBuffer := NULL; bp_writeBuffer := NULL; bp_bufferSize := 0; bp_readBufferDma := 0;
     bp_writeBufferDma := 0; bp_readPagePhysAddrs := None; bp_writePagePhysAddrs := None;
     bp_prpListPool := NULL; bp_prpListPageDmas := None; bp_prpListPoolDma := 0;
     bp_prpEntriesPerCmd := 0; bp_prpSlotsPerBatch := 0 |}.
Definition io_params0 : nvmeIoParams :=
  {| io_lbaSize := 0; io_queueSize := 0; io_nsid := 0; io_lbasPerIo := 0 |}.
Definition gpu_kernel0 : gpu_kernel :=
  {| gk_index := 0; gk_sq_tail := 0; gk_cq_head := 0; gk_phase := 0; gk_log := [] |}.
Definition work_ring0 : work_ring :=
  {| wr_items := []; wr_depth := 0; wr_prod := 0; wr_cons := 0; wr_gpu := gpu_kernel0 |}.

(** [calloc] leaves every member zero, so the descriptor [nvme_fd] is 0,
    which the tests take for open; [kmod_fd] is set to -1. *)
Definition ctx0 : rxio_queue_ctx :=
  {| cx_field := fun f => bool_decide (f = F_nvme_fd);
     cx_lba_size := 0; cx_ns_capacity_lbas := 0; cx_nsid := 0; cx_queue_id := 0;
     cx_queue_size := 0; cx_single_buf_size := 0; cx_batch_cap := 0;
     cx_buf_params := buf_params0; cx_queue_state := (0, 0); cx_io := io_params0;
     cx_ring := work_ring0 |}.

Definition round_page (n : Z) : Z := Z.land (u64 (n + 4095)) (u64 (Z.lnot 4095)).

Section Shim.
Context {X : Rxio}.

Definition query {A} (f : history -> A) : R A := gets f.
Definition call (s : rx_service) : R Z :=
  let* rc := query (fun h => rx_status h s) in
  emit (EvCall s) ;;;
  ret rc.

(** The call fails with [err] (or with the status itself when [err] is 0). *)
Definition fails (err rc : Z) : Z := if err =? 0 then rc else - err.

Definition rxio_ctx_alloc : R (option rxio_queue_ctx) :=
  let* rc := call SCtxCalloc in
  if rc <? 0 then ret None else acquire RCtx ;;; ret (Some ctx0).
Definition rxio_ctx_free : R unit := release RCtx.

(** A step of [rxio_setup]: a call that on success acquires [r] and on
    failure ends the function with its error. *)
Definition step (s : rx_service) (err : Z) (r : option rx_res) (c : rxio_queue_ctx)
    (k : R (Z * rxio_queue_ctx)) : R (Z * rxio_queue_ctx) :=
  let* rc := call s in
  if rc <? 0 then ret (fails err rc, c)
  else match r with Some r => acquire r ;;; k | None => k end.

Record setup_args := {
  sa_queue_id : Z; sa_queue_size : Z; sa_buf_size : Z; sa_single_size : Z; sa_batch_cap : Z;
  sa_job_index : Z
}.

Definition setup_sizes (a : setup_args) : rxio_queue_ctx :=
  let single := round_page (sa_single_size a) in
  {| cx_field := cx_field (set_field F_controller true ctx0);
     cx_lba_size := 0; cx_ns_capacity_lbas := 0; cx_nsid := 1; cx_queue_id := sa_queue_id a;
     cx_queue_size := sa_queue_size a;
     cx_single_buf_size := if single =? 0 then 4096 else single;
     cx_batch_cap := if sa_batch_cap a <? 1 then 1 else sa_batch_cap a;
     cx_buf_params := buf_params0; cx_queue_state := (0, 0); cx_io := io_params0;
     cx_ring := work_ring0 |}.

(** The pool of PRP lists, for transfers of more than two pages: the list
    pages, then the table of their addresses, freed again when an address
    cannot be found. *)
Definition setup_prp_pool (c : rxio_queue_ctx) : R (Z * rxio_queue_ctx) :=
  let* rc := call SMallocPool in
  if rc <? 0 then ret (- ENOMEM, c) else
  acquire RPrpPool ;;;
  let c := set_field F_prp_pool true c in
  let* rc := call SMallocDmas in
  if rc <? 0 then release RPrpPool ;;; ret (- ENOMEM, c) else
  acquire RPrpDmas ;;;
  let* rc := call SPhysAddr in
  if rc <? 0 then release RPrpDmas ;;; release RPrpPool ;;; ret (- EIO, c)
  else ret (0, set_field F_prp_page_dmas true c).

(** The block size, the capacity and the queue id, from the controller. *)
Definition with_geometry (lba cap qid : Z) (c : rxio_queue_ctx) : rxio_queue_ctx :=
  {| cx_field := cx_field c; cx_lba_size := lba; cx_ns_capacity_lbas := cap;
     cx_nsid := cx_nsid c; cx_queue_id := qid; cx_queue_size := cx_queue_size c;
     cx_single_buf_size := cx_single_buf_size c; cx_batch_cap := cx_batch_cap c;
     cx_buf_params := cx_buf_params c; cx_queue_state := cx_queue_state c; cx_io := cx_io c;
     cx_ring := cx_ring c |}.

Definition setup_query (a : setup_args) (c : rxio_queue_ctx)
    (k : rxio_queue_ctx -> R (Z * rxio_queue_ctx)) : R (Z * rxio_queue_ctx) :=
  step SSetDevice EIO None c (
  step SDetectBdf 0 None c (
  step SQueryLba 0 None c (
  let* lba := query rx_lba_size_of in
  if lba =? 0 then ret (- EIO, c) else
  step SQueryCap 0 None c (
  let* cap := query rx_ns_capacity in
  if negb (sa_queue_id a =? 0) then k (with_geometry lba cap (sa_queue_id a) c) else
  step SQueryMaxQid 0 None c (
  let* max_qid := query rx_max_qid in
  let job_index := if sa_job_index a <? 0 then 0 else sa_job_index a in
  if max_qid <=? u16 job_index then ret (- ERANGE, c)
  else k (with_geometry lba cap (u16 (max_qid - u16 job_index)) c)))))).

(** Quiescing the namespace is attempted, not required. *)
Definition setup_quiesce (c : rxio_queue_ctx) : R rxio_queue_ctx :=
  let* found := call SResolvePath in
  if negb (found =? 0) then ret c else
  let* rc := call SQuiesce in
  if rc =? 0 then acquire RNsQuiesce ;;; ret (set_field F_quiesced true (set_field F_ns_path true c))
  else ret (set_field F_ns_path true c).

Definition NVME_LIST_PAGES : Z := 2.
Definition xfer_pages (c : rxio_queue_ctx) : Z :=
  (cx_single_buf_size c + NVME_PAGE_SIZE - 1) / NVME_PAGE_SIZE.

Definition with_buffers (bp : nvmeBufferParams) (st : Z * Z) (c : rxio_queue_ctx) : rxio_queue_ctx :=
  {| cx_field := cx_field c; cx_lba_size := cx_lba_size c;
     cx_ns_capacity_lbas := cx_ns_capacity_lbas c; cx_nsid := cx_nsid c;
     cx_queue_id := cx_queue_id c; cx_queue_size := cx_queue_size c;
     cx_single_buf_size := cx_single_buf_size c; cx_batch_cap := cx_batch_cap c;
     cx_buf_params := bp; cx_queue_state := st; cx_io := cx_io c; cx_ring := cx_ring c |}.

(** The template of the buffer parameters: one buffer for both directions,
    and the address table of the prefilled lists if transfers need them. *)
Definition buffer_template (a : setup_args) (c : rxio_queue_ctx) (gpuPtr dmaAddr : Z)
    (pages : option (list Z)) (dmas : list Z) : nvmeBufferParams :=
  let lists := NVME_LIST_PAGES <? xfer_pages c in
  {| bp_readBuffer := gpuPtr; bp_writeBuffer := gpuPtr; bp_bufferSize := sa_buf_size a;
     bp_readBufferDma := dmaAddr; bp_writeBufferDma := dmaAddr;
     bp_readPagePhysAddrs := pages; bp_writePagePhysAddrs := pages;
     bp_prpListPool := NULL;
     bp_prpListPageDmas := if lists then Some dmas else None;
     bp_prpListPoolDma := if lists then nth 0 dmas 0 else 0;
     bp_prpEntriesPerCmd := if lists then prpListEntriesPerPage else 0;
     bp_prpSlotsPerBatch := if lists then 1 else 0 |}.

(** From the queue state to the end: the state words, the parameters, the
    stream and the kernel that fills the PRP lists. *)
Definition setup_stream (a : setup_args) (c : rxio_queue_ctx) : R (Z * rxio_queue_ctx) :=
  step SMallocState ENOMEM (Some RQueueState) c (
  let c := set_field F_queue_state true c in
  step SStatePtr EIO None c (
  let* gpuPtr := query rx_data_ptr in
  let* dmaAddr := query rx_data_dma in
  let* pages := query rx_data_pages in
  let* dmas := query rx_prp_pages in
  let c := with_buffers (buffer_template a c gpuPtr dmaAddr pages dmas) (0, 1) c in
  step SStreamCreate EIO (Some RStream) c (
  let c := set_field F_stream true c in
  if NVME_LIST_PAGES * NVME_PAGE_SIZE <? cx_single_buf_size c
  then step SPrefill EIO None c (ret (0, c))
  else ret (0, c)))).

(** The BAR is mapped unless a mapping with references is in the cache
    ([SBar0Cached] answers 0). *)
Definition bar0_get : R Z :=
  let* hit := call SBar0Cached in
  if hit =? 0 then acquire RBar0 ;;; ret 0 else
  let* rc := call SMapPciBar in
  if rc <? 0 then ret rc else acquire RBarMap ;;; acquire RBar0 ;;; ret 0.

(** The last reference leaves the mapping as it is. *)
Definition bar0_put : R unit := release RBar0.

(** From the module's device file to the data buffer and the lists. *)
Definition setup_acquire (a : setup_args) (c : rxio_queue_ctx) : R (Z * rxio_queue_ctx) :=
  step SOpenKmod 0 (Some RKmodFd) c (
  let c := set_field F_kmod_fd true c in
  let* rc := bar0_get in
  if rc <? 0 then ret (rc, c) else
  step SCreateQueue 0 (Some RNvmeQueue) c (
  acquire RQueueMemory ;;;
  let* rc := call SOpenNvme in
  if rc <? 0 then ret (rc, set_field F_nvme_fd false c) else
  acquire RNvmeFd ;;;
  let c := set_field F_nvme_fd true c in
  let* c := setup_quiesce c in
  step SAllocBuffer ENOMEM (Some RDataBuf) c (
  let c := set_field F_data_buf true c in
  if NVME_LIST_PAGES <? xfer_pages c then
    let* out := setup_prp_pool c in
    let (rc, c) := out : Z * rxio_queue_ctx in
    if rc <? 0 then ret (rc, c) else setup_stream a c
  else setup_stream a c))).

Definition rxio_setup (a : setup_args) : R (Z * rxio_queue_ctx) :=
  setup_query a (setup_sizes a) (setup_acquire a).

(** ** Starting, stopping and tearing down *)

Definition start_ring (depth : Z) (c : rxio_queue_ctx) : work_ring :=
  {| wr_items := replicate (Z.to_nat depth) work_item0; wr_depth := depth; wr_prod := 0;
     wr_cons := 0;
     wr_gpu := {| gk_index := 0; gk_sq_tail := Z.land (fst (cx_queue_state c)) 65535;
                  gk_cq_head := Z.shiftr (fst (cx_queue_state c)) 16;
                  gk_phase := Z.land (snd (cx_queue_state c)) 1; gk_log := [] |} |}.

Definition with_io (io : nvmeIoParams) (r : work_ring) (c : rxio_queue_ctx) : rxio_queue_ctx :=
  {| cx_field := cx_field c; cx_lba_size := cx_lba_size c;
     cx_ns_capacity_lbas := cx_ns_capacity_lbas c; cx_nsid := cx_nsid c;
     cx_queue_id := cx_queue_id c; cx_queue_size := cx_queue_size c;
     cx_single_buf_size := cx_single_buf_size c; cx_batch_cap := cx_batch_cap c;
     cx_buf_params := cx_buf_params c; cx_queue_state := cx_queue_state c; cx_io := io;
     cx_ring := r |}.

Definition persistent_io (c : rxio_queue_ctx) : nvmeIoParams :=
  {| io_lbaSize := cx_lba_size c; io_queueSize := cx_queue_size c; io_nsid := cx_nsid c;
     io_lbasPerIo := if 0 <? cx_lba_size c then u32 (cx_single_buf_size c / cx_lba_size c) else 1 |}.

Definition rxio_start_persistent (ring_depth : Z) (c : rxio_queue_ctx) : R (Z * rxio_queue_ctx) :=
  let depth := if ring_depth <? 1 then 1 else ring_depth in
  let c := set_field F_persistent false c in
  step SMallocRing ENOMEM (Some RWorkRing) c (
  let c := set_field F_work_ring true c in
  step SRingPtr EIO None c (
  step SMallocStop ENOMEM (Some RStopFlag) c (
  let c := set_field F_stop_flag true c in
  step SStopPtr EIO None c (
  step SLaunch EIO (Some RGpuKernel) c (
  ret (0, set_field F_persistent true (with_io (persistent_io c) (start_ring depth c) c))))))).

(** If the member says so, give the resource back and clear the member. *)
Definition drop (f : rx_field) (r : rx_res) (c : rxio_queue_ctx) : R rxio_queue_ctx :=
  if cx_field c f then release r ;;; ret (set_field f false c) else ret c.

Definition rxio_stop_persistent (c : rxio_queue_ctx) : R rxio_queue_ctx :=
  if negb (cx_field c F_persistent) then ret c else
  let* c := drop F_persistent RGpuKernel c in
  let* c := drop F_work_ring RWorkRing c in
  drop F_stop_flag RStopFlag c.

Definition rxio_teardown (c : rxio_queue_ctx) : R rxio_queue_ctx :=
  if negb (cx_field c F_controller) then ret c else
  let c := set_field F_controller false c in
  let* c := rxio_stop_persistent c in
  let* c := drop F_stream RStream c in
  let* c := drop F_queue_state RQueueState c in
  bar0_put ;;;
  (if cx_field c F_quiesced && cx_field c F_kmod_fd && cx_field c F_ns_path
   then release RNsQuiesce else ret tt) ;;;
  (if cx_field c F_nvme_fd then release RNvmeQueue else ret tt) ;;;
  let* c := drop F_nvme_fd RNvmeFd c in
  let* c := drop F_data_buf RDataBuf c in
  let* c := drop F_prp_page_dmas RPrpDmas c in
  let* c := drop F_prp_pool RPrpPool c in
  drop F_kmod_fd RKmodFd c.

Definition rxio_post_work (c : rxio_queue_ctx) (lba lbas is_write slot : Z) : Z * rxio_queue_ctx :=
  let (rc, r) := ring_post lba lbas is_write slot (cx_ring c) in (rc, with_ring r c).
Definition rxio_reap (c : rxio_queue_ctx) : Z * rxio_queue_ctx :=
  let (rc, r) := ring_reap (cx_ring c) in (rc, with_ring r c).
Definition rxio_lba_size (c : rxio_queue_ctx) : Z := cx_lba_size c.
Definition rxio_ns_capacity_lbas (c : rxio_queue_ctx) : Z := cx_ns_capacity_lbas c.
End Shim.

(** ** The ring as a queue

    [ring_inv io bp jobs c g r]: of the jobs posted so far, in order, the
    first [c] have been reaped and the first [g] done.  Counters are 32 bits
    wide and the invariant holds as long as fewer than [2^32] jobs have been
    posted.  The sequence word of a job that is still in the ring says
    whether it is done; a free place has the word 0. *)

Definition wrap32 : Z := 4294967296.

Definition seq_of (g j : Z) : Z := if j <? g then u32 (j * 2 + 2) else u32 (j * 2 + 1).

Record ring_inv (io : nvmeIoParams) (bp : nvmeBufferParams) (jobs : list nvmeWorkItem)
    (c g : Z) (r : work_ring) : Prop := {
  ri_depth : 0 < wr_depth r;
  ri_length : Z.of_nat (length (wr_items r)) = wr_depth r;
  ri_order : 0 <= c <= g /\ g <= Z.of_nat (length jobs) /\
             Z.of_nat (length jobs) - c <= wr_depth r /\ Z.of_nat (length jobs) < wrap32;
  ri_prod : wr_prod r = Z.of_nat (length jobs);
  ri_cons : wr_cons r = c;
  ri_index : gk_index (wr_gpu r) = g;
  ri_posted : forall j w, c <= j < Z.of_nat (length jobs) -> jobs !! Z.to_nat j = Some w ->
              item_at r j = with_seq (seq_of g j) w;
  ri_free : forall j, Z.of_nat (length jobs) <= j < c + wr_depth r -> wi_seq (item_at r j) = 0;
  ri_qsize : 0 < io_queueSize io;
  ri_tail : gk_sq_tail (wr_gpu r) = g mod io_queueSize io;
  ri_log : gk_log (wr_gpu r)
           = imap (fun j w => build_sqe io bp (Z.of_nat j mod io_queueSize io) w)
               (take (Z.to_nat g) jobs)
}.

(** Places that are less than a turn apart are different. *)
Lemma place_inj d i j : 0 < d -> i mod d = j mod d -> - d < i - j < d -> i = j.
Proof.
  intros Hd E Hij. pose proof (Z.div_mod i d ltac:(lia)) as Hi.
  pose proof (Z.div_mod j d ltac:(lia)) as Hj. rewrite E in Hi.
  assert (-1 < i / d - j / d < 1) by nia.
  assert (i / d = j / d) as Eq by lia. rewrite Eq in Hi. lia.
Qed.

Lemma item_at_set r r' i j w :
  0 < wr_depth r -> Z.of_nat (length (wr_items r)) = wr_depth r ->
  wr_items r' = set_item j w r -> wr_depth r' = wr_depth r ->
  item_at r' i = if i mod wr_depth r =? j mod wr_depth r then w else item_at r i.
Proof.
  intros Hd Hl Hi Hd'. unfold item_at. rewrite Hi, Hd'. unfold set_item.
  pose proof (Z.mod_pos_bound i (wr_depth r) Hd). pose proof (Z.mod_pos_bound j (wr_depth r) Hd).
  rewrite !nth_lookup. destruct (i mod wr_depth r =? j mod wr_depth r) eqn:E; bool_to_prop.
  - rewrite E, list_lookup_insert_eq by lia. done.
  - rewrite list_lookup_insert_ne by lia. done.
Qed.

Lemma pending_odd j : u32 (j * 2 + 1) mod 2 = 1.
Proof.
  unfold u32. rewrite Z.mod_mod_divide by by exists 2147483648.
  rewrite Z.add_comm, Z.mod_add; [done|lia].
Qed.
Lemma done_even j : u32 (j * 2 + 2) mod 2 = 0.
Proof.
  unfold u32. rewrite Z.mod_mod_divide by by exists 2147483648.
  replace (j * 2 + 2) with ((j + 1) * 2) by lia. apply Z.mod_mul. lia.
Qed.
Lemma pending_not_zero j : u32 (j * 2 + 1) <> 0.
Proof. pose proof (pending_odd j). intros E. by rewrite E in H. Qed.
Lemma pending_not_done i j : u32 (i * 2 + 1) <> u32 (j * 2 + 2).
Proof. pose proof (pending_odd i). pose proof (done_even j). congruence. Qed.

Lemma with_seq_with_seq m n w : with_seq m (with_seq n w) = with_seq m w.
Proof. done. Qed.

Section RingInvariant.
Context (io : nvmeIoParams) (bp : nvmeBufferParams).

Lemma ring_inv_start depth c0 :
  0 < depth -> 0 < io_queueSize io -> fst (cx_queue_state c0) = 0 ->
  ring_inv io bp [] 0 0 (start_ring depth c0).
Proof.
  intros Hd Hq Hs. split; cbn -[item_at]; try done; try (unfold wrap32; lia).
  - rewrite length_replicate. lia.
  - intros j Hj. unfold item_at. cbn. rewrite nth_lookup, lookup_replicate_2; [done|].
    pose proof (Z.mod_pos_bound j depth Hd). lia.
  - by rewrite Hs, Z.mod_0_l by lia.
Qed.

(** The place that the next job will take. *)
Lemma ring_full_place jobs c g r :
  ring_inv io bp jobs c g r -> Z.of_nat (length jobs) = c + wr_depth r ->
  item_at r (Z.of_nat (length jobs)) = item_at r c.
Proof.
  intros Hr E. unfold item_at. rewrite E. do 2 f_equal.
  replace (c + wr_depth r) with (c + 1 * wr_depth r) by lia. apply Z.mod_add.
  pose proof (ri_depth _ _ _ _ _ _ Hr). lia.
Qed.

Lemma posted_at jobs c g r j :
  ring_inv io bp jobs c g r -> c <= j < Z.of_nat (length jobs) ->
  exists w, jobs !! Z.to_nat j = Some w /\ item_at r j = with_seq (seq_of g j) w.
Proof.
  intros Hr Hj. pose proof (ri_order _ _ _ _ _ _ Hr).
  destruct (lookup_lt_is_Some_2 jobs (Z.to_nat j)) as [w Ew]; [lia|].
  exists w. split; [done|]. by apply (ri_posted _ _ _ _ _ _ Hr).
Qed.

(** Posting with room appends a job. *)
Lemma ring_post_ok jobs c g r lba lbas iw slot :
  ring_inv io bp jobs c g r ->
  Z.of_nat (length jobs) - c < wr_depth r -> Z.of_nat (length jobs) + 1 < wrap32 ->
  exists r', ring_post lba lbas iw slot r = (0, r') /\ wr_depth r' = wr_depth r /\
    ring_inv io bp
      (jobs ++ [{| wi_lba := lba; wi_lbas := lbas; wi_slot := u32 slot; wi_is_write := u32 iw;
                   wi_pad := 0; wi_seq := 0 |}]) c g r'.
Proof.
  intros Hr Hroom Hmax. destruct Hr as [Hd Hl Ho Hp Hc Hi Hposted Hfree Hq Ht Hlog].
  set (P := Z.of_nat (length jobs)) in *. unfold ring_post. rewrite Hp, (Hfree P) by lia.
  eexists. split; [done|]. split; [done|].
  assert (forall i, c <= i < c + wr_depth r -> i <> P -> (i mod wr_depth r =? P mod wr_depth r) = false)
    as Hne.
  { intros i Hi' Hn. apply Z.eqb_neq. intros E. apply Hn. apply (place_inj _ _ _ Hd E). lia. }
  pose proof (fun i w => item_at_set r {|
    wr_items := set_item P w r; wr_depth := wr_depth r; wr_prod := u32 (P + 1); wr_cons := wr_cons r;
    wr_gpu := wr_gpu r |} i P w Hd Hl eq_refl eq_refl) as Hat.
  split; cbn [wr_depth wr_prod wr_cons wr_gpu wr_items]; rewrite ?length_app; cbn [length]; try done.
  - unfold set_item. by rewrite length_insert.
  - fold P. lia.
  - fold P. rewrite u32_small by (unfold wrap32 in *; lia). lia.
  - intros j w Hj Hw. rewrite Hat. destruct (decide (j = P)) as [->|Hn].
    + rewrite Z.eqb_refl. unfold P in Hw. rewrite Nat2Z.id, list_lookup_middle in Hw by done.
      injection Hw as <-. unfold with_seq, seq_of. cbn.
      by rewrite (proj2 (Z.ltb_ge _ _)) by lia.
    + rewrite Hne by lia. apply Hposted; [lia|]. by rewrite lookup_app_l in Hw by lia.
  - intros j Hj. rewrite Hat, Hne by lia. apply Hfree. lia.
  - rewrite take_app_le by lia. done.
Qed.

(** Reaping takes the oldest job if it is done, and nothing otherwise. *)
Lemma ring_reap_ok jobs c g r :
  ring_inv io bp jobs c g r -> c < g ->
  exists r', ring_reap r = (1, r') /\ wr_depth r' = wr_depth r /\ ring_inv io bp jobs (c + 1) g r'.
Proof.
  intros Hr Hlt. pose proof (ri_order _ _ _ _ _ _ Hr) as Ho.
  destruct (posted_at _ _ _ _ c Hr) as (w & Ew & Eat); [lia|].
  destruct Hr as [Hd Hl _ Hp Hc Hi Hposted Hfree Hq Ht Hlog].
  set (P := Z.of_nat (length jobs)) in *.
  unfold ring_reap. rewrite Hp, Hc, Eat, (proj2 (Z.leb_gt _ _)) by lia.
  unfold seq_of at 1. rewrite (proj2 (Z.ltb_lt _ _)) by lia. cbn [wi_seq with_seq].
  rewrite Z.eqb_refl. cbn [negb]. eexists. split; [done|]. split; [done|].
  match goal with |- ring_inv _ _ _ _ _ ?r' =>
    pose proof (fun i => item_at_set r r' i c _ Hd Hl eq_refl eq_refl) as Hat end.
  split; cbn [wr_depth wr_prod wr_cons wr_gpu wr_items]; try done.
  - unfold set_item. by rewrite length_insert.
  - fold P. lia.
  - rewrite u32_small; unfold wrap32 in *; lia.
  - fold P. intros j w' Hj Hw'. rewrite Hat.
    destruct (j mod wr_depth r =? c mod wr_depth r) eqn:E; bool_to_prop.
    + apply (place_inj _ _ _ Hd) in E; lia.
    + apply Hposted; [lia|done].
  - fold P. intros j Hj. rewrite Hat.
    destruct (j mod wr_depth r =? c mod wr_depth r) eqn:E; bool_to_prop; [done|].
    apply Hfree. destruct (decide (j = c + wr_depth r)) as [->|]; [|lia].
    exfalso. apply E. replace (c + wr_depth r) with (c + 1 * wr_depth r) by lia.
    apply Z.mod_add. lia.
Qed.

Lemma ring_reap_wait jobs g r : ring_inv io bp jobs g g r -> ring_reap r = (0, r).
Proof.
  intros Hr. pose proof (ri_order _ _ _ _ _ _ Hr) as Ho.
  unfold ring_reap. rewrite (ri_prod _ _ _ _ _ _ Hr), (ri_cons _ _ _ _ _ _ Hr).
  destruct (Z.of_nat (length jobs) <=? g) eqn:E; bool_to_prop; [done|].
  destruct (posted_at _ _ _ _ g Hr) as (w & _ & ->); [lia|].
  unfold seq_of. rewrite Z.ltb_irrefl. cbn [wi_seq with_seq].
  rewrite (proj2 (Z.eqb_neq _ _)); [done|]. apply pending_not_done.
Qed.

(** One turn of the kernel does the oldest job that is not done. *)
Lemma gpu_step_work jobs c g r :
  ring_inv io bp jobs c g r -> g < Z.of_nat (length jobs) ->
  wr_depth (gpu_step io bp r) = wr_depth r /\ ring_inv io bp jobs c (g + 1) (gpu_step io bp r).
Proof.
  intros Hr Hlt. pose proof (ri_order _ _ _ _ _ _ Hr) as Ho.
  destruct (posted_at _ _ _ _ g Hr) as (w & Ew & Eat); [lia|].
  destruct Hr as [Hd Hl _ Hp Hc Hi Hposted Hfree Hq Ht Hlog].
  set (P := Z.of_nat (length jobs)) in *.
  assert (seq_of g g = u32 (g * 2 + 1)) as Es by (unfold seq_of; by rewrite Z.ltb_irrefl).
  rewrite Es in Eat. unfold gpu_step. rewrite Hi, Eat. cbn [wi_seq with_seq].
  rewrite Z.eqb_refl. cbn [negb]. split; [done|].
  match goal with |- ring_inv _ _ _ _ _ ?r' =>
    pose proof (fun i => item_at_set r r' i g
      (with_seq (u32 (u32 (g * 2 + 1) + 1)) (with_seq (u32 (g * 2 + 1)) w)) Hd Hl eq_refl eq_refl) as Hat end.
  assert (forall j, c <= j < c + wr_depth r -> j <> g ->
            (j mod wr_depth r =? g mod wr_depth r) = false) as Hne.
  { intros j Hj Hn. apply Z.eqb_neq. intros E. apply Hn, (place_inj _ _ _ Hd E). lia. }
  split; cbn [wr_depth wr_prod wr_cons wr_gpu wr_items gk_index gk_sq_tail gk_log]; try done.
  - unfold set_item. by rewrite length_insert.
  - fold P. lia.
  - apply u32_small. unfold wrap32 in *. lia.
  - fold P. intros j w' Hj Hw'. rewrite Hat. destruct (decide (j = g)) as [->|Hn].
    + rewrite Z.eqb_refl. assert (w' = w) as -> by congruence. rewrite !with_seq_with_seq.
      f_equal. unfold seq_of. rewrite (proj2 (Z.ltb_lt _ _)) by lia.
      unfold u32. rewrite Z.add_mod_idemp_l by lia. f_equal. lia.
    + rewrite Hne, (Hposted j w') by (lia || done). f_equal. unfold seq_of.
      destruct (j <? g) eqn:E; bool_to_prop.
      * by rewrite (proj2 (Z.ltb_lt _ _)) by lia.
      * by rewrite (proj2 (Z.ltb_ge _ _)) by lia.
  - fold P. intros j Hj. rewrite Hat, Hne by lia. by apply Hfree.
  - by rewrite Ht, Z.add_mod_idemp_l by lia.
  - replace (Z.to_nat (g + 1)) with (S (Z.to_nat g)) by lia.
    rewrite (take_S_r _ _ w) by done. rewrite imap_app, Hlog. f_equal. cbn [imap].
    rewrite length_take_le by lia. cbn. rewrite Nat.add_0_r, Z2Nat.id by lia.
    by rewrite Ht.
Qed.

(** With everything done the kernel keeps polling: the word of a free place
    is 0 and that of a done job even. *)
Lemma gpu_step_idle jobs c r :
  ring_inv io bp jobs c (Z.of_nat (length jobs)) r -> gpu_step io bp r = r.
Proof.
  intros Hr. pose proof (ri_order _ _ _ _ _ _ Hr) as Ho. unfold gpu_step.
  rewrite (ri_index _ _ _ _ _ _ Hr). set (P := Z.of_nat (length jobs)) in *.
  assert (wi_seq (item_at r P) <> u32 (P * 2 + 1)) as Hne.
  { destruct (decide (P = c + wr_depth r)) as [E|Hn].
    - unfold P. rewrite (ring_full_place _ _ _ _ Hr) by done. fold P.
      pose proof (ri_depth _ _ _ _ _ _ Hr).
      destruct (posted_at _ _ _ _ c Hr) as (w & _ & ->); [fold P; lia|].
      unfold seq_of. fold P. rewrite (proj2 (Z.ltb_lt _ _)) by lia.
      intros E'. symmetry in E'. by apply pending_not_done in E'.
    - rewrite (ri_free _ _ _ _ _ _ Hr) by (fold P; lia). intros E'. symmetry in E'.
      by apply pending_not_zero in E'. }
  by rewrite (proj2 (Z.eqb_neq _ _) Hne).
Qed.

Lemma gpu_run_ok n jobs c g r :
  ring_inv io bp jobs c g r ->
  wr_depth (Nat.iter n (gpu_step io bp) r) = wr_depth r /\
  exists g', g <= g' /\ (g' = Z.of_nat (length jobs) \/ g' = g + Z.of_nat n) /\
    ring_inv io bp jobs c g' (Nat.iter n (gpu_step io bp) r).
Proof.
  intros Hr. pose proof (ri_order _ _ _ _ _ _ Hr) as Ho.
  induction n as [|n (Hd & g' & Hg & Hor & IH)]; [|rewrite !Nat.iter_succ].
  { split; [done|]. exists g. split_and!; [lia|right; lia|done]. }
  destruct (decide (g' = Z.of_nat (length jobs))) as [->|Hn].
  - rewrite (gpu_step_idle jobs c) by done. split; [done|]. eauto.
  - destruct Hor as [|Hg']; [done|]. pose proof (ri_order _ _ _ _ _ _ IH).
    destruct (gpu_step_work _ _ _ _ IH) as [Hd' Hi]; [lia|].
    split; [congruence|]. exists (g' + 1). split_and!; [lia|right; lia|done].
Qed.
End RingInvariant.

(** ** The command of a work item *)

(** Word [i] of the PRP list that [rxio_prp_prefill] writes for a slot. *)
Definition prefill_word (pages : option (list Z)) (dma single_buf_pages slot i : Z) : option Z :=
  match pages with
  | Some l => word_at l (slot * single_buf_pages + 1 + i)
  | None => Some (dma + slot * single_buf_pages * 4096 + (i + 1) * 4096)
  end.
Definition prefill_entries (single_buf_pages : Z) : Z :=
  let n := if 1 <? single_buf_pages then single_buf_pages - 1 else 0 in
  if prpListEntriesPerPage <? n then prpListEntriesPerPage else n.

(** What memory holds after the prefill: the list of each slot at the
    address given for it. *)
Definition prefilled (words : Z -> Z) (dmas : list Z) (pages : option (list Z))
    (dma single_buf_pages : Z) : Prop :=
  forall slot a i, word_at dmas slot = Some a -> 0 <= i < prefill_entries single_buf_pages ->
    Some (words (a + 8 * i)) = prefill_word pages dma single_buf_pages slot i.

(** The data buffer and the sizes a queue was set up with: a page-aligned
    buffer of whole slots, contiguous or with a page table that covers it,
    slots of whole blocks and of at most 513 pages (one PRP list page), and
    the address of a list for each slot. *)
Record buffer_ok (a : setup_args) (c : rxio_queue_ctx) (gpuPtr dma : Z)
    (pages : option (list Z)) (dmas : list Z) : Prop := {
  bo_slot : 0 < cx_single_buf_size c <= 513 * NVME_PAGE_SIZE;
  bo_aligned : cx_single_buf_size c mod NVME_PAGE_SIZE = 0;
  bo_lba : 0 < cx_lba_size c /\ cx_single_buf_size c mod cx_lba_size c = 0;
  bo_ptr : gpuPtr <> NULL;
  bo_size : 0 < sa_buf_size a <= 2 ^ 40;
  bo_data : match pages with
            | None => 0 < dma /\ dma mod NVME_PAGE_SIZE = 0 /\
                      dma + sa_buf_size a <= 18446744073709551616
            | Some l => sa_buf_size a <= Z.of_nat (length l) * NVME_PAGE_SIZE /\
                        Forall (fun p => 0 <= p < 18446744073709551616 /\ p mod NVME_PAGE_SIZE = 0) l
            end;
  bo_lists : sa_buf_size a <= Z.of_nat (length dmas) * cx_single_buf_size c
}.

(** Where byte [k] of the data buffer lives on the bus. *)
Definition data_byte (pages : option (list Z)) (dma k : Z) : option Z :=
  match pages with
  | None => Some (dma + k)
  | Some l => p ← word_at l (k / NVME_PAGE_SIZE); Some (p + k mod NVME_PAGE_SIZE)
  end.

Section Command.
Context (a : setup_args) (c : rxio_queue_ctx) (gpuPtr dma : Z) (pages : option (list Z))
  (dmas : list Z).
Hypothesis Hok : buffer_ok a c gpuPtr dma pages dmas.

Let single := cx_single_buf_size c.
Let sp := single / NVME_PAGE_SIZE.

Lemma single_pages : single = sp * NVME_PAGE_SIZE /\ 0 < sp <= 513.
Proof.
  destruct Hok as [Hs Hal _ _ _ _ _]. fold single in Hs, Hal.
  pose proof (Z.div_mod single NVME_PAGE_SIZE ltac:(done)) as Hd. rewrite Hal in Hd. fold sp in Hd.
  unfold NVME_PAGE_SIZE in *. lia.
Qed.

(** The bus address of the start of slot [s] and its request. *)
Lemma slot_request s size :
  0 <= s -> (s + 1) * single <= sa_buf_size a -> 0 < size <= single ->
  exists addr, slot_base pages dma gpuPtr (s * single) = Some addr /\
    addr mod NVME_PAGE_SIZE = 0 /\ (pages = None -> addr = dma + s * single) /\
    prp_request addr size pages (s * sp).
Proof.
  intros Hs Hfit Hsz. destruct single_pages as [Esp Hsp]. destruct Hok as [Hb _ _ _ Hbs Hd _].
  fold single in Hb. unfold slot_base, NVME_PAGE_SIZE in *.
  assert (s * single / 4096 = s * sp) as Eoff.
  { rewrite Esp, Z.mul_assoc. apply Z.div_mul. lia. }
  destruct pages as [l|].
  - destruct Hd as [Hlen Hall]. rewrite Eoff.
    destruct (word_at_total l (s * sp)) as [p Ep]; [nia|]. exists p. split; [done|].
    pose proof Ep as [_ Hin]%word_at_lookup.
    destruct (Forall_lookup_1 _ _ _ _ Hall Hin) as [Hp0 Hpa]. split; [done|]. split; [done|].
    split; unfold NVME_PAGE_SIZE; rewrite ?Hpa; try nia.
    split_and!; [nia..|by rewrite Z.sub_0_r].
  - destruct Hd as (Hd0 & Hda & Hdm). rewrite (proj2 (Z.eqb_neq dma 0)) by lia.
    rewrite u64_small by nia. eexists. split; [done|].
    assert ((dma + s * single) mod 4096 = 0) as Ea.
    { rewrite Esp, Z.mul_assoc, Z.mod_add by lia. done. }
    split; [done|]. split; [done|]. split; unfold NVME_PAGE_SIZE; rewrite ?Ea; nia.
Qed.

Lemma slot_byte s size addr k :
  0 <= s -> 0 <= k < size ->
  addr mod NVME_PAGE_SIZE = 0 -> (pages = None -> addr = dma + s * single) ->
  buffer_byte addr pages (s * sp) k = data_byte pages dma (s * single + k).
Proof.
  intros Hs Hk Hal Hn. destruct single_pages as [Esp Hsp]. unfold buffer_byte, data_byte.
  destruct pages as [l|].
  - rewrite Hal, Z.add_0_l, Esp. unfold NVME_PAGE_SIZE in *.
    replace (s * (sp * 4096) + k) with (k + s * sp * 4096) by lia.
    rewrite Z.div_add, Z.mod_add by lia. by rewrite (Z.add_comm (s * sp)).
  - rewrite Hn by done. f_equal. lia.
Qed.

(** The prefilled words are the later pages of the slot. *)
Lemma prefill_matches s size addr i :
  0 <= s -> (s + 1) * single <= sa_buf_size a -> 0 <= i -> (i + 1) * NVME_PAGE_SIZE < single ->
  addr mod NVME_PAGE_SIZE = 0 -> (pages = None -> addr = dma + s * single) ->
  prp_request addr size pages (s * sp) ->
  0 <= i < prefill_entries sp /\
  prefill_word pages dma sp s i = later_page addr NVME_PAGE_SIZE pages (s * sp) i.
Proof.
  intros Hs Hfit Hi Hlt Hal Hn Hr. destruct single_pages as [Esp Hsp].
  destruct Hok as [_ _ _ _ Hbs Hd _]. unfold NVME_PAGE_SIZE in *. split.
  - unfold prefill_entries. change prpListEntriesPerPage with 512.
    destruct (1 <? sp) eqn:E1; bool_to_prop; [|lia].
    destruct (512 <? sp - 1) eqn:E2; bool_to_prop; lia.
  - unfold prefill_word, later_page. destruct pages as [l|].
    + rewrite u32_small; [done|]. nia.
    + destruct Hd as (Hd0 & Hda & Hdm). rewrite Hn in * by done.
      rewrite (u64_small (dma + s * single + 4096)) by nia.
      rewrite page_base_mod by nia. unfold NVME_PAGE_SIZE.
      replace (dma + s * single + 4096) with (dma + s * single + 1 * 4096) by lia.
      rewrite Z.mod_add, Hal by lia. rewrite u64_small by nia. f_equal. lia.
Qed.

(** A transfer as the kernel computes it is one slot. *)
Lemma persistent_xfer : io_lbasPerIo (persistent_io c) * cx_lba_size c = single.
Proof.
  destruct Hok as [Hb _ [Hlba Hmod] _ _ _ _]. fold single in Hb, Hmod. cbn -[u32]. fold single.
  pose proof (Z.div_mod single (cx_lba_size c) ltac:(lia)).
  rewrite (proj2 (Z.ltb_lt _ _) Hlba), u32_small; [lia|].
  unfold NVME_PAGE_SIZE in Hb. split; [apply Z.div_pos; lia|].
  apply Z.div_lt_upper_bound; lia.
Qed.

(** The address of a slot's list is known whenever lists are needed. *)
Lemma list_dma_known s :
  let bp := buffer_template a c gpuPtr dma pages dmas in
  0 <= s -> (s + 1) * single <= sa_buf_size a ->
  exists prpDma,
    (if lists_configured bp then prpListDmaForSlot bp s else Some 0) = Some prpDma /\
    (2 * NVME_PAGE_SIZE < single -> nth 0 dmas 0 <> 0 -> word_at dmas s = Some prpDma).
Proof.
  intros bp Hs Hfit. destruct single_pages as [Esp Hsp].
  pose proof (bo_lists _ _ _ _ _ _ Hok) as Hd. fold single in Hd.
  destruct (word_at_total dmas s) as [x Ex]; [unfold NVME_PAGE_SIZE in *; nia|].
  unfold bp, lists_configured, prpListDmaForSlot, buffer_template, xfer_pages. fold single.
  cbn [bp_prpEntriesPerCmd bp_prpListPool bp_prpListPoolDma bp_prpListPageDmas].
  destruct (NVME_LIST_PAGES <? (single + NVME_PAGE_SIZE - 1) / NVME_PAGE_SIZE) eqn:E; bool_to_prop.
  - rewrite Ex. destruct (_ && _) eqn:Eb; [by eauto|]. exists 0. split; [done|].
    intros _ Hnz. change (0 <? prpListEntriesPerPage) with true in Eb.
    rewrite (proj2 (Z.eqb_neq _ _) Hnz) in Eb. done.
  - exists 0. split; [done|]. intros Hbig. exfalso. unfold NVME_LIST_PAGES, NVME_PAGE_SIZE in *.
    assert (2 < (single + 4096 - 1) / 4096); [|lia].
    apply Z.lt_le_trans with 3; [lia|]. apply Z.div_le_lower_bound; lia.
Qed.
End Command.

(** The addresses [build_sqe] computes for a job of a slot inside the
    buffer. *)
Lemma build_sqe_slot a c gpuPtr dma pages dmas t w :
  buffer_ok a c gpuPtr dma pages dmas -> nth 0 dmas 0 <> 0 ->
  0 <= wi_slot w -> (wi_slot w + 1) * cx_single_buf_size c <= sa_buf_size a ->
  0 < wi_lbas w -> wi_lbas w * cx_lba_size c <= cx_single_buf_size c ->
  let q0 := new_sqe (persistent_io c) t (negb (wi_is_write w =? 0)) in
  exists addr p2,
    build_sqe (persistent_io c) (buffer_template a c gpuPtr dma pages dmas) t w
      = Some (sqeSetup (with_prps addr p2 q0) (wi_lba w) (wi_lbas w)) /\
    forall words, prefilled words dmas pages dma (cx_single_buf_size c / NVME_PAGE_SIZE) ->
      forall k, 0 <= k < wi_lbas w * cx_lba_size c ->
        data_byte pages dma (wi_slot w * cx_single_buf_size c + k)
        = Some (controller_byte (with_prps addr p2 q0) (wi_lbas w * cx_lba_size c) words k).
Proof.
  intros Hok Hnz Hs Hfit Hl Hsz q0. set (single := cx_single_buf_size c) in *.
  destruct (single_pages _ _ _ _ _ _ Hok) as [Esp Hsp]. fold single in Esp, Hsp.
  pose proof (bo_size _ _ _ _ _ _ Hok) as Hbs. pose proof (bo_slot _ _ _ _ _ _ Hok) as Hb.
  destruct (bo_lba _ _ _ _ _ _ Hok) as [Hlba _].
  fold single in Hb. set (size := wi_lbas w * cx_lba_size c) in *.
  assert (0 < size) by (unfold size; nia).
  destruct (slot_request _ _ _ _ _ _ Hok (wi_slot w) size) as (addr & Ea & Hal & Hn & Hr); [done..|].
  destruct (list_dma_known _ _ _ _ _ _ Hok (wi_slot w)) as (prpDma & Ed & Hdma); [done..|].
  destruct (calculatePrps_prefilled _ _ q0 prpDma _ _ Hr) as (p2 & Ep & Hbytes).
  exists addr, p2. fold single in Ea, Hn, Hr, Ep, Hbytes, Hdma. split.
  - unfold build_sqe. change (io_lbaSize (persistent_io c)) with (cx_lba_size c).
    rewrite (persistent_xfer _ _ _ _ _ _ Hok). fold single size.
    rewrite (proj2 (Z.eqb_neq (wi_lbas w) 0)) by lia. fold size.
    rewrite (u64_small (wi_slot w * single)) by nia.
    rewrite (u32_small size) by (unfold NVME_PAGE_SIZE in Hb; lia).
    assert (u32 (wi_slot w * single / NVME_PAGE_SIZE) = wi_slot w * (single / NVME_PAGE_SIZE)) as ->.
    { rewrite Esp at 1. rewrite Z.mul_assoc, Z.div_mul by done. apply u32_small.
      unfold NVME_PAGE_SIZE in *. nia. }
    rewrite Ed. fold q0. cbn [buffer_template bp_readBuffer bp_writeBuffer bp_bufferSize
      bp_readBufferDma bp_writeBufferDma bp_readPagePhysAddrs bp_writePagePhysAddrs bp_prpListPool].
    assert (forall (b : bool) (A : Type) (x : A), (if b then x else x) = x) as Hif by by intros [].
    rewrite !Hif, (proj2 (Z.eqb_neq gpuPtr NULL) (bo_ptr _ _ _ _ _ _ Hok)).
    rewrite (proj2 (Z.ltb_lt 0 (sa_buf_size a))) by lia. rewrite andb_false_r.
    cbn [negb andb]. rewrite Ea. cbn [mbind option_bind]. by rewrite Ep.
  - intros words Hw k Hk. rewrite <- (slot_byte _ _ _ _ _ _ Hok (wi_slot w) size addr) by done.
    apply Hbytes; [|done]. rewrite Hal. intros Hbig i Hi Hlt.
    destruct (prefill_matches _ _ _ _ _ _ Hok (wi_slot w) size addr i) as [Hpi Hpw];
      try done; fold single; [unfold NVME_PAGE_SIZE in *; lia|].
    fold single in Hpi, Hpw. rewrite Z.sub_0_r, <- Hpw. symmetry.
    apply Hw; [|done]. apply Hdma; [|done]. unfold NVME_PAGE_SIZE in *. lia.
Qed.

(** A command's first PRP entry is the base address of its slot. *)
Lemma calculatePrps_prp1 addr size q l dma pages off q' w :
  calculatePrps addr size q l dma pages off = Some (q', w) -> sqe_prp1 q' = addr.
Proof.
  unfold calculatePrps. cbv zeta. destruct (_ <=? _); [by intros [= <- <-]|].
  destruct (_ =? 1); [destruct (later_page _ _ _ _ _); [by intros [= <- <-]|done]|].
  destruct (is_null l); [by intros [= <- <-]|].
  destruct (fill_prp_list _ _ _); [by intros [= <- <-]|done].
Qed.

(** The PRP entries are all that [calculatePrps] fills in. *)
Lemma calculatePrps_rest addr size q l dma pages off q' w :
  calculatePrps addr size q l dma pages off = Some (q', w) -> exists a b, q' = with_prps a b q.
Proof.
  unfold calculatePrps. cbv zeta. destruct (_ <=? _); [intros [= <- <-]; by do 2 eexists|].
  destruct (_ =? 1); [destruct (later_page _ _ _ _ _); [intros [= <- <-]; by do 2 eexists|done]|].
  destruct (is_null l); [intros [= <- <-]; by do 2 eexists|].
  destruct (fill_prp_list _ _ _); [intros [= <- <-]; by do 2 eexists|done].
Qed.

(** The fields of a command that come from the work item. *)
Lemma build_sqe_fields io bp t w q :
  build_sqe io bp t w = Some q -> 0 < wi_lbas w < 4294967296 ->
  sqe_opcode q = (if wi_is_write w =? 0 then nvme_cmd_read else nvme_cmd_write) /\
  sqe_nsid q = io_nsid io /\ sqe_command_id q = u16 (t mod 65535 + 1) /\ sqe_cdw12 q + 1 = wi_lbas w /\
  (0 <= wi_lba w < 18446744073709551616 -> sqe_cdw10 q + sqe_cdw11 q * 4294967296 = wi_lba w).
Proof.
  intros Hb Hl.
  assert (exists a b, q = sqeSetup (with_prps a b (new_sqe io t (negb (wi_is_write w =? 0)))) (wi_lba w) (wi_lbas w))
    as (a & b & ->).
  { unfold build_sqe in Hb. cbv zeta in Hb. rewrite (proj2 (Z.eqb_neq (wi_lbas w) 0)) in Hb by lia.
    destruct (negb (is_null _) && _).
    - destruct (slot_base _ _ _ _) as [base|]; [|done]. cbn [mbind option_bind] in Hb.
      destruct (if lists_configured bp then _ else _) as [pd|]; [|done]. cbn [mbind option_bind] in Hb.
      destruct (calculatePrps _ _ _ _ _ _ _) as [[q' l]|] eqn:Ec; [|done]. cbn in Hb. injection Hb as <-.
      destruct (calculatePrps_rest _ _ _ _ _ _ _ _ _ Ec) as (a & b & ->). by exists a, b.
    - cbn in Hb. injection Hb as <-. by exists 0, 0. }
  set (q0 := with_prps a b _).
  destruct (sqe_setup_fields q0 0 (wi_lbas w)) as (_ & H2 & H3 & H4 & _); [done..|].
  split_and!.
  - cbn. by destruct (wi_is_write w =? 0).
  - done.
  - done.
  - cbn in H2 |- *. done.
  - intros Hlba. by destruct (sqe_setup_fields q0 (wi_lba w) (wi_lbas w)) as (H1 & _); [done..|].
Qed.

Lemma build_sqe_base io bp t w buffer dma pages :
  (if negb (wi_is_write w =? 0) then bp_writeBuffer bp else bp_readBuffer bp) = buffer ->
  (if negb (wi_is_write w =? 0) then bp_writeBufferDma bp else bp_readBufferDma bp) = dma ->
  (if negb (wi_is_write w =? 0) then bp_writePagePhysAddrs bp else bp_readPagePhysAddrs bp) = pages ->
  buffer <> NULL -> 0 < bp_bufferSize bp ->
  let base := slot_base pages dma buffer (u64 (wi_slot w * (io_lbasPerIo io * io_lbaSize io))) in
  (base = None -> build_sqe io bp t w = None) /\
  (forall addr q, base = Some addr -> build_sqe io bp t w = Some q -> sqe_prp1 q = addr).
Proof.
  intros Hb Hd Hp Hn Hs base. unfold build_sqe. cbv zeta. rewrite Hb, Hd, Hp. fold base.
  rewrite (proj2 (Z.eqb_neq _ _) Hn), (proj2 (Z.ltb_lt _ _) Hs). cbn [negb andb]. split.
  - by intros ->.
  - intros addr q ->. cbn [mbind option_bind].
    destruct (if lists_configured bp then _ else _); [|done]. cbn [mbind option_bind].
    destruct (calculatePrps _ _ _ _ _ _ _) as [[q' l]|] eqn:Ec; [|done]. cbn.
    intros [= <-]. cbn. by eapply calculatePrps_prp1.
Qed.

(** ** What a context holds *)

(** What [rxio_teardown] gives back for a context. *)
Definition ctx_owns (c : rxio_queue_ctx) (r : rx_res) : Z :=
  let f := cx_field c in
  match r with
  | RFileData | RCtx | REvents | RBarMap | RQueueMemory => 0
  | RBar0 => 1
  | RKmodFd => ind (f F_kmod_fd)
  | RNvmeQueue | RNvmeFd => ind (f F_nvme_fd)
  | RNsQuiesce => ind (f F_quiesced && f F_kmod_fd && f F_ns_path)
  | RDataBuf => ind (f F_data_buf)
  | RPrpPool => ind (f F_prp_pool)
  | RPrpDmas => ind (f F_prp_page_dmas)
  | RQueueState => ind (f F_queue_state)
  | RStream => ind (f F_stream)
  | RWorkRing => ind (f F_persistent && f F_work_ring)
  | RStopFlag => ind (f F_persistent && f F_stop_flag)
  | RGpuKernel => ind (f F_persistent)
  end.

(** What stays when the context is torn down: the memory of the queues, and
    the mapping of the BAR if this set-up made it. *)
Definition stays (mapped : bool) (r : rx_res) : Z :=
  match r with RQueueMemory => 1 | RBarMap => ind mapped | _ => 0 end.

(** Tests between constructors are computed. *)
Ltac compute_tests :=
  repeat match goal with
  | |- context [bool_decide (?a = ?b)] =>
    let v := eval vm_compute in (bool_decide (a = b)) in
    change (bool_decide (a = b)) with v
  end; cbn [ind andb].

Section Accounting.
Context {X : Rxio}.

Lemma set_field_other f g b c : g <> f -> cx_field (set_field f b c) g = cx_field c g.
Proof. intros. cbn. by rewrite bool_decide_eq_false_2. Qed.
Lemma set_field_same f b c : cx_field (set_field f b c) f = b.
Proof. cbn. by rewrite bool_decide_eq_true_2. Qed.

Lemma wp_call s (Q : Z -> history -> Prop) h :
  Q (rx_status h s) (EvCall s :: h) -> wp (call s) Q h.
Proof. done. Qed.

Lemma wp_setup_step s err r c k (Q : Z * rxio_queue_ctx -> history -> Prop) h :
  0 <= err ->
  (forall rc, rc < 0 -> Q (rc, c) (EvCall s :: h)) ->
  wp k Q (match r with Some r => EvGet r :: EvCall s :: h | None => EvCall s :: h end) ->
  wp (step s err r c k) Q h.
Proof.
  intros He Hf Hk. unfold step. apply wp_bind, wp_call.
  destruct (rx_status h s <? 0) eqn:E; bool_to_prop.
  - apply wp_ret, Hf. unfold fails. destruct (err =? 0) eqn:E0; bool_to_prop; lia.
  - by destruct r.
Qed.

Definition put_if (b : bool) (r : rx_res) (h : history) : history := if b then EvPut r :: h else h.

Lemma rx_held_put_if b r h r' :
  rx_held (put_if b r h) r' = rx_held h r' - ind (b && bool_decide (r = r')).
Proof. destruct b; cbn [put_if rx_held andb ind]; lia. Qed.

Lemma wp_drop f r c (Q : rxio_queue_ctx -> history -> Prop) h :
  (forall c', (forall g, g <> f -> cx_field c' g = cx_field c g) ->
     Q c' (put_if (cx_field c f) r h)) ->
  wp (drop f r c) Q h.
Proof.
  intros HQ. unfold drop. destruct (cx_field c f) eqn:E; [|by apply (HQ c)].
  apply wp_bind, wp_modify, wp_ret, HQ. intros g Hg. by apply set_field_other.
Qed.

Lemma wp_release_if (b : bool) r (Q : unit -> history -> Prop) h :
  Q tt (put_if b r h) -> wp (if b then release r else ret tt) Q h.
Proof. by destruct b. Qed.

(** Stopping gives the kernel, the ring and the flag back. *)
Lemma stop_held c h (Q : rxio_queue_ctx -> history -> Prop) :
  (forall c' h',
     (forall g, g <> F_persistent -> g <> F_work_ring -> g <> F_stop_flag ->
        cx_field c' g = cx_field c g) ->
     (forall r, rx_held h' r = rx_held h r
        - match r with RWorkRing | RStopFlag | RGpuKernel => ctx_owns c r | _ => 0 end) ->
     Q c' h') ->
  wp (rxio_stop_persistent c) Q h.
Proof.
  intros HQ. unfold rxio_stop_persistent. destruct (cx_field c F_persistent) eqn:Ep; cbn [negb].
  - apply wp_bind, wp_drop. intros c1 H1. apply wp_bind, wp_drop. intros c2 H2.
    apply wp_drop. intros c3 H3. apply HQ.
    + intros g G1 G2 G3. by rewrite H3, H2, H1.
    + intros r. rewrite !rx_held_put_if, H2, !H1 by done. unfold ctx_owns. rewrite Ep.
      destruct r; compute_tests; rewrite ?andb_true_r, ?andb_false_r; cbn [ind]; lia.
  - apply wp_ret, HQ; [done|]. intros r. unfold ctx_owns. rewrite Ep.
    destruct r; cbn [andb ind]; lia.
Qed.

Lemma teardown_held c h :
  cx_field c F_controller = true ->
  wp (rxio_teardown c) (fun _ h' => forall r, rx_held h' r = rx_held h r - ctx_owns c r) h.
Proof.
  intros Hc. unfold rxio_teardown. rewrite Hc. cbn [negb].
  set (c0 := set_field F_controller false c).
  assert (forall g, g <> F_controller -> cx_field c0 g = cx_field c g) as H0.
  { intros g Hg. by apply set_field_other. }
  apply wp_bind, stop_held. intros c1 h1 H1 Hh1.
  apply wp_bind, wp_drop. intros c2 H2. apply wp_bind, wp_drop. intros c3 H3.
  apply wp_bind, wp_modify. apply wp_bind, wp_release_if. apply wp_bind, wp_release_if.
  apply wp_bind, wp_drop. intros c4 H4. apply wp_bind, wp_drop. intros c5 H5.
  apply wp_bind, wp_drop. intros c6 H6. apply wp_bind, wp_drop. intros c7 H7.
  apply wp_drop. intros c8 H8 r.
  rewrite !rx_held_put_if. cbn [rx_held]. rewrite !rx_held_put_if, Hh1.
  rewrite H7, !H6, !H5, !H4, !H3, !H2, !H1, !H0 by done.
  unfold ctx_owns. rewrite !H0 by done.
  destruct r; compute_tests; rewrite ?andb_true_r, ?andb_false_r; cbn [ind]; lia.
Qed.

(** What a set-up context looks like before the kernel is started. *)
Record ctx_ready (a : setup_args) (c : rxio_queue_ctx) : Prop := {
  cr_controller : cx_field c F_controller = true;
  cr_persistent : cx_field c F_persistent = false;
  cr_state : cx_queue_state c = (0, 1);
  cr_queue_size : cx_queue_size c = sa_queue_size a;
  cr_lba : cx_lba_size c <> 0;
  cr_batch : cx_batch_cap c = cx_batch_cap (setup_sizes a);
  cr_single : cx_single_buf_size c = cx_single_buf_size (setup_sizes a)
}.

(** Members of an explicit context. *)
Ltac field_tests :=
  cbn [cx_field set_field with_geometry with_buffers with_io setup_sizes ctx0]; compute_tests.

(** The accounting of explicit fields and events, resource by resource. *)
Ltac account Hh :=
  let r := fresh "r" in intros r; specialize (Hh r); revert Hh; destruct r;
  unfold ctx_owns, stays in *; cbn [snd rx_held cx_field set_field with_buffers with_geometry with_io
    setup_sizes ctx0] in *; compute_tests; intros Hh;
  repeat match goal with H : cx_field _ _ = _ |- _ => rewrite H in * end;
  rewrite ?andb_true_r, ?andb_false_r in *; cbn [ind andb] in *; lia.

Definition setup_post (a : setup_args) (mapped : bool) (h0 : history) (out : Z * rxio_queue_ctx) (h' : history)
    : Prop :=
  fst out < 0 \/
  fst out = 0 /\ ctx_ready a (snd out) /\
  forall r, rx_held h' r = rx_held h0 r + ctx_owns (snd out) r + stays mapped r.

Lemma setup_stream_held a c m h0 h :
  ctx_ready a (with_buffers (cx_buf_params c) (0, 1) c) ->
  cx_field c F_queue_state = false -> cx_field c F_stream = false ->
  (forall r, rx_held h r = rx_held h0 r + ctx_owns c r + stays m r) ->
  wp (setup_stream a c) (setup_post a m h0) h.
Proof.
  intros Hc Hq Hs Hh. unfold setup_stream.
  apply wp_setup_step; [done|by left|]. apply wp_setup_step; [done|by left|].
  do 4 (apply wp_bind, wp_gets). apply wp_setup_step; [done|by left|].
  destruct (_ <? cx_single_buf_size _); [apply wp_setup_step; [done|by left|]|];
    apply wp_ret; right; (split; [done|]); (split; [by destruct Hc|]); account Hh.
Qed.

(** Quiescing has three outcomes; only a success takes something. *)
Lemma wp_setup_quiesce c (Q : rxio_queue_ctx -> history -> Prop) h :
  (forall h', (forall r, rx_held h' r = rx_held h r) -> Q c h') ->
  (forall h', (forall r, rx_held h' r = rx_held h r) -> Q (set_field F_ns_path true c) h') ->
  (forall h', (forall r, rx_held h' r = rx_held h r + ind (bool_decide (r = RNsQuiesce))) ->
     Q (set_field F_quiesced true (set_field F_ns_path true c)) h') ->
  wp (setup_quiesce c) Q h.
Proof.
  intros H1 H2 H3. unfold setup_quiesce. apply wp_bind, wp_call.
  destruct (negb _); [by apply wp_ret, H1|]. apply wp_bind, wp_call.
  destruct (_ =? 0).
  - apply wp_bind, wp_modify, wp_ret, H3. intros r. cbn [rx_held].
    destruct r; compute_tests; lia.
  - by apply wp_ret, H2.
Qed.

(** From a context that has everything up to the data buffer. *)
Lemma setup_rest_held a c m h0 h :
  ctx_ready a (with_buffers (cx_buf_params c) (0, 1) c) ->
  cx_field c F_prp_pool = false -> cx_field c F_prp_page_dmas = false ->
  cx_field c F_queue_state = false -> cx_field c F_stream = false ->
  (forall r, rx_held h r = rx_held h0 r + ctx_owns c r + stays m r) ->
  wp (if NVME_LIST_PAGES <? xfer_pages c then
        let* out := setup_prp_pool c in
        let (rc, c) := out : Z * rxio_queue_ctx in
        if rc <? 0 then ret (rc, c) else setup_stream a c
      else setup_stream a c) (setup_post a m h0) h.
Proof.
  intros Hc Hp Hd Hq Hs Hh. destruct (_ <? xfer_pages c); [|by apply setup_stream_held].
  unfold setup_prp_pool. apply wp_bind, wp_bind, wp_call.
  destruct (_ <? 0); [apply wp_ret, wp_ret; by left|].
  apply wp_bind, wp_modify, wp_bind, wp_call.
  destruct (_ <? 0); [apply wp_bind, wp_modify, wp_ret, wp_ret; by left|].
  apply wp_bind, wp_modify, wp_bind, wp_call. destruct (_ <? 0).
  { apply wp_bind, wp_modify, wp_bind, wp_modify, wp_ret, wp_ret. by left. }
  apply wp_ret. change (0 <? 0) with false. cbv iota.
  apply setup_stream_held; [by destruct Hc|by field_tests..|]. account Hh.
Qed.

(** The BAR is mapped before the reference is taken, or was mapped. *)
Lemma wp_bar0_get (Q : Z -> history -> Prop) h :
  (forall rc h', rc < 0 -> Q rc h') ->
  (forall m h', (forall r, rx_held h' r
      = rx_held h r + match r with RBar0 => 1 | RBarMap => ind m | _ => 0 end) -> Q 0 h') ->
  wp bar0_get Q h.
Proof.
  intros H1 H2. unfold bar0_get. apply wp_bind, wp_call. destruct (_ =? 0).
  { apply wp_bind, wp_modify, wp_ret, (H2 false). intros r. cbn [rx_held]. destruct r; compute_tests; lia. }
  apply wp_bind, wp_call. destruct (_ <? 0) eqn:E; bool_to_prop; [by apply wp_ret, H1|].
  apply wp_bind, wp_modify, wp_bind, wp_modify, wp_ret, (H2 true).
  intros r. cbn [rx_held]. destruct r; compute_tests; lia.
Qed.

(** The same over the reference to the BAR. *)
Ltac account2 H1 Hh :=
  let r := fresh "r" in intros r; specialize (H1 r); specialize (Hh r); revert H1 Hh; destruct r;
  unfold ctx_owns, stays in *; cbn [snd rx_held cx_field set_field with_buffers with_geometry with_io
    setup_sizes ctx0] in *; compute_tests; intros H1 Hh; cbn [ind andb] in *; lia.

Lemma setup_acquire_held a lba cap qid h :
  lba <> 0 ->
  wp (setup_acquire a (with_geometry lba cap qid (setup_sizes a))) (fun out h' => exists m, setup_post a m h out h') h.
Proof.
  intros Hlba. unfold setup_acquire.
  apply wp_setup_step; [done|by exists false; left|]. apply wp_bind, wp_bar0_get.
  { intros rc h' Hrc. rewrite (proj2 (Z.ltb_lt _ _) Hrc). apply wp_ret. exists false. by left. }
  intros m h1 Hh1. change (0 <? 0) with false. cbv iota.
  apply wp_setup_step; [done|by exists false; left|]. apply wp_bind, wp_modify, wp_bind, wp_call.
  destruct (_ <? 0) eqn:E; bool_to_prop; [apply wp_ret; exists false; by left|]. apply wp_bind, wp_modify.
  eapply (wp_mono _ (setup_post a m h)); [|by exists m].
  apply wp_bind, wp_setup_quiesce; intros h' Hh; (apply wp_setup_step; [done|by left|]);
    apply setup_rest_held; try (by field_tests); try (by split); account2 Hh1 Hh.
Qed.

(** A setup that succeeds leaves a ready context that owns exactly what was
    acquired, but for what stays. *)
Lemma setup_held a h : wp (rxio_setup a) (fun out h' => exists m, setup_post a m h out h') h.
Proof.
  unfold rxio_setup, setup_query.
  do 3 (apply wp_setup_step; [done|by exists false; left|]). apply wp_bind, wp_gets.
  destruct (_ =? 0) eqn:Elba; bool_to_prop; [apply wp_ret; exists false; by left|].
  apply wp_setup_step; [done|by exists false; left|]. apply wp_bind, wp_gets.
  assert (forall qid h', (forall r, rx_held h' r = rx_held h r) ->
    wp (setup_acquire a (with_geometry (rx_lba_size_of (EvCall SQueryLba :: EvCall SDetectBdf
          :: EvCall SSetDevice :: h)) (rx_ns_capacity (EvCall SQueryCap :: EvCall SQueryLba
          :: EvCall SDetectBdf :: EvCall SSetDevice :: h)) qid (setup_sizes a)))
       (fun out h' => exists m, setup_post a m h out h') h') as Hacq.
  { intros qid h' Hh'. eapply wp_mono; [by apply setup_acquire_held|].
    intros out h'' [m [Hout|(H0 & Hr & Hheld)]]; exists m; [by left|right]. split_and!; [done|done|].
    intros r. by rewrite Hheld, Hh'. }
  destruct (negb (sa_queue_id a =? 0)); [by apply Hacq|].
  apply wp_setup_step; [done|by exists false; left|]. apply wp_bind, wp_gets.
  destruct (_ <=? _); [apply wp_ret; exists false; by left|]. by apply Hacq.
Qed.

(** A start that succeeds adds the ring, the flag and the kernel. *)
Lemma start_held a c depth m h0 h :
  ctx_ready a c -> 1 <= depth ->
  (forall r, rx_held h r = rx_held h0 r + ctx_owns c r + stays m r) ->
  wp (rxio_start_persistent depth c) (fun out h' =>
    fst out < 0 \/
    fst out = 0 /\ cx_field (snd out) F_controller = true /\
    cx_lba_size (snd out) = cx_lba_size c /\
    cx_io (snd out) = persistent_io c /\
    (exists c0, cx_queue_state c0 = (0, 1) /\ cx_ring (snd out) = start_ring depth c0) /\
    forall r, rx_held h' r = rx_held h0 r + ctx_owns (snd out) r + stays m r) h.
Proof.
  intros [Hcon Hper Hst _ _ _ _] Hd Hh. unfold rxio_start_persistent.
  rewrite (proj2 (Z.ltb_ge _ _) Hd).
  do 5 (apply wp_setup_step; [done|by left|]). apply wp_ret. right.
  split; [done|]. split; [field_tests; done|]. split; [done|]. split; [done|].
  split; [by eexists|]. account Hh.
Qed.
End Accounting.

(** ** Properties of the shim *)

(** The command of a work item moves the right bytes.  For a job whose
    slot lies inside the buffer and whose transfer fits a slot, the kernel
    builds a command with the job's direction, namespace, block address and
    block count, whose PRP entries, with the lists as they were prefilled,
    make the controller place byte [k] of the transfer at byte [k] of the
    slot, for contiguous and scattered buffers alike. *)
Theorem build_sqe_moves_slot a c gpuPtr dma pages dmas t w :
  buffer_ok a c gpuPtr dma pages dmas -> nth 0 dmas 0 <> 0 ->
  0 <= wi_slot w -> (wi_slot w + 1) * cx_single_buf_size c <= sa_buf_size a ->
  0 < wi_lbas w < 4294967296 -> wi_lbas w * cx_lba_size c <= cx_single_buf_size c ->
  0 <= wi_lba w < 18446744073709551616 ->
  exists q, build_sqe (persistent_io c) (buffer_template a c gpuPtr dma pages dmas) t w = Some q /\
    sqe_opcode q = (if wi_is_write w =? 0 then nvme_cmd_read else nvme_cmd_write) /\
    sqe_nsid q = cx_nsid c /\ sqe_cdw10 q + sqe_cdw11 q * 4294967296 = wi_lba w /\
    sqe_cdw12 q + 1 = wi_lbas w /\
    forall words, prefilled words dmas pages dma (cx_single_buf_size c / NVME_PAGE_SIZE) ->
      forall k, 0 <= k < wi_lbas w * cx_lba_size c ->
        data_byte pages dma (wi_slot w * cx_single_buf_size c + k)
        = Some (controller_byte q (wi_lbas w * cx_lba_size c) words k).
Proof.
  intros Hok Hnz Hs Hfit Hl Hsz Hlba.
  destruct (build_sqe_slot a c gpuPtr dma pages dmas t w) as (addr & p2 & -> & Hbytes);
    [done..|lia|done|].
  set (q0 := with_prps addr p2 (new_sqe (persistent_io c) t (negb (wi_is_write w =? 0)))) in *.
  destruct (sqe_setup_fields q0 (wi_lba w) (wi_lbas w)) as (H1 & H2 & H3 & H4 & H5 & H6); [done..|].
  eexists. split; [done|]. split_and!.
  - rewrite H3. cbn. by destruct (wi_is_write w =? 0).
  - by rewrite H4.
  - done.
  - done.
  - intros words Hw k Hk. rewrite (Hbytes words Hw k Hk). unfold controller_byte. by rewrite H5, H6.
Qed.

(** The work ring dies with the 32-bit counter.  When the producer's
    index wraps, the next job is posted and executed like any other, but from
    then on reaping finds nothing, however long the GPU runs: the comparison
    of the two indices takes the ring for empty. *)
Theorem ring_stalls_at_wrap io bp r lba lbas iw slot n :
  wr_prod r = 4294967295 -> 0 <= wr_cons r -> wi_seq (item_at r (wr_prod r)) = 0 ->
  let r' := snd (ring_post lba lbas iw slot r) in
  fst (ring_post lba lbas iw slot r) = 0 /\
  fst (ring_reap (Nat.iter n (gpu_step io bp) r')) = 0.
Proof.
  intros Hp Hc Hs r'. split.
  { unfold ring_post. by rewrite Hs. }
  assert (forall m, wr_prod (Nat.iter m (gpu_step io bp) r') = 0 /\
            wr_cons (Nat.iter m (gpu_step io bp) r') = wr_cons r) as Hrun.
  { induction m as [|m [IH1 IH2]].
    - unfold r', ring_post. rewrite Hs, Hp. done.
    - rewrite Nat.iter_succ. unfold gpu_step at 1 3. by destruct (negb _). }
  destruct (Hrun n) as [E1 E2]. unfold ring_reap. rewrite E1, E2.
  by rewrite (proj2 (Z.leb_le _ _) Hc).
Qed.

(** ** Witnesses *)

(** An environment in which exactly the given services fail. *)
Definition demo_rxio (fail : rx_service -> bool) : Rxio :=
  {| rx_status := fun _ s => if fail s then - EIO else 0;
     rx_lba_size_of := fun _ => 512;
     rx_ns_capacity := fun _ => 1000000;
     rx_max_qid := fun _ => 8;
     rx_data_ptr := fun _ => 65536;
     rx_data_dma := fun _ => 1048576;
     rx_data_pages := fun _ => None;
     rx_prp_pages := fun _ => [8388608; 8392704; 8396800; 8400896] |}.

Definition never_fails (_ : rx_service) : bool := false.

Definition sample_setup : setup_args :=
  {| sa_queue_id := 0; sa_queue_size := 64; sa_buf_size := 65536; sa_single_size := 16384;
     sa_batch_cap := 4; sa_job_index := 1 |}.

Definition sample_ctx : rxio_queue_ctx :=
  snd (fst (rxio_setup (X := demo_rxio never_fails) sample_setup [])).

Lemma sample_buffer_ok :
  buffer_ok sample_setup sample_ctx 65536 1048576 None [8388608; 8392704; 8396800; 8400896].
Proof. split; vm_compute; try done; by split_and!. Qed.

Definition sample_job : nvmeWorkItem :=
  {| wi_lba := 7; wi_lbas := 32; wi_slot := 3; wi_is_write := 1; wi_pad := 0; wi_seq := 1 |}.

(** A full-slot write from the last slot uses a list of three pages. *)
Lemma build_sqe_moves_slot_witness :
  exists q, build_sqe (persistent_io sample_ctx)
      (buffer_template sample_setup sample_ctx 65536 1048576 None
         [8388608; 8392704; 8396800; 8400896]) 9 sample_job = Some q /\
    sqe_prp1 q = 1097728 /\ sqe_prp2 q = 8400896 /\ sqe_opcode q = nvme_cmd_write /\
    forall words, prefilled words [8388608; 8392704; 8396800; 8400896] None 1048576 4 ->
      Some (controller_byte q 16384 words 16383) = Some (1048576 + 65535).
Proof.
  destruct (build_sqe_moves_slot sample_setup sample_ctx 65536 1048576 None
    [8388608; 8392704; 8396800; 8400896] 9 sample_job sample_buffer_ok)
    as (q & E & Hop & _ & _ & _ & H);
    [done|done|by vm_compute|by vm_compute|by vm_compute|by vm_compute|].
  exists q. split; [done|]. vm_compute in E. injection E as <-. split_and!; try done.
  intros words Hw. symmetry. by apply (H words Hw 16383).
Defined.

Definition wrapping_ring : work_ring :=
  {| wr_items := [work_item0; work_item0]; wr_depth := 2; wr_prod := 4294967295;
     wr_cons := 4294967295;
     wr_gpu := {| gk_index := 4294967295; gk_sq_tail := 0; gk_cq_head := 0; gk_phase := 1;
                  gk_log := [] |} |}.

Lemma ring_stalls_at_wrap_witness :
  let r' := snd (ring_post 0 8 0 0 wrapping_ring) in
  let done := gpu_step (persistent_io sample_ctx) buf_params0 r' in
  length (gk_log (wr_gpu done)) = 1%nat /\ fst (ring_reap done) = 0.
Proof.
  split; [by vm_compute|].
  apply (ring_stalls_at_wrap (persistent_io sample_ctx) buf_params0 wrapping_ring 0 8 0 0 1); done.
Defined.
