(* ===== verification/FioEngine.v ===== *)
(** * The fio engine

    [src/docker/rocm-xio-engine/rocm-xio.c]: opening and closing a file
    (queue), posting an I/O unit, reaping completions.  I/O units are shared
    objects in a store; the ring of a file and the event array hold
    pointers to them.  Time passes in ticks, one per poll of a queue and one
    per sleep; what the GPU has completed by a tick is part of the
    environment. *)

From S2P Require Import Prelude NvmeEp WorkRing.

Definition RXIO_RING : Z := 63.

Inductive fio_ddir := DDIR_READ | DDIR_WRITE | DDIR_SYNC | DDIR_DATASYNC | DDIR_OTHER.

Record io_u := {
  iu_file : nat; iu_ddir : fio_ddir; iu_offset : Z; iu_xfer_buflen : Z; iu_error : Z
}.
Definition with_error (e : Z) (u : io_u) : io_u :=
  {| iu_file := iu_file u; iu_ddir := iu_ddir u; iu_offset := iu_offset u;
     iu_xfer_buflen := iu_xfer_buflen u; iu_error := e |}.

(** Per-file state; a slot of [ring] holds a pointer or null. *)
Record rocm_xio_file_data := {
  fd_ctx : rxio_queue_ctx;
  fd_lba_size : Z;
  fd_iodepth : Z;
  fd_ring : list (option ptr);
  fd_ring_head : Z;
  fd_ring_tail : Z;
  fd_ring_count : Z
}.

(** The scratch array of completed units; [ev_overrun] records a write past
    its end. *)
Record rxio_events := {
  ev_arr : list (option ptr); ev_cap : Z; ev_count : Z; ev_overrun : bool
}.

Record fio_file := {
  ff_real_file_size : Z; ff_size_known : bool; ff_eng_data : option rocm_xio_file_data
}.

(** The options of the engine and the parts of [thread_data] it uses. *)
Record rocm_xio_options := { opt_queue_id : Z; opt_queue_depth : Z }.
Record thread_data := {
  td_options : rocm_xio_options;
  td_iodepth : Z;
  td_max_bs_read : Z;
  td_max_bs_write : Z;
  td_subjob_number : Z;
  td_files : list fio_file;
  td_ious : gmap ptr io_u;
  td_events : option rxio_events
}.

Definition with_ctx (c : rxio_queue_ctx) (d : rocm_xio_file_data) : rocm_xio_file_data :=
  {| fd_ctx := c; fd_lba_size := fd_lba_size d; fd_iodepth := fd_iodepth d;
     fd_ring := fd_ring d; fd_ring_head := fd_ring_head d; fd_ring_tail := fd_ring_tail d;
     fd_ring_count := fd_ring_count d |}.
Definition with_slots (ring : list (option ptr)) (head tail count : Z) (d : rocm_xio_file_data)
    : rocm_xio_file_data :=
  {| fd_ctx := fd_ctx d; fd_lba_size := fd_lba_size d; fd_iodepth := fd_iodepth d;
     fd_ring := ring; fd_ring_head := head; fd_ring_tail := tail; fd_ring_count := count |}.
Definition with_size (n : Z) (f : fio_file) : fio_file :=
  {| ff_real_file_size := n; ff_size_known := true; ff_eng_data := ff_eng_data f |}.
Definition with_eng_data (d : option rocm_xio_file_data) (f : fio_file) : fio_file :=
  {| ff_real_file_size := ff_real_file_size f; ff_size_known := ff_size_known f;
     ff_eng_data := d |}.
Definition with_files (fs : list fio_file) (td : thread_data) : thread_data :=
  {| td_options := td_options td; td_iodepth := td_iodepth td;
     td_max_bs_read := td_max_bs_read td; td_max_bs_write := td_max_bs_write td;
     td_subjob_number := td_subjob_number td; td_files := fs; td_ious := td_ious td;
     td_events := td_events td |}.
Definition with_ious (m : gmap ptr io_u) (td : thread_data) : thread_data :=
  {| td_options := td_options td; td_iodepth := td_iodepth td;
     td_max_bs_read := td_max_bs_read td; td_max_bs_write := td_max_bs_write td;
     td_subjob_number := td_subjob_number td; td_files := td_files td; td_ious := m;
     td_events := td_events td |}.
Definition with_events (e : option rxio_events) (td : thread_data) : thread_data :=
  {| td_options := td_options td; td_iodepth := td_iodepth td;
     td_max_bs_read := td_max_bs_read td; td_max_bs_write := td_max_bs_write td;
     td_subjob_number := td_subjob_number td; td_files := td_files td; td_ious := td_ious td;
     td_events := e |}.

(** ** Opening and closing *)

Section OpenClose.
Context {X : Rxio}.

Definition clamp_iodepth (iodepth : Z) : Z :=
  let iodepth := if iodepth <? 1 then 1 else iodepth in
  if RXIO_RING <? iodepth then RXIO_RING else iodepth.

Definition buffer_size_of (td : thread_data) : Z :=
  let single := td_max_bs_read td in
  let single := if single <? td_max_bs_write td then td_max_bs_write td else single in
  let single := round_page single in
  if single =? 0 then 4096 else single.

Definition setup_args_of (td : thread_data) (iodepth : Z) : setup_args :=
  {| sa_queue_id := u16 (opt_queue_id (td_options td));
     sa_queue_size := u16 (opt_queue_depth (td_options td));
     sa_buf_size := u64 (buffer_size_of td * iodepth);
     sa_single_size := buffer_size_of td; sa_batch_cap := iodepth;
     sa_job_index := td_subjob_number td |}.

Definition new_file_data (c : rxio_queue_ctx) (iodepth : Z) : rocm_xio_file_data :=
  {| fd_ctx := c; fd_lba_size := rxio_lba_size c; fd_iodepth := iodepth;
     fd_ring := replicate 63 None; fd_ring_head := 0; fd_ring_tail := 0; fd_ring_count := 0 |}.

(** The result is an error number, and the file with its engine data. *)
Definition fio_rocm_xio_open_file (td : thread_data) (f : fio_file) : R (Z * fio_file) :=
  let* ok := call SCalloc in
  if ok <? 0 then ret (ENOMEM, f) else
  acquire RFileData ;;;
  let* ctx := rxio_ctx_alloc in
  match ctx with
  | None => release RFileData ;;; ret (ENOMEM, f)
  | Some _ =>
    let iodepth := clamp_iodepth (td_iodepth td) in
    let* out := rxio_setup (setup_args_of td iodepth) in
    let (rc, c) := out : Z * rxio_queue_ctx in
    if rc <? 0 then rxio_ctx_free ;;; release RFileData ;;; ret (- rc, f) else
    let f := if ff_real_file_size f =? 0
             then with_size (u64 (rxio_ns_capacity_lbas c * rxio_lba_size c)) f else f in
    let* out := rxio_start_persistent iodepth c in
    let (rc, c) := out : Z * rxio_queue_ctx in
    if rc <? 0 then
      let* c := rxio_teardown c in
      rxio_ctx_free ;;; release RFileData ;;; ret (- rc, f)
    else ret (0, with_eng_data (Some (new_file_data c iodepth)) f)
  end.

Definition fio_rocm_xio_close_file (f : fio_file) : R (Z * fio_file) :=
  match ff_eng_data f with
  | None => ret (0, f)
  | Some d =>
    let* c := rxio_teardown (fd_ctx d) in
    rxio_ctx_free ;;;
    release RFileData ;;;
    ret (0, with_eng_data None f)
  end.

Definition fio_rocm_xio_cleanup (td : thread_data) : R thread_data :=
  match td_events td with
  | None => ret td
  | Some _ => release REvents ;;; release REvents ;;; ret (with_events None td)
  end.
End OpenClose.

(** The size comes from the open queue, else from the block device, else
    from fio's generic code; the last two are arguments. *)
Definition fio_rocm_xio_get_file_size (f : fio_file) (blkgetsize64 : option Z)
    (generic_get_file_size : fio_file -> Z * fio_file) : Z * fio_file :=
  let query :=
    match blkgetsize64 with
    | Some bytes => if bytes =? 0 then generic_get_file_size f else (0, with_size bytes f)
    | None => generic_get_file_size f
    end in
  match ff_eng_data f with
  | Some d =>
    if fd_lba_size d =? 0 then query
    else (0, with_size (u64 (rxio_ns_capacity_lbas (fd_ctx d) * fd_lba_size d)) f)
  | None => query
  end.

(** ** queue() *)

Inductive fio_q_status := FIO_Q_COMPLETED | FIO_Q_QUEUED | FIO_Q_BUSY.

(** The block address and count of a unit. *)
Definition iou_lba (d : rocm_xio_file_data) (u : io_u) : Z := iu_offset u / fd_lba_size d.
Definition iou_lbas (d : rocm_xio_file_data) (u : io_u) : Z :=
  let lbas := u32 (iu_xfer_buflen u / fd_lba_size d) in if lbas =? 0 then 1 else lbas.
Definition iou_is_write (u : io_u) : Z := match iu_ddir u with DDIR_WRITE => 1 | _ => 0 end.

(** The READ and WRITE case once the ring has room: the slot is filled, the
    work posted, and the slot taken back if that fails. *)
Definition queue_post (p : ptr) (u : io_u) (d : rocm_xio_file_data)
    : (fio_q_status * Z) * rocm_xio_file_data :=
  let slot := fd_ring_head d in
  let d1 := with_slots (<[Z.to_nat slot := Some p]> (fd_ring d))
              ((fd_ring_head d + 1) mod RXIO_RING) (fd_ring_tail d) (fd_ring_count d + 1) d in
  let (rc, c) := rxio_post_work (fd_ctx d1) (iou_lba d u) (iou_lbas d u) (iou_is_write u) slot in
  let d2 := with_ctx c d1 in
  if rc <? 0 then
    let d3 := with_slots (<[Z.to_nat slot := None]> (fd_ring d2)) slot (fd_ring_tail d2)
                (fd_ring_count d2 - 1) d2 in
    if rc =? - ENOSPC then ((FIO_Q_BUSY, iu_error u), d3) else ((FIO_Q_COMPLETED, EIO), d3)
  else ((FIO_Q_QUEUED, iu_error u), d2).

(** The status, the unit's error and the file's state. *)
Definition queue_unit (p : ptr) (u : io_u) (d : rocm_xio_file_data)
    : (fio_q_status * Z) * rocm_xio_file_data :=
  match iu_ddir u with
  | DDIR_SYNC | DDIR_DATASYNC => ((FIO_Q_COMPLETED, iu_error u), d)
  | DDIR_READ | DDIR_WRITE =>
    if fd_lba_size d =? 0 then ((FIO_Q_COMPLETED, EIO), d)
    else if fd_iodepth d <=? fd_ring_count d then ((FIO_Q_BUSY, iu_error u), d)
    else queue_post p u d
  | DDIR_OTHER => ((FIO_Q_COMPLETED, EINVAL), d)
  end.

Definition set_error (p : ptr) (e : Z) (m : gmap ptr io_u) : gmap ptr io_u :=
  alter (with_error e) p m.

Definition fio_rocm_xio_queue (p : ptr) (td : thread_data) : fio_q_status * thread_data :=
  match td_ious td !! p with
  | None => (FIO_Q_COMPLETED, td)
  | Some u =>
    match td_files td !! iu_file u with
    | Some f =>
      match ff_eng_data f with
      | Some d =>
        let '(st, e, d') := queue_unit p u d in
        (st, with_ious (set_error p e (td_ious td))
               (with_files (<[iu_file u := with_eng_data (Some d') f]> (td_files td)) td))
      | None => (FIO_Q_COMPLETED, with_ious (set_error p EINVAL (td_ious td)) td)
      end
    | None => (FIO_Q_COMPLETED, with_ious (set_error p EINVAL (td_ious td)) td)
    end
  end.

(** ** getevents() *)

(** What the engine cannot control: how many of a file's commands the GPU
    has completed by a tick, and the clock. *)
Class FioEnv := {
  env_gpu : nat -> nat -> Z;
  env_now : nat -> Z * Z
}.

Definition timespec_normal (sec nsec : Z) : Z * Z :=
  if 1000000000 <=? nsec then (sec + 1, nsec - 1000000000) else (sec, nsec).
(** [now] is not before [deadline]. *)
Definition expired (now deadline : Z * Z) : bool :=
  (fst deadline <? fst now) || ((fst now =? fst deadline) && (snd deadline <=? snd now)).

Section GetEvents.
Context {E : FioEnv}.

(** The kernel of file [i] runs until it has done what it can have done by
    tick [t]. *)
Definition gpu_progress (i t : nat) (d : rocm_xio_file_data) : rocm_xio_file_data :=
  let c := fd_ctx d in
  let n := Z.to_nat (env_gpu i t - gk_index (wr_gpu (cx_ring c))) in
  with_ctx (with_ring (Nat.iter n (gpu_step (cx_io c) (cx_buf_params c)) (cx_ring c)) c) d.

Record reap_state := {
  rs_ious : gmap ptr io_u; rs_events : rxio_events; rs_found : Z; rs_tick : nat
}.

Definition ev_write (i : Z) (p : ptr) (ev : rxio_events) : rxio_events :=
  {| ev_arr := <[Z.to_nat i := Some p]> (ev_arr ev); ev_cap := ev_cap ev;
     ev_count := ev_count ev;
     ev_overrun := ev_overrun ev || (Z.of_nat (length (ev_arr ev)) <=? i) |}.

Definition next_tick (s : reap_state) : reap_state :=
  {| rs_ious := rs_ious s; rs_events := rs_events s; rs_found := rs_found s;
     rs_tick := S (rs_tick s) |}.

(** Record unit [p] at the end of the array. *)
Definition report (p : ptr) (s : reap_state) : reap_state :=
  {| rs_ious := rs_ious s; rs_events := ev_write (rs_found s) p (rs_events s);
     rs_found := rs_found s + 1; rs_tick := rs_tick s |}.
Definition fail_unit (p : ptr) (s : reap_state) : reap_state :=
  {| rs_ious := set_error p EIO (rs_ious s); rs_events := rs_events s;
     rs_found := rs_found s; rs_tick := rs_tick s |}.

Definition tail_unit (d : rocm_xio_file_data) : option ptr :=
  nth (Z.to_nat (fd_ring_tail d)) (fd_ring d) None.
Definition retire (d : rocm_xio_file_data) : rocm_xio_file_data :=
  with_slots (fd_ring d) (fd_ring_head d) ((fd_ring_tail d + 1) mod RXIO_RING)
    (fd_ring_count d - 1) d.

(** The [while] loop over one file; the fuel bounds its turns. *)
Fixpoint reap_loop (fuel i : nat) (max : Z) (d : rocm_xio_file_data) (s : reap_state)
    : rocm_xio_file_data * reap_state :=
  match fuel with
  | O => (d, s)
  | S fuel' =>
    if (0 <? fd_ring_count d) && (rs_found s <? max) then
      let d := gpu_progress i (rs_tick s) d in
      let s := next_tick s in
      let (r, c) := rxio_reap (fd_ctx d) in
      let d := with_ctx c d in
      if r =? 0 then (d, s)
      else if r <? 0 then
        match tail_unit d with
        | Some p => (retire d, report p (fail_unit p s))
        | None => (retire d, s)
        end
      else
        match tail_unit d with
        | None => reap_loop fuel' i max (retire d) s
        | Some p =>
          reap_loop fuel' i max (retire d)
            (if rs_found s <? ev_cap (rs_events s) then report p s else s)
        end
    else (d, s)
  end.

(** Each turn takes one unit off the ring, so its length is fuel enough. *)
Definition reap_file (i : nat) (max : Z) (f : fio_file) (s : reap_state) : fio_file * reap_state :=
  match ff_eng_data f with
  | None => (f, s)
  | Some d =>
    if fd_ring_count d =? 0 then (f, s)
    else let (d', s') := reap_loop (Z.to_nat (fd_ring_count d)) i max d s in
         (with_eng_data (Some d') f, s')
  end.

(** [for_each_file], from file [i] on. *)
Fixpoint reap_files (i : nat) (max : Z) (fs : list fio_file) (s : reap_state)
    : list fio_file * reap_state :=
  match fs with
  | [] => ([], s)
  | f :: fs' =>
    let (f', s1) := reap_file i max f s in
    let (fs1, s2) := reap_files (S i) max fs' s1 in
    (f' :: fs1, s2)
  end.

(** The [do ... while] loop; [None] means that it is still spinning when the
    fuel is used up. *)
Fixpoint getevents_loop (fuel : nat) (min max : Z) (deadline : option (Z * Z))
    (fs : list fio_file) (s : reap_state) : option (list fio_file * reap_state) :=
  match fuel with
  | O => None
  | S fuel' =>
    let (fs, s) := reap_files 0 max fs s in
    if rs_found s <? min then
      if (match deadline with Some dl => expired (env_now (rs_tick s)) dl | None => false end)
      then Some (fs, s)
      else getevents_loop fuel' min max deadline fs (next_tick s)
    else Some (fs, s)
  end.

Definition new_events (iodepth : Z) : rxio_events :=
  {| ev_arr := replicate (Z.to_nat (iodepth + 16)) None; ev_cap := iodepth + 16; ev_count := 0;
     ev_overrun := false |}.
Definition set_count (n : Z) (ev : rxio_events) : rxio_events :=
  {| ev_arr := ev_arr ev; ev_cap := ev_cap ev; ev_count := n; ev_overrun := ev_overrun ev |}.

(** [t] is the optional timeout, [alloc] whether the two allocations of the
    first call succeed, [tick] the time of the call. *)
Definition fio_rocm_xio_getevents (fuel : nat) (alloc : bool) (min max : Z)
    (t : option (Z * Z)) (tick : nat) (td : thread_data) : option (Z * thread_data) :=
  let deadline := match t with
                  | Some (sec, nsec) =>
                    let now := env_now tick in
                    Some (timespec_normal (fst now + sec) (snd now + nsec))
                  | None => None
                  end in
  match match td_events td with
        | Some ev => Some ev
        | None => if alloc then Some (new_events (td_iodepth td)) else None
        end with
  | None => Some (- ENOMEM, td)
  | Some ev =>
    let s := {| rs_ious := td_ious td; rs_events := set_count 0 ev; rs_found := 0;
                rs_tick := tick |} in
    match getevents_loop fuel min max deadline (td_files td) s with
    | None => None
    | Some (fs, s') =>
      Some (rs_found s',
            with_events (Some (set_count (rs_found s') (rs_events s')))
              (with_ious (rs_ious s') (with_files fs td)))
    end
  end.
End GetEvents.

Definition fio_rocm_xio_event (td : thread_data) (event : Z) : option ptr :=
  match td_events td with
  | None => None
  | Some ev => if (event <? 0) || (ev_count ev <=? event) then None
               else nth (Z.to_nat event) (ev_arr ev) None
  end.

(** ** The specification: each file is a queue of outstanding units

    The state is one list per file, oldest unit first, and the list of
    completed units.  A unit completes only when it is the oldest of its
    file. *)

Definition spec_state : Type := list (list ptr) * list ptr.

Inductive spec_step : spec_state -> spec_state -> Prop :=
| spec_complete i p rest outs done :
    outs !! i = Some (p :: rest) -> spec_step (outs, done) (<[i := rest]> outs, done ++ [p]).

(** ** The invariant of a file

    [jobs] are the work items posted so far, [out] the units that are
    outstanding, oldest first. *)

Definition job_of (d : rocm_xio_file_data) (u : io_u) (slot : Z) : nvmeWorkItem :=
  {| wi_lba := iou_lba d u; wi_lbas := iou_lbas d u; wi_slot := u32 slot;
     wi_is_write := u32 (iou_is_write u); wi_pad := 0; wi_seq := 0 |}.

Definition reaped (jobs : list nvmeWorkItem) (out : list ptr) : Z :=
  Z.of_nat (length jobs) - Z.of_nat (length out).

Record file_inv_at (jobs : list nvmeWorkItem) (out : list ptr) (g : Z) (d : rocm_xio_file_data)
    : Prop := {
  fi_ring : ring_inv (cx_io (fd_ctx d)) (cx_buf_params (fd_ctx d)) jobs (reaped jobs out) g
              (cx_ring (fd_ctx d));
  fi_depth : wr_depth (cx_ring (fd_ctx d)) = fd_iodepth d;
  fi_iodepth : 1 <= fd_iodepth d <= RXIO_RING;
  fi_length : length (fd_ring d) = 63%nat;
  fi_head : fd_ring_head d = Z.of_nat (length jobs) mod RXIO_RING;
  fi_tail : fd_ring_tail d = reaped jobs out mod RXIO_RING;
  fi_count : fd_ring_count d = Z.of_nat (length out);
  fi_out : forall k p, out !! k = Some p ->
    fd_ring d !! Z.to_nat ((reaped jobs out + Z.of_nat k) mod RXIO_RING) = Some (Some p)
}.

Definition file_inv (jobs : list nvmeWorkItem) (out : list ptr) (d : rocm_xio_file_data) : Prop :=
  exists g, file_inv_at jobs out g d.

Definition file_ok (f : fio_file) (out : list ptr) : Prop :=
  match ff_eng_data f with
  | None => out = []
  | Some d => exists jobs, file_inv jobs out d
  end.

Definition engine_ok (td : thread_data) (outs : list (list ptr)) : Prop :=
  Forall2 file_ok (td_files td) outs.

(** The same with what was posted: the work items of the file, oldest first,
    computed with its block size. *)
Definition file_at (f : fio_file) (posted : Z * list nvmeWorkItem) (out : list ptr) : Prop :=
  match ff_eng_data f with
  | None => out = [] /\ snd posted = []
  | Some d => fd_lba_size d = fst posted /\ file_inv (snd posted) out d
  end.

Lemma files_posted fs outs : Forall2 file_ok fs outs -> exists posted, Forall3 file_at fs posted outs.
Proof.
  induction 1 as [|f out fs outs Hf _ [posted IH]]; [exists []; constructor|].
  unfold file_ok in Hf. destruct (ff_eng_data f) as [d|] eqn:E.
  - destruct Hf as [jobs Hf]. exists ((fd_lba_size d, jobs) :: posted).
    constructor; [unfold file_at; rewrite E; by split|done].
  - exists ((0, []) :: posted). constructor; [unfold file_at; rewrite E; by split|done].
Qed.

Lemma files_ok fs posted outs : Forall3 file_at fs posted outs -> Forall2 file_ok fs outs.
Proof.
  induction 1 as [|f [l jobs] out fs posted outs Hf _ IH]; constructor; [|done].
  unfold file_at, file_ok in *. destruct (ff_eng_data f); [exists jobs; apply Hf|apply Hf].
Qed.

(** The event array lists the completed units. *)
Record events_ok (done : list ptr) (s : reap_state) : Prop := {
  eo_found : rs_found s = Z.of_nat (length done);
  eo_room : rs_found s <= ev_cap (rs_events s);
  eo_length : Z.of_nat (length (ev_arr (rs_events s))) = ev_cap (rs_events s);
  eo_overrun : ev_overrun (rs_events s) = false;
  eo_done : forall k p, done !! k = Some p -> ev_arr (rs_events s) !! k = Some (Some p)
}.

(** ** Lemmas *)

Lemma ring_place_ne i j :
  i <> j -> - RXIO_RING < i - j < RXIO_RING ->
  Z.to_nat (i mod RXIO_RING) <> Z.to_nat (j mod RXIO_RING).
Proof.
  intros Hn Hij E. pose proof (Z.mod_pos_bound i RXIO_RING ltac:(done)).
  pose proof (Z.mod_pos_bound j RXIO_RING ltac:(done)).
  apply Hn, (place_inj RXIO_RING); [done|lia|done].
Qed.

Lemma file_bounds jobs out g d :
  file_inv_at jobs out g d ->
  0 <= reaped jobs out <= g /\ g <= Z.of_nat (length jobs) /\
  Z.of_nat (length out) <= fd_iodepth d.
Proof.
  intros H. pose proof (ri_order _ _ _ _ _ _ (fi_ring _ _ _ _ H)) as Ho.
  rewrite (fi_depth _ _ _ _ H) in Ho. unfold reaped in *. lia.
Qed.

(** Posting a unit with room in the ring. *)
Lemma queue_post_ok jobs out d p u :
  file_inv jobs out d -> Z.of_nat (length out) < fd_iodepth d ->
  Z.of_nat (length jobs) + 1 < wrap32 ->
  exists d', queue_post p u d = ((FIO_Q_QUEUED, iu_error u), d') /\
    fd_lba_size d' = fd_lba_size d /\ fd_iodepth d' = fd_iodepth d /\
    file_inv (jobs ++ [job_of d u (fd_ring_head d)]) (out ++ [p]) d'.
Proof.
  intros [g H] Hroom Hmax. pose proof (file_bounds _ _ _ _ H) as Hb.
  destruct H as [Hr Hd Hi Hlen Hh Ht Hc Ho].
  unfold queue_post, rxio_post_work. cbn [with_slots fd_ctx].
  edestruct (ring_post_ok _ _ _ _ _ _ (iou_lba d u) (iou_lbas d u) (iou_is_write u)
    (fd_ring_head d) Hr) as (r' & -> & Hd' & Hr'); [unfold reaped in *; lia|done|].
  eexists. split; [done|]. split; [done|]. split; [done|]. exists g.
  set (P := Z.of_nat (length jobs)) in *.
  assert (reaped (jobs ++ [job_of d u (fd_ring_head d)]) (out ++ [p]) = reaped jobs out) as Er.
  { unfold reaped. rewrite !length_app. cbn. lia. }
  split; cbn [with_ctx with_slots with_ring fd_ctx fd_iodepth fd_ring fd_ring_head fd_ring_tail
    fd_ring_count cx_ring cx_io cx_buf_params]; rewrite ?Er; try done.
  - congruence.
  - by rewrite length_insert.
  - rewrite Hh, length_app. cbn [length]. rewrite Z.add_mod_idemp_l by done. f_equal. lia.
  - rewrite Hc, length_app. cbn. lia.
  - intros k q Hk. rewrite Hh. destruct (decide (k = length out)) as [->|Hn].
    + rewrite list_lookup_middle in Hk by done. injection Hk as <-.
      replace (reaped jobs out + Z.of_nat (length out)) with P by (unfold reaped; lia).
      pose proof (Z.mod_pos_bound P RXIO_RING ltac:(done)). unfold RXIO_RING in *.
      by rewrite list_lookup_insert_eq by lia.
    + assert (k < length out)%nat as Hkl.
      { apply lookup_lt_Some in Hk. rewrite length_app in Hk. cbn in Hk. lia. }
      rewrite lookup_app_l in Hk by done.
      rewrite list_lookup_insert_ne; [by apply Ho|]. apply ring_place_ne; unfold reaped in *; lia.
Qed.

(** A unit retired from the tail. *)
Lemma retire_ok jobs p rest g d c' r' :
  file_inv_at jobs (p :: rest) g d ->
  wr_depth r' = wr_depth (cx_ring (fd_ctx d)) ->
  c' = with_ring r' (fd_ctx d) ->
  ring_inv (cx_io (fd_ctx d)) (cx_buf_params (fd_ctx d)) jobs (reaped jobs (p :: rest) + 1) g r' ->
  tail_unit (with_ctx c' d) = Some p /\ file_inv_at jobs rest g (retire (with_ctx c' d)).
Proof.
  intros [Hr Hd Hi Hlen Hh Ht Hc Ho] Hd' -> Hr'.
  assert (reaped jobs (p :: rest) + 1 = reaped jobs rest) as Er by (unfold reaped; cbn; lia).
  rewrite Er in Hr'. split.
  - unfold tail_unit. cbn. rewrite Ht, nth_lookup. specialize (Ho 0%nat p eq_refl).
    rewrite Z.add_0_r in Ho. by rewrite Ho.
  - split; cbn [with_ctx retire with_slots with_ring fd_ctx fd_iodepth fd_ring fd_ring_head
      fd_ring_tail fd_ring_count cx_ring cx_io cx_buf_params]; try done.
    + congruence.
    + rewrite Ht, Z.add_mod_idemp_l by done. by rewrite <- Er.
    + rewrite Hc. cbn. lia.
    + intros k q Hk. specialize (Ho (S k) q Hk). rewrite <- Ho. do 2 f_equal. rewrite <- Er. f_equal. lia.
Qed.

Section Reaping.
Context {E : FioEnv}.

(** Letting the GPU run completes jobs and changes nothing else. *)
Lemma gpu_progress_ok i t jobs out g d :
  file_inv_at jobs out g d ->
  exists g', g <= g' /\ (Z.of_nat (length jobs) <= env_gpu i t -> g' = Z.of_nat (length jobs)) /\
    file_inv_at jobs out g' (gpu_progress i t d) /\
    fd_iodepth (gpu_progress i t d) = fd_iodepth d /\
    fd_ring_count (gpu_progress i t d) = fd_ring_count d.
Proof.
  intros H. pose proof (file_bounds _ _ _ _ H) as Hb. destruct H as [Hr Hd Hi Hlen Hh Ht Hc Ho].
  unfold gpu_progress. rewrite (ri_index _ _ _ _ _ _ Hr).
  destruct (gpu_run_ok _ _ (Z.to_nat (env_gpu i t - g)) _ _ _ _ Hr) as (Hd' & g' & Hg & Hor & Hr').
  exists g'. split; [done|]. split.
  - intros Hall. pose proof (ri_order _ _ _ _ _ _ Hr'). destruct Hor; lia.
  - split; [|done]. split; cbn; try done. congruence.
Qed.

Lemma events_ok_report done p s :
  events_ok done s -> rs_found s < ev_cap (rs_events s) -> events_ok (done ++ [p]) (report p s).
Proof.
  intros [Hf Hr Hl Ho Hd] Hlt. split; cbn.
  - rewrite length_app, Hf. cbn. lia.
  - lia.
  - by rewrite length_insert.
  - rewrite Ho, Hf. apply Z.leb_gt. lia.
  - intros k q Hk. rewrite Hf, Nat2Z.id. destruct (decide (k = length done)) as [->|Hn].
    + rewrite list_lookup_middle in Hk by done. injection Hk as <-.
      by rewrite list_lookup_insert_eq by lia.
    + apply lookup_lt_Some in Hk as Hlt'. rewrite length_app in Hlt'. cbn in Hlt'.
      rewrite lookup_app_l in Hk by lia. rewrite list_lookup_insert_ne by done. by apply Hd.
Qed.

Lemma events_ok_tick done s : events_ok done s -> events_ok done (next_tick s).
Proof. by intros []. Qed.

(** What the loop over one file does: it takes units off the front, in
    order, and reports each of them. *)
Lemma reap_loop_ok fuel i max jobs out done d s d' s' :
  file_inv jobs out d -> events_ok done s -> max <= ev_cap (rs_events s) ->
  (length out <= fuel)%nat -> reap_loop fuel i max d s = (d', s') ->
  exists taken rest, out = taken ++ rest /\ file_inv jobs rest d' /\
    events_ok (done ++ taken) s' /\ (rs_tick s <= rs_tick s')%nat /\
    ev_cap (rs_events s') = ev_cap (rs_events s) /\
    (rs_found s <= max -> rs_found s' <= max) /\ rs_ious s' = rs_ious s /\ fd_lba_size d' = fd_lba_size d /\
    ((forall t, (rs_tick s <= t)%nat -> Z.of_nat (length jobs) <= env_gpu i t) ->
     rest = [] \/ max <= rs_found s').
Proof.
  revert out done d s. induction fuel as [|fuel IH]; intros out done d s [g H] He Hmax Hfuel; cbn [reap_loop].
  { intros [= <- <-]. destruct out; [|cbn in Hfuel; lia]. exists [], []. rewrite (app_nil_r done).
    split_and!; try done. { by exists g. } intros _. by left. }
  pose proof (fi_count _ _ _ _ H) as Hc.
  destruct ((0 <? fd_ring_count d) && (rs_found s <? max)) eqn:Eb.
  2:{ intros [= <- <-]. exists [], out. rewrite (app_nil_r done). split_and!; try done. { by exists g. }
      intros _. apply andb_false_iff in Eb as [Eb|Eb]; bool_to_prop; [left|by right].
      destruct out; [done|]. cbn in Hc. lia. }
  bool_to_prop. destruct (gpu_progress_ok i (rs_tick s) _ _ _ _ H) as (g' & Hg & Hall & H' & _ & _).
  unfold rxio_reap. destruct out as [|p out]; [cbn in Hc; lia|].
  pose proof (file_bounds _ _ _ _ H') as Hb.
  destruct (decide (reaped jobs (p :: out) < g')) as [Hlt|Hge].
  - destruct (ring_reap_ok _ _ _ _ _ _ (fi_ring _ _ _ _ H') Hlt) as (r' & -> & Hd' & Hr').
    destruct (retire_ok _ _ _ _ _ (with_ring r' (fd_ctx (gpu_progress i (rs_tick s) d))) r' H' Hd' eq_refl Hr') as [Htl Hret].
    change (1 =? 0) with false. change (1 <? 0) with false. cbv iota. rewrite Htl.
    cbn [next_tick rs_found rs_events]. rewrite (proj2 (Z.ltb_lt _ _)) by lia. intros Hloop.
    edestruct (IH out (done ++ [p])) as (taken & rest & -> & Hinv & Hev & Htick & Hcap & Hm & Hious & Hlba & Hlive);
      [by exists g'|apply events_ok_report; [by apply events_ok_tick|cbn; lia]|done|cbn in Hfuel; lia|exact Hloop|].
    exists (p :: taken), rest. split; [done|]. split; [done|]. rewrite <- app_assoc in Hev.
    split; [done|]. cbn in Htick, Hcap, Hm, Hious, Hlive. split; [lia|]. split; [done|].
    split; [intros; apply Hm; lia|]. split; [done|]. split; [done|]. intros Hfair. apply Hlive.
    intros t Ht'. apply Hfair. lia.
  - assert (g' = reaped jobs (p :: out)) as -> by lia.
    rewrite (ring_reap_wait _ _ _ _ _ (fi_ring _ _ _ _ H')). intros [= <- <-].
    exists [], (p :: out). rewrite (app_nil_r done). split; [done|]. split.
    { exists (reaped jobs (p :: out)). destruct H'. split; done. }
    split; [by apply events_ok_tick|]. split; [cbn; lia|]. split_and!; [done|cbn; lia|done|done|].
    intros Hfair. specialize (Hall (Hfair _ ltac:(done))). unfold reaped in Hall. cbn in Hall. lia.
Qed.

(** By tick [T] the GPUs of all [n] files could have done everything. *)
Definition all_done_by (n T : nat) : Prop :=
  forall i t, (i < n)%nat -> (T <= t)%nat -> wrap32 <= env_gpu i t.

(** What a pass over files leaves behind: the units taken and the units
    that remain, per file. *)
Record pass_ok (n : nat) (max : Z) (posted : list (Z * list nvmeWorkItem)) (outs : list (list ptr))
    (done : list ptr) (fs' : list fio_file) (s s' : reap_state) (taken rest : list (list ptr)) : Prop := {
  pk_outs : outs = zip_with app taken rest /\ length taken = length rest;
  pk_files : Forall3 file_at fs' posted rest;
  pk_events : events_ok (done ++ concat taken) s';
  pk_tick : (rs_tick s <= rs_tick s')%nat;
  pk_cap : ev_cap (rs_events s') = ev_cap (rs_events s);
  pk_max : rs_found s <= max -> rs_found s' <= max;
  pk_ious : rs_ious s' = rs_ious s;
  pk_live : all_done_by n (rs_tick s) -> concat rest = [] \/ max <= rs_found s'
}.

Lemma reap_file_ok n i max f ph out done s f' s' :
  file_at f ph out -> events_ok done s -> max <= ev_cap (rs_events s) -> (i < n)%nat ->
  reap_file i max f s = (f', s') ->
  exists taken rest, pass_ok n max [ph] [out] done [f'] s s' [taken] [rest].
Proof.
  unfold reap_file, file_at. intros Hf He Hmax Hi.
  assert (forall out, file_at f ph out -> (out = []) -> (f, s) = (f', s') ->
    exists taken rest, pass_ok n max [ph] [out] done [f'] s s' [taken] [rest]) as Hnone.
  { intros out' Hok -> [= <- <-]. exists [], []. split; cbn; try done; auto.
    - by repeat constructor.
    - by rewrite app_nil_r. }
  destruct (ff_eng_data f) as [d|] eqn:Ed.
  2:{ destruct Hf as [-> Hf]. apply (Hnone []); [unfold file_at; rewrite Ed; by split|done..]. }
  destruct ph as [l jobs]. destruct Hf as [Hl Hinv]. cbn [fst snd] in *. pose proof Hinv as [g Hat]. pose proof (fi_count _ _ _ _ Hat) as Hc.
  destruct (fd_ring_count d =? 0) eqn:E0; bool_to_prop.
  { apply (Hnone out); [unfold file_at; rewrite Ed; by split|]. destruct out; [done|cbn in Hc; lia]. }
  destruct (reap_loop _ i max d s) as [d' s1] eqn:El. intros [= <- <-].
  assert (length out <= Z.to_nat (fd_ring_count d))%nat as Hfuel by lia.
  destruct (reap_loop_ok _ _ _ _ _ _ _ _ _ _ Hinv He Hmax Hfuel El)
    as (taken & rest & -> & Hinv' & Hev & Htick & Hcap & Hm & Hious & Hlba & Hlive).
  exists taken, rest. split; cbn; try done.
  - constructor; [|constructor]. unfold file_at. cbn. split; [congruence|done].
  - by rewrite app_nil_r.
  - intros Hall. rewrite app_nil_r. apply Hlive. intros t Ht.
    pose proof (ri_order _ _ _ _ _ _ (fi_ring _ _ _ _ Hat)). specialize (Hall i t Hi Ht). lia.
Qed.

Lemma pass_ok_cons n max ph phs out outs done f' fs' s s1 s2 t r taken rest :
  pass_ok n max [ph] [out] done [f'] s s1 [t] [r] ->
  pass_ok n max phs outs (done ++ t) fs' s1 s2 taken rest ->
  pass_ok n max (ph :: phs) (out :: outs) done (f' :: fs') s s2 (t :: taken) (r :: rest).
Proof.
  intros [[Ho1 _] Hf1 He1 Ht1 Hc1 Hm1 Hi1 Hl1]; cbn in He1; intros [[Ho2 Hlen] Hf2 He2 Ht2 Hc2 Hm2 Hi2 Hl2].
  cbn in Ho1. injection Ho1 as ->. rewrite app_nil_r in He1. split; cbn; try (congruence || lia).
  - split; congruence.
  - constructor; [|done]. by inversion Hf1.
  - by rewrite app_assoc.
  - intros Hall. destruct Hl1 as [Hr|Hr]; [done| |].
    + cbn in Hr. rewrite app_nil_r in Hr. rewrite Hr. cbn. apply Hl2.
      intros i k Hi Hk. apply Hall; [done|lia].
    + right. pose proof (eo_found _ _ He1) as E1. pose proof (eo_found _ _ He2) as E2.
      rewrite !length_app in *. lia.
Qed.

Lemma reap_files_ok n i max fs phs outs done s fs' s' :
  Forall3 file_at fs phs outs -> events_ok done s -> max <= ev_cap (rs_events s) ->
  (i + length fs <= n)%nat -> reap_files i max fs s = (fs', s') ->
  exists taken rest, pass_ok n max phs outs done fs' s s' taken rest.
Proof.
  intros Hf. revert i done s fs' s'. induction Hf as [|f ph out fs phs outs Hf Hfs IH];
    intros i done s fs' s' He Hmax Hi; cbn [reap_files].
  { intros [= <- <-]. exists [], []. split; cbn; auto using Forall3_nil. by rewrite app_nil_r. }
  destruct (reap_file i max f s) as [f1 s1] eqn:E1.
  destruct (reap_files (S i) max fs s1) as [fs2 s2] eqn:E2. intros [= <- <-]. cbn in Hi.
  assert (i < n)%nat as Hin by lia.
  destruct (reap_file_ok n _ _ _ _ _ _ _ _ _ Hf He Hmax Hin E1) as (t & r & Hp1).
  pose proof (pk_events _ _ _ _ _ _ _ _ _ _ Hp1) as He1. cbn in He1. rewrite app_nil_r in He1.
  pose proof (pk_cap _ _ _ _ _ _ _ _ _ _ Hp1) as Hc1. rewrite <- Hc1 in Hmax.
  assert (S i + length fs <= n)%nat as Hin' by lia.
  destruct (IH _ _ _ _ _ He1 Hmax Hin' E2) as (taken & rest & Hp2).
  exists (t :: taken), (r :: rest). by eapply pass_ok_cons.
Qed.

(** Taking units off the front is a run of the specification. *)
Lemma spec_take i taken rest outs done :
  outs !! i = Some (taken ++ rest) ->
  rtc spec_step (outs, done) (<[i := rest]> outs, done ++ taken).
Proof.
  revert outs done. induction taken as [|p taken IH]; intros outs done Hi; cbn in Hi.
  { rewrite app_nil_r, list_insert_id by done. apply rtc_refl. }
  eapply rtc_l; [by apply (spec_complete i p (taken ++ rest))|].
  replace (done ++ p :: taken) with ((done ++ [p]) ++ taken) by by rewrite <- app_assoc.
  rewrite <- (list_insert_insert_eq outs i rest (taken ++ rest)). apply IH.
  apply list_lookup_insert_eq. by eapply lookup_lt_Some.
Qed.

Lemma spec_pass pre taken rest done :
  length taken = length rest ->
  rtc spec_step (pre ++ zip_with app taken rest, done) (pre ++ rest, done ++ concat taken).
Proof.
  revert pre rest done. induction taken as [|t taken IH]; intros pre [|r rest] done Hl;
    try discriminate Hl.
  { cbn. rewrite (app_nil_r done). apply rtc_refl. }
  cbn [zip_with concat]. etrans.
  - apply (spec_take (length pre) t r). by rewrite list_lookup_middle.
  - rewrite insert_app_r_alt, Nat.sub_diag by done. cbn [insert list_insert].
    replace (pre ++ r :: zip_with app taken rest) with ((pre ++ [r]) ++ zip_with app taken rest)
      by by rewrite <- app_assoc.
    replace (pre ++ r :: rest) with ((pre ++ [r]) ++ rest) by by rewrite <- app_assoc.
    rewrite app_assoc. apply IH. by injection Hl.
Qed.

Lemma length_concat_zip {A} (taken rest : list (list A)) :
  length taken = length rest ->
  length (concat (zip_with app taken rest)) = (length (concat taken) + length (concat rest))%nat.
Proof.
  revert rest. induction taken as [|t taken IH]; intros [|r rest] Hl; try discriminate Hl; [done|].
  cbn. rewrite !length_app, IH by (by injection Hl). lia.
Qed.

Definition past_deadline (deadline : option (Z * Z)) (tick : nat) : Prop :=
  exists dl, deadline = Some dl /\ expired (env_now tick) dl = true.

Lemma getevents_loop_ok fuel min max deadline fs phs outs fin s fs' s' :
  Forall3 file_at fs phs outs -> events_ok fin s -> max <= ev_cap (rs_events s) ->
  rs_found s <= max -> getevents_loop fuel min max deadline fs s = Some (fs', s') ->
  exists rest fin', rtc spec_step (outs, fin) (rest, fin') /\
    Forall3 file_at fs' phs rest /\ events_ok fin' s' /\ rs_found s' <= max /\
    rs_ious s' = rs_ious s /\ ev_cap (rs_events s') = ev_cap (rs_events s) /\
    (min <= rs_found s' \/ past_deadline deadline (rs_tick s')).
Proof.
  revert fs outs fin s. induction fuel as [|fuel IH]; intros fs outs fin s Hf He Hcap Hmax;
    cbn [getevents_loop].
  { intros Hn. discriminate Hn. }
  destruct (reap_files 0 max fs s) as [fs1 s1] eqn:E1.
  destruct (reap_files_ok (length fs) 0 max _ _ _ _ _ _ _ Hf He Hcap (Nat.le_refl _) E1)
    as (taken & rest & [[-> Hl] Hf1 He1 _ Hc1 Hm1 Hi1 _]).
  pose proof (spec_pass [] taken rest fin Hl) as Hspec. cbn in Hspec.
  destruct (rs_found s1 <? min) eqn:Emin; bool_to_prop.
  - destruct (match deadline with Some dl => expired (env_now (rs_tick s1)) dl | None => false end) eqn:Edl.
    + intros [= <- <-]. exists rest, (fin ++ concat taken).
      split_and!; try done; [by apply Hm1|]. right. destruct deadline as [dl|]; [|done]. by exists dl.
    + intros Hloop.
      destruct (IH _ _ _ _ Hf1 (events_ok_tick _ _ He1) ltac:(cbn; lia) ltac:(cbn; auto) Hloop)
        as (rest' & fin' & Hs & ? & ? & ? & ? & ? & ?).
      exists rest', fin'. split; [by etrans|]. split_and!; try done; cbn in *; congruence.
  - intros [= <- <-]. exists rest, (fin ++ concat taken). split_and!; try done; [by apply Hm1|by left].
Qed.

(** With everything done by tick [T], a pass that starts at or after [T]
    finds what is asked for; each earlier pass moves time on. *)
Lemma getevents_loop_live k min max deadline fs phs outs fin s T :
  Forall3 file_at fs phs outs -> events_ok fin s -> max <= ev_cap (rs_events s) ->
  all_done_by (length fs) T -> min <= max ->
  min <= rs_found s + Z.of_nat (length (concat outs)) -> (T <= rs_tick s + k)%nat ->
  is_Some (getevents_loop (S k) min max deadline fs s).
Proof.
  revert fs outs fin s. induction k as [|k IH]; intros fs outs fin s Hf He Hcap Hall Hmm Hmin HT;
    cbn [getevents_loop]; destruct (reap_files 0 max fs s) as [fs1 s1] eqn:E1;
    destruct (reap_files_ok (length fs) 0 max _ _ _ _ _ _ _ Hf He Hcap (Nat.le_refl _) E1)
      as (taken & rest & [[-> Hl] Hf1 He1 Ht1 Hc1 _ _ Hlive]);
    rewrite length_concat_zip in Hmin by done;
    pose proof (eo_found _ _ He) as Ef; pose proof (eo_found _ _ He1) as Ef1;
    rewrite length_app in Ef1; destruct (rs_found s1 <? min) eqn:Emin; bool_to_prop; try (by eexists).
  - destruct Hlive as [Hr|Hr]; [intros i t Hi Ht; apply Hall; [done|lia]| |lia].
    rewrite Hr in Hmin. cbn in Hmin. lia.
  - destruct (match deadline with Some dl => expired (env_now (rs_tick s1)) dl | None => false end); [done|].
    apply (IH fs1 rest (fin ++ concat taken)); cbn; try done; try lia.
    + by apply events_ok_tick.
    + apply Forall3_length_lr in Hf, Hf1. rewrite length_zip_with in Hf.
      assert (length fs1 = length fs) as -> by lia. done.
Qed.

(** The event array of the thread, if it was allocated, fits [max]. *)
Definition array_ok (max : Z) (td : thread_data) : Prop :=
  match td_events td with
  | Some ev => Z.of_nat (length (ev_arr ev)) = ev_cap ev /\ ev_overrun ev = false /\ max <= ev_cap ev
  | None => 0 <= td_iodepth td + 16 /\ max <= td_iodepth td + 16
  end.

Lemma events_ok_init td ev max alloc tick :
  0 <= max -> array_ok max td ->
  match td_events td with
  | Some ev => Some ev
  | None => if alloc : bool then Some (new_events (td_iodepth td)) else None
  end = Some ev ->
  let s := {| rs_ious := td_ious td; rs_events := set_count 0 ev; rs_found := 0; rs_tick := tick |} in
  events_ok [] s /\ max <= ev_cap (rs_events s).
Proof.
  unfold array_ok. intros H0 Hev Eev. destruct (td_events td) as [ev'|].
  - injection Eev as ->. destruct Hev as (Hl & Ho & Hm). split; [split; cbn; try done; lia|done].
  - destruct alloc; [|done]. injection Eev as <-. destruct Hev as [Hp Hm].
    split; [split; cbn; try done; rewrite length_replicate; lia|done].
Qed.

(** ** Properties *)

(** A call of getevents, file by file: what was posted stays what it was. *)
Lemma getevents_ok fuel alloc min max t tick td phs outs n td' :
  Forall3 file_at (td_files td) phs outs -> 0 <= max -> array_ok max td ->
  fio_rocm_xio_getevents fuel alloc min max t tick td = Some (n, td') ->
  (n = - ENOMEM /\ td' = td /\ td_events td = None /\ alloc = false) \/
  exists rest fin, rtc spec_step (outs, []) (rest, fin) /\ Forall3 file_at (td_files td') phs rest /\
    n = Z.of_nat (length fin) /\ n <= max /\ array_ok max td' /\ td_ious td' = td_ious td /\
    (forall k, fio_rocm_xio_event td' (Z.of_nat k) = fin !! k) /\
    (n < min -> t <> None).
Proof.
  intros Hf H0 Hev. unfold fio_rocm_xio_getevents.
  destruct (match td_events td with Some ev => _ | None => _ end) as [ev|] eqn:Eev.
  2:{ intros [= <- <-]. left. destruct (td_events td); [done|]. by destruct alloc. }
  destruct (events_ok_init td ev max alloc tick H0 Hev Eev) as [He Hm].
  match goal with |- context [getevents_loop fuel min max ?dl] => set (deadline := dl) end.
  destruct (getevents_loop _ _ _ deadline _ _) as [[fs' s']|] eqn:El; [|done]. intros [= <- <-]. right.
  destruct (getevents_loop_ok _ _ _ _ _ _ _ _ _ _ _ Hf He Hm H0 El)
    as (rest & fin & Hs & Hf' & He' & Hm' & Hi' & Hc' & Hmin).
  exists rest, fin. pose proof (eo_found _ _ He') as Efound.
  split_and!; try done.
  - unfold array_ok. cbn. split_and!; [by apply eo_length in He'|by apply eo_overrun in He'|].
    cbn in Hc'. cbn in Hm. lia.
  - intros k. unfold fio_rocm_xio_event. cbn. rewrite Efound.
    rewrite (proj2 (Z.ltb_ge _ 0)) by lia. cbn [orb]. rewrite Nat2Z.id.
    destruct (_ <=? _) eqn:Ek; bool_to_prop.
    + symmetry. apply lookup_ge_None. lia.
    + destruct (lookup_lt_is_Some_2 fin k) as [p Ep]; [lia|].
      rewrite nth_lookup, (eo_done _ _ He' _ _ Ep). done.
  - intros Hlt ->. destruct Hmin as [?|(dl & Edl & _)]; [lia|done].
Qed.

(** C7: Reaping refines the specification.  Whatever the GPUs have done and
    however long the loop spins, a call of getevents either fails with
    -ENOMEM before doing anything, or is a run of the specification: within
    each file units complete oldest first, each exactly once; the return
    value, at most [max], is their number, event [k] is the [k]-th of them,
    the array is never overrun and no unit is given an error.  It returns
    early, with fewer than [min], only when the deadline has passed.  The
    engine is in a state that opening, queueing, reaping and GPU progress lead
    to ([engine_ok]), in which fewer than 2^32 units were posted to a file;
    the array has [max] places ([array_ok]). *)
Theorem getevents_refines fuel alloc min max t tick td outs n td' :
  engine_ok td outs -> 0 <= max -> array_ok max td ->
  fio_rocm_xio_getevents fuel alloc min max t tick td = Some (n, td') ->
  (n = - ENOMEM /\ td' = td /\ td_events td = None /\ alloc = false) \/
  exists rest fin, rtc spec_step (outs, []) (rest, fin) /\ engine_ok td' rest /\
    n = Z.of_nat (length fin) /\ n <= max /\ array_ok max td' /\ td_ious td' = td_ious td /\
    (forall k, fio_rocm_xio_event td' (Z.of_nat k) = fin !! k) /\
    (n < min -> t <> None).
Proof.
  intros [phs Hf]%files_posted H0 Hev Hg.
  destruct (getevents_ok _ _ _ _ _ _ _ _ _ _ _ Hf H0 Hev Hg) as [?|(rest & fin & Hs & Hf' & H)]; [by left|].
  right. exists rest, fin. split; [done|]. split; [by eapply files_ok|done].
Qed.

(** C15: Getevents terminates with what was asked for.  If at least [min]
    units are outstanding, [min] is at most [max], and the devices complete
    what they are given (by some tick all of it), then finitely many passes
    of the spinning loop are enough, and without a timeout the call returns
    at least [min] units.  [engine_ok] includes that fewer than 2^32 units
    were posted to each file and that its ring was not rebuilt: at 2^32 the
    32-bit order counter wraps, nothing is reaped any more and the call
    spins for ever. *)
Theorem getevents_returns min max t tick td outs T :
  engine_ok td outs -> 0 <= max -> array_ok max td ->
  min <= max -> min <= Z.of_nat (length (concat outs)) ->
  all_done_by (length (td_files td)) T ->
  exists fuel n td', fio_rocm_xio_getevents fuel true min max t tick td = Some (n, td') /\
    (t = None -> min <= n).
Proof.
  intros [phs Hf]%files_posted H0 Hev Hmm Hmin Hall. exists (S T). unfold fio_rocm_xio_getevents.
  destruct (match td_events td with Some ev => _ | None => _ end) as [ev|] eqn:Eev.
  2:{ by destruct (td_events td). }
  destruct (events_ok_init td ev max true tick H0 Hev Eev) as [He Hm].
  match goal with |- context [getevents_loop (S T) min max ?dl] => set (deadline := dl) end.
  destruct (getevents_loop_live T min max deadline _ _ _ _ _ T Hf He Hm Hall Hmm)
    as [[fs' s'] El]; [cbn; lia|lia|]. rewrite El. do 2 eexists. split; [done|].
  destruct (getevents_loop_ok _ _ _ _ _ _ _ _ _ _ _ Hf He Hm H0 El)
    as (_ & _ & _ & _ & _ & _ & _ & _ & [?|(dl & Edl & _)]); [done|]. intros ->. done.
Qed.

(** C12: Posting refines the specification.  For a read or write on an open
    file, as long as fewer than [2^32] units have been posted, the unit is
    accepted exactly when fewer than [iodepth] are outstanding, becomes the
    newest of its file, and the work item for the GPU carries its block
    address, its block count and its direction; otherwise the call reports
    busy.  No other file, no error code and no accepted unit is touched. *)
Theorem queue_refines p u f d jobs out td outs :
  engine_ok td outs -> td_ious td !! p = Some u -> td_files td !! iu_file u = Some f ->
  ff_eng_data f = Some d -> outs !! iu_file u = Some out -> file_inv jobs out d ->
  iu_ddir u = DDIR_READ \/ iu_ddir u = DDIR_WRITE -> fd_lba_size d <> 0 ->
  Z.of_nat (length jobs) + 1 < wrap32 ->
  let st := fst (fio_rocm_xio_queue p td) in
  let td' := snd (fio_rocm_xio_queue p td) in
  td_ious td' = td_ious td /\ td_events td' = td_events td /\
  if Z.of_nat (length out) <? fd_iodepth d then
    st = FIO_Q_QUEUED /\ engine_ok td' (<[iu_file u := out ++ [p]]> outs) /\
    exists d', ff_eng_data <$> (td_files td' !! iu_file u) = Some (Some d') /\
      file_inv (jobs ++ [job_of d u (fd_ring_head d)]) (out ++ [p]) d'
  else st = FIO_Q_BUSY /\ engine_ok td' outs /\ td_files td' = td_files td.
Proof.
  intros Hf Hu Hfile Hd Hout Hinv Hdir Hlba Hmax. unfold fio_rocm_xio_queue. rewrite Hu, Hfile, Hd.
  assert (set_error p (iu_error u) (td_ious td) = td_ious td) as Hsame.
  { unfold set_error. apply map_eq. intros q. destruct (decide (q = p)) as [->|Hn].
    - rewrite lookup_alter_eq, Hu. by destruct u.
    - by rewrite lookup_alter_ne. }
  assert (queue_unit p u d = if fd_iodepth d <=? fd_ring_count d
                             then ((FIO_Q_BUSY, iu_error u), d) else queue_post p u d) as ->.
  { unfold queue_unit. rewrite (proj2 (Z.eqb_neq _ _) Hlba). by destruct Hdir as [-> | ->]. }
  pose proof Hinv as [g Hat]. rewrite (fi_count _ _ _ _ Hat).
  destruct (Z.of_nat (length out) <? fd_iodepth d) eqn:Eroom; bool_to_prop.
  - rewrite (proj2 (Z.leb_gt _ _)) by lia.
    destruct (queue_post_ok _ _ _ p u Hinv Eroom Hmax) as (d' & -> & _ & _ & Hinv').
    cbn. rewrite Hsame. split_and!; try done.
    + apply Forall2_insert; [done|]. unfold file_ok. cbn. eauto.
    + exists d'. rewrite list_lookup_insert_eq by (by eapply lookup_lt_Some). done.
  - rewrite (proj2 (Z.leb_le _ _)) by lia. cbn. rewrite Hsame.
    assert (with_eng_data (Some d) f = f) as -> by (destruct f; unfold with_eng_data; cbn in *; by rewrite Hd).
    rewrite list_insert_id by done. done.
Qed.
End Reaping.

Section OpenCloseProperties.
Context {X : Rxio}.

Lemma clamp_bounds n : 1 <= clamp_iodepth n <= RXIO_RING.
Proof.
  unfold clamp_iodepth, RXIO_RING. destruct (n <? 1) eqn:E1; bool_to_prop.
  - change (63 <? 1) with false. lia.
  - destruct (63 <? n) eqn:E2; bool_to_prop; lia.
Qed.

(** A freshly opened file is an empty queue. *)
Lemma new_file_data_ok c c0 depth :
  1 <= depth <= RXIO_RING -> 0 < io_queueSize (cx_io c) ->
  cx_queue_state c0 = (0, 1) -> cx_ring c = start_ring depth c0 ->
  file_inv [] [] (new_file_data c depth).
Proof.
  intros Hd Hq Hs Hr. exists 0. split; cbn; try done.
  - rewrite Hr. apply ring_inv_start; [lia|done|by rewrite Hs].
  - by rewrite Hr.
Qed.

(** A file that opens is an empty queue of the clamped depth; one that does
    not has a positive error number and no engine data. *)
Lemma open_file_ok td f h :
  ff_eng_data f = None -> 0 < u16 (opt_queue_depth (td_options td)) ->
  wp (fio_rocm_xio_open_file td f) (fun out h' =>
    (0 < fst out /\ ff_eng_data (snd out) = None) \/
    (fst out = 0 /\ exists d m, ff_eng_data (snd out) = Some d /\
       fd_iodepth d = clamp_iodepth (td_iodepth td) /\ file_inv [] [] d /\
       cx_field (fd_ctx d) F_controller = true /\
       forall r, rx_held h' r = rx_held h r + ctx_owns (fd_ctx d) r + stays m r
                   + match r with RFileData | RCtx => 1 | _ => 0 end)) h.
Proof.
  intros Hf Hq. unfold fio_rocm_xio_open_file.
  apply wp_bind, wp_call. destruct (_ <? 0); [apply wp_ret; by left|].
  apply wp_bind, wp_modify. unfold rxio_ctx_alloc. apply wp_bind, wp_bind, wp_call.
  destruct (_ <? 0); [apply wp_ret, wp_bind, wp_modify, wp_ret; by left|].
  apply wp_bind, wp_modify, wp_ret, wp_bind.
  eapply wp_mono; [apply setup_held|]. intros [rc c] h1 [m [Hrc|(Hrc & Hready & Hh1)]]; cbn [fst snd] in *.
  { rewrite (proj2 (Z.ltb_lt _ _) Hrc). apply wp_bind, wp_modify, wp_bind, wp_modify, wp_ret.
    left. split; [cbn; lia|done]. }
  subst rc. change (0 <? 0) with false. cbv iota.
  set (f' := if ff_real_file_size f =? 0 then _ else f).
  assert (ff_eng_data f' = None) as Hf' by (unfold f'; by destruct (_ =? 0)).
  apply wp_bind. pose proof (clamp_bounds (td_iodepth td)) as Hd.
  eapply wp_mono; [by apply (start_held _ _ _ _ _ _ Hready (proj1 Hd) Hh1)|].
  intros [rc c2] h2 [Hrc|(Hrc & Hcon & _ & Hio & (c0 & Hst & Hring) & Hh2)]; cbn [fst snd] in *.
  { rewrite (proj2 (Z.ltb_lt _ _) Hrc). apply wp_bind.
    destruct (rxio_teardown c2 h2) as [c3 h3] eqn:Et. unfold wp. rewrite Et.
    left. split; [cbn; lia|done]. }
  subst rc. change (0 <? 0) with false. cbv iota. apply wp_ret. right. split; [done|].
  eexists _, m. split; [done|]. split; [done|]. split_and!.
  - eapply new_file_data_ok; try done. rewrite Hio. cbn. by rewrite (cr_queue_size _ _ Hready).
  - done.
  - intros r. cbn [fd_ctx new_file_data]. rewrite Hh2. cbn [rx_held]. destruct r; compute_tests; lia.
Qed.

(** C28: Opening and closing.  Opening a file either reports a positive error
    number and attaches nothing, or succeeds with an empty queue of the
    clamped depth.  Closing such a file gives back what opening it took: the
    file's memory and the context, the descriptors, the reference to the BAR,
    the controller's queue pair, the quiesced namespace, the data buffer and
    the PRP lists of the transfers, the queue state, stream, work ring, stop
    flag and kernel.  Two things it took stay, for the code never frees them:
    the memory of the rings that [createQueue] allocated, with their PRP
    lists, and the mapping of the BAR, with its file descriptor, if this open had to
    make it.  The engine's option for the depth is not 0 at its 16 bits. *)
Theorem open_close_balanced td f h :
  ff_eng_data f = None -> 0 < u16 (opt_queue_depth (td_options td)) ->
  wp (fio_rocm_xio_open_file td f) (fun out h' =>
    (0 < fst out /\ ff_eng_data (snd out) = None) \/
    (fst out = 0 /\ exists d, ff_eng_data (snd out) = Some d /\
       fd_iodepth d = clamp_iodepth (td_iodepth td) /\ file_inv [] [] d /\
       wp (fio_rocm_xio_close_file (snd out)) (fun out' h'' =>
         fst out' = 0 /\ ff_eng_data (snd out') = None /\
         (forall r, r <> RQueueMemory -> r <> RBarMap -> rx_held h'' r = rx_held h r) /\
         rx_held h'' RQueueMemory = rx_held h RQueueMemory + 1 /\
         rx_held h'' RBarMap = rx_held h' RBarMap /\
         rx_held h RBarMap <= rx_held h'' RBarMap <= rx_held h RBarMap + 1) h')) h.
Proof.
  intros Hf Hq. eapply wp_mono; [by apply open_file_ok|].
  intros out h' [H|(H0 & d & m & Hd & Hdep & Hinv & Hcon & Hh)]; [by left|right].
  split; [done|]. exists d. split_and!; [done..|]. unfold fio_rocm_xio_close_file. rewrite Hd. apply wp_bind.
  eapply wp_mono; [by apply teardown_held|]. intros ? h3 Hh3.
  apply wp_bind, wp_modify, wp_bind, wp_modify, wp_ret. split; [done|]. split; [done|].
  assert (forall r, rx_held (EvPut RFileData :: EvPut RCtx :: h3) r = rx_held h r + stays m r) as E.
  { intros r. cbn [rx_held]. rewrite Hh3, Hh. destruct r; compute_tests; lia. }
  rewrite !E, Hh. cbn [stays ctx_owns]. split_and!; [|lia..|destruct m; cbn; lia|destruct m; cbn; lia].
  intros r H1 H2. rewrite E. unfold stays. destruct r; try done; lia.
Qed.
End OpenCloseProperties.

(** The ring slots outnumber the buffer's.  The work item of a unit names
    the slot of the 63-place ring, but the buffer has one slot per unit of
    [iodepth]: once [iodepth] units have been posted, fewer than 63, the next
    unit's command points at the first byte past a contiguous buffer, and for
    a scattered one the kernel reads beyond its page table. *)
Theorem slot_outside_buffer a c gpuPtr dma pages dmas t jobs out d u :
  buffer_ok a c gpuPtr dma pages dmas -> file_inv jobs out d ->
  Z.of_nat (length jobs) = fd_iodepth d -> fd_iodepth d < RXIO_RING ->
  sa_buf_size a = cx_single_buf_size c * fd_iodepth d ->
  match pages with
  | Some l => Z.of_nat (length l) * NVME_PAGE_SIZE = sa_buf_size a
  | None => dma + 2 * sa_buf_size a < 18446744073709551616
  end ->
  let cmd := build_sqe (persistent_io c) (buffer_template a c gpuPtr dma pages dmas) t
               (job_of d u (fd_ring_head d)) in
  match pages with
  | Some l => cmd = None
  | None => forall q, cmd = Some q -> sqe_prp1 q = dma + sa_buf_size a
  end.
Proof.
  intros Hok [g Hinv] Hjobs Hlt Hsize Hpages cmd.
  assert (wi_slot (job_of d u (fd_ring_head d)) = fd_iodepth d) as Hslot.
  { cbn. rewrite (fi_head _ _ _ _ Hinv), Hjobs.
    pose proof (fi_iodepth _ _ _ _ Hinv). unfold RXIO_RING in *.
    rewrite Z.mod_small by lia. apply u32_small. lia. }
  pose proof (bo_size _ _ _ _ _ _ Hok) as Hbs. pose proof (bo_ptr _ _ _ _ _ _ Hok) as Hptr.
  destruct (build_sqe_base (persistent_io c) (buffer_template a c gpuPtr dma pages dmas) t
    (job_of d u (fd_ring_head d)) gpuPtr dma pages) as [Hnone Hsome];
    [by destruct (negb _)|by destruct (negb _)|by destruct (negb _)|done|cbn; lia|].
  rewrite Hslot in Hnone, Hsome. fold cmd in Hnone, Hsome.
  change (io_lbaSize (persistent_io c)) with (cx_lba_size c) in *.
  rewrite (persistent_xfer _ _ _ _ _ _ Hok) in Hnone, Hsome.
  assert (fd_iodepth d * cx_single_buf_size c = sa_buf_size a) as E by lia.
  rewrite E, (u64_small (sa_buf_size a)) in * by lia.
  destruct pages as [l|]; cbn [slot_base] in *.
  - apply Hnone. rewrite <- Hpages, Z.div_mul by done. unfold word_at.
    rewrite (proj2 (Z.ltb_ge _ _)) by lia. apply lookup_ge_None. lia.
  - intros q Hq. destruct (bo_data _ _ _ _ _ _ Hok) as (Hd0 & _ & Hdm).
    rewrite (proj2 (Z.eqb_neq dma 0)) in Hsome by lia.
    rewrite u64_small in Hsome by lia. by apply (Hsome _ _ eq_refl Hq).
Qed.

(** ** Witnesses *)

Definition sample_options : rocm_xio_options := {| opt_queue_id := 0; opt_queue_depth := 64 |}.
Definition closed_file : fio_file :=
  {| ff_real_file_size := 0; ff_size_known := false; ff_eng_data := None |}.
Definition sample_unit (offset : Z) (dir : fio_ddir) : io_u :=
  {| iu_file := 0; iu_ddir := dir; iu_offset := offset; iu_xfer_buflen := 16384; iu_error := 0 |}.
Definition td0 : thread_data :=
  {| td_options := sample_options; td_iodepth := 4; td_max_bs_read := 16384;
     td_max_bs_write := 4096; td_subjob_number := 1; td_files := [closed_file];
     td_ious := <[100 := sample_unit 8192 DDIR_READ]> (<[101 := sample_unit 65536 DDIR_WRITE]> ∅);
     td_events := None |}.

Definition open_file (fail : rx_service -> bool) : (Z * fio_file) * history :=
  fio_rocm_xio_open_file (X := demo_rxio fail) td0 closed_file [].

Definition file1 : fio_file := snd (fst (open_file never_fails)).
Definition data_of (f : fio_file) : rocm_xio_file_data :=
  default (new_file_data ctx0 1) (ff_eng_data f).

Lemma file1_ok : file_inv [] [] (data_of file1).
Proof.
  assert (data_of file1 = new_file_data (fd_ctx (data_of file1)) 4) as -> by (vm_compute; done).
  apply (new_file_data_ok _ sample_ctx); vm_compute; done || by split.
Qed.

Lemma file1_data : ff_eng_data file1 = Some (data_of file1).
Proof. vm_compute. done. Qed.

(** The thread after opening the file and posting unit 100. *)
Definition td1 : thread_data := with_files [file1] td0.
Definition td2 : thread_data := snd (fio_rocm_xio_queue 100 td1).

Lemma td1_ok : engine_ok td1 [[]].
Proof. constructor; [|done]. unfold file_ok. rewrite file1_data. exists []. exact file1_ok. Qed.

Lemma file1_iodepth : fd_iodepth (data_of file1) = 4.
Proof. by vm_compute. Qed.

Lemma file1_lba_size : fd_lba_size (data_of file1) <> 0.
Proof. assert (fd_lba_size (data_of file1) = 512) as -> by (by vm_compute). done. Qed.

Lemma one_post : Z.of_nat (length (@nil nvmeWorkItem)) + 1 < wrap32.
Proof. by vm_compute. Qed.

(** Unit 100 posted on the open file. *)
Lemma first_post :
  exists d w, queue_post 100 (sample_unit 8192 DDIR_READ) (data_of file1) = ((FIO_Q_QUEUED, 0), d) /\
    fd_iodepth d = 4 /\ wi_lba w = 16 /\ wi_lbas w = 32 /\ file_inv [w] [100] d.
Proof.
  destruct (queue_post_ok [] [] (data_of file1) 100 (sample_unit 8192 DDIR_READ) file1_ok)
    as (d & E & _ & Hd & Hinv).
  - rewrite file1_iodepth. by cbn.
  - exact one_post.
  - rewrite file1_iodepth in Hd.
    assert (job_of (data_of file1) (sample_unit 8192 DDIR_READ) (fd_ring_head (data_of file1)) =
      {| wi_lba := 16; wi_lbas := 32; wi_slot := 0; wi_is_write := 0; wi_pad := 0; wi_seq := 0 |})
      as Ew by (by vm_compute).
    rewrite Ew in Hinv. do 2 eexists. split_and!; [exact E|exact Hd|..|exact Hinv]; done.
Qed.

Lemma td2_ok : engine_ok td2 [[100]].
Proof.
  destruct first_post as (d' & w & E & _ & _ & _ & Hinv).
  assert (td_files td2 = [with_eng_data (Some (snd (queue_post 100 (sample_unit 8192 DDIR_READ)
    (data_of file1)))) file1]) as Htd by (vm_compute; done).
  unfold engine_ok. rewrite Htd. constructor; [|done]. unfold file_ok. rewrite E.
  cbn [ff_eng_data with_eng_data snd]. eexists. exact Hinv.
Qed.

(** Four units posted, none reaped. *)
Lemma posted_units n :
  (n <= 4)%nat ->
  exists jobs out d, file_inv jobs out d /\ length jobs = n /\ length out = n /\ fd_iodepth d = 4.
Proof.
  induction n as [|n IH]; intros Hn.
  { exists [], [], (data_of file1). split; [exact file1_ok|done]. }
  destruct IH as (jobs & out & d & Hinv & Hj & Ho & Hd); [lia|].
  destruct (queue_post_ok jobs out d 100 (sample_unit 8192 DDIR_READ) Hinv)
    as (d' & _ & _ & Hd' & Hinv'); [lia|unfold wrap32; lia|].
  do 3 eexists. split; [exact Hinv'|]. rewrite !length_app. cbn. split_and!; [lia|lia|congruence].
Qed.

(** The GPU completes one command per tick. *)
Definition slow_env : FioEnv :=
  {| env_gpu := fun _ t => Z.of_nat t; env_now := fun t => (Z.of_nat t, 0) |}.
(** From tick 3 on everything is complete. *)
Definition fast_env : FioEnv :=
  {| env_gpu := fun _ t => if (t <? 3)%nat then 0 else wrap32; env_now := fun t => (Z.of_nat t, 0) |}.

Definition reap2 : option (Z * thread_data) :=
  fio_rocm_xio_getevents (E := slow_env) 5 true 1 4 None 0 td2.
Definition td3 : thread_data := match reap2 with Some (_, td) => td | None => td2 end.

Lemma getevents_refines_witness :
  exists rest fin, rtc spec_step ([[100]], []) (rest, fin) /\ engine_ok td3 rest /\
    length fin = 1%nat /\ fio_rocm_xio_event td3 0 = fin !! 0%nat.
Proof.
  destruct (getevents_refines (E := slow_env) 5 true 1 4 None 0 td2 [[100]] 1 td3)
    as [(? & _)|(rest & fin & Hs & Hok & Hn & _ & _ & _ & Hev & _)];
    [exact td2_ok|done|by vm_compute|by vm_compute|done|].
  exists rest, fin. split_and!; [done|done|lia|]. exact (Hev 0%nat).
Defined.

Lemma getevents_returns_witness :
  exists fuel n td', fio_rocm_xio_getevents (E := fast_env) fuel true 1 4 None 0 td2 = Some (n, td') /\
    (@None (Z * Z) = None -> 1 <= n).
Proof.
  apply (getevents_returns (E := fast_env) 1 4 None 0 td2 [[100]] 3);
    [exact td2_ok|done|by vm_compute|done|done|].
  intros i t _ Ht. change (wrap32 <= if (t <? 3)%nat then 0 else wrap32).
  by rewrite (proj2 (Nat.ltb_ge _ _) Ht).
Defined.

Lemma queue_refines_witness :
  fst (fio_rocm_xio_queue 100 td1) = FIO_Q_QUEUED /\ engine_ok td2 [[100]].
Proof.
  destruct (queue_refines 100 (sample_unit 8192 DDIR_READ) file1 (data_of file1) [] [] td1 [[]]
    td1_ok eq_refl eq_refl file1_data eq_refl file1_ok (or_introl eq_refl) file1_lba_size one_post)
    as (_ & _ & H).
  rewrite file1_iodepth in H. destruct H as (Hst & Hok & _). exact (conj Hst Hok).
Defined.

Lemma wp_out {St A : Type} (m : St -> A * St) (Q : A -> St -> Prop) h :
  wp m Q h -> Q (fst (m h)) (snd (m h)).
Proof. unfold wp. by destruct (m h). Qed.

(** The first open of a controller has to map its BAR. *)
Definition not_cached (s : rx_service) : bool := match s with SBar0Cached => true | _ => false end.

Lemma open_close_balanced_witness :
  fst (fst (open_file not_cached)) = 0 /\
  wp (fio_rocm_xio_close_file (snd (fst (open_file not_cached)))) (fun _ h'' =>
    rx_held h'' RQueueMemory = 1 /\ rx_held h'' RBarMap = 1 /\
    rx_held h'' RDataBuf = 0 /\ rx_held h'' RNvmeQueue = 0) (snd (open_file not_cached)).
Proof.
  pose proof (open_close_balanced (X := demo_rxio not_cached) td0 closed_file [] eq_refl eq_refl) as H.
  apply wp_out in H.
  assert (fst (fst (open_file not_cached)) = 0) as E0 by (by vm_compute).
  assert (rx_held (snd (open_file not_cached)) RBarMap = 1) as E1 by (by vm_compute).
  revert H E0 E1. unfold open_file.
  generalize (fio_rocm_xio_open_file (X := demo_rxio not_cached) td0 closed_file []).
  intros r [[H _]|(_ & d & _ & _ & _ & H)] E0 E1; [lia|]. split; [exact E0|].
  eapply wp_mono; [exact H|]. intros out h'' (_ & _ & Hh & Hq & Hb & _).
  split_and!; [exact Hq|congruence|by apply Hh|by apply Hh].
Defined.

Lemma slot_outside_buffer_witness :
  exists jobs out d, file_inv jobs out d /\
    forall q, build_sqe (persistent_io sample_ctx)
      (buffer_template sample_setup sample_ctx 65536 1048576 None
         [8388608; 8392704; 8396800; 8400896]) 4
      (job_of d (sample_unit 8192 DDIR_READ) (fd_ring_head d)) = Some q ->
    sqe_prp1 q = 1048576 + 65536.
Proof.
  destruct (posted_units 4 (le_n 4)) as (jobs & out & d & Hinv & Hj & _ & Hd).
  exists jobs, out, d. split; [done|].
  apply (slot_outside_buffer sample_setup sample_ctx 65536 1048576 None
    [8388608; 8392704; 8396800; 8400896] 4 jobs out d (sample_unit 8192 DDIR_READ) sample_buffer_ok Hinv);
    rewrite ?Hd, ?Hj; by vm_compute.
Defined.

(** A failed open leaks.  When the data buffer cannot be allocated, the
    error path frees the context without tearing it down: the open fails
    with ENOMEM, nothing is attached to the file that a close could release,
    and the namespace stays quiesced, the queue pair created, and the module
    and NVMe descriptors and the BAR reference held. *)
Theorem failed_open_leaks :
  let out := open_file (fun s => match s with SAllocBuffer => true | _ => false end) in
  fst (fst out) = ENOMEM /\ ff_eng_data (snd (fst out)) = None /\
  map (rx_held (snd out)) [RNsQuiesce; RNvmeQueue; RKmodFd; RNvmeFd; RBar0; RCtx; RFileData]
    = [1; 1; 1; 1; 1; 0; 0].
Proof. by vm_compute. Qed.
