(* ===== verification/FioRun.v ===== *)
(** * Runs of the fio engine

    A thread of fio from the opening of its files on: fio fills in I/O units,
    posts them and reaps completions, in any order, while the GPUs run.  The
    run keeps what a caller sees: the units each file accepted, and the units
    that getevents reported.  The theorem relates the two to the commands the
    kernels wrote. *)

From S2P Require Import Prelude NvmeEp WorkRing FioEngine.

(** ** Runs *)

(** A file that [fio_rocm_xio_open_file] opened, whatever the environment
    answered, or that is not open. *)
Definition opened (f : fio_file) : Prop :=
  ff_eng_data f = None \/
  exists X td f0 h, ff_eng_data f0 = None /\ 0 < u16 (opt_queue_depth (td_options td)) /\
    fst (fio_rocm_xio_open_file (X := X) td f0 h) = (0, f).

(** The unit as it was when it was posted. *)
Definition accept (st : fio_q_status) (p : ptr) (td : thread_data) (posted : list (list (ptr * io_u)))
    : list (list (ptr * io_u)) :=
  match st, td_ious td !! p with
  | FIO_Q_QUEUED, Some u => alter (fun l => l ++ [(p, u)]) (iu_file u) posted
  | _, _ => posted
  end.

(** The units a call of getevents reported, as fio reads them. *)
Definition events_of (n : Z) (td : thread_data) : list ptr :=
  omap (fun k => fio_rocm_xio_event td (Z.of_nat k)) (seq 0 (Z.to_nat n)).

Inductive fio_run : list (list (ptr * io_u)) -> list ptr -> thread_data -> Prop :=
| run_open td :
    Forall opened (td_files td) -> fio_run (replicate (length (td_files td)) []) [] td
| run_prepare posted rep td ious :
    fio_run posted rep td -> fio_run posted rep (with_ious ious td)
| run_queue posted rep td p :
    fio_run posted rep td ->
    fio_run (accept (fst (fio_rocm_xio_queue p td)) p td posted) rep (snd (fio_rocm_xio_queue p td))
| run_getevents posted rep td (E : FioEnv) fuel alloc min max t tick n td' :
    fio_run posted rep td -> 0 <= max -> array_ok max td ->
    fio_rocm_xio_getevents fuel alloc min max t tick td = Some (n, td') ->
    fio_run posted (rep ++ events_of n td') td'.

(** ** The reported units as places in the files *)

(** How many of the places are in file [i]. *)
Definition count_of (i : nat) (places : list (nat * nat)) : nat :=
  length (filter (fun x => fst x = i) places).

(** What is outstanding when the given places have been reported. *)
Definition outs_of (posted : list (list (ptr * io_u))) (places : list (nat * nat)) : list (list ptr) :=
  imap (fun i l => skipn (count_of i places) l.*1) posted.

(** The work item of a unit in the given slot, for a file of the given block
    size. *)
Definition item_of (lba_size : Z) (u : io_u) (slot : Z) : nvmeWorkItem :=
  {| wi_lba := iu_offset u / lba_size;
     wi_lbas := let n := u32 (iu_xfer_buflen u / lba_size) in if n =? 0 then 1 else n;
     wi_slot := u32 slot; wi_is_write := u32 (iou_is_write u); wi_pad := 0; wi_seq := 0 |}.

Definition items_of (lba_size : Z) (l : list (ptr * io_u)) : list nvmeWorkItem :=
  imap (fun j x => item_of lba_size (snd x) (Z.of_nat j mod RXIO_RING)) l.

Record tracks (posted : list (list (ptr * io_u))) (places : list (nat * nat)) (rep : list ptr) : Prop := {
  tk_named : Forall2 (fun x p => exists l u, posted !! fst x = Some l /\ l !! snd x = Some (p, u)) places rep;
  tk_order : forall k i j, places !! k = Some (i, j) -> j = count_of i (take k places);
  tk_bound : forall i l, posted !! i = Some l -> (count_of i places <= length l)%nat
}.

Definition run_inv (posted : list (list (ptr * io_u))) (rep : list ptr) (td : thread_data) : Prop :=
  exists places (lba : nat -> Z), tracks posted places rep /\
    Forall3 file_at (td_files td) (imap (fun i l => (lba i, items_of (lba i) l)) posted) (outs_of posted places).

(** ** Lemmas *)

Lemma count_of_app i a b : count_of i (a ++ b) = (count_of i a + count_of i b)%nat.
Proof. unfold count_of. by rewrite list.filter_app, length_app. Qed.

Lemma count_of_one i k j : count_of i [(k, j)] = if decide (k = i) then 1%nat else 0%nat.
Proof. unfold count_of. cbn. by destruct (decide (k = i)). Qed.

Lemma count_of_cons i k j l : count_of i ((k, j) :: l) = ((if decide (k = i) then 1 else 0) + count_of i l)%nat.
Proof. rewrite <- count_of_one with (j := j). apply (count_of_app i [(k, j)] l). Qed.

(** A unit completes: the next place of its file. *)
Lemma tracks_step posted places rep outs' rep' :
  tracks posted places rep -> spec_step (outs_of posted places, rep) (outs', rep') ->
  exists x, outs' = outs_of posted (places ++ [x]) /\ tracks posted (places ++ [x]) rep'.
Proof.
  intros [Hn Ho Hb] Hs. inversion Hs as [i p rest outs done Hi E1 E2]; subst. clear Hs.
  unfold outs_of in Hi. rewrite list_lookup_imap in Hi.
  destruct (posted !! i) as [l|] eqn:El; [|done]. cbn in Hi. injection Hi as Hd.
  set (c := count_of i places) in *.
  assert (l.*1 !! c = Some p) as Hp.
  { rewrite <- (Nat.add_0_r c), <- lookup_drop. by rewrite Hd. }
  rewrite list_lookup_fmap in Hp. destruct (l !! c) as [[p' u]|] eqn:Eu; [|done]. injection Hp as ->.
  exists (i, c). split.
  - apply list_eq. intros k. unfold outs_of. destruct (decide (k = i)) as [->|Hk].
    + rewrite list_lookup_insert_eq, list_lookup_imap, El.
      2:{ rewrite length_imap. by eapply lookup_lt_Some. }
      cbn. rewrite count_of_app, count_of_one, decide_True by done. fold c. f_equal.
      by rewrite <- drop_drop, Hd.
    + rewrite list_lookup_insert_ne, !list_lookup_imap by done. destruct (posted !! k); [|done]. cbn.
      rewrite count_of_app, count_of_one, decide_False by done. by rewrite Nat.add_0_r.
  - split.
    + apply Forall2_app; [done|]. constructor; [|constructor]. by exists l, u.
    + intros k i' j Hk. destruct (decide (k < length places)%nat) as [Hlt|Hge].
      * rewrite lookup_app_l in Hk by done. rewrite take_app_le by lia. by apply Ho.
      * pose proof (lookup_lt_Some _ _ _ Hk) as Hlt. rewrite length_app in Hlt. cbn in Hlt.
        assert (k = length places) as -> by lia. rewrite list_lookup_middle in Hk by done.
        injection Hk as <- <-. by rewrite take_app_length.
    + intros i' l' Hl'. rewrite count_of_app, count_of_one. destruct (decide (i = i')) as [<-|Hne].
      * rewrite El in Hl'. injection Hl' as <-. apply lookup_lt_Some in Eu. fold c. lia.
      * specialize (Hb i' l' Hl'). lia.
Qed.

Lemma tracks_steps posted places rep st st' :
  rtc spec_step st st' -> st = (outs_of posted places, rep) -> tracks posted places rep ->
  exists places', fst st' = outs_of posted places' /\ tracks posted places' (snd st').
Proof.
  intros Hs. revert places rep. induction Hs as [st|st1 [outs2 rep2] st3 H1 _ IH]; intros places rep ->.
  { intros Ht. by exists places. }
  intros Ht. destruct (tracks_step _ _ _ _ _ Ht H1) as (x & -> & Ht'). by apply (IH (places ++ [x]) rep2).
Qed.

(** What was completed before does not matter to a run. *)
Lemma spec_before pre st st' :
  rtc spec_step st st' -> rtc spec_step (fst st, pre ++ snd st) (fst st', pre ++ snd st').
Proof.
  induction 1 as [st|st1 st2 st3 H1 _ IH]; [apply rtc_refl|]. eapply rtc_l; [|exact IH].
  destruct H1 as [i p rest outs done Hi]. cbn. rewrite app_assoc. by constructor.
Qed.

Lemma Forall3_lookup_2 {A B C} (P : A -> B -> C -> Prop) l k k' :
  length l = length k -> length k = length k' ->
  (forall i x y z, l !! i = Some x -> k !! i = Some y -> k' !! i = Some z -> P x y z) -> Forall3 P l k k'.
Proof.
  revert k k'. induction l as [|x l IH]; intros [|y k] [|z k'] H1 H2 H; try done; [constructor|].
  constructor; [by apply (H 0%nat)|]. apply IH; [by injection H1|by injection H2|].
  intros i. apply (H (S i)).
Qed.

Lemma files_at td posted places lba :
  Forall3 file_at (td_files td) (imap (fun i l => (lba i, items_of (lba i) l)) posted) (outs_of posted places) <->
  length (td_files td) = length posted /\
  forall i f l, td_files td !! i = Some f -> posted !! i = Some l ->
    file_at f (lba i, items_of (lba i) l) (skipn (count_of i places) l.*1).
Proof.
  unfold outs_of. split.
  - intros H. split; [by rewrite (Forall3_length_lm _ _ _ _ H), length_imap|]. intros i f l Hf Hp.
    apply (Forall3_lookup_lmr _ _ _ _ i _ _ _ H Hf); by rewrite list_lookup_imap, Hp.
  - intros [Hl H]. apply Forall3_lookup_2; rewrite ?length_imap; [done..|]. intros i f a o Hf Ha Ho. rewrite list_lookup_imap in Ha. rewrite list_lookup_imap in Ho.
    destruct (posted !! i) as [l|] eqn:E; [|done]. injection Ha as <-. injection Ho as <-. by apply H.
Qed.

Lemma opened_at f : opened f -> exists lba, file_at f (lba, []) [].
Proof.
  intros [Hn|(X & td & f0 & h & Hf0 & Hq & Ho)]; [exists 0; unfold file_at; by rewrite Hn|].
  pose proof (wp_out _ _ _ (open_file_ok td f0 h Hf0 Hq)) as H. rewrite Ho in H.
  destruct H as [[H _]|(_ & d & _ & Hd & _ & Hinv & _)]; [by cbn in H|].
  exists (fd_lba_size d). unfold file_at. cbn in Hd. by rewrite Hd.
Qed.

Lemma run_inv_open td : Forall opened (td_files td) -> run_inv (replicate (length (td_files td)) []) [] td.
Proof.
  intros H. exists [].
  exists (fun i => match td_files td !! i ≫= ff_eng_data with Some d => fd_lba_size d | None => 0 end).
  split.
  - split; [constructor|by intros k i j Hk|]. intros i l _. unfold count_of. cbn. lia.
  - apply files_at. rewrite length_replicate. split; [done|]. intros i f l Hf [-> _]%lookup_replicate.
    rewrite Hf. cbn. destruct (opened_at f) as [lba Hat]; [by apply (Forall_lookup_1 _ _ _ _ H Hf)|].
    unfold file_at in *. by destruct (ff_eng_data f) as [d|]; [destruct Hat|].
Qed.

Lemma items_of_more lba l p u :
  items_of lba (l ++ [(p, u)]) = items_of lba l ++ [item_of lba u (Z.of_nat (length l) mod RXIO_RING)].
Proof. unfold items_of. rewrite imap_app. cbn. by rewrite Nat.add_0_r. Qed.

(** Posting to one file: the others are as they were. *)
Lemma run_inv_file posted rep td td' i f f' l l' :
  run_inv posted rep td -> td_files td !! i = Some f -> posted !! i = Some l ->
  td_files td' = <[i := f']> (td_files td) ->
  (exists tail, l' = l ++ tail) ->
  (forall lba n, (n <= length l)%nat -> file_at f (lba, items_of lba l) (skipn n l.*1) ->
     file_at f' (lba, items_of lba l') (skipn n l'.*1)) ->
  run_inv (<[i := l']> posted) rep td'.
Proof.
  intros (places & lba & [Hn Ho Hb] & [Hlen Hf]%files_at) Hi Hl Htd [tail ->] Hnew.
  exists places, lba. split.
  - split; [|done|].
    + eapply list.Forall2_impl; [exact Hn|]. intros [a j] p (l0 & u & Hl0 & Hj). cbn [fst snd] in *.
      destruct (decide (a = i)) as [->|Hne].
      * simplify_eq. exists (l ++ tail), u. split; [by apply list_lookup_insert_eq; eapply lookup_lt_Some|].
        by apply lookup_app_l_Some.
      * exists l0, u. by rewrite list_lookup_insert_ne.
    + intros a l0 Ha. destruct (decide (a = i)) as [->|Hne].
      * rewrite list_lookup_insert_eq in Ha by (by eapply lookup_lt_Some). injection Ha as <-.
        specialize (Hb i l Hl). rewrite length_app. lia.
      * rewrite list_lookup_insert_ne in Ha by done. by apply Hb.
  - apply files_at. rewrite Htd, !length_insert. split; [done|]. intros a f0 l0 Ha Hla.
    destruct (decide (a = i)) as [->|Hne].
    + rewrite list_lookup_insert_eq in Ha by (by eapply lookup_lt_Some).
      rewrite list_lookup_insert_eq in Hla by (by eapply lookup_lt_Some). injection Ha as <-. injection Hla as <-.
      apply Hnew; [by apply Hb|by apply Hf].
    + rewrite list_lookup_insert_ne in Ha by done. rewrite list_lookup_insert_ne in Hla by done. by apply Hf.
Qed.

Lemma run_inv_same posted rep td td' : run_inv posted rep td -> td_files td' = td_files td -> run_inv posted rep td'.
Proof. intros (places & lba & Ht & Hf) E. exists places, lba. by rewrite E. Qed.

(** With room in the ring a unit is accepted. *)
Lemma queue_post_accepts jobs out d p u :
  file_inv jobs out d -> Z.of_nat (length out) < fd_iodepth d -> fst (fst (queue_post p u d)) = FIO_Q_QUEUED.
Proof.
  intros [g H] Hroom. pose proof (file_bounds _ _ _ _ H) as Hb. destruct H as [Hr Hd _ _ _ _ _ _].
  unfold queue_post, rxio_post_work, ring_post. cbn [with_slots fd_ctx].
  rewrite (ri_free _ _ _ _ _ _ Hr); [done|]. rewrite (ri_prod _ _ _ _ _ _ Hr), Hd. unfold reaped in *. lia.
Qed.

#[local] Instance fio_q_status_eq_dec : EqDecision fio_q_status.
Proof. solve_decision. Defined.

(** A unit that is not accepted leaves the file as it was; one that is becomes
    its newest. *)
Lemma queue_unit_ok jobs out d p u st e d' :
  file_inv jobs out d -> queue_unit p u d = ((st, e), d') ->
  if decide (st = FIO_Q_QUEUED)
  then Z.of_nat (length jobs) + 1 < wrap32 -> fd_lba_size d' = fd_lba_size d /\
    file_inv (jobs ++ [job_of d u (fd_ring_head d)]) (out ++ [p]) d'
  else d' = d.
Proof.
  intros Hinv. pose proof Hinv as [g H]. pose proof (fi_count _ _ _ _ H) as Hc.
  unfold queue_unit. destruct (iu_ddir u); try (by intros [= <- <- <-]);
    (destruct (_ =? 0); [by intros [= <- <- <-]|]);
    (destruct (_ <=? _) eqn:E; bool_to_prop; [by intros [= <- <- <-]|]); intros Hq;
    pose proof (queue_post_accepts _ _ _ p u Hinv ltac:(lia)) as Hst; rewrite Hq in Hst; cbn in Hst; subst st;
    rewrite decide_True by done; intros Hmax;
    destruct (queue_post_ok _ _ _ p u Hinv ltac:(lia) Hmax) as (d2 & Hq2 & Hl & _ & Hinv');
    rewrite Hq2 in Hq; injection Hq as _ <-; done.
Qed.

(** A call of queue. *)
Lemma run_inv_queue posted rep td p :
  run_inv posted rep td ->
  Forall (fun l => Z.of_nat (length l) < wrap32) (accept (fst (fio_rocm_xio_queue p td)) p td posted) ->
  run_inv (accept (fst (fio_rocm_xio_queue p td)) p td posted) rep (snd (fio_rocm_xio_queue p td)).
Proof.
  intros Hinv. unfold accept, fio_rocm_xio_queue.
  destruct (td_ious td !! p) as [u|] eqn:Eu; [|done].
  destruct (td_files td !! iu_file u) as [f|] eqn:Ef; [|intros _; by eapply run_inv_same].
  destruct (ff_eng_data f) as [d|] eqn:Ed; [|intros _; by eapply run_inv_same].
  pose proof Hinv as (places & lba & Ht & [Hlen Hfiles]%files_at).
  destruct (lookup_lt_is_Some_2 posted (iu_file u)) as [l Hl]; [rewrite <- Hlen; by eapply lookup_lt_Some|].
  pose proof (Hfiles _ _ _ Ef Hl) as Hat. unfold file_at in Hat. rewrite Ed in Hat. destruct Hat as [_ Hat].
  destruct (queue_unit p u d) as [[st e] d'] eqn:Eq. cbn [fst snd].
  pose proof (queue_unit_ok _ _ _ _ _ _ _ _ Hat Eq) as Hu.
  destruct (decide (st = FIO_Q_QUEUED)) as [->|Hne].
  - intros Hall. assert (alter (fun l => l ++ [(p, u)]) (iu_file u) posted = <[iu_file u := l ++ [(p, u)]]> posted) as Halt.
    { apply list_eq. intros i. destruct (decide (i = iu_file u)) as [->|Hne].
      - rewrite list_lookup_alter_eq, list_lookup_insert_eq by (by eapply lookup_lt_Some). by rewrite Hl.
      - by rewrite list_lookup_alter_ne, list_lookup_insert_ne. }
    rewrite Halt in *. eapply run_inv_file; [done|done|done|done|by eexists|].
    intros lba' n Hn Hf. unfold file_at in *. rewrite Ed in Hf. cbn [ff_eng_data with_eng_data fst snd] in *.
    destruct Hf as [Hlba Hf]. pose proof (queue_unit_ok _ _ _ _ _ _ _ _ Hf Eq) as Hq.
    rewrite decide_True in Hq by done. destruct Hq as [Hlba' Hinv'].
    { pose proof (Forall_lookup_1 _ _ (iu_file u) (l ++ [(p, u)]) Hall
        ltac:(apply list_lookup_insert_eq; by eapply lookup_lt_Some)) as Hw.
      unfold items_of. rewrite length_imap. cbv beta in Hw. rewrite length_app in Hw. cbn in Hw. lia. }
    split; [congruence|]. rewrite items_of_more, fmap_app, drop_app_le by (by rewrite length_fmap).
    destruct Hf as [g Hf]. rewrite (fi_head _ _ _ _ Hf) in Hinv'. unfold items_of in Hinv' at 2. rewrite length_imap in Hinv'.
    subst lba'. exact Hinv'.
  - subst d'. intros _. assert (match st with FIO_Q_QUEUED => alter (fun l => l ++ [(p, u)]) (iu_file u) posted | _ => posted end = posted)
      as -> by by destruct st.
    eapply run_inv_same; [done|]. cbn. apply list_insert_id. rewrite Ef. f_equal. destruct f. cbn in *. by subst.
Qed.

(** A call of getevents. *)
Lemma run_inv_getevents {E : FioEnv} posted rep td fuel alloc min max t tick n td' :
  run_inv posted rep td -> 0 <= max -> array_ok max td ->
  fio_rocm_xio_getevents fuel alloc min max t tick td = Some (n, td') ->
  run_inv posted (rep ++ events_of n td') td'.
Proof.
  intros (places & lba & Ht & Hf) H0 Ha Hg.
  destruct (getevents_ok _ _ _ _ _ _ _ _ _ _ _ Hf H0 Ha Hg)
    as [(-> & -> & _)|(rest & fin & Hs & Hf' & -> & _ & _ & _ & Hev & _)].
  { unfold events_of. cbn. rewrite app_nil_r. by exists places, lba. }
  assert (events_of (Z.of_nat (length fin)) td' = fin) as ->.
  { unfold events_of. rewrite Nat2Z.id.
    assert (forall k, (k <= length fin)%nat ->
      omap (fun k => fio_rocm_xio_event td' (Z.of_nat k)) (seq 0 k) = take k fin) as Hk.
    { induction k as [|k IH]; intros Hk; [done|]. rewrite seq_S, omap_app, IH, Nat.add_0_l by lia. cbn.
      rewrite Hev. destruct (lookup_lt_is_Some_2 fin k) as [x Hx]; [lia|]. rewrite Hx.
      by rewrite (take_S_r _ _ _ Hx). }
    rewrite Hk by done. by apply firstn_all. }
  pose proof (spec_before rep _ _ Hs) as Hs'. cbn in Hs'. rewrite app_nil_r in Hs'.
  destruct (tracks_steps _ _ _ _ _ Hs' eq_refl Ht) as (places' & Hrest & Ht'). cbn in Hrest, Ht'. subst rest.
  by exists places', lba.
Qed.

Lemma accept_grows st p td posted i l :
  posted !! i = Some l -> exists tail, accept st p td posted !! i = Some (l ++ tail).
Proof.
  intros Hl. assert (exists tail, posted !! i = Some (l ++ tail)) as H0 by (exists []; by rewrite app_nil_r).
  unfold accept. destruct st, (td_ious td !! p) as [u|]; try done.
  destruct (decide (i = iu_file u)) as [->|Hne].
  - exists [(p, u)]. by rewrite list_lookup_alter_eq, Hl.
  - by rewrite list_lookup_alter_ne.
Qed.

Lemma accept_bound st p td posted :
  Forall (fun l => Z.of_nat (length l) < wrap32) (accept st p td posted) ->
  Forall (fun l => Z.of_nat (length l) < wrap32) posted.
Proof.
  intros H. apply Forall_lookup_2. intros i l Hl. destruct (accept_grows st p td posted i l Hl) as [tail Ht].
  pose proof (Forall_lookup_1 _ _ _ _ H Ht) as Hw. cbv beta in Hw. rewrite length_app in Hw. lia.
Qed.

Lemma fio_run_inv posted rep td :
  fio_run posted rep td -> Forall (fun l => Z.of_nat (length l) < wrap32) posted -> run_inv posted rep td.
Proof.
  induction 1 as [td Ho|posted rep td ious _ IH|posted rep td p _ IH|posted rep td E fuel alloc min max t tick n td' _ IH H0 Ha Hg];
    intros Hw.
  - by apply run_inv_open.
  - eapply run_inv_same; [by apply IH|done].
  - apply run_inv_queue; [|done]. by eapply IH, accept_bound.
  - eapply run_inv_getevents; [by apply IH|done..].
Qed.

(** ** What a completion means *)

(** C13: A completed unit has been executed, in order.  Take any run of a
    thread from freshly opened files: any calls of queue, with units that fio
    fills in as it likes, and of getevents, and GPUs of any speed.  As long as
    fewer than 2^32 units were posted to each file, every unit that getevents
    reported is the next unit of its file in the order of acceptance: the
    [j]-th reported from a file is the [j]-th it accepted.  And the [j]-th
    command that file's kernel wrote is that unit's, with its direction, its
    block address and its number of blocks as they were when it was posted,
    the file's namespace, and the command id of the queue's next place (the
    buffer's addresses are those of [build_sqe] for its slot, if they can be
    looked up). *)
Theorem completed_units_executed posted rep td :
  fio_run posted rep td -> Forall (fun l => Z.of_nat (length l) < wrap32) posted ->
  exists places : list (nat * nat),
    (forall k i j, places !! k = Some (i, j) -> j = count_of i (take k places)) /\
    Forall2 (fun x p => exists f d l u cmd,
      td_files td !! fst x = Some f /\ ff_eng_data f = Some d /\
      posted !! fst x = Some l /\ l !! snd x = Some (p, u) /\
      gk_log (wr_gpu (cx_ring (fd_ctx d))) !! snd x = Some cmd /\
      cmd = build_sqe (cx_io (fd_ctx d)) (cx_buf_params (fd_ctx d))
              (Z.of_nat (snd x) mod io_queueSize (cx_io (fd_ctx d)))
              (job_of d u (Z.of_nat (snd x) mod RXIO_RING)) /\
      forall q, cmd = Some q ->
        sqe_opcode q = match iu_ddir u with DDIR_WRITE => nvme_cmd_write | _ => nvme_cmd_read end /\
        sqe_nsid q = io_nsid (cx_io (fd_ctx d)) /\
        sqe_command_id q = u16 (Z.of_nat (snd x) mod io_queueSize (cx_io (fd_ctx d)) mod 65535 + 1) /\
        sqe_cdw12 q + 1 = iou_lbas d u /\
        (0 <= iou_lba d u < 18446744073709551616 ->
         sqe_cdw10 q + sqe_cdw11 q * 4294967296 = iou_lba d u)) places rep.
Proof.
  intros Hr Hw. destruct (fio_run_inv _ _ _ Hr Hw) as (places & lba & [Hn Ho Hb] & [Hlen Hf]%files_at).
  exists places. split; [exact Ho|]. apply Forall2_same_length_lookup. split; [by eapply list.Forall2_length|].
  intros k [i j] p Hx Hp. destruct (Forall2_lookup_lr _ _ _ _ _ _ Hn Hx Hp) as (l & u & Hl & Hj). cbn [fst snd] in *.
  destruct (lookup_lt_is_Some_2 (td_files td) i) as [f Hfi]; [rewrite Hlen; by eapply lookup_lt_Some|].
  pose proof (Hf i f l Hfi Hl) as Hat. unfold file_at in Hat. destruct (ff_eng_data f) as [d|] eqn:Ed.
  2:{ destruct Hat as [_ Hat]. unfold items_of in Hat. apply (f_equal length) in Hat. cbn in Hat.
      rewrite length_imap in Hat. apply lookup_lt_Some in Hj. lia. }
  destruct Hat as [Hlba [g Hat]]. cbn [fst snd] in *.
  assert (j < count_of i places)%nat as Hlt.
  { pose proof (count_of_app i (take k places) (skipn k places)) as Hc. rewrite take_drop in Hc.
    rewrite (drop_S _ _ _ Hx), count_of_cons, decide_True in Hc by done.
    rewrite (Ho _ _ _ Hx). lia. }
  pose proof (file_bounds _ _ _ _ Hat) as Hbd. unfold reaped, items_of in Hbd. rewrite length_imap, length_skipn, length_fmap in Hbd.
  specialize (Hb i l Hl). exists f, d, l, u. eexists. split_and!; [done..| |reflexivity|].
  - rewrite (ri_log _ _ _ _ _ _ (fi_ring _ _ _ _ Hat)), list_lookup_imap, lookup_take_lt by lia.
    unfold items_of. rewrite list_lookup_imap, Hj. cbn. by rewrite <- Hlba.
  - intros q Hq. destruct (build_sqe_fields _ _ _ _ _ Hq) as (H1 & H2 & H3 & H4 & H5).
    { cbn. unfold iou_lbas. pose proof (u32_range (iu_xfer_buflen u / fd_lba_size d)).
      destruct (_ =? 0) eqn:E0; bool_to_prop; lia. }
    split_and!; [rewrite H1; unfold job_of, iou_is_write; by destruct (iu_ddir u)|done..].
Qed.

(** ** A run *)

(** One file: a read and a write are posted, the GPU completes them one tick
    after the other, and getevents waits for both. *)
Definition run_td1 : thread_data := snd (fio_rocm_xio_queue 100 td1).
Definition run_td2 : thread_data := snd (fio_rocm_xio_queue 101 run_td1).
Definition run_result : option (Z * thread_data) :=
  fio_rocm_xio_getevents (E := slow_env) 8 true 2 4 None 0 run_td2.
Definition run_td3 : thread_data := match run_result with Some (_, td) => td | None => run_td2 end.
Definition run_posted : list (list (ptr * io_u)) :=
  [[(100, sample_unit 8192 DDIR_READ); (101, sample_unit 65536 DDIR_WRITE)]].

(** The block addresses of the commands a file's kernel wrote. *)
Definition written (td : thread_data) : list Z :=
  map (fun c => match c with Some q => sqe_cdw10 q | None => -1 end)
    (gk_log (wr_gpu (cx_ring (fd_ctx (data_of (nth 0 (td_files td) closed_file)))))).

Lemma file1_opened : opened file1.
Proof.
  right. exists (demo_rxio never_fails), td0, closed_file, []. split; [done|]. split; [done|].
  unfold file1, open_file. assert (fst (fst (fio_rocm_xio_open_file (X := demo_rxio never_fails) td0 closed_file [])) = 0) as E
    by (by vm_compute).
  revert E. generalize (fio_rocm_xio_open_file (X := demo_rxio never_fails) td0 closed_file []).
  intros [[rc f] h] E. cbn in *. by subst.
Qed.

(** A unit that is accepted. *)
Lemma run_accepted posted rep td p st posted' :
  fio_run posted rep td -> fst (fio_rocm_xio_queue p td) = st -> accept st p td posted = posted' ->
  fio_run posted' rep (snd (fio_rocm_xio_queue p td)).
Proof. intros H <- <-. by apply run_queue. Qed.

Lemma run_reported {E : FioEnv} posted rep td fuel max n td' done :
  fio_run posted rep td -> array_ok max td -> 0 <= max ->
  fio_rocm_xio_getevents fuel true n max None 0 td = Some (n, td') -> events_of n td' = done ->
  fio_run posted (rep ++ done) td'.
Proof. intros H Ha H0 Hg <-. by eapply run_getevents. Qed.

Lemma run_result_two : run_result = Some (2, run_td3).
Proof.
  unfold run_td3. assert (option_map fst run_result = Some 2) as E by (by vm_compute).
  destruct run_result as [[n td]|]; [|done]. by injection E as ->.
Qed.

Lemma sample_run : fio_run run_posted [100; 101] run_td3.
Proof.
  assert (fio_run [[]] [] td1) as H0.
  { apply (run_open td1). constructor; [exact file1_opened|constructor]. }
  assert (fio_run [[(100, sample_unit 8192 DDIR_READ)]] [] run_td1) as H1.
  { apply (run_accepted _ _ _ 100 FIO_Q_QUEUED _ H0); by vm_compute. }
  assert (fio_run run_posted [] run_td2) as H2.
  { apply (run_accepted _ _ _ 101 FIO_Q_QUEUED _ H1); by vm_compute. }
  apply (run_reported (E := slow_env) run_posted [] run_td2 8 4 2 run_td3 [100; 101] H2);
    [by vm_compute|done|exact run_result_two|by vm_compute].
Qed.

Lemma completed_units_executed_witness :
  written run_td3 = [16; 128] /\
  exists f d, td_files run_td3 !! 0%nat = Some f /\ ff_eng_data f = Some d /\
    forall q, gk_log (wr_gpu (cx_ring (fd_ctx d))) !! 1%nat = Some (Some q) -> sqe_opcode q = nvme_cmd_write.
Proof.
  split; [by vm_compute|].
  destruct (completed_units_executed _ _ _ sample_run) as (places & Ho & Hall); [by repeat constructor|].
  inversion Hall as [|x0 ? ps ? H0 Hps]; subst. inversion Hps as [|[i j] ? ? ? H1 ?]; subst.
  destruct H1 as (f & d & l1 & u & cmd & Hf & Hd & Hl & Hu & Hlog & _ & Hq). cbn [fst snd] in *.
  assert (i = 0)%nat as -> by (apply lookup_lt_Some in Hl; cbn in Hl; lia).
  pose proof (Ho 1%nat 0%nat j eq_refl) as Hj. injection Hl as <-.
  destruct H0 as (_ & _ & l0 & _ & _ & _ & _ & Hl0 & _). destruct x0 as [i0 j0]. cbn [fst] in *.
  assert (i0 = 0)%nat as -> by (apply lookup_lt_Some in Hl0; cbn in Hl0; lia).
  change (j = 1%nat) in Hj. subst j. injection Hu as <-. exists f, d. split; [done|]. split; [done|].
  intros q E. rewrite Hlog in E. injection E as ->. by destruct (Hq q eq_refl).
Defined.
