(* ===== verification/SdmaLayout.v ===== *)
(** * SDMA packet layouts

    The packet structures of [src/src/endpoints/sdma-ep/sdma_pkt_struct.h] and
    [sdma_pkt_struct_mi4.h]: each is a sequence of 32-bit words, each word a
    union over named bit fields, listed here from the least significant bit
    up as the compiler lays them out.  Assigning a field, reading it back, the
    laws of the two, and the agreement of the OSS7 structures with the field
    macros of [sdma-packet.h] they are said to be derived from. *)

From Stdlib Require Export String.
From stdpp Require Export strings.
From S2P Require Import Prelude.

#[global] Open Scope Z_scope.

(** ** Bit fields of a word *)

Definition get_bits (sh w x : Z) : Z := Z.land (Z.shiftr x sh) (Z.ones w).

(** Bits [sh] up to [sh + w] of [x] become the low [w] bits of [v]. *)
Definition put_bits (sh w v x : Z) : Z :=
  Z.lor (Z.ldiff x (Z.shiftl (Z.ones w) sh)) (Z.shiftl (Z.land v (Z.ones w)) sh).

(** ** Layouts *)

Abbreviation bit_fields := (list (string * Z)).
Abbreviation layout := (list (string * bit_fields)).

(** The shift and width of a field, the word's first field at [sh]. *)
Fixpoint field_in (f : string) (sh : Z) (fs : bit_fields) : option (Z * Z) :=
  match fs with
  | [] => None
  | (g, w) :: fs' => if String.eqb g f then Some (sh, w) else field_in f (sh + w) fs'
  end.

(** The word of a member, its shift and its width. *)
Fixpoint field_at (L : layout) (u f : string) : option (nat * Z * Z) :=
  match L with
  | [] => None
  | (u', fs) :: L' =>
      if String.eqb u' u
      then match field_in f 0 fs with Some (sh, w) => Some (0%nat, sh, w) | None => None end
      else match field_at L' u f with Some (i, sh, w) => Some (S i, sh, w) | None => None end
  end.

(** A packet is the list of its words; [p.u.f = v] and the value of [p.u.f]. *)
Definition assign (L : layout) (u f : string) (v : Z) (p : list Z) : list Z :=
  match field_at L u f with
  | Some (i, sh, w) => alter (put_bits sh w v) i p
  | None => p
  end.
Definition fetch (L : layout) (u f : string) (p : list Z) : Z :=
  match field_at L u f with
  | Some (i, sh, w) => get_bits sh w (nth i p 0)
  | None => 0
  end.

(** [value{}] and then the assignments, in order. *)
Definition zeroed (L : layout) : list Z := replicate (length L) 0.
Definition assignment : Type := string * string * Z.
Definition build (L : layout) (l : list assignment) : list Z :=
  fold_left (fun p a => match a with (u, f, v) => assign L u f v p end) l (zeroed L).

(** The last assignment to a field wins. *)
Fixpoint assigned (u f : string) (l : list assignment) (v : Z) : Z :=
  match l with
  | [] => v
  | (u', f', v') :: l' =>
      assigned u f l' (if String.eqb u' u && String.eqb f' f then v' else v)
  end.

(** What the [static_assert]s and the use as 32-bit words need: fields have
    positive widths that fill the word, and member names are distinct. *)
Definition bits_total (fs : bit_fields) : Z := sumZ snd fs.
Definition word_ok (fs : bit_fields) : bool :=
  forallb (fun fw : string * Z => 0 <? snd fw) fs && (bits_total fs =? 32).
Definition layout_ok (L : layout) : bool :=
  forallb (fun uf : string * bit_fields => word_ok (snd uf)) L.

(** ** The structures *)

(** Before OSS7: [src/src/endpoints/sdma-ep/sdma_pkt_struct.h]. *)
Definition SDMA_PKT_COPY_LINEAR : layout :=
  [ ("HEADER_UNION",
      [("op", 8); ("sub_op", 8); ("reserved_0", 11); ("broadcast", 1); ("reserved_1", 4)]);
    ("COUNT_UNION", [("count", 30); ("reserved_0", 2)]);
    ("PARAMETER_UNION",
      [("reserved_0", 16); ("dst_sw", 2); ("reserved_1", 4); ("dst_ha", 1); ("reserved_2", 1);
      ("src_sw", 2); ("reserved_3", 4); ("src_ha", 1); ("reserved_4", 1)]);
    ("SRC_ADDR_LO_UNION", [("src_addr_31_0", 32)]);
    ("SRC_ADDR_HI_UNION", [("src_addr_63_32", 32)]);
    ("DST_ADDR_LO_UNION", [("dst_addr_31_0", 32)]);
    ("DST_ADDR_HI_UNION", [("dst_addr_63_32", 32)]) ].

Definition SDMA_PKT_WRITE_UNTILED : layout :=
  [ ("HEADER_UNION", [("op", 8); ("sub_op", 8); ("reserved_0", 16)]);
    ("DST_ADDR_LO_UNION", [("dst_addr_31_0", 32)]);
    ("DST_ADDR_HI_UNION", [("dst_addr_63_32", 32)]);
    ("DW_3_UNION", [("count", 22); ("reserved_0", 2); ("sw", 2); ("reserved_1", 6)]);
    ("DATA0_UNION", [("data0", 32)]) ].

Definition SDMA_PKT_FENCE : layout :=
  [ ("HEADER_UNION", [("op", 8); ("sub_op", 8); ("reserved_0", 16)]);
    ("ADDR_LO_UNION", [("addr_31_0", 32)]);
    ("ADDR_HI_UNION", [("addr_63_32", 32)]);
    ("DATA_UNION", [("data", 32)]) ].

Definition SDMA_PKT_CONSTANT_FILL : layout :=
  [ ("HEADER_UNION", [("op", 8); ("sub_op", 8); ("sw", 2); ("reserved_0", 12); ("fillsize", 2)]);
    ("DST_ADDR_LO_UNION", [("dst_addr_31_0", 32)]);
    ("DST_ADDR_HI_UNION", [("dst_addr_63_32", 32)]);
    ("DATA_UNION", [("src_data_31_0", 32)]);
    ("COUNT_UNION", [("count", 22); ("reserved_0", 10)]) ].

Definition SDMA_PKT_TRAP : layout :=
  [ ("HEADER_UNION", [("op", 8); ("sub_op", 8); ("reserved_0", 16)]);
    ("INT_CONTEXT_UNION", [("int_context", 28); ("reserved_0", 4)]) ].

Definition SDMA_PKT_POLL_REGMEM : layout :=
  [ ("HEADER_UNION",
      [("op", 8); ("sub_op", 8); ("reserved_0", 10); ("hdp_flush", 1); ("reserved_1", 1);
      ("func", 3); ("mem_poll", 1)]);
    ("ADDR_LO_UNION", [("addr_31_0", 32)]);
    ("ADDR_HI_UNION", [("addr_63_32", 32)]);
    ("VALUE_UNION", [("value", 32)]);
    ("MASK_UNION", [("mask", 32)]);
    ("DW5_UNION", [("interval", 16); ("retry_count", 12); ("reserved_0", 4)]) ].

Definition SDMA_PKT_TIMESTAMP : layout :=
  [ ("HEADER_UNION", [("op", 8); ("sub_op", 8); ("reserved_0", 16)]);
    ("ADDR_LO_UNION", [("addr_31_0", 32)]);
    ("ADDR_HI_UNION", [("addr_63_32", 32)]) ].

Definition SDMA_PKT_NOP : layout :=
  [ ("HEADER_UNION", [("op", 8); ("sub_op", 8); ("count", 14); ("reserved_0", 2)]);
    ("DATA0_UNION", [("data0", 32)]) ].

Definition SDMA_PKT_ATOMIC : layout :=
  [ ("HEADER_UNION", [("op", 8); ("sub_op", 8); ("l", 1); ("reserved_0", 8); ("operation", 7)]);
    ("ADDR_LO_UNION", [("addr_31_0", 32)]);
    ("ADDR_HI_UNION", [("addr_63_32", 32)]);
    ("SRC_DATA_LO_UNION", [("src_data_31_0", 32)]);
    ("SRC_DATA_HI_UNION", [("src_data_63_32", 32)]);
    ("CMP_DATA_LO_UNION", [("cmp_data_31_0", 32)]);
    ("CMP_DATA_HI_UNION", [("cmp_data_63_32", 32)]);
    ("LOOP_UNION", [("loop_interval", 13); ("reserved_0", 19)]) ].

Definition SDMA_PKT_LINEAR_LARGE_SUB_WINDOW_COPY : layout :=
  [ ("HEADER_UNION", [("op", 8); ("sub_op", 8); ("l", 1); ("reserved_0", 8); ("operation", 7)]);
    ("SRC_ADDR_LO_UNION", [("src_base_addr_31_0", 32)]);
    ("SRC_ADDR_HI_UNION", [("src_base_addr_63_32", 32)]);
    ("SRC_X_UNION", [("src_x", 32)]);
    ("SRC_Y_UNION", [("src_y", 32)]);
    ("SRC_Z_UNION", [("src_z", 32)]);
    ("SRC_PITCH_UNION", [("src_pitch", 32)]);
    ("SRC_SLICE_PITCH_LO_UNION", [("src_slice_pitch_31_0", 32)]);
    ("SRC_SLICE_PITCH_HI_UNION", [("src_slice_pitch_47_32", 16); ("reserved_0", 16)]);
    ("DST_ADDR_LO_UNION", [("dst_data_31_0", 32)]);
    ("DST_ADDR_HI_UNION", [("src_data_63_32", 32)]);
    ("DST_X_UNION", [("dst_x", 32)]);
    ("DST_Y_UNION", [("dst_y", 32)]);
    ("DST_Z_UNION", [("dst_z", 32)]);
    ("DST_PITCH_UNION", [("dst_pitch", 32)]);
    ("DST_SLICE_PITCH_LO_UNION", [("dst_slice_pitch_31_0", 32)]);
    ("DST_SLICE_PITCH_HI_UNION", [("dst_slice_pitch_47_32", 16); ("reserved_0", 16)]);
    ("RECT_X_UNION", [("rect_x", 32)]);
    ("RECT_Y_UNION", [("rect_y", 32)]);
    ("RECT_Z_UNION", [("rect_z", 32)]) ].

(** OSS7: [src/src/endpoints/sdma-ep/sdma_pkt_struct_mi4.h]. *)
Definition SDMA_PKT_COPY_LINEAR_PHY_MI4 : layout :=
  [ ("HEADER_UNION",
      [("op_code", 8); ("sub_op_code", 8); ("reserved_0", 2); ("tmz", 1); ("reserved_1", 9);
      ("nsd", 1); ("reserved_2", 3)]);
    ("COUNT_UNION", [("count", 22); ("reserved_0", 2); ("addr_pair", 8)]);
    ("PARAMETER_UNION",
      [("reserved_0", 4); ("dst_mtype", 2); ("dst_scope", 2); ("dst_temporal_hint", 3);
      ("reserved_1", 1); ("src_mtype", 2); ("src_scope", 2); ("src_temporal_hint", 3);
      ("gcc", 1); ("dst_sys", 1); ("reserved_2", 1); ("dst_snp", 1); ("dst_gpa", 1);
      ("reserved_3", 4); ("src_sys", 1); ("reserved_4", 1); ("src_snp", 1); ("src_gpa", 1)]);
    ("DW3_UNION",
      [("data_format", 6); ("reserved_0", 3); ("num_type", 3); ("reserved_1", 4); ("rd_cm", 2);
      ("wr_cm", 2); ("reserved_2", 4); ("max_com", 2); ("max_ucom", 1); ("reserved_3", 4);
      ("dcc", 1)]);
    ("SRC_ADDR_LO_UNION", [("src_address_lo", 32)]);
    ("SRC_ADDR_HI_UNION", [("src_address_hi", 32)]);
    ("DST_ADDR_LO_UNION", [("dst_address_lo", 32)]);
    ("DST_ADDR_HI_UNION", [("dst_address_hi", 32)]) ].

Definition SDMA_PKT_COPY_LINEAR_WAIT_SIGNAL_MI4 : layout :=
  [ ("HEADER_UNION",
      [("op", 8); ("subop", 8); ("reserved_0", 2); ("tmz", 1); ("reserved_1", 9); ("npd", 1);
      ("reserved_2", 1); ("wait", 1); ("signal", 1)]);
    ("WAIT_CTRL_UNION",
      [("wait_function", 3); ("reserved_0", 15); ("wait_scope", 2); ("wait_temporal_hint", 3);
      ("reserved_1", 9)]);
    ("WAIT_ADDR_LO_UNION", [("reserved_0", 3); ("wait_addr_31_3", 29)]);
    ("WAIT_ADDR_HI_UNION", [("wait_addr_63_32", 32)]);
    ("WAIT_REF_LO_UNION", [("wait_reference_31_0", 32)]);
    ("WAIT_REF_HI_UNION", [("wait_reference_63_32", 32)]);
    ("WAIT_MASK_LO_UNION", [("wait_mask_31_0", 32)]);
    ("WAIT_MASK_HI_UNION", [("wait_mask_63_32", 32)]);
    ("COPY_COUNT_UNION", [("copy_count", 30); ("reserved_0", 2)]);
    ("COPY_PARAM_UNION",
      [("reserved_0", 18); ("dst_scope", 2); ("dst_temporal_hint", 3); ("reserved_1", 3);
      ("src_scope", 2); ("src_temporal_hint", 3); ("reserved_2", 1)]);
    ("SRC_ADDR_LO_UNION", [("src_addr_31_0", 32)]);
    ("SRC_ADDR_HI_UNION", [("src_addr_63_32", 32)]);
    ("DST_ADDR_LO_UNION", [("dst_addr_31_0", 32)]);
    ("DST_ADDR_HI_UNION", [("dst_addr_63_32", 32)]);
    ("SIGNAL_CTRL_UNION",
      [("signal_operation", 7); ("reserved_0", 11); ("signal_scope", 2);
      ("signal_temporal_hint", 3); ("reserved_1", 9)]);
    ("SIGNAL_ADDR_LO_UNION", [("reserved_0", 3); ("signal_addr_31_3", 29)]);
    ("SIGNAL_ADDR_HI_UNION", [("signal_addr_63_32", 32)]);
    ("SIGNAL_DATA_LO_UNION", [("signal_data_31_0", 32)]);
    ("SIGNAL_DATA_HI_UNION", [("signal_data_63_32", 32)]) ].

Definition SDMA_PKT_WRITE_LINEAR_MI4 : layout :=
  [ ("HEADER_UNION",
      [("op_code", 8); ("sub_op_code", 8); ("reserved_0", 2); ("tmz", 1); ("reserved_1", 13)]);
    ("DST_ADDR_LO_UNION", [("dst_address_lo", 32)]);
    ("DST_ADDR_HI_UNION", [("dst_address_hi", 32)]);
    ("DW3_UNION",
      [("count", 20); ("dst_sys", 1); ("reserved_0", 1); ("dst_snp", 1); ("dst_gpa", 1);
      ("dst_mtype", 2); ("dst_scope", 2); ("dst_temporal_hint", 3); ("reserved_1", 1)]);
    ("DATA0_UNION", [("data0", 32)]) ].

Definition SDMA_PKT_FENCE_MI4 : layout :=
  [ ("HEADER_UNION",
      [("op_code", 8); ("sub_op_code", 8); ("mtype", 2); ("reserved_0", 2); ("s", 1);
      ("reserved_1", 1); ("snp", 1); ("gpa", 1); ("scope", 2); ("temporal_hint", 3);
      ("reserved_2", 3)]);
    ("ADDR_LO_UNION", [("fence_addr_lo", 32)]);
    ("ADDR_HI_UNION", [("fence_addr_hi", 32)]);
    ("DATA_UNION", [("data", 32)]) ].

Definition SDMA_PKT_FENCE_64B_MI4 : layout :=
  [ ("HEADER_UNION",
      [("op", 8); ("subop", 8); ("mtype", 2); ("reserved_0", 2); ("sys", 1); ("reserved_1", 1);
      ("snp", 1); ("gpa", 1); ("scope", 2); ("temporal_hint", 3); ("reserved_2", 3)]);
    ("ADDR_LO_UNION", [("reserved_0", 3); ("addr_31_3", 29)]);
    ("ADDR_HI_UNION", [("addr_63_32", 32)]);
    ("DATA_LO_UNION", [("data_31_0", 32)]);
    ("DATA_HI_UNION", [("data_63_32", 32)]) ].

Definition SDMA_PKT_CONSTANT_FILL_MI4 : layout :=
  [ ("HEADER_UNION",
      [("op_code", 8); ("sub_op_code", 8); ("mtype", 2); ("reserved_0", 2); ("sys", 1);
      ("reserved_1", 1); ("snp", 1); ("gpa", 1); ("scope", 2); ("temporal_hint", 3); ("npd", 1);
      ("size", 2)]);
    ("ADDR_LO_UNION", [("addr_lo", 32)]);
    ("ADDR_HI_UNION", [("addr_hi", 32)]);
    ("DATA_UNION", [("source_data", 32)]);
    ("COUNT_UNION", [("count", 30); ("reserved_0", 2)]) ].

Definition SDMA_PKT_POLL_MEM_64B_MI4 : layout :=
  [ ("HEADER_UNION",
      [("op", 8); ("subop", 8); ("mtype", 2); ("reserved_0", 2); ("sys", 1); ("reserved_1", 1);
      ("snp", 1); ("gpa", 1); ("cache_policy", 3); ("reserved_2", 1); ("func", 3);
      ("reserved_3", 1)]);
    ("ADDR_LO_UNION", [("reserved_0", 3); ("addr_31_3", 29)]);
    ("ADDR_HI_UNION", [("addr_63_32", 32)]);
    ("REF_LO_UNION", [("reference_31_0", 32)]);
    ("REF_HI_UNION", [("reference_63_32", 32)]);
    ("MASK_LO_UNION", [("mask_31_0", 32)]);
    ("MASK_HI_UNION", [("mask_63_32", 32)]);
    ("DW7_UNION",
      [("reserved_0", 16); ("retry_count", 8); ("reserved_1", 4); ("scope", 2); ("reserved_2", 2)]) ].

(** ** The field macros of [sdma-packet.h]

    One row per field: name, word ([_offset]), [_mask] and [_shift].  The
    macro of a field maps [x] to [((x) & mask) << shift]. *)

Definition field_macro : Type := string * Z * Z * Z.
Definition macro_value (m : field_macro) (x : Z) : Z :=
  match m with (_, _, mask, shift) => Z.shiftl (Z.land x mask) shift end.

Definition SDMA_PKT_COPY_LINEAR_PHY_MI4_macros : list field_macro :=
  [ ("HEADER_op_code", 0, 0xff, 0); ("HEADER_sub_op_code", 0, 0xff, 8);
  ("HEADER_tmz", 0, 0x1, 18); ("HEADER_nsd", 0, 0x1, 28); ("DW_1_count", 1, 0x3fffff, 0);
  ("DW_1_addr_pair", 1, 0xff, 24); ("DW_2_dst_mtype", 2, 0x3, 4); ("DW_2_dst_scope", 2, 0x3, 6);
  ("DW_2_dst_temporal_hint", 2, 0x7, 8); ("DW_2_src_mtype", 2, 0x3, 12);
  ("DW_2_src_scope", 2, 0x3, 14); ("DW_2_src_temporal_hint", 2, 0x7, 16);
  ("DW_2_dst_gcc", 2, 0x1, 19); ("DW_2_dst_sys", 2, 0x1, 20); ("DW_2_dst_snp", 2, 0x1, 22);
  ("DW_2_dst_gpa", 2, 0x1, 23); ("DW_2_src_gcc", 2, 0x1, 19); ("DW_2_src_sys", 2, 0x1, 28);
  ("DW_2_src_snp", 2, 0x1, 30); ("DW_2_src_gpa", 2, 0x1, 31); ("DW_3_data_format", 3, 0x3f, 0);
  ("DW_3_num_type", 3, 0x7, 9); ("DW_3_rd_cm", 3, 0x3, 16); ("DW_3_wr_cm", 3, 0x3, 18);
  ("DW_3_max_com", 3, 0x3, 24); ("DW_3_max_ucom", 3, 0x1, 26); ("DW_3_dcc", 3, 0x1, 31);
  ("SRC_ADDRESS_LO_src_address_lo", 4, 0xffffffff, 0);
  ("SRC_ADDRESS_HI_src_address_hi", 5, 0xffffffff, 0);
  ("DST_ADDRESS_LO_dst_address_lo", 6, 0xffffffff, 0);
  ("DST_ADDRESS_HI_dst_address_hi", 7, 0xffffffff, 0)].

Definition SDMA_PKT_COPY_LINEAR_WAIT_SIGNAL_MI4_macros : list field_macro :=
  [ ("HEADER_op", 0, 0xff, 0); ("HEADER_subop", 0, 0xff, 8); ("HEADER_tmz", 0, 0x1, 18);
  ("HEADER_npd", 0, 0x1, 28); ("HEADER_wait", 0, 0x1, 30); ("HEADER_signal", 0, 0x1, 31);
  ("DW_1_wait_function", 1, 0x7, 0); ("DW_1_wait_scope", 1, 0x3, 18);
  ("DW_1_wait_temporal_hint", 1, 0x7, 20); ("WAIT_ADDR_31_3_wait_addr_31_3", 2, 0x1fffffff, 3);
  ("WAIT_ADDR_63_32_wait_addr_63_32", 3, 0xffffffff, 0);
  ("WAIT_REFERENCE_31_0_wait_reference_31_0", 4, 0xffffffff, 0);
  ("WAIT_REFERENCE_63_32_wait_reference_63_32", 5, 0xffffffff, 0);
  ("WAIT_MASK_31_0_wait_mask_31_0", 6, 0xffffffff, 0);
  ("WAIT_MASK_63_32_wait_mask_63_32", 7, 0xffffffff, 0);
  ("COPY_COUNT_copy_count", 8, 0x3fffffff, 0); ("DW_9_dst_scope", 9, 0x3, 18);
  ("DW_9_dst_temporal_hint", 9, 0x7, 20); ("DW_9_src_scope", 9, 0x3, 26);
  ("DW_9_src_temporal_hint", 9, 0x7, 28); ("SRC_ADDR_31_0_src_addr_31_0", 10, 0xffffffff, 0);
  ("SRC_ADDR_63_32_src_addr_63_32", 11, 0xffffffff, 0);
  ("DST_ADDR_31_0_dst_addr_31_0", 12, 0xffffffff, 0);
  ("DST_ADDR_63_32_dst_addr_63_32", 13, 0xffffffff, 0); ("DW_14_signal_operation", 14, 0x7f, 0);
  ("DW_14_signal_scope", 14, 0x3, 18); ("DW_14_signal_temporal_hint", 14, 0x7, 20);
  ("SIGNAL_ADDR_31_3_signal_addr_31_3", 15, 0x1fffffff, 3);
  ("SIGNAL_ADDR_63_32_signal_addr_63_32", 16, 0xffffffff, 0);
  ("SIGNAL_DATA_31_0_signal_data_31_0", 17, 0xffffffff, 0);
  ("SIGNAL_DATA_63_32_signal_data_63_32", 18, 0xffffffff, 0)].

Definition SDMA_PKT_WRITE_LINEAR_MI4_macros : list field_macro :=
  [ ("HEADER_op_code", 0, 0xff, 0); ("HEADER_sub_op_code", 0, 0xff, 8);
  ("HEADER_tmz", 0, 0x1, 18); ("DST_ADDRESS_LO_dst_address_lo", 1, 0xffffffff, 0);
  ("DST_ADDRESS_HI_dst_address_hi", 2, 0xffffffff, 0); ("DW_3_count", 3, 0xfffff, 0);
  ("DW_3_dst_sys", 3, 0x1, 20); ("DW_3_dst_snp", 3, 0x1, 22); ("DW_3_dst_gpa", 3, 0x1, 23);
  ("DW_3_dst_mtype", 3, 0x3, 24); ("DW_3_dst_scope", 3, 0x3, 26);
  ("DW_3_dst_temporal_hint", 3, 0x7, 28); ("DW_3_data", 3, 0xffffffff, 0)].

Definition SDMA_PKT_FENCE_MI4_macros : list field_macro :=
  [ ("HEADER_op_code", 0, 0xff, 0); ("HEADER_sub_op_code", 0, 0xff, 8);
  ("HEADER_mtype", 0, 0x3, 16); ("HEADER_s", 0, 0x1, 20); ("HEADER_snp", 0, 0x1, 22);
  ("HEADER_gpa", 0, 0x1, 23); ("HEADER_scope", 0, 0x3, 24); ("HEADER_temporal_hint", 0, 0x7, 26);
  ("FENCE_ADDR_LO_fence_addr_lo", 1, 0xffffffff, 0);
  ("FENCE_ADDR_HI_fence_addr_hi", 2, 0xffffffff, 0); ("DATA_data", 3, 0xffffffff, 0)].

Definition SDMA_PKT_FENCE_64B_MI4_macros : list field_macro :=
  [ ("HEADER_op", 0, 0xff, 0); ("HEADER_subop", 0, 0xff, 8); ("HEADER_mtype", 0, 0x3, 16);
  ("HEADER_sys", 0, 0x1, 20); ("HEADER_snp", 0, 0x1, 22); ("HEADER_gpa", 0, 0x1, 23);
  ("HEADER_scope", 0, 0x3, 24); ("HEADER_temporal_hint", 0, 0x7, 26);
  ("ADDR_31_3_addr_31_3", 1, 0x1fffffff, 3); ("ADDR_63_32_addr_63_32", 2, 0xffffffff, 0);
  ("DATA_31_0_data_31_0", 3, 0xffffffff, 0); ("DATA_63_32_data_63_32", 4, 0xffffffff, 0)].

Definition SDMA_PKT_CONSTANT_FILL_MI4_macros : list field_macro :=
  [ ("HEADER_op_code", 0, 0xff, 0); ("HEADER_sub_op_code", 0, 0xff, 8);
  ("HEADER_mtype", 0, 0x3, 16); ("HEADER_sys", 0, 0x1, 20); ("HEADER_snp", 0, 0x1, 22);
  ("HEADER_gpa", 0, 0x1, 23); ("HEADER_scope", 0, 0x3, 24); ("HEADER_temporal_hint", 0, 0x7, 26);
  ("HEADER_npd", 0, 0x1, 29); ("HEADER_size", 0, 0x3, 30); ("ADDR_LO_addr_lo", 1, 0xffffffff, 0);
  ("ADDR_HI_addr_hi", 2, 0xffffffff, 0); ("SOURCE_DATA_source_data", 3, 0xffffffff, 0);
  ("COUNT_count", 4, 0x3fffffff, 0)].

Definition SDMA_PKT_POLL_MEM_64B_MI4_macros : list field_macro :=
  [ ("HEADER_op", 0, 0xff, 0); ("HEADER_subop", 0, 0xff, 8); ("HEADER_mtype", 0, 0x3, 16);
  ("HEADER_sys", 0, 0x1, 20); ("HEADER_snp", 0, 0x1, 22); ("HEADER_gpa", 0, 0x1, 23);
  ("HEADER_cache_policy", 0, 0x7, 24); ("HEADER_func", 0, 0x7, 28);
  ("ADDR_31_3_addr_31_3", 1, 0x1fffffff, 3); ("ADDR_63_32_addr_63_32", 2, 0xffffffff, 0);
  ("REFERENCE_31_0_reference_31_0", 3, 0xffffffff, 0);
  ("REFERENCE_63_32_reference_63_32", 4, 0xffffffff, 0);
  ("MASK_31_0_mask_31_0", 5, 0xffffffff, 0); ("MASK_63_32_mask_63_32", 6, 0xffffffff, 0);
  ("DW_7_retry_count", 7, 0xff, 16); ("DW_7_scope", 7, 0x3, 28)].

(** The OSS7 structures whose macros describe the same fields;
    [SDMA_PKT_WRITE_LINEAR_MI4] is not one of them. *)
Definition mi4_packets : list (layout * list field_macro) :=
  [ (SDMA_PKT_COPY_LINEAR_PHY_MI4, SDMA_PKT_COPY_LINEAR_PHY_MI4_macros);
    (SDMA_PKT_COPY_LINEAR_WAIT_SIGNAL_MI4, SDMA_PKT_COPY_LINEAR_WAIT_SIGNAL_MI4_macros);
    (SDMA_PKT_FENCE_MI4, SDMA_PKT_FENCE_MI4_macros);
    (SDMA_PKT_FENCE_64B_MI4, SDMA_PKT_FENCE_64B_MI4_macros);
    (SDMA_PKT_CONSTANT_FILL_MI4, SDMA_PKT_CONSTANT_FILL_MI4_macros);
    (SDMA_PKT_POLL_MEM_64B_MI4, SDMA_PKT_POLL_MEM_64B_MI4_macros) ].

Definition all_layouts : list (layout * nat) :=
  [ (SDMA_PKT_COPY_LINEAR, 7%nat); (SDMA_PKT_WRITE_UNTILED, 5%nat); (SDMA_PKT_FENCE, 4%nat);
    (SDMA_PKT_CONSTANT_FILL, 5%nat); (SDMA_PKT_TRAP, 2%nat); (SDMA_PKT_POLL_REGMEM, 6%nat);
    (SDMA_PKT_TIMESTAMP, 3%nat); (SDMA_PKT_NOP, 2%nat); (SDMA_PKT_ATOMIC, 8%nat);
    (SDMA_PKT_LINEAR_LARGE_SUB_WINDOW_COPY, 20%nat);
    (SDMA_PKT_COPY_LINEAR_PHY_MI4, 8%nat); (SDMA_PKT_COPY_LINEAR_WAIT_SIGNAL_MI4, 19%nat);
    (SDMA_PKT_WRITE_LINEAR_MI4, 5%nat); (SDMA_PKT_FENCE_MI4, 4%nat);
    (SDMA_PKT_FENCE_64B_MI4, 5%nat); (SDMA_PKT_CONSTANT_FILL_MI4, 5%nat);
    (SDMA_PKT_POLL_MEM_64B_MI4, 8%nat) ].

(** The places of the fields that are not reserved. *)
Definition is_reserved (f : string) : bool := String.prefix "reserved" f.
Fixpoint places_in (i sh : Z) (u : string) (fs : bit_fields) : list (string * string * Z * Z * Z) :=
  match fs with
  | [] => []
  | (f, w) :: fs' =>
      (if is_reserved f then [] else [(u, f, i, sh, w)]) ++ places_in i (sh + w) u fs'
  end.
Fixpoint places (i : Z) (L : layout) : list (string * string * Z * Z * Z) :=
  match L with
  | [] => []
  | (u, fs) :: L' => places_in i 0 u fs ++ places (i + 1) L'
  end.
Definition same_place (p : string * string * Z * Z * Z) (m : field_macro) : bool :=
  match p, m with
  | (_, _, i, sh, w), (_, i', mask, shift) => (i =? i') && (sh =? shift) && (mask =? Z.ones w)
  end.
(** The member name finds the place. *)
Definition place_found (L : layout) (p : string * string * Z * Z * Z) : bool :=
  match p with
  | (u, f, i, sh, w) => negb (is_reserved f) && bool_decide (field_at L u f = Some (Z.to_nat i, sh, w))
  end.
Definition agrees (L : layout) (ms : list field_macro) : bool :=
  forallb (fun m => existsb (fun p => same_place p m && place_found L p) (places 0 L)) ms
  && forallb (fun p => existsb (same_place p) ms) (places 0 L).

(** ** Laws *)

Lemma testbit_ones w k : 0 <= w -> Z.testbit (Z.ones w) k = (0 <=? k) && (k <? w).
Proof.
  intros Hw. destruct (Z.leb_spec 0 k).
  - destruct (Z.ltb_spec k w); [apply Z.ones_spec_low|apply Z.ones_spec_high]; lia.
  - by rewrite Z.testbit_neg_r by lia.
Qed.

Lemma testbit_put sh w v x k :
  0 <= sh -> 0 <= w -> 0 <= k ->
  Z.testbit (put_bits sh w v x) k =
  if (sh <=? k) && (k <? sh + w) then Z.testbit v (k - sh) else Z.testbit x k.
Proof.
  intros Hs Hw Hk. unfold put_bits.
  rewrite Z.lor_spec, Z.ldiff_spec, !Z.shiftl_spec, Z.land_spec, !testbit_ones by lia.
  destruct (Z.leb_spec sh k); cbn [andb].
  2:{ rewrite (proj2 (Z.leb_gt 0 (k - sh))), Z.testbit_neg_r with (n := k - sh) by lia.
      cbn [andb negb]. by rewrite andb_true_r, orb_false_r. }
  rewrite (proj2 (Z.leb_le 0 (k - sh))) by lia. cbn [andb].
  destruct (Z.ltb_spec k (sh + w)).
  - rewrite (proj2 (Z.ltb_lt (k - sh) w)) by lia. cbn [negb].
    by rewrite andb_false_r, andb_true_r.
  - rewrite (proj2 (Z.ltb_ge (k - sh) w)) by lia. cbn [negb].
    by rewrite andb_true_r, andb_false_r, orb_false_r.
Qed.

Lemma testbit_get sh w x k :
  0 <= sh -> 0 <= w -> 0 <= k ->
  Z.testbit (get_bits sh w x) k = (k <? w) && Z.testbit x (k + sh).
Proof.
  intros Hs Hw Hk. unfold get_bits. rewrite Z.land_spec, Z.shiftr_spec, testbit_ones by lia.
  rewrite (proj2 (Z.leb_le 0 k)) by lia. cbn [andb]. apply andb_comm.
Qed.

Lemma get_put sh w v x : 0 <= sh -> 0 <= w -> get_bits sh w (put_bits sh w v x) = v mod 2 ^ w.
Proof.
  intros Hs Hw. rewrite <- Z.land_ones by done. apply Z.bits_inj'. intros k Hk.
  rewrite testbit_get, testbit_put, Z.land_spec, testbit_ones by lia.
  rewrite (proj2 (Z.leb_le 0 k)), (proj2 (Z.leb_le sh (k + sh))) by lia. cbn [andb].
  destruct (Z.ltb_spec k w).
  - rewrite (proj2 (Z.ltb_lt (k + sh) (sh + w))) by lia. cbn [andb].
    rewrite andb_true_r. f_equal. lia.
  - by rewrite andb_false_r.
Qed.

Lemma get_put_other sh w sh' w' v x :
  0 <= sh -> 0 <= w -> 0 <= sh' -> 0 <= w' -> sh' + w' <= sh \/ sh + w <= sh' ->
  get_bits sh' w' (put_bits sh w v x) = get_bits sh' w' x.
Proof.
  intros Hs Hw Hs' Hw' Hdis. apply Z.bits_inj'. intros k Hk.
  rewrite !testbit_get, testbit_put by lia.
  destruct (Z.ltb_spec k w'); cbn [andb]; [|done].
  replace ((sh <=? k + sh') && (k + sh' <? sh + w)) with false; [done|].
  symmetry. apply andb_false_iff. rewrite Z.leb_gt, Z.ltb_ge. lia.
Qed.

Lemma below_pow2 x n : 0 <= x -> 0 <= n -> (forall k, n <= k -> Z.testbit x k = false) -> x < 2 ^ n.
Proof.
  intros Hx Hn Hb. destruct (Z.eq_dec x 0) as [->|Hne]; [lia|].
  apply Z.log2_lt_pow2; [lia|]. destruct (Z.lt_ge_cases (Z.log2 x) n) as [|Hge]; [done|].
  pose proof (Hb _ Hge) as E. by rewrite Z.bit_log2 in E by lia.
Qed.

(** A word stays a 32-bit word. *)
Lemma put_bits_range sh w v x :
  0 <= sh -> 0 <= w -> sh + w <= 32 -> 0 <= x < 2 ^ 32 -> 0 <= put_bits sh w v x < 2 ^ 32.
Proof.
  intros Hs Hw Hsw Hx.
  assert (0 <= put_bits sh w v x) as Hpos.
  { apply Z.lor_nonneg. split; [apply Z.ldiff_nonneg; by left; lia|].
    apply Z.shiftl_nonneg, Z.land_nonneg. right. rewrite Z.ones_equiv.
    pose proof (Z.pow_pos_nonneg 2 w). lia. }
  split; [done|]. apply below_pow2; [done|lia|]. intros k Hk.
  rewrite testbit_put by lia. rewrite (proj2 (Z.ltb_ge k (sh + w))), andb_false_r by lia.
  rewrite Z.testbit_false by lia. rewrite Z.div_small; [done|].
  split; [lia|]. apply Z.lt_le_trans with (2 ^ 32); [lia|]. apply Z.pow_le_mono_r; lia.
Qed.

(** Where a field is, its word is full. *)
Lemma field_in_bounds f fs sh sh' w :
  forallb (fun fw : string * Z => 0 <? snd fw) fs = true -> field_in f sh fs = Some (sh', w) ->
  sh <= sh' /\ 0 < w /\ sh' + w <= sh + bits_total fs.
Proof.
  unfold bits_total. revert sh. induction fs as [|[g x] fs IH]; intros sh; [done|].
  cbn [forallb field_in sumZ snd]. intros [Hx Hfs]%andb_true_iff. bool_to_prop.
  assert (0 <= sumZ snd fs) as Hsum.
  { clear -Hfs. induction fs as [|y fs IH]; [done|]. cbn in *.
    apply andb_true_iff in Hfs as [Hy Hfs]. bool_to_prop. specialize (IH Hfs). lia. }
  destruct (String.eqb g f).
  - intros [= <- <-]. lia.
  - intros E. destruct (IH _ Hfs E) as (H1 & H2 & H3). lia.
Qed.

Lemma field_in_disjoint f g fs sh s1 w1 s2 w2 :
  forallb (fun fw : string * Z => 0 <? snd fw) fs = true -> f <> g ->
  field_in f sh fs = Some (s1, w1) -> field_in g sh fs = Some (s2, w2) ->
  s2 + w2 <= s1 \/ s1 + w1 <= s2.
Proof.
  revert sh. induction fs as [|[h x] fs IH]; intros sh; [done|].
  cbn [forallb field_in snd]. intros [Hx Hfs]%andb_true_iff Hne.
  destruct (String.eqb_spec h f), (String.eqb_spec h g); [congruence|..].
  - intros [= <- <-] E. apply field_in_bounds in E; [|done]. lia.
  - intros E [= <- <-]. apply field_in_bounds in E; [|done]. lia.
  - by apply IH.
Qed.

Lemma field_at_bounds L u f i sh w :
  layout_ok L = true -> field_at L u f = Some (i, sh, w) ->
  (i < length L)%nat /\ 0 <= sh /\ 0 < w /\ sh + w <= 32.
Proof.
  revert i. induction L as [|[u' fs] L IH]; intros i; [done|].
  cbn [layout_ok forallb field_at snd length]. intros [Hok HL]%andb_true_iff.
  destruct (String.eqb u' u).
  - destruct (field_in f 0 fs) as [[sh' w']|] eqn:E; [|done]. intros [= <- <- <-].
    apply andb_true_iff in Hok as [Hpos Htot]. apply field_in_bounds in E; [|done].
    bool_to_prop. lia.
  - destruct (field_at L u f) as [[[j sh'] w']|] eqn:E; [|done]. intros [= <- <- <-].
    destruct (IH j HL eq_refl). lia.
Qed.

Lemma field_at_disjoint L u f u' f' i sh w sh' w' :
  layout_ok L = true -> (u, f) <> (u', f') ->
  field_at L u f = Some (i, sh, w) -> field_at L u' f' = Some (i, sh', w') ->
  sh' + w' <= sh \/ sh + w <= sh'.
Proof.
  intros Hok Hne. revert i Hok. induction L as [|[v fs] L IH]; intros i; [done|].
  cbn [layout_ok forallb field_at snd]. intros [Hw HL]%andb_true_iff.
  apply andb_true_iff in Hw as [Hpos _].
  destruct (String.eqb_spec v u) as [->|Hu], (String.eqb_spec u u') as [->|Hu'].
  - destruct (field_in f 0 fs) as [[s1 w1]|] eqn:E1; [|done].
    destruct (field_in f' 0 fs) as [[s2 w2]|] eqn:E2; [|done].
    intros [= <- <- <-] [= <- <-].
    apply (field_in_disjoint f f' fs 0); try done. by intros ->.
  - destruct (field_in f 0 fs) as [[s1 w1]|]; [|done]. intros [= <- <- <-].
    by destruct (field_at L u' f') as [[[j s2] w2]|].
  - rewrite (proj2 (String.eqb_neq v u')) by done.
    destruct (field_at L u' f) as [[[j s1] w1]|] eqn:E1; [|done].
    destruct (field_at L u' f') as [[[j2 s2] w2]|] eqn:E2; [|done].
    intros [= <- <- <-] [= -> <- <-]. by apply (IH j).
  - destruct (field_at L u f) as [[[j s1] w1]|] eqn:E1; [|done]. intros [= <- <- <-].
    destruct (String.eqb v u').
    + by destruct (field_in f' 0 fs) as [[]|].
    + destruct (field_at L u' f') as [[[j2 s2] w2]|] eqn:E2; [|done].
      intros [= -> <- <-]. by apply (IH j).
Qed.

Lemma nth_alter_same {A} (f : A -> A) i (p : list A) d : (i < length p)%nat -> nth i (alter f i p) d = f (nth i p d).
Proof.
  intros Hi. rewrite !nth_lookup, list_lookup_alter_eq.
  destruct (lookup_lt_is_Some_2 _ _ Hi) as [x ->]. done.
Qed.
Lemma nth_alter_other {A} (f : A -> A) i j (p : list A) d : i <> j -> nth j (alter f i p) d = nth j p d.
Proof. intros Hij. by rewrite !nth_lookup, list_lookup_alter_ne. Qed.

Lemma length_assign L u f v p : length (assign L u f v p) = length p.
Proof. unfold assign. destruct (field_at L u f) as [[[i sh] w]|]; [apply length_alter|done]. Qed.

(** Reading back: the assigned field truncated to its width, every other
    field unchanged. *)
Lemma fetch_assign L u f v u' f' i sh w p :
  layout_ok L = true -> length p = length L -> field_at L u' f' = Some (i, sh, w) ->
  fetch L u' f' (assign L u f v p) =
  if String.eqb u u' && String.eqb f f' then v mod 2 ^ w else fetch L u' f' p.
Proof.
  intros Hok Hlen Hat. pose proof (field_at_bounds _ _ _ _ _ _ Hok Hat) as Hb.
  unfold fetch, assign. rewrite Hat.
  destruct (String.eqb u u' && String.eqb f f') eqn:E.
  - apply andb_true_iff in E as [->%String.eqb_eq ->%String.eqb_eq]. rewrite Hat.
    rewrite nth_alter_same by lia. apply get_put; lia.
  - assert ((u, f) <> (u', f')) as Hne.
    { intros [= -> ->]. by rewrite !String.eqb_refl in E. }
    destruct (field_at L u f) as [[[j s2] w2]|] eqn:E2; [|done].
    pose proof (field_at_bounds _ _ _ _ _ _ Hok E2) as Hb2.
    destruct (decide (j = i)) as [->|Hij]; [|by rewrite nth_alter_other].
    rewrite nth_alter_same by lia. apply get_put_other; try lia.
    exact (field_at_disjoint _ _ _ _ _ _ _ _ _ _ Hok Hne E2 Hat).
Qed.

(** The words of a packet. *)
Definition is_word (x : Z) : Prop := 0 <= x < 2 ^ 32.

Lemma assign_words L u f v p :
  layout_ok L = true -> Forall is_word p -> Forall is_word (assign L u f v p).
Proof.
  intros Hok Hp. unfold assign. destruct (field_at L u f) as [[[i sh] w]|] eqn:E; [|done].
  pose proof (field_at_bounds _ _ _ _ _ _ Hok E). apply Forall_alter; [done|].
  intros x _ Hx. apply put_bits_range; [lia..|done].
Qed.

Lemma build_words L l : layout_ok L = true -> Forall is_word (build L l).
Proof.
  intros Hok. unfold build.
  assert (Forall is_word (zeroed L)) as Hz by (apply Forall_replicate; unfold is_word; lia).
  revert Hz. generalize (zeroed L). induction l as [|[[u f] v] l IH]; intros p Hp; [done|].
  by apply IH, assign_words.
Qed.

Lemma length_build L l : length (build L l) = length L.
Proof.
  unfold build. assert (length (zeroed L) = length L) as Hz by apply length_replicate.
  revert Hz. generalize (zeroed L). induction l as [|[[u f] v] l IH]; intros p Hp; [done|].
  apply IH. by rewrite length_assign.
Qed.

Lemma fetch_zeroed L u f : fetch L u f (zeroed L) = 0.
Proof.
  unfold fetch. destruct (field_at L u f) as [[[i sh] w]|]; [|done].
  assert (nth i (zeroed L) 0 = 0) as ->.
  { unfold zeroed. revert i. induction (length L); intros [|i]; simpl; auto. }
  unfold get_bits. by rewrite Z.shiftr_0_l.
Qed.

Lemma fetch_build_gen L u f i sh w l p :
  layout_ok L = true -> length p = length L -> field_at L u f = Some (i, sh, w) ->
  forall v, fetch L u f p = v mod 2 ^ w ->
  fetch L u f (fold_left (fun p a => match a with (u, f, v) => assign L u f v p end) l p)
  = assigned u f l v mod 2 ^ w.
Proof.
  intros Hok Hlen Hat. revert p Hlen. induction l as [|[[u1 f1] v1] l IH]; intros p Hlen v Hv; [done|].
  cbn [fold_left assigned]. apply IH; [by rewrite length_assign|].
  rewrite (fetch_assign L u1 f1 v1 u f i sh w) by done. by destruct (_ && _).
Qed.

Lemma fetch_built L l u f i sh w :
  layout_ok L = true -> field_at L u f = Some (i, sh, w) ->
  fetch L u f (build L l) = assigned u f l 0 mod 2 ^ w.
Proof.
  intros Hok Hat. apply (fetch_build_gen _ _ _ i sh); [done|apply length_replicate|done|].
  by rewrite fetch_zeroed.
Qed.

(** A packet built by assigning fields reads back, field by field, as the
    last value assigned to the field truncated to its width, and as zero where
    nothing was assigned; assignments to other fields do not disturb it, and
    every word is a 32-bit word. *)
Theorem fetch_build L l u f i sh w :
  layout_ok L = true -> field_at L u f = Some (i, sh, w) ->
  fetch L u f (build L l) = assigned u f l 0 mod 2 ^ w /\
  length (build L l) = length L /\ Forall is_word (build L l).
Proof.
  intros Hok Hat. split_and!; [by apply (fetch_built _ _ _ _ i sh)|apply length_build|by apply build_words].
Qed.

(** The structures are as large as the [static_assert]s say and fill their
    words. *)
Lemma layouts_ok : forall L n, (L, n) ∈ all_layouts -> layout_ok L = true /\ length L = n.
Proof.
  assert (forallb (fun Ln => layout_ok (fst Ln) && (length (fst Ln) =? snd Ln)%nat) all_layouts
    = true) as H by (by vm_compute).
  intros L n Hin. rewrite forallb_forall in H. specialize (H (L, n)). cbn [fst snd] in H.
  apply list_elem_of_In in Hin. specialize (H Hin). apply andb_true_iff in H as [-> H%Nat.eqb_eq].
  done.
Qed.

Lemma place_in_fields u f fs i sh sh' w :
  field_in f sh fs = Some (sh', w) -> is_reserved f = false ->
  (u, f, i, sh', w) ∈ places_in i sh u fs.
Proof.
  revert sh. induction fs as [|[g x] fs IH]; intros sh; [done|]. cbn [field_in places_in].
  destruct (String.eqb_spec g f) as [->|Hne]; intros E Hr.
  - injection E as <- <-. rewrite Hr. left.
  - apply elem_of_app. right. by apply IH.
Qed.

Lemma place_in_layout L u f i j sh w :
  field_at L u f = Some (i, sh, w) -> is_reserved f = false ->
  (u, f, j + Z.of_nat i, sh, w) ∈ places j L.
Proof.
  revert i j. induction L as [|[v fs] L IH]; intros i j; [done|]. cbn [field_at places].
  destruct (String.eqb_spec v u) as [->|Hne].
  - destruct (field_in f 0 fs) as [[s1 w1]|] eqn:E; [|done]. intros [= <- <- <-] Hr.
    apply elem_of_app. left. rewrite Z.add_0_r. by apply place_in_fields.
  - destruct (field_at L u f) as [[[k s1] w1]|] eqn:E; [|done]. intros [= <- <- <-] Hr.
    apply elem_of_app. right. replace (j + Z.of_nat (S k)) with (j + 1 + Z.of_nat k) by lia.
    by apply IH.
Qed.

Lemma put_in_zero sh w v : 0 <= sh -> 0 <= w -> put_bits sh w v 0 = Z.shiftl (Z.land v (Z.ones w)) sh.
Proof. intros Hs Hw. unfold put_bits. by rewrite Z.ldiff_0_l. Qed.

Lemma build_one_word L u f v i sh w :
  layout_ok L = true -> field_at L u f = Some (i, sh, w) ->
  nth i (build L [(u, f, v)]) 0 = Z.shiftl (Z.land v (Z.ones w)) sh.
Proof.
  intros Hok Hat. pose proof (field_at_bounds _ _ _ _ _ _ Hok Hat) as Hb.
  cbn [build fold_left]. unfold assign. rewrite Hat.
  rewrite nth_alter_same by (unfold zeroed; rewrite length_replicate; lia).
  assert (nth i (zeroed L) 0 = 0) as ->.
  { unfold zeroed. clear. revert i. induction (length L); intros [|i]; simpl; auto. }
  apply put_in_zero; lia.
Qed.

(** The OSS7 packet structures have the layout of the field macros they
    are derived from (all but the write packet's): the macro of every field
    computes exactly the word that assigning some field of the structure
    writes, and every field that is not reserved has a macro. *)
Theorem mi4_structs_match_macros L ms :
  (L, ms) ∈ mi4_packets ->
  (forall m name i mask shift, m ∈ ms -> m = (name, i, mask, shift) ->
     exists u f w, is_reserved f = false /\ field_at L u f = Some (Z.to_nat i, shift, w) /\
       forall v, nth (Z.to_nat i) (build L [(u, f, v)]) 0 = macro_value m v) /\
  (forall u f i sh w, field_at L u f = Some (i, sh, w) -> is_reserved f = false ->
     exists name, (name, Z.of_nat i, Z.ones w, sh) ∈ ms).
Proof.
  assert (forallb (fun Lm => layout_ok (fst Lm) && agrees (fst Lm) (snd Lm)) mi4_packets = true)
    as Hall by (by vm_compute).
  intros Hin%list_elem_of_In. rewrite forallb_forall in Hall. specialize (Hall _ Hin).
  cbn [fst snd] in Hall. apply andb_true_iff in Hall as [Hok Hag].
  apply andb_true_iff in Hag as [Hfwd Hback]. rewrite forallb_forall in Hfwd, Hback. split.
  - intros m name i mask shift Hm%list_elem_of_In ->. specialize (Hfwd _ Hm).
    apply existsb_exists in Hfwd as ([[[[u f] i'] sh] w] & Hp & [Hs Hf]%andb_true_iff).
    cbn [same_place place_found] in Hs, Hf. apply andb_true_iff in Hf as [Hr Hf].
    apply bool_decide_eq_true in Hf. bool_to_prop.
    subst. exists u, f, w. split_and!; [done|done|].
    intros v. cbn [macro_value]. by apply build_one_word.
  - intros u f i sh w Hat Hr. pose proof (place_in_layout _ _ _ _ 0 _ _ Hat Hr) as Hp.
    apply list_elem_of_In in Hp. specialize (Hback _ Hp).
    apply existsb_exists in Hback as ([[[name i'] mask] shift] & Hm & Hs).
    cbn [same_place] in Hs. bool_to_prop. subst. exists name. by apply list_elem_of_In.
Qed.

Lemma mi4_structs_match_macros_witness :
  exists u f w,
    field_at SDMA_PKT_COPY_LINEAR_WAIT_SIGNAL_MI4 u f = Some (8%nat, 0, w) /\
    forall v, nth 8 (build SDMA_PKT_COPY_LINEAR_WAIT_SIGNAL_MI4 [(u, f, v)]) 0
      = Z.shiftl (Z.land v 1073741823) 0.
Proof.
  destruct (mi4_structs_match_macros SDMA_PKT_COPY_LINEAR_WAIT_SIGNAL_MI4
    SDMA_PKT_COPY_LINEAR_WAIT_SIGNAL_MI4_macros) as [H _].
  { apply list_elem_of_In. right. left. reflexivity. }
  destruct (H ("COPY_COUNT_copy_count"%string, 8, 1073741823, 0) "COPY_COUNT_copy_count"%string
    8 1073741823 0) as (u & f & w & _ & Hat & Hv); [|reflexivity|exists u, f, w; exact (conj Hat Hv)].
  apply list_elem_of_In. unfold SDMA_PKT_COPY_LINEAR_WAIT_SIGNAL_MI4_macros. cbn [In].
  repeat (first [left; reflexivity | right]).
Defined.

(** The write packet is the exception: the macro of its data puts them into
    the word of the count, the structure into the next one. *)
Lemma write_linear_data_misplaced :
  agrees SDMA_PKT_WRITE_LINEAR_MI4 SDMA_PKT_WRITE_LINEAR_MI4_macros = false /\
  field_at SDMA_PKT_WRITE_LINEAR_MI4 "DATA0_UNION" "data0" = Some (4%nat, 0, 32) /\
  ("DW_3_data"%string, 3, 4294967295, 0) ∈ SDMA_PKT_WRITE_LINEAR_MI4_macros.
Proof.
  split_and!; [by vm_compute|by vm_compute|]. apply list_elem_of_In.
  unfold SDMA_PKT_WRITE_LINEAR_MI4_macros. cbn [In]. repeat (first [left; reflexivity | right]).
Qed.

Lemma fetch_build_witness :
  fetch SDMA_PKT_FENCE "DATA_UNION" "data"
    (build SDMA_PKT_FENCE [("HEADER_UNION"%string, "op"%string, 5); ("DATA_UNION"%string, "data"%string, 4294967297)])
  = 1.
Proof.
  destruct (fetch_build SDMA_PKT_FENCE
    [("HEADER_UNION"%string, "op"%string, 5); ("DATA_UNION"%string, "data"%string, 4294967297)]
    "DATA_UNION" "data" 3 0 32 eq_refl eq_refl) as [H _]. exact H.
Defined.
