(* ===== verification/SdmaMacros.v ===== *)
(** * The field macros of the OSS7 packets

    [src/src/endpoints/sdma-ep/sdma-packet.h]: the opcodes, and for every
    packet the macros that place a value in a field, as rows of name, word,
    mask and shift like those of [SdmaLayout].  A packet is put together by
    combining the macros of a word with [|]; the theorems say which fields
    can be read back from it, whatever the values are, and which cannot
    because the header gives two of them the same bits. *)

From S2P Require Import Prelude SdmaLayout.

#[local] Open Scope string_scope.
#[local] Open Scope Z_scope.

(** ** Opcodes *)

(** Those of [sdma-packet.h], by name. *)
Definition packet_h_ops : list (string * Z) :=
  [ ("SDMA_OP_NOP", 0); ("SDMA_OP_COPY", 1); ("SDMA_OP_WRITE", 2); ("SDMA_OP_INDIRECT", 4);
  ("SDMA_OP_FENCE", 5); ("SDMA_OP_TRAP", 6); ("SDMA_OP_SEM", 7); ("SDMA_OP_POLL_REGMEM", 8);
  ("SDMA_OP_COND_EXE", 9); ("SDMA_OP_ATOMIC", 10); ("SDMA_OP_CONST_FILL", 11);
  ("SDMA_OP_PTEPDE", 12); ("SDMA_OP_TIMESTAMP", 13); ("SDMA_OP_SRBM_WRITE", 14);
  ("SDMA_OP_PRE_EXE", 15); ("SDMA_OP_GPUVM_INV", 16); ("SDMA_OP_GCR_REQ", 17) ].

Definition packet_h_subops : list (string * Z) :=
  [ ("SDMA_SUBOP_COPY_LINEAR_PHY_MI4", 8); ("SDMA_SUBOP_COPY_PAGE_TRANSFER_MI4", 12);
  ("SDMA_SUBOP_COPY_LINEAR_MULTICAST_MI4", 10); ("SDMA_SUBOP_COPY_LINEAR_WAIT_SIGNAL_MI4", 0);
  ("SDMA_SUBOP_COPY_MULTICAST_WAIT_SIGNAL_MI4", 10); ("SDMA_SUBOP_COPY_SWAP_WAIT_SIGNAL_MI4", 9);
  ("SDMA_SUBOP_WRITE_LINEAR_MI4", 0); ("SDMA_SUBOP_FENCE_MI4", 0);
  ("SDMA_SUBOP_FENCE_COND_INT_NAVI4", 1); ("SDMA_SUBOP_FENCE_COND_INT_MI4", 1);
  ("SDMA_SUBOP_FENCE_64B_MI4", 2); ("SDMA_SUBOP_POLL_MEM_64B_MI4", 5);
  ("SDMA_SUBOP_POLL_MEM_64B_MES_SYNC_NAVI4", 6); ("SDMA_SUBOP_EXCL_COND_EXEC", 1);
  ("SDMA_SUBOP_PTEPDE_GEN_MI4", 0); ("SDMA_SUBOP_PTEPDE_RMW_MI4", 2);
  ("SDMA_SUBOP_CONSTANT_FILL_MI4", 0); ("SDMA_SUBOP_CONSTANT_FILL_PAGE_MI4", 4) ].

(** And the constants of [sdma_opcodes.h]. *)
Definition opcodes_h : list (string * Z) :=
  [ ("SDMA_OP_NOP", 0); ("SDMA_OP_COPY", 1); ("SDMA_OP_WRITE", 2); ("SDMA_OP_FENCE", 5);
  ("SDMA_OP_TRAP", 6); ("SDMA_OP_POLL_REGMEM", 8); ("SDMA_OP_TIMESTAMP", 13);
  ("SDMA_OP_ATOMIC", 10); ("SDMA_OP_CONST_FILL", 11); ("SDMA_SUBOP_COPY_LINEAR", 0);
  ("SDMA_SUBOP_COPY_LINEAR_SUB_WINDOW", 36); ("SDMA_SUBOP_WRITE_LINEAR", 0);
  ("SDMA_SUBOP_TIMESTAMP_GLOBAL", 2); ("SDMA_ATOMIC_ADD32", 15); ("SDMA_ATOMIC_ADD64", 47);
  ("SDMA_SIGNAL_OP_ADD64_MI4", 111); ("SDMA_WAIT_FUNC_GEQ_MI4", 5);
  ("SDMA_SUBOP_COPY_LINEAR_PHY_MI4", 8); ("SDMA_SUBOP_COPY_PAGE_TRANSFER_MI4", 12);
  ("SDMA_SUBOP_COPY_LINEAR_MULTICAST_MI4", 10); ("SDMA_SUBOP_COPY_LINEAR_WAIT_SIGNAL_MI4", 0);
  ("SDMA_SUBOP_COPY_MULTICAST_WAIT_SIGNAL_MI4", 10); ("SDMA_SUBOP_COPY_SWAP_WAIT_SIGNAL_MI4", 9);
  ("SDMA_SUBOP_WRITE_LINEAR_MI4", 0); ("SDMA_SUBOP_FENCE_MI4", 0);
  ("SDMA_SUBOP_FENCE_COND_INT_MI4", 1); ("SDMA_SUBOP_FENCE_64B_MI4", 2);
  ("SDMA_SUBOP_POLL_MEM_64B_MI4", 5); ("SDMA_SUBOP_CONSTANT_FILL_MI4", 0);
  ("SDMA_SUBOP_CONSTANT_FILL_PAGE_MI4", 4) ].

(** ** The packets without a structure *)

Definition SDMA_PKT_COPY_PAGE_TRANSFER_MI4_first_macros : list field_macro :=
  [ ("HEADER_op_code", 0, 0xff, 0); ("HEADER_sub_op_code", 0, 0xff, 8);
  ("HEADER_p_mtype", 0, 0x3, 16); ("HEADER_tmz", 0, 0x1, 18); ("HEADER_l_scope", 0, 0x3, 19);
  ("HEADER_s_scope", 0, 0x3, 21); ("HEADER_page_size", 0, 0xf, 24);
  ("HEADER_p_scope", 0, 0x3, 29); ("HEADER_d", 0, 0x1, 31); ("DW_1_p_temporal_hint", 1, 0x7, 0);
  ("DW_1_p_sys", 1, 0x1, 4); ("DW_1_p_snp", 1, 0x1, 6); ("DW_1_l_temporal_hint", 1, 0x7, 8);
  ("DW_1_l_mtype", 1, 0x3, 11); ("DW_1_l_snp", 1, 0x1, 14); ("DW_1_s_temporal_hint", 1, 0x7, 16);
  ("DW_1_s_mtype", 1, 0x3, 19); ("DW_1_s_snp", 1, 0x1, 22);
  ("DW_1_sysmem_addr_array_num", 1, 0xff, 24)].

Definition SDMA_PKT_COPY_PAGE_TRANSFER_MI4_last_macros : list field_macro :=
  [ ("DW_2_data_format", 2, 0x3f, 0); ("DW_2_num_type", 2, 0x7, 9); ("DW_2_rd_cm", 2, 0x3, 16);
  ("DW_2_wr_cm", 2, 0x3, 18); ("DW_2_max_com", 2, 0x3, 24); ("DW_2_max_ucom", 2, 0x1, 26);
  ("DW_2_dcc", 2, 0x1, 31); ("PTE_MASK_LO_pte_mask_lo", 3, 0xffffffff, 0);
  ("PTE_MASK_HI_pte_mask_hi", 4, 0xffffffff, 0); ("PTE_ADDR_LO_pte_addr_lo", 5, 0xffffffff, 0);
  ("PTE_ADDR_HI_pte_addr_hi", 6, 0xffffffff, 0);
  ("LOCALMEM_ADDR_LO_localmem_addr_lo", 7, 0xffffffff, 0);
  ("LOCALMEM_ADDR_HI_localmem_addr_hi", 8, 0xffffffff, 0);
  ("SYSMEM_ADDR_0_LO_sysmem_addr_0_lo", 9, 0xffffffff, 0);
  ("SYSMEM_ADDR_0_HI_sysmem_addr_0_hi", 10, 0xffffffff, 0);
  ("DW_11_sysmem_addr_1_lo", 11, 0xffffffff, 0);
  ("SYSMEM_ADDR_1_HI_sysmem_addr_1_hi", 12, 0xffffffff, 0);
  ("DW_11_sysmem_addr_n", 11, 0xffffffffffffffff, 0)].

Definition SDMA_PKT_COPY_PAGE_TRANSFER_MI4_macros : list field_macro :=
  SDMA_PKT_COPY_PAGE_TRANSFER_MI4_first_macros ++ SDMA_PKT_COPY_PAGE_TRANSFER_MI4_last_macros.

Definition SDMA_PKT_COPY_LINEAR_MULTICAST_MI4_macros : list field_macro :=
  [ ("HEADER_op", 0, 0xff, 0); ("HEADER_subop", 0, 0xff, 8); ("HEADER_tmz", 0, 0x1, 18);
  ("HEADER_npd", 0, 0x1, 28); ("COUNT_count", 1, 0x3fffffff, 0);
  ("DW_2_num_of_destination", 2, 0x3ff, 0); ("DW_2_dst_scope", 2, 0x3, 18);
  ("DW_2_dst_temporal_hint", 2, 0x7, 20); ("DW_2_src_scope", 2, 0x3, 26);
  ("DW_2_src_temporal_hint", 2, 0x7, 28); ("SRC_ADDR_31_0_src_addr_31_0", 3, 0xffffffff, 0);
  ("SRC_ADDR_63_32_src_addr_63_32", 4, 0xffffffff, 0);
  ("DST_ADDR_31_0_dst_addr_31_0", 5, 0xffffffff, 0);
  ("DST_ADDR_63_32_dst_addr_63_32", 6, 0xffffffff, 0)].

Definition SDMA_PKT_COPY_MULTICAST_WAIT_SIGNAL_MI4_first_macros : list field_macro :=
  [ ("HEADER_op", 0, 0xff, 0); ("HEADER_subop", 0, 0xff, 8); ("HEADER_tmz", 0, 0x1, 18);
  ("HEADER_npd", 0, 0x1, 28); ("HEADER_wait", 0, 0x1, 30); ("HEADER_signal", 0, 0x1, 31);
  ("DW_1_wait_function", 1, 0x7, 0); ("DW_1_wait_scope", 1, 0x3, 18);
  ("DW_1_wait_temporal_hint", 1, 0x7, 20); ("WAIT_ADDR_31_3_wait_addr_31_3", 2, 0x1fffffff, 3);
  ("WAIT_ADDR_63_32_wait_addr_63_32", 3, 0xffffffff, 0);
  ("WAIT_REFERENCE_31_0_wait_reference_31_0", 4, 0xffffffff, 0);
  ("WAIT_REFERENCE_63_32_wait_reference_63_32", 5, 0xffffffff, 0);
  ("WAIT_MASK_31_0_wait_mask_31_0", 6, 0xffffffff, 0);
  ("WAIT_MASK_63_32_wait_mask_63_32", 7, 0xffffffff, 0); ("COUNT_count", 8, 0x3fffffff, 0)].

Definition SDMA_PKT_COPY_MULTICAST_WAIT_SIGNAL_MI4_last_macros : list field_macro :=
  [ ("DW_9_num_of_destination", 9, 0x3ff, 0); ("DW_9_dst_scope", 9, 0x3, 18);
  ("DW_9_dst_temporal_hint", 9, 0x7, 20); ("DW_9_src_scope", 9, 0x3, 26);
  ("DW_9_src_temporal_hint", 9, 0x7, 28); ("SRC_ADDR_31_0_src_addr_31_0", 10, 0xffffffff, 0);
  ("SRC_ADDR_63_32_src_addr_63_32", 11, 0xffffffff, 0);
  ("DST_ADDR_31_0_dst_addr_31_0", 12, 0xffffffff, 0);
  ("DST_ADDR_63_32_dst_addr_63_32", 13, 0xffffffff, 0); ("DW_14_signal_operation", 14, 0x7f, 0);
  ("DW_14_signal_scope", 14, 0x3, 18); ("DW_14_signal_temporal_hint", 14, 0x7, 20);
  ("SIGNAL_ADDR_31_3_signal_addr_31_3", 15, 0x1fffffff, 3);
  ("SIGNAL_ADDR_63_32_signal_addr_63_32", 16, 0xffffffff, 0);
  ("SIGNAL_DATA_31_0_signal_data_31_0", 17, 0xffffffff, 0);
  ("SIGNAL_DATA_63_32_signal_data_63_32", 18, 0xffffffff, 0)].

Definition SDMA_PKT_COPY_MULTICAST_WAIT_SIGNAL_MI4_macros : list field_macro :=
  SDMA_PKT_COPY_MULTICAST_WAIT_SIGNAL_MI4_first_macros ++ SDMA_PKT_COPY_MULTICAST_WAIT_SIGNAL_MI4_last_macros.

Definition SDMA_PKT_COPY_SWAP_WAIT_SIGNAL_MI4_first_macros : list field_macro :=
  [ ("HEADER_op", 0, 0xff, 0); ("HEADER_subop", 0, 0xff, 8); ("HEADER_tmz", 0, 0x1, 18);
  ("HEADER_wait", 0, 0x1, 30); ("HEADER_signal", 0, 0x1, 31); ("DW_1_wait_function", 1, 0x7, 0);
  ("DW_1_wait_scope", 1, 0x3, 18); ("DW_1_wait_temporal_hint", 1, 0x7, 20);
  ("WAIT_ADDR_31_3_wait_addr_31_3", 2, 0x1fffffff, 3);
  ("WAIT_ADDR_63_32_wait_addr_63_32", 3, 0xffffffff, 0);
  ("WAIT_REFERENCE_31_0_wait_reference_31_0", 4, 0xffffffff, 0);
  ("WAIT_REFERENCE_63_32_wait_reference_63_32", 5, 0xffffffff, 0);
  ("WAIT_MASK_31_0_wait_mask_31_0", 6, 0xffffffff, 0);
  ("WAIT_MASK_63_32_wait_mask_63_32", 7, 0xffffffff, 0); ("COUNT_count", 8, 0x3fffffff, 0)].

Definition SDMA_PKT_COPY_SWAP_WAIT_SIGNAL_MI4_last_macros : list field_macro :=
  [ ("DW_9_scope_b", 9, 0x3, 18); ("DW_9_temporal_hint_b", 9, 0x7, 20);
  ("DW_9_scope_a", 9, 0x3, 26); ("DW_9_temporal_hint_a", 9, 0x7, 28);
  ("ADDR_A_31_0_addr_a_31_0", 10, 0xffffffff, 0);
  ("ADDR_A_63_32_addr_a_63_32", 11, 0xffffffff, 0);
  ("ADDR_B_31_0_addr_b_31_0", 12, 0xffffffff, 0);
  ("ADDR_B_63_32_addr_b_63_32", 13, 0xffffffff, 0); ("DW_14_signal_operation", 14, 0x7f, 0);
  ("DW_14_signal_scope", 14, 0x3, 18); ("DW_14_signal_temporal_hint", 14, 0x7, 20);
  ("SIGNAL_ADDR_31_3_signal_addr_31_3", 15, 0x1fffffff, 3);
  ("SIGNAL_ADDR_63_32_signal_addr_63_32", 16, 0xffffffff, 0);
  ("SIGNAL_DATA_31_0_signal_data_31_0", 17, 0xffffffff, 0);
  ("SIGNAL_DATA_63_32_signal_data_63_32", 18, 0xffffffff, 0)].

Definition SDMA_PKT_COPY_SWAP_WAIT_SIGNAL_MI4_macros : list field_macro :=
  SDMA_PKT_COPY_SWAP_WAIT_SIGNAL_MI4_first_macros ++ SDMA_PKT_COPY_SWAP_WAIT_SIGNAL_MI4_last_macros.

Definition SDMA_PKT_FENCE_COND_INT_NAVI4_macros : list field_macro :=
  [ ("HEADER_op_code", 0, 0xff, 0); ("HEADER_sub_op_code", 0, 0xff, 8);
  ("HEADER_snp", 0, 0x1, 22); ("HEADER_gpa", 0, 0x1, 23); ("HEADER_cache_policy", 0, 0x7, 26);
  ("HEADER_qw", 0, 0x1, 31); ("FENCE_ADDR_LO_fence_addr_lo", 1, 0xffffffff, 0);
  ("FENCE_ADDR_HI_fence_addr_hi", 2, 0xffffffff, 0); ("DATA_LO_data_lo", 3, 0xffffffff, 0);
  ("DATA_HI_data_hi", 4, 0xffffffff, 0);
  ("FENCE_REF_ADDR_LO_fence_ref_addr_lo", 5, 0xffffffff, 0);
  ("FENCE_REF_ADDR_HI_fence_ref_addr_hi", 6, 0xffffffff, 0);
  ("INTERRUPT_CONTEXT_interrupt_context", 7, 0xffffffff, 0);
  ("FENCE_HANDLE_fence_handle", 8, 0xffffffff, 0)].

Definition SDMA_PKT_FENCE_COND_INT_MI4_macros : list field_macro :=
  [ ("HEADER_op_code", 0, 0xff, 0); ("HEADER_sub_op_code", 0, 0xff, 8);
  ("HEADER_mtype", 0, 0x3, 16); ("HEADER_snp", 0, 0x1, 22); ("HEADER_gpa", 0, 0x1, 23);
  ("HEADER_scope", 0, 0x3, 24); ("HEADER_temporal_hint", 0, 0x7, 26); ("HEADER_qw", 0, 0x1, 31);
  ("FENCE_ADDR_LO_fence_addr_lo", 1, 0xffffffff, 0);
  ("FENCE_ADDR_HI_fence_addr_hi", 2, 0xffffffff, 0); ("DATA_LO_data_lo", 3, 0xffffffff, 0);
  ("DATA_HI_data_hi", 4, 0xffffffff, 0);
  ("FENCE_REF_ADDR_LO_fence_ref_addr_lo", 5, 0xffffffff, 0);
  ("FENCE_REF_ADDR_HI_fence_ref_addr_hi", 6, 0xffffffff, 0);
  ("INTERRUPT_CONTEXT_interrupt_context", 7, 0xffffffff, 0);
  ("FENCE_ID_fence_id", 8, 0xffffffff, 0)].

Definition SDMA_PKT_POLL_MEM_64B_MES_SYNC_NAVI4_macros : list field_macro :=
  [ ("HEADER_op_code", 0, 0xff, 0); ("HEADER_sub_op_code", 0, 0xff, 8);
  ("HEADER_sys", 0, 0x1, 20); ("HEADER_snp", 0, 0x1, 22); ("HEADER_gpa", 0, 0x1, 23);
  ("HEADER_cache_policy", 0, 0x7, 24); ("HEADER_func", 0, 0x7, 28);
  ("ADDR_31_3_addr_31_3", 1, 0x3fffffff, 2); ("ADDR_63_32_addr_63_32", 2, 0xffffffff, 0);
  ("REFERENCE_31_0_reference_31_0", 3, 0xffffffff, 0);
  ("REFERENCE_63_32_reference_63_32", 4, 0xffffffff, 0);
  ("MASK_31_0_mask_31_0", 5, 0xffffffff, 0); ("MASK_63_32_mask_63_32", 6, 0xffffffff, 0);
  ("RETRY_COUNT_retry_count", 7, 0xff, 16); ("FENCE_HANDLE_fence_handle", 8, 0xffffffff, 0)].

Definition SDMA_PKT_EXCL_COND_EXEC_macros : list field_macro :=
  [ ("HEADER_op_code", 0, 0xff, 0); ("HEADER_sub_op_code", 0, 0xff, 8); ("HEADER_p", 0, 0x1, 30);
  ("HEADER_o", 0, 0x1, 31); ("MUTEX_ADDR_LO_mutex_addr_lo", 1, 0xffffffff, 0);
  ("MUTEX_ADDR_HI_mutex_addr_hi", 2, 0xffffffff, 0); ("ADDR_LO_addr_lo", 3, 0xffffffff, 0);
  ("ADDR_HI_addr_hi", 4, 0xffffffff, 0); ("REF_LO_ref_lo", 5, 0xffffffff, 0);
  ("REF_HI_ref_hi", 6, 0xffffffff, 0); ("EXEC_COUNT_exec_count", 7, 0x3fff, 0)].

Definition SDMA_PKT_PTEPDE_GEN_MI4_macros : list field_macro :=
  [ ("HEADER_op_code", 0, 0xff, 0); ("HEADER_sub_op_code", 0, 0xff, 8);
  ("HEADER_mtype", 0, 0x3, 16); ("HEADER_sys", 0, 0x1, 20); ("HEADER_snp", 0, 0x1, 22);
  ("HEADER_gpa", 0, 0x1, 23); ("HEADER_scope", 0, 0x3, 24); ("HEADER_temporal_hint", 0, 0x7, 26);
  ("ADDR_LO_addr_lo", 1, 0xffffffff, 0); ("ADDR_HI_addr_hi", 2, 0xffffffff, 0);
  ("MASK_LO_mask_lo", 3, 0xffffffff, 0); ("MASK_HI_mask_hi", 4, 0xffffffff, 0);
  ("INIT_VALUE_LO_init_value_lo", 5, 0xffffffff, 0);
  ("INIT_VALUE_HI_init_value_hi", 6, 0xffffffff, 0);
  ("INCREMENT_LO_increment_lo", 7, 0xffffffff, 0);
  ("INCREMENT_HI_increment_hi", 8, 0xffffffff, 0); ("NUMPTE_numpte", 9, 0x7ffff, 0)].

Definition SDMA_PKT_PTEPDE_RMW_MI4_macros : list field_macro :=
  [ ("HEADER_op_code", 0, 0xff, 0); ("HEADER_sub_op_code", 0, 0xff, 8);
  ("HEADER_mtype", 0, 0x3, 16); ("HEADER_sys", 0, 0x1, 20); ("HEADER_snp", 0, 0x1, 22);
  ("HEADER_gpa", 0, 0x1, 23); ("HEADER_scope", 0, 0x3, 24); ("HEADER_temporal_hint", 0, 0x3, 26);
  ("ADDR_LO_addr_lo", 1, 0xffffffff, 0); ("ADDR_HI_addr_hi", 2, 0xffffffff, 0);
  ("MASK_LO_mask_lo", 3, 0xffffffff, 0); ("MASK_HI_mask_hi", 4, 0xffffffff, 0);
  ("VALUE_LO_value_lo", 5, 0xffffffff, 0); ("VALUE_HI_value_hi", 6, 0xffffffff, 0);
  ("NUMPTE_numpte", 7, 0x7ffff, 0)].

Definition SDMA_PKT_CONSTANT_FILL_PAGE_MI4_macros : list field_macro :=
  [ ("HEADER_op_code", 0, 0xff, 0); ("HEADER_sub_op_code", 0, 0xff, 8);
  ("HEADER_mtype", 0, 0x3, 16); ("HEADER_sys", 0, 0x1, 20); ("HEADER_snp", 0, 0x1, 22);
  ("HEADER_gpa", 0, 0x1, 23); ("HEADER_scope", 0, 0x3, 24); ("HEADER_temporal_hint", 0, 0x7, 26);
  ("HEADER_size", 0, 0x3, 30); ("SOURCE_DATA_source_data", 1, 0x3, 30);
  ("DW_2_page_unit", 2, 0xf, 0); ("DW_2_page_number", 2, 0xffff, 16);
  ("DW_2_addr_i", 2, 0xffffffff, 0)].

Definition SDMA_PKT_AQL_macros : list field_macro :=
  [ ("HEADER_format", 0, 0xff, 0); ("HEADER_acquire_fence_scope", 0, 0x3, 9);
  ("HEADER_release_fence_scope", 0, 0x3, 11); ("HEADER_reserved", 0, 0x7, 13)].

(** ** Packets *)

Definition oss7_packets : list (string * list field_macro) :=
  [ ("SDMA_PKT_COPY_LINEAR_PHY_MI4", SDMA_PKT_COPY_LINEAR_PHY_MI4_macros);
    ("SDMA_PKT_COPY_PAGE_TRANSFER_MI4", SDMA_PKT_COPY_PAGE_TRANSFER_MI4_macros);
    ("SDMA_PKT_COPY_LINEAR_MULTICAST_MI4", SDMA_PKT_COPY_LINEAR_MULTICAST_MI4_macros);
    ("SDMA_PKT_COPY_LINEAR_WAIT_SIGNAL_MI4", SDMA_PKT_COPY_LINEAR_WAIT_SIGNAL_MI4_macros);
    ("SDMA_PKT_COPY_MULTICAST_WAIT_SIGNAL_MI4", SDMA_PKT_COPY_MULTICAST_WAIT_SIGNAL_MI4_macros);
    ("SDMA_PKT_COPY_SWAP_WAIT_SIGNAL_MI4", SDMA_PKT_COPY_SWAP_WAIT_SIGNAL_MI4_macros);
    ("SDMA_PKT_WRITE_LINEAR_MI4", SDMA_PKT_WRITE_LINEAR_MI4_macros);
    ("SDMA_PKT_FENCE_MI4", SDMA_PKT_FENCE_MI4_macros);
    ("SDMA_PKT_FENCE_COND_INT_NAVI4", SDMA_PKT_FENCE_COND_INT_NAVI4_macros);
    ("SDMA_PKT_FENCE_COND_INT_MI4", SDMA_PKT_FENCE_COND_INT_MI4_macros);
    ("SDMA_PKT_FENCE_64B_MI4", SDMA_PKT_FENCE_64B_MI4_macros);
    ("SDMA_PKT_POLL_MEM_64B_MI4", SDMA_PKT_POLL_MEM_64B_MI4_macros);
    ("SDMA_PKT_POLL_MEM_64B_MES_SYNC_NAVI4", SDMA_PKT_POLL_MEM_64B_MES_SYNC_NAVI4_macros);
    ("SDMA_PKT_EXCL_COND_EXEC", SDMA_PKT_EXCL_COND_EXEC_macros);
    ("SDMA_PKT_PTEPDE_GEN_MI4", SDMA_PKT_PTEPDE_GEN_MI4_macros);
    ("SDMA_PKT_PTEPDE_RMW_MI4", SDMA_PKT_PTEPDE_RMW_MI4_macros);
    ("SDMA_PKT_CONSTANT_FILL_MI4", SDMA_PKT_CONSTANT_FILL_MI4_macros);
    ("SDMA_PKT_CONSTANT_FILL_PAGE_MI4", SDMA_PKT_CONSTANT_FILL_PAGE_MI4_macros);
    ("SDMA_PKT_AQL", SDMA_PKT_AQL_macros) ].

(** What a user of the header makes of the macros: a word of a packet is those
    of its fields, combined with [|].  (The repository has no such user; this
    is part of the statements, not of the model.) *)
Definition pack_word (ms : list field_macro) (v : string -> Z) (i : Z) : Z :=
  fold_right (fun m x =>
    match m with (name, j, _, _) => if j =? i then Z.lor (macro_value m (v name)) x else x end) 0 ms.

(** Reading a field back. *)
Definition unpack (m : field_macro) (x : Z) : Z :=
  match m with (_, _, mask, shift) => Z.land (Z.shiftr x shift) mask end.

(** ** Fields that do not meet *)

Definition word_of (m : field_macro) : Z := match m with (_, i, _, _) => i end.
Definition bits_of (m : field_macro) : Z := match m with (_, _, mask, shift) => Z.shiftl mask shift end.
Definition name_of (m : field_macro) : string := match m with (name, _, _, _) => name end.

Definition apart (m m' : field_macro) : bool :=
  negb (word_of m =? word_of m') || (Z.land (bits_of m) (bits_of m') =? 0).
Definition fits_word (m : field_macro) : bool :=
  match m with (_, _, mask, shift) => (0 <=? mask) && (0 <=? shift) && (Z.shiftl mask shift <? 4294967296) end.
(** The field is alone on its bits, in a word whose fields are 32 bits. *)
Definition alone (ms : list field_macro) (m : field_macro) : bool :=
  forallb (fun m' => (bool_decide (m' = m) || apart m m') && (negb (word_of m =? word_of m') || fits_word m')) ms.

(** The fields that share bits with another. *)
Definition clashing : list (string * string) :=
  [ ("SDMA_PKT_COPY_LINEAR_PHY_MI4", "DW_2_dst_gcc"); ("SDMA_PKT_COPY_LINEAR_PHY_MI4", "DW_2_src_gcc");
    ("SDMA_PKT_COPY_PAGE_TRANSFER_MI4", "DW_11_sysmem_addr_1_lo");
    ("SDMA_PKT_COPY_PAGE_TRANSFER_MI4", "DW_11_sysmem_addr_n");
    ("SDMA_PKT_WRITE_LINEAR_MI4", "DW_3_count"); ("SDMA_PKT_WRITE_LINEAR_MI4", "DW_3_dst_sys");
    ("SDMA_PKT_WRITE_LINEAR_MI4", "DW_3_dst_snp"); ("SDMA_PKT_WRITE_LINEAR_MI4", "DW_3_dst_gpa");
    ("SDMA_PKT_WRITE_LINEAR_MI4", "DW_3_dst_mtype"); ("SDMA_PKT_WRITE_LINEAR_MI4", "DW_3_dst_scope");
    ("SDMA_PKT_WRITE_LINEAR_MI4", "DW_3_dst_temporal_hint"); ("SDMA_PKT_WRITE_LINEAR_MI4", "DW_3_data");
    ("SDMA_PKT_CONSTANT_FILL_PAGE_MI4", "DW_2_page_unit"); ("SDMA_PKT_CONSTANT_FILL_PAGE_MI4", "DW_2_page_number");
    ("SDMA_PKT_CONSTANT_FILL_PAGE_MI4", "DW_2_addr_i") ].

(** ** Laws *)

Lemma macro_own m x : Z.land (macro_value m x) (bits_of m) = macro_value m x.
Proof.
  destruct m as [[[n i] mask] sh]. cbn [macro_value bits_of]. rewrite <- Z.shiftl_land.
  by rewrite <- Z.land_assoc, Z.land_diag.
Qed.

Lemma macro_apart m m' x :
  word_of m' = word_of m -> apart m m' = true -> Z.land (macro_value m' x) (bits_of m) = 0.
Proof.
  intros Hw Ha. unfold apart in Ha. rewrite Hw, Z.eqb_refl in Ha. cbn [negb orb] in Ha. apply Z.eqb_eq in Ha.
  rewrite <- macro_own, <- Z.land_assoc, (Z.land_comm (bits_of m')), Ha. apply Z.land_0_r.
Qed.

Lemma pack_cons m ms v i :
  pack_word (m :: ms) v i =
  if word_of m =? i then Z.lor (macro_value m (v (name_of m))) (pack_word ms v i) else pack_word ms v i.
Proof. by destruct m as [[[n j] mask] sh]. Qed.

(** What a word holds on the bits of a field that is alone. *)
Lemma pack_land ms m v :
  (forall m', m' ∈ ms -> m' = m \/ apart m m' = true) ->
  Z.land (pack_word ms v (word_of m)) (bits_of m) = if bool_decide (m ∈ ms) then macro_value m (v (name_of m)) else 0.
Proof.
  induction ms as [|a ms IH]; intros Ha; [done|].
  assert (forall m', m' ∈ ms -> m' = m \/ apart m m' = true) as Ha' by (intros; apply Ha; by right).
  specialize (IH Ha'). rewrite pack_cons. destruct (Z.eqb_spec (word_of a) (word_of m)) as [Hw|Hw].
  - rewrite Z.land_lor_distr_l, IH. destruct (Ha a ltac:(left)) as [->|Hap].
    + rewrite macro_own, (bool_decide_eq_true_2 (m ∈ m :: ms)) by left.
      destruct (bool_decide (m ∈ ms)); [apply Z.lor_diag|apply Z.lor_0_r].
    + rewrite (macro_apart m a) by done. rewrite Z.lor_0_l.
      destruct (decide (a = m)) as [->|Hne].
      * rewrite (bool_decide_eq_true_2 (m ∈ m :: ms)) by left. case_bool_decide; [done|].
        rewrite <- (macro_own m (v (name_of m))). symmetry. by apply macro_apart.
      * rewrite (bool_decide_ext (m ∈ a :: ms) (m ∈ ms)); [done|]. rewrite elem_of_cons. naive_solver.
  - rewrite IH. rewrite (bool_decide_ext (m ∈ a :: ms) (m ∈ ms)); [done|]. rewrite elem_of_cons. naive_solver.
Qed.

Lemma land_mask x mask : 0 <= mask -> Z.land x mask <= mask.
Proof.
  intros Hm. assert (Z.ldiff (Z.land x mask) mask = 0) as Hd.
  { apply Z.bits_inj'. intros k Hk. rewrite Z.ldiff_spec, Z.land_spec, Z.bits_0.
    by destruct (Z.testbit x k), (Z.testbit mask k). }
  pose proof (Z.sub_nocarry_ldiff _ _ Hd). assert (0 <= Z.ldiff mask (Z.land x mask)) by (apply Z.ldiff_nonneg; by left).
  lia.
Qed.

Lemma pack_range ms v i :
  (forall m, m ∈ ms -> word_of m = i -> fits_word m = true) -> 0 <= pack_word ms v i < 4294967296.
Proof.
  induction ms as [|a ms IH]; intros Hf; [done|].
  assert (0 <= pack_word ms v i < 4294967296) as Hr by (apply IH; intros; apply Hf; [by right|done]).
  rewrite pack_cons. destruct (Z.eqb_spec (word_of a) i) as [Hw|]; [|done].
  specialize (Hf a ltac:(left) Hw). destruct a as [[[n j] mask] sh]. cbn [fits_word macro_value name_of] in *.
  bool_to_prop. change 4294967296 with (2 ^ 32) in *.
  assert (0 <= Z.shiftl (Z.land (v n) mask) sh < 2 ^ 32) as Hm.
  { rewrite !Z.shiftl_mul_pow2 in * by done. assert (0 <= Z.land (v n) mask <= mask).
    { split; [apply Z.land_nonneg; by right|by apply land_mask]. }
    pose proof (Z.pow_nonneg 2 sh ltac:(done)). nia. }
  by apply lor_below.
Qed.

(** ** Theorems *)

(** C35: Fields are read back as they were written.  In every packet of the
    header, whatever values the macros of a word are combined from, the word
    has 32 bits and each field reads the low bits of its value, as many as its
    mask has; the fields this does not hold of are the listed ones. *)
Theorem macros_roundtrip p ms name i mask shift v :
  (p, ms) ∈ oss7_packets -> (name, i, mask, shift) ∈ ms -> (p, name) ∉ clashing ->
  0 <= pack_word ms v i < 4294967296 /\
  unpack (name, i, mask, shift) (pack_word ms v i) = Z.land (v name) mask.
Proof.
  assert (forallb (fun pm => forallb (fun m => bool_decide ((fst pm, name_of m) ∈ clashing) || alone (snd pm) m) (snd pm))
    oss7_packets = true) as Hall by (by vm_compute).
  intros Hp%list_elem_of_In Hm Hc. rewrite forallb_forall in Hall. specialize (Hall _ Hp). cbn [fst snd] in Hall.
  rewrite forallb_forall in Hall. pose proof Hm as Hm'. apply list_elem_of_In in Hm'. specialize (Hall _ Hm').
  rewrite bool_decide_eq_false_2 in Hall by done. cbn [orb] in Hall. unfold alone in Hall.
  rewrite forallb_forall in Hall.
  assert (forall m', m' ∈ ms -> (m' = (name, i, mask, shift) \/ apart (name, i, mask, shift) m' = true) /\
    (word_of m' = i -> fits_word m' = true)) as Hal.
  { intros m' Hin%list_elem_of_In. specialize (Hall _ Hin). apply andb_true_iff in Hall as [H1 H2]. split.
    - apply orb_true_iff in H1 as [H1|H1]; [left; by apply bool_decide_eq_true in H1|by right].
    - intros Hw. apply orb_true_iff in H2 as [H2|H2]; [|done]. cbn [word_of] in H2. rewrite Hw, Z.eqb_refl in H2. done. }
  split; [apply pack_range; intros m' Hin Hw; by apply (Hal m' Hin)|].
  pose proof (pack_land ms (name, i, mask, shift) v (fun m' Hin => proj1 (Hal m' Hin))) as Hl.
  rewrite bool_decide_eq_true_2 in Hl by done. cbn [word_of bits_of macro_value name_of] in Hl.
  assert (0 <= shift) as Hsh.
  { destruct (Hal _ Hm) as [_ Hf]. specialize (Hf eq_refl). cbn [fits_word] in Hf. bool_to_prop. done. }
  cbn [unpack]. apply (f_equal (fun x => Z.shiftr x shift)) in Hl. rewrite Z.shiftr_land in Hl.
  by rewrite !Z.shiftr_shiftl_l, Z.sub_diag, !Z.shiftl_0_r in Hl.
Qed.

(** Two macros for one bit: in the physical copy, asking for the
    destination's gcc asks for the source's as well. *)
Lemma gcc_fields_are_one x :
  macro_value ("DW_2_src_gcc", 2, 1, 19) x = macro_value ("DW_2_dst_gcc", 2, 1, 19) x /\
  ("DW_2_src_gcc", 2, 1, 19) ∈ SDMA_PKT_COPY_LINEAR_PHY_MI4_macros /\
  ("DW_2_dst_gcc", 2, 1, 19) ∈ SDMA_PKT_COPY_LINEAR_PHY_MI4_macros.
Proof. split; [done|]. split; apply list_elem_of_In; vm_compute; repeat (first [left; reflexivity | right]). Qed.

(** The two headers of opcodes agree wherever both name one. *)
Lemma opcodes_agree name a b :
  (name, a) ∈ (packet_h_ops ++ packet_h_subops)%list -> (name, b) ∈ opcodes_h -> a = b.
Proof.
  assert (forallb (fun x => forallb (fun y => negb (String.eqb (fst x) (fst y)) || (snd x =? snd y)) opcodes_h)
    (packet_h_ops ++ packet_h_subops)%list = true) as Hall by (by vm_compute).
  intros Ha%list_elem_of_In Hb%list_elem_of_In. rewrite forallb_forall in Hall. specialize (Hall _ Ha).
  rewrite forallb_forall in Hall. specialize (Hall _ Hb). cbn [fst snd] in Hall. rewrite String.eqb_refl in Hall.
  by apply Z.eqb_eq.
Qed.

(** A page transfer of 2^12 with everything else set to ones. *)
Lemma macros_roundtrip_witness :
  unpack ("HEADER_page_size", 0, 15, 24)
    (pack_word SDMA_PKT_COPY_PAGE_TRANSFER_MI4_macros (fun n => if String.eqb n "HEADER_page_size" then 12 else -1) 0) = 12.
Proof.
  apply (macros_roundtrip "SDMA_PKT_COPY_PAGE_TRANSFER_MI4").
  - apply list_elem_of_In. right. left. reflexivity.
  - apply list_elem_of_In. vm_compute. repeat (first [left; reflexivity | right]).
  - apply (bool_decide_unpack (~ _)). by vm_compute.
Defined.
