(* ===== verification/SdmaPacket.v ===== *)
(** * SDMA packets and what they ask of the engine

    The packet builders of [src/src/endpoints/sdma-ep/sdma_packets.hpp] and
    [sdma_device.hpp], the packets that a put, a signal and a counter are
    made of, and the command an engine decodes from a packet's words. *)

From S2P Require Import Prelude SdmaLayout.

#[local] Open Scope string_scope.
#[local] Open Scope list_scope.
#[local] Open Scope Z_scope.

(** ** Operation codes ([sdma_opcodes.h]) *)

Definition SDMA_OP_NOP : Z := 0.
Definition SDMA_OP_COPY : Z := 1.
Definition SDMA_OP_FENCE : Z := 5.
Definition SDMA_OP_POLL_REGMEM : Z := 8.
Definition SDMA_OP_ATOMIC : Z := 10.
Definition SDMA_OP_TIMESTAMP : Z := 13.
Definition SDMA_SUBOP_COPY_LINEAR : Z := 0.
Definition SDMA_SUBOP_COPY_LINEAR_SUB_WINDOW : Z := 36.
Definition SDMA_SUBOP_TIMESTAMP_GLOBAL : Z := 2.
Definition SDMA_ATOMIC_ADD32 : Z := 15.
Definition SDMA_ATOMIC_ADD64 : Z := 47.
Definition SDMA_SIGNAL_OP_ADD64_MI4 : Z := 111.
Definition SDMA_WAIT_FUNC_GEQ_MI4 : Z := 5.
Definition SDMA_SUBOP_COPY_LINEAR_WAIT_SIGNAL_MI4 : Z := 0.
Definition SDMA_SUBOP_FENCE_64B_MI4 : Z := 2.

(** The two words of an address. *)
Definition lo32 (a : Z) : Z := u32 a.
Definition hi32 (a : Z) : Z := u32 (Z.shiftr a 32).

(** A failed [assert] ends the program: no packet. *)
Definition asserting (b : bool) (p : list Z) : option (list Z) := if b then Some p else None.

(** ** Builders *)

Definition CopyLinearPacket (src dst : ptr) (size : Z) : option (list Z) :=
  asserting (negb (is_null src) && negb (is_null dst) && (0 <? size) && (size <=? 4294967296))
    (build SDMA_PKT_COPY_LINEAR
      [ ("HEADER_UNION", "op", SDMA_OP_COPY); ("HEADER_UNION", "sub_op", SDMA_SUBOP_COPY_LINEAR);
        ("COUNT_UNION", "count", u32 (size - 1));
        ("SRC_ADDR_LO_UNION", "src_addr_31_0", lo32 src);
        ("SRC_ADDR_HI_UNION", "src_addr_63_32", hi32 src);
        ("DST_ADDR_LO_UNION", "dst_addr_31_0", lo32 dst);
        ("DST_ADDR_HI_UNION", "dst_addr_63_32", hi32 dst) ]).

Definition TimestampPacket (addr : ptr) : option (list Z) :=
  asserting (negb (is_null addr))
    (build SDMA_PKT_TIMESTAMP
      [ ("HEADER_UNION", "op", SDMA_OP_TIMESTAMP);
        ("HEADER_UNION", "sub_op", SDMA_SUBOP_TIMESTAMP_GLOBAL);
        ("ADDR_LO_UNION", "addr_31_0", lo32 addr); ("ADDR_HI_UNION", "addr_63_32", hi32 addr) ]).

Definition LargeSubWindowCopyPacket (srcBuf dstBuf : ptr)
    (tile_width tile_height src_buffer_pitch dst_buffer_pitch src_x src_y dst_x dst_y : Z)
    : option (list Z) :=
  asserting (negb (is_null srcBuf) && negb (is_null dstBuf) && (0 <? tile_width) && (0 <? tile_height))
    (build SDMA_PKT_LINEAR_LARGE_SUB_WINDOW_COPY
      [ ("HEADER_UNION", "op", SDMA_OP_COPY);
        ("HEADER_UNION", "sub_op", SDMA_SUBOP_COPY_LINEAR_SUB_WINDOW);
        ("SRC_ADDR_LO_UNION", "src_base_addr_31_0", lo32 srcBuf);
        ("SRC_ADDR_HI_UNION", "src_base_addr_63_32", hi32 srcBuf);
        ("SRC_X_UNION", "src_x", src_x); ("SRC_Y_UNION", "src_y", src_y);
        ("SRC_Z_UNION", "src_z", 0);
        ("SRC_PITCH_UNION", "src_pitch", u32 (src_buffer_pitch - 1));
        ("SRC_SLICE_PITCH_LO_UNION", "src_slice_pitch_31_0", 0);
        ("SRC_SLICE_PITCH_HI_UNION", "src_slice_pitch_47_32", 0);
        ("DST_ADDR_LO_UNION", "dst_data_31_0", lo32 dstBuf);
        ("DST_ADDR_HI_UNION", "src_data_63_32", hi32 dstBuf);
        ("DST_X_UNION", "dst_x", dst_x); ("DST_Y_UNION", "dst_y", dst_y);
        ("DST_Z_UNION", "dst_z", 0);
        ("DST_PITCH_UNION", "dst_pitch", u32 (dst_buffer_pitch - 1));
        ("DST_SLICE_PITCH_LO_UNION", "dst_slice_pitch_31_0", 0);
        ("DST_SLICE_PITCH_HI_UNION", "dst_slice_pitch_47_32", 0);
        ("RECT_X_UNION", "rect_x", u32 (tile_width - 1));
        ("RECT_Y_UNION", "rect_y", u32 (tile_height - 1));
        ("RECT_Z_UNION", "rect_z", 0) ]).

(** [bytes] is [sizeof(T)]. *)
Definition AtomicAddPacket (bytes : Z) (p : ptr) (delta : Z) : option (list Z) :=
  asserting (negb (is_null p))
    (build SDMA_PKT_ATOMIC
      [ ("HEADER_UNION", "op", SDMA_OP_ATOMIC);
        ("HEADER_UNION", "operation", if bytes =? 8 then SDMA_ATOMIC_ADD64 else SDMA_ATOMIC_ADD32);
        ("ADDR_LO_UNION", "addr_31_0", lo32 p); ("ADDR_HI_UNION", "addr_63_32", hi32 p);
        ("SRC_DATA_LO_UNION", "src_data_31_0", lo32 delta);
        ("SRC_DATA_HI_UNION", "src_data_63_32", hi32 delta) ]).

Definition PollRegmemPacket (flag_ptr : ptr) (expected_value interval retry_count : Z)
    : option (list Z) :=
  asserting (negb (is_null flag_ptr))
    (build SDMA_PKT_POLL_REGMEM
      [ ("HEADER_UNION", "op", SDMA_OP_POLL_REGMEM); ("HEADER_UNION", "func", 5);
        ("HEADER_UNION", "mem_poll", 1);
        ("ADDR_LO_UNION", "addr_31_0", lo32 flag_ptr);
        ("ADDR_HI_UNION", "addr_63_32", hi32 flag_ptr);
        ("VALUE_UNION", "value", u32 expected_value); ("MASK_UNION", "mask", 4294967295);
        ("DW5_UNION", "interval", interval); ("DW5_UNION", "retry_count", retry_count) ]).

(** The device's names for them. *)
Definition CreateCopyPacket (srcBuf dstBuf : ptr) (packetSize : Z) : option (list Z) :=
  if (0 <? packetSize) && (packetSize <=? 4294967295)
  then CopyLinearPacket srcBuf dstBuf packetSize else None.
Definition CreateAtomicIncPacket (addr : ptr) : option (list Z) := AtomicAddPacket 8 addr 1.
Definition CreateLargeSubWindowCopyPacket := LargeSubWindowCopyPacket.
Definition CreateTimestampPacket := TimestampPacket.
Definition CreatePollPacket (addr : ptr) (expected : Z) : option (list Z) :=
  PollRegmemPacket addr expected 10 4095.

Definition CreateFencePacket (address : ptr) (data : Z) : list Z :=
  build SDMA_PKT_FENCE
    [ ("HEADER_UNION", "op", SDMA_OP_FENCE); ("ADDR_LO_UNION", "addr_31_0", lo32 address);
      ("ADDR_HI_UNION", "addr_63_32", hi32 address); ("DATA_UNION", "data", data) ].

(** OSS7: a copy with an optional wait before it and an optional signal
    after it. *)
Definition CreateCopyWaitSignalPacketMI4 (srcBuf dstBuf : ptr) (packetSize : Z)
    (signalAddr : ptr) (signalData : Z) (enableWait : bool) (waitAddr : ptr) (waitRef waitMask : Z)
    : option (list Z) :=
  let signal := negb (is_null signalAddr) in
  let wait := enableWait && negb (is_null waitAddr) in
  asserting ((0 <? packetSize) && (packetSize <=? 1073741824))
    (build SDMA_PKT_COPY_LINEAR_WAIT_SIGNAL_MI4
      ([ ("HEADER_UNION", "op", SDMA_OP_COPY);
         ("HEADER_UNION", "subop", SDMA_SUBOP_COPY_LINEAR_WAIT_SIGNAL_MI4);
         ("HEADER_UNION", "signal", ind signal); ("HEADER_UNION", "wait", ind wait) ]
       ++ (if wait then
             [ ("WAIT_CTRL_UNION", "wait_function", SDMA_WAIT_FUNC_GEQ_MI4);
               ("WAIT_ADDR_LO_UNION", "wait_addr_31_3", u32 (Z.shiftr waitAddr 3));
               ("WAIT_ADDR_HI_UNION", "wait_addr_63_32", hi32 waitAddr);
               ("WAIT_REF_LO_UNION", "wait_reference_31_0", lo32 waitRef);
               ("WAIT_REF_HI_UNION", "wait_reference_63_32", hi32 waitRef);
               ("WAIT_MASK_LO_UNION", "wait_mask_31_0", lo32 waitMask);
               ("WAIT_MASK_HI_UNION", "wait_mask_63_32", hi32 waitMask) ]
           else [])
       ++ [ ("COPY_COUNT_UNION", "copy_count", u32 (packetSize - 1));
            ("SRC_ADDR_LO_UNION", "src_addr_31_0", lo32 srcBuf);
            ("SRC_ADDR_HI_UNION", "src_addr_63_32", hi32 srcBuf);
            ("DST_ADDR_LO_UNION", "dst_addr_31_0", lo32 dstBuf);
            ("DST_ADDR_HI_UNION", "dst_addr_63_32", hi32 dstBuf) ]
       ++ (if signal then
             [ ("SIGNAL_CTRL_UNION", "signal_operation", SDMA_SIGNAL_OP_ADD64_MI4);
               ("SIGNAL_ADDR_LO_UNION", "signal_addr_31_3", u32 (Z.shiftr signalAddr 3));
               ("SIGNAL_ADDR_HI_UNION", "signal_addr_63_32", hi32 signalAddr);
               ("SIGNAL_DATA_LO_UNION", "signal_data_31_0", lo32 signalData);
               ("SIGNAL_DATA_HI_UNION", "signal_data_63_32", hi32 signalData) ]
           else []))).

(** ** The packets of a composite operation

    [put_signal_counter_impl] for its three flags; [oss7] is the build flag
    [XIO_SDMA_OSS7], under which a copy is fused with one of the atomics.
    [None]: an assertion of a builder failed. *)

Definition option_list (b : bool) (p : option (list Z)) : option (list (list Z)) :=
  if b then match p with Some w => Some [w] | None => None end else Some [].

Definition put_signal_counter_packets (oss7 PUT_EN SIGNAL_EN COUNTER_EN : bool)
    (dst src : ptr) (size : Z) (signal counter : ptr) : option (list (list Z)) :=
  if oss7 && PUT_EN && (SIGNAL_EN || COUNTER_EN) then
    let both := SIGNAL_EN && COUNTER_EN in
    let fused_addr := if SIGNAL_EN then signal else counter in
    ws_pkt ← option_list true
      (CreateCopyWaitSignalPacketMI4 src dst size fused_addr 1 false NULL 0 0);
    counter_packet ← option_list both (CreateAtomicIncPacket counter);
    Some (ws_pkt ++ counter_packet)
  else
    put ← option_list PUT_EN (CreateCopyPacket src dst size);
    sig ← option_list SIGNAL_EN (CreateAtomicIncPacket signal);
    cnt ← option_list COUNTER_EN (CreateAtomicIncPacket counter);
    Some (put ++ sig ++ cnt).

(** ** What the engine reads

    The commands of the structures above.  A copy whose header sets neither
    the wait nor the signal bit is the seven-word one. *)

Inductive sdma_cmd :=
| CmdNop
| CmdCopy (src dst bytes : Z)
| CmdCopyWaitSignal (src dst bytes : Z) (wait : option (Z * Z * Z * Z)) (signal : option (Z * Z * Z))
| CmdCopyWindow (src dst : Z) (src_at dst_at : Z * Z) (src_pitch dst_pitch width height : Z)
| CmdAtomic (operation addr data : Z)
| CmdFence (addr data : Z)
| CmdTimestamp (addr : Z)
| CmdPoll (func addr value mask interval retry_count : Z).

Definition fetch64 (L : layout) (ulo flo uhi fhi : string) (p : list Z) : Z :=
  fetch L ulo flo p + 4294967296 * fetch L uhi fhi p.
(** An address whose low three bits are not stored. *)
Definition fetch64_8 (L : layout) (ulo flo uhi fhi : string) (p : list Z) : Z :=
  8 * fetch L ulo flo p + 4294967296 * fetch L uhi fhi p.

Definition read_copy (p : list Z) : sdma_cmd :=
  let L := SDMA_PKT_COPY_LINEAR in
  CmdCopy (fetch64 L "SRC_ADDR_LO_UNION" "src_addr_31_0" "SRC_ADDR_HI_UNION" "src_addr_63_32" p)
    (fetch64 L "DST_ADDR_LO_UNION" "dst_addr_31_0" "DST_ADDR_HI_UNION" "dst_addr_63_32" p)
    (fetch L "COUNT_UNION" "count" p + 1).

Definition read_wait_signal (p : list Z) : sdma_cmd :=
  let L := SDMA_PKT_COPY_LINEAR_WAIT_SIGNAL_MI4 in
  CmdCopyWaitSignal
    (fetch64 L "SRC_ADDR_LO_UNION" "src_addr_31_0" "SRC_ADDR_HI_UNION" "src_addr_63_32" p)
    (fetch64 L "DST_ADDR_LO_UNION" "dst_addr_31_0" "DST_ADDR_HI_UNION" "dst_addr_63_32" p)
    (fetch L "COPY_COUNT_UNION" "copy_count" p + 1)
    (if fetch L "HEADER_UNION" "wait" p =? 0 then None else
       Some (fetch L "WAIT_CTRL_UNION" "wait_function" p,
         fetch64_8 L "WAIT_ADDR_LO_UNION" "wait_addr_31_3" "WAIT_ADDR_HI_UNION" "wait_addr_63_32" p,
         fetch64 L "WAIT_REF_LO_UNION" "wait_reference_31_0" "WAIT_REF_HI_UNION" "wait_reference_63_32" p,
         fetch64 L "WAIT_MASK_LO_UNION" "wait_mask_31_0" "WAIT_MASK_HI_UNION" "wait_mask_63_32" p))
    (if fetch L "HEADER_UNION" "signal" p =? 0 then None else
       Some (fetch L "SIGNAL_CTRL_UNION" "signal_operation" p,
         fetch64_8 L "SIGNAL_ADDR_LO_UNION" "signal_addr_31_3"
           "SIGNAL_ADDR_HI_UNION" "signal_addr_63_32" p,
         fetch64 L "SIGNAL_DATA_LO_UNION" "signal_data_31_0"
           "SIGNAL_DATA_HI_UNION" "signal_data_63_32" p)).

Definition read_window (p : list Z) : sdma_cmd :=
  let L := SDMA_PKT_LINEAR_LARGE_SUB_WINDOW_COPY in
  CmdCopyWindow
    (fetch64 L "SRC_ADDR_LO_UNION" "src_base_addr_31_0" "SRC_ADDR_HI_UNION" "src_base_addr_63_32" p)
    (fetch64 L "DST_ADDR_LO_UNION" "dst_data_31_0" "DST_ADDR_HI_UNION" "src_data_63_32" p)
    (fetch L "SRC_X_UNION" "src_x" p, fetch L "SRC_Y_UNION" "src_y" p)
    (fetch L "DST_X_UNION" "dst_x" p, fetch L "DST_Y_UNION" "dst_y" p)
    (fetch L "SRC_PITCH_UNION" "src_pitch" p + 1) (fetch L "DST_PITCH_UNION" "dst_pitch" p + 1)
    (fetch L "RECT_X_UNION" "rect_x" p + 1) (fetch L "RECT_Y_UNION" "rect_y" p + 1).

Definition read_atomic (p : list Z) : sdma_cmd :=
  let L := SDMA_PKT_ATOMIC in
  CmdAtomic (fetch L "HEADER_UNION" "operation" p)
    (fetch64 L "ADDR_LO_UNION" "addr_31_0" "ADDR_HI_UNION" "addr_63_32" p)
    (fetch64 L "SRC_DATA_LO_UNION" "src_data_31_0" "SRC_DATA_HI_UNION" "src_data_63_32" p).

Definition read_fence (p : list Z) : sdma_cmd :=
  let L := SDMA_PKT_FENCE in
  CmdFence (fetch64 L "ADDR_LO_UNION" "addr_31_0" "ADDR_HI_UNION" "addr_63_32" p)
    (fetch L "DATA_UNION" "data" p).

Definition read_timestamp (p : list Z) : sdma_cmd :=
  CmdTimestamp
    (fetch64 SDMA_PKT_TIMESTAMP "ADDR_LO_UNION" "addr_31_0" "ADDR_HI_UNION" "addr_63_32" p).

Definition read_poll (p : list Z) : sdma_cmd :=
  let L := SDMA_PKT_POLL_REGMEM in
  CmdPoll (fetch L "HEADER_UNION" "func" p)
    (fetch64 L "ADDR_LO_UNION" "addr_31_0" "ADDR_HI_UNION" "addr_63_32" p)
    (fetch L "VALUE_UNION" "value" p) (fetch L "MASK_UNION" "mask" p)
    (fetch L "DW5_UNION" "interval" p) (fetch L "DW5_UNION" "retry_count" p).

(** How many words the packet that starts with [h] has. *)
Definition packet_length (h : Z) : option nat :=
  let op := get_bits 0 8 h in
  if op =? SDMA_OP_NOP then Some (S (Z.to_nat (get_bits 16 14 h)))
  else if op =? SDMA_OP_COPY then
    if get_bits 8 8 h =? SDMA_SUBOP_COPY_LINEAR_SUB_WINDOW then Some 20%nat
    else if (get_bits 30 1 h =? 0) && (get_bits 31 1 h =? 0) then Some 7%nat else Some 19%nat
  else if op =? SDMA_OP_ATOMIC then Some 8%nat
  else if op =? SDMA_OP_FENCE then Some 4%nat
  else if op =? SDMA_OP_TIMESTAMP then Some 3%nat
  else if op =? SDMA_OP_POLL_REGMEM then Some 6%nat
  else None.

(** The command of a whole packet. *)
Definition read_cmd (h : Z) (p : list Z) : sdma_cmd :=
  let op := get_bits 0 8 h in
  if op =? SDMA_OP_NOP then CmdNop
  else if op =? SDMA_OP_COPY then
    if get_bits 8 8 h =? SDMA_SUBOP_COPY_LINEAR_SUB_WINDOW then read_window p
    else if (get_bits 30 1 h =? 0) && (get_bits 31 1 h =? 0) then read_copy p
    else read_wait_signal p
  else if op =? SDMA_OP_ATOMIC then read_atomic p
  else if op =? SDMA_OP_FENCE then read_fence p
  else if op =? SDMA_OP_TIMESTAMP then read_timestamp p
  else read_poll p.

(** The commands of a stream of words, packet after packet. *)
Fixpoint parse (fuel : nat) (p : list Z) : option (list sdma_cmd) :=
  match p, fuel with
  | [], _ => Some []
  | _, O => None
  | h :: _, S fuel' =>
      match packet_length h with
      | Some n =>
          if (n <=? length p)%nat
          then cs ← parse fuel' (drop n p); Some (read_cmd h (take n p) :: cs) else None
      | None => None
      end
  end.

(** [p] is one packet, which asks for [c]. *)
Definition packet_ok (p : list Z) (c : sdma_cmd) : Prop :=
  exists h t, p = h :: t /\ packet_length h = Some (length p) /\ read_cmd h p = c.

(** ** Lemmas *)

Lemma addr_words a : 0 <= a < 18446744073709551616 -> lo32 a + 4294967296 * hi32 a = a.
Proof.
  intros Ha. unfold lo32, hi32, u32. rewrite Z.shiftr_div_pow2 by lia. change (2 ^ 32) with 4294967296.
  rewrite (Z.mod_small (a / _)); [|split; [apply Z.div_pos; lia|apply Z.div_lt_upper_bound; lia]].
  rewrite Z.add_comm. symmetry. apply Z.div_mod. lia.
Qed.

Lemma word_field x : 0 <= x < 2 ^ 32 -> x mod 2 ^ 32 = x.
Proof. apply Z.mod_small. Qed.
Lemma lo32_field a : lo32 a mod 2 ^ 32 = lo32 a.
Proof. apply Z.mod_small, u32_range. Qed.
Lemma hi32_field a : hi32 a mod 2 ^ 32 = hi32 a.
Proof. apply Z.mod_small, u32_range. Qed.

(** The header of a built packet, as the engine's dispatch reads it. *)
Lemma head_bits L l h p sh w u f :
  build L l = h :: p -> field_at L u f = Some (0%nat, sh, w) -> layout_ok L = true ->
  get_bits sh w h = assigned u f l 0 mod 2 ^ w.
Proof.
  intros E Hat Hok. rewrite <- (fetch_built L l u f 0 sh w Hok Hat), E. unfold fetch. by rewrite Hat.
Qed.

Lemma get_bits_inner sh w sh' w' x :
  0 <= sh -> 0 <= w -> sh <= sh' -> 0 <= w' -> sh' + w' <= sh + w ->
  get_bits sh' w' x = get_bits (sh' - sh) w' (get_bits sh w x).
Proof.
  intros Hs Hw Hs' Hw' Hin. apply Z.bits_inj'. intros k Hk. rewrite !testbit_get by lia.
  destruct (Z.ltb_spec k w'); cbn [andb]; [|done].
  rewrite (proj2 (Z.ltb_lt (k + (sh' - sh)) w)) by lia. cbn [andb]. f_equal. lia.
Qed.

Lemma parse_packet fuel p c rest :
  packet_ok p c -> parse (S fuel) (p ++ rest) = (cs ← parse fuel rest; Some (c :: cs)).
Proof.
  intros (h & t & -> & Hlen & <-). cbn [app parse]. rewrite Hlen.
  change (h :: t ++ rest) with ((h :: t) ++ rest). rewrite length_app.
  rewrite (proj2 (Nat.leb_le _ _)) by lia. by rewrite drop_app_length, take_app_length.
Qed.

Lemma parse_more fuel fuel' p cs : parse fuel p = Some cs -> (fuel <= fuel')%nat -> parse fuel' p = Some cs.
Proof.
  revert fuel' p cs. induction fuel as [|fuel IH]; intros fuel' p cs.
  - destruct p; [|done]. by destruct fuel'.
  - destruct p as [|h t]; [by destruct fuel'|]. destruct fuel' as [|fuel']; [lia|].
    cbn [parse]. destruct (packet_length h) as [n|]; [|done].
    destruct (n <=? _)%nat; [|done]. intros E Hle.
    destruct (parse fuel (drop n (h :: t))) as [cs'|] eqn:E'; [|done].
    rewrite (IH fuel' _ _ E') by lia. done.
Qed.

(** A stream of packets is read as the packets' commands. *)
Lemma parse_packets ps cs :
  Forall2 packet_ok ps cs -> parse (length ps) (concat ps) = Some cs.
Proof.
  induction 1 as [|p c ps cs Hp _ IH]; [done|]. cbn [length concat].
  rewrite (parse_packet _ _ _ _ Hp). by rewrite IH.
Qed.

(** Fields of built packets evaluate to what was assigned. *)
Ltac built :=
  repeat match goal with
  | |- context [fetch ?L ?u ?f (build ?L ?l)] =>
      let r := eval vm_compute in (field_at L u f) in
      match r with
      | Some (?i, ?sh, ?w) => rewrite (fetch_built L l u f i sh w eq_refl eq_refl)
      end
  end;
  cbn [assigned String.eqb Ascii.eqb Bool.eqb andb].

Lemma packet_intro L l n c :
  layout_ok L = true -> length L = S n ->
  (forall h t, build L l = h :: t -> packet_length h = Some (S n) /\ read_cmd h (build L l) = c) ->
  packet_ok (build L l) c.
Proof.
  intros Hok Hlen H. pose proof (length_build L l) as Hb. rewrite Hlen in Hb.
  destruct (build L l) as [|h t] eqn:E; [done|].
  destruct (H h t eq_refl) as [H1 H2]. exists h, t. by rewrite Hb.
Qed.

(** Bits of the first word, by the fields of the packet's header. *)
Ltac header E u f :=
  match type of E with
  | build ?L ?l = ?h :: _ =>
      let r := eval vm_compute in (field_at L u f) in
      match r with
      | Some (_, ?sh, ?w) => rewrite ?(head_bits L l h _ sh w u f E eq_refl eq_refl)
      end
  end.
(** Decisions between numbers are taken. *)
Ltac decisions :=
  cbn [assigned String.eqb Ascii.eqb Bool.eqb andb];
  repeat match goal with
  | |- context [if ?b then _ else _] =>
      let v := eval vm_compute in b in
      match v with true => change b with true | false => change b with false end; cbv iota
  end.

Lemma count30 n : 0 < n <= 4294967296 -> u32 (n - 1) mod 2 ^ 30 = (n - 1) mod 1073741824.
Proof. intros Hn. by rewrite u32_small by lia. Qed.

Lemma copy_linear_ok src dst size p :
  CopyLinearPacket src dst size = Some p ->
  0 <= src < 18446744073709551616 -> 0 <= dst < 18446744073709551616 ->
  0 < size <= 4294967296 /\ packet_ok p (CmdCopy src dst ((size - 1) mod 1073741824 + 1)).
Proof.
  unfold CopyLinearPacket, asserting. destruct (_ && _) eqn:Ea; [|done]. intros [= <-] Hs Hd.
  bool_to_prop. split; [lia|]. apply (packet_intro _ _ 6); [done..|]. intros h t E.
  unfold packet_length, read_cmd. rewrite (get_bits_inner 28 4 30 1), (get_bits_inner 28 4 31 1) by lia.
  header E "HEADER_UNION" "op". header E "HEADER_UNION" "sub_op". header E "HEADER_UNION" "reserved_1".
  decisions. split; [done|].
  unfold read_copy, fetch64. built.
  rewrite !lo32_field, !hi32_field, !addr_words, count30 by lia. done.
Qed.

Lemma atomic_ok bytes a delta p :
  AtomicAddPacket bytes a delta = Some p -> bytes = 4 \/ bytes = 8 ->
  0 <= a < 18446744073709551616 -> 0 <= delta < 18446744073709551616 ->
  packet_ok p (CmdAtomic (if bytes =? 8 then SDMA_ATOMIC_ADD64 else SDMA_ATOMIC_ADD32) a delta).
Proof.
  unfold AtomicAddPacket, asserting. destruct (negb _); [|done]. intros [= <-] Hb Ha Hd.
  apply (packet_intro _ _ 7); [done..|]. intros h t E. unfold packet_length, read_cmd.
  header E "HEADER_UNION" "op". decisions. split; [done|].
  unfold read_atomic, fetch64. built. rewrite !lo32_field, !hi32_field, !addr_words by lia.
  by destruct Hb as [-> | ->].
Qed.

Lemma timestamp_ok a p :
  TimestampPacket a = Some p -> 0 <= a < 18446744073709551616 -> packet_ok p (CmdTimestamp a).
Proof.
  unfold TimestampPacket, asserting. destruct (negb _); [|done]. intros [= <-] Ha.
  apply (packet_intro _ _ 2); [done..|]. intros h t E. unfold packet_length, read_cmd.
  header E "HEADER_UNION" "op". decisions. split; [done|].
  unfold read_timestamp, fetch64. built. by rewrite lo32_field, hi32_field, addr_words.
Qed.

Lemma fence_ok a data :
  0 <= a < 18446744073709551616 -> 0 <= data < 2 ^ 32 ->
  packet_ok (CreateFencePacket a data) (CmdFence a data).
Proof.
  intros Ha Hd. apply (packet_intro _ _ 3); [done..|]. intros h t E. unfold packet_length, read_cmd.
  header E "HEADER_UNION" "op". decisions. split; [done|].
  unfold read_fence, fetch64, CreateFencePacket. built.
  by rewrite lo32_field, hi32_field, addr_words, word_field.
Qed.

Lemma poll_ok a v interval retry p :
  PollRegmemPacket a v interval retry = Some p -> 0 <= a < 18446744073709551616 ->
  0 <= v < 2 ^ 32 -> 0 <= interval < 2 ^ 16 -> 0 <= retry < 2 ^ 12 ->
  packet_ok p (CmdPoll 5 a v 4294967295 interval retry).
Proof.
  unfold PollRegmemPacket, asserting. destruct (negb _); [|done]. intros [= <-] Ha Hv Hi Hr.
  apply (packet_intro _ _ 5); [done..|]. intros h t E. unfold packet_length, read_cmd.
  header E "HEADER_UNION" "op". decisions. split; [done|].
  unfold read_poll, fetch64. built. rewrite lo32_field, hi32_field, addr_words by done.
  rewrite u32_small by done. by rewrite !Z.mod_small with (b := 2 ^ 32), (Z.mod_small interval), (Z.mod_small retry).
Qed.

Lemma window_ok src dst w h sp dp sx sy dx dy p :
  LargeSubWindowCopyPacket src dst w h sp dp sx sy dx dy = Some p ->
  0 <= src < 18446744073709551616 -> 0 <= dst < 18446744073709551616 ->
  w < 2 ^ 32 -> h < 2 ^ 32 -> 0 < sp < 2 ^ 32 -> 0 < dp < 2 ^ 32 ->
  0 <= sx < 2 ^ 32 -> 0 <= sy < 2 ^ 32 -> 0 <= dx < 2 ^ 32 -> 0 <= dy < 2 ^ 32 ->
  0 < w /\ 0 < h /\ packet_ok p (CmdCopyWindow src dst (sx, sy) (dx, dy) sp dp w h).
Proof.
  unfold LargeSubWindowCopyPacket, asserting. destruct (_ && _) eqn:Ea; [|done].
  intros [= <-] Hs Hd Hw Hh Hsp Hdp Hsx Hsy Hdx Hdy. bool_to_prop. split; [done|]. split; [done|].
  apply (packet_intro _ _ 19); [done..|]. intros hd t E. unfold packet_length, read_cmd.
  header E "HEADER_UNION" "op". header E "HEADER_UNION" "sub_op". decisions. split; [done|].
  unfold read_window, fetch64. built. rewrite !lo32_field, !hi32_field, !addr_words by done.
  rewrite !u32_small by lia. rewrite !Z.mod_small with (b := 2 ^ 32) by lia. by rewrite !Z.sub_add.
Qed.

Lemma addr_words_8 a :
  0 <= a < 18446744073709551616 -> a mod 8 = 0 ->
  8 * (u32 (Z.shiftr a 3) mod 2 ^ 29) + 4294967296 * hi32 a = a.
Proof.
  intros Ha H8. unfold hi32, u32. rewrite !Z.shiftr_div_pow2 by lia.
  change (2 ^ 3) with 8. change (2 ^ 29) with 536870912. change (2 ^ 32) with 4294967296.
  Z.to_euclidean_division_equations. lia.
Qed.

(** The fused packet, when it signals or waits. *)
Lemma wait_signal_ok src dst size sig data p :
  CreateCopyWaitSignalPacketMI4 src dst size sig data false NULL 0 0 = Some p ->
  0 <= src < 18446744073709551616 -> 0 <= dst < 18446744073709551616 ->
  0 < sig < 18446744073709551616 -> sig mod 8 = 0 -> 0 <= data < 18446744073709551616 ->
  0 < size <= 1073741824 /\
  packet_ok p (CmdCopyWaitSignal src dst size None (Some (SDMA_SIGNAL_OP_ADD64_MI4, sig, data))).
Proof.
  unfold CreateCopyWaitSignalPacketMI4, asserting. destruct (_ && _) eqn:Ea; [|done].
  intros [= <-] Hs Hd Hg H8 Hdt. bool_to_prop. split; [lia|]. cbn [andb].
  rewrite (proj2 (Z.eqb_neq sig NULL)) by (unfold NULL; lia). cbn [negb app ind].
  apply (packet_intro _ _ 18); [done..|]. intros h t E. unfold packet_length, read_cmd.
  header E "HEADER_UNION" "op". header E "HEADER_UNION" "subop".
  header E "HEADER_UNION" "wait". header E "HEADER_UNION" "signal". decisions. split; [done|].
  unfold read_wait_signal, fetch64, fetch64_8. built. decisions.
  rewrite !lo32_field, !hi32_field, !addr_words, addr_words_8 by lia.
  rewrite u32_small by lia. rewrite (Z.mod_small (size - 1)) by lia. by rewrite Z.sub_add.
Qed.

(** ** Properties *)

(** What a command does to memory, in order. *)
Inductive sdma_effect := ECopy (src dst bytes : Z) | EAdd (addr data : Z) | EOther (c : sdma_cmd).
Definition meaning (c : sdma_cmd) : list sdma_effect :=
  match c with
  | CmdNop => []
  | CmdCopy src dst bytes => [ECopy src dst bytes]
  | CmdCopyWaitSignal src dst bytes None sig =>
      ECopy src dst bytes ::
      match sig with
      | None => []
      | Some (op, a, v) => if op =? SDMA_SIGNAL_OP_ADD64_MI4 then [EAdd a v] else [EOther c]
      end
  | CmdAtomic op a v => if op =? SDMA_ATOMIC_ADD64 then [EAdd a v] else [EOther c]
  | _ => [EOther c]
  end.

(** The contract of the composite operation. *)
Definition put_signal_counter_spec (PUT_EN SIGNAL_EN COUNTER_EN : bool)
    (dst src size signal counter : Z) : list sdma_effect :=
  (if PUT_EN then [ECopy src dst size] else [])
  ++ (if SIGNAL_EN then [EAdd signal 1] else []) ++ (if COUNTER_EN then [EAdd counter 1] else []).

Definition is_addr (a : Z) : Prop := 0 <= a < 18446744073709551616.

Lemma option_list_true p ps : option_list true p = Some ps -> exists w, p = Some w /\ ps = [w].
Proof. cbn. destruct p as [w|]; [|done]. intros [= <-]. eauto. Qed.

Lemma option_list_ok b p ps (Q : list Z -> sdma_cmd -> Prop) c :
  option_list b p = Some ps -> (b = true -> forall w, p = Some w -> Q w c) ->
  Forall2 Q ps (if b then [c] else []).
Proof.
  destruct b; cbn; [|by intros [= <-]]. destruct p as [w|]; [|done]. intros [= <-] H.
  constructor; [by apply H|constructor].
Qed.

Lemma copy_packet_ok src dst size p :
  CreateCopyPacket src dst size = Some p -> is_addr src -> is_addr dst ->
  0 < size <= 4294967295 /\ packet_ok p (CmdCopy src dst ((size - 1) mod 1073741824 + 1)).
Proof.
  unfold CreateCopyPacket. destruct (_ && _) eqn:E; [|done]. bool_to_prop. intros Hp Hs Hd.
  destruct (copy_linear_ok _ _ _ _ Hp Hs Hd). split; [lia|done].
Qed.

Lemma atomic_inc_ok a p : CreateAtomicIncPacket a = Some p -> is_addr a -> packet_ok p (CmdAtomic SDMA_ATOMIC_ADD64 a 1).
Proof. intros Hp Ha. by apply (atomic_ok 8 a 1 p); [|right| |]. Qed.

Lemma put_signal_counter_cmds oss7 P S C dst src size signal counter ps :
  put_signal_counter_packets oss7 P S C dst src size signal counter = Some ps ->
  is_addr src -> is_addr dst -> is_addr signal -> is_addr counter -> size <= 1073741824 ->
  (oss7 = true -> signal <> 0 /\ counter <> 0 /\ signal mod 8 = 0 /\ counter mod 8 = 0) ->
  exists cs, Forall2 packet_ok ps cs /\
    concat (map meaning cs) = put_signal_counter_spec P S C dst src size signal counter.
Proof.
  unfold put_signal_counter_packets, is_addr. intros E Hs Hd Hg Hc Hsize H8.
  destruct (oss7 && P && (S || C)) eqn:Ef.
  - apply andb_true_iff in Ef as [[-> ->]%andb_true_iff HSC]. destruct (H8 eq_refl) as (Hg0 & Hc0 & Hg8 & Hc8).
    destruct (option_list true _) as [ws|] eqn:E1; [|done].
    destruct (option_list (S && C) _) as [ct|] eqn:E2; [|done]. injection E as <-.
    apply option_list_true in E1 as (w & E1 & ->). apply wait_signal_ok in E1 as [_ E1];
      [|done|done|destruct S; lia|by destruct S|lia].
    pose proof (option_list_ok _ _ _ packet_ok (CmdAtomic SDMA_ATOMIC_ADD64 counter 1) E2
      (fun _ p Hp => atomic_inc_ok _ _ Hp Hc)) as H2.
    eexists. split; [by apply (Forall2_app (l1 := [w])); [constructor; [exact E1|constructor]|exact H2]|].
    by destruct S, C.
  - destruct (option_list P _) as [pp|] eqn:E1; [|done].
    destruct (option_list S _) as [sp|] eqn:E2; [|done].
    destruct (option_list C _) as [cp|] eqn:E3; [|done]. injection E as <-.
    assert (P = true -> 0 < size) as Hpos.
    { intros ->. apply option_list_true in E1 as (w & E1 & _).
      apply copy_packet_ok in E1 as [? _]; [lia|done..]. }
    pose proof (option_list_ok _ _ _ packet_ok _ E1
      (fun _ p Hp => proj2 (copy_packet_ok _ _ _ _ Hp Hs Hd))) as H1.
    pose proof (option_list_ok _ _ _ packet_ok _ E2 (fun _ p Hp => atomic_inc_ok _ _ Hp Hg)) as H2.
    pose proof (option_list_ok _ _ _ packet_ok _ E3 (fun _ p Hp => atomic_inc_ok _ _ Hp Hc)) as H3.
    eexists. split; [by repeat (eapply Forall2_app; [eassumption|])|].
    assert (P = true -> (size - 1) mod 1073741824 + 1 = size) as Hmod.
    { intros HP. specialize (Hpos HP). rewrite Z.mod_small by lia. lia. }
    unfold put_signal_counter_spec. destruct P; [rewrite (Hmod eq_refl)|]; by destruct S, C.
Qed.

(** C11: a put, signal and counter in any combination, of at most 1 GiB: the
    words the operation places in the ring are read by the engine as commands
    whose effects are exactly the copy, then an addition of one to the signal,
    then an addition of one to the counter.  The OSS7 build, which fuses the
    copy with an atomic, means the same (its addresses must be aligned). *)
Theorem put_signal_counter_meaning oss7 P S C dst src size signal counter ps :
  put_signal_counter_packets oss7 P S C dst src size signal counter = Some ps ->
  is_addr src -> is_addr dst -> is_addr signal -> is_addr counter -> size <= 1073741824 ->
  (oss7 = true -> signal <> 0 /\ counter <> 0 /\ signal mod 8 = 0 /\ counter mod 8 = 0) ->
  exists cs, parse (length ps) (concat ps) = Some cs /\
    concat (map meaning cs) = put_signal_counter_spec P S C dst src size signal counter.
Proof.
  intros E Hs Hd Hg Hc Hsize H8.
  destruct (put_signal_counter_cmds _ _ _ _ _ _ _ _ _ _ E Hs Hd Hg Hc Hsize H8) as (cs & Hcs & Hm).
  exists cs. split; [by apply parse_packets|done].
Qed.

(** A copy of more than 1 GiB is accepted and truncated.  The builder's
    assertions let sizes up to 4 GiB - 1 through, but the count field has 30
    bits: the engine is asked for [(size - 1) mod 2^30 + 1] bytes, so part of
    the buffer is silently not copied. *)
Theorem copy_count_truncated src dst size p :
  CreateCopyPacket src dst size = Some p -> is_addr src -> is_addr dst ->
  exists bytes, parse 1 p = Some [CmdCopy src dst bytes] /\
    (size <= 1073741824 -> bytes = size) /\
    (1073741824 < size -> bytes = (size - 1) mod 1073741824 + 1 /\ bytes < size).
Proof.
  intros Hp Hs Hd. destruct (copy_packet_ok _ _ _ _ Hp Hs Hd) as [Hb Hok].
  exists ((size - 1) mod 1073741824 + 1). split.
  { pose proof (parse_packet 0 p _ [] Hok) as H. by rewrite (app_nil_r p) in H. }
  split; [intros H; rewrite Z.mod_small by lia; lia|].
  intros H. pose proof (Z.mod_pos_bound (size - 1) 1073741824). lia.
Qed.

(** ** Witnesses *)

Lemma put_signal_counter_meaning_witness :
  exists ps cs,
    put_signal_counter_packets true true true true 8192 4096 1073741824 65536 65544 = Some ps /\
    map length ps = [19; 8]%nat /\ parse (length ps) (concat ps) = Some cs /\
    concat (map meaning cs) = [ECopy 4096 8192 1073741824; EAdd 65536 1; EAdd 65544 1].
Proof.
  destruct (put_signal_counter_packets true true true true 8192 4096 1073741824 65536 65544)
    as [ps|] eqn:E; [|vm_compute in E; discriminate].
  destruct (put_signal_counter_meaning _ _ _ _ _ _ _ _ _ _ E) as (cs & Hp & Hm);
    unfold is_addr; try lia; [intros _; split_and!; try lia; reflexivity|].
  exists ps, cs. split; [reflexivity|]. vm_compute in E. injection E as <-. split_and!; [reflexivity|exact Hp|exact Hm].
Defined.

Lemma copy_count_truncated_witness :
  exists p, CreateCopyPacket 4096 8192 2147483649 = Some p /\
    exists bytes, parse 1 p = Some [CmdCopy 4096 8192 bytes] /\ bytes = 1.
Proof.
  destruct (CreateCopyPacket 4096 8192 2147483649) as [p|] eqn:E; [|vm_compute in E; discriminate].
  exists p. split; [reflexivity|].
  destruct (copy_count_truncated 4096 8192 2147483649 p E) as (bytes & Hp & _ & Hb);
    [unfold is_addr; lia..|].
  exists bytes. split; [exact Hp|]. destruct Hb as [-> _]; [lia|reflexivity].
Defined.
