(* ===== verification/SdmaQueue.v ===== *)
(** * The SDMA ring

    The ring of [src/src/endpoints/sdma-ep/sdma_device.hpp] ([SdmaQueueHandle])
    and of the host handle ([sdma-host-queue.hip]): producers that reserve a
    span by compare-and-swap, place their packets, and submit in the order of
    their reservations, and the engine that reads up to the doorbell.  Each
    atomic access is one step; any number of producers interleave, and the
    engine reads one word at a time, in between.  Accesses take effect in one
    global order (the code's fences between the stores of a submission are
    what makes that so on the hardware). *)

From S2P Require Import Prelude.

(** ** The queue *)

Definition SDMA_QUEUE_SIZE : Z := 8388608.
Definition RING_WORDS : Z := SDMA_QUEUE_SIZE / 4.

(** Shared memory: the ring, by word, and the five pointers. *)
Record sdma_queue := {
  q_buf : Z -> Z; q_rptr : Z; q_wptr : Z; q_doorbell : Z; q_cachedWptr : Z; q_committedWptr : Z
}.

Definition with_buf (b : Z -> Z) (q : sdma_queue) : sdma_queue :=
  {| q_buf := b; q_rptr := q_rptr q; q_wptr := q_wptr q; q_doorbell := q_doorbell q;
     q_cachedWptr := q_cachedWptr q; q_committedWptr := q_committedWptr q |}.
Definition with_rptr (x : Z) (q : sdma_queue) : sdma_queue :=
  {| q_buf := q_buf q; q_rptr := x; q_wptr := q_wptr q; q_doorbell := q_doorbell q;
     q_cachedWptr := q_cachedWptr q; q_committedWptr := q_committedWptr q |}.
Definition with_wptr (x : Z) (q : sdma_queue) : sdma_queue :=
  {| q_buf := q_buf q; q_rptr := q_rptr q; q_wptr := x; q_doorbell := q_doorbell q;
     q_cachedWptr := q_cachedWptr q; q_committedWptr := q_committedWptr q |}.
Definition with_doorbell (x : Z) (q : sdma_queue) : sdma_queue :=
  {| q_buf := q_buf q; q_rptr := q_rptr q; q_wptr := q_wptr q; q_doorbell := x;
     q_cachedWptr := q_cachedWptr q; q_committedWptr := q_committedWptr q |}.
Definition with_cachedWptr (x : Z) (q : sdma_queue) : sdma_queue :=
  {| q_buf := q_buf q; q_rptr := q_rptr q; q_wptr := q_wptr q; q_doorbell := q_doorbell q;
     q_cachedWptr := x; q_committedWptr := q_committedWptr q |}.
Definition with_committedWptr (x : Z) (q : sdma_queue) : sdma_queue :=
  {| q_buf := q_buf q; q_rptr := q_rptr q; q_wptr := q_wptr q; q_doorbell := q_doorbell q;
     q_cachedWptr := q_cachedWptr q; q_committedWptr := x |}.

(** The optional state of a producing thread. *)
Record SdmaQueueState := { cachedHwReadIndex : Z; maxWritePtr : Z }.

Definition WrapIntoRing (index : Z) : Z := index mod SDMA_QUEUE_SIZE.

(** Is there room up to [uptoIndex]?  A thread with state asks its cached
    read pointer first and refreshes it on a miss. *)
Definition CanWriteUpto (q : sdma_queue) (uptoIndex : Z) (state : option SdmaQueueState)
    : bool * option SdmaQueueState :=
  match state with
  | Some st =>
      if u64 (uptoIndex - cachedHwReadIndex st) <? SDMA_QUEUE_SIZE then (true, state)
      else (u64 (uptoIndex - q_rptr q) <? SDMA_QUEUE_SIZE,
            Some {| cachedHwReadIndex := q_rptr q; maxWritePtr := maxWritePtr st |})
  | None => (u64 (uptoIndex - q_rptr q) <? SDMA_QUEUE_SIZE, None)
  end.

(** ** Placing packets

    Stores are pairs of a word of the ring and a value, in program order. *)

(** The filler before the end of the ring: a NOP that spans it. *)
Definition nop_words (numOffsetDwords : Z) : list Z :=
  match Z.to_nat numOffsetDwords with
  | O => []
  | S n => Z.shiftl (Z.land (numOffsetDwords - 1) 65535) 16 :: replicate n 0
  end.

Definition stores_at (base_idx : Z) (l : list Z) : list (Z * Z) :=
  imap (fun i v => (base_idx + Z.of_nat i, v)) l.

Definition placePacket (packet : list Z) (pendingWptr offset : Z) : list (Z * Z) * Z :=
  let pad := stores_at (WrapIntoRing pendingWptr / 4) (nop_words (u32 (offset / 4))) in
  let pendingWptr := u64 (pendingWptr + offset) in
  (pad ++ stores_at (WrapIntoRing pendingWptr / 4) packet,
   u64 (pendingWptr + 4 * Z.of_nat (length packet))).

(** The packets of one reservation, the filler before the first. *)
Fixpoint place_packets (packets : list (list Z)) (pendingWptr offset : Z) : list (Z * Z) * Z :=
  match packets with
  | [] => ([], pendingWptr)
  | p :: packets' =>
      let (s1, pendingWptr) := placePacket p pendingWptr offset in
      let (s2, pendingWptr) := place_packets packets' pendingWptr 0 in
      (s1 ++ s2, pendingWptr)
  end.

(** ** Producers *)

Inductive handle := Device | Host.

(** One composite operation: its packets, and whether the reservation and the
    submission are given the thread's state. *)
Record sdma_op := {
  op_packets : list (list Z); op_reserve_state : bool; op_submit_state : bool
}.
Definition space_required (o : sdma_op) : Z := 4 * Z.of_nat (length (concat (op_packets o))).

Inductive command := Submit (o : sdma_op) | Quiet.

(** Where a producer is.  [Test] and [Swap] are the two halves of an attempt
    to reserve from [cur], [pad] when only the rest of the ring is claimed
    for filler (the host's way); [Place] holds the stores still to do and,
    when there are none, the wait for the submission's turn; then the three
    stores of a submission; [Polling] waits for the read pointer. *)
Inductive phase :=
| Idle
| Test (cur offset : Z) (pad : bool)
| Swap (cur offset : Z) (pad : bool)
| Place (base pendingWptr : Z) (pad : bool) (stores : list (Z * Z))
| WriteWptr (base pendingWptr : Z) (pad : bool)
| WriteDoorbell (base pendingWptr : Z) (pad : bool)
| WriteCommitted (base pendingWptr : Z) (pad : bool)
| Polling (target : Z).

Record producer := {
  th_phase : phase; th_todo : list command; th_state : option SdmaQueueState
}.
Definition at_phase (p : phase) (t : producer) : producer :=
  {| th_phase := p; th_todo := th_todo t; th_state := th_state t |}.

(** The padding before a span of [size] bytes at [cur] that would cross the
    end of the ring: the device pads as part of the same reservation, the
    host reserves the padding on its own and tries again. *)
Definition reserve (h : handle) (cur size : Z) : Z * bool :=
  if SDMA_QUEUE_SIZE <? WrapIntoRing cur + size
  then (SDMA_QUEUE_SIZE - WrapIntoRing cur, match h with Device => false | Host => true end)
  else (0, false).
Definition new_index (cur offset : Z) (pad : bool) (size : Z) : Z :=
  if pad then u64 (cur + offset) else u64 (u64 (cur + size) + offset).

(** What a reservation will hold, in words: filler, then packets. *)
Definition claimed_words (offset : Z) (pad : bool) (o : sdma_op) : list Z :=
  if pad then replicate (Z.to_nat (offset / 4)) 0
  else nop_words (u32 (offset / 4)) ++ concat (op_packets o).
Definition claim_stores (cur offset : Z) (pad : bool) (o : sdma_op) : list (Z * Z) * Z :=
  if pad then (stores_at (WrapIntoRing cur / 4) (replicate (Z.to_nat (offset / 4)) 0),
               u64 (cur + offset))
  else place_packets (op_packets o) cur offset.

(** A successful reservation, for the record: the padding alone, or the
    operation. *)
Record claim := { cl_tid : nat; cl_words : list Z; cl_op : option sdma_op }.

Definition only_if {A} (b : bool) (x : option A) : option A := if b then x else None.

(** The state after a submission that ended at [pendingWptr]. *)
Definition track (o : sdma_op) (pendingWptr : Z) (state : option SdmaQueueState)
    : option SdmaQueueState :=
  match state with
  | Some st =>
      Some (if op_submit_state o
            then {| cachedHwReadIndex := cachedHwReadIndex st; maxWritePtr := pendingWptr |} else st)
  | None => None
  end.
(** Only an attempt that was given the state refreshes it. *)
Definition put_state (given : bool) (state' state : option SdmaQueueState) : option SdmaQueueState :=
  if given then state' else state.

(** What [quietAll] (or the host's [quiet]) waits for, and when it is over. *)
Definition quiet_target (h : handle) (q : sdma_queue) (state : option SdmaQueueState) : Z :=
  match h, state with
  | Device, Some st => maxWritePtr st
  | Device, None => q_wptr q
  | Host, _ => q_committedWptr q
  end.
Definition quiet_over (h : handle) (rptr target : Z) : bool :=
  match h with Device => negb (rptr <? target) | Host => rptr =? target end.

(** One step of producer [i]; [None] when it has nothing to do. *)
Definition producer_step (h : handle) (i : nat) (q : sdma_queue) (t : producer)
    : option (sdma_queue * producer * list claim) :=
  match th_todo t with
  | [] => None
  | Quiet :: rest =>
      match th_phase t with
      | Polling target =>
          if quiet_over h (q_rptr q) target
          then Some (q, {| th_phase := Idle; th_todo := rest; th_state := th_state t |}, [])
          else Some (q, t, [])
      | _ => Some (q, at_phase (Polling (quiet_target h q (th_state t))) t, [])
      end
  | Submit o :: rest =>
      match th_phase t with
      | Test cur offset pad =>
          let new := new_index cur offset pad (space_required o) in
          let (room, state') := CanWriteUpto q new (only_if (op_reserve_state o) (th_state t)) in
          Some (q, {| th_phase := if room then Swap cur offset pad else Idle; th_todo := th_todo t;
                      th_state := put_state (op_reserve_state o) state' (th_state t) |}, [])
      | Swap cur offset pad =>
          if q_cachedWptr q =? cur then
            let (stores, pendingWptr) := claim_stores cur offset pad o in
            Some (with_cachedWptr (new_index cur offset pad (space_required o)) q,
                  at_phase (Place cur pendingWptr pad stores) t,
                  [{| cl_tid := i; cl_words := claimed_words offset pad o;
                      cl_op := if pad then None else Some o |}])
          else Some (q, at_phase Idle t, [])
      | Place base pendingWptr pad ((j, v) :: stores) =>
          Some (with_buf (fun k => if k =? j then v else q_buf q k) q,
                at_phase (Place base pendingWptr pad stores) t, [])
      | Place base pendingWptr pad [] =>
          Some (q, if q_committedWptr q =? base then at_phase (WriteWptr base pendingWptr pad) t else t, [])
      | WriteWptr base pendingWptr pad =>
          Some (with_wptr pendingWptr q, at_phase (WriteDoorbell base pendingWptr pad) t, [])
      | WriteDoorbell base pendingWptr pad =>
          Some (with_doorbell pendingWptr q, at_phase (WriteCommitted base pendingWptr pad) t, [])
      | WriteCommitted base pendingWptr pad =>
          Some (with_committedWptr pendingWptr q,
                {| th_phase := Idle; th_todo := if pad then th_todo t else rest;
                   th_state := if pad then th_state t else track o pendingWptr (th_state t) |}, [])
      | _ =>
          let cur := q_cachedWptr q in
          let (offset, pad) := reserve h cur (space_required o) in
          Some (q, at_phase (Test cur offset pad) t, [])
      end
  end.

(** ** The system

    [sy_claims] records the reservations in the order they were made and
    [sy_read] the words the engine has read; the code reads neither. *)

Record system := {
  sy_queue : sdma_queue; sy_producers : list producer; sy_claims : list claim; sy_read : list Z
}.

Inductive sys_step (h : handle) : system -> system -> Prop :=
| step_producer s i t q' t' cls :
    sy_producers s !! i = Some t -> producer_step h i (sy_queue s) t = Some (q', t', cls) ->
    sys_step h s {| sy_queue := q'; sy_producers := <[i := t']> (sy_producers s);
                    sy_claims := sy_claims s ++ cls; sy_read := sy_read s |}
| step_spurious s i t cur offset pad :
    (* the host's weak compare-and-swap may fail for no reason *)
    h = Host -> sy_producers s !! i = Some t -> th_phase t = Swap cur offset pad ->
    sys_step h s {| sy_queue := sy_queue s; sy_producers := <[i := at_phase Idle t]> (sy_producers s);
                    sy_claims := sy_claims s; sy_read := sy_read s |}
| step_engine s :
    (* the engine reads a word between its read pointer and the doorbell *)
    q_rptr (sy_queue s) <> q_doorbell (sy_queue s) ->
    sys_step h s {| sy_queue := with_rptr (u64 (q_rptr (sy_queue s) + 4)) (sy_queue s);
                    sy_producers := sy_producers s; sy_claims := sy_claims s;
                    sy_read := sy_read s
                      ++ [q_buf (sy_queue s) (WrapIntoRing (q_rptr (sy_queue s)) / 4)] |}.

(** A fresh queue, and the programs of its producers: no thread of a host
    handle has state. *)
Definition queue0 : sdma_queue :=
  {| q_buf := fun _ => 0; q_rptr := 0; q_wptr := 0; q_doorbell := 0; q_cachedWptr := 0;
     q_committedWptr := 0 |}.
Definition start (programs : list (list command * option SdmaQueueState)) : system :=
  {| sy_queue := queue0;
     sy_producers := map (fun p : list command * option SdmaQueueState =>
       {| th_phase := Idle; th_todo := fst p; th_state := snd p |}) programs;
     sy_claims := []; sy_read := [] |}.

(** The words of the reservations, in order. *)
Definition stream (cls : list claim) : list Z := concat (map cl_words cls).

(** ** Positions in the stream and in the ring *)

(** Where reservation [k] begins, in words from the start of the stream. *)
Definition base_of (cls : list claim) (k : nat) : nat := length (stream (take k cls)).

(** The stores that put [l] at position [B] of the stream. *)
Definition words_at (B : nat) (l : list Z) : list (Z * Z) :=
  imap (fun i v => (Z.of_nat (B + i) mod RING_WORDS, v)) l.

Ltac ring_lia :=
  unfold RING_WORDS, SDMA_QUEUE_SIZE in *; change (8388608 / 4) with 2097152 in *;
  Z.to_euclidean_division_equations; lia.

Lemma wrap_words B : WrapIntoRing (4 * B) / 4 = B mod RING_WORDS.
Proof.
  unfold WrapIntoRing. change SDMA_QUEUE_SIZE with (4 * RING_WORDS).
  rewrite Z.mul_mod_distr_l by done. rewrite Z.mul_comm. by apply Z.div_mul.
Qed.

Lemma wrap_bytes B : WrapIntoRing (4 * B) = 4 * (B mod RING_WORDS).
Proof.
  unfold WrapIntoRing. change SDMA_QUEUE_SIZE with (4 * RING_WORDS). by rewrite Z.mul_mod_distr_l.
Qed.

(** Two positions less than a ring apart do not share a place. *)
Lemma wrap_inj x y : x mod RING_WORDS = y mod RING_WORDS -> - RING_WORDS < x - y < RING_WORDS -> x = y.
Proof. intros H1 H2. ring_lia. Qed.

Lemma stores_at_app b l1 l2 :
  stores_at b (l1 ++ l2) = stores_at b l1 ++ stores_at (b + Z.of_nat (length l1)) l2.
Proof.
  unfold stores_at. rewrite imap_app. f_equal. apply imap_ext. intros i x _. f_equal. lia.
Qed.

Lemma words_at_app B l1 l2 : words_at B (l1 ++ l2) = words_at B l1 ++ words_at (B + length l1) l2.
Proof.
  unfold words_at. rewrite imap_app. f_equal. apply imap_ext. intros i x _. do 2 f_equal. lia.
Qed.

(** A run that does not cross the end of the ring. *)
Lemma stores_words (B : nat) l :
  Z.of_nat B mod RING_WORDS + Z.of_nat (length l) <= RING_WORDS ->
  stores_at (Z.of_nat B mod RING_WORDS) l = words_at B l.
Proof.
  intros H. apply imap_ext. intros i x Hi%lookup_lt_Some. f_equal. ring_lia.
Qed.

Lemma elem_of_words_at B l j v :
  (j, v) ∈ words_at B l <-> exists i, l !! i = Some v /\ j = Z.of_nat (B + i) mod RING_WORDS.
Proof.
  unfold words_at. rewrite list_elem_of_lookup. split.
  - intros (i & Hi). rewrite list_lookup_imap in Hi. destruct (l !! i) as [x|] eqn:E; [|done].
    injection Hi as <- <-. by exists i.
  - intros (i & Hi & ->). exists i. by rewrite list_lookup_imap, Hi.
Qed.

Lemma length_nop_words n : 0 <= n -> Z.of_nat (length (nop_words n)) = n.
Proof.
  intros Hn. unfold nop_words. destruct (Z.to_nat n) as [|k] eqn:E; cbn [length]; [lia|].
  rewrite length_replicate. lia.
Qed.

Lemma place_packets_words ps (B : nat) :
  Z.of_nat B mod RING_WORDS + Z.of_nat (length (concat ps)) <= RING_WORDS ->
  4 * (Z.of_nat B + Z.of_nat (length (concat ps))) < 18446744073709551616 ->
  place_packets ps (4 * Z.of_nat B) 0
  = (words_at B (concat ps), 4 * (Z.of_nat B + Z.of_nat (length (concat ps)))).
Proof.
  revert B. induction ps as [|p ps IH]; intros B Hfit Hb; cbn [place_packets concat length] in *.
  { by rewrite Z.add_0_r. }
  rewrite length_app in *. unfold placePacket. change (nop_words (u32 (0 / 4))) with (@nil Z).
  cbn [stores_at imap app].
  rewrite Z.add_0_r, (u64_small (4 * _)) by lia. rewrite wrap_words.
  rewrite u64_small by lia.
  replace (4 * Z.of_nat B + 4 * Z.of_nat (length p)) with (4 * Z.of_nat (B + length p)) by lia.
  rewrite stores_words by lia.
  assert (place_packets ps (4 * Z.of_nat (B + length p)) 0
    = (words_at (B + length p) (concat ps),
       4 * (Z.of_nat (B + length p) + Z.of_nat (length (concat ps))))) as ->.
  { destruct (decide (length (concat ps) = 0)%nat) as [E|Hne]; apply IH; [ring_lia|lia|ring_lia|lia]. }
  rewrite words_at_app. f_equal. lia.
Qed.

Lemma place_packets_pad ps (B m : nat) :
  ps <> [] -> 4 * Z.of_nat (B + m) < 18446744073709551616 -> Z.of_nat m < 4294967296 ->
  place_packets ps (4 * Z.of_nat B) (4 * Z.of_nat m)
  = (stores_at (Z.of_nat B mod RING_WORDS) (nop_words (Z.of_nat m))
       ++ fst (place_packets ps (4 * Z.of_nat (B + m)) 0),
     snd (place_packets ps (4 * Z.of_nat (B + m)) 0)).
Proof.
  intros Hne Hb Hm. destruct ps as [|p ps]; [done|]. cbn [place_packets]. unfold placePacket.
  rewrite (Z.mul_comm 4 (Z.of_nat m)), Z.div_mul, u32_small, wrap_words by lia.
  change (u32 (0 / 4)) with 0. change (nop_words 0) with (@nil Z). cbn [stores_at imap app].
  rewrite Z.add_0_r.
  replace (4 * Z.of_nat B + Z.of_nat m * 4) with (4 * Z.of_nat (B + m)) by lia.
  rewrite !(u64_small (4 * _)) by lia.
  destruct (place_packets ps _ 0) as [s2 e]. cbn [fst snd]. by rewrite app_assoc.
Qed.

(** The two outcomes of the padding rule. *)
Lemma reserve_cases h (B n : nat) offset pad :
  reserve h (4 * Z.of_nat B) (4 * Z.of_nat n) = (offset, pad) ->
  offset = 0 /\ pad = false /\ Z.of_nat B mod RING_WORDS + Z.of_nat n <= RING_WORDS \/
  exists m : nat, offset = 4 * Z.of_nat m /\ (0 < m)%nat /\ Z.of_nat m < 4294967296 /\
    Z.of_nat B mod RING_WORDS + Z.of_nat m = RING_WORDS /\ (m < n)%nat.
Proof.
  unfold reserve. rewrite wrap_bytes. change SDMA_QUEUE_SIZE with (4 * RING_WORDS).
  assert (0 <= Z.of_nat B mod RING_WORDS < RING_WORDS) as Hmod by (apply Z.mod_pos_bound; done).
  pose proof (eq_refl : RING_WORDS = 2097152) as HN.
  destruct (_ <? _) eqn:E; bool_to_prop; intros [= <- <-]; [right|left; lia].
  exists (Z.to_nat (RING_WORDS - Z.of_nat B mod RING_WORDS)). lia.
Qed.

Lemma pad_words (m : nat) : 4 * Z.of_nat m / 4 = Z.of_nat m.
Proof. by rewrite (Z.mul_comm 4), Z.div_mul. Qed.

(** The pointer after a reservation, and that it holds something. *)
Lemma claim_new_index h o (B : nat) offset pad :
  reserve h (4 * Z.of_nat B) (space_required o) = (offset, pad) ->
  concat (op_packets o) <> [] ->
  4 * (Z.of_nat B + Z.of_nat (length (claimed_words offset pad o))) < 18446744073709551616 ->
  new_index (4 * Z.of_nat B) offset pad (space_required o)
    = 4 * Z.of_nat (B + length (claimed_words offset pad o)) /\
  claimed_words offset pad o <> [].
Proof.
  unfold new_index, claimed_words, space_required. intros Hr Hne.
  destruct (reserve_cases _ _ _ _ _ Hr) as [(-> & -> & Hfit)|(m & -> & Hm0 & Hm32 & Hend)].
  - change (nop_words (u32 (0 / 4))) with (@nil Z). cbn [app]. intros Hb.
    rewrite (u64_small (4 * Z.of_nat B + _)), u64_small by lia. split; [lia|done].
  - rewrite pad_words, Nat2Z.id, u32_small by lia.
    pose proof (length_nop_words (Z.of_nat m)) as Hl. destruct pad.
    + rewrite length_replicate. intros Hb. rewrite u64_small by lia. split; [lia|].
      destruct m; [lia|done].
    + rewrite length_app. intros Hb. rewrite (u64_small (4 * Z.of_nat B + _)), u64_small by lia.
      split; [lia|]. by intros [_ Hnil]%app_eq_nil.
Qed.

(** The stores of a reservation put its words where the stream has them, and
    they stay inside the ring. *)
Lemma claim_stores_ok h o (B : nat) offset pad :
  reserve h (4 * Z.of_nat B) (space_required o) = (offset, pad) ->
  concat (op_packets o) <> [] ->
  let ws := claimed_words offset pad o in
  4 * (Z.of_nat B + Z.of_nat (length ws)) < 18446744073709551616 ->
  Z.of_nat (length ws) <= RING_WORDS ->
  claim_stores (4 * Z.of_nat B) offset pad o = (words_at B ws, 4 * Z.of_nat (B + length ws)).
Proof.
  unfold claim_stores, claimed_words, space_required. intros Hr Hne. rewrite wrap_words.
  destruct (reserve_cases _ _ _ _ _ Hr) as [(-> & -> & Hfit)|(m & -> & Hm0 & Hm32 & Hend)].
  - change (nop_words (u32 (0 / 4))) with (@nil Z). cbn [app]. intros Hb Hw.
    rewrite place_packets_words by lia. f_equal. lia.
  - rewrite pad_words, Nat2Z.id, u32_small by lia.
    pose proof (length_nop_words (Z.of_nat m)) as Hl. destruct pad.
    + rewrite length_replicate. intros Hb Hw. rewrite u64_small by lia. f_equal; [|lia].
      apply stores_words. rewrite length_replicate. lia.
    + rewrite length_app. intros Hb Hw.
      rewrite place_packets_pad by (lia || (intros E0; by rewrite E0 in Hne)).
      rewrite place_packets_words; [|rewrite Nat2Z.inj_add; clear -Hend Hl Hw; ring_lia|lia].
      cbn [fst snd]. rewrite words_at_app. f_equal; [|lia]. f_equal; [|f_equal; lia].
      apply stores_words. lia.
Qed.
