(* ===== verification/SdmaLive.v ===== *)
(** * Progress of the SDMA ring

    No interleaving of the system of [SdmaQueue.v] is a dead end: a turn can
    always be taken to its end, the engine can always catch up with the
    doorbell, and a reservation then finds room, so that every reachable
    state can run to a completion in which everything submitted was read. *)

From S2P Require Import Prelude SdmaQueue SdmaRing.

(** ** Steps that reserve nothing *)

Definition put_producer (s : system) (q : sdma_queue) (i : nat) (t : producer) : system :=
  {| sy_queue := q; sy_producers := <[i := t]> (sy_producers s);
     sy_claims := sy_claims s; sy_read := sy_read s |}.

Lemma put_put s q i t q' t' :
  put_producer (put_producer s q i t) q' i t' = put_producer s q' i t'.
Proof. unfold put_producer. cbn. by rewrite list_insert_insert_eq. Qed.

(** A command the system can finish: a device's wait, and operations.  The
    device reserves the padding with the operation, so that both together
    have to fit; the host's padding is a reservation of its own. *)
Definition fits (h : handle) (c : command) : Prop :=
  match c, h with
  | Submit o, Device => 2 * Z.of_nat (length (concat (op_packets o))) <= RING_WORDS
  | Submit o, Host => Z.of_nat (length (concat (op_packets o))) < RING_WORDS
  | Quiet, _ => h = Device
  end.

Definition cmd_words (c : command) : nat :=
  match c with Submit o => 2 * length (concat (op_packets o)) | Quiet => 0 end.
(** What the rest of a program may still reserve, padding included. *)
Definition todo_words (s : system) : nat :=
  sum_list_with (fun t => sum_list_with cmd_words (th_todo t)) (sy_producers s).
Definition todo_count (s : system) : nat :=
  sum_list_with (fun t => length (th_todo t)) (sy_producers s).

(** Programs only get shorter. *)
Definition shrinks (s s' : system) : Prop :=
  Forall2 (fun t t' => th_todo t' `suffix_of` th_todo t) (sy_producers s) (sy_producers s').

Lemma shrinks_refl s : shrinks s s.
Proof. unfold shrinks. induction (sy_producers s); by constructor. Qed.

Lemma shrinks_trans s1 s2 s3 : shrinks s1 s2 -> shrinks s2 s3 -> shrinks s1 s3.
Proof.
  unfold shrinks. apply Forall2_trans. intros t1 t2 t3 H1 H2. by transitivity (th_todo t2).
Qed.

Lemma shrinks_put s q i t t' :
  sy_producers s !! i = Some t -> th_todo t' `suffix_of` th_todo t -> shrinks s (put_producer s q i t').
Proof.
  intros Hi Hs. unfold shrinks. cbn. rewrite <- (list_insert_id _ _ _ Hi) at 1.
  apply Forall2_insert; [apply shrinks_refl|done].
Qed.

Lemma sum_suffix {A} (f : A -> nat) l l' :
  l' `suffix_of` l -> (sum_list_with f l' <= sum_list_with f l)%nat.
Proof. intros [k ->]. rewrite sum_list_with_app. lia. Qed.

Lemma shrinks_words s s' : shrinks s s' -> (todo_words s' <= todo_words s)%nat.
Proof.
  unfold shrinks, todo_words. induction 1 as [|t t' l l' Ht _ IH]; [done|]. cbn.
  pose proof (sum_suffix cmd_words _ _ Ht). lia.
Qed.

Lemma shrinks_count s s' : shrinks s s' -> (todo_count s' <= todo_count s)%nat.
Proof.
  unfold shrinks, todo_count. induction 1 as [|t t' l l' Ht _ IH]; [done|]. cbn.
  pose proof (suffix_length _ _ Ht). lia.
Qed.

Definition all_fit (h : handle) (s : system) : Prop :=
  Forall (fun t => Forall (fits h) (th_todo t)) (sy_producers s).

Lemma shrinks_fit h s s' : shrinks s s' -> all_fit h s -> all_fit h s'.
Proof.
  unfold shrinks, all_fit. induction 1 as [|t t' l l' [k Ht] _ IH]; [done|].
  intros [Hf Hl]%Forall_cons_1. constructor; [|by apply IH].
  rewrite Ht in Hf. by apply Forall_app in Hf as [_ Hf].
Qed.

(** One command less. *)
Lemma sum_insert {A} (f : A -> nat) l i x y :
  l !! i = Some x -> (sum_list_with f (<[i := y]> l) + f x = sum_list_with f l + f y)%nat.
Proof.
  revert i. induction l as [|z l IH]; intros [|i]; cbn; try done.
  - intros [= ->]. lia.
  - intros Hi. rewrite <- !Nat.add_assoc. f_equal. by apply IH.
Qed.

Section Live.
Context (h : handle).

Lemma quiet_step s i t q' t' :
  sy_producers s !! i = Some t -> producer_step h i (sy_queue s) t = Some (q', t', []) ->
  sys_step h s (put_producer s q' i t').
Proof.
  intros Hi Hp. pose proof (step_producer h s i t q' t' [] Hi Hp) as H.
  by rewrite (app_nil_r (sy_claims s)) in H.
Qed.

(** Which reservation a state is at can be read off the committed pointer. *)
Lemma step_count s s' c k :
  ring_ok h s c -> bounded s -> sys_step h s s' -> sy_claims s' = sy_claims s ->
  (k <= length (sy_claims s))%nat ->
  q_committedWptr (sy_queue s') = 4 * Z.of_nat (base_of (sy_claims s) k) -> ring_ok h s' k.
Proof.
  intros H Hb Hs Ecl Hk Hco.
  destruct (step_ok h s s' c H Hs) as (c' & _ & H'); [unfold bounded; by rewrite Ecl|].
  pose proof (ro_committed _ _ _ H') as E. pose proof (ro_count _ _ _ H') as Hc'.
  pose proof (ro_nonempty _ _ _ H') as Hn. rewrite Ecl in *.
  destruct (lt_eq_lt_dec c' k) as [[Hlt| ->]|Hlt]; [exfalso|done|exfalso].
  - pose proof (base_lt _ c' k Hn Hlt Hk). lia.
  - pose proof (base_lt _ k c' Hn Hlt Hc'). lia.
Qed.

(** ** Taking a turn *)

Definition rank (p : phase) : nat :=
  match p with
  | Place _ _ _ st => 4 + length st
  | WriteWptr _ _ _ => 3 | WriteDoorbell _ _ _ => 2 | WriteCommitted _ _ _ => 1
  | _ => 0
  end.

Lemma holding_owns s c i t b e pad st :
  ring_ok h s c -> sy_producers s !! i = Some t -> holding (th_phase t) = Some (b, e, pad, st) ->
  owns c (sy_claims s) i t b e pad st.
Proof.
  intros H Hi Hh. pose proof (po_phase _ _ _ _ _ _ _ (ro_producers _ _ _ H i t Hi)) as Hp.
  unfold phase_ok in Hp. destruct (th_phase t); cbn [holding] in Hh; try done;
    injection Hh as <- <- <- <-; tauto.
Qed.

(** The next step of the producer whose turn it is. *)
Lemma turn_step s c i t b e pad st :
  ring_ok h s c -> bounded s -> sy_producers s !! i = Some t ->
  holding (th_phase t) = Some (b, e, pad, st) -> b = 4 * Z.of_nat (base_of (sy_claims s) c) ->
  exists q' t', sys_step h s (put_producer s q' i t') /\ q_rptr q' = q_rptr (sy_queue s) /\
    ((exists st', ring_ok h (put_producer s q' i t') c /\
        holding (th_phase t') = Some (b, e, pad, st') /\ th_todo t' = th_todo t /\
        (rank (th_phase t') < rank (th_phase t))%nat) \/
     ring_ok h (put_producer s q' i t') (S c) /\ th_phase t' = Idle /\
       th_todo t' = if pad then th_todo t else tail (th_todo t)).
Proof.
  intros H Hb Hi Hh Hbase. pose proof (holding_owns _ _ _ _ _ _ _ _ H Hi Hh) as Hown.
  destruct (owns_turn _ _ _ _ _ _ _ _ (ro_nonempty _ _ _ H) (ro_count _ _ _ H) Hown Hbase)
    as (cl & o & rest & Hcl & _ & He & Htodo & _).
  pose proof (ro_committed _ _ _ H) as Hco.
  assert (forall q' t' k, producer_step h i (sy_queue s) t = Some (q', t', []) ->
    (k <= length (sy_claims s))%nat -> q_committedWptr q' = 4 * Z.of_nat (base_of (sy_claims s) k) ->
    sys_step h s (put_producer s q' i t') /\ ring_ok h (put_producer s q' i t') k) as Hgo.
  { intros q' t' k Hp Hk Eco. pose proof (quiet_step s i t q' t' Hi Hp) as Hs. split; [done|].
    by apply (step_count s _ c). }
  pose proof (ro_count _ _ _ H) as Hc.
  destruct (th_phase t) as [| | |b' e' pad' stores|b' e' pad'|b' e' pad'|b' e' pad'|] eqn:Eph;
    cbn [holding] in Hh; try done; injection Hh as E1 E2 E3 E4; rewrite ?E1, ?E2, ?E3 in Eph;
    rewrite ?E1, ?E2, ?E3; clear E1 E2 E3.
  - rewrite E4 in Eph |- *. destruct st as [|[j v] st].
    + destruct (Hgo (sy_queue s) (at_phase (WriteWptr b e pad) t) c) as [Hs Hok]; [|done|done|].
      { unfold producer_step. rewrite Htodo, Eph, Hco, Hbase. by rewrite Z.eqb_refl. }
      eexists _, _. split; [exact Hs|]. split; [done|]. left. exists []. cbn. split_and!; [done..|lia].
    + destruct (Hgo (with_buf (fun k => if k =? j then v else q_buf (sy_queue s) k) (sy_queue s))
        (at_phase (Place b e pad st) t) c) as [Hs Hok]; [|done|done|].
      { unfold producer_step. by rewrite Htodo, Eph. }
      eexists _, _. split; [exact Hs|]. split; [done|]. left. exists st. cbn. split_and!; [done..|lia].
  - destruct (Hgo (with_wptr e (sy_queue s)) (at_phase (WriteDoorbell b e pad) t) c) as [Hs Hok]; [|done|done|].
    { unfold producer_step. by rewrite Htodo, Eph. }
    eexists _, _. split; [exact Hs|]. split; [done|]. left. exists []. cbn. split_and!; [done..|lia].
  - destruct (Hgo (with_doorbell e (sy_queue s)) (at_phase (WriteCommitted b e pad) t) c)
      as [Hs Hok]; [|done|done|].
    { unfold producer_step. by rewrite Htodo, Eph. }
    eexists _, _. split; [exact Hs|]. split; [done|]. left. exists []. cbn. split_and!; [done..|lia].
  - destruct (Hgo (with_committedWptr e (sy_queue s))
      {| th_phase := Idle; th_todo := if pad then th_todo t else rest;
         th_state := if pad then th_state t else track o e (th_state t) |} (S c)) as [Hs Hok].
    { unfold producer_step. by rewrite Htodo, Eph. }
    { by apply lookup_lt_Some in Hcl. }
    { by rewrite <- He. }
    eexists _, _. split; [exact Hs|]. split; [done|]. right. split; [exact Hok|]. cbn. by rewrite Htodo.
Qed.

Lemma finish_turn s c i t b e pad st :
  ring_ok h s c -> bounded s -> sy_producers s !! i = Some t ->
  holding (th_phase t) = Some (b, e, pad, st) -> b = 4 * Z.of_nat (base_of (sy_claims s) c) ->
  exists q' t', rtc (sys_step h) s (put_producer s q' i t') /\ q_rptr q' = q_rptr (sy_queue s) /\
    ring_ok h (put_producer s q' i t') (S c) /\ th_phase t' = Idle /\
    th_todo t' = if pad then th_todo t else tail (th_todo t).
Proof.
  remember (rank (th_phase t)) as n eqn:En. revert s t st En.
  induction n as [n IH] using (well_founded_induction lt_wf). intros s t st En H Hb Hi Hh Hbase.
  destruct (turn_step s c i t b e pad st H Hb Hi Hh Hbase)
    as (q' & t' & Hs & Hr & [(st' & Hok & Hh' & Htodo & Hrank)|(Hok & Hph & Htodo)]).
  - assert (sy_producers (put_producer s q' i t') !! i = Some t') as Hi'
      by (cbn; by rewrite list_lookup_insert_eq by (by eapply lookup_lt_Some)).
    destruct (IH (rank (th_phase t')) ltac:(lia) (put_producer s q' i t') t' st' eq_refl Hok Hb Hi' Hh' Hbase)
      as (q2 & t2 & Hs2 & Hr2 & Hok2 & Hph2 & Htodo2).
    rewrite put_put in Hs2, Hok2. exists q2, t2. rewrite <- Htodo.
    split_and!; try done; [by eapply rtc_l|]. cbn in Hr2. congruence.
  - exists q', t'. split_and!; try done. by apply rtc_once.
Qed.

(** Every reservation made can be submitted. *)
Lemma finish_all s c :
  ring_ok h s c -> bounded s ->
  exists s', rtc (sys_step h) s s' /\ sy_claims s' = sy_claims s /\
    ring_ok h s' (length (sy_claims s')) /\ shrinks s s'.
Proof.
  remember (length (sy_claims s) - c)%nat as n eqn:En. revert s c En.
  induction n as [|n IH]; intros s c En H Hb; pose proof (ro_count _ _ _ H) as Hc.
  { exists s. split_and!; [done|done| |apply shrinks_refl]. by replace (length (sy_claims s)) with c by lia. }
  destruct (lookup_lt_is_Some_2 (sy_claims s) c) as [cl Hcl]; [lia|].
  destruct (ro_owners _ _ _ H c cl) as (t & b & e & pad & st & Hi & Hh & Hbase); [done|done|].
  destruct (finish_turn s c _ t b e pad st H Hb Hi Hh Hbase) as (q' & t' & Hs & _ & Hok & _ & Htodo).
  destruct (IH (put_producer s q' (cl_tid cl) t') (S c)) as (s2 & Hs2 & Hcl2 & Hok2 & Hsh);
    [cbn; lia|done|done|].
  exists s2. split_and!; [by etransitivity|done|done|].
  eapply shrinks_trans; [|exact Hsh]. apply (shrinks_put _ _ _ t); [done|]. rewrite Htodo.
  destruct pad; [done|]. destruct (th_todo t); [done|]. by exists [c0].
Qed.

(** ** The engine catches up *)

(** Everything reserved is submitted and read. *)
Definition drained (s : system) : Prop :=
  ring_ok h s (length (sy_claims s)) /\ q_rptr (sy_queue s) = q_cachedWptr (sy_queue s).

(** When everything is submitted, nobody holds a reservation. *)
Lemma all_submitted_idle s i t :
  ring_ok h s (length (sy_claims s)) -> sy_producers s !! i = Some t -> holding (th_phase t) = None.
Proof.
  intros H Hi. destruct (holding (th_phase t)) as [[[[b e] pad] st]|] eqn:E; [|done].
  destruct (holding_owns _ _ _ _ _ _ _ _ H Hi E) as (k & cl & o & rest & pl & Hk & Hcl & _).
  apply lookup_lt_Some in Hcl. lia.
Qed.

Lemma all_submitted_pointers s :
  ring_ok h s (length (sy_claims s)) ->
  q_doorbell (sy_queue s) = q_cachedWptr (sy_queue s) /\ q_wptr (sy_queue s) = q_cachedWptr (sy_queue s).
Proof.
  intros H. rewrite (ro_cached _ _ _ H), <- (base_total _ (length (sy_claims s))) by done.
  assert (forall i t, sy_producers s !! i = Some t -> stage (th_phase t) = 0%nat) as H0.
  { intros i t Hi. pose proof (all_submitted_idle s i t H Hi) as E. by destruct (th_phase t). }
  split.
  - destruct (ro_doorbell _ _ _ H) as [|(i & t & Hi & Ht)]; [done|]. by rewrite (H0 i t Hi) in Ht.
  - destruct (ro_wptr _ _ _ H) as [|(i & t & Hi & Ht)]; [done|]. rewrite (H0 i t Hi) in Ht. lia.
Qed.

Lemma drain s :
  ring_ok h s (length (sy_claims s)) -> bounded s ->
  exists s', rtc (sys_step h) s s' /\ drained s' /\ sy_producers s' = sy_producers s /\
    sy_claims s' = sy_claims s.
Proof.
  remember (length (stream (sy_claims s)) - length (sy_read s))%nat as n eqn:En. revert s En.
  induction n as [|n IH]; intros s En H Hb.
  all: pose proof (prefix_length _ _ (ro_read _ _ _ H)) as Hle.
  all: pose proof (ro_rptr _ _ _ H) as Hr; unfold read_bytes in Hr.
  { exists s. split_and!; try done. split; [done|]. rewrite (ro_cached _ _ _ H). lia. }
  destruct (all_submitted_pointers s H) as [Hd _]. rewrite (ro_cached _ _ _ H) in Hd.
  assert (q_rptr (sy_queue s) <> q_doorbell (sy_queue s)) as Hne by lia.
  pose proof (step_engine h s Hne) as Hs. pose proof (engine_ok h s _ H Hb Hne) as Hok.
  match type of Hs with sys_step _ _ ?s1 =>
    destruct (IH s1) as (s2 & Hs2 & Hdr & Hp & Hcl) end;
    [cbn [sy_claims sy_read]; rewrite length_app; cbn [length]; lia|done..|].
  exists s2. split_and!; [by eapply rtc_l|done|done|done].
Qed.

(** ** Reserving in a drained ring *)

Lemma can_write_room q upto st st' b :
  u64 (upto - q_rptr q) < SDMA_QUEUE_SIZE -> CanWriteUpto q upto st = (b, st') -> b = true.
Proof.
  intros Hroom. unfold CanWriteUpto. apply Z.ltb_lt in Hroom. rewrite Hroom.
  clear Hroom. intros E. repeat case_match; by simplify_eq.
Qed.

(** A reservation is less than twice its operation, and the host's not
    larger than it. *)
Lemma claimed_small (B : nat) o offset pad :
  reserve h (4 * Z.of_nat B) (space_required o) = (offset, pad) -> concat (op_packets o) <> [] ->
  (length (claimed_words offset pad o) < cmd_words (Submit o))%nat /\
  (h = Host -> length (claimed_words offset pad o) <= length (concat (op_packets o)))%nat.
Proof.
  unfold claimed_words, space_required, cmd_words. intros Hr Hlen.
  rewrite <- length_zero_iff_nil in Hlen.
  assert (h = Host -> offset <> 0 -> pad = true) as Hpad.
  { intros ->. unfold reserve in Hr. destruct (_ <? _); by injection Hr as <- <-. }
  destruct (reserve_cases _ _ _ _ _ Hr) as [(-> & -> & _)|(m & -> & Hm0 & Hm32 & _ & Hmn)].
  - change (nop_words (u32 (0 / 4))) with (@nil Z). cbn [app]. lia.
  - rewrite pad_words, Nat2Z.id, u32_small by lia. pose proof (length_nop_words (Z.of_nat m)).
    destruct pad; [rewrite length_replicate; lia|]. rewrite length_app. split; [lia|].
    intros Hh. discriminate Hpad; [done|lia].
Qed.

(** Room for a reservation where nothing is unread. *)
Lemma drained_room (B : nat) o offset pad :
  reserve h (4 * Z.of_nat B) (space_required o) = (offset, pad) -> fits h (Submit o) ->
  concat (op_packets o) <> [] ->
  let ws := claimed_words offset pad o in
  4 * Z.of_nat (B + length ws) < 18446744073709551616 ->
  new_index (4 * Z.of_nat B) offset pad (space_required o) = 4 * Z.of_nat (B + length ws) /\
  4 * Z.of_nat (length ws) < SDMA_QUEUE_SIZE.
Proof.
  intros Hr Hfit Hne ws Hb. destruct (claimed_small _ _ _ _ Hr Hne) as [Hws Hhost]. fold ws in Hws, Hhost.
  destruct (claim_new_index _ _ _ _ _ Hr Hne) as [Hnew _]; [fold ws; lia|].
  split; [exact Hnew|]. unfold cmd_words in *. change SDMA_QUEUE_SIZE with (4 * RING_WORDS).
  cbn [fits] in Hfit. destruct h; [lia|specialize (Hhost eq_refl); lia].
Qed.

(** A step of one producer that leaves memory alone. *)
Lemma local_step s i t t' :
  drained s -> bounded s -> sy_producers s !! i = Some t ->
  producer_step h i (sy_queue s) t = Some (sy_queue s, t', []) ->
  sys_step h s (put_producer s (sy_queue s) i t') /\ drained (put_producer s (sy_queue s) i t').
Proof.
  intros [H Hd] Hb Hi Hp. pose proof (quiet_step s i t _ t' Hi Hp) as Hs. split; [done|]. split; [|done].
  apply (step_count s _ (length (sy_claims s))); try done. exact (ro_committed _ _ _ H).
Qed.

Section Reserving.
Context (o : sdma_op) (rest : list command) (i : nat).
Context (Hfit : fits h (Submit o)) (Hne : concat (op_packets o) <> []).

(** The next reservation for [o] stays in the address range. *)
Definition affords (s : system) : Prop :=
  let L := length (stream (sy_claims s)) in
  let (offset, pad) := reserve h (4 * Z.of_nat L) (space_required o) in
  4 * Z.of_nat (L + length (claimed_words offset pad o)) < 18446744073709551616.

Lemma affords_bounded s : affords s -> bounded s.
Proof. unfold affords, bounded. destruct (reserve _ _ _). lia. Qed.

(** [s'] is [s] with producer [i] about to swap. *)
Definition swapping (s s' : system) : Prop :=
  exists t offset pad, s' = put_producer s (sy_queue s) i t /\ drained s' /\
    th_todo t = Submit o :: rest /\ th_phase t = Swap (q_cachedWptr (sy_queue s)) offset pad /\
    reserve h (q_cachedWptr (sy_queue s)) (space_required o) = (offset, pad).

Lemma idle_to_swap s t :
  drained s -> affords s -> sy_producers s !! i = Some t -> th_todo t = Submit o :: rest ->
  th_phase t = Idle -> exists s', rtc (sys_step h) s s' /\ swapping s s'.
Proof.
  intros Hd Haf Hi Htodo Hph. pose proof (affords_bounded s Haf) as Hb.
  destruct (reserve h (q_cachedWptr (sy_queue s)) (space_required o)) as [offset pad] eqn:Er.
  set (t1 := at_phase (Test (q_cachedWptr (sy_queue s)) offset pad) t).
  destruct (local_step s i t t1 Hd Hb Hi) as [Hs1 Hd1].
  { unfold producer_step. by rewrite Htodo, Hph, Er. }
  pose proof Hd as [H Hdr].
  assert (u64 (new_index (q_cachedWptr (sy_queue s)) offset pad (space_required o) - q_rptr (sy_queue s))
    < SDMA_QUEUE_SIZE) as Hroom.
  { rewrite Hdr. unfold affords in Haf. rewrite (ro_cached _ _ _ H) in Er |- *. rewrite Er in Haf.
    destruct (drained_room _ _ _ _ Er Hfit Hne Haf) as (-> & Hlt). rewrite u64_small by lia. lia. }
  destruct (CanWriteUpto (sy_queue s) (new_index (q_cachedWptr (sy_queue s)) offset pad (space_required o))
    (only_if (op_reserve_state o) (th_state t))) as [room st'] eqn:Ecan.
  pose proof (can_write_room _ _ _ _ _ Hroom Ecan) as ->.
  set (t2 := {| th_phase := Swap (q_cachedWptr (sy_queue s)) offset pad; th_todo := th_todo t;
                th_state := put_state (op_reserve_state o) st' (th_state t) |}).
  destruct (local_step (put_producer s (sy_queue s) i t1) i t1 t2 Hd1 Hb) as [Hs2 Hd2].
  { cbn. by rewrite list_lookup_insert_eq by (by eapply lookup_lt_Some). }
  { unfold producer_step. cbn [th_todo th_phase th_state t1 at_phase sy_queue put_producer].
    rewrite Htodo, Ecan. unfold t2. by rewrite Htodo. }
  cbn [sy_queue put_producer] in Hs2, Hd2. rewrite put_put in Hs2, Hd2.
  eexists. split; [by eapply rtc_l; [exact Hs1|apply rtc_once]|]. by exists t2, offset, pad.
Qed.

Lemma swapping_over s t s' : swapping (put_producer s (sy_queue s) i t) s' -> swapping s s'.
Proof.
  intros (t' & offset & pad & -> & Hd & Htodo & Hph & Er). exists t', offset, pad.
  cbn [sy_queue put_producer] in *. by rewrite put_put in *.
Qed.

Lemma idle_again s t t' :
  drained s -> affords s -> sy_producers s !! i = Some t -> th_todo t' = Submit o :: rest ->
  th_phase t' = Idle -> producer_step h i (sy_queue s) t = Some (sy_queue s, t', []) ->
  exists s', rtc (sys_step h) s s' /\ swapping s s'.
Proof.
  intros Hd Haf Hi Htodo Hph Hp.
  destruct (local_step s i t t' Hd (affords_bounded s Haf) Hi Hp) as [Hs1 Hd1].
  destruct (idle_to_swap (put_producer s (sy_queue s) i t') t') as (s' & Hs & Hsw); try done.
  { cbn. by rewrite list_lookup_insert_eq by (by eapply lookup_lt_Some). }
  exists s'. split; [by eapply rtc_l|]. by apply (swapping_over s t').
Qed.

(** An attempt whose test has passed, perhaps long ago. *)
Lemma swap_to_swap s t cur offset pad :
  drained s -> affords s -> sy_producers s !! i = Some t -> th_todo t = Submit o :: rest ->
  th_phase t = Swap cur offset pad -> exists s', rtc (sys_step h) s s' /\ swapping s s'.
Proof.
  intros Hd Haf Hi Htodo Hph. pose proof Hd as [H _].
  pose proof (po_phase _ _ _ _ _ _ _ (ro_producers _ _ _ H i t Hi)) as Hp.
  unfold phase_ok in Hp. rewrite Hph in Hp. destruct Hp as (o' & rest' & hw & E & Er & _).
  rewrite Htodo in E. injection E as <- <-.
  destruct (Z.eqb_spec (q_cachedWptr (sy_queue s)) cur) as [<-|Hcur].
  - exists s. split; [done|]. exists t, offset, pad. split; [|done].
    destruct s. unfold put_producer. cbn in *. by rewrite list_insert_id.
  - apply (idle_again s t (at_phase Idle t)); try done.
    unfold producer_step. rewrite Htodo, Hph. by rewrite (proj2 (Z.eqb_neq _ _)).
Qed.

(** Whatever attempt was under way. *)
Lemma to_swap s t :
  drained s -> affords s -> sy_producers s !! i = Some t -> th_todo t = Submit o :: rest ->
  exists s', rtc (sys_step h) s s' /\ swapping s s'.
Proof.
  intros Hd Haf Hi Htodo. pose proof Hd as [H _].
  pose proof (all_submitted_idle s i t H Hi) as Hnone.
  pose proof (po_phase _ _ _ _ _ _ _ (ro_producers _ _ _ H i t Hi)) as Hp. unfold phase_ok in Hp.
  destruct (th_phase t) as [|cur offset pad|cur offset pad| | | | |] eqn:Hph; try done.
  - by apply (idle_to_swap s t).
  - destruct (CanWriteUpto (sy_queue s) (new_index cur offset pad (space_required o))
      (only_if (op_reserve_state o) (th_state t))) as [room st'] eqn:Ecan.
    set (t1 := {| th_phase := if room then Swap cur offset pad else Idle; th_todo := th_todo t;
                  th_state := put_state (op_reserve_state o) st' (th_state t) |}).
    assert (producer_step h i (sy_queue s) t = Some (sy_queue s, t1, [])) as Hstep.
    { unfold producer_step. rewrite Htodo, Hph, Ecan. unfold t1. by rewrite Htodo. }
    destruct room; [|by apply (idle_again s t t1)].
    destruct (local_step s i t t1 Hd (affords_bounded s Haf) Hi Hstep) as [Hs1 Hd1].
    destruct (swap_to_swap (put_producer s (sy_queue s) i t1) t1 cur offset pad) as (s' & Hs & Hsw);
      try done.
    { cbn. by rewrite list_lookup_insert_eq by (by eapply lookup_lt_Some). }
    exists s'. split; [by eapply rtc_l|]. by apply (swapping_over s t1).
  - by apply (swap_to_swap s t cur offset pad).
  - destruct Hp as (rest' & E & _). congruence.
Qed.

(** ** One reservation, submitted and read *)

(** What [i] has done when its attempt is over: the padding or the operation
    is reserved, submitted and read. *)
Definition served (s s' : system) (offset : Z) (pad : bool) : Prop :=
  exists t, sy_producers s' = <[i := t]> (sy_producers s) /\ drained s' /\
    th_todo t = (if pad then Submit o :: rest else rest) /\
    sy_claims s' = sy_claims s ++ [claim_of i offset pad o].

Lemma attempt s t :
  drained s -> affords s -> sy_producers s !! i = Some t -> th_todo t = Submit o :: rest ->
  exists s' offset pad, rtc (sys_step h) s s' /\ served s s' offset pad /\
    reserve h (4 * Z.of_nat (length (stream (sy_claims s)))) (space_required o) = (offset, pad).
Proof.
  intros Hd Haf Hi Htodo. destruct (to_swap s t Hd Haf Hi Htodo) as (s1 & Hs1 & Hsw).
  destruct Hsw as (t1 & offset & pad & -> & [H1 Hdr1] & Htodo1 & Hph1 & Er).
  pose proof Hd as [H Hdr]. rewrite (ro_cached _ _ _ H) in Er.
  set (s1 := put_producer s (sy_queue s) i t1) in *.
  assert (sy_producers s1 !! i = Some t1) as Hi1
    by (cbn; by rewrite list_lookup_insert_eq by (by eapply lookup_lt_Some)).
  change (sy_queue s) with (sy_queue s1) in Hph1.
  destruct (claim_stores (q_cachedWptr (sy_queue s1)) offset pad o) as [stores e] eqn:Est.
  pose proof (claim_ok h s1 _ i t1 offset pad o rest stores e H1 Hi1 Hph1 Htodo1 Est) as Hok2.
  set (t2 := at_phase (Place (q_cachedWptr (sy_queue s1)) e pad stores) t1) in *.
  set (s2 := advance s1 _ i t2 _) in Hok2. cbv zeta in Hok2.
  assert (length (stream (sy_claims s2))
    = length (stream (sy_claims s)) + length (claimed_words offset pad o))%nat as Hlen2
    by (cbn [s2 advance sy_claims]; by rewrite stream_app, stream_one, length_app).
  assert (bounded s2) as Hb2 by (unfold bounded, affords in *; rewrite Er in Haf; by rewrite Hlen2).
  specialize (Hok2 Hb2).
  assert (sys_step h s1 s2) as Hs2.
  { apply (step_producer h s1 i t1); [done|]. unfold producer_step.
    by rewrite Htodo1, Hph1, Z.eqb_refl, Est. }
  assert (sy_producers s2 !! i = Some t2) as Hi2
    by (cbn; rewrite list_insert_insert_eq; by rewrite list_lookup_insert_eq by (by eapply lookup_lt_Some)).
  destruct (finish_turn s2 _ i t2 (q_cachedWptr (sy_queue s1)) e pad stores Hok2 Hb2 Hi2 eq_refl)
    as (q3 & t3 & Hs3 & _ & Hok3 & _ & Htodo3).
  { cbn [s2 advance sy_claims]. rewrite base_app, base_total by done. exact (ro_cached _ _ _ H). }
  set (s3 := put_producer s2 q3 i t3) in *.
  assert (S (length (sy_claims s)) = length (sy_claims s3)) as Hn3
    by (cbn; rewrite length_app; cbn; lia).
  change (length (sy_claims s1)) with (length (sy_claims s)) in Hok3. rewrite Hn3 in Hok3.
  destruct (drain s3 Hok3 Hb2) as (s4 & Hs4 & Hd4 & Hp4 & Hcl4).
  exists s4, offset, pad. split; [|split; [|done]].
  { etransitivity; [exact Hs1|]. eapply rtc_l; [exact Hs2|]. by etransitivity. }
  exists t3. split_and!; [|done| |by rewrite Hcl4].
  - rewrite Hp4. cbn. by rewrite !list_insert_insert_eq.
  - rewrite Htodo3. cbn [th_todo t2 at_phase]. rewrite Htodo1. by destruct pad.
Qed.

(** After the host's padding, the next attempt starts at the ring's start. *)
Lemma padded_next (B : nat) offset offset' pad' :
  reserve h (4 * Z.of_nat B) (space_required o) = (offset, true) ->
  reserve h (4 * Z.of_nat (B + length (claimed_words offset true o))) (space_required o) = (offset', pad') ->
  pad' = false /\
  (length (claimed_words offset true o) + length (claimed_words offset' pad' o) <= cmd_words (Submit o))%nat.
Proof.
  intros Er Er'. assert (Z.of_nat (length (concat (op_packets o))) <= RING_WORDS) as Hsize
    by (cbn [fits] in Hfit; destruct h; lia).
  unfold claimed_words, space_required, cmd_words in *.
  destruct (reserve_cases _ _ _ _ _ Er) as [(-> & E & _)|(m & -> & Hm0 & Hm32 & Hmod & Hmn)]; [done|].
  rewrite pad_words, Nat2Z.id, length_replicate in Er' |- *.
  assert (Z.of_nat (B + m) mod RING_WORDS = 0) as H0 by (clear -Hmod; ring_lia).
  destruct (reserve_cases _ _ _ _ _ Er') as [(-> & -> & _)|(m' & -> & _ & _ & Hmod' & Hmn')]; [|lia].
  split; [done|]. change (nop_words (u32 (0 / 4))) with (@nil Z). cbn [app]. lia.
Qed.

Lemma one_operation s t :
  drained s -> sy_producers s !! i = Some t -> th_todo t = Submit o :: rest ->
  4 * Z.of_nat (length (stream (sy_claims s)) + cmd_words (Submit o)) < 18446744073709551616 ->
  exists s' t', rtc (sys_step h) s s' /\ drained s' /\ sy_producers s' = <[i := t']> (sy_producers s) /\
    th_todo t' = rest /\
    (length (stream (sy_claims s')) <= length (stream (sy_claims s)) + cmd_words (Submit o))%nat.
Proof.
  intros Hd Hi Htodo Hb.
  assert (affords s) as Haf.
  { unfold affords. destruct (reserve _ _ _) as [offset pad] eqn:Er.
    destruct (claimed_small _ _ _ _ Er Hne). lia. }
  destruct (attempt s t Hd Haf Hi Htodo) as (s1 & offset & pad & Hs1 & (t1 & Hp1 & Hd1 & Htodo1 & Hcl1) & Er).
  destruct (claimed_small _ _ _ _ Er Hne) as [Hlen _].
  assert (length (stream (sy_claims s1))
    = (length (stream (sy_claims s)) + length (claimed_words offset pad o))%nat) as Hlen1
    by (by rewrite Hcl1, stream_app, stream_one, length_app).
  destruct pad.
  2: { exists s1, t1. split_and!; try done. lia. }
  assert (sy_producers s1 !! i = Some t1) as Hi1
    by (rewrite Hp1; by rewrite list_lookup_insert_eq by (by eapply lookup_lt_Some)).
  assert (forall offset' pad',
    reserve h (4 * Z.of_nat (length (stream (sy_claims s1)))) (space_required o) = (offset', pad') ->
    pad' = false /\
    (length (stream (sy_claims s1)) + length (claimed_words offset' pad' o)
      <= length (stream (sy_claims s)) + cmd_words (Submit o))%nat) as Hnext.
  { rewrite Hlen1. intros offset' pad' Er'. destruct (padded_next _ _ _ _ Er Er') as [-> Hle].
    split; [done|]. lia. }
  assert (affords s1) as Haf1.
  { unfold affords. destruct (reserve _ (4 * Z.of_nat (length (stream (sy_claims s1)))) _)
      as [offset' pad'] eqn:Er'.
    destruct (Hnext _ _ eq_refl). lia. }
  destruct (attempt s1 t1 Hd1 Haf1 Hi1 Htodo1)
    as (s2 & offset' & pad' & Hs2 & (t2 & Hp2 & Hd2 & Htodo2 & Hcl2) & Er').
  destruct (Hnext _ _ Er') as [-> Hle].
  exists s2, t2. split_and!; [by etransitivity|done| |done|].
  - by rewrite Hp2, Hp1, list_insert_insert_eq.
  - by rewrite Hcl2, stream_app, stream_one, length_app.
Qed.
End Reserving.

(** ** Waiting *)

(** Nobody waits for more than has been reserved. *)
Definition target_ok (L : Z) (t : producer) : Prop :=
  (forall target, th_phase t = Polling target -> target <= L) /\
  forall st, th_state t = Some st -> maxWritePtr st <= L.
Definition targets_ok (s : system) : Prop :=
  forall i t, sy_producers s !! i = Some t -> target_ok (q_cachedWptr (sy_queue s)) t.

Lemma target_mono L L' t : target_ok L t -> L <= L' -> target_ok L' t.
Proof.
  intros [H1 H2] Hle. split; [intros target E; specialize (H1 target E); lia|].
  intros st E. specialize (H2 st E). lia.
Qed.

Lemma target_bound s c i t :
  ring_ok h s c -> targets_ok s -> sy_producers s !! i = Some t ->
  quiet_target h (sy_queue s) (th_state t) <= q_cachedWptr (sy_queue s).
Proof.
  intros H Ht Hi. rewrite (ro_cached _ _ _ H).
  assert (forall k, 4 * Z.of_nat (base_of (sy_claims s) k) <= 4 * Z.of_nat (length (stream (sy_claims s)))) as Hle
    by (intros k; pose proof (base_bound (sy_claims s) k); lia).
  unfold quiet_target. destruct h; [destruct (th_state t) as [st|] eqn:Est|].
  - rewrite <- (ro_cached _ _ _ H). by apply (Ht i t Hi).
  - destruct (ro_wptr _ _ _ H) as [->|(j & u & Hj & Hu)]; [done|].
    destruct (late_turn _ s c H j u Hj Hu) as (? & ? & ? & ? & _ & _ & _ & -> & _). done.
  - rewrite (ro_committed _ _ _ H). done.
Qed.

Lemma target_local L t t' :
  target_ok L t -> (forall target, th_phase t' = Polling target -> target <= L) ->
  (forall st', th_state t' = Some st' -> exists st, th_state t = Some st /\ maxWritePtr st' = maxWritePtr st) ->
  target_ok L t'.
Proof.
  intros [_ H2] Hp Hs. split; [done|]. intros st' E. destruct (Hs st' E) as (st & Est & ->). by apply H2.
Qed.

Lemma target_step s c i t q' t' cls :
  ring_ok h s c -> targets_ok s -> sy_producers s !! i = Some t ->
  producer_step h i (sy_queue s) t = Some (q', t', cls) ->
  q_cachedWptr (sy_queue s) <= q_cachedWptr q' -> target_ok (q_cachedWptr q') t'.
Proof.
  intros H Ht Hi Hp Hle. pose proof (Ht i t Hi) as Hti.
  pose proof (target_bound s c i t H Ht Hi) as Hq.
  apply (target_mono (q_cachedWptr (sy_queue s))); [|done]. clear Hle.
  assert (forall st', th_state t = Some st' ->
    exists st, th_state t = Some st /\ maxWritePtr st' = maxWritePtr st) as Hsame by eauto.
  unfold producer_step in Hp. destruct (th_todo t) as [|[o|] rest] eqn:Htodo; [done| |].
  - destruct (th_phase t) as [|cur offset pad|cur offset pad|b e pad [|[j v] st]|b e pad|b e pad|b e pad|target] eqn:Eph;
      try (injection Hp as <- <- <-; by apply (target_local _ t)).
    + destruct (reserve _ _ _) as [offset pad]. injection Hp as <- <- <-. by apply (target_local _ t).
    + destruct (CanWriteUpto _ _ _) as [room st'] eqn:Ecan. injection Hp as <- <- <-.
      apply (target_local _ t); [done|by destruct room|]. cbn [th_state]. unfold put_state.
      destruct (op_reserve_state o); [|done]. intros x Ex.
      destruct (can_write _ _ _ _ _ Ecan) as [_ Hst]. destruct (Hst x Ex) as (y & Hy & Hm & _). eauto.
    + destruct (q_cachedWptr (sy_queue s) =? cur).
      * destruct (claim_stores _ _ _ _) as [stores e]. injection Hp as <- <- <-. by apply (target_local _ t).
      * injection Hp as <- <- <-. by apply (target_local _ t).
    + injection Hp as <- <- <-. destruct (_ =? _); by apply (target_local _ t); [|rewrite ?Eph|].
    + injection Hp as <- <- <-. destruct pad; [by apply (target_local _ t)|].
      split; [done|]. intros x Ex. cbn [th_state] in Ex. unfold track in Ex.
      destruct (th_state t) as [st|] eqn:Est; [|done]. injection Ex as <-.
      destruct (op_submit_state o); [|by apply Hti]. cbn [maxWritePtr].
      destruct (holding_owns s c i t b e false [] H Hi) as (k & cl & ? & ? & ? & _ & _ & _ & _ & -> & _);
        [by rewrite Eph|].
      rewrite (ro_cached _ _ _ H). pose proof (base_bound (sy_claims s) (S k)). lia.
    + destruct (reserve _ _ _) as [offset pad]. injection Hp as <- <- <-. by apply (target_local _ t).
  - destruct (th_phase t) eqn:Eph;
      try (injection Hp as <- <- <-; apply (target_local _ t); [done| |done]; by intros ? [= <-]).
    destruct (quiet_over _ _ _); injection Hp as <- <- <-; [by apply (target_local _ t)|exact Hti].
Qed.

Lemma targets_step s s' c :
  ring_ok h s c -> sys_step h s s' -> bounded s' -> targets_ok s -> targets_ok s'.
Proof.
  intros H Hs Hb Ht. destruct (step_ok _ _ _ _ H Hs Hb) as (c' & _ & H').
  assert (q_cachedWptr (sy_queue s) <= q_cachedWptr (sy_queue s')) as Hle.
  { rewrite (ro_cached _ _ _ H), (ro_cached _ _ _ H'). destruct (step_claims _ _ _ Hs) as [x ->].
    rewrite stream_app, length_app. lia. }
  unfold targets_ok. destruct Hs as [s i t q' t' cls Hi Hp|s i t cur off pad Hh Hi Hph|s Hne];
    cbn [sy_queue sy_producers] in *; [| |exact Ht].
  - apply (upd_forall _ _ _ (fun _ u => target_ok (q_cachedWptr q') u)); [by apply (target_step s c i t _ _ cls)|].
    intros j u _ Hu. apply (target_mono _ _ _ (Ht j u Hu) Hle).
  - apply (upd_forall _ _ _ (fun _ u => target_ok (q_cachedWptr (sy_queue s)) u)); [|intros j u _; apply Ht].
    destruct (Ht i t Hi) as [_ H2]. by split.
Qed.

Lemma targets_steps s s' c :
  rtc (sys_step h) s s' -> ring_ok h s c -> bounded s' -> targets_ok s -> targets_ok s'.
Proof.
  intros Hs. revert c. induction Hs as [|a b d Hab Hbd IH]; [done|]. intros c Hc Hb Ht.
  pose proof (bounded_steps _ _ _ Hbd Hb) as Hb2.
  destruct (step_ok _ _ _ _ Hc Hab Hb2) as (c' & _ & Hc').
  apply (IH c'); [done|done|]. by apply (targets_step a b c).
Qed.

(** A device's wait ends when the ring is drained. *)
Lemma one_wait s i t rest :
  h = Device -> drained s -> bounded s -> targets_ok s -> sy_producers s !! i = Some t ->
  th_todo t = Quiet :: rest ->
  exists s' t', rtc (sys_step h) s s' /\ drained s' /\ sy_producers s' = <[i := t']> (sy_producers s) /\
    th_todo t' = rest /\ sy_claims s' = sy_claims s.
Proof.
  intros Hdev Hd Hb Ht Hi Htodo. pose proof Hd as [H Hdr].
  assert (forall s t target, drained s -> bounded s -> sy_producers s !! i = Some t ->
    th_todo t = Quiet :: rest -> th_phase t = Polling target -> target <= q_rptr (sy_queue s) ->
    exists t', th_todo t' = rest /\ sys_step h s (put_producer s (sy_queue s) i t') /\
      drained (put_producer s (sy_queue s) i t')) as Hover.
  { clear -Hdev. intros s t target Hd Hb Hi Htodo Hph Hle.
    exists {| th_phase := Idle; th_todo := rest; th_state := th_state t |}. split; [done|].
    apply (local_step s i t); [done..|]. unfold producer_step. rewrite Htodo, Hph. rewrite Hdev.
    cbn [quiet_over]. by rewrite (proj2 (Z.ltb_ge _ _)) by lia. }
  assert ((exists target, th_phase t = Polling target) \/
    producer_step h i (sy_queue s) t
      = Some (sy_queue s, at_phase (Polling (quiet_target h (sy_queue s) (th_state t))) t, [])) as Hcase.
  { unfold producer_step. rewrite Htodo. destruct (th_phase t); eauto. }
  destruct Hcase as [[target Hph]|Hstep].
  - destruct (Hover s t target Hd Hb Hi Htodo Hph) as (t' & Htodo' & Hs & Hd');
      [rewrite Hdr; by apply (Ht i t Hi)|].
    eexists _, t'. split; [by apply rtc_once|]. by split_and!.
  - destruct (local_step s i t _ Hd Hb Hi Hstep) as [Hs1 Hd1].
    set (t1 := at_phase _ t) in *. set (s1 := put_producer s (sy_queue s) i t1) in *.
    destruct (Hover s1 t1 (quiet_target h (sy_queue s) (th_state t)) Hd1 Hb) as (t' & Htodo' & Hs & Hd');
      [|done|done| |].
    { cbn. by rewrite list_lookup_insert_eq by (by eapply lookup_lt_Some). }
    { cbn [s1 put_producer sy_queue]. rewrite Hdr. by apply (target_bound s _ i t H). }
    eexists _, t'. split; [by eapply rtc_l; [exact Hs1|apply rtc_once]|]. split; [done|].
    split; [cbn; by rewrite list_insert_insert_eq|done].
Qed.

(** ** Completion *)

(** Everything that may still be reserved stays in the address range. *)
Definition budget (s : system) : Prop :=
  4 * Z.of_nat (length (stream (sy_claims s)) + todo_words s) < 18446744073709551616.

Lemma one_command s :
  drained s -> targets_ok s -> all_fit h s -> budget s -> todo_count s <> 0%nat ->
  exists s', rtc (sys_step h) s s' /\ drained s' /\ all_fit h s' /\ budget s' /\
    (todo_count s' < todo_count s)%nat.
Proof.
  intros Hd Ht Hfit Hb Hn. pose proof Hd as [H _]. unfold budget in Hb.
  assert (exists i t c rest, sy_producers s !! i = Some t /\ th_todo t = c :: rest) as (i & t & c & rest & Hi & Htodo).
  { unfold todo_count in Hn. induction (sy_producers s) as [|u l IH]; [done|]. cbn in Hn.
    destruct (th_todo u) as [|c rest] eqn:E; [|by exists 0%nat, u, c, rest].
    destruct IH as (i & t & c & rest & ? & ?); [done|]. by exists (S i), t, c, rest. }
  assert (cmd_words c + sum_list_with cmd_words rest <= todo_words s)%nat as Hw.
  { unfold todo_words. rewrite <- (take_drop_middle _ _ _ Hi), sum_list_with_app. cbn. rewrite Htodo. cbn. lia. }
  assert (exists s' t', rtc (sys_step h) s s' /\ drained s' /\
    sy_producers s' = <[i := t']> (sy_producers s) /\ th_todo t' = rest /\
    (length (stream (sy_claims s')) <= length (stream (sy_claims s)) + cmd_words c)%nat)
    as (s' & t' & Hs & Hd' & Hp & Htodo' & Hlen).
  { pose proof (Forall_lookup_1 _ _ _ _ Hfit Hi) as Hf. cbn beta in Hf. rewrite Htodo in Hf.
    destruct c as [o|].
    - apply (one_operation o rest i (Forall_inv Hf)) with (t := t); try done; [|lia].
      pose proof (po_todo _ _ _ _ _ _ _ (ro_producers _ _ _ H i t Hi)) as Hc. rewrite Htodo in Hc.
      exact (Forall_inv Hc).
    - destruct (one_wait s i t rest (Forall_inv Hf) Hd) as (s' & t' & Hs & Hd' & Hp & Htodo' & Hcl);
        try done; [unfold bounded; lia|].
      exists s', t'. rewrite Hcl. split_and!; try done. lia. }
  exists s'. split; [done|]. split; [done|].
  unfold all_fit, budget, todo_words, todo_count. rewrite Hp. split_and!.
  - apply Forall_insert; [exact Hfit|]. rewrite Htodo'.
    pose proof (Forall_lookup_1 _ _ _ _ Hfit Hi) as Hf. cbn beta in Hf. rewrite Htodo in Hf.
    exact (Forall_inv_tail Hf).
  - pose proof (sum_insert (fun t => sum_list_with cmd_words (th_todo t)) _ _ t t' Hi) as E.
    cbn beta in E. rewrite Htodo, Htodo' in E. cbn [sum_list_with] in E. unfold todo_words in Hb. lia.
  - pose proof (sum_insert (fun t => length (th_todo t)) _ _ t t' Hi) as E.
    cbn beta in E. rewrite Htodo, Htodo' in E. cbn [length] in E. lia.
Qed.

Lemma run_dry s :
  drained s -> targets_ok s -> all_fit h s -> budget s ->
  exists s', rtc (sys_step h) s s' /\ drained s' /\ bounded s' /\ todo_count s' = 0%nat.
Proof.
  remember (todo_count s) as n eqn:En. revert s En.
  induction n as [n IH] using (well_founded_induction lt_wf). intros s En Hd Ht Hfit Hb.
  assert (bounded s) as Hbd by (unfold budget, bounded in *; lia).
  destruct (decide (todo_count s = 0%nat)) as [E|Hne]; [by exists s|].
  destruct (one_command s Hd Ht Hfit Hb Hne) as (s1 & Hs1 & Hd1 & Hfit1 & Hb1 & Hlt).
  assert (targets_ok s1) as Ht1.
  { destruct Hd as [H _]. apply (targets_steps s s1 _ Hs1 H); [|done]. unfold budget, bounded in *; lia. }
  destruct (IH (todo_count s1) ltac:(lia) s1 eq_refl Hd1 Ht1 Hfit1 Hb1) as (s2 & Hs2 & Hrest).
  exists s2. split; [by etransitivity|done].
Qed.
End Live.

(** Programs get shorter along every step. *)
Lemma shrinks_step h s s' : sys_step h s s' -> shrinks s s'.
Proof.
  intros Hs. destruct Hs as [s i t q' t' cls Hi Hp|s i t cur off pad Hh Hi Hph|s Hne].
  - apply (shrinks_put s q' i t t' Hi). unfold producer_step in Hp.
    destruct (th_todo t) as [|[o|] rest] eqn:Htodo; [done| |].
    + repeat case_match; simplify_eq/=; rewrite ?Htodo; try done; by exists [Submit o].
    + repeat case_match; simplify_eq/=; rewrite ?Htodo; try done; by exists [Quiet].
  - by apply (shrinks_put s (sy_queue s) i t).
  - exact (shrinks_refl s).
Qed.

Lemma shrinks_steps h s s' : rtc (sys_step h) s s' -> shrinks s s'.
Proof.
  induction 1 as [s|a b d Hab _ IH]; [apply shrinks_refl|].
  eapply shrinks_trans; [by apply (shrinks_step h a b)|done].
Qed.

Definition program_fits (h : handle) (p : program) : Prop :=
  Forall (fits h) (fst p) /\ forall st, snd p = Some st -> maxWritePtr st = 0.

Lemma start_fits h programs :
  Forall (program_fits h) programs -> all_fit h (start programs) /\ targets_ok (start programs).
Proof.
  intros Hp. split.
  - apply Forall_lookup_2. intros i t Hi. cbn in Hi. rewrite list_lookup_fmap in Hi.
    destruct (programs !! i) as [p|] eqn:E; [|done]. injection Hi as <-.
    exact (proj1 (Forall_lookup_1 _ _ _ _ Hp E)).
  - intros i t Hi. cbn in Hi. rewrite list_lookup_fmap in Hi.
    destruct (programs !! i) as [p|] eqn:E; [|done]. injection Hi as <-.
    split; [done|]. cbn. intros st Est. by rewrite (proj2 (Forall_lookup_1 _ _ _ _ Hp E) st Est).
Qed.

(** From any reachable state the system can run dry. *)
Lemma completes h programs s :
  reachable h programs s -> Forall program_ok programs -> Forall (program_fits h) programs -> budget s ->
  exists s', rtc (sys_step h) s s' /\ drained h s' /\ bounded s' /\ todo_count s' = 0%nat.
Proof.
  intros Hr Hp Hf Hb. destruct (start_fits h programs Hf) as [Hfit0 Ht0].
  assert (bounded s) as Hbd by (unfold budget, bounded in *; lia).
  destruct (reachable_ok h programs s Hr Hp Hbd) as [c H].
  pose proof (shrinks_fit _ _ _ (shrinks_steps _ _ _ Hr) Hfit0) as Hfit.
  pose proof (targets_steps h _ _ 0 Hr (start_ok h _ Hp) Hbd Ht0) as Ht.
  destruct (finish_all h s c H Hbd) as (s1 & Hs1 & Hcl1 & H1 & Hsh1).
  assert (bounded s1) as Hbd1 by (unfold bounded; by rewrite Hcl1).
  destruct (drain h s1 H1 Hbd1) as (s2 & Hs2 & Hd2 & Hp2 & Hcl2).
  assert (rtc (sys_step h) s s2) as Hs by (by etransitivity).
  pose proof (shrinks_steps _ _ _ Hs) as Hsh.
  assert (budget s2) as Hb2.
  { unfold budget. rewrite Hcl2, Hcl1. pose proof (shrinks_words _ _ Hsh). unfold budget in Hb. lia. }
  assert (targets_ok s2) as Ht2.
  { apply (targets_steps h s s2 c Hs H); [|done]. unfold bounded. by rewrite Hcl2, Hcl1. }
  destruct (run_dry h s2 Hd2 Ht2 (shrinks_fit _ _ _ Hsh Hfit) Hb2) as (s3 & Hs3 & Hrest).
  exists s3. split; [by etransitivity|done].
Qed.
