(* ===== verification/SdmaOps.v ===== *)
(** * SDMA operations

    The calls of the two handles, each as the operation it submits: the
    device's composite operations ([sdma_device.hpp]) and the host's, with
    the validation of their arguments ([sdma-host-queue.hip]). *)

From S2P Require Import Prelude SdmaLayout SdmaPacket SdmaQueue SdmaRing SdmaLive.

#[local] Open Scope string_scope.
#[local] Open Scope list_scope.
#[local] Open Scope Z_scope.

(** ** The device's operations *)

(** [sizeof] of a structure. *)
Definition sizeof_layout (L : layout) : Z := 4 * Z.of_nat (length L).

(** What [put_signal_counter_impl] reserves. *)
Definition composite_space (oss7 PUT_EN SIGNAL_EN COUNTER_EN : bool) : Z :=
  if oss7 && PUT_EN && (SIGNAL_EN || COUNTER_EN) then
    let both := SIGNAL_EN && COUNTER_EN in
    sizeof_layout SDMA_PKT_COPY_LINEAR_WAIT_SIGNAL_MI4
    + (if both then sizeof_layout SDMA_PKT_ATOMIC else 0)
  else
    (if PUT_EN then sizeof_layout SDMA_PKT_COPY_LINEAR else 0)
    + (if SIGNAL_EN then sizeof_layout SDMA_PKT_ATOMIC else 0)
    + (if COUNTER_EN then sizeof_layout SDMA_PKT_ATOMIC else 0).

(** [state]: the caller passes one.  The fused path reserves without it. *)
Definition put_signal_counter_impl (oss7 PUT_EN SIGNAL_EN COUNTER_EN : bool)
    (dst src : ptr) (size : Z) (signal counter : ptr) (state : bool) : option sdma_op :=
  packets ← put_signal_counter_packets oss7 PUT_EN SIGNAL_EN COUNTER_EN dst src size signal counter;
  Some {| op_packets := packets;
          op_reserve_state := state && negb (oss7 && PUT_EN && (SIGNAL_EN || COUNTER_EN));
          op_submit_state := state |}.

Definition put (oss7 : bool) (dst src : ptr) (size : Z) (state : bool) : option sdma_op :=
  put_signal_counter_impl oss7 true false false dst src size NULL NULL state.
Definition signal (oss7 : bool) (signal : ptr) (state : bool) : option sdma_op :=
  put_signal_counter_impl oss7 false true false NULL NULL 0 signal NULL state.
Definition putSignal (oss7 : bool) (dst src : ptr) (size : Z) (signal : ptr) (state : bool)
    : option sdma_op :=
  put_signal_counter_impl oss7 true true false dst src size signal NULL state.
Definition putSignalCounter (oss7 : bool) (dst src : ptr) (size : Z) (signal counter : ptr)
    (state : bool) : option sdma_op :=
  put_signal_counter_impl oss7 true true true dst src size signal counter state.
Definition putCounter (oss7 : bool) (dst src : ptr) (size : Z) (counter : ptr) (state : bool)
    : option sdma_op :=
  put_signal_counter_impl oss7 true false true dst src size NULL counter state.
Definition signalCounter (oss7 : bool) (signal counter : ptr) (state : bool) : option sdma_op :=
  put_signal_counter_impl oss7 false true true NULL NULL 0 signal counter state.

Definition putTile (dst src : ptr) (tileWidth tileHeight srcPitch dstPitch srcX srcY dstX dstY : Z)
    : option sdma_op :=
  pkt ← CreateLargeSubWindowCopyPacket src dst tileWidth tileHeight srcPitch dstPitch
    srcX srcY dstX dstY;
  Some {| op_packets := [pkt]; op_reserve_state := false; op_submit_state := false |}.

(** ** The host's operations

    A call throws [std::invalid_argument], is ended by a failed assertion, or
    hands an operation to the ring ([None]: it returns without one). *)

Inductive invalid_argument :=
| InvalidLinear (fn_name : string) | LinearLimit (fn_name : string)
| InvalidTile (fn_name : string) | StrideTooSmall (fn_name : string) | TileLimits (fn_name : string)
| FlagNull (fn_name : string) | TimestampNull | ArraySizes (fn_name : string)
| BatchTooLarge (total_size : Z).

Inductive host_call (A : Type) := Returns (a : A) | Throws (e : invalid_argument) | Asserts.
Arguments Returns {A} a.
Arguments Throws {A} e.
Arguments Asserts {A}.
#[global] Instance call_ret : MRet host_call := @Returns.
#[global] Instance call_bind : MBind host_call := fun A B f m =>
  match m with Returns a => f a | Throws e => Throws e | Asserts => Asserts end.

(** A builder, whose assertions may fail. *)
Definition built_packet (p : option (list Z)) : host_call (list Z) :=
  match p with Some w => Returns w | None => Asserts end.

Definition kMaxSdmaDword : Z := 4294967295.
Definition kMaxLinearSize : Z := 4294967296.

Definition validate_linear_args (src dst : ptr) (size : Z) (fn_name : string) : host_call unit :=
  if is_null src || is_null dst || (size =? 0) then Throws (InvalidLinear fn_name)
  else if kMaxLinearSize <? size then Throws (LinearLimit fn_name)
  else Returns tt.

Definition build_tile_packet (src_ptr dst_ptr : ptr)
    (data_size tile_height tile_width src_stride dst_stride : Z) (fn_name : string) : host_call (list Z) :=
  if is_null src_ptr || is_null dst_ptr || (data_size =? 0) || (tile_height =? 0) || (tile_width =? 0)
  then Throws (InvalidTile fn_name)
  else if (src_stride <? tile_width) || (dst_stride <? tile_width) then Throws (StrideTooSmall fn_name)
  else if (kMaxSdmaDword <? data_size) || (kMaxSdmaDword / data_size <? tile_width)
       || (kMaxSdmaDword / data_size <? src_stride) || (kMaxSdmaDword / data_size <? dst_stride)
  then Throws (TileLimits fn_name)
  else
    let tile_width_bytes := u64 (tile_width * data_size) in
    let src_pitch := u64 (src_stride * data_size) in
    let dst_pitch := u64 (dst_stride * data_size) in
    if (kMaxSdmaDword <? tile_width_bytes) || (kMaxSdmaDword <? tile_height)
       || (src_pitch =? 0) || (kMaxSdmaDword <? src_pitch)
       || (dst_pitch =? 0) || (kMaxSdmaDword <? dst_pitch)
    then Throws (TileLimits fn_name)
    else built_packet (LargeSubWindowCopyPacket src_ptr dst_ptr (u32 tile_width_bytes)
           (u32 tile_height) (u32 src_pitch) (u32 dst_pitch) 0 0 0 0).

(** [bytes] is [sizeof(T)]. *)
Definition build_atomic_packet (bytes : Z) (p : ptr) (value : Z) (fn_name : string) : host_call (list Z) :=
  if is_null p then Throws (FlagNull fn_name) else built_packet (AtomicAddPacket bytes p value).

Definition build_poll_packet (p : ptr) (expected : Z) (fn_name : string) : host_call (list Z) :=
  if is_null p then Throws (FlagNull fn_name) else built_packet (PollRegmemPacket p expected 10 4095).

Definition kMaxSubmitBytes : Z := SDMA_QUEUE_SIZE - 4.
Definition total_packet_bytes (packets : list (list Z)) : Z :=
  foldl (fun total p => total + 4 * Z.of_nat (length p)) 0 packets.
Definition check_submit_size (total_size : Z) : host_call unit :=
  if kMaxSubmitBytes <? total_size then Throws (BatchTooLarge total_size) else Returns tt.

Definition submit (packets : list (list Z)) : host_call (option sdma_op) :=
  match packets with
  | [] => Returns None
  | _ =>
      _ ← check_submit_size (total_packet_bytes packets);
      Returns (Some {| op_packets := packets; op_reserve_state := false; op_submit_state := false |})
  end.

Definition host_put (dst src : ptr) (size : Z) : host_call (option sdma_op) :=
  _ ← validate_linear_args src dst size "put";
  copy ← built_packet (CopyLinearPacket src dst size);
  submit [copy].

Definition host_signal (bytes : Z) (p : ptr) (value : Z) : host_call (option sdma_op) :=
  atomic ← build_atomic_packet bytes p value "signal"; submit [atomic].

Definition host_timestamp (timestamp_ptr : ptr) : host_call (option sdma_op) :=
  if is_null timestamp_ptr then Throws TimestampNull
  else p ← built_packet (TimestampPacket timestamp_ptr); submit [p].

Definition host_put_signal (bytes : Z) (dst src : ptr) (size : Z) (flag_ptr : ptr) (flag_value : Z)
    : host_call (option sdma_op) :=
  _ ← validate_linear_args src dst size "put_signal";
  copy ← built_packet (CopyLinearPacket src dst size);
  atomic ← build_atomic_packet bytes flag_ptr flag_value "put_signal";
  submit [copy; atomic].

Definition wait_flag_then_put (flag_ptr : ptr) (expected_value : Z) (dst src : ptr) (size : Z)
    : host_call (option sdma_op) :=
  _ ← validate_linear_args src dst size "wait_flag_then_put";
  poll ← build_poll_packet flag_ptr expected_value "wait_flag_then_put";
  copy ← built_packet (CopyLinearPacket src dst size);
  submit [poll; copy].

(** A tile, and the parallel arrays of many. *)
Record tile := { tl_dst : ptr; tl_src : ptr; tl_height : Z; tl_width : Z; tl_src_stride : Z; tl_dst_stride : Z }.
Record tile_arrays := {
  dst_ptrs : list ptr; src_ptrs : list ptr; tile_heights : list Z; tile_widths : list Z;
  src_strides : list Z; dst_strides : list Z
}.

Definition tile_packet (data_size : Z) (fn_name : string) (t : tile) : host_call (list Z) :=
  build_tile_packet (tl_src t) (tl_dst t) data_size (tl_height t) (tl_width t) (tl_src_stride t)
    (tl_dst_stride t) fn_name.

Definition put_tile (data_size : Z) (t : tile) : host_call (option sdma_op) :=
  p ← tile_packet data_size "put_tile" t; submit [p].

Definition put_tile_signal (bytes data_size : Z) (t : tile) (flag_ptr : ptr) (flag_value : Z)
    : host_call (option sdma_op) :=
  p ← tile_packet data_size "put_tile_signal" t;
  atomic ← build_atomic_packet bytes flag_ptr flag_value "put_tile_signal";
  submit [p; atomic].

Definition wait_flag_then_put_tile (flag_ptr : ptr) (expected_value data_size : Z) (t : tile)
    : host_call (option sdma_op) :=
  poll ← build_poll_packet flag_ptr expected_value "wait_flag_then_put_tile";
  p ← tile_packet data_size "wait_flag_then_put_tile" t;
  submit [poll; p].

Definition same_size (a : tile_arrays) : bool :=
  let n := length (src_ptrs a) in
  (n =? length (dst_ptrs a))%nat && (n =? length (tile_heights a))%nat
  && (n =? length (tile_widths a))%nat && (n =? length (src_strides a))%nat
  && (n =? length (dst_strides a))%nat.

(** The element of each array at [i]. *)
Definition tile_at (a : tile_arrays) (i : nat) : tile :=
  {| tl_dst := nth i (dst_ptrs a) 0; tl_src := nth i (src_ptrs a) 0;
     tl_height := nth i (tile_heights a) 0; tl_width := nth i (tile_widths a) 0;
     tl_src_stride := nth i (src_strides a) 0; tl_dst_stride := nth i (dst_strides a) 0 |}.

Definition tile_packets (data_size : Z) (fn_name : string) (a : tile_arrays) : host_call (list (list Z)) :=
  mapM (fun i => tile_packet data_size fn_name (tile_at a i)) (seq 0 (length (src_ptrs a))).

Definition put_tiles (data_size : Z) (a : tile_arrays) : host_call (option sdma_op) :=
  if negb (same_size a) then Throws (ArraySizes "put_tiles")
  else if (length (src_ptrs a) =? 0)%nat then Returns None
  else packets ← tile_packets data_size "put_tiles" a; submit packets.

Definition put_tiles_signal (bytes data_size : Z) (a : tile_arrays) (flag_ptr : ptr) (flag_value : Z)
    : host_call (option sdma_op) :=
  if negb (same_size a) then Throws (ArraySizes "put_tiles_signal")
  else if (length (src_ptrs a) =? 0)%nat then Returns None
  else
    packets ← tile_packets data_size "put_tiles_signal" a;
    atomic ← build_atomic_packet bytes flag_ptr flag_value "put_tiles_signal";
    submit (packets ++ [atomic]).

Definition wait_flag_then_put_tiles (flag_ptr : ptr) (expected_value data_size : Z) (a : tile_arrays)
    : host_call (option sdma_op) :=
  if (length (src_ptrs a) =? 0)%nat || negb (same_size a)
  then Throws (ArraySizes "wait_flag_then_put_tiles")
  else
    poll ← build_poll_packet flag_ptr expected_value "wait_flag_then_put_tiles";
    packets ← tile_packets data_size "wait_flag_then_put_tiles" a;
    submit (poll :: packets).

(** ** What an operation asks for *)

(** The device's filler before an operation is one NOP, whose count has 14
    bits; the host's is one NOP per word. *)
Definition op_small (h : handle) (o : sdma_op) : Prop :=
  h = Device -> Z.of_nat (length (concat (op_packets o))) <= 16384.

(** The packets of [o] ask for the effects [es]. *)
Definition op_means (o : sdma_op) (es : list sdma_effect) : Prop :=
  exists cs, Forall2 packet_ok (op_packets o) cs /\ concat (map meaning cs) = es.

(** ** Lengths *)

Lemma total_bytes packets : total_packet_bytes packets = 4 * Z.of_nat (length (concat packets)).
Proof.
  unfold total_packet_bytes. rewrite <- (Z.add_0_l (4 * _)). generalize 0.
  induction packets as [|p ps IH]; intros z; cbn [foldl concat length]; [lia|].
  rewrite IH, length_app. lia.
Qed.

Lemma asserting_length b L l p : asserting b (build L l) = Some p -> length p = length L.
Proof. unfold asserting. destruct b; [|done]. intros [= <-]. apply length_build. Qed.

Lemma copy_length src dst size p : CreateCopyPacket src dst size = Some p -> length p = 7%nat.
Proof. unfold CreateCopyPacket. destruct (_ && _); [|done]. apply asserting_length. Qed.

Lemma atomic_inc_length a p : CreateAtomicIncPacket a = Some p -> length p = 8%nat.
Proof. apply asserting_length. Qed.

Lemma wait_signal_length src dst size sig d en w r m p :
  CreateCopyWaitSignalPacketMI4 src dst size sig d en w r m = Some p -> length p = 19%nat.
Proof. apply asserting_length. Qed.

Lemma option_list_length b p ps n :
  option_list b p = Some ps -> (forall w, p = Some w -> length w = n) ->
  length (concat ps) = if b then n else 0%nat.
Proof.
  destruct b; cbn; [|by intros [= <-]]. destruct p as [w|]; [|done]. intros [= <-] Hw.
  cbn. by rewrite app_nil_r, (Hw w eq_refl).
Qed.

(** The reservation is exactly as large as the packets placed in it. *)
Lemma composite_length oss7 P S C dst src size sig cnt ps :
  put_signal_counter_packets oss7 P S C dst src size sig cnt = Some ps ->
  4 * Z.of_nat (length (concat ps)) = composite_space oss7 P S C.
Proof.
  unfold put_signal_counter_packets, composite_space. destruct (oss7 && P && (S || C)).
  - destruct (option_list true _) as [ws|] eqn:E1; [|done].
    destruct (option_list (S && C) _) as [ct|] eqn:E2; [|done]. intros [= <-].
    apply (option_list_length _ _ _ 19) in E1; [|intros w; apply wait_signal_length].
    apply (option_list_length _ _ _ 8) in E2; [|apply atomic_inc_length].
    rewrite concat_app, length_app, E1, E2. by destruct S, C.
  - destruct (option_list P _) as [pp|] eqn:E1; [|done].
    destruct (option_list S _) as [sp|] eqn:E2; [|done].
    destruct (option_list C _) as [cp|] eqn:E3; [|done]. intros [= <-].
    apply (option_list_length _ _ _ 7) in E1; [|apply copy_length].
    apply (option_list_length _ _ _ 8) in E2; [|apply atomic_inc_length].
    apply (option_list_length _ _ _ 8) in E3; [|apply atomic_inc_length].
    rewrite !concat_app, !length_app, E1, E2, E3. by destruct P, S, C.
Qed.

(** ** Tiles *)

Definition size_t (x : Z) : Prop := 0 <= x < 18446744073709551616.

Definition tile_sizes (data_size : Z) (t : tile) : Prop :=
  size_t data_size /\ is_addr (tl_src t) /\ is_addr (tl_dst t) /\ size_t (tl_height t) /\
  size_t (tl_width t) /\ size_t (tl_src_stride t) /\ size_t (tl_dst_stride t).

(** The tiles the engine can copy: rows inside their strides, and every
    size in bytes a word. *)
Definition tile_valid (data_size : Z) (t : tile) : bool :=
  negb (is_null (tl_src t)) && negb (is_null (tl_dst t)) && (0 <? data_size) && (0 <? tl_height t)
  && (0 <? tl_width t) && (tl_width t <=? tl_src_stride t) && (tl_width t <=? tl_dst_stride t)
  && (tl_src_stride t * data_size <=? kMaxSdmaDword) && (tl_dst_stride t * data_size <=? kMaxSdmaDword)
  && (tl_height t <=? kMaxSdmaDword).

Definition tile_cmd (data_size : Z) (t : tile) : sdma_cmd :=
  CmdCopyWindow (tl_src t) (tl_dst t) (0, 0) (0, 0) (tl_src_stride t * data_size)
    (tl_dst_stride t * data_size) (tl_width t * data_size) (tl_height t).

Lemma quotient_limit d x : 0 < d -> (kMaxSdmaDword / d <? x) = (kMaxSdmaDword <? x * d).
Proof.
  intros Hd. unfold kMaxSdmaDword. apply Bool.eq_iff_eq_true. rewrite !Z.ltb_lt.
  split; intros H.
  - apply Z.nle_gt. intros Hle. apply Z.nle_gt in H. apply H. apply Z.div_le_lower_bound; lia.
  - apply Z.div_lt_upper_bound; lia.
Qed.

Lemma valid_tile data_size t :
  tile_valid data_size t = true ->
  tl_src t <> 0 /\ tl_dst t <> 0 /\ 0 < data_size /\ 0 < tl_height t <= kMaxSdmaDword /\
  0 < tl_width t <= tl_src_stride t /\ tl_width t <= tl_dst_stride t /\
  0 < tl_src_stride t * data_size <= kMaxSdmaDword /\ 0 < tl_dst_stride t * data_size <= kMaxSdmaDword /\
  0 < tl_width t * data_size <= kMaxSdmaDword.
Proof. unfold tile_valid, NULL. intros H. bool_to_prop. split_and!; nia. Qed.

Definition tile_packet_ok (data_size : Z) (t : tile) (p : list Z) : Prop :=
  packet_ok p (tile_cmd data_size t) /\ length p = 20%nat.

Lemma tile_packet_spec data_size fn t :
  tile_sizes data_size t ->
  if tile_valid data_size t
  then exists p, tile_packet data_size fn t = Returns p /\ tile_packet_ok data_size t p
  else exists e, tile_packet data_size fn t = Throws e.
Proof.
  unfold tile_packet, build_tile_packet, tile_sizes, size_t, is_addr.
  intros (Hds & Hsrc & Hdst & Hh & Hw & Hss & Hdd).
  destruct (tile_valid data_size t) eqn:Ev.
  - apply valid_tile in Ev as (H1 & H2 & H3 & H4 & H5 & H6 & H7 & H8 & H9).
    unfold kMaxSdmaDword in H4, H7, H8, H9.
    rewrite !u64_small by (unfold kMaxSdmaDword; lia). rewrite !quotient_limit by done.
    unfold kMaxSdmaDword, NULL.
    assert (data_size <= 4294967295) by nia.
    repeat match goal with
    | |- context [?x =? 0] => rewrite (proj2 (Z.eqb_neq x 0)) by lia
    | |- context [?x <? ?y] => rewrite (proj2 (Z.ltb_ge x y)) by lia
    end. cbn [orb]. rewrite !u32_small by lia.
    unfold built_packet. destruct (LargeSubWindowCopyPacket _ _ _ _ _ _ _ _ _ _) as [p|] eqn:Ep.
    + exists p. split; [done|]. split; [|by apply asserting_length in Ep].
      destruct (window_ok _ _ _ _ _ _ _ _ _ _ _ Ep) as (_ & _ & Hp); try lia. exact Hp.
    + unfold LargeSubWindowCopyPacket, asserting, NULL in Ep.
      rewrite !(proj2 (Z.eqb_neq _ 0)), !(proj2 (Z.ltb_lt 0 _)) in Ep by lia. done.
  - do 3 (case_match; [by eexists|]). cbv zeta. case_match; [by eexists|]. exfalso. bool_to_prop.
    assert (0 < data_size) as Hpos by lia.
    assert (forall x, x <= kMaxSdmaDword / data_size -> x * data_size <= kMaxSdmaDword) as Hq.
    { intros x Hx. apply Z.ltb_ge. rewrite <- quotient_limit by done. by apply Z.ltb_ge. }
    assert (tl_width t * data_size <= kMaxSdmaDword /\ tl_src_stride t * data_size <= kMaxSdmaDword /\
      tl_dst_stride t * data_size <= kMaxSdmaDword) as (Hq1 & Hq2 & Hq3) by auto.
    clear Hq. unfold kMaxSdmaDword in Hq1, Hq2, Hq3.
    enough (tile_valid data_size t = true) by congruence.
    unfold tile_valid, NULL, kMaxSdmaDword in *. rewrite !andb_true_iff, !negb_true_iff.
    rewrite !Z.ltb_lt, !Z.leb_le, !Z.eqb_neq. lia.
Qed.

(** A loop over calls that each succeed or throw. *)
Lemma mapM_calls {A B} (f : A -> host_call B) (valid : A -> bool) (Q : A -> B -> Prop) l :
  (forall x, x ∈ l -> if valid x then exists b, f x = Returns b /\ Q x b else exists e, f x = Throws e) ->
  if forallb valid l then exists bs, mapM f l = Returns bs /\ Forall2 Q l bs
  else exists e, mapM f l = Throws e.
Proof.
  induction l as [|x l IH]; intros H; cbn [forallb mapM]; [by exists []; repeat constructor|].
  pose proof (H x (list_elem_of_here _ _)) as Hx.
  destruct (valid x); cbn [andb]; [|destruct Hx as [e ->]; by exists e].
  destruct Hx as (b & -> & Hb). cbn.
  specialize (IH (fun y Hy => H y (list_elem_of_further _ _ _ Hy))).
  destruct (forallb valid l).
  - destruct IH as (bs & -> & Hbs). cbn. exists (b :: bs). split; [done|]. by constructor.
  - destruct IH as [e ->]. by exists e.
Qed.

(** ** Batches *)

Lemma submit_spec packets :
  packets <> [] ->
  let o := {| op_packets := packets; op_reserve_state := false; op_submit_state := false |} in
  submit packets
    = if kMaxSubmitBytes <? space_required o then Throws (BatchTooLarge (space_required o))
      else Returns (Some o).
Proof.
  intros Hne o. destruct packets as [|p ps]; [done|]. unfold submit, check_submit_size.
  rewrite total_bytes. fold (space_required o). by destruct (_ <? _).
Qed.

Lemma batch_fits o : (kMaxSubmitBytes <? space_required o) = false <-> fits Host (Submit o).
Proof.
  cbn [fits]. rewrite Z.ltb_ge. unfold kMaxSubmitBytes, space_required, SDMA_QUEUE_SIZE.
  change RING_WORDS with 2097152. lia.
Qed.

Lemma packet_nonempty p c : packet_ok p c -> p <> [].
Proof. by intros (h & t & -> & _). Qed.

Lemma packets_nonempty ps cs : Forall2 packet_ok ps cs -> ps <> [] -> concat ps <> [].
Proof.
  intros [|p c ps' cs' (h & t & -> & _) _] ?; [done|]. by cbn.
Qed.

(** What [submit] accepts.  A batch of packets is handed to the ring
    exactly if it can ever find room there; otherwise the call throws, and
    nothing was reserved. *)
Theorem submit_admits packets :
  packets <> [] ->
  let o := {| op_packets := packets; op_reserve_state := false; op_submit_state := false |} in
  (fits Host (Submit o) /\ submit packets = Returns (Some o)) \/
  (~ fits Host (Submit o) /\ submit packets = Throws (BatchTooLarge (space_required o))).
Proof.
  intros Hne o. rewrite (submit_spec packets Hne). fold o. pose proof (batch_fits o) as Hf.
  destruct (_ <? _); [right|left]; split; try done; [|by apply Hf].
  intros H. by apply Hf in H.
Qed.

(** ** Tiles in a batch *)

Definition tiles_of (a : tile_arrays) : list tile := map (tile_at a) (seq 0 (length (src_ptrs a))).
Definition tile_effect (data_size : Z) (t : tile) : sdma_effect := EOther (tile_cmd data_size t).

Lemma tile_packets_spec data_size fn a :
  Forall (tile_sizes data_size) (tiles_of a) ->
  if forallb (tile_valid data_size) (tiles_of a)
  then exists ps, tile_packets data_size fn a = Returns ps /\
    Forall2 (tile_packet_ok data_size) (tiles_of a) ps
  else exists e, tile_packets data_size fn a = Throws e.
Proof.
  intros Hs. unfold tile_packets.
  pose proof (mapM_calls (tile_packet data_size fn) (tile_valid data_size)
    (tile_packet_ok data_size) (tiles_of a)) as H.
  assert (mapM (fun i => tile_packet data_size fn (tile_at a i)) (seq 0 (length (src_ptrs a)))
    = mapM (tile_packet data_size fn) (tiles_of a)) as ->.
  { unfold tiles_of. induction (seq 0 _) as [|i l IH]; [done|]. cbn. by rewrite IH. }
  apply H. intros t Ht. apply tile_packet_spec. by apply (Forall_elem _ _ t Hs).
Qed.

Lemma tile_packets_mean data_size ts ps :
  Forall2 (tile_packet_ok data_size) ts ps ->
  Forall2 packet_ok ps (map (tile_cmd data_size) ts) /\
  concat (map meaning (map (tile_cmd data_size) ts)) = map (tile_effect data_size) ts /\
  length (concat ps) = (20 * length ts)%nat.
Proof.
  induction 1 as [|t p ts ps [Hp Hl] _ (IH1 & IH2 & IH3)]; [by repeat constructor|].
  split; [by constructor|]. cbn [map concat]. rewrite IH2. split; [done|].
  rewrite length_app, IH3, Hl. cbn [length]. lia.
Qed.

Definition atomic_cmd (bytes : Z) (p : ptr) (value : Z) : sdma_cmd :=
  CmdAtomic (if bytes =? 8 then SDMA_ATOMIC_ADD64 else SDMA_ATOMIC_ADD32) p value.

Lemma atomic_packet_spec bytes p value fn :
  bytes = 4 \/ bytes = 8 -> is_addr p -> size_t value ->
  if is_null p then exists e, build_atomic_packet bytes p value fn = Throws e
  else exists w, build_atomic_packet bytes p value fn = Returns w /\
    packet_ok w (atomic_cmd bytes p value) /\ length w = 8%nat.
Proof.
  intros Hb Hp Hv. unfold build_atomic_packet. destruct (is_null p) eqn:En; [by eexists|].
  destruct (AtomicAddPacket bytes p value) as [w|] eqn:E.
  - exists w. split; [done|]. split; [by apply (atomic_ok bytes p value w)|by apply asserting_length in E].
  - unfold AtomicAddPacket, asserting in E. by rewrite En in E.
Qed.

(** [put_tiles_signal] is all or nothing.  For arrays of equal, non-zero
    length the call either submits one operation, which the ring can admit and
    which copies exactly the requested tiles and then adds to the flag, or it
    throws with nothing submitted; and it submits exactly if every tile's
    geometry fits the engine's fields, the flag is there and the batch is not
    larger than the ring. *)
Theorem put_tiles_signal_contract bytes data_size a flag_ptr flag_value :
  same_size a = true -> src_ptrs a <> [] -> Forall (tile_sizes data_size) (tiles_of a) ->
  bytes = 4 \/ bytes = 8 -> is_addr flag_ptr -> size_t flag_value ->
  let accepted := forallb (tile_valid data_size) (tiles_of a) && negb (is_null flag_ptr)
    && (80 * Z.of_nat (length (src_ptrs a)) + 32 <=? kMaxSubmitBytes) in
  if accepted
  then exists o, put_tiles_signal bytes data_size a flag_ptr flag_value = Returns (Some o) /\
    op_means o (map (tile_effect data_size) (tiles_of a) ++ meaning (atomic_cmd bytes flag_ptr flag_value)) /\
    fits Host (Submit o) /\ cmd_ok (Submit o)
  else exists e, put_tiles_signal bytes data_size a flag_ptr flag_value = Throws e.
Proof.
  intros Hsame Hne Hs Hb Hf Hv accepted. unfold put_tiles_signal. rewrite Hsame. cbn [negb].
  rewrite (proj2 (Nat.eqb_neq _ _)) by (by destruct (src_ptrs a)).
  pose proof (tile_packets_spec data_size "put_tiles_signal" a Hs) as Ht. subst accepted.
  destruct (forallb _ _); cbn [andb]; [|destruct Ht as [e ->]; by exists e].
  destruct Ht as (ps & -> & Hps). destruct (tile_packets_mean _ _ _ Hps) as (Hcs & Hm & Hl).
  pose proof (atomic_packet_spec bytes flag_ptr flag_value "put_tiles_signal" Hb Hf Hv) as Ha.
  change (Returns ps ≫= ?f) with (f ps). cbv beta.
  destruct (is_null flag_ptr); cbn [negb andb]; [destruct Ha as [e ->]; by exists e|].
  destruct Ha as (w & -> & Hw & Hlw). change (Returns w ≫= ?f) with (f w). cbv beta.
  rewrite submit_spec by (by destruct ps).
  set (o := {| op_packets := ps ++ [w]; op_reserve_state := false; op_submit_state := false |}).
  assert (space_required o = 80 * Z.of_nat (length (src_ptrs a)) + 32) as Hspace.
  { unfold space_required, o. cbn [op_packets]. rewrite concat_app, length_app, Hl.
    unfold tiles_of. rewrite length_map, length_seq. cbn [concat]. rewrite app_nil_r, Hlw. lia. }
  rewrite <- Hspace, Z.leb_antisym.
  destruct (kMaxSubmitBytes <? space_required o) eqn:E; cbn [negb]; [by eexists|].
  exists o. split; [done|]. split; [|split; [by apply batch_fits|]].
  - exists (map (tile_cmd data_size) (tiles_of a) ++ [atomic_cmd bytes flag_ptr flag_value]).
    split; [by apply Forall2_app; [|repeat constructor]|].
    rewrite map_app, concat_app, Hm. cbn [map concat]. by rewrite app_nil_r.
  - cbn [cmd_ok o op_packets]. rewrite concat_app. cbn. rewrite app_nil_r.
    intros [_ Hnil]%app_eq_nil. by rewrite Hnil in Hlw.
Qed.

(** ** The device's operations meet the ring's conditions *)

Lemma composite_ok oss7 P S C dst src size sig cnt state o :
  put_signal_counter_impl oss7 P S C dst src size sig cnt state = Some o -> P || S || C = true ->
  is_addr src -> is_addr dst -> is_addr sig -> is_addr cnt -> size <= 1073741824 ->
  (oss7 = true -> sig <> 0 /\ cnt <> 0 /\ sig mod 8 = 0 /\ cnt mod 8 = 0) ->
  space_required o = composite_space oss7 P S C /\ cmd_ok (Submit o) /\ fits Device (Submit o) /\
  op_small Device o /\ op_means o (put_signal_counter_spec P S C dst src size sig cnt).
Proof.
  unfold put_signal_counter_impl. intros E Hany Hs Hd Hg Hc Hsize H8.
  destruct (put_signal_counter_packets oss7 P S C dst src size sig cnt) as [ps|] eqn:Eps; [|done].
  injection E as <-. pose proof (composite_length _ _ _ _ _ _ _ _ _ _ Eps) as Hl.
  destruct (put_signal_counter_cmds _ _ _ _ _ _ _ _ _ _ Eps Hs Hd Hg Hc Hsize H8) as (cs & Hcs & Hm).
  assert (0 < composite_space oss7 P S C <= 108) as Hspace
    by (unfold composite_space; destruct oss7, P, S, C; vm_compute; try done; by split).
  unfold space_required, cmd_ok, fits, op_small, op_means. cbn [op_packets].
  change RING_WORDS with 2097152. split_and!; [done| |lia|lia|by exists cs].
  intros Hnil. rewrite Hnil in Hl. cbn in Hl. lia.
Qed.

(** ** Witnesses *)

Lemma submit_admits_witness :
  submit [[0]] = Returns (Some {| op_packets := [[0]]; op_reserve_state := false; op_submit_state := false |}).
Proof.
  destruct (submit_admits [[0]]) as [[_ H]|[H _]]; [discriminate|exact H|].
  exfalso. apply H. vm_compute. reflexivity.
Defined.

(** Two rows of a matrix of 32-bit words, and a tile wider than its stride. *)
Definition sample_tiles (width : Z) : tile_arrays :=
  {| dst_ptrs := [8192; 16384]; src_ptrs := [4096; 4160]; tile_heights := [1; 2];
     tile_widths := [width; 16]; src_strides := [64; 64]; dst_strides := [16; 16] |}.

Lemma put_tiles_signal_contract_witness :
  (exists o, put_tiles_signal 8 4 (sample_tiles 16) 65536 1 = Returns (Some o) /\
    op_means o [tile_effect 4 (tile_at (sample_tiles 16) 0); tile_effect 4 (tile_at (sample_tiles 16) 1);
                EAdd 65536 1] /\
    fits Host (Submit o) /\ cmd_ok (Submit o)) /\
  exists e, put_tiles_signal 8 4 (sample_tiles 17) 65536 1 = Throws e.
Proof.
  assert (forall w, 0 <= w < 100 -> Forall (tile_sizes 4) (tiles_of (sample_tiles w))) as Hs.
  { intros w Hw. repeat constructor; cbn; lia. }
  split.
  - refine (put_tiles_signal_contract 8 4 (sample_tiles 16) 65536 1 _ _ _ _ _ _);
      [reflexivity|discriminate|apply Hs; lia|by right|by unfold is_addr|by unfold size_t].
  - refine (put_tiles_signal_contract 8 4 (sample_tiles 17) 65536 1 _ _ _ _ _ _);
      [reflexivity|discriminate|apply Hs; lia|by right|by unfold is_addr|by unfold size_t].
Defined.
