(* ===== verification/SdmaProps.v ===== *)
(** * What the SDMA ring guarantees

    The theorems about the ring of [SdmaQueue.v], from the invariant of
    [SdmaRing.v] and the packets of [SdmaPacket.v]: the engine executes the
    operations of all producers in the order of their reservations, padding
    and wrap-around included; waiting for completion; progress. *)

From S2P Require Import Prelude SdmaLayout SdmaPacket SdmaQueue SdmaRing SdmaLive SdmaOps.

(** ** Filler is read as nothing *)

Definition filler_ok (l : list Z) : Prop :=
  exists ps, l = concat ps /\ Forall (fun p => packet_ok p CmdNop) ps.

Lemma nop_header n : 0 <= n < 16384 -> forall t, length t = Z.to_nat n ->
  packet_ok (Z.shiftl (Z.land n 65535) 16 :: t) CmdNop.
Proof.
  intros Hn t Ht.
  assert (Z.land n 65535 = n) as ->.
  { change 65535 with (Z.ones 16). rewrite Z.land_ones by lia. apply Z.mod_small. lia. }
  assert (get_bits 0 8 (Z.shiftl n 16) = 0) as H0.
  { unfold get_bits. rewrite Z.shiftr_0_r, Z.land_ones, Z.shiftl_mul_pow2 by lia.
    change (2 ^ 16) with (256 * 2 ^ 8). rewrite Z.mul_assoc. by apply Z.mod_mul. }
  assert (get_bits 16 14 (Z.shiftl n 16) = n) as H16.
  { unfold get_bits. rewrite Z.shiftr_shiftl_l, Z.sub_diag, Z.shiftl_0_r, Z.land_ones by lia.
    apply Z.mod_small. change (2 ^ 14) with 16384. lia. }
  eexists _, _. split; [done|]. unfold packet_length, read_cmd. rewrite H0, H16. cbn. by rewrite Ht.
Qed.

Lemma nop_words_filler (m : nat) : Z.of_nat m <= 16384 -> filler_ok (nop_words (Z.of_nat m)).
Proof.
  intros Hm. unfold nop_words. rewrite Nat2Z.id. destruct m as [|m]; [by exists []|].
  exists [Z.shiftl (Z.land (Z.of_nat (S m) - 1) 65535) 16 :: replicate m 0].
  split; [cbn; by rewrite app_nil_r|]. constructor; [|constructor].
  apply nop_header; [lia|]. rewrite length_replicate. lia.
Qed.

Lemma zeros_filler n : filler_ok (replicate n 0).
Proof.
  exists (replicate n [0]). split; [induction n; [done|]; cbn; by f_equal|].
  apply Forall_replicate. by eexists _, _.
Qed.

(** ** The contents of the reservations *)

Definition op_words (cl : claim) : list Z :=
  match cl_op cl with Some o => concat (op_packets o) | None => [] end.

Section Contents.
Context (h : handle) (P : sdma_op -> Prop) (Psmall : forall o, P o -> op_small h o).

(** Filler, then an operation of the programs or nothing. *)
Definition claim_wf (cl : claim) : Prop :=
  (exists filler, filler_ok filler /\ cl_words cl = filler ++ op_words cl) /\
  forall o, cl_op cl = Some o -> P o.

Lemma claimed_wf i o (B : nat) offset pad :
  reserve h (4 * Z.of_nat B) (space_required o) = (offset, pad) -> P o ->
  claim_wf (claim_of i offset pad o).
Proof.
  intros Hr HP. pose proof (Psmall o HP) as Hsmall.
  assert (offset <> 0 -> pad = false -> h = Device) as Hdev.
  { unfold reserve in Hr. destruct (_ <? _); [|by injection Hr as <- <-]. destruct h; [done|].
    by injection Hr as <- <-. }
  unfold space_required in Hr.
  unfold claim_wf, op_words, claim_of, claimed_words. cbn [cl_words cl_op].
  split; [|by destruct pad; intros o' E; simplify_eq].
  destruct (reserve_cases _ _ _ _ _ Hr) as [(-> & -> & _)|(m & -> & Hm0 & Hm32 & _ & Hmn)].
  - exists []. split; [by exists []|]. by change (nop_words (u32 (0 / 4))) with (@nil Z).
  - rewrite pad_words, u32_small by lia. unfold op_small in Hsmall. destruct pad.
    + exists (replicate (Z.to_nat (Z.of_nat m)) 0). split; [apply zeros_filler|]. by rewrite app_nil_r.
    + eexists. split; [|done]. apply nop_words_filler.
      specialize (Hsmall (Hdev ltac:(lia) eq_refl)). lia.
Qed.

Definition todo_all (s : system) : Prop :=
  forall i t, sy_producers s !! i = Some t -> Forall P (submits (th_todo t)).

Lemma todo_all_step s s' : sys_step h s s' -> todo_all s -> todo_all s'.
Proof.
  unfold todo_all.
  intros Hs Hsm. destruct Hs as [s i t q' t' cls Hi Hp|s i t cur off pad Hh Hi Hph|s Hne];
    cbn [sy_producers]; [| |exact Hsm].
  - apply (upd_forall _ _ _ (fun _ u => Forall P (submits (th_todo u)))); [|intros; by eapply Hsm].
    pose proof (Hsm i t Hi) as Ht. unfold producer_step in Hp.
    destruct (th_todo t) as [|[o|] rest] eqn:Et; [done| |].
    + assert (Forall P (submits rest)) as Hrest by (cbn in Ht; exact (Forall_inv_tail Ht)).
      destruct (th_phase t) as [| | |? ? ? [|[]]| | | |]; repeat case_match; simplify_eq/=; rewrite ?Et; done.
    + destruct (th_phase t); repeat case_match; simplify_eq/=; rewrite ?Et; done.
  - apply (upd_forall _ _ _ (fun _ u => Forall P (submits (th_todo u)))); [|intros; by eapply Hsm].
    exact (Hsm i t Hi).
Qed.

Lemma claims_wf_step s s' c :
  ring_ok h s c -> sys_step h s s' -> todo_all s -> Forall claim_wf (sy_claims s) ->
  Forall claim_wf (sy_claims s').
Proof.
  intros H Hs Hsm Hwf. destruct Hs as [s i t q' t' cls Hi Hp| |]; [|done..]. cbn [sy_claims].
  apply Forall_app. split; [done|]. destruct (ro_producers _ _ _ H i t Hi) as [_ _ Hph].
  pose proof (Hsm i t Hi) as Ht. unfold producer_step in Hp. unfold phase_ok in Hph.
  destruct (th_todo t) as [|[o|] rest] eqn:Et; [done| |].
  - destruct (th_phase t) as [|cur off pad|cur off pad|? ? ? [|[]]| | | |] eqn:Eph.
    all: try by (repeat case_match; simplify_eq/=; constructor).
    destruct (Z.eqb_spec (q_cachedWptr (sy_queue s)) cur) as [<-|Hne]; [|by simplify_eq/=; constructor].
    destruct (claim_stores _ _ _ _) as [st e]. injection Hp as <- <- <-. constructor; [|constructor].
    destruct Hph as (o' & rest' & hw & [= <- <-] & Hr & _). rewrite (ro_cached _ _ _ H) in Hr.
    apply (claimed_wf i o _ _ _ Hr). exact (Forall_inv Ht).
  - repeat case_match; simplify_eq/=; constructor.
Qed.

Lemma claims_wf_steps s s' c :
  rtc (sys_step h) s s' -> ring_ok h s c -> bounded s' -> todo_all s -> Forall claim_wf (sy_claims s) ->
  Forall claim_wf (sy_claims s').
Proof.
  intros Hs. revert c. induction Hs as [|a b d Hab Hbd IH]; [done|]. intros c Hc Hb Htodo Hwf.
  pose proof (bounded_steps _ _ _ Hbd Hb) as Hb2.
  destruct (step_ok _ _ _ _ Hc Hab Hb2) as (c' & _ & Hc').
  apply (IH c'); [done|done|by apply (todo_all_step a)|by apply (claims_wf_step a b c)].
Qed.

Lemma claims_wf_reachable programs s :
  reachable h programs s -> Forall program_ok programs -> bounded s ->
  Forall (fun p : program => Forall P (submits (fst p))) programs -> Forall claim_wf (sy_claims s).
Proof.
  intros Hr Hp Hb Hall. apply (claims_wf_steps _ _ 0 Hr (start_ok h _ Hp) Hb); [|constructor].
  intros i t Hi. cbn in Hi. rewrite list_lookup_fmap in Hi.
  destruct (programs !! i) as [p|] eqn:E; [|done]. injection Hi as <-.
  exact (Forall_lookup_1 _ _ _ _ Hall E).
Qed.
End Contents.

(** ** What the engine executes *)

Definition claimed_ops (cls : list claim) : list sdma_op := omap cl_op cls.

Lemma filler_packets l : filler_ok l ->
  exists ps cs, l = concat ps /\ Forall2 packet_ok ps cs /\ concat (map meaning cs) = [].
Proof.
  intros (ps & -> & H). exists ps, (map (fun _ => CmdNop) ps). split; [done|].
  induction H as [|p ps Hp _ [IH1 IH2]]; [by repeat constructor|].
  split; [by constructor|]. cbn. exact IH2.
Qed.

Lemma stream_packets h (f : sdma_op -> list sdma_effect) cls :
  Forall (claim_wf (fun o => op_small h o /\ op_means o (f o))) cls ->
  exists ps cs, stream cls = concat ps /\ Forall2 packet_ok ps cs /\
    concat (map meaning cs) = concat (map f (claimed_ops cls)).
Proof.
  induction 1 as [|cl cls [(fl & Hfl & Hw) Hop] _ (ps & cs & Hs & Hps & Hm)]; [by exists [], []|].
  destruct (filler_packets _ Hfl) as (ps0 & cs0 & -> & Hps0 & Hm0).
  change (stream (cl :: cls)) with (cl_words cl ++ stream cls). rewrite Hw, Hs.
  unfold op_words. destruct (cl_op cl) as [o|] eqn:Eo.
  - destruct (Hop o eq_refl) as [_ (cs1 & Hps1 & Hm1)].
    exists (ps0 ++ op_packets o ++ ps), (cs0 ++ cs1 ++ cs).
    rewrite !concat_app, <- app_assoc. split; [done|]. split; [by repeat apply Forall2_app|].
    rewrite !map_app, !concat_app, Hm0, Hm1, Hm. unfold claimed_ops. cbn. by rewrite Eo.
  - exists (ps0 ++ ps), (cs0 ++ cs). rewrite concat_app, app_nil_r. split; [done|].
    split; [by apply Forall2_app|]. rewrite map_app, concat_app, Hm0, Hm.
    unfold claimed_ops. cbn. by rewrite Eo.
Qed.

(** ** Completed programs *)

Lemma todo_count_zero s : todo_count s = 0%nat -> Forall (fun t => th_todo t = []) (sy_producers s).
Proof.
  unfold todo_count. induction (sy_producers s) as [|t l IH]; [constructor|]. cbn. intros E.
  constructor; [apply length_zero_iff_nil; lia|apply IH; lia].
Qed.

Lemma drained_read h s : drained h s -> sy_read s = stream (sy_claims s).
Proof.
  intros [H E]. rewrite (ro_rptr _ _ _ H), (ro_cached _ _ _ H) in E. unfold read_bytes in E.
  destruct (ro_read _ _ _ H) as [k Hk]. rewrite Hk in E |- *. rewrite length_app in E.
  destruct k; [by rewrite app_nil_r|]. cbn [length] in E. lia.
Qed.

Lemma ops_complete h programs s i p :
  reachable h programs s -> Forall (fun t => th_todo t = []) (sy_producers s) ->
  programs !! i = Some p -> ops_of i (sy_claims s) = submits (fst p).
Proof.
  intros Hr Hdone Hp. pose proof (shrinks_steps h _ _ Hr) as Hsh. apply Forall2_length in Hsh.
  destruct (lookup_lt_is_Some_2 (sy_producers s) i) as [t Ht].
  { rewrite <- Hsh. cbn. rewrite length_map. by eapply lookup_lt_Some. }
  rewrite <- (order_reachable h programs s i t p Hr Ht Hp).
  pose proof (Forall_lookup_1 _ _ _ _ Hdone Ht) as Hnil. cbn beta in Hnil.
  unfold pending. rewrite Hnil. cbn. destruct (holding (th_phase t)) as [[[[? ?] []] ?]|];
    by rewrite (app_nil_r (ops_of i (sy_claims s))).
Qed.

(** ** The size of a reservation *)

Lemma step_claims_of h i q t q' t' cls :
  producer_step h i q t = Some (q', t', cls) ->
  Forall (fun cl => length (op_words cl) <= length (cl_words cl))%nat cls.
Proof.
  unfold producer_step. intros Hp. repeat case_match; simplify_eq/=; try by apply Forall_nil_2.
  all: apply Forall_singleton; unfold op_words, claimed_words; cbn [cl_op cl_words].
  all: rewrite ?length_app; cbn [length]; lia.
Qed.

Definition claim_sized (cl : claim) : Prop :=
  4 * Z.of_nat (length (cl_words cl)) < SDMA_QUEUE_SIZE /\
  (length (op_words cl) <= length (cl_words cl))%nat.

Lemma claims_sized_step h s s' c :
  ring_ok h s c -> sys_step h s s' -> bounded s' -> Forall claim_sized (sy_claims s) ->
  Forall claim_sized (sy_claims s').
Proof.
  intros H Hs Hb Hall. destruct (step_ok _ _ _ _ H Hs Hb) as (c' & _ & H').
  destruct Hs as [s i t q' t' cls Hi Hp| |]; [|done..]. cbn [sy_claims].
  apply Forall_app. split; [done|]. pose proof (ro_room _ _ _ H') as Hroom.
  pose proof (prefix_length _ _ (ro_read _ _ _ H)) as Hle. unfold read_bytes in Hroom.
  cbn [sy_claims sy_read] in Hroom. rewrite stream_app, length_app in Hroom.
  apply Forall_lookup_2. intros k cl Hk. split.
  - assert (length (cl_words cl) <= length (stream cls))%nat as Hcl.
    { pose proof (base_S _ _ _ Hk). pose proof (base_bound cls (S k)). lia. }
    lia.
  - exact (Forall_lookup_1 _ _ _ _ (step_claims_of _ _ _ _ _ _ _ Hp) Hk).
Qed.

Lemma claims_sized_steps h s s' c :
  rtc (sys_step h) s s' -> ring_ok h s c -> bounded s' -> Forall claim_sized (sy_claims s) ->
  Forall claim_sized (sy_claims s').
Proof.
  intros Hs. revert c. induction Hs as [|a b d Hab Hbd IH]; [done|]. intros c Hc Hb Hall.
  pose proof (bounded_steps _ _ _ Hbd Hb) as Hb2.
  destruct (step_ok _ _ _ _ Hc Hab Hb2) as (c' & _ & Hc').
  apply (IH c'); [done|done|]. by apply (claims_sized_step h a b c).
Qed.

(** C2: the ring is a FIFO of reservations.  However the producers and the
    engine interleave, the words the engine has read are the beginning of the
    concatenated reservations in the order in which they were made, although
    the packets are placed and submitted concurrently; what is reserved and
    not yet read is less than the ring, so nothing unread is overwritten; and
    each producer's operations are reserved in its program's order. *)
Theorem sdma_fifo h programs s :
  reachable h programs s -> Forall program_ok programs -> bounded s ->
  sy_read s `prefix_of` stream (sy_claims s) /\
  Z.of_nat (length (stream (sy_claims s))) - Z.of_nat (length (sy_read s)) < RING_WORDS /\
  forall i t p, sy_producers s !! i = Some t -> programs !! i = Some p ->
    ops_of i (sy_claims s) ++ pending t = submits (fst p).
Proof.
  intros Hr Hp Hb. destruct (reachable_ok h programs s Hr Hp Hb) as [c H].
  split; [exact (ro_read _ _ _ H)|]. split; [|intros; by apply (order_reachable h programs s)].
  pose proof (ro_room _ _ _ H) as Hroom. unfold read_bytes in Hroom.
  change SDMA_QUEUE_SIZE with (4 * RING_WORDS) in Hroom. lia.
Qed.

(** C14: the engine executes the operations, whole and in order.  When each
    operation's packets ask for the effects [f] gives, what the engine has
    read up to the end of the [k]-th reservation, filler at the end of the
    ring included, parses as commands whose effects are those of the first
    [k] reservations' operations, one after the other. *)
Theorem sdma_executes_in_order h programs s (f : sdma_op -> list sdma_effect) k :
  reachable h programs s -> Forall program_ok programs -> bounded s ->
  Forall (fun p : program => Forall (fun o => op_small h o /\ op_means o (f o)) (submits (fst p))) programs ->
  (base_of (sy_claims s) k <= length (sy_read s))%nat ->
  exists fuel cs, parse fuel (take (base_of (sy_claims s) k) (sy_read s)) = Some cs /\
    concat (map meaning cs) = concat (map f (claimed_ops (take k (sy_claims s)))).
Proof.
  intros Hr Hp Hb Hf Hk. destruct (reachable_ok h programs s Hr Hp Hb) as [c H].
  pose proof (claims_wf_reachable h _ (fun o Ho => proj1 Ho) programs s Hr Hp Hb Hf) as Hwf.
  destruct (stream_packets h f (take k (sy_claims s))) as (ps & cs & Hs & Hps & Hm);
    [by apply Forall_take|].
  exists (length ps), cs. split; [|done].
  assert (take (base_of (sy_claims s) k) (sy_read s) = stream (take k (sy_claims s))) as ->.
  { destruct (ro_read _ _ _ H) as [rest E].
    assert (take (base_of (sy_claims s) k) (stream (sy_claims s)) = stream (take k (sy_claims s))) as <-.
    { rewrite <- (take_drop k (sy_claims s)) at 2. rewrite stream_app. apply take_app_length. }
    rewrite E. by rewrite take_app_le. }
  rewrite Hs. by apply parse_packets.
Qed.

(** C3: the ring always gets there.  From every reachable state, whatever
    the producers and the engine were in the middle of, the system can run on
    until every program is over; then each producer's operations are all
    reserved in order, the engine has read everything, and what it read are
    commands with the effects of the operations in the order of their
    reservations.  No state is a deadlock, padding at the end of the ring
    included.  The conditions: each operation fits (a device's with its
    padding, so half the ring; a host's within the ring), the pointers do not
    wrap, and no program on a host handle calls [quiet]: the host's [quiet]
    waits for the read pointer to equal its target and may miss it for good
    ([host_quiet_missed]). A device's [quiet] is covered. *)
Theorem ring_completes h programs s (f : sdma_op -> list sdma_effect) :
  reachable h programs s -> Forall program_ok programs -> Forall (program_fits h) programs ->
  Forall (fun p : program => Forall (fun o => op_small h o /\ op_means o (f o)) (submits (fst p))) programs ->
  budget s ->
  exists s', rtc (sys_step h) s s' /\ Forall (fun t => th_todo t = []) (sy_producers s') /\
    (forall i p, programs !! i = Some p -> ops_of i (sy_claims s') = submits (fst p)) /\
    exists fuel cs, parse fuel (sy_read s') = Some cs /\
      concat (map meaning cs) = concat (map f (claimed_ops (sy_claims s'))).
Proof.
  intros Hr Hp Hfit Hf Hb.
  destruct (completes h programs s Hr Hp Hfit Hb) as (s' & Hs & Hd & Hbd & H0).
  assert (reachable h programs s') as Hr' by (unfold reachable in *; by etransitivity).
  exists s'. split; [done|]. pose proof (todo_count_zero s' H0) as Hdone. split; [done|].
  split; [intros i p; by apply (ops_complete h programs s' i p)|].
  pose proof (claims_wf_reachable h _ (fun o Ho => proj1 Ho) programs s' Hr' Hp Hbd Hf) as Hwf.
  destruct (stream_packets h f _ Hwf) as (ps & cs & E & Hps & Hm).
  exists (length ps), cs. split; [|done]. rewrite (drained_read h s' Hd), E. by apply parse_packets.
Qed.

(** The limit on a submission is the right one.  However long the
    producers try, no operation larger than [kMaxSubmitBytes] is ever
    reserved: without the check the call would spin for ever. *)
Theorem oversized_never_reserved h programs s cl o :
  reachable h programs s -> Forall program_ok programs -> bounded s ->
  cl ∈ sy_claims s -> cl_op cl = Some o -> space_required o <= kMaxSubmitBytes.
Proof.
  intros Hr Hp Hb Hin Hop.
  pose proof (claims_sized_steps h _ _ 0 Hr (start_ok h _ Hp) Hb ltac:(constructor)) as Hall.
  destruct (Forall_elem _ _ cl Hall Hin) as [H1 H2]. unfold op_words in H2. rewrite Hop in H2.
  unfold space_required, kMaxSubmitBytes, SDMA_QUEUE_SIZE in *. lia.
Qed.

(** C29: [quietAll] waits.  When a device thread that passes its state leaves
    the wait, the engine has read every operation the thread submitted with
    that state. *)
Theorem quiet_waits programs s i t target st q' t' cls k cl :
  reachable Device programs s -> Forall program_ok programs -> bounded s ->
  sy_producers s !! i = Some t -> th_phase t = Polling target -> th_state t = Some st ->
  producer_step Device i (sy_queue s) t = Some (q', t', cls) -> th_phase t' = Idle ->
  sy_claims s !! k = Some cl -> cl_tid cl = i -> tracked cl = true ->
  (base_of (sy_claims s) (S k) <= length (sy_read s))%nat.
Proof.
  intros Hr Hp Hb Hi Hph Hst Hstep Hidle Hcl Htid Htr.
  destruct (reachable_ok Device programs s Hr Hp Hb) as [c H].
  destruct (ro_producers _ _ _ H i t Hi) as [_ Hs Hpo]. unfold phase_ok in Hpo. rewrite Hph in Hpo.
  destruct Hpo as (rest & Htodo & Htarget). unfold producer_step in Hstep. rewrite Htodo, Hph in Hstep.
  destruct (quiet_over _ _ _) eqn:Eq; injection Hstep as <- <- <-; [|by rewrite Hph in Hidle].
  cbn [quiet_over] in Eq. bool_to_prop. rewrite (Htarget st eq_refl Hst), (ro_rptr _ _ _ H) in Eq.
  destruct (Hs st Hst) as [_ Hm].
  assert (k < c)%nat as Hkc.
  { destruct (le_lt_dec c k) as [Hle|]; [exfalso|done].
    apply (not_holding Device s c i t k cl H Hi); [by rewrite Hph|done..]. }
  specialize (Hm k cl Hkc Hcl Htid Htr). unfold read_bytes in Eq. lia.
Qed.

(** ** The host's wait *)

Lemma rptr_grows h s s' c :
  ring_ok h s c -> sys_step h s s' -> bounded s' -> q_rptr (sy_queue s) <= q_rptr (sy_queue s').
Proof.
  intros H Hs Hb. pose proof (bounded_back _ _ _ Hs Hb) as Hb0.
  destruct (step_ok _ _ _ _ H Hs Hb) as (c' & _ & H').
  rewrite (ro_rptr _ _ _ H), (ro_rptr _ _ _ H'). unfold read_bytes.
  destruct Hs; cbn [sy_read]; rewrite ?length_app; lia.
Qed.

Lemma polling_kept s s' i t target rest :
  sys_step Host s s' -> sy_producers s !! i = Some t -> th_todo t = Quiet :: rest ->
  th_phase t = Polling target -> target < q_rptr (sy_queue s) -> sy_producers s' !! i = Some t.
Proof.
  intros Hs Hi Htodo Hph Ht. destruct Hs as [s j u q' u' cls Hj Hp|s j u cur off pad Hh Hj Hpu|s Hne];
    cbn [sy_producers]; [| |done].
  - destruct (decide (j = i)) as [->|Hne]; [|by rewrite list_lookup_insert_ne].
    rewrite Hi in Hj. injection Hj as <-. unfold producer_step in Hp. rewrite Htodo, Hph in Hp.
    cbn [quiet_over] in Hp. rewrite (proj2 (Z.eqb_neq _ _)) in Hp by lia. injection Hp as <- <- <-.
    rewrite list_lookup_insert_eq; [done|]. by eapply lookup_lt_Some.
  - destruct (decide (j = i)) as [->|Hne]; [|by rewrite list_lookup_insert_ne]. congruence.
Qed.

(** The host's [quiet] can wait for ever.  It polls for the read pointer
    to be equal to the write pointer it sampled; once another producer's
    packets have moved the read pointer past it, no continuation of the
    system lets the call return. *)
Theorem host_quiet_missed programs s s' i t target rest :
  reachable Host programs s -> Forall program_ok programs ->
  sy_producers s !! i = Some t -> th_todo t = Quiet :: rest -> th_phase t = Polling target ->
  target < q_rptr (sy_queue s) ->
  rtc (sys_step Host) s s' -> bounded s' ->
  sy_producers s' !! i = Some t /\ target < q_rptr (sy_queue s').
Proof.
  intros Hr Hp Hi Htodo Hph Ht Hs Hb.
  pose proof (bounded_steps _ _ _ Hs Hb) as Hbs.
  destruct (reachable_ok Host programs s Hr Hp Hbs) as [c H]. clear Hr Hbs.
  revert c H Hi Ht. induction Hs as [|a b d Hab Hbd IH]; intros c H Hi Ht; [done|].
  pose proof (bounded_steps _ _ _ Hbd Hb) as Hb2.
  destruct (step_ok _ _ _ _ H Hab Hb2) as (c' & _ & H').
  apply (IH Hb c' H'); [by apply (polling_kept a b i t target rest)|].
  pose proof (rptr_grows _ _ _ _ H Hab Hb2). lia.
Qed.

(** ** Runs

    A schedule says who moves: a producer, or the engine ([None]).  A move
    that is not possible is skipped. *)

Definition run_one (h : handle) (who : option nat) (s : system) : system :=
  match who with
  | Some i =>
      match sy_producers s !! i with
      | Some t =>
          match producer_step h i (sy_queue s) t with
          | Some (q', t', cls) => advance s q' i t' cls
          | None => s
          end
      | None => s
      end
  | None =>
      if q_rptr (sy_queue s) =? q_doorbell (sy_queue s) then s
      else {| sy_queue := with_rptr (u64 (q_rptr (sy_queue s) + 4)) (sy_queue s);
              sy_producers := sy_producers s; sy_claims := sy_claims s;
              sy_read := sy_read s
                ++ [q_buf (sy_queue s) (WrapIntoRing (q_rptr (sy_queue s)) / 4)] |}
  end.
Definition run (h : handle) (sched : list (option nat)) (s : system) : system :=
  foldl (fun s who => run_one h who s) s sched.

Lemma run_one_steps h who s : rtc (sys_step h) s (run_one h who s).
Proof.
  destruct who as [i|]; cbn [run_one].
  - destruct (sy_producers s !! i) as [t|] eqn:Hi; [|done].
    destruct (producer_step h i (sy_queue s) t) as [[[q' t'] cls]|] eqn:Hp; [|done].
    apply rtc_once. by apply (step_producer h s i t).
  - destruct (Z.eqb_spec (q_rptr (sy_queue s)) (q_doorbell (sy_queue s))) as [|Hne]; [done|].
    apply rtc_once. by apply step_engine.
Qed.

Lemma run_steps h sched s : rtc (sys_step h) s (run h sched s).
Proof.
  revert s. induction sched as [|who sched IH]; intros s; [done|].
  etransitivity; [apply (run_one_steps h who)|apply IH].
Qed.

(** What an operation asks for, read off its words. *)
Definition op_effects (o : sdma_op) : list sdma_effect :=
  match parse (length (op_packets o)) (concat (op_packets o)) with
  | Some cs => concat (map meaning cs) | None => [] end.

Lemma op_effects_means o es : op_means o es -> op_means o (op_effects o).
Proof.
  intros (cs & Hcs & Hm). exists cs. split; [done|]. unfold op_effects.
  by rewrite (parse_packets _ _ Hcs).
Qed.

(** Two device threads: one with state puts, signals and waits, the other
    signals. *)
Definition the_op (o : option sdma_op) : sdma_op :=
  default {| op_packets := []; op_reserve_state := false; op_submit_state := false |} o.
Definition sample_put : sdma_op := the_op (putSignal false 8192 4096 256 65536 true).
Definition sample_signal : sdma_op := the_op (signal false 65544 false).
Definition sample_programs : list program :=
  [([Submit sample_put; Quiet], Some {| cachedHwReadIndex := 0; maxWritePtr := 0 |});
   ([Submit sample_signal], None)].
(** The second's compare-and-swap fails, and it has to wait for its turn. *)
Definition sample_schedule : list (option nat) :=
  [Some 0; Some 1; Some 0; Some 1; Some 0; Some 1]%nat ++ replicate 30 (Some 1%nat)
  ++ replicate 25 (Some 0%nat) ++ replicate 30 (Some 1%nat) ++ replicate 17 None.
Definition sample_run : system := run Device sample_schedule (start sample_programs).

Lemma sample_reachable : reachable Device sample_programs sample_run.
Proof. apply run_steps. Qed.

Lemma sample_ok : Forall program_ok sample_programs.
Proof.
  repeat constructor; try (by vm_compute); try (by intros st [= <-]); by intros st.
Qed.

Lemma sample_means :
  Forall (fun p : program => Forall (fun o => op_small Device o /\ op_means o (op_effects o))
    (submits (fst p))) sample_programs.
Proof.
  assert (forall P S C dst src size sig cnt state,
    P || S || C = true -> is_addr src -> is_addr dst -> is_addr sig -> is_addr cnt -> size <= 1073741824 ->
    put_signal_counter_impl false P S C dst src size sig cnt state <> None ->
    let o := the_op (put_signal_counter_impl false P S C dst src size sig cnt state) in
    op_small Device o /\ op_means o (op_effects o)) as H.
  { intros P S C dst src size sig cnt state Hany Hs Hd Hg Hc Hsize Hsome o. subst o.
    destruct (put_signal_counter_impl _ _ _ _ _ _ _ _ _ _) as [o|] eqn:E; [|done].
    destruct (composite_ok _ _ _ _ _ _ _ _ _ _ _ E Hany Hs Hd Hg Hc Hsize) as (_ & _ & _ & Hsm & Hm); [done|].
    split; [exact Hsm|]. by eapply op_effects_means. }
  repeat constructor; apply H; done || (unfold is_addr, NULL; lia).
Qed.

(** ** Witnesses *)

Lemma sdma_fifo_witness :
  sy_read sample_run `prefix_of` stream (sy_claims sample_run) /\
  map cl_tid (sy_claims sample_run) = [0; 1]%nat /\ length (sy_read sample_run) = 17%nat /\
  length (stream (sy_claims sample_run)) = 23%nat.
Proof.
  split; [|vm_compute; done].
  refine (proj1 (sdma_fifo Device sample_programs sample_run sample_reachable sample_ok _)).
  vm_compute. done.
Defined.

Lemma sdma_executes_in_order_witness :
  base_of (sy_claims sample_run) 1 = 15%nat /\
  exists fuel cs, parse fuel (take 15 (sy_read sample_run)) = Some cs /\
    concat (map meaning cs) = [ECopy 4096 8192 256; EAdd 65536 1].
Proof.
  split; [vm_compute; reflexivity|].
  destruct (sdma_executes_in_order Device sample_programs sample_run op_effects 1 sample_reachable sample_ok)
    as (fuel & cs & Hp & Hm); [vm_compute; done|exact sample_means|vm_compute; lia|].
  exists fuel, cs. split; [|rewrite Hm; vm_compute; reflexivity].
  assert (base_of (sy_claims sample_run) 1 = 15%nat) as E by (vm_compute; reflexivity).
  rewrite E in Hp. exact Hp.
Defined.

Lemma quiet_waits_witness :
  (exists t, sy_producers sample_run !! 0%nat = Some t /\ th_phase t = Polling 60) /\
  (base_of (sy_claims sample_run) 1 <= length (sy_read sample_run))%nat.
Proof.
  destruct (sy_producers sample_run !! 0%nat) as [t|] eqn:Et; [|vm_compute in Et; discriminate].
  pose proof Et as E. vm_compute in E. injection E as E.
  split; [exists t; split; [reflexivity|rewrite <- E; reflexivity]|].
  destruct (sy_claims sample_run !! 0%nat) as [cl|] eqn:Ecl; [|vm_compute in Ecl; discriminate].
  pose proof Ecl as Ec. vm_compute in Ec. injection Ec as Ec.
  refine (quiet_waits sample_programs sample_run 0 t 60 {| cachedHwReadIndex := 0; maxWritePtr := 60 |}
    (sy_queue sample_run) {| th_phase := Idle; th_todo := []; th_state := th_state t |} [] 0 cl
    sample_reachable sample_ok _ Et _ _ _ _ Ecl _ _).
  all: rewrite <- ?E, <- ?Ec; vm_compute; reflexivity.
Defined.

(** Two host threads: the first submits and waits, but before it polls the
    second's operation is read as well. *)
Definition host_signal_op : sdma_op := the_op (signal false 65544 false).
Definition host_programs : list program :=
  [([Submit host_signal_op; Quiet], None); ([Submit host_signal_op], None)].
Definition host_run : system :=
  run Host (replicate 16 (Some 0%nat) ++ replicate 20 (Some 1%nat) ++ replicate 16 None) (start host_programs).

Lemma host_quiet_missed_witness :
  exists t, sy_producers host_run !! 0%nat = Some t /\ th_phase t = Polling 32 /\
    q_rptr (sy_queue host_run) = 64 /\
    sy_producers (run Host (replicate 100 (Some 0%nat)) host_run) !! 0%nat = Some t.
Proof.
  destruct (sy_producers host_run !! 0%nat) as [t|] eqn:Et; [|vm_compute in Et; discriminate].
  pose proof Et as E. vm_compute in E. injection E as E. exists t.
  split; [reflexivity|]. split; [rewrite <- E; reflexivity|]. split; [vm_compute; reflexivity|].
  refine (proj1 (host_quiet_missed host_programs host_run _ 0 t 32 [] (run_steps _ _ _) _ Et _ _ _
    (run_steps Host (replicate 100 (Some 0%nat)) host_run) _)).
  - repeat constructor; try (by vm_compute); by intros st.
  - rewrite <- E. reflexivity.
  - rewrite <- E. reflexivity.
  - vm_compute. reflexivity.
  - vm_compute. reflexivity.
Defined.

Lemma ring_completes_witness :
  exists s', rtc (sys_step Device) (run Device [Some 0; Some 1; Some 0; Some 1]%nat (start sample_programs)) s' /\
    Forall (fun t => th_todo t = []) (sy_producers s') /\ ops_of 0 (sy_claims s') = [sample_put] /\
    ops_of 1 (sy_claims s') = [sample_signal].
Proof.
  destruct (ring_completes Device sample_programs
    (run Device [Some 0; Some 1; Some 0; Some 1]%nat (start sample_programs)) op_effects)
    as (s' & Hs & Hdone & Hops & _).
  - apply run_steps.
  - exact sample_ok.
  - repeat constructor; try (by vm_compute); try (by intros st [= <-]); by intros st.
  - exact sample_means.
  - vm_compute. reflexivity.
  - exists s'. split; [exact Hs|]. split; [exact Hdone|].
    split; [exact (Hops 0%nat _ eq_refl)|exact (Hops 1%nat _ eq_refl)].
Defined.

Lemma oversized_never_reserved_witness :
  exists cl, cl ∈ sy_claims sample_run /\ cl_op cl = Some sample_put /\
    space_required sample_put <= kMaxSubmitBytes.
Proof.
  destruct (sy_claims sample_run) as [|cl rest] eqn:Ecl; [vm_compute in Ecl; discriminate|].
  assert (cl_op cl = Some sample_put) as Hop by (vm_compute in Ecl; injection Ecl as <- _; reflexivity).
  exists cl. split; [apply list_elem_of_here|]. split; [exact Hop|].
  apply (oversized_never_reserved Device sample_programs sample_run cl sample_put);
    [exact sample_reachable|exact sample_ok|vm_compute; reflexivity|rewrite Ecl; apply list_elem_of_here|exact Hop].
Defined.
