(* ===== verification/Endian.v ===== *)
(** * Byte order

    The conversions of [src/src/common/endian.hpp], which the queue pairs of
    the RDMA endpoint write their entries with, and reading single bits of
    words in the other order. *)

From S2P Require Import Prelude.

Arguments Z.mul : simpl never.
Arguments Z.add : simpl never.
Arguments Z.modulo : simpl never.
Arguments Z.div : simpl never.

(** ** Byte order *)

(** The [n] low bytes of a value, lowest first, and back. *)
Fixpoint bytes_of (n : nat) (v : Z) : list Z :=
  match n with O => [] | S n' => v mod 256 :: bytes_of n' (v / 256) end.
Fixpoint of_bytes (l : list Z) : Z :=
  match l with [] => 0 | b :: l' => b + 256 * of_bytes l' end.

Definition byteswap (n : nat) (v : Z) : Z := of_bytes (reverse (bytes_of n v)).

(** The GPU and the hosts are little-endian; a [__be32] is the word a
    little-endian load of its four bytes gives. *)
Definition to_be (n : nat) (v : Z) : Z := byteswap n v.
Definition from_be (n : nat) (v : Z) : Z := byteswap n v.

Arguments to_be : simpl never.
Arguments from_be : simpl never.

(** ** Byte order *)

Definition is_byte (b : Z) : Prop := 0 <= b < 256.

Lemma bytes_of_bytes n : forall v, length (bytes_of n v) = n /\ Forall is_byte (bytes_of n v).
Proof.
  induction n as [|n IH]; intros v; cbn; [by split; [|constructor]|].
  destruct (IH (v / 256)). split; [lia|]. constructor; [apply Z.mod_pos_bound; lia|done].
Qed.

Lemma of_bytes_of n : forall v, 0 <= v < 256 ^ Z.of_nat n -> of_bytes (bytes_of n v) = v.
Proof.
  induction n as [|n IH]; intros v Hv; cbn; [cbn in Hv; lia|].
  rewrite IH; [pose proof (Z.div_mod v 256); lia|].
  rewrite Nat2Z.inj_succ, Z.pow_succ_r in Hv by lia.
  split; [apply Z.div_pos; lia|apply Z.div_lt_upper_bound; lia].
Qed.

Lemma bytes_of_of l : Forall is_byte l -> bytes_of (length l) (of_bytes l) = l.
Proof.
  induction 1 as [|b l Hb Hl IH]; [done|]. cbn. unfold is_byte in Hb.
  replace (b + 256 * of_bytes l) with (of_bytes l * 256 + b) by lia.
  rewrite Z.add_comm, Z.mod_add, Z.mod_small, Z.div_add, Z.div_small by lia. by rewrite Z.add_0_l, IH.
Qed.

(** What is written in the NIC's order is read back. *)
Lemma from_to_be n v : 0 <= v < 256 ^ Z.of_nat n -> from_be n (to_be n v) = v.
Proof.
  intros Hv. unfold from_be, to_be, byteswap. destruct (bytes_of_bytes n v) as [Hl Hb].
  rewrite <- Hl at 1. rewrite <- length_reverse, bytes_of_of by by apply Forall_reverse.
  by rewrite reverse_involutive, of_bytes_of.
Qed.

(** ** Single bits *)

(** A mask of one bit. *)
Lemma land_pow2 x n : 0 <= n -> Z.land x (2 ^ n) = if Z.testbit x n then 2 ^ n else 0.
Proof.
  intros Hn. apply Z.bits_inj'. intros i Hi. rewrite Z.land_spec, Z.pow2_bits_eqb by done.
  destruct (Z.eqb_spec n i) as [->|Hne].
  - destruct (Z.testbit x i); [by rewrite Z.pow2_bits_true|by rewrite Z.bits_0].
  - rewrite andb_false_r. destruct (Z.testbit x n); [by rewrite Z.pow2_bits_false|by rewrite Z.bits_0].
Qed.

Lemma land_pow2_zero x n : 0 <= n -> (Z.land x (2 ^ n) =? 0) = negb (Z.testbit x n).
Proof.
  intros Hn. rewrite land_pow2 by done. pose proof (Z.pow_pos_nonneg 2 n ltac:(lia) Hn).
  destruct (Z.testbit x n); cbn; [apply Z.eqb_neq; lia|done].
Qed.

(** The low byte of a word is the high byte of the swapped word. *)
Lemma to_be4_high v : 0 <= v -> to_be 4 v = to_be 4 v mod 2 ^ 24 + v mod 256 * 2 ^ 24.
Proof.
  intros Hv. unfold to_be, byteswap. cbn [bytes_of reverse rev_append of_bytes].
  set (a := v mod 256). set (b := v / 256 mod 256). set (c := v / 256 / 256 mod 256).
  set (d := v / 256 / 256 / 256 mod 256).
  change (reverse [a; b; c; d]) with [d; c; b; a]. cbn [of_bytes].
  assert (0 <= b < 256 /\ 0 <= c < 256 /\ 0 <= d < 256) as (Hb & Hc & Hd)
    by (subst b c d; repeat split; apply Z.mod_pos_bound; lia).
  replace (d + 256 * (c + 256 * (b + 256 * (a + 256 * 0))))
    with (d + 256 * c + 65536 * b + a * 2 ^ 24) by lia.
  rewrite Z.mod_add, (Z.mod_small (d + 256 * c + 65536 * b)) by lia. lia.
Qed.

Lemma to_be4_bit v i : 0 <= v -> 0 <= i < 8 -> Z.testbit (to_be 4 v) (24 + i) = Z.testbit v i.
Proof.
  intros Hv Hi. rewrite to_be4_high by done.
  rewrite Z.add_comm, <- lor_shiftl_add by (lia || apply Z.mod_pos_bound; lia).
  rewrite Z.lor_spec, Z.shiftl_spec, (Z.mod_pow2_bits_high _ 24) by lia.
  rewrite orb_false_r. change 256 with (2 ^ 8). replace (24 + i - 24) with i by lia.
  by rewrite Z.mod_pow2_bits_low by lia.
Qed.
