(* ===== verification/TcpExchange.v ===== *)
(** * The exchange of connection data over TCP

    [src/src/common/tcp-exchange.hpp]: the two peers of an RDMA connection
    swap one message, [ExchangeMsg], over a socket, and use one byte the same
    way as a barrier.  [send] and [recv] may move fewer bytes than asked, and
    be interrupted; [tcp_send_all] and [tcp_recv_all] go on until all are
    moved.

    One turn of a loop is a function of what the system call answered.  The
    connection carries bytes in order in both directions, each with room for
    so many; two peers take turns in any order ([exchange_step]).  The
    theorems: what a peer that succeeds has received is the other's message,
    whatever the pieces ([exchange_delivers]), and of the message read back
    from the bytes every field ([message_roundtrip]); as long as a direction
    has room for one message, neither peer waits for the other for ever
    ([exchange_completes]); setting up the socket keeps no descriptor but the
    one it returns ([server_accept_keeps], [client_connect_keeps]). *)

From S2P Require Import Prelude Endian.

Open Scope Z_scope.

(** ** The message *)

Definition TCP_EXCHANGE_PORT : Z := 18515.

Record ExchangeMsg := {
  em_qpn : Z;
  em_rkey : Z;
  em_lid : Z;
  em_pad : Z;
  em_remote_addr : Z;
  em_gid : list Z
}.

(** The packed structure in memory, on a little-endian host. *)
Definition encode (m : ExchangeMsg) : list Z :=
  bytes_of 4 (em_qpn m) ++ bytes_of 4 (em_rkey m) ++ bytes_of 2 (em_lid m) ++ bytes_of 2 (em_pad m)
  ++ bytes_of 8 (em_remote_addr m) ++ em_gid m.

Definition msg_field (off n : nat) (l : list Z) : list Z := take n (drop off l).

Definition decode (l : list Z) : ExchangeMsg := {|
  em_qpn := of_bytes (msg_field 0 4 l);
  em_rkey := of_bytes (msg_field 4 4 l);
  em_lid := of_bytes (msg_field 8 2 l);
  em_pad := of_bytes (msg_field 10 2 l);
  em_remote_addr := of_bytes (msg_field 12 8 l);
  em_gid := msg_field 20 16 l
|}.

Definition msg_ok (m : ExchangeMsg) : Prop :=
  0 <= em_qpn m < 2 ^ 32 /\ 0 <= em_rkey m < 2 ^ 32 /\ 0 <= em_lid m < 2 ^ 16
  /\ 0 <= em_pad m < 2 ^ 16 /\ 0 <= em_remote_addr m < 2 ^ 64 /\ length (em_gid m) = 16%nat.

(** ** Sending and receiving *)

(** What a system call answers: so many bytes moved - none when the other side
    has closed -, interrupted, or another error. *)
Inductive answer := Moved (n : nat) | Interrupted | Failed.

(** One turn of the loop of [tcp_send_all] with so much left: what goes out,
    and how the loop goes on or returns. *)
Definition send_turn (a : answer) (p : list Z) : list Z * (Z + list Z) :=
  match a with
  | Interrupted => ([], inr p)
  | Failed => ([], inl (-1))
  | Moved O => ([], inl (-1))
  | Moved n => (take n p, inr (drop n p))
  end.

Fixpoint tcp_send_all (answers : list answer) (p : list Z) : option (Z * list Z * list answer) :=
  match p with
  | [] => Some (0, [], answers)
  | _ =>
      match answers with
      | [] => None
      | a :: answers =>
          let '(out, r) := send_turn a p in
          match r with
          | inl rc => Some (rc, out, answers)
          | inr p => match tcp_send_all answers p with
                     | Some (rc, out', rest) => Some (rc, out ++ out', rest)
                     | None => None
                     end
          end
      end
  end.

(** One turn of the loop of [tcp_recv_all]: the bytes a call delivers are
    stored behind those received so far. *)
Definition recv_turn (a : answer) (incoming got : list Z) : list Z * (Z + list Z) :=
  match a with
  | Interrupted => (incoming, inr got)
  | Failed => (incoming, inl (-1))
  | Moved O => (incoming, inl (-1))
  | Moved n => (drop n incoming, inr (got ++ take n incoming))
  end.

Fixpoint tcp_recv_all (len : nat) (answers : list answer) (incoming got : list Z)
    : option (Z * list Z * list Z * list answer) :=
  if (len <=? length got)%nat then Some (0, incoming, got, answers)
  else
    match answers with
    | [] => None
    | a :: answers =>
        let '(incoming, r) := recv_turn a incoming got in
        match r with
        | inl rc => Some (rc, incoming, got, answers)
        | inr got => tcp_recv_all len answers incoming got
        end
    end.

(** ** One peer's call of [exchange_info], or of [tcp_sync] *)

(** What is left to send, what was received, and the result once it returned. *)
Record peer := { p_out : list Z; p_got : list Z; p_rc : option Z }.

Definition peer_start (msg : list Z) : peer := {| p_out := msg; p_got := []; p_rc := None |}.

(** The next turn of the loop it is in; it returns when a loop fails, or after
    the second. *)
Definition peer_turn (len : nat) (a : answer) (p : peer) (incoming : list Z)
    : peer * list Z * list Z :=
  match p_rc p with
  | Some _ => (p, incoming, [])
  | None =>
      match p_out p with
      | _ :: _ =>
          let '(out, r) := send_turn a (p_out p) in
          match r with
          | inl rc => ({| p_out := p_out p; p_got := p_got p; p_rc := Some rc |}, incoming, out)
          | inr rest => ({| p_out := rest; p_got := p_got p; p_rc := None |}, incoming, out)
          end
      | [] =>
          if (len <=? length (p_got p))%nat
          then ({| p_out := []; p_got := p_got p; p_rc := Some 0 |}, incoming, [])
          else
            let '(incoming, r) := recv_turn a incoming (p_got p) in
            match r with
            | inl rc => ({| p_out := []; p_got := p_got p; p_rc := Some rc |}, incoming, [])
            | inr got => ({| p_out := []; p_got := got; p_rc := None |}, incoming, [])
            end
      end
  end.

(** What the kernel may answer: a call moves no more than was asked, than there
    is, and than there is room for. *)
Definition permitted (cap len : nat) (a : answer) (p : peer) (incoming outgoing : list Z) : Prop :=
  match a with
  | Moved n =>
      match p_out p with
      | _ :: _ => (n <= length (p_out p))%nat /\ (length outgoing + n <= cap)%nat
      | [] => (n <= len - length (p_got p))%nat /\ (n <= length incoming)%nat
      end
  | _ => True
  end.

(** The code as it is composed, for one peer alone: what was sent, and what is
    in the other's structure, with the result. *)
Definition exchange_info (len : nat) (answers : list answer) (local incoming : list Z)
    : option (Z * list Z * list Z * list answer) :=
  match tcp_send_all answers local with
  | None => None
  | Some (rc, sent, answers) =>
      if negb (rc =? 0) then Some (-1, sent, [], answers)
      else match tcp_recv_all len answers incoming [] with
           | None => None
           | Some (rc, _, got, answers) => Some (if negb (rc =? 0) then -1 else 0, sent, got, answers)
           end
  end.

(** [tcp_sync] is the same with one byte, in place. *)
Definition tcp_sync (answers : list answer) (incoming : list Z) :
    option (Z * list Z * list Z * list answer) := exchange_info 1 answers [1] incoming.

(** The same call by its turns. *)
Fixpoint peer_run (len : nat) (answers : list answer) (p : peer) (incoming sent : list Z)
    : option (Z * list Z * list Z * list answer) :=
  match p_rc p with
  | Some rc => Some (rc, sent, p_got p, answers)
  | None =>
      if (length (p_out p) =? 0)%nat && (len <=? length (p_got p))%nat
      then Some (0, sent, p_got p, answers)
      else match answers with
           | [] => None
           | a :: answers => let '(p, incoming, out) := peer_turn len a p incoming in
                             peer_run len answers p incoming (sent ++ out)
           end
  end.

(** ** Two peers and the connection *)

Record exchange := { e_a : peer; e_b : peer; e_ab : list Z; e_ba : list Z }.

Definition exchange_start (ma mb : list Z) : exchange :=
  {| e_a := peer_start ma; e_b := peer_start mb; e_ab := []; e_ba := [] |}.

Definition turn_a (len : nat) (a : answer) (e : exchange) : exchange :=
  let '(p, ba, out) := peer_turn len a (e_a e) (e_ba e) in
  {| e_a := p; e_b := e_b e; e_ab := e_ab e ++ out; e_ba := ba |}.

Definition turn_b (len : nat) (a : answer) (e : exchange) : exchange :=
  let '(p, ab, out) := peer_turn len a (e_b e) (e_ab e) in
  {| e_a := e_a e; e_b := p; e_ab := ab; e_ba := e_ba e ++ out |}.

Inductive exchange_step (cap len : nat) (e : exchange) : exchange -> Prop :=
  | step_a a : permitted cap len a (e_a e) (e_ba e) (e_ab e) -> exchange_step cap len e (turn_a len a e)
  | step_b a : permitted cap len a (e_b e) (e_ab e) (e_ba e) -> exchange_step cap len e (turn_b len a e).

(** ** Sockets *)

(** What the calls that set a connection up answer, with the descriptors the
    process has. *)
Record sockets := {
  so_socket : gset Z -> option Z;
  so_bind : bool;
  so_listen : bool;
  so_accept : gset Z -> option Z;
  so_getaddrinfo : bool;
  so_connect : bool
}.

(** A new descriptor is none of those open, and not negative. *)
Class SocketsOk (so : sockets) : Prop := {
  so_socket_fresh fds fd : so_socket so fds = Some fd -> 0 <= fd /\ fd ∉ fds;
  so_accept_fresh fds fd : so_accept so fds = Some fd -> 0 <= fd /\ fd ∉ fds
}.

Definition tcp_server_accept (so : sockets) (fds : gset Z) : Z * gset Z :=
  match so_socket so fds with
  | None => (-1, fds)
  | Some listen_fd =>
      let fds := {[ listen_fd ]} ∪ fds in
      let close := fun fds : gset Z => fds ∖ {[ listen_fd ]} in
      if negb (so_bind so) then (-1, close fds)
      else if negb (so_listen so) then (-1, close fds)
      else match so_accept so fds with
           | None => (-1, close fds)
           | Some conn_fd => (conn_fd, close ({[ conn_fd ]} ∪ fds))
           end
  end.

(** The number of address lists not given back comes third. *)
Definition tcp_client_connect (so : sockets) (fds : gset Z) : Z * gset Z * Z :=
  if negb (so_getaddrinfo so) then (-1, fds, 0)
  else
    let lists := 1 in
    match so_socket so fds with
    | None => (-1, fds, lists - 1)
    | Some fd =>
        let fds := {[ fd ]} ∪ fds in
        if negb (so_connect so) then (-1, fds ∖ {[ fd ]}, lists - 1)
        else (fd, fds, lists - 1)
    end.

(** ** The message *)

Lemma length_encode m : msg_ok m -> length (encode m) = 36%nat.
Proof.
  intros (_ & _ & _ & _ & _ & Hg). unfold encode. rewrite !length_app, Hg.
  rewrite !(proj1 (bytes_of_bytes _ _)). done.
Qed.

Lemma field_at_app l1 l2 l3 n : length l1 = n -> msg_field n (length l2) (l1 ++ l2 ++ l3) = l2.
Proof. intros <-. unfold msg_field. by rewrite drop_app_length, take_app_length. Qed.

Lemma decode_field l1 l3 n k v :
  length l1 = n -> 0 <= v < 256 ^ Z.of_nat k -> of_bytes (msg_field n k (l1 ++ bytes_of k v ++ l3)) = v.
Proof.
  intros Hn Hv. rewrite <- (proj1 (bytes_of_bytes k v)) at 1. by rewrite field_at_app, of_bytes_of.
Qed.

Lemma decode_encode m : msg_ok m -> decode (encode m) = m.
Proof.
  intros Hm. destruct Hm as (H1 & H2 & H3 & H4 & H5 & H6).
  assert (L : forall n v, length (bytes_of n v) = n) by (intros; apply bytes_of_bytes).
  destruct m as [q r l p a g]. unfold decode, encode.
  cbn [em_qpn em_rkey em_lid em_pad em_remote_addr em_gid] in *. f_equal.
  - by apply (decode_field [] _ 0 4).
  - by apply (decode_field (bytes_of 4 q) _ 4 4).
  - rewrite app_assoc. apply (decode_field _ _ 8 2); [by rewrite length_app, !L|done].
  - rewrite 2!app_assoc. apply (decode_field _ _ 10 2); [by rewrite !length_app, !L|done].
  - rewrite 3!app_assoc. apply (decode_field _ _ 12 8); [by rewrite !length_app, !L|done].
  - rewrite 4!app_assoc. unfold msg_field. rewrite drop_app_length'; [|by rewrite !length_app, !L].
    by rewrite take_ge by lia.
Qed.

(** A message that goes through memory as bytes comes back field by field. *)
Theorem message_roundtrip m : msg_ok m -> length (encode m) = 36%nat /\ decode (encode m) = m.
Proof. intros Hm. split; [by apply length_encode|by apply decode_encode]. Qed.

Definition demo_msg : ExchangeMsg := {|
  em_qpn := 4919; em_rkey := 3735928559; em_lid := 0; em_pad := 0; em_remote_addr := 140187732541440;
  em_gid := [0; 0; 0; 0; 0; 0; 0; 0; 0; 0; 255; 255; 10; 0; 0; 1]
|}.

Example message_roundtrip_witness : decode (encode demo_msg) = demo_msg.
Proof. apply (message_roundtrip demo_msg). repeat split; (by vm_compute) || done. Defined.

(** ** The loops *)

(** What goes out when the loop succeeds is the buffer, otherwise a part of it
    from the front. *)
Lemma send_all_sends answers : forall p rc out rest,
  tcp_send_all answers p = Some (rc, out, rest) ->
  (rc = 0 /\ out = p) \/ (rc = -1 /\ exists unsent, p = out ++ unsent).
Proof.
  induction answers as [|a answers IH]; intros [|b p] rc out rest H; cbn in H;
    try done; [by left; injection H as <- <- <-..|].
  destruct a as [[|n]| |]; cbn in H.
  - injection H as <- <- <-. right. split; [done|]. by exists (b :: p).
  - destruct (tcp_send_all answers (drop n p)) as [[[rc' out'] rest']|] eqn:E; [|done].
    injection H as <- <- <-. destruct (IH _ _ _ _ E) as [[-> ->]|[-> [u Hu]]]; [left|right].
    + split; [done|]. cbn. by rewrite take_drop.
    + split; [done|]. exists u. cbn. by rewrite <- app_assoc, <- Hu, take_drop.
  - destruct (tcp_send_all answers (b :: p)) as [[[rc' out'] rest']|] eqn:E; [|done].
    injection H as <- <- <-. by apply IH in E.
  - injection H as <- <- <-. right. split; [done|]. by exists (b :: p).
Qed.

(** Interruptions apart, the loop needs no more turns than there are bytes. *)
Definition progresses (a : answer) : Prop := a <> Interrupted.
#[local] Instance progresses_dec a : Decision (progresses a).
Proof. destruct a; [left|right|left]; unfold progresses; (done || tauto). Defined.

Lemma send_all_returns answers : forall p,
  (length p <= length (filter progresses answers))%nat -> is_Some (tcp_send_all answers p).
Proof.
  induction answers as [|a answers IH]; intros [|b p] H; try done; [cbn in H; lia|].
  rewrite filter_cons in H. cbn [length] in H. destruct a as [[|n]| |]; cbn; try done.
  - rewrite decide_True in H by done. cbn in H.
    destruct (IH (drop n p)) as [[[rc out] rest] ->]; [rewrite length_drop; lia|done].
  - rewrite decide_False in H by (unfold progresses; tauto). destruct (IH (b :: p) H) as [[[rc out] rest] ->]. done.
Qed.

(** ** The call by its turns *)

Lemma recv_all_run len answers : forall incoming got sent,
  peer_run len answers {| p_out := []; p_got := got; p_rc := None |} incoming sent
  = match tcp_recv_all len answers incoming got with
    | None => None
    | Some (rc, _, got, rest) => Some (rc, sent, got, rest)
    end.
Proof.
  induction answers as [|a answers IH]; intros incoming got sent; cbn.
  - by destruct (len <=? length got)%nat.
  - destruct (Nat.leb_spec len (length got)) as [|Hl]; [done|].
    destruct a as [[|n]| |]; cbn; rewrite ?app_nil_r; try apply IH; by destruct answers.
Qed.

Lemma recv_all_rc len answers : forall incoming got rc inc' got' rest,
  tcp_recv_all len answers incoming got = Some (rc, inc', got', rest) -> rc = 0 \/ rc = -1.
Proof.
  induction answers as [|a answers IH]; intros incoming got rc inc' got' rest; cbn;
    (destruct (len <=? length got)%nat; [intros [= <- _ _ _]; by left|]); [done|].
  destruct a as [[|n]| |]; cbn; first [by apply IH|intros [= <- _ _ _]; by right].
Qed.

(** The turns of a peer, one after another, are [exchange_info]: the interface
    the interleavings below are made of is the code's. *)
Theorem turns_are_exchange_info len answers local incoming :
  peer_run len answers (peer_start local) incoming []
  = exchange_info len answers local incoming.
Proof.
  enough (H : forall answers local sent,
    peer_run len answers {| p_out := local; p_got := []; p_rc := None |} incoming sent
    = match tcp_send_all answers local with
      | None => None
      | Some (rc, out, rest) =>
          if negb (rc =? 0) then Some (-1, sent ++ out, [], rest)
          else match tcp_recv_all len rest incoming [] with
               | None => None
               | Some (rc, _, got, rest) => Some (if negb (rc =? 0) then -1 else 0, sent ++ out, got, rest)
               end
      end).
  { unfold exchange_info, peer_start. rewrite H. destruct (tcp_send_all answers local) as [[[rc out] rest]|]; [|done].
    destruct (negb (rc =? 0)); [done|]. by destruct (tcp_recv_all len rest incoming []) as [[[[? ?] ?] ?]|]. }
  clear answers local. induction answers as [|a answers IH]; intros [|b p] sent.
  - rewrite recv_all_run. cbn [tcp_send_all]. cbn [Z.eqb negb]. rewrite app_nil_r.
    destruct (tcp_recv_all len [] incoming []) as [[[[rc ?] ?] ?]|] eqn:E; [|done].
    by destruct (recv_all_rc _ _ _ _ _ _ _ _ E) as [-> | ->].
  - done.
  - rewrite recv_all_run. cbn [tcp_send_all]. cbn [Z.eqb negb]. rewrite app_nil_r.
    destruct (tcp_recv_all len (a :: answers) incoming []) as [[[[rc ?] ?] ?]|] eqn:E; [|done].
    by destruct (recv_all_rc _ _ _ _ _ _ _ _ E) as [-> | ->].
  - cbn [peer_run p_rc p_out p_got length Nat.eqb andb]. unfold peer_turn. cbn [p_rc p_out p_got].
    destruct a as [[|n]| |]; cbn [send_turn tcp_send_all].
    + by destruct answers; cbn.
    + rewrite IH. destruct (tcp_send_all answers (drop (S n) (b :: p))) as [[[rc out] rest]|]; [|done].
      by rewrite !app_assoc.
    + rewrite IH, app_nil_r. by destruct (tcp_send_all answers (b :: p)) as [[[rc out] rest]|].
    + by destruct answers; cbn.
Qed.

Example turns_are_exchange_info_run :
  peer_run 3 [Moved 2; Interrupted; Moved 1; Moved 1; Moved 2] (peer_start [1; 2; 3]) [7; 8; 9] []
  = Some (0, [1; 2; 3], [7; 8; 9], []).
Proof. by vm_compute. Qed.

(** ** Two peers *)

(** A turn moves bytes, and loses none. *)
Lemma peer_turn_moves len a p inc p' inc' out :
  peer_turn len a p inc = (p', inc', out) ->
  p_out p = out ++ p_out p' /\ p_got p ++ inc = p_got p' ++ inc'
  /\ (p_rc p' = Some 0 -> p_rc p = Some 0 \/ (p_out p' = [] /\ (len <= length (p_got p'))%nat))
  /\ (p_rc p' = Some 0 -> p_rc p = Some 0 -> p' = p).
Proof.
  unfold peer_turn. destruct p as [po pg [rc|]]; cbn [p_rc p_out p_got].
  { intros [= <- <- <-]. repeat split; cbn; auto. }
  destruct po as [|b po].
  - destruct (Nat.leb_spec len (length pg)); [intros [= <- <- <-]; repeat split; cbn; auto; done|].
    destruct a as [[|n]| |]; cbn [recv_turn]; intros [= <- <- <-]; cbn [p_rc p_out p_got];
      repeat split; try done; by rewrite <- app_assoc, take_drop.
  - destruct a as [[|n]| |]; cbn [send_turn]; intros [= <- <- <-]; cbn [p_rc p_out p_got];
      repeat split; try done; cbn; by rewrite take_drop.
Qed.

Section Exchange.
Context (cap len : nat) (ma mb : list Z) (Ha : length ma = len) (Hb : length mb = len).

(** Every byte is on one side, on the way, or on the other; a peer that
    succeeded has sent all and received as many. *)
Record exchange_ok (e : exchange) : Prop := {
  eo_a : ma = p_got (e_b e) ++ e_ab e ++ p_out (e_a e);
  eo_b : mb = p_got (e_a e) ++ e_ba e ++ p_out (e_b e);
  eo_ra : p_rc (e_a e) = Some 0 -> p_out (e_a e) = [] /\ (len <= length (p_got (e_a e)))%nat;
  eo_rb : p_rc (e_b e) = Some 0 -> p_out (e_b e) = [] /\ (len <= length (p_got (e_b e)))%nat
}.

Lemma exchange_ok_start : exchange_ok (exchange_start ma mb).
Proof using. by constructor. Qed.

Lemma exchange_ok_step e e' : exchange_step cap len e e' -> exchange_ok e -> exchange_ok e'.
Proof using.
  intros Hs [H1 H2 H3 H4]. destruct Hs as [a _|a _].
  - unfold turn_a. destruct (peer_turn len a (e_a e) (e_ba e)) as [[p inc] out] eqn:E.
    destruct (peer_turn_moves _ _ _ _ _ _ _ E) as (G1 & G2 & G3 & G4).
    constructor; cbn [e_a e_b e_ab e_ba]; [by rewrite H1, G1, <- app_assoc| |..|done].
    + rewrite H2, app_assoc, G2. by rewrite app_assoc.
    + intros Hr. destruct (G3 Hr) as [Hp|]; [|done]. rewrite (G4 Hr Hp). by apply H3.
  - unfold turn_b. destruct (peer_turn len a (e_b e) (e_ab e)) as [[p inc] out] eqn:E.
    destruct (peer_turn_moves _ _ _ _ _ _ _ E) as (G1 & G2 & G3 & G4).
    constructor; cbn [e_a e_b e_ab e_ba]; [|by rewrite H2, G1, <- app_assoc|done|].
    + rewrite H1, app_assoc, G2. by rewrite app_assoc.
    + intros Hr. destruct (G3 Hr) as [Hp|]; [|done]. rewrite (G4 Hr Hp). by apply H4.
Qed.

Lemma exchange_ok_reach e :
  rtc (exchange_step cap len) (exchange_start ma mb) e -> exchange_ok e.
Proof using.
  intros H. pattern (exchange_start ma mb), e in H.
  assert (G : forall x y, rtc (exchange_step cap len) x y -> exchange_ok x -> exchange_ok y).
  { induction 1 as [|x y z Hxy _ IH]; [done|]. intros Hx. by eapply IH, exchange_ok_step. }
  eapply G; [done|apply exchange_ok_start].
Qed.

(** What a peer that succeeded has is the whole message. *)
Lemma got_whole e :
  exchange_ok e -> (p_rc (e_a e) = Some 0 -> p_got (e_a e) = mb) /\ (p_rc (e_b e) = Some 0 -> p_got (e_b e) = ma).
Proof using Ha Hb.
  intros [H1 H2 H3 H4]. split; intros Hr.
  - destruct (H3 Hr) as [_ Hl]. rewrite H2. rewrite H2, !length_app in Hb.
    destruct (e_ba e), (p_out (e_b e)); cbn in Hb; try lia. by rewrite app_nil_r.
  - destruct (H4 Hr) as [_ Hl]. rewrite H1. rewrite H1, !length_app in Ha.
    destruct (e_ab e), (p_out (e_a e)); cbn in Ha; try lia. by rewrite app_nil_r.
Qed.

(** *** Completion *)

Definition weight (p : peer) : nat :=
  length (p_out p) + (len - length (p_got p)) + match p_rc p with Some _ => 0 | None => 1 end.
Definition total (e : exchange) : nat := weight (e_a e) + weight (e_b e).

(** No call has failed. *)
Definition well (p : peer) : Prop := p_rc p = None \/ p_rc p = Some 0.

(** A peer that has not returned and need not wait for bytes can move. *)
Lemma can_move p inc out :
  p_rc p = None -> (length out + length (p_out p) <= cap)%nat ->
  (p_out p = [] -> (length (p_got p) < len)%nat -> inc <> []) ->
  exists a, permitted cap len a p inc out
    /\ forall p' inc' o, peer_turn len a p inc = (p', inc', o) -> (weight p' < weight p)%nat /\ well p'.
Proof using.
  clear ma mb Ha Hb. destruct p as [po pg rc]. cbn [p_rc p_out p_got]. intros -> Hc Hi. destruct po as [|b po].
  - destruct (Nat.leb_spec len (length pg)) as [Hl|Hl].
    + exists Interrupted. split; [done|]. unfold peer_turn. cbn [p_rc p_out p_got].
      rewrite (proj2 (Nat.leb_le _ _)) by done. intros p' inc' o [= <- <- <-].
      unfold weight, well. cbn. split; [lia|by right].
    + destruct inc as [|x inc]; [by destruct Hi|]. exists (Moved 1). split; [cbn; lia|].
      unfold peer_turn. cbn [p_rc p_out p_got]. rewrite (proj2 (Nat.leb_gt _ _)) by done.
      cbn [recv_turn]. intros p' inc' o [= <- <- <-]. unfold weight, well. cbn.
      rewrite length_app. cbn. split; [lia|by left].
  - exists (Moved 1). split; [cbn in *; lia|]. unfold peer_turn. cbn [p_rc p_out p_got send_turn].
    intros p' inc' o [= <- <- <-]. unfold weight, well. cbn. rewrite drop_0. split; [lia|by left].
Qed.

Lemma advance_one e :
  (len <= cap)%nat -> exchange_ok e -> well (e_a e) -> well (e_b e) ->
  (p_rc (e_a e) = Some 0 /\ p_rc (e_b e) = Some 0)
  \/ exists e', exchange_step cap len e e' /\ (total e' < total e)%nat /\ well (e_a e') /\ well (e_b e').
Proof using Ha Hb.
  intros Hcap Hok Wa Wb. pose proof Hok as [H1 H2 H3 H4].
  pose proof Ha as La. rewrite H1, !length_app in La. pose proof Hb as Lb. rewrite H2, !length_app in Lb.
  assert (Ma : p_rc (e_a e) = None -> (p_out (e_a e) = [] -> (length (p_got (e_a e)) < len)%nat -> e_ba e <> []) ->
    exists e', exchange_step cap len e e' /\ (total e' < total e)%nat /\ well (e_a e') /\ well (e_b e')).
  { intros Hr Hw. destruct (can_move (e_a e) (e_ba e) (e_ab e) Hr ltac:(lia) Hw) as (a & Hp & Hlt).
    exists (turn_a len a e). split; [by constructor|]. unfold turn_a, total.
    destruct (peer_turn len a (e_a e) (e_ba e)) as [[p inc] o] eqn:E. destruct (Hlt _ _ _ eq_refl).
    cbn. split; [lia|done]. }
  assert (Mb : p_rc (e_b e) = None -> (p_out (e_b e) = [] -> (length (p_got (e_b e)) < len)%nat -> e_ab e <> []) ->
    exists e', exchange_step cap len e e' /\ (total e' < total e)%nat /\ well (e_a e') /\ well (e_b e')).
  { intros Hr Hw. destruct (can_move (e_b e) (e_ab e) (e_ba e) Hr ltac:(lia) Hw) as (a & Hp & Hlt).
    exists (turn_b len a e). split; [by constructor|]. unfold turn_b, total.
    destruct (peer_turn len a (e_b e) (e_ab e)) as [[p inc] o] eqn:E. destruct (Hlt _ _ _ eq_refl).
    cbn. split; [lia|done]. }
  destruct Wa as [Ra|Ra].
  - destruct (e_ba e) as [|x l] eqn:Eba; [|right; apply Ma; done].
    destruct (p_out (e_a e)) as [|y m] eqn:Eo; [|by right; apply Ma].
    destruct (decide (length (p_got (e_a e)) < len)%nat) as [Hlt|]; [|right; apply Ma; [done|intros; lia]].
    right. apply Mb.
    + destruct Wb as [|Rb]; [done|]. destruct (H4 Rb) as [E _]. rewrite E in Lb. cbn in Lb. lia.
    + intros E _. rewrite E in Lb. cbn in Lb. lia.
  - destruct Wb as [Rb|Rb]; [|by left]. destruct (H3 Ra) as [E Hl].
    right. apply Mb; [done|]. intros _ Hlt Ee. rewrite E, Ee in La. cbn in La. lia.
Qed.
End Exchange.

(** Whatever pieces the calls move, in whatever order the peers take turns, be
    they interrupted or not: what a peer that succeeds holds is the message
    the other one sent, field by field. *)
Theorem exchange_delivers cap la lb e :
  msg_ok la -> msg_ok lb ->
  rtc (exchange_step cap 36) (exchange_start (encode la) (encode lb)) e ->
  (p_rc (e_a e) = Some 0 -> decode (p_got (e_a e)) = lb)
  /\ (p_rc (e_b e) = Some 0 -> decode (p_got (e_b e)) = la).
Proof.
  intros Hla Hlb Hr. apply exchange_ok_reach in Hr.
  apply (got_whole 36) in Hr as [Ga Gb]; [|by apply length_encode..].
  split; [intros H; rewrite (Ga H)|intros H; rewrite (Gb H)]; by apply decode_encode.
Qed.

Definition demo_msg2 : ExchangeMsg := {|
  em_qpn := 17; em_rkey := 4660; em_lid := 0; em_pad := 0; em_remote_addr := 4096;
  em_gid := [0; 0; 0; 0; 0; 0; 0; 0; 0; 0; 255; 255; 10; 0; 0; 2]
|}.

Lemma demo_msgs_ok : msg_ok demo_msg /\ msg_ok demo_msg2.
Proof. by repeat split. Qed.

(** A run in which one peer sends in two pieces and is interrupted. *)
Definition demo_run : exchange :=
  let e := exchange_start (encode demo_msg) (encode demo_msg2) in
  let e := turn_a 36 (Moved 20) e in
  let e := turn_b 36 (Moved 36) e in
  let e := turn_a 36 Interrupted e in
  let e := turn_b 36 (Moved 20) e in
  let e := turn_a 36 (Moved 16) e in
  let e := turn_a 36 (Moved 36) e in
  let e := turn_b 36 (Moved 16) e in
  turn_b 36 Interrupted (turn_a 36 Interrupted e).

Lemma demo_run_reaches :
  rtc (exchange_step 4096 36) (exchange_start (encode demo_msg) (encode demo_msg2)) demo_run.
Proof.
  unfold demo_run. do 9 (eapply rtc_r; [|constructor; vm_compute; repeat split; lia]). constructor.
Qed.

Example exchange_delivers_witness :
  decode (p_got (e_a demo_run)) = demo_msg2 /\ decode (p_got (e_b demo_run)) = demo_msg.
Proof.
  destruct demo_msgs_ok as [H1 H2].
  pose proof (exchange_delivers 4096 demo_msg demo_msg2 demo_run H1 H2 demo_run_reaches) as [Ga Gb].
  split; [apply Ga|apply Gb]; by vm_compute.
Defined.

(** C21: Neither peer waits for the other for ever: as long as no call fails and a
    direction of the connection has room for a message, the two can always
    run on until both have succeeded, each with the other's message. *)
Theorem exchange_completes cap la lb e :
  (36 <= cap)%nat -> msg_ok la -> msg_ok lb ->
  rtc (exchange_step cap 36) (exchange_start (encode la) (encode lb)) e ->
  well (e_a e) -> well (e_b e) ->
  exists e', rtc (exchange_step cap 36) e e'
    /\ p_rc (e_a e') = Some 0 /\ p_rc (e_b e') = Some 0
    /\ decode (p_got (e_a e')) = lb /\ decode (p_got (e_b e')) = la.
Proof.
  intros Hcap Hla Hlb Hr Wa Wb. apply exchange_ok_reach in Hr.
  pose proof (length_encode _ Hla) as La. pose proof (length_encode _ Hlb) as Lb.
  remember (total 36 e) as n eqn:En. revert e Hr Wa Wb En.
  induction n as [n IH] using lt_wf_ind. intros e Hok Wa Wb ->.
  destruct (advance_one cap 36 _ _ La Lb e Hcap Hok Wa Wb) as [[Ra Rb]|(e1 & Hs & Hlt & Wa1 & Wb1)].
  - exists e. destruct (got_whole 36 _ _ La Lb e Hok) as [Ga Gb].
    repeat split; try done; [rewrite (Ga Ra)|rewrite (Gb Rb)]; by apply decode_encode.
  - destruct (IH _ Hlt e1) as (e2 & Hrun & H); try done; [by eapply exchange_ok_step|].
    exists e2. split; [by eapply rtc_l|done].
Qed.

Example exchange_completes_witness :
  exists e', rtc (exchange_step 36 36) (exchange_start (encode demo_msg) (encode demo_msg2)) e'
    /\ p_rc (e_a e') = Some 0 /\ decode (p_got (e_b e')) = demo_msg.
Proof.
  destruct demo_msgs_ok as [H1 H2].
  destruct (exchange_completes 36 demo_msg demo_msg2 (exchange_start (encode demo_msg) (encode demo_msg2))
    ltac:(lia) H1 H2 (rtc_refl _ _) (or_introl eq_refl) (or_introl eq_refl)) as (e' & Hr & Ra & _ & _ & Hd).
  by exists e'.
Defined.

(** With less room than a message, two peers that both send first can stop:
    each waits for the other to read. *)
Lemma small_buffers_deadlock :
  exists e, rtc (exchange_step 1 2) (exchange_start [1; 2] [3; 4]) e
    /\ forall e', exchange_step 1 2 e e' -> well (e_a e') -> well (e_b e') -> e' = e.
Proof.
  set (e := turn_b 2 (Moved 1) (turn_a 2 (Moved 1) (exchange_start [1; 2] [3; 4]))). exists e. split.
  - unfold e. do 2 (eapply rtc_r; [|constructor; vm_compute; repeat split; lia]). constructor.
  - intros e' Hs. destruct Hs as [[[|n]| |] Hp|[[|n]| |] Hp]; vm_compute in Hp; try lia; try done;
      intros [W|W] [W'|W']; vm_compute in W, W'; done.
Qed.

(** ** Sockets *)

(** Of the descriptors it opened the server keeps the connection's alone, and
    none when it fails; the client the same, and gives its address list
    back. *)
Theorem server_accept_keeps so fds :
  SocketsOk so ->
  let '(fd, fds') := tcp_server_accept so fds in
  (fd = -1 /\ fds' = fds) \/ (0 <= fd /\ fd ∉ fds /\ fds' = {[ fd ]} ∪ fds).
Proof.
  intros Hso. unfold tcp_server_accept. destruct (so_socket so fds) as [l|] eqn:El; [|by left].
  apply so_socket_fresh in El as [_ Hl].
  assert (Hback : ({[ l ]} ∪ fds) ∖ {[ l ]} = fds) by (apply set_eq; intros x; destruct (decide (x = l)); set_solver).
  destruct (so_bind so); cbn [negb]; [|by left]. destruct (so_listen so); cbn [negb]; [|by left].
  destruct (so_accept so ({[ l ]} ∪ fds)) as [c|] eqn:Ec; [|by left].
  apply so_accept_fresh in Ec as [Hc0 Hc]. right. split; [done|]. split; [set_solver|].
  apply set_eq. intros x. destruct (decide (x = l)); set_solver.
Qed.

Theorem client_connect_keeps so fds :
  SocketsOk so ->
  let '(fd, fds', lists) := tcp_client_connect so fds in
  lists = 0 /\ ((fd = -1 /\ fds' = fds) \/ (0 <= fd /\ fd ∉ fds /\ fds' = {[ fd ]} ∪ fds)).
Proof.
  intros Hso. unfold tcp_client_connect. destruct (so_getaddrinfo so); cbn [negb]; [|by split; [|left]].
  destruct (so_socket so fds) as [l|] eqn:El; [|by split; [|left]].
  apply so_socket_fresh in El as [Hl0 Hl]. destruct (so_connect so); cbn [negb]; [by split; [|right]|].
  split; [done|]. left. split; [done|]. apply set_eq. intros x. destruct (decide (x = l)); set_solver.
Qed.

Definition demo_sockets : sockets := {|
  so_socket := fun fds => Some (1 + sumZ Z.abs (elements fds));
  so_bind := true; so_listen := true;
  so_accept := fun fds => Some (1 + sumZ Z.abs (elements fds));
  so_getaddrinfo := true; so_connect := true
|}.

#[local] Instance demo_sockets_ok : SocketsOk demo_sockets.
Proof.
  assert (H : forall fds fd : Z, forall F : gset Z, Some (1 + sumZ Z.abs (elements F)) = Some fd -> 0 <= fd /\ fd ∉ F).
  { intros _ fd F [= <-]. pose proof (sumZ_nonneg Z.abs (elements F) Z.abs_nonneg). split; [lia|].
    intros Hin. apply elem_of_elements in Hin. pose proof (sumZ_elem_le Z.abs _ _ Z.abs_nonneg Hin). lia. }
  constructor; intros F fd; by apply (H 0).
Qed.

Example server_accept_keeps_witness :
  let '(fd, fds') := tcp_server_accept demo_sockets {[ 3 ]} in 0 <= fd /\ fds' = {[ fd ]} ∪ {[ 3 ]}.
Proof.
  pose proof (server_accept_keeps demo_sockets {[ 3 ]} demo_sockets_ok) as H.
  destruct (tcp_server_accept demo_sockets {[ 3 ]}) as [fd fds'] eqn:E. vm_compute in E.
  destruct H as [[-> _]|(H1 & _ & H2)]; [by inversion E|done].
Defined.

Example client_connect_keeps_witness :
  let '(fd, _, lists) := tcp_client_connect demo_sockets {[ 3 ]} in lists = 0 /\ fd = 4.
Proof.
  pose proof (client_connect_keeps demo_sockets {[ 3 ]} demo_sockets_ok) as H.
  destruct (tcp_client_connect demo_sockets {[ 3 ]}) as [[fd fds'] lists] eqn:E. vm_compute in E.
  destruct H as [H _]. split; [done|by inversion E].
Defined.
