(* ===== verification/PingPong.v ===== *)
(** * The ping-pong test between two nodes

    [pingpong_client_kernel] and [pingpong_server_kernel] of
    [src/src/endpoints/rdma-ep/rdma-ep.hip]: each node fills its send buffer with
    a sequence number and a pattern, writes it into the other's receive buffer,
    waits for its own write to complete and spins on the number that comes
    back, then verifies the pattern behind it.  The NICs are hardware: a write
    becomes visible on the other side in pieces of [chunk] bytes, in the order
    of the addresses, and is complete when all of it is.

    The theorems: if a message becomes visible as a whole, no node ever counts
    an error ([pingpong_no_errors]) and every schedule ends, with all
    iterations done ([pingpong_terminates]).  The number is in front of the pattern,
    though: if it can be seen before what follows it, a correct transfer is
    counted as an error ([number_before_pattern]). *)

From S2P Require Import Prelude Endian DataPattern.

Arguments Z.mul : simpl never.
Arguments Z.add : simpl never.
Arguments Z.modulo : simpl never.
Arguments Z.div : simpl never.

(** ** The code *)

(** [struct PingPongBuf]: eight bytes of [seq], then the payload. *)
Definition pp_seq (buf : list Z) : Z := of_bytes (take 8 buf).
Definition pp_payload (buf : list Z) : list Z := drop 8 buf.

Definition pp_params (pp_size iter : Z) : DataPatternParams :=
  {| pat_offset := 0; pat_blockSize := u32 (pp_size - 8); pat_seed := iter; pat_reports := false |}.

(** [None]: the division by zero of [dataPattern]. *)
Definition pp_fill (pp_size iter : Z) (buf : list Z) : option (list Z) :=
  '(_, payload, _) ← dataPattern false (pp_params pp_size iter) (pp_payload buf);
  Some (bytes_of 8 iter ++ payload).

Definition pp_verify (pp_size iter : Z) (buf : list Z) : option bool :=
  '(ok, _, _) ← dataPattern true (pp_params pp_size iter) (pp_payload buf); Some ok.

(** Where a kernel is: about to fill and post, waiting for its write, spinning
    on the receive buffer; [Faulted] by a division by zero. *)
Inductive pp_pc := Filling | Quieting | Spinning | Faulted.

Record pp_node := { nd_i : Z; nd_pc : pp_pc; nd_send : list Z; nd_recv : list Z; nd_errors : Z }.

(** A write under way: the bytes, and how many of them are visible. *)
Definition pp_wire : Type := option (list Z * nat).

Inductive pp_role := Client | Server.

Definition fill_and_post (pp_size : Z) (n : pp_node) : pp_node * pp_wire :=
  match pp_fill pp_size (u32 (nd_i n + 1)) (nd_send n) with
  | Some buf => ({| nd_i := nd_i n; nd_pc := Quieting; nd_send := buf; nd_recv := nd_recv n; nd_errors := nd_errors n |},
                 Some (buf, 0%nat))
  | None => ({| nd_i := nd_i n; nd_pc := Faulted; nd_send := nd_send n; nd_recv := nd_recv n; nd_errors := nd_errors n |}, None)
  end.

(** The spin is over: verify. *)
Definition pp_receive (pp_size i' : Z) (pc' : pp_pc) (n : pp_node) : pp_node :=
  match pp_verify pp_size (u32 (nd_i n + 1)) (nd_recv n) with
  | Some ok => {| nd_i := i'; nd_pc := pc'; nd_send := nd_send n; nd_recv := nd_recv n;
                  nd_errors := if ok then nd_errors n else u32 (nd_errors n + 1) |}
  | None => {| nd_i := nd_i n; nd_pc := Faulted; nd_send := nd_send n; nd_recv := nd_recv n; nd_errors := nd_errors n |}
  end.

Definition pp_at_pc (i : Z) (pc : pp_pc) (n : pp_node) : pp_node :=
  {| nd_i := i; nd_pc := pc; nd_send := nd_send n; nd_recv := nd_recv n; nd_errors := nd_errors n |}.

(** One turn of a kernel, with the write it has under way.  The client sends,
    waits for the answer and goes on; the server waits, answers and goes on. *)
Definition node_turn (r : pp_role) (pp_size iters : Z) (n : pp_node) (out : pp_wire) : pp_node * pp_wire :=
  if iters <=? nd_i n then (n, out) else
  match nd_pc n with
  | Filling => fill_and_post pp_size n
  | Quieting =>
      match out with
      | Some _ => (n, out)
      | None => (match r with Client => pp_at_pc (nd_i n) Spinning n | Server => pp_at_pc (u32 (nd_i n + 1)) Spinning n end, None)
      end
  | Spinning =>
      if negb (pp_seq (nd_recv n) =? u32 (nd_i n + 1)) then (n, out)
      else (match r with
            | Client => pp_receive pp_size (u32 (nd_i n + 1)) Filling n
            | Server => pp_receive pp_size (nd_i n) Filling n
            end, out)
  | Faulted => (n, out)
  end.

Definition node_start (r : pp_role) (buf : list Z) : pp_node :=
  {| nd_i := 0; nd_pc := match r with Client => Filling | Server => Spinning end;
     nd_send := buf; nd_recv := buf; nd_errors := 0 |}.

(** ** The two nodes and the NICs *)

Record pp_system := { pp_client : pp_node; pp_server : pp_node; pp_to_server : pp_wire; pp_to_client : pp_wire }.

(** The next piece of a write becomes visible in the receive buffer; when all
    of it is, the write completes. *)
Definition pp_place (chunk : nat) (w : pp_wire) (n : pp_node) : pp_wire * pp_node :=
  match w with
  | Some (d, k) =>
      if (k <? length d)%nat
      then let k' := Nat.min (length d) (k + chunk) in
           (Some (d, k'), {| nd_i := nd_i n; nd_pc := nd_pc n; nd_send := nd_send n;
                             nd_recv := take k' d ++ drop k' (nd_recv n); nd_errors := nd_errors n |})
      else (None, n)
  | None => (None, n)
  end.

(** Who moves: a kernel takes a turn, or a NIC makes the next piece visible. *)
Inductive pp_move := ClientTurn | ServerTurn | PlaceServer | PlaceClient.

Definition pp_do (chunk : nat) (pp_size iters : Z) (s : pp_system) (m : pp_move) : pp_system :=
  match m with
  | ClientTurn => let '(n, w) := node_turn Client pp_size iters (pp_client s) (pp_to_server s) in
      {| pp_client := n; pp_server := pp_server s; pp_to_server := w; pp_to_client := pp_to_client s |}
  | ServerTurn => let '(n, w) := node_turn Server pp_size iters (pp_server s) (pp_to_client s) in
      {| pp_client := pp_client s; pp_server := n; pp_to_server := pp_to_server s; pp_to_client := w |}
  | PlaceServer => let '(w, n) := pp_place chunk (pp_to_server s) (pp_server s) in
      {| pp_client := pp_client s; pp_server := n; pp_to_server := w; pp_to_client := pp_to_client s |}
  | PlaceClient => let '(w, n) := pp_place chunk (pp_to_client s) (pp_client s) in
      {| pp_client := n; pp_server := pp_server s; pp_to_server := pp_to_server s; pp_to_client := w |}
  end.

Inductive pp_step (chunk : nat) (pp_size iters : Z) (s : pp_system) : pp_system -> Prop :=
| pp_moves m : pp_step chunk pp_size iters s (pp_do chunk pp_size iters s m).

(** Both buffers of both nodes are cleared before the barrier ([tcp_sync]) behind
    which the kernels start. *)
Definition pp_start (pp_size : Z) : pp_system :=
  {| pp_client := node_start Client (repeat 0 (Z.to_nat pp_size)); pp_server := node_start Server (repeat 0 (Z.to_nat pp_size));
     pp_to_server := None; pp_to_client := None |}.

Definition pp_reachable (chunk : nat) (pp_size iters : Z) (s : pp_system) : Prop :=
  rtc (pp_step chunk pp_size iters) (pp_start pp_size) s.

Definition pp_run (chunk : nat) (pp_size iters : Z) (moves : list pp_move) : pp_system :=
  foldl (pp_do chunk pp_size iters) (pp_start pp_size) moves.

Lemma pp_run_reachable chunk pp_size iters moves : pp_reachable chunk pp_size iters (pp_run chunk pp_size iters moves).
Proof.
  induction moves as [|m moves IH] using rev_ind; [apply rtc_refl|].
  unfold pp_run. rewrite foldl_app. eapply rtc_r; [exact IH|]. constructor.
Qed.

(** ** Messages *)

(** The message of an iteration; before the first, the buffers are clear. *)
Definition pp_pattern (n : nat) (iter : Z) : list Z :=
  map (fun k => pattern_byte 0 (pattern_seed 0 iter) (Z.of_nat k)) (seq 0 n).
Definition pp_message (pp_size n : Z) : list Z :=
  if n =? 0 then repeat 0 (Z.to_nat pp_size) else bytes_of 8 n ++ pp_pattern (Z.to_nat (pp_size - 8)) n.

Section Messages.
Context (pp_size : Z).
Hypothesis Hsize : 16 <= pp_size < 4294967296.

Lemma length_message n : length (pp_message pp_size n) = Z.to_nat pp_size.
Proof using Hsize.
  unfold pp_message. destruct (n =? 0); [apply repeat_length|].
  unfold pp_pattern. rewrite length_app, length_map, length_seq, (proj1 (bytes_of_bytes 8 n)). lia.
Qed.

Lemma written_pattern buf iter :
  fst (pattern_loop false 0 (pattern_seed 0 iter) 0 buf) = pp_pattern (length buf) iter.
Proof using Type.
  destruct (pattern_written 0 (pattern_seed 0 iter) buf 0) as (_ & Hl & Hk).
  apply list_eq_same_length with (length buf); [unfold pp_pattern; by rewrite length_map, length_seq|done|].
  intros k x y Hlt Hx Hy. rewrite Hk in Hx by done. simplify_eq.
  unfold pp_pattern in Hy. rewrite list_lookup_fmap, lookup_seq_lt in Hy by done. cbn in Hy. simplify_eq. by rewrite Z.add_0_l.
Qed.

Lemma fill_message buf iter :
  length buf = Z.to_nat pp_size -> 0 < iter -> pp_fill pp_size iter buf = Some (pp_message pp_size iter).
Proof using Hsize.
  intros Hl Hi. unfold pp_fill, dataPattern, pp_params. cbn [pat_blockSize pat_offset pat_seed].
  rewrite u32_small by lia. rewrite (proj2 (Z.eqb_neq (pp_size - 8) 0)) by lia. rewrite Zdiv_0_l.
  pose proof (written_pattern (pp_payload buf) iter) as E.
  destruct (pattern_loop false 0 (pattern_seed 0 iter) 0 (pp_payload buf)) as [l r] eqn:El.
  cbn in E |- *. subst l.
  assert (El' : length (pp_payload buf) = Z.to_nat (pp_size - 8)) by (unfold pp_payload; rewrite length_drop; lia).
  rewrite El'. unfold pp_message. by rewrite (proj2 (Z.eqb_neq iter 0)) by lia.
Qed.

Lemma verify_message iter : 0 < iter -> pp_verify pp_size iter (pp_message pp_size iter) = Some true.
Proof using Hsize.
  intros Hi. unfold pp_verify, dataPattern, pp_params. cbn [pat_blockSize pat_offset pat_seed].
  rewrite u32_small by lia. rewrite (proj2 (Z.eqb_neq (pp_size - 8) 0)) by lia. rewrite Zdiv_0_l.
  assert (Ep : pp_payload (pp_message pp_size iter) = pp_pattern (Z.to_nat (pp_size - 8)) iter).
  { unfold pp_message, pp_payload. rewrite (proj2 (Z.eqb_neq iter 0)) by lia.
    rewrite drop_app_ge by (by rewrite (proj1 (bytes_of_bytes 8 iter))). by rewrite (proj1 (bytes_of_bytes 8 iter)). }
  rewrite Ep. destruct (pattern_compared 0 (pattern_seed 0 iter) (pp_pattern (Z.to_nat (pp_size - 8)) iter) 0) as [_ Hc].
  cbn. destruct (pattern_loop true 0 (pattern_seed 0 iter) 0 (pp_pattern (Z.to_nat (pp_size - 8)) iter)) as [l r].
  cbn in *. destruct r as [j|]; [|done]. destruct Hc as (k & x & -> & Hx & Hne & _). exfalso. apply Hne.
  unfold pp_pattern in Hx. rewrite list_lookup_fmap_Some in Hx. destruct Hx as (k' & -> & Hk).
  apply lookup_seq in Hk as [-> _]. by rewrite Z.add_0_l.
Qed.

Lemma seq_message n : 0 <= n < 4294967296 -> pp_seq (pp_message pp_size n) = n.
Proof using Hsize.
  intros Hn. unfold pp_seq, pp_message. destruct (Z.eqb_spec n 0) as [->|].
  - replace (Z.to_nat pp_size) with (8 + (Z.to_nat pp_size - 8))%nat by lia. done.
  - rewrite take_app_length' by (by rewrite (proj1 (bytes_of_bytes 8 n))). apply of_bytes_of.
    change (256 ^ Z.of_nat 8) with 18446744073709551616. lia.
Qed.
End Messages.

(** ** The invariant *)

(** The messages the client has posted; those the server has taken, and
    posted. *)
Definition client_sent (n : pp_node) : Z := match nd_pc n with Quieting | Spinning => nd_i n + 1 | _ => nd_i n end.
Definition server_got (n : pp_node) : Z := match nd_pc n with Filling | Quieting => nd_i n + 1 | _ => nd_i n end.
Definition server_sent (n : pp_node) : Z := match nd_pc n with Quieting => nd_i n + 1 | _ => nd_i n end.

Lemma sent_bounds n m : nd_i n <= client_sent n <= nd_i n + 1 /\ nd_i m <= server_sent m <= server_got m
  /\ server_got m <= nd_i m + 1.
Proof. unfold client_sent, server_sent, server_got. destruct (nd_pc n), (nd_pc m); lia. Qed.

Section PingPong.
Context (pp_size iters : Z).

(** A message is a number and at least eight bytes. *)
Hypothesis Hsize : 16 <= pp_size < 4294967296.
Hypothesis Hiters : 0 <= iters < 4294967295.

(** A write of message [sent] by a node at [pc], [seen] being the last message
    visible on the other side. *)
Definition wire_ok (w : pp_wire) (pc : pp_pc) (sent seen : Z) : Prop :=
  match w with
  | None => seen = sent
  | Some (d, k) => pc = Quieting /\ d = pp_message pp_size sent
      /\ (k = 0%nat /\ seen = sent - 1 \/ k = length d /\ seen = sent)
  end.

(** What holds of either node, [seen] being the message in its receive buffer. *)
Record node_ok (n : pp_node) (seen : Z) : Prop := {
  no_i : 0 <= nd_i n <= iters;
  no_pc : nd_pc n <> Faulted;
  no_send : length (nd_send n) = Z.to_nat pp_size;
  no_recv : nd_recv n = pp_message pp_size seen;
  no_errors : nd_errors n = 0
}.

(** [vs], [vc]: the messages visible to the server and to the client. *)
Record pp_inv (s : pp_system) (vs vc : Z) : Prop := {
  pi_client : node_ok (pp_client s) vc;
  pi_server : node_ok (pp_server s) vs;
  pi_order : nd_i (pp_client s) <= vc <= server_sent (pp_server s)
    /\ server_sent (pp_server s) <= server_got (pp_server s) <= vs
    /\ vs <= client_sent (pp_client s) <= iters;
  pi_to_server : wire_ok (pp_to_server s) (nd_pc (pp_client s)) (client_sent (pp_client s)) vs;
  pi_to_client : wire_ok (pp_to_client s) (nd_pc (pp_server s)) (server_sent (pp_server s)) vc
}.

Lemma inv_pp_start : pp_inv (pp_start pp_size) 0 0.
Proof using Hsize Hiters.
  split; cbn; try done; try (unfold server_sent, server_got, client_sent; cbn; lia).
  - split; cbn; try done; [lia|by rewrite repeat_length].
  - split; cbn; try done; [lia|by rewrite repeat_length].
Qed.

(** A turn that changes nothing. *)
Ltac same_state := match goal with s : pp_system |- _ => destruct s; cbn in *; subst; assumption end.

Lemma client_inv s vs vc :
  pp_inv s vs vc ->
  let '(n, w) := node_turn Client pp_size iters (pp_client s) (pp_to_server s) in
  pp_inv {| pp_client := n; pp_server := pp_server s; pp_to_server := w; pp_to_client := pp_to_client s |} vs vc.
Proof using Hsize Hiters.
  intros Hi. pose proof Hi as [[C1 C2 C3 C4 C5] Hs Ho W1 W2]. unfold node_turn.
  destruct (Z.leb_spec iters (nd_i (pp_client s))) as [Hd|Hd]; [by same_state|].
  unfold client_sent in *. destruct (nd_pc (pp_client s)) eqn:Epc.
  - unfold fill_and_post. rewrite u32_small by lia. rewrite fill_message by (done || lia).
    destruct (pp_to_server s) as [[d k]|] eqn:Ew; [destruct W1 as [W1 _]; congruence|]. cbn in W1.
    split; cbn; try done.
    + split; cbn; try done; try lia. by rewrite length_message.
    + unfold client_sent. cbn. lia.
    + unfold client_sent. cbn. split_and!; [done|done|left; split; [done|lia]].
  - destruct (pp_to_server s) as [[d k]|] eqn:Ew; [by same_state|]. cbn in W1.
    split; cbn; try done; unfold client_sent; cbn; try done; by split.
  - rewrite C4, seq_message, u32_small by (pose proof (sent_bounds (pp_client s) (pp_server s)); unfold client_sent in *; rewrite ?Epc in *; lia).
    destruct (Z.eqb_spec vc (nd_i (pp_client s) + 1)) as [E|E]; cbn [negb].
    + unfold pp_receive. rewrite C4, u32_small, E, verify_message by lia.
      destruct (pp_to_server s) as [[d k]|] eqn:Ew; [destruct W1 as [W1 _]; congruence|]. cbn in W1.
      subst vc. split; cbn; try done; unfold client_sent; cbn; try done; try lia. split; cbn; try done; lia.
    + by same_state.
  - done.
Qed.

Lemma server_inv s vs vc :
  pp_inv s vs vc ->
  let '(n, w) := node_turn Server pp_size iters (pp_server s) (pp_to_client s) in
  pp_inv {| pp_client := pp_client s; pp_server := n; pp_to_server := pp_to_server s; pp_to_client := w |} vs vc.
Proof using Hsize Hiters.
  intros Hi. pose proof Hi as [Hc [C1 C2 C3 C4 C5] Ho W1 W2]. unfold node_turn.
  destruct (Z.leb_spec iters (nd_i (pp_server s))) as [Hd|Hd]; [by same_state|].
  unfold server_sent, server_got in *. destruct (nd_pc (pp_server s)) eqn:Epc.
  - unfold fill_and_post. rewrite u32_small by lia. rewrite fill_message by (done || lia).
    destruct (pp_to_client s) as [[d k]|]; [destruct W2 as [W2 _]; congruence|]. cbn in W2.
    split; cbn; try done.
    + split; cbn; try done; try lia. by rewrite length_message.
    + unfold server_sent, server_got. cbn. lia.
    + unfold server_sent. cbn. split_and!; [done|done|left; split; [done|lia]].
  - destruct (pp_to_client s) as [[d k]|] eqn:Ew; [by same_state|]. cbn in W2.
    rewrite u32_small by lia.
    split; cbn; try done; unfold server_sent, server_got; cbn; try done; try lia. split; cbn; done || lia.
  - rewrite C4, seq_message, u32_small by lia.
    destruct (Z.eqb_spec vs (nd_i (pp_server s) + 1)) as [E|E]; cbn [negb].
    + unfold pp_receive. rewrite C4, u32_small, E, verify_message by lia.
      destruct (pp_to_client s) as [[d k]|]; [destruct W2 as [W2 _]; congruence|]. cbn in W2.
      subst vs. split; cbn; try done; unfold server_sent, server_got; cbn; try done; try lia.
    + by same_state.
  - done.
Qed.

Lemma same_counts n n' :
  nd_i n' = nd_i n -> nd_pc n' = nd_pc n ->
  client_sent n' = client_sent n /\ server_got n' = server_got n /\ server_sent n' = server_sent n.
Proof using Type. intros E1 E2. unfold client_sent, server_got, server_sent. by rewrite E1, E2. Qed.

(** How far a node is in its iteration, and whether its write is over. *)
Definition pc_count (r : pp_role) (pc : pp_pc) : Z :=
  match r, pc with
  | Client, Filling | Server, Spinning => 0
  | Server, Filling => 1
  | Client, Quieting => 2
  | Client, Spinning | Server, Quieting => 3
  | _, Faulted => 0
  end.
Definition wire_count (w : pp_wire) : Z := match w with Some _ => 0 | None => 1 end.

(** A turn changes nothing or brings its node on. *)
Lemma turn_progress r n out seen :
  node_ok n seen -> 0 <= seen < 4294967296 -> (nd_pc n = Filling -> out = None) ->
  let '(n', w) := node_turn r pp_size iters n out in
  (n' = n /\ w = out)
  \/ 4 * nd_i n + pc_count r (nd_pc n) + wire_count out < 4 * nd_i n' + pc_count r (nd_pc n') + wire_count w.
Proof using Hsize Hiters.
  intros [N1 N2 N3 N4 N5] Hseen Hout. unfold node_turn.
  destruct (Z.leb_spec iters (nd_i n)) as [Hd|Hd]; [by left|]. rewrite u32_small by lia.
  destruct (nd_pc n) eqn:Epc; [| | |done].
  - unfold fill_and_post. rewrite u32_small by lia. rewrite fill_message by (done || lia).
    right. rewrite (Hout eq_refl). destruct r; cbn; lia.
  - destruct out; [by left|]. right. destruct r; cbn; lia.
  - rewrite N4, seq_message by done. destruct (Z.eqb_spec seen (nd_i n + 1)) as [E|E]; [|by left]. cbn [negb].
    right. unfold pp_receive. rewrite N4, u32_small, E, verify_message by lia. destruct r; cbn; lia.
Qed.

(** A node that cannot take a turn is done, waits for its write or spins. *)
Lemma turn_stuck r n :
  node_turn r pp_size iters n None = (n, None) -> nd_pc n <> Faulted ->
  iters <= nd_i n \/ nd_pc n = Spinning /\ pp_seq (nd_recv n) <> u32 (nd_i n + 1).
Proof using Type.
  unfold node_turn. destruct (Z.leb_spec iters (nd_i n)) as [Hd|Hd]; [by left|]. intros E Hf. right.
  apply (f_equal (fun p => nd_pc (fst p))) in E. destruct (nd_pc n) eqn:Epc; [| | |done].
  - unfold fill_and_post in E. destruct (pp_fill _ _ _); cbn in E; congruence.
  - destruct r; cbn in E; congruence.
  - destruct (Z.eqb_spec (pp_seq (nd_recv n)) (u32 (nd_i n + 1))); [|done].
    unfold pp_receive in E. destruct r, (pp_verify _ _ _); cbn in E; congruence.
Qed.

Lemma seen_bounds s vs vc : pp_inv s vs vc -> 0 <= vc <= vs /\ vs <= iters.
Proof using Type. intros [[C1 _ _ _ _] _ Ho _ _]. lia. Qed.

(** A message becomes visible as a whole. *)
Context (chunk : nat).
Hypothesis Hchunk : pp_size <= Z.of_nat chunk.

Lemma pp_place_ok w n pc sent seen :
  wire_ok w pc sent seen -> node_ok n seen ->
  let '(w', n') := pp_place chunk w n in
  exists seen', seen <= seen' <= Z.max seen sent /\ wire_ok w' pc sent seen' /\ node_ok n' seen'
    /\ nd_i n' = nd_i n /\ nd_pc n' = nd_pc n /\ (w <> None -> seen < seen' \/ w' = None).
Proof using Hsize Hchunk.
  intros Hw Hn. destruct w as [[d k]|]; [|cbn; exists seen; split_and!; done || lia].
  destruct Hw as (-> & -> & Hk). unfold pp_place. rewrite length_message by done. destruct (Nat.ltb_spec k (Z.to_nat pp_size)) as [Hlt|Hge].
  - destruct Hk as [[-> ->]|[-> _]]; [|rewrite length_message in Hlt by done; lia].
    assert (Ek : Nat.min (Z.to_nat pp_size) (0 + chunk) = Z.to_nat pp_size) by lia. rewrite Ek.
    exists sent. split; [lia|]. split; [split_and!; [done|done|right; by rewrite length_message]|].
    split; [|split_and!; [done|done|left; lia]].
    destruct Hn. split; cbn; try done. rewrite take_ge by (by rewrite length_message).
    rewrite no_recv0, drop_ge by (by rewrite length_message). apply app_nil_r.
  - destruct Hk as [[-> _]|[-> ->]]; [lia|]. exists sent. split_and!; try done; try lia. by right.
Qed.

(** How far the two are: what was posted, seen, taken and completed. *)
Definition pp_progress (s : pp_system) (vs vc : Z) : Z :=
  4 * nd_i (pp_client s) + pc_count Client (nd_pc (pp_client s)) + 4 * nd_i (pp_server s)
  + pc_count Server (nd_pc (pp_server s)) + 2 * vs + 2 * vc + wire_count (pp_to_server s) + wire_count (pp_to_client s).

Lemma place_server_inv s vs vc :
  pp_inv s vs vc ->
  let '(w, n) := pp_place chunk (pp_to_server s) (pp_server s) in
  exists vs', pp_inv {| pp_client := pp_client s; pp_server := n; pp_to_server := w; pp_to_client := pp_to_client s |} vs' vc
    /\ (pp_to_server s <> None -> pp_progress s vs vc
         < pp_progress {| pp_client := pp_client s; pp_server := n; pp_to_server := w; pp_to_client := pp_to_client s |} vs' vc).
Proof using Hsize Hchunk.
  intros [Hc Hs Ho W1 W2]. pose proof (pp_place_ok _ _ _ _ _ W1 Hs) as Hp.
  destruct (pp_place chunk (pp_to_server s) (pp_server s)) as [w n]. destruct Hp as (v & Hv & Hw & Hn & Ei & Epc & Hp).
  destruct (same_counts _ _ Ei Epc) as (_ & E1 & E2). exists v. split.
  - split; cbn; rewrite ?E1, ?E2, ?Epc; try done; try lia.
  - intros Hne. unfold pp_progress. cbn. rewrite Ei, Epc. specialize (Hp Hne).
    destruct (pp_to_server s) as [[d k]|]; [|done]. destruct Hp as [Hp| ->]; cbn; [|lia]. destruct w; cbn; lia.
Qed.

Lemma place_client_inv s vs vc :
  pp_inv s vs vc ->
  let '(w, n) := pp_place chunk (pp_to_client s) (pp_client s) in
  exists vc', pp_inv {| pp_client := n; pp_server := pp_server s; pp_to_server := pp_to_server s; pp_to_client := w |} vs vc'
    /\ (pp_to_client s <> None -> pp_progress s vs vc
         < pp_progress {| pp_client := n; pp_server := pp_server s; pp_to_server := pp_to_server s; pp_to_client := w |} vs vc').
Proof using Hsize Hchunk.
  intros [Hc Hs Ho W1 W2]. pose proof (pp_place_ok _ _ _ _ _ W2 Hc) as Hp.
  destruct (pp_place chunk (pp_to_client s) (pp_client s)) as [w n]. destruct Hp as (v & Hv & Hw & Hn & Ei & Epc & Hp).
  destruct (same_counts _ _ Ei Epc) as (E1 & _ & _). exists v. split.
  - split; cbn; rewrite ?E1, ?Ei, ?Epc; try done; try lia.
  - intros Hne. unfold pp_progress. cbn. rewrite Ei, Epc. specialize (Hp Hne).
    destruct (pp_to_client s) as [[d k]|]; [|done]. destruct Hp as [Hp| ->]; cbn; [|lia]. destruct w; cbn; lia.
Qed.

(** Every move keeps the invariant, and changes nothing or brings the two on. *)
Lemma pp_do_inv s vs vc m :
  pp_inv s vs vc ->
  exists vs' vc', pp_inv (pp_do chunk pp_size iters s m) vs' vc'
    /\ (pp_do chunk pp_size iters s m = s \/ pp_progress s vs vc < pp_progress (pp_do chunk pp_size iters s m) vs' vc').
Proof using Hsize Hiters Hchunk.
  intros Hi. pose proof (seen_bounds _ _ _ Hi) as Hb. pose proof Hi as [Hc Hs _ W1 W2]. destruct m; cbn [pp_do].
  - exists vs, vc. pose proof (client_inv s vs vc Hi) as H.
    assert (Ho : nd_pc (pp_client s) = Filling -> pp_to_server s = None)
      by (intros E; destruct (pp_to_server s) as [[]|]; [destruct W1; congruence|done]).
    pose proof (turn_progress Client _ _ _ Hc ltac:(lia) Ho) as Ht.
    destruct (node_turn Client _ _ _ _). split; [exact H|].
    destruct Ht as [[-> ->]|Ht]; [left; by destruct s|right; unfold pp_progress; cbn [pp_client pp_server pp_to_server pp_to_client]; lia].
  - exists vs, vc. pose proof (server_inv s vs vc Hi) as H.
    assert (Ho : nd_pc (pp_server s) = Filling -> pp_to_client s = None)
      by (intros E; destruct (pp_to_client s) as [[]|]; [destruct W2; congruence|done]).
    pose proof (turn_progress Server _ _ _ Hs ltac:(lia) Ho) as Ht.
    destruct (node_turn Server _ _ _ _). split; [exact H|].
    destruct Ht as [[-> ->]|Ht]; [left; by destruct s|right; unfold pp_progress; cbn [pp_client pp_server pp_to_server pp_to_client]; lia].
  - pose proof (place_server_inv s vs vc Hi) as H. destruct (decide (pp_to_server s = None)) as [E|E].
    + exists vs, vc. rewrite E. cbn [pp_place]. destruct s; cbn in *; subst. by split; [|left].
    + destruct (pp_place _ _ _). destruct H as (v & H1 & H2). exists v, vc. split; [exact H1|]. right. by apply H2.
  - pose proof (place_client_inv s vs vc Hi) as H. destruct (decide (pp_to_client s = None)) as [E|E].
    + exists vs, vc. rewrite E. cbn [pp_place]. destruct s; cbn in *; subst. by split; [|left].
    + destruct (pp_place _ _ _). destruct H as (v & H1 & H2). exists vs, v. split; [exact H1|]. right. by apply H2.
Qed.

Lemma pp_inv_reach s : pp_reachable chunk pp_size iters s -> exists vs vc, pp_inv s vs vc.
Proof using Hsize Hiters Hchunk.
  intros Hr. unfold pp_reachable in Hr. revert s Hr. apply (rtc_ind_r (fun s => exists vs vc, pp_inv s vs vc)).
  - exists 0, 0. apply inv_pp_start.
  - intros s s' _ [m] (vs & vc & Hi). destruct (pp_do_inv s vs vc m Hi) as (vs' & vc' & H & _). by exists vs', vc'.
Qed.

(** A message that arrives as a whole is verified as it was sent: neither node
    ever counts an error, and neither is ahead of the other by more than the
    message under way. *)
Theorem pingpong_no_errors s :
  pp_reachable chunk pp_size iters s ->
  nd_errors (pp_client s) = 0 /\ nd_errors (pp_server s) = 0
  /\ nd_i (pp_client s) <= nd_i (pp_server s) + 1 /\ nd_i (pp_server s) <= nd_i (pp_client s) + 1.
Proof using Hsize Hiters Hchunk.
  intros Hr. destruct (pp_inv_reach s Hr) as (vs & vc & [Hc Hs Ho _ _]).
  pose proof (sent_bounds (pp_client s) (pp_server s)). destruct Hc, Hs. split_and!; try done; lia.
Qed.

Lemma place_stuck w n n' : pp_place chunk w n = (w, n') -> w = None.
Proof using Hsize Hchunk.
  destruct w as [[d k]|]; [|done]. unfold pp_place. destruct (Nat.ltb_spec k (length d)); [|done].
  intros E. injection E as Ek _. lia.
Qed.

(** When nothing can move any more, both are done. *)
Lemma pp_idle_done s vs vc :
  pp_inv s vs vc -> (forall m, pp_do chunk pp_size iters s m = s) ->
  nd_i (pp_client s) = iters /\ nd_i (pp_server s) = iters.
Proof using Hsize Hiters Hchunk.
  intros Hi Hm. pose proof (seen_bounds _ _ _ Hi) as Hb. destruct Hi as [[C1 C2 _ C4 _] [S1 S2 _ S4 _] Ho W1 W2].
  assert (Es : pp_to_server s = None).
  { pose proof (Hm PlaceServer) as E. cbn [pp_do] in E. destruct (pp_place chunk _ _) as [w n] eqn:Ep.
    apply (f_equal pp_to_server) in E. cbn in E. subst w. by eapply place_stuck. }
  assert (Ec : pp_to_client s = None).
  { pose proof (Hm PlaceClient) as E. cbn [pp_do] in E. destruct (pp_place chunk _ _) as [w n] eqn:Ep.
    apply (f_equal pp_to_client) in E. cbn in E. subst w. by eapply place_stuck. }
  rewrite Es in W1. rewrite Ec in W2. cbn in W1, W2.
  assert (Hc : node_turn Client pp_size iters (pp_client s) None = (pp_client s, None)).
  { pose proof (Hm ClientTurn) as E. cbn [pp_do] in E. rewrite Es in E. destruct (node_turn Client _ _ _ _) as [n w].
    apply (f_equal (fun s => (pp_client s, pp_to_server s))) in E. cbn in E. by rewrite Es in E. }
  assert (Hs : node_turn Server pp_size iters (pp_server s) None = (pp_server s, None)).
  { pose proof (Hm ServerTurn) as E. cbn [pp_do] in E. rewrite Ec in E. destruct (node_turn Server _ _ _ _) as [n w].
    apply (f_equal (fun s => (pp_server s, pp_to_client s))) in E. cbn in E. by rewrite Ec in E. }
  apply turn_stuck in Hc; [|done]. apply turn_stuck in Hs; [|done].
  rewrite C4, seq_message in Hc by lia. rewrite S4, seq_message in Hs by lia.
  unfold client_sent, server_sent, server_got in *.
  destruct Hc as [Hc|[Epc Hc]], Hs as [Hs|[Eps Hs]]; rewrite ?Epc, ?Eps in *.
  all: rewrite ?u32_small in * by lia; try lia.
  all: destruct (nd_pc (pp_client s)), (nd_pc (pp_server s)); lia.
Qed.

Lemma pp_progress_bound s vs vc : pp_inv s vs vc -> 0 <= pp_progress s vs vc <= 12 * iters + 8.
Proof using chunk.
  intros [Hc Hs Ho _ _]. destruct Hc as [C1 _ _ _ _], Hs as [S1 _ _ _ _].
  pose proof (sent_bounds (pp_client s) (pp_server s)). unfold pp_progress.
  assert (0 <= pc_count Client (nd_pc (pp_client s)) <= 3) by (destruct (nd_pc (pp_client s)); cbn; lia).
  assert (0 <= pc_count Server (nd_pc (pp_server s)) <= 3) by (destruct (nd_pc (pp_server s)); cbn; lia).
  assert (forall w, 0 <= wire_count w <= 1) as Hw by (intros []; cbn; lia).
  pose proof (Hw (pp_to_server s)). pose proof (Hw (pp_to_client s)). lia.
Qed.

(** A run whose moves all change something. *)
Definition pp_effective (s s' : pp_system) : Prop := pp_step chunk pp_size iters s s' /\ s' <> s.

Lemma pp_effective_run n s s' vs vc :
  pp_inv s vs vc -> nsteps pp_effective n s s' ->
  exists vs' vc', pp_inv s' vs' vc' /\ pp_progress s vs vc + Z.of_nat n <= pp_progress s' vs' vc'.
Proof using Hsize Hiters Hchunk.
  intros Hi Hn. revert vs vc Hi. induction Hn as [s|n s s1 s2 [[m] Hne] _ IH]; intros vs vc Hi; [exists vs, vc; split; [done|lia]|].
  destruct (pp_do_inv s vs vc m Hi) as (vs1 & vc1 & Hi1 & [E|Hp]); [done|].
  destruct (IH vs1 vc1 Hi1) as (vs2 & vc2 & Hi2 & Hp2). exists vs2, vc2. split; [done|lia].
Qed.

(** C37: The test ends: if a message becomes visible as a whole, then however the
    kernels and the NICs are scheduled, at most
    12 * iters + 8 of their moves change anything, and when nothing is left
    that would, both nodes have done all iterations without an error.  The
    puts of the queue pairs appear by their contract only: a put is a write
    that becomes visible at the other node some time later, the wait
    ([quiet]) ends when all puts before it have completed, and every put does
    complete. *)
Theorem pingpong_terminates n s :
  nsteps pp_effective n (pp_start pp_size) s ->
  Z.of_nat n <= 12 * iters + 8
  /\ ((forall m, pp_do chunk pp_size iters s m = s) ->
      nd_i (pp_client s) = iters /\ nd_i (pp_server s) = iters
      /\ nd_errors (pp_client s) = 0 /\ nd_errors (pp_server s) = 0).
Proof using Hsize Hiters Hchunk.
  intros Hn. destruct (pp_effective_run _ _ _ _ _ inv_pp_start Hn) as (vs & vc & Hi & Hp).
  pose proof (pp_progress_bound _ _ _ Hi). pose proof (pp_progress_bound _ _ _ inv_pp_start). split; [lia|].
  intros Hm. destruct (pp_idle_done _ _ _ Hi Hm). destruct Hi as [[] [] _ _ _]. by split_and!.
Qed.
End PingPong.

(** ** Runs *)

(** One iteration of both, each message arriving as a whole. *)
Definition pp_round : list pp_move :=
  [ClientTurn; PlaceServer; PlaceServer; ClientTurn; ServerTurn;
   ServerTurn; PlaceClient; PlaceClient; ServerTurn; ClientTurn].

Example two_rounds :
  let s := pp_run 16 16 2 (pp_round ++ pp_round) in
  (nd_i (pp_client s), nd_i (pp_server s), nd_errors (pp_client s), nd_errors (pp_server s)) = (2, 2, 0, 0).
Proof. vm_compute. reflexivity. Qed.

(** The number is seen with the first eight bytes, the pattern is not there yet:
    the server counts an error although the client sends what it should, and
    although all of it arrives. *)
Lemma number_before_pattern :
  exists s s', pp_reachable 8 16 1 s /\ nd_errors (pp_server s) = 1
    /\ pp_to_server s = Some (pp_message 16 1, 8%nat) /\ nd_send (pp_client s) = pp_message 16 1
    /\ rtc (pp_step 8 16 1) s s' /\ nd_recv (pp_server s') = pp_message 16 1 /\ nd_errors (pp_server s') = 1.
Proof.
  exists (pp_run 8 16 1 [ClientTurn; PlaceServer; ServerTurn]), (pp_run 8 16 1 [ClientTurn; PlaceServer; ServerTurn; PlaceServer]).
  split; [apply pp_run_reachable|]. split; [by vm_compute|]. split; [by vm_compute|]. split; [by vm_compute|].
  split; [|by vm_compute]. apply rtc_once.
  change (pp_run 8 16 1 [ClientTurn; PlaceServer; ServerTurn; PlaceServer])
    with (pp_do 8 16 1 (pp_run 8 16 1 [ClientTurn; PlaceServer; ServerTurn]) PlaceServer). constructor.
Qed.

Lemma pingpong_no_errors_witness :
  let s := pp_run 16 16 2 (pp_round ++ [ClientTurn; PlaceServer; ServerTurn]) in
  nd_errors (pp_client s) = 0 /\ nd_errors (pp_server s) = 0
  /\ nd_i (pp_client s) <= nd_i (pp_server s) + 1 /\ nd_i (pp_server s) <= nd_i (pp_client s) + 1.
Proof.
  intros s. exact (pingpong_no_errors 16 2 ltac:(lia) ltac:(lia) 16 ltac:(lia) s (pp_run_reachable 16 16 2 _)).
Defined.

Lemma pp_run_effective chunk pp_size iters moves :
  (forall k m, moves !! k = Some m -> pp_run chunk pp_size iters (take (S k) moves) <> pp_run chunk pp_size iters (take k moves)) ->
  nsteps (pp_effective pp_size iters chunk) (length moves) (pp_start pp_size) (pp_run chunk pp_size iters moves).
Proof.
  induction moves as [|m moves IH] using rev_ind; intros H; [apply nsteps_O|].
  rewrite length_app, Nat.add_1_r. eapply nsteps_r.
  - apply IH. intros k x Hk. pose proof (lookup_lt_Some _ _ _ Hk). specialize (H k x (lookup_app_l_Some _ _ _ _ Hk)).
    by rewrite !take_app_le in H by lia.
  - specialize (H (length moves) m (list_lookup_middle _ [] _ _ eq_refl)). rewrite take_app_length in H.
    rewrite take_ge in H by (rewrite length_app; cbn; lia).
    split; [|done]. unfold pp_run. rewrite foldl_app. constructor.
Qed.

Lemma two_rounds_effective :
  nsteps (pp_effective 16 2 16) 20 (pp_start 16) (pp_run 16 16 2 (pp_round ++ pp_round)).
Proof.
  apply (pp_run_effective 16 16 2 (pp_round ++ pp_round)). intros k m Hk.
  do 20 (destruct k as [|k]; [vm_compute; discriminate|]).
  apply lookup_lt_Some in Hk. change (length (pp_round ++ pp_round)) with 20%nat in Hk. lia.
Qed.

Lemma pingpong_terminates_witness :
  let s := pp_run 16 16 2 (pp_round ++ pp_round) in
  Z.of_nat 20 <= 12 * 2 + 8 /\ nd_i (pp_client s) = 2 /\ nd_i (pp_server s) = 2
  /\ nd_errors (pp_client s) = 0 /\ nd_errors (pp_server s) = 0.
Proof.
  destruct (pingpong_terminates 16 2 ltac:(lia) ltac:(lia) 16 ltac:(lia) 20 _ two_rounds_effective) as [H1 H2].
  split; [exact H1|]. apply H2. intros []; vm_compute; reflexivity.
Defined.
