(* ===== verification/BnxtSize.v ===== *)
(** * Sizes of the bnxt queues

    [src/src/endpoints/rdma-ep/bnxt/bnxt-dv-sizing.hpp]: how long the send and
    receive buffers of a queue pair are, how many slots and how large a table
    of sequence numbers they hold; with the structures of
    [bnxt-re-hsi.h] the sizes come from, and [bnxt_create_qps] of
    [bnxt-backend.cpp], which puts the table at the end of the send buffer.
    All of it is 32-bit arithmetic, wrap-around included; the page size that
    [sysconf] reports is an argument.

    The theorems: rounding up finds the least power of two
    ([roundup_pow2_least]); within a bound on the product of the depth and
    the entry size, the table lies behind the ring, whole, at the end of a
    buffer of whole pages ([sq_table_fits]); past that bound the product wraps
    and the buffer is too small ([sq_size_wraps]). *)

From stdpp Require Import strings.
From S2P Require Import Prelude.

#[local] Open Scope Z_scope.

(** ** The hardware's structures ([bnxt-re-hsi.h])

    Each is packed: the fields follow one another, with their sizes in
    bytes. *)

Definition fields : Type := list (string * Z).
Definition sizeof (s : fields) : Z := sumZ snd s.

Definition bnxt_re_db_hdr : fields := [("typ_qid_indx"%string, 8)].

Definition bnxt_re_bcqe : fields :=
  [("flg_st_typ_ph"%string, 4); ("qphi_rwrid"%string, 4)].

Definition bnxt_re_req_cqe : fields :=
  [("qp_handle"%string, 8); ("con_indx"%string, 4); ("rsvd1"%string, 4); ("rsvd2"%string, 8)].

Definition bnxt_re_rc_cqe : fields :=
  [("length"%string, 4); ("imm_key"%string, 4); ("qp_handle"%string, 8); ("mr_handle"%string, 8)].

Definition bnxt_re_ud_cqe : fields :=
  [("length"%string, 4); ("immd"%string, 4); ("qp_handle"%string, 8); ("qplo_mac"%string, 8)].

Definition bnxt_re_term_cqe : fields :=
  [("qp_handle"%string, 8); ("rq_sq_cidx"%string, 4); ("rsvd"%string, 4); ("rsvd1"%string, 8)].

Definition bnxt_re_cutoff_cqe : fields :=
  [("rsvd1"%string, 8); ("rsvd2"%string, 8); ("rsvd3"%string, 8); ("cqe_type_toggle"%string, 1);
   ("status"%string, 1); ("rsvd4"%string, 2); ("rsvd5"%string, 4)].

(** A union of 64-bit words. *)
Definition lower_shdr : Z := 8.

Definition bnxt_re_bsqe : fields :=
  [("rsv_ws_fl_wt"%string, 4); ("key_immd"%string, 4); ("lhdr"%string, lower_shdr)].

Definition bnxt_re_psns_ext : fields :=
  [("opc_spsn"%string, 4); ("flg_npsn"%string, 4); ("st_slot_idx"%string, 2); ("rsvd0"%string, 2);
   ("rsvd1"%string, 4)].

Definition bnxt_re_msns : fields := [("start_idx_next_psn_start_psn"%string, 8)].

Definition bnxt_re_psns : fields := [("opc_spsn"%string, 4); ("flg_npsn"%string, 4)].

Definition bnxt_re_sge : fields := [("pa"%string, 8); ("lkey"%string, 4); ("length"%string, 4)].

Definition bnxt_re_send : fields := [("dst_qp"%string, 4); ("avid"%string, 4); ("rsvd"%string, 8)].

Definition bnxt_re_raw : fields := [("cfa_meta"%string, 4); ("ts"%string, 4); ("rsvd3"%string, 8)].

Definition bnxt_re_rdma : fields := [("rva"%string, 8); ("rkey"%string, 4); ("ts"%string, 4)].

Definition bnxt_re_atomic : fields := [("swp_dt"%string, 8); ("cmp_dt"%string, 8)].

Definition bnxt_re_inval : fields := [("rsvd"%string, 2 * 8)].

Definition bnxt_re_bind : fields := [("va"%string, 8); ("len"%string, 8)].

Definition bnxt_re_brqe : fields :=
  [("rsv_ws_fl_wt"%string, 4); ("opaque"%string, 4); ("wrid"%string, 4); ("rsvd1"%string, 4)].

Definition bnxt_re_rqe : fields := [("rsvd"%string, 2 * 8)].

Definition bnxt_re_srqe : fields := [("rsvd"%string, 2 * 8)].

Definition bnxt_re_push_wqe : fields := [("addr"%string, 32 * 8)].

Definition BNXT_RE_SLOT_SIZE_BB : Z := 16.
Definition BNXT_RE_STATIC_WQE_SIZE_SLOTS : Z := 4.
Definition BNXT_RE_STATIC_WQE_BB : Z := BNXT_RE_STATIC_WQE_SIZE_SLOTS * BNXT_RE_SLOT_SIZE_BB.
Definition BNXT_RE_STATIC_WQE_SHIFT : Z := 6.

(** ** The sizes ([bnxt-dv-sizing.hpp]) *)

Definition STRIDE : Z := sizeof bnxt_re_sge.
Definition SQE_HDR_SZ : Z := sizeof bnxt_re_bsqe + sizeof bnxt_re_send.
Definition CQE_SZ : Z := sizeof bnxt_re_req_cqe + sizeof bnxt_re_bcqe.
Definition MSN_ENTRY_SZ : Z := sizeof bnxt_re_msns.
Definition FULL_FLAG_DELTA : Z := 128.
Definition VAR_SLOT_ALIGN : Z := 256.

Definition smear (n w : Z) : Z := Z.lor n (Z.shiftr n w).

Definition roundup_pow2 (n : Z) : Z :=
  if n <=? 1 then 1
  else
    let n := n - 1 in
    let n := smear n 1 in
    let n := smear n 2 in
    let n := smear n 4 in
    let n := smear n 8 in
    let n := smear n 16 in
    let n := smear n 32 in
    u64 (n + 1).

(** [~(a - 1)] on 32 bits. *)
Definition mask_of (a : Z) : Z := u32 (Z.lnot (a - 1)).

Definition align_up (val a : Z) : Z := Z.land (u32 (val + a - 1)) (mask_of a).

Definition calc_wqe_sz (nsge : Z) : Z := u32 (STRIDE * nsge + SQE_HDR_SZ).

Record sq_sizing := {
  sq_slots : Z;
  sq_wqe_sz : Z;
  sq_npsn : Z;
  sq_psn_sz : Z;
  sq_len : Z
}.

(** The entry size: the larger of the gather list and the inline data. *)
Definition sq_wqe_size (max_send_sge max_inline_data : Z) : Z :=
  let wqe_sz := calc_wqe_sz max_send_sge in
  if 0 <? max_inline_data then
    let il_aligned := align_up max_inline_data STRIDE in
    let cal := u32 (SQE_HDR_SZ + il_aligned) in
    let wqe_sz := if wqe_sz <? cal then cal else wqe_sz in
    align_up wqe_sz STRIDE
  else wqe_sz.

Definition compute_sq (pg max_send_wr max_send_sge max_inline_data : Z) : sq_sizing :=
  let nswr := u32 (max_send_wr + 1 + FULL_FLAG_DELTA) in
  let nswr := u32 (roundup_pow2 nswr) in
  let wqe_sz := sq_wqe_size max_send_sge max_inline_data in
  let slots := u32 (nswr * wqe_sz) / STRIDE in
  let slots := align_up slots VAR_SLOT_ALIGN in
  let npsn := u32 (roundup_pow2 slots) in
  let psn_sz := MSN_ENTRY_SZ in
  let ring := u32 (slots * STRIDE) in
  let psn := u32 (npsn * psn_sz) in
  {| sq_slots := slots; sq_wqe_sz := wqe_sz; sq_npsn := npsn; sq_psn_sz := psn_sz;
     sq_len := align_up (u32 (ring + psn)) pg |}.

Record rq_sizing := {
  rq_slots : Z;
  rq_wqe_sz : Z;
  rq_len : Z
}.

Definition compute_rq (pg max_recv_wr max_recv_sge : Z) : rq_sizing :=
  if max_recv_wr =? 0 then {| rq_slots := 0; rq_wqe_sz := 0; rq_len := 0 |}
  else
    let nrwr := u32 (max_recv_wr + 1) in
    let nrwr := u32 (roundup_pow2 nrwr) in
    let wqe_sz := calc_wqe_sz max_recv_sge in
    let slots := u32 (nrwr * wqe_sz) / STRIDE in
    {| rq_slots := slots; rq_wqe_sz := wqe_sz; rq_len := align_up (u32 (slots * STRIDE)) pg |}.

Definition cqe_size : Z := CQE_SZ.

(** Where [bnxt_create_qps] puts the table: the offset in the buffer, as
    64-bit arithmetic. *)
Definition msn_bytes (s : sq_sizing) : Z := u64 (sq_psn_sz s * sq_npsn s).
Definition msn_off (s : sq_sizing) : Z := u64 (sq_len s - msn_bytes s).

(** ** Rounding up to a power of two *)

(** The bits of [n] from [k] down are set for [w] places, those above are
    clear. *)
Definition filled (n k w : Z) : Prop :=
  forall i, 0 <= i -> (k < i -> Z.testbit n i = false) /\ (k - w < i <= k -> Z.testbit n i = true).

Lemma smear_filled n k w : 0 <= w -> filled n k w -> filled (smear n w) k (2 * w).
Proof.
  intros Hw H i Hi. unfold smear. rewrite Z.lor_spec, Z.shiftr_spec by done. split; intros Hk.
  - rewrite (proj1 (H i Hi)), (proj1 (H (i + w) ltac:(lia))) by lia. done.
  - destruct (decide (k - w < i)); [by rewrite (proj2 (H i Hi)) by lia|].
    rewrite (proj2 (H (i + w) ltac:(lia))) by lia. apply orb_true_r.
Qed.

Lemma filled_log2 n : 0 < n -> filled n (Z.log2 n) 1.
Proof.
  intros Hn i Hi. split; intros H; [apply Z.bits_above_log2; lia|].
  replace i with (Z.log2 n) by lia. by apply Z.bit_log2.
Qed.

Lemma filled_ones n k w : 0 <= k < w -> filled n k w -> n = Z.ones (k + 1).
Proof.
  intros Hk H. apply Z.bits_inj'. intros i Hi. rewrite Z.testbit_ones_nonneg by lia.
  destruct (Z.ltb_spec i (k + 1)); [apply (proj2 (H i Hi)); lia|apply (proj1 (H i Hi)); lia].
Qed.

Lemma roundup_pow2_log n : n <= 2 ^ 63 -> roundup_pow2 n = 2 ^ Z.log2_up n.
Proof.
  intros Hn. unfold roundup_pow2. destruct (Z.leb_spec n 1) as [H1|H1].
  - by rewrite Z.log2_up_eqn0.
  - rewrite Z.log2_up_eqn by lia. unfold Z.succ. fold (n - 1).
    replace (Z.pred n) with (n - 1) by lia. set (k := Z.log2 (n - 1)).
    assert (Hk : 0 <= k < 63).
    { split; [apply Z.log2_nonneg|]. apply Z.log2_lt_pow2; lia. }
    pose proof (filled_log2 (n - 1) ltac:(lia)) as F. fold k in F.
    apply (smear_filled _ _ 1) in F; [|lia]. apply (smear_filled _ _ 2) in F; [|lia].
    apply (smear_filled _ _ 4) in F; [|lia]. apply (smear_filled _ _ 8) in F; [|lia].
    apply (smear_filled _ _ 16) in F; [|lia]. apply (smear_filled _ _ 32) in F; [|lia].
    apply filled_ones in F; [|lia]. cbn [Z.mul] in F. rewrite F, Z.ones_equiv.
    unfold u64. rewrite Z.mod_small.
    + replace (Z.pred (2 ^ (k + 1)) + 1) with (2 ^ (k + 1)) by lia. done.
    + pose proof (Z.pow_pos_nonneg 2 (k + 1)). pose proof (Z.pow_le_mono_r 2 (k + 1) 63). lia.
Qed.

(** What callers need of it: a power of two, at least the argument, less than
    twice as large. *)
Lemma roundup_pow2_bounds n : 1 <= n <= 2 ^ 63 -> n <= roundup_pow2 n < 2 * n.
Proof.
  intros Hn. rewrite roundup_pow2_log by lia.
  destruct (decide (n = 1)) as [->|Hne]; [vm_compute; split; congruence|].
  pose proof (Z.log2_up_spec n ltac:(lia)) as [Hlo Hhi]. split; [done|].
  rewrite <- (Z.succ_pred (Z.log2_up n)), Z.pow_succ_r; [lia|].
  pose proof (Z.log2_up_pos n ltac:(lia)). lia.
Qed.

(** ** Alignment *)

Lemma align_up_down v a k :
  a = 2 ^ k -> 0 <= k -> align_up v a = u32 (v + a - 1) - u32 (v + a - 1) mod a.
Proof.
  intros -> Hk. unfold align_up. set (x := u32 (v + 2 ^ k - 1)).
  assert (Hx : 0 <= x < 2 ^ 32) by (apply Z.mod_pos_bound; lia).
  unfold mask_of, u32. change 4294967296 with (2 ^ 32). rewrite <- Z.land_ones by lia.
  rewrite (Z.land_comm (Z.lnot _)), Z.land_assoc, Z.land_ones, (Z.mod_small x) by lia.
  replace (2 ^ k - 1) with (Z.ones k) by (rewrite Z.ones_equiv; lia).
  rewrite <- Z.ldiff_land, Z.ldiff_ones_r, Z.shiftl_mul_pow2, Z.shiftr_div_pow2 by lia.
  pose proof (Z.pow_pos_nonneg 2 k ltac:(lia) Hk). pose proof (Z.div_mod x (2 ^ k)). lia.
Qed.

Lemma align_up_spec v a k :
  a = 2 ^ k -> 0 <= k -> 0 <= v -> v + a - 1 < 2 ^ 32 ->
  v <= align_up v a < v + a /\ align_up v a mod a = 0.
Proof.
  intros Ha Hk Hv Hb. rewrite (align_up_down _ _ _ Ha Hk).
  assert (Hp : 0 < a) by (subst a; apply Z.pow_pos_nonneg; lia).
  unfold u32. rewrite (Z.mod_small (v + a - 1)) by (change (2 ^ 32) with 4294967296 in Hb; lia).
  pose proof (Z.mod_pos_bound (v + a - 1) a Hp). split; [lia|].
  rewrite Zminus_mod, Z.mod_mod, Z.sub_diag by lia. apply Z.mod_0_l. lia.
Qed.

(** ** The send queue *)

Lemma stride_is : STRIDE = 16.
Proof. done. Qed.
Lemma header_is : SQE_HDR_SZ = 32.
Proof. done. Qed.

#[local] Ltac sizes := rewrite ?stride_is, ?header_is in *; change (2 ^ 32) with 4294967296 in *.

Section Entry.
Context (sge inl : Z) (Hsge : 0 <= sge) (Hinl : 0 <= inl).
Context (Bsge : 16 * sge + 32 < 2 ^ 31) (Binl : inl < 2 ^ 31 - 100).

Lemma calc_wqe_sz_exact : calc_wqe_sz sge = 16 * sge + 32.
Proof using Hsge Bsge. unfold calc_wqe_sz, u32. sizes. apply Z.mod_small. lia. Qed.

(** An entry has room for its header, its gather list and its inline data,
    and takes whole slots. *)
Lemma sq_wqe_size_ok :
  32 + 16 * sge <= sq_wqe_size sge inl /\ 32 + inl <= sq_wqe_size sge inl
  /\ sq_wqe_size sge inl mod 16 = 0.
Proof using All.
  unfold sq_wqe_size. rewrite calc_wqe_sz_exact.
  destruct (Z.ltb_spec 0 inl) as [Hp|Hp].
  - destruct (align_up_spec inl STRIDE 4 eq_refl ltac:(lia) Hinl) as [Hal _]; [sizes; lia|].
    sizes. assert (E : u32 (32 + align_up inl 16) = 32 + align_up inl 16)
      by (apply Z.mod_small; lia). rewrite E.
    set (w := if 16 * sge + 32 <? 32 + align_up inl 16 then _ else _).
    assert (Hw : 32 + 16 * sge <= w /\ 32 + inl <= w < 2 ^ 31)
      by (subst w; destruct (Z.ltb_spec (16 * sge + 32) (32 + align_up inl 16)); lia).
    destruct (align_up_spec w 16 4 eq_refl ltac:(lia)) as [? ?]; sizes; lia.
  - replace inl with 0 by lia. repeat split; [lia|lia|].
    replace (16 * sge + 32) with ((sge + 2) * 16) by lia. apply Z.mod_mul. lia.
Qed.
End Entry.

Section SendQueue.
Context (pg p wr sge inl : Z).
Context (Hpg : pg = 2 ^ p) (Hp : 0 <= p <= 30) (Hwr : 0 <= wr <= 2 ^ 31 - 200) (Hsge : 0 <= sge) (Hinl : 0 <= inl).
Context (Bsge : 16 * sge + 32 < 2 ^ 31) (Binl : inl < 2 ^ 31 - 100).

(** The entries the queue is made for: one more than asked, and the delta. *)
Let need := wr + 1 + FULL_FLAG_DELTA.
Let entry := sq_wqe_size sge inl.
Context (Broom : roundup_pow2 need * entry <= 2 ^ 30).

Lemma ring_exact :
  let s := compute_sq pg wr sge inl in
  let slots := sq_slots s in
  need * entry <= slots * 16 /\ slots mod 256 = 0 /\ 0 < slots < 2 ^ 26 + 256
  /\ slots <= sq_npsn s < 2 * slots /\ sq_npsn s = 2 ^ Z.log2_up slots.
Proof using Hwr Broom Hsge Hinl Bsge Binl.
  clear Hp Hpg p. assert (Hn : 129 <= need < 2 ^ 31) by (subst need; unfold FULL_FLAG_DELTA; lia).
  destruct (sq_wqe_size_ok sge inl Hsge Hinl Bsge Binl) as (He1 & He2 & Hm). fold entry in He1, He2, Hm.
  destruct (roundup_pow2_bounds need ltac:(lia)) as [Hr1 Hr2].
  cbv zeta. unfold compute_sq. cbv zeta. cbn [sq_slots sq_npsn].
  fold need entry. sizes. rewrite (u32_small need) by lia.
  set (N := roundup_pow2 need) in *.
  assert (HN : N * entry <= 2 ^ 30) by done. assert (0 < N * entry) by (apply Z.mul_pos_pos; lia).
  rewrite (u32_small N) by lia.
  rewrite (u32_small (N * entry)) by lia.
  set (S0 := N * entry / 16).
  assert (HS : S0 * 16 = N * entry).
  { subst S0. pose proof (Z.div_mod (N * entry) 16 ltac:(lia)) as E.
    rewrite <- Zmult_mod_idemp_r, Hm, Z.mul_0_r, Zmod_0_l in E. lia. }
  destruct (align_up_spec S0 VAR_SLOT_ALIGN 8 eq_refl ltac:(lia)) as [Ha1 Ha2];
    [lia|unfold VAR_SLOT_ALIGN; lia|]. unfold VAR_SLOT_ALIGN in *.
  set (sl := align_up S0 256) in *.
  assert (need * entry <= N * entry) by (apply Z.mul_le_mono_nonneg_r; lia).
  destruct (roundup_pow2_bounds sl ltac:(lia)) as [Hs1 Hs2].
  rewrite (u32_small (roundup_pow2 sl)) by lia.
  repeat split; try lia. apply roundup_pow2_log. lia.
Qed.

Lemma table_exact :
  let s := compute_sq pg wr sge inl in
  msn_bytes s = sq_npsn s * 8 /\ msn_off s = sq_len s - sq_npsn s * 8
  /\ sq_slots s * 16 <= msn_off s /\ sq_len s mod pg = 0
  /\ sq_len s < sq_slots s * 16 + sq_npsn s * 8 + pg.
Proof using All.
  pose proof ring_exact as (H1 & H2 & H3 & H4 & H5). cbv zeta in *.
  set (s := compute_sq pg wr sge inl) in *.
  assert (Hps : sq_psn_sz s = 8) by done.
  assert (Hlen : sq_len s = align_up (u32 (u32 (sq_slots s * 16) + u32 (sq_npsn s * 8))) pg) by done.
  assert (HB : pg <= 2 ^ 30) by (rewrite Hpg; apply Z.pow_le_mono_r; lia).
  assert (0 < pg) by (rewrite Hpg; apply Z.pow_pos_nonneg; lia).
  rewrite (u32_small (sq_slots s * 16)) in Hlen by lia.
  rewrite (u32_small (sq_npsn s * 8)) in Hlen by lia.
  rewrite (u32_small (_ + _)) in Hlen by lia.
  destruct (align_up_spec (sq_slots s * 16 + sq_npsn s * 8) pg p Hpg) as [Hl1 Hl2];
    [lia|lia|change (2 ^ 32) with 4294967296; lia|]. rewrite <- Hlen in Hl1, Hl2.
  assert (Hb : msn_bytes s = sq_npsn s * 8).
  { unfold msn_bytes, u64. rewrite Hps, Z.mod_small; lia. }
  assert (Ho : msn_off s = sq_len s - sq_npsn s * 8).
  { unfold msn_off, u64. rewrite Hb, Z.mod_small; lia. }
  rewrite Ho. repeat split; lia || done.
Qed.
End SendQueue.

(** C32: The host sizes the send buffer for the queue it was asked for: the ring has room
    for every entry the queue may have outstanding and one more, each with its
    header, gather list and inline data; behind it, whole and at the end of
    the buffer, lies the table, a power of two of records, one for every slot
    at least; the buffer is whole pages, less than one of them spare.  The bound
    is that the ring, its number of entries rounded up to a power of two times
    the size of an entry, is at most 2^30 bytes (beyond it the 32-bit products
    wrap, [sq_size_wraps]); the page size is a power of two up to 2^30.  This
    is the host's sizing: it does not say that the device code keeps within
    an entry, which for inline data it does not ([inline_leaves_ring]). *)
Theorem sq_table_fits pg p wr sge inl :
  pg = 2 ^ p -> 0 <= p <= 30 -> 0 <= wr <= 2 ^ 31 - 200 -> 0 <= sge -> 0 <= inl ->
  16 * sge + 32 < 2 ^ 31 -> inl < 2 ^ 31 - 100 ->
  roundup_pow2 (wr + 1 + FULL_FLAG_DELTA) * sq_wqe_size sge inl <= 2 ^ 30 ->
  let s := compute_sq pg wr sge inl in
  32 + 16 * sge <= sq_wqe_sz s /\ 32 + inl <= sq_wqe_sz s
  /\ (wr + 1 + FULL_FLAG_DELTA) * sq_wqe_sz s <= sq_slots s * BNXT_RE_SLOT_SIZE_BB
  /\ sq_slots s * BNXT_RE_SLOT_SIZE_BB <= msn_off s
  /\ msn_off s + sq_npsn s * MSN_ENTRY_SZ = sq_len s
  /\ sq_slots s <= sq_npsn s /\ sq_npsn s = 2 ^ Z.log2_up (sq_slots s)
  /\ sq_len s mod pg = 0
  /\ sq_len s < sq_slots s * BNXT_RE_SLOT_SIZE_BB + sq_npsn s * MSN_ENTRY_SZ + pg.
Proof.
  intros Hpg Hp Hwr Hsge Hinl Bsge Binl Broom s.
  destruct (sq_wqe_size_ok sge inl Hsge Hinl Bsge Binl) as (He1 & He2 & Hm).
  destruct (ring_exact pg wr sge inl Hwr Hsge Hinl Bsge Binl Broom) as (H1 & H2 & H3 & H4 & H5).
  destruct (table_exact pg p wr sge inl Hpg Hp Hwr Hsge Hinl Bsge Binl Broom) as (T1 & T2 & T3 & T4 & T5).
  fold s in H1, H2, H3, H4, H5, T1, T2, T3, T4, T5.
  change (sq_wqe_sz s) with (sq_wqe_size sge inl).
  change BNXT_RE_SLOT_SIZE_BB with 16. change MSN_ENTRY_SZ with 8.
  repeat split; lia || done.
Qed.

(** The endpoint's default queue: 256 entries with up to 28 bytes inline. *)
Example sq_table_fits_witness :
  let s := compute_sq 4096 256 1 28 in
  sq_slots s * BNXT_RE_SLOT_SIZE_BB <= msn_off s
  /\ (sq_slots s, sq_wqe_sz s, sq_npsn s, sq_len s, msn_off s) = (2048, 64, 2048, 49152, 32768).
Proof.
  split; [|by vm_compute].
  apply (sq_table_fits 4096 12 256 1 28); (by vm_compute) || lia.
Defined.

(** Past that bound the 32-bit product wraps: a queue of some sixteen million
    entries of 512 bytes gets one page. *)
Lemma sq_size_wraps :
  let s := compute_sq 4096 (2 ^ 24 - 200) 30 0 in
  sq_wqe_sz s = 512 /\ sq_slots s = 0 /\ sq_len s = 4096.
Proof. by vm_compute. Qed.

(** ** The receive queue *)

Theorem rq_fits pg p wr sge :
  pg = 2 ^ p -> 0 <= p <= 30 -> 0 <= wr <= 2 ^ 31 - 200 -> 0 <= sge -> 16 * sge + 32 < 2 ^ 31 ->
  roundup_pow2 (wr + 1) * calc_wqe_sz sge <= 2 ^ 30 ->
  let r := compute_rq pg wr sge in
  if wr =? 0 then rq_len r = 0
  else (wr + 1) * (32 + 16 * sge) <= rq_slots r * BNXT_RE_SLOT_SIZE_BB
       /\ rq_slots r * BNXT_RE_SLOT_SIZE_BB <= rq_len r /\ rq_len r mod pg = 0.
Proof.
  intros Hpg Hp Hwr Hsge Bsge Broom r. subst r. unfold compute_rq.
  destruct (Z.eqb_spec wr 0) as [->|Hne]; [done|]. cbv zeta. cbn [rq_slots rq_len].
  rewrite calc_wqe_sz_exact in * by done. change BNXT_RE_SLOT_SIZE_BB with 16.
  destruct (roundup_pow2_bounds (wr + 1) ltac:(lia)) as [Hr1 Hr2].
  rewrite (u32_small (wr + 1)) by lia.
  set (N := roundup_pow2 (wr + 1)) in *. set (w := 16 * sge + 32) in *.
  assert (0 < N * w) by (apply Z.mul_pos_pos; lia).
  rewrite (u32_small N) by lia.
  rewrite (u32_small (N * w)) by lia. sizes.
  assert (E : N * w / 16 * 16 = N * w).
  { replace (N * w) with (N * (sge + 2) * 16) by (subst w; lia). by rewrite Z.div_mul. }
  set (sl := N * w / 16) in *.
  rewrite (u32_small (sl * 16)) by lia.
  assert (pg <= 2 ^ 30) by (rewrite Hpg; apply Z.pow_le_mono_r; lia).
  destruct (align_up_spec (sl * 16) pg p Hpg) as [Hl1 Hl2];
    [lia|lia|change (2 ^ 32) with 4294967296; lia|].
  assert ((wr + 1) * w <= N * w) by (apply Z.mul_le_mono_nonneg_r; lia).
  repeat split; subst w; lia || done.
Qed.

Example rq_fits_witness :
  let r := compute_rq 4096 100 1 in
  (100 + 1) * (32 + 16 * 1) <= rq_slots r * BNXT_RE_SLOT_SIZE_BB
  /\ rq_slots r * BNXT_RE_SLOT_SIZE_BB <= rq_len r /\ rq_len r mod 4096 = 0.
Proof. apply (rq_fits 4096 12 100 1); (by vm_compute) || lia. Defined.

(** ** Rounding up *)

(** [roundup_pow2] is the least power of two not below its argument. *)
Theorem roundup_pow2_least n :
  1 <= n <= 2 ^ 63 ->
  (exists k, 0 <= k /\ roundup_pow2 n = 2 ^ k) /\ n <= roundup_pow2 n
  /\ forall j, 0 <= j -> n <= 2 ^ j -> roundup_pow2 n <= 2 ^ j.
Proof.
  intros Hn. split; [|split; [by apply roundup_pow2_bounds|]].
  - exists (Z.log2_up n). split; [apply Z.log2_up_nonneg|apply roundup_pow2_log; lia].
  - intros j Hj H. rewrite roundup_pow2_log by lia. apply Z.pow_le_mono_r; [lia|].
    apply Z.log2_up_le_pow2; lia.
Qed.

Example roundup_pow2_least_witness : roundup_pow2 300 <= 2 ^ 9 /\ roundup_pow2 300 = 512.
Proof. split; [|done]. apply (roundup_pow2_least 300); lia. Defined.
