(* ===== verification/Mlx5.v ===== *)
(** * The mlx5 queue pair of the RDMA endpoint

    Device code of [src/src/endpoints/rdma-ep/mlx5/]: the work queue entries
    of [mlx5-provider.hpp] in the NIC's byte order
    ([src/src/common/endian.hpp]), and the posting, polling and waiting of
    [mlx5-queue-pair.hip], by one group of lanes, interleaved with the NIC.
    The NIC is hardware: it executes the announced entries in order and
    writes a completion for each, with the owner bit of its round.

    The polling loop tests a local variable that is not initialised when its
    first turn finds no completion.  The model gives it an arbitrary 16-bit
    value at the call.  Entries are executed as posted in every run in which
    that value is no more than the slots that are free ([mlx5_fifo],
    [mlx5_quiet_waits]); with a larger one an entry is overwritten
    ([mlx5_junk_overwrites]), and with a small one a call on a drained queue
    never returns ([mlx5_drained_hangs]). *)

From S2P Require Import Prelude Endian.

Arguments Z.mul : simpl never.
Arguments Z.add : simpl never.
Arguments Z.modulo : simpl never.
Arguments Z.div : simpl never.

(** ** Constants of [infiniband/mlx5dv.h] *)

Class Mlx5dv := {
  MLX5_OPCODE_RDMA_WRITE : Z; MLX5_OPCODE_RDMA_WRITE_IMM : Z; MLX5_INLINE_SEG : Z;
  MLX5_CQE_REQ : Z; MLX5_CQE_REQ_ERR : Z; MLX5_CQE_INVALID : Z
}.

Definition MLX5_WQE_CTRL_CQ_UPDATE : Z := 8.

(** ** Work queue entries *)

Inductive wqe_body :=
| RmaData (byte_count lkey addr : Z)
| RmaInline (byte_count : Z) (data : list Z)
| Amo (swap_add compare byte_count lkey addr : Z).

Record gda_mlx5_wqe := {
  opmod_idx_opcode : Z; qpn_ds : Z; fm_ce_se : Z; imm : Z; wqe_raddr : Z; wqe_rkey : Z;
  wqe_rest : wqe_body
}.

Definition wqe_ctrl_raddr (wqe_idx opcode qpn ds raddr rkey imm_data : Z) (rest : wqe_body) : gda_mlx5_wqe :=
  {| opmod_idx_opcode := to_be 4 (Z.lor (u32 (Z.shiftl wqe_idx 8)) opcode);
     qpn_ds := to_be 4 (Z.lor (u32 (Z.shiftl qpn 8)) (Z.land ds 63));
     fm_ce_se := MLX5_WQE_CTRL_CQ_UPDATE; imm := to_be 4 imm_data;
     wqe_raddr := to_be 8 raddr; wqe_rkey := rkey; wqe_rest := rest |}.

Section Device.
Context `{Mlx5dv}.

Definition inline_ds (byte_count : Z) : Z := if byte_count <=? 12 then 3 else 4.
Definition can_inline (opcode byte_count inline_threshold : Z) : bool :=
  ((opcode =? MLX5_OPCODE_RDMA_WRITE) || (opcode =? MLX5_OPCODE_RDMA_WRITE_IMM))
  && (byte_count <=? inline_threshold).

(** What a lane asks for. *)
Inductive request :=
| Rma (length laddr raddr opcode imm_data : Z)
| Atomic (raddr opcode atomic_data atomic_cmp : Z) (fetching : bool).

(** The members of a queue pair that do not change. *)
Record qp_config := {
  qp_num : Z; qp_rkey : Z; qp_lkey : Z; inline_threshold : Z;
  nonfetching_atomic : Z; nonfetching_atomic_lkey : Z;
  fetching_atomic : Z; fetching_atomic_lkey : Z;
  sq_depth : Z; cq_depth : Z
}.
Definition FETCHING_ATOMIC_CNT : Z := 1024.

(** The entry of a request at index [wqe_idx]; [atomic_idx] counts fetching
    atomics, and [lm] is the memory an inline entry copies from. *)
Definition request_wqe (q : qp_config) (lm : Z -> Z) (wqe_idx atomic_idx : Z) (r : request) : gda_mlx5_wqe :=
  match r with
  | Rma len laddr raddr opcode imm_data =>
      if can_inline opcode (u32 len) (inline_threshold q)
      then wqe_ctrl_raddr wqe_idx opcode (qp_num q) (inline_ds (u32 len)) raddr (qp_rkey q) imm_data
             (RmaInline (to_be 4 (Z.lor (Z.land (u32 len) 1023) MLX5_INLINE_SEG))
                (map (fun i => lm (laddr + Z.of_nat i)) (seq 0 (Z.to_nat (u32 len)))))
      else wqe_ctrl_raddr wqe_idx opcode (qp_num q) 3 raddr (qp_rkey q) imm_data
             (RmaData (to_be 4 (Z.land (u32 len) (u32 (Z.lnot MLX5_INLINE_SEG)))) (qp_lkey q) (to_be 8 laddr))
  | Atomic raddr opcode atomic_data atomic_cmp fetching =>
      wqe_ctrl_raddr wqe_idx opcode (qp_num q) 4 raddr (qp_rkey q) 0
        (if fetching
         then Amo (to_be 8 (u64 atomic_data)) (to_be 8 (u64 atomic_cmp)) (to_be 4 8) (fetching_atomic_lkey q)
                (to_be 8 (fetching_atomic q + 8 * (u32 atomic_idx mod FETCHING_ATOMIC_CNT)))
         else Amo (to_be 8 (u64 atomic_data)) (to_be 8 (u64 atomic_cmp)) (to_be 4 8)
                (nonfetching_atomic_lkey q) (to_be 8 (nonfetching_atomic q)))
  end.

(** ** The queue pair *)

Record mlx5_cqe64 := { op_own : Z; wqe_counter : Z }.

Record mlx5_qp := {
  sq_buf : Z -> gda_mlx5_wqe; sq_dbrec : Z; db_reg : Z * Z; bf_offset : Z;
  sq_post : Z; sq_tail : Z; fetching_idx : Z;
  cq_buf : Z -> mlx5_cqe64; cq_dbrec : Z; cons_index : Z
}.

(** [post_wqe_rma], [post_wqe_amo] by the lanes of a wave, and their single
    forms: the requests in the order of the lanes; [ring_db]: ring the
    doorbell.  A fetching atomic is followed by a [Quiet]. *)
Inductive qp_op := Post (l : list request) (ring_db : bool) | Quiet.

Definition requested_slots (q : qp_config) (o : qp_op) : Z :=
  match o with Post l _ => Z.of_nat (length l) | Quiet => sq_depth q end.

(** [swap_bf_buffer] and [ring_doorbell]. *)
Definition ring_doorbell (counter : Z) (w : gda_mlx5_wqe) (m : mlx5_qp) : mlx5_qp :=
  {| sq_buf := sq_buf m; sq_dbrec := to_be 4 counter; db_reg := (opmod_idx_opcode w, qpn_ds w);
     bf_offset := Z.lxor (bf_offset m) 1; sq_post := sq_post m; sq_tail := sq_tail m;
     fetching_idx := fetching_idx m; cq_buf := cq_buf m; cq_dbrec := cq_dbrec m;
     cons_index := cons_index m |}.

(** The entries of a wave: lane [i] writes slot [(tail + i) % depth]. *)
Definition lane_wqes (q : qp_config) (lm : Z -> Z) (m : mlx5_qp) (l : list request) : list gda_mlx5_wqe :=
  imap (fun i r => request_wqe q lm (u16 (sq_tail m + Z.of_nat i)) (fetching_idx m + Z.of_nat i) r) l.

Fixpoint enqueue (depth tail : Z) (ws : list gda_mlx5_wqe) (buf : Z -> gda_mlx5_wqe) : Z -> gda_mlx5_wqe :=
  match ws with
  | [] => buf
  | w :: ws' =>
      enqueue depth (tail + 1) ws'
        (fun k => if k =? u16 tail mod depth then w else buf k)
  end.

Definition is_fetching (r : request) : bool :=
  match r with Atomic _ _ _ _ fetching => fetching | _ => false end.

(** What follows the poll, under the lock. *)
Definition post_wqes (q : qp_config) (lm : Z -> Z) (l : list request) (ring_db : bool) (m : mlx5_qp) : mlx5_qp :=
  let ws := lane_wqes q lm m l in
  let n := Z.of_nat (length l) in
  let m' :=
    {| sq_buf := enqueue (sq_depth q) (sq_tail m) ws (sq_buf m); sq_dbrec := sq_dbrec m;
       db_reg := db_reg m; bf_offset := bf_offset m; sq_post := u64 (sq_post m + n);
       sq_tail := u16 (sq_tail m + n);
       fetching_idx := if forallb is_fetching l then u32 (fetching_idx m + n) else fetching_idx m;
       cq_buf := cq_buf m; cq_dbrec := cq_dbrec m; cons_index := cons_index m |} in
  match ws !! pred (length ws) with
  | Some w => if ring_db then ring_doorbell (sq_tail m') w m' else m'
  | None => m'
  end.

(** [mlx5_update_cq_ci], with the consumer index it is given. *)
Definition consume_cqe (ci : Z) (m : mlx5_qp) : mlx5_qp :=
  {| sq_buf := sq_buf m; sq_dbrec := sq_dbrec m; db_reg := db_reg m; bf_offset := bf_offset m;
     sq_post := sq_post m; sq_tail := sq_tail m; fetching_idx := fetching_idx m; cq_buf := cq_buf m;
     cq_dbrec := to_be 4 (Z.land (u32 (ci + 1)) 16777215); cons_index := u32 (ci + 1) |}.

(** [poll_cq_until]: the caller has an operation to do; [available] is the
    local variable of the loop, which holds whatever it held until a
    completion is taken.  [Aborted]: the NIC reported an error. *)
Inductive qp_pc :=
| Idle | Polling (o : qp_op) (available : Z) (seen_post : Z) | Ready (o : qp_op) | Aborted.

(** [junk]: what the variable holds when it is declared. *)
Definition poll_start (q : qp_config) (junk : Z) (o : qp_op) (m : mlx5_qp) : qp_pc :=
  if sq_post m <=? sq_depth q - requested_slots q o then Ready o else Polling o junk (sq_post m).

(** The condition at the end of the loop. *)
Definition poll_again (q : qp_config) (o : qp_op) (available seen_post : Z) (m : mlx5_qp) : qp_pc :=
  if negb (sq_post m =? seen_post) || (available <? requested_slots q o)
  then Polling o available (sq_post m) else Ready o.

(** One turn of the loop. *)
Definition poll_turn (q : qp_config) (o : qp_op) (available seen_post : Z) (m : mlx5_qp)
    : mlx5_qp * qp_pc :=
  let ci := cons_index m in
  let owner_expected := Z.land (ci / cq_depth q) 1 in
  let cqe := cq_buf m (ci mod cq_depth q) in
  let opcode := Z.shiftr (op_own cqe) 4 in
  let owner := Z.land (op_own cqe) 1 in
  if negb (owner =? owner_expected) then (m, poll_again q o available (sq_post m) m) else
  if opcode =? MLX5_CQE_INVALID then (m, poll_again q o available (sq_post m) m) else
  if opcode =? MLX5_CQE_REQ_ERR then (m, Aborted) else
  let sq_head := from_be 2 (wqe_counter cqe) in
  let m' := consume_cqe ci m in
  let consumed_slots := u16 (sq_tail m' - u16 (sq_head + 1)) in
  let available' := u16 (sq_depth q - consumed_slots) in
  (m', poll_again q o available' seen_post m').

(** [ring_doorbell_only]: the entry whose header it writes; [% depth] is the
    remainder of C, on the [int] that [tail - 1] is. *)
Definition ring_doorbell_last (q : qp_config) (m : mlx5_qp) : Z := u16 (Z.rem (sq_tail m - 1) (sq_depth q)).
Definition ring_doorbell_only (q : qp_config) (m : mlx5_qp) : mlx5_qp :=
  ring_doorbell (sq_tail m) (sq_buf m (ring_doorbell_last q m)) m.

(** ** With the NIC *)

(** [sy_posted]: every entry ever written, oldest first; [sy_executed]: the
    entries the NIC has executed. *)
Record qp_system := {
  sy_qp : mlx5_qp; sy_pc : qp_pc; sy_posted : list gda_mlx5_wqe; sy_executed : list gda_mlx5_wqe
}.

Definition nic_count (s : qp_system) : Z := Z.of_nat (length (sy_executed s)).

(** Completion number [n]. *)
Definition nic_cqe (q : qp_config) (n opcode : Z) : mlx5_cqe64 :=
  {| op_own := 16 * opcode + (n / cq_depth q) mod 2; wqe_counter := to_be 2 (u16 n) |}.

Definition nic_write (q : qp_config) (n opcode : Z) (m : mlx5_qp) : mlx5_qp :=
  {| sq_buf := sq_buf m; sq_dbrec := sq_dbrec m; db_reg := db_reg m; bf_offset := bf_offset m;
     sq_post := sq_post m; sq_tail := sq_tail m; fetching_idx := fetching_idx m;
     cq_buf := fun k => if k =? n mod cq_depth q then nic_cqe q n opcode else cq_buf m k;
     cq_dbrec := cq_dbrec m; cons_index := cons_index m |}.

Inductive qp_step (q : qp_config) (lm : Z -> Z) : qp_system -> qp_system -> Prop :=
| step_call s o junk :
    sy_pc s = Idle -> (forall l r, o = Post l r -> l <> [] /\ Z.of_nat (length l) <= sq_depth q) ->
    0 <= junk < 65536 ->
    qp_step q lm s {| sy_qp := sy_qp s; sy_pc := poll_start q junk o (sy_qp s);
                      sy_posted := sy_posted s; sy_executed := sy_executed s |}
| step_poll s o available seen :
    sy_pc s = Polling o available seen ->
    qp_step q lm s {| sy_qp := fst (poll_turn q o available seen (sy_qp s));
                      sy_pc := snd (poll_turn q o available seen (sy_qp s));
                      sy_posted := sy_posted s; sy_executed := sy_executed s |}
| step_post s l ring_db :
    sy_pc s = Ready (Post l ring_db) ->
    qp_step q lm s {| sy_qp := post_wqes q lm l ring_db (sy_qp s); sy_pc := Idle;
                      sy_posted := sy_posted s ++ lane_wqes q lm (sy_qp s) l;
                      sy_executed := sy_executed s |}
| step_quiet s :
    sy_pc s = Ready Quiet ->
    qp_step q lm s {| sy_qp := sy_qp s; sy_pc := Idle; sy_posted := sy_posted s; sy_executed := sy_executed s |}
| step_ring s :
    sy_pc s = Idle ->
    qp_step q lm s {| sy_qp := ring_doorbell_only q (sy_qp s); sy_pc := Idle;
                      sy_posted := sy_posted s; sy_executed := sy_executed s |}
| step_execute s opcode :
    from_be 4 (sq_dbrec (sy_qp s)) <> u16 (nic_count s) ->
    opcode = MLX5_CQE_REQ \/ opcode = MLX5_CQE_REQ_ERR ->
    qp_step q lm s {| sy_qp := nic_write q (nic_count s) opcode (sy_qp s); sy_pc := sy_pc s;
                      sy_posted := sy_posted s;
                      sy_executed := sy_executed s ++ [sq_buf (sy_qp s) (nic_count s mod sq_depth q)] |}.

(** A fresh queue pair: the host has set [op_own] of every completion to
    0xFF. *)
Definition qp_start (sq : Z -> gda_mlx5_wqe) : qp_system :=
  {| sy_qp := {| sq_buf := sq; sq_dbrec := 0; db_reg := (0, 0); bf_offset := 0; sq_post := 0; sq_tail := 0;
                 fetching_idx := 0; cq_buf := fun _ => {| op_own := 255; wqe_counter := 0 |};
                 cq_dbrec := 0; cons_index := 0 |};
     sy_pc := Idle; sy_posted := []; sy_executed := [] |}.

Definition qp_reachable (q : qp_config) (lm : Z -> Z) (s : qp_system) : Prop :=
  exists sq, rtc (qp_step q lm) (qp_start sq) s.
End Device.

Lemma u16_be v : from_be 2 (to_be 2 (u16 v)) = u16 v.
Proof. apply from_to_be. exact (u16_range v). Qed.

Lemma u16_be4 v : from_be 4 (to_be 4 (u16 v)) = u16 v.
Proof. apply from_to_be. change (256 ^ Z.of_nat 4) with 4294967296. pose proof (u16_range v). lia. Qed.

(** ** The invariant *)

Section Invariant.
Context `{Mlx5dv} (q : qp_config) (lm : Z -> Z).

(** Depths the queues have: a power of two for the send queue, and room for
    all of its completions. *)
Record qp_ok : Prop := {
  qo_depth : 0 < sq_depth q <= 32768;
  qo_divides : (sq_depth q | 65536);
  qo_cq : sq_depth q <= cq_depth q
}.

Definition posted_count (s : qp_system) : Z := Z.of_nat (length (sy_posted s)).

(** The call of an operation posts at least one entry, and no more than the
    queue holds. *)
Definition op_ok (o : qp_op) : Prop :=
  forall l r, o = Post l r -> l <> [] /\ Z.of_nat (length l) <= sq_depth q.

Definition point_ok (P K : Z) (pc : qp_pc) : Prop :=
  match pc with
  | Polling o available seen =>
      op_ok o /\ seen = P /\ available <= sq_depth q - (P - K)
  | Ready o => op_ok o /\ P - K + requested_slots q o <= sq_depth q
  | _ => True
  end.

(** [K] completions are consumed and [D] entries announced. *)
Record qp_inv (s : qp_system) (K D : Z) : Prop := {
  iv_order : 0 <= K <= nic_count s /\ nic_count s <= D <= posted_count s;
  iv_room : posted_count s <= K + sq_depth q;
  iv_tail : sq_tail (sy_qp s) = u16 (posted_count s);
  iv_post : sq_post (sy_qp s) = posted_count s;
  iv_door : from_be 4 (sq_dbrec (sy_qp s)) = u16 D;
  iv_cons : cons_index (sy_qp s) = K;
  iv_slots : forall i, nic_count s <= Z.of_nat i < posted_count s ->
    sy_posted s !! i = Some (sq_buf (sy_qp s) (Z.of_nat i mod sq_depth q));
  iv_exec : forall i w, sy_executed s !! i = Some w -> sy_posted s !! i = Some w;
  iv_cqes : forall n, K <= n < nic_count s ->
    exists opcode, cq_buf (sy_qp s) (n mod cq_depth q) = nic_cqe q n opcode;
  iv_stale : forall n, nic_count s <= n < nic_count s + cq_depth q ->
    Z.land (op_own (cq_buf (sy_qp s) (n mod cq_depth q))) 1 <> Z.land (n / cq_depth q) 1;
  iv_point : point_ok (posted_count s) K (sy_pc s)
}.

Hypothesis Hq : qp_ok.

Lemma slot_of n : u16 n mod sq_depth q = n mod sq_depth q.
Proof using Hq. destruct Hq as [H1 H2 H3]. unfold u16. rewrite Z.mod_mod_divide; [done|exact H2]. Qed.

Lemma owner_bit n opcode : Z.land (op_own (nic_cqe q n opcode)) 1 = Z.land (n / cq_depth q) 1.
Proof using Type.
  cbn. rewrite !(land_ones_mod _ 1) by lia. change (2 ^ 1) with 2.
  replace (16 * opcode + (n / cq_depth q) mod 2) with ((n / cq_depth q) mod 2 + (8 * opcode) * 2) by lia.
  by rewrite Z.mod_add, Z.mod_mod by lia.
Qed.

Lemma land_1 x : Z.land x 1 = x mod 2.
Proof using Type. by rewrite (land_ones_mod _ 1) by lia. Qed.

Lemma lap_bit n : Z.land ((n + cq_depth q) / cq_depth q) 1 <> Z.land (n / cq_depth q) 1.
Proof using Hq.
  destruct Hq. rewrite !land_1. replace (n + cq_depth q) with (n + 1 * cq_depth q) by lia.
  rewrite Z.div_add by lia. set (x := n / cq_depth q). 
  pose proof (Z.div_mod x 2 ltac:(lia)). pose proof (Z.div_mod (x + 1) 2 ltac:(lia)).
  pose proof (Z.mod_pos_bound x 2). pose proof (Z.mod_pos_bound (x + 1) 2). lia.
Qed.

Lemma enqueue_other depth ws : forall tail buf k,
  (forall i, (i < length ws)%nat -> u16 (tail + Z.of_nat i) mod depth <> k) ->
  enqueue depth tail ws buf k = buf k.
Proof using Type.
  induction ws as [|w ws IH]; intros tail buf k Hk; [done|]. cbn. rewrite IH.
  - specialize (Hk 0%nat ltac:(cbn; lia)). rewrite Z.add_0_r in Hk.
    destruct (k =? u16 tail mod depth) eqn:E; bool_to_prop; congruence.
  - intros i Hi. specialize (Hk (S i) ltac:(cbn; lia)).
    by replace (tail + 1 + Z.of_nat i) with (tail + Z.of_nat (S i)) by lia.
Qed.

Lemma enqueue_at ws : forall tail buf i w,
  Z.of_nat (length ws) <= sq_depth q -> ws !! i = Some w ->
  enqueue (sq_depth q) tail ws buf ((tail + Z.of_nat i) mod sq_depth q) = w.
Proof using Hq.
  destruct Hq as [H1 H2 H3].
  induction ws as [|w' ws IH]; intros tail buf i w Hl Hi; [done|]. destruct i as [|i]; cbn in Hi.
  - simplify_eq. cbn. rewrite enqueue_other.
    + rewrite Z.add_0_r, slot_of, Z.eqb_refl by done. done.
    + intros j Hj E. rewrite slot_of in E. symmetry in E. apply slot_inj in E; cbn in Hl; lia.
  - cbn [enqueue]. replace (tail + Z.of_nat (S i)) with (tail + 1 + Z.of_nat i) by lia.
    apply IH; [cbn in Hl; lia|done].
Qed.

Definition few (s : qp_system) : Prop := posted_count s < 4294967296.

Lemma poll_again_ok P K o available m :
  op_ok o -> sq_post m = P -> available <= sq_depth q - (P - K) ->
  point_ok P K (poll_again q o available P m).
Proof using Type.
  intros Ho Hp Ha. unfold poll_again. rewrite Hp, Z.eqb_refl. cbn [negb orb].
  destruct (_ <? _) eqn:E; bool_to_prop; cbn; [done|split; [done|lia]].
Qed.

(** A completion is taken only if the NIC has written it. *)
Lemma poll_inv s o available seen K D :
  sy_pc s = Polling o available seen -> few s -> qp_inv s K D ->
  exists K', qp_inv {| sy_qp := fst (poll_turn q o available seen (sy_qp s));
                       sy_pc := snd (poll_turn q o available seen (sy_qp s));
                       sy_posted := sy_posted s; sy_executed := sy_executed s |} K' D.
Proof using Hq.
  intros Hpc Hfew Hi. pose proof (iv_point _ _ _ Hi) as Hp. rewrite Hpc in Hp. cbn in Hp.
  destruct Hp as (Ho & -> & Ha). unfold few in Hfew.
  destruct Hi as [I1 I2 I3 I4 I5 I6 I7 I8 I9 I10 _]. unfold posted_count, nic_count in *.
  set (P := Z.of_nat (length (sy_posted s))) in *. set (N := Z.of_nat (length (sy_executed s))) in *.
  assert (Hwait : exists K', qp_inv {| sy_qp := sy_qp s;
    sy_pc := poll_again q o available (sq_post (sy_qp s)) (sy_qp s);
    sy_posted := sy_posted s; sy_executed := sy_executed s |} K' D).
  { exists K. split; try done. cbn. rewrite I4. by apply poll_again_ok. }
  unfold poll_turn. rewrite I6. destruct (negb _) eqn:E1; bool_to_prop; [exact Hwait|].
  destruct (_ =? MLX5_CQE_INVALID); [exact Hwait|]. clear Hwait.
  destruct (_ =? MLX5_CQE_REQ_ERR); [exists K; by split|]. cbn.
  assert (HK : K < N).
  { destruct (decide (K = N)) as [E|]; [|lia]. destruct Hq. by destruct (I10 K); [lia|]. }
  destruct (I9 K) as [opcode Hc]; [lia|]. rewrite Hc. cbn [wqe_counter nic_cqe]. rewrite u16_be.
  destruct Hq as [H1 H2 H3].
  assert (Hcons : u16 (sq_tail (sy_qp s) - u16 (u16 K + 1)) = P - (K + 1)).
  { rewrite I3. unfold u16. rewrite <- (Z.mod_small (P - (K + 1)) 65536) by lia.
    rewrite Zplus_mod_idemp_l, Zminus_mod_idemp_l, Zminus_mod_idemp_r. done. }
  rewrite Hcons, u16_small by lia. exists (K + 1).
  assert (HK2 : u32 (K + 1) = K + 1) by (apply u32_small; lia).
  split; unfold posted_count, nic_count; cbn; fold P N; try done; try lia.
  - intros n Hn. apply I9. lia.
  - apply poll_again_ok; [done|done|lia].
Qed.

Lemma length_lane_wqes m l : length (lane_wqes q lm m l) = length l.
Proof using Type. apply length_imap. Qed.

(** Entries go to slots the NIC is done with. *)
Lemma post_inv s l ring_db K D :
  sy_pc s = Ready (Post l ring_db) -> qp_inv s K D ->
  let s' := {| sy_qp := post_wqes q lm l ring_db (sy_qp s); sy_pc := Idle;
               sy_posted := sy_posted s ++ lane_wqes q lm (sy_qp s) l; sy_executed := sy_executed s |} in
  few s' -> exists D', qp_inv s' K D'.
Proof using Hq.
  intros Hpc Hi s' Hfew. pose proof (iv_point _ _ _ Hi) as Hp. rewrite Hpc in Hp. cbn in Hp.
  destruct Hp as (Ho & Hroom). destruct (Ho l ring_db eq_refl) as [Hne Hlen].
  destruct Hi as [I1 I2 I3 I4 I5 I6 I7 I8 I9 I10 _]. unfold posted_count, nic_count in *.
  pose proof (length_lane_wqes (sy_qp s) l) as Hll.
  set (P := Z.of_nat (length (sy_posted s))) in *. set (N := Z.of_nat (length (sy_executed s))) in *.
  unfold few, posted_count in Hfew. cbn [sy_posted s'] in Hfew. rewrite length_app, Nat2Z.inj_add, Hll in Hfew. fold P in Hfew.
  destruct Hq as [H1 H2 H3]. assert (Hn : 0 < Z.of_nat (length l)) by (destruct l; [done|cbn; lia]).
  remember (Z.of_nat (length l)) as n eqn:Hnl.
  assert (Hslots : forall i, N <= Z.of_nat i < P + n ->
    (sy_posted s ++ lane_wqes q lm (sy_qp s) l) !! i
    = Some (enqueue (sq_depth q) (sq_tail (sy_qp s)) (lane_wqes q lm (sy_qp s) l) (sq_buf (sy_qp s))
              (Z.of_nat i mod sq_depth q))).
  { intros i Hi. destruct (decide (Z.of_nat i < P)) as [Hlt|Hge].
    - rewrite lookup_app_l by lia. rewrite enqueue_other; [apply I7; lia|].
      intros j Hj E. rewrite Hll in Hj. rewrite slot_of, I3 in E by done.
      rewrite <- Z.add_mod_idemp_l, slot_of, Z.add_mod_idemp_l in E by (done || lia).
      symmetry in E. apply slot_inj in E; lia.
    - rewrite lookup_app_r by lia.
      destruct (lookup_lt_is_Some_2 (lane_wqes q lm (sy_qp s) l) (i - length (sy_posted s))) as [w Hw]; [lia|].
      assert (Hle : Z.of_nat (length (lane_wqes q lm (sy_qp s) l)) <= sq_depth q) by (rewrite Hll; lia).
      rewrite Hw. f_equal.
      rewrite <- (enqueue_at (lane_wqes q lm (sy_qp s) l) (sq_tail (sy_qp s)) (sq_buf (sy_qp s)) _ w Hle Hw) at 1.
      f_equal. rewrite I3, <- (Z.add_mod_idemp_l (u16 _)), slot_of, Z.add_mod_idemp_l by (done || lia).
      f_equal. unfold P. lia. }
  assert (Htail : u16 (sq_tail (sy_qp s) + n) = u16 (P + n)).
  { rewrite I3. unfold u16. apply Zplus_mod_idemp_l. }
  assert (Hpost : u64 (sq_post (sy_qp s) + n) = P + n) by (rewrite I4; apply u64_small; lia).
  unfold s', post_wqes. cbv zeta. rewrite <- Hnl.
  destruct (lane_wqes q lm (sy_qp s) l !! _) as [w|] eqn:Ew; [destruct ring_db|].
  - exists (P + n). split; unfold posted_count, nic_count; cbn;
      rewrite ?length_app, ?Nat2Z.inj_add, ?Hll, <- ?Hnl; fold P N; try done; try lia.
    + rewrite Htail. apply u16_be4.
    + intros i w' Hi. rewrite lookup_app_l; [by apply I8|].
      apply I8, lookup_lt_Some in Hi. done.
  - exists D. split; unfold posted_count, nic_count; cbn;
      rewrite ?length_app, ?Nat2Z.inj_add, ?Hll, <- ?Hnl; fold P N; try done; try lia.
    intros i w' Hi. rewrite lookup_app_l; [by apply I8|]. apply I8, lookup_lt_Some in Hi. done.
  - apply lookup_ge_None in Ew. lia.
Qed.

(** The NIC finds the entry it was told of, and its completion is one the
    device has not taken. *)
Lemma execute_inv s opcode K D :
  from_be 4 (sq_dbrec (sy_qp s)) <> u16 (nic_count s) -> qp_inv s K D ->
  qp_inv {| sy_qp := nic_write q (nic_count s) opcode (sy_qp s); sy_pc := sy_pc s;
            sy_posted := sy_posted s;
            sy_executed := sy_executed s ++ [sq_buf (sy_qp s) (nic_count s mod sq_depth q)] |} K D.
Proof using Hq.
  intros Hd Hi. destruct Hi as [I1 I2 I3 I4 I5 I6 I7 I8 I9 I10 I11]. rewrite I5 in Hd.
  assert (HN : nic_count s < D) by (destruct (decide (nic_count s = D)) as [E|]; [by rewrite E in Hd|lia]).
  destruct Hq as [H1 H2 H3].
  set (s' := Build_qp_system _ _ _ _).
  assert (HN' : nic_count s' = nic_count s + 1).
  { unfold nic_count, s'. cbn. rewrite length_app. cbn. lia. }
  split; rewrite ?HN'; try done; try (unfold posted_count in *; cbn; lia).
  - intros i Hi. apply I7. unfold posted_count in *. cbn in Hi. lia.
  - intros i w. unfold s'. cbn. destruct (decide (i = length (sy_executed s))) as [->|Hne].
    + rewrite list_lookup_middle by done. intros [= <-]. apply I7. unfold nic_count in *. lia.
    + intros Hi. apply I8. rewrite lookup_app_l in Hi; [done|].
      apply lookup_lt_Some in Hi. rewrite length_app in Hi. cbn in Hi. lia.
  - intros n Hn. cbn. destruct (n mod cq_depth q =? _) eqn:E; bool_to_prop.
    + exists opcode. apply slot_inj in E; [by subst|lia|lia].
    + apply I9. assert (n <> nic_count s) by congruence. lia.
  - intros n Hn. cbn. destruct (n mod cq_depth q =? _) eqn:E; bool_to_prop.
    + rewrite owner_bit. destruct (decide (n = nic_count s + cq_depth q)) as [->|].
      * intros E'. by destruct (lap_bit (nic_count s)).
      * symmetry in E. apply slot_inj in E; lia.
    + apply I10. destruct (decide (n = nic_count s + cq_depth q)) as [->|]; [|lia].
      replace (nic_count s + cq_depth q) with (nic_count s + 1 * cq_depth q) in E by lia.
      by rewrite Z.mod_add in E by lia.
Qed.

(** The variable holds no more than what is free: a run is [steady] when it
    does so whenever a call is polling. *)
Definition reads_low (s : qp_system) : Prop :=
  match sy_pc s with
  | Polling _ available _ => available <= sq_depth q - (sq_post (sy_qp s) - cons_index (sy_qp s))
  | _ => True
  end.

Definition steady (s : qp_system) : Prop :=
  exists sq, rtc (fun a b => qp_step q lm a b /\ reads_low b) (qp_start sq) s.

Lemma call_point P K junk m o :
  sq_post m = P -> 0 <= K -> op_ok o ->
  (forall a seen, poll_start q junk o m = Polling o a seen -> a <= sq_depth q - (P - K)) ->
  point_ok P K (poll_start q junk o m).
Proof using Type.
  intros Hp HK Ho Hj. unfold poll_start in *. rewrite Hp in *. destruct (_ <=? _) eqn:E; bool_to_prop; cbn.
  - split; [done|lia].
  - split_and!; [done|done|by eapply Hj].
Qed.

Lemma inv_start sq : qp_inv (qp_start sq) 0 0.
Proof using Hq.
  destruct Hq as [H1 H2 H3]. split; unfold posted_count, nic_count; cbn; try done; try lia.
  intros n Hn. change (Z.land 255 1) with 1. by rewrite Z.div_small by lia.
Qed.

Lemma inv_step s s' K D :
  qp_inv s K D -> few s' -> qp_step q lm s s' -> reads_low s' -> exists K' D', qp_inv s' K' D'.
Proof using Hq.
  intros Hi Hf Hst Hlow. pose proof (iv_order _ _ _ Hi) as [[HK _] _].
  destruct Hst as [s o junk Hpc Ho Hj|s o av seen Hpc|s l r Hpc|s Hpc|s Hpc|s opcode Hd Hc].
  - exists K, D. destruct Hi. split; try done. apply call_point; [done..|]. intros a seen E.
    unfold reads_low in Hlow. cbn [sy_pc sy_qp] in Hlow. rewrite E, iv_post0, iv_cons0 in Hlow. exact Hlow.
  - destruct (poll_inv s o av seen K D Hpc Hf Hi) as [K' Hi']. by exists K', D.
  - destruct (post_inv s l r K D Hpc Hi Hf) as [D' Hi']. by exists K, D'.
  - exists K, D. destruct Hi. by split.
  - exists K, (posted_count s). destruct Hi as [I1 I2 I3 I4 I5 I6 I7 I8 I9 I10 I11].
    unfold posted_count, nic_count in *. split; unfold posted_count, nic_count; cbn; try done; try lia.
    rewrite I3. apply u16_be4.
  - exists K, D. by apply execute_inv.
Qed.

Lemma step_more s s' : qp_step q lm s s' -> posted_count s <= posted_count s'.
Proof using Type. destruct 1; unfold posted_count; cbn; rewrite ?length_app; lia. Qed.

Lemma inv_reachable s : steady s -> few s -> exists K D, qp_inv s K D.
Proof using Hq.
  intros [sq Hr]. revert s Hr. apply (rtc_ind_r (fun s => few s -> exists K D, qp_inv s K D)).
  - intros _. exists 0, 0. apply inv_start.
  - intros s s' _ [Hst Hlow] IH Hf. pose proof (step_more _ _ Hst).
    destruct IH as (K & D & Hi); [unfold few in *; lia|]. by eapply inv_step.
Qed.

(** C27: The NIC executes the entries that were posted, each once and in
    order: no entry is overwritten before the NIC has executed it, although
    the send queue is reused, and none is executed before it is written.
    This holds for fewer than 2^32 entries, a send queue of at most 32768
    entries whose number divides 65536, a completion queue at least as deep,
    and runs in which the uninitialised local [available_slots] of the
    polling loop never holds more than the slots that are free, as when it
    reads as 0.  With a larger value the loop ends at once and an entry that
    waits is overwritten ([mlx5_junk_overwrites]). *)
Theorem mlx5_fifo s i w :
  steady s -> few s -> sy_executed s !! i = Some w -> sy_posted s !! i = Some w.
Proof using Hq. intros Hr Hf. destruct (inv_reachable s Hr Hf) as (K & D & []). auto. Qed.

(** Quiet waits: when its polling lets it through, the NIC has executed
    everything that was posted; in runs of the same kind. *)
Theorem mlx5_quiet_waits s :
  steady s -> few s -> sy_pc s = Ready Quiet -> sy_executed s = sy_posted s.
Proof using Hq.
  intros Hr Hf Hpc. destruct (inv_reachable s Hr Hf) as (K & D & Hi).
  destruct Hi as [I1 I2 I3 I4 I5 I6 I7 I8 I9 I10 I11]. rewrite Hpc in I11. cbn in I11.
  unfold posted_count, nic_count in *. apply list_eq_same_length with (length (sy_posted s)); [done|lia|].
  intros i x y _ Hx Hy. apply I8 in Hx. congruence.
Qed.

(** Polling with nothing outstanding.  Once as many entries have been posted
    as the send queue has, an operation called when all completions have been
    taken - a second quiet, or the put after a quiet - finds no completion.
    If the variable holds less than is requested, the call never returns:
    whatever happens, it is still polling. *)
Theorem mlx5_drained_hangs s o junk s' :
  steady s -> few s -> sy_pc s = Idle -> cons_index (sy_qp s) = posted_count s ->
  sq_depth q - requested_slots q o < posted_count s -> junk < requested_slots q o ->
  rtc (qp_step q lm) {| sy_qp := sy_qp s; sy_pc := poll_start q junk o (sy_qp s);
                        sy_posted := sy_posted s; sy_executed := sy_executed s |} s' ->
  sy_pc s' = Polling o junk (posted_count s).
Proof using Hq.
  intros Hr Hf Hpc Hk Hp Hj. destruct (inv_reachable s Hr Hf) as (K & D & Hi).
  destruct Hi as [I1 I2 I3 I4 I5 I6 I7 I8 I9 I10 I11]. destruct Hq as [H1 H2 H3].
  unfold poll_start. rewrite I4, (proj2 (Z.leb_gt _ _)) by lia.
  assert (nic_count s = posted_count s /\ D = posted_count s /\ K = posted_count s) as (EN & -> & ->) by lia.
  set (s1 := Build_qp_system _ _ _ _). intros Hrun.
  assert (s' = s1) as ->; [|done].
  revert s' Hrun. apply (rtc_ind_r (fun s' => s' = s1)); [done|]. intros a b _ Hab ->.
  inversion Hab as [? ? ? Hi|? ? ? ? Hi| | | |? ? Hd]; subst; try discriminate.
  - injection Hi as <- <- <-. unfold s1. cbn [sy_qp sy_posted sy_executed].
    assert (poll_turn q o junk (posted_count s) (sy_qp s) = (sy_qp s, Polling o junk (posted_count s))) as ->; [|done].
    unfold poll_turn. rewrite I6, (proj2 (Z.eqb_neq _ _)) by (apply I10; lia). cbn [negb].
    unfold poll_again. rewrite I4, Z.eqb_refl, (proj2 (Z.ltb_lt _ _) Hj). done.
  - exfalso. apply Hd. cbn [s1 sy_qp]. rewrite I5. unfold nic_count, s1 in *. cbn [sy_executed]. by rewrite EN.
Qed.
End Invariant.

(** ** Entries *)

(** What the NIC takes from an entry. *)
Inductive payload :=
| Memory (length lkey addr : Z)
| Bytes (data : list Z)
| AtomicOn (swap_add compare lkey addr : Z).

Record nic_request := {
  nr_index : Z; nr_opcode : Z; nr_qpn : Z; nr_segments : Z; nr_raddr : Z; nr_rkey : Z; nr_imm : Z;
  nr_payload : payload
}.

Definition nic_reads (w : gda_mlx5_wqe) : nic_request :=
  {| nr_index := Z.shiftr (from_be 4 (opmod_idx_opcode w)) 8;
     nr_opcode := Z.land (from_be 4 (opmod_idx_opcode w)) 255;
     nr_qpn := Z.shiftr (from_be 4 (qpn_ds w)) 8; nr_segments := Z.land (from_be 4 (qpn_ds w)) 63;
     nr_raddr := from_be 8 (wqe_raddr w); nr_rkey := wqe_rkey w; nr_imm := from_be 4 (imm w);
     nr_payload :=
       match wqe_rest w with
       | RmaData byte_count lkey addr => Memory (from_be 4 byte_count) lkey (from_be 8 addr)
       | RmaInline byte_count data => Bytes (take (Z.to_nat (Z.land (from_be 4 byte_count) 1023)) data)
       | Amo swap_add compare _ lkey addr =>
           AtomicOn (from_be 8 swap_add) (from_be 8 compare) lkey (from_be 8 addr)
       end |}.

Lemma header_high a b n :
  0 <= n -> 0 <= b < 2 ^ n -> 0 <= a -> a * 2 ^ n + b < 4294967296 ->
  let v := from_be 4 (to_be 4 (Z.lor (u32 (Z.shiftl a n)) b)) in Z.shiftr v n = a /\ Z.land v (Z.ones n) = b.
Proof.
  intros Hn Hb Ha Hr. assert (Hp : 0 < 2 ^ n) by (apply Z.pow_pos_nonneg; lia).
  assert (Hs : u32 (Z.shiftl a n) = Z.shiftl a n).
  { rewrite Z.shiftl_mul_pow2 by lia. apply u32_small. nia. }
  rewrite Hs, lor_shiftl_add by lia. cbv zeta. rewrite from_to_be by (change (256 ^ Z.of_nat 4) with 4294967296; nia).
  rewrite Z.shiftr_div_pow2, Z.land_ones, Z.add_comm by lia.
  rewrite Z.div_add, Z.div_small, Z.mod_add, Z.mod_small by lia. split; lia.
Qed.

Section Entries.
Context `{Mlx5dv} (q : qp_config) (lm : Z -> Z).

Record entry_ok (wqe_idx raddr opcode imm_data : Z) : Prop := {
  eo_idx : 0 <= wqe_idx < 65536; eo_raddr : 0 <= raddr < 18446744073709551616;
  eo_opcode : 0 <= opcode < 256; eo_imm : 0 <= imm_data < 4294967296;
  eo_qpn : 0 <= qp_num q < 16777216
}.

Lemma nic_reads_header wqe_idx opcode ds raddr imm_data rest :
  entry_ok wqe_idx raddr opcode imm_data -> 0 <= ds < 64 ->
  let r := nic_reads (wqe_ctrl_raddr wqe_idx opcode (qp_num q) ds raddr (qp_rkey q) imm_data rest) in
  nr_index r = wqe_idx /\ nr_opcode r = opcode /\ nr_qpn r = qp_num q /\ nr_segments r = ds /\
  nr_raddr r = raddr /\ nr_rkey r = qp_rkey q /\ nr_imm r = imm_data.
Proof using Type.
  intros [H1 H2 H3 H4 H5] Hds. cbn. assert (Hd : Z.land ds 63 = ds).
  { change 63 with (Z.ones 6). rewrite Z.land_ones by lia. apply Z.mod_small. lia. }
  rewrite Hd. destruct (header_high wqe_idx opcode 8) as [A1 A2]; [lia..|].
  assert (B : Z.shiftr (from_be 4 (to_be 4 (Z.lor (u32 (Z.shiftl (qp_num q) 8)) ds))) 8 = qp_num q /\
    Z.land (from_be 4 (to_be 4 (Z.lor (u32 (Z.shiftl (qp_num q) 8)) ds))) 63 = ds).
  { destruct (header_high (qp_num q) ds 8) as [B1 B2]; [lia..|]. split; [exact B1|].
    rewrite <- B2 at 2. change 63 with (Z.land (Z.ones 8) (Z.ones 6)).
    rewrite Z.land_assoc, B2. by change (Z.ones 6) with 63. }
  destruct B as [B1 B2]. split_and!; try done; apply from_to_be; [done|].
  by change (256 ^ Z.of_nat 4) with 4294967296.
Qed.

(** What the NIC reads is what was asked for.  The entry of a transfer
    has its index, opcode, queue, remote address and key, and either names
    the local memory with its length or, for short writes, carries its bytes,
    all of which lie in the segments the header counts. *)
Theorem mlx5_entry_meaning wqe_idx atomic_idx len laddr raddr opcode imm_data :
  entry_ok wqe_idx raddr opcode imm_data -> 0 <= laddr < 18446744073709551616 ->
  0 <= len < 2147483648 -> inline_threshold q <= 28 -> MLX5_INLINE_SEG = 2147483648 ->
  let r := nic_reads (request_wqe q lm wqe_idx atomic_idx (Rma len laddr raddr opcode imm_data)) in
  (nr_index r, nr_opcode r, nr_qpn r, nr_raddr r, nr_rkey r, nr_imm r)
    = (wqe_idx, opcode, qp_num q, raddr, qp_rkey q, imm_data) /\
  match nr_payload r with
  | Memory n lkey addr => (n, lkey, addr) = (len, qp_lkey q, laddr) /\ nr_segments r = 3
  | Bytes data => data = map (fun i => lm (laddr + Z.of_nat i)) (seq 0 (Z.to_nat len)) /\
      32 + 4 + len <= 16 * nr_segments r <= 64
  | AtomicOn _ _ _ _ => False
  end.
Proof using Type.
  intros He Hl Hlen Hth Hseg. unfold request_wqe. rewrite (u32_small len) by lia.
  destruct (can_inline opcode len (inline_threshold q)) eqn:Ec.
  - unfold can_inline in Ec. bool_to_prop.
    assert (Hds : inline_ds len = 3 /\ len <= 12 \/ inline_ds len = 4 /\ len <= 28).
    { unfold inline_ds. destruct (len <=? 12) eqn:E; bool_to_prop; lia. }
    match goal with |- context [wqe_ctrl_raddr _ _ _ _ _ _ _ ?b] =>
      destruct (nic_reads_header wqe_idx opcode (inline_ds len) raddr imm_data b He) as (-> & -> & -> & E & -> & -> & ->)
    end; [lia|]. split; [done|]. rewrite E. cbn. split; [|lia].
    assert (Hlow : Z.land len 1023 = len)
      by (change 1023 with (Z.ones 10); rewrite Z.land_ones by lia; apply Z.mod_small; lia).
    rewrite Hlow, Hseg. change 1023 with (Z.ones 10). change 2147483648 with (Z.shiftl 1 31). rewrite Z.lor_comm, lor_shiftl_add by lia.
    rewrite from_to_be by (change (256 ^ Z.of_nat 4) with 4294967296; lia).
    rewrite Z.land_ones by lia. replace (1 * 2 ^ 31 + len) with (len + 2097152 * 2 ^ 10) by lia.
    rewrite Z.mod_add, Z.mod_small by lia. apply take_ge. rewrite length_map, length_seq. lia.
  - match goal with |- context [wqe_ctrl_raddr _ _ _ _ _ _ _ ?b] =>
      destruct (nic_reads_header wqe_idx opcode 3 raddr imm_data b He) as (-> & -> & -> & E & -> & -> & ->)
    end; [lia|]. split; [done|]. rewrite E. cbn. split; [|done].
    rewrite Hseg. change (u32 (Z.lnot 2147483648)) with (Z.ones 31).
    rewrite Z.land_ones, Z.mod_small by lia.
    by rewrite !from_to_be by (done || (change (256 ^ Z.of_nat 4) with 4294967296; lia)).
Qed.
End Entries.

(** ** Witnesses *)

#[local] Instance sample_mlx5dv : Mlx5dv :=
  {| MLX5_OPCODE_RDMA_WRITE := 8; MLX5_OPCODE_RDMA_WRITE_IMM := 9; MLX5_INLINE_SEG := 2147483648;
     MLX5_CQE_REQ := 0; MLX5_CQE_REQ_ERR := 13; MLX5_CQE_INVALID := 15 |}.

Definition sample_qp : qp_config :=
  {| qp_num := 77; qp_rkey := 5; qp_lkey := 6; inline_threshold := 28; nonfetching_atomic := 4096;
     nonfetching_atomic_lkey := 7; fetching_atomic := 8192; fetching_atomic_lkey := 8;
     sq_depth := 2; cq_depth := 2 |}.
Definition sample_memory (a : Z) : Z := a mod 256.

Lemma sample_qp_ok : qp_ok sample_qp.
Proof. split; cbn; [lia|by exists 32768|lia]. Qed.

(** Twenty bytes from address 1000, inline; a hundred, by reference. *)
Definition short_put : request := Rma 20 1000 70000 8 0.
Definition long_put : request := Rma 100 1000 70000 8 0.

Lemma mlx5_entry_meaning_witness :
  nr_payload (nic_reads (request_wqe sample_qp sample_memory 3 0 short_put))
    = Bytes (map (fun i => sample_memory (1000 + Z.of_nat i)) (seq 0 20)) /\
  nr_raddr (nic_reads (request_wqe sample_qp sample_memory 3 0 short_put)) = 70000.
Proof.
  split; [vm_compute; reflexivity|].
  destruct (mlx5_entry_meaning sample_qp sample_memory 3 0 20 1000 70000 8 0) as [H1 _];
    [split; cbn; lia|lia|lia|cbn; lia|reflexivity|].
  unfold short_put. congruence.
Defined.

(** A schedule: a call, with what the loop's variable holds; a turn of the
    device; an execution by the NIC. *)
Inductive qp_turn := Call (o : qp_op) (junk : Z) | Turn | Nic.

Definition callable (q : qp_config) (o : qp_op) (junk : Z) : bool :=
  match o with Post l _ => (0 <? Z.of_nat (length l)) && (Z.of_nat (length l) <=? sq_depth q) | Quiet => true end
  && (0 <=? junk) && (junk <? 65536).

Definition take_qp_turn (q : qp_config) (lm : Z -> Z) (t : qp_turn) (s : qp_system) : option qp_system :=
  match t, sy_pc s with
  | Call o junk, Idle =>
      if callable q o junk then Some {| sy_qp := sy_qp s; sy_pc := poll_start q junk o (sy_qp s);
                                        sy_posted := sy_posted s; sy_executed := sy_executed s |} else None
  | Turn, Polling o available seen =>
      Some {| sy_qp := fst (poll_turn q o available seen (sy_qp s));
              sy_pc := snd (poll_turn q o available seen (sy_qp s));
              sy_posted := sy_posted s; sy_executed := sy_executed s |}
  | Turn, Ready (Post l ring_db) =>
      Some {| sy_qp := post_wqes q lm l ring_db (sy_qp s); sy_pc := Idle;
              sy_posted := sy_posted s ++ lane_wqes q lm (sy_qp s) l; sy_executed := sy_executed s |}
  | Turn, Ready Quiet =>
      Some {| sy_qp := sy_qp s; sy_pc := Idle; sy_posted := sy_posted s; sy_executed := sy_executed s |}
  | Nic, _ =>
      if from_be 4 (sq_dbrec (sy_qp s)) =? u16 (nic_count s) then None else
      Some {| sy_qp := nic_write q (nic_count s) MLX5_CQE_REQ (sy_qp s); sy_pc := sy_pc s;
              sy_posted := sy_posted s;
              sy_executed := sy_executed s ++ [sq_buf (sy_qp s) (nic_count s mod sq_depth q)] |}
  | _, _ => None
  end.

Lemma take_qp_turn_step q lm t s s' : take_qp_turn q lm t s = Some s' -> qp_step q lm s s'.
Proof.
  unfold take_qp_turn. destruct t as [o junk| |].
  - destruct (sy_pc s) eqn:Hpc; try done. destruct (callable q o junk) eqn:E; [|done]. intros [= <-].
    unfold callable in E. apply andb_true_iff in E as [[E Hj1]%andb_true_iff Hj2]. bool_to_prop.
    apply step_call; [done| |lia]. intros l r ->. bool_to_prop. split; [by intros ->|done].
  - destruct (sy_pc s) as [|o av seen|[l r|]|] eqn:Hpc; try done; intros [= <-]; by constructor.
  - destruct (_ =? _) eqn:E; bool_to_prop; [by destruct (sy_pc s)|].
    destruct (sy_pc s) eqn:Hpc; intros [= <-]; rewrite <- Hpc; (apply step_execute; [done|by left]).
Qed.

(** Along a schedule the variable may have to hold no more than is free. *)
Definition reads_lowb (q : qp_config) (s : qp_system) : bool :=
  match sy_pc s with
  | Polling _ available _ => available <=? sq_depth q - (sq_post (sy_qp s) - cons_index (sy_qp s))
  | _ => true
  end.

Fixpoint take_qp_turns (low : bool) (q : qp_config) (lm : Z -> Z) (l : list qp_turn) (s : qp_system) : option qp_system :=
  match l with
  | [] => Some s
  | t :: l' => s' ← take_qp_turn q lm t s;
      if negb low || reads_lowb q s' then take_qp_turns low q lm l' s' else None
  end.

Lemma take_qp_turns_steps low q lm l : forall s s', take_qp_turns low q lm l s = Some s' ->
  rtc (fun a b => qp_step q lm a b /\ (low = true -> reads_low q b)) s s'.
Proof.
  induction l as [|t l IH]; intros s s'; cbn; [by intros [= ->]|].
  destruct (take_qp_turn q lm t s) as [s1|] eqn:E; [|done]. cbn.
  destruct (negb low || reads_lowb q s1) eqn:Ek; [|done]. intros H. eapply rtc_l; [|by apply IH].
  split; [by eapply take_qp_turn_step|]. intros ->. cbn in Ek. unfold reads_lowb, reads_low in *.
  destruct (sy_pc s1); try done. by apply Z.leb_le.
Qed.

Definition blank_wqe : gda_mlx5_wqe := wqe_ctrl_raddr 0 0 0 0 0 0 0 (RmaData 0 0 0).

Definition qp_at (low : bool) (l : list qp_turn) : qp_system :=
  default (qp_start (fun _ => blank_wqe))
    (take_qp_turns low sample_qp sample_memory l (qp_start (fun _ => blank_wqe))).

Lemma qp_at_steady l : steady sample_qp sample_memory (qp_at true l).
Proof.
  exists (fun _ => blank_wqe). unfold qp_at. destruct (take_qp_turns _ _ _ l _) as [s|] eqn:E; [|done].
  apply take_qp_turns_steps in E. cbn. eapply rtc_subrel; [|exact E]. intros a b [H1 H2]. auto.
Qed.

Lemma qp_at_reachable l : qp_reachable sample_qp sample_memory (qp_at false l).
Proof.
  exists (fun _ => blank_wqe). unfold qp_at. destruct (take_qp_turns _ _ _ l _) as [s|] eqn:E; [|done].
  apply take_qp_turns_steps in E. cbn. eapply rtc_subrel; [|exact E]. by intros a b [H1 _].
Qed.

(** Two lanes put, the NIC executes, and a third put reuses the first slot
    while a quiet follows. *)
Definition two_puts : list qp_turn := [Call (Post [short_put; long_put] true) 0; Turn; Nic; Nic].
Definition third_put : list qp_turn :=
  two_puts ++ [Call (Post [long_put] true) 0; Turn; Turn; Nic; Call Quiet 0; Turn; Turn].

Lemma mlx5_fifo_witness :
  length (sy_executed (qp_at true third_put)) = 3%nat /\
  sy_posted (qp_at true third_put) !! 2%nat = Some (request_wqe sample_qp sample_memory 2 0 long_put).
Proof.
  split; [vm_compute; reflexivity|].
  apply (mlx5_fifo sample_qp sample_memory sample_qp_ok (qp_at true third_put) 2);
    [apply qp_at_steady|vm_compute; reflexivity|vm_compute; reflexivity].
Defined.

Lemma mlx5_quiet_waits_witness :
  length (sy_posted (qp_at true third_put)) = 3%nat /\
  sy_executed (qp_at true third_put) = sy_posted (qp_at true third_put).
Proof.
  split; [vm_compute; reflexivity|].
  apply (mlx5_quiet_waits sample_qp sample_memory sample_qp_ok (qp_at true third_put));
    [apply qp_at_steady|vm_compute; reflexivity|vm_compute; reflexivity].
Defined.

(** Two puts, each followed by a quiet, and the put after them, which polls
    for ever if the variable is 0. *)
Definition put_quiet : list qp_turn := [Call (Post [short_put] true) 0; Turn; Nic; Call Quiet 0; Turn; Turn].

Lemma mlx5_drained_hangs_witness :
  let s := qp_at true (put_quiet ++ put_quiet) in
  sy_pc (qp_at true (put_quiet ++ put_quiet ++ [Call (Post [short_put] true) 0; Turn; Turn; Turn]))
    = Polling (Post [short_put] true) 0 2 /\
  forall s', rtc (qp_step sample_qp sample_memory)
      {| sy_qp := sy_qp s; sy_pc := poll_start sample_qp 0 (Post [short_put] true) (sy_qp s);
         sy_posted := sy_posted s; sy_executed := sy_executed s |} s' ->
    sy_pc s' = Polling (Post [short_put] true) 0 (posted_count s).
Proof.
  split; [vm_compute; reflexivity|]. intros s'.
  apply (mlx5_drained_hangs sample_qp sample_memory sample_qp_ok (qp_at true (put_quiet ++ put_quiet)));
    [apply qp_at_steady|vm_compute; reflexivity..].
Defined.

(** Three entries in a ring of two: if the variable happens to hold 65535, the
    third put does not wait, and the NIC, which has executed nothing so far,
    finds the third entry in the place of the first. *)
Definition junk_run : list qp_turn :=
  [Call (Post [short_put; long_put] true) 0; Turn; Call (Post [long_put] true) 65535; Turn; Turn; Nic].

Lemma mlx5_junk_overwrites :
  qp_reachable sample_qp sample_memory (qp_at false junk_run) /\
  sy_executed (qp_at false junk_run) = [request_wqe sample_qp sample_memory 2 0 long_put] /\
  sy_posted (qp_at false junk_run) !! 0%nat = Some (request_wqe sample_qp sample_memory 0 0 short_put).
Proof. split; [apply qp_at_reachable|]. split; vm_compute; reflexivity. Qed.

(** After 65536 entries the 16-bit tail is 0 again, and the doorbell for a
    batch of puts reads the entry at 65535. *)
Lemma doorbell_past_queue q m :
  1 < sq_depth q <= 32768 -> sq_tail m = 0 -> ring_doorbell_last q m = 65535.
Proof.
  intros Hd Ht. unfold ring_doorbell_last. rewrite Ht. pose proof (Z.rem_opp_l 1 (sq_depth q) ltac:(lia)) as E.
  change (0 - 1) with (- (1)). by rewrite E, Z.rem_small by lia.
Qed.
