(* ===== verification/Bnxt.v ===== *)
(** * The bnxt queue pair of the RDMA endpoint

    Device code of [src/src/endpoints/rdma-ep/bnxt/bnxt-queue-pair.hip]: the
    send queue is a ring of 16-byte slots, an entry takes three, and every
    entry has a completion that carries the NIC's consumer index.  One caller
    at a time posts, polls and waits ([lock] is stored and never read: it keeps
    nobody out), interleaved with the NIC, which executes what the doorbell
    announced in order and completes each entry.

    The ring is memory of bytes, because inline data may be longer than the
    slot it is written to.  The theorems: entries are executed as they were
    posted and in order, as long as the entries whose completions were not
    taken leave slots free and fit the completion queue, which the sizes ensure
    or the caller has to ([bnxt_fifo]); a quiet waits ([bnxt_quiet_waits]), and waiting ends
    ([bnxt_wait_ends]); an entry says what was asked for
    ([bnxt_entry_meaning]).  Where the code falls short: a ring of a multiple of
    three slots looks empty when it is full ([full_looks_empty]), inline data
    beyond 16 bytes is overwritten by the next entry or written behind the ring
    ([inline_overwritten], [inline_leaves_ring]), a stop request lets the
    caller overwrite entries ([stop_overwrites]). *)

From S2P Require Import Prelude Endian BnxtSize.

Arguments Z.mul : simpl never.
Arguments Z.add : simpl never.
Arguments Z.modulo : simpl never.
Arguments Z.div : simpl never.

(** ** Constants of [bnxt-re-hsi.h] *)

Definition BNXT_RE_WR_FLAGS_INLINE : Z := 16.
Definition BNXT_RE_WR_FLAGS_SIGNALED : Z := 1.
Definition BNXT_RE_HDR_WT_MASK : Z := 255.
Definition BNXT_RE_HDR_FLAGS_MASK : Z := 255.
Definition BNXT_RE_HDR_FLAGS_SHIFT : Z := 8.
Definition BNXT_RE_HDR_WS_MASK : Z := 255.
Definition BNXT_RE_HDR_WS_SHIFT : Z := 16.
Definition BNXT_RE_QUE_TYPE_SQ : Z := 0.
Definition BNXT_RE_QUE_TYPE_CQ : Z := 4.
Definition BNXT_RE_DB_QID_MASK : Z := 1048575.
Definition BNXT_RE_DB_TYP_MASK : Z := 15.
Definition BNXT_RE_DB_TYP_SHIFT : Z := 28.
Definition BNXT_RE_DB_VALID_SHIFT : Z := 26.
Definition BNXT_RE_DB_EPOCH_SHIFT : Z := 24.
Definition BNXT_RE_BCQE_PH_MASK : Z := 1.

(** The three fields of an entry of the table of sequence numbers. *)
Definition BNXT_RE_SQ_MSN_SEARCH_START_PSN_MASK : Z := 16777215.
Definition BNXT_RE_SQ_MSN_SEARCH_NEXT_PSN_MASK : Z := 281474959933440.
Definition BNXT_RE_SQ_MSN_SEARCH_NEXT_PSN_SHIFT : Z := 24.
Definition BNXT_RE_SQ_MSN_SEARCH_START_IDX_MASK : Z := 18446462598732840960.
Definition BNXT_RE_SQ_MSN_SEARCH_START_IDX_SHIFT : Z := 48.

Definition GDA_BNXT_WQE_SLOT_COUNT : Z := 3.

(** ** The queue pair *)

(** The members that do not change. *)
Record bnxt_config := {
  bx_depth : Z; bx_id : Z; bx_mtu : Z; bx_msn_tbl_sz : Z; bx_psn_sz_log2 : Z;
  bx_cq_depth : Z; bx_cq_id : Z;
  bx_lkey : Z; bx_rkey : Z; bx_inline_threshold : Z;
  bx_op_rdma_write : Z; bx_op_rdma_write_imm : Z; bx_op_rdma_read : Z; bx_op_atomic_fa : Z; bx_op_atomic_cs : Z;
  bx_fetching : Z; bx_fetching_lkey : Z; bx_nonfetching : Z; bx_nonfetching_lkey : Z
}.

Record bnxt_cqe := { flg_st_typ_ph : Z; con_indx : Z }.

(** [bq_ring]: the 16 bytes of each slot of the send buffer, those behind the
    ring included; [bq_sq_db], [bq_cq_db]: what was last stored to the
    doorbell for either queue. *)
Record bnxt_qp := {
  bq_ring : Z -> list Z;
  bq_head : Z; bq_tail : Z; bq_flags : Z;
  bq_psn : Z; bq_msntbl : Z -> Z; bq_msn : Z;
  bq_cq : Z -> bnxt_cqe; bq_cq_head : Z; bq_cq_flags : Z;
  bq_sq_db : Z; bq_cq_db : Z;
  bq_fetching_idx : Z
}.

Definition bnxt_with_ring (f : Z -> list Z) (m : bnxt_qp) : bnxt_qp :=
  {| bq_ring := f; bq_head := bq_head m; bq_tail := bq_tail m; bq_flags := bq_flags m;
     bq_psn := bq_psn m; bq_msntbl := bq_msntbl m; bq_msn := bq_msn m;
     bq_cq := bq_cq m; bq_cq_head := bq_cq_head m; bq_cq_flags := bq_cq_flags m;
     bq_sq_db := bq_sq_db m; bq_cq_db := bq_cq_db m; bq_fetching_idx := bq_fetching_idx m |}.

Definition with_head (h : Z) (m : bnxt_qp) : bnxt_qp :=
  {| bq_ring := bq_ring m; bq_head := h; bq_tail := bq_tail m; bq_flags := bq_flags m;
     bq_psn := bq_psn m; bq_msntbl := bq_msntbl m; bq_msn := bq_msn m;
     bq_cq := bq_cq m; bq_cq_head := bq_cq_head m; bq_cq_flags := bq_cq_flags m;
     bq_sq_db := bq_sq_db m; bq_cq_db := bq_cq_db m; bq_fetching_idx := bq_fetching_idx m |}.

Definition with_tail (t flags : Z) (m : bnxt_qp) : bnxt_qp :=
  {| bq_ring := bq_ring m; bq_head := bq_head m; bq_tail := t; bq_flags := flags;
     bq_psn := bq_psn m; bq_msntbl := bq_msntbl m; bq_msn := bq_msn m;
     bq_cq := bq_cq m; bq_cq_head := bq_cq_head m; bq_cq_flags := bq_cq_flags m;
     bq_sq_db := bq_sq_db m; bq_cq_db := bq_cq_db m; bq_fetching_idx := bq_fetching_idx m |}.

Definition with_psn (psn msn : Z) (tbl : Z -> Z) (m : bnxt_qp) : bnxt_qp :=
  {| bq_ring := bq_ring m; bq_head := bq_head m; bq_tail := bq_tail m; bq_flags := bq_flags m;
     bq_psn := psn; bq_msntbl := tbl; bq_msn := msn;
     bq_cq := bq_cq m; bq_cq_head := bq_cq_head m; bq_cq_flags := bq_cq_flags m;
     bq_sq_db := bq_sq_db m; bq_cq_db := bq_cq_db m; bq_fetching_idx := bq_fetching_idx m |}.

Definition with_cq (cq : Z -> bnxt_cqe) (head flags : Z) (m : bnxt_qp) : bnxt_qp :=
  {| bq_ring := bq_ring m; bq_head := bq_head m; bq_tail := bq_tail m; bq_flags := bq_flags m;
     bq_psn := bq_psn m; bq_msntbl := bq_msntbl m; bq_msn := bq_msn m;
     bq_cq := cq; bq_cq_head := head; bq_cq_flags := flags;
     bq_sq_db := bq_sq_db m; bq_cq_db := bq_cq_db m; bq_fetching_idx := bq_fetching_idx m |}.

Definition with_db (sq_db cq_db : Z) (m : bnxt_qp) : bnxt_qp :=
  {| bq_ring := bq_ring m; bq_head := bq_head m; bq_tail := bq_tail m; bq_flags := bq_flags m;
     bq_psn := bq_psn m; bq_msntbl := bq_msntbl m; bq_msn := bq_msn m;
     bq_cq := bq_cq m; bq_cq_head := bq_cq_head m; bq_cq_flags := bq_cq_flags m;
     bq_sq_db := sq_db; bq_cq_db := cq_db; bq_fetching_idx := bq_fetching_idx m |}.

Definition with_fetching (n : Z) (m : bnxt_qp) : bnxt_qp :=
  {| bq_ring := bq_ring m; bq_head := bq_head m; bq_tail := bq_tail m; bq_flags := bq_flags m;
     bq_psn := bq_psn m; bq_msntbl := bq_msntbl m; bq_msn := bq_msn m;
     bq_cq := bq_cq m; bq_cq_head := bq_cq_head m; bq_cq_flags := bq_cq_flags m;
     bq_sq_db := bq_sq_db m; bq_cq_db := bq_cq_db m; bq_fetching_idx := n |}.

(** Bytes stored from the beginning of slot [k] on, over as many slots as it
    takes: memory does not wrap. *)
Definition store_bytes (k : Z) (l : list Z) (ring : Z -> list Z) : Z -> list Z :=
  fun j => if j <? k then ring j
           else let piece := take 16 (drop (16 * Z.to_nat (j - k)) l) in piece ++ drop (length piece) (ring j).

Section Device.
Context (q : bnxt_config).

(** *** Send queue helpers *)

(** [st_idx], [npsn] and [start_psn] are 32-bit. *)
Definition bnxt_re_update_msn_tbl (st_idx npsn start_psn : Z) : Z :=
  Z.lor (Z.lor (Z.land (u64 (Z.shiftl st_idx BNXT_RE_SQ_MSN_SEARCH_START_IDX_SHIFT)) BNXT_RE_SQ_MSN_SEARCH_START_IDX_MASK)
               (Z.land (u64 (Z.shiftl npsn BNXT_RE_SQ_MSN_SEARCH_NEXT_PSN_SHIFT)) BNXT_RE_SQ_MSN_SEARCH_NEXT_PSN_MASK))
        (Z.land start_psn BNXT_RE_SQ_MSN_SEARCH_START_PSN_MASK).

Definition packets (msg_len : Z) : Z :=
  let pkt_cnt := u32 (msg_len / bx_mtu q) in
  let pkt_cnt := if negb (msg_len mod bx_mtu q =? 0) then u32 (pkt_cnt + 1) else pkt_cnt in
  if msg_len =? 0 then 1 else pkt_cnt.

Definition bnxt_re_fill_psns_for_msntbl (msg_len : Z) (m : bnxt_qp) : bnxt_qp :=
  let at_ := u32 (Z.shiftl (bq_msn m) (bx_psn_sz_log2 q)) in
  let next_psn := u32 (bq_psn m + packets msg_len) in
  let entry := bnxt_re_update_msn_tbl (bq_tail m) next_psn (bq_psn m) in
  with_psn next_psn (u32 (bq_msn m + 1) mod bx_msn_tbl_sz q)
    (fun k => if k =? at_ then entry else bq_msntbl m k) m.

Definition bnxt_re_incr_tail (cnt : Z) (m : bnxt_qp) : bnxt_qp :=
  let tail := u32 (bq_tail m + cnt) in
  if bx_depth q <=? tail then with_tail (tail mod bx_depth q) (Z.lxor (bq_flags m) 1) m
  else with_tail tail (bq_flags m) m.

Definition bnxt_re_get_hwqe (idx : Z) (m : bnxt_qp) : Z :=
  let idx := u32 (idx + bq_tail m) in
  if bx_depth q <=? idx then u32 (idx - bx_depth q) else idx.

(** *** Doorbells *)

Definition bnxt_doorbell_value (key_lo id typ : Z) : Z :=
  let key_hi := Z.lor (Z.lor (Z.land id BNXT_RE_DB_QID_MASK)
                             (Z.shiftl (Z.land typ BNXT_RE_DB_TYP_MASK) BNXT_RE_DB_TYP_SHIFT))
                      (Z.shiftl 1 BNXT_RE_DB_VALID_SHIFT) in
  Z.lor key_lo (u64 (Z.shiftl key_hi 32)).

(** The queue a stored value rings for. *)
Definition db_type (v : Z) : Z := Z.land (Z.shiftr v 60) 15.
Definition store_dbr (v : Z) (m : bnxt_qp) : bnxt_qp :=
  if db_type v =? BNXT_RE_QUE_TYPE_SQ then with_db v (bq_cq_db m) m else with_db (bq_sq_db m) v m.

Definition bnxt_ring_doorbell (slot_idx : Z) (m : bnxt_qp) : bnxt_qp :=
  let epoch := u32 (Z.shiftl (Z.land (bq_flags m) 1) BNXT_RE_DB_EPOCH_SHIFT) in
  store_dbr (bnxt_doorbell_value (Z.lor slot_idx epoch) (bx_id q) BNXT_RE_QUE_TYPE_SQ) m.

Definition bnxt_ring_doorbell_only (m : bnxt_qp) : bnxt_qp := bnxt_ring_doorbell (bq_tail m) m.

Definition ack_cq (db_idx : Z) (m : bnxt_qp) : bnxt_qp :=
  store_dbr (bnxt_doorbell_value db_idx (bx_cq_id q) BNXT_RE_QUE_TYPE_CQ) m.

(** *** Polling *)

(** The local variables of [poll_cq_until]. *)
Record poll_local := { lo_cons : Z; lo_epoch : Z; lo_dirty : bool; lo_count : Z }.

Definition bnxt_poll_start (m : bnxt_qp) : poll_local :=
  {| lo_cons := bq_cq_head m; lo_epoch := Z.land (bq_cq_flags m) 1; lo_dirty := false; lo_count := 0 |}.

Definition available (m : bnxt_qp) : Z :=
  let consumed := u32 (bq_tail m - bq_head m + bx_depth q) mod bx_depth q in
  u32 (bx_depth q - consumed).

(** Room was found: tell the NIC how far the completions were taken. *)
Definition finish_poll (lo : poll_local) (m : bnxt_qp) : bnxt_qp :=
  if lo_dirty lo then
    let db_idx := Z.lor (lo_cons lo mod bx_cq_depth q) (u32 (Z.shiftl (lo_epoch lo) 24)) in
    with_cq (bq_cq m) (lo_cons lo) (Z.lor (Z.land (bq_cq_flags m) 4294967294) (lo_epoch lo)) (ack_cq db_idx m)
  else m.

Definition counted (lo : poll_local) : poll_local :=
  {| lo_cons := lo_cons lo; lo_epoch := lo_epoch lo; lo_dirty := lo_dirty lo; lo_count := u32 (lo_count lo + 1) |}.

(** The completion at the consumer index, if it is one of this round. *)
Definition bnxt_take_cqe (lo : poll_local) (m : bnxt_qp) : poll_local * bnxt_qp :=
  let cqe := bq_cq m (lo_cons lo mod bx_cq_depth q) in
  let phase_exp := if Z.land (lo_cons lo / bx_cq_depth q) 1 =? 0 then 1 else 0 in
  if negb (Z.land (flg_st_typ_ph cqe) BNXT_RE_BCQE_PH_MASK =? phase_exp) then (lo, m)
  else
    let con := Z.land (con_indx cqe) 65535 in
    let cons := u32 (lo_cons lo + 1) in
    let epoch := if cons mod bx_cq_depth q =? 0 then Z.lxor (lo_epoch lo) 1 else lo_epoch lo in
    ({| lo_cons := cons; lo_epoch := epoch; lo_dirty := true; lo_count := lo_count lo |},
     with_head (u32 (con * GDA_BNXT_WQE_SLOT_COUNT) mod bx_depth q) m).

(** One turn of the loop, [stop] being what [stopRequested_] points to: [inl]
    is the return. *)
Definition bnxt_poll_turn (requested : Z) (stop : bool) (lo : poll_local) (m : bnxt_qp)
    : bnxt_qp * (unit + poll_local) :=
  if stop && (lo_count lo mod 100 =? 0) then (m, inl tt) else
  let lo := counted lo in
  if requested <=? available m then (finish_poll lo m, inl tt)
  else let '(lo, m) := bnxt_take_cqe lo m in (m, inr lo).

(** *** Entries *)

(** What a lane asks for; [length] is an [int32_t]. *)
Inductive bnxt_request :=
| Rma (length laddr raddr opcode imm_data : Z)
| Atomic (raddr opcode atomic_data atomic_cmp : Z) (fetching : bool).

Definition is_inline (length opcode : Z) : bool :=
  (length <=? bx_inline_threshold q)
  && ((opcode =? bx_op_rdma_write q) || (opcode =? bx_op_rdma_write_imm q)).

Definition wqe_header (opcode hdr_flags : Z) : Z :=
  Z.lor (Z.lor (Z.shiftl (Z.land BNXT_RE_HDR_WS_MASK GDA_BNXT_WQE_SLOT_COUNT) BNXT_RE_HDR_WS_SHIFT)
               (Z.shiftl hdr_flags BNXT_RE_HDR_FLAGS_SHIFT))
        (Z.land BNXT_RE_HDR_WT_MASK opcode).

(** [struct bnxt_re_bsqe], [bnxt_re_rdma], [bnxt_re_atomic], [bnxt_re_sge]. *)
Definition bsqe (word key lhdr : Z) : list Z := bytes_of 4 word ++ bytes_of 4 key ++ bytes_of 8 lhdr.
Definition rdma_seg (rva rkey ts : Z) : list Z := bytes_of 8 rva ++ bytes_of 4 rkey ++ bytes_of 4 ts.
Definition atomic_seg (swp_dt cmp_dt : Z) : list Z := bytes_of 8 swp_dt ++ bytes_of 8 cmp_dt.
Definition sge (pa lkey length : Z) : list Z := bytes_of 8 pa ++ bytes_of 4 lkey ++ bytes_of 4 length.

(** Three stores: the header, what follows it, and the data or where it is. *)
Definition store_entry (hdr second third : list Z) (m : bnxt_qp) : bnxt_qp :=
  bnxt_with_ring
    (store_bytes (bnxt_re_get_hwqe 2 m) third
       (store_bytes (bnxt_re_get_hwqe 1 m) second
          (store_bytes (bnxt_re_get_hwqe 0 m) hdr (bq_ring m)))) m.

Definition bnxt_advance (length : Z) (m : bnxt_qp) : bnxt_qp :=
  bnxt_re_incr_tail GDA_BNXT_WQE_SLOT_COUNT (bnxt_re_fill_psns_for_msntbl (u32 length) m).

(** [write_rma_wqe] behind its poll.  [lm] is the memory inline data is copied
    from; [junk], the field of the local structure that is never assigned. *)
Definition write_rma_wqe (lm : Z -> Z) (junk length laddr raddr opcode imm_data : Z) (m : bnxt_qp) : bnxt_qp :=
  let inline_msg := is_inline length opcode in
  let hdr_flags := Z.lor (Z.land BNXT_RE_HDR_FLAGS_MASK BNXT_RE_WR_FLAGS_SIGNALED)
                         (if inline_msg then BNXT_RE_WR_FLAGS_INLINE else 0) in
  let hdr := bsqe (wqe_header opcode hdr_flags) (if opcode =? bx_op_rdma_write_imm q then imm_data else 0) (u64 length) in
  let third := if inline_msg then map (fun i => lm (laddr + Z.of_nat i)) (seq 0 (Z.to_nat (u64 length)))
               else sge laddr (bx_lkey q) (u32 length) in
  bnxt_advance length (store_entry hdr (rdma_seg raddr (bx_rkey q) junk) third m).

Definition write_amo_wqe (raddr opcode atomic_data atomic_cmp : Z) (fetching : bool) (m : bnxt_qp) : bnxt_qp :=
  let hdr := bsqe (wqe_header opcode (Z.land BNXT_RE_HDR_FLAGS_MASK BNXT_RE_WR_FLAGS_SIGNALED)) (bx_rkey q) raddr in
  let second := atomic_seg (u64 atomic_data) (u64 atomic_cmp) in
  let '(third, m) :=
    if fetching
    then (sge (u64 (bx_fetching q + 8 * (bq_fetching_idx m mod 1024))) (bx_fetching_lkey q) 8,
          with_fetching (u32 (bq_fetching_idx m + 1)) m)
    else (sge (bx_nonfetching q) (bx_nonfetching_lkey q) 8, m) in
  bnxt_advance 8 (store_entry hdr second third m).

Definition write_wqe (lm : Z -> Z) (junk : Z) (r : bnxt_request) (m : bnxt_qp) : bnxt_qp :=
  match r with
  | Rma length laddr raddr opcode imm_data => write_rma_wqe lm junk length laddr raddr opcode imm_data m
  | Atomic raddr opcode atomic_data atomic_cmp fetching => write_amo_wqe raddr opcode atomic_data atomic_cmp fetching m
  end.

(** ** Calls, and the NIC *)

(** [post_wqe_rma] and [post_wqe_amo], the requests in the order of the lanes,
    and their single forms; a fetching atomic is followed by a [BQuiet]. *)
Inductive bnxt_op := BPost (r : bnxt_request) (l : list bnxt_request) (ring_db : bool) | BQuiet.

Definition bnxt_requested_slots (o : bnxt_op) : Z :=
  match o with BPost _ _ _ => GDA_BNXT_WQE_SLOT_COUNT | BQuiet => bx_depth q end.

(** *** The calls of [class QueuePair] *)

(** A [size_t] where an [int32_t] is asked for. *)
Definition as_int32 (n : Z) : Z := if u32 n <? 2147483648 then u32 n else u32 n - 4294967296.

Definition put_nbi (dest source nelems : Z) : bnxt_request :=
  Rma (as_int32 nelems) source dest (bx_op_rdma_write q) 0.
Definition put_nbi_imm (dest source nelems imm_data : Z) : bnxt_request :=
  Rma (as_int32 nelems) source dest (bx_op_rdma_write_imm q) imm_data.
Definition get_nbi (dest source nelems : Z) : bnxt_request :=
  Rma (as_int32 nelems) dest source (bx_op_rdma_read q) 0.

Definition put_nbi_single (dest source nelems : Z) (ring_db : bool) : bnxt_op := BPost (put_nbi dest source nelems) [] ring_db.
Definition put_nbi_imm_single (dest source nelems imm_data : Z) (ring_db : bool) : bnxt_op :=
  BPost (put_nbi_imm dest source nelems imm_data) [] ring_db.
Definition get_nbi_single (dest source nelems : Z) (ring_db : bool) : bnxt_op := BPost (get_nbi dest source nelems) [] ring_db.

(** What returns a value waits for it. *)
Definition atomic_cas (dest data cmp : Z) : list bnxt_op := [BPost (Atomic dest (bx_op_atomic_cs q) data cmp true) [] true; BQuiet].
Definition atomic_fetch (dest value cond : Z) : list bnxt_op := [BPost (Atomic dest (bx_op_atomic_fa q) value cond true) [] true; BQuiet].
Definition atomic_nofetch (dest value cond : Z) : list bnxt_op := [BPost (Atomic dest (bx_op_atomic_fa q) value cond false) [] true].

(** No negative lengths. *)
Definition request_ok (r : bnxt_request) : Prop :=
  match r with Rma length _ _ _ _ => 0 <= length < 2147483648 | Atomic _ _ _ _ _ => True end.
Definition bnxt_op_ok (o : bnxt_op) : Prop :=
  match o with BPost r l _ => Forall request_ok (r :: l) | BQuiet => True end.

Inductive bnxt_pc := BIdle | BPolling (o : bnxt_op) (lo : poll_local) | BReady (o : bnxt_op).

(** The three slots of the entry at slot [k], which is what its header claims
    and the NIC reads.  Inline data beyond 16 bytes is stored behind them and
    is no part of it. *)
Definition bnxt_entry_at (k : Z) (ring : Z -> list Z) : list (list Z) :=
  map (fun i => ring ((k + Z.of_nat i) mod bx_depth q)) (seq 0 3).

(** [bs_posted]: every entry as it was when its writing was over, oldest first;
    [bs_executed]: the entries the NIC has read and executed. *)
Record bnxt_system := {
  bs_qp : bnxt_qp; bs_pc : bnxt_pc; bs_stop : bool;
  bs_posted : list (list (list Z)); bs_executed : list (list (list Z))
}.

Definition bnxt_executed (s : bnxt_system) : Z := Z.of_nat (length (bs_executed s)).

Definition at_pc (m : bnxt_qp) (pc : bnxt_pc) (s : bnxt_system) : bnxt_system :=
  {| bs_qp := m; bs_pc := pc; bs_stop := bs_stop s; bs_posted := bs_posted s; bs_executed := bs_executed s |}.

Definition poll_system (o : bnxt_op) (lo : poll_local) (s : bnxt_system) : bnxt_system :=
  let '(m, r) := bnxt_poll_turn (bnxt_requested_slots o) (bs_stop s) lo (bs_qp s) in
  at_pc m (match r with inl _ => BReady o | inr lo => BPolling o lo end) s.

(** Behind the poll of a post: the entry, and the next lane's turn. *)
Definition post_system (lm : Z -> Z) (junk : Z) (r : bnxt_request) (l : list bnxt_request) (ring_db : bool)
    (s : bnxt_system) : bnxt_system :=
  let m1 := write_wqe lm junk r (bs_qp s) in
  let m2 := if ring_db then bnxt_ring_doorbell (bq_tail m1) m1 else m1 in
  {| bs_qp := m2;
     bs_pc := match l with [] => BIdle | r :: l => BPolling (BPost r l ring_db) (bnxt_poll_start m2) end;
     bs_stop := bs_stop s;
     bs_posted := bs_posted s ++ [bnxt_entry_at (bq_tail (bs_qp s)) (bq_ring m1)];
     bs_executed := bs_executed s |}.

(** Where the NIC is, and where the doorbell says the queue ends: a slot and
    the parity of the round. *)
Definition position (n : Z) : Z * Z :=
  ((GDA_BNXT_WQE_SLOT_COUNT * n) mod bx_depth q, (GDA_BNXT_WQE_SLOT_COUNT * n) / bx_depth q mod 2).
Definition db_position (v : Z) : Z * Z := (Z.land v 16777215, Z.land (Z.shiftr v 24) 1).

(** Completion number [n]: the phase of its round, and how many entries are
    done, in 16 bits; the other bits may be anything. *)
Definition bnxt_nic_cqe (n x y : Z) : bnxt_cqe :=
  {| flg_st_typ_ph := (1 - (n / bx_cq_depth q) mod 2) + 2 * x; con_indx := u16 (n + 1) + 65536 * y |}.

Definition nic_system (x y : Z) (s : bnxt_system) : bnxt_system :=
  let n := bnxt_executed s in
  {| bs_qp := with_cq (fun k => if k =? n mod bx_cq_depth q then bnxt_nic_cqe n x y else bq_cq (bs_qp s) k)
                (bq_cq_head (bs_qp s)) (bq_cq_flags (bs_qp s)) (bs_qp s);
     bs_pc := bs_pc s; bs_stop := bs_stop s; bs_posted := bs_posted s;
     bs_executed := bs_executed s ++ [bnxt_entry_at (fst (position n)) (bq_ring (bs_qp s))] |}.

Definition stop_system (s : bnxt_system) : bnxt_system :=
  {| bs_qp := bs_qp s; bs_pc := bs_pc s; bs_stop := true; bs_posted := bs_posted s; bs_executed := bs_executed s |}.

Inductive bnxt_step (lm : Z -> Z) (s : bnxt_system) : bnxt_system -> Prop :=
| bstep_call o : bs_pc s = BIdle -> bnxt_op_ok o -> bnxt_step lm s (at_pc (bs_qp s) (BPolling o (bnxt_poll_start (bs_qp s))) s)
| bstep_poll o lo : bs_pc s = BPolling o lo -> bnxt_step lm s (poll_system o lo s)
| bstep_post junk r l ring_db : bs_pc s = BReady (BPost r l ring_db) ->
    bnxt_step lm s (post_system lm junk r l ring_db s)
| bstep_quiet : bs_pc s = BReady BQuiet -> bnxt_step lm s (at_pc (bs_qp s) BIdle s)
| bstep_ring : bs_pc s = BIdle -> bnxt_step lm s (at_pc (bnxt_ring_doorbell_only (bs_qp s)) BIdle s)
| bstep_stop : bnxt_step lm s (stop_system s)
| bstep_execute x y : db_position (bq_sq_db (bs_qp s)) <> position (bnxt_executed s) ->
    0 <= x -> 0 <= y -> bnxt_step lm s (nic_system x y s).

(** What [bnxt_initialize_gpu_qp] makes of the queue pair, whatever is in the
    ring: the completions are zeroed. *)
Definition bnxt_start (ring : Z -> list Z) (tbl : Z -> Z) : bnxt_system :=
  {| bs_qp := {| bq_ring := ring; bq_head := 0; bq_tail := 0; bq_flags := 0; bq_psn := 0; bq_msntbl := tbl;
                 bq_msn := 0; bq_cq := fun _ => {| flg_st_typ_ph := 0; con_indx := 0 |}; bq_cq_head := 0;
                 bq_cq_flags := 0; bq_sq_db := 0; bq_cq_db := 0; bq_fetching_idx := 0 |};
     bs_pc := BIdle; bs_stop := false; bs_posted := []; bs_executed := [] |}.

End Device.

Arguments bnxt_entry_at : simpl never.

(** ** Doorbells *)

Lemma key_hi_sum id typ :
  typ = BNXT_RE_QUE_TYPE_SQ \/ typ = BNXT_RE_QUE_TYPE_CQ ->
  Z.lor (Z.lor (Z.land id BNXT_RE_DB_QID_MASK) (Z.shiftl (Z.land typ BNXT_RE_DB_TYP_MASK) BNXT_RE_DB_TYP_SHIFT))
        (Z.shiftl 1 BNXT_RE_DB_VALID_SHIFT) = typ * 2 ^ 28 + 2 ^ 26 + id mod 2 ^ 20.
Proof.
  intros Ht. rewrite <- Z.lor_assoc, Z.lor_comm.
  change BNXT_RE_DB_QID_MASK with (Z.ones 20). rewrite Z.land_ones by lia.
  pose proof (Z.mod_pos_bound id (2 ^ 20) ltac:(lia)).
  destruct Ht as [-> | ->].
  - change (Z.lor (Z.shiftl (Z.land BNXT_RE_QUE_TYPE_SQ BNXT_RE_DB_TYP_MASK) BNXT_RE_DB_TYP_SHIFT)
      (Z.shiftl 1 BNXT_RE_DB_VALID_SHIFT)) with (Z.shiftl 64 20).
    rewrite lor_shiftl_add by lia. unfold BNXT_RE_QUE_TYPE_SQ. lia.
  - change (Z.lor (Z.shiftl (Z.land BNXT_RE_QUE_TYPE_CQ BNXT_RE_DB_TYP_MASK) BNXT_RE_DB_TYP_SHIFT)
      (Z.shiftl 1 BNXT_RE_DB_VALID_SHIFT)) with (Z.shiftl 1088 20).
    rewrite lor_shiftl_add by lia. unfold BNXT_RE_QUE_TYPE_CQ. lia.
Qed.

Lemma doorbell_sum key_lo id typ :
  typ = BNXT_RE_QUE_TYPE_SQ \/ typ = BNXT_RE_QUE_TYPE_CQ -> 0 <= key_lo < 2 ^ 32 ->
  bnxt_doorbell_value key_lo id typ = (typ * 2 ^ 28 + 2 ^ 26 + id mod 2 ^ 20) * 2 ^ 32 + key_lo.
Proof.
  intros Ht Hk. unfold bnxt_doorbell_value. rewrite (key_hi_sum _ _ Ht).
  pose proof (Z.mod_pos_bound id (2 ^ 20) ltac:(lia)).
  assert (0 <= typ <= 4) by (destruct Ht as [-> | ->]; vm_compute; split; congruence).
  rewrite u64_small by (rewrite Z.shiftl_mul_pow2 by lia; change 18446744073709551616 with (2 ^ 64); lia).
  rewrite Z.lor_comm. apply lor_shiftl_add; lia.
Qed.

Lemma doorbell_type key_lo id typ :
  typ = BNXT_RE_QUE_TYPE_SQ \/ typ = BNXT_RE_QUE_TYPE_CQ -> 0 <= key_lo < 2 ^ 32 ->
  db_type (bnxt_doorbell_value key_lo id typ) = typ.
Proof.
  intros Ht Hk. rewrite doorbell_sum by done. unfold db_type.
  pose proof (Z.mod_pos_bound id (2 ^ 20) ltac:(lia)).
  rewrite Z.shiftr_div_pow2 by lia.
  assert (E : ((typ * 2 ^ 28 + 2 ^ 26 + id mod 2 ^ 20) * 2 ^ 32 + key_lo) / 2 ^ 60 = typ).
  { symmetry. apply (Z.div_unique _ _ _ ((2 ^ 26 + id mod 2 ^ 20) * 2 ^ 32 + key_lo)); lia. }
  rewrite E. by destruct Ht as [-> | ->].
Qed.

Lemma bit_0 x : Z.land x 1 = x mod 2.
Proof. exact (Z.land_ones x 1 ltac:(lia)). Qed.

(** What the NIC reads of a send queue doorbell. *)
Lemma doorbell_position idx b id :
  0 <= idx < 2 ^ 24 -> 0 <= b < 2 ->
  db_position (bnxt_doorbell_value (Z.lor idx (u32 (Z.shiftl b BNXT_RE_DB_EPOCH_SHIFT))) id BNXT_RE_QUE_TYPE_SQ) = (idx, b).
Proof.
  intros Hi Hb. unfold BNXT_RE_DB_EPOCH_SHIFT.
  rewrite u32_small by (rewrite Z.shiftl_mul_pow2 by lia; lia).
  rewrite Z.lor_comm, lor_shiftl_add by lia. rewrite doorbell_sum by (auto || lia).
  unfold db_position. rewrite bit_0. change 16777215 with (Z.ones 24).
  rewrite Z.land_ones, Z.shiftr_div_pow2 by lia.
  set (K := BNXT_RE_QUE_TYPE_SQ * 2 ^ 28 + 2 ^ 26 + id mod 2 ^ 20). f_equal.
  - symmetry. apply (Z.mod_unique _ _ (K * 2 ^ 8 + b)); lia.
  - assert (E : (K * 2 ^ 32 + (b * 2 ^ 24 + idx)) / 2 ^ 24 = K * 2 ^ 8 + b)
      by (symmetry; apply (Z.div_unique _ _ _ idx); lia).
    rewrite E. symmetry. apply (Z.mod_unique _ _ (K * 2 ^ 7)); lia.
Qed.

(** ** Writing an entry *)

Lemma length_bytes n v : length (bytes_of n v) = n.
Proof. apply bytes_of_bytes. Qed.

Lemma store_bytes_other k l ring j :
  j < k \/ k + 2 <= j -> (length l <= 32)%nat -> store_bytes k l ring j = ring j.
Proof.
  intros Hj Hl. unfold store_bytes. destruct (Z.ltb_spec j k); [done|].
  rewrite (drop_ge l) by lia. done.
Qed.

Lemma store_bytes_one k l ring j :
  j <> k -> (length l <= 16)%nat -> store_bytes k l ring j = ring j.
Proof.
  intros Hj Hl. unfold store_bytes. destruct (Z.ltb_spec j k); [done|].
  rewrite (drop_ge l) by lia. done.
Qed.

Section Writing.
Context (q : bnxt_config).

(** Rings the theorems are about: any number of slots, up to 65536, that
    divides three times that, the default 2048 and its 256 completions
    included. *)
Record bnxt_ok : Prop := {
  bo_depth : 3 < bx_depth q <= 65536;
  bo_divides : (bx_depth q | 196608);
  bo_cq : 0 < bx_cq_depth q < 16777216;
  bo_inline : bx_inline_threshold q <= 32
}.

(** Sizes with which the wait for room is enough: the slots are not a
    multiple of three, and there is a completion for every third of them. *)
Definition own_room : Prop := bx_depth q mod 3 <> 0 /\ bx_depth q <= 3 * bx_cq_depth q.
Hypothesis Hq : bnxt_ok.

Lemma hwqe_at i m :
  0 <= bq_tail m < bx_depth q -> 0 <= i <= 2 -> bnxt_re_get_hwqe q i m = (bq_tail m + i) mod bx_depth q.
Proof using Hq.
  intros Ht Hi. destruct Hq as [H1 _ _ _]. unfold bnxt_re_get_hwqe. rewrite u32_small by lia.
  destruct (Z.leb_spec (bx_depth q) (i + bq_tail m)).
  - rewrite u32_small by lia. apply (Z.mod_unique _ _ 1); lia.
  - rewrite Z.mod_small; lia.
Qed.

(** What a call of [write_rma_wqe] or [write_amo_wqe] does: it changes the
    slots at the tail and at most one more, and the tail with the parity of
    its round. *)
Record wrote (m m' : bnxt_qp) : Prop := {
  wr_ring j : 0 <= j < bx_depth q -> (forall i, 0 <= i <= 3 -> j <> (bq_tail m + i) mod bx_depth q) ->
    bq_ring m' j = bq_ring m j;
  wr_tail : bq_tail m' = (bq_tail m + 3) mod bx_depth q;
  wr_flags : bq_flags m' = if bx_depth q <=? bq_tail m + 3 then Z.lxor (bq_flags m) 1 else bq_flags m;
  wr_head : bq_head m' = bq_head m;
  wr_cq : bq_cq m' = bq_cq m;
  wr_cq_head : bq_cq_head m' = bq_cq_head m;
  wr_db : bq_sq_db m' = bq_sq_db m
}.

Lemma store_entry_ring hdr second third m j :
  length hdr = 16%nat -> length second = 16%nat -> (length third <= 32)%nat ->
  0 <= bq_tail m < bx_depth q -> 0 <= j < bx_depth q ->
  (forall i, 0 <= i <= 3 -> j <> (bq_tail m + i) mod bx_depth q) ->
  bq_ring (store_entry q hdr second third m) j = bq_ring m j.
Proof using Hq.
  intros H1 H2 H3 Ht Hj Hne. destruct Hq as [Hd _ _ _]. cbn. rewrite !hwqe_at by lia.
  rewrite store_bytes_other; [|clear H1 H2|done].
  - rewrite !store_bytes_one by (rewrite ?H1, ?H2; auto || (apply Hne; lia)). done.
  - pose proof (Hne 2 ltac:(lia)) as N2. pose proof (Hne 3 ltac:(lia)) as N3.
    set (h := (bq_tail m + 2) mod bx_depth q) in *. pose proof (Z.mod_pos_bound (bq_tail m + 2) (bx_depth q) ltac:(lia)).
    fold h in H. destruct (decide (h + 1 < bx_depth q)).
    + assert ((bq_tail m + 3) mod bx_depth q = h + 1).
      { replace (bq_tail m + 3) with (bq_tail m + 2 + 1) by lia. rewrite <- Zplus_mod_idemp_l. fold h.
        apply Z.mod_small. lia. }
      lia.
    + lia.
Qed.

Lemma advance_wrote length m m' :
  0 <= bq_tail m < bx_depth q ->
  (forall j, 0 <= j < bx_depth q -> (forall i, 0 <= i <= 3 -> j <> (bq_tail m + i) mod bx_depth q) ->
    bq_ring m' j = bq_ring m j) ->
  bq_tail m' = bq_tail m -> bq_flags m' = bq_flags m -> bq_head m' = bq_head m -> bq_cq m' = bq_cq m ->
  bq_cq_head m' = bq_cq_head m -> bq_sq_db m' = bq_sq_db m ->
  wrote m (bnxt_advance q length m').
Proof using Hq.
  intros Ht Hr E1 E2 E3 E4 E5 E6. destruct Hq as [Hd _ _ _].
  unfold bnxt_advance, bnxt_re_incr_tail. cbn. rewrite E1. change GDA_BNXT_WQE_SLOT_COUNT with 3.
  rewrite u32_small by lia. rewrite E2.
  destruct (Z.leb_spec (bx_depth q) (bq_tail m + 3)) as [Hw|Hw].
  - split; cbn; try done. by rewrite (proj2 (Z.leb_le _ _) Hw).
  - split; cbn; try done; [by rewrite Z.mod_small by lia|]. by rewrite (proj2 (Z.leb_gt _ _) Hw).
Qed.

Lemma write_wrote lm junk r m :
  request_ok r -> 0 <= bq_tail m < bx_depth q -> wrote m (write_wqe q lm junk r m).
Proof using Hq.
  intros Hr Ht. destruct Hq as [Hd _ _ Hi].
  assert (Hb : forall a b c d, length (bytes_of 8 a ++ bytes_of 4 b ++ bytes_of 4 c) = 16%nat
    /\ length (bytes_of 4 a ++ bytes_of 4 b ++ bytes_of 8 d) = 16%nat
    /\ length (bytes_of 8 a ++ bytes_of 8 b) = 16%nat).
  { intros. rewrite !length_app, !length_bytes. done. }
  destruct r as [len laddr raddr opcode imm|raddr opcode data cmp fetching]; cbn [write_wqe].
  - unfold write_rma_wqe. apply advance_wrote; try done. intros j Hj Hne.
    apply store_entry_ring; try done; try apply (Hb _ _ _ 0); try apply (Hb 0 _ 0 _).
    destruct (is_inline q len opcode) eqn:Ei.
    + unfold is_inline in Ei. apply andb_true_iff in Ei as [Ei _]. cbn in Hr.
      rewrite length_map, length_seq, u64_small by lia. lia.
    + unfold sge. rewrite (proj1 (Hb _ _ _ 0)). lia.
  - unfold write_amo_wqe. destruct fetching; (apply advance_wrote; try done; intros j Hj Hne;
      rewrite store_entry_ring; try done; first [by apply (Hb _ _ _ 0)|by apply (Hb _ _ 0 _)|idtac]);
      unfold sge; rewrite (proj1 (Hb _ _ _ 0)); lia.
Qed.
End Writing.

(** ** The invariant *)

Section Invariant.
Context (q : bnxt_config) (lm : Z -> Z).
Hypothesis Hq : bnxt_ok q.

Definition bnxt_posted (s : bnxt_system) : Z := Z.of_nat (length (bs_posted s)).
Definition few_entries (s : bnxt_system) : Prop := bnxt_posted s < 4294967296.

(** How many completions the caller has taken. *)
Definition bnxt_consumed (s : bnxt_system) : Z :=
  match bs_pc s with BPolling _ lo => lo_cons lo | _ => bq_cq_head (bs_qp s) end.

(** The entries whose completions were not taken leave some slots of the ring
    and have a place each in the completion queue. *)
Definition keeps_room (s : bnxt_system) : Prop :=
  3 * (bnxt_posted s - bnxt_consumed s) < bx_depth q /\ bnxt_posted s - bnxt_consumed s <= bx_cq_depth q.

(** Runs in which the sizes or the caller see to that. *)
Definition bnxt_roomy (s : bnxt_system) : Prop :=
  exists ring tbl, rtc (fun a b => bnxt_step q lm a b /\ (own_room q \/ keeps_room b)) (bnxt_start ring tbl) s.


(** The phase of the completions of [n]'s round. *)
Definition cq_phase (n : Z) : Z := 1 - (n / bx_cq_depth q) mod 2.

Definition bnxt_local_ok (K : Z) (m : bnxt_qp) (lo : poll_local) : Prop :=
  lo_cons lo = K /\ (lo_dirty lo = false -> bq_cq_head m = K).

Definition bnxt_point_ok (P K : Z) (m : bnxt_qp) (pc : bnxt_pc) : Prop :=
  match pc with
  | BIdle => bq_cq_head m = K
  | BPolling o lo => bnxt_op_ok o /\ bnxt_local_ok K m lo
  | BReady o => bnxt_op_ok o /\ bq_cq_head m = K /\ 3 * (P - K) + bnxt_requested_slots q o <= bx_depth q
  end.

(** [K] completions are consumed and [D] entries announced. *)
Record bnxt_inv (s : bnxt_system) (K D : Z) : Prop := {
  bi_order : 0 <= K <= bnxt_executed s /\ bnxt_executed s <= D <= bnxt_posted s;
  bi_room : 3 * (bnxt_posted s - K) < bx_depth q /\ bnxt_posted s - K <= bx_cq_depth q;
  bi_tail : bq_tail (bs_qp s) = (3 * bnxt_posted s) mod bx_depth q;
  bi_flags : bq_flags (bs_qp s) = (3 * bnxt_posted s) / bx_depth q mod 2;
  bi_head : bq_head (bs_qp s) = (3 * K) mod bx_depth q;
  bi_door : db_position (bq_sq_db (bs_qp s)) = position q D;
  bi_slots : forall i, bnxt_executed s <= Z.of_nat i < bnxt_posted s ->
    bs_posted s !! i = Some (bnxt_entry_at q ((3 * Z.of_nat i) mod bx_depth q) (bq_ring (bs_qp s)));
  bi_exec : forall i w, bs_executed s !! i = Some w -> bs_posted s !! i = Some w;
  bi_cqes : forall n, K <= n < bnxt_executed s ->
    exists x y, 0 <= x /\ 0 <= y /\ bq_cq (bs_qp s) (n mod bx_cq_depth q) = bnxt_nic_cqe q n x y;
  bi_stale : forall n, bnxt_executed s <= n < bnxt_executed s + bx_cq_depth q ->
    Z.land (flg_st_typ_ph (bq_cq (bs_qp s) (n mod bx_cq_depth q))) 1 <> cq_phase n;
  bi_point : bnxt_point_ok (bnxt_posted s) K (bs_qp s) (bs_pc s)
}.

Lemma consumed_is s K : bnxt_point_ok (bnxt_posted s) K (bs_qp s) (bs_pc s) -> bnxt_consumed s = K.
Proof using Type. unfold bnxt_consumed. destruct (bs_pc s); cbn; [done|by intros (_ & ? & _)|by intros (_ & ? & _)]. Qed.

(** With sizes of its own a full ring is never quite full. *)
Lemma own_not_full n : own_room q -> 3 * n <= bx_depth q -> 3 * n < bx_depth q /\ n <= bx_cq_depth q.
Proof using Type.
  intros [H3 Hc] Hn. split; [|lia]. destruct (decide (3 * n = bx_depth q)) as [E|]; [|lia].
  rewrite <- E, Z.mul_comm, Z.mod_mul in H3 by lia. done.
Qed.

Lemma available_is s K D : bnxt_inv s K D -> available q (bs_qp s) = bx_depth q - 3 * (bnxt_posted s - K).
Proof using Hq.
  intros Hi. destruct Hq as [Hd _ _ _]. destruct (bi_order _ _ _ Hi). destruct (bi_room _ _ _ Hi) as [Hr _].
  unfold available. rewrite (bi_tail _ _ _ Hi), (bi_head _ _ _ Hi).
  set (P := bnxt_posted s) in *.
  pose proof (Z.mod_pos_bound (3 * P) (bx_depth q) ltac:(lia)). pose proof (Z.mod_pos_bound (3 * K) (bx_depth q) ltac:(lia)).
  rewrite (u32_small (_ + _)) by lia.
  assert (E : ((3 * P) mod bx_depth q - (3 * K) mod bx_depth q + bx_depth q) mod bx_depth q = 3 * (P - K)).
  { rewrite <- Z.add_mod_idemp_r, Z_mod_same_full, Z.add_0_r by lia. rewrite <- Zminus_mod.
    rewrite <- Z.mul_sub_distr_l. apply Z.mod_small. lia. }
  rewrite E, u32_small; lia.
Qed.

Lemma ack_keeps db_idx m :
  0 <= db_idx < 2 ^ 32 ->
  let m' := ack_cq q db_idx m in
  bq_ring m' = bq_ring m /\ bq_head m' = bq_head m /\ bq_tail m' = bq_tail m /\ bq_flags m' = bq_flags m
  /\ bq_cq m' = bq_cq m /\ bq_sq_db m' = bq_sq_db m.
Proof using Type.
  intros Hr. unfold ack_cq, store_dbr. rewrite doorbell_type by auto. done.
Qed.

Lemma finish_keeps lo K m :
  bnxt_local_ok K m lo -> 0 <= K ->
  let m' := finish_poll q lo m in
  bq_ring m' = bq_ring m /\ bq_head m' = bq_head m /\ bq_tail m' = bq_tail m /\ bq_flags m' = bq_flags m
  /\ bq_cq m' = bq_cq m /\ bq_sq_db m' = bq_sq_db m /\ bq_cq_head m' = K.
Proof using Hq.
  intros [E Hdirty] HK. destruct Hq as [_ _ Hc _]. unfold finish_poll. destruct (lo_dirty lo); [|by split_and!; auto].
  destruct (ack_keeps (Z.lor (lo_cons lo mod bx_cq_depth q) (u32 (Z.shiftl (lo_epoch lo) 24))) m) as (A1 & A2 & A3 & A4 & A5 & A6).
  { apply lor_below.
    - pose proof (Z.mod_pos_bound (lo_cons lo) (bx_cq_depth q) ltac:(lia)). lia.
    - apply u32_range. }
  cbn. by split_and!.
Qed.

Lemma phase_of n x y : 0 <= x -> Z.land (flg_st_typ_ph (bnxt_nic_cqe q n x y)) 1 = cq_phase n.
Proof using Type.
  intros Hx. cbn. rewrite bit_0. fold (cq_phase n).
  assert (0 <= cq_phase n < 2) by (unfold cq_phase; pose proof (Z.mod_pos_bound (n / bx_cq_depth q) 2 ltac:(lia)); lia).
  symmetry. apply (Z.mod_unique _ _ x); lia.
Qed.

Lemma con_of n x y : 0 <= y -> Z.land (con_indx (bnxt_nic_cqe q n x y)) 65535 = u16 (n + 1).
Proof using Type.
  intros Hy. cbn. change 65535 with (Z.ones 16). rewrite Z.land_ones by lia. change (2 ^ 16) with 65536.
  rewrite (Z.mul_comm 65536), Z.mod_add by lia. apply Z.mod_small, u16_range.
Qed.

Lemma expected_phase n :
  (if Z.land (n / bx_cq_depth q) 1 =? 0 then 1 else 0) = cq_phase n.
Proof using Type.
  unfold cq_phase. rewrite bit_0. pose proof (Z.mod_pos_bound (n / bx_cq_depth q) 2 ltac:(lia)).
  destruct (Z.eqb_spec ((n / bx_cq_depth q) mod 2) 0); lia.
Qed.

Lemma head_of n : u32 (u16 n * 3) mod bx_depth q = (3 * n) mod bx_depth q.
Proof using Hq.
  destruct Hq as [Hd H2 _ _]. pose proof (u16_range n). rewrite u32_small by lia. unfold u16.
  rewrite Z.mul_comm. change 65536 with (196608 / 3) at 1.
  rewrite <- (Z.mod_mod_divide (3 * n) 196608 (bx_depth q)) by done. f_equal.
  change (196608 / 3) with 65536. change 196608 with (3 * 65536). by rewrite Z.mul_mod_distr_l by lia.
Qed.

Lemma next_phase n : cq_phase (n + bx_cq_depth q) <> cq_phase n.
Proof using Hq.
  destruct Hq as [_ _ Hc _]. unfold cq_phase. replace (n + bx_cq_depth q) with (n + 1 * bx_cq_depth q) by lia.
  rewrite Z.div_add by lia. set (x := n / bx_cq_depth q). intros E.
  pose proof (Z.div_mod x 2 ltac:(lia)). pose proof (Z.div_mod (x + 1) 2 ltac:(lia)). lia.
Qed.

Lemma inv_same s s' K D :
  bs_qp s' = bs_qp s -> bs_posted s' = bs_posted s -> bs_executed s' = bs_executed s ->
  bnxt_inv s K D -> bnxt_point_ok (bnxt_posted s) K (bs_qp s) (bs_pc s') -> bnxt_inv s' K D.
Proof using Type.
  intros E1 E2 E3 [] Hp. unfold bnxt_posted, bnxt_executed in *.
  split; unfold bnxt_posted, bnxt_executed; rewrite ?E1, ?E2, ?E3; done.
Qed.

(** A completion is taken only if the NIC has written it. *)
Lemma take_inv s o lo K D :
  bs_pc s = BPolling o lo -> few_entries s -> bnxt_inv s K D ->
  let '(lo', m') := bnxt_take_cqe q lo (bs_qp s) in
  exists K', K <= K' /\ bnxt_inv (at_pc m' (BPolling o lo') s) K' D
    /\ (K < bnxt_executed s -> K < K').
Proof using Hq.
  intros Hpc Hfew Hi. pose proof (bi_point _ _ _ Hi) as Hp. rewrite Hpc in Hp. destruct Hp as (Ho & Hc & Hdirty).
  destruct (bi_order _ _ _ Hi) as [[HK HKN] [HND HDP]]. pose proof (bi_room _ _ _ Hi) as Hroom.
  unfold bnxt_take_cqe. rewrite Hc, expected_phase. change BNXT_RE_BCQE_PH_MASK with 1.
  destruct (Z.eqb_spec (Z.land (flg_st_typ_ph (bq_cq (bs_qp s) (K mod bx_cq_depth q))) 1) (cq_phase K)) as [E|E]; cbn [negb].
  - assert (HKlt : K < bnxt_executed s).
    { destruct (decide (K = bnxt_executed s)) as [EK|]; [|lia]. exfalso.
      apply (bi_stale _ _ _ Hi K); [destruct Hq; lia|exact E]. }
    destruct (bi_cqes _ _ _ Hi K ltac:(lia)) as (x & y & Hx & Hy & Ec). rewrite Ec, con_of by done.
    change GDA_BNXT_WQE_SLOT_COUNT with 3. rewrite head_of.
    unfold few_entries in Hfew. rewrite (u32_small (K + 1)) by lia.
    exists (K + 1). split; [lia|]. split; [|lia]. destruct Hi. split; unfold bnxt_posted, bnxt_executed in *; cbn; try done; try lia.
    intros n Hn. apply bi_cqes0. lia.
  - exists K. split; [lia|]. split.
    + eapply inv_same; [..|exact Hi|]; try done.
    + intros Hlt. exfalso. destruct (bi_cqes _ _ _ Hi K ltac:(lia)) as (x & y & Hx & Hy & Ec).
      rewrite Ec, phase_of in E by done. done.
Qed.

Lemma bnxt_poll_inv s o lo K D :
  bs_pc s = BPolling o lo -> bs_stop s = false -> few_entries s -> bnxt_inv s K D ->
  exists K', K <= K' /\ bnxt_inv (poll_system q o lo s) K' D /\ (K < bnxt_executed s -> K < K' \/ bs_pc (poll_system q o lo s) = BReady o)
    /\ (K = bnxt_posted s -> bs_pc (poll_system q o lo s) = BReady o).
Proof using Hq.
  intros Hpc Hst Hfew Hi. pose proof (bi_point _ _ _ Hi) as Hp. rewrite Hpc in Hp. destruct Hp as (Ho & Hl).
  assert (Hl' : bnxt_local_ok K (bs_qp s) (counted lo)) by exact Hl.
  destruct (bi_order _ _ _ Hi) as [[HK HKN] [HND HDP]].
  unfold poll_system, bnxt_poll_turn. rewrite Hst. cbn [andb]. rewrite (available_is s K D Hi).
  destruct (Z.leb_spec (bnxt_requested_slots q o) (bx_depth q - 3 * (bnxt_posted s - K))) as [Hle|Hgt].
  - exists K. split; [lia|]. split; [|split; [by right|done]].
    destruct (finish_keeps (counted lo) K (bs_qp s) Hl' HK) as (A1 & A2 & A3 & A4 & A5 & A6 & A7).
    destruct Hi. split; unfold bnxt_posted, bnxt_executed in *; cbn; rewrite ?A1, ?A2, ?A3, ?A4, ?A5, ?A6; try done.
    split_and!; [done|done|lia].
  - pose proof (take_inv (at_pc (bs_qp s) (BPolling o (counted lo)) s) o (counted lo) K D eq_refl Hfew) as H.
    assert (Hi' : bnxt_inv (at_pc (bs_qp s) (BPolling o (counted lo)) s) K D)
      by (eapply inv_same; [..|exact Hi|]; done).
    specialize (H Hi'). cbn [bs_qp at_pc] in H. destruct (bnxt_take_cqe q (counted lo) (bs_qp s)) as [lo' m'].
    destruct H as (K' & H1 & H2 & H3). exists K'. split; [done|]. split; [|split].
    + eapply inv_same; [..|exact H2|]; try done. apply (bi_point _ _ _ H2).
    + intros Hlt. left. by apply H3.
    + intros ->. destruct o; cbn in Hgt; destruct Hq; unfold GDA_BNXT_WQE_SLOT_COUNT in Hgt; lia.
Qed.

Lemma next_flags P : 0 <= P ->
  (if bx_depth q <=? (3 * P) mod bx_depth q + 3 then Z.lxor ((3 * P) / bx_depth q mod 2) 1
   else (3 * P) / bx_depth q mod 2) = (3 * (P + 1)) / bx_depth q mod 2.
Proof using Hq.
  intros HP. destruct Hq as [Hd _ _ _]. set (d := bx_depth q) in *.
  pose proof (Z.div_mod (3 * P) d ltac:(lia)) as E. pose proof (Z.mod_pos_bound (3 * P) d ltac:(lia)) as B.
  set (x := 3 * P / d) in *. set (r := (3 * P) mod d) in *.
  destruct (Z.leb_spec d (r + 3)).
  - assert (Ed : 3 * (P + 1) / d = x + 1) by (symmetry; apply (Z.div_unique _ _ _ (r + 3 - d)); lia).
    rewrite Ed. pose proof (Z.div_mod x 2 ltac:(lia)) as E2. pose proof (Z.mod_pos_bound x 2 ltac:(lia)).
    destruct (decide (x mod 2 = 0)) as [E0|].
    + rewrite E0 in *. apply (Z.mod_unique _ _ (x / 2)); [left; vm_compute; split; congruence|try change (Z.lxor 0 1) with 1; try change (Z.lxor 1 1) with 0; lia].
    + assert (E1 : x mod 2 = 1) by lia. rewrite E1 in *. apply (Z.mod_unique _ _ (x / 2 + 1)); [left; vm_compute; split; congruence|try change (Z.lxor 0 1) with 1; try change (Z.lxor 1 1) with 0; lia].
  - f_equal. apply (Z.div_unique _ _ _ (r + 3)); lia.
Qed.

Lemma next_tail P : ((3 * P) mod bx_depth q + 3) mod bx_depth q = (3 * (P + 1)) mod bx_depth q.
Proof using Type. rewrite Zplus_mod_idemp_l. f_equal. lia. Qed.

(** The doorbell rung at the tail announces everything that is posted. *)
Lemma ring_position m P :
  0 <= P -> bq_tail m = (3 * P) mod bx_depth q -> bq_flags m = (3 * P) / bx_depth q mod 2 ->
  let m' := bnxt_ring_doorbell q (bq_tail m) m in
  db_position (bq_sq_db m') = position q P /\ bq_ring m' = bq_ring m /\ bq_head m' = bq_head m
  /\ bq_tail m' = bq_tail m /\ bq_flags m' = bq_flags m /\ bq_cq m' = bq_cq m /\ bq_cq_head m' = bq_cq_head m.
Proof using Hq.
  intros HP Ht Hf. destruct Hq as [Hd _ _ _]. unfold bnxt_ring_doorbell, store_dbr.
  pose proof (Z.mod_pos_bound (3 * P) (bx_depth q) ltac:(lia)) as B1.
  pose proof (Z.mod_pos_bound ((3 * P) / bx_depth q) 2 ltac:(lia)) as B2.
  assert (Eb : Z.land (bq_flags m) 1 = (3 * P) / bx_depth q mod 2)
    by (rewrite bit_0, Hf; by apply Z.mod_small). rewrite Eb.
  rewrite doorbell_type; [|by left|].
  - cbn [Z.eqb BNXT_RE_QUE_TYPE_SQ bq_sq_db with_db]. rewrite doorbell_position by lia.
    rewrite Ht. by split_and!.
  - apply lor_below; [lia|apply u32_range].
Qed.

Lemma entry_same k ring ring' :
  (forall i, 0 <= i < 3 -> ring' ((k + i) mod bx_depth q) = ring ((k + i) mod bx_depth q)) ->
  bnxt_entry_at q k ring' = bnxt_entry_at q k ring.
Proof using Type.
  intros H. unfold bnxt_entry_at. cbn [map seq]. by rewrite (H (Z.of_nat 0)), (H (Z.of_nat 1)), (H (Z.of_nat 2)) by lia.
Qed.

(** Entries go to slots the NIC is done with. *)
Lemma bnxt_post_inv s junk r l ring_db K D :
  bs_pc s = BReady (BPost r l ring_db) -> bnxt_inv s K D ->
  own_room q \/ keeps_room (post_system q lm junk r l ring_db s) ->
  exists D', D <= D' /\ bnxt_inv (post_system q lm junk r l ring_db s) K D' /\ (ring_db = true -> D' = bnxt_posted s + 1).
Proof using Hq.
  intros Hpc Hi Hkeep. pose proof (bi_point _ _ _ Hi) as Hp. rewrite Hpc in Hp. destruct Hp as (Ho & Hcq & Hroom).
  pose proof (Forall_inv Ho) as Hr. pose proof (Forall_inv_tail Ho) as Hl. change (bnxt_requested_slots q (BPost r l ring_db)) with 3 in Hroom.
  destruct (bi_order _ _ _ Hi) as [[HK HKN] [HND HDP]]. set (P := bnxt_posted s) in *.
  assert (Hd : 3 < bx_depth q) by (destruct Hq; lia).
  pose proof (bi_tail _ _ _ Hi) as Ht. fold P in Ht.
  pose proof (Z.mod_pos_bound (3 * P) (bx_depth q) ltac:(lia)) as Hb. rewrite <- Ht in Hb.
  destruct (write_wrote q Hq lm junk r (bs_qp s) Hr Hb) as [W1 W2 W3 W4 W5 W6 W7].
  set (m1 := write_wqe q lm junk r (bs_qp s)) in *.
  assert (T1 : bq_tail m1 = (3 * (P + 1)) mod bx_depth q) by (rewrite W2, Ht; apply next_tail).
  assert (F1 : bq_flags m1 = (3 * (P + 1)) / bx_depth q mod 2).
  { rewrite W3, Ht, (bi_flags _ _ _ Hi). fold P. apply next_flags. lia. }
  set (D' := if ring_db then P + 1 else D). set (m2 := if ring_db then bnxt_ring_doorbell q (bq_tail m1) m1 else m1).
  assert (M2 : db_position (bq_sq_db m2) = position q D' /\ bq_ring m2 = bq_ring m1 /\ bq_head m2 = bq_head m1
    /\ bq_tail m2 = bq_tail m1 /\ bq_flags m2 = bq_flags m1 /\ bq_cq m2 = bq_cq m1 /\ bq_cq_head m2 = bq_cq_head m1).
  { subst m2 D'. destruct ring_db; [apply ring_position; try done; lia|].
    split_and!; try done. rewrite W7. apply (bi_door _ _ _ Hi). }
  destruct M2 as (M1 & M2 & M3 & M4 & M5 & M6 & M7).
  assert (Hlen : bnxt_posted (post_system q lm junk r l ring_db s) = P + 1).
  { unfold bnxt_posted. cbn. rewrite length_app. cbn. unfold P, bnxt_posted. lia. }
  assert (Hroom' : 3 * (P + 1 - K) < bx_depth q /\ P + 1 - K <= bx_cq_depth q).
  { destruct Hkeep as [Hown|Hkeep]; [apply own_not_full; [done|unfold P; lia]|].
    unfold keeps_room in Hkeep. rewrite Hlen in Hkeep.
    assert (Ec : bnxt_consumed (post_system q lm junk r l ring_db s) = K).
    { unfold bnxt_consumed. cbn. fold m1 m2. destruct l; cbn; by rewrite M7, W6. }
    by rewrite Ec in Hkeep. }
  assert (Hold : forall i, bnxt_executed s <= Z.of_nat i < P ->
    bnxt_entry_at q ((3 * Z.of_nat i) mod bx_depth q) (bq_ring m1)
    = bnxt_entry_at q ((3 * Z.of_nat i) mod bx_depth q) (bq_ring (bs_qp s))).
  { intros i Hn. apply entry_same. intros j Hj. rewrite Zplus_mod_idemp_l. apply W1; [apply Z.mod_pos_bound; lia|].
    intros u Hu. rewrite Ht, Zplus_mod_idemp_l. intros E. apply slot_inj in E; lia. }
  exists D'. split; [subst D'; destruct ring_db; lia|]. split; [|by intros ->].
  assert (HD' : bnxt_executed s <= D' <= P + 1) by (subst D'; destruct ring_db; lia).
  split; rewrite ?Hlen; try (cbn; fold m1 m2; rewrite ?M2, ?M3, ?M4, ?M5, ?M6, ?M7, ?W4, ?W5; done || lia).
  - cbn. fold m1 m2. rewrite M3, W4. apply (bi_head _ _ _ Hi).
  - intros i Hn. change (bnxt_executed s <= Z.of_nat i < P + 1) in Hn. cbn. fold m1 m2. rewrite M2.
    destruct (decide (Z.of_nat i < P)) as [Hlt|Hge].
    + rewrite lookup_app_l by (unfold P, bnxt_posted in Hlt; lia). rewrite Hold by lia.
      apply (bi_slots _ _ _ Hi). fold P. lia.
    + assert (i = length (bs_posted s)) as -> by (unfold P, bnxt_posted in *; lia).
      rewrite list_lookup_middle by done. rewrite Ht. done.
  - cbn. intros i w Hw. pose proof (bi_exec _ _ _ Hi i w Hw) as Hx. rewrite lookup_app_l; [done|].
    by eapply lookup_lt_Some.
  - cbn. fold m1 m2. rewrite M6, W5. apply (bi_cqes _ _ _ Hi).
  - cbn. fold m1 m2. rewrite M6, W5. apply (bi_stale _ _ _ Hi).
  - cbn. fold m1 m2. destruct l as [|r' l']; cbn; [by rewrite M7, W6|]. split; [done|].
    split; cbn; by rewrite M7, W6.
Qed.

(** The NIC finds the entry it was told of, and its completion is one the
    device has taken long ago. *)
Lemma bnxt_execute_inv s x y K D :
  db_position (bq_sq_db (bs_qp s)) <> position q (bnxt_executed s) -> 0 <= x -> 0 <= y -> bnxt_inv s K D ->
  bnxt_inv (nic_system q x y s) K D.
Proof using Hq.
  intros Hdb Hx Hy Hi. rewrite (bi_door _ _ _ Hi) in Hdb.
  destruct (bi_order _ _ _ Hi) as [[HK HKN] [HND HDP]]. pose proof (bi_room _ _ _ Hi) as Hroom.
  assert (HN : bnxt_executed s < D) by (destruct (decide (bnxt_executed s = D)) as [E|]; [by rewrite E in Hdb|lia]).
  destruct Hq as [H1 H2 H4 H6]. set (N := bnxt_executed s) in *. set (cqd := bx_cq_depth q) in *.
  assert (HN' : bnxt_executed (nic_system q x y s) = N + 1).
  { unfold bnxt_executed. cbn. rewrite length_app. cbn. unfold N, bnxt_executed. lia. }
  pose proof Hi as [I1 I2 I3 I4 I5 I6 I7 I8 I9 I10 I11].
  split; rewrite ?HN'; try done; try (unfold bnxt_posted in *; cbn; lia).
  - intros i Hn. apply I7. unfold bnxt_posted in *. cbn in Hn. fold N. lia.
  - intros i w. cbn. destruct (decide (i = length (bs_executed s))) as [->|Hne].
    + rewrite list_lookup_middle by done. intros [= <-]. fold N.
      assert (EN : N = Z.of_nat (length (bs_executed s))) by done. rewrite EN.
      rewrite (I7 (length (bs_executed s))); [|fold N; unfold bnxt_posted in *; lia]. do 2 f_equal.
    + intros Hw. apply I8. rewrite lookup_app_l in Hw; [done|].
      apply lookup_lt_Some in Hw. rewrite length_app in Hw. cbn in Hw. lia.
  - intros n Hn. cbn. fold N cqd. destruct (Z.eqb_spec (n mod cqd) (N mod cqd)) as [E|E].
    + exists x, y. apply slot_inj in E; [by subst|lia|lia].
    + apply I9. assert (n <> N) by congruence. fold N. lia.
  - intros n Hn. cbn. fold N cqd. destruct (Z.eqb_spec (n mod cqd) (N mod cqd)) as [E|E].
    + rewrite phase_of by done. destruct (decide (n = N + cqd)) as [->|].
      * intros E'. by destruct (next_phase N).
      * symmetry in E. apply slot_inj in E; lia.
    + apply I10. fold N cqd. destruct (decide (n = N + cqd)) as [->|]; [|lia].
      replace (N + cqd) with (N + 1 * cqd) in E by lia. by rewrite Z.mod_add in E by lia.
Qed.

Lemma bnxt_inv_start ring tbl : bnxt_inv (bnxt_start ring tbl) 0 0.
Proof using Hq.
  destruct Hq as [H1 H2 H4 H6].
  split; unfold bnxt_posted, bnxt_executed; cbn; rewrite ?Z.mul_0_r, ?Zmod_0_l, ?Zdiv_0_l; try done; try lia.
  intros n Hn. unfold cq_phase. rewrite Z.div_small by lia. done.
Qed.

Lemma step_keeps s s' :
  bnxt_step q lm s s' -> (bs_stop s' = false -> bs_stop s = false) /\ bnxt_posted s <= bnxt_posted s'.
Proof using Type.
  intros Hs. assert (Hp : forall o lo, bs_stop (poll_system q o lo s) = bs_stop s
    /\ bs_posted (poll_system q o lo s) = bs_posted s).
  { intros o lo. unfold poll_system. by destruct (bnxt_poll_turn _ _ _ _ _). }
  unfold bnxt_posted. destruct Hs; cbn; try (split; [done|lia]).
  - destruct (Hp o lo) as [-> ->]. split; [done|lia].
  - rewrite length_app. cbn. split; [done|lia].
Qed.

Lemma bnxt_inv_step s s' K D :
  bnxt_inv s K D -> few_entries s -> bs_stop s = false -> bnxt_step q lm s s' -> own_room q \/ keeps_room s' -> exists K' D', bnxt_inv s' K' D' \/ bs_stop s' = true.
Proof using Hq.
  intros Hi Hf Hst Hs Hroom. pose proof (bi_order _ _ _ Hi) as [[HK HKN] [HND HDP]].
  destruct Hs as [o Hpc Ho|o lo Hpc|junk r l ring_db Hpc|Hpc|Hpc| |x y Hdb Hx Hy].
  - exists K, D. left. eapply inv_same; [..|exact Hi|]; try done. pose proof (bi_point _ _ _ Hi) as Hp. rewrite Hpc in Hp.
    cbn. by split_and!.
  - destruct (bnxt_poll_inv s o lo K D Hpc Hst Hf Hi) as (K' & _ & Hi' & _). exists K', D. by left.
  - destruct (bnxt_post_inv s junk r l ring_db K D Hpc Hi Hroom) as (D' & _ & Hi' & _). exists K, D'. by left.
  - exists K, D. left. eapply inv_same; [..|exact Hi|]; try done. pose proof (bi_point _ _ _ Hi) as Hp. rewrite Hpc in Hp. apply Hp.
  - exists K, (bnxt_posted s). left.
    destruct (ring_position (bs_qp s) (bnxt_posted s) ltac:(lia) (bi_tail _ _ _ Hi) (bi_flags _ _ _ Hi))
      as (A1 & A2 & A3 & A4 & A5 & A6 & A7).
    pose proof (bi_point _ _ _ Hi) as Hp. rewrite Hpc in Hp. fold (bnxt_ring_doorbell_only q (bs_qp s)) in A1, A2, A3, A4, A5, A6, A7.
    destruct Hi. split; unfold bnxt_posted, bnxt_executed in *; cbn; rewrite ?A2, ?A3, ?A4, ?A5, ?A6, ?A7; try done; lia.
  - exists K, D. by right.
  - exists K, D. left. by apply bnxt_execute_inv.
Qed.

Lemma bnxt_inv_reachable s : bnxt_roomy s -> few_entries s -> bs_stop s = false -> exists K D, bnxt_inv s K D.
Proof using Hq.
  intros (ring & tbl & Hr). revert s Hr.
  apply (rtc_ind_r (fun s => few_entries s -> bs_stop s = false -> exists K D, bnxt_inv s K D)).
  - intros _ _. exists 0, 0. apply bnxt_inv_start.
  - intros s s' _ [Hs Hroom] IH Hf Hst. destruct (step_keeps s s' Hs) as [H1 H2]. unfold few_entries in *.
    destruct IH as (K & D & Hi); [lia|auto|].
    destruct (bnxt_inv_step s s' K D Hi ltac:(unfold few_entries; lia) (H1 Hst) Hs Hroom)
      as (K' & D' & [Hi'|E]); [by exists K', D'|congruence].
Qed.



(** A position is told from the ones the ring's worth of slots before it. *)
Lemma position_inj n m : n <= m -> 3 * (m - n) < bx_depth q -> position q n = position q m -> n = m.
Proof using Hq.
  intros Hn Hr E. destruct Hq as [Hd _ _ _]. unfold position in E. change GDA_BNXT_WQE_SLOT_COUNT with 3 in E.
  injection E as E _. apply slot_inj in E; lia.
Qed.

(** C25: Waiting ends: while the program waits for room or for the end of its
    entries, and the doorbell was rung for all of them, the NIC and the loop
    can run on until the wait is over.  The conditions are those of
    [bnxt_fifo]: no stop request, fewer than 2^32 entries, and never more
    entries whose completions were not taken than leave slots free and fit
    the completion queue.  With more of them than the completion queue holds,
    completions are lost and the wait need not end. *)
Theorem bnxt_wait_ends s o lo :
  bnxt_roomy s -> few_entries s -> bs_stop s = false -> bs_pc s = BPolling o lo ->
  db_position (bq_sq_db (bs_qp s)) = position q (bnxt_posted s) ->
  exists s', rtc (bnxt_step q lm) s s' /\ bs_pc s' = BReady o /\ bs_posted s' = bs_posted s.
Proof using Hq.
  intros Hr Hf Hst Hpc Hdb. destruct (bnxt_inv_reachable s Hr Hf Hst) as (K & D & Hi).
  assert (D = bnxt_posted s) as ->.
  { pose proof (bi_order _ _ _ Hi). pose proof (bi_room _ _ _ Hi). rewrite (bi_door _ _ _ Hi) in Hdb.
    apply position_inj in Hdb; lia. }
  clear Hr Hdb. remember (Z.to_nat (2 * (bnxt_posted s - K) - (bnxt_executed s - K))) as n eqn:En.
  revert s K lo Hf Hst Hpc Hi En. induction n as [n IH] using lt_wf_ind. intros s K lo Hf Hst Hpc Hi En.
  pose proof (bi_order _ _ _ Hi) as [[HK HKN] [HND HDP]].
  destruct (decide (bnxt_executed s < bnxt_posted s)) as [Hlt|Hge].
  - assert (Hpend : db_position (bq_sq_db (bs_qp s)) <> position q (bnxt_executed s)).
    { rewrite (bi_door _ _ _ Hi). intros E. symmetry in E. apply position_inj in E; pose proof (bi_room _ _ _ Hi); lia. }
    pose proof (bnxt_execute_inv s 0 0 K _ Hpend ltac:(lia) ltac:(lia) Hi) as Hi'.
    assert (En' : bnxt_executed (nic_system q 0 0 s) = bnxt_executed s + 1).
    { unfold bnxt_executed. cbn. rewrite length_app. cbn. lia. }
    destruct (IH (Z.to_nat (2 * (bnxt_posted s - K) - (bnxt_executed s + 1 - K))) ltac:(lia) (nic_system q 0 0 s) K lo)
      as (s' & R & P & Q); try done.
    { by rewrite En'. }
    exists s'. split; [|done]. eapply rtc_l; [|exact R]. by apply bstep_execute.
  - destruct (bnxt_poll_inv s o lo K _ Hpc Hst Hf Hi) as (K' & H1 & Hi' & H2 & H3).
    pose proof (bstep_poll q lm s o lo Hpc) as Hs.
    assert (Hsame : bs_posted (poll_system q o lo s) = bs_posted s /\ bs_executed (poll_system q o lo s) = bs_executed s
      /\ bs_stop (poll_system q o lo s) = bs_stop s /\ (bs_pc (poll_system q o lo s) = BReady o
         \/ exists lo', bs_pc (poll_system q o lo s) = BPolling o lo')).
    { unfold poll_system. destruct (bnxt_poll_turn _ _ _ _ _) as [m [u|lo']]; cbn; split_and!; eauto. }
    destruct Hsame as (S1 & S2 & S3 & [S4|[lo' S4]]).
    + exists (poll_system q o lo s). split; [by apply rtc_once|done].
    + assert (HKP : K <> bnxt_posted s) by (intros E; specialize (H3 E); congruence).
      assert (HK' : K < K') by (destruct H2 as [|E]; [lia|done|congruence]).
      assert (Ep : bnxt_posted (poll_system q o lo s) = bnxt_posted s) by (unfold bnxt_posted; by rewrite S1).
      assert (Ee : bnxt_executed (poll_system q o lo s) = bnxt_executed s) by (unfold bnxt_executed; by rewrite S2).
      rewrite <- Ep in Hi'.
      destruct (IH (Z.to_nat (2 * (bnxt_posted s - K') - (bnxt_executed s - K'))) ltac:(lia) (poll_system q o lo s) K' lo')
        as (s' & R & P & Q); try done.
      * unfold few_entries. by rewrite Ep.
      * by rewrite S3.
      * by rewrite Ep, Ee.
      * exists s'. split; [by eapply rtc_l|]. by rewrite Q, S1.
Qed.
End Invariant.

(** ** Entries *)

(** What the NIC takes from the three slots of a transfer. *)
Inductive bnxt_payload := At (pa lkey length : Z) | Inline (data : list Z).

Record nic_entry := {
  ne_opcode : Z; ne_flags : Z; ne_slots : Z; ne_key : Z; ne_length : Z; ne_rva : Z; ne_rkey : Z; ne_payload : bnxt_payload
}.

Definition bnxt_part (off n : nat) (l : list Z) : Z := of_bytes (take n (drop off l)).

Definition bnxt_reads (e : list (list Z)) : option nic_entry :=
  match e with
  | [h; r; d] =>
      let flags := Z.land (Z.shiftr (bnxt_part 0 4 h) BNXT_RE_HDR_FLAGS_SHIFT) BNXT_RE_HDR_FLAGS_MASK in
      let length := bnxt_part 8 8 h in
      Some {| ne_opcode := Z.land (bnxt_part 0 4 h) BNXT_RE_HDR_WT_MASK; ne_flags := flags;
              ne_slots := Z.land (Z.shiftr (bnxt_part 0 4 h) BNXT_RE_HDR_WS_SHIFT) BNXT_RE_HDR_WS_MASK;
              ne_key := bnxt_part 4 4 h; ne_length := length; ne_rva := bnxt_part 0 8 r; ne_rkey := bnxt_part 8 4 r;
              ne_payload := if Z.land flags BNXT_RE_WR_FLAGS_INLINE =? 0 then At (bnxt_part 0 8 d) (bnxt_part 8 4 d) (bnxt_part 12 4 d)
                            else Inline (take (Z.to_nat length) d) |}
  | _ => None
  end.

Lemma part_first n v l : 0 <= v < 256 ^ Z.of_nat n -> bnxt_part 0 n (bytes_of n v ++ l) = v.
Proof.
  intros Hv. unfold bnxt_part. rewrite drop_0. rewrite take_app_length' by (by rewrite length_bytes).
  by apply of_bytes_of.
Qed.

Lemma part_later k n off v l :
  bnxt_part (k + off) n (bytes_of k v ++ l) = bnxt_part off n l.
Proof. unfold bnxt_part. rewrite drop_app_ge by (rewrite length_bytes; lia). rewrite length_bytes. do 3 f_equal. lia. Qed.

Lemma part_last n v : 0 <= v < 256 ^ Z.of_nat n -> bnxt_part 0 n (bytes_of n v) = v.
Proof. intros Hv. rewrite <- (app_nil_r (bytes_of n v)). by apply part_first. Qed.

Lemma header_fields opcode flags :
  0 <= opcode < 256 -> 0 <= flags < 256 ->
  let w := wqe_header opcode flags in
  0 <= w < 2 ^ 32 /\ Z.land w BNXT_RE_HDR_WT_MASK = opcode
  /\ Z.land (Z.shiftr w BNXT_RE_HDR_FLAGS_SHIFT) BNXT_RE_HDR_FLAGS_MASK = flags
  /\ Z.land (Z.shiftr w BNXT_RE_HDR_WS_SHIFT) BNXT_RE_HDR_WS_MASK = 3.
Proof.
  intros Ho Hf. unfold wqe_header, BNXT_RE_HDR_WS_SHIFT, BNXT_RE_HDR_FLAGS_SHIFT.
  change BNXT_RE_HDR_WT_MASK with (Z.ones 8). change BNXT_RE_HDR_FLAGS_MASK with (Z.ones 8).
  change (Z.land BNXT_RE_HDR_WS_MASK GDA_BNXT_WQE_SLOT_COUNT) with 3. change BNXT_RE_HDR_WS_MASK with (Z.ones 8).
  rewrite (Z.land_comm (Z.ones 8)), !Z.land_ones, (Z.mod_small opcode) by lia.
  rewrite <- Z.lor_assoc, (lor_shiftl_add flags opcode 8), (lor_shiftl_add 3) by lia. cbv zeta.
  rewrite !Z.shiftr_div_pow2 by lia.
  assert (E : (3 * 2 ^ 16 + (flags * 2 ^ 8 + opcode)) / 2 ^ 8 = 3 * 2 ^ 8 + flags) by (symmetry; apply (Z.div_unique _ _ _ opcode); lia).
  rewrite E. split_and!; try lia; symmetry.
  - apply (Z.mod_unique _ _ (3 * 2 ^ 8 + flags)); lia.
  - apply (Z.mod_unique _ _ 3); lia.
  - assert (E2 : (3 * 2 ^ 16 + (flags * 2 ^ 8 + opcode)) / 2 ^ 16 = 3)
      by (symmetry; apply (Z.div_unique _ _ _ (flags * 2 ^ 8 + opcode)); lia). by rewrite E2.
Qed.

Section Entries.
Context (q : bnxt_config) (lm : Z -> Z).

Lemma store_bytes_at k l ring :
  length (ring k) = 16%nat -> store_bytes k l ring k = take 16 l ++ drop (length (take 16 l)) (ring k).
Proof using Type.
  intros Hk. unfold store_bytes. rewrite Z.ltb_irrefl, Z.sub_diag. cbn [Z.to_nat Nat.mul]. by rewrite drop_0.
Qed.

(** What does not fit the slot is in the memory behind it. *)
Lemma store_bytes_behind k l ring :
  (length l <= 32)%nat -> take (length l - 16) (store_bytes k l ring (k + 1)) = drop 16 l.
Proof using Type.
  intros Hl. unfold store_bytes. rewrite (proj2 (Z.ltb_ge (k + 1) k)) by lia.
  replace (k + 1 - k) with 1 by lia. change (16 * Z.to_nat 1)%nat with 16%nat.
  rewrite (take_ge (drop 16 l)) by (rewrite length_drop; lia). apply take_app_length'. by rewrite length_drop.
Qed.

(** The three slots an entry is read from hold what was stored there, up to
    16 bytes of data; the rest of the data is behind the third. *)
Lemma stored_entry hdr second third m :
  3 < bx_depth q <= 65536 -> 0 <= bq_tail m < bx_depth q -> (forall j, length (bq_ring m j) = 16%nat) ->
  length hdr = 16%nat -> length second = 16%nat -> (length third <= 32)%nat ->
  let ring' := bq_ring (store_entry q hdr second third m) in
  (exists rest, bnxt_entry_at q (bq_tail m) ring' = [hdr; second; take 16 third ++ rest]
     /\ (16 <= length third -> rest = [])%nat)
  /\ take (length third - 16) (ring' ((bq_tail m + 2) mod bx_depth q + 1)) = drop 16 third.
Proof using Type.
  intros Hd Ht Hr H1 H2 H3. set (d := bx_depth q) in *.
  assert (Hw : forall i, 0 <= i <= 2 -> bnxt_re_get_hwqe q i m = (bq_tail m + i) mod d).
  { intros i Hi. unfold bnxt_re_get_hwqe. fold d. rewrite u32_small by lia. destruct (Z.leb_spec d (i + bq_tail m)).
    - rewrite u32_small by lia. apply (Z.mod_unique _ _ 1); lia.
    - rewrite Z.mod_small; lia. }
  assert (Hne : forall i j, 0 <= i < j -> j <= 3 -> (bq_tail m + i) mod d <> (bq_tail m + j) mod d).
  { intros i j Hi Hj E. apply slot_inj in E; lia. }
  set (h := (bq_tail m + 2) mod d) in *.
  pose proof (Z.mod_pos_bound (bq_tail m + 2) d ltac:(lia)) as Hh. fold h in Hh.
  assert (Hbehind : forall i, 0 <= i <= 1 -> (bq_tail m + i) mod d <> h + 1).
  { intros i Hi E. pose proof (Z.mod_pos_bound (bq_tail m + i) d ltac:(lia)).
    apply (Hne i 3); [lia..|]. rewrite E. replace (bq_tail m + 3) with (bq_tail m + 2 + 1) by lia.
    rewrite <- Zplus_mod_idemp_l. fold h. symmetry. apply Z.mod_small. lia. }
  cbv zeta. unfold bnxt_entry_at. cbn [map seq store_entry bnxt_with_ring bq_ring]. fold d. rewrite !Hw by lia. fold h.
  change (Z.of_nat 0) with 0. change (Z.of_nat 1) with 1. change (Z.of_nat 2) with 2. fold h.
  pose proof (Hne 0 1 ltac:(lia) ltac:(lia)) as N01.
  pose proof (Hne 0 2 ltac:(lia) ltac:(lia)) as N02. pose proof (Hne 1 2 ltac:(lia) ltac:(lia)) as N12. fold h in N02, N12.
  pose proof (Hbehind 0 ltac:(lia)) as B0. pose proof (Hbehind 1 ltac:(lia)) as B1.
  split; [|by apply store_bytes_behind].
  rewrite (store_bytes_other _ third) by (done || lia). rewrite (store_bytes_one _ second) by (done || lia).
  rewrite (store_bytes_at _ hdr) by (by rewrite Hr). rewrite take_ge, drop_ge, app_nil_r by (rewrite ?Hr; lia).
  rewrite (store_bytes_other _ third) by (done || lia).
  rewrite (store_bytes_at _ second) by (by rewrite store_bytes_one by (done || lia)).
  rewrite (take_ge second), drop_ge, app_nil_r by (rewrite ?store_bytes_one by (done || lia); rewrite ?Hr; lia).
  rewrite (store_bytes_at _ third) by (rewrite !store_bytes_one by (done || lia); apply Hr).
  eexists. split; [done|]. intros Hl. apply drop_ge. rewrite !store_bytes_one by (done || lia).
  rewrite Hr, length_take. lia.
Qed.

(** C26: The NIC reads what was asked for.  The entry of a transfer names its
    opcode, three slots, the remote address and key, the length and the
    immediate data, and asks for a completion; and it names the local memory,
    or, for a write up to the inline threshold (at most 32 bytes; 28 by
    default), it is flagged as inline and its third slot holds the bytes, the
    first 16 of them: where the write is longer, the others are in the slot
    of memory behind the third, which belongs to the next entry or lies behind
    the ring, and the three slots the entry claims do not carry them. *)
Theorem bnxt_entry_meaning junk len laddr raddr opcode imm_data m :
  3 < bx_depth q <= 65536 -> 0 <= bq_tail m < bx_depth q -> (forall j, length (bq_ring m j) = 16%nat) ->
  0 <= len < 2147483648 -> 0 <= laddr < 2 ^ 64 -> 0 <= raddr < 2 ^ 64 -> 0 <= opcode < 256 ->
  0 <= imm_data < 2 ^ 32 -> 0 <= bx_lkey q < 2 ^ 32 -> 0 <= bx_rkey q < 2 ^ 32 ->
  bx_inline_threshold q <= 32 ->
  let ring' := bq_ring (write_rma_wqe q lm junk len laddr raddr opcode imm_data m) in
  let data := map (fun i => lm (laddr + Z.of_nat i)) (seq 0 (Z.to_nat len)) in
  exists e, bnxt_reads (bnxt_entry_at q (bq_tail m) ring') = Some e
    /\ (ne_opcode e, ne_slots e, ne_length e, ne_rva e, ne_rkey e) = (opcode, 3, len, raddr, bx_rkey q)
    /\ ne_key e = (if opcode =? bx_op_rdma_write_imm q then imm_data else 0)
    /\ Z.testbit (ne_flags e) 0 = true
    /\ ne_payload e = (if is_inline q len opcode then Inline (take 16 data) else At laddr (bx_lkey q) len)
    /\ (is_inline q len opcode = true ->
        take (Z.to_nat len - 16) (ring' ((bq_tail m + 2) mod bx_depth q + 1)) = drop 16 data).
Proof using Type.
  intros Hd Ht Hr Hlen Hl Hra Hop Him Hlk Hrk Hin. cbv zeta. unfold write_rma_wqe.
  rewrite (u64_small len) by lia. rewrite (u32_small len) by lia.
  set (flags := Z.lor _ _). set (key := if opcode =? _ then _ else _).
  set (third := if is_inline q len opcode then _ else _).
  assert (Hf : (flags = 17 /\ is_inline q len opcode = true) \/ (flags = 1 /\ is_inline q len opcode = false))
    by (subst flags; destruct (is_inline q len opcode); auto).
  assert (Hkey : 0 <= key < 2 ^ 32) by (subst key; destruct (_ =? _); lia).
  assert (Hthird : (length third <= 32)%nat /\ (is_inline q len opcode = true -> length third = Z.to_nat len)).
  { subst third. destruct (is_inline q len opcode) eqn:Ei.
    - rewrite length_map, length_seq. unfold is_inline in Ei. bool_to_prop. lia.
    - unfold sge. rewrite !length_app, !length_bytes. split; [lia|done]. }
  destruct (stored_entry (bsqe (wqe_header opcode flags) key len) (rdma_seg raddr (bx_rkey q) junk) third m Hd Ht Hr)
    as [(rest & E & Hrest) Hbehind]; [unfold bsqe, rdma_seg; by rewrite !length_app, !length_bytes..|apply Hthird|].
  assert (Ea : forall m', bq_ring (bnxt_advance q len m') = bq_ring m').
  { intros m'. unfold bnxt_advance, bnxt_re_incr_tail. by destruct (_ <=? _). }
  rewrite Ea, E. eexists. split; [done|].
  destruct (header_fields opcode flags Hop ltac:(destruct Hf as [[-> _]|[-> _]]; lia)) as (B & F1 & F2 & F3).
  cbn [ne_opcode ne_slots ne_length ne_rva ne_rkey ne_key ne_flags ne_payload].
  assert (P0 : bnxt_part 0 4 (bsqe (wqe_header opcode flags) key len) = wqe_header opcode flags) by (by apply part_first).
  assert (P4 : bnxt_part 4 4 (bsqe (wqe_header opcode flags) key len) = key).
  { unfold bsqe. change (bnxt_part 4 4) with (bnxt_part (4 + 0) 4). rewrite part_later. by apply part_first. }
  assert (P8 : bnxt_part 8 8 (bsqe (wqe_header opcode flags) key len) = len).
  { unfold bsqe. change (bnxt_part 8 8) with (bnxt_part (4 + (4 + 0)) 8). rewrite !part_later. apply part_last.
    change (256 ^ Z.of_nat 8) with (2 ^ 64). lia. }
  assert (R0 : bnxt_part 0 8 (rdma_seg raddr (bx_rkey q) junk) = raddr) by (by apply part_first).
  assert (R8 : bnxt_part 8 4 (rdma_seg raddr (bx_rkey q) junk) = bx_rkey q).
  { unfold rdma_seg. change (bnxt_part 8 4) with (bnxt_part (8 + 0) 4). rewrite part_later. by apply part_first. }
  rewrite P0, P4, P8, R0, R8, F1, F2, F3. split_and!; [done|done|by destruct Hf as [[-> _]|[-> _]]| |].
  2:{ intros Ei. pose proof (proj2 Hthird Ei) as El. rewrite El in Hbehind. rewrite Hbehind. subst third. by rewrite Ei. }
  destruct Hf as [[-> Ei]|[-> Ei]]; subst third; rewrite Ei in *.
  - change (Z.land 17 BNXT_RE_WR_FLAGS_INLINE =? 0) with false. cbn iota. f_equal.
    rewrite length_map, length_seq in Hrest. destruct (decide (len <= 16)).
    + rewrite (take_ge _ 16) by (rewrite length_map, length_seq; lia).
      apply take_app_length'. by rewrite length_map, length_seq.
    + rewrite Hrest, app_nil_r by lia. apply take_ge. rewrite length_take. lia.
  - change (Z.land 1 BNXT_RE_WR_FLAGS_INLINE =? 0) with true. cbn iota. rewrite take_ge by (unfold sge; rewrite !length_app, !length_bytes; lia).
    unfold sge. rewrite <- !app_assoc.
    f_equal; [by apply part_first| |].
    + change (bnxt_part 8 4) with (bnxt_part (8 + 0) 4). rewrite part_later. by apply part_first.
    + change (bnxt_part 12 4) with (bnxt_part (8 + (4 + 0)) 4). rewrite !part_later. apply part_first. cbn. lia.
Qed.
End Entries.

(** ** Runs *)

(** A schedule: a call, a turn of the caller, a doorbell for a batch, the stop
    request, an execution by the NIC. *)
Inductive bnxt_turn := TCall (o : bnxt_op) | TTurn | TRing | TStop | TNic.

Definition request_okb (r : bnxt_request) : bool :=
  match r with Rma length _ _ _ _ => (0 <=? length) && (length <? 2147483648) | Atomic _ _ _ _ _ => true end.
Definition op_okb (o : bnxt_op) : bool :=
  match o with BPost r l _ => forallb request_okb (r :: l) | BQuiet => true end.

Definition take_bnxt_turn (q : bnxt_config) (lm : Z -> Z) (t : bnxt_turn) (s : bnxt_system) : option bnxt_system :=
  match t, bs_pc s with
  | TCall o, BIdle => if op_okb o then Some (at_pc (bs_qp s) (BPolling o (bnxt_poll_start (bs_qp s))) s) else None
  | TTurn, BPolling o lo => Some (poll_system q o lo s)
  | TTurn, BReady (BPost r l ring_db) => Some (post_system q lm 0 r l ring_db s)
  | TTurn, BReady BQuiet => Some (at_pc (bs_qp s) BIdle s)
  | TRing, BIdle => Some (at_pc (bnxt_ring_doorbell_only q (bs_qp s)) BIdle s)
  | TStop, _ => Some (stop_system s)
  | TNic, _ => if bool_decide (db_position (bq_sq_db (bs_qp s)) = position q (bnxt_executed s)) then None
               else Some (nic_system q 0 0 s)
  | _, _ => None
  end.

Lemma op_okb_ok o : op_okb o = true -> bnxt_op_ok o.
Proof.
  destruct o as [r l ring_db|]; [|done]. unfold op_okb, bnxt_op_ok. rewrite forallb_forall, List.Forall_forall.
  intros H x Hx. specialize (H x Hx). destruct x; [|done]. cbn in *. lia.
Qed.

Lemma take_bnxt_turn_step q lm t s s' : take_bnxt_turn q lm t s = Some s' -> bnxt_step q lm s s'.
Proof.
  unfold take_bnxt_turn. destruct t as [o| | | |].
  - destruct (bs_pc s) eqn:Hpc; try done. destruct (op_okb o) eqn:E; [|done]. intros [= <-].
    apply bstep_call; [done|by apply op_okb_ok].
  - destruct (bs_pc s) as [|o lo|[r l ring_db|]] eqn:Hpc; try done; intros [= <-]; by constructor.
  - destruct (bs_pc s) eqn:Hpc; try done. intros [= <-]. by constructor.
  - destruct (bs_pc s); intros [= <-]; by constructor.
  - destruct (bs_pc s); (case_bool_decide as E; [done|]); intros [= <-]; by apply bstep_execute.
Qed.

Fixpoint take_bnxt_turns (q : bnxt_config) (lm : Z -> Z) (l : list bnxt_turn) (s : bnxt_system) : option bnxt_system :=
  match l with [] => Some s | t :: l' => s' ← take_bnxt_turn q lm t s; take_bnxt_turns q lm l' s' end.

Definition zero_ring (k : Z) : list Z := repeat 0 16.
Definition bnxt_fresh : bnxt_system := bnxt_start zero_ring (fun _ => 0).


Definition bnxt_at (q : bnxt_config) (l : list bnxt_turn) : bnxt_system :=
  default bnxt_fresh (take_bnxt_turns q (fun a => a mod 251) l bnxt_fresh).


Definition ring_of (depth threshold : Z) : bnxt_config := {|
  bx_depth := depth; bx_id := 77; bx_mtu := 1024; bx_msn_tbl_sz := depth; bx_psn_sz_log2 := 3;
  bx_cq_depth := 8; bx_cq_id := 5; bx_lkey := 6; bx_rkey := 7; bx_inline_threshold := threshold;
  bx_op_rdma_write := 4; bx_op_rdma_write_imm := 5; bx_op_rdma_read := 6; bx_op_atomic_fa := 11; bx_op_atomic_cs := 8; bx_fetching := 8192; bx_fetching_lkey := 8;
  bx_nonfetching := 4096; bx_nonfetching_lkey := 9
|}.



(** The default queue: 2048 slots and 256 completions, which is not room of
    its own ([default_cq_too_small]). *)
Definition default_ring : bnxt_config := {|
  bx_depth := 2048; bx_id := 77; bx_mtu := 1024; bx_msn_tbl_sz := 2048; bx_psn_sz_log2 := 3;
  bx_cq_depth := 256; bx_cq_id := 5; bx_lkey := 6; bx_rkey := 7; bx_inline_threshold := 28;
  bx_op_rdma_write := 4; bx_op_rdma_write_imm := 5; bx_op_rdma_read := 6; bx_op_atomic_fa := 11; bx_op_atomic_cs := 8; bx_fetching := 8192; bx_fetching_lkey := 8;
  bx_nonfetching := 4096; bx_nonfetching_lkey := 9
|}.

Lemma default_ring_ok : bnxt_ok default_ring.
Proof. split; cbn; [lia|by exists 96|lia|lia]. Qed.

(** A schedule along which the caller keeps room. *)
Definition keeps_roomb (q : bnxt_config) (s : bnxt_system) : bool :=
  (3 * (bnxt_posted s - bnxt_consumed s) <? bx_depth q) && (bnxt_posted s - bnxt_consumed s <=? bx_cq_depth q).

Fixpoint take_roomy_turns (q : bnxt_config) (lm : Z -> Z) (l : list bnxt_turn) (s : bnxt_system) : option bnxt_system :=
  match l with
  | [] => Some s
  | t :: l' => s' ← take_bnxt_turn q lm t s; if keeps_roomb q s' then take_roomy_turns q lm l' s' else None
  end.

Definition roomy_at (q : bnxt_config) (l : list bnxt_turn) : bnxt_system :=
  default bnxt_fresh (take_roomy_turns q (fun a => a mod 251) l bnxt_fresh).

Lemma take_roomy_turns_reach q lm l : forall s s', take_roomy_turns q lm l s = Some s' ->
  rtc (fun a b => bnxt_step q lm a b /\ (own_room q \/ keeps_room q b)) s s'.
Proof.
  induction l as [|t l IH]; intros s s'; cbn; [by intros [= ->]|].
  destruct (take_bnxt_turn q lm t s) as [s1|] eqn:E; [|done]. cbn.
  destruct (keeps_roomb q s1) eqn:Ek; [|done]. intros H. eapply rtc_l; [|by apply IH].
  split; [by eapply take_bnxt_turn_step|]. right. unfold keeps_roomb in Ek. bool_to_prop. by split.
Qed.

Lemma roomy_at_reachable q l : bnxt_roomy q (fun a => a mod 251) (roomy_at q l).
Proof.
  exists zero_ring, (fun _ => 0). unfold roomy_at. fold bnxt_fresh.
  destruct (take_roomy_turns q _ l bnxt_fresh) as [s|] eqn:E; [|done]. by apply take_roomy_turns_reach in E.
Qed.

Definition a_put (length laddr : Z) : bnxt_request := Rma length laddr 70000 4 0.
Definition put_once (length laddr : Z) : list bnxt_turn := [TCall (BPost (a_put length laddr) [] true); TTurn; TTurn].



(** The same on the default queue, where there is room without waiting. *)
Definition default_puts : list bnxt_turn :=
  List.concat (map (fun i => put_once 100 (1000 + 16 * Z.of_nat i)) (seq 0 5)) ++ repeat TNic 3
  ++ [TCall (BPost (a_put 100 3000) [a_put 100 4000] true)] ++ repeat TTurn 4
  ++ repeat TNic 4 ++ [TCall BQuiet].


Lemma bnxt_wait_ends_witness :
  exists s', rtc (bnxt_step default_ring (fun a => a mod 251)) (roomy_at default_ring default_puts) s'
    /\ bs_pc s' = BReady BQuiet.
Proof.
  assert (Hf : few_entries (roomy_at default_ring default_puts)) by (vm_compute; reflexivity).
  assert (Hs : bs_stop (roomy_at default_ring default_puts) = false) by (vm_compute; reflexivity).
  assert (Hp : bs_pc (roomy_at default_ring default_puts)
    = BPolling BQuiet {| lo_cons := 0; lo_epoch := 0; lo_dirty := false; lo_count := 0 |}) by (vm_compute; reflexivity).
  assert (Hd : db_position (bq_sq_db (bs_qp (roomy_at default_ring default_puts)))
    = position default_ring (bnxt_posted (roomy_at default_ring default_puts))) by (vm_compute; reflexivity).
  destruct (bnxt_wait_ends _ _ default_ring_ok _ _ _ (roomy_at_reachable default_ring default_puts) Hf Hs Hp Hd)
    as (s' & R & P & _).
  exists s'. split; [exact R|exact P].
Defined.

Lemma bnxt_entry_meaning_witness :
  let ring' := bq_ring (write_rma_wqe (ring_of 16 28) (fun a => a mod 251) 0 28 1000 70000 4 0 (bs_qp bnxt_fresh)) in
  exists e, bnxt_reads (bnxt_entry_at (ring_of 16 28) 0 ring') = Some e /\ ne_length e = 28
    /\ ne_payload e = Inline (map (fun i => (1000 + Z.of_nat i) mod 251) (seq 0 16))
    /\ take 12 (ring' 3) = map (fun i => (1000 + Z.of_nat i) mod 251) (seq 16 12).
Proof.
  destruct (bnxt_entry_meaning (ring_of 16 28) (fun a => a mod 251) 0 28 1000 70000 4 0 (bs_qp bnxt_fresh))
    as (e & E & F & _ & _ & P & D); try (cbn; lia).
  exists e. split; [exact E|]. split; [by injection F|]. split; [exact P|]. exact (D eq_refl).
Defined.

(** ** Where the code falls short *)

(** A ring of a multiple of three slots: when every slot is taken the tail is
    at the head again, all slots are reported free, and the next entry goes
    over one the NIC has not executed.  The sizes are such with up to 16 bytes
    of inline data ([compute_sq]). *)
Definition overrun : list bnxt_turn := put_once 100 1000 ++ put_once 100 2000 ++ put_once 100 3000 ++ [TNic].

Lemma full_looks_empty :
  (exists w, bs_executed (bnxt_at (ring_of 6 28) overrun) !! 0%nat = Some w
     /\ bs_posted (bnxt_at (ring_of 6 28) overrun) !! 2%nat = Some w
     /\ bs_posted (bnxt_at (ring_of 6 28) overrun) !! 0%nat <> Some w)
  /\ bs_stop (bnxt_at (ring_of 6 28) overrun) = false
  /\ sq_slots (compute_sq 4096 256 1 16) mod 3 = 0.
Proof.
  split; [|by vm_compute]. eexists. split; [vm_compute; reflexivity|]. split; [vm_compute; reflexivity|]. by vm_compute.
Qed.

(** The data of an inline entry at slot [k], as long as it is. *)
Definition inline_data (k : Z) (n : nat) (ring : Z -> list Z) : list Z := take n (ring k ++ ring (k + 1)).

(** Inline data is allowed up to 28 bytes, but an entry has 16 for it: the rest
    is where the next entry begins.  A second put, before the NIC has read the
    first, replaces it. *)
Lemma inline_overwritten :
  let once := bnxt_at (ring_of 16 28) (put_once 28 1000) in
  let twice := bnxt_at (ring_of 16 28) (put_once 28 1000 ++ put_once 28 2000) in
  inline_data 2 28 (bq_ring (bs_qp once)) = map (fun i => (1000 + Z.of_nat i) mod 251) (seq 0 28)
  /\ inline_data 2 28 (bq_ring (bs_qp twice)) <> inline_data 2 28 (bq_ring (bs_qp once))
  /\ bs_executed twice = [].
Proof. by vm_compute. Qed.

(** In the last slots of the ring the rest is behind the ring: there the
    sizes put the table of sequence numbers. *)
Definition put_and_quiet : list bnxt_turn := put_once 100 1000 ++ [TNic; TCall BQuiet; TTurn; TTurn; TTurn].
Definition fifteen : list bnxt_turn := List.concat (repeat put_and_quiet 15).

Lemma inline_leaves_ring :
  bq_tail (bs_qp (bnxt_at (ring_of 16 28) fifteen)) = 13
  /\ bq_ring (bs_qp (bnxt_at (ring_of 16 28) fifteen)) 16 = repeat 0 16
  /\ bq_ring (bs_qp (bnxt_at (ring_of 16 28) (fifteen ++ put_once 28 1000))) 16 <> repeat 0 16
  /\ msn_off (compute_sq 4096 256 1 28) = 16 * sq_slots (compute_sq 4096 256 1 28).
Proof. by vm_compute. Qed.

(** A stop request lets a post through without room, and the entry is written
    all the same, over one that waits. *)
Definition stopped_run : list bnxt_turn :=
  List.concat (map (fun i => put_once 100 (1000 + 16 * Z.of_nat i)) (seq 0 5)) ++ [TStop] ++ put_once 100 9000 ++ [TNic].

Lemma stop_overwrites :
  exists w, bs_executed (bnxt_at (ring_of 16 28) stopped_run) !! 0%nat = Some w
    /\ bs_posted (bnxt_at (ring_of 16 28) stopped_run) !! 0%nat <> Some w.
Proof. eexists. split; [vm_compute; reflexivity|]. by vm_compute. Qed.

(** With the default depths the send queue takes more entries than the
    completion queue, which is made for 256, has room for their completions. *)
Lemma default_cq_too_small : 3 * 256 < sq_slots (compute_sq 4096 256 1 28).
Proof. by vm_compute. Qed.

(** A put of 2 GiB has a negative length, which is below the threshold: it is
    inline, and the copy is given the length as a [size_t]. *)
Lemma huge_put_inline :
  put_nbi (ring_of 16 28) 70000 1000 2147483648 = Rma (-2147483648) 1000 70000 4 0
  /\ is_inline (ring_of 16 28) (-2147483648) 4 = true /\ u64 (-2147483648) = 18446744071562067968.
Proof. by vm_compute. Qed.
