(* ===== verification/Ionic.v ===== *)
(** * The ionic queue pair of the RDMA endpoint

    Device code of [src/src/endpoints/rdma-ep/ionic/ionic-queue-pair.hip]: any
    number of waves share one send queue.  A wave reserves entries with one
    atomic addition, waits until the queue has room, writes its entries lane
    by lane, each published by the store of its flags, and commits: the
    doorbell is rung under a lock, and only forward.  Waiting polls the
    completion queue under another lock, or watches the one collapsed
    completion.  The state of a wave is a program counter, one step per
    access the others can see; the lanes of a wave run in lockstep from one
    phase to the next and in any order within it.

    The NIC is hardware: it executes the entries below the doorbell in order,
    once their colour is that of the round, and completes those that ask for
    it. *)

From S2P Require Import Prelude Endian.

(** ** Entries and completions ([ionic-fw.h]) *)

Definition IONIC_V1_FLAG_INL : Z := Z.shiftl 1 2.
Definition IONIC_V1_FLAG_SIG : Z := Z.shiftl 1 3.
Definition IONIC_V1_FLAG_COLOR : Z := Z.shiftl 1 4.
Definition IONIC_V1_CQE_COLOR : Z := Z.shiftl 1 0.
Definition IONIC_V1_CQE_ERROR : Z := Z.shiftl 1 1.

Record ionic_v1_base_hdr := {
  wqe_idx : Z; op : Z; num_sge_key : Z; hdr_flags : Z; imm_data_key : Z
}.

(** [Unset]: an entry without data; what the slot held stays. *)
Inductive ionic_v1_pld := Sge (va len sge_lkey : Z) | Data (bytes : list Z) | Unset.

Inductive ionic_v1_body :=
| Common (remote_va_high remote_va_low remote_rkey length : Z) (pld : ionic_v1_pld)
| AtomicV2 (remote_va_high remote_va_low remote_rkey swap_add_high swap_add_low
            compare_high compare_low amo_lkey local_va : Z).

Record ionic_v1_wqe := { base : ionic_v1_base_hdr; body : ionic_v1_body }.

Record ionic_v1_cqe := { msg_msn : Z; qid_type_flags : Z }.

(** ** Members that do not change, set by [ionic_initialize_gpu_qp]

    [db_decodes i]: the NIC takes a store to the [i]-th word of the doorbell
    page for this queue's doorbell; the single-lane path stores to word
    [8 * lane]. *)
Record ionic_config := {
  ionic_cq_mask : Z; ionic_cq_dbval : Z; ionic_sq_mask : Z; ionic_sq_dbval : Z;
  ionic_lkey : Z; ionic_rkey : Z; ionic_inline_threshold : Z;
  op_rdma_write : Z; op_rdma_write_imm : Z;
  amo_buf : Z; amo_buf_lkey : Z; fetch_buf : Z; fetch_buf_lkey : Z;
  db_decodes : Z -> bool
}.
Definition fetch_buf_cnt : Z := 1024.

(** What a lane asks for. *)
Inductive ionic_request :=
| Put (nelems laddr raddr opcode imm_data : Z)
| Amo (raddr opcode atomic_data atomic_cmp : Z) (fetching : bool).

Definition fetches (r : ionic_request) : bool := match r with Amo _ _ _ _ f => f | _ => false end.

(** [int32_t]. *)
Definition s32 (x : Z) : Z := u32 (x + 2147483648) - 2147483648.

Section Config.
Context (q : ionic_config) (lm : Z -> Z).

(** ** Writing an entry *)

Definition wqe_color (pos : Z) : Z :=
  if Z.land pos (ionic_sq_mask q + 1) =? 0 then to_be 2 IONIC_V1_FLAG_COLOR else 0.
Definition wqe_sig (last : bool) : Z := if last then to_be 2 IONIC_V1_FLAG_SIG else 0.

Definition put_is_write (opcode : Z) : bool := (opcode =? op_rdma_write q) || (opcode =? op_rdma_write_imm q).
(** A write without a source sends one byte. *)
Definition put_size (nelems laddr opcode : Z) : Z :=
  let size := s32 nelems in
  if negb (size =? 0) && (laddr =? 0) && put_is_write opcode then 1 else size.
Definition put_inline (opcode size : Z) : bool :=
  negb (size =? 0) && put_is_write opcode && (size <=? s32 (ionic_inline_threshold q)).

(** The bytes [memcpy] takes: its size is a [size_t]. *)
Definition inline_bytes (laddr size : Z) : list Z :=
  if laddr =? 0 then [1]
  else map (fun i => lm (laddr + Z.of_nat i)) (seq 0 (Z.to_nat (u64 size))).

Definition put_wqe (pos : Z) (last : bool) (nelems laddr raddr opcode imm_data : Z) : ionic_v1_wqe :=
  let size := put_size nelems laddr opcode in
  let inl := put_inline opcode size in
  let fl := Z.lor (wqe_color pos) (wqe_sig last) in
  {| base := {| wqe_idx := pos; op := opcode;
                num_sge_key := if inl then 0 else if size =? 0 then 0 else 1;
                hdr_flags := if inl then Z.lor fl (to_be 2 IONIC_V1_FLAG_INL) else fl;
                imm_data_key := to_be 4 (u32 imm_data) |};
     body := Common (to_be 4 (u32 (Z.shiftr raddr 32))) (to_be 4 (u32 raddr)) (to_be 4 (ionic_rkey q))
               (to_be 4 (u32 size))
               (if size =? 0 then Unset
                else if inl then Data (inline_bytes laddr size)
                else Sge (to_be 8 laddr) (to_be 4 (u32 size)) (to_be 4 (ionic_lkey q))) |}.

(** [idx]: what the first lane read of the counter of fetching atomics;
    [lane]: the place of the lane among those of the wave. *)
Definition fetch_slot (idx lane : Z) : Z := idx mod fetch_buf_cnt + lane.

Definition amo_wqe (pos : Z) (last : bool) (idx lane raddr opcode atomic_data atomic_cmp : Z)
    (fetching : bool) : ionic_v1_wqe :=
  {| base := {| wqe_idx := pos; op := opcode; num_sge_key := 1;
                hdr_flags := Z.lor (wqe_color pos) (wqe_sig last);
                imm_data_key := to_be 4 0 |};
     body := AtomicV2 (to_be 4 (u32 (Z.shiftr raddr 32))) (to_be 4 (u32 raddr)) (to_be 4 (ionic_rkey q))
               (to_be 4 (u32 (Z.shiftr atomic_data 32))) (to_be 4 (u32 atomic_data))
               (to_be 4 (u32 (Z.shiftr atomic_cmp 32))) (to_be 4 (u32 atomic_cmp))
               (to_be 4 (if fetching then fetch_buf_lkey q else amo_buf_lkey q))
               (to_be 8 (if fetching then u64 (fetch_buf q + 8 * fetch_slot idx lane) else amo_buf q)) |}.

Definition ionic_wqe (pos : Z) (last : bool) (idx lane : Z) (r : ionic_request) : ionic_v1_wqe :=
  match r with
  | Put nelems laddr raddr opcode imm_data => put_wqe pos last nelems laddr raddr opcode imm_data
  | Amo raddr opcode atomic_data atomic_cmp fetching =>
      amo_wqe pos last idx lane raddr opcode atomic_data atomic_cmp fetching
  end.

(** Everything but the flags, which keep what the slot held; then the flags. *)
Definition write_body (w old : ionic_v1_wqe) : ionic_v1_wqe :=
  {| base := {| wqe_idx := wqe_idx (base w); op := op (base w); num_sge_key := num_sge_key (base w);
                hdr_flags := hdr_flags (base old); imm_data_key := imm_data_key (base w) |};
     body := body w |}.
Definition write_flags (w old : ionic_v1_wqe) : ionic_v1_wqe :=
  {| base := {| wqe_idx := wqe_idx (base old); op := op (base old); num_sge_key := num_sge_key (base old);
                hdr_flags := hdr_flags (base w); imm_data_key := imm_data_key (base old) |};
     body := body old |}.
End Config.

(** ** The shared state *)

Record ionic_sq := {
  ionic_sq_buf : Z -> ionic_v1_wqe; sq_prod : Z; sq_dbprod : Z; ionic_sq_lock : bool;
  sq_dbreg : Z; fetching_atomic_idx : Z
}.
Record ionic_cq := {
  ionic_cq_buf : Z -> ionic_v1_cqe; ionic_cq_lock : bool; cq_pos : Z; cq_dbpos : Z; cq_dbreg : Z;
  sq_msn : Z
}.

(** ** Waves

    [wv_lane] is the lane number of the first lane, [wv_lanes] how many take
    part; [wv_single]: the single-lane path.  [wv_start] is the number of
    entries reserved before, without wrap-around (ghost). *)

(** What follows a wait: writing the entries, or returning to the caller. *)
Inductive after_wait := ThenWrite | ThenReturn.

Inductive lane_pc := NotWritten | BodyWritten | FlagsWritten.

(** [upto]: the [cons] waited for.  [Taking]: a lane has read a completion and
    not yet stored.  [Contending]: one lane of the wave has the doorbell's lock,
    the others are in the loop for it. *)
Inductive io_wave_pc :=
| Waiting (k : after_wait) (upto : Z)
| Polling (k : after_wait) (upto lane : Z)
| Taking (k : after_wait) (upto lane my_cq_pos msn : Z)
| Indexing (idx : option Z)
| Writing (idx : Z) (lanes : list lane_pc)
| Committing (idx : Z)
| Contending (idx : Z)
| Ringing (idx : Z)
| Over
| Aborted (k : after_wait).

Record wave := {
  wv_lane : Z; wv_lanes : Z; wv_single : bool; wv_requests : list ionic_request; wv_start : Z;
  wv_pc : io_wave_pc
}.
Definition wv_n (w : wave) : Z := Z.of_nat (length (wv_requests w)).
Definition goto (w : wave) (pc : io_wave_pc) : wave :=
  {| wv_lane := wv_lane w; wv_lanes := wv_lanes w; wv_single := wv_single w;
     wv_requests := wv_requests w; wv_start := wv_start w; wv_pc := pc |}.

(** The counter the wave reserved, [my_sq_prod]. *)
Definition my_sq_prod (w : wave) : Z := u32 (wv_start w).

(** [(msn - upto) & 0x800000] *)
Definition behind (msn upto : Z) : bool := negb (Z.land (u32 (msn - upto)) 8388608 =? 0).

Section Device.
Context (q : ionic_config) (lm : Z -> Z).

Definition set_sq_buf (f : Z -> ionic_v1_wqe) (s : ionic_sq) : ionic_sq :=
  {| ionic_sq_buf := f; sq_prod := sq_prod s; sq_dbprod := sq_dbprod s; ionic_sq_lock := ionic_sq_lock s;
     sq_dbreg := sq_dbreg s; fetching_atomic_idx := fetching_atomic_idx s |}.
Definition set_fetching_idx (v : Z) (s : ionic_sq) : ionic_sq :=
  {| ionic_sq_buf := ionic_sq_buf s; sq_prod := sq_prod s; sq_dbprod := sq_dbprod s;
     ionic_sq_lock := ionic_sq_lock s; sq_dbreg := sq_dbreg s; fetching_atomic_idx := v |}.
Definition set_cq_lock (b : bool) (c : ionic_cq) : ionic_cq :=
  {| ionic_cq_buf := ionic_cq_buf c; ionic_cq_lock := b; cq_pos := cq_pos c; cq_dbpos := cq_dbpos c;
     cq_dbreg := cq_dbreg c; sq_msn := sq_msn c |}.

(** [reserve_sq]: the addition, and the position the wave then waits for. *)
Definition reserve_sq (n : Z) (s : ionic_sq) : ionic_sq :=
  {| ionic_sq_buf := ionic_sq_buf s; sq_prod := u32 (sq_prod s + n); sq_dbprod := sq_dbprod s;
     ionic_sq_lock := ionic_sq_lock s; sq_dbreg := sq_dbreg s;
     fetching_atomic_idx := fetching_atomic_idx s |}.
Definition room_cons (prod n : Z) : Z := u32 (prod + n - ionic_sq_mask q).

(** [poll_wave_cqes], by the lane that holds the lock: what it reads, *)
Inductive cqe_read := NoCqe | CqeError | Cqe (my_cq_pos msn : Z).
Definition poll_wave_cqes (lane : Z) (c : ionic_cq) : cqe_read :=
  let my_cq_pos := u32 (cq_pos c + lane) in
  let cqe := ionic_cq_buf c (Z.land my_cq_pos (ionic_cq_mask q)) in
  let color := to_be 4 IONIC_V1_CQE_COLOR in
  let color_exp := if Z.land my_cq_pos (ionic_cq_mask q + 1) =? 0 then color else 0 in
  if negb (Z.land (qid_type_flags cqe) color =? color_exp) then NoCqe else
  if negb (Z.land (qid_type_flags cqe) (to_be 4 IONIC_V1_CQE_ERROR) =? 0) then CqeError else
  Cqe my_cq_pos (from_be 4 (msg_msn cqe)).

(** and what it stores. *)
Definition take_cqe (my_cq_pos msn : Z) (c : ionic_cq) : ionic_cq :=
  let pos := u32 (my_cq_pos + 1) in
  let ring := 100 <=? Z.land (u32 (pos - cq_dbpos c)) (ionic_cq_mask q) in
  {| ionic_cq_buf := ionic_cq_buf c; ionic_cq_lock := ionic_cq_lock c; cq_pos := pos;
     cq_dbpos := if ring then pos else cq_dbpos c;
     cq_dbreg := if ring then Z.lor (ionic_cq_dbval q) (Z.land (ionic_cq_mask q) pos) else cq_dbreg c;
     sq_msn := msn |}.

(** Where a wave goes when its wait is over. *)
Definition idle_lanes (w : wave) : list lane_pc := map (fun _ => NotWritten) (wv_requests w).
Definition proceed (k : after_wait) (w : wave) : wave :=
  match k with
  | ThenReturn => goto w Over
  | ThenWrite =>
      if forallb fetches (wv_requests w) then goto w (Indexing None)
      else goto w (Writing 0 (idle_lanes w))
  end.

(** A wave's choice: the lane that comes first, or to look at
    [stopRequested_], which is asked now and then. *)
Inductive choice := Lane (lane : nat) | SeeStop.

Definition chosen (ch : choice) : Z := match ch with Lane i => Z.of_nat i | SeeStop => 0 end.

(** [quiet_internal], [quiet_internal_ccqe]: one turn of the loop outside the
    lock. *)
Definition wait_turn (ch : choice) (stop : bool) (k : after_wait) (upto : Z) (w : wave) (c : ionic_cq)
    : ionic_cq * wave :=
  if ionic_cq_mask q =? 0 then
    let cqe := ionic_cq_buf c 0 in
    if negb (Z.land (qid_type_flags cqe) (to_be 4 IONIC_V1_CQE_ERROR) =? 0) then (c, goto w (Aborted k))
    else if behind (from_be 4 (msg_msn cqe)) upto then (c, w)
    else (c, proceed k w)
  else if negb (behind (sq_msn c) upto) then (c, proceed k w)
  else match ch with
    | SeeStop => if stop then (c, proceed k w) else (c, w)
    | Lane i =>
        if ionic_cq_lock c || (wv_lanes w <=? Z.of_nat i) then (c, w)
        else (set_cq_lock true c, goto w (Polling k upto (Z.of_nat i)))
    end.

(** One turn of the loop under the lock. *)
Definition locked_turn (ch : choice) (stop : bool) (k : after_wait) (upto lane : Z) (w : wave) (c : ionic_cq)
    : ionic_cq * wave :=
  if negb (behind (sq_msn c) upto) then (set_cq_lock false c, proceed k w)
  else match ch with
    | SeeStop => if stop then (set_cq_lock false c, proceed k w) else (c, w)
    | Lane _ =>
        match poll_wave_cqes lane c with
        | NoCqe => (c, w)
        | CqeError => (c, goto w (Aborted k))
        | Cqe p msn => (c, goto w (Taking k upto lane p msn))
        end
    end.

(** A lane writes the body of its entry, then its flags. *)
Definition lane_entry (w : wave) (idx : Z) (i : nat) (r : ionic_request) : ionic_v1_wqe :=
  ionic_wqe q lm (u32 (wv_start w + Z.of_nat i)) (Z.of_nat i + 1 =? wv_n w) idx (Z.of_nat i) r.

Definition lane_store (w : wave) (idx : Z) (i : nat) (f : ionic_v1_wqe -> ionic_v1_wqe -> ionic_v1_wqe)
    (r : ionic_request) (buf : Z -> ionic_v1_wqe) : Z -> ionic_v1_wqe :=
  let k := Z.land (u32 (wv_start w + Z.of_nat i)) (ionic_sq_mask q) in
  fun j => if j =? k then f (lane_entry w idx i r) (buf k) else buf j.

Definition write_turn (ch : choice) (idx : Z) (lanes : list lane_pc) (w : wave) (s : ionic_sq)
    : ionic_sq * wave :=
  let i := match ch with Lane i => i | SeeStop => O end in
  match lanes !! i, wv_requests w !! i with
  | Some NotWritten, Some r =>
      (set_sq_buf (lane_store w idx i write_body r (ionic_sq_buf s)) s,
       goto w (Writing idx (<[i := BodyWritten]> lanes)))
  | Some BodyWritten, Some r =>
      (set_sq_buf (lane_store w idx i write_flags r (ionic_sq_buf s)) s,
       goto w (Writing idx (<[i := FlagsWritten]> lanes)))
  | _, _ =>
      if forallb (fun l => match l with FlagsWritten => true | _ => false end) lanes
      then (s, goto w (Committing idx)) else (s, w)
  end.

(** [commit_sq]: the critical section, up to the doorbell, *)
Definition after_commit (w : wave) : wave :=
  if forallb fetches (wv_requests w)
  then goto w (Waiting ThenReturn (u32 (my_sq_prod w + wv_n w)))
  else goto w Over.

Definition take_sq_lock (dbprod : Z) (s : ionic_sq) : ionic_sq :=
  {| ionic_sq_buf := ionic_sq_buf s; sq_prod := sq_prod s; sq_dbprod := dbprod; ionic_sq_lock := true;
     sq_dbreg := sq_dbreg s; fetching_atomic_idx := fetching_atomic_idx s |}.

(** Every lane of the wave is in [ionic_lock_acquire], and the lanes leave its
    loop together: with more than one of them, the lane whose exchange finds
    the lock free waits for the others, which wait for the lock. *)
Definition commit_sq (idx : Z) (w : wave) (s : ionic_sq) : ionic_sq * wave :=
  let dbprod := u32 (my_sq_prod w + wv_n w) in
  if ionic_sq_lock s then (s, w) else
  if 1 <? wv_lanes w then (take_sq_lock (sq_dbprod s) s, goto w (Contending idx)) else
  if Z.land (u32 (sq_dbprod s - dbprod)) 2147483648 =? 0 then (s, after_commit w) else
  (take_sq_lock dbprod s, goto w (Ringing idx)).

(** and the doorbell: [ring_doorbell] stores for the active lanes below 32,
    [activemask] being an [uint32_t]; [ring_doorbell_single] stores to the
    lane's word. *)
Definition rings (w : wave) : bool :=
  if wv_single w then db_decodes q (8 * wv_lane w) else wv_lane w <? 32.
Definition ring_doorbell_at (pos : Z) (w : wave) (s : ionic_sq) : ionic_sq :=
  {| ionic_sq_buf := ionic_sq_buf s; sq_prod := sq_prod s; sq_dbprod := sq_dbprod s; ionic_sq_lock := false;
     sq_dbreg := if rings w then Z.lor (ionic_sq_dbval q) (Z.land (ionic_sq_mask q) pos) else sq_dbreg s;
     fetching_atomic_idx := fetching_atomic_idx s |}.

(** One step of a wave. *)
Definition io_wave_turn (ch : choice) (stop : bool) (w : wave) (s : ionic_sq) (c : ionic_cq)
    : ionic_sq * ionic_cq * wave :=
  match wv_pc w with
  | Waiting k upto => let '(c', w') := wait_turn ch stop k upto w c in (s, c', w')
  | Polling k upto lane => let '(c', w') := locked_turn ch stop k upto lane w c in (s, c', w')
  | Taking k upto lane p msn => (s, take_cqe p msn c, goto w (Polling k upto lane))
  | Indexing None => (s, c, goto w (Indexing (Some (fetching_atomic_idx s))))
  | Indexing (Some idx) =>
      (set_fetching_idx (u32 (idx + wv_n w)) s, c, goto w (Writing idx (idle_lanes w)))
  | Writing idx lanes => let '(s', w') := write_turn ch idx lanes w s in (s', c, w')
  | Committing idx => let '(s', w') := commit_sq idx w s in (s', c, w')
  | Ringing idx => (ring_doorbell_at (u32 (my_sq_prod w + wv_n w)) w s, c, after_commit w)
  | Contending _ | Over | Aborted _ => (s, c, w)
  end.
End Device.

(** ** With the NIC *)

(** What was asked for at a position: by which of the wave's lanes, and
    whether by the last. *)
Record asked := { as_request : ionic_request; as_lane : Z; as_last : bool }.

Record ionic_system := {
  io_sq : ionic_sq; io_cq : ionic_cq; io_stop : bool; io_waves : list wave;
  io_asked : list asked; io_executed : list ionic_v1_wqe; io_signaled : list Z
}.

(** [post_wqe_rma], [post_wqe_amo] by the lanes of a wave that address this
    queue; their single-lane forms; [quiet] and [quiet_single]. *)
Inductive ionic_call :=
| Post (single : bool) (lane : Z) (l : list ionic_request)
| Quiet (single : bool) (lane lanes : Z).

Definition call_lanes (c : ionic_call) : Z :=
  match c with Post _ _ l => Z.of_nat (length l) | Quiet _ _ lanes => lanes end.
Definition call_requests (c : ionic_call) : list ionic_request :=
  match c with Post _ _ l => l | Quiet _ _ _ => [] end.
Definition call_single (c : ionic_call) : bool := match c with Post b _ _ | Quiet b _ _ => b end.
Definition call_lane (c : ionic_call) : Z := match c with Post _ k _ | Quiet _ k _ => k end.

(** What the callers keep to: [fetching] is the same in all lanes of a call,
    and the single-lane fetching atomic, which waits on the collapsed
    completion whatever the mask, is called only in that mode. *)
Record call_ok (q : ionic_config) (c : ionic_call) : Prop := {
  co_lanes : 1 <= call_lanes c <= 64; co_lane : 0 <= call_lane c < 64;
  co_single : call_single c = true -> call_lanes c = 1;
  co_fetching : forallb fetches (call_requests c) = true \/ existsb fetches (call_requests c) = false;
  co_collapsed : call_single c = true -> existsb fetches (call_requests c) = true -> ionic_cq_mask q = 0
}.

Definition asked_by (l : list ionic_request) : list asked :=
  imap (fun i r => {| as_request := r; as_lane := Z.of_nat i;
                      as_last := Z.of_nat i + 1 =? Z.of_nat (length l) |}) l.

Definition asked_count (s : ionic_system) : Z := Z.of_nat (length (io_asked s)).
Definition executed_count (s : ionic_system) : Z := Z.of_nat (length (io_executed s)).
Definition signaled_count (s : ionic_system) : Z := Z.of_nat (length (io_signaled s)).

Section System.
Context (q : ionic_config) (lm : Z -> Z).

Definition new_wave (c : ionic_call) (s : ionic_system) : wave :=
  let n := Z.of_nat (length (call_requests c)) in
  {| wv_lane := call_lane c; wv_lanes := call_lanes c; wv_single := call_single c;
     wv_requests := call_requests c; wv_start := asked_count s;
     wv_pc := match c with
              | Post _ _ _ => Waiting ThenWrite (room_cons q (sq_prod (io_sq s)) n)
              | Quiet _ _ _ => Waiting ThenReturn (sq_prod (io_sq s))
              end |}.

Definition call_wave (c : ionic_call) (s : ionic_system) : ionic_system :=
  {| io_sq := reserve_sq (Z.of_nat (length (call_requests c))) (io_sq s); io_cq := io_cq s;
     io_stop := io_stop s; io_waves := io_waves s ++ [new_wave c s];
     io_asked := io_asked s ++ asked_by (call_requests c);
     io_executed := io_executed s; io_signaled := io_signaled s |}.

Definition live (w : wave) : bool := match wv_pc w with Over => false | _ => true end.

(** No wave in flight is overtaken by four million entries: what the 24-bit
    and 32-bit comparisons can tell apart. *)
Definition not_overtaken (n : Z) (s : ionic_system) : Prop :=
  forall w, w ∈ io_waves s -> live w = true -> asked_count s + n - wv_start w <= 4194304.

Definition turn_wave (i : nat) (w : wave) (ch : choice) (s : ionic_system) : ionic_system :=
  let '(sq', cq', w') := io_wave_turn q lm ch (io_stop s) w (io_sq s) (io_cq s) in
  {| io_sq := sq'; io_cq := cq'; io_stop := io_stop s; io_waves := <[i := w']> (io_waves s);
     io_asked := io_asked s; io_executed := io_executed s; io_signaled := io_signaled s |}.

(** The colour of round [pos / size] of a queue with this mask. *)
Definition round_color (mask pos : Z) : bool := negb (Z.odd (pos / (mask + 1))).

Definition nic_slot (s : ionic_system) : ionic_v1_wqe :=
  ionic_sq_buf (io_sq s) (executed_count s mod (ionic_sq_mask q + 1)).
Definition nic_flag (w : ionic_v1_wqe) (flag : Z) : bool :=
  negb (Z.land (from_be 2 (hdr_flags (base w))) flag =? 0).

Definition nic_ready (s : ionic_system) : bool :=
  negb (Z.land (sq_dbreg (io_sq s)) (ionic_sq_mask q) =? executed_count s mod (ionic_sq_mask q + 1))
  && Bool.eqb (nic_flag (nic_slot s) IONIC_V1_FLAG_COLOR) (round_color (ionic_sq_mask q) (executed_count s)).

(** A completion of the entry at position [n], the [c]-th: the count of
    executed entries, 24 bits of which count, and the colour. *)
Definition nic_cqe (c n : Z) (err : bool) (cqe : ionic_v1_cqe) : Prop :=
  (exists m, 0 <= m < 4294967296 /\ m mod 16777216 = (n + 1) mod 16777216 /\ msg_msn cqe = to_be 4 m) /\
  exists f, 0 <= f < 4294967296 /\ qid_type_flags cqe = to_be 4 f /\
    Z.testbit f 0 = round_color (ionic_cq_mask q) c /\ Z.testbit f 1 = err.

Definition nic_execute (err : bool) (cqe : ionic_v1_cqe) (s : ionic_system) : ionic_system :=
  let done_ := io_executed s ++ [nic_slot s] in
  if nic_flag (nic_slot s) IONIC_V1_FLAG_SIG || err then
    {| io_sq := io_sq s;
       io_cq := {| ionic_cq_buf := fun j => if j =? signaled_count s mod (ionic_cq_mask q + 1) then cqe
                                            else ionic_cq_buf (io_cq s) j;
                   ionic_cq_lock := ionic_cq_lock (io_cq s); cq_pos := cq_pos (io_cq s);
                   cq_dbpos := cq_dbpos (io_cq s); cq_dbreg := cq_dbreg (io_cq s); sq_msn := sq_msn (io_cq s) |};
       io_stop := io_stop s; io_waves := io_waves s; io_asked := io_asked s; io_executed := done_;
       io_signaled := io_signaled s ++ [executed_count s + 1] |}
  else
    {| io_sq := io_sq s; io_cq := io_cq s; io_stop := io_stop s; io_waves := io_waves s;
       io_asked := io_asked s; io_executed := done_; io_signaled := io_signaled s |}.

Inductive ionic_step : ionic_system -> ionic_system -> Prop :=
| step_call s c :
    call_ok q c -> not_overtaken (Z.of_nat (length (call_requests c))) s -> ionic_step s (call_wave c s)
| step_turn s i w ch : io_waves s !! i = Some w -> ionic_step s (turn_wave i w ch s)
| step_nic s err cqe :
    nic_ready s = true -> nic_cqe (signaled_count s) (executed_count s) err cqe ->
    ionic_step s (nic_execute err cqe s)
| step_stop s :
    ionic_step s {| io_sq := io_sq s; io_cq := io_cq s; io_stop := true; io_waves := io_waves s;
                    io_asked := io_asked s; io_executed := io_executed s; io_signaled := io_signaled s |}.

(** A fresh queue pair: [ionic_initialize_gpu_qp], with zeroed queues. *)
Definition blank_entry : ionic_v1_wqe :=
  {| base := {| wqe_idx := 0; op := 0; num_sge_key := 0; hdr_flags := 0; imm_data_key := 0 |};
     body := Common 0 0 0 0 Unset |}.
Definition ionic_start : ionic_system :=
  {| io_sq := {| ionic_sq_buf := fun _ => blank_entry; sq_prod := 0; sq_dbprod := 0; ionic_sq_lock := false;
                 sq_dbreg := ionic_sq_dbval q; fetching_atomic_idx := 0 |};
     io_cq := {| ionic_cq_buf := fun _ => {| msg_msn := 0; qid_type_flags := 0 |}; ionic_cq_lock := false;
                 cq_pos := 0; cq_dbpos := 0; cq_dbreg := 0; sq_msn := 0 |};
     io_stop := false; io_waves := []; io_asked := []; io_executed := []; io_signaled := [] |}.

Definition ionic_reachable (s : ionic_system) : Prop := rtc ionic_step ionic_start s.
End System.
