(* ===== verification/IonicInv.v ===== *)
(** * The invariant of the ionic queue pair

    [ionic_inv] relates the shared memory of [Ionic] to the entries asked for
    and executed: the colours of the slots say which entries of the current
    window have been published, the counters are the low bits of positions in
    one endless sequence, the completions not yet taken are those of the
    NIC.  Every step keeps it. *)

From S2P Require Import Prelude Endian Ionic.

Arguments Z.mul : simpl never.
Arguments Z.add : simpl never.
Arguments Z.sub : simpl never.
Arguments Z.modulo : simpl never.
Arguments Z.div : simpl never.
Arguments Z.pow : simpl never.
Arguments Z.land : simpl never.
Arguments Z.lor : simpl never.
Arguments Z.testbit : simpl never.
Arguments Z.of_nat : simpl never.

(** ** Positions and their low bits *)

Lemma u32_testbit x i : 0 <= i < 32 -> Z.testbit (u32 x) i = Z.testbit x i.
Proof. intros Hi. unfold u32. change 4294967296 with (2 ^ 32). apply Z.mod_pow2_bits_low; lia. Qed.

Lemma testbit_div x i : 0 <= i -> Z.testbit x i = Z.odd (x / 2 ^ i).
Proof. intros Hi. by rewrite Z.testbit_odd, Z.shiftr_div_pow2. Qed.

Lemma mod_pow2_le x a b : 0 <= a <= b -> (x mod 2 ^ b) mod 2 ^ a = x mod 2 ^ a.
Proof.
  intros H. apply Z.mod_mod_divide.
  exists (2 ^ (b - a)). rewrite <- Z.pow_add_r by lia. f_equal. lia.
Qed.

Lemma u32_mod_pow2 x a : 0 <= a <= 32 -> u32 x mod 2 ^ a = x mod 2 ^ a.
Proof. intros H. unfold u32. change 4294967296 with (2 ^ 32). by apply mod_pow2_le. Qed.

Lemma u32_u32_add x y : u32 (u32 x + y) = u32 (x + y).
Proof. unfold u32. by rewrite Zplus_mod_idemp_l. Qed.

(** Positions that are near have different slots. *)
Lemma mod_near p p' n : 0 < n -> p < p' < p + n -> p mod n <> p' mod n.
Proof.
  intros Hn Hp E. pose proof (Z.div_mod p n ltac:(lia)). pose proof (Z.div_mod p' n ltac:(lia)).
  assert (n * (p' / n - p / n) = p' - p) by lia.
  destruct (Z.le_gt_cases (p' / n) (p / n)); nia.
Qed.

Lemma next_round p n : 0 < n -> Z.odd ((p + n) / n) = negb (Z.odd (p / n)).
Proof.
  intros Hn. replace (p + n) with (p + 1 * n) by lia. rewrite Z.div_add by lia.
  by rewrite Z.add_1_r, Z.odd_succ, <- Z.negb_odd.
Qed.

(** The 24-bit comparison, of counts less than [2^23] apart. *)
Lemma behind_spec msn upto S C :
  msn mod 16777216 = S mod 16777216 -> upto mod 16777216 = C mod 16777216 ->
  behind msn upto = Z.odd ((S - C) / 8388608).
Proof.
  intros Hm Hu. unfold behind. change 8388608 with (2 ^ 23) at 1.
  rewrite land_pow2_zero, negb_involutive, u32_testbit by lia.
  change 8388608 with (2 ^ 23). rewrite <- testbit_div by lia.
  rewrite <- (Z.mod_pow2_bits_low (msn - upto) 24) by lia.
  rewrite <- (Z.mod_pow2_bits_low (S - C) 24) by lia.
  change (2 ^ 24) with 16777216. f_equal. rewrite (Zminus_mod msn), (Zminus_mod S). by rewrite Hm, Hu.
Qed.

Lemma not_behind msn upto S C :
  msn mod 16777216 = S mod 16777216 -> upto mod 16777216 = C mod 16777216 ->
  C - S <= 8388608 -> behind msn upto = false -> C <= S.
Proof.
  intros Hm Hu Hr. rewrite (behind_spec _ _ _ _ Hm Hu). intros Ho.
  destruct (Z.le_gt_cases C S); [done|]. exfalso.
  assert ((S - C) / 8388608 = -1) as E by (symmetry; apply Z.div_unique with (S - C + 8388608); lia).
  by rewrite E in Ho.
Qed.

Lemma reached msn upto S C :
  msn mod 16777216 = S mod 16777216 -> upto mod 16777216 = C mod 16777216 ->
  C <= S < C + 8388608 -> behind msn upto = false.
Proof.
  intros Hm Hu Hr. rewrite (behind_spec _ _ _ _ Hm Hu). by rewrite Z.div_small by lia.
Qed.

(** The 32-bit comparison of doorbells. *)
Lemma doorbell_test D E :
  Z.abs (D - E) <= 2147483647 -> (Z.land (u32 (u32 D - u32 E)) 2147483648 =? 0) = (E <=? D).
Proof.
  intros Hr. change 2147483648 with (2 ^ 31). rewrite land_pow2_zero, u32_testbit, testbit_div by lia.
  assert (Hm : Z.odd ((u32 D - u32 E) / 2 ^ 31) = Z.odd ((D - E) / 2 ^ 31)).
  { rewrite <- !testbit_div by lia. rewrite <- (Z.mod_pow2_bits_low (u32 D - u32 E) 32) by lia.
    rewrite <- (Z.mod_pow2_bits_low (D - E) 32) by lia. f_equal. unfold u32. change (2 ^ 32) with 4294967296.
    by rewrite <- Zminus_mod. }
  rewrite Hm. destruct (E <=? D) eqn:Hl; bool_to_prop.
  - by rewrite Z.div_small by lia.
  - assert ((D - E) / 2 ^ 31 = -1) as -> by (symmetry; apply Z.div_unique with (D - E + 2 ^ 31); lia). done.
Qed.

(** ** What a wave owns *)

Definition waits_to_write (pc : io_wave_pc) : bool :=
  match pc with
  | Waiting ThenWrite _ | Polling ThenWrite _ _ | Taking ThenWrite _ _ _ _ | Aborted ThenWrite => true
  | _ => false
  end.

(** The entry of lane [k] is published; its body is written. *)
Definition flagged (pc : io_wave_pc) (k : nat) : Prop :=
  match pc with
  | Indexing _ => False
  | Writing _ lanes => lanes !! k = Some FlagsWritten
  | pc => waits_to_write pc = false
  end.
Definition bodied (pc : io_wave_pc) (idx : Z) (k : nat) : Prop :=
  match pc with Writing i lanes => i = idx /\ lanes !! k = Some BodyWritten | _ => False end.

Definition committed (pc : io_wave_pc) : bool :=
  match pc with
  | Waiting ThenReturn _ | Polling ThenReturn _ _ | Taking ThenReturn _ _ _ _ | Aborted ThenReturn
  | Over => true
  | _ => false
  end.

Definition holds_cq (pc : io_wave_pc) : bool :=
  match pc with Polling _ _ _ | Taking _ _ _ _ _ => true | _ => false end.
Definition holds_sq (pc : io_wave_pc) : bool := match pc with Ringing _ | Contending _ => true | _ => false end.
Definition is_taking (pc : io_wave_pc) : bool := match pc with Taking _ _ _ _ _ => true | _ => false end.
Definition aborted (pc : io_wave_pc) : bool := match pc with Aborted _ => true | _ => false end.

Definition wave_end (w : wave) : Z := wv_start w + wv_n w.

Section Inv.
Context (q : ionic_config) (lm : Z -> Z).

Definition sq_size : Z := ionic_sq_mask q + 1.
Definition cq_size : Z := ionic_cq_mask q + 1.

(** Queues the driver creates: powers of two; a completion queue as large as
    the send queue, or collapsed. *)
Record qp_ok : Prop := {
  iq_size : exists a, 1 <= a <= 21 /\ sq_size = 2 ^ a;
  iq_cq : ionic_cq_mask q = 0 \/ exists b, 6 <= b <= 31 /\ cq_size = 2 ^ b /\ sq_size <= cq_size;
  iq_dbval : Z.land (ionic_sq_dbval q) (ionic_sq_mask q) = 0
}.

(** The count a wave waits for. *)
Definition target (k : after_wait) (w : wave) : Z :=
  match k with ThenWrite => wave_end w - ionic_sq_mask q | ThenReturn => wave_end w end.

Definition pc_ok (D S : Z) (w : wave) : Prop :=
  match wv_pc w with
  | Waiting k upto => upto mod 16777216 = target k w mod 16777216
  | Polling k upto lane | Taking k upto lane _ _ =>
      upto mod 16777216 = target k w mod 16777216 /\ 0 <= lane < 64
  | Writing _ lanes => length lanes = length (wv_requests w)
  | Ringing _ => D = wave_end w
  | Contending _ => 1 < wv_lanes w
  | Over => forallb fetches (wv_requests w) = true -> wave_end w <= S
  | _ => True
  end.

Record wave_ok (P D S : Z) (w : wave) : Prop := {
  wo_start : 0 <= wv_start w;
  wo_lanes : wv_n w <= 64 /\ 1 <= wv_lanes w <= 64;
  wo_end : wave_end w <= P;
  wo_live : live w = true -> P - wv_start w <= 4194304;
  wo_room : waits_to_write (wv_pc w) = false -> wv_n w = 0 \/ wave_end w <= S + ionic_sq_mask q;
  wo_committed : committed (wv_pc w) = true -> wv_n w = 0 \/ wave_end w <= D;
  wo_some : committed (wv_pc w) = false -> 1 <= wv_n w;
  wo_pc : pc_ok D S w
}.

(** ** Slots *)

Definition slot_color (buf : Z -> ionic_v1_wqe) (p : Z) : bool :=
  nic_flag (buf (p mod sq_size)) IONIC_V1_FLAG_COLOR.
Definition sq_color (p : Z) : bool := round_color (ionic_sq_mask q) p.
Definition entry_at (p : Z) (idx : Z) (a : asked) : ionic_v1_wqe :=
  ionic_wqe q lm (u32 p) (as_last a) idx (as_lane a) (as_request a).

Record lane_ok (N : Z) (buf : Z -> ionic_v1_wqe) (pc : io_wave_pc) (k : nat) (p : Z) (a : asked) : Prop := {
  lo_flagged : flagged pc k -> N <= p -> exists idx, buf (p mod sq_size) = entry_at p idx a;
  lo_free : ~ flagged pc k -> N <= p /\ (p < N + sq_size -> slot_color buf p = negb (sq_color p));
  lo_body : forall idx, bodied pc idx k ->
    write_flags (entry_at p idx a) (buf (p mod sq_size)) = entry_at p idx a
}.

(** ** Completions *)

Definition cqe_color (c : ionic_v1_cqe) : bool := negb (Z.land (qid_type_flags c) (to_be 4 IONIC_V1_CQE_COLOR) =? 0).
Definition cqe_error (c : ionic_v1_cqe) : bool := negb (Z.land (qid_type_flags c) (to_be 4 IONIC_V1_CQE_ERROR) =? 0).
Definition cq_color (c : Z) : bool := round_color (ionic_cq_mask q) c.

Definition io_signal (l : list Z) (c : Z) : Z := default 0 (l !! Z.to_nat c).

Record signals_ok (N : Z) (l : list Z) : Prop := {
  so_range : forall c, 0 <= c < Z.of_nat (length l) -> 0 < io_signal l c <= N;
  so_mono : forall c d, 0 <= c <= d -> d < Z.of_nat (length l) -> io_signal l c + (d - c) <= io_signal l d
}.

(** The count the waves have seen: [K] completions have been taken. *)
Record ring_ok (N S K : Z) (l : list Z) (c : ionic_cq) : Prop := {
  ro_pos : cq_pos c = u32 K; ro_range : 0 <= K <= Z.of_nat (length l);
  ro_msn : sq_msn c mod 16777216 = S mod 16777216;
  ro_seen : S = if K =? 0 then 0 else io_signal l (K - 1);
  ro_full : forall j, K <= j < Z.of_nat (length l) ->
    exists err, nic_cqe q j (io_signal l j - 1) err (ionic_cq_buf c (j mod cq_size));
  ro_free : forall j, Z.of_nat (length l) <= j < K + cq_size ->
    cqe_color (ionic_cq_buf c (j mod cq_size)) = negb (cq_color j)
}.

Record collapsed_ok (S : Z) (l : list Z) (c : ionic_cq) : Prop := {
  fo_seen : S = if Z.of_nat (length l) =? 0 then 0 else io_signal l (Z.of_nat (length l) - 1);
  fo_msn : from_be 4 (msg_msn (ionic_cq_buf c 0)) mod 16777216 = S mod 16777216
}.

Definition taking_ok (K : Z) (l : list Z) (w : wave) : Prop :=
  match wv_pc w with
  | Taking _ _ _ p msn =>
      exists j, K <= j < Z.of_nat (length l) /\ p = u32 j /\ msn mod 16777216 = io_signal l j mod 16777216
  | _ => True
  end.

(** [D]: the furthest commit; [R]: the doorbell; [S]: the count of executed
    entries the waves have seen; [K]: the completions taken. *)
Record ionic_inv (s : ionic_system) (D R S K : Z) : Prop := {
  ii_prod : sq_prod (io_sq s) = u32 (asked_count s);
  ii_dbprod : sq_dbprod (io_sq s) = u32 D;
  ii_reg : Z.land (sq_dbreg (io_sq s)) (ionic_sq_mask q) = R mod sq_size;
  ii_order : 0 <= S <= executed_count s /\ executed_count s <= R <= D;
  ii_room : D <= asked_count s /\ D <= S + ionic_sq_mask q;
  ii_rang : (forall w, w ∈ io_waves s -> rings q w = true) -> ionic_sq_lock (io_sq s) = false -> R = D;
  ii_starts : forall i j w v, io_waves s !! i = Some w -> io_waves s !! j = Some v -> (i < j)%nat ->
    wave_end w <= wv_start v;
  ii_cover : forall p, 0 <= p < asked_count s -> exists i w k r, io_waves s !! i = Some w /\
    wv_requests w !! k = Some r /\ p = wv_start w + Z.of_nat k;
  ii_asked : forall i w k r, io_waves s !! i = Some w -> wv_requests w !! k = Some r ->
    io_asked s !! Z.to_nat (wv_start w + Z.of_nat k) =
    Some {| as_request := r; as_lane := Z.of_nat k; as_last := Z.of_nat k + 1 =? wv_n w |};
  ii_waves : forall i w, io_waves s !! i = Some w -> wave_ok (asked_count s) D S w;
  ii_slots : forall i w k r, io_waves s !! i = Some w -> wv_requests w !! k = Some r ->
    lane_ok (executed_count s) (ionic_sq_buf (io_sq s)) (wv_pc w) k (wv_start w + Z.of_nat k)
      {| as_request := r; as_lane := Z.of_nat k; as_last := Z.of_nat k + 1 =? wv_n w |};
  ii_free : forall p, asked_count s <= p < executed_count s + sq_size ->
    slot_color (ionic_sq_buf (io_sq s)) p = negb (sq_color p);
  ii_done : forall i w, io_executed s !! i = Some w -> exists a idx,
    io_asked s !! i = Some a /\ w = entry_at (Z.of_nat i) idx a;
  ii_signals : signals_ok (executed_count s) (io_signaled s);
  ii_last : forall i a, io_asked s !! i = Some a -> Z.of_nat i < executed_count s -> as_last a = true ->
    (Z.of_nat i + 1) ∈ io_signaled s;
  ii_ring : ionic_cq_mask q <> 0 -> ring_ok (executed_count s) S K (io_signaled s) (io_cq s);
  ii_collapsed : ionic_cq_mask q = 0 -> collapsed_ok S (io_signaled s) (io_cq s);
  ii_taking : forall i w, io_waves s !! i = Some w -> taking_ok K (io_signaled s) w;
  ii_modes : ionic_cq_mask q = 0 -> forall i w, io_waves s !! i = Some w -> holds_cq (wv_pc w) = false;
  ii_cq_lock : forall i w, io_waves s !! i = Some w -> holds_cq (wv_pc w) = true ->
    ionic_cq_lock (io_cq s) = true /\
    forall j v, io_waves s !! j = Some v -> holds_cq (wv_pc v) = true -> i = j;
  ii_cq_held : ionic_cq_lock (io_cq s) = true -> exists i w, io_waves s !! i = Some w /\
    (holds_cq (wv_pc w) = true \/ aborted (wv_pc w) = true);
  ii_sq_lock : forall i w, io_waves s !! i = Some w -> holds_sq (wv_pc w) = true ->
    ionic_sq_lock (io_sq s) = true /\
    forall j v, io_waves s !! j = Some v -> holds_sq (wv_pc v) = true -> i = j;
  ii_sq_held : ionic_sq_lock (io_sq s) = true -> exists i w, io_waves s !! i = Some w /\
    holds_sq (wv_pc w) = true
}.

(** ** Moving one wave *)

Lemma insert_cases {A} (l : list A) (i : nat) x (j : nat) y z :
  l !! i = Some z -> <[i := x]> l !! j = Some y -> j = i /\ y = x \/ j <> i /\ l !! j = Some y.
Proof using Type.
  intros Hz. destruct (decide (j = i)) as [->|Hne].
  - rewrite list_lookup_insert_eq by (by eapply lookup_lt_Some). intros [= ->]. by left.
  - rewrite list_lookup_insert_ne by done. by right.
Qed.

(** The wave keeps its reservation. *)
Lemma goto_back (ws : list wave) (i : nat) w pc (j : nat) v :
  ws !! i = Some w -> <[i := goto w pc]> ws !! j = Some v ->
  exists v0, ws !! j = Some v0 /\ wv_start v = wv_start v0 /\ wv_requests v = wv_requests v0 /\ rings q v = rings q v0.
Proof using Type. intros Hw [[-> ->]|[_ Hv]]%(insert_cases _ _ _ _ _ _ Hw); [by exists w|by exists v]. Qed.

Lemma goto_forth (ws : list wave) (i : nat) w pc (j : nat) v0 :
  ws !! i = Some w -> ws !! j = Some v0 ->
  exists v, <[i := goto w pc]> ws !! j = Some v /\ wv_start v = wv_start v0 /\ wv_requests v = wv_requests v0 /\
    rings q v = rings q v0 /\ (j <> i -> v = v0).
Proof using Type.
  intros Hw Hv. destruct (decide (j = i)) as [->|Hne].
  - exists (goto w pc). rewrite list_lookup_insert_eq by (by eapply lookup_lt_Some).
    rewrite Hw in Hv. injection Hv as <-. by split_and!.
  - exists v0. by rewrite list_lookup_insert_ne.
Qed.

Lemma wave_ok_later P D S D' S' w :
  D <= D' -> S <= S' -> (holds_sq (wv_pc w) = true -> D' = D) -> wave_ok P D S w -> wave_ok P D' S' w.
Proof using Type.
  intros HD HS Hr [H1 H2 H3 H4 H5 H6 H8 H7]. split; try done.
  - intros Hp. destruct (H5 Hp); [by left|right; lia].
  - intros Hp. destruct (H6 Hp); [by left|right; lia].
  - unfold pc_ok in *. destruct (wv_pc w); try done; [by rewrite Hr|]. intros Hx. specialize (H7 Hx). lia.
Qed.

Lemma lane_ok_goto N buf pc pc' k p a :
  (flagged pc' k <-> flagged pc k) -> (forall idx, bodied pc' idx k -> bodied pc idx k) ->
  lane_ok N buf pc k p a -> lane_ok N buf pc' k p a.
Proof using Type. intros Hf Hb [H1 H2 H3]. split; [tauto|tauto|auto]. Qed.

(** The geometry is that of the reservations. *)
Lemma goto_static s D R S K i w pc ws' :
  ionic_inv s D R S K -> io_waves s !! i = Some w -> ws' = <[i := goto w pc]> (io_waves s) ->
  (forall i j w v, ws' !! i = Some w -> ws' !! j = Some v -> (i < j)%nat -> wave_end w <= wv_start v) /\
  (forall p, 0 <= p < asked_count s -> exists i w k r, ws' !! i = Some w /\
    wv_requests w !! k = Some r /\ p = wv_start w + Z.of_nat k) /\
  (forall i w k r, ws' !! i = Some w -> wv_requests w !! k = Some r ->
    io_asked s !! Z.to_nat (wv_start w + Z.of_nat k) =
    Some {| as_request := r; as_lane := Z.of_nat k; as_last := Z.of_nat k + 1 =? wv_n w |}) /\
  ((forall w, w ∈ ws' -> rings q w = true) -> forall w, w ∈ io_waves s -> rings q w = true).
Proof using Type.
  intros Hi Hw ->. split_and!.
  - intros a b x y Ha Hb Hab. destruct (goto_back _ _ _ _ _ _ Hw Ha) as (x0 & Hx & E1 & E2 & _).
    destruct (goto_back _ _ _ _ _ _ Hw Hb) as (y0 & Hy & E3 & _).
    pose proof (ii_starts _ _ _ _ _ Hi _ _ _ _ Hx Hy Hab). unfold wave_end, wv_n in *. by rewrite E1, E2, E3.
  - intros p Hp. destruct (ii_cover _ _ _ _ _ Hi p Hp) as (a & x & k & r & Ha & Hk & ->).
    destruct (goto_forth _ _ _ pc _ _ Hw Ha) as (v & Hv & E1 & E2 & _). exists a, v, k, r. by rewrite E1, E2.
  - intros a x k r Ha Hk. destruct (goto_back _ _ _ _ _ _ Hw Ha) as (x0 & Hx & E1 & E2 & _).
    unfold wv_n. rewrite E1, E2 in *. by apply (ii_asked _ _ _ _ _ Hi a).
  - intros Hr v (j & Hv)%list_elem_of_lookup.
    destruct (goto_forth _ _ _ pc _ _ Hw Hv) as (v' & Hv' & _ & _ & E & _).
    rewrite <- E. apply Hr. by eapply list_elem_of_lookup_2.
Qed.

(** A step of a wave that waits, or has waited: the send queue is as it was. *)
Lemma keep_waiting s D R S K i w pc c' S' K' :
  ionic_inv s D R S K -> io_waves s !! i = Some w ->
  (forall k, flagged pc k <-> flagged (wv_pc w) k) -> (forall idx k, ~ bodied pc idx k) ->
  holds_sq pc = false -> holds_sq (wv_pc w) = false ->
  S <= S' <= executed_count s -> wave_ok (asked_count s) D S' (goto w pc) ->
  (ionic_cq_mask q <> 0 -> ring_ok (executed_count s) S' K' (io_signaled s) c') ->
  (ionic_cq_mask q = 0 -> collapsed_ok S' (io_signaled s) c') ->
  taking_ok K' (io_signaled s) (goto w pc) ->
  (forall j v, j <> i -> io_waves s !! j = Some v -> taking_ok K' (io_signaled s) v) ->
  (ionic_cq_mask q = 0 -> holds_cq pc = false) ->
  (holds_cq pc = true -> ionic_cq_lock c' = true /\
    forall j v, j <> i -> io_waves s !! j = Some v -> holds_cq (wv_pc v) = false) ->
  (ionic_cq_lock (io_cq s) = true -> holds_cq (wv_pc w) = false -> ionic_cq_lock c' = true) ->
  (ionic_cq_lock c' = true -> holds_cq pc = true \/ aborted pc = true \/
    (holds_cq (wv_pc w) = false /\ aborted (wv_pc w) = false /\ ionic_cq_lock (io_cq s) = true)) ->
  ionic_inv {| io_sq := io_sq s; io_cq := c'; io_stop := io_stop s;
    io_waves := <[i := goto w pc]> (io_waves s); io_asked := io_asked s;
    io_executed := io_executed s; io_signaled := io_signaled s |} D R S' K'.
Proof using Type.
  intros Hi Hw Hf Hb Hs1 Hs2 HS Hok Hring Hcol Ht Hto Hm Hl1 Hl2 Hl3.
  destruct (goto_static s D R S K i w pc _ Hi Hw eq_refl) as (G1 & G2 & G3 & G4).
  pose proof (fun j v H => insert_cases (io_waves s) i (goto w pc) j v w Hw H) as Hc.
  destruct Hi as [I1 I2 I3 I4 I5 I6 I7 I8 I9 I10 I11 I12 I13 I14 I15 I16 I17 I18 I19 I20 I21 I22 I23].
  split; try done; unfold asked_count, executed_count in *; cbn.
  - lia.
  - lia.
  - auto.
  - intros j v [[-> ->]|[Hne Hv]]%Hc; [done|].
    apply wave_ok_later with D S; [lia|lia|done|by apply (I10 j)].
  - intros j v k r [[-> ->]|[Hne Hv]]%Hc Hk; [|by apply (I11 j)].
    cbn. apply lane_ok_goto with (wv_pc w); [apply Hf|by intros idx ?%Hb|exact (I11 i w k r Hw Hk)].
  - intros j v [[-> ->]|[Hne Hv]]%Hc; [done|eauto].
  - intros E j v [[-> ->]|[Hne Hv]]%Hc; [by apply Hm|by apply (I19 E j)].
  - intros j v [[-> ->]|[Hne Hv]]%Hc; cbn; intros Hh.
    + destruct (Hl1 Hh) as [L1 L2]. split; [done|].
      intros j v [[-> ->]|[Hne Hv]]%Hc Hh'; [done|]. by rewrite (L2 j v) in Hh'.
    + destruct (I20 j v Hv Hh) as [L1 L2].
      assert (holds_cq (wv_pc w) = false) as Hwf.
      { destruct (holds_cq (wv_pc w)) eqn:E; [|done]. by destruct Hne; apply (L2 i w). }
      split; [by apply Hl2|]. intros j' v' [[-> ->]|[Hne' Hv']]%Hc Hh'; [|by apply (L2 j' v')].
      destruct (Hl1 Hh') as [_ L3]. by rewrite (L3 j v) in Hh.
  - intros Hl. destruct (Hl3 Hl) as [Hh|[Hh|(E1 & E2 & E3)]].
    + exists i, (goto w pc). split; [|by left]. apply list_lookup_insert_eq. by eapply lookup_lt_Some.
    + exists i, (goto w pc). split; [|by right]. apply list_lookup_insert_eq. by eapply lookup_lt_Some.
    + destruct (I21 E3) as (j & v & Hv & Hh). exists j, v. split; [|done].
      rewrite list_lookup_insert_ne; [done|]. intros ->. rewrite Hw in Hv. injection Hv as <-.
      destruct Hh; congruence.
  - intros j v [[-> ->]|[Hne Hv]]%Hc; cbn; intros Hh; [congruence|].
    destruct (I22 j v Hv Hh) as [L1 L2]. split; [done|].
    intros j' v' [[-> ->]|[Hne' Hv']]%Hc Hh'; [cbn in Hh'; congruence|by apply (L2 j' v')].
  - intros Hl. destruct (I23 Hl) as (j & v & Hv & Hh). exists j, v. split; [|done].
    rewrite list_lookup_insert_ne; [done|]. intros ->. congruence.
Qed.

Definition all_lanes_ok (s : ionic_system) (ws : list wave) (buf : Z -> ionic_v1_wqe) : Prop :=
  (forall j v k r, ws !! j = Some v -> wv_requests v !! k = Some r ->
    lane_ok (executed_count s) buf (wv_pc v) k (wv_start v + Z.of_nat k)
      {| as_request := r; as_lane := Z.of_nat k; as_last := Z.of_nat k + 1 =? wv_n v |}) /\
  forall p, asked_count s <= p < executed_count s + sq_size -> slot_color buf p = negb (sq_color p).

(** A step of a wave that writes or commits: the completion queue is as it
    was. *)
Lemma keep_writing s D R S K i w pc s' D' R' :
  ionic_inv s D R S K -> io_waves s !! i = Some w ->
  holds_cq pc = false -> holds_cq (wv_pc w) = false -> aborted (wv_pc w) = false ->
  sq_prod s' = sq_prod (io_sq s) -> sq_dbprod s' = u32 D' ->
  Z.land (sq_dbreg s') (ionic_sq_mask q) = R' mod sq_size ->
  D <= D' /\ executed_count s <= R' <= D' -> D' <= asked_count s /\ D' <= S + ionic_sq_mask q ->
  (D' = D \/ ionic_sq_lock (io_sq s) = false) ->
  ((forall w, w ∈ io_waves s -> rings q w = true) -> ionic_sq_lock s' = false -> R' = D') ->
  wave_ok (asked_count s) D' S (goto w pc) ->
  all_lanes_ok s (<[i := goto w pc]> (io_waves s)) (ionic_sq_buf s') ->
  (holds_sq pc = true -> ionic_sq_lock s' = true /\
    forall j v, j <> i -> io_waves s !! j = Some v -> holds_sq (wv_pc v) = false) ->
  (ionic_sq_lock (io_sq s) = true -> holds_sq (wv_pc w) = false -> ionic_sq_lock s' = true) ->
  (ionic_sq_lock s' = true -> holds_sq pc = true \/
    (holds_sq (wv_pc w) = false /\ ionic_sq_lock (io_sq s) = true)) ->
  ionic_inv {| io_sq := s'; io_cq := io_cq s; io_stop := io_stop s;
    io_waves := <[i := goto w pc]> (io_waves s); io_asked := io_asked s;
    io_executed := io_executed s; io_signaled := io_signaled s |} D' R' S K.
Proof using Type.
  intros Hi Hw Hc1 Hc2 Hc3 Hp Hd Hr HD HP HL Hrang Hok [Hs1 Hs2] Hl1 Hl2 Hl3.
  destruct (goto_static s D R S K i w pc _ Hi Hw eq_refl) as (G1 & G2 & G3 & G4).
  pose proof (fun j v H => insert_cases (io_waves s) i (goto w pc) j v w Hw H) as Hc.
  destruct Hi as [I1 I2 I3 I4 I5 I6 I7 I8 I9 I10 I11 I12 I13 I14 I15 I16 I17 I18 I19 I20 I21 I22 I23].
  split; try done; unfold asked_count, executed_count in *; cbn.
  - congruence.
  - lia.
  - auto.
  - intros j v [[-> ->]|[Hne Hv]]%Hc; [done|].
    apply wave_ok_later with D S; [lia|lia| |by apply (I10 j)].
    intros Hh. destruct HL as [HL|HL]; [done|]. destruct (I22 j v Hv Hh). congruence.
  - intros j v [[-> ->]|[Hne Hv]]%Hc; [|by apply (I18 j)].
    unfold taking_ok. cbn. by destruct pc.
  - intros E j v [[-> ->]|[Hne Hv]]%Hc; [done|by apply (I19 E j)].
  - intros j v [[-> ->]|[Hne Hv]]%Hc; cbn; intros Hh; [congruence|].
    destruct (I20 j v Hv Hh) as [L1 L2]. split; [done|].
    intros j' v' [[-> ->]|[Hne' Hv']]%Hc Hh'; [cbn in Hh'; congruence|by apply (L2 j' v')].
  - intros Hl. destruct (I21 Hl) as (j & v & Hv & Hh). exists j, v. split; [|done].
    rewrite list_lookup_insert_ne; [done|]. intros ->. destruct Hh; congruence.
  - intros j v [[-> ->]|[Hne Hv]]%Hc; cbn; intros Hh.
    + destruct (Hl1 Hh) as [L1 L2]. split; [done|].
      intros j v [[-> ->]|[Hne Hv]]%Hc Hh'; [done|]. by rewrite (L2 j v) in Hh'.
    + destruct (I22 j v Hv Hh) as [L1 L2].
      assert (holds_sq (wv_pc w) = false) as Hwf.
      { destruct (holds_sq (wv_pc w)) eqn:E; [|done]. by destruct Hne; apply (L2 i w). }
      split; [by apply Hl2|]. intros j' v' [[-> ->]|[Hne' Hv']]%Hc Hh'; [|by apply (L2 j' v')].
      destruct (Hl1 Hh') as [_ L3]. by rewrite (L3 j v) in Hh.
  - intros Hl. destruct (Hl3 Hl) as [Hh|(E1 & E3)].
    + exists i, (goto w pc). split; [|done]. apply list_lookup_insert_eq. by eapply lookup_lt_Some.
    + destruct (I23 E3) as (j & v & Hv & Hh). exists j, v. split; [|done].
      rewrite list_lookup_insert_ne; [done|]. intros ->. congruence.
Qed.

(** Without a store to the slots. *)
Lemma keep_lanes s D R S K i w pc :
  ionic_inv s D R S K -> io_waves s !! i = Some w ->
  (forall k, (k < length (wv_requests w))%nat -> flagged pc k <-> flagged (wv_pc w) k) ->
  (forall idx k, ~ bodied pc idx k) ->
  all_lanes_ok s (<[i := goto w pc]> (io_waves s)) (ionic_sq_buf (io_sq s)).
Proof using Type.
  intros Hi Hw Hf Hb. split; [|apply (ii_free _ _ _ _ _ Hi)].
  intros j v k r [[-> ->]|[Hne Hv]]%(insert_cases _ _ _ _ _ _ Hw) Hk; [|by apply (ii_slots _ _ _ _ _ Hi j)].
  cbn. apply lane_ok_goto with (wv_pc w); [|by intros idx ?%Hb|exact (ii_slots _ _ _ _ _ Hi i w k r Hw Hk)].
  apply Hf. by eapply lookup_lt_Some.
Qed.

Lemma system_eta s : s = {| io_sq := io_sq s; io_cq := io_cq s; io_stop := io_stop s; io_waves := io_waves s;
  io_asked := io_asked s; io_executed := io_executed s; io_signaled := io_signaled s |}.
Proof using Type. by destruct s. Qed.

Lemma stay s i w :
  io_waves s !! i = Some w ->
  {| io_sq := io_sq s; io_cq := io_cq s; io_stop := io_stop s; io_waves := <[i := w]> (io_waves s);
     io_asked := io_asked s; io_executed := io_executed s; io_signaled := io_signaled s |} = s.
Proof using Type. intros Hw. rewrite list_insert_id by done. by destruct s. Qed.

(** ** Waiting *)

Section Steps.
Hypothesis Hq : qp_ok.

Lemma size_range : 2 <= sq_size <= 2097152.
Proof using Hq.
  destruct (iq_size Hq) as (a & Ha & ->). pose proof (Z.pow_le_mono_r 2 1 a ltac:(lia) ltac:(lia)).
  pose proof (Z.pow_le_mono_r 2 a 21 ltac:(lia) ltac:(lia)). lia.
Qed.

(** What the waves have seen is not far behind what is reserved. *)
Lemma seen_near s D R S K : ionic_inv s D R S K -> asked_count s - S <= 8388608.
Proof using Hq.
  intros Hi. pose proof size_range. unfold sq_size in *.
  destruct (Z.le_gt_cases (asked_count s) (S + ionic_sq_mask q)) as [|Hp]; [lia|].
  pose proof (ii_order _ _ _ _ _ Hi).
  destruct (ii_cover _ _ _ _ _ Hi (S + ionic_sq_mask q) ltac:(lia)) as (i & w & k & r & Hw & Hk & E).
  pose proof (lookup_lt_Some _ _ _ Hk) as Hlt.
  destruct (ii_waves _ _ _ _ _ Hi i w Hw) as [W1 W2 W3 W4 W5 W6 W8 W7]. unfold wave_end, wv_n in *.
  destruct (waits_to_write (wv_pc w)) eqn:Ew; [|destruct (W5 eq_refl); lia].
  assert (live w = true) as Hl by (unfold live; by destruct (wv_pc w)). specialize (W4 Hl). lia.
Qed.

Lemma wait_over s D R S K i w k msn upto :
  ionic_inv s D R S K -> io_waves s !! i = Some w ->
  msn mod 16777216 = S mod 16777216 -> upto mod 16777216 = target k w mod 16777216 ->
  behind msn upto = false -> target k w <= S.
Proof using Hq.
  intros Hi Hw Hm Hu Hb. eapply not_behind; [done|done| |done].
  pose proof (seen_near _ _ _ _ _ Hi). pose proof (wo_end _ _ _ _ (ii_waves _ _ _ _ _ Hi i w Hw)).
  pose proof size_range. unfold target, sq_size in *. destruct k; lia.
Qed.

Definition next_pc (k : after_wait) (w : wave) : io_wave_pc :=
  match k with
  | ThenReturn => Over
  | ThenWrite => if forallb fetches (wv_requests w) then Indexing None else Writing 0 (idle_lanes w)
  end.

Lemma proceed_next k w : proceed k w = goto w (next_pc k w).
Proof using Type. destruct k; cbn; [by destruct (forallb fetches _)|done]. Qed.

Lemma idle_lanes_lookup w k : idle_lanes w !! k <> Some FlagsWritten /\ idle_lanes w !! k <> Some BodyWritten.
Proof using Type.
  unfold idle_lanes. rewrite list_lookup_fmap. by destruct (wv_requests w !! k).
Qed.

Definition waits (pc : io_wave_pc) (k : after_wait) : Prop :=
  match pc with
  | Waiting k' _ | Polling k' _ _ | Taking k' _ _ _ _ => k' = k
  | _ => False
  end.

Lemma next_flagged k w n :
  waits (wv_pc w) k -> flagged (next_pc k w) n <-> flagged (wv_pc w) n.
Proof using Type.
  intros Hwt. destruct (wv_pc w) as [k' ?|k' ? ?|k' ? ? ? ?| | | | | | |]; try done;
    cbn in Hwt; subst k'; destruct k; cbn; try done;
    destruct (forallb fetches _); cbn; (split; [try done|done]);
    intros H; by destruct (proj1 (idle_lanes_lookup w n)).
Qed.

Lemma next_bodied k w idx n : ~ bodied (next_pc k w) idx n.
Proof using Type.
  destruct k; cbn; [|by intros []]. destruct (forallb fetches _); cbn; [by intros []|].
  intros [_ H]. by destruct (proj2 (idle_lanes_lookup w n)).
Qed.

Lemma next_ok s D R S K i w k :
  ionic_inv s D R S K -> io_waves s !! i = Some w -> waits (wv_pc w) k ->
  target k w <= S -> wave_ok (asked_count s) D S (goto w (next_pc k w)).
Proof using Hq.
  intros Hi Hw Hwt Hc. destruct (ii_waves _ _ _ _ _ Hi i w Hw) as [W1 W2 W3 W4 W5 W6 W8 W7].
  assert (live w = true) as Hl by (unfold live; by destruct (wv_pc w)). specialize (W4 Hl).
  split; try done; cbn.
  - intros Hr. destruct k; unfold target, wave_end, wv_n in *; cbn in *; [right; lia|].
    apply W5. destruct (wv_pc w); cbn in *; try done; by subst.
  - destruct k; cbn; [by destruct (forallb fetches _)|]. intros _.
    apply W6. destruct (wv_pc w); cbn in *; try done; by subst.
  - destruct k; cbn; [|done]. intros _. apply W8. destruct (wv_pc w); cbn in *; try done; by subst.
  - destruct k; unfold pc_ok; cbn; [|done]. destruct (forallb fetches _); [done|].
    unfold idle_lanes. by rewrite length_map.
Qed.

Definition with_wave (s : ionic_system) (s' : ionic_sq) (c' : ionic_cq) (i : nat) (w' : wave) : ionic_system :=
  {| io_sq := s'; io_cq := c'; io_stop := io_stop s; io_waves := <[i := w']> (io_waves s);
     io_asked := io_asked s; io_executed := io_executed s; io_signaled := io_signaled s |}.

Lemma ring_ok_lock b N S K l c : ring_ok N S K l c -> ring_ok N S K l (set_cq_lock b c).
Proof using Type. by intros []. Qed.
Lemma collapsed_ok_lock b S l c : collapsed_ok S l c -> collapsed_ok S l (set_cq_lock b c).
Proof using Type. by intros []. Qed.

Lemma next_holds k w :
  holds_cq (next_pc k w) = false /\ holds_sq (next_pc k w) = false /\
  taking_ok 0 [] (goto w (next_pc k w)).
Proof using Type. destruct k; cbn; [by destruct (forallb fetches _)|done]. Qed.

Lemma taking_free K l w pc : (forall k u n p m, pc <> Taking k u n p m) -> taking_ok K l (goto w pc).
Proof using Type. intros H. unfold taking_ok. cbn. destruct pc; try done. by destruct (H k upto lane my_cq_pos msn). Qed.

Lemma next_taking k w K l : taking_ok K l (goto w (next_pc k w)).
Proof using Type. apply taking_free. intros. destruct k; cbn; [by destruct (forallb fetches _)|done]. Qed.

(** A wave that is let through, with or without the lock. *)
Lemma io_pass_ok s D R S K i w k b :
  ionic_inv s D R S K -> io_waves s !! i = Some w -> waits (wv_pc w) k ->
  target k w <= S -> (b = ionic_cq_lock (io_cq s) /\ holds_cq (wv_pc w) = false \/ b = false /\ holds_cq (wv_pc w) = true) ->
  ionic_inv (with_wave s (io_sq s) (set_cq_lock b (io_cq s)) i (proceed k w)) D R S K.
Proof using Hq.
  intros Hi Hw Hwt Ht Hb. rewrite proceed_next. pose proof (ii_order _ _ _ _ _ Hi).
  destruct (next_holds k w) as (N1 & N2 & _).
  apply keep_waiting with S K; try done.
  - intros n. by apply next_flagged.
  - intros idx n. apply next_bodied.
  - by destruct (wv_pc w).
  - lia.
  - by apply next_ok with R K i.
  - intros E. apply ring_ok_lock. by apply (ii_ring _ _ _ _ _ Hi).
  - intros E. apply collapsed_ok_lock. by apply (ii_collapsed _ _ _ _ _ Hi).
  - apply next_taking.
  - intros j v _ Hv. by apply (ii_taking _ _ _ _ _ Hi j).
  - by rewrite N1.
  - cbn. destruct Hb as [[-> _]|[-> ->]]; [done|congruence].
  - cbn. destruct Hb as [[-> Hh]|[-> Hh]]; [|done]. intros Hl. right. right.
    split_and!; [done| |done]. by destruct (wv_pc w).
Qed.

Lemma set_lock_same c : set_cq_lock (ionic_cq_lock c) c = c.
Proof using Type. by destruct c. Qed.

Lemma pass_free s D R S K i w k upto :
  ionic_inv s D R S K -> io_waves s !! i = Some w -> wv_pc w = Waiting k upto ->
  target k w <= S -> ionic_inv (with_wave s (io_sq s) (io_cq s) i (proceed k w)) D R S K.
Proof using Hq.
  intros Hi Hw Hpc Ht. rewrite <- (set_lock_same (io_cq s)).
  apply io_pass_ok; rewrite ?Hpc; try done. by left.
Qed.

(** Steps that leave the wave waiting. *)
Lemma keep_polling s D R S K i w k pc c' S' K' :
  ionic_inv s D R S K -> io_waves s !! i = Some w -> waits (wv_pc w) k ->
  (waits pc k \/ pc = Aborted k) -> pc_ok D S' (goto w pc) ->
  S <= S' <= executed_count s ->
  (ionic_cq_mask q <> 0 -> ring_ok (executed_count s) S' K' (io_signaled s) c') ->
  (ionic_cq_mask q = 0 -> collapsed_ok S' (io_signaled s) c') ->
  taking_ok K' (io_signaled s) (goto w pc) ->
  (forall j v, j <> i -> io_waves s !! j = Some v -> taking_ok K' (io_signaled s) v) ->
  (ionic_cq_mask q = 0 -> holds_cq pc = false) ->
  (holds_cq pc = true -> ionic_cq_lock c' = true /\
    forall j v, j <> i -> io_waves s !! j = Some v -> holds_cq (wv_pc v) = false) ->
  (ionic_cq_lock (io_cq s) = true -> holds_cq (wv_pc w) = false -> ionic_cq_lock c' = true) ->
  (ionic_cq_lock c' = true -> holds_cq pc = true \/ aborted pc = true \/
    (holds_cq (wv_pc w) = false /\ aborted (wv_pc w) = false /\ ionic_cq_lock (io_cq s) = true)) ->
  ionic_inv (with_wave s (io_sq s) c' i (goto w pc)) D R S' K'.
Proof using Type.
  intros Hi Hw Hwt Hpc Hok HS. intros. pose proof (ii_waves _ _ _ _ _ Hi i w Hw) as [W1 W2 W3 W4 W5 W6 W8 W7].
  assert (live w = true) as Hl by (unfold live; by destruct (wv_pc w)).
  assert (forall n, flagged pc n <-> waits_to_write pc = false) as F1
    by (intros n; destruct Hpc as [Hpc| ->]; [by destruct pc|done]).
  assert (forall n, flagged (wv_pc w) n <-> waits_to_write (wv_pc w) = false) as F2 by (intros n; by destruct (wv_pc w)).
  assert (waits_to_write pc = waits_to_write (wv_pc w) /\ committed pc = committed (wv_pc w)) as [E1 E2].
  { destruct Hpc as [Hpc| ->]; destruct (wv_pc w); try done; cbn in Hwt; subst;
      try (destruct pc; try done; cbn in Hpc; subst); by destruct k. }
  apply keep_waiting with S K; try done.
  - intros n. by rewrite F1, F2, E1.
  - intros idx n Hb. destruct Hpc as [Hpc| ->]; [by destruct pc|done].
  - destruct Hpc as [Hpc| ->]; [by destruct pc|done].
  - by destruct (wv_pc w).
  - split; try done; cbn; rewrite ?E1, ?E2.
    + auto.
    + intros Hr. destruct (W5 Hr); [by left|right; unfold wave_end, wv_n in *; cbn; lia].
    + auto.
    + auto.
Qed.

(** ** Completions *)

Lemma qtf_bit qtf i : 0 <= i < 2 -> (Z.land qtf (to_be 4 (2 ^ i)) =? 0) = negb (Z.testbit qtf (24 + i)).
Proof using Type.
  intros Hi. assert (to_be 4 (2 ^ i) = 2 ^ (24 + i)) as ->; [|by apply land_pow2_zero; lia].
  assert (i = 0 \/ i = 1) as [-> | ->] by lia; vm_compute; reflexivity.
Qed.

Lemma nic_cqe_reads c n err cqe :
  nic_cqe q c n err cqe ->
  cqe_color cqe = cq_color c /\ cqe_error cqe = err /\
  from_be 4 (msg_msn cqe) mod 16777216 = (n + 1) mod 16777216.
Proof using Type.
  intros [(m & Hm & Hn & ->) (f & Hf & Ef & Hc & He)].
  unfold cqe_color, cqe_error. change IONIC_V1_CQE_COLOR with (2 ^ 0). change IONIC_V1_CQE_ERROR with (2 ^ 1).
  rewrite !qtf_bit, !negb_involutive, Ef, !to_be4_bit by lia. split_and!; [done|done|].
  by rewrite from_to_be by (change (256 ^ Z.of_nat 4) with 4294967296; lia).
Qed.

Lemma cq_index b j : 0 <= b <= 31 -> cq_size = 2 ^ b -> Z.land (u32 j) (ionic_cq_mask q) = j mod cq_size.
Proof using Type.
  intros Hb E. replace (ionic_cq_mask q) with (Z.ones b) by (rewrite Z.ones_equiv; unfold cq_size in E; lia).
  by rewrite Z.land_ones, u32_mod_pow2, E by lia.
Qed.

(** The colour of a round, as the device tests it. *)
Lemma round_bit a p mask : 0 <= a < 32 -> mask + 1 = 2 ^ a -> (Z.land (u32 p) (mask + 1) =? 0) = round_color mask p.
Proof using Type.
  intros Ha E. unfold round_color. rewrite E, land_pow2_zero, u32_testbit, testbit_div by lia. done.
Qed.

Lemma poll_reads N S K l c lane :
  ionic_cq_mask q <> 0 -> ring_ok N S K l c -> 0 <= lane < 64 ->
  let j := K + lane in
  match poll_wave_cqes q lane c with
  | NoCqe => Z.of_nat (length l) <= j
  | CqeError => True
  | Cqe p msn => K <= j < Z.of_nat (length l) /\ p = u32 j /\ msn mod 16777216 = io_signal l j mod 16777216
  end.
Proof using Hq.
  intros Hm [R1 R2 R3 R4 R5 R6] Hl j. destruct (iq_cq Hq) as [|(b & Hb & E & Hs)]; [done|].
  assert (64 <= cq_size) as H64 by (rewrite E; apply (Z.pow_le_mono_r 2 6 b); lia).
  unfold poll_wave_cqes. rewrite R1, u32_u32_add. fold j.
  rewrite (cq_index b j) by lia. rewrite (round_bit b j (ionic_cq_mask q)) by (try lia; exact E).
  fold (cq_color j). set (cqe := ionic_cq_buf c (j mod cq_size)).
  assert (Hcol : (Z.land (qid_type_flags cqe) (to_be 4 IONIC_V1_CQE_COLOR) =?
    (if cq_color j then to_be 4 IONIC_V1_CQE_COLOR else 0)) = Bool.eqb (cqe_color cqe) (cq_color j)).
  { unfold cqe_color. change IONIC_V1_CQE_COLOR with (2 ^ 0). rewrite qtf_bit, negb_involutive by lia.
    change (to_be 4 (2 ^ 0)) with (2 ^ 24). rewrite land_pow2 by lia.
    replace (24 + 0) with 24 by lia.
    by destruct (Z.testbit _ _), (cq_color j). }
  rewrite Hcol. destruct (Bool.eqb (cqe_color cqe) (cq_color j)) eqn:Ec; cbn.
  - apply eqb_prop in Ec. assert (j < Z.of_nat (length l)) as Hj.
    { destruct (Z.le_gt_cases (Z.of_nat (length l)) j) as [Hge|]; [|done]. exfalso.
      assert (cqe_color cqe = negb (cq_color j)) as E2 by (apply R6; lia).
      rewrite Ec in E2. by destruct (cq_color j). }
    destruct (R5 j ltac:(lia)) as (err & Hn). apply nic_cqe_reads in Hn as (_ & He & Hn). fold cqe in He, Hn.
    change (negb (Z.land (qid_type_flags cqe) (to_be 4 IONIC_V1_CQE_ERROR) =? 0)) with (cqe_error cqe).
    destruct (cqe_error cqe); [done|]. split_and!; [lia|lia|done|].
    rewrite Hn. f_equal. lia.
  - destruct (Z.le_gt_cases (Z.of_nat (length l)) j) as [|Hlt]; [done|]. exfalso.
    destruct (R5 j ltac:(lia)) as (err & Hn). apply nic_cqe_reads in Hn as (Hc & _). fold cqe in Hc.
    rewrite Hc in Ec. by destruct (cq_color j).
Qed.

(** Taking completion [j]. *)
Lemma take_reads N S K l c j msn :
  signals_ok N l -> ring_ok N S K l c -> K <= j < Z.of_nat (length l) ->
  msn mod 16777216 = io_signal l j mod 16777216 ->
  ring_ok N (io_signal l j) (j + 1) l (take_cqe q (u32 j) msn c) /\ S <= io_signal l j <= N.
Proof using Type.
  intros [S1 S2] [R1 R2 R3 R4 R5 R6] Hj Hm. split.
  - split; cbn.
    + by rewrite u32_u32_add.
    + lia.
    + done.
    + rewrite (proj2 (Z.eqb_neq _ _)) by lia. f_equal. lia.
    + intros i Hi. apply R5. lia.
    + intros i Hi. destruct (Z.lt_ge_cases i (K + cq_size)); [apply R6; lia|].
      (* the slot of a completion taken in this step *)
      assert (0 <= i - cq_size < Z.of_nat (length l)) as Hr by lia.
      destruct (R5 (i - cq_size) ltac:(lia)) as (err & Hn). apply nic_cqe_reads in Hn as (Hc & _).
      assert (0 < cq_size \/ cq_size <= 0) as [Hp|Hp] by lia; [|lia].
      assert (i mod cq_size = (i - cq_size) mod cq_size) as -> by
        (rewrite <- (Z.mod_add (i - cq_size) 1) by lia; f_equal; lia).
      rewrite Hc. unfold cq_color, round_color. fold cq_size.
      replace i with (i - cq_size + cq_size) at 2 by lia. by rewrite next_round, negb_involutive by lia.
  - destruct (S1 j ltac:(lia)). split; [|lia]. rewrite R4. destruct (K =? 0) eqn:E; bool_to_prop; [lia|].
    pose proof (S2 (K - 1) j ltac:(lia) ltac:(lia)). lia.
Qed.

(** ** The steps of a waiting wave *)

Lemma same_wave s D R S K i w : 
  ionic_inv s D R S K -> io_waves s !! i = Some w -> ionic_inv (with_wave s (io_sq s) (io_cq s) i w) D R S K.
Proof using Type. intros Hi Hw. unfold with_wave. by rewrite stay. Qed.

(** Nobody holds a lock that is free. *)
Lemma lock_free s D R S K :
  ionic_inv s D R S K -> ionic_cq_lock (io_cq s) = false ->
  forall j v, io_waves s !! j = Some v -> holds_cq (wv_pc v) = false.
Proof using Type.
  intros Hi Hl j v Hv. destruct (holds_cq (wv_pc v)) eqn:E; [|done].
  destruct (ii_cq_lock _ _ _ _ _ Hi j v Hv E). congruence.
Qed.

Lemma wait_turn_ok s D R S K i w ch k upto :
  ionic_inv s D R S K -> io_waves s !! i = Some w -> wv_pc w = Waiting k upto ->
  let '(c', w') := wait_turn q ch false k upto w (io_cq s) in
  ionic_inv (with_wave s (io_sq s) c' i w') D R S K.
Proof using Hq.
  intros Hi Hw Hpc. pose proof (ii_waves _ _ _ _ _ Hi i w Hw) as Hok.
  pose proof (wo_pc _ _ _ _ Hok) as Hp. unfold pc_ok in Hp. rewrite Hpc in Hp. rename Hp into Hu.
  pose proof (ii_order _ _ _ _ _ Hi) as Ho.
  assert (Hto : forall j v, j <> i -> io_waves s !! j = Some v -> taking_ok K (io_signaled s) v)
    by (intros j v _ Hv; by apply (ii_taking _ _ _ _ _ Hi j)).
  unfold wait_turn. destruct (ionic_cq_mask q =? 0) eqn:Em; bool_to_prop.
  - destruct (ii_collapsed _ _ _ _ _ Hi Em) as [F1 F2].
    destruct (negb (Z.land _ _ =? 0)) eqn:Ee.
    + apply keep_polling with S K k; rewrite ?Hpc; try done; try lia.
      * by right.
      * intros _. cbn. auto.
    + destruct (behind _ upto) eqn:Eb; [by apply same_wave|].
      apply pass_free with upto; try done. by eapply wait_over with (upto := upto) (msn := from_be 4 (msg_msn (ionic_cq_buf (io_cq s) 0))).
  - assert (Hr : ring_ok (executed_count s) S K (io_signaled s) (io_cq s)) by by apply (ii_ring _ _ _ _ _ Hi).
    destruct (negb (behind (sq_msn (io_cq s)) upto)) eqn:Eb; bool_to_prop.
    + apply pass_free with upto; try done. eapply wait_over with (upto := upto) (msn := sq_msn (io_cq s)); try done. apply Hr.
    + destruct ch as [n|]; [|by apply same_wave].
      destruct (ionic_cq_lock (io_cq s) || (wv_lanes w <=? Z.of_nat n)) eqn:El; [by apply same_wave|].
      bool_to_prop. pose proof (wo_lanes _ _ _ _ Hok).
      apply keep_polling with S K k; rewrite ?Hpc; try done; try lia.
      * by left.
      * unfold pc_ok. cbn. split_and!; [done|lia|lia].
      * intros _. by apply ring_ok_lock.
      * intros _. split; [done|]. intros j v _ Hv. by eapply lock_free.
      * intros _. by left.
Qed.

Lemma locked_turn_ok s D R S K i w ch k upto lane :
  ionic_inv s D R S K -> io_waves s !! i = Some w -> wv_pc w = Polling k upto lane ->
  let '(c', w') := locked_turn q ch false k upto lane w (io_cq s) in
  ionic_inv (with_wave s (io_sq s) c' i w') D R S K.
Proof using Hq.
  intros Hi Hw Hpc. pose proof (ii_waves _ _ _ _ _ Hi i w Hw) as Hok.
  pose proof (wo_pc _ _ _ _ Hok) as Hp. unfold pc_ok in Hp. rewrite Hpc in Hp. destruct Hp as (Hu & Hl).
  pose proof (ii_order _ _ _ _ _ Hi) as Ho.
  assert (Hm : ionic_cq_mask q <> 0).
  { intros E. pose proof (ii_modes _ _ _ _ _ Hi E i w Hw) as H. by rewrite Hpc in H. }
  assert (Hr : ring_ok (executed_count s) S K (io_signaled s) (io_cq s)) by by apply (ii_ring _ _ _ _ _ Hi).
  assert (Hto : forall j v, j <> i -> io_waves s !! j = Some v -> taking_ok K (io_signaled s) v)
    by (intros j v _ Hv; by apply (ii_taking _ _ _ _ _ Hi j)).
  destruct (ii_cq_lock _ _ _ _ _ Hi i w Hw ltac:(by rewrite Hpc)) as [L1 L2].
  assert (L3 : forall j v, j <> i -> io_waves s !! j = Some v -> holds_cq (wv_pc v) = false).
  { intros j v Hne Hv. destruct (holds_cq (wv_pc v)) eqn:E; [|done]. by destruct Hne; rewrite (L2 j v). }
  unfold locked_turn. destruct (negb (behind (sq_msn (io_cq s)) upto)) eqn:Eb; bool_to_prop.
  - apply io_pass_ok; rewrite ?Hpc; try done; [|by right].
    eapply wait_over with (upto := upto) (msn := sq_msn (io_cq s)); try done. apply Hr.
  - destruct ch as [n|]; [|by apply same_wave].
    pose proof (poll_reads _ _ _ _ _ lane Hm Hr Hl) as Hread. cbn in Hread.
    destruct (poll_wave_cqes q lane (io_cq s)) as [| |p msn]; [by apply same_wave| |];
      (apply keep_polling with S K k; rewrite ?Hpc; try done; try lia; auto).
    + by left.
    + unfold taking_ok. cbn. by exists (K + lane).
Qed.

Lemma taking_turn_ok s D R S K i w k upto lane p msn :
  ionic_inv s D R S K -> io_waves s !! i = Some w -> wv_pc w = Taking k upto lane p msn ->
  exists S' K', S <= S' /\ K < K' /\
  ionic_inv (with_wave s (io_sq s) (take_cqe q p msn (io_cq s)) i (goto w (Polling k upto lane))) D R S' K'.
Proof using Hq.
  intros Hi Hw Hpc. pose proof (ii_waves _ _ _ _ _ Hi i w Hw) as Hok.
  pose proof (wo_pc _ _ _ _ Hok) as Hp. unfold pc_ok in Hp. rewrite Hpc in Hp. destruct Hp as (Hu & Hl).
  pose proof (ii_order _ _ _ _ _ Hi) as Ho.
  assert (Hm : ionic_cq_mask q <> 0).
  { intros E. pose proof (ii_modes _ _ _ _ _ Hi E i w Hw) as H. by rewrite Hpc in H. }
  assert (Hr : ring_ok (executed_count s) S K (io_signaled s) (io_cq s)) by by apply (ii_ring _ _ _ _ _ Hi).
  destruct (ii_cq_lock _ _ _ _ _ Hi i w Hw ltac:(by rewrite Hpc)) as [L1 L2].
  assert (L3 : forall j v, j <> i -> io_waves s !! j = Some v -> holds_cq (wv_pc v) = false).
  { intros j v Hne Hv. destruct (holds_cq (wv_pc v)) eqn:E; [|done]. by destruct Hne; rewrite (L2 j v). }
  pose proof (ii_taking _ _ _ _ _ Hi i w Hw) as Ht. unfold taking_ok in Ht. rewrite Hpc in Ht.
  destruct Ht as (j & Hj & -> & Hmsn).
  destruct (take_reads _ _ _ _ _ j msn (ii_signals _ _ _ _ _ Hi) Hr Hj Hmsn) as [Hr' HS].
  exists (io_signal (io_signaled s) j), (j + 1). split_and!; [lia|lia|].
  apply keep_polling with S K k; rewrite ?Hpc; try done; auto.
  - by left.
  - intros a v Ha Hv. unfold taking_ok. pose proof (L3 a v Ha Hv). by destruct (wv_pc v).
Qed.

(** ** Entries and slots *)

Lemma flags_bits c s i :
  let f := Z.lor (Z.lor (if c : bool then to_be 2 IONIC_V1_FLAG_COLOR else 0)
                        (if s : bool then to_be 2 IONIC_V1_FLAG_SIG else 0))
                 (if i : bool then to_be 2 IONIC_V1_FLAG_INL else 0) in
  negb (Z.land (from_be 2 f) IONIC_V1_FLAG_COLOR =? 0) = c /\
  negb (Z.land (from_be 2 f) IONIC_V1_FLAG_SIG =? 0) = s.
Proof using Type. destruct c, s, i; vm_compute; split; reflexivity. Qed.

Lemma entry_flags p idx a :
  nic_flag (entry_at p idx a) IONIC_V1_FLAG_COLOR = sq_color p /\
  nic_flag (entry_at p idx a) IONIC_V1_FLAG_SIG = as_last a.
Proof using Hq.
  destruct (iq_size Hq) as (b & Hb & E).
  assert (Hcol : wqe_color q (u32 p) = if sq_color p then to_be 2 IONIC_V1_FLAG_COLOR else 0).
  { unfold wqe_color. by rewrite (round_bit b p (ionic_sq_mask q)) by (try lia; exact E). }
  assert (exists i : bool, hdr_flags (base (entry_at p idx a)) =
    Z.lor (Z.lor (if sq_color p then to_be 2 IONIC_V1_FLAG_COLOR else 0)
                 (if as_last a then to_be 2 IONIC_V1_FLAG_SIG else 0))
          (if i then to_be 2 IONIC_V1_FLAG_INL else 0)) as (i & Hf).
  { unfold entry_at. destruct (as_request a) as [n l r o d|]; cbn; rewrite Hcol; unfold wqe_sig.
    - exists (put_inline q o (put_size q n l o)). destruct (put_inline _ _ _); [done|]. by rewrite Z.lor_0_r.
    - exists false. by rewrite Z.lor_0_r. }
  unfold nic_flag. rewrite Hf. apply flags_bits.
Qed.

Lemma body_then_flags e old : write_flags e (write_body e old) = e.
Proof using Type. by destruct e as [[] ?]. Qed.

Lemma sq_index p : Z.land (u32 p) (ionic_sq_mask q) = p mod sq_size.
Proof using Hq.
  destruct (iq_size Hq) as (a & Ha & E).
  replace (ionic_sq_mask q) with (Z.ones a) by (rewrite Z.ones_equiv; unfold sq_size in E; lia).
  by rewrite Z.land_ones, u32_mod_pow2, E by lia.
Qed.

(** A position belongs to one lane of one wave. *)
Lemma position_unique s D R S K i j w v k k' r r' :
  ionic_inv s D R S K -> io_waves s !! i = Some w -> io_waves s !! j = Some v ->
  wv_requests w !! k = Some r -> wv_requests v !! k' = Some r' ->
  wv_start w + Z.of_nat k = wv_start v + Z.of_nat k' -> i = j /\ k = k'.
Proof using Type.
  intros Hi Hw Hv Hk Hk' E. apply lookup_lt_Some in Hk, Hk'.
  destruct (lt_eq_lt_dec i j) as [[Hlt| ->]|Hgt].
  - pose proof (ii_starts _ _ _ _ _ Hi i j w v Hw Hv Hlt). unfold wave_end, wv_n in *. lia.
  - rewrite Hw in Hv. injection Hv as <-. split; [done|lia].
  - pose proof (ii_starts _ _ _ _ _ Hi j i v w Hv Hw Hgt). unfold wave_end, wv_n in *. lia.
Qed.

Definition store (buf : Z -> ionic_v1_wqe) (p : Z) (x : ionic_v1_wqe) : Z -> ionic_v1_wqe :=
  fun j => if j =? p mod sq_size then x else buf j.

Lemma store_same buf p x : store buf p x (p mod sq_size) = x.
Proof using Type. unfold store. by rewrite Z.eqb_refl. Qed.
Lemma store_other buf p x p' :
  Z.abs (p - p') < sq_size -> p <> p' -> 0 < sq_size -> store buf p x (p' mod sq_size) = buf (p' mod sq_size).
Proof using Type.
  intros Hn Hne Hs. unfold store. rewrite (proj2 (Z.eqb_neq _ _)); [done|].
  destruct (Z.lt_total p p') as [|[|]]; [|done|]; [|by apply mod_near; lia].
  intros E. symmetry in E. revert E. apply mod_near; lia.
Qed.

(** Where an entry that matters lies. *)
Lemma lane_window s D R S K j v k r :
  ionic_inv s D R S K -> io_waves s !! j = Some v -> wv_requests v !! k = Some r ->
  waits_to_write (wv_pc v) = false -> wv_start v + Z.of_nat k < executed_count s + ionic_sq_mask q.
Proof using Type.
  intros Hi Hv Hk Hp. pose proof (ii_order _ _ _ _ _ Hi). pose proof (lookup_lt_Some _ _ _ Hk).
  destruct (wo_room _ _ _ _ (ii_waves _ _ _ _ _ Hi j v Hv) Hp); unfold wave_end, wv_n in *; lia.
Qed.

Lemma flagged_passed pc k : flagged pc k -> waits_to_write pc = false.
Proof using Type. destruct pc as [[]|[]|[]| | | | | | |[]]; done. Qed.
Lemma bodied_passed pc idx k : bodied pc idx k -> waits_to_write pc = false /\ ~ flagged pc k.
Proof using Type. destruct pc; try done. cbn. intros [-> ->]. by split. Qed.

Lemma store_lanes s D R S K i w idx lanes k r st st0 x :
  ionic_inv s D R S K -> io_waves s !! i = Some w -> wv_pc w = Writing idx lanes ->
  wv_requests w !! k = Some r -> lanes !! k = Some st0 -> st0 <> FlagsWritten ->
  let p := wv_start w + Z.of_nat k in
  let buf := store (ionic_sq_buf (io_sq s)) p x in
  lane_ok (executed_count s) buf (Writing idx (<[k := st]> lanes)) k p
    {| as_request := r; as_lane := Z.of_nat k; as_last := Z.of_nat k + 1 =? wv_n w |} ->
  all_lanes_ok s (<[i := goto w (Writing idx (<[k := st]> lanes))]> (io_waves s)) buf.
Proof using Hq.
  intros Hi Hw Hpc Hk Hst Hne p buf Hnew. pose proof size_range as Hs.
  pose proof (ii_order _ _ _ _ _ Hi) as Ho.
  pose proof (ii_slots _ _ _ _ _ Hi i w k r Hw Hk) as [_ Hfree _]. rewrite Hpc in Hfree.
  destruct (Hfree ltac:(cbn; congruence)) as [HN _]. fold p in HN.
  pose proof (lane_window _ _ _ _ _ _ _ _ _ Hi Hw Hk ltac:(by rewrite Hpc)) as Hwin. fold p in Hwin.
  assert (Hother : forall j v k' r', io_waves s !! j = Some v -> wv_requests v !! k' = Some r' ->
    wv_start v + Z.of_nat k' <> p ->
    lane_ok (executed_count s) buf (wv_pc v) k' (wv_start v + Z.of_nat k')
      {| as_request := r'; as_lane := Z.of_nat k'; as_last := Z.of_nat k' + 1 =? wv_n v |}).
  { intros j v k' r' Hv Hk' Hp. pose proof (ii_slots _ _ _ _ _ Hi j v k' r' Hv Hk') as [L1 L2 L3].
    pose proof (fun H => lane_window _ _ _ _ _ _ _ _ _ Hi Hv Hk' H) as Hwv. unfold sq_size in *. split.
    - intros Hf Hn. unfold buf. rewrite store_other; unfold sq_size; [by apply L1| |done|lia].
      specialize (Hwv (flagged_passed _ _ Hf)). lia.
    - intros Hf. destruct (L2 Hf) as [M1 M2]. split; [done|]. intros Hn. unfold sq_size in Hn. unfold slot_color, buf.
      rewrite store_other; unfold sq_size; [by apply M2|lia|done|lia].
    - intros idx' Hb. destruct (bodied_passed _ _ _ Hb) as [Hw1 Hw2]. destruct (L2 Hw2) as [M1 _].
      unfold buf. rewrite store_other; unfold sq_size; [by apply L3| |done|lia]. specialize (Hwv Hw1). lia. }
  split.
  - intros j v k' r' [[-> ->]|[Hj Hv]]%(insert_cases _ _ _ _ _ _ Hw) Hk'.
    + cbn in Hk' |- *. destruct (decide (k' = k)) as [->|Hkk].
      * rewrite Hk in Hk'. injection Hk' as <-. exact Hnew.
      * assert (Hpp : wv_start w + Z.of_nat k' <> p) by (subst p; lia).
        apply lane_ok_goto with (wv_pc w); [| |exact (Hother i w k' r' Hw Hk' Hpp)].
        -- rewrite Hpc. cbn. by rewrite list_lookup_insert_ne.
        -- rewrite Hpc. cbn. intros idx'. by rewrite list_lookup_insert_ne.
    + apply (Hother j); [done|done|]. intros E. subst p.
      destruct (position_unique _ _ _ _ _ _ _ _ _ _ _ _ _ Hi Hv Hw Hk' Hk E). done.
  - intros p' Hp'. pose proof (wo_end _ _ _ _ (ii_waves _ _ _ _ _ Hi i w Hw)) as He.
    pose proof (lookup_lt_Some _ _ _ Hk). unfold wave_end, wv_n in He. assert (p < asked_count s) by (subst p; lia).
    unfold slot_color, buf. unfold sq_size in *. rewrite store_other; unfold sq_size; [|lia|lia|lia].
    by apply (ii_free _ _ _ _ _ Hi).
Qed.

(** ** The steps of a writing wave *)

Lemma passed_room s D R S K i w :
  ionic_inv s D R S K -> io_waves s !! i = Some w -> committed (wv_pc w) = false ->
  waits_to_write (wv_pc w) = false ->
  live w = true /\ 1 <= wv_n w /\ wave_end w <= S + ionic_sq_mask q /\ wave_end w <= asked_count s /\
  asked_count s - wv_start w <= 4194304.
Proof using Type.
  intros Hi Hw Hc Hr. destruct (ii_waves _ _ _ _ _ Hi i w Hw) as [W1 W2 W3 W4 W5 W6 W8 W7].
  assert (live w = true) as Hl by (unfold live; by destruct (wv_pc w)).
  specialize (W8 Hc). split_and!; try done; [destruct (W5 Hr); lia|auto].
Qed.

(** The wave moves on in its program, and neither lock nor doorbell moves. *)
Lemma keep_pc s D R S K i w pc s' :
  ionic_inv s D R S K -> io_waves s !! i = Some w ->
  committed (wv_pc w) = false -> waits_to_write (wv_pc w) = false -> holds_sq (wv_pc w) = false ->
  committed pc = false -> waits_to_write pc = false -> holds_sq pc = false -> pc_ok D S (goto w pc) ->
  sq_prod s' = sq_prod (io_sq s) -> sq_dbprod s' = sq_dbprod (io_sq s) ->
  sq_dbreg s' = sq_dbreg (io_sq s) -> ionic_sq_lock s' = ionic_sq_lock (io_sq s) ->
  all_lanes_ok s (<[i := goto w pc]> (io_waves s)) (ionic_sq_buf s') ->
  ionic_inv (with_wave s s' (io_cq s) i (goto w pc)) D R S K.
Proof using Type.
  intros Hi Hw H1 H2 H3 H4 H5 H6 Hok E1 E2 E3 E4 Hlanes.
  destruct (passed_room _ _ _ _ _ _ _ Hi Hw H1 H2) as (P1 & P2 & P3 & P4 & P5).
  pose proof (ii_order _ _ _ _ _ Hi). pose proof (ii_room _ _ _ _ _ Hi).
  apply keep_writing with D R; try done.
  - by destruct pc as [[]|[]|[]| | | | | | |[]].
  - by destruct (wv_pc w) as [[]|[]|[]| | | | | | |[]].
  - by destruct (wv_pc w) as [[]|[]|[]| | | | | | |[]].
  - rewrite E2. apply (ii_dbprod _ _ _ _ _ Hi).
  - rewrite E3. apply (ii_reg _ _ _ _ _ Hi).
  - lia.
  - by left.
  - rewrite E4. apply (ii_rang _ _ _ _ _ Hi).
  - destruct (ii_waves _ _ _ _ _ Hi i w Hw) as [W1 W2 W3 W4 W5 W6 W8 W7].
    split; try done; cbn; [by right|congruence].
  - by rewrite H6.
  - by rewrite E4.
  - rewrite E4. auto.
Qed.

Lemma write_turn_ok s D R S K i w ch idx lanes :
  ionic_inv s D R S K -> io_waves s !! i = Some w -> wv_pc w = Writing idx lanes ->
  let '(s', w') := write_turn q lm ch idx lanes w (io_sq s) in
  ionic_inv (with_wave s s' (io_cq s) i w') D R S K.
Proof using Hq.
  intros Hi Hw Hpc. unfold write_turn. set (k := match ch with Lane i => i | SeeStop => O end).
  pose proof (wo_pc _ _ _ _ (ii_waves _ _ _ _ _ Hi i w Hw)) as Hp. unfold pc_ok in Hp. rewrite Hpc in Hp.
  assert (Hend : let '(s', w') := (if forallb (fun l => match l with FlagsWritten => true | _ => false end) lanes
      then (io_sq s, goto w (Committing idx)) else (io_sq s, w)) in
    ionic_inv (with_wave s s' (io_cq s) i w') D R S K).
  { destruct (forallb _ lanes) eqn:Ef; [|by apply same_wave].
    apply keep_pc; rewrite ?Hpc; try done.
    apply keep_lanes with D R S K; [done|done| |by intros ? ? []]. intros n Hn. rewrite Hpc. cbn. split; [|done]. intros _.
    rewrite <- Hp in Hn. apply lookup_lt_is_Some in Hn as [x Hx]. rewrite Hx.
    rewrite forallb_forall in Ef. specialize (Ef x (proj1 (list_elem_of_In _ _) (list_elem_of_lookup_2 _ _ _ Hx))).
    by destruct x. }
  destruct (lanes !! k) as [st|] eqn:Hk; [|exact Hend].
  destruct (wv_requests w !! k) as [r|] eqn:Hr; [|destruct st; exact Hend].
  pose proof (ii_slots _ _ _ _ _ Hi i w k r Hw Hr) as [L1 L2 L3]. rewrite Hpc in L1, L2, L3.
  pose proof (lookup_lt_Some _ _ _ Hk) as Hlt.
  set (a := {| as_request := r; as_lane := Z.of_nat k; as_last := Z.of_nat k + 1 =? wv_n w |}) in *.
  set (p := wv_start w + Z.of_nat k) in *.
  assert (Hst : forall f, lane_store q lm w idx k f r (ionic_sq_buf (io_sq s)) =
    store (ionic_sq_buf (io_sq s)) p (f (entry_at p idx a) (ionic_sq_buf (io_sq s) (p mod sq_size)))).
  { intros f. unfold lane_store. fold p. by rewrite sq_index. }
  destruct st; [| |exact Hend]; rewrite Hst; (apply keep_pc; rewrite ?Hpc; try done;
    [unfold pc_ok; cbn; by rewrite length_insert|cbn]).
  - destruct (L2 ltac:(cbn; congruence)) as [M1 M2].
    eapply store_lanes with (st0 := NotWritten); try done. fold p a. split.
    + cbn. rewrite list_lookup_insert_eq by done. done.
    + intros _. split; [done|]. intros Hw2. unfold slot_color. rewrite store_same. by apply M2.
    + cbn. intros idx' [<- _]. rewrite store_same. apply body_then_flags.
  - eapply store_lanes with (st0 := BodyWritten); try done. fold p a. split.
    + intros _ _. exists idx. rewrite store_same. by apply L3.
    + cbn. rewrite list_lookup_insert_eq by done. done.
    + cbn. rewrite list_lookup_insert_eq by done. by intros idx' [_ ?].
Qed.

Lemma indexing_ok s D R S K i w idx s' pc :
  ionic_inv s D R S K -> io_waves s !! i = Some w -> wv_pc w = Indexing idx ->
  (exists v, s' = set_fetching_idx v (io_sq s)) \/ s' = io_sq s ->
  (exists v, pc = Indexing (Some v)) \/ (exists v, pc = Writing v (idle_lanes w)) ->
  ionic_inv (with_wave s s' (io_cq s) i (goto w pc)) D R S K.
Proof using Type.
  intros Hi Hw Hpc Hs Hp.
  assert (forall n, ~ flagged pc n) as Hf.
  { intros n. destruct Hp as [[v ->]|[v ->]]; cbn; [by intros []|]. apply idle_lanes_lookup. }
  apply keep_pc; rewrite ?Hpc; try done; try (by destruct Hp as [[v ->]|[v ->]]); try (by destruct Hs as [[v ->]| ->]).
  - destruct Hp as [[v ->]|[v ->]]; unfold pc_ok; cbn; [done|]. unfold idle_lanes. by rewrite length_map.
  - assert (ionic_sq_buf s' = ionic_sq_buf (io_sq s)) as -> by by destruct Hs as [[v ->]| ->].
    apply keep_lanes with D R S K; [done|done| |].
    + intros n _. rewrite Hpc. cbn. split; [by intros ?%Hf|done].
    + intros v n. destruct Hp as [[u ->]|[u ->]]; cbn; [by intros []|]. intros [_ H].
      by destruct (proj2 (idle_lanes_lookup w n)).
Qed.

Definition after_pc (w : wave) : io_wave_pc :=
  if forallb fetches (wv_requests w)
  then Waiting ThenReturn (u32 (my_sq_prod w + wv_n w)) else Over.

Lemma after_commit_pc w : after_commit w = goto w (after_pc w).
Proof using Type. unfold after_commit, after_pc. by destruct (forallb _ _). Qed.

Lemma after_flags w : 
  holds_cq (after_pc w) = false /\ holds_sq (after_pc w) = false /\
  (forall k, flagged (after_pc w) k) /\ forall idx k, ~ bodied (after_pc w) idx k.
Proof using Type. unfold after_pc. destruct (forallb _ _); (split_and!; [done|done|done|by intros ? ? []]). Qed.

(** The wave has committed: [D] covers it. *)
Lemma after_ok P D S w :
  wave_ok P D S w -> waits_to_write (wv_pc w) = false -> live w = true -> wave_end w <= D -> 0 <= S ->
  wave_ok P D S (goto w (after_pc w)).
Proof using Type.
  intros [W1 W2 W3 W4 W5 W6 W8 W7] Hr Hl HD HS. unfold after_pc. split; try done; cbn.
  - intros _. by apply W4.
  - intros _. by apply W5.
  - intros _. by right.
  - by destruct (forallb _ _).
  - destruct (forallb _ _) eqn:Ef; unfold pc_ok; cbn; [|by rewrite Ef].
    unfold my_sq_prod. rewrite u32_u32_add. change 16777216 with (2 ^ 24). by rewrite u32_mod_pow2 by lia.
Qed.

Lemma contending_ok s D R S K i w idx :
  ionic_inv s D R S K -> io_waves s !! i = Some w -> wv_pc w = Committing idx ->
  ionic_sq_lock (io_sq s) = false -> 1 < wv_lanes w ->
  (forall j v, io_waves s !! j = Some v -> holds_sq (wv_pc v) = false) ->
  ionic_inv (with_wave s (take_sq_lock (sq_dbprod (io_sq s)) (io_sq s)) (io_cq s) i (goto w (Contending idx))) D R S K.
Proof using Hq.
  intros Hi Hw Hpc El H1 Hfree. pose proof (ii_order _ _ _ _ _ Hi) as Ho. pose proof (ii_room _ _ _ _ _ Hi) as Hm.
  pose proof (ii_waves _ _ _ _ _ Hi i w Hw) as [W1 W2 W3 W4 W5 W6 W8 W7].
  apply keep_writing with D R; rewrite ?Hpc; try done; try lia.
  - apply (ii_dbprod _ _ _ _ _ Hi).
  - apply (ii_reg _ _ _ _ _ Hi).
  - rewrite Hpc in *. split; try done. intros _. apply W4. unfold live. by rewrite Hpc.
  - apply keep_lanes with D R S K; [done|done| |by intros ? ? []]. intros k _. by rewrite Hpc.
  - intros _. split; [done|]. intros j v _. apply Hfree.
  - intros _. by left.
Qed.

Lemma io_commit_ok s D R S K i w idx :
  ionic_inv s D R S K -> io_waves s !! i = Some w -> wv_pc w = Committing idx ->
  let '(s', w') := commit_sq idx w (io_sq s) in
  exists D', D <= D' /\ ionic_inv (with_wave s s' (io_cq s) i w') D' R S K.
Proof using Hq.
  intros Hi Hw Hpc. destruct (passed_room _ _ _ _ _ _ _ Hi Hw ltac:(by rewrite Hpc) ltac:(by rewrite Hpc))
    as (P1 & P2 & P3 & P4 & P5).
  pose proof (ii_order _ _ _ _ _ Hi) as Ho. pose proof (ii_room _ _ _ _ _ Hi) as Hm.
  pose proof (seen_near _ _ _ _ _ Hi) as Hn. pose proof (ii_waves _ _ _ _ _ Hi i w Hw) as Hok.
  unfold commit_sq. destruct (ionic_sq_lock (io_sq s)) eqn:El; [exists D; split; [lia|by apply same_wave]|].
  assert (Hfree : forall j v, io_waves s !! j = Some v -> holds_sq (wv_pc v) = false).
  { intros j v Hv. destruct (holds_sq (wv_pc v)) eqn:E; [|done].
    destruct (ii_sq_lock _ _ _ _ _ Hi j v Hv E). congruence. }
  destruct (1 <? wv_lanes w) eqn:E1; bool_to_prop.
  { exists D. split; [lia|]. by eapply contending_ok. }
  unfold take_sq_lock, my_sq_prod. rewrite (ii_dbprod _ _ _ _ _ Hi), u32_u32_add. fold (wave_end w).
  rewrite doorbell_test by (unfold wave_end, wv_n in *; lia).
  destruct (wave_end w <=? D) eqn:Ed; bool_to_prop.
  - exists D. split; [lia|]. rewrite after_commit_pc. destruct (after_flags w) as (F1 & F2 & F3 & F4).
    apply keep_writing with D R; rewrite ?Hpc; try done; try lia.
    + apply (ii_dbprod _ _ _ _ _ Hi).
    + apply (ii_reg _ _ _ _ _ Hi).
    + apply (ii_rang _ _ _ _ _ Hi).
    + apply after_ok; rewrite ?Hpc; try done. lia.
    + apply keep_lanes with D R S K; [done|done| |done]. intros k _. rewrite Hpc. split; [done|]. intros _. apply F3.
    + by rewrite F2.
    + rewrite El. done.
  - exists (wave_end w). split; [lia|].
    apply keep_writing with D R; rewrite ?Hpc; try done; try lia.
    + apply (ii_reg _ _ _ _ _ Hi).
    + by right.
    + destruct Hok as [W1 W2 W3 W4 W5 W6 W8 W7]. split; try done. cbn. by right.
    + apply keep_lanes with D R S K; [done|done| |by intros ? ? []]. intros k _. by rewrite Hpc.
    + intros _. split; [done|]. intros j v _. apply Hfree.
    + intros _. by left.
Qed.

Lemma doorbell_value p : Z.land (Z.lor (ionic_sq_dbval q) (Z.land (ionic_sq_mask q) (u32 p))) (ionic_sq_mask q)
  = p mod sq_size.
Proof using Hq.
  rewrite Z.land_lor_distr_l, (iq_dbval Hq), Z.lor_0_l, (Z.land_comm (ionic_sq_mask q) (u32 p)).
  by rewrite <- Z.land_assoc, Z.land_diag, sq_index.
Qed.

Lemma bell_ok s D R S K i w idx :
  ionic_inv s D R S K -> io_waves s !! i = Some w -> wv_pc w = Ringing idx ->
  exists R', R <= R' /\
  ionic_inv (with_wave s (ring_doorbell_at q (u32 (my_sq_prod w + wv_n w)) w (io_sq s)) (io_cq s) i (after_commit w))
    D R' S K.
Proof using Hq.
  intros Hi Hw Hpc. destruct (passed_room _ _ _ _ _ _ _ Hi Hw ltac:(by rewrite Hpc) ltac:(by rewrite Hpc))
    as (P1 & P2 & P3 & P4 & P5).
  pose proof (ii_order _ _ _ _ _ Hi) as Ho. pose proof (ii_room _ _ _ _ _ Hi) as Hm.
  pose proof (ii_waves _ _ _ _ _ Hi i w Hw) as Hok. pose proof (wo_pc _ _ _ _ Hok) as Hp.
  unfold pc_ok in Hp. rewrite Hpc in Hp.
  destruct (ii_sq_lock _ _ _ _ _ Hi i w Hw ltac:(by rewrite Hpc)) as [L1 L2].
  rewrite after_commit_pc. destruct (after_flags w) as (F1 & F2 & F3 & F4).
  exists (if rings q w then D else R). split; [destruct (rings q w); lia|].
  apply keep_writing with D R; rewrite ?Hpc; try done; try lia.
  - apply (ii_dbprod _ _ _ _ _ Hi).
  - unfold ring_doorbell_at. cbn. destruct (rings q w); [|apply (ii_reg _ _ _ _ _ Hi)].
    unfold my_sq_prod. rewrite u32_u32_add. fold (wave_end w). by rewrite doorbell_value, Hp.
  - destruct (rings q w); lia.
  - intros Hr _. by rewrite (Hr w) by (by eapply list_elem_of_lookup_2).
  - apply after_ok; rewrite ?Hpc; try done; lia.
  - apply keep_lanes with D R S K; [done|done| |done]. intros k _. rewrite Hpc. split; [done|]. intros _. apply F3.
  - by rewrite F2.
Qed.

(** ** Every step keeps the invariant *)

Lemma io_turn_ok s D R S K i w ch :
  ionic_inv s D R S K -> io_stop s = false -> io_waves s !! i = Some w ->
  exists D' R' S' K', D <= D' /\ R <= R' /\ S <= S' /\ K + ind (is_taking (wv_pc w)) <= K' /\
    ionic_inv (turn_wave q lm i w ch s) D' R' S' K'.
Proof using Hq.
  intros Hi Hstop Hw. unfold turn_wave, io_wave_turn. rewrite Hstop. fold (with_wave s).
  destruct (wv_pc w) as [k upto|k upto lane|k upto lane p msn|[idx|]|idx lanes|idx|idx|idx| |k] eqn:Hpc.
  - pose proof (wait_turn_ok _ _ _ _ _ _ _ ch _ _ Hi Hw Hpc) as H.
    destruct (wait_turn _ _ _ _ _ _ _) as [c' w']. exists D, R, S, K. split_and!; try (cbn; lia). rewrite <- Hstop. exact H.
  - pose proof (locked_turn_ok _ _ _ _ _ _ _ ch _ _ _ Hi Hw Hpc) as H.
    destruct (locked_turn _ _ _ _ _ _ _ _) as [c' w']. exists D, R, S, K. split_and!; try (cbn; lia). rewrite <- Hstop. exact H.
  - destruct (taking_turn_ok _ _ _ _ _ _ _ _ _ _ _ _ Hi Hw Hpc) as (S' & K' & H1 & H2 & H).
    exists D, R, S', K'. split_and!; try (cbn; lia). rewrite <- Hstop. exact H.
  - exists D, R, S, K. split_and!; try (cbn; lia). rewrite <- Hstop.
    apply (indexing_ok _ _ _ _ _ _ _ (Some idx)); try done; [left; by eexists|right; by eexists].
  - exists D, R, S, K. split_and!; try (cbn; lia). rewrite <- Hstop.
    apply (indexing_ok _ _ _ _ _ _ _ None); try done; [by right|left; by eexists].
  - pose proof (write_turn_ok _ _ _ _ _ _ _ ch _ _ Hi Hw Hpc) as H.
    destruct (write_turn _ _ _ _ _ _ _) as [s' w']. exists D, R, S, K. split_and!; try (cbn; lia). rewrite <- Hstop. exact H.
  - pose proof (io_commit_ok _ _ _ _ _ _ _ _ Hi Hw Hpc) as H.
    destruct (commit_sq _ _ _) as [s' w']. destruct H as (D' & HD & H). exists D', R, S, K.
    split_and!; try (cbn; lia). rewrite <- Hstop. exact H.
  - exists D, R, S, K. split_and!; try (cbn; lia). rewrite <- Hstop. by apply same_wave.
  - destruct (bell_ok _ _ _ _ _ _ _ _ Hi Hw Hpc) as (R' & HR & H). exists D, R', S, K.
    split_and!; try (cbn; lia). rewrite <- Hstop. exact H.
  - exists D, R, S, K. split_and!; try (cbn; lia). rewrite <- Hstop. by apply same_wave.
  - exists D, R, S, K. split_and!; try (cbn; lia). rewrite <- Hstop. by apply same_wave.
Qed.

(** ** The NIC *)

Lemma flagged_dec pc k : flagged pc k \/ ~ flagged pc k.
Proof using Type.
  destruct pc as [[]|[]|[]| |i l| | | | |[]]; cbn; auto.
  destruct (l !! k) as [[]|]; (by left) || (by right).
Qed.

Lemma signal_old l m c : 0 <= c < Z.of_nat (length l) -> io_signal (l ++ [m]) c = io_signal l c.
Proof using Type. intros Hc. unfold io_signal. by rewrite lookup_app_l by lia. Qed.
Lemma signal_new l m : io_signal (l ++ [m]) (Z.of_nat (length l)) = m.
Proof using Type. unfold io_signal. by rewrite Nat2Z.id, lookup_app_r, Nat.sub_diag by lia. Qed.

Lemma length_snoc {A} (l : list A) x : Z.of_nat (length (l ++ [x])) = Z.of_nat (length l) + 1.
Proof using Type. rewrite length_app. cbn. lia. Qed.

Lemma signals_later N l : signals_ok N l -> signals_ok (N + 1) l.
Proof using Type. intros [H1 H2]. split; [intros c Hc; specialize (H1 c Hc); lia|done]. Qed.

Lemma signals_snoc N l : signals_ok N l -> 0 <= N -> signals_ok (N + 1) (l ++ [N + 1]).
Proof using Type.
  intros [H1 H2] HN. split; rewrite length_snoc.
  - intros c Hc. destruct (Z.eq_dec c (Z.of_nat (length l))) as [->|]; [rewrite signal_new; lia|].
    rewrite signal_old by lia. specialize (H1 c ltac:(lia)). lia.
  - intros c d Hcd Hd. destruct (Z.eq_dec d (Z.of_nat (length l))) as [->|].
    + rewrite signal_new. destruct (Z.eq_dec c (Z.of_nat (length l))) as [->|]; [rewrite signal_new; lia|].
      rewrite signal_old by lia. pose proof (H2 c (Z.of_nat (length l) - 1) ltac:(lia) ltac:(lia)).
      specialize (H1 (Z.of_nat (length l) - 1) ltac:(lia)). lia.
    + rewrite !signal_old by lia. apply H2; lia.
Qed.

(** Completions not taken, against entries executed and not seen. *)
Lemma unseen N S K l c : signals_ok N l -> ring_ok N S K l c -> S <= N -> S + (Z.of_nat (length l) - K) <= N.
Proof using Type.
  intros [S1 S2] [R1 R2 R3 R4 R5 R6] HS.
  destruct (Z.eq_dec K (Z.of_nat (length l))) as [->|]; [lia|].
  specialize (S1 (Z.of_nat (length l) - 1) ltac:(lia)) as H1. destruct (K =? 0) eqn:E; bool_to_prop.
  - pose proof (S2 0 (Z.of_nat (length l) - 1) ltac:(lia) ltac:(lia)). specialize (S1 0 ltac:(lia)). lia.
  - pose proof (S2 (K - 1) (Z.of_nat (length l) - 1) ltac:(lia) ltac:(lia)). lia.
Qed.

Definition complete (c : ionic_cq) (n : Z) (cqe : ionic_v1_cqe) : ionic_cq :=
  {| ionic_cq_buf := fun j => if j =? n mod cq_size then cqe else ionic_cq_buf c j;
     ionic_cq_lock := ionic_cq_lock c; cq_pos := cq_pos c; cq_dbpos := cq_dbpos c;
     cq_dbreg := cq_dbreg c; sq_msn := sq_msn c |}.

Lemma ring_ok_later N S K l c : ring_ok N S K l c -> ring_ok (N + 1) S K l c.
Proof using Type. by intros []. Qed.

Lemma ring_ok_complete N S K l c cqe err :
  signals_ok N l -> ring_ok N S K l c -> S <= N < S + ionic_sq_mask q -> sq_size <= cq_size ->
  nic_cqe q (Z.of_nat (length l)) N err cqe ->
  ring_ok (N + 1) S K (l ++ [N + 1]) (complete c (Z.of_nat (length l)) cqe).
Proof using Type.
  intros Hs Hr HN Hz Hc. pose proof (unseen _ _ _ _ _ Hs Hr ltac:(lia)) as Hu.
  destruct Hr as [R1 R2 R3 R4 R5 R6]. unfold sq_size in Hz. split; cbn; rewrite ?length_snoc; try done; try lia.
  - rewrite R4. destruct (K =? 0) eqn:E; bool_to_prop; [done|]. by rewrite signal_old by lia.
  - intros j Hj. destruct (Z.eq_dec j (Z.of_nat (length l))) as [->|Hne].
    + rewrite Z.eqb_refl, signal_new. exists err. by replace (N + 1 - 1) with N by lia.
    + rewrite (proj2 (Z.eqb_neq _ _)) by (apply mod_near; lia). rewrite signal_old by lia. apply R5. lia.
  - intros j Hj. rewrite (proj2 (Z.eqb_neq _ _)); [apply R6; lia|].
    intros E. symmetry in E. revert E. apply mod_near; lia.
Qed.

Lemma collapsed_complete N l c cqe err :
  ionic_cq_mask q = 0 -> nic_cqe q (Z.of_nat (length l)) N err cqe ->
  collapsed_ok (N + 1) (l ++ [N + 1]) (complete c (Z.of_nat (length l)) cqe).
Proof using Type.
  intros E Hc. apply nic_cqe_reads in Hc as (_ & _ & Hn). split; rewrite ?length_snoc.
  - rewrite (proj2 (Z.eqb_neq _ _)) by lia. replace (Z.of_nat (length l) + 1 - 1) with (Z.of_nat (length l)) by lia.
    by rewrite signal_new.
  - cbn. unfold cq_size. rewrite E. change (0 + 1) with 1. by rewrite Z.mod_1_r.
Qed.

Lemma slot_next_round (buf : Z -> ionic_v1_wqe) p :
  0 < sq_size -> slot_color buf (p + sq_size) = slot_color buf p /\ sq_color (p + sq_size) = negb (sq_color p).
Proof using Type.
  intros Hs. unfold slot_color, sq_color, round_color. fold sq_size.
  replace (p + sq_size) with (p + 1 * sq_size) at 1 by lia. rewrite Z.mod_add by lia. by rewrite next_round.
Qed.

(** What the NIC finds when it goes on. *)
Lemma nic_finds s D R S K :
  ionic_inv s D R S K -> nic_ready q s = true ->
  executed_count s < R /\ slot_color (ionic_sq_buf (io_sq s)) (executed_count s) = sq_color (executed_count s) /\
  exists i w k r, io_waves s !! i = Some w /\ wv_requests w !! k = Some r /\
    wv_start w + Z.of_nat k = executed_count s /\ flagged (wv_pc w) k.
Proof using Hq.
  intros Hi Hn. pose proof size_range as Hsz. pose proof (ii_order _ _ _ _ _ Hi) as Ho.
  pose proof (ii_room _ _ _ _ _ Hi) as Hm. unfold nic_ready in Hn. bool_to_prop. fold sq_size in *.
  rewrite (ii_reg _ _ _ _ _ Hi) in H.
  assert (executed_count s < R) as HR by (destruct (Z.eq_dec (executed_count s) R) as [E|]; [by rewrite E in H|lia]).
  apply eqb_prop in H0. split_and!; [done|exact H0|].
  assert (0 <= executed_count s < asked_count s) as HN by lia.
  destruct (ii_cover _ _ _ _ _ Hi (executed_count s) HN) as (i & w & k & r & Hw & Hk & E).
  exists i, w, k, r. split_and!; try done. destruct (flagged_dec (wv_pc w) k) as [|Hf]; [done|exfalso].
  destruct (lo_free _ _ _ _ _ _ (ii_slots _ _ _ _ _ Hi i w k r Hw Hk) Hf) as [_ Hc].
  rewrite <- E in Hc. specialize (Hc ltac:(lia)). unfold slot_color in Hc.
  unfold nic_slot in H0. fold sq_size in H0. rewrite H0 in Hc. unfold sq_color in Hc. by destruct (round_color _ _).
Qed.

(** The NIC moves the window on by one. *)
Lemma nic_lanes s D R S K i w k r j v k' r' :
  ionic_inv s D R S K -> io_waves s !! i = Some w -> wv_requests w !! k = Some r ->
  wv_start w + Z.of_nat k = executed_count s -> flagged (wv_pc w) k ->
  slot_color (ionic_sq_buf (io_sq s)) (executed_count s) = sq_color (executed_count s) ->
  io_waves s !! j = Some v -> wv_requests v !! k' = Some r' ->
  lane_ok (executed_count s + 1) (ionic_sq_buf (io_sq s)) (wv_pc v) k' (wv_start v + Z.of_nat k')
    {| as_request := r'; as_lane := Z.of_nat k'; as_last := Z.of_nat k' + 1 =? wv_n v |}.
Proof using Hq.
  intros Hi Hw Hk Hp Hf Hcol Hv Hk'. pose proof size_range as Hsz.
  pose proof (ii_slots _ _ _ _ _ Hi j v k' r' Hv Hk') as [L1 L2 L3]. split; [intros F ?; apply L1; [done|lia]| |done].
  intros F. destruct (L2 F) as [M1 M2].
  assert (wv_start v + Z.of_nat k' <> executed_count s) as Hne.
  { intros E. rewrite <- Hp in E.
    destruct (position_unique _ _ _ _ _ _ _ _ _ _ _ _ _ Hi Hv Hw Hk' Hk E) as [-> ->].
    rewrite Hw in Hv. injection Hv as <-. done. }
  split; [lia|]. intros Hlt.
  destruct (Z.lt_ge_cases (wv_start v + Z.of_nat k') (executed_count s + sq_size)); [by apply M2|].
  replace (wv_start v + Z.of_nat k') with (executed_count s + sq_size) by lia.
  destruct (slot_next_round (ionic_sq_buf (io_sq s)) (executed_count s) ltac:(lia)) as [-> ->].
  by rewrite Hcol, negb_involutive.
Qed.

Definition nic_state (s : ionic_system) (c : ionic_cq) (sig : list Z) : ionic_system :=
  {| io_sq := io_sq s; io_cq := c; io_stop := io_stop s; io_waves := io_waves s; io_asked := io_asked s;
     io_executed := io_executed s ++ [nic_slot q s]; io_signaled := sig |}.

Lemma nic_state_ok s D R S K c sig S' :
  ionic_inv s D R S K -> nic_ready q s = true ->
  S <= S' <= executed_count s + 1 -> ionic_cq_lock c = ionic_cq_lock (io_cq s) ->
  signals_ok (executed_count s + 1) sig ->
  (forall m, m ∈ io_signaled s -> m ∈ sig) ->
  (nic_flag (nic_slot q s) IONIC_V1_FLAG_SIG = true -> (executed_count s + 1) ∈ sig) ->
  (ionic_cq_mask q <> 0 -> ring_ok (executed_count s + 1) S' K sig c) ->
  (ionic_cq_mask q = 0 -> collapsed_ok S' sig c) ->
  (forall i w, io_waves s !! i = Some w -> taking_ok K sig w) ->
  ionic_inv (nic_state s c sig) D R S' K.
Proof using Hq.
  intros Hi Hn HS Hl Hsig Hin Hlast Hring Hcol Ht. pose proof size_range as Hsz.
  destruct (nic_finds _ _ _ _ _ Hi Hn) as (HR & Hc & i & w & k & r & Hw & Hk & Hp & Hf).
  pose proof (ii_order _ _ _ _ _ Hi) as Ho. pose proof (ii_room _ _ _ _ _ Hi) as Hm.
  assert (Hent : exists idx, nic_slot q s = entry_at (executed_count s) idx
    {| as_request := r; as_lane := Z.of_nat k; as_last := Z.of_nat k + 1 =? wv_n w |}).
  { pose proof (ii_slots _ _ _ _ _ Hi i w k r Hw Hk) as [L1 _ _]. rewrite Hp in L1. apply L1; [done|lia]. }
  destruct Hent as (idx & Hent). pose proof (ii_asked _ _ _ _ _ Hi i w k r Hw Hk) as Ha. rewrite Hp in Ha.
  unfold executed_count in Ha. rewrite Nat2Z.id in Ha.
  pose proof (fun j v k' r' => nic_lanes s D R S K i w k r j v k' r' Hi Hw Hk Hp Hf Hc) as Hlanes.
  assert (Hex : executed_count (nic_state s c sig) = executed_count s + 1) by (unfold executed_count; cbn; by rewrite length_snoc).
  destruct Hi as [I1 I2 I3 I4 I5 I6 I7 I8 I9 I10 I11 I12 I13 I14 I15 I16 I17 I18 I19 I20 I21 I22 I23].
  split; rewrite ?Hex; try done; unfold nic_state, asked_count in *; cbn.
  - lia.
  - lia.
  - intros j v Hv. apply wave_ok_later with D S; [lia|lia|done|by apply (I10 j)].
  - intros p Hpp. destruct (Z.lt_ge_cases p (executed_count s + sq_size)); [apply I12; lia|].
    replace p with (executed_count s + sq_size) by lia.
    destruct (slot_next_round (ionic_sq_buf (io_sq s)) (executed_count s) ltac:(lia)) as [-> ->].
    by rewrite Hc, negb_involutive.
  - intros j x. rewrite lookup_app_Some. intros [Hx|[Hj Hx]]; [by apply I13|].
    apply list_lookup_singleton_Some in Hx as [Hj0 <-]. assert (j = length (io_executed s)) as -> by lia.
    eexists _, idx. split; [exact Ha|exact Hent].
  - intros j a Hja Hj Hal. destruct (Z.eq_dec (Z.of_nat j) (executed_count s)) as [E|].
    + rewrite E. apply Hlast. assert (j = length (io_executed s)) as -> by (unfold executed_count in E; lia).
      rewrite Hent. rewrite (proj2 (entry_flags _ _ _)). rewrite Ha in Hja. by injection Hja as <-.
    + apply Hin. apply (I15 j a); [done|lia|done].
  - rewrite Hl. done.
  - rewrite Hl. done.
Qed.

Lemma nic_ok s D R S K err cqe :
  ionic_inv s D R S K -> nic_ready q s = true -> nic_cqe q (signaled_count s) (executed_count s) err cqe ->
  exists S', S <= S' /\ ionic_inv (nic_execute q err cqe s) D R S' K.
Proof using Hq.
  intros Hi Hn Hc. destruct (nic_finds _ _ _ _ _ Hi Hn) as (HR & _).
  pose proof (ii_order _ _ _ _ _ Hi) as Ho. pose proof (ii_room _ _ _ _ _ Hi) as Hm.
  pose proof (ii_signals _ _ _ _ _ Hi) as Hsg. unfold nic_execute.
  destruct (nic_flag (nic_slot q s) IONIC_V1_FLAG_SIG || err) eqn:Ef.
  - exists (if ionic_cq_mask q =? 0 then executed_count s + 1 else S).
    split; [destruct (ionic_cq_mask q =? 0); lia|].
    apply (nic_state_ok s D R S K (complete (io_cq s) (signaled_count s) cqe)); try done.
    + destruct (ionic_cq_mask q =? 0); lia.
    + apply signals_snoc; [done|lia].
    + intros m Hm'. apply elem_of_app. by left.
    + intros _. apply elem_of_app. right. by left.
    + intros E. rewrite (proj2 (Z.eqb_neq _ _) E). destruct (iq_cq Hq) as [|(b & Hb & Eb & Hsz)]; [done|].
      apply ring_ok_complete with err; try done; [by apply (ii_ring _ _ _ _ _ Hi)|lia].
    + intros E. rewrite E, Z.eqb_refl. by apply collapsed_complete with err.
    + intros i w Hw. pose proof (ii_taking _ _ _ _ _ Hi i w Hw) as Ht. unfold taking_ok in *.
      destruct (wv_pc w) eqn:Hpc; try done. destruct Ht as (j & Hj & -> & Hm').
      assert (ionic_cq_mask q <> 0) as Hmask.
      { intros E. pose proof (ii_modes _ _ _ _ _ Hi E i w Hw) as Hh. by rewrite Hpc in Hh. }
      exists j. rewrite length_snoc, signal_old; [split_and!; [lia|lia|done|done]|].
      pose proof (ro_range _ _ _ _ _ (ii_ring _ _ _ _ _ Hi Hmask)). lia.
  - apply orb_false_iff in Ef as [Ef1 Ef2]. exists S. split; [lia|].
    apply (nic_state_ok s D R S K (io_cq s)); try done.
    + lia.
    + by apply signals_later.
    + congruence.
    + intros E. apply ring_ok_later. by apply (ii_ring _ _ _ _ _ Hi).
    + intros E. by apply (ii_collapsed _ _ _ _ _ Hi).
    + apply (ii_taking _ _ _ _ _ Hi).
Qed.

(** ** Calls *)

Lemma asked_by_lookup l k r :
  l !! k = Some r -> asked_by l !! k =
    Some {| as_request := r; as_lane := Z.of_nat k; as_last := Z.of_nat k + 1 =? Z.of_nat (length l) |}.
Proof using Type. intros Hk. unfold asked_by. by rewrite list_lookup_imap, Hk. Qed.

Lemma length_asked_by l : length (asked_by l) = length l.
Proof using Type. apply length_imap. Qed.

Lemma app_cases {A} (l : list A) x (j : nat) y :
  (l ++ [x]) !! j = Some y -> l !! j = Some y \/ j = length l /\ y = x.
Proof using Type.
  rewrite lookup_app_Some. intros [?|[Hj Hx]]; [by left|]. right.
  apply list_lookup_singleton_Some in Hx as [Hj0 <-]. split; [lia|done].
Qed.

Section Call.
Context (s : ionic_system) (D R S K : Z) (c : ionic_call).
Hypothesis (Hi : ionic_inv s D R S K) (Hc : call_ok q c)
  (Hover : not_overtaken (Z.of_nat (length (call_requests c))) s).

Let n : Z := Z.of_nat (length (call_requests c)).

Lemma call_asked : asked_count (call_wave q c s) = asked_count s + n.
Proof using Hi Hc Hover. unfold asked_count, call_wave. cbn. rewrite length_app, length_asked_by. lia. Qed.

Lemma call_n : n <= 64.
Proof using Hi Hc Hover. pose proof (co_lanes _ _ Hc). destruct c; unfold n; cbn in *; lia. Qed.

(** Nothing of a new wave is published. *)
Lemma new_wave_pc :
  (exists u, wv_pc (new_wave q c s) = Waiting ThenWrite u /\ 1 <= n /\
     u mod 16777216 = (asked_count s + n - ionic_sq_mask q) mod 16777216) \/
  (exists u, wv_pc (new_wave q c s) = Waiting ThenReturn u /\ n = 0 /\
     u mod 16777216 = asked_count s mod 16777216).
Proof using Hi Hc Hover.
  pose proof (ii_prod _ _ _ _ _ Hi) as Hp. pose proof (co_lanes _ _ Hc).
  destruct c as [b k l|b k m]; cbn in *; [left|right]; eexists; (split; [reflexivity|]); cbn.
  - split; [lia|]. unfold room_cons. rewrite Hp.
    replace (u32 (asked_count s) + Z.of_nat (length l) - ionic_sq_mask q)
      with (u32 (asked_count s) + (Z.of_nat (length l) - ionic_sq_mask q)) by lia.
    rewrite u32_u32_add. change 16777216 with (2 ^ 24). rewrite u32_mod_pow2 by lia. f_equal. lia.
  - split; [done|]. rewrite Hp. change 16777216 with (2 ^ 24). by rewrite u32_mod_pow2 by lia.
Qed.

Lemma new_wave_ok : wave_ok (asked_count s + n) D S (new_wave q c s).
Proof using Hi Hc Hover.
  pose proof call_n. pose proof (co_lanes _ _ Hc). pose proof (ii_order _ _ _ _ _ Hi). pose proof (ii_room _ _ _ _ _ Hi).
  destruct new_wave_pc as [(u & Hpc & Hn & Hu)|(u & Hpc & Hn & Hu)].
  - split; rewrite ?Hpc; try done; cbn; unfold wave_end, wv_n; cbn; try (fold n; lia).
    unfold pc_ok. rewrite Hpc, Hu. unfold target, wave_end, wv_n. cbn. fold n. f_equal; lia.
  - split; rewrite ?Hpc; try done; cbn; unfold wave_end, wv_n; cbn; try (fold n; lia).
    unfold pc_ok. rewrite Hpc, Hu. unfold target, wave_end, wv_n. cbn. fold n. f_equal; lia.
Qed.

Lemma new_wave_unflagged k r : call_requests c !! k = Some r ->
  ~ flagged (wv_pc (new_wave q c s)) k /\ forall idx, ~ bodied (wv_pc (new_wave q c s)) idx k.
Proof using Hi Hc Hover. destruct c; cbn; [|done]. intros _. split; [done|by intros ? []]. Qed.

Lemma call_keeps : ionic_inv (call_wave q c s) D R S K.
Proof using Hi Hc Hover Hq.
  pose proof call_asked as Hac. pose proof new_wave_ok as Hnew. pose proof size_range as Hsz.
  pose proof (ii_order _ _ _ _ _ Hi) as Ho. pose proof (ii_room _ _ _ _ _ Hi) as Hm.
  assert (0 <= n) as Hn0 by (unfold n; lia).
  pose proof new_wave_unflagged as Hun.
  assert (Hpc : holds_cq (wv_pc (new_wave q c s)) = false /\ holds_sq (wv_pc (new_wave q c s)) = false /\
    forall l, taking_ok K l (new_wave q c s)) by (by destruct c).
  destruct Hpc as (Hp1 & Hp2 & Hp3).
  destruct Hi as [I1 I2 I3 I4 I5 I6 I7 I8 I9 I10 I11 I12 I13 I14 I15 I16 I17 I18 I19 I20 I21 I22 I23].
  assert (Hat : forall p, 0 <= p < asked_count s -> io_asked (call_wave q c s) !! Z.to_nat p = io_asked s !! Z.to_nat p).
  { intros p Hp. unfold call_wave. cbn. rewrite lookup_app_l; [done|]. unfold asked_count in Hp. lia. }
  split; rewrite ?Hac; try done; unfold call_wave; cbn -[asked_by].
  - by rewrite I1, u32_u32_add.
  - lia.
  - intros Hr. apply I6. intros w Hw. apply Hr. apply elem_of_app. by left.
  - intros i j w v [Hw|[-> ->]]%app_cases [Hv|[-> ->]]%app_cases Hij.
    + by apply (I7 i j).
    + cbn. apply (wo_end _ _ _ _ (I10 i w Hw)).
    + apply lookup_lt_Some in Hv. lia.
    + lia.
  - intros p Hp. destruct (Z.lt_ge_cases p (asked_count s)).
    + destruct (I8 p ltac:(lia)) as (i & w & k & r & Hw & Hk & E). exists i, w, k, r.
      split_and!; [|done|done]. apply lookup_app_l_Some. done.
    + assert (Z.to_nat (p - asked_count s) < length (call_requests c))%nat as Hlt by (unfold n in Hp; lia).
      apply lookup_lt_is_Some in Hlt as [r Hr]. exists (length (io_waves s)), (new_wave q c s), (Z.to_nat (p - asked_count s)), r.
      split_and!; [by apply list_lookup_middle|done|cbn; lia].
  - intros i w k r [Hw|[-> ->]]%app_cases Hk.
    + pose proof (lookup_lt_Some _ _ _ Hk). pose proof (wo_end _ _ _ _ (I10 i w Hw)).
      pose proof (wo_start _ _ _ _ (I10 i w Hw)). unfold wave_end, wv_n in *.
      rewrite lookup_app_l by (unfold asked_count in *; lia). by apply (I9 i).
    + cbn in Hk |- *. rewrite lookup_app_r by (unfold asked_count; lia).
      replace (Z.to_nat (asked_count s + Z.of_nat k) - length (io_asked s))%nat with k by (unfold asked_count; lia).
      by apply asked_by_lookup.
  - intros i w [Hw|[-> ->]]%app_cases; [|done].
    destruct (I10 i w Hw) as [W1 W2 W3 W4 W5 W6 W8 W7]. split; try done; [lia|].
    intros Hl. apply Hover in Hl; [fold n in Hl; lia|]. by eapply list_elem_of_lookup_2.
  - intros i w k r [Hw|[-> ->]]%app_cases Hk; [by apply (I11 i)|]. cbn in Hk.
    destruct (Hun k r Hk) as [U1 U2]. split; [done| |by intros idx ?%U2]. intros _. split.
    + cbn. unfold executed_count in *. cbn. lia.
    + intros Hlt. apply I12. unfold executed_count in *. cbn in *. lia.
  - intros p Hp. apply I12. unfold executed_count in *. cbn in *. lia.
  - intros i w Hx. destruct (I13 i w Hx) as (a & idx & Ha & E). exists a, idx. split; [|done].
    apply lookup_app_l_Some. done.
  - intros i a Ha Hlt Hal. apply (I15 i a); [|done|done].
    rewrite lookup_app_l in Ha; [done|]. unfold executed_count, asked_count in *. cbn in *. lia.
  - intros i w [Hw|[-> ->]]%app_cases; [by apply (I18 i)|done].
  - intros E i w [Hw|[-> ->]]%app_cases; [by apply (I19 E i)|done].
  - intros i w [Hw|[-> ->]]%app_cases Hh; [|congruence]. destruct (I20 i w Hw Hh) as [L1 L2].
    split; [done|]. intros j v [Hv|[-> ->]]%app_cases Hh'; [by apply (L2 j v)|congruence].
  - intros Hl. destruct (I21 Hl) as (i & w & Hw & Hh). exists i, w. split; [|done]. by apply lookup_app_l_Some.
  - intros i w [Hw|[-> ->]]%app_cases Hh; [|congruence]. destruct (I22 i w Hw Hh) as [L1 L2].
    split; [done|]. intros j v [Hv|[-> ->]]%app_cases Hh'; [by apply (L2 j v)|congruence].
  - intros Hl. destruct (I23 Hl) as (i & w & Hw & Hh). exists i, w. split; [|done]. by apply lookup_app_l_Some.
Qed.
End Call.

(** ** Every reachable state *)

Lemma io_start_ok : ionic_inv (ionic_start q) 0 0 0 0.
Proof using Hq.
  pose proof size_range as Hsz.
  assert (Hcol : forall mask p, 0 <= p < mask + 1 -> round_color mask p = true)
    by (intros mask p Hp; unfold round_color; by rewrite Z.div_small by lia).
  split; unfold asked_count, executed_count; cbn -[Z.of_nat]; try done; try (unfold sq_size in *; lia).
  - rewrite (iq_dbval Hq). by rewrite Z.mod_0_l by lia.
  - intros p Hp. unfold slot_color, sq_color. cbn. rewrite Hcol by (unfold sq_size in Hp; lia). vm_compute. reflexivity.
  - split; cbn; lia.
  - intros E. split; cbn; try done; [intros j Hj; lia|].
    intros j Hj. unfold cq_color. rewrite Hcol by (unfold cq_size in Hj; lia). vm_compute. reflexivity.
Qed.

Lemma io_step_ok s s' D R S K :
  ionic_step q lm s s' -> io_stop s' = false -> ionic_inv s D R S K ->
  exists D' R' S' K', D <= D' /\ R <= R' /\ S <= S' /\ K <= K' /\ ionic_inv s' D' R' S' K'.
Proof using Hq.
  intros Hst Hstop Hi. destruct Hst as [s c Hc Hov|s i w ch Hw|s err cqe Hn Hc|s]; [| | |done].
  - exists D, R, S, K. split_and!; try lia. by apply call_keeps.
  - destruct (io_turn_ok s D R S K i w ch Hi) as (D' & R' & S' & K' & H1 & H2 & H3 & H4 & H); [|done|].
    + unfold turn_wave in Hstop. by destruct (io_wave_turn _ _ _ _ _ _ _) as [[? ?] ?].
    + pose proof (ind_nonneg (is_taking (wv_pc w))). exists D', R', S', K'. split_and!; (lia || done).
  - destruct (nic_ok _ _ _ _ _ _ _ Hi Hn Hc) as (S' & HS & Hi'). exists D, R, S', K. split_and!; (lia || done).
Qed.

Lemma step_stop_mono s s' : ionic_step q lm s s' -> io_stop s' = false -> io_stop s = false.
Proof using Type.
  intros [s0 c _ _|s0 i w ch _|s0 err cqe _ _|s0]; cbn; try done.
  - unfold turn_wave. by destruct (io_wave_turn _ _ _ _ _ _ _) as [[? ?] ?].
  - unfold nic_execute. by destruct (nic_flag _ _ || err).
Qed.

Lemma io_reachable_ok s : ionic_reachable q lm s -> io_stop s = false -> exists D R S K, ionic_inv s D R S K.
Proof using Hq.
  unfold ionic_reachable. revert s. apply (rtc_ind_r (fun s => io_stop s = false -> exists D R S K, ionic_inv s D R S K)).
  - intros _. exists 0, 0, 0, 0. apply io_start_ok.
  - intros s s' _ Hst IH Hstop. destruct IH as (D & R & S & K & Hi); [by eapply step_stop_mono|].
    destruct (io_step_ok _ _ _ _ _ _ Hst Hstop Hi) as (D' & R' & S' & K' & _ & _ & _ & _ & Hi'). by exists D', R', S', K'.
Qed.
End Steps.
End Inv.
