(* ===== verification/IonicLive.v ===== *)
(** * Progress of the ionic queue pair

    From every reachable state the waves in flight and the NIC can run on
    until every wave has returned and every entry has been executed, if the
    doorbells reach the NIC and it is the first lane that polls.  [progress]
    is a measure that no run exceeds; [advance] finds a step that increases
    it. *)

From S2P Require Import Prelude Endian Ionic IonicInv.

Arguments Z.mul : simpl never.
Arguments Z.add : simpl never.
Arguments Z.sub : simpl never.
Arguments Z.modulo : simpl never.
Arguments Z.div : simpl never.
Arguments Z.pow : simpl never.
Arguments Z.land : simpl never.
Arguments Z.lor : simpl never.
Arguments Z.testbit : simpl never.
Arguments Z.of_nat : simpl never.

(** ** The measure *)

Definition lane_rank (l : lane_pc) : Z :=
  match l with NotWritten => 0 | BodyWritten => 1 | FlagsWritten => 2 end.

(** How far a wave has come. *)
Definition rank (w : wave) : Z :=
  match wv_pc w with
  | Waiting ThenWrite _ => 0
  | Polling ThenWrite _ _ => 1
  | Taking ThenWrite _ _ _ _ => 2
  | Indexing None => 3
  | Indexing (Some _) => 4
  | Writing _ lanes => 5 + sumZ lane_rank lanes
  | Committing _ => 6 + 2 * wv_n w
  | Contending _ | Ringing _ => 7 + 2 * wv_n w
  | Waiting ThenReturn _ => 8 + 2 * wv_n w
  | Polling ThenReturn _ _ => 9 + 2 * wv_n w
  | Taking ThenReturn _ _ _ _ => 10 + 2 * wv_n w
  | Over => 11 + 2 * wv_n w
  | Aborted _ => 12 + 2 * wv_n w
  end.

Lemma sumZ_insert {A} (f : A -> Z) (l : list A) (i : nat) x y :
  l !! i = Some x -> sumZ f (<[i := y]> l) = sumZ f l - f x + f y.
Proof.
  revert i. induction l as [|z l IH]; intros [|i] Hi; try done.
  - injection Hi as ->. cbn. lia.
  - cbn [list_insert insert sumZ]. change (<[i := y]> l) with (<[i := y]> l). 
    cbn. specialize (IH i Hi). change (list_insert i y l) with (<[i := y]> l). lia.
Qed.

Lemma sumZ_le {A} (f g : A -> Z) (l : list A) : (forall x, x ∈ l -> f x <= g x) -> sumZ f l <= sumZ g l.
Proof.
  induction l as [|x l IH]; intros H; cbn; [lia|].
  specialize (H x (list_elem_of_here x l)) as H1. assert (sumZ f l <= sumZ g l) by (apply IH; intros y Hy; apply H; by right). lia.
Qed.

Lemma lane_rank_range l : 0 <= lane_rank l <= 2.
Proof. destruct l; cbn; lia. Qed.

Lemma lanes_rank (l : list lane_pc) : 0 <= sumZ lane_rank l <= 2 * Z.of_nat (length l).
Proof.
  induction l as [|x l IH]; cbn [sumZ length]; [lia|]. pose proof (lane_rank_range x). lia.
Qed.

Section Live.
Context (q : ionic_config) (lm : Z -> Z).
Hypothesis Hq : qp_ok q.

Definition progress (s : ionic_system) (K : Z) : Z :=
  sumZ rank (io_waves s) + executed_count s + 2 * K.
Definition progress_limit (s : ionic_system) : Z :=
  sumZ (fun w => 12 + 2 * wv_n w) (io_waves s) + 3 * asked_count s.

Lemma rank_range P D S w : wave_ok q P D S w -> 0 <= rank w <= 12 + 2 * wv_n w.
Proof using Type.
  intros [W1 W2 W3 W4 W5 W6 W8 W7]. unfold rank, wv_n in *. unfold pc_ok in W7.
  destruct (wv_pc w) as [[]|[]|[]|[]|idx lanes|idx|idx|idx| |[]]; try lia.
  pose proof (lanes_rank lanes). lia.
Qed.

Lemma progress_bounded s D R S K : ionic_inv q lm s D R S K -> 0 <= K -> K <= signaled_count s ->
  progress s K <= progress_limit s.
Proof using Type.
  intros Hi HK1 HK. unfold progress, progress_limit.
  assert (sumZ rank (io_waves s) <= sumZ (fun w => 12 + 2 * wv_n w) (io_waves s)).
  { apply sumZ_le. intros w (i & Hw)%list_elem_of_lookup. by apply (rank_range _ _ _ _ (ii_waves _ _ _ _ _ _ _ Hi i w Hw)). }
  pose proof (ii_order _ _ _ _ _ _ _ Hi). pose proof (ii_room _ _ _ _ _ _ _ Hi).
  assert (signaled_count s <= executed_count s); [|lia].
  destruct (ii_signals _ _ _ _ _ _ _ Hi) as [S1 S2]. unfold signaled_count in *.
  destruct (Z.eq_dec (Z.of_nat (length (io_signaled s))) 0); [lia|].
  pose proof (S2 0 (Z.of_nat (length (io_signaled s)) - 1) ltac:(lia) ltac:(lia)).
  pose proof (S1 0 ltac:(lia)). pose proof (S1 (Z.of_nat (length (io_signaled s)) - 1) ltac:(lia)). lia.
Qed.

(** ** Good runs *)

(** The lane that holds the lock of the completion queue is the first. *)
Definition first_lane (w : wave) : Prop :=
  match wv_pc w with Polling _ _ lane | Taking _ _ lane _ _ => lane = 0 | _ => True end.

Record orderly (s : ionic_system) : Prop := {
  og_stop : io_stop s = false;
  og_waves : forall w, w ∈ io_waves s -> rings q w = true /\ wv_n w <= ionic_sq_mask q /\ first_lane w;
  og_alone : forall w, w ∈ io_waves s -> wv_lanes w = 1 \/ committed (wv_pc w) = true
}.

Definition turned (w : wave) (ch : choice) (s : ionic_system) : wave :=
  snd (io_wave_turn q lm ch (io_stop s) w (io_sq s) (io_cq s)).

Lemma turn_waves i w ch s : io_waves (turn_wave q lm i w ch s) = <[i := turned w ch s]> (io_waves s).
Proof using Type. unfold turn_wave, turned. by destruct (io_wave_turn _ _ _ _ _ _ _) as [[? ?] ?]. Qed.
Lemma turn_rest (i : nat) w ch s :
  io_asked (turn_wave q lm i w ch s) = io_asked s /\ io_executed (turn_wave q lm i w ch s) = io_executed s /\
  io_stop (turn_wave q lm i w ch s) = io_stop s.
Proof using Type. unfold turn_wave. by destruct (io_wave_turn _ _ _ _ _ _ _) as [[? ?] ?]. Qed.

Ltac fin := cbn; match goal with H : _ |- _ => apply H end.

(** A turn changes a wave's program counter only. *)
Lemma turned_goto w ch s : exists pc, turned w ch s = goto w pc.
Proof using Type.
  assert (Hw : exists pc, w = goto w pc) by (exists (wv_pc w); by destruct w).
  assert (Hp : forall k, exists pc, proceed k w = goto w pc) by (intros k; exists (next_pc k w); apply proceed_next).
  assert (Ha : exists pc, after_commit w = goto w pc) by (exists (after_pc w); apply after_commit_pc).
  assert (Hg : forall pc, exists pc', goto w pc = goto w pc') by (intros pc; by exists pc).
  unfold turned, io_wave_turn.
  destruct (wv_pc w) as [k upto|k upto lane|k upto lane p msn|[idx|]|idx lanes|idx|idx|idx| |k]; try fin.
  - unfold wait_turn. destruct (_ =? 0); [destruct (negb _); [fin|]; destruct (behind _ _); fin|].
    destruct (negb _); [fin|]. destruct ch; [destruct (_ || _); fin|destruct (io_stop s); fin].
  - unfold locked_turn. destruct (negb _); [fin|].
    destruct ch; [destruct (poll_wave_cqes _ _ _); fin|destruct (io_stop s); fin].
  - unfold write_turn. set (n := match ch with Lane i => i | SeeStop => O end).
    destruct (lanes !! n) as [[]|], (wv_requests w !! n); try fin; destruct (forallb _ lanes); fin.
  - unfold commit_sq. destruct (ionic_sq_lock _); [fin|]. destruct (1 <? _); [fin|]. destruct (_ =? 0); fin.
Qed.

(** A committed wave stays so. *)
Lemma turned_committed w ch s : committed (wv_pc w) = true -> committed (wv_pc (turned w ch s)) = true.
Proof using Type.
  intros Hc. unfold turned, io_wave_turn.
  destruct (wv_pc w) as [[] upto|[] upto lane|[] upto lane p msn|[idx|]|idx lanes|idx|idx|idx| |[]] eqn:E; try done;
    try (cbn; by rewrite ?E).
  - unfold wait_turn. destruct (_ =? 0); [destruct (negb _); [done|]; destruct (behind _ _); [cbn; by rewrite ?E|done]|].
    destruct (negb _); [done|]. destruct ch; [destruct (_ || _); [cbn; by rewrite ?E|done]|destruct (io_stop s); [done|cbn; by rewrite ?E]].
  - unfold locked_turn. destruct (negb _); [done|].
    destruct ch; [destruct (poll_wave_cqes _ _ _); try done; cbn; by rewrite ?E|destruct (io_stop s); [done|cbn; by rewrite ?E]].
Qed.

(** What a turn that advances gives. *)
Definition advances (s : ionic_system) : Prop :=
  exists i w ch, io_waves s !! i = Some w /\ first_lane (turned w ch s) /\
    (rank w < rank (turned w ch s) \/ is_taking (wv_pc w) = true /\ rank w <= rank (turned w ch s) + 1).

(** ** Finding a step *)

Lemma turn_advances s i w ch pc :
  io_waves s !! i = Some w -> turned w ch s = goto w pc -> first_lane (goto w pc) -> rank w < rank (goto w pc) ->
  advances s.
Proof using Type. intros Hw E Hf Hr. exists i, w, ch. rewrite E. auto. Qed.

(** A wave past its wait always goes on, but for the lock of the doorbell. *)
Definition at_work (pc : io_wave_pc) : bool :=
  match pc with
  | Taking _ _ _ _ _ | Indexing _ | Writing _ _ | Committing _ | Contending _ | Ringing _ => true
  | _ => false
  end.

Lemma after_rank w : 7 + 2 * wv_n w < rank (goto w (after_pc w)) /\ first_lane (goto w (after_pc w)).
Proof using Type. unfold after_pc, rank, first_lane, wv_n. destruct (forallb _ _); cbn; split; (lia || done). Qed.

Lemma next_rank k w : first_lane (goto w (next_pc k w)) /\
  rank (goto w (next_pc k w)) = match k with ThenReturn => 11 + 2 * wv_n w | ThenWrite =>
    if forallb fetches (wv_requests w) then 3 else 5 end.
Proof using Type.
  unfold next_pc, rank, first_lane, wv_n. destruct k; cbn; [|done]. destruct (forallb _ _); cbn; [done|].
  split; [done|]. unfold idle_lanes. assert (sumZ lane_rank (map (fun _ => NotWritten) (wv_requests w)) = 0) as ->; [|lia].
  apply sumZ_zero. intros x (y & -> & _)%list_elem_of_fmap. done.
Qed.

Lemma ringing_advances s i w idx :
  io_waves s !! i = Some w -> wv_pc w = Ringing idx -> advances s.
Proof using Type.
  intros Hw Hpc. destruct (after_rank w) as [R1 R2]. apply (turn_advances s i w (Lane 0) (after_pc w)); try done.
  - unfold turned, io_wave_turn. rewrite Hpc. cbn. apply after_commit_pc.
  - unfold rank at 1. rewrite Hpc. lia.
Qed.

Lemma lanes_find (l : list lane_pc) :
  forallb (fun l => match l with FlagsWritten => true | _ => false end) l = true /\
    sumZ lane_rank l = 2 * Z.of_nat (length l) \/
  exists (n : nat) x, l !! n = Some x /\ x <> FlagsWritten.
Proof using Type.
  induction l as [|x l IH]; [by left|]. destruct IH as [[H1 H2]|(n & y & H & Hy)]; [|right; by exists (Datatypes.S n), y].
  destruct x; cbn [forallb sumZ length]; [right; by exists O, NotWritten|right; by exists O, BodyWritten|].
  left. split; [done|]. cbn [lane_rank]. lia.
Qed.

Lemma at_work_advances s D R S K i w :
  ionic_inv q lm s D R S K -> orderly s -> io_waves s !! i = Some w -> at_work (wv_pc w) = true -> advances s.
Proof using Type.
  intros Hi [Hst Ho Hal] Hw Hpc. destruct (Ho w) as (_ & _ & Hf); [by eapply list_elem_of_lookup_2|].
  pose proof (wo_pc _ _ _ _ _ (ii_waves _ _ _ _ _ _ _ Hi i w Hw)) as Hok. unfold pc_ok in Hok.
  destruct (wv_pc w) as [| |k upto lane p msn|[idx|]|idx lanes|idx|idx|idx| |] eqn:E; try done.
  - exists i, w, (Lane 0). split_and!; [done| |right; rewrite E; split; [done|]].
    + unfold turned, io_wave_turn. rewrite E. unfold first_lane in *. rewrite E in Hf. done.
    + unfold turned, io_wave_turn. rewrite E. cbn. unfold rank. rewrite E. destruct k; cbn; unfold wv_n; cbn; lia.
  - apply (turn_advances s i w (Lane 0) (Writing idx (idle_lanes w))); try done.
    + unfold turned, io_wave_turn. by rewrite E.
    + unfold rank. rewrite E. cbn. pose proof (lanes_rank (idle_lanes w)). lia.
  - apply (turn_advances s i w (Lane 0) (Indexing (Some (fetching_atomic_idx (io_sq s))))); try done.
    + unfold turned, io_wave_turn. by rewrite E.
    + unfold rank. rewrite E. cbn. lia.
  - destruct (lanes_find lanes) as [[H1 H2]|(n & x & Hn & Hx)].
    + apply (turn_advances s i w (Lane 0) (Committing idx)); try done.
      * unfold turned, io_wave_turn. rewrite E. unfold write_turn. rewrite H1.
        assert (forall l, lanes !! O = Some l -> l = FlagsWritten) as Hall.
        { intros l Hl. rewrite forallb_forall in H1. specialize (H1 l (proj1 (list_elem_of_In _ _) (list_elem_of_lookup_2 _ _ _ Hl))).
          by destruct l. }
        destruct (lanes !! O) as [l|]; [rewrite (Hall l eq_refl)|]; by destruct (wv_requests w !! O).
      * unfold rank. rewrite E. cbn. unfold wv_n. cbn. rewrite H2, Hok. lia.
    + assert (exists r, wv_requests w !! n = Some r) as [r Hr]
        by (apply lookup_lt_is_Some; rewrite <- Hok; by eapply lookup_lt_Some).
      set (y := match x with NotWritten => BodyWritten | _ => FlagsWritten end).
      apply (turn_advances s i w (Lane n) (Writing idx (<[n := y]> lanes))); try done.
      * unfold turned, io_wave_turn. rewrite E. unfold write_turn. rewrite Hn, Hr. by destruct x.
      * unfold rank. rewrite E. cbn. rewrite (sumZ_insert _ _ _ _ _ Hn). destruct x; cbn; lia || done.
  - destruct (ionic_sq_lock (io_sq s)) eqn:El.
    + destruct (ii_sq_held _ _ _ _ _ _ _ Hi El) as (j & v & Hv & Hh).
      destruct (wv_pc v) eqn:Ev; try done; [|by eapply ringing_advances].
      pose proof (wo_pc _ _ _ _ _ (ii_waves _ _ _ _ _ _ _ Hi j v Hv)) as Hcv. unfold pc_ok in Hcv. rewrite Ev in Hcv.
      destruct (Hal v (list_elem_of_lookup_2 _ _ _ Hv)) as [Hone|Hcom]; [lia|by rewrite Ev in Hcom].
    + assert (Hone : (1 <? wv_lanes w) = false).
      { destruct (Hal w (list_elem_of_lookup_2 _ _ _ Hw)) as [->|Hcom]; [done|by rewrite E in Hcom]. }
      destruct (after_rank w) as [R1 R2].
      destruct (Z.land (u32 (sq_dbprod (io_sq s) - u32 (my_sq_prod w + wv_n w))) 2147483648 =? 0) eqn:Et.
      * apply (turn_advances s i w (Lane 0) (after_pc w)); try done.
        -- unfold turned, io_wave_turn. rewrite E. unfold commit_sq. rewrite El, Hone, Et. cbn. apply after_commit_pc.
        -- unfold rank at 1. rewrite E. lia.
      * apply (turn_advances s i w (Lane 0) (Ringing idx)); try done.
        -- unfold turned, io_wave_turn. rewrite E. unfold commit_sq. by rewrite El, Hone, Et.
        -- unfold rank. rewrite E. cbn. unfold wv_n. cbn. lia.
  - destruct (Hal w (list_elem_of_lookup_2 _ _ _ Hw)) as [Hone|Hcom]; [lia|by rewrite E in Hcom].
  - by eapply ringing_advances.
Qed.

(** ** Waiting comes to an end *)

Lemma last_signal N l : signals_ok N l -> N ∈ l -> 
  0 < Z.of_nat (length l) /\ io_signal l (Z.of_nat (length l) - 1) = N.
Proof using Type.
  intros [S1 S2] (c & Hc)%list_elem_of_lookup. pose proof (lookup_lt_Some _ _ _ Hc).
  assert (io_signal l (Z.of_nat c) = N) as E by (unfold io_signal; by rewrite Nat2Z.id, Hc).
  split; [lia|]. pose proof (S1 (Z.of_nat (length l) - 1) ltac:(lia)).
  pose proof (S2 (Z.of_nat c) (Z.of_nat (length l) - 1) ltac:(lia) ltac:(lia)). lia.
Qed.

(** Nobody has anything else to do. *)
Definition all_wait (s : ionic_system) : Prop :=
  forall j v, io_waves s !! j = Some v -> at_work (wv_pc v) = false /\ aborted (wv_pc v) = false.

Lemma waiting_rank w k : waits (wv_pc w) k -> at_work (wv_pc w) = false ->
  rank w < rank (goto w (next_pc k w)) /\ rank w < rank (goto w (Aborted k)).
Proof using Type.
  intros Hwt Hat. rewrite (proj2 (next_rank k w)). unfold rank, wv_n. cbn.
  destruct (wv_pc w) as [k' ?|k' ? ?|k' ? ? ? ?| | | | | | |]; try done; cbn in Hwt; subst k'; destruct k;
    try (destruct (forallb _ _)); lia.
Qed.

Section Waiting.
Context (s : ionic_system) (D R S K : Z) (i : nat) (w : wave) (k : after_wait).
Hypothesis (Hi : ionic_inv q lm s D R S K) (Ho : orderly s) (Hall : all_wait s)
  (Hw : io_waves s !! i = Some w) (Hwt : waits (wv_pc w) k).

(** What has been seen is enough. *)
Lemma enough msn upto :
  msn mod 16777216 = S mod 16777216 -> upto mod 16777216 = target q k w mod 16777216 ->
  target q k w <= S -> behind msn upto = false.
Proof using Hi Hw Hwt Hq.
  intros Hm Hu Ht. eapply reached; [done|done|]. split; [done|].
  pose proof (ii_waves _ _ _ _ _ _ _ Hi i w Hw) as [W1 W2 W3 W4 W5 W6 W8 W7].
  assert (live w = true) as Hl by (unfold live; by destruct (wv_pc w)). specialize (W4 Hl).
  pose proof (ii_order _ _ _ _ _ _ _ Hi). pose proof (ii_room _ _ _ _ _ _ _ Hi).
  pose proof (size_range q Hq). unfold sq_size, target, wave_end, wv_n in *. destruct k; lia.
Qed.

Lemma upto_ok : 
  match wv_pc w with
  | Waiting _ upto => upto mod 16777216 = target q k w mod 16777216
  | Polling _ upto lane => upto mod 16777216 = target q k w mod 16777216 /\ lane = 0 /\ 1 <= wv_lanes w
  | _ => True
  end.
Proof using Hi Hw Hwt Ho.
  pose proof (ii_waves _ _ _ _ _ _ _ Hi i w Hw) as [W1 W2 W3 W4 W5 W6 W8 W7].
  destruct (og_waves _ Ho w) as (_ & _ & Hf); [by eapply list_elem_of_lookup_2|].
  unfold pc_ok, first_lane in *. destruct (wv_pc w); try done; cbn in Hwt; subst; [done|].
  destruct W7 as (? & ?). by split_and!; try lia.
Qed.

Lemma let_through : ionic_cq_mask q <> 0 -> target q k w <= S -> advances s.
Proof using Hi Ho Hall Hw Hwt Hq.
  intros Hm Ht. pose proof enough as He. pose proof upto_ok as Hu. destruct (Hall i w Hw) as [Hat Hab].
  pose proof (ro_msn _ _ _ _ _ _ (ii_ring _ _ _ _ _ _ _ Hi Hm)) as Hmsn.
  destruct (next_rank k w) as [Hfl _]. destruct (waiting_rank w k Hwt Hat) as [Hr _].
  apply (turn_advances s i w (Lane 0) (next_pc k w)); try done.
  rewrite <- proceed_next. unfold turned, io_wave_turn.
  destruct (wv_pc w) as [k' upto|k' upto lane| | | | | | | |] eqn:Hpc; try done; cbn in Hwt; subst k'.
  - unfold wait_turn. rewrite (proj2 (Z.eqb_neq _ _) Hm), (He _ upto Hmsn Hu Ht). done.
  - unfold locked_turn. destruct Hu as (Hu & _). by rewrite (He _ upto Hmsn Hu Ht).
Qed.

(** The collapsed completion says how far the NIC is. *)
Lemma waiting_collapsed : ionic_cq_mask q = 0 -> target q k w <= S -> advances s.
Proof using Hi Ho Hall Hw Hwt Hq.
  intros Hm Ht. pose proof enough as He. pose proof upto_ok as Hu. destruct (Hall i w Hw) as [Hat Hab].
  pose proof (fo_msn _ _ _ (ii_collapsed _ _ _ _ _ _ _ Hi Hm)) as Hmsn.
  pose proof (ii_modes _ _ _ _ _ _ _ Hi Hm i w Hw) as Hmode.
  destruct (next_rank k w) as [Hfl _]. destruct (waiting_rank w k Hwt Hat) as [Hr1 Hr2].
  destruct (wv_pc w) as [k' upto|k' upto lane| | | | | | | |] eqn:Hpc; try done; cbn in Hwt; subst k'.
  destruct (negb (Z.land (qid_type_flags (ionic_cq_buf (io_cq s) 0)) (to_be 4 IONIC_V1_CQE_ERROR) =? 0)) eqn:Ee.
  - apply (turn_advances s i w (Lane 0) (Aborted k)); try done.
    unfold turned, io_wave_turn. rewrite Hpc. unfold wait_turn. by rewrite Hm, Z.eqb_refl, Ee.
  - apply (turn_advances s i w (Lane 0) (next_pc k w)); try done.
    rewrite <- proceed_next. unfold turned, io_wave_turn. rewrite Hpc. unfold wait_turn.
    by rewrite Hm, Z.eqb_refl, Ee, (He _ upto Hmsn Hu Ht).
Qed.
End Waiting.

(** The holder of the lock takes the next completion. *)
Lemma holder_advances s D R S K i w :
  ionic_inv q lm s D R S K -> orderly s -> all_wait s -> io_waves s !! i = Some w -> holds_cq (wv_pc w) = true ->
  ionic_cq_mask q <> 0 -> K < Z.of_nat (length (io_signaled s)) -> advances s.
Proof using Hq.
  intros Hi Ho Hall Hw Hh Hm HK. destruct (Hall i w Hw) as [Hat Hab].
  destruct (wv_pc w) as [|k upto lane| | | | | | | |] eqn:Hpc; try done.
  assert (Hwt : waits (wv_pc w) k) by by rewrite Hpc.
  pose proof (upto_ok s D R S K i w k Hi Ho Hw Hwt) as Hu. rewrite Hpc in Hu. destruct Hu as (Hu & -> & Hl).
  destruct (next_rank k w) as [Hfl _].
  assert (Hat' : at_work (wv_pc w) = false) by by rewrite Hpc.
  destruct (waiting_rank w k Hwt Hat') as [Hr1 Hr2].
  destruct (behind (sq_msn (io_cq s)) upto) eqn:Eb.
  - pose proof (poll_reads q Hq _ _ _ _ _ 0 Hm (ii_ring _ _ _ _ _ _ _ Hi Hm) ltac:(lia)) as Hread. cbn in Hread.
    destruct (poll_wave_cqes q 0 (io_cq s)) as [| |p msn] eqn:Ep; [lia| |].
    + apply (turn_advances s i w (Lane 0) (Aborted k)); try done.
      unfold turned, io_wave_turn. rewrite Hpc. unfold locked_turn. by rewrite Eb, Ep.
    + apply (turn_advances s i w (Lane 0) (Taking k upto 0 p msn)); try done.
      * unfold turned, io_wave_turn. rewrite Hpc. unfold locked_turn. by rewrite Eb, Ep.
      * unfold rank. rewrite Hpc. cbn. unfold wv_n. cbn. destruct k; lia.
  - apply (turn_advances s i w (Lane 0) (next_pc k w)); try done.
    rewrite <- proceed_next. unfold turned, io_wave_turn. rewrite Hpc. unfold locked_turn. by rewrite Eb.
Qed.

Lemma waiting_advances s D R S K i w k :
  ionic_inv q lm s D R S K -> orderly s -> all_wait s -> io_waves s !! i = Some w -> waits (wv_pc w) k ->
  target q k w <= executed_count s -> (executed_count s = 0 \/ executed_count s ∈ io_signaled s) -> advances s.
Proof using Hq.
  intros Hi Ho Hall Hw Hwt Ht Hset. pose proof (ii_order _ _ _ _ _ _ _ Hi) as Hord.
  pose proof (ii_signals _ _ _ _ _ _ _ Hi) as Hsg.
  destruct (Z.eq_dec (ionic_cq_mask q) 0) as [Hm|Hm].
  - apply (waiting_collapsed s D R S K i w k); try done.
    rewrite (fo_seen _ _ _ (ii_collapsed _ _ _ _ _ _ _ Hi Hm)) in *.
    destruct Hset as [E|Hin]; [lia|]. destruct (last_signal _ _ Hsg Hin) as [Hc E].
    rewrite (proj2 (Z.eqb_neq _ _)) by lia. by rewrite E.
  - pose proof (ii_ring _ _ _ _ _ _ _ Hi Hm) as Hr. pose proof (ro_range _ _ _ _ _ _ Hr) as HK.
    destruct (Z.eq_dec K (Z.of_nat (length (io_signaled s)))) as [E|Hne].
    + apply (let_through s D R S K i w k); try done. destruct Hset as [E0|Hin]; [lia|].
      destruct (last_signal _ _ Hsg Hin) as [Hc E1]. rewrite (ro_seen _ _ _ _ _ _ Hr).
      rewrite (proj2 (Z.eqb_neq _ _)) by lia. rewrite E. by rewrite E1.
    + destruct (ionic_cq_lock (io_cq s)) eqn:El.
      * destruct (ii_cq_held _ _ _ _ _ _ _ Hi El) as (j & v & Hv & [Hh|Hab]).
        -- eapply (holder_advances s D R S K j v); try done. lia.
        -- destruct (Hall j v Hv). congruence.
      * pose proof (upto_ok s D R S K i w k Hi Ho Hw Hwt) as Hu. destruct (Hall i w Hw) as [Hat Hab].
        pose proof (lock_free q lm _ _ _ _ _ Hi El i w Hw) as Hnh.
        pose proof (wo_lanes _ _ _ _ _ (ii_waves _ _ _ _ _ _ _ Hi i w Hw)) as Hlanes.
        destruct (next_rank k w) as [Hfl _]. destruct (waiting_rank w k Hwt Hat) as [Hr1 _].
        destruct (wv_pc w) as [k' upto|k' upto lane| | | | | | | |] eqn:Hpc; try done; cbn in Hwt; subst k'.
        destruct (behind (sq_msn (io_cq s)) upto) eqn:Eb.
        -- apply (turn_advances s i w (Lane 0) (Polling k upto 0)); try done.
           ++ unfold turned, io_wave_turn. rewrite Hpc. unfold wait_turn.
              rewrite (proj2 (Z.eqb_neq _ _) Hm), Eb, El. cbn.
              rewrite (proj2 (Z.leb_gt _ _)) by lia. done.
           ++ unfold rank. rewrite Hpc. cbn. unfold wv_n. cbn. destruct k; lia.
        -- apply (turn_advances s i w (Lane 0) (next_pc k w)); try done.
           rewrite <- proceed_next. unfold turned, io_wave_turn. rewrite Hpc. unfold wait_turn.
           by rewrite (proj2 (Z.eqb_neq _ _) Hm), Eb.
Qed.

(** ** With the NIC *)

Definition finished (s : ionic_system) : Prop :=
  (forall w, w ∈ io_waves s -> wv_pc w = Over) /\ executed_count s = asked_count s.

Lemma nic_can s : exists cqe, nic_cqe q (signaled_count s) (executed_count s) false cqe.
Proof using Type.
  set (c := round_color (ionic_cq_mask q) (signaled_count s)).
  exists {| msg_msn := to_be 4 ((executed_count s + 1) mod 16777216);
            qid_type_flags := to_be 4 (if c then 1 else 0) |}. split.
  - exists ((executed_count s + 1) mod 16777216). pose proof (Z.mod_pos_bound (executed_count s + 1) 16777216 ltac:(lia)).
    split_and!; [lia|lia|by rewrite Z.mod_mod by lia|done].
  - exists (if c then 1 else 0). fold c. destruct c; by split_and!.
Qed.

Lemma over_dec w : {wv_pc w = Over} + {wv_pc w <> Over}.
Proof using Type. destruct (wv_pc w); (by left) || by right. Qed.

(** Everything announced has been executed, when the NIC is not ready. *)
Lemma nic_idle s D R S K i w k r :
  ionic_inv q lm s D R S K -> orderly s -> all_wait s -> nic_ready q s = false ->
  io_waves s !! i = Some w -> wv_requests w !! k = Some r -> wv_start w + Z.of_nat k = executed_count s ->
  waits_to_write (wv_pc w) = true.
Proof using Hq.
  intros Hi Ho Hall Hn Hw Hk Hp. destruct (waits_to_write (wv_pc w)) eqn:Ew; [done|exfalso].
  destruct (Hall i w Hw) as [Hat Hab]. pose proof (size_range q Hq) as Hsz.
  pose proof (ii_order _ _ _ _ _ _ _ Hi) as Hord. pose proof (ii_room _ _ _ _ _ _ _ Hi) as Hroom.
  assert (Hl : ionic_sq_lock (io_sq s) = false).
  { destruct (ionic_sq_lock (io_sq s)) eqn:El; [|done].
    destruct (ii_sq_held _ _ _ _ _ _ _ Hi El) as (j & v & Hv & Hh). destruct (Hall j v Hv) as [Hat' _].
    by destruct (wv_pc v). }
  assert (R = D) as -> by (apply (ii_rang _ _ _ _ _ _ _ Hi); [intros v Hv; by apply (og_waves _ Ho)|done]).
  assert (Hc : committed (wv_pc w) = true) by by destruct (wv_pc w) as [[]|[]|[]| | | | | | |[]].
  pose proof (lookup_lt_Some _ _ _ Hk).
  destruct (wo_committed _ _ _ _ _ (ii_waves _ _ _ _ _ _ _ Hi i w Hw) Hc) as [|Hend]; unfold wave_end, wv_n in *; [lia|].
  assert (Hf : flagged (wv_pc w) k) by by destruct (wv_pc w) as [[]|[]|[]| | | | | | |[]].
  pose proof (ii_slots _ _ _ _ _ _ _ Hi i w k r Hw Hk) as [L1 _ _]. rewrite Hp in L1.
  destruct (L1 Hf ltac:(lia)) as (idx & Hslot).
  unfold nic_ready in Hn. rewrite (ii_reg _ _ _ _ _ _ _ Hi) in Hn. unfold nic_slot in Hn. fold (sq_size q) in Hn.
  rewrite Hslot, (proj1 (entry_flags q lm Hq _ _ _)) in Hn. fold (sq_color q (executed_count s)) in Hn.
  rewrite eqb_reflx, andb_true_r in Hn. bool_to_prop. revert Hn. intros E. symmetry in E. revert E.
  apply mod_near; unfold sq_size in *; lia.
Qed.

Lemma idle_advances s D R S K :
  ionic_inv q lm s D R S K -> orderly s -> all_wait s -> nic_ready q s = false -> advances s \/ finished s.
Proof using Hq.
  intros Hi Ho Hall Hn. pose proof (ii_order _ _ _ _ _ _ _ Hi) as Hord. pose proof (ii_room _ _ _ _ _ _ _ Hi) as Hroom.
  pose proof (size_range q Hq) as Hsz.
  (* the last entry executed was the last of its wave *)
  assert (Hset : (forall i w k r, io_waves s !! i = Some w -> wv_requests w !! k = Some r ->
      wv_start w + Z.of_nat k = executed_count s -> k = O) ->
      executed_count s = 0 \/ executed_count s ∈ io_signaled s).
  { intros Hfirst. destruct (Z.eq_dec (executed_count s) 0) as [|Hne]; [by left|right].
    destruct (ii_cover _ _ _ _ _ _ _ Hi (executed_count s - 1) ltac:(lia)) as (i & w & k & r & Hw & Hk & E).
    pose proof (ii_asked _ _ _ _ _ _ _ Hi i w k r Hw Hk) as Ha.
    pose proof (ii_last _ _ _ _ _ _ _ Hi _ _ Ha) as Hlast. rewrite <- E in Hlast.
    replace (Z.of_nat (Z.to_nat (executed_count s - 1)) + 1) with (executed_count s) in Hlast by lia.
    apply Hlast; [lia|]. cbn. apply Z.eqb_eq. pose proof (lookup_lt_Some _ _ _ Hk) as Hlt.
    destruct (Nat.eq_dec (Datatypes.S k) (length (wv_requests w))) as [Hl|Hl]; [unfold wv_n; lia|].
    destruct (proj2 (lookup_lt_is_Some (wv_requests w) (Datatypes.S k))) as [r' Hr']; [lia|].
    by pose proof (Hfirst i w (Datatypes.S k) r' Hw Hr' ltac:(lia)). }
  assert (Hwaits : forall i w, io_waves s !! i = Some w -> wv_pc w = Over \/ exists k, waits (wv_pc w) k).
  { intros i w Hw. destruct (Hall i w Hw). destruct (wv_pc w); try done; [right; by eexists|right; by eexists|by left]. }
  destruct (Z.eq_dec (executed_count s) (asked_count s)) as [E|Hne].
  - destruct (Forall_Exists_dec (fun w => wv_pc w = Over) over_dec (io_waves s)) as [Hov|Hex].
    + right. split; [|done]. intros w Hw. exact (Forall_elem _ _ _ Hov Hw).
    + left. apply Exists_exists in Hex as (w & Hin & Hnov). apply list_elem_of_In, list_elem_of_lookup in Hin as (i & Hw).
      destruct (Hwaits i w Hw) as [|[k Hwt]]; [done|]. pose proof (ii_waves _ _ _ _ _ _ _ Hi i w Hw) as Hok.
      eapply (waiting_advances s D R S K i w k); try done.
      * pose proof (wo_end _ _ _ _ _ Hok). unfold target, sq_size in *. destruct k; lia.
      * apply Hset. intros j v n r Hv Hr Hp. pose proof (lookup_lt_Some _ _ _ Hr).
        pose proof (wo_end _ _ _ _ _ (ii_waves _ _ _ _ _ _ _ Hi j v Hv)). unfold wave_end, wv_n in *. lia.
  - left. destruct (ii_cover _ _ _ _ _ _ _ Hi (executed_count s) ltac:(lia)) as (i & w & k & r & Hw & Hk & E).
    assert (Hww : waits_to_write (wv_pc w) = true) by (eapply (nic_idle s D R S K i w k r); done).
    pose proof (ii_waves _ _ _ _ _ _ _ Hi i w Hw) as Hok. destruct (Hall i w Hw) as [Hat Hab].
    assert (Hunf : forall n, ~ flagged (wv_pc w) n).
    { intros n Hf. apply flagged_passed in Hf. congruence. }
    assert (k = O) as ->.
    { destruct k as [|k]; [done|exfalso]. pose proof (lookup_lt_Some _ _ _ Hk).
      destruct (proj2 (lookup_lt_is_Some (wv_requests w) O)) as [r' Hr']; [lia|].
      destruct (lo_free _ _ _ _ _ _ _ _ (ii_slots _ _ _ _ _ _ _ Hi i w O r' Hw Hr') (Hunf O)). lia. }
    destruct (Hwaits i w Hw) as [Hov|[k Hwt]]; [by rewrite Hov in Hww|].
    assert (k = ThenWrite) as -> by (destruct (wv_pc w) as [[]|[]|[]| | | | | | |]; try done; by cbn in Hwt; subst).
    eapply (waiting_advances s D R S K i w ThenWrite); try done.
    + destruct (og_waves _ Ho w) as (_ & Hfit & _); [by eapply list_elem_of_lookup_2|].
      unfold target, wave_end. lia.
    + apply Hset. intros j v n r' Hv Hr' Hp.
      assert (wv_start v + Z.of_nat n = wv_start w + Z.of_nat 0) as Hpp by lia.
      by destruct (position_unique _ _ _ _ _ _ _ _ _ _ _ _ _ _ _ Hi Hv Hw Hr' Hk Hpp) as [_ ->].
Qed.

(** ** Running on *)

Definition some_aborted (s : ionic_system) : Prop := exists w, w ∈ io_waves s /\ aborted (wv_pc w) = true.

(** The completions taken, in a queue that has any. *)
Definition taken_ok (s : ionic_system) (K : Z) : Prop :=
  0 <= K <= signaled_count s /\ (ionic_cq_mask q = 0 -> K = 0).

Lemma taken s D R S K : ionic_inv q lm s D R S K -> 
  exists K0, ionic_inv q lm s D R S K0 /\ taken_ok s K0 /\ (ionic_cq_mask q <> 0 -> K0 = K).
Proof using Type.
  intros Hi. destruct (Z.eq_dec (ionic_cq_mask q) 0) as [E|E].
  - exists 0. split_and!; [|split; [unfold signaled_count; lia|done]|done].
    destruct Hi as [I1 I2 I3 I4 I5 I6 I7 I8 I9 I10 I11 I12 I13 I14 I15 I16 I17 I18 I19 I20 I21 I22 I23].
    split; try done. intros i w Hw. pose proof (I19 E i w Hw) as Hm. unfold taking_ok. by destruct (wv_pc w).
  - exists K. split_and!; [done| |done]. split; [|done].
    apply (ro_range _ _ _ _ _ _ (ii_ring _ _ _ _ _ _ _ Hi E)).
Qed.

Definition next_of (s s' : ionic_system) : Prop :=
  ionic_step q lm s s' /\ orderly s' /\ io_asked s' = io_asked s /\ progress_limit s' = progress_limit s.

Lemma turn_next s i w ch :
  orderly s -> io_waves s !! i = Some w -> first_lane (turned w ch s) -> next_of s (turn_wave q lm i w ch s).
Proof using Type.
  intros [Ho1 Ho2 Ho3] Hw Hf. destruct (turn_rest i w ch s) as (E1 & E2 & E3). pose proof (turned_committed w ch s) as Hcom.
  destruct (turned_goto w ch s) as [pc Ht]. pose proof (turn_waves i w ch s) as Hws. rewrite Ht in Hws, Hf, Hcom.
  split_and!; [by apply step_turn| |done|].
  - split; [congruence|..]; rewrite Hws; intros v (j & Hv)%list_elem_of_lookup;
      destruct (insert_cases _ _ _ _ _ _ Hw Hv) as [[-> ->]|[_ Hv']];
      try (first [apply Ho2|apply Ho3]; by eapply list_elem_of_lookup_2).
    + destruct (Ho2 w) as (H1 & H2 & _); [by eapply list_elem_of_lookup_2|]. by split_and!.
    + destruct (Ho3 w) as [H1|H1]; [by eapply list_elem_of_lookup_2|by left|right]. by apply Hcom.
  - unfold progress_limit, asked_count. rewrite E1, Hws. f_equal. rewrite (sumZ_insert _ _ _ _ _ Hw).
    unfold wv_n. cbn. lia.
Qed.

Lemma nic_next s :
  orderly s -> nic_ready q s = true -> exists cqe, nic_cqe q (signaled_count s) (executed_count s) false cqe /\
    next_of s (nic_execute q false cqe s) /\
    io_waves (nic_execute q false cqe s) = io_waves s /\
    executed_count (nic_execute q false cqe s) = executed_count s + 1.
Proof using Type.
  intros [Ho1 Ho2 Ho3] Hn. destruct (nic_can s) as [cqe Hc]. exists cqe. split; [done|].
  assert (E : io_waves (nic_execute q false cqe s) = io_waves s /\ io_asked (nic_execute q false cqe s) = io_asked s /\
    io_stop (nic_execute q false cqe s) = io_stop s /\
    executed_count (nic_execute q false cqe s) = executed_count s + 1).
  { unfold nic_execute, executed_count. destruct (nic_flag _ _ || false); cbn; by rewrite length_snoc. }
  destruct E as (E1 & E2 & E3 & E4). split; [|by split]. split_and!; try done.
  - by eapply step_nic.
  - split; [congruence|by rewrite E1..].
  - unfold progress_limit, asked_count. by rewrite E1, E2.
Qed.

Lemma run_on s D R S K :
  ionic_inv q lm s D R S K -> taken_ok s K -> orderly s ->
  finished s \/ some_aborted s \/
  exists s' D' R' S' K', next_of s s' /\ ionic_inv q lm s' D' R' S' K' /\ taken_ok s' K' /\ progress s K < progress s' K'.
Proof using Hq.
  intros Hi [HK HK0] Ho.
  destruct (Exists_dec (fun w => aborted (wv_pc w) = true) (io_waves s) (fun w => bool_dec _ true)) as [Hab|Hab].
  { right. left. apply Exists_exists in Hab as (w & Hw & Hab). exists w. by rewrite list_elem_of_In. }
  assert (Hnab : forall i w, io_waves s !! i = Some w -> aborted (wv_pc w) = false).
  { intros i w Hw. apply not_true_is_false. intros E. apply Hab, Exists_exists. exists w. split; [|done].
    apply list_elem_of_In. by eapply list_elem_of_lookup_2. }
  assert (Hadv : advances s -> exists s' D' R' S' K', next_of s s' /\ ionic_inv q lm s' D' R' S' K' /\ taken_ok s' K' /\
    progress s K < progress s' K').
  { intros (i & w & ch & Hw & Hf & Hrank).
    destruct (io_turn_ok q lm Hq s D R S K i w ch Hi (og_stop _ Ho) Hw) as (D' & R' & S' & K' & _ & _ & _ & HKK & Hi').
    destruct (taken _ _ _ _ _ Hi') as (K0 & Hi0 & Ht0 & E0).
    exists (turn_wave q lm i w ch s), D', R', S', K0. split_and!; [by apply turn_next|done|done|].
    destruct (turn_rest i w ch s) as (E1 & E2 & E3). unfold progress, executed_count.
    rewrite E2, turn_waves, (sumZ_insert _ _ _ _ _ Hw).
    destruct (Z.eq_dec (ionic_cq_mask q) 0) as [Em|Em].
    - destruct Ht0 as [_ Ht0]. rewrite (Ht0 Em), (HK0 Em).
      destruct Hrank as [|[Ht _]]; [lia|]. pose proof (ii_modes _ _ _ _ _ _ _ Hi Em i w Hw) as Hm.
      by destruct (wv_pc w).
    - rewrite (E0 Em). pose proof (ind_nonneg (is_taking (wv_pc w))).
      destruct Hrank as [|[Ht Hr]]; [lia|]. rewrite Ht in HKK. cbn in HKK. lia. }
  destruct (Exists_dec (fun w => at_work (wv_pc w) = true) (io_waves s) (fun w => bool_dec _ true)) as [Hat|Hat].
  { right. right. apply Hadv. apply Exists_exists in Hat as (w & Hin & Hat).
    apply list_elem_of_In, list_elem_of_lookup in Hin as (i & Hw). by eapply at_work_advances. }
  assert (Hall : all_wait s).
  { intros i w Hw. split; [|by eapply Hnab]. apply not_true_is_false. intros E. apply Hat, Exists_exists. exists w.
    split; [|done]. apply list_elem_of_In. by eapply list_elem_of_lookup_2. }
  destruct (nic_ready q s) eqn:Hn.
  - right. right. destruct (nic_next s Ho Hn) as (cqe & Hc & Hnext & E1 & E2).
    destruct (nic_ok q lm Hq _ _ _ _ _ _ _ Hi Hn Hc) as (S' & _ & Hi').
    destruct (taken _ _ _ _ _ Hi') as (K0 & Hi0 & Ht0 & E0).
    exists (nic_execute q false cqe s), D, R, S', K0. split_and!; try done.
    unfold progress. rewrite E1, E2.
    destruct (Z.eq_dec (ionic_cq_mask q) 0) as [Em|Em].
    + destruct Ht0 as [_ Ht0]. rewrite (Ht0 Em), (HK0 Em). lia.
    + rewrite (E0 Em). lia.
  - destruct (idle_advances _ _ _ _ _ Hi Ho Hall Hn); [right; right; by apply Hadv|by left].
Qed.

Lemma io_completes n : forall s D R S K,
  ionic_inv q lm s D R S K -> taken_ok s K -> orderly s -> progress_limit s - progress s K < Z.of_nat n ->
  exists s', rtc (ionic_step q lm) s s' /\ io_asked s' = io_asked s /\ (finished s' \/ some_aborted s').
Proof using Hq.
  induction n as [|n IH]; intros s D R S K Hi Ht Ho Hn.
  - destruct Ht as [HK HK0]. pose proof (progress_bounded _ _ _ _ _ Hi ltac:(lia) ltac:(lia)). lia.
  - destruct (run_on _ _ _ _ _ Hi Ht Ho) as [Hf|[Ha|(s' & D' & R' & S' & K' & (H1 & H2 & H3 & H4) & Hi' & Ht' & Hp)]].
    + exists s. split_and!; [done|done|by left].
    + exists s. split_and!; [done|done|by right].
    + destruct (IH s' D' R' S' K' Hi' Ht' H2 ltac:(lia)) as (s'' & G1 & G2 & G3).
      exists s''. split_and!; [by eapply rtc_l|congruence|done].
Qed.
End Live.
