(* ===== verification/IonicProps.v ===== *)
(** * The ionic queue pair: what it promises

    The NIC executes what was asked for, in the order of the reservations,
    under every interleaving of the waves; a wait that is over has waited; no
    committed entry is left unannounced; a run of waves of one lane can be
    completed; an entry says what was asked for.  Ways in which the promises fail: a wave that posts
    with more than one lane deadlocks in the lock of the doorbell, one whose
    first lane is in the upper half rings no doorbell, and a later lane that
    gets the lock of the completion queue can wait for a completion that never
    comes. *)

From S2P Require Import Prelude Endian Ionic IonicInv IonicLive.

Arguments Z.mul : simpl never.
Arguments Z.add : simpl never.
Arguments Z.sub : simpl never.
Arguments Z.modulo : simpl never.
Arguments Z.div : simpl never.

Section Theorems.
Context (q : ionic_config) (lm : Z -> Z).
Hypothesis Hq : qp_ok q.

(** C17: Until a stop is requested the NIC executes exactly what was asked for.
    However the waves that share the queue interleave, the [i]-th entry it
    executes is the whole entry of the [i]-th request in the order of the
    reservations: none is overwritten while it is outstanding, executed half
    written, twice, or out of order, although slots, colours and counters wrap
    around.  (After a stop request the wait for room is given up, and entries
    can be overwritten.)  The queues are powers of two as the driver makes
    them, the completion queue at least as large as the send queue or
    collapsed; the lanes of a call agree on whether they fetch, a lane on its
    own that fetches uses the collapsed queue; and no wave in flight is
    overtaken by 2^22 entries. *)
Theorem ionic_fifo s i w :
  ionic_reachable q lm s -> io_stop s = false -> io_executed s !! i = Some w ->
  exists a idx, io_asked s !! i = Some a /\
    w = ionic_wqe q lm (u32 (Z.of_nat i)) (as_last a) idx (as_lane a) (as_request a).
Proof using Hq.
  intros Hr Hs Hw. destruct (io_reachable_ok q lm Hq s Hr Hs) as (D & R & S & K & Hi).
  exact (ii_done _ _ _ _ _ _ _ Hi i w Hw).
Qed.

(** Waits are over when they may be.  When a quiet has returned, every
    entry reserved before it has been executed; when a fetching atomic has
    returned, so have all of its wave's. *)
Theorem ionic_quiet_waits s w :
  ionic_reachable q lm s -> io_stop s = false -> w ∈ io_waves s -> wv_pc w = Over ->
  forallb fetches (wv_requests w) = true -> wv_start w + wv_n w <= executed_count s.
Proof using Hq.
  intros Hr Hs (i & Hw)%list_elem_of_lookup Hpc Hf.
  destruct (io_reachable_ok q lm Hq s Hr Hs) as (D & R & S & K & Hi).
  pose proof (wo_pc _ _ _ _ _ (ii_waves _ _ _ _ _ _ _ Hi i w Hw)) as Hok. unfold pc_ok in Hok.
  rewrite Hpc in Hok. specialize (Hok Hf). pose proof (ii_order _ _ _ _ _ _ _ Hi). unfold wave_end in Hok. lia.
Qed.

(** No commit is lost.  With the lock of the doorbell free, a NIC that
    sees nothing announced has executed everything up to the furthest commit,
    although the doorbell names a slot and a full queue would look empty. *)
Theorem ionic_announced s :
  ionic_reachable q lm s -> io_stop s = false -> (forall w, w ∈ io_waves s -> rings q w = true) ->
  ionic_sq_lock (io_sq s) = false ->
  Z.land (sq_dbreg (io_sq s)) (ionic_sq_mask q) = executed_count s mod (ionic_sq_mask q + 1) ->
  sq_dbprod (io_sq s) = u32 (executed_count s).
Proof using Hq.
  intros Hr Hs Hring Hl He. destruct (io_reachable_ok q lm Hq s Hr Hs) as (D & R & S & K & Hi).
  pose proof (ii_rang _ _ _ _ _ _ _ Hi Hring Hl) as ->. pose proof (ii_order _ _ _ _ _ _ _ Hi) as Ho.
  pose proof (ii_room _ _ _ _ _ _ _ Hi) as Hm. rewrite (ii_reg _ _ _ _ _ _ _ Hi) in He. fold (sq_size q) in He.
  rewrite (ii_dbprod _ _ _ _ _ _ _ Hi). f_equal.
  destruct (Z.eq_dec D (executed_count s)) as [|Hne]; [done|exfalso]. symmetry in He. revert He.
  apply mod_near; unfold sq_size; lia.
Qed.

(** C19: Waves of one lane do not deadlock each other.  From every reachable
    state without a stop request whose posting waves have one lane, reach the
    doorbell, fit into the queue and poll with their first lane, a run leads to
    all waves having returned and everything asked for having been executed,
    unless the NIC has reported an error and the kernel aborts.  (A wave that
    posts with more lanes deadlocks itself in [ionic_lock_acquire]:
    [ionic_wave_deadlocks].) *)
Theorem ionic_completes s :
  ionic_reachable q lm s -> orderly q s ->
  exists s', rtc (ionic_step q lm) s s' /\ io_asked s' = io_asked s /\ (finished s' \/ some_aborted s').
Proof using Hq.
  intros Hr Ho. destruct (io_reachable_ok q lm Hq s Hr (og_stop _ _ Ho)) as (D & R & S & K & Hi).
  destruct (taken q lm _ _ _ _ _ Hi) as (K0 & Hi0 & Ht & _).
  apply (io_completes q lm Hq (Z.to_nat (progress_limit s - progress s K0 + 1)) s D R S K0); (done || lia).
Qed.

(** ** Entries *)

Lemma be4_u32 x : from_be 4 (to_be 4 (u32 x)) = u32 x.
Proof using Type. apply from_to_be. change (256 ^ Z.of_nat 4) with 4294967296. apply u32_range. Qed.
Lemma be4_small x : 0 <= x < 4294967296 -> from_be 4 (to_be 4 x) = x.
Proof using Type. intros H. apply from_to_be. by change (256 ^ Z.of_nat 4) with 4294967296. Qed.

Lemma halves x : 0 <= x < 18446744073709551616 -> u32 (Z.shiftr x 32) * 4294967296 + u32 x = x.
Proof using Type.
  intros Hx. rewrite Z.shiftr_div_pow2 by lia. change (2 ^ 32) with 4294967296.
  rewrite (u32_small (x / 4294967296)) by (split; [apply Z.div_pos; lia|apply Z.div_lt_upper_bound; lia]).
  unfold u32. pose proof (Z.div_mod x 4294967296 ltac:(lia)). lia.
Qed.

Lemma inl_flag c s i :
  let f := Z.lor (if c : bool then to_be 2 IONIC_V1_FLAG_COLOR else 0)
                 (if s : bool then to_be 2 IONIC_V1_FLAG_SIG else 0) in
  negb (Z.land (from_be 2 (if i : bool then Z.lor f (to_be 2 IONIC_V1_FLAG_INL) else f)) IONIC_V1_FLAG_INL =? 0) = i.
Proof using Type. destruct c, s, i; vm_compute; reflexivity. Qed.

(** What the NIC reads is what was asked for.  The entry of a transfer
    has its position, opcode, remote address, key and immediate data; the
    colour of its round and the request for a completion where it is the last
    of its wave; and it names the local memory with its length, or carries
    its bytes, which fit, with the flag that says so. *)
Theorem ionic_entry_meaning p last idx lane nelems laddr raddr opcode imm_data :
  0 <= raddr < 18446744073709551616 -> 0 < laddr < 18446744073709551616 -> 0 <= nelems < 2147483648 ->
  0 <= imm_data < 4294967296 -> 0 <= ionic_rkey q < 4294967296 -> 0 <= ionic_lkey q < 4294967296 ->
  0 <= ionic_inline_threshold q <= 32 ->
  let w := ionic_wqe q lm (u32 p) last idx lane (Put nelems laddr raddr opcode imm_data) in
  (wqe_idx (base w), op (base w), from_be 4 (imm_data_key (base w))) = (u32 p, opcode, imm_data) /\
  nic_flag w IONIC_V1_FLAG_COLOR = round_color (ionic_sq_mask q) p /\ nic_flag w IONIC_V1_FLAG_SIG = last /\
  match body w with
  | Common va_high va_low rkey len pld =>
      from_be 4 va_high * 4294967296 + from_be 4 va_low = raddr /\ from_be 4 rkey = ionic_rkey q /\
      from_be 4 len = nelems /\
      match pld with
      | Sge va n lkey => (from_be 8 va, from_be 4 n, from_be 4 lkey) = (laddr, nelems, ionic_lkey q) /\
          num_sge_key (base w) = 1 /\ nic_flag w IONIC_V1_FLAG_INL = false
      | Data bytes => bytes = map (fun i => lm (laddr + Z.of_nat i)) (seq 0 (Z.to_nat nelems)) /\
          Z.of_nat (length bytes) <= 32 /\ num_sge_key (base w) = 0 /\ nic_flag w IONIC_V1_FLAG_INL = true
      | Unset => nelems = 0 /\ num_sge_key (base w) = 0
      end
  | AtomicV2 _ _ _ _ _ _ _ _ _ => False
  end.
Proof using Hq.
  intros Hr Hl Hn Him Hrk Hlk Hth w.
  assert (Hs : s32 nelems = nelems) by (unfold s32; rewrite u32_small by lia; lia).
  assert (Hps : put_size q nelems laddr opcode = nelems).
  { unfold put_size. rewrite Hs. rewrite (proj2 (Z.eqb_neq laddr 0)) by lia. by rewrite andb_false_r. }
  destruct (entry_flags q lm Hq p idx {| as_request := Put nelems laddr raddr opcode imm_data; as_lane := lane; as_last := last |})
    as [F1 F2].
  change (entry_at _ _ _ _ _) with w in F1, F2. cbn in F2.
  destruct (iq_size _ Hq) as (b & Hb & Eb).
  assert (Hc : wqe_color q (u32 p) = if sq_color q p then to_be 2 IONIC_V1_FLAG_COLOR else 0).
  { unfold wqe_color. by rewrite (round_bit b p (ionic_sq_mask q)) by (try lia; exact Eb). }
  assert (F3 : nic_flag w IONIC_V1_FLAG_INL = put_inline q opcode nelems).
  { unfold w, nic_flag, ionic_wqe, put_wqe. cbn. rewrite Hps, Hc. unfold wqe_sig. apply inl_flag. }
  split_and!; [|exact F1|exact F2|]; unfold w in *; cbn.
  - by rewrite be4_u32, (u32_small imm_data).
  - rewrite Hps, !be4_u32, be4_small, halves, u32_small by lia. split_and!; [done|done|done|].
    destruct (nelems =? 0) eqn:E0; bool_to_prop.
    + split; [done|]. unfold put_inline. by rewrite E0.
    + destruct (put_inline q opcode nelems) eqn:Ei.
      * unfold inline_bytes. rewrite (proj2 (Z.eqb_neq laddr 0)), u64_small by lia.
        split_and!; [done| |done|done]. rewrite length_map, length_seq.
        unfold put_inline in Ei. bool_to_prop.
        assert (s32 (ionic_inline_threshold q) = ionic_inline_threshold q) as E32
          by (unfold s32; rewrite u32_small by lia; lia). lia.
      * split_and!; [|done|done]. rewrite !be4_small by lia. by rewrite from_to_be by (change (256 ^ Z.of_nat 8) with 18446744073709551616; lia).
Qed.

(** ** Where it fails *)

Lemma silent_keeps s : ionic_reachable q lm s -> (forall w, w ∈ io_waves s -> rings q w = false) ->
  sq_dbreg (io_sq s) = ionic_sq_dbval q /\ io_executed s = [].
Proof using Hq.
  unfold ionic_reachable. revert s. apply (rtc_ind_r (fun s => (forall w, w ∈ io_waves s -> rings q w = false) ->
    sq_dbreg (io_sq s) = ionic_sq_dbval q /\ io_executed s = [])); [done|].
  intros s s' _ Hst IH Hw'. destruct Hst as [s c Hc Hov|s i w ch Hw|s err cqe Hn Hc|s].
  - apply IH. intros w Hw. apply Hw'. cbn. apply elem_of_app. by left.
  - assert (Hall : forall v, v ∈ io_waves s -> rings q v = false).
    { intros v (j & Hv)%list_elem_of_lookup. destruct (turned_goto q lm w ch s) as [pc Ht].
      destruct (goto_forth q _ _ _ pc _ _ Hw Hv) as (v' & Hv' & _ & _ & <- & _). apply Hw'.
      rewrite turn_waves, Ht. by eapply list_elem_of_lookup_2. }
    destruct (IH Hall) as [E1 E2]. pose proof (turn_rest q lm i w ch s) as (_ & E3 & _).
    split; [|congruence]. unfold turn_wave, io_wave_turn. pose proof (Hall w (list_elem_of_lookup_2 _ _ _ Hw)) as Hr.
    destruct (wv_pc w) as [| | |[]| | | | | |]; cbn; try done.
    + by destruct (wait_turn _ _ _ _ _ _ _).
    + by destruct (locked_turn _ _ _ _ _ _ _ _).
    + unfold write_turn. set (n := match ch with Lane i => i | SeeStop => O end).
      by destruct (lanes !! n) as [[]|], (wv_requests w !! n); cbn; try destruct (forallb _ lanes).
    + unfold commit_sq. destruct (ionic_sq_lock _); [done|]. destruct (1 <? _); [done|]. by destruct (_ =? 0).
    + by rewrite Hr.
  - destruct IH as [E1 E2].
    { intros w Hw. apply Hw'. unfold nic_execute. by destruct (nic_flag _ _ || err). }
    unfold nic_ready, executed_count in Hn. rewrite E1, E2, (iq_dbval _ Hq) in Hn. cbn in Hn.
    pose proof (size_range q Hq). unfold sq_size in *. by rewrite Z.mod_0_l in Hn by lia.
  - apply IH. exact Hw'.
Qed.

(** The doorbell of the upper half.  [ring_doorbell] keeps the mask of
    active lanes in 32 bits: when the first of a wave's lanes is lane 32 or
    above, nothing is stored.  If that is so of all waves, the NIC never
    executes anything. *)
Theorem ionic_upper_half_silent s :
  ionic_reachable q lm s -> (forall w, w ∈ io_waves s -> wv_single w = false /\ 32 <= wv_lane w) ->
  io_executed s = [].
Proof using Hq.
  intros Hr Hw. apply silent_keeps; [done|]. intros w Hin. destruct (Hw w Hin) as [H1 H2].
  unfold rings. rewrite H1. by apply Z.ltb_ge.
Qed.

(** The lock every lane waits for.  All lanes of a wave spin in
    [ionic_lock_acquire]; when one gets the lock the others keep on spinning,
    and it does not leave the loop without them: whatever anybody does from
    then on, the wave stays where it is. *)
Theorem ionic_wave_deadlocks s s' i w idx :
  io_waves s !! i = Some w -> wv_pc w = Contending idx -> rtc (ionic_step q lm) s s' -> io_waves s' !! i = Some w.
Proof using Type.
  intros Hw Hpc Hr. induction Hr as [|s s1 s2 Hst _ IH]; [done|]. apply IH. clear IH.
  destruct Hst as [s c _ _|s j v ch Hv|s err cqe _ _|s]; cbn; [by apply lookup_app_l_Some| | |done].
  - rewrite turn_waves. destruct (decide (i = j)) as [->|Hne]; [|by rewrite list_lookup_insert_ne].
    rewrite list_lookup_insert_eq by (by eapply lookup_lt_Some). rewrite Hw in Hv. injection Hv as <-.
    unfold turned, io_wave_turn. by rewrite Hpc.
  - unfold nic_execute. by destruct (nic_flag _ _ || err).
Qed.

(** And a wave of more than one lane that commits gets there as soon as the
    lock is free. *)
Lemma wide_wave_contends s i w idx ch :
  io_waves s !! i = Some w -> wv_pc w = Committing idx -> 1 < wv_lanes w -> ionic_sq_lock (io_sq s) = false ->
  io_waves (turn_wave q lm i w ch s) !! i = Some (goto w (Contending idx)).
Proof using Type.
  intros Hw Hpc Hl Hf. rewrite turn_waves, list_lookup_insert_eq by (by eapply lookup_lt_Some).
  unfold turned, io_wave_turn. rewrite Hpc. unfold commit_sq. rewrite Hf. by rewrite (proj2 (Z.ltb_lt 1 _) Hl).
Qed.

(** The wrong lane under the lock.  All lanes of a wave compete for the
    lock of the completion queue; the one that gets it looks for the
    completion as many places on as it has lanes before it, and the others
    are not with it.  If the NIC has nothing left to complete there, the lane
    stays where it is with the lock held, whatever completions are waiting
    before that place, and no turn of any wave changes anything. *)
Theorem ionic_late_lane_stalls s i w k upto lane :
  ionic_reachable q lm s -> io_stop s = false -> ionic_cq_mask q <> 0 ->
  io_waves s !! i = Some w -> wv_pc w = Polling k upto lane -> behind (sq_msn (io_cq s)) upto = true ->
  poll_wave_cqes q lane (io_cq s) = NoCqe ->
  (forall j v, j <> i -> io_waves s !! j = Some v ->
     wv_pc v = Over \/ exists k' u, wv_pc v = Waiting k' u /\ behind (sq_msn (io_cq s)) u = true) ->
  forall j v n, io_waves s !! j = Some v -> turn_wave q lm j v (Lane n) s = s.
Proof using Hq.
  intros Hr Hs Hm Hw Hpc Hb Hp Hrest j v n Hv. destruct (io_reachable_ok q lm Hq s Hr Hs) as (D & R & S & K & Hi).
  destruct (ii_cq_lock _ _ _ _ _ _ _ Hi i w Hw ltac:(by rewrite Hpc)) as [Hl _].
  unfold turn_wave, io_wave_turn. destruct (decide (j = i)) as [->|Hne].
  - rewrite Hw in Hv. injection Hv as <-. rewrite Hpc. unfold locked_turn. rewrite Hb, Hp. cbn. by apply stay.
  - destruct (Hrest j v Hne Hv) as [E|(k' & u & E & Hbu)]; rewrite E; [by apply stay|].
    unfold wait_turn. rewrite (proj2 (Z.eqb_neq _ _) Hm), Hbu, Hl. cbn. by apply stay.
Qed.
End Theorems.

(** A transfer of 2 GiB or more is a negative [int32_t], which is below the
    inline threshold: [memcpy] is given its value as a [size_t]. *)
Lemma negative_size_inline q lm nelems laddr opcode :
  2147483648 <= nelems < 4294967296 -> laddr <> 0 -> put_is_write q opcode = true ->
  0 <= ionic_inline_threshold q < 2147483648 ->
  put_inline q opcode (put_size q nelems laddr opcode) = true /\
  Z.of_nat (length (inline_bytes lm laddr (put_size q nelems laddr opcode))) = 18446744069414584320 + nelems.
Proof.
  intros Hn Hl Hw Ht.
  assert (Hs : s32 nelems = nelems - 4294967296).
  { unfold s32, u32. replace (nelems + 2147483648) with (nelems - 2147483648 + 1 * 4294967296) by lia.
    rewrite Z.mod_add, Z.mod_small by lia. lia. }
  assert (Hps : put_size q nelems laddr opcode = nelems - 4294967296).
  { unfold put_size. rewrite Hs. rewrite (proj2 (Z.eqb_neq laddr 0)) by lia. by rewrite andb_false_r. }
  rewrite Hps. split.
  - unfold put_inline. rewrite Hw, (proj2 (Z.eqb_neq _ 0)) by lia. cbn. apply Z.leb_le.
    unfold s32, u32. rewrite Z.mod_small by lia. lia.
  - unfold inline_bytes. rewrite (proj2 (Z.eqb_neq laddr 0)) by lia. rewrite length_map, length_seq.
    unfold u64. replace (nelems - 4294967296) with (nelems + 18446744069414584320 + (-1) * 18446744073709551616) by lia.
    rewrite Z.mod_add, Z.mod_small by lia. lia.
Qed.

(** ** Runs *)

Inductive ionic_turn := Call (c : ionic_call) | Turn (i : nat) (ch : choice) | Nic.

Definition call_okb (q : ionic_config) (c : ionic_call) : bool :=
  (1 <=? call_lanes c) && (call_lanes c <=? 64) && (0 <=? call_lane c) && (call_lane c <? 64) &&
  (negb (call_single c) || (call_lanes c =? 1)) &&
  (forallb fetches (call_requests c) || negb (existsb fetches (call_requests c))) &&
  (negb (call_single c) || negb (existsb fetches (call_requests c)) || (ionic_cq_mask q =? 0)).

Lemma call_okb_ok q c : call_okb q c = true -> call_ok q c.
Proof.
  unfold call_okb. rewrite !andb_true_iff, !orb_true_iff, !negb_true_iff, !Z.leb_le, !Z.ltb_lt, !Z.eqb_eq.
  intros [[[[[[H1 H2] H3] H4] H5] H6] H7]. split; [lia|lia| |done|]; intros; intuition congruence.
Qed.

Definition not_overtakenb (n : Z) (s : ionic_system) : bool :=
  forallb (fun w => negb (live w) || (asked_count s + n - wv_start w <=? 4194304)) (io_waves s).

Definition good_cqe (q : ionic_config) (s : ionic_system) : ionic_v1_cqe :=
  {| msg_msn := to_be 4 ((executed_count s + 1) mod 16777216);
     qid_type_flags := to_be 4 (if round_color (ionic_cq_mask q) (signaled_count s) then 1 else 0) |}.

Definition take_turn (q : ionic_config) (lm : Z -> Z) (t : ionic_turn) (s : ionic_system) : option ionic_system :=
  match t with
  | Call c => if call_okb q c && not_overtakenb (Z.of_nat (length (call_requests c))) s
              then Some (call_wave q c s) else None
  | Turn i ch => w ← io_waves s !! i; Some (turn_wave q lm i w ch s)
  | Nic => if nic_ready q s then Some (nic_execute q false (good_cqe q s) s) else None
  end.
Fixpoint take_turns (q : ionic_config) (lm : Z -> Z) (l : list ionic_turn) (s : ionic_system) : option ionic_system :=
  match l with [] => Some s | t :: l' => s' ← take_turn q lm t s; take_turns q lm l' s' end.

Lemma good_cqe_ok q s : nic_cqe q (signaled_count s) (executed_count s) false (good_cqe q s).
Proof.
  split.
  - exists ((executed_count s + 1) mod 16777216). pose proof (Z.mod_pos_bound (executed_count s + 1) 16777216 ltac:(lia)).
    split_and!; [lia|lia|by rewrite Z.mod_mod by lia|done].
  - exists (if round_color (ionic_cq_mask q) (signaled_count s) then 1 else 0).
    split_and!; [destruct (round_color _ _); lia|destruct (round_color _ _); lia|done|by destruct (round_color _ _)..].
Qed.

Lemma take_turn_step q lm t s s' : take_turn q lm t s = Some s' -> ionic_step q lm s s'.
Proof.
  destruct t as [c|i ch|]; cbn.
  - destruct (call_okb q c && _) eqn:E; [|done]. intros [= <-]. apply andb_true_iff in E as [E1 E2].
    constructor; [by apply call_okb_ok|].
    + intros w Hw Hl. unfold not_overtakenb in E2. rewrite forallb_forall in E2.
      specialize (E2 w (proj1 (list_elem_of_In _ _) Hw)). rewrite Hl in E2. cbn in E2. by apply Z.leb_le.
  - destruct (io_waves s !! i) as [w|] eqn:Hw; [|done]. intros [= <-]. by apply step_turn.
  - destruct (nic_ready q s) eqn:Hn; [|done]. intros [= <-]. apply step_nic; [done|apply good_cqe_ok].
Qed.

Definition sample_ionic : ionic_config :=
  {| ionic_cq_mask := 63; ionic_cq_dbval := 0; ionic_sq_mask := 3; ionic_sq_dbval := 4096;
     ionic_lkey := 11; ionic_rkey := 12; ionic_inline_threshold := 28; op_rdma_write := 4; op_rdma_write_imm := 5;
     amo_buf := 512; amo_buf_lkey := 13; fetch_buf := 1024; fetch_buf_lkey := 14;
     db_decodes := fun i => i =? 0 |}.
Definition sample_bytes (a : Z) : Z := a mod 256.

Lemma sample_ionic_ok : qp_ok sample_ionic.
Proof.
  split; [exists 2; split; [lia|reflexivity]| |reflexivity].
  right. exists 6. split; [lia|]. split; [reflexivity|vm_compute; discriminate].
Qed.

Definition ionic_at (l : list ionic_turn) : ionic_system :=
  default (ionic_start sample_ionic) (take_turns sample_ionic sample_bytes l (ionic_start sample_ionic)).

Lemma ionic_at_reachable l : ionic_reachable sample_ionic sample_bytes (ionic_at l).
Proof.
  unfold ionic_at, ionic_reachable. generalize (ionic_start sample_ionic) as s.
  induction l as [|t l IH]; intros s; [done|]. cbn.
  destruct (take_turn sample_ionic sample_bytes t s) as [s'|] eqn:E; [|done]. cbn.
  pose proof (take_turn_step _ _ _ _ _ E) as Hst.
  destruct (take_turns sample_ionic sample_bytes l s') eqn:E2; [|done].
  eapply rtc_l; [exact Hst|]. specialize (IH s'). by rewrite E2 in IH.
Qed.

Definition io_put (n : Z) : ionic_request := Put n 1000 70000 4 0.

(** A wave of two lanes and a wave of one, which commits first; the NIC does
    not run past the entries not yet written. *)
Definition two_waves : list ionic_turn :=
  [Call (Post false 0 [io_put 20; io_put 100]); Call (Post false 0 [io_put 8]);
   Turn 1 (Lane 0); Turn 1 (Lane 0); Turn 1 (Lane 0); Turn 1 (Lane 0); Turn 1 (Lane 0); Turn 1 (Lane 0);
   Turn 0 (Lane 0); Turn 0 (Lane 1); Turn 0 (Lane 1); Turn 0 (Lane 0); Turn 0 (Lane 0); Nic; Nic; Nic].
(** The two lanes of the first wave get stuck when they commit; a quiet takes
    the completions. *)
Definition then_quiet : list ionic_turn :=
  two_waves ++ [Turn 0 (Lane 0); Turn 0 (Lane 0); Call (Quiet true 0 1); Turn 2 (Lane 0); Turn 2 (Lane 0);
                Turn 2 (Lane 0); Turn 2 (Lane 0); Turn 2 (Lane 0); Turn 2 (Lane 0)].

Lemma ionic_fifo_witness :
  length (io_executed (ionic_at two_waves)) = 3%nat /\
  exists a idx, io_asked (ionic_at two_waves) !! 2%nat = Some a /\
    io_executed (ionic_at two_waves) !! 2%nat =
      Some (ionic_wqe sample_ionic sample_bytes (u32 (Z.of_nat 2)) (as_last a) idx (as_lane a) (as_request a)).
Proof.
  split; [vm_compute; reflexivity|].
  destruct (io_executed (ionic_at two_waves) !! 2%nat) as [w|] eqn:E; [|vm_compute in E; discriminate E].
  destruct (ionic_fifo sample_ionic sample_bytes sample_ionic_ok (ionic_at two_waves) 2 w) as (a & idx & Ha & Hw);
    [apply ionic_at_reachable|vm_compute; reflexivity|exact E|].
  exists a, idx. split; [exact Ha|]. by rewrite <- Hw.
Defined.

Lemma ionic_quiet_waits_witness :
  exists w, io_waves (ionic_at then_quiet) !! 2%nat = Some w /\ wv_start w = 3 /\
    3 + 0 <= executed_count (ionic_at then_quiet).
Proof.
  destruct (io_waves (ionic_at then_quiet) !! 2%nat) as [w|] eqn:E; [|vm_compute in E; discriminate E].
  assert (Hw : wv_pc w = Over /\ wv_requests w = [] /\ wv_start w = 3)
    by (vm_compute in E; injection E as <-; split_and!; reflexivity).
  destruct Hw as (H1 & H2 & H3). exists w. split_and!; [reflexivity|exact H3|].
  pose proof (ionic_quiet_waits sample_ionic sample_bytes sample_ionic_ok (ionic_at then_quiet) w
    (ionic_at_reachable then_quiet) ltac:(vm_compute; reflexivity) (list_elem_of_lookup_2 _ _ _ E) H1
    ltac:(rewrite H2; reflexivity)) as H.
  unfold wv_n in H. rewrite H2, H3 in H. exact H.
Defined.

Lemma all_waves (P : wave -> Prop) (f : wave -> bool) s :
  (forall w, f w = true -> P w) -> forallb f (io_waves s) = true -> forall w, w ∈ io_waves s -> P w.
Proof.
  intros Hf Ha w Hw. rewrite forallb_forall in Ha. apply Hf, Ha. by apply list_elem_of_In.
Qed.

Lemma ionic_announced_witness :
  executed_count (ionic_at two_waves) = 3 /\ sq_dbprod (io_sq (ionic_at two_waves)) = u32 3.
Proof.
  split; [vm_compute; reflexivity|].
  apply (ionic_announced sample_ionic sample_bytes sample_ionic_ok (ionic_at two_waves));
    [apply ionic_at_reachable|vm_compute; reflexivity| |vm_compute; reflexivity|vm_compute; reflexivity].
  apply (all_waves _ (rings sample_ionic)); [tauto|vm_compute; reflexivity].
Defined.

Lemma ionic_wave_deadlocks_witness :
  exists w, io_waves (ionic_at then_quiet) !! O = Some w /\ wv_lanes w = 2 /\ wv_pc w = Contending 0 /\
    forall s', rtc (ionic_step sample_ionic sample_bytes) (ionic_at then_quiet) s' -> io_waves s' !! O = Some w.
Proof.
  destruct (io_waves (ionic_at then_quiet) !! O) as [w|] eqn:E; [|vm_compute in E; discriminate E].
  exists w. split; [done|]. assert (Hw : wv_lanes w = 2 /\ wv_pc w = Contending 0)
    by (vm_compute in E; injection E as <-; by split).
  destruct Hw as [Hl Hpc]. split; [done|]. split; [done|].
  intros s' Hr. exact (ionic_wave_deadlocks sample_ionic sample_bytes _ s' O w 0 E Hpc Hr).
Defined.

Definition orderlyb (q : ionic_config) (w : wave) : bool :=
  rings q w && (wv_n w <=? ionic_sq_mask q) &&
  match wv_pc w with Polling _ _ lane | Taking _ _ lane _ _ => lane =? 0 | _ => true end &&
  ((wv_lanes w =? 1) || committed (wv_pc w)).

Lemma orderlyb_ok q s : io_stop s = false -> forallb (orderlyb q) (io_waves s) = true -> orderly q s.
Proof.
  intros Hs Hf. split; [done|..]; revert Hf; apply all_waves; intros w Hw; unfold orderlyb, first_lane in *;
    rewrite !andb_true_iff, orb_true_iff in Hw; destruct Hw as [[[H1 H2%Z.leb_le] H3] H4].
  - split_and!; [done|done|]. by destruct (wv_pc w); try done; apply Z.eqb_eq.
  - destruct H4 as [H4%Z.eqb_eq|H4]; [by left|by right].
Qed.

Lemma ionic_completes_witness :
  executed_count (ionic_at [Call (Post false 0 [io_put 20]); Call (Post false 3 [io_put 100])]) = 0 /\
  exists s', rtc (ionic_step sample_ionic sample_bytes) (ionic_at [Call (Post false 0 [io_put 20]); Call (Post false 3 [io_put 100])]) s' /\
    asked_count s' = 2 /\ (finished s' \/ some_aborted s').
Proof.
  split; [vm_compute; reflexivity|].
  destruct (ionic_completes sample_ionic sample_bytes sample_ionic_ok (ionic_at [Call (Post false 0 [io_put 20]); Call (Post false 3 [io_put 100])]))
    as (s' & H1 & H2 & H3); [apply ionic_at_reachable|apply orderlyb_ok; vm_compute; reflexivity|].
  exists s'. split_and!; [exact H1|unfold asked_count; rewrite H2; reflexivity|exact H3].
Defined.

Lemma ionic_entry_meaning_witness :
  nic_flag (ionic_wqe sample_ionic sample_bytes (u32 5) true 0 0 (io_put 100)) IONIC_V1_FLAG_COLOR = false /\
  op (base (ionic_wqe sample_ionic sample_bytes (u32 5) true 0 0 (io_put 100))) = 4.
Proof.
  destruct (ionic_entry_meaning sample_ionic sample_bytes sample_ionic_ok 5 true 0 0 100 1000 70000 4 0)
    as (H1 & H2 & _ & _); try (cbn; lia).
  split; [exact H2|]. unfold io_put. congruence.
Defined.

(** A wave whose first lane is lane 40 puts; it returns, and nothing is there
    for the NIC. *)
Definition upper_put : list ionic_turn :=
  [Call (Post false 40 [io_put 8]); Turn 0 (Lane 0); Turn 0 (Lane 0); Turn 0 (Lane 0); Turn 0 (Lane 0);
   Turn 0 (Lane 0); Turn 0 (Lane 0)].

Lemma ionic_upper_half_silent_witness :
  map wv_pc (io_waves (ionic_at upper_put)) = [Over] /\ asked_count (ionic_at upper_put) = 1 /\
  io_executed (ionic_at upper_put) = [].
Proof.
  split_and!; [vm_compute; reflexivity|vm_compute; reflexivity|].
  apply (ionic_upper_half_silent sample_ionic sample_bytes sample_ionic_ok (ionic_at upper_put));
    [apply ionic_at_reachable|].
  apply (all_waves _ (fun w => negb (wv_single w) && (32 <=? wv_lane w))); [|vm_compute; reflexivity].
  intros w Hw. bool_to_prop. split; [done|lia].
Defined.

(** A put that has been executed and completed, and a quiet of 64 lanes in
    which lane 3 gets the lock. *)
Definition lane_three : list ionic_turn :=
  [Call (Post false 0 [io_put 8]); Turn 0 (Lane 0); Turn 0 (Lane 0); Turn 0 (Lane 0); Turn 0 (Lane 0);
   Turn 0 (Lane 0); Turn 0 (Lane 0); Nic; Call (Quiet false 0 64); Turn 1 (Lane 3)].

Lemma ionic_late_lane_stalls_witness :
  executed_count (ionic_at lane_three) = 1 /\ io_signaled (ionic_at lane_three) = [1] /\
  nic_ready sample_ionic (ionic_at lane_three) = false /\
  exists w, io_waves (ionic_at lane_three) !! 1%nat = Some w /\ live w = true /\
    turn_wave sample_ionic sample_bytes 1 w (Lane 0) (ionic_at lane_three) = ionic_at lane_three.
Proof.
  split_and!; [vm_compute; reflexivity|vm_compute; reflexivity|vm_compute; reflexivity|].
  destruct (io_waves (ionic_at lane_three) !! 1%nat) as [w|] eqn:E; [|vm_compute in E; discriminate E].
  assert (Hpc : wv_pc w = Polling ThenReturn 1 3) by (vm_compute in E; injection E as <-; reflexivity).
  exists w. split_and!; [reflexivity|unfold live; rewrite Hpc; reflexivity|].
  apply (ionic_late_lane_stalls sample_ionic sample_bytes sample_ionic_ok (ionic_at lane_three) 1 w ThenReturn 1 3);
    [apply ionic_at_reachable|vm_compute; reflexivity|discriminate|exact E|exact Hpc|vm_compute; reflexivity
    |vm_compute; reflexivity| |exact E].
  intros [|[|j]] v Hne Hv; [|done|].
  - left. vm_compute in Hv. injection Hv as <-. reflexivity.
  - vm_compute in Hv. discriminate Hv.
Defined.
