(* ===== verification/FileLife.v ===== *)
(** * What closing a file of the module takes back

    [rocm_xio_release] for a file that owns nothing, one buffer
    registration, or one contiguous allocation, and that allocation between
    [ALLOC_CONTIG_QUEUE], [mmap], the closing of the mapping and the release
    of the file, as exact states.  The core library's calls are proved
    against these. *)

From S2P Require Import Prelude Uapi Kernel State Demo QueueReg BufferReg Contig Quiesce Frame Driver.

(** ** Files that own nothing *)

Record owns_nothing (f : ptr) (s : xio_state) : Prop := {
  on_queues : forall e, e ∈ st_queue_addrs s -> qa_owner e <> f;
  on_buffers : forall e, e ∈ st_vram_buffers s -> vb_owner e <> f;
  on_contigs : forall p, p ∈ cs_list (st_contig s) -> obj_owned_by f (st_contig s) p = false;
  on_quiesced : forall e, e ∈ st_quiesced s -> qe_owner e <> f
}.

(** Whatever is listed is live. *)
Definition listed_ok (s : xio_state) : Prop :=
  forall p, p ∈ cs_list (st_contig s) -> is_Some (cs_objs (st_contig s) !! p).

(** The state is the same but for the history, which acquired nothing that
    it did not release, and the next id. *)
Definition settled (s s' : xio_state) : Prop :=
  exists tr n, s' = set_contig (with_next_id (fun _ => n)) (set_trace (fun _ => tr) s) /\
    (forall r, held tr r = held (st_trace s) r) /\ (uaf_free (st_trace s) = true -> uaf_free tr = true).

Lemma settled_refl s : settled s s.
Proof. exists (st_trace s), (cs_next_id (st_contig s)). split_and!; [|done..]. by destruct s as [? ? ? []]. Qed.

Lemma settled_trans s s1 s2 : settled s s1 -> settled s1 s2 -> settled s s2.
Proof.
  intros (tr & n & -> & H1 & H2) (tr' & n' & -> & H3 & H4). exists tr', n'. split_and!; [done| |].
  - intros r. rewrite H3. by rewrite <- H1.
  - intros Hu. apply H4. proj. by apply H2.
Qed.

Lemma settled_owns_nothing f s s' : settled s s' -> owns_nothing f s -> owns_nothing f s'.
Proof. intros (tr & n & -> & _) []. by split. Qed.

Lemma settled_listed s s' : settled s s' -> listed_ok s -> listed_ok s'.
Proof. intros (tr & n & -> & _). done. Qed.

(** The list that [rocm_xio_release] keeps, and what it drops. *)
Lemma keep_all {A} (own : A -> bool) (l : list A) :
  (forall e, e ∈ l -> own e = false) -> filter (fun e => own e = false) l = l.
Proof. apply filter_all. Qed.

Lemma drop_none {A} (own : A -> bool) (l : list A) :
  (forall e, e ∈ l -> own e = false) -> filter (fun e => own e = true) l = [].
Proof. intros H. apply filter_none. intros e He. by rewrite H. Qed.

Lemma keep_tail {A} (own : A -> bool) e (l : list A) :
  own e = true -> (forall e, e ∈ l -> own e = false) -> filter (fun e => own e = false) (e :: l) = l.
Proof. intros Ho H. rewrite filter_cons, decide_False by (by rewrite Ho). by apply keep_all. Qed.

Lemma drop_head {A} (own : A -> bool) e (l : list A) :
  own e = true -> (forall e, e ∈ l -> own e = false) -> filter (fun e => own e = true) (e :: l) = [e].
Proof. intros Ho H. rewrite filter_cons, decide_True by done. f_equal. by apply drop_none. Qed.

Lemma set_vram_buffers_undo g e s :
  g (e :: st_vram_buffers s) = st_vram_buffers s -> set_vram_buffers g (set_vram_buffers (cons e) s) = s.
Proof. destruct s. unfold set_vram_buffers. proj. by intros ->. Qed.

Lemma set_queue_addrs_same f s : f (st_queue_addrs s) = st_queue_addrs s -> set_queue_addrs f s = s.
Proof. destruct s. unfold set_queue_addrs. proj. by intros ->. Qed.
Lemma set_vram_buffers_same f s : f (st_vram_buffers s) = st_vram_buffers s -> set_vram_buffers f s = s.
Proof. destruct s. unfold set_vram_buffers. proj. by intros ->. Qed.
Lemma set_quiesced_same f s : f (st_quiesced s) = st_quiesced s -> set_quiesced f s = s.
Proof. destruct s. unfold set_quiesced. proj. by intros ->. Qed.
Lemma set_contig_same f s : f (st_contig s) = st_contig s -> set_contig f s = s.
Proof. destruct s. unfold set_contig. proj. by intros ->. Qed.
Lemma with_list_same f c : f (cs_list c) = cs_list c -> with_list f c = c.
Proof. destruct c as [o l n v]. unfold with_list. cbn [cs_list]. by intros ->. Qed.

Ltac not_mine H := intros ? He; apply Z.eqb_neq; by apply H.

Section FileLife.
Context {K : Kernel} {KO : KernelOk K}.

Lemma settled_balanced tr0 s s' : settled s s' -> balanced tr0 s -> balanced tr0 s'.
Proof using Type.
  intros (tr & n & -> & H1 & _) Hb. ledger_open rs. specialize (H1 rs). autorewrite with books. proj.
  cbn [with_next_id cs_objs]. lia.
Qed.

Lemma release_queues_nothing f s :
  (forall e, e ∈ st_queue_addrs s -> qa_owner e <> f) -> release_queue_addrs f s = (tt, s).
Proof using Type.
  intros H. unfold release_queue_addrs, bind, gets, modify.
  rewrite drop_none by not_mine H. rewrite set_queue_addrs_same; [done|]. apply keep_all. not_mine H.
Qed.

Lemma release_buffers_nothing f s :
  (forall e, e ∈ st_vram_buffers s -> vb_owner e <> f) -> release_vram_buffers f s = (tt, s).
Proof using Type.
  intros H. unfold release_vram_buffers, bind, gets, modify.
  rewrite drop_none by not_mine H. rewrite set_vram_buffers_same; [done|]. apply keep_all. not_mine H.
Qed.

Lemma release_quiesced_nothing f s :
  (forall e, e ∈ st_quiesced s -> qe_owner e <> f) -> release_quiesced f s = (tt, s).
Proof using Type.
  intros H. unfold release_quiesced, bind, gets, modify.
  rewrite drop_none by not_mine H. rewrite set_quiesced_same; [done|]. apply keep_all. not_mine H.
Qed.

Lemma release_contig_nothing f s :
  (forall p, p ∈ cs_list (st_contig s) -> obj_owned_by f (st_contig s) p = false) -> listed_ok s ->
  release_contig f s = (tt, s).
Proof using Type.
  intros H Hl. unfold release_contig, bind, gets, modify. rewrite walk_live_id by done.
  rewrite drop_none by done. rewrite set_contig_same; [done|]. apply with_list_same. by apply keep_all.
Qed.

Lemma release_nothing f s : owns_nothing f s -> listed_ok s -> rocm_xio_release f s = (0, s).
Proof using Type.
  intros [] Hl. unfold rocm_xio_release, bind.
  by rewrite release_queues_nothing, release_buffers_nothing, release_contig_nothing, release_quiesced_nothing.
Qed.

(** ** One buffer *)

Lemma drop_buffer_touches_uaf e : touches (fun p => negb (bool_decide (p = PUaf))) (drop_buffer e).
Proof using Type. unfold drop_buffer. touch. apply drop_attachment_touches. Qed.

Lemma release_one_buffer f e tr s :
  owns_nothing f s -> listed_ok s -> buffer_wf e -> vb_owner e = f ->
  wp (rocm_xio_release f) (fun rc s' => rc = 0 /\ exists tr',
    s' = set_trace (fun _ => tr') s /\
    (forall r, held tr' r = held tr r - own_buffer e r) /\ (uaf_free tr = true -> uaf_free tr' = true))
    (set_vram_buffers (cons e) (set_trace (fun _ => tr) s)).
Proof using Type.
  intros H Hl He Ho. unfold rocm_xio_release. apply wp_bind. unfold wp at 1.
  rewrite release_queues_nothing by apply H.
  assert (forall x, x ∈ st_vram_buffers s -> (vb_owner x =? f) = false) as Hb
    by (intros x Hx; by apply Z.eqb_neq, (on_buffers _ _ H)).
  apply wp_bind. unfold release_vram_buffers. apply wp_bind, wp_gets, wp_bind, wp_modify.
  cbn [st_vram_buffers set_vram_buffers set_trace].
  rewrite (drop_head (fun e => vb_owner e =? f)) by (done || by apply Z.eqb_eq).
  rewrite set_vram_buffers_undo by (apply (keep_tail (fun e => vb_owner e =? f)); [by apply Z.eqb_eq|done]).
  pose proof (drop_buffer_touches_uaf e (set_trace (fun _ => tr) s) PUaf eq_refl) as Hu.
  destruct (drop_buffer_releases e He (set_trace (fun _ => tr) s)) as (tr' & E & Hc). rewrite E in Hu.
  change (reverse [e]) with [e]. cbn [iterM]. apply wp_bind. 
 unfold wp at 1. rewrite E. apply wp_ret.
  assert (owns_nothing f (set_trace (fun _ => tr') s)) as H' by by destruct H.
  unfold wp, bind. rewrite release_contig_nothing by (try apply H'; done).
  rewrite release_quiesced_nothing by apply H'. split; [done|]. exists tr'. split_and!; [done|done|].
  intros Ht. change (uaf_free tr' = uaf_free tr) in Hu. by rewrite Hu.
Qed.

(** ** One contiguous allocation *)

(** [ca] linked into [s], with [r] references and perhaps a mapping [v], after
    the history [tr]. *)
Definition linked (s : xio_state) (ca : contig_alloc_entry) (r : Z) (v : option Z) (tr : trace) : xio_state :=
  set_contig (fun c =>
    {| cs_objs := <[ca_self ca := set_ref r ca]> (cs_objs c);
       cs_list := ca_self ca :: cs_list c;
       cs_next_id := u32 (cs_next_id c + 1);
       cs_vmas := match v with Some v => <[v := ca_self ca]> (cs_vmas c) | None => cs_vmas c end |})
    (set_trace (fun _ => tr) s).

(** [ca] is new, and the history accounts for it. *)
Record new_object (s : xio_state) (ca : contig_alloc_entry) (tr : trace) : Prop := {
  no_fresh : cs_objs (st_contig s) !! ca_self ca = None;
  no_books : forall r, held tr r = held (st_trace s) r + own_contig ca r;
  no_uaf : uaf_free (st_trace s) = true -> uaf_free tr = true
}.

Lemma new_object_log s ca tr e :
  new_object s ca tr -> effect e = None -> uaf_free [e] = true -> new_object s ca (e :: tr).
Proof using Type.
  intros [Hf Hb Hu] He Hn. split; [done|..].
  - intros r. rewrite held_cons. unfold delta. rewrite He, Hb. lia.
  - intros Hs. cbn in Hn |- *. rewrite andb_true_r in Hn. rewrite Hn. by apply Hu.
Qed.

(** What [ALLOC_CONTIG_QUEUE] does: nothing lasting, or a new object with
    one reference, whose address and id the caller is told. *)
Lemma alloc_linked tr0 f req s :
  (forall r, 0 <= held tr0 r) -> contig_ok tr0 no_refs s ->
  wp (ioctl_alloc_contig_queue f (Some req)) (fun rc s' =>
    (rc < 0 /\ settled s s') \/
    (rc = 0 /\ exists ca tr tr', s' = linked s ca 1 None tr /\ new_object s ca tr /\
       ca_owner ca = f /\ ca_size ca = ac_size req /\ ca_id ca = cs_next_id (st_contig s) /\ ca_ref ca = 1 /\
       tr = EvCopyOut (UContig {| ac_size := ac_size req; ac_nvme_bdf := ac_nvme_bdf req;
              ac_phys_addr := ca_dma_addr ca; ac_mmap_offset := ca_id ca |}) :: tr')) s.
Proof using KO.
  intros Hb Hok. eapply wp_mono; [by apply (alloc_contig_queue_core tr0 no_refs)|].
  intros rc s' (tr & Hu & [(Hrc & Hs & Hh)|(-> & l & Hreq & Hn & -> & (tr' & Htr) & Hh)]).
  - left. split; [done|]. destruct Hs as [-> | ->].
    + exists tr, (cs_next_id (st_contig s)). split_and!; [by destruct s as [? ? ? []]|done..].
    + exists tr, (u32 (cs_next_id (st_contig s) + 1)). split_and!; [by destruct s as [? ? ? []]|done..].
  - right. split; [done|]. exists (new_contig f (cs_next_id (st_contig s)) l), tr, tr'.
    split_and!; [reflexivity|by split|reflexivity|by cbn; rewrite Hreq|reflexivity|reflexivity|exact Htr].
Qed.

(** Taking the object apart again. *)
Definition freed (s : xio_state) (ca : contig_alloc_entry) (tr : trace) : xio_state :=
  set_contig (with_next_id (fun n => u32 (n + 1)))
    (set_trace (fun _ => EvKfree (ca_self ca) :: EvPciPut (ca_pdev ca) ::
       EvDmaFree (ca_pdev ca) (ca_size ca) (ca_cpu_addr ca) (ca_dma_addr ca) :: tr) s).

Lemma freed_settled s ca tr : new_object s ca tr -> settled s (freed s ca tr).
Proof using Type.
  intros [Hf Hb Hu]. eexists _, (u32 (cs_next_id (st_contig s) + 1)).
  split_and!; [unfold freed; by destruct s as [? ? ? []]| |by intros; apply Hu].
  intros r. specialize (Hb r). unfold own_contig in Hb. ledger_close.
Qed.

(** Off the list, with one reference left. *)
Definition unlisted (s : xio_state) (ca : contig_alloc_entry) (tr : trace) : xio_state :=
  set_contig (with_list (fun _ => cs_list (st_contig s))) (linked s ca 1 None tr).

Lemma drop_unlisted s ca tr :
  new_object s ca tr -> kref_put (ca_self ca) (unlisted s ca tr) = (tt, freed s ca tr).
Proof using Type.
  intros [Hf _ _]. unfold kref_put, deref, bind, gets, unlisted, linked.
  cbn [st_contig set_contig cs_objs with_list]. rewrite lookup_insert_eq. unfold ret at 1.
  cbn [set_ref ca_ref Z.eqb Pos.eqb].
  transitivity (tt, set_contig (fun c =>
    {| cs_objs := delete (ca_self ca) (<[ca_self ca := set_ref 1 ca]> (cs_objs c)); cs_list := cs_list (st_contig s);
       cs_next_id := u32 (cs_next_id c + 1); cs_vmas := cs_vmas c |})
    (set_trace (fun _ => EvKfree (ca_self ca) :: EvPciPut (ca_pdev ca) ::
       EvDmaFree (ca_pdev ca) (ca_size ca) (ca_cpu_addr ca) (ca_dma_addr ca) :: tr) s)); [reflexivity|].
  f_equal. unfold freed, set_contig. cbn [st_contig set_trace]. by rewrite delete_insert_id.
Qed.

Lemma free_linked s ca tr f :
  new_object s ca tr -> ca_owner ca = f ->
  ioctl_free_contig_queue f (Some {| fc_mmap_offset := ca_id ca |}) (linked s ca 1 None tr)
  = (0, freed s ca tr).
Proof using Type.
  intros Hn Ho. unfold ioctl_free_contig_queue, bind, gets. cbn [fc_mmap_offset].
  unfold linked at 1. cbn [st_contig set_contig cs_list list_walk]. unfold deref, bind, gets.
  unfold linked at 1. cbn [st_contig set_contig cs_objs]. rewrite lookup_insert_eq.
  unfold ret at 1. unfold owned_id. cbn [set_ref ca_id ca_owner]. rewrite Z.eqb_refl, Ho, Z.eqb_refl. cbn [andb].
  unfold ret at 1. unfold list_del, modify.
  replace (set_contig _ (linked s ca 1 None tr)) with (unlisted s ca tr); [by rewrite drop_unlisted|].
  unfold unlisted, linked, set_contig, with_list. cbn. by rewrite Z.eqb_refl.
Qed.

Lemma linked_obj s ca r v tr : cs_objs (st_contig (linked s ca r v tr)) !! ca_self ca = Some (set_ref r ca).
Proof using Type. apply lookup_insert_eq. Qed.

Lemma relink s ca r v tr n m :
  set_contig (with_objs (insert (ca_self ca) (set_ref n (set_ref m ca)))) (linked s ca r v tr) = linked s ca n v tr.
Proof using Type.
  unfold linked, set_contig, with_objs. cbn [st_contig set_trace cs_objs cs_list cs_next_id cs_vmas].
  by rewrite insert_insert_eq.
Qed.

Lemma kref_put_linked s ca v tr : kref_put (ca_self ca) (linked s ca 2 v tr) = (tt, linked s ca 1 v tr).
Proof using Type.
  unfold kref_put, deref, bind, gets. rewrite linked_obj. unfold ret, modify.
  cbn [set_ref ca_ref Z.eqb Pos.eqb]. f_equal. apply relink.
Qed.

(** [mmap] of the object's id. *)
Lemma mmap_linked s ca tr vma size :
  new_object s ca tr -> vm_file vma = ca_owner ca -> vm_pgoff vma = ca_id ca ->
  0 < ca_id ca < 4294967296 -> vm_end vma - vm_start vma = size -> 0 <= size < 18446744073709551616 ->
  wp (rocm_xio_mmap vma) (fun rc s' =>
    (rc < 0 /\ exists tr', s' = linked s ca 1 None tr' /\ new_object s ca tr') \/
    (rc = 0 /\ size <= ca_size ca /\ exists tr',
       tr' = EvDmaMmap (ca_pdev ca) (vm_start vma) 0 (ca_cpu_addr ca) (ca_dma_addr ca) size :: tr /\
       s' = linked s ca 2 (Some (vma_id vma)) tr' /\ new_object s ca tr'))
    (linked s ca 1 None tr).
Proof using Type.
  intros Hn Hf Hp Hid Hsz Hr. unfold rocm_xio_mmap. rewrite (proj2 (Z.eqb_neq _ _)) by lia.
  apply wp_bind. unfold wp at 1.
  rewrite (mmap_contig_get_head vma (ca_self ca) (set_ref 1 ca) (cs_list (st_contig s)));
    [|reflexivity|apply linked_obj|unfold owned_id; rewrite Hf, Hp, u32_small by lia; cbn; by rewrite !Z.eqb_refl].
  rewrite relink. change (ca_ref (set_ref 1 ca) + 1) with 2.
  unfold mmap_contig_map. apply wp_bind. eapply wp_deref_live; [apply linked_obj|].
  rewrite Hsz, u64_small by done. cbn [set_ref ca_size ca_pdev ca_cpu_addr ca_dma_addr].
  destruct (Z.ltb_spec (ca_size ca) size).
  { apply wp_bind. unfold wp at 1. rewrite kref_put_linked. apply wp_ret. left. split; [done|]. by exists tr. }
  apply wp_bind, wp_ask. destruct (Z.ltb_spec (k_dma_mmap (st_trace (linked s ca 2 None tr)) (ca_pdev ca) size) 0).
  { apply wp_bind, wp_log, wp_bind. unfold wp at 1.
    change (set_trace _ (linked s ca 2 None tr)) with (linked s ca 2 None (EvFail FMmap :: tr)).
    rewrite kref_put_linked. apply wp_ret. left. split; [done|]. eexists. split; [done|]. by apply new_object_log. }
  apply wp_bind, wp_log, wp_bind, wp_modify, wp_ret. right. split_and!; [done|done|].
  eexists. split_and!; [reflexivity|reflexivity|by apply new_object_log].
Qed.

(** The mapping goes. *)
Lemma close_linked s ca tr v :
  cs_vmas (st_contig s) !! v = None ->
  contig_vma_close v (linked s ca 2 (Some v) tr) = (tt, linked s ca 1 None tr).
Proof using Type.
  intros Hv. unfold contig_vma_close, bind, gets, linked at 1. cbn [st_contig set_contig cs_vmas].
  rewrite lookup_insert_eq. unfold modify.
  replace (set_contig _ (linked s ca 2 (Some v) tr)) with (linked s ca 2 None tr); [apply kref_put_linked|].
  unfold linked, set_contig, with_vmas. cbn [st_contig set_trace cs_objs cs_list cs_next_id cs_vmas].
  by rewrite delete_insert_id.
Qed.

(** The file goes. *)
Lemma release_linked f s ca tr :
  owns_nothing f s -> listed_ok s -> new_object s ca tr -> ca_owner ca = f ->
  rocm_xio_release f (linked s ca 1 None tr) = (0, freed s ca tr).
Proof using Type.
  intros H Hl Hn Ho. unfold rocm_xio_release, bind.
  rewrite release_queues_nothing by apply H. rewrite release_buffers_nothing by apply H.
  assert (release_contig f (linked s ca 1 None tr) = (tt, freed s ca tr)) as ->.
  { unfold release_contig, bind, gets, modify.
    assert (forall p, p ∈ cs_list (st_contig s) -> p <> ca_self ca) as Hne.
    { intros p Hp ->. destruct (Hl _ Hp) as [? E]. by rewrite (no_fresh _ _ _ Hn) in E. }
    assert (forall p, p ∈ cs_list (st_contig s) ->
      obj_owned_by f (st_contig (linked s ca 1 None tr)) p = false) as Hno.
    { intros p Hp. unfold obj_owned_by. cbn [linked st_contig set_contig cs_objs].
      rewrite lookup_insert_ne by (intros E; by apply (Hne p)). by apply (on_contigs _ _ H). }
    assert (obj_owned_by f (st_contig (linked s ca 1 None tr)) (ca_self ca) = true) as Hyes.
    { unfold obj_owned_by. rewrite linked_obj. by apply Z.eqb_eq. }
    rewrite walk_live_id.
    2:{ intros p [->|Hp]%elem_of_cons; [by eexists; apply linked_obj|].
        cbn [linked st_contig set_contig cs_objs].
        rewrite lookup_insert_ne by (intros E; by apply (Hne p)). by apply Hl. }
    change (cs_list (st_contig (linked s ca 1 None tr))) with (ca_self ca :: cs_list (st_contig s)).
    rewrite drop_head by done. change (reverse [ca_self ca]) with [ca_self ca].
    replace (set_contig _ (linked s ca 1 None tr)) with (unlisted s ca tr).
    - cbn [iterM]. unfold bind. by rewrite drop_unlisted.
    - unfold unlisted, set_contig, with_list. cbn [st_contig linked set_contig cs_list]. by rewrite keep_tail. }
  by rewrite release_quiesced_nothing by apply H.
Qed.
End FileLife.
