(* ===== verification/HostEnv.v ===== *)
(** * The host process

    What the host side of the core library
    ([src/src/common/xio-common.hip]) works with: the memory and the resources
    of the process, the calls of the C library, HIP and HSA that acquire and
    release them, and the kernel module's state, which its ioctls change.

    The calls are parameters: the class [HostEnv] has a field per call, a
    function of the resources held and of the number of calls made so far,
    so that every answer in any order is some instance.  [HostEnvOk] are the
    documented promises the library relies on. *)

From S2P Require Import Prelude Uapi Kernel State.

(** ** Resources *)

(** Memory by its allocator, what is done to memory, and the objects of the
    RDMA verbs. *)
Inductive res_kind :=
| KMalloc | KHostPinned | KDevice | KHsaMem
| KVmHandle | KVmRange | KVmMap
| KRegistered | KLocked | KMlocked | KMapping | KFd | KDmabuf
| KDeviceList | KContext | KPd | KCq | KQp | KMr.

#[global] Instance res_kind_eq_dec : EqDecision res_kind.
Proof. solve_decision. Defined.

Definition kind_number (k : res_kind) : nat :=
  match k with
  | KMalloc => 0 | KHostPinned => 1 | KDevice => 2 | KHsaMem => 3
  | KVmHandle => 4 | KVmRange => 5 | KVmMap => 6
  | KRegistered => 7 | KLocked => 8 | KMlocked => 9 | KMapping => 10 | KFd => 11 | KDmabuf => 12
  | KDeviceList => 13 | KContext => 14 | KPd => 15 | KCq => 16 | KQp => 17 | KMr => 18
  end.
Definition number_kind (n : nat) : res_kind :=
  nth n [KMalloc; KHostPinned; KDevice; KHsaMem; KVmHandle; KVmRange; KVmMap;
         KRegistered; KLocked; KMlocked; KMapping; KFd; KDmabuf;
         KDeviceList; KContext; KPd; KCq; KQp; KMr] KMalloc.

#[global] Instance res_kind_countable : Countable res_kind.
Proof. apply (inj_countable' kind_number number_kind). by intros []. Defined.

(** A resource is named by its pointer, handle or descriptor, and by the size
    where the call that gives it back is told one. *)
Definition host_res : Type := res_kind * Z * Z.

Abbreviation RMalloc p := (KMalloc, p, 0).
Abbreviation RHostPinned p := (KHostPinned, p, 0).
Abbreviation RDevice p := (KDevice, p, 0).
Abbreviation RHsaMem p := (KHsaMem, p, 0).
Abbreviation RVmHandle h := (KVmHandle, h, 0).
Abbreviation RVmRange p n := (KVmRange, p, n).
Abbreviation RVmMap p n := (KVmMap, p, n).
Abbreviation RRegistered p := (KRegistered, p, 0).
Abbreviation RLocked p := (KLocked, p, 0).
Abbreviation RMlocked p n := (KMlocked, p, n).
Abbreviation RMapping p n := (KMapping, p, n).
Abbreviation RFd fd := (KFd, fd, 0).
Abbreviation RDmabuf fd := (KDmabuf, fd, 0).

(** Whether a resource is memory that a new block cannot overlap. *)
Definition is_memory (k : res_kind) : bool :=
  match k with
  | KMalloc | KHostPinned | KDevice | KHsaMem | KVmRange | KMapping => true
  | _ => false
  end.

(** ** HSA agents and their regions: what the queries answer, [None] where
    one fails. *)
Record hsa_region := {
  rg_handle : Z; rg_global : option bool; rg_alloc_allowed : option bool;
  rg_fine_coarse : option (bool * bool)
}.
Record hsa_agent := { ag_handle : Z; ag_is_gpu : option bool; ag_regions : list hsa_region }.

(** What is opened. *)
Inductive host_path := PagemapFile | ModuleDevice | NvmeDevice | NamespaceDevice | BarResource.

(** An admin command as a controller gets it. *)
Record admin_seen := { as_opcode : Z; as_prp1 : Z; as_prp2 : Z; as_cdw10 : Z; as_cdw11 : Z }.

(** ** The process and what the kernel keeps for it

    The kernel's side: the module's state; the references on the open files
    of its device, the last of which releases the file; the mappings of those
    files by address, each with its VMA and file; and what controllers have
    been sent, latest first. *)
Record kernel_side := {
  ks_mod : xio_state; ks_files : gmap ptr Z; ks_vmas : gmap ptr (Z * ptr); ks_admin : list admin_seen
}.

(** [ho_mem]: the 64-bit word at an address.  [ho_bad]: something was given
    back that was not held.  [ho_vmem]: [vmemAllocations]. *)
Record host := {
  ho_held : gset host_res; ho_time : nat; ho_mem : Z -> Z; ho_bad : bool;
  ho_vmem : gmap ptr (Z * Z); ho_kernel : kernel_side
}.

Abbreviation HostM := (M host).

Definition set_held (f : gset host_res -> gset host_res) (s : host) : host :=
  {| ho_held := f (ho_held s); ho_time := ho_time s; ho_mem := ho_mem s; ho_bad := ho_bad s;
     ho_vmem := ho_vmem s; ho_kernel := ho_kernel s |}.
Definition tick (s : host) : host :=
  {| ho_held := ho_held s; ho_time := S (ho_time s); ho_mem := ho_mem s; ho_bad := ho_bad s;
     ho_vmem := ho_vmem s; ho_kernel := ho_kernel s |}.
Definition set_mem (f : (Z -> Z) -> Z -> Z) (s : host) : host :=
  {| ho_held := ho_held s; ho_time := ho_time s; ho_mem := f (ho_mem s); ho_bad := ho_bad s;
     ho_vmem := ho_vmem s; ho_kernel := ho_kernel s |}.
Definition set_bad (s : host) : host :=
  {| ho_held := ho_held s; ho_time := ho_time s; ho_mem := ho_mem s; ho_bad := true;
     ho_vmem := ho_vmem s; ho_kernel := ho_kernel s |}.
Definition set_vmem (f : gmap ptr (Z * Z) -> gmap ptr (Z * Z)) (s : host) : host :=
  {| ho_held := ho_held s; ho_time := ho_time s; ho_mem := ho_mem s; ho_bad := ho_bad s;
     ho_vmem := f (ho_vmem s); ho_kernel := ho_kernel s |}.
Definition set_kernel (f : kernel_side -> kernel_side) (s : host) : host :=
  {| ho_held := ho_held s; ho_time := ho_time s; ho_mem := ho_mem s; ho_bad := ho_bad s;
     ho_vmem := ho_vmem s; ho_kernel := f (ho_kernel s) |}.

Definition with_mod (m : xio_state) (k : kernel_side) : kernel_side :=
  {| ks_mod := m; ks_files := ks_files k; ks_vmas := ks_vmas k; ks_admin := ks_admin k |}.
Definition with_files (f : gmap ptr Z -> gmap ptr Z) (k : kernel_side) : kernel_side :=
  {| ks_mod := ks_mod k; ks_files := f (ks_files k); ks_vmas := ks_vmas k; ks_admin := ks_admin k |}.
Definition with_maps (f : gmap ptr (Z * ptr) -> gmap ptr (Z * ptr)) (k : kernel_side) : kernel_side :=
  {| ks_mod := ks_mod k; ks_files := ks_files k; ks_vmas := f (ks_vmas k); ks_admin := ks_admin k |}.
Definition with_admin (c : admin_seen) (k : kernel_side) : kernel_side :=
  {| ks_mod := ks_mod k; ks_files := ks_files k; ks_vmas := ks_vmas k; ks_admin := c :: ks_admin k |}.

(** ** The calls *)

(** A call's answer may depend on what is held and on when it is made. *)
Definition hview : Type := gset host_res * nat.
Definition view (s : host) : hview := (ho_held s, ho_time s).

(** HIP and HSA return a status, zero when they succeed. *)
Definition hipSuccess : Z := 0.
Definition hipErrorInvalidValue : Z := 1.
Definition hipErrorMemoryAllocation : Z := 2.
Definition HSA_STATUS_SUCCESS : Z := 0.
Definition HSA_STATUS_ERROR : Z := 4096.
Definition HSA_STATUS_ERROR_INVALID_ARGUMENT : Z := 4097.
Definition HSA_STATUS_ERROR_INVALID_REGION : Z := 4101.
Definition HSA_STATUS_ERROR_OUT_OF_RESOURCES : Z := 4104.

Class HostEnv := {
  (** sysconf(_SC_PAGESIZE) *)
  he_page_size : Z;
  (** the C library: NULL or no pointer when there is no memory *)
  he_malloc : hview -> Z -> ptr;
  he_posix_memalign : hview -> Z -> Z -> option ptr;
  he_mlock : hview -> ptr -> Z -> Z;
  he_mmap : hview -> Z -> Z -> option ptr;
  (** a descriptor, or the negated errno *)
  he_open : hview -> host_path -> Z;
  (** the [struct file] behind a new descriptor of the module's device *)
  he_file : hview -> ptr;
  (** /proc/self/pagemap: the word of a page, unless seeking or reading fails *)
  he_pagemap : hview -> Z -> option Z;
  (** HIP *)
  he_hipHostMalloc : hview -> Z -> bool -> Z * ptr;
  he_hipHostFree : hview -> ptr -> Z;
  he_hipMalloc : hview -> Z -> Z * ptr;
  he_hipExtMallocWithFlags : hview -> Z -> Z * ptr;
  he_hipHostRegister : hview -> ptr -> Z -> Z;
  he_hipHostUnregister : hview -> ptr -> Z;
  he_hipHostGetDevicePointer : hview -> ptr -> Z * ptr;
  he_hipPointerGetAttributes : hview -> ptr -> Z;
  he_hipMemset : hview -> ptr -> Z -> Z;
  he_hipMemGetAllocationGranularity : hview -> Z -> Z * Z;
  he_hipMemCreate : hview -> Z -> Z * Z;
  he_hipMemAddressReserve : hview -> Z -> Z * ptr;
  he_hipMemMap : hview -> ptr -> Z -> Z -> Z;
  he_hipMemSetAccess : hview -> ptr -> Z -> Z -> Z;
  (** HSA *)
  he_hsa_init : hview -> Z;
  he_hsa_agents : hview -> list hsa_agent;
  he_hsa_memory_allocate : hview -> Z -> Z -> Z * ptr;
  he_hsa_amd_memory_lock : hview -> ptr -> Z -> Z * ptr;
  he_hsa_export_dmabuf : hview -> ptr -> Z -> Z -> Z * Z * Z;
  (** NVME_IOCTL_ADMIN_CMD: the negated errno it is refused with before a
      command is made, if it is; what it returns otherwise (a negated errno,
      or the NVMe status) and the result word of the completion *)
  he_admin_refused : hview -> Z;
  he_admin_cmd : hview -> admin_seen -> Z * Z
}.

(** No memory that is held starts at [p]. *)
Definition fresh (held : gset host_res) (p : ptr) : Prop :=
  p <> NULL /\ forall k n, is_memory k = true -> (k, p, n) ∉ held.

(** The documented promises: an allocator returns memory that is not in use;
    [hipHostFree] takes exactly what [hipHostMalloc] gave,
    [hipHostUnregister] what is registered; memory is not registered twice;
    the GPU has a pointer to host memory only if it is HIP's or registered;
    what is not open or not in use is handed out. *)
Class HostEnvOk (E : HostEnv) := {
  he_malloc_fresh v n : he_malloc v n <> NULL -> fresh v.1 (he_malloc v n);
  he_memalign_fresh v a n p : he_posix_memalign v a n = Some p -> fresh v.1 p;
  he_mmap_fresh v fd n p : he_mmap v fd n = Some p -> fresh v.1 p;
  he_open_fresh v path : 0 <= he_open v path -> RFd (he_open v path) ∉ v.1;
  he_hostmalloc_fresh v n c p : he_hipHostMalloc v n c = (0, p) -> fresh v.1 p;
  he_hipmalloc_fresh v n p : he_hipMalloc v n = (0, p) -> fresh v.1 p;
  he_extmalloc_fresh v n p : he_hipExtMallocWithFlags v n = (0, p) -> fresh v.1 p;
  he_reserve_fresh v n p : he_hipMemAddressReserve v n = (0, p) -> fresh v.1 p;
  he_create_fresh v n h : he_hipMemCreate v n = (0, h) -> RVmHandle h ∉ v.1;
  he_map_fresh v p n h : he_hipMemMap v p n h = 0 -> RVmMap p n ∉ v.1;
  he_hsamem_fresh v r n p : he_hsa_memory_allocate v r n = (0, p) -> fresh v.1 p;
  he_hostfree_iff v p : he_hipHostFree v p = 0 <-> RHostPinned p ∈ v.1;
  he_unregister_iff v p : he_hipHostUnregister v p = 0 <-> RRegistered p ∈ v.1;
  he_register_once v p n : he_hipHostRegister v p n = 0 -> RRegistered p ∉ v.1;
  he_lock_once v p n q : he_hsa_amd_memory_lock v p n = (0, q) -> ~ (RLocked p) ∈ v.1 /\ q <> NULL;
  he_mlock_errno v p n : he_mlock v p n <= 0;
  he_mlock_once v p n : he_mlock v p n = 0 -> RMlocked p n ∉ v.1;
  he_device_pointer v p q : he_hipHostGetDevicePointer v p = (0, q) ->
    q <> NULL /\ (RHostPinned p ∈ v.1 \/ RRegistered p ∈ v.1);
  he_dmabuf_fresh v p n fl fd off : he_hsa_export_dmabuf v p n fl = (0, fd, off) ->
    0 <= fd /\ RDmabuf fd ∉ v.1
}.

(** Ask the environment: every call takes its turn. *)
Definition consult {A} (f : hview -> A) : HostM A :=
  let* a := gets (fun s => f (view s)) in modify tick ;;; ret a.

Definition acquire (r : host_res) : HostM unit := modify (set_held (fun x => {[ r ]} ∪ x)).
Definition give_back (r : host_res) : HostM unit :=
  let* x := gets ho_held in
  if bool_decide (r ∈ x) then modify (set_held (fun x => x ∖ {[ r ]})) else modify set_bad.

(** A step of the kernel module, for an ioctl of this process. *)
Definition in_module {A} (m : X A) : HostM A :=
  let* k := gets ho_kernel in
  let '(a, m') := m (ks_mod k) in modify (set_kernel (with_mod m')) ;;; ret a.

Section Calls.
Context {E : HostEnv}.

Definition malloc (n : Z) : HostM ptr :=
  let* p := consult (fun v => he_malloc v n) in
  (if is_null p then ret tt else acquire (RMalloc p)) ;;; ret p.
Definition free (p : ptr) : HostM unit := give_back (RMalloc p).
Definition posix_memalign (a n : Z) : HostM (option ptr) :=
  let* p := consult (fun v => he_posix_memalign v a n) in
  match p with Some p => acquire (RMalloc p) ;;; ret (Some p) | None => ret None end.

(** [memset] with zeros and [memcpy] of whole words. *)
Definition memset0 (p : ptr) (n : Z) : HostM unit :=
  modify (set_mem (fun m a => if (p <=? a) && (a <? p + n) then 0 else m a)).
Definition memcpy (dst src n : Z) : HostM unit :=
  modify (set_mem (fun m a => if (dst <=? a) && (a <? dst + n) then m (src + (a - dst)) else m a)).
Definition store (p v : Z) : HostM unit := modify (set_mem (fun m a => if a =? p then v else m a)).

Definition hipHostMalloc (n : Z) (coherent : bool) : HostM (Z * ptr) :=
  let* '(rc, p) := consult (fun v => he_hipHostMalloc v n coherent) in
  (if rc =? 0 then acquire (RHostPinned p) else ret tt) ;;; ret (rc, p).
Definition hipHostFree (p : ptr) : HostM Z :=
  let* rc := consult (fun v => he_hipHostFree v p) in
  (if rc =? 0 then give_back (RHostPinned p) else ret tt) ;;; ret rc.
Definition hipMalloc (n : Z) : HostM (Z * ptr) :=
  let* '(rc, p) := consult (fun v => he_hipMalloc v n) in
  (if rc =? 0 then acquire (RDevice p) else ret tt) ;;; ret (rc, p).
Definition hipExtMallocWithFlags (n : Z) : HostM (Z * ptr) :=
  let* '(rc, p) := consult (fun v => he_hipExtMallocWithFlags v n) in
  (if rc =? 0 then acquire (RDevice p) else ret tt) ;;; ret (rc, p).
Definition hipFree (p : ptr) : HostM unit := give_back (RDevice p).
Definition hipHostRegister (p n : Z) : HostM Z :=
  let* rc := consult (fun v => he_hipHostRegister v p n) in
  (if rc =? 0 then acquire (RRegistered p) else ret tt) ;;; ret rc.
Definition hipHostUnregister (p : ptr) : HostM Z :=
  let* rc := consult (fun v => he_hipHostUnregister v p) in
  (if rc =? 0 then give_back (RRegistered p) else ret tt) ;;; ret rc.
Definition hipHostGetDevicePointer (p : ptr) : HostM (Z * ptr) :=
  consult (fun v => he_hipHostGetDevicePointer v p).
Definition hipMemCreate (n : Z) : HostM (Z * Z) :=
  let* '(rc, h) := consult (fun v => he_hipMemCreate v n) in
  (if rc =? 0 then acquire (RVmHandle h) else ret tt) ;;; ret (rc, h).
Definition hipMemAddressReserve (n : Z) : HostM (Z * ptr) :=
  let* '(rc, p) := consult (fun v => he_hipMemAddressReserve v n) in
  (if rc =? 0 then acquire (RVmRange p n) else ret tt) ;;; ret (rc, p).
Definition hipMemMap (p n h : Z) : HostM Z :=
  let* rc := consult (fun v => he_hipMemMap v p n h) in
  (if rc =? 0 then acquire (RVmMap p n) else ret tt) ;;; ret rc.
Definition hipMemUnmap (p n : Z) : HostM unit := give_back (RVmMap p n).
Definition hipMemAddressFree (p n : Z) : HostM unit := give_back (RVmRange p n).
Definition hipMemRelease (h : Z) : HostM unit := give_back (RVmHandle h).
Definition hsa_memory_allocate (region n : Z) : HostM (Z * ptr) :=
  let* '(rc, p) := consult (fun v => he_hsa_memory_allocate v region n) in
  (if rc =? 0 then acquire (RHsaMem p) else ret tt) ;;; ret (rc, p).
Definition hsa_memory_free (p : ptr) : HostM unit := give_back (RHsaMem p).

Definition open (path : host_path) : HostM Z :=
  let* fd := consult (fun v => he_open v path) in
  (if 0 <=? fd then acquire (RFd fd) else ret tt) ;;; ret fd.
Definition close (fd : Z) : HostM unit := give_back (RFd fd).
Definition mlock (p n : Z) : HostM Z :=
  let* rc := consult (fun v => he_mlock v p n) in
  (if rc =? 0 then acquire (RMlocked p n) else ret tt) ;;; ret rc.
Definition munlock (p n : Z) : HostM unit := give_back (RMlocked p n).
Definition mmap (fd n : Z) : HostM (option ptr) :=
  let* p := consult (fun v => he_mmap v fd n) in
  match p with Some p => acquire (RMapping p n) ;;; ret (Some p) | None => ret None end.
Definition munmap (p n : Z) : HostM unit := give_back (RMapping p n).
Definition hsa_amd_memory_lock (p n : Z) : HostM (Z * ptr) :=
  let* '(rc, q) := consult (fun v => he_hsa_amd_memory_lock v p n) in
  (if rc =? 0 then acquire (RLocked p) else ret tt) ;;; ret (rc, q).
Definition hsa_amd_memory_unlock (p : ptr) : HostM unit := give_back (RLocked p).
End Calls.

(** ** What a call leaves behind *)

(** From [s] to [s'], the process holds [S], [vmemAllocations] is [V], and
    nothing was given back in vain; the module has not been called. *)
Record after (s s' : host) (S : gset host_res) (V : gmap ptr (Z * Z)) : Prop := {
  af_held : ho_held s' = S; af_vmem : ho_vmem s' = V;
  af_bad : ho_bad s' = ho_bad s; af_kernel : ho_kernel s' = ho_kernel s
}.

(** The same, with the kernel's side now [K]. *)
Record became (s s' : host) (S : gset host_res) (V : gmap ptr (Z * Z)) (K : kernel_side) : Prop := {
  bc_held : ho_held s' = S; bc_vmem : ho_vmem s' = V; bc_bad : ho_bad s' = ho_bad s; bc_kernel : ho_kernel s' = K
}.

(** The memory that zeroing [n] bytes at [p] leaves. *)
Definition zeroed (p : ptr) (n : Z) (m : Z -> Z) : Z -> Z :=
  fun a => if (p <=? a) && (a <? p + n) then 0 else m a.

Lemma after_refl s : after s s (ho_held s) (ho_vmem s).
Proof. by split. Qed.

Lemma after_trans s s1 s2 S V S' V' : after s s1 S V -> after s1 s2 S' V' -> after s s2 S' V'.
Proof. intros [] []. split; congruence. Qed.

Lemma became_refl s : became s s (ho_held s) (ho_vmem s) (ho_kernel s).
Proof. by split. Qed.

Lemma became_after s s1 s2 S V K S' V' : became s s1 S V K -> after s1 s2 S' V' -> became s s2 S' V' K.
Proof. intros [] []. split; congruence. Qed.

Lemma after_became s s1 s2 S V S' V' K : after s s1 S V -> became s1 s2 S' V' K -> became s s2 S' V' K.
Proof. intros [] []. split; congruence. Qed.

Lemma became_trans s s1 s2 S V K S' V' K' : became s s1 S V K -> became s1 s2 S' V' K' -> became s s2 S' V' K'.
Proof. intros [] []. split; congruence. Qed.

Lemma became_eq s s' S S' V K : became s s' S V K -> S = S' -> became s s' S' V K.
Proof. by intros ? <-. Qed.

(** A step of the module changes nothing of the process. *)
Lemma wp_in_module {A} (m : X A) (P : A -> xio_state -> Prop) (Q : A -> host -> Prop) s :
  wp m P (ks_mod (ho_kernel s)) ->
  (forall a m' s', P a m' -> became s s' (ho_held s) (ho_vmem s) (with_mod m' (ho_kernel s)) ->
     ho_mem s' = ho_mem s -> Q a s') ->
  wp (in_module m) Q s.
Proof.
  intros Hm HQ. unfold in_module. apply wp_bind, wp_gets. unfold wp in *.
  destruct (m (ks_mod (ho_kernel s))) as [a m']. by apply (HQ a m').
Qed.

Lemma wp_set_kernel f (Q : unit -> host -> Prop) s :
  (forall s', became s s' (ho_held s) (ho_vmem s) (f (ho_kernel s)) -> ho_mem s' = ho_mem s -> Q tt s') ->
  wp (modify (set_kernel f)) Q s.
Proof. intros HQ. by apply HQ. Qed.

Lemma wp_consult {A} (f : hview -> A) (Q : A -> host -> Prop) s :
  (forall s', after s s' (ho_held s) (ho_vmem s) -> ho_mem s' = ho_mem s -> Q (f (view s)) s') ->
  wp (consult f) Q s.
Proof. intros HQ. by apply HQ. Qed.

Lemma wp_acquire r (Q : unit -> host -> Prop) s :
  (forall s', after s s' ({[ r ]} ∪ ho_held s) (ho_vmem s) -> ho_mem s' = ho_mem s -> Q tt s') ->
  wp (acquire r) Q s.
Proof. intros HQ. by apply HQ. Qed.

Lemma wp_give_back r (Q : unit -> host -> Prop) s :
  r ∈ ho_held s ->
  (forall s', after s s' (ho_held s ∖ {[ r ]}) (ho_vmem s) -> ho_mem s' = ho_mem s -> Q tt s') ->
  wp (give_back r) Q s.
Proof.
  intros Hr HQ. unfold give_back. apply wp_bind, wp_gets. rewrite bool_decide_eq_true_2 by done. by apply HQ.
Qed.

Lemma wp_memset0 p n (Q : unit -> host -> Prop) s :
  (forall s', after s s' (ho_held s) (ho_vmem s) -> ho_mem s' = zeroed p n (ho_mem s) -> Q tt s') ->
  wp (memset0 p n) Q s.
Proof. intros HQ. by apply HQ. Qed.

Lemma wp_memcpy dst src n (Q : unit -> host -> Prop) s :
  (forall s', after s s' (ho_held s) (ho_vmem s) ->
     ho_mem s' = (fun a => if (dst <=? a) && (a <? dst + n) then ho_mem s (src + (a - dst)) else ho_mem s a) ->
     Q tt s') ->
  wp (memcpy dst src n) Q s.
Proof. intros HQ. by apply HQ. Qed.

Lemma wp_set_vmem f (Q : unit -> host -> Prop) s :
  (forall s', after s s' (ho_held s) (f (ho_vmem s)) -> ho_mem s' = ho_mem s -> Q tt s') ->
  wp (modify (set_vmem f)) Q s.
Proof. intros HQ. by apply HQ. Qed.

Section Rules.
Context {E : HostEnv} {EO : HostEnvOk E}.

(** An allocator that returns a status and a pointer. *)
Lemma wp_status_alloc (f : hview -> Z * ptr) (k : ptr -> host_res) (Q : Z * ptr -> host -> Prop) s :
  (forall p s', f (view s) = (0, p) -> after s s' ({[ k p ]} ∪ ho_held s) (ho_vmem s) ->
     ho_mem s' = ho_mem s -> Q (0, p) s') ->
  (forall rc p s', rc <> 0 -> after s s' (ho_held s) (ho_vmem s) -> ho_mem s' = ho_mem s -> Q (rc, p) s') ->
  wp (let* '(rc, p) := consult f in (if rc =? 0 then acquire (k p) else ret tt) ;;; ret (rc, p)) Q s.
Proof.
  intros H1 H2. apply wp_bind, wp_consult. intros s1 A1 M1. destruct (f (view s)) as [rc p] eqn:Ef.
  pose proof (af_held _ _ _ _ A1) as E1. pose proof (af_vmem _ _ _ _ A1) as V1.
  destruct (Z.eqb_spec rc 0) as [->|Hrc]; apply wp_bind.
  - apply wp_acquire. intros s2 A2 M2. apply wp_ret. rewrite E1, V1 in A2.
    apply H1; [done|by eapply after_trans|congruence].
  - apply wp_ret, wp_ret. by apply H2.
Qed.

(** A call that gives something back when its status is zero. *)
Lemma wp_status_free (f : hview -> Z) (r : host_res) (Q : Z -> host -> Prop) s :
  (f (view s) = 0 <-> r ∈ ho_held s) ->
  (forall s', r ∈ ho_held s -> after s s' (ho_held s ∖ {[ r ]}) (ho_vmem s) -> ho_mem s' = ho_mem s -> Q 0 s') ->
  (forall rc s', rc <> 0 -> r ∉ ho_held s -> after s s' (ho_held s) (ho_vmem s) -> ho_mem s' = ho_mem s -> Q rc s') ->
  wp (let* rc := consult f in (if rc =? 0 then give_back r else ret tt) ;;; ret rc) Q s.
Proof.
  intros Hf H1 H2. apply wp_bind, wp_consult. intros s1 A1 M1.
  pose proof (af_held _ _ _ _ A1) as E1. pose proof (af_vmem _ _ _ _ A1) as V1.
  destruct (Z.eqb_spec (f (view s)) 0) as [E0|Hrc]; apply wp_bind.
  - apply wp_give_back; [rewrite E1; by apply Hf|]. intros s2 A2 M2. apply wp_ret. rewrite E1, V1 in A2.
    rewrite E0. apply H1; [by apply Hf|by eapply after_trans|congruence].
  - apply wp_ret, wp_ret. apply H2; [done|by rewrite <- Hf|done|done].
Qed.

Lemma wp_malloc n (Q : ptr -> host -> Prop) s :
  (forall p s', fresh (ho_held s) p -> after s s' ({[ RMalloc p ]} ∪ ho_held s) (ho_vmem s) ->
     ho_mem s' = ho_mem s -> Q p s') ->
  (forall s', after s s' (ho_held s) (ho_vmem s) -> ho_mem s' = ho_mem s -> Q NULL s') ->
  wp (malloc n) Q s.
Proof.
  intros H1 H2. unfold malloc. apply wp_bind, wp_consult. intros s1 A1 M1.
  pose proof (af_held _ _ _ _ A1) as E1. pose proof (af_vmem _ _ _ _ A1) as V1.
  destruct (Z.eqb_spec (he_malloc (view s) n) NULL) as [->|Hp]; apply wp_bind.
  - apply wp_ret, wp_ret. by apply H2.
  - apply wp_acquire. intros s2 A2 M2. apply wp_ret. rewrite E1, V1 in A2.
    apply H1; [by apply (he_malloc_fresh (view s))|by eapply after_trans|congruence].
Qed.

Lemma wp_posix_memalign a n (Q : option ptr -> host -> Prop) s :
  (forall p s', fresh (ho_held s) p -> after s s' ({[ RMalloc p ]} ∪ ho_held s) (ho_vmem s) ->
     ho_mem s' = ho_mem s -> Q (Some p) s') ->
  (forall s', after s s' (ho_held s) (ho_vmem s) -> ho_mem s' = ho_mem s -> Q None s') ->
  wp (posix_memalign a n) Q s.
Proof.
  intros H1 H2. unfold posix_memalign. apply wp_bind, wp_consult. intros s1 A1 M1.
  pose proof (af_held _ _ _ _ A1) as E1. pose proof (af_vmem _ _ _ _ A1) as V1.
  destruct (he_posix_memalign (view s) a n) as [p|] eqn:Ep.
  - apply wp_bind, wp_acquire. intros s2 A2 M2. apply wp_ret. rewrite E1, V1 in A2.
    apply H1; [by apply (he_memalign_fresh (view s) a n)|by eapply after_trans|congruence].
  - apply wp_ret. by apply H2.
Qed.

Lemma wp_hipHostMalloc n c (Q : Z * ptr -> host -> Prop) s :
  (forall p s', fresh (ho_held s) p -> after s s' ({[ RHostPinned p ]} ∪ ho_held s) (ho_vmem s) ->
     ho_mem s' = ho_mem s -> Q (0, p) s') ->
  (forall rc p s', rc <> 0 -> after s s' (ho_held s) (ho_vmem s) -> ho_mem s' = ho_mem s -> Q (rc, p) s') ->
  wp (hipHostMalloc n c) Q s.
Proof.
  intros H1 H2. apply (wp_status_alloc _ (fun p => RHostPinned p)); [|done]. intros p s' Ef. apply H1.
  by apply (he_hostmalloc_fresh (view s) n c).
Qed.

Lemma wp_hipMalloc n (Q : Z * ptr -> host -> Prop) s :
  (forall p s', fresh (ho_held s) p -> after s s' ({[ RDevice p ]} ∪ ho_held s) (ho_vmem s) ->
     ho_mem s' = ho_mem s -> Q (0, p) s') ->
  (forall rc p s', rc <> 0 -> after s s' (ho_held s) (ho_vmem s) -> ho_mem s' = ho_mem s -> Q (rc, p) s') ->
  wp (hipMalloc n) Q s.
Proof.
  intros H1 H2. apply (wp_status_alloc _ (fun p => RDevice p)); [|done]. intros p s' Ef. apply H1.
  by apply (he_hipmalloc_fresh (view s) n).
Qed.

Lemma wp_hipExtMalloc n (Q : Z * ptr -> host -> Prop) s :
  (forall p s', fresh (ho_held s) p -> after s s' ({[ RDevice p ]} ∪ ho_held s) (ho_vmem s) ->
     ho_mem s' = ho_mem s -> Q (0, p) s') ->
  (forall rc p s', rc <> 0 -> after s s' (ho_held s) (ho_vmem s) -> ho_mem s' = ho_mem s -> Q (rc, p) s') ->
  wp (hipExtMallocWithFlags n) Q s.
Proof.
  intros H1 H2. apply (wp_status_alloc _ (fun p => RDevice p)); [|done]. intros p s' Ef. apply H1.
  by apply (he_extmalloc_fresh (view s) n).
Qed.

Lemma wp_hipHostFree p (Q : Z -> host -> Prop) s :
  (forall s', RHostPinned p ∈ ho_held s -> after s s' (ho_held s ∖ {[ RHostPinned p ]}) (ho_vmem s) ->
     ho_mem s' = ho_mem s -> Q 0 s') ->
  (forall rc s', rc <> 0 -> RHostPinned p ∉ ho_held s -> after s s' (ho_held s) (ho_vmem s) ->
     ho_mem s' = ho_mem s -> Q rc s') ->
  wp (hipHostFree p) Q s.
Proof. intros H1 H2. by apply wp_status_free; [apply (he_hostfree_iff (view s))|..]. Qed.

Lemma wp_hipHostUnregister p (Q : Z -> host -> Prop) s :
  (forall s', RRegistered p ∈ ho_held s -> after s s' (ho_held s ∖ {[ RRegistered p ]}) (ho_vmem s) ->
     ho_mem s' = ho_mem s -> Q 0 s') ->
  (forall rc s', rc <> 0 -> RRegistered p ∉ ho_held s -> after s s' (ho_held s) (ho_vmem s) ->
     ho_mem s' = ho_mem s -> Q rc s') ->
  wp (hipHostUnregister p) Q s.
Proof. intros H1 H2. by apply wp_status_free; [apply (he_unregister_iff (view s))|..]. Qed.

(** A call that acquires something when its status is zero. *)
Lemma wp_status_get (f : hview -> Z) (r : host_res) (Q : Z -> host -> Prop) s :
  (f (view s) = 0 -> r ∉ ho_held s) ->
  (forall s', r ∉ ho_held s -> after s s' ({[ r ]} ∪ ho_held s) (ho_vmem s) -> ho_mem s' = ho_mem s -> Q 0 s') ->
  (forall rc s', rc <> 0 -> after s s' (ho_held s) (ho_vmem s) -> ho_mem s' = ho_mem s -> Q rc s') ->
  wp (let* rc := consult f in (if rc =? 0 then acquire r else ret tt) ;;; ret rc) Q s.
Proof.
  intros Hf H1 H2. apply wp_bind, wp_consult. intros s1 A1 M1.
  pose proof (af_held _ _ _ _ A1) as E1. pose proof (af_vmem _ _ _ _ A1) as V1.
  destruct (Z.eqb_spec (f (view s)) 0) as [E0|Hrc]; apply wp_bind.
  - apply wp_acquire. intros s2 A2 M2. apply wp_ret. rewrite E1, V1 in A2. rewrite E0.
    apply H1; [by apply Hf|by eapply after_trans|congruence].
  - apply wp_ret, wp_ret. by apply H2.
Qed.

Lemma wp_hipHostRegister p n (Q : Z -> host -> Prop) s :
  (forall s', RRegistered p ∉ ho_held s -> after s s' ({[ RRegistered p ]} ∪ ho_held s) (ho_vmem s) ->
     ho_mem s' = ho_mem s -> Q 0 s') ->
  (forall rc s', rc <> 0 -> after s s' (ho_held s) (ho_vmem s) -> ho_mem s' = ho_mem s -> Q rc s') ->
  wp (hipHostRegister p n) Q s.
Proof. intros H1 H2. by apply wp_status_get; [apply (he_register_once (view s))|..]. Qed.

Lemma wp_hipMemCreate n (Q : Z * Z -> host -> Prop) s :
  (forall h s', RVmHandle h ∉ ho_held s -> after s s' ({[ RVmHandle h ]} ∪ ho_held s) (ho_vmem s) ->
     ho_mem s' = ho_mem s -> Q (0, h) s') ->
  (forall rc h s', rc <> 0 -> after s s' (ho_held s) (ho_vmem s) -> ho_mem s' = ho_mem s -> Q (rc, h) s') ->
  wp (hipMemCreate n) Q s.
Proof.
  intros H1 H2. apply (wp_status_alloc _ (fun p => RVmHandle p)); [|done]. intros p s' Ef. apply H1.
  by apply (he_create_fresh (view s) n).
Qed.

Lemma wp_hipMemAddressReserve n (Q : Z * ptr -> host -> Prop) s :
  (forall p s', fresh (ho_held s) p -> after s s' ({[ RVmRange p n ]} ∪ ho_held s) (ho_vmem s) ->
     ho_mem s' = ho_mem s -> Q (0, p) s') ->
  (forall rc p s', rc <> 0 -> after s s' (ho_held s) (ho_vmem s) -> ho_mem s' = ho_mem s -> Q (rc, p) s') ->
  wp (hipMemAddressReserve n) Q s.
Proof.
  intros H1 H2. apply (wp_status_alloc _ (fun p => RVmRange p n)); [|done]. intros p s' Ef. apply H1.
  by apply (he_reserve_fresh (view s) n).
Qed.

Lemma wp_hipMemMap p n h (Q : Z -> host -> Prop) s :
  (forall s', RVmMap p n ∉ ho_held s -> after s s' ({[ RVmMap p n ]} ∪ ho_held s) (ho_vmem s) ->
     ho_mem s' = ho_mem s -> Q 0 s') ->
  (forall rc s', rc <> 0 -> after s s' (ho_held s) (ho_vmem s) -> ho_mem s' = ho_mem s -> Q rc s') ->
  wp (hipMemMap p n h) Q s.
Proof. intros H1 H2. by apply wp_status_get; [apply (he_map_fresh (view s))|..]. Qed.

Lemma wp_hsa_memory_allocate r n (Q : Z * ptr -> host -> Prop) s :
  (forall p s', fresh (ho_held s) p -> after s s' ({[ RHsaMem p ]} ∪ ho_held s) (ho_vmem s) ->
     ho_mem s' = ho_mem s -> Q (0, p) s') ->
  (forall rc p s', rc <> 0 -> after s s' (ho_held s) (ho_vmem s) -> ho_mem s' = ho_mem s -> Q (rc, p) s') ->
  wp (hsa_memory_allocate r n) Q s.
Proof.
  intros H1 H2. apply (wp_status_alloc _ (fun p => RHsaMem p)); [|done]. intros p s' Ef. apply H1.
  by apply (he_hsamem_fresh (view s) r n).
Qed.

Lemma wp_open path (Q : Z -> host -> Prop) s :
  (forall fd s', 0 <= fd -> (RFd fd) ∉ ho_held s -> after s s' ({[ RFd fd ]} ∪ ho_held s) (ho_vmem s) ->
     ho_mem s' = ho_mem s -> Q fd s') ->
  (forall e s', e < 0 -> after s s' (ho_held s) (ho_vmem s) -> ho_mem s' = ho_mem s -> Q e s') ->
  wp (open path) Q s.
Proof.
  intros H1 H2. unfold open. apply wp_bind, wp_consult. intros s1 A1 M1.
  pose proof (af_held _ _ _ _ A1) as E1. pose proof (af_vmem _ _ _ _ A1) as V1.
  destruct (Z.leb_spec 0 (he_open (view s) path)); apply wp_bind.
  - apply wp_acquire. intros s2 A2 M2. apply wp_ret. rewrite E1, V1 in A2.
    apply H1; [done|by apply (he_open_fresh (view s))|by eapply after_trans|congruence].
  - apply wp_ret, wp_ret. by apply H2.
Qed.

Lemma wp_mlock p n (Q : Z -> host -> Prop) s :
  (forall s', (RMlocked p n) ∉ ho_held s -> after s s' ({[ RMlocked p n ]} ∪ ho_held s) (ho_vmem s) ->
     ho_mem s' = ho_mem s -> Q 0 s') ->
  (forall rc s', rc < 0 -> after s s' (ho_held s) (ho_vmem s) -> ho_mem s' = ho_mem s -> Q rc s') ->
  wp (mlock p n) Q s.
Proof.
  intros H1 H2. pose proof (he_mlock_errno (view s) p n) as He. unfold mlock. apply wp_bind, wp_consult. intros s1 A1 M1.
  pose proof (af_held _ _ _ _ A1) as E1. pose proof (af_vmem _ _ _ _ A1) as V1.
  destruct (Z.eqb_spec (he_mlock (view s) p n) 0) as [E0|Hrc]; apply wp_bind.
  - apply wp_acquire. intros s2 A2 M2. apply wp_ret. rewrite E1, V1 in A2. rewrite E0.
    apply H1; [by apply (he_mlock_once (view s))|by eapply after_trans|congruence].
  - apply wp_ret, wp_ret. apply H2; [lia|done|done].
Qed.

Lemma wp_mmap fd n (Q : option ptr -> host -> Prop) s :
  (forall p s', fresh (ho_held s) p -> after s s' ({[ RMapping p n ]} ∪ ho_held s) (ho_vmem s) ->
     ho_mem s' = ho_mem s -> Q (Some p) s') ->
  (forall s', after s s' (ho_held s) (ho_vmem s) -> ho_mem s' = ho_mem s -> Q None s') ->
  wp (mmap fd n) Q s.
Proof.
  intros H1 H2. unfold mmap. apply wp_bind, wp_consult. intros s1 A1 M1.
  pose proof (af_held _ _ _ _ A1) as E1. pose proof (af_vmem _ _ _ _ A1) as V1.
  destruct (he_mmap (view s) fd n) as [p|] eqn:Ep.
  - apply wp_bind, wp_acquire. intros s2 A2 M2. apply wp_ret. rewrite E1, V1 in A2.
    apply H1; [by apply (he_mmap_fresh (view s) fd n)|by eapply after_trans|congruence].
  - apply wp_ret. by apply H2.
Qed.

Lemma wp_hsa_amd_memory_lock p n (Q : Z * ptr -> host -> Prop) s :
  (forall q s', q <> NULL -> (RLocked p) ∉ ho_held s -> after s s' ({[ RLocked p ]} ∪ ho_held s) (ho_vmem s) ->
     ho_mem s' = ho_mem s -> Q (0, q) s') ->
  (forall rc q s', rc <> 0 -> after s s' (ho_held s) (ho_vmem s) -> ho_mem s' = ho_mem s -> Q (rc, q) s') ->
  wp (hsa_amd_memory_lock p n) Q s.
Proof.
  intros H1 H2. apply (wp_status_alloc _ (fun _ => RLocked p)); [|done]. intros q s' Ef.
  destruct (he_lock_once (view s) p n q Ef). by apply H1.
Qed.
End Rules.
