(* ===== verification/HostDemo.v ===== *)
(** * A concrete host

    An instance of [HostEnv] that keeps its promises, to evaluate the library
    on: a bump allocator above everything that is held, HIP and HSA calls
    that succeed when their argument allows it, and two switches, whether HIP
    has memory and whether the NVMe controller accepts a command. *)

From S2P Require Import Prelude Uapi Kernel State HostEnv.

(** The first page above everything that is held. *)
Definition top_page (held : gset host_res) : Z :=
  (fold_right Z.max 0 (map (fun r => r.1.2) (elements held)) / 4096 + 1) * 4096.

Lemma fold_max_bound (l : list host_res) r :
  r ∈ l -> r.1.2 <= fold_right Z.max 0 (map (fun r => r.1.2) l).
Proof.
  induction l as [|x l IH]; [by intros ?%not_elem_of_nil|]. intros [->|Hin]%elem_of_cons; [apply Z.le_max_l|].
  etrans; [by apply IH|]. apply Z.le_max_r.
Qed.

Lemma next_page_above n m : n <= m -> n < (m / 4096 + 1) * 4096.
Proof.
  intros Hn. pose proof (Z.mod_pos_bound m 4096 eq_refl). pose proof (Z.div_mod m 4096 ltac:(done)).
  lia.
Qed.

Lemma top_page_above held k p n : ((k, p, n) : host_res) ∈ held -> p < top_page held.
Proof.
  intros Hin. apply next_page_above. apply (fold_max_bound _ (k, p, n)). by apply elem_of_elements.
Qed.

Lemma fold_max_positive (l : list Z) : 0 <= fold_right Z.max 0 l.
Proof. induction l as [|x l IH]; [done|]. etrans; [exact IH|apply Z.le_max_r]. Qed.

Lemma top_page_positive held : 0 < top_page held.
Proof. apply next_page_above, fold_max_positive. Qed.

Lemma top_page_fresh held : fresh held (top_page held).
Proof.
  pose proof (top_page_positive held). split; [unfold NULL; lia|].
  intros k n _ Hin. apply top_page_above in Hin. lia.
Qed.

Lemma top_page_unused held k n : ((k, top_page held, n) : host_res) ∉ held.
Proof. intros Hin%top_page_above. lia. Qed.

(** One GPU, with a region of either kind. *)
Definition demo_agents : list hsa_agent :=
  [{| ag_handle := 1; ag_is_gpu := Some false; ag_regions := [] |};
   {| ag_handle := 2; ag_is_gpu := Some true; ag_regions :=
        [{| rg_handle := 7; rg_global := Some true; rg_alloc_allowed := Some true;
            rg_fine_coarse := Some (true, false) |};
         {| rg_handle := 8; rg_global := Some true; rg_alloc_allowed := Some true;
            rg_fine_coarse := Some (false, true) |}] |}].

Definition demo_pagemap (frame : Z -> Z) (vpn : Z) : option Z :=
  Some (if frame vpn =? 0 then 0 else Z.lor (Z.shiftl 1 63) (frame vpn)).

(** [hip_memory]: whether [hipHostMalloc] finds memory; [accepts]: whether the
    controller takes an admin command; [frame]: the physical page number
    behind a virtual one, zero if the kernel does not tell. *)
Definition demo_host (hip_memory : bool) (accepts : admin_seen -> bool) (frame : Z -> Z) : HostEnv := {|
  he_page_size := 4096;
  he_malloc v _ := top_page v.1;
  he_posix_memalign v _ _ := Some (top_page v.1);
  he_mlock v p n := if bool_decide (RMlocked p n ∈ v.1) then -1 else 0;
  he_mmap v _ _ := Some (top_page v.1);
  he_open v _ := top_page v.1;
  he_file v := top_page v.1;
  he_pagemap _ vpn := demo_pagemap frame vpn;
  he_hipHostMalloc v _ _ := if hip_memory then (0, top_page v.1) else (2, NULL);
  he_hipHostFree v p := if bool_decide (RHostPinned p ∈ v.1) then 0 else 1;
  he_hipMalloc v _ := (0, top_page v.1);
  he_hipExtMallocWithFlags v _ := (0, top_page v.1);
  he_hipHostRegister v p _ := if (p =? NULL) || bool_decide (RRegistered p ∈ v.1) then 712 else 0;
  he_hipHostUnregister v p := if bool_decide (RRegistered p ∈ v.1) then 0 else 713;
  he_hipHostGetDevicePointer v p :=
    if negb (p =? NULL) && (bool_decide (RHostPinned p ∈ v.1) || bool_decide (RRegistered p ∈ v.1))
    then (0, p) else (1, NULL);
  he_hipPointerGetAttributes v p := if bool_decide (RDevice p ∈ v.1) then 0 else 1;
  he_hipMemset _ _ _ := 0;
  he_hipMemGetAllocationGranularity _ _ := (0, 4096);
  he_hipMemCreate v _ := (0, top_page v.1);
  he_hipMemAddressReserve v _ := (0, top_page v.1);
  he_hipMemMap v p n _ := if bool_decide (RVmMap p n ∈ v.1) then 1 else 0;
  he_hipMemSetAccess _ _ _ _ := 0;
  he_hsa_init _ := 0;
  he_hsa_agents _ := demo_agents;
  he_hsa_memory_allocate v _ _ := (0, top_page v.1);
  he_hsa_amd_memory_lock v p _ :=
    if (p =? NULL) || bool_decide (RLocked p ∈ v.1) then (1, NULL) else (0, p);
  he_hsa_export_dmabuf v _ _ _ := (0, top_page v.1, 0);
  he_admin_refused _ := 0;
  he_admin_cmd v c := if accepts c then (0, 0) else (257, 0)
|}.

Lemma demo_host_ok b a f : HostEnvOk (demo_host b a f).
Proof.
  split; cbn; intros; simplify_eq/=;
    repeat case_bool_decide; try case_match; cbn in *; bool_to_prop; simplify_eq/=;
    first [done | apply top_page_unused | apply top_page_fresh | tauto | idtac].
  split; [apply Z.lt_le_incl, top_page_positive|apply top_page_unused].
Qed.

(** A process that holds nothing, with the module freshly loaded. *)
Definition idle_host (m : xio_state) : host :=
  {| ho_held := ∅; ho_time := 0; ho_mem := fun _ => 0; ho_bad := false; ho_vmem := ∅;
     ho_kernel := {| ks_mod := m; ks_files := ∅; ks_vmas := ∅; ks_admin := [] |} |}.
