(* ===== verification/HostMem.v ===== *)
(** * Memory of the host and of the GPU

    [allocDeviceMemory] and [allocHostMemory] of
    [src/src/common/xio-common.hip] with every kind of memory their flags ask
    for, what frees it, and the pairs, queues and data buffers made of it.

    The theorem: whatever is allocated is given back whole, on every path and
    by every kind of allocator. *)

From S2P Require Import Prelude Uapi Kernel State Demo HostEnv HostDemo.

(** ** Flags ([xio.h]) *)

Definition XIO_MEM_MODE_SQ_DEVICE : Z := 1.
Definition XIO_MEM_MODE_CQ_DEVICE : Z := 2.
Definition XIO_MEM_MODE_DATA_DEVICE : Z := 8.
Definition XIO_DEVICE_MEM_FINE_GRAINED : Z := 0.
Definition XIO_DEVICE_MEM_COARSE_GRAINED : Z := 1.
Definition XIO_DEVICE_MEM_UNCACHED : Z := 2.
Definition XIO_DEVICE_MEM_VMEM : Z := 4.
Definition XIO_DEVICE_MEM_HIP : Z := 8.
Definition XIO_HOST_MEM_MAPPED : Z := 0.
Definition XIO_HOST_MEM_COHERENT : Z := 1.
Definition XIO_HOST_MEM_PINNED : Z := 2.
Definition XIO_HOST_MEM_PLAIN : Z := 4.
Definition XIO_HOST_MEM_DEFAULT : Z := 8.

Definition flagged (flags flag : Z) : bool := negb (Z.land flags flag =? 0).

(** ** Choosing a region *)

(** The callback of [hsa_agent_iterate_regions]: the last allocatable global
    region of either kind; a failing query of the segment ends the walk. *)
Fixpoint walk_regions (l : list hsa_region) (fine coarse : Z) : Z * Z :=
  match l with
  | [] => (fine, coarse)
  | r :: l' =>
      match rg_global r with
      | None => (fine, coarse)
      | Some false => walk_regions l' fine coarse
      | Some true =>
          match rg_alloc_allowed r, rg_fine_coarse r with
          | Some true, Some (true, _) => walk_regions l' (rg_handle r) coarse
          | Some true, Some (false, true) => walk_regions l' fine (rg_handle r)
          | _, _ => walk_regions l' fine coarse
          end
      end
  end.

Definition choose_region (want_coarse : bool) (fine coarse : Z) : Z :=
  if want_coarse then if negb (coarse =? 0) then coarse else fine
  else if negb (fine =? 0) then fine else coarse.

(** The callback of [hsa_iterate_agents]: the regions of the first GPU; a
    failing query ends the walk. *)
Fixpoint device_region (want_coarse : bool) (l : list hsa_agent) : Z :=
  match l with
  | [] => 0
  | a :: l' =>
      match ag_is_gpu a with
      | None => 0
      | Some false => device_region want_coarse l'
      | Some true => let '(fine, coarse) := walk_regions (ag_regions a) 0 0 in
                     choose_region want_coarse fine coarse
      end
  end.

Definition round_up (size granularity : Z) : Z := u64 (size + granularity - 1) / granularity * granularity.

Section HostMem.
Context {E : HostEnv}.

(** ** Device memory *)

Definition allocDeviceMemoryHsa (size : Z) (old : ptr) (flags : Z) : HostM (Z * ptr) :=
  let* status := consult he_hsa_init in
  if negb (status =? HSA_STATUS_SUCCESS) && negb (status =? 4097) then ret (status, old) else
  let* agents := consult he_hsa_agents in
  let region := device_region (flagged flags XIO_DEVICE_MEM_COARSE_GRAINED) agents in
  if region =? 0 then ret (HSA_STATUS_ERROR_INVALID_REGION, old) else
  hsa_memory_allocate region size.

Definition allocVmem (size : Z) (old : ptr) (gpuId : Z) : HostM (Z * ptr) :=
  let* '(rc, granularity) := consult (fun v => he_hipMemGetAllocationGranularity v gpuId) in
  if negb (rc =? 0) then ret (HSA_STATUS_ERROR, old) else
  let allocSize := round_up size granularity in
  let* '(rc, handle) := hipMemCreate allocSize in
  if negb (rc =? 0) then ret (HSA_STATUS_ERROR_OUT_OF_RESOURCES, old) else
  let* '(rc, p) := hipMemAddressReserve allocSize in
  if negb (rc =? 0) then hipMemRelease handle ;;; ret (HSA_STATUS_ERROR_OUT_OF_RESOURCES, p) else
  let* rc := hipMemMap p allocSize handle in
  if negb (rc =? 0) then
    hipMemAddressFree p allocSize ;;; hipMemRelease handle ;;; ret (HSA_STATUS_ERROR, NULL) else
  let* rc := consult (fun v => he_hipMemSetAccess v p allocSize gpuId) in
  if negb (rc =? 0) then
    hipMemUnmap p allocSize ;;; hipMemAddressFree p allocSize ;;; hipMemRelease handle ;;;
    ret (HSA_STATUS_ERROR, NULL) else
  modify (set_vmem (insert p (handle, allocSize))) ;;;
  ret (HSA_STATUS_SUCCESS, p).

(** The status, and the pointer as it is left. *)
Definition allocDeviceMemory (size : Z) (old : ptr) (flags gpuId : Z) : HostM (Z * ptr) :=
  if size =? 0 then ret (HSA_STATUS_ERROR_INVALID_ARGUMENT, old) else
  if flagged flags XIO_DEVICE_MEM_VMEM then allocVmem size old gpuId else
  if flagged flags XIO_DEVICE_MEM_HIP then
    let* '(rc, p) := hipMalloc size in
    ret (if rc =? 0 then HSA_STATUS_SUCCESS else HSA_STATUS_ERROR_OUT_OF_RESOURCES, p) else
  if flagged flags XIO_DEVICE_MEM_UNCACHED then
    let* '(rc, p) := hipExtMallocWithFlags size in
    ret (if rc =? 0 then HSA_STATUS_SUCCESS else HSA_STATUS_ERROR_OUT_OF_RESOURCES, p) else
  allocDeviceMemoryHsa size old flags.

Definition freeDeviceMemory (p : ptr) (flags : Z) : HostM unit :=
  if is_null p then ret tt else
  if flagged flags XIO_DEVICE_MEM_VMEM then
    let* it := gets (fun s => ho_vmem s !! p) in
    match it with
    | Some (handle, size) =>
        hipMemUnmap p size ;;; hipMemAddressFree p size ;;; hipMemRelease handle ;;;
        modify (set_vmem (delete p))
    | None => hipMemUnmap p 0 ;;; hipMemAddressFree p 0
    end else
  if flagged flags XIO_DEVICE_MEM_HIP then hipFree p else
  if flagged flags XIO_DEVICE_MEM_UNCACHED then hipFree p else
  hsa_memory_free p.

(** ** Host memory *)

(** [hipHostMalloc], or [malloc] when it fails; zeroed. *)
Definition pinned_or_malloc (size : Z) (coherent : bool) : HostM (Z * ptr) :=
  let* '(rc, p) := hipHostMalloc size coherent in
  if rc =? 0 then memset0 p size ;;; ret (hipSuccess, p) else
  let* p := malloc size in
  if is_null p then ret (hipErrorMemoryAllocation, NULL) else
  memset0 p size ;;; ret (hipSuccess, p).

Definition alloc_pinned (size : Z) (old : ptr) : HostM (Z * ptr) :=
  let pgsz := if he_page_size <=? 0 then 4096 else he_page_size in
  let* r := posix_memalign pgsz size in
  match r with
  | None => ret (hipErrorMemoryAllocation, old)
  | Some p =>
      memset0 p size ;;;
      let* rc := hipHostRegister p size in
      if rc =? 0 then ret (hipSuccess, p) else free p ;;; ret (rc, NULL)
  end.

Definition allocHostMemory (size : Z) (old : ptr) (flags : Z) : HostM (Z * ptr) :=
  if size =? 0 then ret (hipErrorInvalidValue, old) else
  if flagged flags XIO_HOST_MEM_PLAIN then
    let* p := malloc size in
    if is_null p then ret (hipErrorMemoryAllocation, p) else
    memset0 p size ;;; ret (hipSuccess, p) else
  if flagged flags XIO_HOST_MEM_DEFAULT then pinned_or_malloc size false else
  if flagged flags XIO_HOST_MEM_PINNED then alloc_pinned size old else
  pinned_or_malloc size (flagged flags XIO_HOST_MEM_COHERENT).

Definition host_free_or_free (p : ptr) : HostM unit :=
  let* rc := hipHostFree p in
  if rc =? 0 then ret tt else free p.

Definition freeHostMemory (p : ptr) (flags : Z) : HostM unit :=
  if is_null p then ret tt else
  if flagged flags XIO_HOST_MEM_PLAIN then free p else
  if flagged flags XIO_HOST_MEM_DEFAULT then host_free_or_free p else
  if flagged flags XIO_HOST_MEM_PINNED then hipHostUnregister p ;;; free p else
  host_free_or_free p.

(** ** Pairs, queues and data buffers *)

Definition allocDeviceMemoryPair (size : Z) : HostM (Z * ptr * ptr) :=
  if size =? 0 then ret (hipErrorInvalidValue, NULL, NULL) else
  let* '(rc, host_ptr) := allocHostMemory size NULL XIO_HOST_MEM_PLAIN in
  if negb (rc =? hipSuccess) then ret (rc, host_ptr, NULL) else
  let* '(st, device_ptr) := allocDeviceMemory size NULL XIO_DEVICE_MEM_HIP 0 in
  if negb (st =? HSA_STATUS_SUCCESS) then
    freeHostMemory host_ptr XIO_HOST_MEM_PLAIN ;;; ret (hipErrorMemoryAllocation, NULL, device_ptr) else
  ret (hipSuccess, host_ptr, device_ptr).

Definition freeDeviceMemoryPair (host_ptr device_ptr : ptr) : HostM unit :=
  freeHostMemory host_ptr XIO_HOST_MEM_PLAIN ;;; freeDeviceMemory device_ptr XIO_DEVICE_MEM_HIP.

Definition allocateQueue (size : Z) (isDeviceMemory : bool) (old : ptr) : HostM (Z * ptr) :=
  if isDeviceMemory then
    let* '(st, p) := allocDeviceMemory size old XIO_DEVICE_MEM_HIP 0 in
    if negb (st =? HSA_STATUS_SUCCESS) then ret (hipErrorMemoryAllocation, p) else
    let* rc := consult (fun v => he_hipMemset v p size) in
    memset0 p size ;;; ret (hipSuccess, p)
  else allocHostMemory size old XIO_HOST_MEM_MAPPED.

Definition freeQueue (p : ptr) (isDeviceMemory : bool) : HostM unit :=
  if isDeviceMemory then freeDeviceMemory p XIO_DEVICE_MEM_HIP else freeHostMemory p XIO_HOST_MEM_MAPPED.

(** Whether the queue moved, and where it is. *)
Definition reallocateQueue (p size : Z) : HostM (bool * ptr) :=
  if is_null p then ret (false, p) else
  let* '(rc, coherent_ptr) := allocHostMemory size NULL XIO_HOST_MEM_COHERENT in
  if negb (rc =? hipSuccess) || is_null coherent_ptr then ret (false, p) else
  memcpy coherent_ptr p size ;;; freeHostMemory p XIO_HOST_MEM_MAPPED ;;; ret (true, coherent_ptr).

Definition getGpuPointer (host_ptr : ptr) (is_device : bool) : HostM ptr :=
  if is_null host_ptr then ret NULL else
  if is_device then ret host_ptr else
  let* '(rc, gpu_ptr) := hipHostGetDevicePointer host_ptr in
  ret (if rc =? 0 then gpu_ptr else NULL).

Definition registerMemoryForGpu (host_ptr size : Z) : HostM (Z * ptr) :=
  if is_null host_ptr || (size =? 0) then ret (- EINVAL, NULL) else
  let* rc := hipHostRegister host_ptr size in
  if negb (rc =? 0) then ret (-1, NULL) else
  let* '(rc, gpu_ptr) := hipHostGetDevicePointer host_ptr in
  if negb (rc =? 0) then hipHostUnregister host_ptr ;;; ret (-1, NULL) else ret (0, gpu_ptr).

Definition allocateDataBuffer (size memoryMode : Z) (old : ptr) : HostM (Z * ptr) :=
  if flagged memoryMode XIO_MEM_MODE_DATA_DEVICE then
    let alignedSize := round_up size he_page_size in
    let* '(st, p) := allocDeviceMemory alignedSize old XIO_DEVICE_MEM_HIP 0 in
    if negb (st =? HSA_STATUS_SUCCESS) then ret (hipErrorMemoryAllocation, p) else
    let* rc := consult (fun v => he_hipMemset v p size) in
    if negb (rc =? 0) then freeDeviceMemory p XIO_DEVICE_MEM_HIP ;;; ret (rc, NULL) else
    memset0 p size ;;; ret (hipSuccess, p)
  else allocHostMemory size old XIO_HOST_MEM_MAPPED.

Definition freeDataBuffer (p memoryMode : Z) : HostM unit :=
  if flagged memoryMode XIO_MEM_MODE_DATA_DEVICE then freeDeviceMemory p XIO_DEVICE_MEM_HIP
  else freeHostMemory p XIO_HOST_MEM_MAPPED.
End HostMem.

(** ** Symbolic execution *)

(** Bring what is known of the last state back to the first. *)
Ltac settle :=
  repeat match goal with
  | A0 : after ?s ?s1 ?S ?V, A1 : after ?s1 ?s2 _ _ |- _ =>
      rewrite ?(af_held _ _ _ _ A0), ?(af_vmem _ _ _ _ A0) in *;
      apply (after_trans _ _ _ _ _ _ _ A0) in A1; clear A0
  end.

(** What is given back is held. *)
Ltac is_held :=
  try match goal with A : after _ ?s1 _ _ |- _ ∈ ho_held ?s1 => rewrite (af_held _ _ _ _ A) end; set_solver.

Ltac hcall :=
  unfold free, hipFree, hsa_memory_free, hipMemUnmap, hipMemAddressFree, hipMemRelease;
  lazymatch goal with
  | |- wp (give_back _) _ _ => apply wp_give_back; [is_held|]
  | |- wp (consult _) _ _ => apply wp_consult
  | |- wp (acquire _) _ _ => apply wp_acquire
  | |- wp (memset0 _ _) _ _ => apply wp_memset0
  | |- wp (memcpy _ _ _) _ _ => apply wp_memcpy
  | |- wp (malloc _) _ _ => apply wp_malloc
  | |- wp (posix_memalign _ _) _ _ => apply wp_posix_memalign
  | |- wp (hipHostMalloc _ _) _ _ => apply wp_hipHostMalloc
  | |- wp (hipMalloc _) _ _ => apply wp_hipMalloc
  | |- wp (hipExtMallocWithFlags _) _ _ => apply wp_hipExtMalloc
  | |- wp (hipHostFree _) _ _ => apply wp_hipHostFree
  | |- wp (hipHostRegister _ _) _ _ => apply wp_hipHostRegister
  | |- wp (hipHostUnregister _) _ _ => apply wp_hipHostUnregister
  | |- wp (hipMemCreate _) _ _ => apply wp_hipMemCreate
  | |- wp (hipMemAddressReserve _) _ _ => apply wp_hipMemAddressReserve
  | |- wp (hipMemMap _ _ _) _ _ => apply wp_hipMemMap
  | |- wp (hsa_memory_allocate _ _) _ _ => apply wp_hsa_memory_allocate
  | |- wp (modify (set_vmem _)) _ _ => apply wp_set_vmem
  | |- wp (bind _ _) _ _ => apply wp_bind
  | |- wp (ret _) _ _ => apply wp_ret
  | |- wp (gets _) _ _ => apply wp_gets
  | |- wp (if ?b then _ else _) _ _ => destruct b eqn:?
  | |- wp (match ?x with _ => _ end) _ _ => destruct x eqn:?
  end; intros; bool_to_prop; simplify_eq/=.
(** A block is never at the null pointer. *)
Ltac no_null :=
  match goal with
  | F : fresh _ 0 |- _ => by destruct (proj1 F eq_refl)
  | F : fresh _ NULL |- _ => by destruct (proj1 F eq_refl)
  | F : fresh _ ?p, N : ?p = NULL |- _ => by destruct (proj1 F N)
  | F : fresh _ ?p, N : ?p = 0 |- _ => by destruct (proj1 F N)
  end.
Ltac hexec := repeat (hcall; settle; try (exfalso; no_null)).

(** A client that allocates a block of either kind and frees what it got. *)
Definition use_both {E : HostEnv} (size flags dsize dflags gpuId : Z) : HostM bool :=
  let* '(rc, p) := allocHostMemory size NULL flags in
  if negb (rc =? hipSuccess) then ret false else
  let* '(st, d) := allocDeviceMemory dsize NULL dflags gpuId in
  if negb (st =? HSA_STATUS_SUCCESS) then freeHostMemory p flags ;;; ret false else
  freeHostMemory p flags ;;; freeDeviceMemory d dflags ;;; ret true.

Section HostMemSpec.
Context {E : HostEnv} {EO : HostEnvOk E}.

(** What an allocation of host memory with these flags may consist of. *)
Definition host_block (flags : Z) (p : ptr) (R : gset host_res) : Prop :=
  if flagged flags XIO_HOST_MEM_PLAIN then R = {[ RMalloc p ]} else
  if flagged flags XIO_HOST_MEM_DEFAULT then R = {[ RHostPinned p ]} \/ R = {[ RMalloc p ]} else
  if flagged flags XIO_HOST_MEM_PINNED then R = {[ RMalloc p; RRegistered p ]} else
  R = {[ RHostPinned p ]} \/ R = {[ RMalloc p ]}.

(** An allocation: on success [R] more is held at a new place, which is
    zeroed; otherwise nothing changes. *)
Definition allocates (block : ptr -> gset host_res -> Prop) (size : Z) (s : host) (r : Z * ptr) (s' : host)
    : Prop :=
  (fst r <> 0 /\ after s s' (ho_held s) (ho_vmem s)) \/
  (fst r = 0 /\ exists R, block (snd r) R /\ fresh (ho_held s) (snd r) /\ R ## ho_held s /\
     after s s' (R ∪ ho_held s) (ho_vmem s) /\ ho_mem s' = zeroed (snd r) size (ho_mem s)).

Lemma after_eq s s' S S' V : after s s' S V -> S = S' -> after s s' S' V.
Proof using Type. by intros ? <-. Qed.

Lemma fresh_not_in held p k n : fresh held p -> is_memory k = true -> (k, p, n) ∉ held.
Proof. intros [_ H] Hk. by apply H. Qed.

Lemma fresh_weaken held held' p : fresh held p -> held' ⊆ held -> fresh held' p.
Proof using Type. intros [Hp Hf] Hs. split; [done|]. intros k n Hk Hin. by apply (Hf k n Hk), Hs. Qed.

Lemma fresh_disjoint held p k n : fresh held p -> is_memory k = true -> {[ (k, p, n) : host_res ]} ## held.
Proof. intros Hf Hk. apply disjoint_singleton_l. by apply fresh_not_in. Qed.

Ltac mem_eq := repeat match goal with M : ho_mem _ = _ |- _ => rewrite M end; reflexivity.
Ltac allocated R :=
  right; split; [reflexivity|]; exists R;
  split_and!; [tauto|assumption|by apply fresh_disjoint|eassumption|cbn; congruence].
Ltac not_allocated := left; split; [cbn; first [done|assumption]|eassumption].

Lemma pinned_or_malloc_spec size c s :
  wp (pinned_or_malloc size c)
    (allocates (fun p R => R = {[ RHostPinned p ]} \/ R = {[ RMalloc p ]}) size s) s.
Proof using EO.
  pose proof (after_refl s) as A. unfold pinned_or_malloc. hexec.
  - allocated ({[RHostPinned p]} : gset host_res).
  - allocated ({[RMalloc p0]} : gset host_res).
  - not_allocated.
Qed.

Lemma allocHostMemory_spec size old flags s :
  wp (allocHostMemory size old flags) (allocates (host_block flags) size s) s.
Proof using EO.
  pose proof (after_refl s) as A. unfold allocHostMemory, host_block.
  destruct (size =? 0) eqn:Es; [apply wp_ret; not_allocated|].
  destruct (flagged flags XIO_HOST_MEM_PLAIN).
  { hexec; [allocated ({[RMalloc p]} : gset host_res)|not_allocated]. }
  destruct (flagged flags XIO_HOST_MEM_DEFAULT); [apply pinned_or_malloc_spec|].
  destruct (flagged flags XIO_HOST_MEM_PINNED); [|apply pinned_or_malloc_spec].
  unfold alloc_pinned. hexec.
  - pose proof (fresh_not_in _ _ KMalloc 0 H eq_refl) as Hn. right. split; [done|].
    exists {[ RMalloc p; RRegistered p ]}. split_and!; [done|done|set_solver| |cbn; congruence].
    eapply after_eq; [eassumption|]. set_solver.
  - left. split; [done|]. eapply after_eq; [eassumption|].
    pose proof (fresh_not_in _ _ KMalloc 0 H eq_refl). set_solver.
  - not_allocated.
Qed.

(** ** Freeing *)

(** No other memory is held at [p] than [R]. *)
Definition sole (held : gset host_res) (p : ptr) (R : gset host_res) : Prop :=
  forall k n, is_memory k = true -> (k, p, n) ∈ held -> (k, p, n) ∈ R.

Lemma fresh_sole held p R : fresh held p -> sole (R ∪ held) p R.
Proof using Type.
  intros F k n Hk [Hin|Hin]%elem_of_union; [done|]. by destruct (fresh_not_in _ _ k n F Hk).
Qed.

(** The call gives [R] back and touches nothing else. *)
Definition gives_back (R : gset host_res) (s : host) (s' : host) : Prop :=
  after s s' (ho_held s ∖ R) (ho_vmem s) /\ ho_mem s' = ho_mem s.

Lemma host_free_or_free_spec p R s :
  R = {[ RHostPinned p ]} \/ R = {[ RMalloc p ]} -> R ⊆ ho_held s -> sole (ho_held s) p R ->
  wp (host_free_or_free p) (fun _ s' => gives_back R s s') s.
Proof using EO.
  intros HR Hin Hs. pose proof (after_refl s) as A. unfold host_free_or_free.
  destruct HR as [-> | ->].
  - hexec; [|set_solver]. by split.
  - hexec.
    + specialize (Hs KHostPinned 0 eq_refl). set_solver.
    + split; [done|cbn; congruence].
Qed.

Lemma freeHostMemory_spec p flags R s :
  host_block flags p R -> p <> NULL -> R ⊆ ho_held s -> sole (ho_held s) p R ->
  wp (freeHostMemory p flags) (fun _ s' => gives_back R s s') s.
Proof using EO.
  intros HR Hp Hin Hs. unfold freeHostMemory, host_block in *. rewrite (proj2 (Z.eqb_neq p NULL) Hp).
  pose proof (after_refl s) as A.
  destruct (flagged flags XIO_HOST_MEM_PLAIN); [subst R; hexec; by split|].
  destruct (flagged flags XIO_HOST_MEM_DEFAULT); [by apply host_free_or_free_spec|].
  destruct (flagged flags XIO_HOST_MEM_PINNED); [|by apply host_free_or_free_spec].
  subst R. hexec; [|set_solver]. split; [|cbn; congruence]. eapply after_eq; [eassumption|]. set_solver.
Qed.

Lemma free_after_alloc (held R : gset host_res) : R ## held -> (R ∪ held) ∖ R = held.
Proof using Type. clear. set_solver. Qed.

(** ** Device memory *)

(** What an allocation of device memory may consist of, and what it adds to
    [vmemAllocations]. *)
Definition device_block (flags : Z) (p : ptr) (R : gset host_res) (V V' : gmap ptr (Z * Z)) : Prop :=
  if flagged flags XIO_DEVICE_MEM_VMEM then
    exists h n, R = {[ RVmHandle h; RVmRange p n; RVmMap p n ]} /\ V' = <[p := (h, n)]> V
  else V' = V /\
    if flagged flags XIO_DEVICE_MEM_HIP || flagged flags XIO_DEVICE_MEM_UNCACHED
    then R = {[ RDevice p ]} else R = {[ RHsaMem p ]}.

Definition allocates_device (flags : Z) (s : host) (r : Z * ptr) (s' : host) : Prop :=
  ho_mem s' = ho_mem s /\
  ((fst r <> 0 /\ after s s' (ho_held s) (ho_vmem s)) \/
   (fst r = 0 /\ exists R V', device_block flags (snd r) R (ho_vmem s) V' /\ fresh (ho_held s) (snd r) /\
      R ## ho_held s /\ after s s' (R ∪ ho_held s) V')).

(** [vmemAllocations] lists what is held. *)
Definition vmem_ok (s : host) : Prop :=
  forall p h n, ho_vmem s !! p = Some (h, n) -> {[ RVmHandle h; RVmRange p n; RVmMap p n ]} ⊆ ho_held s.

Lemma allocVmem_spec size old gpuId flags s :
  flagged flags XIO_DEVICE_MEM_VMEM = true -> wp (allocVmem size old gpuId) (allocates_device flags s) s.
Proof using EO.
  intros Hf. unfold allocVmem, allocates_device, device_block. rewrite Hf.
  hexec; (split; [congruence|]); try (left; split; [done|]; eassumption);
    try (pose proof (fresh_not_in _ _ KVmRange (round_up size z0) ltac:(eassumption) eq_refl));
    try (left; split; [done|]; eapply after_eq; [eassumption|]; set_solver).
  right. split; [done|]. exists {[ RVmHandle h; RVmRange p (round_up size z0); RVmMap p (round_up size z0) ]}, (<[p := (h, round_up size z0)]> (ho_vmem s)).
  split_and!; [by eauto|eapply fresh_weaken; [eassumption|set_solver]|set_solver|].
  eapply after_eq; [eassumption|]. set_solver.
Qed.

Lemma allocDeviceMemory_spec size old flags gpuId s :
  wp (allocDeviceMemory size old flags gpuId) (allocates_device flags s) s.
Proof using EO.
  unfold allocDeviceMemory. destruct (size =? 0).
  { apply wp_ret. split; [done|]. left. split; [done|apply after_refl]. }
  destruct (flagged flags XIO_DEVICE_MEM_VMEM) eqn:Hv; [by apply allocVmem_spec|].
  unfold allocates_device, device_block. rewrite Hv.
  destruct (flagged flags XIO_DEVICE_MEM_HIP) eqn:Hh; [|destruct (flagged flags XIO_DEVICE_MEM_UNCACHED) eqn:Hu];
    cbn [orb]; unfold allocDeviceMemoryHsa; hexec; (split; [congruence|]);
    first [left; split; [try case_match; bool_to_prop; done|eassumption]
          |right; split; [done|]; do 2 eexists; split_and!;
           [reflexivity|reflexivity|eassumption|by apply fresh_disjoint|eassumption]].
Qed.

Lemma freeDeviceMemory_spec p flags R V s :
  device_block flags p R V (ho_vmem s) -> p <> NULL -> R ⊆ ho_held s -> V !! p = None ->
  wp (freeDeviceMemory p flags) (fun _ s' => after s s' (ho_held s ∖ R) V /\ ho_mem s' = ho_mem s) s.
Proof using EO.
  intros HR Hp Hin Hn. unfold freeDeviceMemory, device_block in *. rewrite (proj2 (Z.eqb_neq p NULL) Hp).
  destruct (flagged flags XIO_DEVICE_MEM_VMEM).
  { destruct HR as (h & n & -> & HV). apply wp_bind, wp_gets. cbv beta.
    assert (ho_vmem s !! p = Some (h, n)) as -> by (rewrite HV; by rewrite lookup_insert_eq).
    assert (delete p (ho_vmem s) = V) as HV' by (rewrite HV; by apply delete_insert_id).
    hexec. split; [|clear HV; congruence]. eapply after_eq; [eassumption|]. clear. set_solver. }
  destruct HR as [<- HR].
  destruct (flagged flags XIO_DEVICE_MEM_HIP), (flagged flags XIO_DEVICE_MEM_UNCACHED); cbn [orb] in HR;
    subst R; hexec; by split.
Qed.

Lemma fresh_no_vmem s p : vmem_ok s -> fresh (ho_held s) p -> ho_vmem s !! p = None.
Proof using Type.
  intros Hv Hf. destruct (ho_vmem s !! p) as [[h n]|] eqn:Ep; [|done]. exfalso.
  apply (fresh_not_in _ _ KVmRange n Hf eq_refl), (Hv _ _ _ Ep), elem_of_union_l, elem_of_union_r.
  by apply elem_of_singleton.
Qed.

Lemma device_block_at flags d R V V' k x n :
  device_block flags d R V V' -> is_memory k = true -> (k, x, n) ∈ R -> x = d.
Proof using Type.
  unfold device_block. intros HR Hk Hin. destruct (flagged flags XIO_DEVICE_MEM_VMEM).
  - destruct HR as (h & m & -> & _). revert Hin. rewrite !elem_of_union, !elem_of_singleton.
    intros [[Hin|Hin]|Hin]; by simplify_eq.
  - destruct HR as [_ HR]. destruct (_ || _); subst R; apply elem_of_singleton in Hin; by simplify_eq.
Qed.

Lemma host_block_memory flags p R :
  host_block flags p R -> exists k, is_memory k = true /\ (k, p, 0) ∈ R.
Proof using Type.
  unfold host_block. intros HR.
  destruct (flagged flags XIO_HOST_MEM_PLAIN); [|destruct (flagged flags XIO_HOST_MEM_DEFAULT);
    [|destruct (flagged flags XIO_HOST_MEM_PINNED)]].
  - subst R. exists KMalloc. split; [done|]. by apply elem_of_singleton.
  - destruct HR as [-> | ->]; eexists; (split; [|by apply elem_of_singleton]); done.
  - subst R. exists KMalloc. split; [done|]. apply elem_of_union_l. by apply elem_of_singleton.
  - destruct HR as [-> | ->]; eexists; (split; [|by apply elem_of_singleton]); done.
Qed.

(** A new block leaves an older one the only one at its place. *)
Lemma sole_under held p R d R' V V' flags dflags :
  host_block flags p R -> device_block dflags d R' V V' -> fresh (R ∪ held) d -> sole (R ∪ held) p R ->
  sole (R' ∪ (R ∪ held)) p R.
Proof using Type.
  intros HR HR' Hf Hs k n Hk [Hin|Hin]%elem_of_union; [|by apply Hs]. exfalso.
  apply (device_block_at _ _ _ _ _ _ _ _ HR') in Hin; [subst d|done].
  destruct (host_block_memory _ _ _ HR) as (k' & Hk' & Hin'). apply (proj2 Hf k' 0 Hk'). by apply elem_of_union_l.
Qed.

(** ** Theorems *)

(** C33: Memory is given back whole.  Whatever the flags, the allocator they
    choose and the fallback it takes, allocating host memory and device
    memory and freeing both with the same flags leaves what the process holds
    and the table of virtual memory as they were, and gives nothing back that
    was not held; so does every failure on the way. *)
Theorem memory_roundtrip size flags dsize dflags gpuId s :
  vmem_ok s ->
  wp (use_both size flags dsize dflags gpuId)
    (fun _ s' => after s s' (ho_held s) (ho_vmem s)) s.
Proof using EO.
  intros Hv. unfold use_both, hipSuccess, HSA_STATUS_SUCCESS. apply wp_bind. eapply wp_mono; [apply allocHostMemory_spec|].
  intros [rc p] s1 [[Hrc A1]|[Hrc (R & HR & HF & HD & A1 & _)]]; cbn in Hrc.
  { rewrite (proj2 (Z.eqb_neq _ _) Hrc). by apply wp_ret. }
  subst rc. cbn [negb Z.eqb fst snd] in *. pose proof (af_held _ _ _ _ A1) as E1. pose proof (af_vmem _ _ _ _ A1) as V1.
  pose proof (fresh_sole _ _ R HF) as Hs.
  apply wp_bind. eapply wp_mono; [apply allocDeviceMemory_spec|].
  intros [st d] s2 [_ [[Hst A2]|[Hst (R2 & V2 & HR2 & HF2 & HD2 & A2)]]]; cbn in Hst; rewrite E1, V1 in *.
  - rewrite (proj2 (Z.eqb_neq _ _) Hst). cbn [negb].
    pose proof (after_trans _ _ _ _ _ _ _ A1 A2) as A. pose proof (af_held _ _ _ _ A2) as E2. apply wp_bind.
    eapply wp_mono; [apply (freeHostMemory_spec p flags R)|];
      [done|apply HF|rewrite E2; apply union_subseteq_l|by rewrite E2|].
    intros _ s3 [A3 _]. apply wp_ret. rewrite E2, (af_vmem _ _ _ _ A) in A3.
    eapply after_eq; [by eapply after_trans|]. by apply free_after_alloc.
  - subst st. cbn [negb Z.eqb fst snd] in *.
    pose proof (after_trans _ _ _ _ _ _ _ A1 A2) as A. pose proof (af_held _ _ _ _ A2) as E2. apply wp_bind.
    eapply wp_mono; [apply (freeHostMemory_spec p flags R)|];
      [done|apply HF|rewrite E2; set_solver|rewrite E2; by eapply sole_under|].
    intros _ s3 [A3 _]. rewrite E2, (af_vmem _ _ _ _ A) in A3. pose proof (af_held _ _ _ _ A3) as E3.
    apply wp_bind. eapply wp_mono; [apply (freeDeviceMemory_spec d dflags R2 (ho_vmem s))|].
    + rewrite (af_vmem _ _ _ _ A3). done.
    + apply HF2.
    + rewrite E3. set_solver.
    + apply (fresh_no_vmem s); [done|]. eapply fresh_weaken; [exact HF2|apply union_subseteq_r].
    + intros _ s4 [A4 _]. apply wp_ret. rewrite E3 in A4.
      eapply after_eq; [eapply after_trans; [|exact A4]; by eapply after_trans|]. set_solver.
Qed.
End HostMemSpec.

Lemma idle_vmem_ok m : vmem_ok (idle_host m).
Proof. intros p h n Hp. by destruct (lookup_empty p : (∅ : gmap ptr (Z * Z)) !! p = None). Qed.

(** HIP has no pinned memory, so the fallback is taken. *)
Lemma memory_roundtrip_witness :
  wp (use_both (E := demo_host false (fun _ => true) (fun _ => 0)) 4096 XIO_HOST_MEM_COHERENT 8192 XIO_DEVICE_MEM_VMEM 0)
    (fun _ s' => after (idle_host state0) s' ∅ ∅) (idle_host state0).
Proof.
  exact (memory_roundtrip (EO := demo_host_ok _ _ _) 4096 XIO_HOST_MEM_COHERENT 8192 XIO_DEVICE_MEM_VMEM 0 _
    (idle_vmem_ok state0)).
Defined.
