(* ===== verification/HostModule.v ===== *)
(** * The core library's calls into the kernel module

    The functions of [src/src/common/xio-common.hip] that open the module's
    device and issue its ioctls, composed with the module itself
    ([Driver.rocm_xio_ioctl], [Contig.rocm_xio_mmap],
    [Driver.rocm_xio_release]): registering queues and device buffers,
    quiescing a namespace, and queues in contiguous DMA memory.

    A file of the device is released when its last reference goes: its
    descriptor is one, each mapping of it another. *)

From S2P Require Import Prelude Uapi Kernel State Demo QueueReg BufferReg Contig Quiesce Frame Driver FileLife HostEnv HostDemo HostMem.

(** ** Flags *)

Definition ENOTSUP : Z := 95.

(** What the last ioctl copied back. *)
Definition copied_buffer (tr : trace) : Z :=
  match tr with EvCopyOut (UBuffer r) :: _ => rb_phys_addr r | _ => 0 end.
Definition copied_contig (tr : trace) : Z * Z :=
  match tr with EvCopyOut (UContig r) :: _ => (ac_phys_addr r, ac_mmap_offset r) | _ => (0, 0) end.
Definition copied_shadow (tr : trace) : Z * Z :=
  match tr with EvCopyOut (UShadow r) :: _ => (mb_shadow_gpa r, mb_shadow_size r) | _ => (0, 0) end.

Section HostModule.
Context {K : Kernel} {E : HostEnv}.

(** ** Files of the module's device *)

Definition file_get (f : ptr) : HostM unit :=
  modify (set_kernel (with_files (fun m => <[f := default 0 (m !! f) + 1]> m))).
Definition file_put (f : ptr) : HostM unit :=
  let* n := gets (fun s => default 0 (ks_files (ho_kernel s) !! f)) in
  if n <=? 1 then
    modify (set_kernel (with_files (delete f))) ;;;
    in_module (rocm_xio_release f) ;;; ret tt
  else modify (set_kernel (with_files (<[f := n - 1]>))).

(** The [struct file] of a new descriptor. *)
Definition new_file : HostM ptr := let* f := consult he_file in file_get f ;;; ret f.
Definition open_module : HostM (Z * ptr) :=
  let* fd := open ModuleDevice in
  if fd <? 0 then ret (fd, NULL) else
  let* f := new_file in
  ret (fd, f).
Definition close_module (fd : Z) (f : ptr) : HostM unit := close fd ;;; file_put f.

Definition ioctl (f : ptr) (c : ioctl_call) : HostM Z := in_module (rocm_xio_ioctl f c).
Definition last_copy {A} (f : trace -> A) : HostM A := gets (fun s => f (st_trace (ks_mod (ho_kernel s)))).

(** [mmap] of the module's device: the address is the kernel's, whole pages
    are mapped, the VMA is named by its address and holds a reference on the
    file.  The status, a negated errno, and the address. *)
Definition page_up (size : Z) : Z := round_up size he_page_size.
Definition mmap_module (fd : Z) (f : ptr) (size pgoff : Z) : HostM (Z * ptr) :=
  let* m := mmap fd size in
  match m with
  | None => ret (- ENOMEM, NULL)
  | Some p =>
      let* rc := in_module (rocm_xio_mmap
        {| vma_id := p; vm_start := p; vm_end := p + page_up size; vm_pgoff := pgoff; vm_file := f |}) in
      if rc <? 0 then munmap p size ;;; ret (rc, NULL) else
      file_get f ;;;
      modify (set_kernel (with_maps (<[p := (p, f)]>))) ;;; ret (0, p)
  end.
Definition munmap_module (p size : Z) : HostM unit :=
  munmap p size ;;;
  let* v := gets (fun s => ks_vmas (ho_kernel s) !! p) in
  match v with
  | None => ret tt
  | Some (v, f) =>
      modify (set_kernel (with_maps (delete p))) ;;;
      in_module (contig_vma_close v) ;;; file_put f
  end.

(** ** DMA-BUF *)

(** The status, the descriptor and the offset as they are left. *)
Definition exportDmabuf (p size flags fd offset : Z) : HostM (Z * Z * Z) :=
  if is_null p || (size =? 0) then ret (HSA_STATUS_ERROR_INVALID_ARGUMENT, fd, offset) else
  let* '(st, fd, offset) := consult (fun v => he_hsa_export_dmabuf v p size flags) in
  if st =? 0 then acquire (RDmabuf fd) ;;; ret (st, fd, offset) else ret (st, fd, offset).

Definition closeDmabuf (fd : Z) : HostM unit :=
  if fd <? 0 then ret tt else give_back (RDmabuf fd).

(** [ptr & ~(page - 1)] and the sizes that follow. *)
Definition page_down (p : Z) : Z := Z.land p (Z.lnot (he_page_size - 1)).

(** The status and [*phys_addr_out]. *)
Definition exportRegVramBuf (vram_ptr size nvme_bdf : Z) (is_emulated_nvme : bool) (phys : Z) : HostM (Z * Z) :=
  if is_null vram_ptr || (size =? 0) then ret (- EINVAL, phys) else
  let aligned_ptr := page_down vram_ptr in
  let dmabuf_offset := vram_ptr - aligned_ptr in
  let aligned_size := page_down (u64 (size + dmabuf_offset + he_page_size - 1)) in
  let* '(status, dmabuf_fd, dmabuf_offset) := exportDmabuf aligned_ptr aligned_size 0 (-1) dmabuf_offset in
  if negb (status =? HSA_STATUS_SUCCESS) then ret (- ENOTSUP, phys) else
  let* '(kmod_fd, file) := open_module in
  if kmod_fd <? 0 then closeDmabuf dmabuf_fd ;;; ret (kmod_fd, phys) else
  let* rc := ioctl file (Call_register_buffer (Some
    {| rb_dmabuf_fd := dmabuf_fd; rb_virt_addr := vram_ptr; rb_phys_addr := 0; rb_size := size;
       rb_nvme_bdf := nvme_bdf;
       rb_flags := if is_emulated_nvme then ROCM_XIO_FLAG_EMULATED else ROCM_XIO_FLAG_PASSTHROUGH |})) in
  if rc <? 0 then closeDmabuf dmabuf_fd ;;; close_module kmod_fd file ;;; ret (rc, phys) else
  let* req_phys := last_copy copied_buffer in
  closeDmabuf dmabuf_fd ;;; close_module kmod_fd file ;;;
  ret (0, u64 (req_phys + dmabuf_offset)).

(** ** Registering queues, quiescing *)

Definition kmodRegQueue (kmod_fd : Z) (file : ptr) (virt_addr phys_addr size queue_type nvme_bdf prp2 : Z)
    : HostM Z :=
  if (kmod_fd <? 0) || is_null virt_addr || (size =? 0) then ret (- EINVAL) else
  let* rc := ioctl file (Call_register_queue_addr (Some
    {| rq_virt_addr := virt_addr; rq_phys_addr := phys_addr; rq_size := size; rq_queue_type := queue_type;
       rq_nvme_bdf := nvme_bdf; rq_prp2 := prp2 |})) in
  ret (if rc <? 0 then rc else 0).

(** Both directions: open the namespace, issue the ioctl, close it. *)
Definition on_namespace (kmod_fd : Z) (file : ptr) (c : option rocm_xio_quiesce_ns_req -> ioctl_call) (qid : Z)
    : HostM Z :=
  if kmod_fd <? 0 then ret (- EINVAL) else
  let* bdev_fd := open NamespaceDevice in
  if bdev_fd <? 0 then ret bdev_fd else
  let* rc := ioctl file (c (Some {| qn_bdev_fd := bdev_fd; qn_qid := qid |})) in
  close bdev_fd ;;;
  ret (if rc <? 0 then rc else 0).
Definition xioQuiesceNvmeNamespace (kmod_fd : Z) (file : ptr) (qid : Z) : HostM Z :=
  on_namespace kmod_fd file Call_quiesce_ns qid.
Definition xioUnquiesceNvmeNamespace (kmod_fd : Z) (file : ptr) (qid : Z) : HostM Z :=
  on_namespace kmod_fd file Call_unquiesce_ns qid.

(** [openDeviceWithRetry]: at most [max_retries] attempts while the device is
    busy; the descriptor, or the negated errno of the last attempt. *)
Definition EAGAIN : Z := 11.
Fixpoint open_retry (path : host_path) (attempts : nat) (last : Z) : HostM Z :=
  match attempts with
  | O => ret last
  | S n =>
      let* fd := open path in
      if (0 <=? fd) || negb (fd =? - EAGAIN) then ret fd else open_retry path n fd
  end.
Definition openDeviceWithRetry (path : host_path) (max_retries : Z) : HostM Z :=
  open_retry path (Z.to_nat (if max_retries <=? 0 then 5 else max_retries)) (-1).

(** ** The shadow buffer of the MMIO bridge *)

(** The descriptor stays open. *)
Definition mapMmioBridgeShadowBuffer (bridge_bdf : Z) : HostM (Z * ptr) :=
  let* '(kmod_fd, file) := open_module in
  if kmod_fd <? 0 then ret (kmod_fd, NULL) else
  let* rc := ioctl file (Call_get_mmio_bridge_shadow_buffer (Some
    {| mb_bridge_bdf := bridge_bdf; mb_shadow_gpa := 0; mb_shadow_size := 0 |})) in
  if rc <? 0 then close_module kmod_fd file ;;; ret (rc, NULL) else
  let* '(gpa, size) := last_copy copied_shadow in
  if gpa =? 0 then close_module kmod_fd file ;;; ret (- EINVAL, NULL) else
  let* '(rc, mapped) := mmap_module kmod_fd file size 0 in
  if rc <? 0 then close_module kmod_fd file ;;; ret (rc, NULL) else
  ret (0, mapped).
End HostModule.

(** ** Symbolic execution across the module *)

Ltac ksettle :=
  repeat match goal with
  | A : after ?s ?s1 ?S ?V, B : became ?s1 ?s2 _ _ _ |- _ =>
      rewrite ?(af_held _ _ _ _ A), ?(af_vmem _ _ _ _ A), ?(af_kernel _ _ _ _ A) in *;
      apply (after_became _ _ _ _ _ _ _ _ A) in B; clear A
  | B : became ?s ?s1 ?S ?V ?K, A : after ?s1 ?s2 _ _ |- _ =>
      rewrite ?(bc_held _ _ _ _ _ B), ?(bc_vmem _ _ _ _ _ B) in *;
      apply (became_after _ _ _ _ _ _ _ _ B) in A; clear B
  | B : became ?s ?s1 ?S ?V ?K, A : became ?s1 ?s2 _ _ _ |- _ =>
      rewrite ?(bc_held _ _ _ _ _ B), ?(bc_vmem _ _ _ _ _ B), ?(bc_kernel _ _ _ _ _ B) in *;
      apply (became_trans _ _ _ _ _ _ _ _ _ B) in A; clear B
  end.

(** What is given back is held. *)
Ltac is_held_k :=
  match goal with B : became _ ?s1 _ _ _ |- _ ∈ ho_held ?s1 => rewrite (bc_held _ _ _ _ _ B) end; set_solver.

Lemma undo_one (a : host_res) (S : gset host_res) : a ∉ S -> ({[ a ]} ∪ S) ∖ {[ a ]} = S.
Proof. set_solver. Qed.
Lemma undo_two (a b : host_res) (S : gset host_res) : a ∉ S -> b ∉ S -> ({[ b ]} ∪ ({[ a ]} ∪ S)) ∖ {[ a ]} ∖ {[ b ]} = S.
Proof. set_solver. Qed.

Section ModuleCalls.
Context {K : Kernel} {KO : KernelOk K} {E : HostEnv} {EO : HostEnvOk E}.

(** The process and the module are as before, but for the module's history,
    which has released all it acquired. *)
Record host_settled (s s' : host) : Prop := {
  hs_held : ho_held s' = ho_held s;
  hs_vmem : ho_vmem s' = ho_vmem s;
  hs_bad : ho_bad s' = ho_bad s;
  hs_mod : settled (ks_mod (ho_kernel s)) (ks_mod (ho_kernel s'));
  hs_files : ks_files (ho_kernel s') = ks_files (ho_kernel s);
  hs_maps : ks_vmas (ho_kernel s') = ks_vmas (ho_kernel s)
}.

(** The same, but holding [S]. *)
Record left_with (s s' : host) (S : gset host_res) : Prop := {
  lw_held : ho_held s' = S;
  lw_vmem : ho_vmem s' = ho_vmem s;
  lw_bad : ho_bad s' = ho_bad s;
  lw_mod : settled (ks_mod (ho_kernel s)) (ks_mod (ho_kernel s'));
  lw_files : ks_files (ho_kernel s') = ks_files (ho_kernel s);
  lw_maps : ks_vmas (ho_kernel s') = ks_vmas (ho_kernel s)
}.

Lemma left_settled s s' : left_with s s' (ho_held s) -> host_settled s s'.
Proof. by intros []. Qed.
Lemma settled_left s s' : host_settled s s' -> left_with s s' (ho_held s).
Proof. by intros []. Qed.
Lemma after_left s s' S : after s s' S (ho_vmem s) -> left_with s s' S.
Proof. intros [? ? ? Hk]. split; try done; rewrite Hk; [apply settled_refl|done|done]. Qed.
Lemma left_trans s s1 s2 S S' : left_with s s1 S -> left_with s1 s2 S' -> left_with s s2 S'.
Proof. intros [] []. split; try congruence. by eapply settled_trans. Qed.
Lemma left_eq s s' S S' : left_with s s' S -> S = S' -> left_with s s' S'.
Proof. by intros ? <-. Qed.
(** After what [left_with] allows, a call. *)
Lemma left_after s s1 s2 S S' : left_with s s1 S -> after s1 s2 S' (ho_vmem s1) -> left_with s s2 S'.
Proof. intros H A%after_left. by eapply left_trans. Qed.

(** The file behind a new descriptor is new. *)
Definition new_files (s : host) : Prop :=
  forall v, ks_files (ho_kernel s) !! he_file v = None /\ owns_nothing (he_file v) (ks_mod (ho_kernel s)).

(** With one more file open. *)
Definition opened (f : ptr) (m : xio_state) (k : kernel_side) : kernel_side :=
  {| ks_mod := m; ks_files := <[f := 1]> (ks_files k); ks_vmas := ks_vmas k; ks_admin := ks_admin k |}.
(** With it closed again. *)
Definition closed (m : xio_state) (k : kernel_side) : kernel_side :=
  {| ks_mod := m; ks_files := ks_files k; ks_vmas := ks_vmas k; ks_admin := ks_admin k |}.

Lemma became_settled s s' m :
  became s s' (ho_held s) (ho_vmem s) (closed m (ho_kernel s)) -> settled (ks_mod (ho_kernel s)) m -> host_settled s s'.
Proof. intros [H1 H2 H3 H4] Hm. split; try done; by rewrite H4. Qed.

Lemma file_get_new f s (Q : unit -> host -> Prop) :
  ks_files (ho_kernel s) !! f = None ->
  (forall s', became s s' (ho_held s) (ho_vmem s) (opened f (ks_mod (ho_kernel s)) (ho_kernel s)) -> Q tt s') ->
  wp (file_get f) Q s.
Proof.
  intros Hf HQ. unfold file_get. apply wp_set_kernel. intros s' B _. apply HQ.
  unfold with_files in B. by rewrite Hf in B.
Qed.

(** The last reference goes: the file is released. *)
Lemma file_put_last f m k s (P : Z -> xio_state -> Prop) (Q : unit -> host -> Prop) :
  ho_kernel s = opened f m k -> ks_files k !! f = None ->
  wp (rocm_xio_release f) P m ->
  (forall rc m' s', P rc m' -> became s s' (ho_held s) (ho_vmem s) (closed m' k) -> Q tt s') ->
  wp (file_put f) Q s.
Proof.
  intros Hk Hf Hm HQ. unfold file_put. apply wp_bind, wp_gets. cbv beta. rewrite Hk. cbn [ks_files opened].
  rewrite lookup_insert_eq. cbn [default Z.leb Z.compare Pos.compare Pos.compare_cont].
  apply wp_bind, wp_set_kernel. intros s1 B1 _. apply wp_bind.
  rewrite Hk in B1. unfold with_files, opened in B1. cbn [ks_files ks_mod ks_vmas ks_admin] in B1.
  rewrite delete_insert_id in B1 by done.
  eapply wp_in_module; [rewrite (bc_kernel _ _ _ _ _ B1); exact Hm|].
  intros rc m' s2 HP B2 _. apply wp_ret. apply (HQ rc m'); [done|]. ksettle. exact B2.
Qed.

(** Opening the module's device. *)
Lemma open_module_spec s (Q : Z * ptr -> host -> Prop) :
  new_files s ->
  (forall fd s', fd < 0 -> after s s' (ho_held s) (ho_vmem s) -> Q (fd, NULL) s') ->
  (forall fd f s', 0 <= fd -> RFd fd ∉ ho_held s -> ks_files (ho_kernel s) !! f = None ->
     owns_nothing f (ks_mod (ho_kernel s)) ->
     became s s' ({[ RFd fd ]} ∪ ho_held s) (ho_vmem s) (opened f (ks_mod (ho_kernel s)) (ho_kernel s)) ->
     Q (fd, f) s') ->
  wp open_module Q s.
Proof using EO.
  intros Hnew H1 H2. unfold open_module, new_file. apply wp_bind, wp_open.
  - intros fd s1 Hfd Hn A1 _. rewrite (proj2 (Z.ltb_ge _ _) Hfd). apply wp_bind, wp_bind, wp_consult.
    intros s2 A2 _. settle. destruct (Hnew (view s1)) as [Hf Ho].
    apply wp_bind, file_get_new; [by rewrite (af_kernel _ _ _ _ A2)|]. intros s3 B3. apply wp_ret, wp_ret.
    ksettle. by apply (H2 fd (he_file (view s1))).
  - intros fd s1 Hfd A1 _. rewrite (proj2 (Z.ltb_lt _ _) Hfd). apply wp_ret. by apply H1.
Qed.

Lemma closeDmabuf_spec fd s (Q : unit -> host -> Prop) :
  0 <= fd -> RDmabuf fd ∈ ho_held s ->
  (forall s', after s s' (ho_held s ∖ {[ RDmabuf fd ]}) (ho_vmem s) -> Q tt s') -> wp (closeDmabuf fd) Q s.
Proof using Type.
  intros Hfd Hin HQ. unfold closeDmabuf. rewrite (proj2 (Z.ltb_ge _ _) Hfd). apply wp_give_back; auto.
Qed.

Lemma exportDmabuf_spec p size flags fd offset s (Q : Z * Z * Z -> host -> Prop) :
  (forall st fd' off s', st <> 0 -> after s s' (ho_held s) (ho_vmem s) -> Q (st, fd', off) s') ->
  (forall fd' off s', 0 <= fd' -> RDmabuf fd' ∉ ho_held s ->
     after s s' ({[ RDmabuf fd' ]} ∪ ho_held s) (ho_vmem s) -> Q (0, fd', off) s') ->
  wp (exportDmabuf p size flags fd offset) Q s.
Proof using EO.
  intros H1 H2. unfold exportDmabuf. destruct (_ || _); [apply wp_ret; apply H1; [done|apply after_refl]|].
  apply wp_bind, wp_consult. intros s1 A1 _. destruct (he_hsa_export_dmabuf _ _ _ _) as [[st fd'] off] eqn:Ee.
  destruct (Z.eqb_spec st 0) as [->|Hst]; [|apply wp_ret; by apply H1].
  destruct (he_dmabuf_fresh _ _ _ _ _ _ Ee) as [Hfd Hn].
  apply wp_bind, wp_acquire. intros s2 A2 _. settle. apply wp_ret. by apply H2.
Qed.

(** A buffer registered through a file, and the file's release. *)
Lemma register_then_release f req s :
  owns_nothing f s -> listed_ok s ->
  wp (rocm_xio_ioctl f (Call_register_buffer (Some req)))
    (fun _ m => wp (rocm_xio_release f) (fun _ m' => settled s m') m) s.
Proof using KO.
  intros Ho Hl. cbn [rocm_xio_ioctl].
  pose proof (register_buffer_touches f (Some req) s PUaf eq_refl) as Hu. cbn [part_same] in Hu.
  destruct (ioctl_register_buffer f (Some req) s) as [rc m] eqn:Em. cbn [snd] in Hu.
  pose proof (wp_run _ _ _ _ _ (register_buffer_core f req s) Em) as (tr & Hc).
  assert (forall Q : Z -> xio_state -> Prop, Q rc m -> wp (ioctl_register_buffer f (Some req)) Q s) as Hrun
    by (intros Q HQ; unfold wp; by rewrite Em).
  apply Hrun. clear Hrun Em. destruct Hc as [(_ & -> & Hh)|(_ & p & x & z & a & -> & He & Hh)].
  - apply (wp_mono _ (fun _ m' => m' = set_trace (fun _ => tr) s)).
    + unfold wp. rewrite (release_nothing f (set_trace (fun _ => tr) s)); [done|by destruct Ho; split|done].
    + intros _ m' ->. exists tr, (cs_next_id (st_contig s)).
      split_and!; [by destruct s as [? ? ? []]|done|intros; change (uaf_free tr = uaf_free (st_trace s)) in Hu; congruence].
  - eapply wp_mono; [by apply release_one_buffer|]. intros _ m' (_ & tr' & -> & Ht & Hut).
    exists tr', (cs_next_id (st_contig s)). split_and!; [by destruct s as [? ? ? []]| |].
    + intros r. rewrite Ht, Hh. lia.
    + intros Hs. apply Hut. change (uaf_free tr = uaf_free (st_trace s)) in Hu. congruence.
Qed.

(** The descriptor and then the file's last reference. *)
Lemma close_module_spec kfd f m k s (P : Z -> xio_state -> Prop) (Q : unit -> host -> Prop) :
  RFd kfd ∈ ho_held s -> ho_kernel s = opened f m k -> ks_files k !! f = None ->
  wp (rocm_xio_release f) P m ->
  (forall rc m' s', P rc m' -> became s s' (ho_held s ∖ {[ RFd kfd ]}) (ho_vmem s) (closed m' k) -> Q tt s') ->
  wp (close_module kfd f) Q s.
Proof using Type.
  intros Hin Hk Hf Hm HQ. unfold close_module, close. apply wp_bind, wp_give_back; [done|]. intros s1 A1 _.
  eapply file_put_last; [by rewrite (af_kernel _ _ _ _ A1)|done|exact Hm|].
  intros rc m' s2 HP B2. apply (HQ rc m'); [done|]. ksettle. exact B2.
Qed.

Lemma close_both {A} (r : A) fd kfd f m s0 s :
  0 <= fd -> RDmabuf fd ∉ ho_held s0 -> RFd kfd ∉ ho_held s0 -> ks_files (ho_kernel s0) !! f = None ->
  became s0 s ({[ RFd kfd ]} ∪ ({[ RDmabuf fd ]} ∪ ho_held s0)) (ho_vmem s0) (opened f m (ho_kernel s0)) ->
  wp (rocm_xio_release f) (fun _ m' => settled (ks_mod (ho_kernel s0)) m') m ->
  wp (closeDmabuf fd ;;; close_module kfd f ;;; ret r) (fun _ s' => host_settled s0 s') s.
Proof using KO EO.
  intros Hfd Hd Hk Hf B Hm. apply wp_bind, closeDmabuf_spec; [done|is_held_k|]. intros s1 A1. ksettle.
  apply wp_bind. eapply close_module_spec; [is_held_k|by apply A1|done|exact Hm|].
  intros rc m' s2 Hs B2. cbv beta in Hs. ksettle. apply wp_ret. eapply became_settled; [|exact Hs].
  eapply became_eq; [eassumption|]. by apply undo_two.
Qed.

Lemma exportRegVramBuf_spec p size bdf emulated phys s :
  new_files s -> listed_ok (ks_mod (ho_kernel s)) ->
  wp (exportRegVramBuf p size bdf emulated phys) (fun _ s' => host_settled s s') s.
Proof.
  intros Hnew Hl. unfold exportRegVramBuf.
  assert (forall s', after s s' (ho_held s) (ho_vmem s) -> host_settled s s') as Hsame.
  { intros s' A. eapply became_settled; [|apply settled_refl]. destruct A. split; try done. by destruct (ho_kernel s). }
  destruct (is_null p || (size =? 0)); [apply wp_ret, Hsame, after_refl|].
  apply wp_bind, exportDmabuf_spec.
  { intros st fd off s1 Hst A1. unfold HSA_STATUS_SUCCESS. rewrite (proj2 (Z.eqb_neq _ _) Hst). apply wp_ret. auto. }
  intros fd off s1 Hfd Hn A1. cbn [Z.eqb negb HSA_STATUS_SUCCESS].
  assert (ho_kernel s1 = ho_kernel s) as Hk by apply A1.
  apply wp_bind, open_module_spec; [intros v; rewrite Hk; apply Hnew|..].
  { intros kfd s2 Hkfd A2. rewrite (proj2 (Z.ltb_lt _ _) Hkfd). settle. apply wp_bind, closeDmabuf_spec; [done|is_held|].
    intros s3 A3. apply wp_ret, Hsame. settle. eapply after_eq; [eassumption|]. set_solver. }
  intros kfd f s2 Hkfd Hnk Hnf Ho B2. rewrite (proj2 (Z.ltb_ge _ _) Hkfd).
  rewrite Hk, (af_held _ _ _ _ A1), (af_vmem _ _ _ _ A1) in *.
  apply wp_bind. unfold ioctl. eapply wp_in_module.
  { rewrite (bc_kernel _ _ _ _ _ B2). by apply register_then_release. }
  intros rc m s3 Hm B3 _. cbv beta in Hm.
  assert (became s s3 ({[ RFd kfd ]} ∪ ({[ RDmabuf fd ]} ∪ ho_held s)) (ho_vmem s) (opened f m (ho_kernel s))) as B.
  { ksettle. exact B3. }
  assert (RFd kfd ∉ ho_held s) as Hnk' by set_solver.
  destruct (rc <? 0); [by eapply close_both|]. unfold last_copy. apply wp_bind, wp_gets. by eapply close_both.
Qed.
(** Exporting GPU memory leaves no registration behind.  On every
    path, success included, [exportRegVramBuf] ends with the process holding
    what it held and the module's tables as they were, every reference
    acquired on the way (the buffer's attachment, pin and mapping among them)
    released: the file the buffer is registered through is closed before the
    function returns, so the bus address it reports is of a mapping that is
    already gone. *)
Theorem export_leaves_nothing p size bdf emulated phys s :
  new_files s -> listed_ok (ks_mod (ho_kernel s)) ->
  wp (exportRegVramBuf p size bdf emulated phys) (fun _ s' => host_settled s s') s.
Proof. apply exportRegVramBuf_spec. Qed.
End ModuleCalls.

Lemma idle_new_files `{HostEnv} : new_files (idle_host state0).
Proof. intros v. split; [done|]. split; cbn; by intros ? ?%elem_of_nil. Qed.

Lemma state0_listed : listed_ok state0.
Proof. by intros p ?%elem_of_nil. Qed.

(** A passthrough controller: the export succeeds, and its ledger is even. *)
Lemma export_leaves_nothing_witness :
  let run := exportRegVramBuf (K := demo_kernel) (E := demo_host true (fun _ => true) (fun _ => 0))
               1048576 8192 34048 false 0 in
  fst (run (idle_host state0)) = (0, 4294967296) /\
  wp run (fun _ s' => ho_held s' = ∅ /\ st_vram_buffers (ks_mod (ho_kernel s')) = []) (idle_host state0).
Proof.
  split; [by vm_compute|].
  eapply wp_mono; [apply (export_leaves_nothing (K := demo_kernel) (EO := demo_host_ok _ _ _));
    [apply idle_new_files|apply state0_listed]|].
  intros _ s' [Hh _ _ (tr & n & Hm & _) _ _]. split; [exact Hh|]. by rewrite Hm.
Defined.
