(* ===== verification/HostContig.v ===== *)
(** * Queues in contiguous DMA memory

    [setupContigQueueForGpu] and [freeContigQueue] of
    [src/src/common/xio-common.hip]: a queue the kernel module allocates, the
    process maps and the GPU registers.  The descriptor the allocation was
    made through is closed at once; the mapping keeps the file, and with it
    the memory, until the queue is freed. *)

From S2P Require Import Prelude Uapi Kernel State Demo QueueReg BufferReg Contig Quiesce Frame Driver FileLife HostEnv HostDemo HostMem HostModule.

Record xioQueueSetup := {
  qs_virt : ptr; qs_gpu : ptr; qs_phys : Z; qs_uses_coherent : bool; qs_prp_list : ptr;
  qs_prp_list_phys : Z; qs_prp2 : Z; qs_uses_contig : bool; qs_contig_id : Z
}.

Definition no_setup : xioQueueSetup :=
  {| qs_virt := NULL; qs_gpu := NULL; qs_phys := 0; qs_uses_coherent := false; qs_prp_list := NULL;
     qs_prp_list_phys := 0; qs_prp2 := 0; qs_uses_contig := false; qs_contig_id := 0 |}.

Section HostContig.
Context {K : Kernel} {E : HostEnv}.

(** The first GPU; an agent whose query fails is passed over. *)
Definition is_gpu (a : hsa_agent) : bool := match ag_is_gpu a with Some b => b | None => false end.
Definition first_gpu (l : list hsa_agent) : Z :=
  match find_first is_gpu l with Some a => ag_handle a | None => 0 end.

(** Registered with HIP, or locked with HSA where that fails. *)
Definition register_for_gpu (mapped size : Z) : HostM ptr :=
  let* rc := hipHostRegister mapped size in
  if rc =? 0 then
    let* '(rc, gpu_ptr) := hipHostGetDevicePointer mapped in
    if rc =? 0 then ret gpu_ptr else hipHostUnregister mapped ;;; ret NULL
  else ret NULL.
Definition lock_for_gpu (mapped size : Z) : HostM (Z * ptr) :=
  let* status := consult he_hsa_init in
  if negb (status =? HSA_STATUS_SUCCESS) && negb (status =? 4097) then ret (- EIO, NULL) else
  let* agents := consult he_hsa_agents in
  if first_gpu agents =? 0 then ret (- ENODEV, NULL) else
  let* '(status, gpu_ptr) := hsa_amd_memory_lock mapped size in
  ret (if status =? HSA_STATUS_SUCCESS then (0, gpu_ptr) else (- EIO, NULL)).

Definition gpu_pointer (mapped size : Z) : HostM (Z * ptr) :=
  let* gpu_ptr := register_for_gpu mapped size in
  if is_null gpu_ptr then lock_for_gpu mapped size else ret (0, gpu_ptr).

(** Giving the allocation up. *)
Definition abandon_contig (kmod_fd : Z) (file : ptr) (id rc : Z) : HostM (Z * xioQueueSetup) :=
  ioctl file (Call_free_contig_queue (Some {| fc_mmap_offset := id |})) ;;;
  close_module kmod_fd file ;;; ret (rc, no_setup).

Definition setupContigQueueForGpu (size nvme_bdf : Z) : HostM (Z * xioQueueSetup) :=
  if size =? 0 then ret (- EINVAL, no_setup) else
  let* kmod_fd := openDeviceWithRetry ModuleDevice 5 in
  if kmod_fd <? 0 then ret (- EIO, no_setup) else
  let* file := new_file in
  let* rc := ioctl file (Call_alloc_contig_queue (Some
    {| ac_size := size; ac_nvme_bdf := nvme_bdf; ac_phys_addr := 0; ac_mmap_offset := 0 |})) in
  if rc <? 0 then close_module kmod_fd file ;;; ret (rc, no_setup) else
  let* '(phys_addr, id) := last_copy copied_contig in
  if he_page_size <=? 0 then abandon_contig kmod_fd file id (-1) else
  let* '(rc, mapped) := mmap_module kmod_fd file size id in
  if rc <? 0 then abandon_contig kmod_fd file id rc else
  memset0 mapped size ;;;
  let* '(rc, gpu_ptr) := gpu_pointer mapped size in
  if rc <? 0 then munmap_module mapped size ;;; abandon_contig kmod_fd file id rc else
  close_module kmod_fd file ;;;
  ret (0, {| qs_virt := mapped; qs_gpu := gpu_ptr; qs_phys := phys_addr; qs_uses_coherent := false;
             qs_prp_list := NULL; qs_prp_list_phys := 0; qs_prp2 := 0; qs_uses_contig := true;
             qs_contig_id := id |}).

Definition unregister_from_gpu (virt : ptr) : HostM unit :=
  let* err := hipHostUnregister virt in
  if err =? 0 then ret tt else hsa_amd_memory_unlock virt.

Definition freeContigQueue (q : xioQueueSetup) (size : Z) : HostM xioQueueSetup :=
  if negb (qs_uses_contig q) then ret q else
  (if negb (is_null (qs_gpu q)) && negb (is_null (qs_virt q)) then unregister_from_gpu (qs_virt q) else ret tt) ;;;
  (if negb (is_null (qs_virt q)) then munmap_module (qs_virt q) size else ret tt) ;;;
  ret {| qs_virt := NULL; qs_gpu := NULL; qs_phys := 0; qs_uses_coherent := qs_uses_coherent q;
         qs_prp_list := qs_prp_list q; qs_prp_list_phys := qs_prp_list_phys q; qs_prp2 := qs_prp2 q;
         qs_uses_contig := false; qs_contig_id := 0 |}.

(** A client that sets a queue up and frees it. *)
Definition use_contig_queue (size nvme_bdf : Z) : HostM bool :=
  let* '(rc, q) := setupContigQueueForGpu size nvme_bdf in
  if rc <? 0 then ret false else freeContigQueue q size ;;; ret true.
End HostContig.

(** ** The file and its mapping *)

(** The file's references and its mapping at [p]. *)
Definition with_mapping (f : ptr) (n p : Z) (m : xio_state) (k : kernel_side) : kernel_side :=
  {| ks_mod := m; ks_files := <[f := n]> (ks_files k); ks_vmas := <[p := (p, f)]> (ks_vmas k);
     ks_admin := ks_admin k |}.

(** The process knows of every mapping of the module's files and of every
    registration: they are of memory it holds. *)
Record maps_known (s : host) : Prop := {
  mk_vmas : forall p, fresh (ho_held s) p -> cs_vmas (st_contig (ks_mod (ho_kernel s))) !! p = None;
  mk_maps : forall p, fresh (ho_held s) p -> ks_vmas (ho_kernel s) !! p = None;
  mk_registered : forall p, fresh (ho_held s) p -> RRegistered p ∉ ho_held s;
  mk_locked : forall p, fresh (ho_held s) p -> (RLocked p) ∉ ho_held s
}.

Section ContigCalls.
Context {K : Kernel} {KO : KernelOk K} {E : HostEnv} {EO : HostEnvOk E}.

Lemma ioctl_wp f c m k s (P : Z -> xio_state -> Prop) (Q : Z -> host -> Prop) :
  ho_kernel s = opened f m k -> wp (rocm_xio_ioctl f c) P m ->
  (forall rc m' s', P rc m' -> became s s' (ho_held s) (ho_vmem s) (opened f m' k) -> Q rc s') ->
  wp (ioctl f c) Q s.
Proof using Type.
  intros Hk Hm HQ. unfold ioctl. eapply wp_in_module; [rewrite Hk; exact Hm|].
  intros rc m' s' HP B _. apply (HQ rc m'); [done|]. by rewrite Hk in B.
Qed.

(** The states a queue's file goes through, from [k]. *)
Lemma mmap_module_spec kfd f ca tr m k s size (Q : Z * ptr -> host -> Prop) :
  ho_kernel s = opened f (linked m ca 1 None tr) k -> new_object m ca tr -> ca_owner ca = f ->
  0 < ca_id ca < 4294967296 -> 0 <= page_up size < 18446744073709551616 ->
  (forall rc tr' s', rc < 0 -> new_object m ca tr' ->
     became s s' (ho_held s) (ho_vmem s) (opened f (linked m ca 1 None tr') k) -> Q (rc, NULL) s') ->
  (forall p tr' s', fresh (ho_held s) p -> page_up size <= ca_size ca -> new_object m ca tr' ->
     tr' = EvDmaMmap (ca_pdev ca) p 0 (ca_cpu_addr ca) (ca_dma_addr ca) (page_up size) :: tr ->
     became s s' ({[ RMapping p size ]} ∪ ho_held s) (ho_vmem s) (with_mapping f 2 p (linked m ca 2 (Some p) tr') k) ->
     Q (0, p) s') ->
  wp (mmap_module kfd f size (ca_id ca)) Q s.
Proof using KO EO.
  intros Hk Hn Ho Hid Hsz H1 H2. unfold mmap_module. apply wp_bind, wp_mmap.
  2:{ intros s1 A1 _. apply wp_ret, (H1 (- ENOMEM) tr); [done..|]. destruct A1. split; congruence. }
  intros p s1 Hp A1 _. apply wp_bind. eapply wp_in_module.
  { rewrite (af_kernel _ _ _ _ A1), Hk. cbn [opened ks_mod].
    apply (mmap_linked m ca tr _ (page_up size)); cbn [vm_file vm_pgoff vm_start vm_end]; try done. lia. }
  intros rc m' s2 [(Hrc & tr' & -> & Hn')|(-> & Hle & tr' & Htr & -> & Hn')] B2 _; ksettle; rewrite Hk in B2.
  - rewrite (proj2 (Z.ltb_lt _ _) Hrc). apply wp_bind. unfold munmap. apply wp_give_back; [is_held_k|].
    intros s3 A3 _. ksettle. apply wp_ret, (H1 rc tr'); [done..|].
    eapply became_eq; [eassumption|]. apply undo_one. by apply (fresh_not_in _ _ _ _ Hp).
  - cbn [Z.ltb Z.compare vma_id]. apply wp_bind. unfold file_get. apply wp_set_kernel. intros s3 B3 _. ksettle.
    apply wp_bind, wp_set_kernel. intros s4 B4 _. ksettle. apply wp_ret, (H2 p tr'); [done..|].
    unfold with_files, with_maps, with_mod, opened in B4.
    cbn [ks_mod ks_files ks_vmas ks_admin] in B4. rewrite lookup_insert_eq in B4. cbn [default] in B4.
    by rewrite insert_insert_eq in B4.
Qed.

(** Unmapping while the descriptor is still open, and after it is closed. *)
Lemma munmap_module_spec f n ca tr m k p s size (Q : unit -> host -> Prop) :
  RMapping p size ∈ ho_held s ->
  ho_kernel s = with_mapping f n p (linked m ca 2 (Some p) tr) k ->
  cs_vmas (st_contig m) !! p = None -> ks_vmas k !! p = None -> ks_files k !! f = None ->
  owns_nothing f m -> listed_ok m -> new_object m ca tr -> ca_owner ca = f -> n = 1 \/ n = 2 ->
  (forall s', n = 2 -> became s s' (ho_held s ∖ {[ RMapping p size ]}) (ho_vmem s) (opened f (linked m ca 1 None tr) k) ->
     Q tt s') ->
  (forall s', n = 1 -> became s s' (ho_held s ∖ {[ RMapping p size ]}) (ho_vmem s) (closed (freed m ca tr) k) ->
     Q tt s') ->
  wp (munmap_module p size) Q s.
Proof using KO EO.
  intros Hin Hk Hv Hks Hf Hon Hl Hn Ho Hcase H2 H1. unfold munmap_module. apply wp_bind. unfold munmap.
  apply wp_give_back; [done|]. intros s1 A1 _. apply wp_bind, wp_gets. cbv beta.
  rewrite (af_kernel _ _ _ _ A1), Hk. cbn [ks_vmas with_mapping]. rewrite lookup_insert_eq.
  apply wp_bind, wp_set_kernel. intros s2 B2 _. ksettle. rewrite Hk in B2.
  unfold with_maps, with_mapping in B2. cbn [ks_mod ks_files ks_vmas ks_admin] in B2.
  rewrite delete_insert_id in B2 by done.
  apply wp_bind. eapply (wp_in_module _ (fun _ m' => m' = linked m ca 1 None tr)).
  { rewrite (bc_kernel _ _ _ _ _ B2). cbn [ks_mod]. unfold wp. by rewrite close_linked. }
  intros _ m' s3 -> B3 _. ksettle. unfold with_mod in B3. cbn [ks_mod ks_files ks_vmas ks_admin] in B3.
  destruct Hcase as [-> | ->].
  - eapply (file_put_last f (linked m ca 1 None tr) k _ (fun _ m' => m' = freed m ca tr));
      [apply B3|done|unfold wp; by rewrite release_linked|].
    intros rc m' s4 -> B4. ksettle. by apply H1.
  - unfold file_put. apply wp_bind, wp_gets. cbv beta. rewrite (bc_kernel _ _ _ _ _ B3). cbn [ks_files].
    rewrite lookup_insert_eq. cbn [default]. change (2 <=? 1) with false. apply wp_set_kernel.
    intros s4 B4 _. ksettle. apply H2; [done|]. unfold with_files in B4. cbn [ks_mod ks_files ks_vmas ks_admin] in B4.
    by rewrite insert_insert_eq in B4.
Qed.

(** Closing the descriptor of a mapped file. *)
Lemma close_mapped kfd f p m k s (Q : unit -> host -> Prop) :
  RFd kfd ∈ ho_held s -> ho_kernel s = with_mapping f 2 p m k ->
  (forall s', became s s' (ho_held s ∖ {[ RFd kfd ]}) (ho_vmem s) (with_mapping f 1 p m k) -> Q tt s') ->
  wp (close_module kfd f) Q s.
Proof using Type.
  intros Hin Hk HQ. unfold close_module, close. apply wp_bind, wp_give_back; [done|]. intros s1 A1 _.
  unfold file_put. apply wp_bind, wp_gets. cbv beta. rewrite (af_kernel _ _ _ _ A1), Hk. cbn [ks_files with_mapping].
  rewrite lookup_insert_eq. cbn [default]. change (2 <=? 1) with false. apply wp_set_kernel.
  intros s2 B2 _. ksettle. rewrite Hk in B2. apply HQ. unfold with_files in B2.
  cbn [ks_mod ks_files ks_vmas ks_admin with_mapping] in B2. by rewrite insert_insert_eq in B2.
Qed.

Lemma abandon_spec kfd f ca tr m k s rc (Q : Z * xioQueueSetup -> host -> Prop) :
  RFd kfd ∈ ho_held s -> ho_kernel s = opened f (linked m ca 1 None tr) k -> ks_files k !! f = None ->
  owns_nothing f m -> listed_ok m -> new_object m ca tr -> ca_owner ca = f ->
  (forall s', became s s' (ho_held s ∖ {[ RFd kfd ]}) (ho_vmem s) (closed (freed m ca tr) k) -> Q (rc, no_setup) s') ->
  wp (abandon_contig kfd f (ca_id ca) rc) Q s.
Proof using KO EO.
  intros Hin Hk Hf Hon Hl Hn Ho HQ. unfold abandon_contig. apply wp_bind.
  eapply (ioctl_wp _ _ _ _ _ (fun _ m' => m' = freed m ca tr)); [exact Hk| |].
  { cbn [rocm_xio_ioctl]. unfold wp. by rewrite (free_linked m ca tr f). }
  intros rc' m' s1 -> B1. apply wp_bind.
  pose proof (freed_settled m ca tr Hn) as Hs.
  eapply (close_module_spec _ _ _ _ _ (fun _ m' => m' = freed m ca tr)); [is_held_k|apply B1|done| |].
  { unfold wp. rewrite release_nothing; [done|by eapply settled_owns_nothing|by eapply settled_listed]. }
  intros rc'' m'' s2 -> B2. ksettle. apply wp_ret. by apply HQ.
Qed.

Lemma open_retry_spec path n last s (Q : Z -> host -> Prop) :
  last < 0 ->
  (forall fd s', 0 <= fd -> RFd fd ∉ ho_held s -> after s s' ({[ RFd fd ]} ∪ ho_held s) (ho_vmem s) -> Q fd s') ->
  (forall e s', e < 0 -> after s s' (ho_held s) (ho_vmem s) -> Q e s') ->
  wp (open_retry path n last) Q s.
Proof using EO.
  revert last s. induction n as [|n IH]; intros last s Hl H1 H2; cbn [open_retry]; [by apply wp_ret, H2; [|apply after_refl]|].
  apply wp_bind, wp_open.
  - intros fd s1 Hfd Hn A _. rewrite (proj2 (Z.leb_le _ _) Hfd). apply wp_ret. auto.
  - intros e s1 He A _. rewrite (proj2 (Z.leb_gt _ _) He). cbn [orb]. destruct (negb _); [apply wp_ret; auto|].
    apply IH; [done|..].
    + intros fd s2 Hfd Hn A2. settle. by apply H1.
    + intros e' s2 He' A2. settle. by apply H2.
Qed.

(** ** The GPU *)

Lemma register_for_gpu_spec p size s (Q : ptr -> host -> Prop) :
  (forall q s', q <> NULL -> after s s' ({[ RRegistered p ]} ∪ ho_held s) (ho_vmem s) -> Q q s') ->
  (forall s', after s s' (ho_held s) (ho_vmem s) -> Q NULL s') ->
  wp (register_for_gpu p size) Q s.
Proof using EO.
  intros H1 H2. unfold register_for_gpu. apply wp_bind, wp_hipHostRegister.
  2:{ intros rc s1 Hrc A1 _. rewrite (proj2 (Z.eqb_neq _ _) Hrc). apply wp_ret. auto. }
  intros s1 Hn A1 _. cbn [Z.eqb]. apply wp_bind, wp_consult. intros s2 A2 _.
  destruct (he_hipHostGetDevicePointer (view s1) p) as [rc q] eqn:Eq.
  destruct (Z.eqb_spec rc 0) as [->|Hrc].
  - destruct (he_device_pointer _ _ _ Eq) as [Hq _]. apply wp_ret. settle. by apply H1.
  - settle. apply wp_bind, wp_hipHostUnregister.
    + intros s3 _ A3 _. settle. apply wp_ret, H2. eapply after_eq; [eassumption|]. by apply undo_one.
    + intros rc' s3 _ Hnot _ _. destruct Hnot. rewrite (af_held _ _ _ _ A2).
      by apply elem_of_union_l, elem_of_singleton.
Qed.

Lemma lock_for_gpu_spec p size s (Q : Z * ptr -> host -> Prop) :
  (forall q s', q <> NULL -> after s s' ({[ (RLocked p) ]} ∪ ho_held s) (ho_vmem s) -> Q (0, q) s') ->
  (forall rc s', rc < 0 -> after s s' (ho_held s) (ho_vmem s) -> Q (rc, NULL) s') ->
  wp (lock_for_gpu p size) Q s.
Proof using EO.
  intros H1 H2. unfold lock_for_gpu. apply wp_bind, wp_consult. intros s1 A1 _.
  destruct (_ && _); [by apply wp_ret, H2|].
  apply wp_bind, wp_consult. intros s2 A2 _. settle. destruct (_ =? 0); [by apply wp_ret, H2|].
  apply wp_bind, wp_hsa_amd_memory_lock.
  - intros q s3 Hq _ A3 _. settle. apply wp_ret. by apply H1.
  - intros rc q s3 Hrc A3 _. settle. apply wp_ret. unfold HSA_STATUS_SUCCESS.
    rewrite (proj2 (Z.eqb_neq _ _) Hrc). by apply H2.
Qed.

(** Either way. *)
Lemma gpu_pointer_spec p size s (Q : Z * ptr -> host -> Prop) :
  (forall q r s', q <> NULL -> r = RRegistered p \/ r = (RLocked p) ->
     after s s' ({[ r ]} ∪ ho_held s) (ho_vmem s) -> Q (0, q) s') ->
  (forall rc s', rc < 0 -> after s s' (ho_held s) (ho_vmem s) -> Q (rc, NULL) s') ->
  wp (gpu_pointer p size) Q s.
Proof using EO.
  intros H1 H2. unfold gpu_pointer. apply wp_bind, register_for_gpu_spec.
  - intros q s1 Hq A1. rewrite (proj2 (Z.eqb_neq q NULL) Hq). apply wp_ret. by apply (H1 q (RRegistered p)); [|left|].
  - intros s1 A1. apply lock_for_gpu_spec.
    + intros q s2 Hq A2. settle. by apply (H1 q (RLocked p)); [|right|].
    + intros rc s2 Hrc A2. settle. by apply H2.
Qed.

Lemma unregister_spec p r s (Q : unit -> host -> Prop) :
  r = RRegistered p /\ RRegistered p ∈ ho_held s \/
  r = (RLocked p) /\ (RLocked p) ∈ ho_held s /\ RRegistered p ∉ ho_held s ->
  (forall s', after s s' (ho_held s ∖ {[ r ]}) (ho_vmem s) -> Q tt s') ->
  wp (unregister_from_gpu p) Q s.
Proof using EO.
  intros Hr HQ. unfold unregister_from_gpu. apply wp_bind, wp_hipHostUnregister.
  - intros s1 Hin A1 _. apply wp_ret, HQ. by destruct Hr as [[-> _]|(_ & _ & Hno)].
  - intros rc s1 Hrc Hno A1 _. rewrite (proj2 (Z.eqb_neq _ _) Hrc).
    destruct Hr as [[_ Hin]|(-> & Hin & _)]; [done|]. unfold hsa_amd_memory_unlock.
    apply wp_give_back; [by rewrite (af_held _ _ _ _ A1)|]. intros s2 A2 _. settle. by apply HQ.
Qed.

(** ** The whole set-up *)

(** A queue that is ready: its memory is mapped at [p], registered or locked
    for the GPU, and the mapping alone keeps its file. *)
Record contig_ready (s s' : host) (q : xioQueueSetup) (size p : Z) (f : ptr) (ca : contig_alloc_entry)
    (tr : trace) (r : host_res) : Prop := {
  cr_setup : q = {| qs_virt := p; qs_gpu := qs_gpu q; qs_phys := ca_dma_addr ca; qs_uses_coherent := false;
                    qs_prp_list := NULL; qs_prp_list_phys := 0; qs_prp2 := 0; qs_uses_contig := true;
                    qs_contig_id := ca_id ca |};
  cr_gpu : qs_gpu q <> NULL;
  cr_fresh : fresh (ho_held s) p;
  cr_res : r = RRegistered p \/ r = (RLocked p);
  cr_mapped : exists tr', tr = EvDmaMmap (ca_pdev ca) p 0 (ca_cpu_addr ca) (ca_dma_addr ca) (page_up size) :: tr';
  cr_whole : page_up size <= size;
  cr_object : new_object (ks_mod (ho_kernel s)) ca tr /\ ca_owner ca = f /\ ca_size ca = size;
  cr_file : ks_files (ho_kernel s) !! f = None /\ owns_nothing f (ks_mod (ho_kernel s));
  cr_state : became s s' ({[ r ]} ∪ ({[ RMapping p size ]} ∪ ho_held s)) (ho_vmem s)
    (with_mapping f 1 p (linked (ks_mod (ho_kernel s)) ca 2 (Some p) tr) (ho_kernel s))
}.

Definition setup_done (size : Z) (s : host) (out : Z * xioQueueSetup) (s' : host) : Prop :=
  (fst out < 0 /\ host_settled s s') \/
  (fst out = 0 /\ exists p f ca tr r, contig_ready s s' (snd out) size p f ca tr r).

(** The file is open, the object linked, nothing mapped. *)
Record contig_open (s s' : host) (fd : Z) (f : ptr) (ca : contig_alloc_entry) (tr : trace) (S : gset host_res)
    : Prop := {
  op_fd : RFd fd ∉ ho_held s;
  op_file : ks_files (ho_kernel s) !! f = None /\ owns_nothing f (ks_mod (ho_kernel s));
  op_object : new_object (ks_mod (ho_kernel s)) ca tr /\ ca_owner ca = f;
  op_held : S = {[ RFd fd ]} ∪ ho_held s;
  op_state : became s s' S (ho_vmem s) (opened f (linked (ks_mod (ho_kernel s)) ca 1 None tr) (ho_kernel s))
}.

Lemma abandon_done size fd f ca tr rc s s' S :
  contig_open s s' fd f ca tr S -> listed_ok (ks_mod (ho_kernel s)) -> rc < 0 ->
  wp (abandon_contig fd f (ca_id ca) rc) (setup_done size s) s'.
Proof using KO EO.
  intros [Hfd [Hf Ho] [Hn Hown] -> B] Hl Hrc.
  eapply abandon_spec; [rewrite (bc_held _ _ _ _ _ B); by apply elem_of_union_l, elem_of_singleton|apply B|done..|].
  intros s1 B1. ksettle. left. split; [done|]. eapply became_settled; [|by apply freed_settled].
  eapply became_eq; [eassumption|]. by apply undo_one.
Qed.

(** The last part: memory is mapped at [p]. *)
Lemma contig_register size fd f ca tr tr' p s s' id phys :
  maps_known s -> listed_ok (ks_mod (ho_kernel s)) -> fresh (ho_held s) p ->
  RFd fd ∉ ho_held s -> ks_files (ho_kernel s) !! f = None -> owns_nothing f (ks_mod (ho_kernel s)) ->
  new_object (ks_mod (ho_kernel s)) ca tr -> ca_owner ca = f -> ca_size ca = size -> page_up size <= size ->
  id = ca_id ca -> phys = ca_dma_addr ca ->
  tr = EvDmaMmap (ca_pdev ca) p 0 (ca_cpu_addr ca) (ca_dma_addr ca) (page_up size) :: tr' ->
  became s s' ({[ RMapping p size ]} ∪ ({[ RFd fd ]} ∪ ho_held s)) (ho_vmem s)
    (with_mapping f 2 p (linked (ks_mod (ho_kernel s)) ca 2 (Some p) tr) (ho_kernel s)) ->
  wp (let* '(rc, gpu_ptr) := gpu_pointer p size in
      if rc <? 0 then munmap_module p size ;;; abandon_contig fd f id rc else
      close_module fd f ;;;
      ret (0, {| qs_virt := p; qs_gpu := gpu_ptr; qs_phys := phys; qs_uses_coherent := false;
                 qs_prp_list := NULL; qs_prp_list_phys := 0; qs_prp2 := 0; qs_uses_contig := true;
                 qs_contig_id := id |})) (setup_done size s) s'.
Proof using KO EO.
  intros [Hv Hks _ _] Hl Hp Hfd Hf Ho Hn Hown Hsz Hwhole -> -> Htr B. apply wp_bind, gpu_pointer_spec.
  - intros q r s1 Hq Hr A1. ksettle. cbn [Z.ltb Z.compare]. apply wp_bind.
    eapply close_mapped; [rewrite (bc_held _ _ _ _ _ A1); set_solver|apply A1|].
    intros s2 B2. ksettle. apply wp_ret. right. split; [done|]. exists p, f, ca, tr, r.
    split; cbn [snd qs_gpu]; try done; [by exists tr'|].
    eapply became_eq; [eassumption|]. destruct Hr as [-> | ->]; set_solver.
  - intros rc s1 Hrc A1. ksettle. rewrite (proj2 (Z.ltb_lt _ _) Hrc). apply wp_bind.
    eapply munmap_module_spec;
      [rewrite (bc_held _ _ _ _ _ A1); set_solver|apply A1|by apply Hv|by apply Hks|done|done|done|done|done|by right| |done].
    intros s2 _ B2. ksettle. eapply abandon_done; [split|done|done]; [done|done|done|reflexivity|].
    eapply became_eq; [eassumption|]. pose proof (fresh_not_in _ _ KMapping size Hp eq_refl). set_solver.
Qed.

Variable tr0 : trace.
Hypothesis Hbase : forall r, 0 <= held tr0 r.

Lemma setupContig_spec size bdf s :
  new_files s -> listed_ok (ks_mod (ho_kernel s)) -> maps_known s ->
  contig_ok tr0 no_refs (ks_mod (ho_kernel s)) ->
  0 < cs_next_id (st_contig (ks_mod (ho_kernel s))) < 4294967296 ->
  0 <= page_up size < 18446744073709551616 ->
  wp (setupContigQueueForGpu size bdf) (setup_done size s) s.
Proof.
  intros Hnew Hl Hmk Hok Hid Hsz. unfold setupContigQueueForGpu.
  assert (forall rc s', rc < 0 -> after s s' (ho_held s) (ho_vmem s) -> setup_done size s (rc, no_setup) s') as Hsame.
  { intros rc s' Hrc A. left. split; [done|]. eapply became_settled; [|apply settled_refl].
    destruct A. split; try done. by destruct (ho_kernel s). }
  destruct (size =? 0); [apply wp_ret, Hsame; [done|apply after_refl]|].
  apply wp_bind, open_retry_spec; [done|..].
  2:{ intros e s1 He A1. rewrite (proj2 (Z.ltb_lt _ _) He). by apply wp_ret, Hsame. }
  intros fd s1 Hfd Hnfd A1. rewrite (proj2 (Z.ltb_ge _ _) Hfd). apply wp_bind.
  unfold new_file. apply wp_bind, wp_consult. intros s2 A2 _. settle.
  destruct (Hnew (view s1)) as [Hf Ho]. set (f := he_file (view s1)) in *. clearbody f.
  apply wp_bind, file_get_new; [by rewrite (af_kernel _ _ _ _ A2)|]. intros s3 B3. apply wp_ret. ksettle.
  apply wp_bind. eapply ioctl_wp; [apply B3|by apply (alloc_linked tr0)|].
  intros rc m s4 [(Hrc & Hset)|(-> & ca & tr & tr' & -> & Hn & Hown & Hcs & Hcid & _ & Htr)] B4; ksettle.
  { rewrite (proj2 (Z.ltb_lt _ _) Hrc). apply wp_bind.
    eapply (close_module_spec _ _ _ _ _ (fun _ m' => m' = m)); [rewrite (bc_held _ _ _ _ _ B4); set_solver|apply B4|done| |].
    { unfold wp. rewrite release_nothing; [done|by eapply settled_owns_nothing|by eapply settled_listed]. }
    intros rc' m' s5 -> B5. ksettle. apply wp_ret. left. split; [done|].
    eapply became_settled; [|exact Hset]. eapply became_eq; [eassumption|]. by apply undo_one. }
  cbn [Z.ltb Z.compare]. unfold last_copy. apply wp_bind, wp_gets. rewrite (bc_kernel _ _ _ _ _ B4).
  change (st_trace _) with tr. rewrite Htr at 1. cbn [copied_contig ac_phys_addr ac_mmap_offset].
  assert (contig_open s s4 fd f ca tr ({[ RFd fd ]} ∪ ho_held s)) as Hopen by by split.
  destruct (he_page_size <=? 0); [by eapply abandon_done|].
  apply wp_bind. eapply mmap_module_spec; [apply B4|done|done|by rewrite Hcid|done|..].
  { intros rc tr1 s5 Hrc Hn1 B5. rewrite (proj2 (Z.ltb_lt _ _) Hrc). ksettle. by eapply abandon_done; [split|..]. }
  intros p tr1 s5 Hp Hwhole Hn1 Htr1 B5. rewrite Hcs in Hwhole. cbn [ac_size] in Hwhole. ksettle. cbn [Z.ltb Z.compare]. apply wp_bind, wp_memset0.
  intros s6 A6 _. ksettle. eapply contig_register; try done.
  eapply fresh_weaken; [exact Hp|apply union_subseteq_r].
Qed.

Lemma freeContig_spec size s s1 q p f ca tr r :
  maps_known s -> listed_ok (ks_mod (ho_kernel s)) -> contig_ready s s1 q size p f ca tr r ->
  wp (freeContigQueue q size) (fun _ s' => host_settled s s') s1.
Proof using KO EO.
  clear tr0 Hbase.
  intros [Hv Hks Hr Hlk] Hl [-> Hg Hp Hres _ _ (Hn & Hown & _) (Hf & Ho) B]. cbn [qs_gpu] in Hg.
  unfold freeContigQueue. cbn [qs_uses_contig qs_gpu qs_virt negb].
  rewrite (proj2 (Z.eqb_neq (qs_gpu q) NULL) Hg), (proj2 (Z.eqb_neq p NULL) (proj1 Hp)). cbn [negb andb].
  apply wp_bind, (unregister_spec p r).
  { rewrite (bc_held _ _ _ _ _ B). destruct Hres as [-> | ->]; [left|right]; split; try done; [|split]; set_solver. }
  intros s2 A2. ksettle. apply wp_bind.
  eapply munmap_module_spec;
    [rewrite (bc_held _ _ _ _ _ A2); destruct Hres as [-> | ->]; set_solver|apply A2|by apply Hv|by apply Hks
    |done|done|done|done|done|by left|done|].
  intros s3 _ B3. ksettle. apply wp_ret. eapply became_settled; [|by apply freed_settled].
  eapply became_eq; [eassumption|]. specialize (Hr _ Hp). specialize (Hlk _ Hp).
  pose proof (fresh_not_in _ _ KMapping size Hp eq_refl). destruct Hres as [-> | ->]; set_solver.
Qed.

(** ** Theorem *)

(** C18: The life of a contiguous queue.  Setting one up either fails,
    whatever step fails, and leaves the process and the module's tables as
    they were; or succeeds, for a whole number of pages only, and then the
    process maps the very DMA address that the set-up records for the
    controller, the allocation has two references, one of them the mapping's,
    although no descriptor of the module is open any more, and the GPU has a
    pointer to it.  Freeing that queue leaves the process and the module's
    tables as they were before the set-up.  The module is in a reachable state
    with every file and mapping of this process known to it, the next id of a
    contiguous allocation is not 0 and has not wrapped at 32 bits, and the
    size rounded up to pages is below 2^64. *)
Theorem contig_queue_lifetime size bdf s :
  new_files s -> listed_ok (ks_mod (ho_kernel s)) -> maps_known s ->
  contig_ok tr0 no_refs (ks_mod (ho_kernel s)) ->
  0 < cs_next_id (st_contig (ks_mod (ho_kernel s))) < 4294967296 ->
  0 <= page_up size < 18446744073709551616 ->
  wp (setupContigQueueForGpu size bdf) (fun '(rc, q) s1 =>
    (rc < 0 /\ host_settled s s1) \/
    (rc = 0 /\ page_up size <= size /\ qs_gpu q <> NULL /\
     (exists pdev cpu tr, st_trace (ks_mod (ho_kernel s1)) =
        EvDmaMmap pdev (qs_virt q) 0 cpu (qs_phys q) (page_up size) :: tr) /\
     (exists ca, cs_vmas (st_contig (ks_mod (ho_kernel s1))) !! qs_virt q = Some ca /\
        refcount (st_contig (ks_mod (ho_kernel s1))) ca = 2) /\
     (forall fd, RFd fd ∈ ho_held s1 -> RFd fd ∈ ho_held s) /\
     wp (freeContigQueue q size) (fun _ s' => host_settled s s') s1)) s.
Proof.
  intros Hnew Hl Hmk Hok Hid Hsz. eapply wp_mono; [by apply setupContig_spec|].
  intros [rc q] s1 [H|(Hrc & p & f & ca & tr & r & H)]; [by left|right]. cbn [fst snd] in *.
  pose proof (freeContig_spec _ _ _ _ _ _ _ _ _ Hmk Hl H) as Hfree.
  destruct H as [Hq Hg Hp Hres (tr' & Htr) Hwh (Hn & _) _ [Hh _ _ Hk]].
  rewrite Hk. rewrite Hq. cbn [qs_virt qs_gpu qs_phys ks_mod with_mapping]. split_and!; try done.
  - do 3 eexists. exact Htr.
  - exists (ca_self ca). split; [apply lookup_insert_eq|]. unfold refcount. by rewrite linked_obj.
  - intros fd. rewrite Hh. destruct Hres as [-> | ->]; set_solver.
  - by rewrite <- Hq.
Qed.
End ContigCalls.

Lemma idle_maps_known : maps_known (idle_host state0).
Proof. split; done. Qed.

(** Two pages; then a size that is not a whole number of them. *)
Lemma contig_queue_lifetime_witness :
  let E := demo_host true (fun _ => true) (fun _ => 0) in
  let run := setupContigQueueForGpu (K := demo_kernel) (E := E) 8192 34048 in
  fst (fst (run (idle_host state0))) = 0 /\
  fst (fst (setupContigQueueForGpu (K := demo_kernel) (E := E) 5000 34048 (idle_host state0))) = - EINVAL /\
  wp run (fun '(rc, q) s1 => rc = 0 ->
    wp (freeContigQueue (K := demo_kernel) (E := E) q 8192)
      (fun _ s' => ho_held s' = ∅ /\ cs_objs (st_contig (ks_mod (ho_kernel s'))) = ∅) s1) (idle_host state0).
Proof.
  intros E run. split; [by vm_compute|]. split; [by vm_compute|].
  eapply wp_mono; [apply (contig_queue_lifetime (K := demo_kernel)
    (EO := demo_host_ok true (fun _ => true) (fun _ => 0)) [] held_nil_nonneg
    8192 34048 (idle_host state0) idle_new_files state0_listed idle_maps_known state0_contig_ok)|].
  - done.
  - by vm_compute.
  - intros [rc q] s1 [[Hneg _]|(_ & _ & _ & _ & _ & _ & Hfree)] Hrc; [lia|].
    eapply wp_mono; [exact Hfree|]. intros _ s' [Hh _ _ (tr & n & Hm & _) _ _]. split; [exact Hh|]. by rewrite Hm.
Defined.
