(* ===== verification/HostPhys.v ===== *)
(** * Physical addresses of process memory

    [getPhysAddr], [getPagePhysAddrs] and the overload for either kind of
    memory, [buildQueuePrpList] and the GPU-accessible data buffers of
    [src/src/common/xio-common.hip]: what the library puts into PRP lists and
    page tables, which the controllers then use as bus addresses. *)

From S2P Require Import Prelude Uapi Kernel State Demo QueueReg BufferReg Contig Quiesce Frame Driver FileLife HostEnv HostDemo HostMem HostModule HostContig.

Definition E2BIG : Z := 7.

(** An entry of /proc/self/pagemap: bit 63, and bits 0 to 54. *)
Definition page_present (entry : Z) : bool := Z.testbit entry 63.
Definition page_frame (entry : Z) : Z := Z.land entry (Z.ones 55).

Section HostPhys.
Context {K : Kernel} {E : HostEnv}.

Abbreviation ps := he_page_size.

(** ** One page, and every page *)

Definition getPhysAddr (virt_addr : ptr) : HostM Z :=
  let* pagemap_fd := open PagemapFile in
  if pagemap_fd <? 0 then ret 0 else
  let* entry := consult (fun v => he_pagemap v (virt_addr / ps)) in
  close pagemap_fd ;;;
  match entry with
  | None => ret 0
  | Some entry =>
      if negb (page_present entry) then ret 0 else
      ret (u64 (u64 (page_frame entry * ps) + virt_addr mod ps))
  end.

(** The loop over the pages: the error, or the addresses. *)
Fixpoint page_addrs (n : nat) (base i : Z) : HostM (Z + list Z) :=
  match n with
  | O => ret (inr [])
  | S n =>
      let page_va := u64 (base + i * ps) in
      let* entry := consult (fun v => he_pagemap v (page_va / ps)) in
      match entry with
      | None => ret (inl (- EIO))
      | Some entry =>
          if negb (page_present entry) then ret (inl (- EFAULT)) else
          let* r := page_addrs n base (i + 1) in
          ret (match r with
               | inl e => inl e
               | inr l => inr (u64 (page_frame entry * ps) :: l)
               end)
      end
  end.

Definition pages_of (size : Z) : Z := u64 (size + ps - 1) / ps.

Definition getPagePhysAddrs (virt_addr size max_pages : Z) : HostM (Z + list Z) :=
  if ps <=? 0 then ret (inl (- EINVAL)) else
  let num_pages := pages_of size in
  if is_null virt_addr || (size =? 0) || (max_pages <? num_pages) then ret (inl (- EINVAL)) else
  let* fd := open PagemapFile in
  if fd <? 0 then ret (inl fd) else
  let* r := page_addrs (Z.to_nat num_pages) virt_addr 0 in
  close fd ;;; ret r.

(** The overload: device memory through the module; host memory through the
    page map, or else as it is. *)
Definition getPhysAddrOf (buffer_ptr size : Z) (is_device : bool) (nvme_bdf : Z) (is_emulated : bool) : HostM Z :=
  if is_null buffer_ptr || (size =? 0) then ret 0 else
  if is_device then
    let* '(rc, phys_addr) := exportRegVramBuf buffer_ptr size nvme_bdf is_emulated 0 in
    ret (if rc <? 0 then 0 else phys_addr)
  else
    let* phys_addr := getPhysAddr buffer_ptr in
    ret (if phys_addr =? 0 then buffer_ptr else phys_addr).

(** ** The PRP list of a queue *)

Definition with_prp (list_ptr phys : Z) (q : xioQueueSetup) : xioQueueSetup :=
  {| qs_virt := qs_virt q; qs_gpu := qs_gpu q; qs_phys := qs_phys q; qs_uses_coherent := qs_uses_coherent q;
     qs_prp_list := list_ptr; qs_prp_list_phys := phys; qs_prp2 := 0; qs_uses_contig := qs_uses_contig q;
     qs_contig_id := qs_contig_id q |}.

(** Words from [p] on. *)
Fixpoint store_words (p : Z) (l : list Z) : HostM unit :=
  match l with
  | [] => ret tt
  | w :: l => store p w ;;; store_words (p + 8) l
  end.

Definition buildQueuePrpList (q : xioQueueSetup) (queue_size : Z) (is_device : bool) : HostM (Z * xioQueueSetup) :=
  if is_null (qs_virt q) || (queue_size =? 0) then ret (- EINVAL, q) else
  if ps <=? 0 then ret (- EINVAL, q) else
  let num_pages := pages_of queue_size in
  let q := with_prp NULL 0 q in
  if num_pages <=? 1 then ret (0, q) else
  if negb is_device && negb (qs_virt q mod ps =? 0) then ret (- EINVAL, q) else
  if is_device then ret (- ENOTSUP, q) else
  let* r := getPagePhysAddrs (qs_virt q) queue_size 1024 in
  match r with
  | inl e => ret (e, q)
  | inr phys_addrs =>
      if ps <? num_pages * 8 then ret (- E2BIG, q) else
      let* m := posix_memalign ps ps in
      match m with
      | None => ret (- ENOMEM, q)
      | Some prp_list =>
          memset0 prp_list ps ;;;
          let* rc := mlock prp_list ps in
          if negb (rc =? 0) then free prp_list ;;; ret (rc, q) else
          store_words prp_list phys_addrs ;;;
          let* prp_list_phys := getPhysAddr prp_list in
          if prp_list_phys =? 0 then munlock prp_list ps ;;; free prp_list ;;; ret (- EIO, q) else
          ret (0, with_prp prp_list prp_list_phys q)
      end
  end.

(** What [freeQueueSetup] does about the list. *)
Definition free_prp_list (q : xioQueueSetup) : HostM unit :=
  if is_null (qs_prp_list q) then ret tt else
  (if 0 <? ps then munlock (qs_prp_list q) ps else ret tt) ;;; free (qs_prp_list q).

(** ** Data buffers *)

Record xioBufferInfo := {
  bi_hostPtr : ptr; bi_gpuPtr : ptr; bi_dmaAddr : Z; bi_isDeviceMemory : bool;
  bi_pagePhysAddrs : ptr; bi_numPages : Z
}.
Definition no_buffer (hostPtr : ptr) : xioBufferInfo :=
  {| bi_hostPtr := hostPtr; bi_gpuPtr := NULL; bi_dmaAddr := 0; bi_isDeviceMemory := false;
     bi_pagePhysAddrs := NULL; bi_numPages := 0 |}.

Definition nvme_page : Z := 4096.

(** The addresses of the 4 KiB pages within the system's pages. *)
Definition nvme_pages (sys_addrs : list Z) (nvme_np : Z) : list Z :=
  let ratio := u32 (ps / nvme_page) in
  take (Z.to_nat nvme_np)
    (flat_map (fun a => map (fun sub => u64 (a + Z.of_nat sub * nvme_page)) (seq 0 (Z.to_nat ratio))) sys_addrs).

(** The page table, where it can be made. *)
Definition resolve_buffer_pages (hostPtr size : Z) : HostM (ptr * Z) :=
  let sys_np := u32 (pages_of size) in
  let nvme_np := u32 (u64 (size + nvme_page - 1) / nvme_page) in
  let pa_bytes := nvme_np * 8 in
  let* '(rc, pa) := hipHostMalloc pa_bytes false in
  if negb (rc =? 0) || is_null pa then ret (NULL, 0) else
  memset0 pa pa_bytes ;;;
  let max_sys := if sys_np <=? 1024 then sys_np else 1024 in
  let* r := getPagePhysAddrs hostPtr size max_sys in
  match r with
  | inl _ => hipHostFree pa ;;; ret (NULL, 0)
  | inr sys_addrs => store_words pa (nvme_pages sys_addrs nvme_np) ;;; ret (pa, nvme_np)
  end.

Definition buffer_gpu_pointer (hostPtr : ptr) : HostM ptr :=
  let* rc := consult (fun v => he_hipPointerGetAttributes v hostPtr) in
  if negb (rc =? 0) then ret hostPtr else
  let* '(rc, gpu_ptr) := hipHostGetDevicePointer hostPtr in
  ret (if (rc =? 0) && negb (is_null gpu_ptr) then gpu_ptr else hostPtr).

(** [is_emulated]: what [detectEmulatedNvme] finds of the device. *)
Definition allocateGpuAccessibleBuffer (size memoryMode targetBdf : Z) (is_emulated : bool)
    : HostM (Z * xioBufferInfo) :=
  if size =? 0 then ret (hipErrorInvalidValue, no_buffer NULL) else
  if flagged memoryMode XIO_MEM_MODE_DATA_DEVICE then
    let* '(st, p) := allocDeviceMemory size NULL XIO_DEVICE_MEM_HIP 0 in
    if negb (st =? HSA_STATUS_SUCCESS) then ret (hipErrorMemoryAllocation, no_buffer p) else
    let* '(rc, dma) := exportRegVramBuf p size targetBdf is_emulated 0 in
    if rc <? 0 then freeDeviceMemory p XIO_DEVICE_MEM_HIP ;;; ret (hipErrorInvalidValue, no_buffer NULL) else
    ret (hipSuccess, {| bi_hostPtr := p; bi_gpuPtr := p; bi_dmaAddr := dma; bi_isDeviceMemory := true;
                        bi_pagePhysAddrs := NULL; bi_numPages := 0 |})
  else
    let* '(rc, p) := allocHostMemory size NULL XIO_HOST_MEM_MAPPED in
    if negb (rc =? hipSuccess) then ret (rc, no_buffer p) else
    let* dma := getPhysAddr p in
    if dma =? 0 then hipHostFree p ;;; ret (hipErrorInvalidValue, no_buffer NULL) else
    let* '(pa, np) := resolve_buffer_pages p size in
    let* gpu := buffer_gpu_pointer p in
    ret (hipSuccess, {| bi_hostPtr := p; bi_gpuPtr := gpu; bi_dmaAddr := dma; bi_isDeviceMemory := false;
                        bi_pagePhysAddrs := pa; bi_numPages := np |}).

Definition freeGpuAccessibleBuffer (b : xioBufferInfo) : HostM unit :=
  if is_null (bi_hostPtr b) then ret tt else
  (if bi_isDeviceMemory b then freeDeviceMemory (bi_hostPtr b) XIO_DEVICE_MEM_HIP
   else freeHostMemory (bi_hostPtr b) XIO_HOST_MEM_MAPPED) ;;;
  (if is_null (bi_pagePhysAddrs b) then ret tt else hipHostFree (bi_pagePhysAddrs b) ;;; ret tt).
End HostPhys.

(** ** Specifications *)

Section PhysSpec.
Context {K : Kernel} {KO : KernelOk K} {E : HostEnv} {EO : HostEnvOk E}.

Abbreviation ps := he_page_size.

(** The pages stay where they are: what the kernel tells of a page does not
    depend on when it is asked. *)
Variable pm : Z -> option Z.
Hypothesis Hpm : forall v vpn, he_pagemap v vpn = pm vpn.
Hypothesis Hps : 0 < ps.

(** Where a byte of the process is in physical memory, zero if nowhere; and
    where its page begins. *)
Definition phys (va : Z) : Z :=
  match pm (va / ps) with
  | Some e => if page_present e then u64 (u64 (page_frame e * ps) + va mod ps) else 0
  | None => 0
  end.
Definition page_phys (va : Z) : Z :=
  match pm (va / ps) with Some e => u64 (page_frame e * ps) | None => 0 end.
Definition present (va : Z) : bool :=
  match pm (va / ps) with Some e => page_present e | None => false end.

Lemma getPhysAddr_spec va s (Q : Z -> host -> Prop) :
  (forall r s', r = 0 \/ r = phys va -> after s s' (ho_held s) (ho_vmem s) -> ho_mem s' = ho_mem s -> Q r s') ->
  wp (getPhysAddr va) Q s.
Proof using EO Hpm.
  intros HQ. unfold getPhysAddr. apply wp_bind, wp_open.
  2:{ intros e s1 He A1 M1. rewrite (proj2 (Z.ltb_lt _ _) He). apply wp_ret, HQ; auto. }
  intros fd s1 Hfd Hn A1 M1. rewrite (proj2 (Z.ltb_ge _ _) Hfd).
  apply wp_bind, wp_consult. intros s2 A2 M2. settle. unfold close. apply wp_bind, wp_give_back.
  { rewrite (af_held _ _ _ _ A2). by apply elem_of_union_l, elem_of_singleton. }
  intros s3 A3 M3. settle. apply (after_eq _ _ _ (ho_held s)) in A3; [|by apply undo_one].
  unfold phys in HQ. rewrite Hpm. destruct (pm (va / ps)) as [e|]; [|apply wp_ret, HQ; [by left|done|congruence]].
  destruct (page_present e); cbn [negb]; apply wp_ret, HQ; try done; try congruence; auto.
Qed.

Definition page_list (base i n : Z) : list Z := map (fun j => page_phys (u64 (base + j * ps))) (seqZ i n).
Definition all_present (base i n : Z) : Prop := forall j, i <= j < i + n -> present (u64 (base + j * ps)) = true.

Lemma page_addrs_spec n base i s (Q : Z + list Z -> host -> Prop) :
  (forall e s', e < 0 -> after s s' (ho_held s) (ho_vmem s) -> ho_mem s' = ho_mem s -> Q (inl e) s') ->
  (forall s', all_present base i (Z.of_nat n) -> after s s' (ho_held s) (ho_vmem s) -> ho_mem s' = ho_mem s ->
     Q (inr (page_list base i (Z.of_nat n))) s') ->
  wp (page_addrs n base i) Q s.
Proof using EO Hpm.
  revert i s Q. induction n as [|n IH]; intros i s Q H1 H2; cbn [page_addrs].
  { apply wp_ret, H2; [intros j Hj; lia|apply after_refl|done]. }
  apply wp_bind, wp_consult. intros s1 A1 M1. rewrite Hpm.
  destruct (pm (u64 (base + i * ps) / ps)) as [e|] eqn:Ee; [|by apply wp_ret, H1].
  destruct (page_present e) eqn:Ep; [|by apply wp_ret, H1]. cbn [negb].
  apply wp_bind, IH.
  - intros er s2 Her A2 M2. settle. apply wp_ret, H1; [done|done|congruence].
  - intros s2 Hall A2 M2. settle. apply wp_ret.
    assert (page_list base i (Z.of_nat (S n)) = u64 (page_frame e * ps) :: page_list base (i + 1) (Z.of_nat n)) as <-.
    { unfold page_list. rewrite seqZ_cons by lia. cbn [map]. f_equal; [unfold page_phys; by rewrite Ee|].
      by replace (Z.pred (Z.of_nat (S n))) with (Z.of_nat n) by lia. }
    apply H2; [|done|congruence]. intros j Hj. destruct (Z.eq_dec j i) as [->|Hne]; [|apply Hall; lia].
    unfold present. by rewrite Ee.
Qed.

Lemma pages_of_nonneg size : 0 <= pages_of size.
Proof using Hps. apply Z.div_pos; [|done]. pose proof (Z.mod_pos_bound (size + ps - 1) 18446744073709551616 eq_refl). unfold u64. lia. Qed.

Lemma getPagePhysAddrs_spec va size n s (Q : Z + list Z -> host -> Prop) :
  (forall e s', e < 0 -> after s s' (ho_held s) (ho_vmem s) -> ho_mem s' = ho_mem s -> Q (inl e) s') ->
  (forall s', pages_of size <= n -> all_present va 0 (pages_of size) -> after s s' (ho_held s) (ho_vmem s) ->
     ho_mem s' = ho_mem s -> Q (inr (page_list va 0 (pages_of size))) s') ->
  wp (getPagePhysAddrs va size n) Q s.
Proof using EO Hpm Hps.
  intros H1 H2. unfold getPagePhysAddrs. rewrite (proj2 (Z.leb_gt ps 0) Hps).
  destruct (_ || _) eqn:Eg; [apply wp_ret, H1; [done|apply after_refl|done]|]. bool_to_prop.
  pose proof (pages_of_nonneg size) as Hnn.
  apply wp_bind, wp_open.
  2:{ intros e s1 He A1 M1. rewrite (proj2 (Z.ltb_lt _ _) He). by apply wp_ret, H1. }
  intros fd s1 Hfd Hn A1 M1. rewrite (proj2 (Z.ltb_ge _ _) Hfd). apply wp_bind.
  assert (forall r s2, after s s2 ({[ RFd fd ]} ∪ ho_held s) (ho_vmem s) -> ho_mem s2 = ho_mem s1 ->
    (forall s', after s s' (ho_held s) (ho_vmem s) -> ho_mem s' = ho_mem s -> Q r s') ->
    wp (close fd ;;; ret r) Q s2) as Hclose.
  { intros r s2 A2 M2 HQ. unfold close. apply wp_bind, wp_give_back.
    { rewrite (af_held _ _ _ _ A2). by apply elem_of_union_l, elem_of_singleton. }
    intros s3 A3 M3. settle. apply wp_ret, HQ; [|congruence]. eapply after_eq; [eassumption|]. by apply undo_one. }
  apply page_addrs_spec.
  - intros e s2 He A2 M2. settle. apply Hclose; [done|done|]. auto.
  - intros s2 Hall A2 M2. rewrite Z2Nat.id in * by done. settle. apply Hclose; [done|done|]. intros. by apply H2.
Qed.

(** ** Tables of words *)

Definition holds_words (m : Z -> Z) (p : Z) (l : list Z) : Prop :=
  forall (i : nat) w, l !! i = Some w -> m (p + 8 * Z.of_nat i) = w.

Lemma store_words_spec p l s (Q : unit -> host -> Prop) :
  (forall s', after s s' (ho_held s) (ho_vmem s) -> holds_words (ho_mem s') p l ->
     (forall a, a < p -> ho_mem s' a = ho_mem s a) -> Q tt s') ->
  wp (store_words p l) Q s.
Proof using Type.
  revert p s Q. induction l as [|w l IH]; intros p s Q HQ; cbn [store_words].
  { apply wp_ret, HQ; [apply after_refl|by intros i w|done]. }
  unfold store. apply wp_bind, wp_modify, IH. intros s2 A2 Hw Hlow. apply HQ.
  - by destruct A2.
  - intros [|i] w' Hi; cbn in Hi.
    + injection Hi as ->. rewrite Z.mul_0_r, Z.add_0_r, Hlow by lia. cbn [ho_mem set_mem]. by rewrite Z.eqb_refl.
    + rewrite <- (Hw _ _ Hi). f_equal. lia.
  - intros a Ha. rewrite Hlow by lia. cbn [ho_mem set_mem]. by rewrite (proj2 (Z.eqb_neq a p)) by lia.
Qed.

Lemma page_list_lookup base n (i : nat) :
  Z.of_nat i < n -> page_list base 0 n !! i = Some (page_phys (u64 (base + Z.of_nat i * ps))).
Proof using Type.
  intros Hi. unfold page_list. change (map ?f ?l) with (f <$> l). rewrite list_lookup_fmap, lookup_seqZ_lt by done.
  done.
Qed.

(** An entry and an offset within its page are where the byte is. *)
Lemma page_phys_offset base i o :
  base mod ps = 0 -> 0 <= o < ps -> present (base + i * ps) = true ->
  u64 (page_phys (base + i * ps) + o) = phys (base + i * ps + o).
Proof using Hps.
  intros Hb Ho. unfold page_phys, phys, present.
  replace ((base + i * ps + o) / ps) with ((base + i * ps) / ps).
  2:{ apply Z.mod_divide in Hb as [k ->]; [|lia].
      rewrite <- !Z.mul_add_distr_r, Z.div_mul, Z.div_add_l, Z.div_small by lia. lia. }
  assert ((base + i * ps + o) mod ps = o) as ->.
  { replace (base + i * ps + o) with (base + o + i * ps) by lia.
    rewrite Z.mod_add, Z.add_mod, Hb, Z.add_0_l, Z.mod_mod, Z.mod_small by lia. done. }
  destruct (pm _) as [e|]; [|done]. by intros ->.
Qed.

(** ** The PRP list *)

Lemma buildQueuePrpList_spec q size s (Q : Z * xioQueueSetup -> host -> Prop) :
  (forall rc q' s', rc < 0 -> after s s' (ho_held s) (ho_vmem s) -> Q (rc, q') s') ->
  (forall s', pages_of size <= 1 -> after s s' (ho_held s) (ho_vmem s) -> Q (0, with_prp NULL 0 q) s') ->
  (forall l s', 1 < pages_of size -> pages_of size * 8 <= ps -> qs_virt q mod ps = 0 -> fresh (ho_held s) l ->
     (RMlocked l ps) ∉ ho_held s ->
     all_present (qs_virt q) 0 (pages_of size) -> phys l <> 0 ->
     holds_words (ho_mem s') l (page_list (qs_virt q) 0 (pages_of size)) ->
     after s s' ({[ (RMlocked l ps) ]} ∪ ({[ RMalloc l ]} ∪ ho_held s)) (ho_vmem s) ->
     Q (0, with_prp l (phys l) q) s') ->
  wp (buildQueuePrpList q size false) Q s.
Proof using EO Hpm Hps.
  intros H1 H0 H2. unfold buildQueuePrpList.
  destruct (_ || _); [apply wp_ret, H1; [done|apply after_refl]|].
  rewrite (proj2 (Z.leb_gt ps 0) Hps).
  destruct (Z.leb_spec (pages_of size) 1) as [Hp|Hp]; [by apply wp_ret, H0; [|apply after_refl]|].
  cbn [negb andb]. change (qs_virt (with_prp NULL 0 q)) with (qs_virt q).
  destruct (Z.eqb_spec (qs_virt q mod ps) 0) as [Hal|Hal]; cbn [negb andb];
    [|apply wp_ret, H1; [done|apply after_refl]].
  apply wp_bind, getPagePhysAddrs_spec; [intros e s1 He A1 _; by apply wp_ret, H1|].
  intros s1 Hmax Hall A1 M1. destruct (Z.ltb_spec ps (pages_of size * 8)) as [Hb|Hb]; [by apply wp_ret, H1|].
  apply wp_bind, wp_posix_memalign; [|intros s2 A2 _; settle; by apply wp_ret, H1].
  intros l s2 Hl A2 M2. settle. apply wp_bind, wp_memset0. intros s3 A3 M3. settle.
  apply wp_bind, wp_mlock.
  2:{ intros rc s4 Hrc A4 _. settle. rewrite (proj2 (Z.eqb_neq rc 0)) by lia. cbn [negb]. unfold free.
      apply wp_bind, wp_give_back; [rewrite (af_held _ _ _ _ A4); by apply elem_of_union_l, elem_of_singleton|].
      intros s5 A5 _. settle. apply wp_ret, H1; [done|]. eapply after_eq; [eassumption|].
      apply undo_one. by apply (fresh_not_in _ _ _ _ Hl). }
  intros s4 Hnl A4 M4. rewrite (af_held _ _ _ _ A3) in Hnl. settle. cbn [Z.eqb negb].
  apply wp_bind, store_words_spec. intros s5 A5 Hw _. settle.
  apply wp_bind, getPhysAddr_spec. intros r s6 Hr A6 M6. settle.
  assert ((RMlocked l ps) ∉ ho_held s) as Hnl' by (intros Hin; apply Hnl; by apply elem_of_union_r).
  destruct (Z.eqb_spec r 0) as [->|Hr0].
  - unfold munlock, free. apply wp_bind, wp_give_back.
    { rewrite (af_held _ _ _ _ A6). by apply elem_of_union_l, elem_of_singleton. }
    intros s7 A7 _. settle. apply wp_bind, wp_give_back.
    { rewrite (af_held _ _ _ _ A7). apply elem_of_difference. split; [by apply elem_of_union_r, elem_of_union_l, elem_of_singleton|].
      by intros [=]%elem_of_singleton. }
    intros s8 A8 _. settle. apply wp_ret, H1; [done|]. eapply after_eq; [eassumption|].
    rewrite undo_one by done. apply undo_one. by apply (fresh_not_in _ _ _ _ Hl).
  - destruct Hr as [->| ->]; [done|]. apply wp_ret, H2; try done. by rewrite M6.
Qed.

Lemma free_prp_list_spec q s S l (Q : unit -> host -> Prop) :
  qs_prp_list q = l -> l <> NULL -> ho_held s = {[ (RMlocked l ps) ]} ∪ ({[ RMalloc l ]} ∪ S) ->
  RMalloc l ∉ S -> (RMlocked l ps) ∉ S ->
  (forall s', after s s' S (ho_vmem s) -> Q tt s') -> wp (free_prp_list q) Q s.
Proof using Hps.
  intros <- Hl Hh Hm Hk HQ. unfold free_prp_list. rewrite (proj2 (Z.eqb_neq _ NULL) Hl).
  rewrite (proj2 (Z.ltb_lt _ _) Hps). unfold munlock, free. apply wp_bind, wp_give_back.
  { rewrite Hh. by apply elem_of_union_l, elem_of_singleton. }
  intros s1 A1 _. rewrite Hh, undo_one in A1 by (intros [[=]%elem_of_singleton|]%elem_of_union; done).
  apply wp_give_back; [rewrite (af_held _ _ _ _ A1); by apply elem_of_union_l, elem_of_singleton|].
  intros s2 A2 _. settle. apply HQ. eapply after_eq; [eassumption|]. by apply undo_one.
Qed.

(** ** The page table of a data buffer *)

Lemma flat_map_lookup {A B} (f : A -> list B) r (l : list A) (i : nat) x :
  (0 < r)%nat -> (forall a, length (f a) = r) -> l !! (i `div` r)%nat = Some x ->
  flat_map f l !! i = f x !! (i `mod` r)%nat.
Proof using Type.
  intros Hr Hf. revert i. induction l as [|a l IH]; intros i Hx; [done|]. cbn [flat_map].
  change (f a ++ flat_map f l) with (app (f a) (flat_map f l)).
  destruct (Nat.lt_ge_cases i r) as [Hi|Hi].
  - rewrite Nat.div_small in Hx by done. injection Hx as ->. rewrite lookup_app_l by (by rewrite Hf).
    by rewrite Nat.mod_small.
  - assert (i = (i - r) + 1 * r)%nat as Ei by lia.
    rewrite Ei, Nat.div_add in Hx by lia. rewrite Nat.add_1_r in Hx. cbn [lookup list_lookup] in Hx.
    rewrite lookup_app_r by (rewrite Hf; lia). rewrite Hf, (IH _ Hx).
    f_equal. rewrite Ei at 2. by rewrite Nat.Div0.mod_add.
Qed.

(** The system's pages are made of the controller's. *)
Variable ratio : Z.
Hypothesis Hratio : ps = ratio * nvme_page /\ 1 <= ratio < 1048576.

(** Entry [i] of the table is where the [i]th 4 KiB of the buffer are. *)
Lemma nvme_pages_lookup base n np (i : nat) :
  base mod ps = 0 -> 0 <= base -> base + n * ps <= 18446744073709551616 -> all_present base 0 n ->
  Z.of_nat i < np -> Z.of_nat i < n * ratio ->
  nvme_pages (page_list base 0 n) np !! i = Some (phys (base + Z.of_nat i * nvme_page)).
Proof using Hps Hratio.
  intros Hal Hb0 Hb1 Hall Hnp Hn. destruct Hratio as [Hr1 Hr2]. unfold nvme_page in *.
  unfold nvme_pages. rewrite lookup_take_lt by lia.
  replace (u32 (ps / nvme_page)) with ratio
    by (unfold nvme_page, u32; rewrite Hr1, Z.div_mul by lia; symmetry; apply Z.mod_small; lia).
  set (r := Z.to_nat ratio). assert (Z.of_nat r = ratio) as Er by lia. assert (0 < r)%nat as Hr0 by lia.
  set (j := (i `div` r)%nat). set (k := (i `mod` r)%nat).
  assert (Z.of_nat i = ratio * Z.of_nat j + Z.of_nat k) as Ei
    by (rewrite <- Er, <- Nat2Z.inj_mul, <- Nat2Z.inj_add; f_equal; apply Nat.div_mod_eq).
  assert (k < r)%nat as Hk by (apply Nat.mod_upper_bound; lia).
  assert (Z.of_nat j < n) as Hj by nia.
  rewrite (flat_map_lookup _ r _ _ (page_phys (u64 (base + Z.of_nat j * ps)))); [| |by intros; rewrite length_map, length_seq|by apply page_list_lookup]; [|done].
  change (map ?f ?l) with (f <$> l). rewrite list_lookup_fmap, lookup_seq_lt by done. cbn [fmap option_fmap option_map]. f_equal.
  assert (present (u64 (base + Z.of_nat j * ps)) = true) as Hpr by (apply Hall; lia).
  assert (u64 (base + Z.of_nat j * ps) = base + Z.of_nat j * ps) as Eu by (apply u64_small; nia).
  rewrite Eu in *. change (i `mod` r)%nat with k. unfold nvme_page. rewrite page_phys_offset by (done || nia).
  f_equal. nia.
Qed.

(** Where the table says a byte is. *)
Definition table_ok (b : xioBufferInfo) (size : Z) (m : Z -> Z) : Prop :=
  bi_pagePhysAddrs b <> NULL -> bi_hostPtr b mod ps = 0 -> 0 <= bi_hostPtr b ->
  bi_hostPtr b + pages_of size * ps <= 18446744073709551616 ->
  forall o, 0 <= o < size -> o / nvme_page < bi_numPages b /\
    u64 (m (bi_pagePhysAddrs b + 8 * (o / nvme_page)) + o mod nvme_page) = phys (bi_hostPtr b + o).

Lemma phys_within va o :
  va mod nvme_page = 0 -> 0 <= o < nvme_page -> present va = true -> u64 (phys va + o) = phys (va + o).
Proof using Hps Hratio.
  intros Hal Ho Hpr. destruct Hratio as [Hr1 Hr2].
  assert (ps <> 0) as Hps0 by lia. set (base := va / ps * ps). set (off := va mod ps).
  assert (va = base + 0 * ps + off) as Eva.
  { rewrite Z.mul_0_l, Z.add_0_r. unfold base, off. rewrite (Z.mul_comm _ ps). by apply Z.div_mod. }
  assert (base mod ps = 0) as Hb by (unfold base; apply Z.mod_mul; lia).
  assert (0 <= off < ps) as Hoff by (unfold off; apply Z.mod_pos_bound; lia).
  assert (off + o < ps) as Hin.
  { assert (off mod nvme_page = 0) as Hom.
    { unfold off. rewrite Hr1, Z.mul_comm, Z.rem_mul_r by (unfold nvme_page; lia).
      rewrite Hal, Z.add_0_l, Z.mul_comm, Z.mod_mul; [done|unfold nvme_page; lia]. }
    apply Z.mod_divide in Hom as [q Eq]; [|unfold nvme_page; lia]. unfold nvme_page in *. nia. }
  assert (present (base + 0 * ps) = true) as Hpb.
  { revert Hpr. unfold present. by replace ((base + 0 * ps) / ps) with (va / ps)
      by (unfold base; rewrite Z.add_0_r, Z.div_mul by lia; done). }
  rewrite Eva, <- (Z.add_assoc _ off o), <- !page_phys_offset by (done || lia).
  unfold u64. rewrite Z.add_mod_idemp_l by lia. f_equal. lia.
Qed.

Lemma nvme_count size : 0 < size < 8796093022208 -> u32 (u64 (size + nvme_page - 1) / nvme_page) = (size + nvme_page - 1) / nvme_page.
Proof using Type.
  intros Hs. unfold nvme_page. rewrite u64_small by lia. apply u32_small.
  split; [apply Z.div_pos; lia|apply Z.div_lt_upper_bound; lia].
Qed.

Lemma page_of_byte size o : 0 <= o < size -> 0 < size < 8796093022208 ->
  o / nvme_page < (size + nvme_page - 1) / nvme_page /\ o / nvme_page < pages_of size * ratio.
Proof using Hps Hratio.
  intros Ho Hs. destruct Hratio as [Hr1 Hr2]. unfold pages_of, nvme_page in *. rewrite u64_small by lia.
  pose proof (Z.div_mod o 4096 ltac:(lia)). pose proof (Z.mod_pos_bound o 4096 ltac:(lia)).
  pose proof (Z.div_mod (size + 4096 - 1) 4096 ltac:(lia)). pose proof (Z.mod_pos_bound (size + 4096 - 1) 4096 ltac:(lia)).
  assert (ps <> 0) as Hps0 by lia.
  pose proof (Z.div_mod (size + ps - 1) ps Hps0). pose proof (Z.mod_pos_bound (size + ps - 1) ps Hps).
  split; [lia|]. apply Z.div_lt_upper_bound; [lia|]. nia.
Qed.

Lemma present_byte n base o :
  all_present base 0 n -> base mod ps = 0 -> 0 <= base -> base + n * ps <= 18446744073709551616 ->
  0 <= o < n * ps -> present (base + o) = true.
Proof using Hps Hratio.
  intros Hall Hal Hb0 Hb1 Ho. assert (ps <> 0) as Hps0 by lia.
  pose proof (Z.div_mod o ps Hps0) as Hdm. pose proof (Z.mod_pos_bound o ps Hps) as Hm.
  assert (0 <= o / ps < n) as Hj by (split; [apply Z.div_pos; lia|apply Z.div_lt_upper_bound; lia]).
  specialize (Hall (o / ps)). rewrite Z.add_0_l in Hall. specialize (Hall Hj). rewrite u64_small in Hall by nia. revert Hall. unfold present.
  replace ((base + o / ps * ps) / ps) with ((base + o) / ps); [done|].
  rewrite Z.div_add by done. apply Z.mod_divide in Hal as [q ->]; [|done].
  by rewrite Z.div_add_l, Z.div_mul by done.
Qed.

(** The table filled in for a buffer tells where each of its bytes is. *)
Lemma table_correct b size m :
  0 < size < 8796093022208 ->
  bi_numPages b = u32 (u64 (size + nvme_page - 1) / nvme_page) ->
  (bi_pagePhysAddrs b <> NULL -> all_present (bi_hostPtr b) 0 (pages_of size) /\
     holds_words m (bi_pagePhysAddrs b) (nvme_pages (page_list (bi_hostPtr b) 0 (pages_of size)) (bi_numPages b))) ->
  table_ok b size m.
Proof using Hps Hratio.
  intros Hs Hnp Hall Hpa Hal Hb0 Hb1 o Ho. destruct (Hall Hpa) as [Hpr Hw]. clear Hall.
  destruct (page_of_byte size o Ho Hs) as [Hi1 Hi2]. rewrite Hnp, nvme_count in * by done. split; [done|].
  assert (0 <= o / nvme_page) as Hi0 by (apply Z.div_pos; unfold nvme_page; lia).
  set (i := Z.to_nat (o / nvme_page)). assert (Z.of_nat i = o / nvme_page) as Ei by lia.
  rewrite <- Ei. rewrite (Hw i (phys (bi_hostPtr b + Z.of_nat i * nvme_page))).
  2:{ apply nvme_pages_lookup; try done; lia. }
  pose proof (Z.div_mod o nvme_page ltac:(unfold nvme_page; lia)) as Hdm.
  rewrite phys_within.
  - f_equal. rewrite Ei. lia.
  - destruct Hratio as [Hr1 _]. rewrite Z.mod_add by (unfold nvme_page; lia).
    apply Z.mod_divide in Hal as [q ->]; [|lia]. rewrite Hr1, Z.mul_assoc. apply Z.mod_mul. unfold nvme_page. lia.
  - apply Z.mod_pos_bound. unfold nvme_page. lia.
  - destruct Hratio as [Hr1 Hr2]. apply (present_byte (pages_of size)); try done. rewrite Ei, Hr1 in *.
    unfold nvme_page in *. nia.
Qed.

Lemma resolve_buffer_pages_spec p size s (Q : ptr * Z -> host -> Prop) :
  (forall s', after s s' (ho_held s) (ho_vmem s) -> Q (NULL, 0) s') ->
  (forall pa s', fresh (ho_held s) pa -> all_present p 0 (pages_of size) ->
     after s s' ({[ RHostPinned pa ]} ∪ ho_held s) (ho_vmem s) ->
     holds_words (ho_mem s') pa
       (nvme_pages (page_list p 0 (pages_of size)) (u32 (u64 (size + nvme_page - 1) / nvme_page))) ->
     Q (pa, u32 (u64 (size + nvme_page - 1) / nvme_page)) s') ->
  wp (resolve_buffer_pages p size) Q s.
Proof using EO Hpm Hps.
  intros H1 H2. unfold resolve_buffer_pages. apply wp_bind, wp_hipHostMalloc.
  2:{ intros rc pa s1 Hrc A1 _. rewrite (proj2 (Z.eqb_neq rc 0) Hrc). by apply wp_ret, H1. }
  intros pa s1 Hpa A1 _. rewrite (proj2 (Z.eqb_neq pa NULL) (proj1 Hpa)). cbn [negb Z.eqb orb].
  apply wp_bind, wp_memset0. intros s2 A2 _. settle. apply wp_bind, getPagePhysAddrs_spec.
  - intros e s3 _ A3 _. settle. apply wp_bind, wp_hipHostFree.
    + intros s4 _ A4 _. settle. apply wp_ret, H1. eapply after_eq; [eassumption|].
      apply undo_one. by apply (fresh_not_in _ _ _ _ Hpa).
    + intros rc s4 _ Hno _ _. destruct Hno. rewrite (af_held _ _ _ _ A3). by apply elem_of_union_l, elem_of_singleton.
  - intros s3 _ Hall A3 _. settle. apply wp_bind, store_words_spec. intros s4 A4 Hw _. settle. by apply wp_ret, H2.
Qed.

Lemma buffer_gpu_pointer_spec p s (Q : ptr -> host -> Prop) :
  (forall g s', after s s' (ho_held s) (ho_vmem s) -> ho_mem s' = ho_mem s -> Q g s') ->
  wp (buffer_gpu_pointer p) Q s.
Proof using Type.
  intros HQ. unfold buffer_gpu_pointer. apply wp_bind, wp_consult. intros s1 A1 M1.
  destruct (negb _); [by apply wp_ret, HQ|]. apply wp_bind, wp_consult. intros s2 A2 M2. settle.
  destruct (he_hipHostGetDevicePointer _ _). apply wp_ret, HQ; [done|congruence].
Qed.

(** Freeing a buffer of host memory, with its table or without. *)
Lemma free_host_buffer b R s S (Q : unit -> host -> Prop) :
  host_block XIO_HOST_MEM_MAPPED (bi_hostPtr b) R -> fresh S (bi_hostPtr b) -> R ## S -> bi_isDeviceMemory b = false ->
  (bi_pagePhysAddrs b = NULL /\ ho_held s = R ∪ S \/
   fresh (R ∪ S) (bi_pagePhysAddrs b) /\ ho_held s = {[ RHostPinned (bi_pagePhysAddrs b) ]} ∪ (R ∪ S)) ->
  (forall s', after s s' S (ho_vmem s) -> Q tt s') ->
  wp (freeGpuAccessibleBuffer b) Q s.
Proof using KO EO.
  clear pm Hpm Hps ratio Hratio.
  intros HR Hf HD Hd Hcase HQ. unfold freeGpuAccessibleBuffer.
  rewrite (proj2 (Z.eqb_neq _ NULL) (proj1 Hf)), Hd.
  assert (R ⊆ ho_held s) as Hin by (destruct Hcase as [[_ ->]|[_ ->]]; set_solver).
  assert (sole (ho_held s) (bi_hostPtr b) R) as Hsole.
  { pose proof (fresh_sole S _ R Hf) as Hso. destruct Hcase as [[_ ->]|[Hpa ->]]; [done|].
    intros k n Hk [Heq%elem_of_singleton|Hin']%elem_of_union; [|by apply Hso]. exfalso. simplify_eq.
    destruct (host_block_memory _ _ _ HR) as (k & Hk' & Hin'). apply (proj2 Hpa k 0 Hk').
    apply elem_of_union_l. congruence. }
  apply wp_bind. eapply wp_mono; [by apply (freeHostMemory_spec _ _ R); [| apply Hf| |]|].
  intros _ s1 [A1 _]. destruct Hcase as [[-> Hh]|[Hpa Hh]]; rewrite Hh in A1.
  - rewrite Z.eqb_refl. apply wp_ret, HQ. eapply after_eq; [exact A1|]. by apply free_after_alloc.
  - rewrite (proj2 (Z.eqb_neq _ NULL) (proj1 Hpa)). apply wp_bind, wp_hipHostFree.
    + intros s2 _ A2 _. settle. apply wp_ret, HQ. eapply after_eq; [eassumption|].
      pose proof (fresh_not_in _ _ KHostPinned 0 Hpa eq_refl). set_solver.
    + intros rc s2 _ Hno _ _. destruct Hno. rewrite (af_held _ _ _ _ A1).
      pose proof (fresh_not_in _ _ KHostPinned 0 Hpa eq_refl). set_solver.
Qed.

(** ** Theorems *)

(** What a failed allocation may leave behind: nothing, or a block of the C
    library that [hipHostFree] would not take. *)
Definition gave_up (s s' : host) : Prop :=
  host_settled s s' \/ exists p, fresh (ho_held s) p /\ left_with s s' ({[ RMalloc p ]} ∪ ho_held s).

(** A buffer that is ready: its table is right, and freeing it leaves
    everything as it was. *)
Definition buffer_ready (size : Z) (s : host) (b : xioBufferInfo) (s' : host) : Prop :=
  bi_hostPtr b <> NULL /\ table_ok b size (ho_mem s') /\
  wp (freeGpuAccessibleBuffer b) (fun _ s2 => host_settled s s2) s'.

Lemma allocate_host_buffer size mode bdf emulated s :
  flagged mode XIO_MEM_MODE_DATA_DEVICE = false -> 0 < size < 8796093022208 ->
  wp (allocateGpuAccessibleBuffer size mode bdf emulated) (fun '(rc, b) s' =>
    rc <> 0 /\ gave_up s s' \/ rc = 0 /\ buffer_ready size s b s') s.
Proof using KO EO Hpm Hps Hratio.
  intros Hmode Hs. unfold allocateGpuAccessibleBuffer. rewrite (proj2 (Z.eqb_neq size 0)), Hmode by lia.
  apply wp_bind. eapply wp_mono; [apply allocHostMemory_spec|].
  intros [rc p] s1 [[Hrc A1]|[Hrc (R & HR & HF & HD & A1 & _)]]; cbn [fst snd] in *; unfold hipSuccess.
  { rewrite (proj2 (Z.eqb_neq rc 0) Hrc). apply wp_ret. left. split; [done|]. left. by apply left_settled, after_left. }
  subst rc. cbn [Z.eqb negb]. apply wp_bind, getPhysAddr_spec. intros dma s2 _ A2 _. settle.
  destruct (Z.eqb_spec dma 0) as [->|Hdma].
  { apply wp_bind, wp_hipHostFree.
    - intros s3 Hin A3 _. rewrite (af_held _ _ _ _ A2) in Hin. settle. apply wp_ret. left. split; [done|]. left.
      apply left_settled, after_left. eapply after_eq; [eassumption|]. unfold host_block in HR.
      change (flagged XIO_HOST_MEM_MAPPED _) with false in HR. cbn iota in HR.
      destruct HR as [-> | ->]; [by apply undo_one, (fresh_not_in _ _ _ _ HF)|].
      exfalso. apply elem_of_union in Hin as [[=]%elem_of_singleton|Hin].
      by apply (fresh_not_in _ _ KHostPinned 0 HF eq_refl).
    - intros rc s3 _ Hno A3 _. rewrite (af_held _ _ _ _ A2) in Hno. settle. apply wp_ret. left. split; [done|].
      unfold host_block in HR. change (flagged XIO_HOST_MEM_MAPPED _) with false in HR. cbn iota in HR.
      destruct HR as [-> | ->]; [destruct Hno; by apply elem_of_union_l, elem_of_singleton|].
      right. exists p. split; [done|]. by apply after_left. }
  apply wp_bind, resolve_buffer_pages_spec.
  - intros s3 A3. settle. apply wp_bind, buffer_gpu_pointer_spec. intros g s4 A4 _. settle. apply wp_ret. right.
    split; [done|]. split_and!; [apply HF|by intros []|].
    eapply (free_host_buffer _ R _ (ho_held s)); [done|done|done|done|left; split; [done|by apply A4]|].
    intros s5 A5. settle. by apply left_settled, after_left.
  - intros pa s3 Hpa Hall A3 Hw. rewrite (af_held _ _ _ _ A2) in Hpa. settle.
    apply wp_bind, buffer_gpu_pointer_spec. intros g s4 A4 M4. settle. apply wp_ret. right.
    split; [done|]. split_and!; [apply HF|apply table_correct; [done|done|intros _; split; [done|by rewrite M4]]|].
    eapply (free_host_buffer _ R _ (ho_held s)); [done|done|done|done|right; split; [done|by apply A4]|].
    intros s5 A5. settle. by apply left_settled, after_left.
Qed.

Lemma allocate_device_buffer size mode bdf emulated s :
  flagged mode XIO_MEM_MODE_DATA_DEVICE = true -> 0 < size ->
  new_files s -> listed_ok (ks_mod (ho_kernel s)) ->
  wp (allocateGpuAccessibleBuffer size mode bdf emulated) (fun '(rc, b) s' =>
    rc <> 0 /\ gave_up s s' \/ rc = 0 /\ buffer_ready size s b s') s.
Proof using KO EO.
  intros Hmode Hs Hnew Hl. unfold allocateGpuAccessibleBuffer. rewrite (proj2 (Z.eqb_neq size 0)), Hmode by lia.
  apply wp_bind. eapply wp_mono; [apply allocDeviceMemory_spec|]. unfold HSA_STATUS_SUCCESS.
  intros [st p] s1 [_ [[Hst A1]|[Hst (R & V & [-> ->] & HF & HD & A1)]]]; cbn [fst snd] in *.
  { rewrite (proj2 (Z.eqb_neq st 0) Hst). apply wp_ret. left. split; [done|]. left. by apply left_settled, after_left. }
  subst st. cbn [Z.eqb negb]. apply wp_bind. eapply wp_mono; [apply exportRegVramBuf_spec|].
  { intros v. rewrite (af_kernel _ _ _ _ A1). apply Hnew. }
  { by rewrite (af_kernel _ _ _ _ A1). }
  intros [rc dma] s2 B2%settled_left. rewrite (af_held _ _ _ _ A1) in B2.
  pose proof (left_trans _ _ _ _ _ (after_left _ _ _ A1) B2) as L2.
  assert (forall s3 (Q : unit -> host -> Prop), left_with s s3 ({[ RDevice p ]} ∪ ho_held s) ->
    (forall s4, host_settled s s4 -> Q tt s4) -> wp (freeDeviceMemory p XIO_DEVICE_MEM_HIP) Q s3) as Hfree.
  { intros s3 Q L3 HQ. unfold freeDeviceMemory. rewrite (proj2 (Z.eqb_neq p NULL) (proj1 HF)). cbn iota.
    change (flagged XIO_DEVICE_MEM_HIP XIO_DEVICE_MEM_VMEM) with false.
    change (flagged XIO_DEVICE_MEM_HIP XIO_DEVICE_MEM_HIP) with true. cbn iota. unfold hipFree.
    apply wp_give_back; [rewrite (lw_held _ _ _ L3); by apply elem_of_union_l, elem_of_singleton|].
    intros s4 A4 _. apply HQ, left_settled. eapply left_eq; [by eapply left_after|].
    rewrite (lw_held _ _ _ L3). apply undo_one. by apply (fresh_not_in _ _ _ _ HF). }
  destruct (rc <? 0).
  - apply wp_bind, Hfree; [done|]. intros s3 H3. apply wp_ret. left. split; [done|]. by left.
  - apply wp_ret. right. split; [done|]. split_and!; [apply HF|by intros []|].
    unfold freeGpuAccessibleBuffer. cbn [bi_hostPtr bi_isDeviceMemory bi_pagePhysAddrs].
    rewrite (proj2 (Z.eqb_neq p NULL) (proj1 HF)). apply wp_bind, Hfree; [done|]. intros s3 H3. by apply wp_ret.
Qed.

(** C30: A data buffer's life.  For either kind of memory, allocating a
    GPU-accessible buffer of up to 8 TiB either fails, leaving nothing behind
    but at most one block of the C library's fallback, or yields a buffer
    that freeing gives back, the process and the kernel module's tables being
    as they were before.  And if the buffer has a page table and starts on a
    page of the system, the table tells for every byte of the buffer the
    physical address of that byte.  Where the allocator's address is not on
    a page the table is not claimed to be right: its entries are those of the
    pages from the rounded-down address on. *)
Theorem gpu_buffer_lifetime size mode bdf emulated s :
  new_files s -> listed_ok (ks_mod (ho_kernel s)) -> 0 < size < 8796093022208 ->
  wp (allocateGpuAccessibleBuffer size mode bdf emulated) (fun '(rc, b) s' =>
    rc <> 0 /\ gave_up s s' \/
    rc = 0 /\ bi_hostPtr b <> NULL /\
    (bi_pagePhysAddrs b <> NULL -> bi_hostPtr b mod ps = 0 -> 0 <= bi_hostPtr b ->
       bi_hostPtr b + pages_of size * ps <= 18446744073709551616 ->
       forall o, 0 <= o < size -> o / nvme_page < bi_numPages b /\
         u64 (ho_mem s' (bi_pagePhysAddrs b + 8 * (o / nvme_page)) + o mod nvme_page) = phys (bi_hostPtr b + o)) /\
    wp (freeGpuAccessibleBuffer b) (fun _ s2 => host_settled s s2) s') s.
Proof.
  intros Hnew Hl Hs. destruct (flagged mode XIO_MEM_MODE_DATA_DEVICE) eqn:Hm; [|by apply allocate_host_buffer].
  by apply allocate_device_buffer; [|apply Hs|..].
Qed.

(** C20: The PRP list describes the queue.  Building the list for a queue
    in host memory fails and leaves nothing behind; or the queue fits a page
    and there is no list; or the list, in one locked page whose physical
    address is recorded, has for every byte of the queue the entry of its
    page, whose address plus the offset within the page is where the byte is.
    Freeing the list then leaves the process as it was. *)
Theorem prp_list_describes_queue q size s :
  0 <= qs_virt q -> qs_virt q + pages_of size * ps <= 18446744073709551616 ->
  wp (buildQueuePrpList q size false) (fun '(rc, q') s' =>
    (rc < 0 /\ after s s' (ho_held s) (ho_vmem s)) \/
    (rc = 0 /\ pages_of size <= 1 /\ qs_prp_list q' = NULL /\ qs_prp_list_phys q' = 0 /\
       after s s' (ho_held s) (ho_vmem s)) \/
    (rc = 0 /\ qs_prp_list_phys q' = phys (qs_prp_list q') /\ qs_prp_list_phys q' <> 0 /\
       pages_of size * 8 <= ps /\
       (forall o, 0 <= o < pages_of size * ps ->
          u64 (ho_mem s' (qs_prp_list q' + 8 * (o / ps)) + o mod ps) = phys (qs_virt q + o)) /\
       wp (free_prp_list q') (fun _ s2 => after s s2 (ho_held s) (ho_vmem s)) s')) s.
Proof.
  intros Hb0 Hb1. apply buildQueuePrpList_spec.
  - intros rc q' s' Hrc A. by left.
  - intros s' Hp A. right. left. by split_and!.
  - intros l s' Hp Hfit Hal Hl Hk Hall Hph Hw A. right. right. split_and!; try done.
    + intros o Ho. cbn [with_prp qs_prp_list].
      assert (0 <= o / ps < pages_of size) as Hj by (split; [apply Z.div_pos; lia|apply Z.div_lt_upper_bound; lia]).
      set (i := Z.to_nat (o / ps)). assert (Z.of_nat i = o / ps) as Ei by lia.
      assert (ps <> 0) as Hps0 by lia. pose proof (Z.mod_pos_bound o ps Hps) as Hm. pose proof (Z.div_mod o ps Hps0) as Hdm.
      assert (Z.of_nat i < pages_of size) as Hi' by lia.
      pose proof (page_list_lookup (qs_virt q) (pages_of size) i Hi') as Hi.
      assert (u64 (qs_virt q + o / ps * ps) = qs_virt q + o / ps * ps) as Eu by (apply u64_small; lia).
      rewrite <- Ei at 1. rewrite (Hw i _ Hi), Ei, Eu.
      rewrite page_phys_offset; [f_equal; lia|done|done|]. apply (present_byte (pages_of size)); try done. lia.
    + eapply (free_prp_list_spec _ _ (ho_held s) l); [done|apply Hl|apply A|by apply (fresh_not_in _ _ _ _ Hl)|done|].
      intros s2 A2. settle. done.
Qed.
End PhysSpec.

(** An example: every page has a frame of its own, in no order. *)
Definition scattered (vpn : Z) : Z := (vpn * 40503) mod 65536 + 4096.

Lemma gpu_buffer_lifetime_witness :
  let E := demo_host true (fun _ => true) scattered in
  let run := allocateGpuAccessibleBuffer (K := demo_kernel) (E := E) 16384 0 34048 false in
  fst (fst (run (idle_host state0))) = 0 /\ bi_numPages (snd (fst (run (idle_host state0)))) = 4 /\
  wp run (fun '(rc, b) s' => rc = 0 -> buffer_ready (E := E) (demo_pagemap scattered) 16384 (idle_host state0) b s')
    (idle_host state0).
Proof.
  intros E run. split; [by vm_compute|]. split; [by vm_compute|].
  eapply wp_mono; [apply (gpu_buffer_lifetime (K := demo_kernel)
    (EO := demo_host_ok true (fun _ => true) scattered) (demo_pagemap scattered) (fun _ _ => eq_refl) eq_refl 1)|].
  - done.
  - apply idle_new_files.
  - apply state0_listed.
  - done.
  - intros [rc b] s' [[Hrc _]|[_ H]] H0; [done|exact H].
Defined.

(** A queue of two pages. *)
Definition demo_queue : xioQueueSetup :=
  {| qs_virt := 1048576; qs_gpu := 1048576; qs_phys := 0; qs_uses_coherent := true; qs_prp_list := NULL;
     qs_prp_list_phys := 0; qs_prp2 := 0; qs_uses_contig := false; qs_contig_id := 0 |}.

Lemma prp_list_describes_queue_witness :
  let E := demo_host true (fun _ => true) scattered in
  let run := buildQueuePrpList (E := E) demo_queue 8192 false in
  fst (fst (run (idle_host state0))) = 0 /\
  wp run (fun '(rc, q') s' => rc = 0 -> qs_prp_list_phys q' <> 0 ->
    u64 (ho_mem s' (qs_prp_list q' + 8) + 40) = phys (E := E) (demo_pagemap scattered) (1048576 + 4136)) (idle_host state0).
Proof.
  intros E run. split; [by vm_compute|].
  eapply wp_mono; [apply (prp_list_describes_queue (E := E)
    (EO := demo_host_ok true (fun _ => true) scattered) (demo_pagemap scattered) (fun _ _ => eq_refl) eq_refl 1)|].
  - done.
  - done.
  - by vm_compute.
  - intros [rc q'] s' [[Hrc _]|[(_ & _ & _ & H0 & _)|(_ & _ & _ & _ & Hw & _)]] Hz Hn; [lia|done|].
    apply (Hw 4136). by vm_compute.
Defined.
