(* ===== verification/HostPci.v ===== *)
(** * Finding PCI devices

    The device discovery of [src/src/common/xio-common.hip]: the PCI MMIO
    bridge among the devices of sysfs, the controller behind a device node,
    its PCI address and whether it is emulated, and the BARs that are mapped
    by their sysfs names.  What is read from sysfs is a parameter; parsing it
    is the code's. *)

From Stdlib Require Import Ascii.
From stdpp Require Import strings.
From S2P Require Import Prelude Uapi Kernel State Bdf HostEnv HostMem HostModule HostContig.

Open Scope Z_scope.

Abbreviation path := (list ascii).

(** ** Strings *)

Definition slash : ascii := "/"%char.
Definition chars (s : string) : path := String.list_ascii_of_string s.

(** [find(c, pos)] and [find_last_of(c)]: [None] is [npos]. *)
Fixpoint find_from (c : ascii) (l : path) (at_ pos : nat) : option nat :=
  match l with
  | [] => None
  | x :: l => if (pos <=? at_)%nat && bool_decide (x = c) then Some at_ else find_from c l (S at_) pos
  end.
Definition find (c : ascii) (l : path) (pos : nat) : option nat := find_from c l 0 pos.
Fixpoint find_last_from (c : ascii) (l : path) (at_ : nat) : option nat :=
  match l with
  | [] => None
  | x :: l => match find_last_from c l (S at_) with
              | Some n => Some n
              | None => if bool_decide (x = c) then Some at_ else None
              end
  end.
Definition find_last (c : ascii) (l : path) : option nat := find_last_from c l 0.

(** The character at a position. *)
Definition at_pos (l : path) (n : nat) : option ascii := l !! n.

(** ** Numbers: [isspace], [strtoul], [sscanf("%Nx")] *)

Definition code (c : ascii) : Z := Z.of_nat (nat_of_ascii c).
Definition is_digit (c : ascii) : bool := (48 <=? code c) && (code c <=? 57).
Definition is_space (c : ascii) : bool := (code c =? 32) || ((9 <=? code c) && (code c <=? 13)).
Definition digit_of (base : Z) (c : ascii) : option Z :=
  let d := if is_digit c then code c - 48
           else if (97 <=? code c) && (code c <=? 122) then code c - 87
           else if (65 <=? code c) && (code c <=? 90) then code c - 55 else 36 in
  if d <? base then Some d else None.

Fixpoint skip_space (l : path) : path :=
  match l with
  | c :: l' => if is_space c then skip_space l' else l
  | [] => []
  end.

(** Digits, at most [n] of them; how many, their value, and the rest. *)
Fixpoint digits (base : Z) (n : nat) (acc : Z) (l : path) : nat * Z * path :=
  match n, l with
  | S n', c :: l' =>
      match digit_of base c with
      | Some d => let '(k, v, r) := digits base n' (acc * base + d) l' in (S k, v, r)
      | None => (O, acc, l)
      end
  | _, _ => (O, acc, l)
  end.

(** Beyond an unsigned long the value sticks at the largest. *)
Definition saturate (v : Z) : Z := Z.min v 18446744073709551615.

Definition take_sign (n : nat) (l : path) : bool * nat * path :=
  match n, l with
  | S n', c :: l' => if bool_decide (c = "-"%char) then (true, n', l')
                     else if bool_decide (c = "+"%char) then (false, n', l') else (false, n, l)
  | _, _ => (false, n, l)
  end.

Definition is_x (c : ascii) : bool := bool_decide (c = "x"%char) || bool_decide (c = "X"%char).

(** One [%Nx] conversion; the prefix [0x] counts as a digit. *)
Definition scan_hex (width : nat) (l : path) : option (Z * path) :=
  let '(neg, n, l) := take_sign width (skip_space l) in
  let '(k, v, r) :=
    match n, l with
    | S (S n'), c0 :: c1 :: l' =>
        if bool_decide (c0 = "0"%char) && is_x c1 then
          let '(k, v, r) := digits 16 n' 0 l' in (S k, v, r)
        else digits 16 n 0 l
    | _, _ => digits 16 n 0 l
    end in
  match k with
  | O => None
  | _ => Some (u32 (if neg then - saturate v else saturate v), r)
  end.

Definition scan_char (c : ascii) (l : path) : option path :=
  match l with x :: l' => if bool_decide (x = c) then Some l' else None | [] => None end.

(** [sscanf(s, "%04x:%02x:%02x.%x", ...) == 4] *)
Definition scan_pci_addr (l : path) : option (Z * Z * Z * Z) :=
  match scan_hex 4 l with
  | None => None
  | Some (domain, l) =>
  match scan_char colon l with
  | None => None
  | Some l =>
  match scan_hex 2 l with
  | None => None
  | Some (bus, l) =>
  match scan_char colon l with
  | None => None
  | Some l =>
  match scan_hex 2 l with
  | None => None
  | Some (device, l) =>
  match scan_char dot l with
  | None => None
  | Some l =>
  match scan_hex (length l) l with
  | None => None
  | Some (function, _) => Some (domain, bus, device, function)
  end end end end end end end.

(** [strtoul(s, NULL, 0)] *)
Definition strtoul0 (l : path) : Z :=
  let '(neg, n, l) := take_sign (length l) (skip_space l) in
  let '(_, v, _) :=
    match l with
    | c0 :: c1 :: c2 :: l' =>
        if bool_decide (c0 = "0"%char) && is_x c1 then
          match digit_of 16 c2 with
          | Some _ => digits 16 (length l) 0 (c2 :: l')
          | None => (O, 0, l)
          end
        else if bool_decide (c0 = "0"%char) then digits 8 (length l) 0 l else digits 10 (length l) 0 l
    | c0 :: _ => if bool_decide (c0 = "0"%char) then digits 8 (length l) 0 l else digits 10 (length l) 0 l
    | [] => (O, 0, l)
    end in
  if neg then u64 (- saturate v) else saturate v.

(** ** Device nodes *)

Definition xioBasename (p : path) : path :=
  match find_last slash p with None => p | Some n => drop (S n) p end.

Fixpoint skip_digits (l : path) : path :=
  match l with c :: l' => if is_digit c then skip_digits l' else l | [] => [] end.

(** [nvme<digits>n<digits>] *)
Definition isNvmeNamespaceName (name : path) : bool :=
  if negb (bool_decide (take 4 name = chars "nvme")) then false else
  let l := drop 4 name in
  let l' := skip_digits l in
  if (length l' =? length l)%nat then false else
  match l' with
  | c :: ns => if negb (bool_decide (c = "n"%char)) then false else
               negb (length ns =? 0)%nat && (length (skip_digits ns) =? 0)%nat
  | [] => false
  end.

(** What sysfs says: a resolved path or the negated errno; a link's target; a
    file's text; the entries of the PCI device directory with the two ids in
    their configuration space, where each can be read. *)
Record sysfs := {
  fs_realpath : path -> Z + path;
  fs_readlink : path -> option path;
  fs_read : path -> Z + option path;
  fs_pci_devices : option (list (path * option (option Z * option Z)))
}.

Record NvmeDevicePath := { np_namespacePath : path; np_controllerPath : path; np_controllerName : path }.

(** Decimal, as [std::to_string] prints it. *)
Fixpoint decimal (fuel : nat) (n : Z) : path :=
  match fuel with
  | O => []
  | S f => (if n <? 10 then [] else decimal f (n / 10)) ++ [ascii_of_nat (Z.to_nat (48 + n mod 10))]
  end.

Section HostPci.
Variable fs : sysfs.

Definition resolveNvmeDevicePath (device_path : path) (nsid : Z) : Z + NvmeDevicePath :=
  match device_path with
  | [] => inl (- EINVAL)
  | _ =>
    let real_path := match fs_realpath fs device_path with inr p => p | inl _ => device_path end in
    let node_name := xioBasename real_path in
    match node_name with
    | [] => inl (- EINVAL)
    | _ =>
      if isNvmeNamespaceName node_name then
        match fs_realpath fs (chars "/sys/class/block/" ++ node_name ++ chars "/device") with
        | inl e => inl e
        | inr controller_real =>
            let name := xioBasename controller_real in
            inr {| np_namespacePath := device_path; np_controllerName := name;
                   np_controllerPath := chars "/dev/" ++ name |}
        end
      else
        match fs_realpath fs (chars "/sys/class/nvme/" ++ node_name) with
        | inl e => inl e
        | inr controller_real =>
            let name := xioBasename controller_real in
            inr {| np_controllerName := name; np_controllerPath := chars "/dev/" ++ name;
                   np_namespacePath := chars "/dev/" ++ name ++ chars "n" ++ decimal 10 nsid |}
        end
    end
  end.

(** [readlink] into a buffer of 256 bytes. *)
Definition controller_link (name : path) : option path :=
  match fs_readlink fs (chars "/sys/class/nvme/" ++ name ++ chars "/device") with
  | Some l => Some (take 255 l)
  | None => None
  end.

(** The loop over the colons of a link: the last place four characters
    before one, at the start of a component. *)
Fixpoint scan_link (fuel : nat) (l : path) (pos : nat) (pci_start : option nat) : option nat :=
  match fuel with
  | O => pci_start
  | S fuel =>
      if (length l <=? pos)%nat then pci_start else
      match find colon l pos with
      | None => pci_start
      | Some colon1 =>
          if (length l <=? colon1 + 3)%nat then pci_start else
          match find colon l (colon1 + 1) with
          | None => pci_start
          | Some colon2 =>
              let here :=
                match find dot l (colon2 + 1) with
                | None => false
                | Some _ =>
                    (4 <=? colon1)%nat &&
                    ((colon1 - 4 =? 0)%nat || bool_decide (at_pos l (colon1 - 4 - 1) = Some slash))
                end in
              scan_link fuel l (colon1 + 1) (if here then Some (colon1 - 4)%nat else pci_start)
          end
      end
  end.

(** From a place to the next slash. *)
Definition component_at (l : path) (start : nat) : path :=
  match find slash l start with
  | Some e => take (e - start) (drop start l)
  | None => drop start l
  end.

Definition encode_bdf (domain bus device function : Z) : Z :=
  Z.lor (Z.lor (Z.lor (u32 (Z.shiftl domain 16)) (u32 (Z.shiftl bus 8))) (u32 (Z.shiftl device 3))) function.

Definition detectBdfFromDevice (device_path : path) : Z + Z :=
  match resolveNvmeDevicePath device_path 1 with
  | inl e => inl e
  | inr np =>
    match controller_link (np_controllerName np) with
    | None => inl (- ENODEV)
    | Some link =>
      match scan_link (length link) link 0 None with
      | None => inl (- ENODEV)
      | Some start =>
        match scan_pci_addr (component_at link start) with
        | None => inl (- EINVAL)
        | Some (domain, bus, device, function) =>
            if (65535 <? domain) || (255 <? bus) || (31 <? device) || (7 <? function) then inl (- EINVAL)
            else inr (encode_bdf domain bus device function)
        end
      end
    end
  end.

(** The first place from which a pattern [DDDD:] starts a component. *)
Fixpoint scan_domain (fuel : nat) (l : path) (i : nat) : option nat :=
  match fuel with
  | O => None
  | S fuel =>
      if (length l <=? i + 5)%nat then None
      else if bool_decide (at_pos l (i + 4) = Some colon) &&
              ((i =? 0)%nat || bool_decide (at_pos l (i - 1) = Some slash)) then Some i
      else scan_domain fuel l (S i)
  end.

Definition read_id (p : path) : Z + Z :=
  match fs_read fs p with
  | inl e => inl e
  | inr (Some (c :: t)) => inr (u16 (strtoul0 (take 15 (c :: t))))
  | inr _ => inl (- EIO)
  end.

Definition QEMU_VENDOR_ID : Z := 6966.

(** The place of the PCI address in a controller's link. *)
Definition link_address (link : path) : option nat :=
  let start := match find_last slash link with Some n => S n | None => O end in
  if (length link - start <? 12)%nat || bool_decide (find colon link start = None)
  then scan_domain (length link) link 0 else Some start.

Definition detectEmulatedNvme (device_path : path) : Z + bool :=
  match resolveNvmeDevicePath device_path 1 with
  | inl e => inl e
  | inr np =>
    match controller_link (np_controllerName np) with
    | None => inl (- ENODEV)
    | Some link =>
      match link_address link with
      | None => inl (- ENODEV)
      | Some start =>
        let dev := chars "/sys/bus/pci/devices/" ++ component_at link start in
        match read_id (dev ++ chars "/vendor") with
        | inl e => inl e
        | inr vendor_id =>
          match read_id (dev ++ chars "/device") with
          | inl e => inl e
          | inr _ => inr (vendor_id =? QEMU_VENDOR_ID)
          end
        end
      end
    end
  end.

(** ** The PCI MMIO bridge *)

Definition PCI_MMIO_BRIDGE_DEVICE_ID : Z := 21.

(** The BDF of an entry that is a bridge; an id that cannot be read is 0. *)
Definition bridge_entry (e : path * option (option Z * option Z)) : option Z :=
  let '(name, config) := e in
  if bool_decide (head name = Some dot) then None
  else if (length name <? 12)%nat then None else
  match scan_pci_addr name with
  | None => None
  | Some (domain, bus, device, function) =>
    match config with
    | None => None
    | Some (vendor_id, device_id) =>
      if (default 0 vendor_id =? QEMU_VENDOR_ID) && (default 0 device_id =? PCI_MMIO_BRIDGE_DEVICE_ID)
      then Some (encode_bdf domain bus device function) else None
    end
  end.

Definition detectPciMmioBridgeBdf : Z + Z :=
  match fs_pci_devices fs with
  | None => inl (-1)
  | Some entries =>
    match omap bridge_entry entries with
    | [bdf] => inr bdf
    | _ => inl (-1)
    end
  end.
End HostPci.

(** ** Lemmas *)

Lemma hex_char c d :
  hex_val c = Some d ->
  digit_of 16 c = Some d /\ is_space c = false /\ bool_decide (c = "-"%char) = false /\
  bool_decide (c = "+"%char) = false /\ is_x c = false /\ c <> colon /\ c <> dot /\ c <> slash.
Proof. intros H. destruct c as [[] [] [] [] [] [] [] []]; vm_compute in H; try done; by injection H as <-. Qed.

Definition all_hex (l : path) : Prop := forall c, c ∈ l -> is_Some (hex_val c).

Lemma hex_fixed_hex n x : all_hex (hex_fixed n x).
Proof.
  revert x. induction n as [|n IH]; intros x c; cbn [hex_fixed]; [by intros ?%elem_of_nil|].
  intros [Hc|Hc]%elem_of_app; [by eapply IH|]. apply list_elem_of_singleton in Hc as ->.
  exists (x mod 16). apply hex_val_digit. by apply Z.mod_pos_bound.
Qed.

Lemma digits_unhex l v acc r :
  unhex acc l = Some v -> digits 16 (length l) acc (l ++ r) = (length l, v, r).
Proof.
  revert acc. induction l as [|c l IH]; intros acc H; cbn in H; [by injection H as ->; destruct r|].
  destruct (hex_val c) as [d|] eqn:Ed; [|done]. destruct (hex_char _ _ Ed) as [Hd _].
  cbn [length app digits]. rewrite Hd. by rewrite (IH _ H).
Qed.

(** A number of exactly its width is read back. *)
Lemma scan_hex_fixed n x r :
  (1 <= n)%nat -> 0 <= x < 16 ^ Z.of_nat n -> x < 4294967296 ->
  scan_hex n (hex_fixed n x ++ r) = Some (x, r).
Proof.
  intros Hn Hx Hx'. pose proof (unhex_hex_fixed n x 0 Hx) as Hu. rewrite Z.mul_0_l, Z.add_0_l in Hu.
  pose proof (hex_fixed_hex n x) as Hh. pose proof (length_hex_fixed n x) as Hl.
  pose proof (digits_unhex _ _ _ r Hu) as Hd. rewrite Hl in Hd.
  destruct (hex_fixed n x) as [|c l]; [cbn in Hl; lia|].
  destruct (Hh c ltac:(left)) as [d Ec]. destruct (hex_char _ _ Ec) as (_ & Hs & Hm & Hp & _).
  unfold scan_hex. cbn [app skip_space]. rewrite Hs. destruct n as [|n]; [lia|]. cbn [take_sign]. rewrite Hm, Hp.
  change (c :: (l ++ r)) with ((c :: l) ++ r) in *.
  assert (u32 (saturate x) = x) as Ex by (unfold saturate; rewrite Z.min_l by lia; apply u32_small; lia).
  destruct n as [|n].
  - rewrite Hd. by rewrite Ex.
  - destruct l as [|c1 l]; [cbn in Hl; lia|].
    destruct (Hh c1 ltac:(right; left)) as [d1 Ec1]. destruct (hex_char _ _ Ec1) as (_ & _ & _ & _ & Hx1 & _).
    cbn [app]. rewrite Hx1, andb_false_r. change (c :: c1 :: (l ++ r)) with ((c :: c1 :: l) ++ r). rewrite Hd.
    by rewrite Ex.
Qed.

Lemma scan_print_pci_addr d b v f :
  0 <= d < 65536 -> 0 <= b < 256 -> 0 <= v < 256 -> 0 <= f < 16 ->
  scan_pci_addr (print_pci_addr d b v f) = Some (d, b, v, f).
Proof.
  intros Hd Hb Hv Hf. unfold scan_pci_addr, print_pci_addr. rewrite scan_hex_fixed by (simpl; lia).
  cbn [app scan_char]. rewrite bool_decide_eq_true_2 by done. rewrite scan_hex_fixed by (simpl; lia).
  cbn [app scan_char]. rewrite bool_decide_eq_true_2 by done. rewrite scan_hex_fixed by (simpl; lia).
  cbn [app scan_char]. rewrite bool_decide_eq_true_2 by done. rewrite length_hex_fixed.
  rewrite <- (app_nil_r (hex_fixed 1 f)). by rewrite scan_hex_fixed by (simpl; lia).
Qed.

(** *** Searching *)

Lemma find_from_spec c l k pos :
  match find_from c l k pos with
  | Some n => (k <= n)%nat /\ (pos <= n)%nat /\ l !! (n - k)%nat = Some c /\
              forall m, (k <= m)%nat -> (pos <= m)%nat -> (m < n)%nat -> l !! (m - k)%nat <> Some c
  | None => forall m, (k <= m)%nat -> (pos <= m)%nat -> l !! (m - k)%nat <> Some c
  end.
Proof.
  revert k. induction l as [|x l IH]; intros k; cbn [find_from]; [done|].
  destruct (_ && _) eqn:E.
  - apply andb_true_iff in E as [Hp Hc]. apply Nat.leb_le in Hp. apply bool_decide_eq_true in Hc as ->. split_and!; [done|done| |intros; lia].
    by rewrite Nat.sub_diag.
  - assert (forall m, (k <= m)%nat -> (pos <= m)%nat -> m <> k \/ x <> c) as Hk.
    { intros m Hm Hpm. destruct (decide (m = k)) as [->|]; [right|by left]. intros ->.
      rewrite bool_decide_eq_true_2, andb_true_r in E by done. apply Nat.leb_gt in E. lia. }
    assert (forall m, (k <= m)%nat -> m <> k -> (x :: l) !! (m - k)%nat = l !! (m - S k)%nat) as Hs
      by (intros m Hm Hne; by replace (m - k)%nat with (S (m - S k)) by lia).
    specialize (IH (S k)). destruct (find_from c l (S k) pos) as [n|].
    + destruct IH as (H1 & H2 & H3 & H4). split_and!; [lia|done|by rewrite Hs by lia|].
      intros m Hm Hpm Hlt. destruct (Hk m Hm Hpm) as [Hne|Hne]; [rewrite Hs by done; apply H4; lia|].
      destruct (decide (m = k)) as [->|]; [by rewrite Nat.sub_diag; intros [=]|]. rewrite Hs by done. apply H4; lia.
    + intros m Hm Hpm. destruct (Hk m Hm Hpm) as [Hne|Hne]; [rewrite Hs by done; apply IH; lia|].
      destruct (decide (m = k)) as [->|]; [by rewrite Nat.sub_diag; intros [=]|]. rewrite Hs by done. apply IH; lia.
Qed.

Lemma find_None_spec c l pos : (forall m, (pos <= m)%nat -> l !! m <> Some c) -> find c l pos = None.
Proof.
  intros H. unfold find. pose proof (find_from_spec c l 0 pos) as Hs. destruct (find_from c l 0 pos) as [n|]; [|done].
  destruct Hs as (_ & H2 & H3 & _). rewrite Nat.sub_0_r in H3. by destruct (H n H2).
Qed.

(** The first one is at most where there is one. *)
Lemma find_Some_spec c l pos k :
  (pos <= k)%nat -> l !! k = Some c ->
  exists n, find c l pos = Some n /\ (pos <= n <= k)%nat /\ l !! n = Some c.
Proof.
  intros Hp Hk. unfold find. pose proof (find_from_spec c l 0 pos) as Hs. destruct (find_from c l 0 pos) as [n|].
  - destruct Hs as (_ & H2 & H3 & H4). rewrite Nat.sub_0_r in H3. exists n. split_and!; [done|done| |done].
    destruct (Nat.le_gt_cases n k) as [|Hlt]; [done|]. specialize (H4 k ltac:(lia) Hp Hlt).
    by rewrite Nat.sub_0_r in H4.
  - specialize (Hs k ltac:(lia) Hp). by rewrite Nat.sub_0_r in Hs.
Qed.

(** *** The shape of an address *)

(** Neither of the separators. *)
Definition plain (c : ascii) : Prop := c <> colon /\ c <> dot /\ c <> slash.

Lemma hex_plain l : all_hex l -> Forall plain l.
Proof. intros H. apply elem_Forall. intros c [x Ex]%H. by destruct (hex_char _ _ Ex) as (_ & _ & _ & _ & _ & ?). Qed.

Lemma print_lookup d b v f i c :
  print_pci_addr d b v f !! i = Some c ->
  (i < 12)%nat /\ (c = colon <-> i = 4%nat \/ i = 7%nat) /\ (c = dot <-> i = 10%nat) /\ c <> slash.
Proof.
  intros Hi. pose proof (lookup_lt_Some _ _ _ Hi) as Hlt. rewrite length_print_pci_addr in Hlt. split; [done|].
  unfold print_pci_addr in Hi.
  pose proof (hex_plain _ (hex_fixed_hex 4 d)) as HD. pose proof (hex_plain _ (hex_fixed_hex 2 b)) as HB.
  pose proof (hex_plain _ (hex_fixed_hex 2 v)) as HV. pose proof (hex_plain _ (hex_fixed_hex 1 f)) as HF.
  pose proof (length_hex_fixed 4 d) as LD. pose proof (length_hex_fixed 2 b) as LB.
  pose proof (length_hex_fixed 2 v) as LV. pose proof (length_hex_fixed 1 f) as LF.
  destruct (hex_fixed 4 d) as [|a0 [|a1 [|a2 [|a3 [|]]]]]; try discriminate LD.
  destruct (hex_fixed 2 b) as [|b0 [|b1 [|]]]; try discriminate LB.
  destruct (hex_fixed 2 v) as [|v0 [|v1 [|]]]; try discriminate LV.
  destruct (hex_fixed 1 f) as [|f0 [|]]; try discriminate LF. clear LD LB LV LF.
  repeat match goal with H : Forall _ (_ :: _) |- _ => apply Forall_cons_iff in H as [? H] end. unfold plain in *. cbn [app] in Hi.
  destruct i as [|[|[|[|[|[|[|[|[|[|[|[|i]]]]]]]]]]]]; try lia; cbn in Hi; injection Hi as <-;
    split_and!; try split; intros; subst; try done; try lia; try tauto.
Qed.

Section Address.
Variables (pre : path) (d b v f : Z).
Abbreviation addr := (print_pci_addr d b v f).
Abbreviation link := (pre ++ slash :: addr).
Abbreviation start := (S (length pre)).

Lemma link_length : length link = (start + 12)%nat.
Proof. rewrite length_app. cbn [length]. rewrite length_print_pci_addr. lia. Qed.

Lemma link_lookup i : link !! (start + i)%nat = addr !! i.
Proof.
  rewrite lookup_app_r by lia. replace (start + i - length pre)%nat with (S i) by lia. done.
Qed.

Lemma link_before : link !! (start - 1)%nat = Some slash.
Proof. rewrite lookup_app_r by lia. by replace (start - 1 - length pre)%nat with 0%nat by lia. Qed.

Lemma addr_at i c :
  (i < 12)%nat -> (c = colon /\ (i = 4%nat \/ i = 7%nat)) \/ (c = dot /\ i = 10%nat) -> link !! (start + i)%nat = Some c.
Proof.
  intros Hi Hc. rewrite link_lookup. destruct (lookup_lt_is_Some_2 addr i) as [c' Hc'];
    [by rewrite length_print_pci_addr|].
  destruct (print_lookup _ _ _ _ _ _ Hc') as (_ & H1 & H2 & _). rewrite Hc'. f_equal.
  destruct Hc as [[-> Hi']|[-> ->]]; [by apply H1|by apply H2].
Qed.

Lemma no_colon_after m : (start + 8 <= m)%nat -> link !! m <> Some colon.
Proof.
  intros Hm Hc. replace m with (start + (m - start))%nat in Hc by lia. rewrite link_lookup in Hc.
  destruct (print_lookup _ _ _ _ _ _ Hc) as (_ & H1 & _). destruct H1 as [H1 _]. destruct (H1 eq_refl); lia.
Qed.

Lemma no_slash_after m : (start <= m)%nat -> link !! m <> Some slash.
Proof.
  intros Hm Hc. replace m with (start + (m - start))%nat in Hc by lia. rewrite link_lookup in Hc.
  by destruct (print_lookup _ _ _ _ _ _ Hc) as (_ & _ & _ & H1).
Qed.

(** From anywhere before its first colon the loop ends at the last
    component. *)
Lemma scan_link_last fuel pos cur :
  (pos <= start + 4)%nat -> (start + 5 - pos < fuel)%nat -> scan_link fuel link pos cur = Some start.
Proof.
  revert pos cur. induction fuel as [|fuel IH]; intros pos cur Hpos Hfuel; [lia|]. cbn [scan_link].
  rewrite link_length. rewrite (proj2 (Nat.leb_gt _ _)) by lia.
  destruct (find_Some_spec colon link pos (start + 4)%nat) as (c1 & -> & Hc1 & Hat1); [done|by apply addr_at; [lia|left; auto]|].
  rewrite (proj2 (Nat.leb_gt _ _)) by lia.
  destruct (find_Some_spec colon link (c1 + 1)%nat (start + 7)%nat) as (c2 & -> & Hc2 & _); [lia|by apply addr_at; [lia|left; auto]|].
  destruct (Nat.eq_dec c1 (start + 4)%nat) as [->|Hne]; [|apply IH; lia].
  destruct (find_Some_spec dot link (c2 + 1)%nat (start + 10)%nat) as (dt & -> & _ & _); [lia|by apply addr_at; [lia|right; auto]|].
  replace (start + 4 - 4)%nat with start by lia. unfold at_pos. rewrite link_before.
  rewrite (bool_decide_eq_true_2 (Some slash = Some slash)), orb_true_r by done.
  rewrite (proj2 (Nat.leb_le 4%nat (start + 4)%nat)) by lia. cbn [andb].
  destruct fuel as [|fuel]; [lia|]. cbn [scan_link]. rewrite link_length. rewrite (proj2 (Nat.leb_gt _ _)) by lia.
  destruct (find_Some_spec colon link (start + 4 + 1)%nat (start + 7)%nat) as (c3 & -> & Hc3 & Hat3);
    [lia|by apply addr_at; [lia|left; auto]|].
  rewrite (proj2 (Nat.leb_gt _ _)) by lia. assert (c3 = (start + 7)%nat) as ->.
  { replace c3 with (start + (c3 - start))%nat in Hat3 by lia. rewrite link_lookup in Hat3.
    destruct (print_lookup _ _ _ _ _ _ Hat3) as (_ & [H1 _] & _). destruct (H1 eq_refl); lia. }
  by rewrite (find_None_spec colon link (start + 7 + 1)%nat) by (intros m Hm; apply no_colon_after; lia).
Qed.

Lemma component_at_last : component_at link start = addr.
Proof.
  unfold component_at. rewrite find_None_spec by (intros; by apply no_slash_after).
  change link with (pre ++ [slash] ++ addr). rewrite app_assoc. apply drop_app_length'. rewrite length_app. cbn [length]. lia.
Qed.

Lemma find_last_from_app (l1 l2 : path) k n :
  find_last_from slash l2 (k + length l1) = Some n -> find_last_from slash (l1 ++ l2) k = Some n.
Proof.
  revert k. induction l1 as [|x l1 IH]; intros k H; cbn [app find_last_from length] in *; [by rewrite Nat.add_0_r in H|].
  rewrite IH; [done|]. by replace (S k + length l1)%nat with (k + S (length l1))%nat by lia.
Qed.

Lemma find_last_from_none (l : path) k : (forall i, l !! i <> Some slash) -> find_last_from slash l k = None.
Proof.
  revert k. induction l as [|x l IH]; intros k H; [done|]. cbn [find_last_from].
  rewrite IH by (intros i; exact (H (S i))). rewrite bool_decide_eq_false_2; [done|]. intros ->. exact (H 0%nat eq_refl).
Qed.

Lemma link_address_last : link_address link = Some start.
Proof.
  unfold link_address. assert (find_last slash link = Some (length pre)) as ->.
  { apply find_last_from_app. cbn [find_last_from]. rewrite find_last_from_none; [by rewrite bool_decide_eq_true_2|].
    intros i Hi. by destruct (print_lookup _ _ _ _ _ _ Hi) as (_ & _ & _ & ?). }
  rewrite link_length, (proj2 (Nat.ltb_ge _ _)) by lia.
  destruct (find_Some_spec colon link start (start + 4)%nat) as (c & -> & _); [lia|by apply addr_at; [lia|left; auto]|].
  by rewrite bool_decide_eq_false_2.
Qed.
End Address.

(** *** The ids of sysfs *)

Definition newline : ascii := ascii_of_nat 10.

(** [0x%04x] and a newline. *)
Definition print_id (v : Z) : path := "0"%char :: "x"%char :: hex_fixed 4 v ++ [newline].

Lemma digits_stop base n acc l c r k v :
  digits base n acc l = (k, v, []) -> digit_of base c = None -> (length l <= n)%nat ->
  exists r', digits base n acc (l ++ c :: r) = (k, v, r').
Proof.
  revert n acc k. induction l as [|x l IH]; intros n acc k H Hc Hn; cbn [app].
  - destruct n as [|n]; cbn in H |- *; [injection H as <- <-; by eexists|]. injection H as <- <-. rewrite Hc. by eexists.
  - destruct n as [|n]; [cbn in Hn; lia|]. cbn [digits] in H |- *. destruct (digit_of base x); [|done].
    destruct (digits base n _ l) as [[k' v'] r'] eqn:E. injection H as <- <- ->. cbn in Hn.
    destruct (IH n _ k' E Hc ltac:(lia)) as [r'' ->]. by eexists.
Qed.

Lemma digits_enough base l : forall n m acc k v, digits base n acc l = (k, v, []) -> (n <= m)%nat -> digits base m acc l = (k, v, []).
Proof.
  induction l as [|x l IH]; intros n m acc k v H Hm; [by destruct n, m|]. destruct n as [|n]; [done|].
  destruct m as [|m]; [lia|]. cbn [digits] in *. destruct (digit_of base x); [|done].
  destruct (digits base n _ l) as [[k' v'] r'] eqn:E. injection H as <- <- ->. by rewrite (IH n m _ k' v' E) by lia.
Qed.

Lemma strtoul0_print_id v : 0 <= v < 65536 -> strtoul0 (print_id v) = v.
Proof.
  intros Hv. assert (0 <= v < 16 ^ Z.of_nat 4) as Hv' by done.
  pose proof (unhex_hex_fixed 4 v 0 Hv') as Hu. rewrite Z.mul_0_l, Z.add_0_l in Hu.
  pose proof (digits_unhex _ _ _ [] Hu) as Hd. rewrite app_nil_r, length_hex_fixed in Hd.
  pose proof (hex_fixed_hex 4 v) as Hh. pose proof (length_hex_fixed 4 v) as Hl.
  unfold strtoul0, print_id. destruct (hex_fixed 4 v) as [|c l]; [done|].
  destruct (Hh c ltac:(left)) as [x Ex]. destruct (hex_char _ _ Ex) as (Hx & _).
  cbn [skip_space is_space]. replace (is_space "0"%char) with false by done.
  cbn [length take_sign app]. rewrite !bool_decide_eq_false_2 by done. rewrite bool_decide_eq_true_2 by done.
  replace (is_x "x"%char) with true by done. cbn [andb]. rewrite Hx.
  apply (digits_enough _ _ _ (S (S (S (length (l ++ [newline]))))) ) in Hd; [|cbn in Hl; rewrite length_app; cbn; lia].
  destruct (digits_stop _ _ _ _ newline [] _ _ Hd) as [r' Hr]; [done|cbn; rewrite length_app; cbn; lia|].
  cbn [app length] in Hr |- *. rewrite Hr. unfold saturate. lia.
Qed.

(** ** Theorems *)

Section Found.
Variables (fs : sysfs) (dev : path) (np : NvmeDevicePath) (pre : path) (d b v f : Z).
Hypothesis Hnp : resolveNvmeDevicePath fs dev 1 = inr np.
Hypothesis Hlink : controller_link fs (np_controllerName np) = Some (pre ++ slash :: print_pci_addr d b v f).
Hypothesis Hrange : 0 <= d < 65536 /\ 0 <= b < 256 /\ 0 <= v < 32 /\ 0 <= f < 8.

(** C36: The address of a controller is the last component of its link.
    Whatever comes before it in the link, bridges with addresses of their own
    included, [detectBdfFromDevice] returns the encoding of the domain, bus,
    device and function that sysfs prints there; the encoding is that of the
    module's interface, and formatting it in the kernel gives the name back. *)
Theorem device_address_found buf :
  buf <> NULL -> ROCM_XIO_BDF d b v f <> 0 ->
  detectBdfFromDevice fs dev = inr (ROCM_XIO_BDF d b v f) /\
  format_bdf_as_pci_addr (ROCM_XIO_BDF d b v f) buf 16 = Some (print_pci_addr d b v f).
Proof.
  intros Hbuf Hne. destruct Hrange as (Hd & Hb & Hv & Hf). split.
  - unfold detectBdfFromDevice. rewrite Hnp, Hlink, scan_link_last by (rewrite ?link_length; lia).
    rewrite component_at_last, scan_print_pci_addr by lia.
    rewrite !(proj2 (Z.ltb_ge _ _)) by lia. cbn [orb]. unfold encode_bdf, ROCM_XIO_BDF.
    by rewrite (u32_small d), (u32_small b), (u32_small v), (u32_small f) by lia.
  - unfold format_bdf_as_pci_addr. rewrite (proj2 (Z.eqb_neq _ 0) Hne), (proj2 (Z.eqb_neq buf NULL) Hbuf).
    cbn [orb Z.ltb Z.compare Pos.compare Pos.compare_cont].
    destruct (bdf_decode_encode d b v f) as (-> & -> & -> & ->); done.
Qed.

(** A controller is emulated exactly when its PCI vendor is the one of
    QEMU's devices, read where sysfs has it under the address that the
    controller's link ends with. *)
Theorem emulation_decided_by_vendor vendor t :
  0 <= vendor < 65536 ->
  fs_read fs (chars "/sys/bus/pci/devices/" ++ print_pci_addr d b v f ++ chars "/vendor") = inr (Some (print_id vendor)) ->
  fs_read fs (chars "/sys/bus/pci/devices/" ++ print_pci_addr d b v f ++ chars "/device") = inr (Some t) -> t <> [] ->
  detectEmulatedNvme fs dev = inr (vendor =? QEMU_VENDOR_ID).
Proof.
  intros Hv Hr Hr' Ht. unfold detectEmulatedNvme. rewrite Hnp, Hlink, link_address_last, component_at_last.
  unfold read_id. rewrite <- !app_assoc, Hr, Hr'. unfold print_id at 1.
  destruct t as [|c t]; [done|].
  change (take 15 _) with (print_id vendor). rewrite strtoul0_print_id by done. by rewrite (u16_small vendor) by done.
Qed.
End Found.

(** ** An example *)

Definition demo_fs : sysfs := {|
  fs_realpath p :=
    if bool_decide (p = chars "/dev/nvme2n1") then inr p
    else if bool_decide (p = chars "/sys/class/block/nvme2n1/device")
    then inr (chars "/sys/devices/pci0000:80/0000:80:01.1/0000:85:00.0/nvme/nvme2")
    else inl (-2);
  fs_readlink p := Some (chars "../../../0000:80:01.1/0000:85:00.0");
  fs_read p :=
    if bool_decide (p = chars "/sys/bus/pci/devices/0000:85:00.0/vendor") then inr (Some (print_id 6966))
    else inr (Some (print_id 16));
  fs_pci_devices := Some []
|}.

Definition demo_device : path := chars "/dev/nvme2n1".

Definition demo_np : NvmeDevicePath :=
  {| np_namespacePath := chars "/dev/nvme2n1"; np_controllerPath := chars "/dev/nvme2"; np_controllerName := chars "nvme2" |}.

Lemma device_address_found_witness :
  detectBdfFromDevice demo_fs (chars "/dev/nvme2n1") = inr 34048 /\
  format_bdf_as_pci_addr 34048 1 16 = Some (print_pci_addr 0 133 0 0).
Proof.
  exact (device_address_found demo_fs (chars "/dev/nvme2n1") demo_np (chars "../../../0000:80:01.1") 0 133 0 0
    eq_refl eq_refl ltac:(lia) 1 ltac:(done) ltac:(done)).
Defined.

Lemma emulation_decided_by_vendor_witness : detectEmulatedNvme demo_fs (chars "/dev/nvme2n1") = inr true.
Proof.
  exact (emulation_decided_by_vendor demo_fs (chars "/dev/nvme2n1") demo_np (chars "../../../0000:80:01.1") 0 133 0 0
    eq_refl eq_refl 6966 (print_id 16) ltac:(lia) eq_refl eq_refl ltac:(done)).
Defined.
