(* ===== verification/HostAdmin.v ===== *)
(** * Telling the controller about a queue

    The admin commands of [src/src/endpoints/nvme-ep/nvme-ep.hip]: deleting
    and creating a pair of queues through NVME_IOCTL_ADMIN_CMD, after the
    kernel module has been told where the queues are.  Every command passes
    the module's probe, whose own definition runs here, on its way to the
    controller; what the controller is sent is kept in [ks_admin].

    The theorems: a creation that succeeds has sent the controller exactly
    the addresses that were registered for the two queues, the completion
    queue first; and a creation that the controller rejects is reported as a
    success. *)

From S2P Require Import Prelude Uapi Kernel State Demo QueueReg DmaBuf BufferReg Contig Quiesce Snapshot Poison Kprobe Frame Driver FileLife HostEnv HostDemo HostMem HostModule HostContig.

Definition EINTR : Z := 4.
Definition NVME_EP_SQE_SIZE : Z := 64.
Definition NVME_EP_CQE_SIZE : Z := 16.

Definition nvme_admin_delete_sq : Z := 0.
Definition nvme_admin_create_sq : Z := 1.
Definition nvme_admin_delete_cq : Z := 4.
Definition nvme_admin_create_cq : Z := 5.

Section HostAdmin.
Context {K : Kernel} {E : HostEnv}.
Variable cfg : build_config.
(** The request queue of the controller's admin commands and the place of the
    command, as the NVMe driver passes them; and how often an interrupted
    ioctl is issued again. *)
Variables admin_q command : ptr.
Variable retries : nat.

(** The command as the driver builds it, and as it leaves the probe. *)
Definition built (opcode cdw10 : Z) : nvme_command :=
  {| cm_opcode := opcode; cm_prp1 := 0; cm_prp2 := 0; cm_cdw10 := cdw10 |}.
Definition probe_regs (addr : Z) : pt_regs := {| rg_di := admin_q; rg_si := command; rg_dx := addr; rg_ax := 0 |}.
Definition seen_of (c : nvme_command) (cdw11 : Z) : admin_seen :=
  {| as_opcode := cm_opcode c; as_prp1 := cm_prp1 c; as_prp2 := cm_prp2 c; as_cdw10 := cm_cdw10 c;
     as_cdw11 := cdw11 |}.

(** NVME_IOCTL_ADMIN_CMD: what it returns, and the result word. *)
Definition ioctl_admin (opcode addr cdw10 cdw11 : Z) : HostM (Z * Z) :=
  let* refused := consult he_admin_refused in
  if refused <? 0 then ret (refused, 0) else
  let* c := in_module (nvme_submit_user_cmd_pre cfg (probe_regs addr) (built opcode cdw10)) in
  modify (set_kernel (with_admin (seen_of c cdw11))) ;;;
  consult (fun v => he_admin_cmd v (seen_of c cdw11)).

Fixpoint eintr_loop (n : nat) (opcode addr cdw10 cdw11 : Z) : HostM (Z * Z) :=
  let* '(rc, result) := ioctl_admin opcode addr cdw10 cdw11 in
  match n with
  | S n => if rc =? - EINTR then eintr_loop n opcode addr cdw10 cdw11 else ret (rc, result)
  | O => ret (rc, result)
  end.
Definition ioctlEintrSafe : Z -> Z -> Z -> Z -> HostM (Z * Z) := eintr_loop retries.

Definition deleteQueue (nvme_fd queue_id : Z) : HostM Z :=
  if nvme_fd <? 0 then ret (- EINVAL) else
  ioctlEintrSafe nvme_admin_delete_sq 0 queue_id 0 ;;;
  ioctlEintrSafe nvme_admin_delete_cq 0 queue_id 0 ;;;
  ret 0.

Definition queue_cdw10 (queue_size queue_id : Z) : Z := Z.lor (Z.shiftl (queue_size - 1) 16) queue_id.
Definition cq_cdw11 (cq_pc : bool) : Z := if cq_pc then 1 else 0.
Definition sq_cdw11 (queue_id : Z) (sq_pc : bool) : Z :=
  Z.lor (u32 (Z.shiftl queue_id 16)) (if sq_pc then 1 else 0).

Definition createQueueCommands (nvme_fd queue_id queue_size : Z) (sq_virt cq_virt : ptr) (sq_pc cq_pc : bool)
    : HostM Z :=
  if (nvme_fd <? 0) || is_null sq_virt || is_null cq_virt || (queue_size =? 0) then ret (- EINVAL) else
  let* '(rc, result) := ioctlEintrSafe nvme_admin_create_cq cq_virt (queue_cdw10 queue_size queue_id) (cq_cdw11 cq_pc) in
  if rc <? 0 then ret rc else
  if negb (Z.land result 65534 =? 0) then ret (- EIO) else
  memset0 cq_virt (queue_size * NVME_EP_CQE_SIZE) ;;;
  let* '(rc, result) :=
    ioctlEintrSafe nvme_admin_create_sq sq_virt (queue_cdw10 queue_size queue_id) (sq_cdw11 queue_id sq_pc) in
  if rc <? 0 then ret rc else
  if negb (Z.land result 65534 =? 0) then ret (- EIO) else ret 0.

(** The middle of [createQueue]: both queues are registered with the module,
    what there was under the id is deleted, and the queues are created. *)
Definition prp1_of (q : xioQueueSetup) : Z :=
  if qs_prp_list_phys q =? 0 then qs_phys q else qs_prp_list_phys q.
Definition announceQueues (kmod_fd : Z) (file : ptr) (nvme_fd queue_id queue_size nvme_bdf : Z)
    (sq cq : xioQueueSetup) (sq_pc cq_pc : bool) : HostM Z :=
  let* rc := kmodRegQueue kmod_fd file (qs_virt sq) (prp1_of sq) (queue_size * NVME_EP_SQE_SIZE) 0 nvme_bdf (qs_prp2 sq) in
  if rc <? 0 then ret rc else
  let* rc := kmodRegQueue kmod_fd file (qs_virt cq) (prp1_of cq) (queue_size * NVME_EP_CQE_SIZE) 1 nvme_bdf (qs_prp2 cq) in
  if rc <? 0 then ret rc else
  deleteQueue nvme_fd queue_id ;;;
  createQueueCommands nvme_fd queue_id queue_size (qs_virt sq) (qs_virt cq) sq_pc cq_pc.

End HostAdmin.

(** ** What is sent *)

(** From [s] to [s'] the controller is sent [l], latest first, the queues [es]
    are registered, and nothing else changes that the process holds or the
    module is configured with. *)
Record sent (s s' : host) (es : list queue_addr_entry) (l : list admin_seen) : Prop := {
  se_held : ho_held s' = ho_held s;
  se_vmem : ho_vmem s' = ho_vmem s;
  se_bad : ho_bad s' = ho_bad s;
  se_admin : ks_admin (ho_kernel s') = l ++ ks_admin (ho_kernel s);
  se_queues : st_queue_addrs (ks_mod (ho_kernel s')) = es ++ st_queue_addrs (ks_mod (ho_kernel s));
  se_regs : st_regs (ks_mod (ho_kernel s')) = st_regs (ks_mod (ho_kernel s))
}.

Lemma sent_trans s s1 s2 es l es' l' :
  sent s s1 es l -> sent s1 s2 es' l' -> sent s s2 (es' ++ es) (l' ++ l).
Proof. intros [] []. split; rewrite <- ?app_assoc; congruence. Qed.

Lemma sent_more s s1 s2 es l l' : sent s s1 es l -> sent s1 s2 [] l' -> sent s s2 es (l' ++ l).
Proof. apply sent_trans. Qed.

Lemma after_sent s s' : after s s' (ho_held s) (ho_vmem s) -> sent s s' [] [].
Proof. intros [? ? ? Hk]. by split; rewrite ?Hk. Qed.

Section AdminSpec.
Context {K : Kernel} {E : HostEnv}.
Variable cfg : build_config.
Variables admin_q command : ptr.
Variable retries : nat.

Lemma wp_any {St A} (m : M St A) (Q : A -> St -> Prop) s : (forall a s', Q a s') -> wp m Q s.
Proof using Type. intros HQ. unfold wp. by destruct (m s). Qed.

(** The probe keeps the opcode and the queue's number. *)
Lemma probe_keeps regs c s :
  wp (nvme_submit_user_cmd_pre cfg regs c)
    (fun c' _ => cm_opcode c' = cm_opcode c /\ cm_cdw10 c' = cm_cdw10 c) s.
Proof using Type.
  unfold nvme_submit_user_cmd_pre, pre_create, pre_io, pre_delete.
  repeat (xwp; try (apply wp_any; intros; cbv beta)); repeat case_match; done.
Qed.

(** One command; [P] is what the probe makes of it. *)
Lemma ioctl_admin_spec opcode addr cdw10 cdw11 (P : admin_seen -> Prop) s (Q : Z * Z -> host -> Prop) :
  wp (nvme_submit_user_cmd_pre cfg (probe_regs admin_q command addr) (built opcode cdw10))
    (fun c _ => P (seen_of c cdw11)) (ks_mod (ho_kernel s)) ->
  (forall rc s', rc < 0 -> sent s s' [] [] -> ho_mem s' = ho_mem s -> Q (rc, 0) s') ->
  (forall v x s', P x -> sent s s' [] [x] -> ho_mem s' = ho_mem s -> Q (he_admin_cmd v x) s') ->
  wp (ioctl_admin cfg admin_q command opcode addr cdw10 cdw11) Q s.
Proof using Type.
  intros HP H1 H2. unfold ioctl_admin. apply wp_bind, wp_consult. intros s1 A1 M1.
  pose proof (af_kernel _ _ _ _ A1) as K1. pose proof (after_sent _ _ A1) as S1.
  destruct (_ <? 0) eqn:Er; bool_to_prop; [by apply wp_ret, H1|].
  set (regs := probe_regs _ _ _) in *. set (c0 := built _ _) in *.
  pose proof (user_cmd_pre_touches cfg regs c0) as Ht. rewrite <- K1 in HP.
  apply wp_bind. eapply (wp_in_module _ (fun c m' => P (seen_of c cdw11) /\
    st_queue_addrs m' = st_queue_addrs (ks_mod (ho_kernel s)) /\ st_regs m' = st_regs (ks_mod (ho_kernel s)))).
  { specialize (Ht (ks_mod (ho_kernel s1))). unfold wp in *.
    destruct (nvme_submit_user_cmd_pre _ _ _ _) as [c m']. rewrite <- K1.
    split; [done|]. split; [by apply (Ht PQueues)|by apply (Ht PRegs)]. }
  intros c m' s2 (Hx & Hq & Hr) B2 M2. apply wp_bind, wp_set_kernel. intros s3 B3 M3.
  apply wp_consult. intros s4 A4 M4. apply H2; [done| |congruence].
  destruct S1, B2 as [? ? ? Hk2], B3 as [? ? ? Hk3], A4 as [? ? ? Hk4].
  rewrite Hk2 in Hk3. split; rewrite ?Hk4, ?Hk3; cbn [ks_admin ks_mod with_admin with_mod]; try congruence.
  rewrite <- K1. done.
Qed.

Lemma eintr_loop_spec n opcode addr cdw10 cdw11 (P : admin_seen -> Prop) s (Q : Z * Z -> host -> Prop) :
  (forall s1 l, sent s s1 [] l ->
    wp (nvme_submit_user_cmd_pre cfg (probe_regs admin_q command addr) (built opcode cdw10))
      (fun c _ => P (seen_of c cdw11)) (ks_mod (ho_kernel s1))) ->
  (forall rc l s', rc < 0 -> sent s s' [] l -> Forall P l -> ho_mem s' = ho_mem s -> Q (rc, 0) s') ->
  (forall v x l s', sent s s' [] (x :: l) -> Forall P (x :: l) -> ho_mem s' = ho_mem s ->
     Q (he_admin_cmd v x) s') ->
  wp (eintr_loop cfg admin_q command n opcode addr cdw10 cdw11) Q s.
Proof using Type.
  revert s Q. induction n as [|n IH]; intros s Q HP H1 H2; cbn [eintr_loop].
  all: apply wp_bind, (ioctl_admin_spec _ _ _ _ P).
  all: try by apply (HP s []), after_sent, after_refl.
  - intros rc s1 Hrc S1 M1. by apply wp_ret, (H1 rc []).
  - intros v x s1 Hx S1 M1. destruct (he_admin_cmd v x) as [rc res] eqn:Er. rewrite <- Er.
    apply wp_ret, (H2 v x []); [done|by constructor|done].
  - intros rc s1 Hrc S1 M1. destruct (rc =? - EINTR); [|by apply wp_ret, (H1 rc [])].
    apply IH.
    + intros s2 l S2. eapply HP, (sent_more _ _ _ _ _ _ S1 S2).
    + intros rc' l s2 ? S2 Hl M2. eapply H1; [done|apply (sent_more _ _ _ _ _ _ S1 S2)|by rewrite app_nil_r|congruence].
    + intros v x l s2 S2 Hl M2. eapply H2; [|exact Hl|congruence].
      pose proof (sent_more _ _ _ _ _ _ S1 S2) as S. by rewrite app_nil_r in S.
  - intros v x s1 Hx S1 M1. destruct (he_admin_cmd v x) as [rc res] eqn:Er.
    destruct (rc =? - EINTR); [|rewrite <- Er; apply wp_ret, (H2 v x []); [done|by constructor|done]].
    apply IH.
    + intros s2 l S2. eapply HP, (sent_more _ _ _ _ _ _ S1 S2).
    + intros rc' l s2 ? S2 Hl M2. eapply H1; [done|apply (sent_more _ _ _ _ _ _ S1 S2)| |congruence].
      apply Forall_app. split; [done|by constructor].
    + intros v' x' l s2 S2 Hl M2. eapply (H2 v' x' (l ++ [x])); [apply (sent_more _ _ _ _ _ _ S1 S2)| |congruence].
      rewrite app_comm_cons. apply Forall_app. split; [done|by constructor].
Qed.

(** More retries change nothing once an ioctl is not interrupted. *)
Lemma eintr_enough n k opcode addr cdw10 cdw11 s rc result s' :
  eintr_loop cfg admin_q command n opcode addr cdw10 cdw11 s = ((rc, result), s') -> rc <> - EINTR ->
  eintr_loop cfg admin_q command (n + k) opcode addr cdw10 cdw11 s = ((rc, result), s').
Proof using Type.
  intros Hn Hrc. revert s Hn. induction n as [|n IH]; intros s Hn; cbn [eintr_loop Nat.add] in *; unfold bind in *;
    destruct (ioctl_admin _ _ _ _ _ _ _ s) as [[rc1 r1] s1] eqn:E1.
  - injection Hn as -> -> ->. destruct k; cbn [eintr_loop]; unfold bind; rewrite E1; [done|].
    by rewrite (proj2 (Z.eqb_neq _ _) Hrc).
  - destruct (rc1 =? - EINTR); [by apply IH|done].
Qed.

(** ** Deleting *)

Definition deletion (x : admin_seen) : Prop :=
  as_opcode x = nvme_admin_delete_sq \/ as_opcode x = nvme_admin_delete_cq.

Lemma delete_command_spec opcode qid s (Q : Z * Z -> host -> Prop) :
  opcode = nvme_admin_delete_sq \/ opcode = nvme_admin_delete_cq ->
  (forall r l s', sent s s' [] l -> Forall deletion l -> ho_mem s' = ho_mem s -> Q r s') ->
  wp (ioctlEintrSafe cfg admin_q command retries opcode 0 qid 0) Q s.
Proof using Type.
  intros Ho HQ. apply (eintr_loop_spec _ _ _ _ _ deletion); [|by eauto..].
  intros s1 l _. eapply wp_mono; [apply probe_keeps|]. intros c _ [Hc _]. unfold deletion. cbn. by rewrite Hc.
Qed.

Lemma deleteQueue_spec fd qid s (Q : Z -> host -> Prop) :
  (forall rc l s', sent s s' [] l -> Forall deletion l -> ho_mem s' = ho_mem s -> Q rc s') ->
  wp (deleteQueue cfg admin_q command retries fd qid) Q s.
Proof using Type.
  intros HQ. unfold deleteQueue. destruct (fd <? 0); [by eapply wp_ret, HQ; [apply after_sent, after_refl|..]|].
  apply wp_bind, delete_command_spec; [by left|]. intros _ l1 s1 S1 Hl1 M1.
  apply wp_bind, delete_command_spec; [by right|]. intros _ l2 s2 S2 Hl2 M2.
  eapply wp_ret, HQ; [apply (sent_more _ _ _ _ _ _ S1 S2)|by apply Forall_app|congruence].
Qed.

(** ** Creating *)

(** What the module tells of a queue's address. *)
Definition known (q : xioQueueSetup) (l : list queue_addr_entry) : Prop :=
  lookup_queue_phys_addr l (qs_virt q) = prp1_of q /\ lookup_queue_prp2 l (qs_virt q) = qs_prp2 q.

(** The command that creates a queue, as the controller should get it. *)
Definition creation (opcode : Z) (q : xioQueueSetup) (cdw10 cdw11 : Z) : admin_seen :=
  {| as_opcode := opcode; as_prp1 := prp1_of q; as_prp2 := qs_prp2 q; as_cdw10 := cdw10; as_cdw11 := cdw11 |}.

(** The probe is in place and sees admin commands. *)
Definition injecting (s : host) : Prop :=
  mr_inject_enabled (st_regs (ks_mod (ho_kernel s))) = true /\ cfg_x86_64 cfg = true /\ command <> NULL /\
  is_admin_queue admin_q = true.

Lemma create_command_spec opcode q cdw10 cdw11 s (Q : Z * Z -> host -> Prop) :
  opcode = nvme_admin_create_sq \/ opcode = nvme_admin_create_cq ->
  injecting s -> qs_virt q <> NULL -> prp1_of q <> 0 -> known q (st_queue_addrs (ks_mod (ho_kernel s))) ->
  (forall rc l s', rc < 0 -> sent s s' [] l -> ho_mem s' = ho_mem s ->
     Forall (fun x => x = creation opcode q cdw10 cdw11) l -> Q (rc, 0) s') ->
  (forall v x l s', sent s s' [] (x :: l) -> Forall (fun x => x = creation opcode q cdw10 cdw11) (x :: l) ->
     ho_mem s' = ho_mem s -> Q (he_admin_cmd v x) s') ->
  wp (ioctlEintrSafe cfg admin_q command retries opcode (qs_virt q) cdw10 cdw11) Q s.
Proof using Type.
  intros Ho (Hi & Hx & Hc & Ha) Hv Hp [Hk1 Hk2] H1 H2.
  apply (eintr_loop_spec _ _ _ _ _ (fun x => x = creation opcode q cdw10 cdw11)); [|by eauto..].
  intros s1 l [_ _ _ _ Hq Hr]. cbn [app] in Hq.
  eapply wp_mono; [apply create_injected|].
  - split_and!; [by rewrite Hr|done|done].
  - done.
  - destruct Ho as [-> | ->]; auto.
  - done.
  - intros c _ (E1 & E2 & E3 & E4 & _). cbn [rg_dx probe_regs cm_prp2 cm_opcode cm_cdw10 built] in *.
    rewrite Hq, Hk1, Hk2, (proj2 (Z.eqb_neq _ _) Hp) in *. cbn [orb] in E2. unfold seen_of, creation.
    rewrite E1, E2, E3, E4. by destruct (Z.eqb_spec (qs_prp2 q) 0) as [->|].
Qed.

Lemma injecting_sent s s' es l : injecting s -> sent s s' es l -> injecting s'.
Proof using Type. intros (Hi & ?) [_ _ _ _ _ Hr]. split; [by rewrite Hr|done]. Qed.

(** The commands of a successful creation, latest first. *)
Definition created (queue_id queue_size : Z) (sq cq : xioQueueSetup) (sq_pc cq_pc : bool) (l : list admin_seen) : Prop :=
  exists sqs cqs, l = sqs ++ cqs /\ sqs <> [] /\ cqs <> [] /\
    Forall (fun x => x = creation nvme_admin_create_sq sq (queue_cdw10 queue_size queue_id) (sq_cdw11 queue_id sq_pc)) sqs /\
    Forall (fun x => x = creation nvme_admin_create_cq cq (queue_cdw10 queue_size queue_id) (cq_cdw11 cq_pc)) cqs.

Lemma createQueueCommands_spec fd qid size sq cq sq_pc cq_pc s (Q : Z -> host -> Prop) :
  injecting s -> prp1_of sq <> 0 -> prp1_of cq <> 0 ->
  known sq (st_queue_addrs (ks_mod (ho_kernel s))) -> known cq (st_queue_addrs (ks_mod (ho_kernel s))) ->
  (forall rc l s', rc < 0 -> sent s s' [] l -> Q rc s') ->
  (forall l s', sent s s' [] l -> created qid size sq cq sq_pc cq_pc l ->
     ho_mem s' = zeroed (qs_virt cq) (size * NVME_EP_CQE_SIZE) (ho_mem s) -> Q 0 s') ->
  wp (createQueueCommands cfg admin_q command retries fd qid size (qs_virt sq) (qs_virt cq) sq_pc cq_pc) Q s.
Proof using Type.
  intros Hi Hs Hc Ks Kc H1 H2. unfold createQueueCommands.
  destruct (_ || _) eqn:Eg; [by eapply wp_ret, H1; [|apply after_sent, after_refl]|]. bool_to_prop.
  apply wp_bind, create_command_spec; [by right|done..| |].
  { intros rc l s1 Hrc S1 M1 _. rewrite (proj2 (Z.ltb_lt _ _) Hrc). by eapply wp_ret, H1. }
  intros v x l s1 S1 Hl M1. destruct (he_admin_cmd v x) as [rc res].
  destruct (Z.ltb_spec rc 0); [by eapply wp_ret, H1|]. destruct (negb _); [by eapply wp_ret, H1|].
  apply wp_bind, wp_memset0. intros s2 A2 M2.
  assert (sent s s2 [] (x :: l)) as S2.
  { exact (sent_more _ _ _ _ _ _ S1 (after_sent _ _ A2)). }
  pose proof (se_queues _ _ _ _ S2) as Hq. cbn [app] in Hq.
  apply wp_bind, create_command_spec; [by left|by eapply injecting_sent|done|done|by rewrite Hq| |].
  { intros rc' l' s3 Hrc S3 M3 _. rewrite (proj2 (Z.ltb_lt _ _) Hrc).
    eapply wp_ret, H1; [done|apply (sent_more _ _ _ _ _ _ S2 S3)]. }
  intros v' x' l' s3 S3 Hl' M3. destruct (he_admin_cmd v' x') as [rc' res'].
  pose proof (sent_more _ _ _ _ _ _ S2 S3) as S.
  destruct (Z.ltb_spec rc' 0); [by eapply wp_ret, H1|]. destruct (negb _); [by eapply wp_ret, H1|].
  apply wp_ret. eapply H2; [exact S| |congruence]. by exists (x' :: l'), (x :: l).
Qed.

(** ** Registering and creating *)

Lemma kmodRegQueue_spec fd file va pa size ty bdf prp2 s (Q : Z -> host -> Prop) :
  (forall rc s', rc < 0 -> sent s s' [] [] -> ho_mem s' = ho_mem s -> Q rc s') ->
  (forall p g s', sent s s' [fill_queue_entry {| rq_virt_addr := va; rq_phys_addr := pa; rq_size := size;
       rq_queue_type := ty; rq_nvme_bdf := bdf; rq_prp2 := prp2 |} p g] [] -> ho_mem s' = ho_mem s -> Q 0 s') ->
  wp (kmodRegQueue fd file va pa size ty bdf prp2) Q s.
Proof using Type.
  intros H1 H2. unfold kmodRegQueue.
  destruct (_ || _); [by apply wp_ret, H1; [|apply after_sent, after_refl|]|].
  set (req := {| rq_virt_addr := va |}) in *. apply wp_bind. unfold ioctl.
  eapply (wp_in_module _ (fun rc m' => let m := ks_mod (ho_kernel s) in st_regs m' = st_regs m /\
    (rc < 0 /\ st_queue_addrs m' = st_queue_addrs m \/
     rc = 0 /\ exists p g, st_queue_addrs m' = fill_queue_entry req p g :: st_queue_addrs m))).
  { cbn [rocm_xio_ioctl]. unfold ioctl_register_queue_addr. apply wp_bind, wp_kmalloc.
    - intros p g Hg. apply wp_bind, wp_modify, wp_ret. split; [done|]. right. split; [done|]. by exists p, g.
    - intros Hn. apply wp_ret. split; [done|]. by left. }
  cbv zeta. intros rc m' s1 [Hr Hq] B1 M1.
  assert (forall es, st_queue_addrs m' = es ++ st_queue_addrs (ks_mod (ho_kernel s)) -> sent s s1 es []) as HS.
  { intros es He. destruct B1 as [? ? ? Hk]. by split; rewrite ?Hk. }
  apply wp_ret. destruct Hq as [[Hrc Hq]|(-> & p & g & Hq)].
  - rewrite (proj2 (Z.ltb_lt _ _) Hrc). apply H1; [done|by apply HS|done].
  - apply (H2 p g); [by apply HS|done].
Qed.

(** A queue's block, and an address within it. *)
Definition in_block (a : Z) (q : xioQueueSetup) (size : Z) : Prop := qs_virt q <= a < qs_virt q + size.

Definition queue_entry (q : xioQueueSetup) (size ty bdf : Z) : ptr -> Z -> queue_addr_entry :=
  fill_queue_entry {| rq_virt_addr := qs_virt q; rq_phys_addr := prp1_of q; rq_size := size;
    rq_queue_type := ty; rq_nvme_bdf := bdf; rq_prp2 := qs_prp2 q |}.

Lemma known_first q size ty bdf p g l :
  0 <= qs_virt q -> 0 < size -> qs_virt q + size < 18446744073709551616 -> 0 <= prp1_of q < 18446744073709551616 ->
  known q (queue_entry q size ty bdf p g :: l).
Proof using Type.
  intros H0 Hs H1 Hp. unfold known, lookup_queue_phys_addr, lookup_queue_prp2. cbn [find_first].
  unfold queue_covers at 1 3. cbn [queue_entry fill_queue_entry qa_virt_addr qa_size rq_virt_addr rq_size].
  rewrite addr_in_spec, bool_decide_eq_true_2 by lia. cbn [qa_phys_addr qa_prp2 qa_virt_addr rq_phys_addr rq_virt_addr].
  rewrite Z.sub_diag, Z.add_0_r. by rewrite u64_small.
Qed.

Lemma known_behind q q' size ty bdf p g l :
  0 <= qs_virt q' -> 0 <= size -> qs_virt q' + size < 18446744073709551616 ->
  ~ in_block (qs_virt q) q' size -> known q l -> known q (queue_entry q' size ty bdf p g :: l).
Proof using Type.
  intros H0 Hs H1 Hn [K1 K2]. unfold known, lookup_queue_phys_addr, lookup_queue_prp2 in *. cbn [find_first].
  unfold queue_covers at 1 3. cbn [queue_entry fill_queue_entry qa_virt_addr qa_size rq_virt_addr rq_size].
  by rewrite addr_in_spec, bool_decide_eq_false_2.
Qed.

(** A queue that can be registered. *)
Record announceable (q : xioQueueSetup) (size : Z) : Prop := {
  an_virt : 0 <= qs_virt q;
  an_end : qs_virt q + size < 18446744073709551616;
  an_prp1 : 0 < prp1_of q < 18446744073709551616
}.

(** C40: The controller is told where the queues are.  Whatever was
    registered before, when registering, deleting and creating a pair of
    queues succeeds, the controller has been sent deletions, then the creation
    of the completion queue and then that of the submission queue (repeated
    only when interrupted), and each creation carries the address registered
    for its queue as PRP1: the PRP list's if the queue has one, or the
    queue's own; with the queue's size, id and PC flag; and the completion
    queue's memory is zero between the two.  When it fails, what the process
    holds is unchanged all the same.  The condition on the module is
    [injecting]: it was loaded with the kprobe in place (it also loads without
    it, and then the controller is sent the process's own address), on
    x86-64, and the probe takes the queue of the command for the admin queue.
    The queues' blocks do not reach the end of the address space, their PRP1
    is not zero, and the submission queue does not start inside the
    completion queue. *)
Theorem controller_told_queues fd file nvme_fd qid size bdf sq cq sq_pc cq_pc s :
  injecting s -> 0 < size ->
  announceable sq (size * NVME_EP_SQE_SIZE) -> announceable cq (size * NVME_EP_CQE_SIZE) ->
  ~ in_block (qs_virt sq) cq (size * NVME_EP_CQE_SIZE) ->
  wp (announceQueues cfg admin_q command retries fd file nvme_fd qid size bdf sq cq sq_pc cq_pc) (fun rc s' =>
    ho_held s' = ho_held s /\ ho_bad s' = ho_bad s /\
    (rc < 0 \/
     rc = 0 /\ exists creations deletions,
       ks_admin (ho_kernel s') = creations ++ deletions ++ ks_admin (ho_kernel s) /\
       created qid size sq cq sq_pc cq_pc creations /\ Forall deletion deletions /\
       ho_mem s' = zeroed (qs_virt cq) (size * NVME_EP_CQE_SIZE) (ho_mem s))) s.
Proof.
  intros Hi Hsz [Hs1 Hs2 Hs3] [Hc1 Hc2 Hc3] Hd. unfold announceQueues.
  assert (0 < size * NVME_EP_SQE_SIZE /\ 0 < size * NVME_EP_CQE_SIZE) as [Hps Hpc]
    by (unfold NVME_EP_SQE_SIZE, NVME_EP_CQE_SIZE; lia).
  apply wp_bind, kmodRegQueue_spec.
  { intros rc s1 Hrc S1 _. rewrite (proj2 (Z.ltb_lt _ _) Hrc). apply wp_ret. destruct S1. auto. }
  intros p g s1 S1 M1. cbn [Z.ltb Z.compare]. apply wp_bind, kmodRegQueue_spec.
  { intros rc s2 Hrc S2 _. rewrite (proj2 (Z.ltb_lt _ _) Hrc). apply wp_ret.
    destruct (sent_trans _ _ _ _ _ _ _ S1 S2). auto. }
  intros p' g' s2 S2 M2. cbn [Z.ltb Z.compare]. pose proof (sent_trans _ _ _ _ _ _ _ S1 S2) as S12.
  apply wp_bind, deleteQueue_spec. intros rc0 ds s3 S3 Hds M3.
  pose proof (sent_more _ _ _ _ _ _ S12 S3) as S13. rewrite app_nil_r in S13.
  pose proof (se_queues _ _ _ _ S13) as Hq. cbn [app] in Hq.
  assert (known cq (st_queue_addrs (ks_mod (ho_kernel s3)))) as Kc by (rewrite Hq; apply known_first; lia).
  assert (known sq (st_queue_addrs (ks_mod (ho_kernel s3)))) as Ks.
  { rewrite Hq. apply known_behind; [lia..|done|]. apply known_first; lia. }
  apply createQueueCommands_spec; [by eapply injecting_sent|lia|lia|done|done| |].
  - intros rc l s4 Hrc S4. destruct (sent_more _ _ _ _ _ _ S13 S4). auto.
  - intros l s4 S4 Hl M4. pose proof (sent_more _ _ _ _ _ _ S13 S4) as [Hh _ Hb Ha _ _].
    split_and!; [done|done|]. right. split; [done|]. exists l, ds. rewrite <- app_assoc in Ha.
    split_and!; [done|done|done|]. rewrite M4. congruence.
Qed.

Lemma rejected_command opcode addr a b s (Q : Z * Z -> host -> Prop) :
  (forall v, he_admin_refused v = 0) ->
  (forall v c, 0 < fst (he_admin_cmd v c) /\ snd (he_admin_cmd v c) = 0) ->
  (forall rc s', 0 < rc -> Q (rc, 0) s') ->
  wp (ioctlEintrSafe cfg admin_q command retries opcode addr a b) Q s.
Proof using Type.
  intros Hno Hrej HQ. unfold ioctlEintrSafe.
  assert (forall P : Z * Z -> host -> Prop, (forall rc s', 0 < rc -> P (rc, 0) s') ->
    wp (ioctl_admin cfg admin_q command opcode addr a b) P s) as Hio.
  { intros P HP. unfold ioctl_admin. apply wp_bind, wp_consult. intros s1 _ _. rewrite Hno. cbn [Z.ltb Z.compare].
    apply wp_bind, wp_any. intros c s2. apply wp_bind, wp_any. intros _ s3.
    apply wp_consult. intros s4 _ _. destruct (Hrej (view s3) (seen_of c b)) as [H1 H2].
    destruct (he_admin_cmd _ _). cbn [fst snd] in *. subst. auto. }
  destruct retries; cbn [eintr_loop]; apply wp_bind, Hio; intros rc s' Hrc; [by apply wp_ret, HQ|].
  rewrite (proj2 (Z.eqb_neq _ _)) by (unfold EINTR; lia). by apply wp_ret, HQ.
Qed.

(** A rejected creation is a success.  The ioctl returns the status of
    a command that the controller completes with an error as a positive
    number, with the result word zero; [createQueueCommands] looks at negative
    numbers and at the result word.  So when the controller rejects every
    creation, whatever the status, it still returns 0. *)
Theorem rejected_creation_succeeds fd qid size sq_virt cq_virt sq_pc cq_pc s :
  0 <= fd -> sq_virt <> NULL -> cq_virt <> NULL -> size <> 0 ->
  (forall v, he_admin_refused v = 0) ->
  (forall v c, 0 < fst (he_admin_cmd v c) /\ snd (he_admin_cmd v c) = 0) ->
  wp (createQueueCommands cfg admin_q command retries fd qid size sq_virt cq_virt sq_pc cq_pc)
    (fun rc _ => rc = 0) s.
Proof.
  intros Hfd Hs Hc Hsz Hno Hrej. unfold createQueueCommands.
  rewrite (proj2 (Z.ltb_ge _ _) Hfd), (proj2 (Z.eqb_neq _ _) Hs), (proj2 (Z.eqb_neq _ _) Hc),
    (proj2 (Z.eqb_neq _ _) Hsz). cbn [orb].
  apply wp_bind, rejected_command; [done|done|]. intros rc s1 Hrc.
  rewrite (proj2 (Z.ltb_ge rc 0)) by lia. cbn [Z.land Z.eqb negb]. apply wp_bind, wp_memset0. intros s2 _ _.
  apply wp_bind, rejected_command; [done|done|]. intros rc' s3 Hrc'.
  rewrite (proj2 (Z.ltb_ge rc' 0)) by lia. by apply wp_ret.
Qed.
End AdminSpec.

(** Two queues of 64 entries, the submission queue described by a list. *)
Definition demo_pair : xioQueueSetup * xioQueueSetup :=
  ({| qs_virt := 1048576; qs_gpu := 1048576; qs_phys := 0; qs_uses_coherent := true; qs_prp_list := 2097152;
      qs_prp_list_phys := 1073741824; qs_prp2 := 0; qs_uses_contig := false; qs_contig_id := 0 |},
   {| qs_virt := 1052672; qs_gpu := 1052672; qs_phys := 536870912; qs_uses_coherent := true; qs_prp_list := NULL;
      qs_prp_list_phys := 0; qs_prp2 := 0; qs_uses_contig := false; qs_contig_id := 0 |}).

Lemma controller_told_queues_witness :
  let run := announceQueues (K := demo_kernel) (E := demo_host true (fun _ => true) (fun _ => 0)) cfg_demo 9500 50000 3
    5 42 6 1 64 34048 (fst demo_pair) (snd demo_pair) false true in
  fst (run (idle_host poisoned_state)) = 0 /\
  wp run (fun rc s' => rc = 0 -> exists x l, ks_admin (ho_kernel s') = x :: l /\ as_prp1 x = 1073741824 /\ as_cdw10 x = 4128769)
    (idle_host poisoned_state).
Proof.
  intros run. split; [by vm_compute|].
  eapply wp_mono; [apply (controller_told_queues (K := demo_kernel) (E := demo_host true (fun _ => true) (fun _ => 0)))|].
  - by split_and!.
  - done.
  - by split.
  - by split.
  - unfold in_block. cbn. unfold NVME_EP_CQE_SIZE. lia.
  - intros rc s' (_ & _ & [Hneg|(_ & c & d & Ha & (sqs & cqs & -> & Hne & _ & Hs & _) & _)]) H0; [lia|].
    destruct sqs as [|x sqs]; [done|]. exists x, (sqs ++ cqs ++ d ++ []). rewrite Ha, <- !app_assoc.
    apply Forall_cons_iff in Hs as [-> _]. done.
Defined.

(** The controller rejects everything. *)
Lemma rejected_creation_succeeds_witness :
  wp (createQueueCommands (K := demo_kernel) (E := demo_host true (fun _ => false) (fun _ => 0)) cfg_demo 9500 50000 3
    6 1 64 1048576 1052672 true true) (fun rc _ => rc = 0) (idle_host poisoned_state).
Proof.
  apply (rejected_creation_succeeds (K := demo_kernel) (E := demo_host true (fun _ => false) (fun _ => 0))); done.
Defined.
