(* ===== verification/HostQueue.v ===== *)
(** * Creating a queue pair on the host

    The set-up of queues and of the controller's registers in
    [src/src/common/xio-common.hip] ([setupQueueForGpu], [mapPciBar],
    [readNvmeCapCqr], [registerMmioBridgeShadowBufferForGpu]) and, from
    [src/src/endpoints/nvme-ep/nvme-ep.hip], [freeQueueSetup] and the whole of
    [createQueue].

    The theorems are about what the process holds, whatever HIP, the kernel
    and the controller answer: a queue that was set up is given back by
    [freeQueueSetup], but for a registration with HIP that is never undone;
    a creation that fails, wherever it fails, leaves nothing but such
    registrations and blocks of a fallback that [hipHostFree] would not
    take. *)

From S2P Require Import Prelude Uapi Kernel State Demo QueueReg DmaBuf BufferReg Contig Quiesce Snapshot Poison Kprobe Frame Driver FileLife NvmeEp HostEnv HostDemo HostMem HostModule HostContig HostPhys HostPci HostAdmin.

Section HostQueue.
Context {K : Kernel} {E : HostEnv}.
(** As in [HostAdmin]; and what sysfs tells. *)
Variable cfg : build_config.
Variables admin_q command : ptr.
Variable retries : nat.
Variable fs : sysfs.

(** ** A queue in memory of its own *)

Definition plain_setup (virt gpu phys : Z) (uses_coherent : bool) : xioQueueSetup :=
  {| qs_virt := virt; qs_gpu := gpu; qs_phys := phys; qs_uses_coherent := uses_coherent; qs_prp_list := NULL;
     qs_prp_list_phys := 0; qs_prp2 := 0; qs_uses_contig := false; qs_contig_id := 0 |}.

(** What every failing path of [setupQueueForGpu] gives back. *)
Definition undo_setup (virt : ptr) (is_device registered coherent : bool) : HostM unit :=
  (if registered then hipHostUnregister virt ;;; ret tt else ret tt) ;;;
  (if coherent then hipHostFree virt ;;; ret tt else freeQueue virt is_device).

Definition setupQueueForGpu (size : Z) (is_device : bool) (nvme_bdf : Z) (is_emulated : bool)
    : HostM (Z * xioQueueSetup) :=
  if size =? 0 then ret (- EINVAL, no_setup) else
  let* '(rc, virt) := allocateQueue size is_device NULL in
  if negb (rc =? hipSuccess) then ret (- ENOMEM, plain_setup virt NULL 0 false) else
  (if negb is_device then memset0 virt size else ret tt) ;;;
  let* '(coherent, virt) := if negb is_device then reallocateQueue virt size else ret (false, virt) in
  let* '(rc, registered) :=
    if negb coherent && negb is_device then
      let* rc := hipHostRegister virt size in ret (rc, rc =? hipSuccess)
    else ret (hipSuccess, false) in
  if negb (rc =? hipSuccess) then
    undo_setup virt is_device false coherent ;;; ret (- EIO, plain_setup NULL NULL 0 coherent) else
  let* gpu := getGpuPointer virt is_device in
  if is_null gpu then
    undo_setup virt is_device registered coherent ;;; ret (- EIO, plain_setup NULL NULL 0 coherent) else
  let* phys := getPhysAddrOf virt size is_device nvme_bdf is_emulated in
  if (phys =? 0) && is_device then
    undo_setup virt is_device registered coherent ;;; ret (- ENOTSUP, plain_setup NULL NULL phys coherent) else
  ret (0, plain_setup virt gpu phys coherent).

(** The setup as it is left. *)
Definition freeQueueSetup (s : xioQueueSetup) (is_device : bool) (size : Z) : HostM xioQueueSetup :=
  if is_null (qs_virt s) then ret s else
  let* s :=
    if is_null (qs_prp_list s) then ret s
    else free_prp_list s ;;;
         ret {| qs_virt := qs_virt s; qs_gpu := qs_gpu s; qs_phys := qs_phys s;
                qs_uses_coherent := qs_uses_coherent s; qs_prp_list := NULL; qs_prp_list_phys := 0;
                qs_prp2 := qs_prp2 s; qs_uses_contig := qs_uses_contig s; qs_contig_id := qs_contig_id s |} in
  let* s :=
    if qs_uses_contig s then freeContigQueue s size
    else if qs_uses_coherent s then hipHostFree (qs_virt s) ;;; ret s
    else freeQueue (qs_virt s) is_device ;;; ret s in
  ret {| qs_virt := NULL; qs_gpu := NULL; qs_phys := qs_phys s;
         qs_uses_coherent := qs_uses_coherent s; qs_prp_list := qs_prp_list s;
         qs_prp_list_phys := qs_prp_list_phys s; qs_prp2 := qs_prp2 s; qs_uses_contig := qs_uses_contig s;
         qs_contig_id := qs_contig_id s |}.

(** ** The controller's registers *)

(** The status and both pointers, set on success only. *)
Definition mapPciBar (bar bar_size : Z) : HostM (Z * ptr * ptr) :=
  if 5 <? bar then ret (- EINVAL, NULL, NULL) else
  let bar_size := if bar_size =? 0 then 8192 else bar_size in
  let* bar_fd := open BarResource in
  if bar_fd <? 0 then ret (bar_fd, NULL, NULL) else
  let* m := mmap bar_fd bar_size in
  match m with
  | None => close bar_fd ;;; ret (- ENOMEM, NULL, NULL)
  | Some mapped =>
      let* '(rc, gpu_ptr) := gpu_pointer mapped bar_size in
      if rc <? 0 then munmap mapped bar_size ;;; close bar_fd ;;; ret (rc, NULL, NULL) else
      ret (0, mapped, gpu_ptr)
  end.

(** CAP is the first 64-bit word of BAR 0, CQR its bit 16. *)
Definition readNvmeCapCqr : HostM (Z + bool) :=
  let* fd := open BarResource in
  if fd <? 0 then ret (inl fd) else
  let map_size := if he_page_size <=? 0 then 4096 else he_page_size in
  let* m := mmap fd map_size in
  match m with
  | None => close fd ;;; ret (inl (- ENOMEM))
  | Some mapped =>
      let* cap := gets (fun s => ho_mem s mapped) in
      munmap mapped map_size ;;; close fd ;;; ret (inr (Z.testbit cap 16))
  end.

Definition registerMmioBridgeShadowBufferForGpu (shadow_virt shadow_size : Z) : HostM (Z * ptr) :=
  if is_null shadow_virt then ret (- EINVAL, NULL) else
  let* rc := hipHostRegister shadow_virt shadow_size in
  if negb (rc =? hipSuccess) then munmap_module shadow_virt shadow_size ;;; ret (-1, NULL) else
  let* '(rc, gpu) := hipHostGetDevicePointer shadow_virt in
  if negb (rc =? hipSuccess) then
    hipHostUnregister shadow_virt ;;; munmap_module shadow_virt shadow_size ;;; ret (-1, NULL)
  else ret (0, gpu).

(** ** The whole of [createQueue] *)

Record nvme_queue_info := {
  qi_sq_virt : ptr; qi_cq_virt : ptr; qi_sq_gpu : ptr; qi_cq_gpu : ptr; qi_sq_phys : Z; qi_cq_phys : Z;
  qi_sq_size : Z; qi_cq_size : Z; qi_doorbell : Z; qi_sq_dmabuf_fd : Z; qi_cq_dmabuf_fd : Z;
  qi_sq_prp_list : ptr; qi_cq_prp_list : ptr; qi_sq_contig_id : Z; qi_cq_contig_id : Z
}.

Definition blank_info (sq_size cq_size : Z) : nvme_queue_info :=
  {| qi_sq_virt := NULL; qi_cq_virt := NULL; qi_sq_gpu := NULL; qi_cq_gpu := NULL; qi_sq_phys := 0;
     qi_cq_phys := 0; qi_sq_size := sq_size; qi_cq_size := cq_size; qi_doorbell := 0; qi_sq_dmabuf_fd := 0;
     qi_cq_dmabuf_fd := 0; qi_sq_prp_list := NULL; qi_cq_prp_list := NULL; qi_sq_contig_id := 0;
     qi_cq_contig_id := 0 |}.
Definition filled_info (sq_size cq_size : Z) (sq cq : xioQueueSetup) : nvme_queue_info :=
  {| qi_sq_virt := qs_virt sq; qi_cq_virt := qs_virt cq; qi_sq_gpu := qs_gpu sq; qi_cq_gpu := qs_gpu cq;
     qi_sq_phys := qs_phys sq; qi_cq_phys := qs_phys cq; qi_sq_size := sq_size; qi_cq_size := cq_size;
     qi_doorbell := 0; qi_sq_dmabuf_fd := -1; qi_cq_dmabuf_fd := -1; qi_sq_prp_list := qs_prp_list sq;
     qi_cq_prp_list := qs_prp_list cq; qi_sq_contig_id := qs_contig_id sq; qi_cq_contig_id := qs_contig_id cq |}.

(** One of the two queues: contiguous where the controller wants that. *)
Definition setupOne (contig : bool) (size : Z) (is_device : bool) (nvme_bdf : Z) (is_emulated : bool)
    : HostM (Z * xioQueueSetup) :=
  if contig then setupContigQueueForGpu size nvme_bdf
  else setupQueueForGpu size is_device nvme_bdf is_emulated.

(** The PRP list of a queue that needs one. *)
Definition listOne (needed : bool) (q : xioQueueSetup) (size : Z) (is_device : bool)
    : HostM (Z * xioQueueSetup) :=
  if needed then buildQueuePrpList q size is_device else ret (0, q).

(** Both queues, their lists, and the controller told: the status, and the
    queues as every path leaves them. *)
Definition createPair (kmod_fd : Z) (file : ptr) (nvme_fd queue_id queue_size nvme_bdf : Z)
    (sq_is_device cq_is_device is_emulated cqr : bool) : HostM (Z * xioQueueSetup * xioQueueSetup) :=
  let sq_size := queue_size * NVME_EP_SQE_SIZE in
  let cq_size := queue_size * NVME_EP_CQE_SIZE in
  let sq_multi := negb sq_is_device && (NVME_PAGE_SIZE <? sq_size) in
  let cq_multi := negb cq_is_device && (NVME_PAGE_SIZE <? cq_size) in
  let drop rc sq cq :=
    let* sq := freeQueueSetup sq sq_is_device sq_size in
    let* cq := freeQueueSetup cq cq_is_device cq_size in ret (rc, sq, cq) in
  let* '(rc, sq) := setupOne (cqr && sq_multi) sq_size sq_is_device nvme_bdf is_emulated in
  if rc <? 0 then ret (rc, sq, no_setup) else
  let* '(rc, cq) := setupOne (cqr && cq_multi) cq_size cq_is_device nvme_bdf is_emulated in
  if rc <? 0 then let* sq := freeQueueSetup sq sq_is_device sq_size in ret (rc, sq, cq) else
  let* '(rc, sq) := listOne (negb cqr && sq_multi) sq sq_size sq_is_device in
  if rc <? 0 then drop rc sq cq else
  let* '(rc, cq) := listOne (negb cqr && cq_multi) cq cq_size cq_is_device in
  if rc <? 0 then drop rc sq cq else
  let* rc := announceQueues cfg admin_q command retries kmod_fd file nvme_fd queue_id queue_size nvme_bdf sq cq
               (cqr || negb sq_multi) (cqr || negb cq_multi) in
  if rc <? 0 then drop rc sq cq else ret (0, sq, cq).

Definition createQueue (nvme_device : path) (queue_id queue_size nvme_bdf memory_mode : Z)
    (info : nvme_queue_info) : HostM (Z * nvme_queue_info) :=
  let sq_is_device := flagged memory_mode XIO_MEM_MODE_SQ_DEVICE in
  let cq_is_device := flagged memory_mode XIO_MEM_MODE_CQ_DEVICE in
  if (queue_size =? 0) || negb (Z.land queue_size (queue_size - 1) =? 0) then ret (- EINVAL, info) else
  let sq_size := queue_size * NVME_EP_SQE_SIZE in
  let cq_size := queue_size * NVME_EP_CQE_SIZE in
  let info := blank_info sq_size cq_size in
  let* '(kmod_fd, file) := open_module in
  if kmod_fd <? 0 then ret (kmod_fd, info) else
  match detectEmulatedNvme fs nvme_device with
  | inl e => close_module kmod_fd file ;;; ret (- e, info)
  | inr is_emulated =>
      let* nvme_fd := openDeviceWithRetry NvmeDevice 5 in
      if nvme_fd <? 0 then close_module kmod_fd file ;;; ret (nvme_fd, info) else
      let* r := readNvmeCapCqr in
      let cqr := match r with inl _ => true | inr b => b end in
      let* '(rc, sq, cq) :=
        createPair kmod_fd file nvme_fd queue_id queue_size nvme_bdf sq_is_device cq_is_device is_emulated cqr in
      if rc <? 0 then
        (if is_null (qs_virt sq) then ret tt else freeQueueSetup sq sq_is_device sq_size ;;; ret tt) ;;;
        (if is_null (qs_virt cq) then ret tt else freeQueueSetup cq cq_is_device cq_size ;;; ret tt) ;;;
        close nvme_fd ;;; close_module kmod_fd file ;;; ret (rc, info)
      else
        close nvme_fd ;;; close_module kmod_fd file ;;; ret (0, filled_info sq_size cq_size sq cq)
  end.
End HostQueue.

(** ** What the process holds *)

(** From [s] to [s'] it holds [S], and nothing was given back in vain,
    whatever happened in the kernel. *)
Record has (s s' : host) (S : gset host_res) : Prop := {
  ha_held : ho_held s' = S; ha_vmem : ho_vmem s' = ho_vmem s; ha_bad : ho_bad s' = ho_bad s
}.

Lemma has_refl s : has s s (ho_held s).
Proof. by split. Qed.
Lemma has_trans s s1 s2 S S' : has s s1 S -> has s1 s2 S' -> has s s2 S'.
Proof. intros [] []. split; congruence. Qed.
Lemma has_after s s1 s2 S S' : has s s1 S -> after s1 s2 S' (ho_vmem s) -> has s s2 S'.
Proof. intros [] []. split; congruence. Qed.
Lemma has_became s s1 s2 S S' K : has s s1 S -> became s1 s2 S' (ho_vmem s) K -> has s s2 S'.
Proof. intros [] []. split; congruence. Qed.
Lemma has_sent s s1 s2 S es l : has s s1 S -> sent s1 s2 es l -> has s s2 S.
Proof. intros [] []. split; congruence. Qed.
Lemma has_eq s s' S S' : has s s' S -> S = S' -> has s s' S'.
Proof. by intros ? <-. Qed.

Ltac hasettle :=
  repeat match goal with
  | H : has ?s ?s1 ?S, A : after ?s1 ?s2 _ _ |- _ =>
      rewrite ?(ha_held _ _ _ H), ?(ha_vmem _ _ _ H) in *; apply (has_after _ _ _ _ _ H) in A; clear H
  | H : has ?s ?s1 ?S, A : became ?s1 ?s2 _ _ _ |- _ =>
      rewrite ?(ha_held _ _ _ H), ?(ha_vmem _ _ _ H) in *; apply (has_became _ _ _ _ _ _ H) in A; clear H
  | H : has ?s ?s1 ?S, A : has ?s1 ?s2 _ |- _ =>
      rewrite ?(ha_held _ _ _ H), ?(ha_vmem _ _ _ H) in *; apply (has_trans _ _ _ _ _ H) in A; clear H
  | H : has ?s ?s1 ?S, A : sent ?s1 ?s2 _ _ |- _ => apply (has_sent _ _ _ _ _ _ H) in A; clear H
  end.

(** What is given back is held. *)
Ltac is_held_h :=
  match goal with B : has _ ?s1 _ |- _ ∈ ho_held ?s1 => rewrite (ha_held _ _ _ B) end; set_solver.

Section Calls.
Context {K : Kernel} {E : HostEnv} {EO : HostEnvOk E}.

(** ** Calls to the module *)

Lemma in_module_has {A} (m : M xio_state A) s (Q : A -> host -> Prop) :
  (forall a s', has s s' (ho_held s) -> Q a s') -> wp (in_module m) Q s.
Proof using Type.
  intros HQ. eapply (wp_in_module _ (fun _ _ => True)); [by apply wp_any|]. intros a m' s' _ [] _. by apply HQ.
Qed.

Lemma set_kernel_has f s (Q : unit -> host -> Prop) :
  (forall s', has s s' (ho_held s) -> Q tt s') -> wp (modify (set_kernel f)) Q s.
Proof using Type. intros HQ. apply wp_set_kernel. intros s' [] _. by apply HQ. Qed.

Lemma file_put_has f s (Q : unit -> host -> Prop) :
  (forall s', has s s' (ho_held s) -> Q tt s') -> wp (file_put f) Q s.
Proof using Type.
  intros HQ. unfold file_put. apply wp_bind, wp_gets. cbv beta. case_match; [|by apply set_kernel_has].
  apply wp_bind, set_kernel_has. intros s1 H1. apply wp_bind, in_module_has. intros a s2 H2. hasettle.
  by apply wp_ret, HQ.
Qed.

Lemma open_module_has s (Q : Z * ptr -> host -> Prop) :
  (forall fd f s', 0 <= fd -> RFd fd ∉ ho_held s -> has s s' ({[ RFd fd ]} ∪ ho_held s) -> Q (fd, f) s') ->
  (forall e s', e < 0 -> has s s' (ho_held s) -> Q (e, NULL) s') ->
  wp open_module Q s.
Proof using EO.
  intros H1 H2. pose proof (has_refl s) as H0. unfold open_module, new_file, file_get. apply wp_bind, wp_open.
  - intros fd s1 Hfd Hn A _. hasettle. rewrite (proj2 (Z.ltb_ge _ _) Hfd). apply wp_bind, wp_bind, wp_consult.
    intros s2 A2 _. hasettle. apply wp_bind, set_kernel_has. intros s3 H3. hasettle. apply wp_ret, wp_ret. by apply H1.
  - intros e s1 He A _. hasettle. rewrite (proj2 (Z.ltb_lt _ _) He). apply wp_ret. by apply H2.
Qed.

Lemma close_module_has fd f s (Q : unit -> host -> Prop) :
  RFd fd ∈ ho_held s -> (forall s', has s s' (ho_held s ∖ {[ RFd fd ]}) -> Q tt s') -> wp (close_module fd f) Q s.
Proof using Type.
  intros Hin HQ. pose proof (has_refl s) as H0. unfold close_module, close. apply wp_bind, wp_give_back; [done|].
  intros s1 A _. hasettle. apply file_put_has. intros s2 H2. hasettle. by apply HQ.
Qed.

Lemma mmap_module_has fd f size off s (Q : Z * ptr -> host -> Prop) :
  (forall p s', fresh (ho_held s) p -> has s s' ({[ RMapping p size ]} ∪ ho_held s) -> Q (0, p) s') ->
  (forall rc s', rc < 0 -> has s s' (ho_held s) -> Q (rc, NULL) s') ->
  wp (mmap_module fd f size off) Q s.
Proof using EO.
  intros H1 H2. pose proof (has_refl s) as H0. unfold mmap_module. apply wp_bind, wp_mmap.
  2:{ intros s1 A1 _. hasettle. by apply wp_ret, H2. }
  intros p s1 Hp A1 _. hasettle. apply wp_bind, in_module_has. intros rc s2 B2. hasettle.
  destruct (Z.ltb_spec rc 0).
  - apply wp_bind. unfold munmap. apply wp_give_back; [is_held_h|]. intros s3 A3 _. hasettle.
    apply wp_ret, H2; [done|]. eapply has_eq; [eassumption|]. apply undo_one. by apply (fresh_not_in _ _ _ _ Hp).
  - apply wp_bind. unfold file_get. apply set_kernel_has. intros s3 B3. hasettle.
    apply wp_bind, set_kernel_has. intros s4 B4. hasettle. apply wp_ret. by apply H1.
Qed.

Lemma munmap_module_has p size s (Q : unit -> host -> Prop) :
  RMapping p size ∈ ho_held s -> (forall s', has s s' (ho_held s ∖ {[ RMapping p size ]}) -> Q tt s') ->
  wp (munmap_module p size) Q s.
Proof using Type.
  intros Hin HQ. pose proof (has_refl s) as H0. unfold munmap_module, munmap. apply wp_bind, wp_give_back; [done|].
  intros s1 A1 _. hasettle. apply wp_bind, wp_gets. cbv beta.
  destruct (ks_vmas _ !! p) as [[v f]|]; [|by apply wp_ret, HQ].
  apply wp_bind, set_kernel_has. intros s2 B2. hasettle. apply wp_bind, in_module_has. intros a s3 B3. hasettle.
  apply file_put_has. intros s4 B4. hasettle. by apply HQ.
Qed.

Lemma exportRegVramBuf_has p size bdf em phys s (Q : Z * Z -> host -> Prop) :
  (forall r s', has s s' (ho_held s) -> Q r s') -> wp (exportRegVramBuf p size bdf em phys) Q s.
Proof using EO.
  intros HQ. pose proof (has_refl s) as H0. unfold exportRegVramBuf. destruct (_ || _); [by apply wp_ret, HQ|].
  apply wp_bind, exportDmabuf_spec.
  { intros st fd off s1 Hst A1. hasettle. unfold HSA_STATUS_SUCCESS. rewrite (proj2 (Z.eqb_neq _ _) Hst).
    by apply wp_ret, HQ. }
  intros fd off s1 Hfd Hn A1. hasettle. cbn [Z.eqb negb HSA_STATUS_SUCCESS].
  assert (forall r kfd f s2, RFd kfd ∉ ho_held s ->
    has s s2 ({[ RFd kfd ]} ∪ ({[ RDmabuf fd ]} ∪ ho_held s)) ->
    wp (closeDmabuf fd ;;; close_module kfd f ;;; ret r) Q s2) as Hclose.
  { intros r kfd f s2 Hk B2. apply wp_bind, closeDmabuf_spec; [done|is_held_h|]. intros s3 A3. hasettle.
    apply wp_bind, close_module_has; [is_held_h|]. intros s4 B4. hasettle. apply wp_ret, HQ.
    eapply has_eq; [eassumption|]. by apply undo_two. }
  apply wp_bind, open_module_has.
  - intros kfd f s2 Hkfd Hk B2. rewrite (ha_held _ _ _ A1) in Hk. hasettle. rewrite (proj2 (Z.ltb_ge _ _) Hkfd).
    apply wp_bind. unfold ioctl. apply in_module_has. intros rc s3 B3. hasettle.
    destruct (rc <? 0); [apply Hclose; [set_solver|done]|]. unfold last_copy. apply wp_bind, wp_gets.
    apply Hclose; [set_solver|done].
  - intros e s2 He B2. hasettle. rewrite (proj2 (Z.ltb_lt _ _) He). apply wp_bind, closeDmabuf_spec; [done|is_held_h|].
    intros s3 A3. hasettle. apply wp_ret, HQ. eapply has_eq; [eassumption|]. by apply undo_one.
Qed.

(** ** Asking for addresses *)

Lemma getPhysAddr_has va s (Q : Z -> host -> Prop) :
  (forall r s', has s s' (ho_held s) -> Q r s') -> wp (getPhysAddr va) Q s.
Proof using EO.
  intros HQ. pose proof (has_refl s) as H0. unfold getPhysAddr. apply wp_bind, wp_open.
  2:{ intros e s1 He A1 _. hasettle. rewrite (proj2 (Z.ltb_lt _ _) He). by apply wp_ret, HQ. }
  intros fd s1 Hfd Hn A1 _. hasettle. rewrite (proj2 (Z.ltb_ge _ _) Hfd).
  apply wp_bind, wp_consult. intros s2 A2 _. hasettle. unfold close. apply wp_bind, wp_give_back; [is_held_h|].
  intros s3 A3 _. hasettle. apply (has_eq _ _ _ (ho_held s)) in A3; [|by apply undo_one].
  repeat case_match; by apply wp_ret, HQ.
Qed.

Lemma getPhysAddrOf_has p size dev bdf em s (Q : Z -> host -> Prop) :
  (forall r s', (dev = false -> p <> NULL -> size <> 0 -> r <> 0) -> has s s' (ho_held s) -> Q r s') ->
  wp (getPhysAddrOf p size dev bdf em) Q s.
Proof using EO.
  intros HQ. pose proof (has_refl s) as H0. unfold getPhysAddrOf.
  destruct (_ || _) eqn:Eg; bool_to_prop; [apply wp_ret, HQ; [|done]; intros _ Hp Hs; exfalso; apply orb_true_iff in Eg as [Eg|Eg]; by apply Z.eqb_eq in Eg|].
  destruct dev.
  - apply wp_bind, exportRegVramBuf_has. intros [rc phys] s1 B1. apply wp_ret, HQ; [done|by hasettle].
  - apply wp_bind, getPhysAddr_has. intros r s1 B1. apply wp_ret, HQ; [|by hasettle].
    intros _ Hp _. by destruct (Z.eqb_spec r 0).
Qed.

Lemma page_addrs_has n base i s (Q : Z + list Z -> host -> Prop) :
  (forall r s', has s s' (ho_held s) -> Q r s') -> wp (page_addrs n base i) Q s.
Proof using EO.
  revert i s Q. induction n as [|n IH]; intros i s Q HQ; cbn [page_addrs]; [by apply wp_ret, HQ, has_refl|].
  pose proof (has_refl s) as H0. apply wp_bind, wp_consult. intros s1 A1 _. hasettle.
  destruct (he_pagemap _ _); [|by apply wp_ret, HQ]. destruct (negb _); [by apply wp_ret, HQ|].
  apply wp_bind, IH. intros r s2 B2. hasettle. by apply wp_ret, HQ.
Qed.

Lemma getPagePhysAddrs_has va size n s (Q : Z + list Z -> host -> Prop) :
  (forall r s', has s s' (ho_held s) -> Q r s') -> wp (getPagePhysAddrs va size n) Q s.
Proof using EO.
  intros HQ. pose proof (has_refl s) as H0. unfold getPagePhysAddrs. destruct (_ <=? 0); [by apply wp_ret, HQ|].
  destruct (_ || _); [by apply wp_ret, HQ|]. apply wp_bind, wp_open.
  2:{ intros e s1 He A1 _. hasettle. rewrite (proj2 (Z.ltb_lt _ _) He). by apply wp_ret, HQ. }
  intros fd s1 Hfd Hn A1 _. hasettle. rewrite (proj2 (Z.ltb_ge _ _) Hfd).
  apply wp_bind, page_addrs_has. intros r s2 B2. hasettle. unfold close. apply wp_bind, wp_give_back; [is_held_h|].
  intros s3 A3 _. hasettle. apply wp_ret, HQ. eapply has_eq; [eassumption|]. by apply undo_one.
Qed.
End Calls.

(** ** What a queue consists of *)

Abbreviation ps := he_page_size.

(** The memory of a queue that is set up, with what makes it reachable for
    the GPU. *)
Inductive queue_block (q : xioQueueSetup) (dev : bool) (size : Z) : gset host_res -> Prop :=
| qb_coherent : qs_uses_contig q = false -> qs_uses_coherent q = true -> dev = false ->
    queue_block q dev size {[ RHostPinned (qs_virt q) ]}
| qb_plain k : k = KHostPinned \/ k = KMalloc ->
    qs_uses_contig q = false -> qs_uses_coherent q = false -> dev = false ->
    queue_block q dev size {[ (k, qs_virt q, 0); RRegistered (qs_virt q) ]}
| qb_device : qs_uses_contig q = false -> qs_uses_coherent q = false -> dev = true ->
    queue_block q dev size {[ RDevice (qs_virt q) ]}
| qb_contig r : qs_uses_contig q = true -> qs_gpu q <> NULL ->
    r = RRegistered (qs_virt q) \/ r = (RLocked (qs_virt q)) ->
    queue_block q dev size {[ RMapping (qs_virt q) size; r ]}.

(** What [freeQueueSetup] never gives back: the registration of a queue that
    is neither coherent nor contiguous nor the GPU's. *)
Definition queue_rest (q : xioQueueSetup) (dev : bool) : gset host_res :=
  if qs_uses_contig q || qs_uses_coherent q || dev then ∅ else {[ RRegistered (qs_virt q) ]}.

(** The list of a queue that has one. *)
Definition list_block {E : HostEnv} (q : xioQueueSetup) (P : gset host_res) : Prop :=
  qs_prp_list q = NULL /\ P = ∅ \/
  qs_prp_list q <> NULL /\ 0 < ps /\ P = {[ RMlocked (qs_prp_list q) ps; RMalloc (qs_prp_list q) ]}.

(** HIP and HSA have forgotten the memory that is gone. *)
Definition no_stale (H : gset host_res) : Prop :=
  forall p, fresh H p -> RRegistered p ∉ H /\ (RLocked p) ∉ H.

(** What a failing set-up may leave: the fallback's block. *)
Definition fallback (H L : gset host_res) : Prop := L = ∅ \/ exists p, fresh H p /\ L = {[ RMalloc p ]}.

Lemma block_same q q1 dev size R :
  qs_virt q1 = qs_virt q -> qs_gpu q1 = qs_gpu q -> qs_uses_contig q1 = qs_uses_contig q ->
  qs_uses_coherent q1 = qs_uses_coherent q -> queue_block q dev size R -> queue_block q1 dev size R.
Proof.
  intros E1 E2 E3 E4 [? ? ?|k ? ? ? ?|? ? ?|r ? ? ?]; rewrite <- E1 in *.
  - apply qb_coherent; [by rewrite E3|by rewrite E4|done].
  - apply qb_plain; [done|by rewrite E3|by rewrite E4|done].
  - apply qb_device; [by rewrite E3|by rewrite E4|done].
  - apply qb_contig; [by rewrite E3|by rewrite E2|done].
Qed.

Lemma block_memory q dev size R : queue_block q dev size R ->
  exists k n, is_memory k = true /\ (k, qs_virt q, n) ∈ R.
Proof.
  intros [? ? ?|k [-> | ->] ? ? ?|? ? ?|r ? ? ?]; do 2 eexists; split;
    try (by apply elem_of_singleton || by apply elem_of_union_l, elem_of_singleton); done.
Qed.

(** Everything of a queue is at its place. *)
Lemma block_at q dev size R k x n : queue_block q dev size R -> (k, x, n) ∈ R -> x = qs_virt q.
Proof.
  intros [? ? ?|k' ? ? ? ?|? ? ?|r ? ? [-> | ->]] Hin;
    rewrite ?elem_of_union, ?elem_of_singleton in Hin; by destruct_or?; simplify_eq.
Qed.

Lemma block_kinds q dev size R k x n : queue_block q dev size R -> (k, x, n) ∈ R ->
  k = KHostPinned \/ k = KMalloc \/ k = KDevice \/ k = KMapping \/ k = KRegistered \/ k = KLocked.
Proof.
  intros [? ? ?|k' [-> | ->] ? ? ?|? ? ?|r ? ? [-> | ->]] Hin;
    rewrite ?elem_of_union, ?elem_of_singleton in Hin; destruct_or?; simplify_eq; auto 7.
Qed.

Lemma no_stale_block H q dev size R : no_stale H -> queue_block q dev size R -> no_stale (R ∪ H).
Proof.
  intros Hs Hb p Hp. destruct (block_memory _ _ _ _ Hb) as (k & n & Hk & Hin).
  assert (p <> qs_virt q) as Hne. { intros ->. apply (proj2 Hp k n Hk). by apply elem_of_union_l. }
  destruct (Hs p) as [H1 H2]; [eapply fresh_weaken; [exact Hp|apply union_subseteq_r]|].
  split; intros [Hr|Hr]%elem_of_union; try done; by apply Hne, (block_at _ _ _ _ _ _ _ Hb Hr).
Qed.

Section Specs.
Context {K : Kernel} {E : HostEnv} {EO : HostEnvOk E}.

(** A queue that a set-up returns. *)
Record queue_ready (H : gset host_res) (q : xioQueueSetup) (dev : bool) (size : Z) (R : gset host_res) : Prop := {
  qr_block : queue_block q dev size R;
  qr_fresh : fresh H (qs_virt q);
  qr_new : R ## H;
  qr_list : qs_prp_list q = NULL
}.

Definition setup_ends (dev : bool) (size : Z) (s : host) (out : Z * xioQueueSetup) (s' : host) : Prop :=
  (fst out < 0 /\ qs_virt (snd out) = NULL /\ exists L, fallback (ho_held s) L /\ has s s' (L ∪ ho_held s)) \/
  (fst out = 0 /\ exists R, queue_ready (ho_held s) (snd out) dev size R /\ has s s' (R ∪ ho_held s)).

Lemma setup_failed dev size s rc q s' :
  rc < 0 -> qs_virt q = NULL -> has s s' (ho_held s) -> setup_ends dev size s (rc, q) s'.
Proof using Type.
  intros Hrc Hq Hh. left. split; [done|]. split; [done|]. exists ∅. split; [by left|]. by rewrite union_empty_l_L.
Qed.

Lemma setupContig_has size bdf dev s :
  no_stale (ho_held s) -> wp (setupContigQueueForGpu size bdf) (setup_ends dev size s) s.
Proof using EO.
  intros Hst. pose proof (has_refl s) as H0. unfold setupContigQueueForGpu.
  destruct (size =? 0); [by apply wp_ret, setup_failed|].
  apply wp_bind, open_retry_spec; [done| |].
  2:{ intros e s1 He A1. hasettle. rewrite (proj2 (Z.ltb_lt _ _) He). by apply wp_ret, setup_failed. }
  intros fd s1 Hfd Hn A1. hasettle. rewrite (proj2 (Z.ltb_ge _ _) Hfd).
  assert (forall rc q f s2, rc < 0 -> qs_virt q = NULL -> has s s2 ({[ RFd fd ]} ∪ ho_held s) ->
    wp (close_module fd f ;;; ret (rc, q)) (setup_ends dev size s) s2) as Hclose.
  { intros rc q f s2 Hrc Hq B2. apply wp_bind, close_module_has; [is_held_h|]. intros s3 B3. hasettle.
    apply wp_ret, setup_failed; [done|done|]. eapply has_eq; [eassumption|]. by apply undo_one. }
  assert (forall rc f id s2, rc < 0 -> has s s2 ({[ RFd fd ]} ∪ ho_held s) ->
    wp (abandon_contig fd f id rc) (setup_ends dev size s) s2) as Habandon.
  { intros rc f id s2 Hrc B2. unfold abandon_contig. apply wp_bind. unfold ioctl. apply in_module_has.
    intros a s3 B3. hasettle. by apply Hclose. }
  unfold new_file, file_get. apply wp_bind, wp_bind, wp_consult. intros s2 A2 _. hasettle.
  apply wp_bind, set_kernel_has. intros s3 B3. hasettle. apply wp_ret.
  apply wp_bind. unfold ioctl. apply in_module_has. intros rc s4 B4. hasettle.
  destruct (Z.ltb_spec rc 0); [by apply Hclose|].
  unfold last_copy. apply wp_bind, wp_gets. destruct (copied_contig _) as [phys id].
  destruct (_ <=? 0); [by apply Habandon|].
  apply wp_bind, mmap_module_has.
  2:{ intros rc1 s5 Hrc B5. hasettle. rewrite (proj2 (Z.ltb_lt _ _) Hrc). by apply Habandon. }
  intros p s5 Hp B5. rewrite (ha_held _ _ _ B4) in Hp. hasettle. cbn [Z.ltb Z.compare].
  assert (fresh (ho_held s) p) as Hp' by (eapply fresh_weaken; [exact Hp|apply union_subseteq_r]).
  apply wp_bind, wp_memset0. intros s6 A6 _. hasettle. destruct (Hst p Hp') as [Hr Hl].
  pose proof (fresh_not_in _ _ KMapping size Hp' eq_refl) as Hm.
  apply wp_bind, gpu_pointer_spec.
  - intros g r s7 Hg Hgr A7. hasettle. cbn [Z.ltb Z.compare]. apply wp_bind, close_module_has; [is_held_h|].
    intros s8 B8. hasettle. apply wp_ret. right. split; [done|]. exists {[ RMapping p size; r ]}. split.
    + split; cbn [snd qs_prp_list qs_virt]; [by apply qb_contig|done| |done]. destruct Hgr as [-> | ->]; set_solver.
    + eapply has_eq; [eassumption|]. destruct Hgr as [-> | ->]; set_solver.
  - intros rc1 s7 Hrc A7. hasettle. rewrite (proj2 (Z.ltb_lt _ _) Hrc). apply wp_bind, munmap_module_has; [is_held_h|].
    intros s8 B8. hasettle. apply Habandon; [done|]. eapply has_eq; [eassumption|].
    pose proof (fresh_not_in _ _ KMapping size Hp eq_refl). set_solver.
Qed.

(** Memory of the host, from either allocator. *)
Definition host_memory (p : ptr) (B : gset host_res) : Prop := B = {[ RHostPinned p ]} \/ B = {[ RMalloc p ]}.

Lemma pinned_or_malloc_has size c s (Q : Z * ptr -> host -> Prop) :
  (forall rc s', rc <> 0 -> has s s' (ho_held s) -> Q (rc, NULL) s') ->
  (forall p B s', host_memory p B -> fresh (ho_held s) p -> has s s' (B ∪ ho_held s) -> Q (0, p) s') ->
  wp (pinned_or_malloc size c) Q s.
Proof using EO.
  intros H1 H2. pose proof (has_refl s) as H0. unfold pinned_or_malloc. apply wp_bind, wp_hipHostMalloc.
  - intros p s1 Hp A1 _. hasettle. cbn [Z.eqb]. apply wp_bind, wp_memset0. intros s2 A2 _. hasettle.
    apply wp_ret. by apply (H2 p {[ RHostPinned p ]}); [left|..].
  - intros rc p s1 Hrc A1 _. hasettle. rewrite (proj2 (Z.eqb_neq _ _) Hrc). apply wp_bind, wp_malloc.
    + intros q s2 Hq A2 _. rewrite (ha_held _ _ _ A1) in Hq. hasettle. rewrite (proj2 (Z.eqb_neq _ _) (proj1 Hq)).
      apply wp_bind, wp_memset0. intros s3 A3 _. hasettle. apply wp_ret. by apply (H2 q {[ RMalloc q ]}); [right|..].
    + intros s2 A2 _. hasettle. by apply wp_ret, H1.
Qed.

(** Freeing memory of the host as mapped memory. *)
Lemma free_mapped p B S s (Q : unit -> host -> Prop) :
  host_memory p B -> fresh S p -> ho_held s = B ∪ S ->
  (forall s', has s s' S -> Q tt s') -> wp (freeHostMemory p XIO_HOST_MEM_MAPPED) Q s.
Proof using EO.
  intros HB Hp Hh HQ. eapply wp_mono; [apply (freeHostMemory_spec p _ B)|].
  - done.
  - apply Hp.
  - rewrite Hh. apply union_subseteq_l.
  - rewrite Hh. by apply fresh_sole.
  - intros [] s' [A _]. apply HQ. rewrite Hh in A. destruct A as [Hh' Hv Hb _]. split; [|done|done].
    rewrite Hh'. destruct HB as [-> | ->]; apply undo_one; by apply (fresh_not_in _ _ _ _ Hp).
Qed.

(** [allocHostMemory] of a queue that is not empty is one of the above. *)
Lemma mapped_is size old : size <> 0 ->
  allocHostMemory size old XIO_HOST_MEM_MAPPED = pinned_or_malloc size false.
Proof using Type. intros Hs. unfold allocHostMemory. by rewrite (proj2 (Z.eqb_neq _ _) Hs). Qed.
Lemma coherent_is size old : size <> 0 ->
  allocHostMemory size old XIO_HOST_MEM_COHERENT = pinned_or_malloc size true.
Proof using Type. intros Hs. unfold allocHostMemory. by rewrite (proj2 (Z.eqb_neq _ _) Hs). Qed.

Lemma host_memory_at p B k x n : host_memory p B -> (k, x, n) ∈ B -> x = p.
Proof using Type. intros [-> | ->] Hin%elem_of_singleton; by simplify_eq. Qed.

(** A newer block is elsewhere. *)
Lemma fresh_both v p B B' S : host_memory v B -> host_memory p B' -> fresh S v -> fresh (B ∪ S) p -> fresh (B' ∪ S) v.
Proof using Type.
  intros HB HB' Hv Hp. split; [apply Hv|]. intros k n Hk [Hin|Hin]%elem_of_union; [|by apply (proj2 Hv k n)].
  apply (host_memory_at _ _ _ _ _ HB') in Hin as ->.
  destruct HB as [-> | ->]; [apply (proj2 Hp KHostPinned 0)|apply (proj2 Hp KMalloc 0)];
    first [done|by apply elem_of_union_l, elem_of_singleton].
Qed.

Lemma reallocateQueue_has v size B S s (Q : bool * ptr -> host -> Prop) :
  size <> 0 -> host_memory v B -> fresh S v -> ho_held s = B ∪ S ->
  (forall s', has s s' (B ∪ S) -> Q (false, v) s') ->
  (forall p B' s', host_memory p B' -> fresh S p -> has s s' (B' ∪ S) -> Q (true, p) s') ->
  wp (reallocateQueue v size) Q s.
Proof using EO.
  intros Hsz HB Hv Hh H1 H2. pose proof (has_refl s) as H0. unfold reallocateQueue.
  rewrite (proj2 (Z.eqb_neq _ _) (proj1 Hv)), coherent_is by done. apply wp_bind, pinned_or_malloc_has.
  - intros rc s1 Hrc B1. hasettle. unfold hipSuccess. rewrite (proj2 (Z.eqb_neq _ _) Hrc). rewrite Hh in B1.
    by apply wp_ret, H1.
  - intros p B' s1 HB' Hp B1. hasettle. rewrite Hh in *. unfold hipSuccess. rewrite (proj2 (Z.eqb_neq _ _) (proj1 Hp)).
    cbn [Z.eqb negb orb]. apply wp_bind. unfold memcpy. apply wp_memcpy. intros s2 A2 _. hasettle.
    assert (fresh (B' ∪ S) v) as Hv' by (by eapply fresh_both).
    apply wp_bind. eapply (free_mapped _ B (B' ∪ S)); [done|done| |].
    { rewrite (ha_held _ _ _ A2). set_solver. }
    intros s3 B3. hasettle. apply wp_ret. eapply H2; [done| |done]. eapply fresh_weaken; [exact Hp|apply union_subseteq_r].
Qed.
(** Giving a queue up before it is ready. *)
Lemma undo_host v B (reg : bool) S s (Q : unit -> host -> Prop) :
  host_memory v B -> fresh S v -> RRegistered v ∉ S ->
  ho_held s = (if reg then {[ RRegistered v ]} else ∅) ∪ (B ∪ S) ->
  (forall s', has s s' S -> Q tt s') -> wp (undo_setup v false reg false) Q s.
Proof using EO.
  intros HB Hv Hr Hh HQ. pose proof (has_refl s) as H0. unfold undo_setup. apply wp_bind.
  assert (forall s1, has s s1 (B ∪ S) -> wp (freeQueue v false) Q s1) as Hfree.
  { intros s1 B1. unfold freeQueue. eapply (free_mapped _ B S); [done|done|apply B1|].
    intros s2 B2. hasettle. by apply HQ. }
  destruct reg; [|apply wp_ret, Hfree; by rewrite Hh, union_empty_l_L in H0].
  apply wp_bind, wp_hipHostUnregister.
  - intros s1 Hin A1 _. hasettle. apply wp_ret, Hfree. eapply has_eq; [eassumption|]. rewrite Hh. apply undo_one.
    intros [Hi|Hi]%elem_of_union; [|done]. destruct HB as [-> | ->]; by apply elem_of_singleton in Hi.
  - intros rc s1 Hrc Hno _ _. destruct Hno. rewrite Hh. by apply elem_of_union_l, elem_of_singleton.
Qed.

Lemma undo_coherent v B S s (Q : unit -> host -> Prop) :
  host_memory v B -> fresh S v -> ho_held s = B ∪ S ->
  (forall L s', fallback S L -> has s s' (L ∪ S) -> Q tt s') -> wp (undo_setup v false false true) Q s.
Proof using EO.
  intros HB Hv Hh HQ. pose proof (has_refl s) as H0. unfold undo_setup. apply wp_bind, wp_ret, wp_bind, wp_hipHostFree.
  - intros s1 Hin A1 _. hasettle. apply wp_ret, (HQ ∅); [by left|]. eapply has_eq; [eassumption|]. rewrite Hh in *.
    destruct HB as [-> | ->]; [rewrite undo_one, union_empty_l_L; [done|by apply (fresh_not_in _ _ _ _ Hv)]|].
    exfalso. apply elem_of_union in Hin as [Hin%elem_of_singleton|Hin]; [by simplify_eq|].
    by apply (fresh_not_in _ _ KHostPinned 0 Hv).
  - intros rc s1 Hrc Hno A1 _. hasettle. rewrite Hh in *. destruct HB as [-> | ->].
    + destruct Hno. by apply elem_of_union_l, elem_of_singleton.
    + apply wp_ret, (HQ {[ RMalloc v ]}); [|done]. right. by exists v.
Qed.

(** A failing [hipMalloc] leaves no pointer. *)
Hypothesis Hnull : forall v n rc p, he_hipMalloc v n = (rc, p) -> rc <> 0 -> p = NULL.

Lemma setup_device_has size bdf em s :
  wp (setupQueueForGpu size true bdf em) (setup_ends true size s) s.
Proof using EO Hnull.
  pose proof (has_refl s) as H0. unfold setupQueueForGpu. destruct (size =? 0) eqn:Es; [by apply wp_ret, setup_failed|].
  unfold allocateQueue, allocDeviceMemory. rewrite Es.
  change (flagged XIO_DEVICE_MEM_HIP XIO_DEVICE_MEM_VMEM) with false.
  change (flagged XIO_DEVICE_MEM_HIP XIO_DEVICE_MEM_HIP) with true. cbn iota.
  apply wp_bind, wp_bind, wp_bind. unfold hipMalloc. apply wp_bind, wp_consult. intros s1 A1 _. hasettle.
  destruct (he_hipMalloc (view s) size) as [rc p] eqn:Em. destruct (Z.eqb_spec rc 0) as [->|Hrc].
  2:{ apply wp_bind, wp_ret, wp_ret. rewrite (proj2 (Z.eqb_neq _ _) Hrc). apply wp_ret. cbn iota. apply wp_ret.
      cbn. apply wp_ret, setup_failed; [done|by eapply Hnull|done]. }
  pose proof (he_hipmalloc_fresh _ _ _ Em) as Hp. cbn [view fst] in Hp.
  apply wp_bind, wp_acquire. intros s2 A2 _. hasettle. apply wp_ret. cbn [Z.eqb]. apply wp_ret.
  unfold HSA_STATUS_SUCCESS. cbn [Z.eqb negb]. apply wp_bind, wp_consult. intros s3 A3 _. hasettle.
  apply wp_bind, wp_memset0. intros s4 A4 _. hasettle. apply wp_ret. unfold hipSuccess. cbn [Z.eqb negb].
  apply wp_bind, wp_ret, wp_bind, wp_ret, wp_bind. cbn [negb andb]. apply wp_ret. cbn [Z.eqb negb].
  apply wp_bind. unfold getGpuPointer. rewrite (proj2 (Z.eqb_neq _ _) (proj1 Hp)). apply wp_ret.
  rewrite (proj2 (Z.eqb_neq _ _) (proj1 Hp)). apply wp_bind, getPhysAddrOf_has. intros phys s5 _ B5. hasettle.
  pose proof (fresh_not_in _ _ KDevice 0 Hp eq_refl) as Hd.
  destruct (phys =? 0); cbn [andb].
  - apply wp_bind. unfold undo_setup, freeQueue, freeDeviceMemory. rewrite (proj2 (Z.eqb_neq _ _) (proj1 Hp)).
    apply wp_bind, wp_ret. change (flagged XIO_DEVICE_MEM_HIP XIO_DEVICE_MEM_VMEM) with false.
    change (flagged XIO_DEVICE_MEM_HIP XIO_DEVICE_MEM_HIP) with true. cbn iota. unfold hipFree.
    apply wp_give_back; [is_held_h|]. intros s6 A6 _. hasettle. apply wp_ret, setup_failed; [done|done|].
    eapply has_eq; [eassumption|]. by apply undo_one.
  - apply wp_ret. right. split; [done|]. exists {[ RDevice p ]}. split; [|done].
    split; [by apply qb_device|done|set_solver|done].
Qed.

Lemma plain_ready H v B g phys size :
  host_memory v B -> fresh H v -> RRegistered v ∉ H ->
  queue_ready H (plain_setup v g phys false) false size (B ∪ {[ RRegistered v ]}).
Proof using Type.
  clear Hnull. intros HB Hv Hr. split; [|done| |done].
  - destruct HB as [-> | ->].
    + apply (qb_plain (plain_setup v g phys false) false size KHostPinned); auto.
    + apply (qb_plain (plain_setup v g phys false) false size KMalloc); auto.
  - apply disjoint_union_l. split; [|by apply disjoint_singleton_l].
    destruct HB as [-> | ->]; by apply fresh_disjoint.
Qed.

Lemma setup_host_has size bdf em s :
  no_stale (ho_held s) -> wp (setupQueueForGpu size false bdf em) (setup_ends false size s) s.
Proof using EO.
  clear Hnull. intros Hst. pose proof (has_refl s) as H0. unfold setupQueueForGpu.
  destruct (Z.eqb_spec size 0) as [|Hsz]; [by apply wp_ret, setup_failed|].
  unfold allocateQueue. rewrite mapped_is by done. apply wp_bind, pinned_or_malloc_has.
  { intros rc s1 Hrc B1. hasettle. unfold hipSuccess. rewrite (proj2 (Z.eqb_neq _ _) Hrc).
    by apply wp_ret, setup_failed. }
  intros v B s1 HB Hv B1. hasettle. unfold hipSuccess. cbn [Z.eqb negb]. destruct (Hst v Hv) as [Hrv _].
  apply wp_bind, wp_memset0. intros s2 A2 _. hasettle.
  apply wp_bind. eapply (reallocateQueue_has _ _ B (ho_held s)); [done|done|done|apply A2|..].
  - intros s3 B3. hasettle. cbn [negb andb]. apply wp_bind, wp_bind, wp_hipHostRegister.
    2:{ intros rc s4 Hrc A4 _. hasettle. apply wp_ret. rewrite (proj2 (Z.eqb_neq _ _) Hrc). apply wp_bind.
        eapply (undo_host _ B false (ho_held s)); [done|done|done|by rewrite union_empty_l_L; apply A4|].
        intros s5 B5. hasettle. by apply wp_ret, setup_failed. }
    intros s4 Hno A4 _. hasettle. apply wp_ret. cbn [Z.eqb negb].
    assert (forall rc q s5, rc < 0 -> qs_virt q = NULL -> has s s5 ({[ RRegistered v ]} ∪ (B ∪ ho_held s)) ->
      wp (undo_setup v false true false ;;; ret (rc, q)) (setup_ends false size s) s5) as Hundo.
    { intros rc q s5 Hrc Hq B5. apply wp_bind. eapply (undo_host _ B true (ho_held s)); [done|done|done|apply B5|].
      intros s6 B6. hasettle. by apply wp_ret, setup_failed. }
    unfold getGpuPointer. rewrite (proj2 (Z.eqb_neq _ _) (proj1 Hv)). apply wp_bind, wp_bind, wp_consult.
    intros s5 A5 _. hasettle. destruct (he_hipHostGetDevicePointer _ _) as [rc g] eqn:Eg. apply wp_ret.
    destruct (is_null (if rc =? 0 then g else NULL)) eqn:En; [by apply Hundo|].
    apply wp_bind, getPhysAddrOf_has. intros phys s6 _ B6. hasettle. rewrite andb_false_r. apply wp_ret. right.
    split; [done|]. exists (B ∪ {[ RRegistered v ]}). split; [by apply plain_ready|].
    eapply has_eq; [eassumption|]. clear. set_solver.
  - intros p B' s3 HB' Hp B3. hasettle. destruct (Hst p Hp) as [Hrp _]. cbn [negb andb]. apply wp_bind, wp_ret. cbn [Z.eqb negb].
    assert (forall rc q s4, rc < 0 -> qs_virt q = NULL -> has s s4 (B' ∪ ho_held s) ->
      wp (undo_setup p false false true ;;; ret (rc, q)) (setup_ends false size s) s4) as Hundo.
    { intros rc q s4 Hrc Hq B4. apply wp_bind. eapply (undo_coherent _ B' (ho_held s)); [done|done|apply B4|].
      intros L s5 HL B5. hasettle. apply wp_ret. left. split; [done|]. split; [done|]. by exists L. }
    unfold getGpuPointer. rewrite (proj2 (Z.eqb_neq _ _) (proj1 Hp)). apply wp_bind, wp_bind, wp_consult.
    intros s4 A4 _. pose proof (he_device_pointer (view s3) p) as Hdp. cbn [view fst] in Hdp. hasettle.
    destruct (he_hipHostGetDevicePointer _ _) as [rc g] eqn:Eg. apply wp_ret.
    destruct (is_null (if rc =? 0 then g else NULL)) eqn:En; [by apply Hundo|].
    apply wp_bind, getPhysAddrOf_has. intros phys s5 _ B5. hasettle. rewrite andb_false_r. apply wp_ret. right.
    split; [done|]. destruct (Z.eqb_spec rc 0) as [->|]; [|done].
    destruct (Hdp g eq_refl) as [_ Hin].
    assert (B' = {[ RHostPinned p ]}) as ->.
    { destruct HB' as [->|HM]; [done|exfalso]. pose proof (fresh_not_in _ _ KHostPinned 0 Hp eq_refl) as Hn.
      rewrite HM in Hin. destruct Hin as [[Hd|Hd]%elem_of_union|[Hd|Hd]%elem_of_union]; try done;
        by apply elem_of_singleton in Hd. }
    exists {[ RHostPinned p ]}. split; [|done]. split; [by apply qb_coherent|done| |done].
    by apply fresh_disjoint.
Qed.
Lemma setupOne_has contig size dev bdf em s :
  no_stale (ho_held s) -> wp (setupOne contig size dev bdf em) (setup_ends dev size s) s.
Proof using EO Hnull.
  intros Hst. unfold setupOne. destruct contig; [by apply setupContig_has|].
  destruct dev; [apply setup_device_has|by apply setup_host_has].
Qed.

(** ** Giving a queue back *)

Lemma free_prp_list_has q P T s (Q : unit -> host -> Prop) :
  list_block q P -> P ⊆ T -> ho_held s = T ->
  (forall s', has s s' (T ∖ P) -> Q tt s') -> wp (free_prp_list q) Q s.
Proof using EO.
  clear Hnull. intros HP Hin Hh HQ. pose proof (has_refl s) as H0. rewrite Hh in H0. unfold free_prp_list.
  destruct HP as [[-> ->]|(Hl & Hps & ->)].
  - apply wp_ret, HQ. by rewrite difference_empty_L.
  - rewrite (proj2 (Z.eqb_neq _ _) Hl), (proj2 (Z.ltb_lt _ _) Hps). apply wp_bind. unfold munlock, free.
    apply wp_give_back; [is_held_h|]. intros s1 A1 _. rewrite Hh in A1. hasettle.
    apply wp_give_back; [is_held_h|]. intros s2 A2 _. hasettle. apply HQ. eapply has_eq; [eassumption|].
    clear. set_solver.
Qed.

(** Freeing the memory of a queue; only its own memory is at its place. *)
Lemma free_block q dev size R T s (Q : xioQueueSetup -> host -> Prop) :
  queue_block q dev size R -> qs_virt q <> NULL -> R ⊆ T -> sole T (qs_virt q) R ->
  ((RLocked (qs_virt q)) ∈ R -> RRegistered (qs_virt q) ∉ T) -> ho_held s = T ->
  (forall q' s', has s s' (T ∖ (R ∖ queue_rest q dev)) -> Q q' s') ->
  wp (if qs_uses_contig q then freeContigQueue q size
      else if qs_uses_coherent q then hipHostFree (qs_virt q) ;;; ret q
      else freeQueue (qs_virt q) dev ;;; ret q) Q s.
Proof using EO.
  clear Hnull. intros HR Hv Hin Hso Hlk Hh HQ. pose proof (has_refl s) as H0. rewrite Hh in H0.
  unfold queue_rest in HQ. destruct HR as [Hc Hco ->|k Hk Hc Hco ->|Hc Hco ->|r Hc Hg Hr]; rewrite Hc, ?Hco in *;
    cbn [orb] in HQ; try rewrite difference_empty_L in HQ.
  - apply wp_bind, wp_hipHostFree.
    + intros s1 _ A1 _. rewrite Hh in A1. hasettle. by apply wp_ret, HQ.
    + intros rc s1 _ Hno _ _. destruct Hno. rewrite Hh. set_solver.
  - apply wp_bind. unfold freeQueue. eapply wp_mono; [apply (freeHostMemory_spec _ _ {[ (k, qs_virt q, 0) ]})|].
    + destruct Hk as [-> | ->]; [by left|by right].
    + done.
    + rewrite Hh. set_solver.
    + rewrite Hh. intros k' n Hm Hi. specialize (Hso k' n Hm Hi). apply elem_of_union in Hso as [Hso|Hso]; [done|].
      apply elem_of_singleton in Hso. by simplify_eq.
    + intros _ s1 [A1 _]. rewrite Hh in A1. hasettle. apply wp_ret, HQ. eapply has_eq; [eassumption|].
      assert ((k, qs_virt q, 0) <> RRegistered (qs_virt q)) by (destruct Hk as [-> | ->]; congruence).
      clear -H. set_solver.
  - apply wp_bind. unfold freeQueue, freeDeviceMemory. rewrite (proj2 (Z.eqb_neq _ _) Hv).
    change (flagged XIO_DEVICE_MEM_HIP XIO_DEVICE_MEM_VMEM) with false.
    change (flagged XIO_DEVICE_MEM_HIP XIO_DEVICE_MEM_HIP) with true. cbn iota. unfold hipFree.
    apply wp_give_back; [rewrite Hh; set_solver|]. intros s1 A1 _. rewrite Hh in A1. hasettle. by apply wp_ret, HQ.
  - unfold freeContigQueue. rewrite Hc. cbn [negb].
    rewrite (proj2 (Z.eqb_neq _ _) Hv), (proj2 (Z.eqb_neq _ _) Hg). cbn [negb andb].
    apply wp_bind, (unregister_spec (qs_virt q) r).
    { rewrite Hh. destruct Hr as [-> | ->]; [left; split; [done|]; set_solver|right].
      split; [done|]. split; [set_solver|]. apply Hlk. set_solver. }
    intros s1 A1. rewrite Hh in A1. hasettle. apply wp_bind, munmap_module_has.
    { rewrite (ha_held _ _ _ A1). destruct Hr as [-> | ->]; set_solver. }
    intros s2 B2. hasettle. apply wp_ret, HQ. eapply has_eq; [eassumption|]. clear. set_solver.
Qed.

Lemma freeQueueSetup_has q dev size R P T s (Q : xioQueueSetup -> host -> Prop) :
  queue_block q dev size R -> list_block q P -> qs_virt q <> NULL -> R ⊆ T -> P ⊆ T -> P ## R ->
  sole T (qs_virt q) R -> ((RLocked (qs_virt q)) ∈ R -> RRegistered (qs_virt q) ∉ T) -> ho_held s = T ->
  (forall q' s', qs_virt q' = NULL -> has s s' (T ∖ (P ∪ (R ∖ queue_rest q dev))) -> Q q' s') ->
  wp (freeQueueSetup q dev size) Q s.
Proof using EO.
  clear Hnull. intros HR HP Hv Hin HinP HD Hso Hlk Hh HQ. pose proof (has_refl s) as H0. unfold freeQueueSetup.
  rewrite (proj2 (Z.eqb_neq _ _) Hv). apply wp_bind.
  assert (forall q1 s1, qs_virt q1 = qs_virt q -> qs_gpu q1 = qs_gpu q -> qs_uses_contig q1 = qs_uses_contig q ->
    qs_uses_coherent q1 = qs_uses_coherent q -> has s s1 (T ∖ P) ->
    wp (let* s := if qs_uses_contig q1 then freeContigQueue q1 size
          else if qs_uses_coherent q1 then hipHostFree (qs_virt q1) ;;; ret q1
          else freeQueue (qs_virt q1) dev ;;; ret q1 in
        ret {| qs_virt := NULL; qs_gpu := NULL; qs_phys := qs_phys s; qs_uses_coherent := qs_uses_coherent s;
               qs_prp_list := qs_prp_list s; qs_prp_list_phys := qs_prp_list_phys s; qs_prp2 := qs_prp2 s;
               qs_uses_contig := qs_uses_contig s; qs_contig_id := qs_contig_id s |}) Q s1) as Hrest.
  { intros q1 s1 E1 E2 E3 E4 B1. apply wp_bind. eapply (free_block _ _ _ R (T ∖ P)); [..|apply B1|].
    - by apply (block_same q).
    - by rewrite E1.
    - set_solver.
    - rewrite E1. intros k n Hk Hi. apply (Hso k n Hk). set_solver.
    - rewrite E1. set_solver.
    - intros q2 s2 B2. hasettle. apply wp_ret, HQ; [done|]. eapply has_eq; [eassumption|].
      unfold queue_rest. rewrite E1, E3, E4. set_solver. }
  destruct (is_null (qs_prp_list q)) eqn:En.
  - apply wp_ret, Hrest; [done..|]. rewrite Hh in H0. destruct HP as [[_ ->]|(Hl & _)]; [by rewrite difference_empty_L|].
    by rewrite (proj2 (Z.eqb_neq _ _) Hl) in En.
  - apply wp_bind. eapply (free_prp_list_has _ P T); [done|done|done|]. intros s1 B1. apply wp_ret, Hrest; done.
Qed.
(** ** The PRP list *)

Definition same_queue (q q1 : xioQueueSetup) : Prop :=
  qs_virt q1 = qs_virt q /\ qs_gpu q1 = qs_gpu q /\ qs_uses_contig q1 = qs_uses_contig q /\
  qs_uses_coherent q1 = qs_uses_coherent q.

Record listed (H : gset host_res) (q : xioQueueSetup) (P : gset host_res) : Prop := {
  ls_block : list_block q P;
  ls_fresh : P = ∅ \/ fresh H (qs_prp_list q);
  ls_new : P ## H
}.

Definition list_ends (q : xioQueueSetup) (s : host) (out : Z * xioQueueSetup) (s' : host) : Prop :=
  exists P, same_queue q (snd out) /\ listed (ho_held s) (snd out) P /\ has s s' (P ∪ ho_held s).

Lemma unlisted_ends q rc q1 s s' :
  same_queue q q1 -> qs_prp_list q1 = NULL -> has s s' (ho_held s) -> list_ends q s (rc, q1) s'.
Proof using Type.
  intros Hq Hl Hh. exists ∅. split; [done|]. split; [|by rewrite union_empty_l_L].
  split; [by left|by left|apply disjoint_empty_l].
Qed.

Lemma buildQueuePrpList_has q size dev s :
  qs_prp_list q = NULL -> wp (buildQueuePrpList q size dev) (list_ends q s) s.
Proof using EO.
  clear Hnull. intros Hl. pose proof (has_refl s) as H0. unfold buildQueuePrpList.
  destruct (_ || _); [by apply wp_ret, unlisted_ends|].
  destruct (Z.leb_spec ps 0); [by apply wp_ret, unlisted_ends|].
  destruct (_ <=? 1); [by apply wp_ret, unlisted_ends|].
  destruct (_ && _); [by apply wp_ret, unlisted_ends|]. destruct dev; [by apply wp_ret, unlisted_ends|].
  apply wp_bind, getPagePhysAddrs_has. intros r s1 B1. hasettle. destruct r as [e|addrs]; [by apply wp_ret, unlisted_ends|].
  destruct (_ <? _); [by apply wp_ret, unlisted_ends|].
  apply wp_bind, wp_posix_memalign.
  2:{ intros s2 A2 _. hasettle. by apply wp_ret, unlisted_ends. }
  intros l s2 Hf A2 _. rewrite (ha_held _ _ _ B1) in Hf. hasettle. apply wp_bind, wp_memset0. intros s3 A3 _. hasettle.
  pose proof (fresh_not_in _ _ KMalloc 0 Hf eq_refl) as Hn.
  apply wp_bind, wp_mlock.
  2:{ intros rc s4 Hrc A4 _. hasettle. rewrite (proj2 (Z.eqb_neq rc 0)) by lia. cbn [negb]. apply wp_bind. unfold free.
      apply wp_give_back; [is_held_h|]. intros s5 A5 _. hasettle. apply wp_ret, unlisted_ends; [done|done|].
      eapply has_eq; [eassumption|]. by apply undo_one. }
  intros s4 Hm A4 _. rewrite (ha_held _ _ _ A3) in Hm. hasettle. cbn [Z.eqb negb].
  apply wp_bind, store_words_spec. intros s5 A5 _ _. hasettle.
  apply wp_bind, getPhysAddr_has. intros phys s6 B6. hasettle. destruct (phys =? 0).
  - apply wp_bind. unfold munlock, free. apply wp_give_back; [is_held_h|]. intros s7 A7 _. hasettle.
    apply wp_bind, wp_give_back; [is_held_h|]. intros s8 A8 _. hasettle. apply wp_ret, unlisted_ends; [done|done|].
    eapply has_eq; [eassumption|]. clear -Hn Hm. set_solver.
  - apply wp_ret. exists {[ RMlocked l ps; RMalloc l ]}. split; [done|]. split.
    + split; [right; split; [apply Hf|done]|by right|]. clear -Hn Hm. set_solver.
    + eapply has_eq; [eassumption|]. clear. set_solver.
Qed.

Lemma listOne_has needed q size dev s :
  qs_prp_list q = NULL -> wp (listOne needed q size dev) (list_ends q s) s.
Proof using EO.
  clear Hnull. intros Hl. unfold listOne. destruct needed; [by apply buildQueuePrpList_has|].
  by apply wp_ret, unlisted_ends; [..|apply has_refl].
Qed.

(** ** The controller *)

Variable cfg : build_config.
Variables admin_q command : ptr.
Variable retries : nat.

Lemma admin_has opcode addr a b s (Q : Z * Z -> host -> Prop) :
  (forall r s', has s s' (ho_held s) -> Q r s') ->
  wp (ioctlEintrSafe cfg admin_q command retries opcode addr a b) Q s.
Proof using Type.
  clear Hnull. intros HQ. apply (eintr_loop_spec _ _ _ _ _ _ _ _ (fun _ => True)).
  - intros. by apply wp_any.
  - intros rc l s' _ [? ? ? _ _ _] _ _. by apply HQ.
  - intros v x l s' [? ? ? _ _ _] _ _. by apply HQ.
Qed.

Lemma createQueueCommands_has fd qid size sv cv sp cp s (Q : Z -> host -> Prop) :
  (forall r s', has s s' (ho_held s) -> Q r s') ->
  wp (createQueueCommands cfg admin_q command retries fd qid size sv cv sp cp) Q s.
Proof using Type.
  clear Hnull. intros HQ. pose proof (has_refl s) as H0. unfold createQueueCommands.
  destruct (_ || _); [by apply wp_ret, HQ|]. apply wp_bind, admin_has. intros [rc res] s1 B1. hasettle.
  destruct (rc <? 0); [by apply wp_ret, HQ|]. destruct (negb _); [by apply wp_ret, HQ|].
  apply wp_bind, wp_memset0. intros s2 A2 _. hasettle. apply wp_bind, admin_has. intros [rc' res'] s3 B3. hasettle.
  destruct (rc' <? 0); [by apply wp_ret, HQ|]. destruct (negb _); by apply wp_ret, HQ.
Qed.

Lemma announceQueues_has fd f nfd qid size bdf sq cq sp cp s (Q : Z -> host -> Prop) :
  (forall r s', has s s' (ho_held s) -> Q r s') ->
  wp (announceQueues cfg admin_q command retries fd f nfd qid size bdf sq cq sp cp) Q s.
Proof using Type.
  clear Hnull. intros HQ. pose proof (has_refl s) as H0. unfold announceQueues.
  apply wp_bind, kmodRegQueue_spec.
  { intros rc s1 Hrc S1 _. hasettle. rewrite (proj2 (Z.ltb_lt _ _) Hrc). by apply wp_ret, HQ. }
  intros p g s1 S1 _. hasettle. cbn [Z.ltb Z.compare]. apply wp_bind, kmodRegQueue_spec.
  { intros rc s2 Hrc S2 _. hasettle. rewrite (proj2 (Z.ltb_lt _ _) Hrc). by apply wp_ret, HQ. }
  intros p' g' s2 S2 _. hasettle. cbn [Z.ltb Z.compare]. apply wp_bind, deleteQueue_spec.
  intros rc l s3 S3 _ _. hasettle. apply createQueueCommands_has. intros r s4 B4. hasettle. by apply HQ.
Qed.

Lemma readNvmeCapCqr_has s (Q : Z + bool -> host -> Prop) :
  (forall r s', has s s' (ho_held s) -> Q r s') -> wp readNvmeCapCqr Q s.
Proof using EO.
  clear Hnull. intros HQ. pose proof (has_refl s) as H0. unfold readNvmeCapCqr. apply wp_bind, wp_open.
  2:{ intros e s1 He A1 _. hasettle. rewrite (proj2 (Z.ltb_lt _ _) He). by apply wp_ret, HQ. }
  intros fd s1 Hfd Hn A1 _. hasettle. rewrite (proj2 (Z.ltb_ge _ _) Hfd). apply wp_bind, wp_mmap.
  - intros p s2 Hp A2 _. rewrite (ha_held _ _ _ A1) in Hp. hasettle. apply wp_bind, wp_gets.
    apply wp_bind. unfold munmap, close. apply wp_give_back; [is_held_h|]. intros s3 A3 _. hasettle.
    apply wp_bind, wp_give_back; [|intros s4 A4 _; hasettle; apply wp_ret, HQ; eapply has_eq; [eassumption|]].
    + rewrite (ha_held _ _ _ A3). clear. set_solver.
    + rewrite undo_one; [by apply undo_one|]. by apply (fresh_not_in _ _ _ _ Hp).
  - intros s2 A2 _. hasettle. apply wp_bind. unfold close. apply wp_give_back; [is_held_h|]. intros s3 A3 _. hasettle.
    apply wp_ret, HQ. eapply has_eq; [eassumption|]. by apply undo_one.
Qed.
(** ** Two queues beside each other *)

(** Nothing of [X] is memory or registered memory at [v]. *)
Definition away (v : ptr) (X : gset host_res) : Prop :=
  (forall k n, is_memory k = true -> (k, v, n) ∉ X) /\ RRegistered v ∉ X.

Lemma away_union v X Y : away v X -> away v Y -> away v (X ∪ Y).
Proof using Type. intros [H1 H2] [H3 H4]. split; [intros k n Hk|]; apply not_elem_of_union; auto. Qed.

Lemma away_subset v X Y : away v X -> Y ⊆ X -> away v Y.
Proof using Type. intros [H1 H2] Hs. split; [intros k n Hk Hin; by apply (H1 k n Hk), Hs|by intros Hin%Hs]. Qed.

Lemma block_away q dev size R v : queue_block q dev size R -> v <> qs_virt q -> away v R.
Proof using Type.
  intros HR Hv. split; [intros k n _ Hin|intros Hin]; by apply Hv, (block_at _ _ _ _ _ _ _ HR Hin).
Qed.

Lemma fresh_away H v : no_stale H -> fresh H v -> away v H.
Proof using Type. intros Hs Hv. split; [exact (proj2 Hv)|exact (proj1 (Hs _ Hv))]. Qed.

Lemma list_away S q P q0 dev size R : listed S q P -> queue_block q0 dev size R -> R ⊆ S -> away (qs_virt q0) P.
Proof using Type.
  intros [HP Hf _] HR Hs. destruct HP as [[_ ->]|(Hl & _ & ->)]; [by split; [intros|]; apply not_elem_of_empty|].
  destruct Hf as [Hf|Hf]; [exfalso; clear -Hf; set_solver|].
  destruct (block_memory _ _ _ _ HR) as (k0 & n0 & Hk0 & Hin0).
  assert (qs_virt q0 <> qs_prp_list q) as Hne by (intros E0; apply (proj2 Hf k0 n0 Hk0), Hs; by rewrite <- E0).
  split; [intros k n Hk Hin|intros Hin]; apply elem_of_union in Hin as [Hin|Hin];
    apply elem_of_singleton in Hin; by simplify_eq.
Qed.

Lemma ready_elsewhere H q1 d1 z1 R1 q2 d2 z2 R2 :
  queue_block q1 d1 z1 R1 -> queue_ready (R1 ∪ H) q2 d2 z2 R2 -> qs_virt q2 <> qs_virt q1.
Proof using Type.
  intros HR [_ Hf _ _] Heq. destruct (block_memory _ _ _ _ HR) as (k & n & Hk & Hin).
  apply (proj2 Hf k n Hk). rewrite Heq. by apply elem_of_union_l.
Qed.

Lemma locked_not_registered q dev size R :
  queue_block q dev size R -> (RLocked (qs_virt q)) ∈ R -> RRegistered (qs_virt q) ∉ R.
Proof using Type.
  intros [? ? ?|k [-> | ->] ? ? ?|? ? ?|r ? ? [-> | ->]] Hin Hr; rewrite ?elem_of_union, ?elem_of_singleton in *;
    destruct_or?; by simplify_eq.
Qed.

(** A queue beside what is away from it. *)
Lemma sole_away q dev size R X : queue_block q dev size R -> away (qs_virt q) X -> sole (X ∪ R) (qs_virt q) R.
Proof using Type. intros HR [Hm _] k n Hk [Hin|Hin]%elem_of_union; [|done]. by destruct (Hm k n Hk). Qed.

Lemma free_beside q dev size R P X s (Q : xioQueueSetup -> host -> Prop) :
  queue_block q dev size R -> list_block q P -> qs_virt q <> NULL -> P ⊆ X -> away (qs_virt q) X -> X ## R ->
  has s s (X ∪ R) ->
  (forall q' s', qs_virt q' = NULL -> has s s' ((X ∖ P) ∪ queue_rest q dev) -> Q q' s') ->
  wp (freeQueueSetup q dev size) Q s.
Proof using EO.
  clear Hnull. intros HR HP Hv Hin Ha Hd Hh HQ.
  eapply (freeQueueSetup_has _ _ _ R P (X ∪ R)); try done.
  - apply union_subseteq_r.
  - clear -Hin. set_solver.
  - clear -Hin Hd. set_solver.
  - by apply (sole_away _ dev size).
  - intros Hl Hr. apply elem_of_union in Hr as [Hr|Hr]; [by apply Ha|by apply (locked_not_registered _ _ _ _ HR)].
  - apply Hh.
  - intros q' s' Hq' B. apply HQ; [done|]. eapply has_eq; [eassumption|].
    assert (queue_rest q dev ⊆ R) as Hrest.
    { unfold queue_rest. destruct HR as [Hc Hco ->|k ? Hc Hco ->|Hc Hco ->|r Hc ? ?]; rewrite Hc, ?Hco; cbn [orb];
        try apply empty_subseteq. apply union_subseteq_r. }
    clear -Hin Hd Hrest. apply set_eq. intros x. destruct (decide (x ∈ queue_rest q dev)); set_solver.
Qed.
(** ** The pair *)

Definition stray (L : gset host_res) : Prop := forall r, r ∈ L -> r.1.1 = KMalloc \/ r.1.1 = KRegistered.

Lemma stray_union L L' : stray L -> stray L' -> stray (L ∪ L').
Proof using Type. intros H1 H2 r [Hr|Hr]%elem_of_union; auto. Qed.
Lemma stray_fallback H L : fallback H L -> stray L.
Proof using Type. intros [->|(p & _ & ->)] r Hr; [by apply elem_of_empty in Hr|]. apply elem_of_singleton in Hr as ->. by left. Qed.
Lemma stray_rest q dev : stray (queue_rest q dev).
Proof using Type.
  intros r Hr. unfold queue_rest in Hr. destruct (_ || _); [by apply elem_of_empty in Hr|].
  apply elem_of_singleton in Hr as ->. by right.
Qed.

Lemma rest_in_block q dev size R : queue_block q dev size R -> queue_rest q dev ⊆ R.
Proof using Type.
  unfold queue_rest. intros [Hc Hco ->|k ? Hc Hco ->|Hc Hco ->|r Hc ? ?]; rewrite Hc, ?Hco; cbn [orb];
    try apply empty_subseteq. apply union_subseteq_r.
Qed.

(** Two queues and their lists, on top of [H]. *)
Record pair_held (H : gset host_res) (q1 q2 : xioQueueSetup) (d1 d2 : bool) (z1 z2 : Z) (R1 R2 P1 P2 : gset host_res)
    : Prop := {
  ph_block1 : queue_block q1 d1 z1 R1;
  ph_fresh1 : fresh H (qs_virt q1);
  ph_new1 : R1 ## H;
  ph_block2 : queue_block q2 d2 z2 R2;
  ph_fresh2 : fresh (R1 ∪ H) (qs_virt q2);
  ph_new2 : R2 ## R1 ∪ H;
  ph_list1 : listed (R2 ∪ (R1 ∪ H)) q1 P1;
  ph_list2 : listed (P1 ∪ (R2 ∪ (R1 ∪ H))) q2 P2
}.

Lemma drop_pair H q1 q2 d1 d2 z1 z2 R1 R2 P1 P2 rc s0 s (Q : Z * xioQueueSetup * xioQueueSetup -> host -> Prop) :
  no_stale H -> pair_held H q1 q2 d1 d2 z1 z2 R1 R2 P1 P2 ->
  has s0 s (P2 ∪ (P1 ∪ (R2 ∪ (R1 ∪ H)))) ->
  (forall a b s', qs_virt a = NULL -> qs_virt b = NULL ->
     has s0 s' ((queue_rest q1 d1 ∪ queue_rest q2 d2) ∪ H) -> Q (rc, a, b) s') ->
  wp (let* a := freeQueueSetup q1 d1 z1 in let* b := freeQueueSetup q2 d2 z2 in ret (rc, a, b)) Q s.
Proof using EO.
  clear Hnull. intros Hst [B1 F1 N1 B2 F2 N2 L1 L2] Hh HQ.
  assert (qs_virt q2 <> qs_virt q1) as Hne.
  { intros Heq. destruct (block_memory _ _ _ _ B1) as (k & n & Hk & Hin). apply (proj2 F2 k n Hk). rewrite Heq.
    by apply elem_of_union_l. }
  pose proof (rest_in_block _ _ _ _ B1) as Hr1. destruct (L1) as [LB1 _ LN1], (L2) as [LB2 _ LN2].
  pose proof (has_refl s) as H0. rewrite (ha_held _ _ _ Hh) in H0.
  apply wp_bind. apply (free_beside q1 d1 z1 R1 P1 (P2 ∪ (P1 ∪ (R2 ∪ H)))); [done|done|apply F1| | | | |].
  - clear. set_solver.
  - repeat apply away_union.
    + eapply (list_away _ _ _ _ _ _ _ L2 B1). clear. set_solver.
    + eapply (list_away _ _ _ _ _ _ _ L1 B1). clear. set_solver.
    + eapply (block_away _ _ _ _ _ B2). congruence.
    + by apply fresh_away.
  - clear -LN1 LN2 N1 N2. set_solver.
  - eapply has_eq; [exact H0|]. clear. set_solver.
  - intros a s1 Ha A1. hasettle. apply wp_bind.
    apply (free_beside q2 d2 z2 R2 P2 (P2 ∪ (queue_rest q1 d1 ∪ H))); [done|done|apply F2| | | | |].
    + clear. set_solver.
    + apply away_union; [|apply away_union].
      * eapply (list_away _ _ _ _ _ _ _ L2 B2). clear. set_solver.
      * eapply away_subset; [|exact Hr1]. by apply (block_away _ _ _ _ _ B1).
      * apply fresh_away; [done|]. eapply fresh_weaken; [exact F2|apply union_subseteq_r].
    + clear -LN2 N2 Hr1. set_solver.
    + pose proof (has_refl s1) as H1. rewrite (ha_held _ _ _ A1) in H1. eapply has_eq; [exact H1|].
      clear -LN1 LN2 N1 N2 Hr1. set_solver.
    + intros b s2 Hb A2. hasettle. apply wp_ret, HQ; [done|done|]. eapply has_eq; [eassumption|].
      clear -LN2 N2 Hr1. set_solver.
Qed.

(** What creating the pair comes to. *)
Definition pair_ends (d1 d2 : bool) (z1 z2 : Z) (s : host) (out : Z * xioQueueSetup * xioQueueSetup) (s' : host)
    : Prop :=
  let '(rc, q1, q2) := out in
  (rc < 0 /\ qs_virt q1 = NULL /\ qs_virt q2 = NULL /\ exists L, stray L /\ has s s' (L ∪ ho_held s)) \/
  (rc = 0 /\ exists R1 R2 P1 P2, pair_held (ho_held s) q1 q2 d1 d2 z1 z2 R1 R2 P1 P2 /\
     has s s' (P2 ∪ (P1 ∪ (R2 ∪ (R1 ∪ ho_held s))))).

Lemma unlisted S q : qs_prp_list q = NULL -> listed S q ∅.
Proof using Type. intros Hq. split; [by left|by left|apply disjoint_empty_l]. Qed.

(** Two queues that are ready make a pair once they have their lists. *)
Lemma ready_pair H q1 q2 a1 a2 d1 d2 z1 z2 R1 R2 P1 P2 :
  queue_ready H q1 d1 z1 R1 -> queue_ready (R1 ∪ H) q2 d2 z2 R2 -> same_queue q1 a1 -> same_queue q2 a2 ->
  listed (R2 ∪ (R1 ∪ H)) a1 P1 -> listed (P1 ∪ (R2 ∪ (R1 ∪ H))) a2 P2 ->
  pair_held H a1 a2 d1 d2 z1 z2 R1 R2 P1 P2.
Proof using Type.
  intros [B1 F1 N1 _] [B2 F2 N2 _] (V1 & G1 & C1 & O1) (V2 & G2 & C2 & O2) L1 L2.
  split; rewrite ?V1, ?V2; try done; first [by apply (block_same q1)|by apply (block_same q2)].
Qed.

(** The submission queue is given back when there is no completion queue. *)
Lemma free_first q1 d1 z1 R1 L s0 s rc q2 (Q : Z * xioQueueSetup * xioQueueSetup -> host -> Prop) H :
  no_stale H -> queue_ready H q1 d1 z1 R1 -> fallback (R1 ∪ H) L -> has s0 s (L ∪ (R1 ∪ H)) ->
  (forall a s', qs_virt a = NULL -> has s0 s' ((L ∪ queue_rest q1 d1) ∪ H) -> Q (rc, a, q2) s') ->
  wp (let* a := freeQueueSetup q1 d1 z1 in ret (rc, a, q2)) Q s.
Proof using EO.
  clear Hnull. intros Hst [B1 F1 N1 Hl] HL Hh HQ. pose proof (has_refl s) as H0. rewrite (ha_held _ _ _ Hh) in H0.
  assert (away (qs_virt q1) L /\ L ## R1) as [Ha Hd].
  { destruct HL as [->|(p & Hp & ->)]; [split; [by split; [intros|]; apply not_elem_of_empty|apply disjoint_empty_l]|].
    assert (p <> qs_virt q1) as Hne.
    { intros ->. destruct (block_memory _ _ _ _ B1) as (k & n & Hk & Hin). apply (proj2 Hp k n Hk).
      by apply elem_of_union_l. }
    split; [split; [intros k n _|]; intros Hin%elem_of_singleton; by simplify_eq|].
    apply disjoint_singleton_l. intros Hin. by apply Hne, (block_at _ _ _ _ _ _ _ B1 Hin). }
  apply wp_bind, (free_beside q1 d1 z1 R1 ∅ (L ∪ H)); [done|by left|apply F1|apply empty_subseteq| | | |].
  - apply away_union; [done|by apply fresh_away].
  - clear -Hd N1. set_solver.
  - eapply has_eq; [exact H0|]. clear. set_solver.
  - intros a s1 Hq A1. hasettle. apply wp_ret, HQ; [done|]. eapply has_eq; [eassumption|]. clear. set_solver.
Qed.

Lemma createPair_has fd f nfd qid size bdf d1 d2 em cqr s :
  no_stale (ho_held s) ->
  wp (createPair cfg admin_q command retries fd f nfd qid size bdf d1 d2 em cqr)
    (pair_ends d1 d2 (size * NVME_EP_SQE_SIZE) (size * NVME_EP_CQE_SIZE) s) s.
Proof using EO Hnull.
  intros Hst. unfold createPair. cbv zeta. set (z1 := size * NVME_EP_SQE_SIZE). set (z2 := size * NVME_EP_CQE_SIZE).
  apply wp_bind. eapply wp_mono; [by apply setupOne_has|]. intros [rc q1] s1 Hends1.
  unfold setup_ends in Hends1. cbn [fst snd] in Hends1. destruct Hends1 as [(Hrc & Hq1 & L & HL & B1)|(-> & R1 & HR1 & B1)].
  { rewrite (proj2 (Z.ltb_lt _ _) Hrc). apply wp_ret. left. split_and!; [done|done|done|].
    exists L. split; [by eapply stray_fallback|done]. }
  cbn [Z.ltb Z.compare]. pose proof (no_stale_block _ _ _ _ _ Hst (qr_block _ _ _ _ _ HR1)) as Hst1.
  apply wp_bind. eapply wp_mono; [apply setupOne_has; by rewrite (ha_held _ _ _ B1)|].
  intros [rc q2] s2 Hends2. unfold setup_ends in Hends2. cbn [fst snd] in Hends2. rewrite (ha_held _ _ _ B1) in Hends2.
  destruct Hends2 as [(Hrc & Hq2 & L & HL & B2)|(-> & R2 & HR2 & B2)]; hasettle.
  { rewrite (proj2 (Z.ltb_lt _ _) Hrc). eapply free_first; [exact Hst|done|done|exact B2|]. intros a s3 Ha B3. left.
    split_and!; [done|done|done|]. exists (L ∪ queue_rest q1 d1). split; [|done].
    apply stray_union; [by eapply stray_fallback|apply stray_rest]. }
  cbn [Z.ltb Z.compare].
  assert (forall rc a1 a2 P1 P2 s3, rc < 0 -> pair_held (ho_held s) a1 a2 d1 d2 z1 z2 R1 R2 P1 P2 ->
    has s s3 (P2 ∪ (P1 ∪ (R2 ∪ (R1 ∪ ho_held s)))) ->
    wp (let* a := freeQueueSetup a1 d1 z1 in let* b := freeQueueSetup a2 d2 z2 in ret (rc, a, b))
      (pair_ends d1 d2 z1 z2 s) s3) as Hdrop.
  { intros rc a1 a2 P1 P2 s3 Hrc Hp B3. eapply drop_pair; [exact Hst|exact Hp|exact B3|].
    intros a b s4 Ha Hb B4. left. split_and!; [done|done|done|]. eexists. split; [|exact B4].
    apply stray_union; apply stray_rest. }
  apply wp_bind. eapply wp_mono; [apply listOne_has, (qr_list _ _ _ _ _ HR1)|]. intros [rc a1] s3 (P1 & S1 & L1 & B3).
  rewrite (ha_held _ _ _ B2) in L1. cbn [fst snd] in *. hasettle.
  destruct (Z.ltb_spec rc 0) as [Hrc|_].
  { eapply Hdrop; [done| |by rewrite union_empty_l_L; exact B3].
    eapply ready_pair; [done|done|done|by split_and!|done|by apply unlisted, (qr_list _ _ _ _ _ HR2)]. }
  apply wp_bind. eapply wp_mono; [apply listOne_has, (qr_list _ _ _ _ _ HR2)|]. intros [rc2 a2] s4 (P2 & S2 & L2 & B4).
  rewrite (ha_held _ _ _ B3) in L2. cbn [fst snd] in *. hasettle.
  pose proof (ready_pair _ _ _ _ _ _ _ _ _ _ _ _ _ HR1 HR2 S1 S2 L1 L2) as Hp.
  destruct (Z.ltb_spec rc2 0) as [Hrc2|_]; [by eapply Hdrop|].
  apply wp_bind, announceQueues_has. intros rc3 s5 B5. hasettle.
  destruct (Z.ltb_spec rc3 0) as [Hrc3|_]; [by eapply Hdrop|]. apply wp_ret. right. split; [done|]. by eauto 10.
Qed.

(** ** The whole creation *)

(** No descriptor is among [X]. *)
Definition fdless (X : gset host_res) : Prop := forall fd, RFd fd ∉ X.

Lemma fdless_union X Y : fdless X -> fdless Y -> fdless (X ∪ Y).
Proof using Type. intros H1 H2 fd [Hi|Hi]%elem_of_union; [by apply (H1 fd)|by apply (H2 fd)]. Qed.
Lemma fdless_stray L : stray L -> fdless L.
Proof using Type. intros HL fd Hin. by destruct (HL _ Hin). Qed.
Lemma fdless_block q dev size R : queue_block q dev size R -> fdless R.
Proof using Type. intros HR fd Hin. destruct (block_kinds _ _ _ _ _ _ _ HR Hin) as [|[|[|[|[|]]]]]; done. Qed.
Lemma fdless_list q P : list_block q P -> fdless P.
Proof using Type.
  intros [[_ ->]|(_ & _ & ->)] fd Hin; [by apply elem_of_empty in Hin|].
  apply elem_of_union in Hin as [Hin|Hin]; by apply elem_of_singleton in Hin.
Qed.

Lemma no_stale_fd H fd : no_stale H -> no_stale ({[ RFd fd ]} ∪ H).
Proof using Type.
  intros Hs p Hp. destruct (Hs p) as [H1 H2]; [eapply fresh_weaken; [exact Hp|apply union_subseteq_r]|].
  split; intros [Hr%elem_of_singleton|Hr]%elem_of_union; done.
Qed.

Lemma listed_weaken S S' q P : listed S q P -> S' ⊆ S -> listed S' q P.
Proof using Type.
  intros [HP Hf Hn] Hs. split; [done| |clear -Hn Hs; set_solver].
  destruct Hf as [->|Hf]; [by left|right; by eapply fresh_weaken].
Qed.

Lemma pair_weaken H H' q1 q2 d1 d2 z1 z2 R1 R2 P1 P2 :
  pair_held H q1 q2 d1 d2 z1 z2 R1 R2 P1 P2 -> H' ⊆ H -> pair_held H' q1 q2 d1 d2 z1 z2 R1 R2 P1 P2.
Proof using Type.
  intros [B1 F1 N1 B2 F2 N2 L1 L2] Hs. split; [done| | |done| | | |].
  - by eapply fresh_weaken.
  - clear -N1 Hs. set_solver.
  - eapply fresh_weaken; [exact F2|]. clear -Hs. set_solver.
  - clear -N2 Hs. set_solver.
  - eapply listed_weaken; [exact L1|]. clear -Hs. set_solver.
  - eapply listed_weaken; [exact L2|]. clear -Hs. set_solver.
Qed.

(** Closing both descriptors at the end. *)
Lemma close_descriptors nfd kfd f X H s0 s (Q : unit -> host -> Prop) :
  fdless X -> RFd kfd ∉ H -> RFd nfd ∉ {[ RFd kfd ]} ∪ H ->
  has s0 s (X ∪ ({[ RFd nfd ]} ∪ ({[ RFd kfd ]} ∪ H))) ->
  (forall s', has s0 s' (X ∪ H) -> Q tt s') -> wp (close nfd ;;; close_module kfd f) Q s.
Proof using EO.
  clear Hnull. intros HX Hk Hn B HQ. pose proof (HX nfd) as Xn. pose proof (HX kfd) as Xk. unfold close.
  apply wp_bind, wp_give_back; [is_held_h|]. intros s1 A1 _. hasettle.
  apply (has_eq _ _ _ (X ∪ ({[ RFd kfd ]} ∪ H))) in A1; [|clear -Xn Hn; set_solver].
  apply close_module_has; [is_held_h|]. intros s2 B2. hasettle. apply HQ. eapply has_eq; [eassumption|].
  clear -Xk Hk. set_solver.
Qed.

Lemma wp_assoc {A B C} (m : HostM A) (f : A -> HostM B) (g : B -> HostM C) Q s :
  wp (bind (bind m f) g) Q s -> wp (bind m (fun a => bind (f a) g)) Q s.
Proof using Type. unfold wp, bind. by destruct (m s). Qed.

(** The status and the description a creation returns, and what is held. *)
Definition creation_ends (d1 d2 : bool) (z1 z2 : Z) (s : host) (out : Z * nvme_queue_info) (s' : host) : Prop :=
  ho_bad s' = ho_bad s /\
  ((fst out <> 0 /\ exists L, stray L /\ ho_held s' = L ∪ ho_held s) \/
   (fst out = 0 /\ exists q1 q2 R1 R2 P1 P2, pair_held (ho_held s) q1 q2 d1 d2 z1 z2 R1 R2 P1 P2 /\
      ho_held s' = (P2 ∪ (P1 ∪ (R2 ∪ R1))) ∪ ho_held s /\ snd out = filled_info z1 z2 q1 q2)).

Lemma creation_failed d1 d2 z1 z2 s rc i L s' :
  rc <> 0 -> stray L -> has s s' (L ∪ ho_held s) -> creation_ends d1 d2 z1 z2 s (rc, i) s'.
Proof using Type. intros Hrc HL [Hh _ Hb]. split; [done|]. left. split; [done|]. by exists L. Qed.

Lemma creation_nothing d1 d2 z1 z2 s rc i s' :
  rc <> 0 -> has s s' (ho_held s) -> creation_ends d1 d2 z1 z2 s (rc, i) s'.
Proof using Type.
  intros Hrc Hh. apply (creation_failed _ _ _ _ _ _ _ ∅); [done|by intros r ?%elem_of_empty|].
  by rewrite union_empty_l_L.
Qed.

(** C39: A creation that fails leaves nothing open.  Whatever HIP, HSA, the
    kernel and the controller answer and wherever it fails, [createQueue]
    ends either with a status that is not zero, holding what the process held
    before and at most memory of a fallback and registrations with HIP
    besides; or with zero, holding in addition exactly the memory of two
    queues that do not overlap, each with its list if it has one, as the
    description it returns says.  No descriptor stays open, and nothing is
    given back that is not held.  At the start no memory that is no longer
    held is registered with HIP ([no_stale]; a freed host queue leaves such a
    registration), and the errors of the detection are negative numbers. *)
Theorem failed_creation_leaves_nothing fs dev qid size bdf mode info s :
  no_stale (ho_held s) -> (forall e, detectEmulatedNvme fs dev = inl e -> e < 0) ->
  wp (createQueue cfg admin_q command retries fs dev qid size bdf mode info)
    (creation_ends (flagged mode XIO_MEM_MODE_SQ_DEVICE) (flagged mode XIO_MEM_MODE_CQ_DEVICE)
       (size * NVME_EP_SQE_SIZE) (size * NVME_EP_CQE_SIZE) s) s.
Proof.
  intros Hst Hneg. pose proof (has_refl s) as H0. unfold createQueue. cbv zeta.
  destruct (_ || _); [by apply wp_ret, creation_nothing|].
  apply wp_bind, open_module_has; [|intros e s1 He B1; hasettle; rewrite (proj2 (Z.ltb_lt _ _) He);
    apply wp_ret, creation_nothing; [lia|done]].
  intros kfd f s1 Hkfd Hkn B1. hasettle. rewrite (proj2 (Z.ltb_ge _ _) Hkfd).
  assert (forall rc i s2, rc <> 0 -> has s s2 ({[ RFd kfd ]} ∪ ho_held s) ->
    wp (close_module kfd f ;;; ret (rc, i)) (creation_ends (flagged mode XIO_MEM_MODE_SQ_DEVICE)
      (flagged mode XIO_MEM_MODE_CQ_DEVICE) (size * NVME_EP_SQE_SIZE) (size * NVME_EP_CQE_SIZE) s) s2) as Hclose.
  { intros rc i s2 Hrc B2. apply wp_bind, close_module_has; [is_held_h|]. intros s3 B3. hasettle.
    apply wp_ret, creation_nothing; [done|]. eapply has_eq; [eassumption|]. by apply undo_one. }
  destruct (detectEmulatedNvme fs dev) as [e|em] eqn:Ed; [apply Hclose; [specialize (Hneg e eq_refl); lia|done]|].
  apply wp_bind, open_retry_spec; [done| |intros e s2 He A2; hasettle; rewrite (proj2 (Z.ltb_lt _ _) He);
    apply Hclose; [lia|done]].
  intros nfd s2 Hnfd Hnn A2. rewrite (ha_held _ _ _ B1) in Hnn. hasettle. rewrite (proj2 (Z.ltb_ge _ _) Hnfd).
  apply wp_bind, readNvmeCapCqr_has. intros r s3 B3. hasettle.
  apply wp_bind. eapply wp_mono; [apply createPair_has; rewrite (ha_held _ _ _ B3); by do 2 apply no_stale_fd|].
  intros [[rc q1] q2] s4 Hends. unfold pair_ends in Hends. rewrite (ha_held _ _ _ B3) in Hends.
  destruct Hends as [(Hrc & V1 & V2 & L & HL & B4)|(-> & R1 & R2 & P1 & P2 & Hp & B4)]; hasettle.
  - rewrite (proj2 (Z.ltb_lt _ _) Hrc), V1, V2. apply wp_bind, wp_ret, wp_bind, wp_ret. apply wp_assoc, wp_bind. eapply close_descriptors; [by apply fdless_stray|exact Hkn|exact Hnn|exact B4|].
    intros s5 B5. apply wp_ret. eapply creation_failed; [lia|done|done].
  - cbn [Z.ltb Z.compare]. apply wp_assoc, wp_bind. pose proof Hp as [LB1 _ _ LB2 _ _ [LP1 _ _] [LP2 _ _]].
    eapply (close_descriptors _ _ _ (P2 ∪ (P1 ∪ (R2 ∪ R1)))); [|exact Hkn|exact Hnn| |].
    + repeat apply fdless_union; by eauto using fdless_block, fdless_list.
    + eapply has_eq; [exact B4|]. clear. set_solver.
    + intros s5 [Hh5 _ Hb5]. apply wp_ret. split; [done|]. right. split; [done|]. exists q1, q2, R1, R2, P1, P2.
      split; [|done]. eapply pair_weaken; [exact Hp|]. clear. set_solver.
Qed.

(** What [freeQueueSetup] gives back.  A queue of the host or the
    device that was set up and then freed leaves nothing behind but, for a
    queue of the host that is not coherent, its registration with HIP, which
    stays although the memory is gone; a set-up that fails leaves at most a
    block of the fallback allocator. *)
Theorem freed_queue_stays_registered size dev bdf em s :
  no_stale (ho_held s) ->
  wp (let* '(rc, q) := setupQueueForGpu size dev bdf em in
      if rc <? 0 then ret None else let* q' := freeQueueSetup q dev size in ret (Some (q, q')))
    (fun out s' => ho_bad s' = ho_bad s /\
       match out with
       | None => exists L, fallback (ho_held s) L /\ ho_held s' = L ∪ ho_held s
       | Some (q, q') => qs_virt q' = NULL /\ ho_held s' = queue_rest q dev ∪ ho_held s
       end) s.
Proof.
  intros Hst. apply wp_bind. eapply wp_mono; [apply (setupOne_has false); exact Hst|]. intros [rc q] s1 Hends.
  unfold setup_ends in Hends. cbn [fst snd] in Hends.
  destruct Hends as [(Hrc & _ & L & HL & [Hh _ Hb])|(-> & R & [HR Hf Hn Hl] & B1)].
  - rewrite (proj2 (Z.ltb_lt _ _) Hrc). apply wp_ret. split; [done|]. by exists L.
  - cbn [Z.ltb Z.compare]. pose proof (has_refl s1) as H1. rewrite (ha_held _ _ _ B1) in H1. apply wp_bind.
    eapply (free_beside q dev size R ∅ (ho_held s)); [done|by left|apply Hf|apply empty_subseteq| | | |].
    + by apply fresh_away.
    + clear -Hn. set_solver.
    + eapply has_eq; [exact H1|]. clear. set_solver.
    + intros q' s2 Hq' B2. hasettle. apply wp_ret. destruct B2 as [Hh _ Hb]. split; [done|]. split; [done|].
      rewrite Hh. clear. set_solver.
Qed.
End Specs.

(** ** Examples *)

Lemma failed_creation_leaves_nothing_witness :
  let env := demo_host true (fun _ => true) (fun p => p + 5) in
  let run := createQueue (K := demo_kernel) (E := env) cfg_demo 9500 50000 3 demo_fs demo_device 6 128 34048 0
    (blank_info 0 0) in
  fst (fst (run (idle_host poisoned_state))) = 0 /\
  wp run (creation_ends (E := env) false false 8192 2048 (idle_host poisoned_state)) (idle_host poisoned_state).
Proof.
  intros env run. split; [by vm_compute|].
  apply (failed_creation_leaves_nothing (K := demo_kernel) (E := env) (EO := demo_host_ok _ _ _)).
  - intros v n rc p E0 Hrc. injection E0 as <- <-. done.
  - intros p _. split; apply not_elem_of_empty.
  - intros e He. assert (detectEmulatedNvme demo_fs demo_device = inr true) as E1 by (by vm_compute). congruence.
Defined.

Lemma freed_queue_stays_registered_witness :
  let env := demo_host true (fun _ => true) (fun p => p + 5) in
  let run := setupQueueForGpu (K := demo_kernel) (E := env) 4096 false 34048 false in
  fst (fst (run (idle_host poisoned_state))) = 0 /\
  wp (let* '(rc, q) := run in
      if rc <? 0 then ret None else let* q' := freeQueueSetup (K := demo_kernel) (E := env) q false 4096 in ret (Some (q, q')))
    (fun out s' => match out with Some (q, _) => ho_held s' = queue_rest q false ∪ ∅ | None => True end)
    (idle_host poisoned_state).
Proof.
  intros env run. split; [by vm_compute|].
  eapply wp_mono; [apply (freed_queue_stays_registered (K := demo_kernel) (E := env) (EO := demo_host_ok _ _ _))|].
  - intros v n rc p E0 Hrc. injection E0 as <- <-. done.
  - intros p _. split; apply not_elem_of_empty.
  - intros [[q q']|] s' [_ Hs]; [exact (proj2 Hs)|exact I].
Defined.
