(* ===== verification/RdmaTopo.v ===== *)
(** * Choosing a NIC and an address for it

    [src/src/common/rdma-topology.cpp] and [rdma-topology.hpp]: the RDMA
    devices and their ports, the choice of a GID by its kind and RoCE version
    ([AutoSelectGidIndex]), and of the NIC closest to a GPU by the distance of
    their PCI buses, among those a list of names includes or does not exclude
    ([GetClosestNicToGpu]).  What verbs, HIP and sysfs answer is a parameter,
    [TopoEnv]; what the code makes of the answers is here.

    The theorems: the GID chosen is the first of the highest priority
    ([gid_choice]); the NIC chosen is an admissible one and the first of the
    closest ([closest_nic]); the list of names means what it says
    ([names_listed]); a printed PCI address gives its bus
    ([printed_bus]); the depth found in a tree is that of a node with the
    address ([lca_depth]). *)

From Stdlib Require Import Ascii.
From stdpp Require Import strings.
From S2P Require Import Prelude Endian Bdf HostEnv HostMem HostModule HostContig HostPci.

Open Scope Z_scope.

(** ** GIDs *)

Definition GID_UNKNOWN : Z := -1.
Definition ROCEV1_LINK_LOCAL : Z := 0.
Definition ROCEV2_LINK_LOCAL : Z := 1.
Definition ROCEV1_IPV6 : Z := 2.
Definition ROCEV2_IPV6 : Z := 3.
Definition ROCEV1_IPV4 : Z := 4.
Definition ROCEV2_IPV4 : Z := 5.

(** The sixteen bytes of [gid.raw]; [s6_addr32[i]] is a load of four. *)
Definition gid : Type := list Z.
Definition s6_addr32 (g : gid) (i : nat) : Z := of_bytes (take 4 (drop (4 * i) g)).

(** [htonl(0xfe800000)] *)
Definition link_local_prefix : Z := to_be 4 4269801472.

Definition IsConfiguredGid (g : gid) : bool :=
  let trailer := Z.lor (Z.lor (s6_addr32 g 1) (s6_addr32 g 2)) (s6_addr32 g 3) in
  negb ((Z.lor (s6_addr32 g 0) trailer =? 0)
        || ((s6_addr32 g 0 =? link_local_prefix) && (trailer =? 0))).

Definition LinkLocalGid (g : gid) : bool :=
  (s6_addr32 g 0 =? link_local_prefix) && (s6_addr32 g 1 =? 0).

Definition IsIPv4MappedIPv6 (g : gid) : bool :=
  (of_bytes (take 8 g) =? 0) && (nth 8 g 0 =? 0) && (nth 9 g 0 =? 0)
  && (nth 10 g 0 =? 255) && (nth 11 g 0 =? 255).

(** What a configured GID counts, from its kind and the RoCE version. *)
Definition gid_priority (g : gid) (roceVersion : Z) : Z :=
  if IsIPv4MappedIPv6 g then (if roceVersion =? 2 then ROCEV2_IPV4 else ROCEV1_IPV4)
  else if negb (LinkLocalGid g) then (if roceVersion =? 2 then ROCEV2_IPV6 else ROCEV1_IPV6)
  else (if roceVersion =? 2 then ROCEV2_LINK_LOCAL else ROCEV1_LINK_LOCAL).

(** ** What the environment answers *)

Record ibv_port_attr := { port_active : bool; port_ethernet : bool; gid_tbl_len : Z }.

Class TopoEnv := {
  te_devices : option (list ptr);                     (** [ibv_get_device_list] *)
  te_name : ptr -> path;
  te_dev_path : ptr -> path;
  te_open : ptr -> option ptr;                        (** the context of a device *)
  te_device_of : ptr -> ptr;                          (** [context->device] *)
  te_phys_ports : ptr -> option Z;                    (** [ibv_query_device] *)
  te_port : ptr -> Z -> option ibv_port_attr;         (** [ibv_query_port] *)
  te_gid : ptr -> Z -> Z -> option gid;               (** [ibv_query_gid] *)
  te_read : path -> option path;                      (** a file's text *)
  te_exists : path -> bool;
  te_canonical : path -> option path;
  te_gpus : option Z;                                 (** [hipGetDeviceCount] *)
  te_gpu_bus_id : Z -> option path;                   (** [hipDeviceGetPCIBusId] *)
  te_numa_nodes : option Z                            (** of libnuma, where it is loaded *)
}.

(** ** The loop that keeps the first best *)

Fixpoint keep_best {A} (better : Z -> Z -> bool) (score : Z -> A -> option Z)
    (l : list A) (i best idx : Z) : Z :=
  match l with
  | [] => idx
  | x :: l =>
      match score i x with
      | None => keep_best better score l (i + 1) best idx
      | Some s => if better s best then keep_best better score l (i + 1) s i
                  else keep_best better score l (i + 1) best idx
      end
  end.

(** ** Text *)

Definition is_prefix (p s : path) : bool := bool_decide (take (length p) s = p).
Definition comma : ascii := ","%char.

(** [std::getline(ss, token, ',')]: fails at the end of the stream. *)
Fixpoint until_comma (l : path) : path * path :=
  match l with
  | [] => ([], [])
  | c :: l => if bool_decide (c = comma) then ([], l)
              else let '(t, r) := until_comma l in (c :: t, r)
  end.

Fixpoint has_token (fuel : nat) (l name : path) : bool :=
  match fuel, l with
  | S fuel, _ :: _ => let '(token, r) := until_comma l in
                      if bool_decide (token = name) then true else has_token fuel r name
  | _, _ => false
  end.

Definition hasExactMatch (namesList name : path) : bool := has_token (length namesList) namesList name.

(** [iss >> std::hex >> n] for an [int]: white space, a sign, an optional
    [0x], digits; a value that is no [int] is a failure. *)
Definition read_hex_int (l : path) : option (Z * path) :=
  let l := skip_space l in
  let '(neg, _, l) := take_sign (length l) l in
  let l := match l with
           | c0 :: c1 :: r => if bool_decide (c0 = "0"%char) && is_x c1 then r else l
           | _ => l
           end in
  let '(k, v, r) := digits 16 (length l) 0 l in
  let v := if neg then - v else v in
  if (k =? 0)%nat || (v <? -2147483648) || (2147483647 <? v) then None else Some (v, r).

(** [iss >> c] *)
Definition read_any_char (l : path) : option path :=
  match skip_space l with [] => None | _ :: l => Some l end.

Definition ExtractBusNumber (pcieAddress : path) : Z :=
  match read_hex_int pcieAddress with
  | None => -1
  | Some (_, l) =>
  match read_any_char l with
  | None => -1
  | Some l =>
  match read_hex_int l with
  | None => -1
  | Some (bus, l) =>
  match read_any_char l with
  | None => -1
  | Some l =>
  match read_hex_int l with
  | None => -1
  | Some (_, l) =>
  match read_any_char l with
  | None => -1
  | Some l => match read_hex_int l with None => -1 | Some _ => bus end
  end end end end end end.

Definition GetBusIdDistance (pcieAddress1 pcieAddress2 : path) : Z :=
  let bus1 := ExtractBusNumber pcieAddress1 in
  let bus2 := ExtractBusNumber pcieAddress2 in
  if (bus1 <? 0) || (bus2 <? 0) then -1 else Z.abs (bus1 - bus2).

(** [sscanf(s, "%d", &v) == 1] *)
Definition scan_int (l : path) : option Z :=
  let l := skip_space l in
  let '(neg, _, l) := take_sign (length l) l in
  let '(k, v, _) := digits 10 (length l) 0 l in
  if (k =? 0)%nat then None else Some (if neg then - v else v).

(** [std::getline(file, s)] *)
Fixpoint first_line (l : path) : path :=
  match l with c :: l => if bool_decide (c = newline) then [] else c :: first_line l | [] => [] end.

(** ** Devices *)

Record IbvDeviceInfo := {
  devicePtr : ptr;
  name : path;
  busId : path;
  hasActivePort : bool;
  numaNode : Z;
  gidIndex : Z;
  gidDescriptor : path;
  isRoce : bool
}.

Inductive DeviceType := DEV_CPU | DEV_GPU | DEV_NIC.

Section Topology.
Context `{TE : TopoEnv}.

(** The RoCE version the sysfs attribute of a GID names: [None] when it
    cannot be read, 0 when it names neither. *)
Definition GetRoceVersionNumber (context portNum gidIdx : Z) : option Z :=
  let roceTypePath :=
    take 4095 (chars "/sys/class/infiniband/" ++ te_name (te_device_of context) ++ chars "/ports/"
               ++ decimal 10 portNum ++ chars "/gid_attrs/types/" ++ decimal 10 gidIdx) in
  match te_read roceTypePath with
  | None => None
  | Some text =>
      let gidRoceVerStr := take 15 text in
      Some (if is_prefix (chars "IB/RoCE v1") gidRoceVerStr || is_prefix (chars "RoCE v1") gidRoceVerStr
            then 1 else if is_prefix (chars "RoCE v2") gidRoceVerStr then 2 else 0)
  end.

(** The priority of the GID at an index: none where the loop goes on. *)
Definition gid_score (context portNum i : Z) : option Z :=
  match te_gid context portNum i with
  | None => None
  | Some g =>
      if negb (IsConfiguredGid g) then None else
      match GetRoceVersionNumber context portNum i with
      | None => None
      | Some roceVersion => Some (gid_priority g roceVersion)
      end
  end.

Definition AutoSelectGidIndex (context gidTblLen portNum : Z) : Z :=
  keep_best (fun currPriority highestPriority => highestPriority <? currPriority)
    (fun i _ => gid_score context portNum i)
    (replicate (Z.to_nat gidTblLen) tt) 0 GID_UNKNOWN (-1).

Definition SelectBestGid (ctx port_num : Z) : Z :=
  match te_port ctx port_num with
  | None => -1
  | Some portAttr => AutoSelectGidIndex ctx (gid_tbl_len portAttr) port_num
  end.

(** The loop over the ports of a device, which the first active one ends:
    whether there is one, whether it is Ethernet, and its GID. *)
Fixpoint scan_ports (context : ptr) (n : nat) (port : Z) : bool * bool * Z :=
  match n with
  | O => (false, false, -1)
  | S n =>
      match te_port context port with
      | None => scan_ports context n (port + 1)
      | Some portAttr =>
          if port_active portAttr then
            if port_ethernet portAttr
            then (true, true, AutoSelectGidIndex context (gid_tbl_len portAttr) port)
            else (true, false, -1)
          else scan_ports context n (port + 1)
      end
  end.

(** The PCI address of a device: the last component of where its sysfs link
    leads. *)
Definition bus_id_of (device : ptr) : path :=
  let device_path := te_dev_path device in
  if te_exists device_path then
    match te_canonical (device_path ++ chars "/device") with
    | None => []
    | Some pciPath => match find_last slash pciPath with Some pos => drop (S pos) pciPath | None => [] end
    end
  else [].

Definition numa_node_of (bus : path) : Z :=
  let numaPath := chars "/sys/bus/pci/devices/" ++ bus ++ chars "/numa_node" in
  match bus with
  | [] => -1
  | _ => if te_exists numaPath then
           match te_read numaPath with
           | None => -1
           | Some text => default (-1) (scan_int (first_line text))
           end
         else -1
  end.

Definition device_info (device : ptr) : IbvDeviceInfo :=
  let '(active, roce, g) :=
    match te_open device with
    | None => (false, false, -1)
    | Some context =>
        match te_phys_ports context with
        | None => (false, false, -1)
        | Some phys_port_cnt => scan_ports context (Z.to_nat phys_port_cnt) 1
        end
    end in
  {| devicePtr := device; name := te_name device; busId := bus_id_of device; hasActivePort := active;
     numaNode := numa_node_of (bus_id_of device); gidIndex := g;
     gidDescriptor := if (0 <=? g) && (0 <=? ROCEV2_IPV4) then chars "auto-selected" else []; isRoce := roce |}.

(** The list is made once and kept. *)
Definition GetIbvDeviceList (kept : option (list IbvDeviceInfo)) : list IbvDeviceInfo :=
  match kept with
  | Some l => l
  | None => match te_devices with None => [] | Some l => device_info <$> l end
  end.

Definition GetNumDevices (kept : option (list IbvDeviceInfo)) (type : DeviceType) : Z :=
  match type with
  | DEV_CPU => default 1 te_numa_nodes
  | DEV_GPU => default 0 te_gpus
  | DEV_NIC => Z.of_nat (length (GetIbvDeviceList kept))
  end.

(** The two readings of the list of names. *)
Definition caret : ascii := "^"%char.
Definition excludeList (hca_list : option path) : path :=
  match hca_list with Some (c :: l) => if bool_decide (c = caret) then l else [] | _ => [] end.
Definition includeList (hca_list : option path) : path :=
  match hca_list with Some (c :: l) => if bool_decide (c = caret) then [] else c :: l | _ => [] end.

Definition is_excluded (hca_list : option path) (n : path) : bool :=
  hasExactMatch (excludeList hca_list) n
  || (negb (length (includeList hca_list) =? 0)%nat && negb (hasExactMatch (includeList hca_list) n)).

(** The distance of a device the loop considers. *)
Definition nic_score (gpu_bus : path) (hca_list : option path) (dev : IbvDeviceInfo) : option Z :=
  if negb (hasActivePort dev) || (length (busId dev) =? 0)%nat then None
  else if is_excluded hca_list (name dev) then None
  else let distance := GetBusIdDistance gpu_bus (busId dev) in
       if 0 <=? distance then Some distance else None.

Definition INT_MAX : Z := 2147483647.

(** The index, and the name handed out where one was found. *)
Definition GetClosestNicToGpu (kept : option (list IbvDeviceInfo)) (gpuIndex : Z) (hca_list : option path)
    : Z * option path :=
  let ibvDeviceList := GetIbvDeviceList kept in
  let numGpus := GetNumDevices kept DEV_GPU in
  if (gpuIndex <? 0) || (numGpus <=? gpuIndex) then (-1, None) else
  match te_gpu_bus_id gpuIndex with
  | None => (-1, None)
  | Some hipPciBusId =>
      let closestIdx :=
        keep_best (fun distance minDistance => distance <? minDistance)
          (fun _ dev => nic_score hipPciBusId hca_list dev) ibvDeviceList 0 INT_MAX (-1) in
      (closestIdx,
       if 0 <=? closestIdx then name <$> ibvDeviceList !! Z.to_nat closestIdx else None)
  end.

Definition GetClosestCpuNumaToGpu (gpuIndex : Z) : Z := -1.

Definition GetClosestCpuNumaToNic (kept : option (list IbvDeviceInfo)) (nicIndex : Z) : Z :=
  let l := GetIbvDeviceList kept in
  if (nicIndex <? 0) || (Z.of_nat (length l) <=? nicIndex) then -1
  else match l !! Z.to_nat nicIndex with Some dev => numaNode dev | None => -1 end.
End Topology.

(** ** Trees of PCI devices *)

Inductive PCIeNode := mkPCIeNode (address description : path) (children : list PCIeNode).

(** The loop over the children stops at the first that has the address. *)
Section FirstFound.
Context {A : Type} (f : A -> Z).
Fixpoint first_found (l : list A) : Z :=
  match l with
  | [] => -1
  | child :: l => if negb (f child =? -1) then f child else first_found l
  end.
End FirstFound.

Fixpoint GetLcaDepth (targetBusID : path) (node : PCIeNode) (depth : Z) : Z :=
  match node with
  | mkPCIeNode address _ children =>
      if bool_decide (targetBusID = address) then depth
      else first_found (fun child => GetLcaDepth targetBusID child (depth + 1)) children
  end.

(** The rest of the tree's interface does nothing yet. *)
Definition GetLcaBetweenNodes (root : option PCIeNode) (node1 node2 : path) : option PCIeNode := None.
Definition InsertPCIePathToTree (pcieAddress description : path) (root : PCIeNode) : Z * PCIeNode := (0, root).
Definition GetNearestDevicesInTree (targetBusId : path) (candidates : list path) : gset Z := ∅.

(** ** The loop *)

Section KeepBest.
Context {A : Type} (better : Z -> Z -> bool) (key : Z -> Z) (score : Z -> A -> option Z).
Hypothesis Hkey : forall a b, better a b = (key b <? key a).

(** What the loop settles on: an element that scores [s], more than what it
    began with, no less than any other, and more than any before it. *)
Definition chosen (l : list A) (i best : Z) (k : nat) : Prop :=
  exists x s, l !! k = Some x /\ score (i + Z.of_nat k) x = Some s /\ key best < key s
  /\ forall k' x' s', l !! k' = Some x' -> score (i + Z.of_nat k') x' = Some s' ->
       key s' <= key s /\ ((k' < k)%nat -> key s' < key s).

Definition none_better (l : list A) (i best : Z) : Prop :=
  forall k x s, l !! k = Some x -> score (i + Z.of_nat k) x = Some s -> key s <= key best.

Lemma none_better_cons x l i best :
  (forall s, score i x = Some s -> key s <= key best) -> none_better l (i + 1) best ->
  none_better (x :: l) i best.
Proof using.
  intros Hx Hn [|k] y s Hy Hs; [injection Hy as <-; rewrite Z.add_0_r in Hs; eauto|].
  replace (i + Z.of_nat (S k)) with (i + 1 + Z.of_nat k) in Hs by lia. by eapply Hn.
Qed.

Lemma chosen_cons x l i best b k :
  key best <= key b -> (forall s, score i x = Some s -> key s <= key b) ->
  chosen l (i + 1) b k -> chosen (x :: l) i best (S k).
Proof using.
  intros Hb Hx (y & t & Hy & Ht & Hlt & Hmax). exists y, t.
  replace (i + Z.of_nat (S k)) with (i + 1 + Z.of_nat k) by lia.
  split; [done|]. split; [done|]. split; [lia|]. intros [|k'] x' s' Hx' Hs'.
  - injection Hx' as <-. rewrite Z.add_0_r in Hs'. specialize (Hx _ Hs'). lia.
  - replace (i + Z.of_nat (S k')) with (i + 1 + Z.of_nat k') in Hs' by lia.
    destruct (Hmax _ _ _ Hx' Hs'). split; [done|]. intros. lia.
Qed.

Lemma chosen_head x l i best s :
  score i x = Some s -> key best < key s -> none_better l (i + 1) s -> chosen (x :: l) i best 0.
Proof using.
  intros Es Hb Hn. exists x, s. rewrite Z.add_0_r. split; [done|]. split; [done|]. split; [done|].
  intros [|k'] x' s' Hx' Hs'; (split; [|lia]).
  - injection Hx' as <-. rewrite Z.add_0_r, Es in Hs'. by injection Hs' as <-.
  - replace (i + Z.of_nat (S k')) with (i + 1 + Z.of_nat k') in Hs' by lia. by eapply Hn.
Qed.

Lemma keep_best_spec l : forall i best idx,
  (keep_best better score l i best idx = idx /\ none_better l i best)
  \/ exists k, keep_best better score l i best idx = i + Z.of_nat k /\ chosen l i best k.
Proof using Hkey.
  induction l as [|x l IH]; intros i best idx; [by left; split|]. cbn [keep_best].
  assert (Hskip : (forall s, score i x = Some s -> key s <= key best) ->
    (keep_best better score l (i + 1) best idx = idx /\ none_better (x :: l) i best)
    \/ exists k, keep_best better score l (i + 1) best idx = i + Z.of_nat k /\ chosen (x :: l) i best k).
  { intros Hx. destruct (IH (i + 1) best idx) as [[-> Hn]|(k & -> & Hc)].
    - left. split; [done|]. by apply none_better_cons.
    - right. exists (S k). split; [lia|]. by eapply chosen_cons. }
  destruct (score i x) as [s|] eqn:Es; [rewrite Hkey; destruct (Z.ltb_spec (key best) (key s)) as [Hb|Hb]|].
  - right. destruct (IH (i + 1) s i) as [[-> Hn]|(k & -> & Hc)].
    + exists O. split; [lia|]. by eapply chosen_head.
    + exists (S k). split; [lia|]. eapply chosen_cons; [|intros ? E; rewrite Es in E; injection E as <-|done]; lia.
  - apply Hskip. intros ? [= <-]. lia.
  - by apply Hskip.
Qed.
End KeepBest.

(** ** GIDs *)

Lemma gid_priority_nonneg g v : 0 <= gid_priority g v <= 5.
Proof. unfold gid_priority. repeat destruct (_ : bool); vm_compute; split; congruence. Qed.

Section TopologyProps.
Context `{TE : TopoEnv}.

(** The address chosen from a port's table is usable - the NIC has it, it is
    configured, its RoCE type can be read -, has the highest priority of the
    usable ones, and is the first that has it; -1 says that none is usable. *)
Theorem gid_choice context gidTblLen portNum :
  let usable i p := 0 <= i < gidTblLen /\ gid_score context portNum i = Some p in
  let r := AutoSelectGidIndex context gidTblLen portNum in
  (r = -1 /\ forall i p, ~ usable i p)
  \/ exists p, usable r p /\ forall i q, usable i q -> q <= p /\ (i < r -> q < p).
Proof.
  cbv zeta. unfold AutoSelectGidIndex. set (l := replicate (Z.to_nat gidTblLen) tt).
  assert (Hl : forall i, 0 <= i < gidTblLen -> l !! Z.to_nat i = Some tt)
    by (intros i Hi; apply lookup_replicate_2; lia).
  assert (Hp : forall i p, gid_score context portNum i = Some p -> GID_UNKNOWN < p).
  { intros i p H. unfold gid_score in H. destruct (te_gid context portNum i) as [g|]; [|done].
    destruct (negb _); [done|]. destruct (GetRoceVersionNumber _ _ _) as [v|]; [|done].
    injection H as <-. pose proof (gid_priority_nonneg g v). unfold GID_UNKNOWN. lia. }
  destruct (keep_best_spec (fun p h => h <? p) id (fun i (_ : unit) => gid_score context portNum i)
    (fun a b => eq_refl) l 0 GID_UNKNOWN (-1)) as [[-> Hn]|(k & -> & x & p & Hx & Hs & _ & Hmax)].
  - left. split; [done|]. intros i p [Hi Hs]. pose proof (Hp _ _ Hs).
    assert (id p <= id GID_UNKNOWN); [|unfold id in *; lia].
    eapply (Hn (Z.to_nat i)); [by apply Hl|]. by rewrite Z2Nat.id by lia.
  - right. apply lookup_lt_Some in Hx as Hk. unfold l in Hk. rewrite length_replicate in Hk.
    exists p. split; [split; [lia|done]|]. intros i q [Hi Hq].
    destruct (Hmax (Z.to_nat i) tt q (Hl i Hi)) as [H1 H2]; [by rewrite Z2Nat.id by lia|].
    split; [done|]. intros. apply H2. lia.
Qed.

(** ** NICs *)

(** C22: The NIC chosen for a GPU is a device with an active port and a PCI address
    that the list of names admits, no other admissible one is closer by the
    distance of the buses, none before it as close, and its name is handed
    out; -1 says that there is none, or no such GPU. *)
Theorem closest_nic kept gpuIndex hca_list :
  let l := GetIbvDeviceList kept in
  let admissible bus i d := 0 <= i /\ exists dev, l !! Z.to_nat i = Some dev
    /\ hasActivePort dev = true /\ busId dev <> [] /\ is_excluded hca_list (name dev) = false
    /\ GetBusIdDistance bus (busId dev) = d /\ 0 <= d < INT_MAX in
  let '(r, n) := GetClosestNicToGpu kept gpuIndex hca_list in
  (r = -1 /\ n = None
   /\ forall bus i d, 0 <= gpuIndex < GetNumDevices kept DEV_GPU -> te_gpu_bus_id gpuIndex = Some bus ->
        ~ admissible bus i d)
  \/ exists bus d, te_gpu_bus_id gpuIndex = Some bus /\ admissible bus r d
       /\ n = name <$> l !! Z.to_nat r
       /\ forall j e, admissible bus j e -> d <= e /\ (j < r -> d < e).
Proof.
  cbv zeta. unfold GetClosestNicToGpu.
  destruct (Z.ltb_spec gpuIndex 0); cbn [orb]; [left; repeat split; try done; intros; lia|].
  destruct (Z.leb_spec (GetNumDevices kept DEV_GPU) gpuIndex); cbn [orb]; [left; repeat split; try done; intros; lia|].
  destruct (te_gpu_bus_id gpuIndex) as [bus|] eqn:Eb; [|by left; repeat split].
  set (l := GetIbvDeviceList kept).
  assert (Hsc : forall dev d, nic_score bus hca_list dev = Some d <->
    hasActivePort dev = true /\ busId dev <> [] /\ is_excluded hca_list (name dev) = false
    /\ GetBusIdDistance bus (busId dev) = d /\ 0 <= d).
  { intros dev d. unfold nic_score. destruct (hasActivePort dev); cbn [negb orb]; [|split; [done|by intros [? _]]].
    destruct (busId dev) as [|c b] eqn:E; cbn [length Nat.eqb]; [split; [done|by intros (? & ? & _)]|].
    destruct (is_excluded hca_list (name dev)); [split; [done|by intros (? & ? & ? & _)]|].
    destruct (Z.leb_spec 0 (GetBusIdDistance bus (c :: b))); split.
    - intros [= <-]. by repeat split.
    - intros (? & ? & ? & -> & ?). done.
    - done.
    - intros (? & ? & ? & ? & ?). lia. }
  destruct (keep_best_spec (fun d m => d <? m) Z.opp (fun (_ : Z) dev => nic_score bus hca_list dev)
    ltac:(intros a b; destruct (Z.ltb_spec a b), (Z.ltb_spec (- b) (- a)); done || lia) l 0 INT_MAX (-1))
    as [[-> Hn]|(k & -> & dev & d & Hx & Hs & Hlt & Hmax)].
  - left. split; [done|]. split; [done|]. intros bus' i d _ [= <-] (Hi & dev & Hd & H1 & H2 & H3 & H4 & H5).
    pose proof (Hn _ _ d Hd). cbv beta in H6. rewrite Hsc in H6.
    assert (- d <= - INT_MAX) by (apply H6; repeat split; done || lia). lia.
  - right. exists bus, d. rewrite Z.add_0_l. rewrite (proj2 (Z.leb_le 0 _)), !Nat2Z.id by lia.
    apply Hsc in Hs as (H1 & H2 & H3 & H4 & H5). split; [done|]. split; [|split; [done|]].
    + split; [lia|]. exists dev. repeat split; done || lia.
    + intros j e (Hj & dev' & Hd' & G1 & G2 & G3 & G4 & G5).
      destruct (Hmax (Z.to_nat j) dev' e Hd') as [K1 K2]; [apply Hsc; repeat split; done || lia|].
      split; [lia|]. intros. assert (- e < - d) by (apply K2; lia). lia.
Qed.
End TopologyProps.

(** ** The list of names *)

Fixpoint join (names : list path) : path :=
  match names with
  | [] => []
  | [n] => n
  | n :: names => n ++ comma :: join names
  end.

Lemma until_comma_app n r : comma ∉ n -> until_comma (n ++ comma :: r) = (n, r).
Proof.
  induction n as [|c n IH]; intros H; [done|]. rewrite not_elem_of_cons in H; destruct H as [Hc H]. cbn [app until_comma].
  by rewrite bool_decide_eq_false_2, IH by done.
Qed.

Lemma until_comma_end n : comma ∉ n -> until_comma n = (n, []).
Proof.
  induction n as [|c n IH]; intros H; [done|]. rewrite not_elem_of_cons in H; destruct H as [Hc H]. cbn [until_comma].
  by rewrite bool_decide_eq_false_2, IH by done.
Qed.

(** A name as it can stand in a list. *)
Definition listable (n : path) : Prop := comma ∉ n /\ n <> [].

Lemma has_token_join names : forall fuel n,
  Forall listable names -> (length (join names) <= fuel)%nat ->
  has_token fuel (join names) n = true <-> n ∈ names.
Proof.
  induction names as [|m names IH]; intros fuel n Hl Hf.
  { rewrite elem_of_nil. by destruct fuel. }
  apply Forall_cons_1 in Hl as [[Hc Hne] Hl]. rewrite elem_of_cons.
  assert (Hfuel : exists f, fuel = S f).
  { destruct fuel; [|eauto]. destruct names, m; cbn in Hf; done || lia. }
  destruct Hfuel as [f ->]. destruct names as [|m2 names].
  - cbn [join] in *. destruct m as [|c m]; [done|]. cbn [has_token]. rewrite until_comma_end by done.
    rewrite elem_of_nil. case_bool_decide as E; [split; [by left|done]|].
    split; [by destruct f|]. by intros [->|].
  - change (join (m :: m2 :: names)) with (m ++ comma :: join (m2 :: names)) in *.
    assert (E : forall l r, has_token (S f) (m ++ comma :: r) l
                = (if bool_decide (m = l) then true else has_token f r l)).
    { intros l r. destruct m as [|c m]; [done|]. cbn [has_token app].
      change (c :: m ++ comma :: r) with ((c :: m) ++ comma :: r). by rewrite until_comma_app. }
    rewrite E. rewrite length_app in Hf. cbn [length] in Hf.
    case_bool_decide as Em; [split; [by left|done]|]. rewrite IH by (done || lia).
    split; [by right|]. by intros [->|].
Qed.

Lemma hasExactMatch_join names n :
  Forall listable names -> hasExactMatch (join names) n = true <-> n ∈ names.
Proof. intros H. by apply has_token_join. Qed.

(** A list of names admits the devices it names; after a caret, the others;
    without one, all are admitted. *)
Theorem names_listed names n :
  Forall listable names -> names <> [] -> head (join names) <> Some caret ->
  is_excluded None n = false
  /\ (is_excluded (Some (join names)) n = false <-> n ∈ names)
  /\ (is_excluded (Some (caret :: join names)) n = false <-> n ∉ names).
Proof.
  intros Hl Hne Hh. pose proof (hasExactMatch_join names n Hl) as H.
  destruct (join names) as [|c l] eqn:E.
  { destruct names as [|m names]; [done|]. apply Forall_cons_1 in Hl as [[_ Hm] _].
    destruct m; [done|]. by destruct names. }
  assert (Hc : c <> caret) by (intros ->; done).
  assert (E1 : is_excluded (Some (c :: l)) n = negb (hasExactMatch (c :: l) n)).
  { unfold is_excluded, excludeList, includeList. by rewrite !bool_decide_eq_false_2. }
  assert (E2 : is_excluded (Some (caret :: c :: l)) n = hasExactMatch (c :: l) n).
  { unfold is_excluded, excludeList, includeList. rewrite !bool_decide_eq_true_2 by done. apply orb_false_r. }
  rewrite E1, E2, negb_false_iff, <- H. split; [done|]. split; [done|]. by rewrite not_true_iff_false.
Qed.

Example names_listed_witness :
  is_excluded (Some (chars "mlx5_0,mlx5_2")) (chars "mlx5_2") = false
  /\ is_excluded (Some (chars "^mlx5_0,mlx5_2")) (chars "mlx5_1") = false.
Proof.
  split.
  - apply (names_listed [chars "mlx5_0"; chars "mlx5_2"] (chars "mlx5_2")); [|done|done|by right; left].
    repeat constructor; try done; by apply (bool_decide_unpack _).
  - apply (names_listed [chars "mlx5_0"; chars "mlx5_2"] (chars "mlx5_1")); [|done|done|].
    + repeat constructor; try done; by apply (bool_decide_unpack _).
    + by apply (bool_decide_unpack _).
Defined.

(** ** Bus numbers *)

Lemma digits_unhex_stop l : forall n acc v r,
  unhex acc l = Some v -> match r with [] => True | c :: _ => digit_of 16 c = None end ->
  (length l <= n)%nat -> digits 16 n acc (l ++ r) = (length l, v, r).
Proof.
  induction l as [|c l IH]; intros n acc v r H Hr Hn; cbn in H.
  - injection H as ->. destruct n, r as [|c r]; [done..|]. cbn. by rewrite Hr.
  - destruct (hex_val c) as [d|] eqn:Ed; [|done]. destruct (hex_char _ _ Ed) as [Hd _].
    destruct n as [|n]; [cbn in Hn; lia|]. cbn [length app digits] in *. rewrite Hd.
    by rewrite (IH n _ v r H Hr) by lia.
Qed.

Lemma read_hex_fixed n x r :
  (1 <= n)%nat -> 0 <= x < 16 ^ Z.of_nat n -> x < 2147483648 ->
  match r with [] => True | c :: _ => digit_of 16 c = None /\ is_x c = false end ->
  read_hex_int (hex_fixed n x ++ r) = Some (x, r).
Proof.
  intros Hn Hx Hb Hr. pose proof (unhex_hex_fixed n x 0 Hx) as Hu. rewrite Z.mul_0_l, Z.add_0_l in Hu.
  pose proof (hex_fixed_hex n x) as Hh. pose proof (length_hex_fixed n x) as Hl.
  assert (Hd : digits 16 (length (hex_fixed n x ++ r)) 0 (hex_fixed n x ++ r) = (length (hex_fixed n x), x, r)).
  { apply digits_unhex_stop; [done|destruct r; naive_solver|rewrite length_app; lia]. }
  destruct (hex_fixed n x) as [|c l] eqn:E; [cbn in Hl; lia|].
  destruct (Hh c ltac:(left)) as [d Ec]. destruct (hex_char _ _ Ec) as (_ & Hs & Hm & Hp & _).
  unfold read_hex_int. cbn [app skip_space]. rewrite Hs. cbn [length take_sign]. rewrite Hm, Hp.
  assert (Ex : match l ++ r with c1 :: r0 => if bool_decide (c = "0"%char) && is_x c1 then r0 else c :: (l ++ r)
               | [] => c :: (l ++ r) end = c :: (l ++ r)).
  { destruct l as [|c1 l]; cbn [app].
    - destruct r as [|c1 r]; [done|]. destruct Hr as [_ ->]. by rewrite andb_false_r.
    - destruct (Hh c1 ltac:(right; left)) as [d1 Ec1]. destruct (hex_char _ _ Ec1) as (_ & _ & _ & _ & -> & _).
      by rewrite andb_false_r. }
  rewrite Ex. cbn [app] in Hd. rewrite Hd. cbn [length Nat.eqb orb].
  rewrite !(proj2 (Z.ltb_ge _ _)) by lia. done.
Qed.

Lemma read_delimiter c r : is_space c = false -> read_any_char ([c] ++ r) = Some r.
Proof. intros H. unfold read_any_char. cbn [app skip_space]. by rewrite H. Qed.

(** A PCI address printed as the kernel prints it gives its bus. *)
Theorem printed_bus d b v f :
  0 <= d < 65536 -> 0 <= b < 256 -> 0 <= v < 256 -> 0 <= f < 16 ->
  ExtractBusNumber (print_pci_addr d b v f) = b.
Proof.
  intros Hd Hb Hv Hf. unfold ExtractBusNumber, print_pci_addr.
  do 3 (rewrite read_hex_fixed, read_delimiter by (done || (simpl; lia))).
  rewrite <- (app_nil_r (hex_fixed 1 f)). by rewrite read_hex_fixed by (done || (simpl; lia)).
Qed.

Example printed_bus_witness : ExtractBusNumber (chars "0000:c3:00.0") = 195.
Proof. apply (printed_bus 0 195 0 0); lia. Defined.

(** ** Trees *)

Inductive at_depth (t : path) : PCIeNode -> Z -> Prop :=
  | at_here d ch : at_depth t (mkPCIeNode t d ch) 0
  | at_child a d ch c k : c ∈ ch -> at_depth t c k -> at_depth t (mkPCIeNode a d ch) (k + 1).

Section NodeInd.
Context (P : PCIeNode -> Prop) (H : forall a d ch, Forall P ch -> P (mkPCIeNode a d ch)).

Fixpoint PCIeNode_nested_ind (n : PCIeNode) : P n :=
  match n with
  | mkPCIeNode a d ch =>
      H a d ch ((fix all (l : list PCIeNode) : Forall P l :=
                   match l with [] => List.Forall_nil P | c :: l => List.Forall_cons P c l (PCIeNode_nested_ind c) (all l) end) ch)
  end.
End NodeInd.

Lemma at_depth_nonneg t n k : at_depth t n k -> 0 <= k.
Proof. induction 1; lia. Qed.

Lemma first_found_spec {A} (f : A -> Z) l :
  (first_found f l = -1 /\ forall c, c ∈ l -> f c = -1)
  \/ exists c, c ∈ l /\ first_found f l = f c /\ f c <> -1.
Proof.
  induction l as [|c l IH]; cbn [first_found]; [left; split; [done|by intros ? ?%elem_of_nil]|].
  destruct (Z.eqb_spec (f c) (-1)) as [E|E]; cbn [negb]; [|right; exists c; by repeat split; [left|..]].
  destruct IH as [[-> Hn]|(c' & Hc & -> & Hne)]; [left|right].
  - split; [done|]. by intros c' [->|H]%elem_of_cons; [|apply Hn].
  - exists c'. by split; [right|].
Qed.

(** The depth reported is that of a node with the address under the one
    searched, counted from the depth given for that; -1 says that there is
    none. *)
Theorem lca_depth t node depth :
  0 <= depth ->
  (GetLcaDepth t node depth = -1 /\ forall k, ~ at_depth t node k)
  \/ exists k, GetLcaDepth t node depth = depth + k /\ at_depth t node k.
Proof.
  revert depth. induction node as [a d ch IH] using PCIeNode_nested_ind. intros depth Hd. cbn [GetLcaDepth].
  case_bool_decide as Ea; [subst a; right; exists 0; split; [lia|constructor]|].
  set (f := fun child => GetLcaDepth t child (depth + 1)).
  assert (Hf : forall c, c ∈ ch -> (f c = -1 /\ forall k, ~ at_depth t c k)
    \/ exists k, f c = depth + 1 + k /\ at_depth t c k).
  { intros c Hc. rewrite Forall_forall in IH. apply (IH c); [by apply list_elem_of_In|lia]. }
  destruct (first_found_spec f ch) as [[-> Hn]|(c & Hc & -> & Hne)]; [left; split; [done|]|right].
  - intros k Hk. inversion Hk as [|? ? ? c k' Hc Hk']; subst; [done|].
    destruct (Hf c Hc) as [[_ Hno]|(j & E & Hj)]; [by eapply Hno|].
    specialize (Hn c Hc). pose proof (at_depth_nonneg _ _ _ Hj). lia.
  - destruct (Hf c Hc) as [[E _]|(k & -> & Hk)]; [done|]. exists (k + 1). split; [lia|]. by econstructor.
Qed.

Definition demo_tree : PCIeNode :=
  mkPCIeNode (chars "root") [] [mkPCIeNode (chars "0000:00:01.0") [] [];
                                mkPCIeNode (chars "0000:00:02.0") [] [mkPCIeNode (chars "0000:03:00.0") [] []]].

Example lca_depth_witness : GetLcaDepth (chars "0000:03:00.0") demo_tree 0 = 2.
Proof.
  destruct (lca_depth (chars "0000:03:00.0") demo_tree 0 ltac:(lia)) as [[E _]|_]; [by vm_compute in E|done].
Defined.

(** ** A host with two NICs *)

Definition demo_gid (l : list Z) : gid := replicate (16 - length l) 0 ++ l.

#[local] Instance demo_topo : TopoEnv := {|
  te_devices := Some [1; 2; 3];
  te_name := fun d => chars (if d =? 1 then "mlx5_0" else if d =? 2 then "mlx5_1" else "ionic_0");
  te_dev_path := fun d => chars (if d =? 1 then "/sys/a" else if d =? 2 then "/sys/b" else "/sys/c");
  te_open := fun d => Some d;
  te_device_of := fun c => c;
  te_phys_ports := fun _ => Some 2;
  te_port := fun c p => Some {| port_active := (p =? 2) || (c =? 1); port_ethernet := true; gid_tbl_len := 4 |};
  te_gid := fun c p i =>
    if i =? 0 then Some (demo_gid []) else
    if i =? 1 then Some [254; 128; 0; 0; 0; 0; 0; 0; 2; 0; 0; 255; 254; 0; 0; 1]
    else Some (demo_gid [255; 255; 10; 0; 0; 1]);
  te_read := fun p => if is_prefix (chars "/sys/class/infiniband/mlx5_1/ports/2/gid_attrs/types/3") p
                      then Some (chars "RoCE v2") else Some (chars "IB/RoCE v1");
  te_exists := fun p => true;
  te_canonical := fun p => Some (chars (if bool_decide (p = chars "/sys/a/device") then "/sys/devices/pci0000:00/0000:f1:00.0"
                                        else "/sys/devices/pci0000:00/0000:c4:00.0"));
  te_gpus := Some 1;
  te_gpu_bus_id := fun _ => Some (chars "0000:c3:00.0");
  te_numa_nodes := None
|}.

(** Its second NIC is the closest, the third as close but later; asked for the
    others only, the first; of the second's addresses the mapped one of RoCE
    v2 is best. *)
Example topology_runs :
  GetClosestNicToGpu None 0 None = (1, Some (chars "mlx5_1"))
  /\ GetClosestNicToGpu None 0 (Some (chars "^mlx5_1,ionic_0")) = (0, Some (chars "mlx5_0"))
  /\ AutoSelectGidIndex 2 4 2 = 3 /\ AutoSelectGidIndex 1 4 1 = 2
  /\ GetClosestNicToGpu None 1 None = (-1, None).
Proof. by vm_compute. Qed.

(** The distance looks at the buses alone: a device of another PCI domain can
    be at distance 0. *)
Lemma distance_ignores_domain :
  GetBusIdDistance (chars "0000:03:00.0") (chars "0001:03:00.0") = 0.
Proof. by vm_compute. Qed.
