(* ===== verification/RdmaEnv.v ===== *)
(** * The RDMA backend: its object, its configuration and the verbs

    What the host side of the RDMA endpoint works with: the [Backend] object
    of [src/src/endpoints/rdma-ep/gda-backend.hpp], its configuration and the
    helpers of [rdma-common.h], [rdma-ep.h] and [queue-pair.hip] that fill it,
    the wrapper of libibverbs of [src/src/common/ibv-wrapper.cpp], and the
    checks of [xio-rdma-check.h], of which the backend's own end the process.

    The calls of libibverbs, of the providers' libraries and of the dynamic
    linker are parameters, the class [VerbsEnv], functions of what the process
    holds and of when the call is made, as those of [HostEnv] are;
    [VerbsEnvOk] of [RdmaHeld] are the documented promises. The modelled build has the
    providers mlx5 and ionic ([GDA_MLX5], [GDA_IONIC]). *)

From Stdlib Require Import Ascii.
From stdpp Require Import strings.
From S2P Require Import Prelude Uapi Kernel State HostEnv HostMem HostModule HostContig HostPci Endian RdmaTopo.

Open Scope Z_scope.

(** ** Providers ([rdma-ep.h]) *)

Inductive Provider := BNXT | MLX5 | IONIC | ROCM_ERNIC | PROVIDER_UNKNOWN.

#[global] Instance Provider_eq_dec : EqDecision Provider.
Proof. solve_decision. Defined.

Definition provider_name (p : Provider) : path :=
  match p with
  | BNXT => chars "bnxt"
  | MLX5 => chars "mlx5"
  | IONIC => chars "ionic"
  | ROCM_ERNIC => chars "rocm-ernic"
  | PROVIDER_UNKNOWN => chars "unknown"
  end.

Definition same (s : path) (name : string) : bool := bool_decide (s = chars name).

Definition provider_from_string (s : option path) : Provider :=
  match s with
  | None => PROVIDER_UNKNOWN
  | Some s =>
      if same s "bnxt" || same s "bnxt_re" then BNXT
      else if same s "mlx5" then MLX5
      else if same s "ionic" || same s "pensando" then IONIC
      else if same s "rocm_ernic" || same s "ernic" || same s "rocm-ernic" then ROCM_ERNIC
      else PROVIDER_UNKNOWN
  end.

Inductive QueueMemMode := HOST_COHERENT | DEVICE_VRAM.

(** ** Configuration *)

Record DestInfo := { di_lid : Z; di_qpn : Z; di_psn : Z; di_gid : gid }.

Record BackendConfig := {
  bc_provider : Provider;
  bc_gpu_device_id : Z;
  bc_sq_depth : Z;
  bc_cq_depth : Z;
  bc_inline_threshold : Z;
  bc_pcie_relaxed_ordering : bool;
  bc_traffic_class : Z;
  bc_loopback : bool;
  bc_remote : DestInfo;
  bc_hca_list : option path;
  bc_pci_mmio_bridge : bool;
  bc_queue_mem : QueueMemMode
}.

(** The fields of the endpoint's configuration that [make_backend_config]
    reads, and of the general one. *)
Record RdmaEpConfig := {
  rc_provider : Provider;
  rc_sqDepth : Z;
  rc_cqDepth : Z;
  rc_inlineThreshold : Z;
  rc_pcieRelaxedOrdering : bool;
  rc_trafficClass : Z;
  rc_gpuDeviceId : Z;
  rc_deviceName : path
}.

Definition no_dest : DestInfo := {| di_lid := 0; di_qpn := 0; di_psn := 0; di_gid := replicate 16 0 |}.

Definition make_backend_config (memoryMode : Z) (pciMmioBridge : bool) (c : RdmaEpConfig) (loopback : bool)
    : BackendConfig := {|
  bc_provider := rc_provider c;
  bc_gpu_device_id := rc_gpuDeviceId c;
  bc_sq_depth := rc_sqDepth c;
  bc_cq_depth := rc_cqDepth c;
  bc_inline_threshold := rc_inlineThreshold c;
  bc_pcie_relaxed_ordering := rc_pcieRelaxedOrdering c;
  bc_traffic_class := rc_trafficClass c;
  bc_loopback := loopback;
  bc_remote := no_dest;
  bc_hca_list := match rc_deviceName c with [] => None | n => Some n end;
  bc_pci_mmio_bridge := pciMmioBridge;
  bc_queue_mem := if flagged memoryMode XIO_MEM_MODE_SQ_DEVICE then DEVICE_VRAM else HOST_COHERENT
|}.

(** A key as the provider's entries hold it: mlx5's are big-endian. *)
Definition normalize_qp_key (p : Provider) (key : Z) : Z :=
  match p with MLX5 => to_be 4 key | _ => key end.

Definition rd_atomic_cap (p : Provider) (max_qp_rd_atom : Z) : Z :=
  match p with
  | IONIC => 15
  | _ => if max_qp_rd_atom =? 0 then 1
         else let cap := u32 max_qp_rd_atom in u8 (if 255 <? cap then 255 else cap)
  end.

(** ** Verbs ([ibv-core.hpp]) *)

Definition IBV_ACCESS_LOCAL_WRITE : Z := 1.
Definition IBV_ACCESS_REMOTE_WRITE : Z := 2.
Definition IBV_ACCESS_REMOTE_READ : Z := 4.
Definition IBV_ACCESS_REMOTE_ATOMIC : Z := 8.
Definition IBV_ACCESS_RELAXED_ORDERING : Z := 1048576.

Definition IBV_QP_STATE : Z := 1.
Definition IBV_QP_CUR_STATE : Z := 2.
Definition IBV_QP_ACCESS_FLAGS : Z := 8.
Definition IBV_QP_PKEY_INDEX : Z := 16.
Definition IBV_QP_PORT : Z := 32.
Definition IBV_QP_AV : Z := 128.
Definition IBV_QP_PATH_MTU : Z := 256.
Definition IBV_QP_TIMEOUT : Z := 512.
Definition IBV_QP_RETRY_CNT : Z := 1024.
Definition IBV_QP_RNR_RETRY : Z := 2048.
Definition IBV_QP_RQ_PSN : Z := 4096.
Definition IBV_QP_MAX_QP_RD_ATOMIC : Z := 8192.
Definition IBV_QP_ALT_PATH : Z := 16384.
Definition IBV_QP_MIN_RNR_TIMER : Z := 32768.
Definition IBV_QP_SQ_PSN : Z := 65536.
Definition IBV_QP_MAX_DEST_RD_ATOMIC : Z := 131072.
Definition IBV_QP_PATH_MIG_STATE : Z := 262144.
Definition IBV_QP_DEST_QPN : Z := 1048576.

Definition lor_all (l : list Z) : Z := foldr Z.lor 0 l.

Inductive ibv_qp_state := IBV_QPS_RESET | IBV_QPS_INIT | IBV_QPS_RTR | IBV_QPS_RTS | IBV_QPS_ERR.

#[global] Instance ibv_qp_state_eq_dec : EqDecision ibv_qp_state.
Proof. solve_decision. Defined.

Record ibv_ah_attr := {
  ah_dgid : gid; ah_sgid_index : Z; ah_hop_limit : Z; ah_traffic_class : Z;
  ah_dlid : Z; ah_sl : Z; ah_is_global : Z; ah_port_num : Z
}.

Record ibv_qp_attr := {
  qa_qp_state : ibv_qp_state; qa_path_mtu : Z; qa_rq_psn : Z; qa_sq_psn : Z; qa_dest_qp_num : Z;
  qa_qp_access_flags : Z; qa_ah : ibv_ah_attr; qa_pkey_index : Z; qa_max_rd_atomic : Z;
  qa_max_dest_rd_atomic : Z; qa_min_rnr_timer : Z; qa_port_num : Z; qa_timeout : Z; qa_retry_cnt : Z;
  qa_rnr_retry : Z
}.

(** [memset(&attr, 0, sizeof(attr))] *)
Definition zero_ah : ibv_ah_attr :=
  {| ah_dgid := replicate 16 0; ah_sgid_index := 0; ah_hop_limit := 0; ah_traffic_class := 0;
     ah_dlid := 0; ah_sl := 0; ah_is_global := 0; ah_port_num := 0 |}.
Definition zero_attr : ibv_qp_attr :=
  {| qa_qp_state := IBV_QPS_RESET; qa_path_mtu := 0; qa_rq_psn := 0; qa_sq_psn := 0; qa_dest_qp_num := 0;
     qa_qp_access_flags := 0; qa_ah := zero_ah; qa_pkey_index := 0; qa_max_rd_atomic := 0;
     qa_max_dest_rd_atomic := 0; qa_min_rnr_timer := 0; qa_port_num := 0; qa_timeout := 0;
     qa_retry_cnt := 0; qa_rnr_retry := 0 |}.

(** The fields [fill_rc_qp_init_attr] does not leave zero. *)
Record qp_init_attr := {
  qi_cq : ptr; qi_max_send_wr : Z; qi_max_recv_wr : Z; qi_max_send_sge : Z; qi_max_recv_sge : Z;
  qi_max_inline_data : Z; qi_pd : ptr
}.

Definition fill_rc_qp_init_attr (pd cq : ptr) (sqDepth recvWr recvSge inlineThreshold : Z) : qp_init_attr :=
  {| qi_cq := cq; qi_max_send_wr := u32 sqDepth; qi_max_recv_wr := u32 recvWr; qi_max_send_sge := 1;
     qi_max_recv_sge := u32 recvSge; qi_max_inline_data := inlineThreshold; qi_pd := pd |}.

Record port_attr := { pa_lid : Z; pa_active_mtu : Z; pa_ethernet : bool }.

(** *** What verbs require of a transition of an RC queue pair

    The tables of [ibv_modify_qp]: the attributes a transition needs, and those
    it takes besides. *)

Record qp_now := { qn_state : ibv_qp_state; qn_attr : ibv_qp_attr }.

Definition transition_masks (from to : ibv_qp_state) : option (Z * Z) :=
  match from, to with
  | IBV_QPS_RESET, IBV_QPS_INIT =>
      Some (lor_all [IBV_QP_PKEY_INDEX; IBV_QP_PORT; IBV_QP_ACCESS_FLAGS], 0)
  | IBV_QPS_INIT, IBV_QPS_INIT =>
      Some (0, lor_all [IBV_QP_PKEY_INDEX; IBV_QP_PORT; IBV_QP_ACCESS_FLAGS])
  | IBV_QPS_INIT, IBV_QPS_RTR =>
      Some (lor_all [IBV_QP_AV; IBV_QP_PATH_MTU; IBV_QP_DEST_QPN; IBV_QP_RQ_PSN;
                     IBV_QP_MAX_DEST_RD_ATOMIC; IBV_QP_MIN_RNR_TIMER],
            lor_all [IBV_QP_ALT_PATH; IBV_QP_ACCESS_FLAGS; IBV_QP_PKEY_INDEX])
  | IBV_QPS_RTR, IBV_QPS_RTS =>
      Some (lor_all [IBV_QP_TIMEOUT; IBV_QP_RETRY_CNT; IBV_QP_RNR_RETRY; IBV_QP_SQ_PSN;
                     IBV_QP_MAX_QP_RD_ATOMIC],
            lor_all [IBV_QP_CUR_STATE; IBV_QP_ALT_PATH; IBV_QP_ACCESS_FLAGS; IBV_QP_MIN_RNR_TIMER;
                     IBV_QP_PATH_MIG_STATE])
  | IBV_QPS_RTS, IBV_QPS_RTS =>
      Some (0, lor_all [IBV_QP_CUR_STATE; IBV_QP_ALT_PATH; IBV_QP_ACCESS_FLAGS; IBV_QP_MIN_RNR_TIMER;
                        IBV_QP_PATH_MIG_STATE])
  | _, IBV_QPS_RESET | _, IBV_QPS_ERR => Some (0, 0)
  | _, _ => None
  end.

Definition transition_ok (from to : ibv_qp_state) (mask : Z) : bool :=
  match transition_masks from to with
  | None => false
  | Some (required, optional) =>
      (Z.land mask required =? required)
      && (Z.ldiff mask (lor_all [IBV_QP_STATE; required; optional]) =? 0)
  end.

(** The attributes in effect after a change: those the mask names. *)
Definition apply_attr (now new : ibv_qp_attr) (mask : Z) : ibv_qp_attr :=
  let pick {A} (bit : Z) (f : ibv_qp_attr -> A) : A := if flagged mask bit then f new else f now in
  {| qa_qp_state := pick IBV_QP_STATE qa_qp_state;
     qa_path_mtu := pick IBV_QP_PATH_MTU qa_path_mtu;
     qa_rq_psn := pick IBV_QP_RQ_PSN qa_rq_psn;
     qa_sq_psn := pick IBV_QP_SQ_PSN qa_sq_psn;
     qa_dest_qp_num := pick IBV_QP_DEST_QPN qa_dest_qp_num;
     qa_qp_access_flags := pick IBV_QP_ACCESS_FLAGS qa_qp_access_flags;
     qa_ah := pick IBV_QP_AV qa_ah;
     qa_pkey_index := pick IBV_QP_PKEY_INDEX qa_pkey_index;
     qa_max_rd_atomic := pick IBV_QP_MAX_QP_RD_ATOMIC qa_max_rd_atomic;
     qa_max_dest_rd_atomic := pick IBV_QP_MAX_DEST_RD_ATOMIC qa_max_dest_rd_atomic;
     qa_min_rnr_timer := pick IBV_QP_MIN_RNR_TIMER qa_min_rnr_timer;
     qa_port_num := pick IBV_QP_PORT qa_port_num;
     qa_timeout := pick IBV_QP_TIMEOUT qa_timeout;
     qa_retry_cnt := pick IBV_QP_RETRY_CNT qa_retry_cnt;
     qa_rnr_retry := pick IBV_QP_RNR_RETRY qa_rnr_retry |}.

(** ** Objects of the providers' libraries *)

(** What [mlx5dv_init_obj] tells of a queue pair and its completion queue, with
    the doorbell records' words that the code reads. *)
Record mlx5_objects := {
  mo_sq_buf : ptr; mo_sq_wqe_cnt : Z; mo_sq_stride : Z; mo_qp_dbrec : ptr; mo_qp_dbrec1 : Z;
  mo_bf_reg : ptr; mo_bf_size : Z;
  mo_cq_buf : ptr; mo_cqe_cnt : Z; mo_cqe_size : Z; mo_cq_dbrec : ptr; mo_cq_dbrec0 : Z
}.

(** What the calls of libionic tell: the doorbell page and its pointer, the
    types of queue, and for each queue its buffer, mask and doorbell value. *)
Record ionic_objects := {
  io_db_page : ptr; io_db_ptr : ptr; io_sq_qtype : Z; io_cq_qtype : Z;
  io_cq_ptr : ptr; io_cq_mask : Z; io_cq_db_val : Z;
  io_sq_ptr : ptr; io_sq_mask : Z; io_sq_db_val : Z
}.

Inductive lib_place := CoreDir | ByName | Extra (n : nat) | UsrLocal.

Class VerbsEnv := {
  ve_device_list : hview -> option (ptr * list ptr);
  ve_device_name : ptr -> path;
  ve_open : hview -> ptr -> ptr;
  ve_query_device : hview -> ptr -> Z * Z;
  ve_query_port : hview -> ptr -> Z -> Z * port_attr;
  ve_query_gid : hview -> ptr -> Z -> Z -> Z * gid;
  ve_alloc_pd : hview -> ptr -> ptr;
  ve_alloc_parent_domain : hview -> ptr -> ptr;
  ve_dealloc_pd : hview -> ptr -> Z;
  ve_create_cq : hview -> ptr -> Z -> ptr;
  ve_create_qp : hview -> qp_init_attr -> ptr;
  ve_qp_num : ptr -> Z;
  ve_modify_qp : hview -> qp_now -> ibv_qp_attr -> Z -> Z;
  ve_reg_mr : hview -> ptr -> ptr -> Z -> Z -> ptr;
  ve_reg_dmabuf_mr : hview -> ptr -> Z -> Z -> ptr -> Z -> Z -> ptr;
  ve_mr_keys : ptr -> Z * Z;                     (** [lkey], [rkey] *)
  (** the protection domain an object was made on, NULL where there is none *)
  ve_on : res_kind -> ptr -> ptr;
  (** whether the wrapper found dma-buf support *)
  ve_dmabuf : bool;
  ve_hipMemcpy : hview -> Z;
  ve_sizeof_QueuePair : Z;
  (** the dynamic linker *)
  ve_core_dir : bool;                            (** [RDMA_CORE_LIB_DIR] is defined *)
  ve_dlopen : hview -> Provider -> lib_place -> ptr;
  ve_dlsym : Provider -> nat -> bool;
  (** libmlx5: the two optional entry points may be missing *)
  ve_mlx5_is_supported : option (ptr -> bool);
  ve_mlx5_init_obj : hview -> ptr -> ptr -> Z * mlx5_objects;
  ve_lock_to_pool : hview -> ptr -> Z -> Z * ptr;
  (** the work request of the smoke test: [ibv_post_send], the polls of the
      completion queue with the status of what they find, and the bytes that
      arrived *)
  ve_post_send : hview -> Z;
  ve_poll_cq : hview -> nat -> Z * Z;
  ve_arrived : hview -> bool;
  (** libionic *)
  ve_ionic_create_cq : hview -> ptr -> Z -> ptr;
  ve_ionic_get_ctx : hview -> Z;
  ve_ionic_qp_set_gda : hview -> Z;
  ve_ionic_get_cq : hview -> Z;
  ve_ionic_get_qp : hview -> Z;
  ve_ionic_objects : ptr -> ptr -> ionic_objects
}.

(** ** The object *)

(** The members that name something the process holds. *)
Inductive bfield :=
| F_context | F_pd | F_pd_parent | F_cq | F_qp | F_heap_mr | F_host_qp | F_gpu_qp
| F_mlx5_sq | F_mlx5_cq | F_mlx5_sq_dbr | F_mlx5_cq_dbr | F_mlx5_bf.

Definition all_fields : list bfield :=
  [F_context; F_pd; F_pd_parent; F_cq; F_qp; F_heap_mr; F_host_qp; F_gpu_qp;
   F_mlx5_sq; F_mlx5_cq; F_mlx5_sq_dbr; F_mlx5_cq_dbr; F_mlx5_bf].

#[global] Instance bfield_eq_dec : EqDecision bfield.
Proof. solve_decision. Defined.

(** The GPU's queue pair on the host: the members every provider has, and the
    provider's own where it has been set up. *)
Record mlx5_device := {
  md_cq_buf : ptr; md_cq_dbrec : ptr; md_cq_depth : Z; md_cqe_size : Z; md_cons_index : Z;
  md_sq_buf : ptr; md_sq_dbrec : ptr; md_sq_db : ptr; md_sq_depth : Z; md_sq_tail : Z; md_sq_post : Z
}.

Record ionic_device := {
  nd_cq_buf : ptr; nd_cq_mask : Z; nd_cq_dbval : Z; nd_sq_buf : ptr; nd_sq_mask : Z; nd_sq_dbval : Z;
  nd_sq_dbreg : ptr; nd_cq_dbreg : ptr
}.

Record qp_ops := { op_rdma_write : Z; op_rdma_write_imm : Z; op_rdma_read : Z; op_atomic_fa : Z; op_atomic_cs : Z }.

Record QueuePair := {
  q_provider : Provider;
  q_ops : option qp_ops;                         (** [None]: never set *)
  q_rkey : Z;
  q_lkey : Z;
  q_num : Z;
  q_inline_threshold : Z;
  q_nonfetching : ptr;
  q_nonfetching_lkey : Z;
  q_mr_nonfetching : ptr;
  q_fetching : ptr;
  q_fetching_lkey : Z;
  q_mr_fetching : ptr;
  q_mlx5 : option mlx5_device;
  q_ionic : option ionic_device
}.

Record Backend := {
  be_config : BackendConfig;
  be_provider : Provider;
  be_device : ptr;
  be_max_qp_rd_atom : Z;
  be_port_attr : port_attr;
  be_local_gid : gid;
  be_gid_index : Z;
  be_rkey : Z;
  be_lkey : Z;
  be_ptr : bfield -> ptr;
  be_host_qp : option QueuePair;                 (** what [host_qp_] points to *)
  be_gpu_qp : option QueuePair                   (** what [gpu_qp_] points to *)
}.

Definition port_ : Z := 1.

Definition new_Backend (c : BackendConfig) : Backend := {|
  be_config := c; be_provider := PROVIDER_UNKNOWN; be_device := NULL; be_max_qp_rd_atom := 0;
  be_port_attr := {| pa_lid := 0; pa_active_mtu := 0; pa_ethernet := false |};
  be_local_gid := replicate 16 0; be_gid_index := 0; be_rkey := 0; be_lkey := 0;
  be_ptr := fun _ => NULL; be_host_qp := None; be_gpu_qp := None
|}.

(** The process, the object, the queue pairs the NIC has, the wrapper's
    [dmabuf_fd_map_], and the references on libraries opened and not closed. *)
Record rdma := {
  rd_host : host;
  rd_be : Backend;
  rd_qps : gmap ptr qp_now;
  rd_fds : gmap ptr Z;
  rd_libs : Z
}.

Definition set_host (h : host) (s : rdma) : rdma :=
  {| rd_host := h; rd_be := rd_be s; rd_qps := rd_qps s; rd_fds := rd_fds s; rd_libs := rd_libs s |}.
Definition set_be (f : Backend -> Backend) (s : rdma) : rdma :=
  {| rd_host := rd_host s; rd_be := f (rd_be s); rd_qps := rd_qps s; rd_fds := rd_fds s; rd_libs := rd_libs s |}.
Definition set_qps (f : gmap ptr qp_now -> gmap ptr qp_now) (s : rdma) : rdma :=
  {| rd_host := rd_host s; rd_be := rd_be s; rd_qps := f (rd_qps s); rd_fds := rd_fds s; rd_libs := rd_libs s |}.
Definition set_fds (f : gmap ptr Z -> gmap ptr Z) (s : rdma) : rdma :=
  {| rd_host := rd_host s; rd_be := rd_be s; rd_qps := rd_qps s; rd_fds := f (rd_fds s); rd_libs := rd_libs s |}.
Definition set_libs (f : Z -> Z) (s : rdma) : rdma :=
  {| rd_host := rd_host s; rd_be := rd_be s; rd_qps := rd_qps s; rd_fds := rd_fds s; rd_libs := f (rd_libs s) |}.

Definition upd_ptr (F : bfield) (p : ptr) (b : Backend) : Backend :=
  {| be_config := be_config b; be_provider := be_provider b; be_device := be_device b;
     be_max_qp_rd_atom := be_max_qp_rd_atom b; be_port_attr := be_port_attr b; be_local_gid := be_local_gid b;
     be_gid_index := be_gid_index b; be_rkey := be_rkey b; be_lkey := be_lkey b;
     be_ptr := fun G => if decide (G = F) then p else be_ptr b G;
     be_host_qp := be_host_qp b; be_gpu_qp := be_gpu_qp b |}.
Definition upd_qps (h g : option QueuePair) (b : Backend) : Backend :=
  {| be_config := be_config b; be_provider := be_provider b; be_device := be_device b;
     be_max_qp_rd_atom := be_max_qp_rd_atom b; be_port_attr := be_port_attr b; be_local_gid := be_local_gid b;
     be_gid_index := be_gid_index b; be_rkey := be_rkey b; be_lkey := be_lkey b;
     be_ptr := be_ptr b; be_host_qp := h; be_gpu_qp := g |}.
Definition upd_provider (p : Provider) (b : Backend) : Backend :=
  {| be_config := be_config b; be_provider := p; be_device := be_device b;
     be_max_qp_rd_atom := be_max_qp_rd_atom b; be_port_attr := be_port_attr b; be_local_gid := be_local_gid b;
     be_gid_index := be_gid_index b; be_rkey := be_rkey b; be_lkey := be_lkey b;
     be_ptr := be_ptr b; be_host_qp := be_host_qp b; be_gpu_qp := be_gpu_qp b |}.
Definition upd_device (d rd : Z) (pa : port_attr) (g : gid) (i : Z) (b : Backend) : Backend :=
  {| be_config := be_config b; be_provider := be_provider b; be_device := d;
     be_max_qp_rd_atom := rd; be_port_attr := pa; be_local_gid := g;
     be_gid_index := i; be_rkey := be_rkey b; be_lkey := be_lkey b;
     be_ptr := be_ptr b; be_host_qp := be_host_qp b; be_gpu_qp := be_gpu_qp b |}.
Definition upd_keys (l r : Z) (b : Backend) : Backend :=
  {| be_config := be_config b; be_provider := be_provider b; be_device := be_device b;
     be_max_qp_rd_atom := be_max_qp_rd_atom b; be_port_attr := be_port_attr b; be_local_gid := be_local_gid b;
     be_gid_index := be_gid_index b; be_rkey := r; be_lkey := l;
     be_ptr := be_ptr b; be_host_qp := be_host_qp b; be_gpu_qp := be_gpu_qp b |}.

(** ** Computations that may end the process

    [None] is [abort]: what [XIO_CHECK_ZERO] and [XIO_CHECK_NNULL] do in
    [gda-backend.cpp]. *)
Definition RM (A : Type) : Type := M rdma (option A).
Definition rret {A} (a : A) : RM A := ret (Some a).
Definition abort {A} : RM A := ret None.
Definition rbind {A B} (m : RM A) (f : A -> RM B) : RM B :=
  bind m (fun o => match o with Some a => f a | None => ret None end).
Definition lift {A} (m : HostM A) : RM A :=
  fun s => let '(a, h) := m (rd_host s) in (Some a, set_host h s).
Definition rgets {A} (f : rdma -> A) : RM A := fun s => (Some (f s), s).
Definition rmodify (f : rdma -> rdma) : RM unit := fun s => (Some tt, f s).

Notation "'do*' x ':=' m 'in' k" := (rbind m (fun x => k))
  (at level 10, x name, m at level 100, k at level 200) : xio_scope.
Notation "'do*' ' p ':=' m 'in' k" := (rbind m (fun x => match x with p => k end))
  (at level 10, p pattern, m at level 100, k at level 200) : xio_scope.
Notation "m >>> k" := (rbind m (fun _ => k)) (at level 100, k at level 200, right associativity) : xio_scope.

Definition field (F : bfield) : RM ptr := rgets (fun s => be_ptr (rd_be s) F).
Definition set_field (F : bfield) (p : ptr) : RM unit := rmodify (set_be (upd_ptr F p)).
Definition config : RM BackendConfig := rgets (fun s => be_config (rd_be s)).
Definition provider : RM Provider := rgets (fun s => be_provider (rd_be s)).

(** [XIO_CHECK_ZERO], [XIO_CHECK_NNULL] with [abort()]. *)
Definition check_zero (e : Z) : RM unit := if e =? 0 then rret tt else abort.
Definition check_nnull (p : ptr) : RM unit := if is_null p then abort else rret tt.

Section Verbs.
Context {E : HostEnv} {VE : VerbsEnv}.

(** ** The wrapper ([ibv-wrapper.cpp]) *)

(** A call that returns an object or NULL. *)
Definition obtain (k : res_kind) (f : hview -> ptr) : RM ptr :=
  lift (let* p := consult f in (if is_null p then ret tt else acquire (k, p, 0)) ;;; ret p).

Definition ibv_get_device_list : RM (option (ptr * list ptr)) :=
  lift (let* r := consult ve_device_list in
        match r with None => ret None | Some (l, d) => acquire (KDeviceList, l, 0) ;;; ret (Some (l, d)) end).
Definition ibv_free_device_list (l : ptr) : RM unit := lift (give_back (KDeviceList, l, 0)).
Definition ibv_open_device (d : ptr) : RM ptr := obtain KContext (fun v => ve_open v d).
Definition ibv_close_device (c : ptr) : RM unit := lift (give_back (KContext, c, 0)).
Definition ibv_alloc_pd (c : ptr) : RM ptr := obtain KPd (fun v => ve_alloc_pd v c).
Definition ibv_alloc_parent_domain (c : ptr) : RM ptr := obtain KPd (fun v => ve_alloc_parent_domain v c).
Definition ibv_dealloc_pd (p : ptr) : RM Z :=
  lift (let* rc := consult (fun v => ve_dealloc_pd v p) in
        (if rc =? 0 then give_back (KPd, p, 0) else ret tt) ;;; ret rc).
Definition ibv_create_cq (c n : Z) : RM ptr := obtain KCq (fun v => ve_create_cq v c n).
Definition ibv_destroy_cq (c : ptr) : RM unit := lift (give_back (KCq, c, 0)).

(** The queue pair starts in RESET. *)
Definition ibv_create_qp_ex (a : qp_init_attr) : RM ptr :=
  do* q := obtain KQp (fun v => ve_create_qp v a) in
  (if is_null q then rret tt
   else rmodify (set_qps (<[q := {| qn_state := IBV_QPS_RESET; qn_attr := zero_attr |}]>))) >>> rret q.
Definition ibv_destroy_qp (q : ptr) : RM unit :=
  lift (give_back (KQp, q, 0)) >>> rmodify (set_qps (delete q)).

(** An accepted change takes effect. *)
Definition ibv_modify_qp (q : ptr) (a : ibv_qp_attr) (mask : Z) : RM Z :=
  do* now := rgets (fun s => rd_qps s !! q) in
  match now with
  | None => rret EINVAL
  | Some now =>
      do* rc := lift (consult (fun v => ve_modify_qp v now a mask)) in
      (if rc =? 0
       then rmodify (set_qps (<[q := {| qn_state := qa_qp_state a; qn_attr := apply_attr (qn_attr now) a mask |}]>))
       else rret tt) >>> rret rc
  end.

(** [reg_mr_host]: the compile-time test picks one of two calls that register
    the same. *)
Definition reg_mr_host (pd addr length access : Z) : RM ptr :=
  obtain KMr (fun v => ve_reg_mr v pd addr length access).

Definition reg_mr (pd addr length access : Z) : RM ptr :=
  if ve_dmabuf then
    do* '(status, fd, offset) := lift (exportDmabuf addr length 0 0 0) in
    if negb (status =? HSA_STATUS_SUCCESS) then rret NULL else
    do* mr := obtain KMr (fun v => ve_reg_dmabuf_mr v pd offset length addr fd access) in
    (if is_null mr then rret tt else rmodify (set_fds (<[mr := fd]>))) >>> rret mr
  else reg_mr_host pd addr length access.

Definition dereg_mr (mr : ptr) : RM unit :=
  (if ve_dmabuf then
     do* fd := rgets (fun s => rd_fds s !! mr) in
     match fd with
     | Some fd => lift (closeDmabuf fd) >>> rmodify (set_fds (delete mr))
     | None => rret tt
     end
   else rret tt) >>> lift (give_back (KMr, mr, 0)).

(** [init_dmabuf_support_flag], on the lines of the kernel's configuration. *)
Definition contains (needle line : path) : bool :=
  existsb (fun i => bool_decide (take (length needle) (drop i line) = needle)) (seq 0 (S (length line))).

Fixpoint scan_config (lines : list path) (found1 found2 : bool) : bool :=
  match lines with
  | [] => false
  | l :: lines =>
      let found1 := found1 || contains (chars "CONFIG_DMABUF_MOVE_NOTIFY=y") l in
      let found2 := found2 || contains (chars "CONFIG_PCI_P2PDMA=y") l in
      if found1 && found2 then true else scan_config lines found1 found2
  end.

Definition dmabuf_support (enabled has_reg_dmabuf_mr : bool) (config : option (list path)) : bool :=
  if negb enabled then false else if negb has_reg_dmabuf_mr then false
  else match config with None => false | Some lines => scan_config lines false false end.

(** ** Loading a library ([dv_dlopen], [dlsym_load]) *)

Fixpoint dlopen_first (p : Provider) (places : list lib_place) : RM ptr :=
  match places with
  | [] => rret NULL
  | place :: places =>
      do* h := lift (consult (fun v => ve_dlopen v p place)) in
      if is_null h then dlopen_first p places else rmodify (set_libs (fun n => n + 1)) >>> rret h
  end.

Definition dv_dlopen (p : Provider) (n_extra : nat) : RM ptr :=
  dlopen_first p ((if ve_core_dir then [CoreDir] else []) ++ [ByName] ++ (Extra <$> seq 0 n_extra) ++ [UsrLocal])%list.

(** ** The queue pair's constructor ([queue-pair.hip]) *)

(** [FETCHING_ATOMIC_CNT] *)
Definition fetching_atomic_cnt : Z := 1024.

Definition MR_ACCESS : Z :=
  lor_all [IBV_ACCESS_LOCAL_WRITE; IBV_ACCESS_REMOTE_WRITE; IBV_ACCESS_REMOTE_READ; IBV_ACCESS_REMOTE_ATOMIC].

(** The opcodes of the provider's entries; ionic's are those of firmware 2, the
    build's default ([ionic-fw.h]). *)
Definition opcodes_of (p : Provider) : option qp_ops :=
  match p with
  | MLX5 => Some {| op_rdma_write := 8; op_rdma_write_imm := 9; op_rdma_read := 16; op_atomic_fa := 19;
                    op_atomic_cs := 18 |}
  | IONIC => let out := 32 in let imm := 64 in
             Some {| op_rdma_write := Z.lor 1 out; op_rdma_write_imm := Z.lor (Z.lor 1 out) imm;
                     op_rdma_read := 2; op_atomic_fa := 5; op_atomic_cs := 4 |}
  | _ => None
  end.

(** What a failing [allocDeviceMemory] leaves in the pointer is taken for
    memory.  The keys are read through the regions: where one is NULL the
    process dies. *)
Definition new_QueuePair (pd : ptr) (p : Provider) : RM QueuePair :=
  do* '(_, nonfetching) := lift (allocDeviceMemory 8 NULL XIO_DEVICE_MEM_HIP 0) in
  do* '(_, fetching) := lift (allocDeviceMemory (8 * fetching_atomic_cnt) NULL XIO_DEVICE_MEM_HIP 0) in
  (if is_null nonfetching then rret 0 else lift (consult (fun v => he_hipMemset v nonfetching 8))) >>>
  (if is_null fetching then rret 0
   else lift (consult (fun v => he_hipMemset v fetching (8 * fetching_atomic_cnt)))) >>>
  do* mr1 := reg_mr pd nonfetching 8 MR_ACCESS in
  do* mr2 := reg_mr pd fetching (8 * fetching_atomic_cnt) MR_ACCESS in
  (match p with
   | MLX5 | IONIC => check_nnull mr1 >>> check_nnull mr2
   | _ => rret tt
   end) >>>
  let key mr := match p with MLX5 | IONIC => normalize_qp_key p (fst (ve_mr_keys mr)) | _ => 0 end in
  rret {| q_provider := p; q_ops := opcodes_of p; q_rkey := 0; q_lkey := 0; q_num := 0; q_inline_threshold := 0;
          q_nonfetching := nonfetching; q_nonfetching_lkey := key mr1; q_mr_nonfetching := mr1;
          q_fetching := fetching; q_fetching_lkey := key mr2; q_mr_fetching := mr2;
          q_mlx5 := None; q_ionic := None |}.

(** The destructor. *)
Definition delete_QueuePair (q : QueuePair) : RM unit :=
  (if is_null (q_mr_nonfetching q) then rret tt else dereg_mr (q_mr_nonfetching q)) >>>
  (if is_null (q_mr_fetching q) then rret tt else dereg_mr (q_mr_fetching q)) >>>
  (if is_null (q_nonfetching q) then rret tt else lift (freeDeviceMemory (q_nonfetching q) XIO_DEVICE_MEM_HIP)) >>>
  (if is_null (q_fetching q) then rret tt else lift (freeDeviceMemory (q_fetching q) XIO_DEVICE_MEM_HIP)).
End Verbs.
