(* ===== verification/RdmaGpu.v ===== *)
(** * Setting up the GPU's queue pair: mlx5 and ionic

    [src/src/endpoints/rdma-ep/mlx5/mlx5-backend.cpp] and
    [ionic/ionic-backend.cpp]: loading the provider's library, creating the
    completion queue where the provider has its own way, handing the queues'
    memory and doorbells to the GPU, the smoke test of mlx5, and giving the
    registrations back. *)

From Stdlib Require Import Ascii.
From stdpp Require Import strings.
From S2P Require Import Prelude Uapi Kernel State HostEnv HostMem HostModule HostContig HostPci Endian RdmaTopo RdmaEnv.

Open Scope Z_scope.

Section Gpu.
Context {E : HostEnv} {VE : VerbsEnv}.

(** ** mlx5 *)

Definition page_align (p : ptr) : ptr := Z.land p (u64 (Z.lnot (he_page_size - 1))).

(** The required entry point is the first, the two optional ones need not be
    there. *)
Definition mlx5_dv_dl_init : RM Z :=
  do* h := dv_dlopen MLX5 3 in
  if is_null h then rret (-1) else
  if negb (ve_dlsym MLX5 0) then rret (-1) else rret 0.

(** [cq_buf[i].op_own = 0xFF]: an entry of 64 bytes, its last byte. *)
Definition clear_owners (cq_buf : ptr) (cqe_cnt : Z) : HostM unit :=
  iterM (fun i => store (cq_buf + 64 * Z.of_nat i + 63) 255) (seq 0 (Z.to_nat cqe_cnt)).

Definition with_mlx5 (d : mlx5_device) (num inline : Z) (q : QueuePair) : QueuePair :=
  {| q_provider := q_provider q; q_ops := q_ops q; q_rkey := 0; q_lkey := 0; q_num := num; q_inline_threshold := inline;
     q_nonfetching := q_nonfetching q; q_nonfetching_lkey := q_nonfetching_lkey q;
     q_mr_nonfetching := q_mr_nonfetching q; q_fetching := q_fetching q;
     q_fetching_lkey := q_fetching_lkey q; q_mr_fetching := q_mr_fetching q;
     q_mlx5 := Some d; q_ionic := q_ionic q |}.

(** The queue pair as the objects and the doorbell records describe it. *)
Definition mlx5_of (o : mlx5_objects) (gpu_bf : ptr) : mlx5_device :=
  let initial_cq_ci := from_be 4 (mo_cq_dbrec0 o) in
  let initial_sq_pi := u16 (Z.land (from_be 4 (mo_qp_dbrec1 o)) 65535) in
  {| md_cq_buf := mo_cq_buf o; md_cq_dbrec := mo_cq_dbrec o; md_cq_depth := u32 (mo_cqe_cnt o);
     md_cqe_size := u32 (mo_cqe_size o); md_cons_index := initial_cq_ci;
     md_sq_buf := mo_sq_buf o; md_sq_dbrec := mo_qp_dbrec o + 4; md_sq_db := gpu_bf;
     md_sq_depth := u16 (mo_sq_wqe_cnt o); md_sq_tail := initial_sq_pi; md_sq_post := initial_sq_pi |}.

(** Register memory for the GPU and keep its address for the clean-up. *)
Definition register_as (F : bfield) (p n : Z) : RM bool :=
  do* rc := lift (hipHostRegister p n) in
  if rc =? 0 then set_field F p >>> rret true else rret false.

(** [hsa_amd_memory_lock_to_pool] *)
Definition lock_to_pool (p n : Z) : RM (Z * ptr) :=
  lift (let* '(rc, q) := consult (fun v => ve_lock_to_pool v p n) in
        (if rc =? 0 then acquire (RLocked p) else ret tt) ;;; ret (rc, q)).

Definition when (b : bool) (m : RM unit) : RM unit := if b then m else rret tt.

(** The lock of the doorbell page, and the queue pair itself. *)
Definition mlx5_fill (o : mlx5_objects) : RM unit :=
  do* hsa_st := lift (consult he_hsa_init) in
  when (negb (negb (hsa_st =? HSA_STATUS_SUCCESS) && negb (hsa_st =? 4097))) (
  do* '(hsa_st, gpu_bf_ptr) := lock_to_pool (mo_bf_reg o) (u32 (mo_bf_size o * 2)) in
  when (hsa_st =? HSA_STATUS_SUCCESS) (
  set_field F_mlx5_bf (mo_bf_reg o) >>>
  lift (clear_owners (mo_cq_buf o) (mo_cqe_cnt o)) >>>
  do* qp := field F_qp in
  do* c := config in
  do* hq := rgets (fun s => be_host_qp (rd_be s)) in
  do* gq := rgets (fun s => be_gpu_qp (rd_be s)) in
  rmodify (set_be (upd_qps (with_mlx5 (mlx5_of o gpu_bf_ptr) (ve_qp_num qp) (bc_inline_threshold c) <$> hq) gq)))).

(** The registrations, up to the first that fails. *)
Definition mlx5_set_up (o : mlx5_objects) : RM unit :=
  do* ok := register_as F_mlx5_sq (mo_sq_buf o) (u32 (mo_sq_wqe_cnt o * mo_sq_stride o)) in
  when ok (
  do* ok := register_as F_mlx5_cq (mo_cq_buf o) (u32 (mo_cqe_cnt o * mo_cqe_size o)) in
  when ok (
  let sq_dbr_page := page_align (mo_qp_dbrec o) in
  do* ok := register_as F_mlx5_sq_dbr sq_dbr_page he_page_size in
  when ok (
  let cq_dbr_page := page_align (mo_cq_dbrec o) in
  do* ok := (if negb (cq_dbr_page =? sq_dbr_page)
             then register_as F_mlx5_cq_dbr cq_dbr_page he_page_size else rret true) in
  when ok (mlx5_fill o)))).

Definition mlx5_initialize_gpu_qp : RM unit :=
  do* host_qp := field F_host_qp in
  do* qp := field F_qp in
  do* cq := field F_cq in
  if is_null host_qp || is_null qp || is_null cq then rret tt else
  do* device := rgets (fun s => be_device (rd_be s)) in
  if match ve_mlx5_is_supported with Some f => negb (f device) | None => false end then rret tt else
  do* '(rc, o) := lift (consult (fun v => ve_mlx5_init_obj v qp cq)) in
  if negb (rc =? 0) then rret tt else mlx5_set_up o.

(** Each registration that was kept, latest first. *)
Definition mlx5_cleanup : RM unit :=
  let drop F (undo : ptr -> HostM unit) :=
    do* p := field F in
    if is_null p then rret tt else lift (undo p) >>> set_field F NULL in
  drop F_mlx5_bf (fun p => hsa_amd_memory_unlock p) >>>
  drop F_mlx5_cq_dbr (fun p => hipHostUnregister p ;;; ret tt) >>>
  drop F_mlx5_sq_dbr (fun p => hipHostUnregister p ;;; ret tt) >>>
  drop F_mlx5_cq (fun p => hipHostUnregister p ;;; ret tt) >>>
  drop F_mlx5_sq (fun p => hipHostUnregister p ;;; ret tt).

(** One poll after another, at most [n]: how the last one ended, and the status
    found. *)
Fixpoint poll_until (n polls : nat) : HostM (Z * Z) :=
  match n with
  | O => ret (0, 0)
  | S n =>
      let* '(ne, status) := consult (fun v => ve_poll_cq v polls) in
      if 0 <? ne then ret (ne, status) else if ne <? 0 then ret (ne, status) else poll_until n (S polls)
  end.

Definition max_polls : nat := 1000 * 1000.

(** Give the region and the buffer back, with a result. *)
Definition smoke_over (mr buf rc : Z) : RM Z :=
  dereg_mr mr >>> lift (freeHostMemory buf XIO_HOST_MEM_PINNED) >>> rret rc.

Definition mlx5_cpu_loopback_smoke_test : RM Z :=
  do* qp := field F_qp in
  do* cq := field F_cq in
  do* pd := field F_pd in
  if is_null qp || is_null cq || is_null pd then rret (-1) else
  let test_size := 64 in
  let buf_size := test_size * 2 in
  do* '(herr, buf) := lift (allocHostMemory buf_size NULL XIO_HOST_MEM_PINNED) in
  if negb (herr =? hipSuccess) then rret (-1) else
  do* mr := reg_mr_host pd buf buf_size
    (lor_all [IBV_ACCESS_LOCAL_WRITE; IBV_ACCESS_REMOTE_WRITE; IBV_ACCESS_REMOTE_READ]) in
  if is_null mr then lift (freeHostMemory buf XIO_HOST_MEM_PINNED) >>> rret (-1) else
  do* rc := lift (consult ve_post_send) in
  if negb (rc =? 0) then smoke_over mr buf (-1) else
  do* '(ne, status) := lift (poll_until max_polls 0) in
  if ne <? 0 then smoke_over mr buf (-1) else
  if ne =? 0 then smoke_over mr buf (-1) else
  if negb (status =? 0) then smoke_over mr buf (-1) else
  do* data_ok := lift (consult ve_arrived) in
  smoke_over mr buf (if data_ok then 0 else -1).

(** ** ionic *)

(** Eight entry points and [ionic_dv_qp_set_gda], all required. *)
Definition ionic_dv_dl_init : RM Z :=
  do* h := dv_dlopen IONIC 0 in
  if is_null h then rret (-1) else
  if forallb (ve_dlsym IONIC) (seq 0 9) then rret 0 else rret (-1).

(** A parent domain whose memory the backend allocates, the settings of its
    queues, and the completion queue. *)
Definition ionic_create_cqs (ncqes : Z) : RM unit :=
  do* context := field F_context in
  do* pd := ibv_alloc_parent_domain context in
  set_field F_pd_parent pd >>>
  if is_null pd then rret tt else
  do* cq_ex := obtain KCq (fun v => ve_ionic_create_cq v pd ncqes) in
  if is_null cq_ex then rret tt else
  do* old := field F_cq in
  when (negb (is_null old)) (ibv_destroy_cq old >>> set_field F_cq NULL) >>>
  set_field F_cq cq_ex.

Definition with_ionic_queues (o : ionic_objects) (q : QueuePair) : QueuePair :=
  {| q_provider := q_provider q; q_ops := q_ops q; q_rkey := q_rkey q; q_lkey := q_lkey q; q_num := q_num q;
     q_inline_threshold := q_inline_threshold q;
     q_nonfetching := q_nonfetching q; q_nonfetching_lkey := q_nonfetching_lkey q;
     q_mr_nonfetching := q_mr_nonfetching q; q_fetching := q_fetching q;
     q_fetching_lkey := q_fetching_lkey q; q_mr_fetching := q_mr_fetching q; q_mlx5 := q_mlx5 q;
     q_ionic := Some {| nd_cq_buf := io_cq_ptr o; nd_cq_mask := io_cq_mask o; nd_cq_dbval := io_cq_db_val o;
                        nd_sq_buf := io_sq_ptr o; nd_sq_mask := io_sq_mask o; nd_sq_dbval := io_sq_db_val o;
                        nd_sq_dbreg := NULL; nd_cq_dbreg := NULL |} |}.

(** The doorbell registers, an array of 64-bit words at the page's offset. *)
Definition with_ionic_doorbells (o : ionic_objects) (gpu_db_base num inline : Z) (q : QueuePair) : QueuePair :=
  let gpu_db := u64 (gpu_db_base + u64 (io_db_ptr o - io_db_page o)) in
  {| q_provider := q_provider q; q_ops := q_ops q; q_rkey := 0; q_lkey := 0; q_num := num; q_inline_threshold := inline;
     q_nonfetching := q_nonfetching q; q_nonfetching_lkey := q_nonfetching_lkey q;
     q_mr_nonfetching := q_mr_nonfetching q; q_fetching := q_fetching q;
     q_fetching_lkey := q_fetching_lkey q; q_mr_fetching := q_mr_fetching q; q_mlx5 := q_mlx5 q;
     q_ionic := match q_ionic q with
                | Some d => Some {| nd_cq_buf := nd_cq_buf d; nd_cq_mask := nd_cq_mask d;
                                    nd_cq_dbval := nd_cq_dbval d; nd_sq_buf := nd_sq_buf d;
                                    nd_sq_mask := nd_sq_mask d; nd_sq_dbval := nd_sq_dbval d;
                                    nd_sq_dbreg := u64 (gpu_db + 8 * io_sq_qtype o);
                                    nd_cq_dbreg := u64 (gpu_db + 8 * io_cq_qtype o) |}
                | None => None
                end |}.

Definition on_host_qp (f : QueuePair -> QueuePair) : RM unit :=
  rmodify (fun s => set_be (upd_qps (f <$> be_host_qp (rd_be s)) (be_gpu_qp (rd_be s))) s).

Definition ionic_initialize_gpu_qp : RM unit :=
  do* host_qp := field F_host_qp in
  do* cq := field F_cq in
  do* qp := field F_qp in
  if is_null host_qp || is_null cq || is_null qp then rret tt else
  do* rc := lift (consult ve_ionic_get_ctx) in
  if negb (rc =? 0) then rret tt else
  do* rc := lift (consult ve_ionic_qp_set_gda) in
  if negb (rc =? 0) then rret tt else
  do* rc := lift (consult ve_ionic_get_cq) in
  if negb (rc =? 0) then rret tt else
  do* rc := lift (consult ve_ionic_get_qp) in
  if negb (rc =? 0) then rret tt else
  let o := ve_ionic_objects qp cq in
  on_host_qp (with_ionic_queues o) >>>
  do* rc := lift (hipHostRegister (io_db_page o) he_page_size) in
  if negb (rc =? 0) then rret tt else
  do* '(rc, gpu_db_base) := lift (hipHostGetDevicePointer (io_db_page o)) in
  if negb (rc =? 0) then rret tt else
  do* c := config in
  on_host_qp (with_ionic_doorbells o gpu_db_base (ve_qp_num qp) (bc_inline_threshold c)).
End Gpu.
