(* ===== verification/RdmaBackend.v ===== *)
(** * The RDMA backend

    [src/src/endpoints/rdma-ep/gda-backend.cpp]: opening the device, creating
    the queues, taking the queue pair from RESET to RTS - to itself, or to a
    peer whose parameters came over TCP -, the GPU's copy of the queue pair,
    memory registration, and giving everything back. *)

From Stdlib Require Import Ascii.
From stdpp Require Import strings.
From S2P Require Import Prelude Uapi Kernel State HostEnv HostMem HostModule HostContig HostPci Endian TcpExchange RdmaTopo RdmaEnv RdmaGpu.

Open Scope Z_scope.

Section Backend.
Context {E : HostEnv} {VE : VerbsEnv} {TE : TopoEnv}.

(** ** Opening *)

(** The providers of this build, in the order of the code; the one asked for,
    or the first whose library loads. *)
Definition try_provider (p : Provider) (dl_init : RM Z) : RM unit :=
  do* now := provider in
  do* c := config in
  let requested := bc_provider c in
  if bool_decide (now = PROVIDER_UNKNOWN)
     && (bool_decide (requested = PROVIDER_UNKNOWN) || bool_decide (requested = p))
  then do* rc := dl_init in
       if rc =? 0 then rmodify (set_be (upd_provider p)) else rret tt
  else rret tt.

Definition open_dv_libs : RM unit :=
  rmodify (set_be (upd_provider PROVIDER_UNKNOWN)) >>>
  try_provider MLX5 mlx5_dv_dl_init >>>
  try_provider IONIC ionic_dv_dl_init.

(** [dv_handle_], which nothing sets. *)
Definition close_dv_libs : RM unit := rret tt.

Definition device_named (n : option path) (devices : list ptr) : option ptr :=
  match n with
  | None => None
  | Some n => find_first (fun d => bool_decide (ve_device_name d = n)) devices
  end.

(** The closest NIC, else the one of the name given, else the first. *)
Definition choose_device (c : BackendConfig) (devices : list ptr) : ptr :=
  let '(nic_idx, dev_name) := GetClosestNicToGpu None (bc_gpu_device_id c) (bc_hca_list c) in
  match (if 0 <=? nic_idx then device_named dev_name devices else None) with
  | Some d => d
  | None => match device_named (bc_hca_list c) devices with
            | Some d => d
            | None => default NULL (head devices)
            end
  end.

Definition open_ib_device : RM unit :=
  do* r := ibv_get_device_list in
  match r with
  | None => abort
  | Some (device_list, devices) =>
      if (length devices =? 0)%nat then ibv_free_device_list device_list >>> abort else
      do* c := config in
      let device := choose_device c devices in
      do* context := ibv_open_device device in
      set_field F_context context >>>
      check_nnull context >>>
      do* '(err, max_rd) := lift (consult (fun v => ve_query_device v context)) in
      check_zero err >>>
      do* pd := ibv_alloc_pd context in
      set_field F_pd pd >>>
      check_nnull pd >>>
      do* '(err, pa) := lift (consult (fun v => ve_query_port v context port_)) in
      check_zero err >>>
      let best := SelectBestGid context port_ in
      let gid_index := if best <? 0 then 0 else best in
      do* '(err, g) := lift (consult (fun v => ve_query_gid v context port_ gid_index)) in
      check_zero err >>>
      rmodify (set_be (upd_device device max_rd pa g gid_index)) >>>
      ibv_free_device_list device_list
  end.

(** ** Queues *)

Definition create_queues : RM unit :=
  do* c := config in
  do* p := provider in
  let ncqes := if bool_decide (p = IONIC) && (bc_cq_depth c <? 8192) then 8192 else bc_cq_depth c in
  do* context := field F_context in
  do* pd := field F_pd in
  if bool_decide (p = IONIC) then
    ionic_create_cqs ncqes >>>
    do* cq := field F_cq in
    if is_null cq then rret tt else
    do* pd_parent := field F_pd_parent in
    do* qp := ibv_create_qp_ex (fill_rc_qp_init_attr (if is_null pd_parent then pd else pd_parent) cq
                                  (bc_sq_depth c) 1 1 (bc_inline_threshold c)) in
    set_field F_qp qp
  else
    do* cq := ibv_create_cq context ncqes in
    set_field F_cq cq >>>
    check_nnull cq >>>
    do* qp := ibv_create_qp_ex (fill_rc_qp_init_attr pd cq (bc_sq_depth c) 0 0 (bc_inline_threshold c)) in
    set_field F_qp qp.

(** ** The states of the queue pair *)

(** No other provider has its own call in this build. *)
Definition modify_qp_dispatch (qp : ptr) (a : ibv_qp_attr) (mask : Z) : RM Z := ibv_modify_qp qp a mask.

Definition init_attr : ibv_qp_attr :=
  {| qa_qp_state := IBV_QPS_INIT; qa_path_mtu := 0; qa_rq_psn := 0; qa_sq_psn := 0; qa_dest_qp_num := 0;
     qa_qp_access_flags := lor_all [IBV_ACCESS_REMOTE_WRITE; IBV_ACCESS_LOCAL_WRITE; IBV_ACCESS_REMOTE_READ;
                                    IBV_ACCESS_REMOTE_ATOMIC];
     qa_ah := zero_ah; qa_pkey_index := 0; qa_max_rd_atomic := 0; qa_max_dest_rd_atomic := 0;
     qa_min_rnr_timer := 0; qa_port_num := port_; qa_timeout := 0; qa_retry_cnt := 0; qa_rnr_retry := 0 |}.
Definition init_mask : Z := lor_all [IBV_QP_STATE; IBV_QP_PKEY_INDEX; IBV_QP_PORT; IBV_QP_ACCESS_FLAGS].

Definition modify_qp_reset_to_init : RM unit :=
  do* qp := field F_qp in
  do* err := modify_qp_dispatch qp init_attr init_mask in check_zero err.

(** Both kinds of link use a global route; an InfiniBand one the LID as well,
    and another service level. *)
Definition rtr_attr (b : Backend) (remote : DestInfo) : ibv_qp_attr :=
  let ethernet := pa_ethernet (be_port_attr b) in
  {| qa_qp_state := IBV_QPS_RTR; qa_path_mtu := pa_active_mtu (be_port_attr b);
     qa_rq_psn := u32 (di_psn remote); qa_sq_psn := 0; qa_dest_qp_num := u32 (di_qpn remote);
     qa_qp_access_flags := 0;
     qa_ah := {| ah_dgid := di_gid remote; ah_sgid_index := u8 (be_gid_index b); ah_hop_limit := 1;
                 ah_traffic_class := u8 (bc_traffic_class (be_config b));
                 ah_dlid := if ethernet then 0 else u16 (di_lid remote);
                 ah_sl := if ethernet then 1 else 0; ah_is_global := 1; ah_port_num := port_ |};
     qa_pkey_index := 0; qa_max_rd_atomic := 0;
     qa_max_dest_rd_atomic := rd_atomic_cap (be_provider b) (be_max_qp_rd_atom b);
     qa_min_rnr_timer := 12; qa_port_num := 0; qa_timeout := 0; qa_retry_cnt := 0; qa_rnr_retry := 0 |}.
Definition rtr_mask : Z :=
  lor_all [IBV_QP_STATE; IBV_QP_PATH_MTU; IBV_QP_RQ_PSN; IBV_QP_DEST_QPN; IBV_QP_AV;
           IBV_QP_MAX_DEST_RD_ATOMIC; IBV_QP_MIN_RNR_TIMER].

Definition modify_qp_init_to_rtr (remote : DestInfo) : RM unit :=
  do* b := rgets rd_be in
  do* qp := field F_qp in
  do* err := modify_qp_dispatch qp (rtr_attr b remote) rtr_mask in check_zero err.

Definition rts_attr (b : Backend) : ibv_qp_attr :=
  {| qa_qp_state := IBV_QPS_RTS; qa_path_mtu := 0; qa_rq_psn := 0; qa_sq_psn := 0; qa_dest_qp_num := 0;
     qa_qp_access_flags := 0; qa_ah := zero_ah; qa_pkey_index := 0;
     qa_max_rd_atomic := rd_atomic_cap (be_provider b) (be_max_qp_rd_atom b); qa_max_dest_rd_atomic := 0;
     qa_min_rnr_timer := 0; qa_port_num := 0; qa_timeout := 14; qa_retry_cnt := 7; qa_rnr_retry := 7 |}.
Definition rts_mask : Z :=
  lor_all [IBV_QP_STATE; IBV_QP_SQ_PSN; IBV_QP_MAX_QP_RD_ATOMIC; IBV_QP_TIMEOUT; IBV_QP_RETRY_CNT;
           IBV_QP_RNR_RETRY].

Definition modify_qp_rtr_to_rts : RM unit :=
  do* b := rgets rd_be in
  do* qp := field F_qp in
  do* err := modify_qp_dispatch qp (rts_attr b) rts_mask in check_zero err.

Definition connect (remote : DestInfo) : RM unit :=
  modify_qp_reset_to_init >>> modify_qp_init_to_rtr remote >>> modify_qp_rtr_to_rts.

Definition loopback_dest (b : Backend) : DestInfo :=
  {| di_lid := pa_lid (be_port_attr b); di_qpn := ve_qp_num (be_ptr b F_qp); di_psn := 0;
     di_gid := be_local_gid b |}.

Definition setup_qp_loopback : RM unit :=
  do* b := rgets rd_be in connect (loopback_dest b).

Definition connect_to_peer (remote : DestInfo) : RM Z :=
  do* qp := field F_qp in
  if is_null qp then rret (-1) else connect remote >>> rret 0.

Definition get_local_dest_info (b : Backend) : DestInfo :=
  {| di_lid := pa_lid (be_port_attr b);
     di_qpn := if is_null (be_ptr b F_qp) then 0 else ve_qp_num (be_ptr b F_qp);
     di_psn := 0; di_gid := be_local_gid b |}.

(** ** The GPU's queue pair *)

Definition initialize_gpu_qp : RM unit :=
  do* host_qp := field F_host_qp in
  if is_null host_qp then rret tt else
  do* p := provider in
  match p with
  | MLX5 => mlx5_initialize_gpu_qp
  | IONIC => ionic_initialize_gpu_qp
  | _ => rret tt
  end.

(** [hipMemcpy(gpu_qp_, host_qp_, ...)] *)
Definition copy_qp : RM Z :=
  do* rc := lift (consult ve_hipMemcpy) in
  (if rc =? 0 then rmodify (fun s => set_be (upd_qps (be_host_qp (rd_be s)) (be_host_qp (rd_be s))) s) else rret tt)
  >>> rret rc.

Definition setup_gpu_qp : RM unit :=
  do* p := provider in
  if bool_decide (p = PROVIDER_UNKNOWN) then rret tt else
  do* '(err, host_qp, gpu_qp) := lift (allocDeviceMemoryPair ve_sizeof_QueuePair) in
  if negb (err =? hipSuccess) then set_field F_host_qp NULL >>> set_field F_gpu_qp NULL else
  set_field F_host_qp host_qp >>> set_field F_gpu_qp gpu_qp >>>
  do* pd := field F_pd in
  do* q := new_QueuePair pd p in
  rmodify (fun s => set_be (upd_qps (Some q) (be_gpu_qp (rd_be s))) s) >>>
  initialize_gpu_qp >>>
  do* err := copy_qp in
  if err =? 0 then rret tt else
  lift (freeDeviceMemory gpu_qp XIO_DEVICE_MEM_HIP) >>> set_field F_gpu_qp NULL.

(** The memory of the pair; the object in it is not destroyed. *)
Definition cleanup_gpu_qp : RM unit :=
  do* host_qp := field F_host_qp in
  do* gpu_qp := field F_gpu_qp in
  lift (freeDeviceMemoryPair host_qp gpu_qp) >>>
  set_field F_host_qp NULL >>> set_field F_gpu_qp NULL >>>
  rmodify (set_be (upd_qps None None)).

Definition with_keys (lkey rkey : Z) (q : QueuePair) : QueuePair :=
  {| q_provider := q_provider q; q_ops := q_ops q; q_rkey := rkey; q_lkey := lkey; q_num := q_num q;
     q_inline_threshold := q_inline_threshold q; q_nonfetching := q_nonfetching q;
     q_nonfetching_lkey := q_nonfetching_lkey q; q_mr_nonfetching := q_mr_nonfetching q;
     q_fetching := q_fetching q; q_fetching_lkey := q_fetching_lkey q; q_mr_fetching := q_mr_fetching q;
     q_mlx5 := q_mlx5 q; q_ionic := q_ionic q |}.

Definition set_remote_rkey (remote_rkey : Z) : RM Z :=
  do* host_qp := field F_host_qp in
  do* gpu_qp := field F_gpu_qp in
  if is_null host_qp || is_null gpu_qp then rret (-1) else
  do* p := provider in
  on_host_qp (fun q => with_keys (q_lkey q) (normalize_qp_key p remote_rkey) q) >>>
  do* err := copy_qp in
  rret (if err =? 0 then 0 else -1).

(** Give a member back, and forget it. *)
Definition drop_field (F : bfield) (undo : ptr -> RM unit) : RM unit :=
  do* p := field F in
  if is_null p then rret tt else undo p >>> set_field F NULL.

Definition data_access (c : BackendConfig) : Z :=
  let access := lor_all [IBV_ACCESS_LOCAL_WRITE; IBV_ACCESS_REMOTE_WRITE; IBV_ACCESS_REMOTE_READ;
                         IBV_ACCESS_REMOTE_ATOMIC] in
  if bc_pcie_relaxed_ordering c then Z.lor access IBV_ACCESS_RELAXED_ORDERING else access.

Definition register_data_buffer (buf size : Z) : RM Z :=
  do* host_qp := field F_host_qp in
  do* gpu_qp := field F_gpu_qp in
  if is_null buf || (size =? 0) || is_null host_qp || is_null gpu_qp then rret (-1) else
  do* c := config in
  drop_field F_heap_mr dereg_mr >>>
  do* pd_parent := field F_pd_parent in
  do* pd := field F_pd in
  do* mr := reg_mr_host (if is_null pd_parent then pd else pd_parent) buf size (data_access c) in
  set_field F_heap_mr mr >>>
  if is_null mr then rret (-1) else
  do* p := provider in
  let '(lkey, rkey) := ve_mr_keys mr in
  on_host_qp (with_keys (normalize_qp_key p lkey) (normalize_qp_key p rkey)) >>>
  rmodify (set_be (upd_keys lkey rkey)) >>>
  do* err := copy_qp in
  rret (if err =? 0 then 0 else -1).

(** ** Life *)

(** The status, where the process lives on. *)
Definition init (ibv_is_initialized : bool) : RM Z :=
  if negb ibv_is_initialized then rret (-1) else
  open_dv_libs >>> open_ib_device >>> create_queues >>>
  do* qp := field F_qp in
  if is_null qp then rret (-1) else
  do* c := config in
  do* p := provider in
  do* smoke := (if bc_loopback c
                then setup_qp_loopback >>>
                     (if bool_decide (p = MLX5) then mlx5_cpu_loopback_smoke_test else rret 0)
                else rret 0) in
  if negb (smoke =? 0) then rret (-1) else
  setup_gpu_qp >>> rret 0.

Definition shutdown : RM unit :=
  cleanup_gpu_qp >>>
  do* p := provider in
  (if bool_decide (p = MLX5) then mlx5_cleanup else rret tt) >>>
  drop_field F_qp ibv_destroy_qp >>>
  drop_field F_cq ibv_destroy_cq >>>
  drop_field F_heap_mr dereg_mr >>>
  drop_field F_pd_parent (fun pd => ibv_dealloc_pd pd >>> rret tt) >>>
  drop_field F_pd (fun pd => ibv_dealloc_pd pd >>> rret tt) >>>
  drop_field F_context ibv_close_device >>>
  close_dv_libs.

End Backend.
