(* ===== verification/RdmaConnect.v ===== *)
(** * Connecting the queue pairs

    What [connect_to_peer] of [src/src/endpoints/rdma-ep/gda-backend.cpp] makes
    of a NIC that keeps to the tables of verbs; the part of the two-node test
    of [rdma-ep.hip] that tells the peer about this side's queue pair, and
    connects it to what the peer told ([two_node_message], [peer_dest],
    [connect_two]); and the two sides together, over the exchange of
    [TcpExchange]. *)

From S2P Require Import Prelude Kernel State HostEnv HostMem Endian TcpExchange RdmaTopo RdmaEnv RdmaGpu RdmaBackend.

Open Scope Z_scope.

(** ** The two-node test's own part *)

Definition two_node_message (local_dest : DestInfo) (rkey reg_buf : Z) : ExchangeMsg := {|
  em_qpn := u32 (di_qpn local_dest); em_rkey := rkey; em_lid := u16 (di_lid local_dest); em_pad := 0;
  em_remote_addr := reg_buf; em_gid := di_gid local_dest
|}.

Definition peer_dest (remote_msg : ExchangeMsg) : DestInfo :=
  {| di_lid := em_lid remote_msg; di_qpn := em_qpn remote_msg; di_psn := 0; di_gid := em_gid remote_msg |}.

Section Connect.
Context {E : HostEnv} {VE : VerbsEnv}.

Definition connect_two (remote_msg : ExchangeMsg) : RM Z :=
  do* rc := connect_to_peer (peer_dest remote_msg) in
  if negb (rc =? 0) then rret rc else set_remote_rkey (em_rkey remote_msg).

(** ** A NIC that keeps to the tables *)

(** It accepts a change exactly when the attributes it names are what the
    transition needs and allows. *)
Definition nic_exact : Prop :=
  forall v now a m, ve_modify_qp v now a m = 0 <-> transition_ok (qn_state now) (qa_qp_state a) m = true.

(** *** Rules for a computation that neither ends the process nor leaves the
    values of its steps open *)

Lemma run_bind {A B} (m : RM A) (f : A -> RM B) s a s1 :
  m s = (Some a, s1) -> rbind m f s = f a s1.
Proof. intros H. unfold rbind, bind. by rewrite H. Qed.

Lemma run_gets {A B} (g : rdma -> A) (f : A -> RM B) s : rbind (rgets g) f s = f (g s) s.
Proof. done. Qed.

(** What a change of state leaves as it was. *)
Record same_apart (s s' : rdma) : Prop := {
  sa_be : rd_be s' = rd_be s;
  sa_held : ho_held (rd_host s') = ho_held (rd_host s);
  sa_fds : rd_fds s' = rd_fds s;
  sa_libs : rd_libs s' = rd_libs s
}.

Lemma same_apart_trans s s1 s2 : same_apart s s1 -> same_apart s1 s2 -> same_apart s s2.
Proof. intros [] []. split; congruence. Qed.

Lemma modify_accepted q a m now s :
  nic_exact -> rd_qps s !! q = Some now -> transition_ok (qn_state now) (qa_qp_state a) m = true ->
  exists s', ibv_modify_qp q a m s = (Some 0, s') /\ same_apart s s'
    /\ rd_qps s' = <[q := {| qn_state := qa_qp_state a; qn_attr := apply_attr (qn_attr now) a m |}]> (rd_qps s).
Proof.
  intros Hn Hq Hok. unfold ibv_modify_qp, rbind, bind, rgets, lift, consult, gets, modify, ret. cbn.
  rewrite Hq. cbn. rewrite (proj2 (Hn _ _ _ _) Hok). cbn. eexists. by repeat split.
Qed.

Lemma modify_refused q a m now s :
  nic_exact -> rd_qps s !! q = Some now -> transition_ok (qn_state now) (qa_qp_state a) m = false ->
  exists rc s', ibv_modify_qp q a m s = (Some rc, s') /\ rc <> 0.
Proof.
  intros Hn Hq Hok. unfold ibv_modify_qp, rbind, bind, rgets, lift, consult, gets, modify, ret. cbn.
  rewrite Hq. cbn.
  destruct (Z.eqb_spec (ve_modify_qp (view (rd_host s)) now a m) 0) as [H0|Hne]; [|by do 2 eexists].
  apply Hn in H0. congruence.
Qed.

(** The attributes in effect once the queue pair is connected: everything in
    [connect] that the masks name. *)
Definition connected_attr (b : Backend) (remote : DestInfo) : ibv_qp_attr :=
  {| qa_qp_state := IBV_QPS_RTS; qa_path_mtu := pa_active_mtu (be_port_attr b);
     qa_rq_psn := u32 (di_psn remote); qa_sq_psn := 0; qa_dest_qp_num := u32 (di_qpn remote);
     qa_qp_access_flags := qa_qp_access_flags init_attr;
     qa_ah := qa_ah (rtr_attr b remote); qa_pkey_index := 0;
     qa_max_rd_atomic := rd_atomic_cap (be_provider b) (be_max_qp_rd_atom b);
     qa_max_dest_rd_atomic := rd_atomic_cap (be_provider b) (be_max_qp_rd_atom b);
     qa_min_rnr_timer := 12; qa_port_num := port_; qa_timeout := 14; qa_retry_cnt := 7; qa_rnr_retry := 7 |}.

Lemma connect_accepted remote q now s :
  nic_exact -> be_ptr (rd_be s) F_qp = q -> rd_qps s !! q = Some now ->
  qn_state now = IBV_QPS_RESET \/ qn_state now = IBV_QPS_INIT ->
  exists s', connect remote s = (Some tt, s') /\ same_apart s s'
    /\ rd_qps s' = <[q := {| qn_state := IBV_QPS_RTS; qn_attr := connected_attr (rd_be s) remote |}]> (rd_qps s).
Proof.
  intros Hn Hf Hq Hst.
  destruct (modify_accepted q init_attr init_mask now s Hn Hq) as (s1 & R1 & S1 & Q1);
    [destruct Hst as [-> | ->]; by vm_compute|].
  destruct (modify_accepted q (rtr_attr (rd_be s) remote) rtr_mask
    {| qn_state := IBV_QPS_INIT; qn_attr := apply_attr (qn_attr now) init_attr init_mask |} s1 Hn)
    as (s2 & R2 & S2 & Q2); [by rewrite Q1, lookup_insert_eq|by vm_compute|].
  destruct (modify_accepted q (rts_attr (rd_be s)) rts_mask
    {| qn_state := IBV_QPS_RTR;
       qn_attr := apply_attr (apply_attr (qn_attr now) init_attr init_mask) (rtr_attr (rd_be s) remote) rtr_mask |} s2 Hn)
    as (s3 & R3 & S3 & Q3); [by rewrite Q2, lookup_insert_eq|by vm_compute|].
  exists s3. split; [|split; [by eapply same_apart_trans, same_apart_trans|]].
  - unfold connect. rewrite (run_bind _ _ s tt s1), (run_bind _ _ s1 tt s2).
    + unfold modify_qp_rtr_to_rts, modify_qp_dispatch, field. rewrite !run_gets.
      by rewrite (sa_be _ _ S2), (sa_be _ _ S1), Hf, (run_bind _ _ _ _ _ R3).
    + unfold modify_qp_init_to_rtr, modify_qp_dispatch, field. rewrite !run_gets.
      by rewrite (sa_be _ _ S1), Hf, (run_bind _ _ _ _ _ R2).
    + unfold modify_qp_reset_to_init, modify_qp_dispatch, field. rewrite run_gets.
      by rewrite Hf, (run_bind _ _ _ _ _ R1).
  - by rewrite Q3, Q2, Q1, !insert_insert_eq.
Qed.

Lemma init_refused q now s :
  nic_exact -> be_ptr (rd_be s) F_qp = q -> rd_qps s !! q = Some now ->
  qn_state now <> IBV_QPS_RESET -> qn_state now <> IBV_QPS_INIT ->
  exists s', modify_qp_reset_to_init s = (None, s').
Proof.
  intros Hn Hf Hq H1 H2.
  destruct (modify_refused q init_attr init_mask now s Hn Hq) as (rc & s1 & R1 & Hrc);
    [destruct (qn_state now); by vm_compute|].
  unfold modify_qp_reset_to_init, modify_qp_dispatch, field. rewrite run_gets, Hf, (run_bind _ _ _ _ _ R1).
  unfold check_zero. rewrite (proj2 (Z.eqb_neq rc 0) Hrc). by exists s1.
Qed.

(** With such a NIC [connect_to_peer] takes a queue pair that was never
    connected to RTS, with the peer's number, identifier and sequence number in
    it and nothing else of the process changed; called again on a queue pair
    that is connected already, or in error, it ends the process. *)
Theorem connect_to_peer_outcome remote q now s :
  nic_exact -> q <> NULL -> be_ptr (rd_be s) F_qp = q -> rd_qps s !! q = Some now ->
  if bool_decide (qn_state now = IBV_QPS_RESET \/ qn_state now = IBV_QPS_INIT)
  then exists s', connect_to_peer remote s = (Some 0, s') /\ same_apart s s'
    /\ rd_qps s' = <[q := {| qn_state := IBV_QPS_RTS; qn_attr := connected_attr (rd_be s) remote |}]> (rd_qps s)
  else exists s', connect_to_peer remote s = (None, s').
Proof.
  intros Hn Hnull Hf Hq. unfold connect_to_peer, field. rewrite run_gets, Hf.
  rewrite (proj2 (Z.eqb_neq q NULL) Hnull).
  case_bool_decide as Hst.
  - destruct (connect_accepted remote q now s Hn Hf Hq Hst) as (s1 & R & S1 & Q). exists s1.
    by rewrite (run_bind _ _ _ _ _ R).
  - destruct (init_refused q now s Hn Hf Hq) as (s1 & R); [tauto..|]. exists s1.
    unfold connect. unfold rbind at 1 2, bind. by rewrite R.
Qed.

(** The two-node step with a copy to the GPU that works: the queue pair is
    connected, and the GPU's copy has the peer's key. *)
Lemma connect_two_done m q now qp s :
  nic_exact -> (forall v, ve_hipMemcpy v = 0) -> q <> NULL -> be_ptr (rd_be s) F_qp = q -> rd_qps s !! q = Some now ->
  qn_state now = IBV_QPS_RESET \/ qn_state now = IBV_QPS_INIT ->
  be_ptr (rd_be s) F_host_qp <> NULL -> be_ptr (rd_be s) F_gpu_qp <> NULL -> be_host_qp (rd_be s) = Some qp ->
  exists s', connect_two m s = (Some 0, s')
    /\ rd_qps s' !! q = Some {| qn_state := IBV_QPS_RTS; qn_attr := connected_attr (rd_be s) (peer_dest m) |}
    /\ be_gpu_qp (rd_be s') = Some (with_keys (q_lkey qp) (normalize_qp_key (be_provider (rd_be s)) (em_rkey m)) qp).
Proof.
  intros Hn Hcopy Hnull Hf Hq Hst Hh Hg Hqp.
  destruct (connect_accepted (peer_dest m) q now s Hn Hf Hq Hst) as (s1 & R & [S1 _ _ _] & Q).
  unfold connect_two, connect_to_peer, field. unfold rbind at 1, bind. rewrite run_gets, Hf.
  rewrite (proj2 (Z.eqb_neq q NULL) Hnull), (run_bind _ _ _ _ _ R). cbn [rret ret Z.eqb negb].
  unfold set_remote_rkey, field. rewrite !run_gets, S1.
  rewrite (proj2 (Z.eqb_neq _ NULL) Hh), (proj2 (Z.eqb_neq _ NULL) Hg). cbn [orb].
  unfold provider, on_host_qp, copy_qp, rbind, bind, rgets, rmodify, lift, consult, gets, modify, ret, rret. cbn.
  rewrite Hcopy. cbn. eexists. split; [done|]. cbn. rewrite Q, S1, Hqp, lookup_insert_eq. done.
Qed.
End Connect.

(** ** Two nodes *)

(** What a node is before it talks to its peer: queues created, GPU's copy set
    up, data registered, not connected. *)
Record node_ready {VE : VerbsEnv} (s : rdma) (qp : QueuePair) : Prop := {
  nr_exact : nic_exact;
  nr_copies v : ve_hipMemcpy v = 0;
  nr_qp : be_ptr (rd_be s) F_qp <> NULL;
  nr_host : be_ptr (rd_be s) F_host_qp <> NULL;
  nr_gpu : be_ptr (rd_be s) F_gpu_qp <> NULL;
  nr_host_qp : be_host_qp (rd_be s) = Some qp;
  nr_now now : rd_qps s !! be_ptr (rd_be s) F_qp = Some now ->
    qn_state now = IBV_QPS_RESET \/ qn_state now = IBV_QPS_INIT;
  nr_known : is_Some (rd_qps s !! be_ptr (rd_be s) F_qp);
  nr_rkey : 0 <= be_rkey (rd_be s) < 2 ^ 32;
  nr_gid : length (be_local_gid (rd_be s)) = 16%nat
}.

(** A node's queue pair points at the other's: its number, its identifier, and
    sequence numbers that agree in this direction. *)
Definition points_to (a b : qp_now) (b_num : Z) (b_gid : gid) : Prop :=
  qn_state a = IBV_QPS_RTS /\ qa_dest_qp_num (qn_attr a) = u32 b_num
  /\ ah_dgid (qa_ah (qn_attr a)) = b_gid /\ qa_sq_psn (qn_attr a) = qa_rq_psn (qn_attr b).

Definition node_message {VE : VerbsEnv} (s : rdma) (reg_buf : Z) : ExchangeMsg :=
  two_node_message (get_local_dest_info (rd_be s)) (be_rkey (rd_be s)) reg_buf.

Lemma node_message_ok {VE : VerbsEnv} s qp buf : node_ready s qp -> 0 <= buf < 2 ^ 64 -> msg_ok (node_message s buf).
Proof.
  intros [] Hb. unfold node_message, two_node_message, msg_ok. cbn.
  repeat split; try apply Z.mod_pos_bound; try lia; done.
Qed.

(** One side of it. *)
Lemma side_connected {VE : VerbsEnv} s qp m :
  node_ready s qp ->
  exists s' now', connect_two m s = (Some 0, s')
    /\ rd_qps s' !! be_ptr (rd_be s) F_qp = Some now' /\ qn_state now' = IBV_QPS_RTS
    /\ qn_attr now' = connected_attr (rd_be s) (peer_dest m)
    /\ option_map q_rkey (be_gpu_qp (rd_be s')) = Some (normalize_qp_key (be_provider (rd_be s)) (em_rkey m)).
Proof.
  intros []. destruct nr_known0 as [now Hnow].
  destruct (connect_two_done m _ now qp s nr_exact0 nr_copies0 nr_qp0 eq_refl Hnow (nr_now0 _ Hnow) nr_host0 nr_gpu0
    nr_host_qp0) as (s' & R & Q & G).
  exists s'. eexists. rewrite R, Q, G. by repeat split.
Qed.
