(* ===== verification/RdmaHeld.v ===== *)
(** * What the RDMA backend holds

    The promises of verbs ([VerbsEnvOk]) and the account of the backend: what
    the process holds is what it held before, what the members of the object
    name, the dma-buf descriptors of the wrapper, and what was lost
    ([account]).  Each call of the wrapper and each step of the set-up of
    mlx5 and ionic keeps it. *)

From S2P Require Import Prelude Uapi Kernel State HostEnv HostMem HostModule RdmaEnv RdmaGpu.

Open Scope Z_scope.

(** A handle that is handed out names nothing that is held; a new protection
    domain has nothing on it, and one that has nothing on it can be given back;
    nothing is at the null pointer, and a failing [hipMalloc] returns it. *)
Class VerbsEnvOk (E : HostEnv) (VE : VerbsEnv) := {
  vo_list v l d : ve_device_list v = Some (l, d) -> (KDeviceList, l, 0) ∉ v.1;
  vo_open v d : ve_open v d <> NULL -> (KContext, ve_open v d, 0) ∉ v.1;
  vo_pd v c : ve_alloc_pd v c <> NULL ->
    (KPd, ve_alloc_pd v c, 0) ∉ v.1 /\ ve_on KPd (ve_alloc_pd v c) = NULL
    /\ forall k x n, (k, x, n) ∈ v.1 -> ve_on k x <> ve_alloc_pd v c;
  vo_parent v c : ve_alloc_parent_domain v c <> NULL -> (KPd, ve_alloc_parent_domain v c, 0) ∉ v.1;
  vo_cq v c n : ve_create_cq v c n <> NULL -> (KCq, ve_create_cq v c n, 0) ∉ v.1;
  vo_ionic_cq v p n : ve_ionic_create_cq v p n <> NULL -> (KCq, ve_ionic_create_cq v p n, 0) ∉ v.1;
  vo_qp v a : ve_create_qp v a <> NULL -> (KQp, ve_create_qp v a, 0) ∉ v.1;
  vo_mr v pd p n a : ve_reg_mr v pd p n a <> NULL -> (KMr, ve_reg_mr v pd p n a, 0) ∉ v.1;
  vo_dmabuf_mr v pd o n p fd a : ve_reg_dmabuf_mr v pd o n p fd a <> NULL ->
    (KMr, ve_reg_dmabuf_mr v pd o n p fd a, 0) ∉ v.1;
  vo_on_pd k x : k <> KMr -> k <> KQp -> k <> KPd -> ve_on k x = NULL;
  vo_dealloc v p : p <> NULL -> (KPd, p, 0) ∈ v.1 -> (forall k x n, (k, x, n) ∈ v.1 -> ve_on k x <> p) ->
    ve_dealloc_pd v p = 0;
  vo_lock v p n q : ve_lock_to_pool v p n = (0, q) -> p <> NULL /\ RLocked p ∉ v.1;
  vo_register v n : he_hipHostRegister v NULL n <> 0;
  vo_malloc_null v n : fst (he_hipMalloc v n) <> 0 -> snd (he_hipMalloc v n) = NULL
}.

(** ** Counting *)

Definition occ (r : host_res) (l : list host_res) : Z := sumZ (fun x => ind (bool_decide (x = r))) l.

Lemma occ_app r l1 l2 : occ r (l1 ++ l2) = occ r l1 + occ r l2.
Proof. apply sumZ_app. Qed.
Lemma occ_nonneg r l : 0 <= occ r l.
Proof. apply sumZ_nonneg. intros x. apply ind_nonneg. Qed.
Lemma occ_perm r l1 l2 : l1 ≡ₚ l2 -> occ r l1 = occ r l2.
Proof. apply sumZ_perm. Qed.
Lemma occ_cons r x l : occ r (x :: l) = ind (bool_decide (x = r)) + occ r l.
Proof. done. Qed.
Lemma occ_pos r l : 0 < occ r l -> r ∈ l.
Proof.
  unfold occ. induction l as [|x l IH]; cbn; [lia|]. case_bool_decide as Ex; cbn [ind].
  - intros _. subst. by left.
  - intros H. right. apply IH. lia.
Qed.
Lemma occ_elem r l : r ∈ l -> 0 < occ r l.
Proof.
  induction l as [|x l IH]; [by intros ?%not_elem_of_nil|]. rewrite occ_cons. pose proof (occ_nonneg r l).
  intros [<-|H']%elem_of_cons; [rewrite bool_decide_eq_true_2 by done; cbn [ind]; lia|].
  pose proof (ind_nonneg (bool_decide (x = r))). specialize (IH H'). lia.
Qed.

(** The process holds [B] and [l], each once, and gave nothing back in vain. *)
Record holds (B : gset host_res) (l : list host_res) (h : host) : Prop := {
  ho_count r : ind (bool_decide (r ∈ ho_held h)) = ind (bool_decide (r ∈ B)) + occ r l;
  ho_fine : ho_bad h = false
}.

Lemma holds_perm B l l' h : l ≡ₚ l' -> holds B l h -> holds B l' h.
Proof. intros P [H F]. split; [|done]. intros r. by rewrite (H r), (occ_perm r l l' P). Qed.

Lemma holds_in B l h r : holds B l h -> r ∈ l -> r ∈ ho_held h.
Proof.
  intros [H _] Hr. specialize (H r). apply occ_elem in Hr. pose proof (ind_nonneg (bool_decide (r ∈ B))).
  destruct (decide (r ∈ ho_held h)) as [|Hn]; [done|]. rewrite (bool_decide_eq_false_2 _ Hn) in H. cbn [ind] in H. lia.
Qed.

Lemma holds_base B l h r : holds B l h -> r ∈ B -> r ∈ ho_held h.
Proof.
  intros [H _] Hr. specialize (H r). rewrite (bool_decide_eq_true_2 (r ∈ B)) in H by done.
  pose proof (occ_nonneg r l).
  destruct (decide (r ∈ ho_held h)) as [|Hn]; [done|]. rewrite (bool_decide_eq_false_2 _ Hn) in H. cbn [ind] in H. lia.
Qed.

Lemma holds_only B l h r : holds B l h -> r ∈ ho_held h -> r ∈ B \/ r ∈ l.
Proof.
  intros [H _] Hr. specialize (H r). rewrite bool_decide_eq_true_2 in H by done.
  case_bool_decide; [by left|]. right. apply occ_pos. cbn [ind] in H. lia.
Qed.

Lemma holds_nothing h : ho_bad h = false -> holds (ho_held h) [] h.
Proof. intros Hb. split; [|done]. intros r. cbn. lia. Qed.

Lemma holds_nil B h : holds B [] h -> ho_held h = B.
Proof.
  intros [H _]. apply set_eq. intros r. specialize (H r). cbn in H.
  repeat case_bool_decide; cbn [ind] in H; (done || lia).
Qed.

Lemma holds_new B l h h' r :
  holds B l h -> r ∉ ho_held h -> ho_held h' = {[ r ]} ∪ ho_held h -> ho_bad h' = ho_bad h ->
  holds B (r :: l) h'.
Proof.
  intros [H F] Hr Hh Hb. split; [|congruence]. intros x. rewrite Hh, occ_cons. specialize (H x).
  destruct (decide (r = x)) as [<-|Hne].
  - rewrite (bool_decide_eq_true_2 (r = r)) by done. rewrite (bool_decide_eq_false_2 (r ∈ ho_held h)) in H by done.
    rewrite bool_decide_eq_true_2 by set_solver. cbn [ind] in *. lia.
  - rewrite (bool_decide_eq_false_2 (r = x)) by done.
    rewrite (bool_decide_ext (x ∈ {[ r ]} ∪ ho_held h) (x ∈ ho_held h)) by set_solver. cbn [ind]. lia.
Qed.

Lemma holds_old B l h h' r :
  holds B (r :: l) h -> ho_held h' = ho_held h ∖ {[ r ]} -> ho_bad h' = ho_bad h -> holds B l h'.
Proof.
  intros [H F] Hh Hb. split; [|congruence]. intros x. rewrite Hh. specialize (H x). rewrite occ_cons in H.
  destruct (decide (r = x)) as [<-|Hne].
  - rewrite (bool_decide_eq_true_2 (r = r)) in H by done. rewrite bool_decide_eq_false_2 by set_solver.
    pose proof (occ_nonneg r l). pose proof (ind_nonneg (bool_decide (r ∈ B))).
    destruct (bool_decide (r ∈ ho_held h)); unfold ind in *; destruct (bool_decide (r ∈ B)); lia.
  - rewrite (bool_decide_eq_false_2 (r = x)) in H by done.
    rewrite (bool_decide_ext (x ∈ ho_held h ∖ {[ r ]}) (x ∈ ho_held h)) by set_solver. cbn [ind] in H. lia.
Qed.

Lemma holds_same B l h h' : holds B l h -> ho_held h' = ho_held h -> ho_bad h' = ho_bad h -> holds B l h'.
Proof. intros [H F] Hh Hb. split; [intros r; by rewrite Hh|congruence]. Qed.

(** After a call of the library. *)
Lemma holds_after B l h h' V : holds B l h -> after h h' (ho_held h) V -> holds B l h'.
Proof. intros H []. by eapply holds_same. Qed.
Lemma holds_after_new B l h h' r V :
  holds B l h -> r ∉ ho_held h -> after h h' ({[ r ]} ∪ ho_held h) V -> holds B (r :: l) h'.
Proof. intros H Hr []. by eapply holds_new. Qed.
Lemma holds_after_old B l h h' r V : holds B (r :: l) h -> after h h' (ho_held h ∖ {[ r ]}) V -> holds B l h'.
Proof. intros H []. by eapply holds_old. Qed.

(** ** What the object names *)

Definition kind (F : bfield) : res_kind :=
  match F with
  | F_context => KContext
  | F_pd | F_pd_parent => KPd
  | F_cq => KCq
  | F_qp => KQp
  | F_heap_mr => KMr
  | F_host_qp => KMalloc
  | F_gpu_qp => KDevice
  | F_mlx5_sq | F_mlx5_cq | F_mlx5_sq_dbr | F_mlx5_cq_dbr => KRegistered
  | F_mlx5_bf => KLocked
  end.

Definition own (k : res_kind) (p : ptr) : list host_res := if is_null p then [] else [(k, p, 0)].

Definition owned_qp (q : option QueuePair) : list host_res :=
  match q with
  | None => []
  | Some q => own KDevice (q_nonfetching q) ++ own KDevice (q_fetching q)
              ++ own KMr (q_mr_nonfetching q) ++ own KMr (q_mr_fetching q)
  end.

Definition members (b : Backend) : list host_res := concat ((fun F => own (kind F) (be_ptr b F)) <$> all_fields).
Definition descriptors (m : gmap ptr Z) : list host_res := (fun e => RDmabuf e.2) <$> map_to_list m.

Lemma own_null k : own k NULL = [].
Proof. done. Qed.
Lemma own_some k p : p <> NULL -> own k p = [(k, p, 0)].
Proof. intros H. unfold own. by rewrite (proj2 (Z.eqb_neq p NULL)). Qed.

Section Concat.
Context {A : Type} (f g : bfield -> list A).

Lemma concat_same l : (forall F, F ∈ l -> f F = g F) -> concat (f <$> l) = concat (g <$> l).
Proof.
  induction l as [|F l IH]; intros H; [done|]. cbn. rewrite (H F) by left. f_equal. apply IH.
  intros G HG. apply H. by right.
Qed.

Lemma concat_one F l :
  NoDup l -> F ∈ l -> (forall G, G <> F -> f G = g G) -> g F = [] ->
  concat (f <$> l) ≡ₚ f F ++ concat (g <$> l).
Proof.
  induction l as [|G l IH]; intros Hn HF H Hg; [by apply not_elem_of_nil in HF|].
  inversion_clear Hn as [|?? Hnot Hn2]. rename Hn2 into Hn. cbn. apply elem_of_cons in HF as [<-|HF].
  - rewrite Hg. cbn. apply Permutation_app_head. rewrite (concat_same l); [done|].
    intros G HG. apply H. by intros ->.
  - rewrite (H G) by (intros ->; done). rewrite IH by done.
    rewrite !app_assoc. apply Permutation_app_tail, Permutation_app_comm.
Qed.
End Concat.

Lemma all_fields_nodup : NoDup all_fields.
Proof. apply (bool_decide_unpack _). by vm_compute. Qed.
Lemma all_fields_all F : F ∈ all_fields.
Proof. apply (bool_decide_unpack _). by destruct F. Qed.

(** A member that changes. *)
Lemma members_upd F p b : be_ptr b F = NULL -> members (upd_ptr F p b) ≡ₚ own (kind F) p ++ members b.
Proof.
  intros H. unfold members.
  rewrite (concat_one (fun G => own (kind G) (be_ptr (upd_ptr F p b) G)) (fun G => own (kind G) (be_ptr b G)) F);
    [|apply all_fields_nodup|apply all_fields_all| |by rewrite H].
  - cbn. by rewrite decide_True.
  - intros G HG. cbn. by rewrite decide_False.
Qed.

Lemma members_drop F b : members b ≡ₚ own (kind F) (be_ptr b F) ++ members (upd_ptr F NULL b).
Proof.
  unfold members.
  rewrite (concat_one (fun G => own (kind G) (be_ptr b G)) (fun G => own (kind G) (be_ptr (upd_ptr F NULL b) G)) F);
    [done|apply all_fields_nodup|apply all_fields_all| |].
  - intros G HG. cbn. by rewrite decide_False.
  - cbn. by rewrite decide_True.
Qed.

Lemma members_same b b' : (forall F, be_ptr b' F = be_ptr b F) -> members b' = members b.
Proof. intros H. apply concat_same. intros F _. by rewrite H. Qed.

Lemma members_null b : (forall F, be_ptr b F = NULL) -> members b = [].
Proof. intros H. unfold members. unfold all_fields. cbn. by rewrite !H. Qed.

(** ** The account *)

(** Besides the descriptors of the wrapper, which belong to regions in [R], the
    process holds [R]. *)
Record acct {VE : VerbsEnv} (B : gset host_res) (R : list host_res) (s : rdma) : Prop := {
  ac_holds : holds B (R ++ descriptors (rd_fds s)) (rd_host s);
  ac_fds mr fd : rd_fds s !! mr = Some fd ->
    ve_dmabuf = true /\ (KMr, mr, 0) ∈ R /\ 0 <= fd
}.

(** [R] is what the object names and [L], what was lost. *)
Definition account {VE : VerbsEnv} (B : gset host_res) (L : list host_res) (s : rdma) : Prop :=
  acct B (members (rd_be s) ++ owned_qp (be_host_qp (rd_be s)) ++ L) s.

(** ** Weakest preconditions where the process lives on *)

Definition wpr {A} (m : RM A) (Q : A -> rdma -> Prop) (s : rdma) : Prop :=
  match m s with (Some a, s') => Q a s' | (None, _) => True end.

Lemma wpr_ret {A} (a : A) (Q : A -> rdma -> Prop) s : Q a s -> wpr (rret a) Q s.
Proof. done. Qed.
Lemma wpr_abort {A} (Q : A -> rdma -> Prop) s : wpr abort Q s.
Proof. done. Qed.
Lemma wpr_bind {A B} (m : RM A) (f : A -> RM B) (Q : B -> rdma -> Prop) s :
  wpr m (fun a s1 => wpr (f a) Q s1) s -> wpr (rbind m f) Q s.
Proof. unfold wpr, rbind, bind. destruct (m s) as [[a|] s1]; [done|]. by cbn. Qed.
Lemma wpr_gets {A} (f : rdma -> A) (Q : A -> rdma -> Prop) s : Q (f s) s -> wpr (rgets f) Q s.
Proof. done. Qed.
Lemma wpr_modify f (Q : unit -> rdma -> Prop) s : Q tt (f s) -> wpr (rmodify f) Q s.
Proof. done. Qed.
Lemma wpr_lift {A} (m : HostM A) (Q : A -> rdma -> Prop) s :
  wp m (fun a h => Q a (set_host h s)) (rd_host s) -> wpr (lift m) Q s.
Proof. unfold wpr, lift, wp. by destruct (m (rd_host s)). Qed.
Lemma wpr_mono {A} (m : RM A) (P Q : A -> rdma -> Prop) s :
  wpr m P s -> (forall a s1, P a s1 -> Q a s1) -> wpr m Q s.
Proof. unfold wpr. destruct (m s) as [[a|] s1]; auto. Qed.
Lemma wpr_check_zero e (Q : unit -> rdma -> Prop) s : (e = 0 -> Q tt s) -> wpr (check_zero e) Q s.
Proof. intros H. unfold check_zero. destruct (Z.eqb_spec e 0); [by apply H|done]. Qed.
Lemma wpr_check_nnull p (Q : unit -> rdma -> Prop) s : (p <> NULL -> Q tt s) -> wpr (check_nnull p) Q s.
Proof. intros H. unfold check_nnull. destruct (Z.eqb_spec p NULL); [done|by apply H]. Qed.

(** What a function of the backend may change: these members. *)
Record only (Fs : list bfield) (s s' : rdma) : Prop := {
  on_ptr G : G ∉ Fs -> be_ptr (rd_be s') G = be_ptr (rd_be s) G;
  on_provider : be_provider (rd_be s') = be_provider (rd_be s);
  on_config : be_config (rd_be s') = be_config (rd_be s);
  on_owned : owned_qp (be_host_qp (rd_be s')) = owned_qp (be_host_qp (rd_be s));
  on_none : be_host_qp (rd_be s) = None -> be_host_qp (rd_be s') = None
}.

Lemma only_refl Fs s : only Fs s s.
Proof. by split. Qed.
Lemma only_trans Fs s s1 s2 : only Fs s s1 -> only Fs s1 s2 -> only Fs s s2.
Proof. intros [P1 V1 C1 O1 N1] [P2 V2 C2 O2 N2]. split; [|congruence..|auto]. intros G HG. by rewrite P2, P1. Qed.
Lemma only_weaken Fs Gs s s' : Fs ⊆ Gs -> only Fs s s' -> only Gs s s'.
Proof. intros H [P V C O N]. split; [|done..]. intros G HG. apply P. by intros HF%H. Qed.

(** ** The calls of the wrapper *)

Section Rules.
Context {E : HostEnv} {EO : HostEnvOk E} {VE : VerbsEnv} {VO : VerbsEnvOk E VE} {B : gset host_res}.
Implicit Types (R L : list host_res) (s : rdma).

Lemma acct_perm R R' s : R ≡ₚ R' -> acct B R s -> acct B R' s.
Proof using.
  intros P [H F]. split; [eapply holds_perm, H; by rewrite P|]. intros mr fd Hm. rewrite <- P. by apply F.
Qed.

(** A state that differs in the object only. *)
Lemma acct_same R s s' : rd_host s' = rd_host s -> rd_fds s' = rd_fds s -> acct B R s -> acct B R s'.
Proof using. intros Hh Hf [H F]. split; rewrite ?Hh, ?Hf; done. Qed.

Lemma acct_in R s r : acct B R s -> r ∈ R -> r ∈ ho_held (rd_host s).
Proof using. intros [H _] Hr. eapply holds_in; [done|]. apply elem_of_app. by left. Qed.

(** What the process holds is nothing new. *)
Lemma acct_host R s h V :
  acct B R s -> after (rd_host s) h (ho_held (rd_host s)) V -> acct B R (set_host h s).
Proof using.
  intros [H F] A. split; cbn; [by eapply holds_after|done].
Qed.

Lemma acct_new R s h r V :
  acct B R s -> r ∉ ho_held (rd_host s) -> after (rd_host s) h ({[ r ]} ∪ ho_held (rd_host s)) V ->
  acct B (r :: R) (set_host h s).
Proof using.
  intros [H F] Hr A. split; cbn; [by eapply (holds_after_new _ (R ++ _))|].
  intros mr fd Hm. destruct (F mr fd Hm) as (? & ? & ?). split_and!; [done|by right|done].
Qed.

Lemma acct_old R s h r V :
  acct B (r :: R) s -> (forall fd, rd_fds s !! r.1.2 = Some fd -> r.1.1 <> KMr) ->
  after (rd_host s) h (ho_held (rd_host s) ∖ {[ r ]}) V -> acct B R (set_host h s).
Proof using.
  intros [H F] Hr A. split; cbn; [by eapply (holds_after_old _ (R ++ _))|].
  intros mr fd Hm. destruct (F mr fd Hm) as (? & Hin & ?). split_and!; [done| |done].
  apply elem_of_cons in Hin as [<-|Hin]; [|done]. by destruct (Hr fd Hm).
Qed.

(** The pieces of [R] in any order. *)
Definition quietly (s s' : rdma) : Prop := rd_be s' = rd_be s /\ rd_fds s' = rd_fds s.

Lemma wpr_host {A} (m : HostM A) (Q : A -> rdma -> Prop) s :
  wp m (fun a h => forall s', s' = set_host h s -> quietly s s' -> Q a s') (rd_host s) -> wpr (lift m) Q s.
Proof using.
  intros H. apply wpr_lift. eapply wp_mono; [exact H|]. intros a h HQ. by apply HQ.
Qed.

Lemma wpr_consult {A} (f : hview -> A) (Q : A -> rdma -> Prop) R s :
  acct B R s -> (forall s', quietly s s' -> acct B R s' -> Q (f (view (rd_host s))) s') -> wpr (lift (consult f)) Q s.
Proof using.
  intros HA HQ. apply wpr_host, wp_consult. intros h A' _ s' -> Hq. apply HQ; [done|]. by eapply acct_host.
Qed.

Lemma wpr_give r (Q : unit -> rdma -> Prop) R s :
  acct B (r :: R) s -> (forall fd, rd_fds s !! r.1.2 = Some fd -> r.1.1 <> KMr) ->
  (forall s', quietly s s' -> acct B R s' -> Q tt s') -> wpr (lift (give_back r)) Q s.
Proof using.
  intros HA Hr HQ. apply wpr_host, wp_give_back; [by eapply acct_in; [|left]|].
  intros h A' _ s' -> Hq. apply HQ; [done|]. by eapply acct_old.
Qed.

Lemma wpr_obtain k f (Q : ptr -> rdma -> Prop) R s :
  acct B R s -> (f (view (rd_host s)) <> NULL -> (k, f (view (rd_host s)), 0) ∉ ho_held (rd_host s)) ->
  (forall s', quietly s s' -> acct B (own k (f (view (rd_host s))) ++ R) s' -> Q (f (view (rd_host s))) s') ->
  wpr (obtain k f) Q s.
Proof using.
  intros HA Hf HQ. unfold obtain. apply wpr_host, wp_bind, wp_consult. intros h1 A1 _.
  set (p := f (view (rd_host s))) in *. pose proof (af_held _ _ _ _ A1) as H1. apply wp_bind.
  destruct (Z.eqb_spec p NULL) as [->|Hp].
  - apply wp_ret, wp_ret. intros s' -> Hq. apply HQ; [done|]. by eapply acct_host.
  - apply wp_acquire. intros h2 A2 _. apply wp_ret. intros s' -> Hq. apply HQ; [done|].
    rewrite own_some by done. rewrite H1 in A2. eapply (acct_new R); [done|by apply Hf|by eapply after_trans].
Qed.

(** *** Verbs *)

Lemma wpr_device_list (Q : option (ptr * list ptr) -> rdma -> Prop) R s :
  acct B R s ->
  (forall s', quietly s s' -> acct B R s' -> Q None s') ->
  (forall l d s', quietly s s' -> acct B ((KDeviceList, l, 0) :: R) s' -> Q (Some (l, d)) s') ->
  wpr ibv_get_device_list Q s.
Proof using VO.
  intros HA H0 H1. unfold ibv_get_device_list. apply wpr_host, wp_bind, wp_consult. intros h1 A1 _.
  pose proof (af_held _ _ _ _ A1) as Hh. destruct (ve_device_list (view (rd_host s))) as [[l d]|] eqn:El.
  - apply wp_bind, wp_acquire. intros h2 A2 _. apply wp_ret. intros s' -> Hq. apply H1; [done|].
    rewrite Hh in A2. eapply (acct_new R); [done|by apply (vo_list (view (rd_host s)) _ d)|by eapply after_trans].
  - apply wp_ret. intros s' -> Hq. apply H0; [done|]. by eapply acct_host.
Qed.

Lemma wpr_destroy_qp q (Q : unit -> rdma -> Prop) R s :
  acct B ((KQp, q, 0) :: R) s ->
  (forall s', quietly s s' -> acct B R s' -> Q tt s') -> wpr (ibv_destroy_qp q) Q s.
Proof using.
  intros HA HQ. apply wpr_bind. eapply wpr_give; [exact HA|done|]. intros s1 [] H1. apply wpr_modify, HQ; [done|].
  by eapply acct_same; [..|exact H1].
Qed.

Lemma wpr_create_qp a (Q : ptr -> rdma -> Prop) R s :
  acct B R s -> (forall q s', quietly s s' -> acct B (own KQp q ++ R) s' -> Q q s') -> wpr (ibv_create_qp_ex a) Q s.
Proof using VO.
  intros HA HQ. apply wpr_bind. eapply wpr_obtain; [exact HA|apply vo_qp|]. intros s1 [] H1.
  apply wpr_bind. destruct (is_null _); [apply wpr_ret, wpr_ret; by apply HQ|].
  apply wpr_modify, wpr_ret, HQ; [done|]. by eapply acct_same; [..|exact H1].
Qed.

Lemma wpr_modify_qp q a m (Q : Z -> rdma -> Prop) R s :
  acct B R s -> (forall rc s', quietly s s' -> acct B R s' -> Q rc s') -> wpr (ibv_modify_qp q a m) Q s.
Proof using.
  intros HA HQ. apply wpr_bind, wpr_gets. destruct (rd_qps s !! q) as [now|]; [|apply wpr_ret; by apply HQ].
  apply wpr_bind. eapply wpr_consult; [exact HA|]. intros s1 [] H1. apply wpr_bind.
  destruct (_ =? 0); [apply wpr_modify, wpr_ret|apply wpr_ret, wpr_ret]; apply HQ; try done.
  by eapply acct_same; [..|exact H1].
Qed.

(** A protection domain that cannot be given back stays. *)
Lemma wpr_dealloc_pd p (Q : Z -> rdma -> Prop) R s :
  acct B ((KPd, p, 0) :: R) s ->
  (forall s', quietly s s' -> acct B R s' -> Q 0 s') ->
  (forall rc s', rc <> 0 -> quietly s s' -> acct B ((KPd, p, 0) :: R) s' ->
     (p <> NULL -> ~ forall k x n, (k, x, n) ∈ ho_held (rd_host s) -> ve_on k x <> p) -> Q rc s') ->
  wpr (ibv_dealloc_pd p) Q s.
Proof using VO.
  intros HA H0 H1. unfold ibv_dealloc_pd. apply wpr_host, wp_bind, wp_consult. intros h1 A1 _.
  pose proof (af_held _ _ _ _ A1) as Hh. pose proof (acct_in _ _ _ HA ltac:(left)) as Hin. apply wp_bind.
  destruct (Z.eqb_spec (ve_dealloc_pd (view (rd_host s)) p) 0) as [E0|Hne].
  - apply wp_give_back; [by rewrite Hh|]. intros h2 A2 _. apply wp_ret. intros s' -> Hq. rewrite E0. apply H0; [done|].
    rewrite Hh in A2. eapply acct_old; [exact HA|done|by eapply after_trans].
  - apply wp_ret, wp_ret. intros s' -> Hq. apply H1; [done|done|by eapply acct_host|].
    intros Hp Hno. by apply Hne, vo_dealloc.
Qed.
(** *** Memory regions *)

Lemma wpr_reg_mr_host pd a n acc (Q : ptr -> rdma -> Prop) R s :
  acct B R s -> (forall mr s', quietly s s' -> acct B (own KMr mr ++ R) s' -> Q mr s') ->
  wpr (reg_mr_host pd a n acc) Q s.
Proof using VO.
  intros HA HQ. eapply wpr_obtain; [exact HA|apply vo_mr|]. intros s' Hq H'. by apply HQ.
Qed.

Lemma descriptors_insert m mr fd : m !! mr = None -> descriptors (<[mr := fd]> m) ≡ₚ RDmabuf fd :: descriptors m.
Proof using. intros H. unfold descriptors. by rewrite map_to_list_insert. Qed.

Lemma descriptors_delete m mr fd : m !! mr = Some fd -> descriptors m ≡ₚ RDmabuf fd :: descriptors (delete mr m).
Proof using. intros H. rewrite <- (insert_delete_id m mr fd H) at 1. by rewrite descriptors_insert by apply lookup_delete_eq. Qed.

(** Where the region could not be made the exported descriptor is lost. *)
Definition lost_fds (X : list host_res) : Prop := Forall (fun r => r.1.1 = KDmabuf) X.

Lemma wpr_reg_mr pd a n acc (Q : ptr -> rdma -> Prop) R s :
  acct B R s ->
  (forall mr s', mr <> NULL -> rd_be s' = rd_be s -> acct B ((KMr, mr, 0) :: R) s' -> Q mr s') ->
  (forall X s', lost_fds X -> rd_be s' = rd_be s -> acct B (X ++ R) s' -> Q NULL s') ->
  wpr (reg_mr pd a n acc) Q s.
Proof using EO VO.
  intros HA HQ H0. unfold reg_mr. destruct ve_dmabuf eqn:Ed.
  - apply wpr_bind, wpr_host, exportDmabuf_spec.
    + intros st fd off h Hst A1 s1 -> [Hb _]. cbn [HSA_STATUS_SUCCESS]. unfold HSA_STATUS_SUCCESS.
      rewrite (proj2 (Z.eqb_neq st 0) Hst). apply wpr_ret, (H0 []); [constructor|done|]. by eapply acct_host.
    + intros fd off h Hfd Hn A1 s1 -> [Hb Hf]. cbn [Z.eqb negb HSA_STATUS_SUCCESS].
      pose proof (acct_new _ _ _ _ _ HA Hn A1) as H1. apply wpr_bind. eapply wpr_obtain; [exact H1|apply vo_dmabuf_mr|].
      set (mr := ve_reg_dmabuf_mr _ _ _ _ _ _ _). intros s2 [Hb2 Hf2] H2. apply wpr_bind.
      destruct (Z.eqb_spec mr NULL) as [->|Hmr].
      * apply wpr_ret, wpr_ret, (H0 [RDmabuf fd]); [by repeat constructor|congruence|done].
      * rewrite own_some in H2 by done. apply wpr_modify, wpr_ret, HQ; [done|cbn; congruence|].
        assert (Hnone : rd_fds s2 !! mr = None).
        { destruct (rd_fds s2 !! mr) as [fd'|] eqn:Em; [|done]. exfalso. rewrite Hf2 in Em.
          destruct (ac_fds _ _ _ H1 _ _ Em) as (_ & Hin & _). apply (acct_in _ _ _ H1) in Hin. revert Hin.
          by apply vo_dmabuf_mr. }
        destruct H2 as [Hh Hfds]. split; cbn.
        -- eapply holds_perm, Hh. rewrite descriptors_insert by done. cbn. solve_Permutation.
        -- intros mr' fd'. destruct (decide (mr' = mr)) as [->|Hne].
           ++ rewrite lookup_insert_eq. intros [= <-]. split_and!; [done|by left|done].
           ++ rewrite lookup_insert_ne by done. intros Hm. destruct (Hfds _ _ Hm) as (? & Hin & ?).
              split_and!; [done| |done]. cbn in Hin. apply elem_of_cons in Hin as [->|Hin]; [by left|].
              apply elem_of_cons in Hin as [|Hin]; [done|by right].
  - eapply wpr_reg_mr_host; [exact HA|]. intros mr s1 [Hb _] H1. destruct (decide (mr = NULL)) as [->|Hmr].
    + by apply (H0 []); [constructor|..].
    + apply HQ; [done|done|]. by rewrite own_some in H1.
Qed.

Lemma wpr_dereg_mr mr (Q : unit -> rdma -> Prop) R s :
  acct B ((KMr, mr, 0) :: R) s -> (forall s', rd_be s' = rd_be s -> acct B R s' -> Q tt s') -> wpr (dereg_mr mr) Q s.
Proof using.
  intros HA HQ. unfold dereg_mr. apply wpr_bind.
  assert (Hlast : forall s1, rd_be s1 = rd_be s -> rd_fds s1 !! mr = None -> acct B ((KMr, mr, 0) :: R) s1 ->
    wpr (lift (give_back (KMr, mr, 0))) Q s1).
  { intros s1 Hb Hn H1. eapply wpr_give; [exact H1|by intros fd; cbn; rewrite Hn|].
    intros s2 [Hb2 _] H2. apply HQ; [congruence|done]. }
  destruct (rd_fds s !! mr) as [fd|] eqn:Em.
  - destruct (ac_fds _ _ _ HA _ _ Em) as (-> & Hin & Hfd). apply wpr_bind, wpr_gets. cbn beta. rewrite Em.
    pose proof (ac_holds _ _ _ HA) as Hh. pose proof (descriptors_delete _ _ _ Em) as Hd.
    apply wpr_bind, wpr_host, closeDmabuf_spec; [done| |].
    { eapply holds_in; [exact Hh|]. rewrite Hd. apply elem_of_app. right. by left. }
    intros h A1 s1 -> [Hb _]. apply wpr_modify, Hlast; cbn; [done|apply lookup_delete_eq|].
    split; cbn.
    + eapply (holds_after_old _ _ (rd_host s) h (RDmabuf fd)); [|exact A1]. eapply holds_perm, Hh.
      rewrite Hd. solve_Permutation.
    + intros mr' fd'. destruct (decide (mr' = mr)) as [->|Hne]; [by rewrite lookup_delete_eq|].
      rewrite lookup_delete_ne by done. intros Hm. by apply (ac_fds _ _ _ HA).
  - destruct ve_dmabuf; [apply wpr_bind, wpr_gets; cbn beta; rewrite Em|]; apply wpr_ret; by apply Hlast.
Qed.
(** *** Memory *)

Lemma wpr_lift_bind {A C} (m : HostM A) (f : A -> HostM C) (Q : C -> rdma -> Prop) s :
  wpr (lift m) (fun a s1 => wpr (lift (f a)) Q s1) s -> wpr (lift (bind m f)) Q s.
Proof using.
  unfold wpr, lift, bind. destruct (m (rd_host s)) as [a h]. cbn. by destruct (f a h).
Qed.

Lemma wpr_lift_ret {A} (a : A) (Q : A -> rdma -> Prop) s : Q a (set_host (rd_host s) s) -> wpr (lift (ret a)) Q s.
Proof using. done. Qed.

Lemma set_host_id s : set_host (rd_host s) s = s.
Proof using. by destruct s. Qed.

Lemma wpr_register p n (Q : Z -> rdma -> Prop) R s :
  acct B R s ->
  (forall s', p <> NULL -> quietly s s' -> acct B (RRegistered p :: R) s' -> Q 0 s') ->
  (forall rc s', rc <> 0 -> quietly s s' -> acct B R s' -> Q rc s') -> wpr (lift (hipHostRegister p n)) Q s.
Proof using EO VO.
  intros HA H0 H1. apply wpr_host. unfold hipHostRegister. apply wp_bind, wp_consult. intros h1 A1 _.
  pose proof (af_held _ _ _ _ A1) as Hh. apply wp_bind.
  destruct (Z.eqb_spec (he_hipHostRegister (view (rd_host s)) p n) 0) as [E0|Hne].
  - apply wp_acquire. intros h2 A2 _. apply wp_ret. intros s' -> Hq. rewrite E0. rewrite Hh in A2. apply H0; [|done|].
    + intros ->. by apply (vo_register (view (rd_host s)) n).
    + eapply acct_new; [exact HA|by apply (he_register_once (view (rd_host s)) _ n)|by eapply after_trans].
  - apply wp_ret, wp_ret. intros s' -> Hq. apply H1; [done|done|by eapply acct_host].
Qed.

Lemma wpr_unregister p (Q : Z -> rdma -> Prop) R s :
  acct B (RRegistered p :: R) s -> (forall s', quietly s s' -> acct B R s' -> Q 0 s') ->
  wpr (lift (hipHostUnregister p)) Q s.
Proof using EO.
  intros HA HQ. apply wpr_host, wp_hipHostUnregister.
  - intros h _ A1 _ s' -> Hq. apply HQ; [done|]. by eapply acct_old.
  - intros rc h _ Hn. exfalso. apply Hn. by eapply acct_in; [|left].
Qed.

Lemma wpr_lock p n (Q : Z * ptr -> rdma -> Prop) R s :
  acct B R s ->
  (forall q s', p <> NULL -> quietly s s' -> acct B (RLocked p :: R) s' -> Q (0, q) s') ->
  (forall rc q s', rc <> 0 -> quietly s s' -> acct B R s' -> Q (rc, q) s') -> wpr (lock_to_pool p n) Q s.
Proof using VO.
  intros HA H0 H1. unfold lock_to_pool. apply wpr_host, wp_bind, wp_consult. intros h1 A1 _.
  pose proof (af_held _ _ _ _ A1) as Hh. destruct (ve_lock_to_pool (view (rd_host s)) p n) as [rc q] eqn:El.
  destruct (Z.eqb_spec rc 0) as [->|Hne]; apply wp_bind.
  - destruct (vo_lock _ _ _ _ El) as [Hp Hl]. apply wp_acquire. intros h2 A2 _. apply wp_ret. intros s' -> Hq.
    rewrite Hh in A2. apply H0; [done|done|]. eapply acct_new; [exact HA|done|by eapply after_trans].
  - apply wp_ret, wp_ret. intros s' -> Hq. apply H1; [done|done|by eapply acct_host].
Qed.

Lemma wpr_alloc_device n (Q : Z * ptr -> rdma -> Prop) R s :
  acct B R s -> n <> 0 ->
  (forall st p s', quietly s s' -> (st = 0 -> p <> NULL) -> (st <> 0 -> p = NULL) ->
     acct B (own KDevice p ++ R) s' -> Q (st, p) s') ->
  wpr (lift (allocDeviceMemory n NULL XIO_DEVICE_MEM_HIP 0)) Q s.
Proof using EO VO.
  intros HA Hn HQ. unfold allocDeviceMemory. rewrite (proj2 (Z.eqb_neq n 0) Hn). cbn [flagged].
  change (flagged XIO_DEVICE_MEM_HIP XIO_DEVICE_MEM_VMEM) with false.
  change (flagged XIO_DEVICE_MEM_HIP XIO_DEVICE_MEM_HIP) with true. cbn beta iota.
  apply wpr_host, wp_bind. unfold hipMalloc. apply wp_bind, wp_consult. intros h1 A1 _.
  pose proof (af_held _ _ _ _ A1) as Hh. destruct (he_hipMalloc (view (rd_host s)) n) as [rc p] eqn:Em.
  destruct (Z.eqb_spec rc 0) as [->|Hne]; apply wp_bind.
  - apply wp_acquire. intros h2 A2 _. apply wp_ret, wp_ret. intros s' -> Hq. rewrite Hh in A2.
    pose proof (he_hipmalloc_fresh _ _ _ Em) as Hf. apply HQ; [done|intros _; apply Hf|done|].
    rewrite own_some by apply Hf. eapply (acct_new R); [exact HA|by apply fresh_not_in|by eapply after_trans].
  - apply wp_ret, wp_ret, wp_ret. intros s' -> Hq. rewrite (proj2 (Z.eqb_neq rc 0) Hne).
    pose proof (vo_malloc_null (view (rd_host s)) n) as Hp. rewrite Em in Hp. specialize (Hp Hne). cbn in Hp. subst p.
    apply HQ; [done|done|done|]. by eapply acct_host.
Qed.

Lemma wpr_free_device p (Q : unit -> rdma -> Prop) R s :
  acct B (own KDevice p ++ R) s -> (forall s', quietly s s' -> acct B R s' -> Q tt s') ->
  wpr (lift (freeDeviceMemory p XIO_DEVICE_MEM_HIP)) Q s.
Proof using.
  intros HA HQ. unfold freeDeviceMemory, own in *. destruct (is_null p).
  - apply wpr_host, wp_ret. intros s' -> Hq. apply HQ; [done|by eapply acct_host; [|apply after_refl]].
  - eapply wpr_give; [exact HA|done|done].
Qed.

Lemma wpr_free_plain p (Q : unit -> rdma -> Prop) R s :
  acct B (own KMalloc p ++ R) s -> (forall s', quietly s s' -> acct B R s' -> Q tt s') ->
  wpr (lift (freeHostMemory p XIO_HOST_MEM_PLAIN)) Q s.
Proof using.
  intros HA HQ. unfold freeHostMemory, own in *. destruct (is_null p).
  - apply wpr_host, wp_ret. intros s' -> Hq. apply HQ; [done|by eapply acct_host; [|apply after_refl]].
  - eapply wpr_give; [exact HA|done|done].
Qed.

Lemma wpr_free_pair h d (Q : unit -> rdma -> Prop) R s :
  acct B (own KMalloc h ++ own KDevice d ++ R) s -> (forall s', quietly s s' -> acct B R s' -> Q tt s') ->
  wpr (lift (freeDeviceMemoryPair h d)) Q s.
Proof using.
  intros HA HQ. apply wpr_lift_bind. eapply wpr_free_plain; [exact HA|]. intros s1 [Hb1 Hf1] H1.
  eapply wpr_free_device; [exact H1|]. intros s2 [Hb2 Hf2] H2. apply HQ; [split; congruence|done].
Qed.

Lemma wpr_alloc_plain n (Q : Z * ptr -> rdma -> Prop) R s :
  acct B R s ->
  (forall rc p s', quietly s s' -> (rc = 0 -> p <> NULL) -> acct B ((if rc =? 0 then own KMalloc p else []) ++ R) s' ->
     Q (rc, p) s') ->
  wpr (lift (allocHostMemory n NULL XIO_HOST_MEM_PLAIN)) Q s.
Proof using EO.
  intros HA HQ. apply wpr_host. pose proof (allocHostMemory_spec n NULL XIO_HOST_MEM_PLAIN (rd_host s)) as Hs.
  eapply wp_mono; [exact Hs|]. intros [rc p] h [[Hrc A1]|(Hrc & R' & Hb & Hf & _ & A1 & _)] s' -> Hq; cbn [fst snd] in *.
  - apply HQ; [done|done|]. rewrite (proj2 (Z.eqb_neq rc 0) Hrc). by eapply acct_host.
  - subst rc. apply HQ; [done|intros _; apply Hf|]. cbn [Z.eqb]. rewrite own_some by apply Hf.
    unfold host_block in Hb. change (flagged XIO_HOST_MEM_PLAIN XIO_HOST_MEM_PLAIN) with true in Hb. cbn in Hb. subst R'.
    eapply (acct_new R); [exact HA|by apply fresh_not_in|exact A1].
Qed.

Lemma wpr_alloc_pair n (Q : Z * ptr * ptr -> rdma -> Prop) R s :
  acct B R s ->
  (forall h d s', quietly s s' -> h <> NULL -> d <> NULL -> acct B (own KMalloc h ++ own KDevice d ++ R) s' -> Q (0, h, d) s') ->
  (forall rc h d s', rc <> 0 -> quietly s s' -> acct B R s' -> Q (rc, h, d) s') ->
  wpr (lift (allocDeviceMemoryPair n)) Q s.
Proof using EO VO.
  intros HA H0 H1. unfold allocDeviceMemoryPair. destruct (Z.eqb_spec n 0) as [->|Hn].
  { apply wpr_lift_ret. rewrite set_host_id. by apply H1. }
  apply wpr_lift_bind. eapply wpr_alloc_plain; [exact HA|]. intros rc h s1 [Hb1 Hf1] Hp A1. unfold hipSuccess.
  destruct (Z.eqb_spec rc 0) as [->|Hrc]; cbn [negb].
  2: { apply wpr_lift_ret. rewrite set_host_id. by apply H1. }
  apply wpr_lift_bind. eapply wpr_alloc_device; [exact A1|done|]. intros st d s2 [Hb2 Hf2] Hd Hd0 A2.
  unfold HSA_STATUS_SUCCESS. destruct (Z.eqb_spec st 0) as [->|Hst]; cbn [negb].
  - apply wpr_lift_ret. rewrite set_host_id. apply H0; [split; congruence|by apply Hp|by apply Hd|].
    eapply acct_perm; [|exact A2]. solve_Permutation.
  - apply wpr_lift_bind. rewrite (Hd0 Hst) in A2. eapply wpr_free_plain; [exact A2|]. intros s3 [Hb3 Hf3] A3.
    apply wpr_lift_ret. rewrite set_host_id. apply H1; [done|split; congruence|done].
Qed.

(** Registered host memory, as the smoke test uses it. *)
Lemma wpr_alloc_pinned n (Q : Z * ptr -> rdma -> Prop) R s :
  acct B R s ->
  (forall p s', quietly s s' -> p <> NULL -> acct B (RMalloc p :: RRegistered p :: R) s' -> Q (0, p) s') ->
  (forall rc p s', rc <> 0 -> quietly s s' -> acct B R s' -> Q (rc, p) s') ->
  wpr (lift (allocHostMemory n NULL XIO_HOST_MEM_PINNED)) Q s.
Proof using EO.
  intros HA H0 H1. apply wpr_host. pose proof (allocHostMemory_spec n NULL XIO_HOST_MEM_PINNED (rd_host s)) as Hs.
  eapply wp_mono; [exact Hs|]. intros [rc p] h [[Hrc A1]|(Hrc & R' & Hb & Hf & Hd & A1 & _)] s' -> Hq; cbn [fst snd] in *.
  - apply H1; [done|done|]. by eapply acct_host.
  - subst rc. apply H0; [done|apply Hf|]. unfold host_block in Hb.
    change (flagged XIO_HOST_MEM_PINNED XIO_HOST_MEM_PLAIN) with false in Hb.
    change (flagged XIO_HOST_MEM_PINNED XIO_HOST_MEM_DEFAULT) with false in Hb.
    change (flagged XIO_HOST_MEM_PINNED XIO_HOST_MEM_PINNED) with true in Hb. cbn in Hb. subst R'.
    set (h1 := set_held (fun x => {[ RRegistered p ]} ∪ x) (rd_host s)).
    assert (A2 : acct B (RRegistered p :: R) (set_host h1 s)).
    { eapply acct_new; [exact HA| |by split]. intros Hin. apply (Hd (RRegistered p)); [|done].
      apply elem_of_union. right. by apply elem_of_singleton. }
    change (set_host h s) with (set_host h (set_host h1 s)). eapply acct_new; [exact A2| |].
    + cbn. intros [Hin|Hin]%elem_of_union; [apply elem_of_singleton in Hin; done|].
      apply (Hd (RMalloc p)); [|done]. apply elem_of_union. left. by apply elem_of_singleton.
    + destruct A1 as [A1 ? ? ?]. split; [|done..]. rewrite A1. cbn. by rewrite (assoc_L (∪)).
Qed.

Lemma wpr_free_pinned p (Q : unit -> rdma -> Prop) R s :
  acct B (RMalloc p :: RRegistered p :: R) s -> p <> NULL -> (forall s', quietly s s' -> acct B R s' -> Q tt s') ->
  wpr (lift (freeHostMemory p XIO_HOST_MEM_PINNED)) Q s.
Proof using EO.
  intros HA Hp HQ. unfold freeHostMemory. rewrite (proj2 (Z.eqb_neq p NULL) Hp).
  change (flagged XIO_HOST_MEM_PINNED XIO_HOST_MEM_PLAIN) with false.
  change (flagged XIO_HOST_MEM_PINNED XIO_HOST_MEM_DEFAULT) with false.
  change (flagged XIO_HOST_MEM_PINNED XIO_HOST_MEM_PINNED) with true. cbn beta iota.
  apply wpr_lift_bind. eapply wpr_unregister; [eapply acct_perm, HA; apply Permutation_swap|].
  intros s1 [Hb1 Hf1] H1. eapply wpr_give; [exact H1|done|]. intros s2 [Hb2 Hf2] H2. apply HQ; [split; congruence|done].
Qed.
End Rules.
