(* ===== verification/RdmaAccount.v ===== *)
(** * The life of the RDMA backend

    Every function of the backend keeps the account of [RdmaHeld]; what the
    process holds after [init], any calls in between, and [shutdown] follows,
    with what is lost on the way. *)

From Stdlib Require Import Ascii.
From stdpp Require Import strings.
From S2P Require Import Prelude Uapi Kernel State HostEnv HostMem HostModule Endian RdmaTopo RdmaEnv RdmaGpu RdmaBackend RdmaHeld.

Open Scope Z_scope.

Section Account.
Context {E : HostEnv} {EO : HostEnvOk E} {VE : VerbsEnv} {VO : VerbsEnvOk E VE} {TE : TopoEnv} {B : gset host_res}.
Implicit Types (R L : list host_res) (s : rdma).

(** ** The account over a step *)

Lemma account_quiet L s s' :
  rd_be s' = rd_be s -> acct B (members (rd_be s) ++ owned_qp (be_host_qp (rd_be s)) ++ L) s' -> account B L s'.
Proof using. intros Hb H. unfold account. by rewrite Hb. Qed.

Lemma only_quiet Fs s s' : rd_be s' = rd_be s -> only Fs s s'.
Proof using. intros H. split; by rewrite H. Qed.

(** Something new becomes a member. *)
Lemma account_set F p L s :
  be_ptr (rd_be s) F = NULL ->
  acct B (own (kind F) p ++ members (rd_be s) ++ owned_qp (be_host_qp (rd_be s)) ++ L) s ->
  account B L (set_be (upd_ptr F p) s) /\ only [F] s (set_be (upd_ptr F p) s).
Proof using.
  intros HF H. split.
  - eapply acct_same; [..|eapply acct_perm, H]; [done..|]. cbn [rd_be set_be be_host_qp upd_ptr].
    rewrite (members_upd F p) by done. by rewrite <- app_assoc.
  - split; [|done..]. intros G HG. cbn. rewrite decide_False; [done|]. intros ->. apply HG. by left.
Qed.

(** Setting a member that is null to null. *)
Lemma account_unset F L s :
  be_ptr (rd_be s) F = NULL -> account B L s ->
  account B L (set_be (upd_ptr F NULL) s) /\ only [F] s (set_be (upd_ptr F NULL) s).
Proof using. intros HF H. by apply account_set. Qed.

(** A member is given back, or lost, and forgotten: [X] is what stays. *)
Lemma wpr_drop F (undo : ptr -> RM unit) (P : list host_res -> Prop) (Q : unit -> rdma -> Prop) L s :
  account B L s ->
  (forall R s1, rd_be s1 = rd_be s -> be_ptr (rd_be s) F <> NULL -> acct B ((kind F, be_ptr (rd_be s) F, 0) :: R) s1 ->
     R = members (upd_ptr F NULL (rd_be s)) ++ owned_qp (be_host_qp (rd_be s)) ++ L ->
     wpr (undo (be_ptr (rd_be s) F)) (fun _ s2 => exists X, P X /\ rd_be s2 = rd_be s /\ acct B (X ++ R) s2) s1) ->
  (forall s', account B L s' -> be_ptr (rd_be s') F = NULL -> only [F] s s' -> Q tt s') ->
  (forall X s', P X -> account B (X ++ L) s' -> be_ptr (rd_be s') F = NULL -> only [F] s s' -> Q tt s') ->
  wpr (drop_field F undo) Q s.
Proof using.
  intros HA Hu H0 HQ. unfold drop_field, field. apply wpr_bind, wpr_gets.
  destruct (Z.eqb_spec (be_ptr (rd_be s) F) NULL) as [E0|Hne].
  - apply wpr_ret, H0; [done|done|apply only_refl].
  - apply wpr_bind. set (R := members (upd_ptr F NULL (rd_be s)) ++ owned_qp (be_host_qp (rd_be s)) ++ L).
    eapply wpr_mono; [apply (Hu R)|]; try done.
    { eapply acct_perm, HA. rewrite (members_drop F), own_some by done. by rewrite <- app_assoc. }
    intros [] s2 (X & HX & Hb & H2). apply wpr_modify, (HQ X); [done| | |].
    + unfold account. cbn [rd_be set_be upd_ptr be_host_qp]. rewrite Hb. unfold R in H2.
      eapply acct_same; [..|eapply acct_perm, H2]; [done..|]. solve_Permutation.
    + cbn. by rewrite decide_True.
    + split; cbn; rewrite ?Hb; try done. intros G HG. rewrite decide_False; [done|]. intros ->. apply HG. by left.
Qed.

(** The same where nothing is lost. *)
Lemma wpr_drop_all F (undo : ptr -> RM unit) (Q : unit -> rdma -> Prop) L s :
  account B L s ->
  (forall p R s1 (P : unit -> rdma -> Prop), p <> NULL -> acct B ((kind F, p, 0) :: R) s1 ->
     (forall s2, rd_be s2 = rd_be s1 -> acct B R s2 -> P tt s2) -> wpr (undo p) P s1) ->
  (forall s', account B L s' -> be_ptr (rd_be s') F = NULL -> only [F] s s' -> Q tt s') ->
  wpr (drop_field F undo) Q s.
Proof using.
  intros HA Hu HQ. eapply (wpr_drop F undo (fun X => X = [])); [exact HA| |done|].
  - intros R s1 Hb Hp H1 _. eapply Hu; [exact Hp|exact H1|]. intros s2 Hb2 H2. exists []. split_and!; [done|congruence|done].
  - intros X s' -> H'. by apply HQ.
Qed.

(** ** Libraries *)

Lemma dlopen_keeps p places L s :
  account B L s -> wpr (dlopen_first p places) (fun _ s' => account B L s' /\ rd_be s' = rd_be s) s.
Proof using.
  revert s. induction places as [|place places IH]; intros s HA; cbn [dlopen_first]; [by apply wpr_ret|].
  apply wpr_bind. eapply wpr_consult; [exact HA|]. intros s1 [Hb Hf] H1.
  assert (A1 : account B L s1) by by apply (account_quiet L s s1).
  destruct (is_null _).
  - eapply wpr_mono; [by apply IH|]. intros h s2 [A2 Hb2]. split; [done|congruence].
  - apply wpr_bind, wpr_modify, wpr_ret. split; [|done]. by eapply acct_same; [..|exact A1].
Qed.

Lemma dl_init_keeps p n (k : ptr -> RM Z) L s :
  (forall h s1, exists rc, k h s1 = (Some rc, s1)) -> account B L s ->
  wpr (rbind (dv_dlopen p n) k) (fun _ s' => account B L s' /\ rd_be s' = rd_be s) s.
Proof using.
  intros Hk HA. apply wpr_bind. eapply wpr_mono; [by apply dlopen_keeps|]. intros h s1 H1. unfold wpr.
  by destruct (Hk h s1) as [rc ->].
Qed.

Lemma mlx5_dl_keeps L s : account B L s -> wpr mlx5_dv_dl_init (fun _ s' => account B L s' /\ rd_be s' = rd_be s) s.
Proof using.
  intros HA. apply dl_init_keeps; [|done]. intros h s1. destruct (is_null h); [by eexists|].
  destruct (negb _); by eexists.
Qed.

Lemma ionic_dl_keeps L s : account B L s -> wpr ionic_dv_dl_init (fun _ s' => account B L s' /\ rd_be s' = rd_be s) s.
Proof using.
  intros HA. apply dl_init_keeps; [|done]. intros h s1. destruct (is_null h); [by eexists|].
  destruct (forallb _ _); by eexists.
Qed.

(** What choosing the provider leaves alone. *)
Record but_provider (s s' : rdma) : Prop := {
  bp_ptr F : be_ptr (rd_be s') F = be_ptr (rd_be s) F;
  bp_qp : be_host_qp (rd_be s') = be_host_qp (rd_be s);
  bp_known : be_provider (rd_be s') = PROVIDER_UNKNOWN \/ be_provider (rd_be s') = MLX5 \/ be_provider (rd_be s') = IONIC
}.

Lemma account_provider L s p :
  account B L s -> account B L (set_be (upd_provider p) s).
Proof using. intros H. eapply acct_same; [..|exact H]; done. Qed.

Lemma try_provider_keeps p dl L s0 s :
  p = MLX5 \/ p = IONIC -> account B L s -> but_provider s0 s ->
  (forall s1, account B L s1 -> wpr dl (fun _ s' => account B L s' /\ rd_be s' = rd_be s1) s1) ->
  wpr (try_provider p dl) (fun _ s' => account B L s' /\ but_provider s0 s') s.
Proof using.
  intros Hp HA [P1 Q1 K1] Hdl. unfold try_provider, provider, config. apply wpr_bind, wpr_gets, wpr_bind, wpr_gets.
  destruct (_ && _); [|apply wpr_ret; split; [done|by split]].
  apply wpr_bind. eapply wpr_mono; [by apply Hdl|]. intros rc s1 [A1 Hb].
  destruct (rc =? 0); [apply wpr_modify; split; [by apply account_provider|]|apply wpr_ret; split; [done|]];
    (split; cbn; rewrite ?Hb; [done|done|tauto]).
Qed.

Lemma open_dv_libs_keeps L s :
  account B L s -> wpr open_dv_libs (fun _ s' => account B L s' /\ but_provider s s') s.
Proof using.
  intros HA. unfold open_dv_libs. apply wpr_bind, wpr_modify, wpr_bind.
  eapply wpr_mono; [apply (try_provider_keeps MLX5 _ L s); [by left|by apply account_provider|split; cbn; tauto|apply mlx5_dl_keeps]|].
  intros [] s1 [A1 P1]. apply try_provider_keeps; [by right|done|done|apply ionic_dl_keeps].
Qed.
(** ** Steps at the level of the account *)

Lemma keep_consult {A} (f : hview -> A) (Q : A -> rdma -> Prop) L s :
  account B L s -> (forall s', account B L s' -> rd_be s' = rd_be s -> Q (f (view (rd_host s))) s') ->
  wpr (lift (consult f)) Q s.
Proof using.
  intros HA HQ. eapply wpr_consult; [exact HA|]. intros s1 [Hb _] H1. apply HQ; [|done]. by apply (account_quiet L s s1).
Qed.

Lemma keep_set F p (Q : unit -> rdma -> Prop) L s :
  be_ptr (rd_be s) F = NULL ->
  acct B (own (kind F) p ++ members (rd_be s) ++ owned_qp (be_host_qp (rd_be s)) ++ L) s ->
  (forall s', account B L s' -> be_ptr (rd_be s') F = p -> only [F] s s' -> Q tt s') -> wpr (set_field F p) Q s.
Proof using.
  intros HF HA HQ. apply wpr_modify. destruct (account_set F p L s HF HA) as [H1 H2]. apply HQ; [done| |done].
  cbn. by rewrite decide_True.
Qed.

(** An object is made and kept in a member. *)
Lemma keep_obtain F f (rest : ptr -> RM unit) (Q : unit -> rdma -> Prop) L s :
  account B L s -> be_ptr (rd_be s) F = NULL ->
  (f (view (rd_host s)) <> NULL -> (kind F, f (view (rd_host s)), 0) ∉ ho_held (rd_host s)) ->
  (forall s', account B L s' -> be_ptr (rd_be s') F = f (view (rd_host s)) -> only [F] s s' ->
     wpr (rest (f (view (rd_host s)))) Q s') ->
  wpr (do* p := obtain (kind F) f in set_field F p >>> rest p) Q s.
Proof using.
  intros HA HF Hf HQ. apply wpr_bind. eapply wpr_obtain; [exact HA|exact Hf|]. intros s1 [Hb _] H1.
  apply wpr_bind. rewrite <- Hb in H1, HF. eapply keep_set; [done|exact H1|]. intros s2 A2 P2 O2.
  apply HQ; [done|done|]. eapply only_trans, O2. by apply only_quiet.
Qed.

(** ** The device *)

(** The protection domain is one that nothing held before is on. *)
Definition pd_new s : Prop :=
  let pd := be_ptr (rd_be s) F_pd in
  pd <> NULL /\ ve_on KPd pd = NULL /\ forall k x n, (k, x, n) ∈ B -> ve_on k x <> pd.

Lemma pd_new_only Fs s s' : F_pd ∉ Fs -> only Fs s s' -> pd_new s -> pd_new s'.
Proof using. intros HF HO. unfold pd_new. by rewrite (on_ptr _ _ _ HO). Qed.

Lemma open_ib_device_keeps L s :
  account B L s -> be_ptr (rd_be s) F_context = NULL -> be_ptr (rd_be s) F_pd = NULL ->
  wpr open_ib_device (fun _ s' => account B L s' /\ only [F_context; F_pd] s s' /\ pd_new s') s.
Proof using EO VO.
  intros HA Hc Hp. unfold open_ib_device. apply wpr_bind. eapply wpr_device_list; [exact HA|by intros; apply wpr_abort|].
  intros l d s1 [Hb1 _] H1. destruct (_ =? 0)%nat.
  { apply wpr_bind. eapply wpr_give; [exact H1|done|]. intros. apply wpr_abort. }
  assert (A1 : account B ((KDeviceList, l, 0) :: L) s1).
  { apply (account_quiet _ s s1); [done|]. eapply acct_perm, H1. solve_Permutation. }
  unfold config. apply wpr_bind, wpr_gets. rewrite <- Hb1 in Hc, Hp.
  eapply (keep_obtain F_context); [exact A1|done|apply vo_open|]. intros s2 A2 P2 O2.
  apply wpr_bind, wpr_check_nnull. intros _. apply wpr_bind. eapply keep_consult; [exact A2|]. intros s3 A3 Hb3.
  destruct (ve_query_device _ _) as [err max_rd]. apply wpr_bind, wpr_check_zero. intros _.
  rewrite <- (on_ptr _ _ _ O2 F_pd), <- Hb3 in Hp by set_solver.
  eapply (keep_obtain F_pd); [exact A3|done|apply vo_pd|]. intros s4 A4 P4 O4.
  apply wpr_bind, wpr_check_nnull. intros Hpd. destruct (vo_pd _ _ Hpd) as (_ & Hon & Hno).
  assert (N4 : pd_new s4).
  { unfold pd_new. rewrite P4. split_and!; [done|done|]. intros k x n Hin. apply (Hno k x n).
    eapply holds_base; [apply A3|done]. }
  apply wpr_bind. eapply keep_consult; [exact A4|]. intros s5 A5 Hb5.
  destruct (ve_query_port _ _ _) as [err2 pa]. apply wpr_bind, wpr_check_zero. intros _.
  apply wpr_bind. eapply keep_consult; [exact A5|]. intros s6 A6 Hb6.
  destruct (ve_query_gid _ _ _ _) as [err3 g]. apply wpr_bind, wpr_check_zero. intros _.
  apply wpr_bind, wpr_modify. set (s7 := set_be _ s6).
  assert (A7 : account B ((KDeviceList, l, 0) :: L) s7).
  { eapply acct_same; [..|exact A6]; done. }
  assert (O7 : only [F_context; F_pd] s s7).
  { assert (O24 : only [F_context; F_pd] s1 s4).
    { eapply only_trans; [eapply only_weaken, O2; set_solver|].
      eapply only_trans; [apply (only_quiet _ _ s3 Hb3)|]. eapply only_weaken, O4. set_solver. }
    destruct O24 as [OP OV OC OO ON]. split; cbn; rewrite Hb6, Hb5, <- Hb1; by try apply OP. }
  eapply (wpr_give _ _ (members (rd_be s7) ++ owned_qp (be_host_qp (rd_be s7)) ++ L)); [|done|].
  { eapply acct_perm, A7. solve_Permutation. }
  intros s8 [Hb8 _] H8. split_and!; [by apply (account_quiet _ s7 s8)| |].
  - eapply only_trans; [exact O7|by apply only_quiet].
  - unfold pd_new. rewrite Hb8. cbn. by rewrite Hb6, Hb5.
Qed.
(** ** The queues *)

Lemma ionic_create_cqs_keeps n L s :
  account B L s -> be_ptr (rd_be s) F_cq = NULL -> be_ptr (rd_be s) F_pd_parent = NULL ->
  wpr (ionic_create_cqs n) (fun _ s' => account B L s' /\ only [F_cq; F_pd_parent] s s') s.
Proof using EO VO.
  intros HA Hc Hp. unfold ionic_create_cqs, field. apply wpr_bind, wpr_gets.
  eapply (keep_obtain F_pd_parent); [exact HA|done|apply vo_parent|]. intros s1 A1 P1 O1.
  set (pd := ve_alloc_parent_domain _ _) in *.
  assert (W1 : only [F_cq; F_pd_parent] s s1) by (eapply only_weaken, O1; set_solver).
  destruct (is_null pd); [by apply wpr_ret|].
  apply wpr_bind. eapply wpr_obtain; [exact A1|apply vo_ionic_cq|]. intros s2 [Hb2 _] H2.
  set (cq := ve_ionic_create_cq _ _ _) in *. assert (Hc1 : be_ptr (rd_be s2) F_cq = NULL).
  { rewrite Hb2, (on_ptr _ _ _ O1) by set_solver. done. }
  destruct (Z.eqb_spec cq NULL) as [E0|Hcq].
  - apply wpr_ret. rewrite E0 in H2. split; [by apply (account_quiet L s1 s2)|].
    eapply only_trans; [exact W1|by apply only_quiet].
  - apply wpr_bind, wpr_gets. rewrite Hc1. cbn [negb when Z.eqb NULL]. apply wpr_bind, wpr_ret. rewrite <- Hb2 in H2.
    eapply keep_set; [exact Hc1|exact H2|]. intros s3 A3 P3 O3. split; [done|].
    eapply only_trans; [exact W1|]. eapply only_trans; [apply (only_quiet _ _ _ Hb2)|].
    eapply only_weaken, O3. set_solver.
Qed.

Lemma create_queues_keeps L s :
  account B L s -> be_ptr (rd_be s) F_cq = NULL -> be_ptr (rd_be s) F_qp = NULL -> be_ptr (rd_be s) F_pd_parent = NULL ->
  wpr create_queues (fun _ s' => account B L s' /\ only [F_cq; F_qp; F_pd_parent] s s'
    /\ (be_provider (rd_be s) <> IONIC -> be_ptr (rd_be s') F_pd_parent = NULL)) s.
Proof using EO VO.
  intros HA Hc Hq Hp. unfold create_queues, config, provider, field. do 4 (apply wpr_bind, wpr_gets).
  assert (Hqp : forall a s1 (Q : unit -> rdma -> Prop), account B L s1 -> be_ptr (rd_be s1) F_qp = NULL ->
    (forall s', account B L s' -> only [F_qp] s1 s' -> Q tt s') ->
    wpr (do* qp := ibv_create_qp_ex a in set_field F_qp qp) Q s1).
  { intros a s1 Q A1 HN HQ. apply wpr_bind. eapply wpr_create_qp; [exact A1|]. intros q s2 [Hb2 _] H2.
    rewrite <- Hb2 in H2, HN. eapply keep_set; [exact HN|exact H2|]. intros s3 A3 _ O3. apply HQ; [done|].
    eapply only_trans, O3. by apply only_quiet. }
  destruct (bool_decide (be_provider (rd_be s) = IONIC)) eqn:Ep; cbn beta iota.
  - apply bool_decide_eq_true in Ep. apply wpr_bind. eapply wpr_mono; [by apply ionic_create_cqs_keeps|].
    intros [] s1 [A1 O1]. apply wpr_bind, wpr_gets. destruct (is_null _).
    { apply wpr_ret. split_and!; [done|eapply only_weaken, O1; set_solver|done]. }
    apply wpr_bind, wpr_gets. apply Hqp; [done|rewrite (on_ptr _ _ _ O1) by set_solver; done|].
    intros s2 A2 O2. split_and!; [done| |done].
    eapply only_trans; [eapply only_weaken, O1|eapply only_weaken, O2]; set_solver.
  - eapply (keep_obtain F_cq); [exact HA|done|apply vo_cq|]. intros s1 A1 P1 O1.
    apply wpr_bind, wpr_check_nnull. intros _. apply Hqp; [done|rewrite (on_ptr _ _ _ O1) by set_solver; done|].
    intros s2 A2 O2.
    assert (O12 : only [F_cq; F_qp; F_pd_parent] s s2).
    { eapply only_trans; [eapply only_weaken, O1|eapply only_weaken, O2]; set_solver. }
    split_and!; [done|done|]. intros _. rewrite (on_ptr _ _ _ O2), (on_ptr _ _ _ O1) by set_solver. done.
Qed.

(** ** The states of the queue pair *)

Lemma modify_keeps (a : ibv_qp_attr) m q L s (Q : unit -> rdma -> Prop) :
  account B L s -> (forall s', account B L s' -> rd_be s' = rd_be s -> Q tt s') ->
  wpr (do* err := modify_qp_dispatch q a m in check_zero err) Q s.
Proof using EO VO.
  intros HA HQ. apply wpr_bind. eapply wpr_modify_qp; [exact HA|]. intros rc s1 [Hb _] H1.
  apply wpr_check_zero. intros _. apply HQ; [by apply (account_quiet L s s1)|done].
Qed.

Lemma connect_keeps remote L s (Q : unit -> rdma -> Prop) :
  account B L s -> (forall s', account B L s' -> rd_be s' = rd_be s -> Q tt s') -> wpr (connect remote) Q s.
Proof using EO VO.
  intros HA HQ. unfold connect, modify_qp_reset_to_init, modify_qp_init_to_rtr, modify_qp_rtr_to_rts, field.
  apply wpr_bind, wpr_bind, wpr_gets. eapply modify_keeps; [exact HA|]. intros s1 A1 H1.
  apply wpr_bind, wpr_bind, wpr_gets, wpr_bind, wpr_gets. eapply modify_keeps; [exact A1|]. intros s2 A2 H2.
  apply wpr_bind, wpr_gets, wpr_bind, wpr_gets. eapply modify_keeps; [exact A2|]. intros s3 A3 H3.
  apply HQ; [done|congruence].
Qed.

(** ** The smoke test *)

Lemma smoke_over_keeps mr buf rc L s (Q : Z -> rdma -> Prop) :
  acct B ((KMr, mr, 0) :: RMalloc buf :: RRegistered buf :: members (rd_be s) ++ owned_qp (be_host_qp (rd_be s)) ++ L) s ->
  buf <> NULL -> (forall s', account B L s' -> rd_be s' = rd_be s -> Q rc s') -> wpr (smoke_over mr buf rc) Q s.
Proof using EO VO.
  intros HA Hp HQ. unfold smoke_over. apply wpr_bind. eapply wpr_dereg_mr; [exact HA|]. intros s1 Hb1 H1.
  apply wpr_bind. eapply wpr_free_pinned; [exact H1|done|]. intros s2 [Hb2 _] H2. apply wpr_ret, HQ; [|congruence].
  apply (account_quiet L s s2); [congruence|done].
Qed.

Lemma poll_until_keeps n R (Q : Z * Z -> rdma -> Prop) : forall polls s,
  acct B R s -> (forall r s', acct B R s' -> rd_be s' = rd_be s -> Q r s') -> wpr (lift (poll_until n polls)) Q s.
Proof using EO VO.
  induction n as [|n IH]; intros polls s HA HQ; cbn [poll_until].
  - apply wpr_lift_ret. rewrite set_host_id. by apply HQ.
  - apply wpr_lift_bind. eapply wpr_consult; [exact HA|]. intros s1 [Hb1 _] H1. destruct (ve_poll_cq _ _) as [ne st].
    destruct (0 <? ne); [apply wpr_lift_ret; rewrite set_host_id; by apply HQ|].
    destruct (ne <? 0); [apply wpr_lift_ret; rewrite set_host_id; by apply HQ|].
    apply IH; [done|]. intros r s2 H2 Hb2. apply HQ; [done|congruence].
Qed.

Lemma smoke_test_keeps L s (Q : Z -> rdma -> Prop) :
  account B L s -> (forall rc s', account B L s' -> rd_be s' = rd_be s -> Q rc s') ->
  wpr mlx5_cpu_loopback_smoke_test Q s.
Proof using EO VO.
  intros HA HQ. unfold mlx5_cpu_loopback_smoke_test, field. do 3 (apply wpr_bind, wpr_gets).
  destruct (_ || _); [apply wpr_ret; by apply HQ|]. cbn zeta.
  apply wpr_bind. eapply wpr_alloc_pinned; [exact HA| |].
  2: { intros rc p s1 Hrc [Hb1 _] H1. unfold hipSuccess. rewrite (proj2 (Z.eqb_neq rc 0) Hrc). apply wpr_ret.
       apply HQ; [by apply (account_quiet L s s1)|done]. }
  intros buf s1 [Hb1 _] Hbuf H1. cbn [negb Z.eqb hipSuccess].
  apply wpr_bind. eapply wpr_reg_mr_host; [exact H1|]. intros mr s2 [Hb2 _] H2.
  destruct (Z.eqb_spec mr NULL) as [->|Hmr].
  { apply wpr_bind. eapply wpr_free_pinned; [exact H2|done|]. intros s3 [Hb3 _] H3. apply wpr_ret.
    apply HQ; [apply (account_quiet L s s3); [congruence|done]|congruence]. }
  rewrite own_some in H2 by done.
  assert (Hover : forall rc s3, rd_be s3 = rd_be s ->
    acct B ((KMr, mr, 0) :: RMalloc buf :: RRegistered buf :: members (rd_be s) ++ owned_qp (be_host_qp (rd_be s)) ++ L) s3 ->
    wpr (smoke_over mr buf rc) Q s3).
  { intros rc s3 Hb3 H3. eapply smoke_over_keeps; [by rewrite Hb3|done|]. intros s4 A4 Hb4. apply HQ; [done|congruence]. }
  apply wpr_bind. eapply wpr_consult; [exact H2|]. intros s3 [Hb3 _] H3.
  destruct (negb _); [apply Hover; [congruence|done]|].
  apply wpr_bind. eapply poll_until_keeps; [exact H3|]. intros [ne st] s4 H4 Hb4.
  destruct (ne <? 0); [apply Hover; [congruence|done]|]. destruct (ne =? 0); [apply Hover; [congruence|done]|].
  destruct (negb _); [apply Hover; [congruence|done]|].
  apply wpr_bind. eapply wpr_consult; [exact H4|]. intros s5 [Hb5 _] H5. apply Hover; [congruence|done].
Qed.
(** ** The GPU's queue pair *)

(** The providers of this build that have one. *)
Definition has_gpu_qp (p : Provider) : Prop := p = MLX5 \/ p = IONIC.

Lemma new_QueuePair_keeps pd p (Q : QueuePair -> rdma -> Prop) R s :
  acct B R s -> has_gpu_qp p ->
  (forall q s', rd_be s' = rd_be s -> q_mr_nonfetching q <> NULL -> q_mr_fetching q <> NULL ->
     acct B (owned_qp (Some q) ++ R) s' -> Q q s') ->
  wpr (new_QueuePair pd p) Q s.
Proof using EO VO.
  intros HA Hp HQ. unfold new_QueuePair.
  apply wpr_bind. eapply wpr_alloc_device; [exact HA|done|]. intros st1 p1 s1 [Hb1 _] _ _ H1.
  apply wpr_bind. eapply wpr_alloc_device; [exact H1|done|]. intros st2 p2 s2 [Hb2 _] _ _ H2.
  assert (Hset : forall x n (P : Z -> rdma -> Prop) s', acct B (own KDevice p2 ++ own KDevice p1 ++ R) s' ->
    (forall rc s'', rd_be s'' = rd_be s' -> acct B (own KDevice p2 ++ own KDevice p1 ++ R) s'' -> P rc s'') ->
    wpr (if is_null x then rret 0 else lift (consult (fun v => he_hipMemset v x n))) P s').
  { intros x n P s' H' HP. destruct (is_null x); [apply wpr_ret; by apply HP|].
    eapply wpr_consult; [exact H'|]. intros s'' [Hb _] H''. by apply HP. }
  apply wpr_bind, Hset; [done|]. intros _ s3 Hb3 H3. apply wpr_bind, Hset; [done|]. intros _ s4 Hb4 H4.
  assert (Hchk : forall m1 m2 (P : unit -> rdma -> Prop) s', (m1 <> NULL -> m2 <> NULL -> P tt s') ->
    wpr (match p with MLX5 | IONIC => check_nnull m1 >>> check_nnull m2 | _ => rret tt end) P s').
  { intros m1 m2 P s' HP. destruct Hp as [-> | ->];
      (apply wpr_bind, wpr_check_nnull; intros ?; apply wpr_check_nnull; intros ?; by apply HP). }
  apply wpr_bind. eapply wpr_reg_mr; [exact H4| |].
  2: { intros X s5 _ Hb5 H5. apply wpr_bind. eapply wpr_reg_mr; [exact H5| |].
       - intros mr2 s6 _ _ _. by apply wpr_bind, Hchk.
       - intros X2 s6 _ _ _. by apply wpr_bind, Hchk. }
  intros mr1 s5 Hm1 Hb5 H5. apply wpr_bind. eapply wpr_reg_mr; [exact H5| |].
  2: { intros X s6 _ _ _. by apply wpr_bind, Hchk. }
  intros mr2 s6 Hm2 Hb6 H6. apply wpr_bind, Hchk. intros _ _. apply wpr_ret.
  apply HQ; [congruence|done|done|]. cbn [owned_qp q_nonfetching q_fetching q_mr_nonfetching q_mr_fetching].
  rewrite (own_some KMr mr1), (own_some KMr mr2) by done. eapply acct_perm, H6. cbn. solve_Permutation.
Qed.

Lemma register_as_keeps F p n L s (Q : bool -> rdma -> Prop) :
  kind F = KRegistered -> account B L s -> be_ptr (rd_be s) F = NULL ->
  (forall ok s', account B L s' -> only [F] s s' -> Q ok s') -> wpr (register_as F p n) Q s.
Proof using EO VO.
  intros Hk HA HF HQ. unfold register_as. apply wpr_bind. eapply wpr_register; [exact HA| |].
  - intros s1 Hp [Hb1 _] H1. cbn [Z.eqb]. apply wpr_bind. rewrite <- Hb1 in HF, H1.
    eapply keep_set; [exact HF|rewrite Hk, own_some by done; exact H1|]. intros s2 A2 _ O2. apply wpr_ret, HQ; [done|].
    eapply only_trans, O2. by apply only_quiet.
  - intros rc s1 Hrc [Hb1 _] H1. rewrite (proj2 (Z.eqb_neq rc 0) Hrc). apply wpr_ret, HQ; [by apply (account_quiet L s s1)|].
    by apply only_quiet.
Qed.

Lemma clear_owners_wp p n h : wp (clear_owners p n) (fun _ h' => after h h' (ho_held h) (ho_vmem h)) h.
Proof using.
  unfold clear_owners. generalize (seq 0 (Z.to_nat n)) as l. intros l. revert h.
  induction l as [|i l IH]; intros h; cbn [iterM]; [apply wp_ret, after_refl|].
  apply wp_bind. unfold store. apply wp_modify. eapply wp_mono; [apply IH|]. intros [] h' H'.
  eapply (after_trans h _ h'); [|exact H']. by split.
Qed.

Lemma clear_owners_keeps p n L s (Q : unit -> rdma -> Prop) :
  account B L s -> (forall s', account B L s' -> rd_be s' = rd_be s -> Q tt s') -> wpr (lift (clear_owners p n)) Q s.
Proof using.
  intros HA HQ. apply wpr_host. eapply wp_mono; [apply clear_owners_wp|]. intros [] h A1 s' -> [Hb Hf].
  apply HQ; [|done]. apply (account_quiet L s); [done|]. by eapply acct_host.
Qed.

(** A change of the host's queue pair that changes nothing it owns. *)
Lemma on_qp_keeps (f : QueuePair -> QueuePair) g (F : rdma -> rdma) L s (Q : unit -> rdma -> Prop) :
  F s = set_be (upd_qps (f <$> be_host_qp (rd_be s)) g) s ->
  (forall q, owned_qp (Some (f q)) = owned_qp (Some q)) -> account B L s ->
  (forall s', account B L s' -> only [] s s' -> Q tt s') -> wpr (rmodify F) Q s.
Proof using.
  intros HF Hf HA HQ. apply wpr_modify. rewrite HF.
  assert (Ho : owned_qp (f <$> be_host_qp (rd_be s)) = owned_qp (be_host_qp (rd_be s))).
  { destruct (be_host_qp (rd_be s)) as [q|]; [apply Hf|done]. }
  apply HQ; [|split; [done..|cbn; by intros ->]]. unfold account. cbn [rd_be set_be upd_qps be_host_qp]. rewrite Ho.
  eapply acct_same; [..|exact HA]; done.
Qed.

Definition mlx5_fields : list bfield := [F_mlx5_sq; F_mlx5_cq; F_mlx5_sq_dbr; F_mlx5_cq_dbr; F_mlx5_bf].

Lemma when_keeps (b : bool) (m : RM unit) (Q : unit -> rdma -> Prop) s :
  Q tt s -> (b = true -> wpr m Q s) -> wpr (when b m) Q s.
Proof using. intros H1 H2. destruct b; [by apply H2|done]. Qed.

(** One more of the registrations of mlx5. *)
Lemma register_next F p n L s s0 (rest : bool -> RM unit) :
  kind F = KRegistered -> F ∈ mlx5_fields -> account B L s -> only mlx5_fields s0 s -> be_ptr (rd_be s) F = NULL ->
  (forall ok s', account B L s' -> only mlx5_fields s0 s' -> only [F] s s' ->
     wpr (rest ok) (fun _ s' => account B L s' /\ only mlx5_fields s0 s') s') ->
  wpr (do* ok := register_as F p n in rest ok) (fun _ s' => account B L s' /\ only mlx5_fields s0 s') s.
Proof using EO VO.
  intros Hk HF HA HO HN HQ. apply wpr_bind. eapply register_as_keeps; [done|exact HA|done|]. intros ok s1 A1 O1.
  apply HQ; [done| |done]. eapply only_trans; [exact HO|]. eapply only_weaken, O1.
  intros G ->%list_elem_of_singleton. done.
Qed.

Lemma mlx5_fill_keeps o L s s4 :
  account B L s4 -> only mlx5_fields s s4 -> be_ptr (rd_be s4) F_mlx5_bf = NULL ->
  wpr (mlx5_fill o) (fun _ s' => account B L s' /\ only mlx5_fields s s') s4.
Proof using EO VO.
  intros A4 W4 N4. unfold mlx5_fill. apply wpr_bind. eapply keep_consult; [exact A4|].
  intros s5 A5 Hb5. assert (W5 : only mlx5_fields s s5) by (eapply only_trans; [exact W4|by apply only_quiet]).
  apply when_keeps; [done|intros _]. apply wpr_bind. eapply wpr_lock; [exact A5| |].
  2: { intros rc q s6 Hrc [Hb6 _] H6. unfold HSA_STATUS_SUCCESS. rewrite (proj2 (Z.eqb_neq rc 0) Hrc).
       split; [by apply (account_quiet L s5 s6)|]. eapply only_trans; [exact W5|by apply only_quiet]. }
  intros q s6 Hp [Hb6 _] H6. cbn [when Z.eqb HSA_STATUS_SUCCESS]. apply wpr_bind. rewrite <- Hb6 in H6.
  eapply (keep_set F_mlx5_bf); [by rewrite Hb6, Hb5|rewrite own_some by done; exact H6|]. intros s7 A7 _ O7.
  apply wpr_bind. eapply clear_owners_keeps; [exact A7|]. intros s8 A8 Hb8.
  unfold field, config. do 4 (apply wpr_bind, wpr_gets).
  assert (W8 : only mlx5_fields s s8).
  { eapply only_trans; [exact W5|]. eapply only_trans; [apply (only_quiet _ _ s6 Hb6)|].
    eapply only_trans; [eapply only_weaken, O7|by apply only_quiet]. clear. set_solver. }
  eapply on_qp_keeps; [reflexivity|done|exact A8|].
  - intros s9 A9 O9. split; [done|]. eapply only_trans; [exact W8|]. eapply only_weaken, O9. clear. set_solver.
Qed.

Lemma mlx5_set_up_keeps o L s :
  account B L s -> (forall F, F ∈ mlx5_fields -> be_ptr (rd_be s) F = NULL) ->
  wpr (mlx5_set_up o) (fun _ s' => account B L s' /\ only mlx5_fields s s') s.
Proof using EO VO.
  intros HA HN. unfold mlx5_set_up.
  apply register_next; [done|set_solver|done|apply only_refl|apply HN; set_solver|]. intros ok1 s1 A1 W1 O1.
  apply when_keeps; [done|intros _].
  apply register_next; [done|set_solver|done|done|rewrite (on_ptr _ _ _ O1) by set_solver; apply HN; set_solver|].
  intros ok2 s2 A2 W2 O2. apply when_keeps; [done|intros _].
  apply register_next; [done|set_solver|done|done| |].
  { rewrite (on_ptr _ _ _ O2), (on_ptr _ _ _ O1) by set_solver. apply HN. set_solver. }
  intros ok3 s3 A3 W3 O3. apply when_keeps; [done|intros _].
  assert (N3 : forall F, F ∈ [F_mlx5_cq_dbr; F_mlx5_bf] -> be_ptr (rd_be s3) F = NULL).
  { intros F HF. rewrite (on_ptr _ _ _ O3), (on_ptr _ _ _ O2), (on_ptr _ _ _ O1) by (clear -HF; set_solver).
    apply HN. clear -HF. set_solver. }
  assert (Hrest : forall ok s4, account B L s4 -> only mlx5_fields s s4 -> be_ptr (rd_be s4) F_mlx5_bf = NULL ->
    wpr (when ok (mlx5_fill o)) (fun _ s' => account B L s' /\ only mlx5_fields s s') s4).
  { intros ok s4 A4 W4 N4. apply when_keeps; [done|intros _]. by apply mlx5_fill_keeps. }
  destruct (negb _).
  - apply register_next; [done|set_solver|done|done|apply N3; set_solver|]. intros ok4 s4 A4 W4 O4.
    apply Hrest; [done|done|]. rewrite (on_ptr _ _ _ O4) by set_solver. apply N3. set_solver.
  - apply wpr_bind, wpr_ret, Hrest; [done|done|]. apply N3. set_solver.
Qed.
(** What is lost while ionic is set up: its doorbell page stays registered. *)
Definition page_lost (p : Provider) (X : list host_res) : Prop :=
  X = [] \/ (p = IONIC /\ exists page, X = [RRegistered page]).

Lemma initialize_gpu_qp_keeps L s :
  account B L s -> (forall F, F ∈ mlx5_fields -> be_ptr (rd_be s) F = NULL) -> has_gpu_qp (be_provider (rd_be s)) ->
  wpr initialize_gpu_qp (fun _ s' => exists X, page_lost (be_provider (rd_be s)) X /\ account B (X ++ L) s'
    /\ only (if bool_decide (be_provider (rd_be s) = MLX5) then mlx5_fields else []) s s') s.
Proof using EO VO.
  intros HA HN Hp. unfold initialize_gpu_qp, field, provider. apply wpr_bind, wpr_gets.
  set (Q := fun (_ : unit) s' => _).
  assert (Hdone : forall s', account B L s' -> only [] s s' -> Q tt s').
  { intros s' A' O'. exists []. split_and!; [by left|done|]. eapply only_weaken, O'. intros F []%not_elem_of_nil. }
  destruct (is_null _); [apply wpr_ret, Hdone; [done|apply only_refl]|]. apply wpr_bind, wpr_gets.
  destruct Hp as [Hp|Hp]; rewrite Hp.
  - unfold mlx5_initialize_gpu_qp, field. do 3 (apply wpr_bind, wpr_gets).
    destruct (_ || _); [apply wpr_ret, Hdone; [done|apply only_refl]|]. apply wpr_bind, wpr_gets.
    match goal with |- wpr (if ?b then _ else _) _ _ => destruct b end; [apply wpr_ret, Hdone; [done|apply only_refl]|].
    apply wpr_bind. eapply keep_consult; [exact HA|]. intros s1 A1 Hb1. destruct (ve_mlx5_init_obj _ _ _) as [rc o].
    destruct (negb _); [apply wpr_ret, Hdone; [done|by apply only_quiet]|].
    eapply wpr_mono; [apply mlx5_set_up_keeps; [done|by rewrite Hb1]|]. intros [] s2 [A2 O2].
    exists []. rewrite Hp. split_and!; [by left|done|]. cbn. eapply only_trans; [by apply only_quiet|exact O2].
  - unfold ionic_initialize_gpu_qp, field. do 3 (apply wpr_bind, wpr_gets).
    destruct (_ || _); [apply wpr_ret, Hdone; [done|apply only_refl]|].
    apply wpr_bind. eapply keep_consult; [exact HA|]. intros s1 A1 Hb1. set (o := ve_ionic_objects _ _).
    destruct (negb _); [apply wpr_ret, Hdone; [done|by apply only_quiet]|].
    apply wpr_bind. eapply keep_consult; [exact A1|]. intros s2 A2 Hb2.
    destruct (negb _); [apply wpr_ret, Hdone; [done|apply only_quiet; congruence]|].
    apply wpr_bind. eapply keep_consult; [exact A2|]. intros s3 A3 Hb3.
    destruct (negb _); [apply wpr_ret, Hdone; [done|apply only_quiet; congruence]|].
    apply wpr_bind. eapply keep_consult; [exact A3|]. intros s4 A4 Hb4.
    destruct (negb _); [apply wpr_ret, Hdone; [done|apply only_quiet; congruence]|].
    apply wpr_bind. eapply on_qp_keeps; [reflexivity|done|exact A4|]. intros s5 A5 O5.
    assert (W5 : only [] s s5) by (eapply only_trans; [apply (only_quiet _ s s4); congruence|done]).
    apply wpr_bind. eapply wpr_register; [exact A5| |].
    2: { intros rc s6 Hrc [Hb6 _] H6. rewrite (proj2 (Z.eqb_neq rc 0) Hrc). apply wpr_ret, Hdone.
         - by apply (account_quiet L s5 s6).
         - eapply only_trans; [exact W5|by apply only_quiet]. }
    intros s6 _ [Hb6 _] H6. cbn [negb Z.eqb].
    assert (A6 : account B ([RRegistered (io_db_page o)] ++ L) s6).
    { apply (account_quiet _ s5 s6); [done|]. eapply acct_perm, H6. solve_Permutation. }
    assert (W6 : only [] s s6) by (eapply only_trans; [exact W5|by apply only_quiet]).
    assert (Hlost : forall s', account B ([RRegistered (io_db_page o)] ++ L) s' -> only [] s s' -> Q tt s').
    { intros s' A' O'. exists [RRegistered (io_db_page o)]. split_and!; [right; by eauto|done|].
      eapply only_weaken, O'. intros F []%not_elem_of_nil. }
    apply wpr_bind. eapply keep_consult; [exact A6|]. intros s7 A7 Hb7. destruct (he_hipHostGetDevicePointer _ _) as [rc base].
    assert (W7 : only [] s s7) by (eapply only_trans; [exact W6|by apply only_quiet]).
    destruct (negb _); [by apply wpr_ret, Hlost|]. unfold config. apply wpr_bind, wpr_gets.
    eapply on_qp_keeps; [reflexivity|done|exact A7|].
    intros s8 A8 O8. apply Hlost; [done|]. by eapply only_trans.
Qed.

Lemma copy_qp_keeps L s (Q : Z -> rdma -> Prop) :
  account B L s -> (forall rc s', account B L s' -> only [] s s' -> Q rc s') -> wpr copy_qp Q s.
Proof using.
  intros HA HQ. unfold copy_qp. apply wpr_bind. eapply keep_consult; [exact HA|]. intros s1 A1 Hb1. apply wpr_bind.
  destruct (_ =? 0).
  - apply wpr_modify, wpr_ret, HQ.
    + eapply acct_same; [..|exact A1]; done.
    + by split; cbn; rewrite Hb1.
  - apply wpr_ret, wpr_ret, HQ; [done|by apply only_quiet].
Qed.

(** What a step leaves of the object, the queue pair it points to apart. *)
Record touched (Fs : list bfield) (s s' : rdma) : Prop := {
  to_ptr G : G ∉ Fs -> be_ptr (rd_be s') G = be_ptr (rd_be s) G;
  to_provider : be_provider (rd_be s') = be_provider (rd_be s)
}.

Lemma only_touched Fs Gs s s' : Fs ⊆ Gs -> only Fs s s' -> touched Gs s s'.
Proof using. intros H [P V _ _ _]. split; [|done]. intros G HG. apply P. by intros HF%H. Qed.
Lemma touched_trans Fs s s1 s2 : touched Fs s s1 -> touched Fs s1 s2 -> touched Fs s s2.
Proof using. intros [P1 V1] [P2 V2]. split; [|congruence]. intros G HG. by rewrite P2, P1. Qed.

Definition gpu_fields (p : Provider) : list bfield :=
  F_host_qp :: F_gpu_qp :: (if bool_decide (p = MLX5) then mlx5_fields else []).

Lemma setup_gpu_qp_keeps L s :
  account B L s -> be_host_qp (rd_be s) = None -> be_ptr (rd_be s) F_host_qp = NULL -> be_ptr (rd_be s) F_gpu_qp = NULL ->
  (forall F, F ∈ mlx5_fields -> be_ptr (rd_be s) F = NULL) ->
  be_provider (rd_be s) = PROVIDER_UNKNOWN \/ has_gpu_qp (be_provider (rd_be s)) ->
  wpr setup_gpu_qp (fun _ s' => exists X, page_lost (be_provider (rd_be s)) X /\ account B (X ++ L) s'
    /\ touched (gpu_fields (be_provider (rd_be s))) s s'
    /\ (be_provider (rd_be s) = PROVIDER_UNKNOWN -> rd_be s' = rd_be s)) s.
Proof using EO VO.
  intros HA Hq HH HG HN Hp. unfold setup_gpu_qp, provider. apply wpr_bind, wpr_gets.
  destruct Hp as [Hp|Hp].
  { rewrite Hp. cbn. apply wpr_ret. exists []. split_and!; [by left|done|by split|done]. }
  rewrite bool_decide_eq_false_2 by (intros Heq; rewrite Heq in Hp; by destruct Hp).
  assert (Hnu : be_provider (rd_be s) <> PROVIDER_UNKNOWN) by (intros Heq; rewrite Heq in Hp; by destruct Hp).
  apply wpr_bind. eapply wpr_alloc_pair; [exact HA| |].
  2: { intros rc h d s1 Hrc [Hb1 _] H1. unfold hipSuccess. rewrite (proj2 (Z.eqb_neq rc 0) Hrc). cbn [negb].
       apply wpr_bind. apply wpr_modify. pose proof (account_quiet L s s1 Hb1 H1) as A1.
       destruct (account_unset F_host_qp L s1 ltac:(by rewrite Hb1) A1) as [A2 O2]. apply wpr_modify.
       destruct (account_unset F_gpu_qp L (set_be (upd_ptr F_host_qp NULL) s1) ltac:(cbn; by rewrite Hb1) A2) as [A3 O3].
       exists []. split_and!; [by left|exact A3| |done].
       eapply touched_trans; [eapply (only_touched []), only_quiet, Hb1; set_solver|].
       eapply touched_trans; [eapply only_touched, O2|eapply only_touched, O3]; unfold gpu_fields; set_solver. }
  intros h d s1 [Hb1 _] Hh Hd H1. cbn [negb Z.eqb hipSuccess].
  apply wpr_bind, wpr_modify, wpr_bind, wpr_modify. unfold field. apply wpr_bind, wpr_gets. set (s2 := set_be _ (set_be _ s1)).
  assert (A2 : account B L s2 /\ touched [F_host_qp; F_gpu_qp] s s2).
  { rewrite <- Hb1 in H1, HH, HG.
    destruct (account_set F_host_qp h (own KDevice d ++ L) s1 HH) as [A O].
    { eapply acct_perm, H1. cbn [kind]. solve_Permutation. }
    destruct (account_set F_gpu_qp d L (set_be (upd_ptr F_host_qp h) s1)) as [A' O']; [by cbn| |].
    { eapply acct_perm, A. cbn [kind rd_be set_be be_host_qp upd_ptr]. solve_Permutation. }
    split; [exact A'|]. eapply touched_trans; [eapply (only_touched []), only_quiet, Hb1; set_solver|].
    eapply touched_trans; [eapply only_touched, O|eapply only_touched, O']; set_solver. }
  destruct A2 as [A2 T2]. assert (E2 : be_provider (rd_be s2) = be_provider (rd_be s)) by by rewrite (to_provider _ _ _ T2).
  assert (Q2 : be_host_qp (rd_be s2) = None) by (cbn; by rewrite Hb1).
  apply wpr_bind. eapply new_QueuePair_keeps; [exact A2|done|]. intros q s3 Hb3 _ _ H3.
  apply wpr_bind, wpr_modify. set (s4 := set_be _ s3).
  assert (A4 : account B L s4).
  { unfold account. cbn [s4 rd_be set_be upd_qps be_host_qp]. rewrite Hb3, Q2 in *.
    eapply acct_same; [..|eapply acct_perm, H3]; [done..|].
    rewrite (members_same (rd_be s2) (upd_qps (Some q) (be_gpu_qp (rd_be s2)) (rd_be s2))) by done. cbn [owned_qp]. solve_Permutation. }
  assert (T4 : touched [F_host_qp; F_gpu_qp] s s4).
  { eapply touched_trans; [exact T2|]. split; cbn; by rewrite Hb3. }
  assert (N4 : forall F, F ∈ mlx5_fields -> be_ptr (rd_be s4) F = NULL).
  { intros F HF. rewrite (to_ptr _ _ _ T4); [by apply HN|]. clear -HF. unfold mlx5_fields in HF. set_solver. }
  apply wpr_bind. eapply wpr_mono; [apply initialize_gpu_qp_keeps; [exact A4|exact N4|by rewrite (to_provider _ _ _ T4)]|].
  intros [] s5 (X & HX & A5 & O5). rewrite (to_provider _ _ _ T4) in HX, O5.
  assert (T5 : touched (gpu_fields (be_provider (rd_be s))) s s5).
  { eapply touched_trans; [|eapply only_touched, O5; unfold gpu_fields; set_solver].
    destruct T4 as [P V]. split; [|done]. intros G HG'. apply P. unfold gpu_fields in HG'. set_solver. }
  apply wpr_bind. eapply copy_qp_keeps; [exact A5|]. intros rc s6 A6 O6.
  assert (T6 : touched (gpu_fields (be_provider (rd_be s))) s s6).
  { eapply touched_trans; [exact T5|]. eapply only_touched, O6. set_solver. }
  destruct (rc =? 0); [apply wpr_ret; by exists X|].
  assert (P6 : be_ptr (rd_be s6) F_gpu_qp = d).
  { rewrite (on_ptr _ _ _ O6) by set_solver. rewrite (on_ptr _ _ _ O5).
    - cbn. by rewrite Hb3.
    - case_bool_decide; unfold mlx5_fields; set_solver. }
  apply wpr_bind. eapply (wpr_free_device d _ (members (upd_ptr F_gpu_qp NULL (rd_be s6)) ++ owned_qp (be_host_qp (rd_be s6)) ++ X ++ L)).
  { eapply acct_perm, A6. rewrite (members_drop F_gpu_qp (rd_be s6)), P6. by rewrite <- app_assoc. }
  intros s7 [Hb7 _] H7. apply wpr_modify. exists X. split_and!; [done| | |done].
  - unfold account. cbn [rd_be set_be]. rewrite Hb7. eapply acct_same; [..|exact H7]; done.
  - eapply touched_trans; [exact T6|]. split; cbn; rewrite Hb7; [|done]. intros G HG'. rewrite decide_False; [done|].
    intros ->. apply HG'. unfold gpu_fields. set_solver.
Qed.
(** ** Calls between [init] and [shutdown] *)

Lemma register_data_buffer_keeps buf size L s (Q : Z -> rdma -> Prop) :
  account B L s ->
  (forall rc s', account B L s' -> only [F_heap_mr] s s' ->
     (be_ptr (rd_be s) F_host_qp = NULL -> rd_be s' = rd_be s) -> Q rc s') -> wpr (register_data_buffer buf size) Q s.
Proof using EO VO.
  intros HA HQ. unfold register_data_buffer, field, config, provider. do 2 (apply wpr_bind, wpr_gets).
  destruct (_ || _) eqn:Eg; [apply wpr_ret, HQ; [done|apply only_refl|done]|].
  assert (Hh : be_ptr (rd_be s) F_host_qp <> NULL).
  { intros H0. rewrite H0 in Eg. cbn in Eg. by rewrite orb_true_r in Eg. }
  apply wpr_bind, wpr_gets, wpr_bind. eapply wpr_drop_all; [exact HA|intros; by eapply wpr_dereg_mr|].
  intros s1 A1 N1 O1. do 2 (apply wpr_bind, wpr_gets).
  apply wpr_bind. eapply wpr_reg_mr_host; [exact A1|]. intros mr s2 [Hb2 _] H2. apply wpr_bind. rewrite <- Hb2 in H2, N1.
  eapply keep_set; [exact N1|exact H2|]. intros s3 A3 P3 O3.
  assert (O13 : only [F_heap_mr] s s3).
  { eapply only_trans; [exact O1|]. eapply only_trans; [apply (only_quiet _ _ _ Hb2)|exact O3]. }
  destruct (is_null mr); [by apply wpr_ret, HQ|]. apply wpr_bind, wpr_gets.
  destruct (ve_mr_keys mr) as [lkey rkey]. apply wpr_bind. eapply on_qp_keeps; [reflexivity|done|exact A3|].
  intros s4 A4 O4. apply wpr_bind, wpr_modify. set (s5 := set_be _ s4).
  assert (A5 : account B L s5) by (eapply acct_same; [..|exact A4]; done).
  apply wpr_bind. eapply copy_qp_keeps; [exact A5|]. intros rc s6 A6 O6. apply wpr_ret, HQ; [done| |done].
  eapply only_trans; [exact O13|]. eapply only_trans; [eapply only_weaken, O4; intros F []%not_elem_of_nil|].
  eapply (only_trans _ _ s5); [by split|]. eapply only_weaken, O6. intros F []%not_elem_of_nil.
Qed.

Lemma set_remote_rkey_keeps k L s (Q : Z -> rdma -> Prop) :
  account B L s ->
  (forall rc s', account B L s' -> only [] s s' -> (be_ptr (rd_be s) F_host_qp = NULL -> rd_be s' = rd_be s) -> Q rc s') ->
  wpr (set_remote_rkey k) Q s.
Proof using.
  intros HA HQ. unfold set_remote_rkey, field, provider. do 2 (apply wpr_bind, wpr_gets).
  destruct (_ || _) eqn:Eg; [apply wpr_ret, HQ; [done|apply only_refl|done]|].
  assert (Hh : be_ptr (rd_be s) F_host_qp <> NULL) by (intros H0; by rewrite H0 in Eg).
  apply wpr_bind, wpr_gets, wpr_bind. eapply on_qp_keeps; [reflexivity|done|exact HA|]. intros s1 A1 O1.
  apply wpr_bind. eapply copy_qp_keeps; [exact A1|]. intros rc s2 A2 O2. apply wpr_ret, HQ; [done| |done].
  by eapply only_trans.
Qed.

Inductive call := CRegister (buf size : Z) | CRemoteKey (key : Z) | CConnect (remote : DestInfo).

Definition run_call (c : call) : RM Z :=
  match c with
  | CRegister buf size => register_data_buffer buf size
  | CRemoteKey key => set_remote_rkey key
  | CConnect remote => connect_to_peer remote
  end.

Fixpoint run_calls (l : list call) : RM unit :=
  match l with [] => rret tt | c :: l => run_call c >>> run_calls l end.

Lemma run_call_keeps c L s (Q : Z -> rdma -> Prop) :
  account B L s ->
  (forall rc s', account B L s' -> only [F_heap_mr] s s' ->
     (be_ptr (rd_be s) F_host_qp = NULL -> rd_be s' = rd_be s) -> Q rc s') -> wpr (run_call c) Q s.
Proof using EO VO.
  intros HA HQ. destruct c as [buf size|key|remote]; cbn [run_call].
  - by eapply register_data_buffer_keeps.
  - eapply set_remote_rkey_keeps; [exact HA|]. intros rc s' A' O'. apply HQ; [done|].
    eapply only_weaken, O'. intros F []%not_elem_of_nil.
  - unfold connect_to_peer, field. apply wpr_bind, wpr_gets.
    destruct (is_null _); [apply wpr_ret, HQ; [done|apply only_refl|done]|].
    apply wpr_bind. eapply connect_keeps; [exact HA|]. intros s1 A1 Hb. apply wpr_ret, HQ; [done|by apply only_quiet|done].
Qed.

Lemma run_calls_keep l L s :
  account B L s ->
  wpr (run_calls l) (fun _ s' => account B L s' /\ only [F_heap_mr] s s'
    /\ (be_ptr (rd_be s) F_host_qp = NULL -> rd_be s' = rd_be s)) s.
Proof using EO VO.
  revert s. induction l as [|c l IH]; intros s HA; cbn [run_calls]; [apply wpr_ret; split_and!; [done|apply only_refl|done]|].
  apply wpr_bind. eapply run_call_keeps; [exact HA|]. intros rc s1 A1 O1 H1.
  eapply wpr_mono; [by apply IH|]. intros [] s2 (A2 & O2 & H2). split_and!; [done|by eapply only_trans|].
  intros H0. rewrite H2; [by apply H1|]. by rewrite (H1 H0).
Qed.

(** ** [init] *)

(** What the object is between [init] and [shutdown]. *)
Record settled (s : rdma) : Prop := {
  se_pd : be_ptr (rd_be s) F_pd <> NULL -> pd_new s;
  se_known : be_provider (rd_be s) = PROVIDER_UNKNOWN \/ has_gpu_qp (be_provider (rd_be s));
  se_mlx5 F : be_provider (rd_be s) <> MLX5 -> F ∈ mlx5_fields -> be_ptr (rd_be s) F = NULL;
  se_plain : be_provider (rd_be s) = PROVIDER_UNKNOWN ->
    be_host_qp (rd_be s) = None /\ forall F, F ∈ [F_host_qp; F_gpu_qp; F_pd_parent; F_heap_mr] -> be_ptr (rd_be s) F = NULL
}.

(** Before there is a queue pair for the GPU. *)
Lemma settled_early s2 s' :
  (forall F, F ∉ [F_context; F_pd] -> be_ptr (rd_be s2) F = NULL) -> pd_new s2 -> be_host_qp (rd_be s2) = None ->
  be_provider (rd_be s2) = PROVIDER_UNKNOWN \/ has_gpu_qp (be_provider (rd_be s2)) ->
  only [F_cq; F_qp; F_pd_parent] s2 s' ->
  (be_provider (rd_be s2) <> IONIC -> be_ptr (rd_be s') F_pd_parent = NULL) ->
  settled s' /\ be_host_qp (rd_be s') = None
  /\ forall F, F ∈ F_host_qp :: F_gpu_qp :: mlx5_fields -> be_ptr (rd_be s') F = NULL.
Proof using.
  intros Z2 N2 Q2 K2 O N. pose proof (on_provider _ _ _ O) as EP.
  assert (Z : forall F, F ∈ F_host_qp :: F_gpu_qp :: mlx5_fields -> be_ptr (rd_be s') F = NULL).
  { intros F HF. rewrite (on_ptr _ _ _ O), Z2; [done| |]; intros Hin; revert HF; unfold mlx5_fields;
      rewrite !list_elem_of_In in *; cbn in *; intuition congruence. }
  split_and!; [split|by apply (on_none _ _ _ O)|exact Z].
  - intros _. eapply pd_new_only, N2; [|exact O]. by intros Hin%(bool_decide_pack _).
  - by rewrite EP.
  - intros F _ HF. apply Z. do 2 right. exact HF.
  - rewrite EP. intros Hu. split; [by apply (on_none _ _ _ O)|]. intros F HF.
    destruct (decide (F = F_pd_parent)) as [->|Hne]; [apply N; by rewrite Hu|].
    rewrite (on_ptr _ _ _ O), Z2; [done| |]; intros Hin; revert HF;
      rewrite !list_elem_of_In in *; cbn in *; intuition congruence.
Qed.

Lemma settled_later s s' :
  settled s -> be_host_qp (rd_be s) = None -> touched (gpu_fields (be_provider (rd_be s))) s s' ->
  (be_provider (rd_be s) = PROVIDER_UNKNOWN -> rd_be s' = rd_be s) -> settled s'.
Proof using.
  intros [S1 S2 S3 S4] _ [TP TV] Hu. split.
  - intros Hp. assert (Epd : be_ptr (rd_be s') F_pd = be_ptr (rd_be s) F_pd).
    { apply TP. unfold gpu_fields. case_bool_decide; by intros Hin%(bool_decide_pack _). }
    unfold pd_new. rewrite Epd in *. by apply S1.
  - by rewrite TV.
  - rewrite TV. intros F Hm HF. rewrite TP; [by apply S3|]. unfold gpu_fields. rewrite bool_decide_eq_false_2 by done.
    intros Hin. revert HF. unfold mlx5_fields. rewrite !list_elem_of_In in *. cbn in *. intuition congruence.
  - rewrite TV. intros H0. rewrite (Hu H0). by apply S4.
Qed.

Lemma init_keeps c s :
  rd_be s = new_Backend c -> account B [] s ->
  wpr (init true) (fun _ s' => exists X, page_lost (be_provider (rd_be s')) X /\ account B X s' /\ settled s') s.
Proof using EO VO.
  intros Hnew HA. unfold init. cbn [negb]. apply wpr_bind. eapply wpr_mono; [by apply open_dv_libs_keeps|].
  intros [] s1 [A1 [P1 Q1 K1]]. rewrite Hnew in P1, Q1. cbn in P1, Q1.
  apply wpr_bind. eapply wpr_mono; [by apply open_ib_device_keeps|]. intros [] s2 (A2 & O2 & N2).
  assert (Z2 : forall F, F ∉ [F_context; F_pd] -> be_ptr (rd_be s2) F = NULL).
  { intros F HF. by rewrite (on_ptr _ _ _ O2). }
  apply wpr_bind. eapply wpr_mono; [apply create_queues_keeps; [done|apply Z2; by intros Hin%(bool_decide_pack _)..]|].
  intros [] s3 (A3 & O3 & N3).
  assert (S3 : forall s', rd_be s' = rd_be s3 -> settled s' /\ be_host_qp (rd_be s') = None
    /\ forall F, F ∈ F_host_qp :: F_gpu_qp :: mlx5_fields -> be_ptr (rd_be s') F = NULL).
  { intros s' Hb. apply (settled_early s2 s'); [done|done|by apply (on_none _ _ _ O2)| | |by rewrite Hb].
    - rewrite (on_provider _ _ _ O2). destruct K1 as [K|[K|K]]; rewrite K; unfold has_gpu_qp; tauto.
    - eapply only_trans; [exact O3|by apply only_quiet]. }
  unfold field, config, provider. apply wpr_bind, wpr_gets. destruct (is_null _).
  { apply wpr_ret. exists []. split_and!; [by left|done|by apply S3]. }
  do 2 (apply wpr_bind, wpr_gets). apply wpr_bind.
  assert (Hrest : forall smoke s', account B [] s' -> rd_be s' = rd_be s3 ->
    wpr (if negb (smoke =? 0) then rret (-1) else setup_gpu_qp >>> rret 0)
      (fun _ s' => exists X, page_lost (be_provider (rd_be s')) X /\ account B X s' /\ settled s') s').
  { intros smoke s' A' Hb. destruct (S3 s' Hb) as (S' & Q' & Z'). destruct (negb _).
    { apply wpr_ret. exists []. split_and!; [by left|done|done]. }
    apply wpr_bind. eapply wpr_mono.
    { apply setup_gpu_qp_keeps; [exact A'|done|apply Z'; by left|apply Z'; right; by left| |apply S'].
      intros F HF. apply Z'. do 2 right. exact HF. }
    intros [] s4 (X & HX & A4 & T4 & U4). apply wpr_ret. exists X. rewrite (to_provider _ _ _ T4).
    rewrite app_nil_r in A4. split_and!; [done|done|by eapply settled_later]. }
  destruct (bc_loopback _).
  - apply wpr_bind. unfold setup_qp_loopback. apply wpr_bind, wpr_gets. eapply connect_keeps; [exact A3|]. intros s4 A4 H4.
    destruct (bool_decide _).
    + eapply smoke_test_keeps; [exact A4|]. intros rc s5 A5 H5. apply Hrest; [done|congruence].
    + apply wpr_ret. by apply Hrest.
  - apply wpr_ret. by apply Hrest.
Qed.

(** The calls in between leave it so. *)
Lemma settled_calls s s' :
  settled s -> only [F_heap_mr] s s' -> (be_ptr (rd_be s) F_host_qp = NULL -> rd_be s' = rd_be s) -> settled s'.
Proof using.
  intros [S1 S2 S3 S4] O U. pose proof (on_provider _ _ _ O) as EP.
  assert (EH : forall F, F <> F_heap_mr -> be_ptr (rd_be s') F = be_ptr (rd_be s) F).
  { intros F HF. apply (on_ptr _ _ _ O). by intros ->%list_elem_of_singleton. }
  split.
  - rewrite EH by done. intros Hp. eapply pd_new_only, S1, Hp; [|exact O]. by intros Hin%list_elem_of_singleton.
  - by rewrite EP.
  - rewrite EP. intros F Hm HF. rewrite EH; [by apply S3|]. intros ->. revert HF. by intros Hx%(bool_decide_pack _).
  - rewrite EP. intros Hu. destruct (S4 Hu) as [Hq Hz]. rewrite U; [done|]. apply Hz. by left.
Qed.

(** ** [shutdown] *)

Definition nulls (Fs : list bfield) (s : rdma) : Prop := forall F, F ∈ Fs -> be_ptr (rd_be s) F = NULL.

Lemma nulls_more F Fs s s' : nulls Fs s -> only [F] s s' -> be_ptr (rd_be s') F = NULL -> nulls (F :: Fs) s'.
Proof using.
  intros HN HO HF G HG. destruct (decide (G = F)) as [->|Hne]; [done|].
  rewrite (on_ptr _ _ _ HO); [|by intros ->%list_elem_of_singleton]. apply HN.
  by apply elem_of_cons in HG as [|HG].
Qed.

Lemma cleanup_gpu_qp_keeps L s (Q : unit -> rdma -> Prop) :
  account B L s ->
  (forall s', account B (owned_qp (be_host_qp (rd_be s)) ++ L) s' -> be_host_qp (rd_be s') = None ->
     nulls [F_host_qp; F_gpu_qp] s' -> touched [F_host_qp; F_gpu_qp] s s' -> Q tt s') -> wpr cleanup_gpu_qp Q s.
Proof using.
  intros HA HQ. unfold cleanup_gpu_qp, field. do 2 (apply wpr_bind, wpr_gets).
  set (b := upd_ptr F_gpu_qp NULL (upd_ptr F_host_qp NULL (rd_be s))).
  apply wpr_bind. eapply (wpr_free_pair _ _ _ (members b ++ owned_qp (be_host_qp (rd_be s)) ++ L)).
  { eapply acct_perm, HA. rewrite (members_drop F_host_qp (rd_be s)), (members_drop F_gpu_qp (upd_ptr _ _ _)).
    unfold b. cbn [be_ptr upd_ptr kind]. rewrite decide_False by done. solve_Permutation. }
  intros s1 [Hb1 _] H1. apply wpr_bind, wpr_modify, wpr_bind, wpr_modify, wpr_modify. apply HQ.
  - unfold account. cbn [rd_be set_be upd_qps be_host_qp owned_qp]. rewrite Hb1.
    eapply acct_same; [..|exact H1]; done.
  - done.
  - intros F HF. cbn. apply elem_of_cons in HF as [->|HF]; [done|]. by apply list_elem_of_singleton in HF as ->.
  - split; cbn; rewrite Hb1; [|done]. intros G HG. rewrite !decide_False; [done|..]; intros ->; apply HG; [by left|].
    right. by left.
Qed.

Lemma mlx5_cleanup_keeps L s (Q : unit -> rdma -> Prop) :
  account B L s -> (forall s', account B L s' -> nulls mlx5_fields s' -> only mlx5_fields s s' -> Q tt s') ->
  wpr mlx5_cleanup Q s.
Proof using EO VO.
  intros HA HQ. unfold mlx5_cleanup.
  assert (Hun : forall p R s1 (P : unit -> rdma -> Prop), acct B (RRegistered p :: R) s1 ->
    (forall s2, rd_be s2 = rd_be s1 -> acct B R s2 -> P tt s2) -> wpr (lift (hipHostUnregister p ;;; ret tt)) P s1).
  { intros p R s1 P H1 HP. apply wpr_lift_bind. eapply wpr_unregister; [exact H1|]. intros s2 [Hb2 _] H2.
    apply wpr_lift_ret. rewrite set_host_id. by apply HP. }
  apply wpr_bind. eapply (wpr_drop_all F_mlx5_bf (fun p => lift (hsa_amd_memory_unlock p))); [exact HA| |].
  { intros p R s1 P _ H1 HP. eapply wpr_give; [exact H1|done|]. intros s2 [Hb2 _]. by apply HP. }
  intros s1 A1 N1 O1. apply wpr_bind.
  eapply (wpr_drop_all F_mlx5_cq_dbr (fun p => lift (hipHostUnregister p ;;; ret tt))); [exact A1|by eauto|].
  intros s2 A2 N2 O2. apply wpr_bind.
  eapply (wpr_drop_all F_mlx5_sq_dbr (fun p => lift (hipHostUnregister p ;;; ret tt))); [exact A2|by eauto|].
  intros s3 A3 N3 O3. apply wpr_bind.
  eapply (wpr_drop_all F_mlx5_cq (fun p => lift (hipHostUnregister p ;;; ret tt))); [exact A3|by eauto|].
  intros s4 A4 N4 O4.
  eapply (wpr_drop_all F_mlx5_sq (fun p => lift (hipHostUnregister p ;;; ret tt))); [exact A4|by eauto|].
  intros s5 A5 N5 O5.
  apply HQ; [done| |].
  - unfold mlx5_fields. do 5 (eapply nulls_more; [|eassumption|eassumption]). by intros F []%not_elem_of_nil.
  - assert (W : forall F, F ∈ mlx5_fields -> [F] ⊆ mlx5_fields) by (intros F HF G ->%list_elem_of_singleton; done).
    repeat (eapply only_trans; [eapply only_weaken; [|eassumption]; apply W; by apply (bool_decide_unpack _)|]).
    apply only_refl.
Qed.
(** A protection domain goes, or stays behind. *)
Definition pd_lost (s : rdma) (F : bfield) (X : list host_res) : Prop := X = [] \/ X = [(KPd, be_ptr (rd_be s) F, 0)].

Lemma drop_pd_keeps F L s (Q : unit -> rdma -> Prop) :
  kind F = KPd -> account B L s ->
  (forall X s', pd_lost s F X -> account B (X ++ L) s' -> be_ptr (rd_be s') F = NULL -> only [F] s s' ->
     (X <> [] -> be_ptr (rd_be s) F <> NULL /\ exists s1, acct B ((KPd, be_ptr (rd_be s) F, 0)
          :: members (upd_ptr F NULL (rd_be s)) ++ owned_qp (be_host_qp (rd_be s)) ++ L) s1
        /\ ~ forall k x n, (k, x, n) ∈ ho_held (rd_host s1) -> ve_on k x <> be_ptr (rd_be s) F) -> Q tt s') ->
  wpr (drop_field F (fun pd => ibv_dealloc_pd pd >>> rret tt)) Q s.
Proof using EO VO.
  intros Hk HA HQ.
  eapply (wpr_drop F _ (fun X => pd_lost s F X /\ (X <> [] -> be_ptr (rd_be s) F <> NULL /\ exists s1,
    acct B ((KPd, be_ptr (rd_be s) F, 0) :: members (upd_ptr F NULL (rd_be s)) ++ owned_qp (be_host_qp (rd_be s)) ++ L) s1
    /\ ~ forall k x n, (k, x, n) ∈ ho_held (rd_host s1) -> ve_on k x <> be_ptr (rd_be s) F))); [exact HA| | |].
  - intros R s1 Hb1 Hp H1 ER. rewrite Hk in H1. apply wpr_bind. eapply wpr_dealloc_pd; [exact H1| |].
    + intros s2 [Hb2 _] H2. apply wpr_ret. exists []. split_and!; [by left|done|congruence|done].
    + intros rc s2 _ [Hb2 _] H2 Hno. apply wpr_ret. exists [(KPd, be_ptr (rd_be s) F, 0)].
      split_and!; [by right| |congruence|done]. intros _. split; [done|]. exists s1. rewrite <- ER. split; [done|by apply Hno].
  - intros s' A' N' O'. by apply (HQ []); [left|..].
  - intros X s' [HX Hno] A' N' O'. by apply (HQ X).
Qed.

(** With nothing but the context and the domain in the object, nothing can be
    on the domain. *)
Lemma nothing_on_pd s s1 :
  pd_new s -> be_host_qp (rd_be s) = None -> (forall F, F ∉ [F_context; F_pd] -> be_ptr (rd_be s) F = NULL) ->
  acct B ((KPd, be_ptr (rd_be s) F_pd, 0) :: members (upd_ptr F_pd NULL (rd_be s)) ++ owned_qp (be_host_qp (rd_be s)) ++ []) s1 ->
  forall k x n, (k, x, n) ∈ ho_held (rd_host s1) -> ve_on k x <> be_ptr (rd_be s) F_pd.
Proof using VO.
  intros (Hpd & Hon & Hno) Hq HZ H1 k x n Hin.
  assert (EM : members (upd_ptr F_pd NULL (rd_be s)) = own KContext (be_ptr (rd_be s) F_context)).
  { assert (HN : forall F, F <> F_context -> own (kind F) (be_ptr (upd_ptr F_pd NULL (rd_be s)) F) = []).
    { intros F HF. cbn. destruct (decide (F = F_pd)) as [|Hne]; [done|]. rewrite HZ; [done|].
      intros Hf. apply elem_of_cons in Hf as [|Hf]; [done|]. by apply list_elem_of_singleton in Hf. }
    unfold members, all_fields. cbn [fmap list_fmap concat].
    rewrite (HN F_pd), (HN F_pd_parent), (HN F_cq), (HN F_qp), (HN F_heap_mr), (HN F_host_qp), (HN F_gpu_qp),
      (HN F_mlx5_sq), (HN F_mlx5_cq), (HN F_mlx5_sq_dbr), (HN F_mlx5_cq_dbr), (HN F_mlx5_bf) by done.
    cbn [app]. rewrite app_nil_r. cbn [be_ptr upd_ptr]. by rewrite decide_False by done. }
  rewrite EM, Hq in H1. cbn [owned_qp app] in H1. rewrite app_nil_r in H1.
  assert (EF : descriptors (rd_fds s1) = []).
  { destruct (decide (rd_fds s1 = ∅)) as [->|Hne]; [done|]. apply map_choose in Hne as (mr & fd & Hm).
    destruct (ac_fds _ _ _ H1 _ _ Hm) as (_ & Hk & _). apply elem_of_cons in Hk as [Hk|Hk]; [done|].
    unfold own in Hk. destruct (is_null _); [by apply not_elem_of_nil in Hk|]. by apply list_elem_of_singleton in Hk. }
  pose proof (ac_holds _ _ _ H1) as Hh. rewrite EF, app_nil_r in Hh.
  apply (holds_only _ _ _ _ Hh) in Hin as [Hin|Hin]; [by eapply Hno|]. apply elem_of_cons in Hin as [[= -> -> ->]|Hin].
  - rewrite Hon. congruence.
  - unfold own in Hin. destruct (is_null _); [by apply not_elem_of_nil in Hin|].
    apply list_elem_of_singleton in Hin as [= -> -> ->]. rewrite (vo_on_pd (VE:=VE)) by done. congruence.
Qed.

(** What [shutdown] leaves. *)
Record shut (X : list host_res) (s s' : rdma) : Prop := {
  sh_held : exists pds, pds ⊆+ [(KPd, be_ptr (rd_be s) F_pd_parent, 0); (KPd, be_ptr (rd_be s) F_pd, 0)]
    /\ acct B (owned_qp (be_host_qp (rd_be s)) ++ X ++ pds) s'
    /\ (be_provider (rd_be s) = PROVIDER_UNKNOWN -> X = [] -> pds = []);
  sh_null F : be_ptr (rd_be s') F = NULL
}.
Lemma shutdown_keeps X s :
  account B X s -> settled s -> wpr shutdown (fun _ s' => shut X s s') s.
Proof using EO VO.
  intros HA [S1 S2 S3 S4]. unfold shutdown, provider. apply wpr_bind. eapply cleanup_gpu_qp_keeps; [exact HA|].
  set (O := owned_qp (be_host_qp (rd_be s))). intros s1 A1 Q1 N1 T1. apply wpr_bind, wpr_gets, wpr_bind.
  (* the fields besides those of the GPU's queue pair *)
  assert (Hm : forall (Q : unit -> rdma -> Prop),
    (forall s2, account B (O ++ X) s2 -> nulls (F_host_qp :: F_gpu_qp :: mlx5_fields) s2 -> only mlx5_fields s1 s2 -> Q tt s2) ->
    wpr (if bool_decide (be_provider (rd_be s1) = MLX5) then mlx5_cleanup else rret tt) Q s1).
  { intros Q HQ. rewrite (to_provider _ _ _ T1). case_bool_decide as Hp.
    - eapply mlx5_cleanup_keeps; [exact A1|]. intros s2 A2 N2 O2. apply HQ; [done| |done]. intros F HF.
      destruct (decide (F ∈ mlx5_fields)) as [|Hn]; [by apply N2|]. rewrite (on_ptr _ _ _ O2) by done. apply N1.
      apply elem_of_cons in HF as [->|HF]; [by left|]. apply elem_of_cons in HF as [->|HF]; [right; by left|done].
    - apply wpr_ret, HQ; [done| |apply only_refl]. intros F HF.
      destruct (decide (F ∈ [F_host_qp; F_gpu_qp])) as [|Hn]; [by apply N1|]. rewrite (to_ptr _ _ _ T1) by done.
      apply S3; [done|]. apply elem_of_cons in HF as [->|HF]; [by destruct Hn; left|].
      apply elem_of_cons in HF as [->|HF]; [by destruct Hn; right; left|done]. }
  apply Hm. clear Hm. intros s2 A2 N2 O2. apply wpr_bind. eapply (wpr_drop_all F_qp); [exact A2| |].
  { intros p R s3 P _ H3 HP. eapply wpr_destroy_qp; [exact H3|]. intros s4 [Hb _]. by apply HP. }
  intros s3 A3 N3 O3. apply wpr_bind. eapply (wpr_drop_all F_cq); [exact A3| |].
  { intros p R s4 P _ H4 HP. eapply wpr_give; [exact H4|done|]. intros s5 [Hb _]. by apply HP. }
  intros s4 A4 N4 O4. apply wpr_bind. eapply (wpr_drop_all F_heap_mr); [exact A4|intros; by eapply wpr_dereg_mr|].
  intros s5 A5 N5 O5. apply wpr_bind. eapply (drop_pd_keeps F_pd_parent); [done|exact A5|]. intros X1 s6 HX1 A6 N6 O6 Hno1.
  apply wpr_bind. eapply (drop_pd_keeps F_pd); [done|exact A6|]. intros X2 s7 HX2 A7 N7 O7 Hno.
  apply wpr_bind. eapply (wpr_drop_all F_context); [exact A7| |].
  { intros p R s8 P _ H8 HP. eapply wpr_give; [exact H8|done|]. intros s9 [Hb _]. by apply HP. }
  intros s8 A8 N8 O8. apply wpr_ret.
  assert (NF : forall F, be_ptr (rd_be s8) F = NULL).
  { assert (H : nulls (F_context :: F_pd :: F_pd_parent :: F_heap_mr :: F_cq :: F_qp :: F_host_qp :: F_gpu_qp :: mlx5_fields) s8).
    { do 6 (eapply nulls_more; [|eassumption|eassumption]). exact N2. }
    intros F. apply H. apply (bool_decide_unpack _). by destruct F. }
  assert (Q8 : be_host_qp (rd_be s8) = None).
  { apply (on_none _ _ _ O8), (on_none _ _ _ O7), (on_none _ _ _ O6), (on_none _ _ _ O5), (on_none _ _ _ O4),
      (on_none _ _ _ O3), (on_none _ _ _ O2), Q1. }
  assert (PD : forall F, F ∈ [F_pd; F_pd_parent] -> be_ptr (rd_be s5) F = be_ptr (rd_be s) F).
  { intros F HF. rewrite (on_ptr _ _ _ O5), (on_ptr _ _ _ O4), (on_ptr _ _ _ O3), (on_ptr _ _ _ O2), (to_ptr _ _ _ T1);
      [done|apply elem_of_cons in HF as [->|HF%list_elem_of_singleton]; [|subst F]; by intros Hx%(bool_decide_pack _)..]. }
  assert (P6 : be_ptr (rd_be s6) F_pd = be_ptr (rd_be s) F_pd).
  { rewrite (on_ptr _ _ _ O6), PD; [done|by left|by intros Hx%(bool_decide_pack _)]. }
  split; [|exact NF]. exists (X1 ++ X2). split_and!.
  - unfold pd_lost in HX1, HX2. rewrite P6 in HX2. rewrite (PD F_pd_parent) in HX1 by (right; by left).
    destruct HX1 as [-> | ->], HX2 as [-> | ->]; cbn; solve_submseteq.
  - unfold account in A8. rewrite (members_null _ NF), Q8 in A8. cbn [owned_qp app] in A8.
    eapply acct_perm, A8. solve_Permutation.
  - intros Hu ->. destruct (S4 Hu) as [Hq Hz]. unfold O in *. rewrite Hq in *. cbn [owned_qp app] in *.
    assert (X1 = []) as ->.
    { destruct X1 as [|x X1]; [done|]. destruct (Hno1 ltac:(done)) as [Hp _]. exfalso. apply Hp.
      rewrite PD by (right; by left). apply Hz. do 2 right. by left. }
    destruct X2 as [|x X2]; [done|]. destruct (Hno ltac:(done)) as [Hp (s9 & H9 & Hn9)]. exfalso. apply Hn9.
    apply (nothing_on_pd s6 s9); [| | |].
    + rewrite P6 in Hp. destruct (S1 Hp) as (G1 & G2 & G3). unfold pd_new. by rewrite P6.
    + apply (on_none _ _ _ O6), (on_none _ _ _ O5), (on_none _ _ _ O4), (on_none _ _ _ O3), (on_none _ _ _ O2), Q1.
    + assert (H : nulls (F_pd_parent :: F_heap_mr :: F_cq :: F_qp :: F_host_qp :: F_gpu_qp :: mlx5_fields) s6).
      { do 4 (eapply nulls_more; [|eassumption|eassumption]). exact N2. }
      intros F HF. apply H. destruct F; try (by destruct HF; apply (bool_decide_unpack _)); by apply (bool_decide_unpack _).
    + exact H9.
Qed.
End Account.
