(* ===== verification/RdmaDemo.v ===== *)
(** * A concrete NIC

    An instance of [VerbsEnv] that keeps the promises of [VerbsEnvOk], above
    the host of [HostDemo]: every call succeeds when its arguments allow it,
    handles come from above everything that is held, a protection domain is a
    small number and the objects made on it carry that number, and it can be
    given back when there are none.  Switches say which provider's library is
    installed and whether regions are made from dma-bufs. *)

From Stdlib Require Import Ascii.
From stdpp Require Import strings.
From S2P Require Import Prelude Kernel State HostEnv HostDemo HostMem HostPci Endian RdmaTopo RdmaEnv RdmaGpu RdmaBackend RdmaConnect RdmaHeld.

Open Scope Z_scope.

Definition demo_on (k : res_kind) (x : ptr) : ptr := match k with KMr | KQp => x mod 16 | _ => 0 end.

Definition on_some (held : gset host_res) (p : ptr) : bool :=
  existsb (fun r => demo_on r.1.1 r.1.2 =? p) (elements held).

Definition free_pd (held : gset host_res) : ptr :=
  default NULL (find_first (fun p => negb (bool_decide ((KPd, p, 0) ∈ held)) && negb (on_some held p)) (seqZ 1 15)).

Definition new_handle (held : gset host_res) (pd : ptr) : ptr := top_page held + pd mod 16.

Definition demo_mlx5_objects : mlx5_objects :=
  {| mo_sq_buf := 1048576; mo_sq_wqe_cnt := 4; mo_sq_stride := 64; mo_qp_dbrec := 1114112; mo_qp_dbrec1 := 0;
     mo_bf_reg := 1179648; mo_bf_size := 256; mo_cq_buf := 1245184; mo_cqe_cnt := 2; mo_cqe_size := 64;
     mo_cq_dbrec := 1310720; mo_cq_dbrec0 := 0 |}.

Definition demo_ionic_objects : ionic_objects :=
  {| io_db_page := 1376256; io_db_ptr := 1376320; io_sq_qtype := 3; io_cq_qtype := 6;
     io_cq_ptr := 1441792; io_cq_mask := 8191; io_cq_db_val := 5;
     io_sq_ptr := 1507328; io_sq_mask := 255; io_sq_db_val := 9 |}.

Definition demo_verbs (installed : option Provider) (dmabuf : bool) (number : Z) (address : gid) : VerbsEnv := {|
  ve_device_list v := Some (top_page v.1, [16]);
  ve_device_name _ := chars "nic0";
  ve_open v _ := top_page v.1;
  ve_query_device _ _ := (0, 16);
  ve_query_port _ _ _ := (0, {| pa_lid := 0; pa_active_mtu := 5; pa_ethernet := true |});
  ve_query_gid _ _ _ _ := (0, address);
  ve_alloc_pd v _ := free_pd v.1;
  ve_alloc_parent_domain v _ := top_page v.1;
  ve_dealloc_pd v p := if on_some v.1 p then 16 else 0;
  ve_create_cq v _ _ := top_page v.1;
  ve_create_qp v a := new_handle v.1 (qi_pd a);
  ve_qp_num _ := number;
  ve_modify_qp _ now a m := if transition_ok (qn_state now) (qa_qp_state a) m then 0 else EINVAL;
  ve_reg_mr v pd _ _ _ := new_handle v.1 pd;
  ve_reg_dmabuf_mr v pd _ _ _ _ _ := new_handle v.1 pd;
  ve_mr_keys mr := (u32 mr, u32 (mr + 1));
  ve_on := demo_on;
  ve_dmabuf := dmabuf;
  ve_hipMemcpy _ := 0;
  ve_sizeof_QueuePair := 4096;
  ve_core_dir := false;
  ve_dlopen _ p place := if bool_decide (installed = Some p) then 1 else NULL;
  ve_dlsym _ _ := true;
  ve_mlx5_is_supported := None;
  ve_mlx5_init_obj _ _ _ := (0, demo_mlx5_objects);
  ve_lock_to_pool v p _ := if (p =? NULL) || bool_decide (RLocked p ∈ v.1) then (1, NULL) else (0, p);
  ve_post_send _ := 0;
  ve_poll_cq _ _ := (1, 0);
  ve_arrived _ := true;
  ve_ionic_create_cq v _ _ := top_page v.1;
  ve_ionic_get_ctx _ := 0;
  ve_ionic_qp_set_gda _ := 0;
  ve_ionic_get_cq _ := 0;
  ve_ionic_get_qp _ := 0;
  ve_ionic_objects _ _ := demo_ionic_objects
|}.

Lemma new_handle_unused held pd k n : (k, new_handle held pd, n) ∉ held.
Proof.
  unfold new_handle. intros Hin%top_page_above. pose proof (Z.mod_pos_bound pd 16 ltac:(done)). lia.
Qed.

Lemma on_some_true held p : on_some held p = true <-> exists k x n, (k, x, n) ∈ held /\ demo_on k x = p.
Proof.
  unfold on_some. rewrite existsb_exists. split.
  - intros ([[k x] n] & Hin & He). apply list_elem_of_In, elem_of_elements in Hin. exists k, x, n. split; [done|].
    cbn in He. lia.
  - intros (k & x & n & Hin & He). exists (k, x, n). split; [by apply list_elem_of_In, elem_of_elements|]. cbn. lia.
Qed.

Lemma free_pd_free held :
  free_pd held <> NULL -> (KPd, free_pd held, 0) ∉ held /\ on_some held (free_pd held) = false.
Proof.
  unfold free_pd. destruct (find_first _ _) as [p|] eqn:Ef; [|done]. cbn. intros _.
  apply find_first_Some in Ef as [_ Hp]. apply andb_true_iff in Hp as [H1 H2].
  apply negb_true_iff in H1, H2. by apply bool_decide_eq_false in H1.
Qed.

Lemma demo_verbs_ok b a f installed dmabuf number address :
  VerbsEnvOk (demo_host b a f) (demo_verbs installed dmabuf number address).
Proof.
  split; cbn; intros; simplify_eq/=; 
    match goal with
    | |- context [new_handle] => apply new_handle_unused
    | |- context [top_page] => apply top_page_unused
    | _ => try done
    end.
  - destruct (free_pd_free v.1 H) as [H1 H2]. split_and!; [done|done|]. intros k x n Hin He.
    assert (on_some v.1 (free_pd v.1) = true) by (apply on_some_true; eauto 10). congruence.
  - by destruct k.
  - destruct (on_some v.1 p) eqn:Eo; [|done]. exfalso. apply on_some_true in Eo as (k & x & n & Hin & He). by eapply H1.
  - case_match eqn:Eo; [done|]. apply orb_false_iff in Eo as [E1 E2]. bool_to_prop. simplify_eq/=. split; [lia|].
    by apply bool_decide_eq_false in E2.
Qed.

Lemma demo_nic_exact installed dmabuf number address : @nic_exact (demo_verbs installed dmabuf number address).
Proof. intros v now a m. cbn. by destruct (transition_ok _ _ _). Qed.
