(* ===== verification/RdmaLife.v ===== *)
(** * What holds of the RDMA backend

    The properties of the life of the [Backend] object: what the process holds
    after [shutdown], what registering data does to the keys the GPU uses, and
    two nodes that connect to each other over the exchange of [TcpExchange];
    each on the host and NIC of [RdmaDemo]. *)

From Stdlib Require Import Ascii.
From stdpp Require Import strings.
From S2P Require Import Prelude Uapi Kernel State Demo HostEnv HostDemo HostMem HostPci Endian TcpExchange RdmaTopo RdmaEnv RdmaGpu RdmaBackend RdmaConnect RdmaHeld RdmaAccount RdmaDemo.

Open Scope Z_scope.

(** ** [shutdown] always returns *)

Definition returns {A} (m : RM A) : Prop := forall s, exists a s', m s = (Some a, s').

Section Returns.
Context {E : HostEnv} {VE : VerbsEnv}.

Lemma returns_ret {A} (a : A) : returns (rret a).
Proof using. intros s. by do 2 eexists. Qed.
Lemma returns_bind {A B} (m : RM A) (f : A -> RM B) : returns m -> (forall a, returns (f a)) -> returns (rbind m f).
Proof using.
  intros Hm Hf s. destruct (Hm s) as (a & s1 & H). destruct (Hf a s1) as (b & s2 & H2). exists b, s2.
  unfold rbind, bind. by rewrite H.
Qed.
Lemma returns_lift {A} (m : HostM A) : returns (lift m).
Proof using. intros s. unfold lift. destruct (m (rd_host s)) as [a h]. by do 2 eexists. Qed.
Lemma returns_gets {A} (f : rdma -> A) : returns (rgets f).
Proof using. intros s. by do 2 eexists. Qed.
Lemma returns_modify f : returns (rmodify f).
Proof using. intros s. by do 2 eexists. Qed.
Lemma returns_if {A} (b : bool) (m n : RM A) : returns m -> returns n -> returns (if b then m else n).
Proof using. by destruct b. Qed.

Create HintDb returns.
#[local] Hint Resolve returns_ret returns_lift returns_gets returns_modify returns_if : returns.
Ltac returns_tac := repeat first [progress eauto with returns|apply returns_bind|intros ?|case_match].

Lemma dereg_mr_returns mr : returns (dereg_mr mr).
Proof using. unfold dereg_mr. returns_tac. Qed.

Lemma drop_field_returns F undo : (forall p, returns (undo p)) -> returns (drop_field F undo).
Proof using. intros H. unfold drop_field, field, set_field. returns_tac. Qed.
#[local] Hint Resolve dereg_mr_returns drop_field_returns : returns.

Lemma mlx5_cleanup_returns : returns mlx5_cleanup.
Proof using. unfold mlx5_cleanup, field, set_field. returns_tac. Qed.
#[local] Hint Resolve mlx5_cleanup_returns : returns.

Lemma shutdown_returns : returns shutdown.
Proof using.
  unfold shutdown, cleanup_gpu_qp, provider, close_dv_libs, ibv_destroy_qp, ibv_destroy_cq, ibv_dealloc_pd,
    ibv_close_device, field, set_field.
  returns_tac; apply drop_field_returns; returns_tac.
Qed.
End Returns.

(** ** The libraries it has opened *)

Section Libraries.
Context {E : HostEnv} {VE : VerbsEnv} {TE : TopoEnv}.

(** A call that neither opens nor closes a library, nor changes the provider. *)
Definition keeps_libs {A} (m : RM A) : Prop :=
  forall s, rd_libs (snd (m s)) = rd_libs s /\ be_provider (rd_be (snd (m s))) = be_provider (rd_be s).

Lemma libs_ret {A} (a : A) : keeps_libs (rret a).
Proof using. done. Qed.
Lemma libs_abort {A} : keeps_libs (A := A) abort.
Proof using. done. Qed.
Lemma libs_bind {A B} (m : RM A) (f : A -> RM B) : keeps_libs m -> (forall a, keeps_libs (f a)) -> keeps_libs (rbind m f).
Proof using.
  intros Hm Hf s. specialize (Hm s). unfold rbind, bind. destruct (m s) as [[a|] s1]; cbn in *; [|done].
  destruct (Hf a s1), Hm. split; congruence.
Qed.
Lemma libs_lift {A} (m : HostM A) : keeps_libs (lift m).
Proof using. intros s. unfold lift. by destruct (m (rd_host s)). Qed.
Lemma libs_gets {A} (f : rdma -> A) : keeps_libs (rgets f).
Proof using. done. Qed.
Lemma libs_set_be f : (forall b, be_provider (f b) = be_provider b) -> keeps_libs (rmodify (set_be f)).
Proof using. intros H s. by split; [|apply H]. Qed.
Lemma libs_set_qps f : keeps_libs (rmodify (set_qps f)).
Proof using. done. Qed.
Lemma libs_set_fds f : keeps_libs (rmodify (set_fds f)).
Proof using. done. Qed.
Lemma libs_if {A} (b : bool) (m n : RM A) : keeps_libs m -> keeps_libs n -> keeps_libs (if b then m else n).
Proof using. by destruct b. Qed.

Lemma libs_when b m : keeps_libs m -> keeps_libs (when b m).
Proof using. by destruct b. Qed.

Create HintDb libs.
#[local] Hint Extern 1 (be_provider _ = be_provider _) => reflexivity : libs.
#[local] Hint Resolve libs_ret libs_abort libs_lift libs_gets libs_set_be libs_set_qps libs_set_fds libs_if : libs.
Ltac libs_tac := repeat first [progress eauto with libs|apply libs_bind|apply libs_when|match goal with |- forall _, _ => intros ? end|case_match].

Lemma members_libs : (forall F, keeps_libs (field F)) /\ (forall F p, keeps_libs (set_field F p))
  /\ keeps_libs config /\ keeps_libs provider.
Proof using. unfold field, set_field, config, provider. split_and!; intros; libs_tac. Qed.
Lemma checks_libs : (forall e, keeps_libs (check_zero e)) /\ (forall p, keeps_libs (check_nnull p)).
Proof using. unfold check_zero, check_nnull. split; intros; libs_tac. Qed.

Lemma field_libs F : keeps_libs (field F).
Proof using. apply members_libs. Qed.
Lemma set_field_libs F p : keeps_libs (set_field F p).
Proof using. apply members_libs. Qed.
Lemma config_libs : keeps_libs config.
Proof using. apply members_libs. Qed.
Lemma provider_libs : keeps_libs provider.
Proof using. apply members_libs. Qed.
Lemma check_zero_libs e : keeps_libs (check_zero e).
Proof using. apply checks_libs. Qed.
Lemma check_nnull_libs p : keeps_libs (check_nnull p).
Proof using. apply checks_libs. Qed.
Lemma obtain_libs k f : keeps_libs (obtain k f).
Proof using. unfold obtain. libs_tac. Qed.
#[local] Hint Resolve field_libs set_field_libs config_libs provider_libs check_zero_libs check_nnull_libs obtain_libs : libs.

Lemma dereg_mr_libs mr : keeps_libs (dereg_mr mr).
Proof using. unfold dereg_mr. libs_tac. Qed.
Lemma reg_mr_libs pd addr length access : keeps_libs (reg_mr pd addr length access).
Proof using. unfold reg_mr, reg_mr_host. libs_tac. Qed.
Lemma modify_qp_libs q a m : keeps_libs (ibv_modify_qp q a m).
Proof using. unfold ibv_modify_qp. libs_tac. Qed.
#[local] Hint Resolve dereg_mr_libs reg_mr_libs modify_qp_libs : libs.

Lemma register_as_libs F p n : keeps_libs (register_as F p n).
Proof using. unfold register_as. libs_tac. Qed.
Lemma lock_to_pool_libs p n : keeps_libs (lock_to_pool p n).
Proof using. unfold lock_to_pool. libs_tac. Qed.
#[local] Hint Resolve register_as_libs lock_to_pool_libs : libs.

Lemma open_device_libs : keeps_libs open_ib_device.
Proof using.
  unfold open_ib_device, ibv_get_device_list, ibv_free_device_list, ibv_open_device, ibv_alloc_pd. libs_tac.
Qed.
Lemma create_queues_libs : keeps_libs create_queues.
Proof using.
  unfold create_queues, ionic_create_cqs, ibv_alloc_parent_domain, ibv_create_cq, ibv_create_qp_ex, ibv_destroy_cq. libs_tac.
Qed.
Lemma connect_libs remote : keeps_libs (connect remote).
Proof using.
  unfold connect, modify_qp_reset_to_init, modify_qp_init_to_rtr, modify_qp_rtr_to_rts, modify_qp_dispatch. libs_tac.
Qed.
#[local] Hint Resolve open_device_libs create_queues_libs connect_libs : libs.

Lemma mlx5_gpu_libs : keeps_libs mlx5_initialize_gpu_qp.
Proof using. unfold mlx5_initialize_gpu_qp, mlx5_set_up, mlx5_fill, on_host_qp. libs_tac. Qed.
Lemma ionic_gpu_libs : keeps_libs ionic_initialize_gpu_qp.
Proof using. unfold ionic_initialize_gpu_qp, on_host_qp. libs_tac. Qed.
Lemma smoke_libs : keeps_libs mlx5_cpu_loopback_smoke_test.
Proof using. unfold mlx5_cpu_loopback_smoke_test, smoke_over, reg_mr_host. libs_tac. Qed.
Lemma mlx5_cleanup_libs : keeps_libs mlx5_cleanup.
Proof using. unfold mlx5_cleanup. libs_tac. Qed.
#[local] Hint Resolve mlx5_gpu_libs ionic_gpu_libs smoke_libs mlx5_cleanup_libs : libs.

Lemma copy_qp_libs : keeps_libs copy_qp.
Proof using. unfold copy_qp. libs_tac. Qed.
#[local] Hint Resolve copy_qp_libs : libs.
Lemma setup_gpu_qp_libs : keeps_libs setup_gpu_qp.
Proof using. unfold setup_gpu_qp, initialize_gpu_qp, new_QueuePair. libs_tac. Qed.
Lemma drop_field_libs F undo : (forall p, keeps_libs (undo p)) -> keeps_libs (drop_field F undo).
Proof using. intros H. unfold drop_field. libs_tac. Qed.
#[local] Hint Resolve setup_gpu_qp_libs drop_field_libs : libs.

Lemma shutdown_libs : keeps_libs shutdown.
Proof using.
  unfold shutdown, cleanup_gpu_qp, close_dv_libs, ibv_destroy_qp, ibv_destroy_cq, ibv_dealloc_pd, ibv_close_device.
  libs_tac; apply drop_field_libs; libs_tac.
Qed.
Lemma run_calls_libs calls : keeps_libs (run_calls calls).
Proof using.
  induction calls as [|[buf size|key|remote] calls IH]; cbn [run_calls run_call]; [done|..];
    (apply libs_bind; [|done]).
  - unfold register_data_buffer, on_host_qp, reg_mr_host. libs_tac.
  - unfold set_remote_rkey, on_host_qp. libs_tac.
  - unfold connect_to_peer. libs_tac.
Qed.

(** Loading a library takes one reference at most, and one when it succeeds. *)
Definition opens {A} (ok : A -> Prop) (m : RM A) : Prop :=
  forall s, rd_libs s <= rd_libs (snd (m s)) <= rd_libs s + 1
    /\ forall a, fst (m s) = Some a -> ok a -> rd_libs (snd (m s)) = rd_libs s + 1.

Lemma opens_after {A B} (m : RM A) (f : A -> RM B) ok :
  keeps_libs m -> (forall a, opens ok (f a)) -> opens ok (rbind m f).
Proof using.
  intros Hm Hf s. destruct (Hm s) as [H _]. unfold rbind, bind. destruct (m s) as [[a|] s1]; cbn in H |- *.
  - rewrite <- H. apply Hf.
  - split; [lia|done].
Qed.

Lemma dlopen_first_opens p places : opens (fun h => h <> NULL) (dlopen_first p places).
Proof using.
  induction places as [|place places IH]; cbn [dlopen_first]; [intros s; cbn; split; [lia|congruence]|].
  apply opens_after; [apply libs_lift|]. intros h. destruct (is_null h); [exact IH|].
  intros s. cbn. split; [lia|]. intros. lia.
Qed.

Lemma dl_init_opens p n (k : ptr -> RM Z) :
  (forall h s, exists rc, k h s = (Some rc, s)) -> (forall s, fst (k NULL s) <> Some 0) ->
  opens (fun rc => rc = 0) (rbind (dv_dlopen p n) k).
Proof using.
  intros Hk Hn s. unfold dv_dlopen. set (places := (_ ++ _)%list).
  destruct (dlopen_first_opens p places s) as [H1 H2]. unfold rbind, bind.
  destruct (dlopen_first p places s) as [[h|] s1]; cbn in H1, H2 |- *; [|split; [lia|done]].
  destruct (Hk h s1) as [rc E1]. rewrite E1. cbn. split; [lia|]. intros a [= ->] ->. apply (H2 h eq_refl).
  intros ->. apply (Hn s1). by rewrite E1.
Qed.

Lemma mlx5_opens : opens (fun rc => rc = 0) mlx5_dv_dl_init.
Proof using.
  apply dl_init_opens; [|done]. intros h s. destruct (is_null h); [by eexists|]. destruct (negb _); by eexists.
Qed.
Lemma ionic_opens : opens (fun rc => rc = 0) ionic_dv_dl_init.
Proof using.
  apply dl_init_opens; [|done]. intros h s. destruct (is_null h); [by eexists|]. destruct (forallb _ _); by eexists.
Qed.

(** At most one reference for each provider tried, one at least when a
    provider is found. *)
Definition libs_opened (n : Z) (s0 s : rdma) : Prop :=
  rd_libs s0 <= rd_libs s <= rd_libs s0 + n /\ (be_provider (rd_be s) <> PROVIDER_UNKNOWN -> rd_libs s0 < rd_libs s).

Lemma try_provider_libs p dl n s0 s :
  opens (fun rc => rc = 0) dl -> (forall s, rd_be (snd (dl s)) = rd_be s) ->
  0 <= n -> libs_opened n s0 s -> libs_opened (n + 1) s0 (snd (try_provider p dl s)).
Proof using.
  intros Hd Hb Hn [H1 H2]. unfold try_provider, provider, config. rewrite !run_gets.
  destruct (_ && _); [|split; [cbn; lia|exact H2]].
  destruct (Hd s) as [D1 D2]. specialize (Hb s). unfold rbind, bind.
  destruct (dl s) as [[rc|] s1]; cbn in D1, D2, Hb |- *; [|split; [cbn; lia|rewrite Hb; intros; specialize (H2 ltac:(done)); lia]].
  destruct (Z.eqb_spec rc 0) as [E0|_]; cbn; split; cbn; try lia.
  - specialize (D2 rc eq_refl E0). lia.
  - rewrite Hb. intros Hp. specialize (H2 Hp). lia.
Qed.

Lemma dl_init_object p n (k : ptr -> RM Z) :
  (forall h s, exists rc, k h s = (Some rc, s)) -> forall s, rd_be (snd (rbind (dv_dlopen p n) k s)) = rd_be s.
Proof using.
  intros Hk s. unfold dv_dlopen. set (places := (_ ++ _)%list).
  assert (H : forall s, rd_be (snd (dlopen_first p places s)) = rd_be s).
  { clear. induction places as [|place places IH]; intros s; cbn [dlopen_first]; [done|].
    unfold rbind at 1, bind. unfold lift at 1, consult, bind, gets, modify, ret. cbn.
    destruct (is_null _); [by rewrite IH|done]. }
  specialize (H s). unfold rbind, bind. destruct (dlopen_first p places s) as [[h|] s1]; cbn in *; [|done].
  destruct (Hk h s1) as [rc E1]. by rewrite E1.
Qed.

Lemma open_dv_libs_libs s : libs_opened 2 s (snd (open_dv_libs s)).
Proof using.
  unfold open_dv_libs. set (s0 := set_be (upd_provider PROVIDER_UNKNOWN) s).
  assert (H0 : libs_opened 0 s s0) by (split; cbn; [lia|done]).
  assert (H1 : libs_opened 1 s (snd (try_provider MLX5 mlx5_dv_dl_init s0))).
  { apply (try_provider_libs _ _ 0); [apply mlx5_opens| |lia|done].
    apply dl_init_object. intros h s1. destruct (is_null h); [by eexists|]. destruct (negb _); by eexists. }
  change (libs_opened 2 s (snd ((try_provider MLX5 mlx5_dv_dl_init >>> try_provider IONIC ionic_dv_dl_init) s0))).
  unfold rbind, bind. destruct (try_provider MLX5 mlx5_dv_dl_init s0) as [[[]|] s1]; cbn in H1 |- *.
  - apply (try_provider_libs _ _ 1); [apply ionic_opens| |lia|done].
    apply dl_init_object. intros h s2. destruct (is_null h); [by eexists|]. destruct (forallb _ _); by eexists.
  - destruct H1. split; [lia|done].
Qed.

Lemma libs_opened_keep {A} (m : RM A) n s0 s :
  keeps_libs m -> libs_opened n s0 s -> libs_opened n s0 (snd (m s)).
Proof using. intros Hm. destruct (Hm s) as [E1 E2]. unfold libs_opened. by rewrite E1, E2. Qed.

Lemma libs_opened_bind {A B} (m : RM A) (f : A -> RM B) n s :
  libs_opened n s (snd (m s)) -> (forall a, keeps_libs (f a)) -> libs_opened n s (snd (rbind m f s)).
Proof using.
  intros Hm Hf. unfold rbind, bind. destruct (m s) as [[a|] s1]; cbn in *; [|done]. by apply libs_opened_keep.
Qed.

Lemma libs_opened_self s : 
  be_provider (rd_be s) = PROVIDER_UNKNOWN -> libs_opened 2 s s.
Proof using. intros H. by split; [lia|]. Qed.

Lemma init_libs b s : be_provider (rd_be s) = PROVIDER_UNKNOWN -> libs_opened 2 s (snd (init b s)).
Proof using.
  intros Hu. unfold init. destruct b; cbn [negb]; [|by apply libs_opened_self].
  apply libs_opened_bind; [apply open_dv_libs_libs|]. intros _. unfold setup_qp_loopback. libs_tac.
Qed.
End Libraries.

(** ** The life of a backend *)

(** A backend that is initialised and then used. *)
Definition life {E : HostEnv} {VE : VerbsEnv} {TE : TopoEnv} (calls : list call) : RM Z :=
  do* rc := init true in do* _ := run_calls calls in rret rc.

Lemma life_runs {E : HostEnv} {VE : VerbsEnv} {TE : TopoEnv} calls s0 rc :
  fst (life calls s0) = Some rc ->
  exists s1, init true s0 = (Some rc, s1) /\ run_calls calls s1 = (Some tt, snd (life calls s0)).
Proof.
  unfold life, rbind, bind, rret, ret. destruct (init true s0) as [[n|] s1]; [|done].
  destruct (run_calls calls s1) as [[[]|] s2] eqn:Ec; [|done]. cbn. intros [= ->]. exists s1. by rewrite Ec.
Qed.

Lemma life_libs {E : HostEnv} {VE : VerbsEnv} {TE : TopoEnv} calls s :
  be_provider (rd_be s) = PROVIDER_UNKNOWN -> libs_opened 2 s (snd (life calls s)).
Proof.
  intros Hu. unfold life. apply libs_opened_bind; [by apply init_libs|]. intros rc.
  apply libs_bind; [apply run_calls_libs|]. intros _. apply libs_ret.
Qed.

(** C9: In the build with mlx5 and ionic, a backend is created and initialised,
    data registered, keys set and queue pairs connected in any order, and it is
    shut down: [shutdown] returns, nothing is given back in vain or twice,
    every member of the object is null, and besides what the process held
    before it holds exactly what the GPU's queue pair owned, the doorbell page
    of ionic, the protection domains that could not be given back, the
    descriptors of the queue pair's regions, and the references on the
    providers' libraries it opened: none is closed, at most two were opened,
    and one at least if a provider was found.  Where none was found it holds
    what it held before and nothing else but such references. *)
Theorem backend_lifetime {E : HostEnv} {VE : VerbsEnv} {TE : TopoEnv} c calls s0 rc :
  HostEnvOk E -> VerbsEnvOk E VE ->
  rd_be s0 = new_Backend c -> rd_fds s0 = ∅ -> ho_bad (rd_host s0) = false ->
  fst (life calls s0) = Some rc ->
  let s2 := snd (life calls s0) in
  exists s3 pages pds,
    shutdown s2 = (Some tt, s3)
    /\ holds (ho_held (rd_host s0))
         (owned_qp (be_host_qp (rd_be s2)) ++ pages ++ pds ++ descriptors (rd_fds s3)) (rd_host s3)
    /\ page_lost (be_provider (rd_be s2)) pages
    /\ pds ⊆+ [(KPd, be_ptr (rd_be s2) F_pd_parent, 0); (KPd, be_ptr (rd_be s2) F_pd, 0)]
    /\ (forall mr fd, rd_fds s3 !! mr = Some fd -> (KMr, mr, 0) ∈ owned_qp (be_host_qp (rd_be s2)))
    /\ (forall F, be_ptr (rd_be s3) F = NULL)
    /\ (be_provider (rd_be s2) = PROVIDER_UNKNOWN -> ho_held (rd_host s3) = ho_held (rd_host s0))
    /\ rd_libs s0 <= rd_libs s3 <= rd_libs s0 + 2
    /\ (be_provider (rd_be s2) <> PROVIDER_UNKNOWN -> rd_libs s0 < rd_libs s3).
Proof.
  intros EO VO Hnew Hfds Hbad Hl s2. set (B := ho_held (rd_host s0)).
  assert (Hlibs : libs_opened 2 s0 s2).
  { apply (life_libs calls s0). by rewrite Hnew. }
  destruct (life_runs calls s0 rc Hl) as (s1 & Hi & Hc). fold s2 in Hc. clearbody s2.
  assert (A0 : account B [] s0).
  { unfold account. rewrite Hnew. cbn [be_host_qp new_Backend owned_qp app]. rewrite members_null by done. split.
    - rewrite Hfds. by apply holds_nothing.
    - intros mr fd. by rewrite Hfds. }
  pose proof (init_keeps c s0 Hnew A0) as W. unfold wpr in W. rewrite Hi in W. destruct W as (X & HX & A1 & S1).
  pose proof (run_calls_keep calls X s1 A1) as W. unfold wpr in W. rewrite Hc in W. destruct W as (A2 & O2 & U2).
  assert (S2 : settled (B := B) s2) by by eapply settled_calls.
  destruct (shutdown_returns s2) as ([] & s3 & H3).
  pose proof (proj1 (shutdown_libs s2)) as Hl3. rewrite H3 in Hl3. cbn in Hl3.
  pose proof (shutdown_keeps X s2 A2 S2) as W. unfold wpr in W. rewrite H3 in W. destruct W as [(pds & Hp & A3 & Hu) Hn].
  assert (Hmr : forall mr, (KMr, mr, 0) ∈ owned_qp (be_host_qp (rd_be s2)) ++ X ++ pds ->
    (KMr, mr, 0) ∈ owned_qp (be_host_qp (rd_be s2))).
  { intros mr [H|[H|H]%elem_of_app]%elem_of_app; [done|exfalso..].
    - destruct HX as [->|[_ [page ->]]]; [by apply not_elem_of_nil in H|by apply list_elem_of_singleton in H].
    - apply (elem_of_submseteq _ _ _ H) in Hp as Hin. apply elem_of_cons in Hin as [|Hin]; [done|].
      by apply list_elem_of_singleton in Hin. }
  exists s3, X, pds. rewrite (on_provider _ _ _ O2) in *. split_and!; try done.
  - eapply holds_perm, A3. solve_Permutation.
  - intros mr fd Hm. apply Hmr. by eapply (ac_fds _ _ _ A3).
  - intros Hun. destruct S2 as [_ _ _ S4]. rewrite (on_provider _ _ _ O2) in S4. destruct (S4 Hun) as [Hq _].
    assert (X = []) as -> by (destruct HX as [|[Hio _]]; [done|congruence]).
    rewrite (Hu Hun eq_refl), Hq in A3. cbn in A3. destruct A3 as [Hh Hf].
    assert (rd_fds s3 = ∅) as Hnone.
    { apply map_empty. intros mr. destruct (rd_fds s3 !! mr) as [fd|] eqn:Em; [|done].
      destruct (Hf _ _ Em) as (_ & Hin & _). by apply not_elem_of_nil in Hin. }
    rewrite Hnone in Hh. by eapply holds_nil.
  - destruct Hlibs as [H _]. lia.
  - destruct Hlibs as [H _]. lia.
  - destruct Hlibs as [_ H]. rewrite Hl3. rewrite (on_provider _ _ _ O2) in H. exact H.
Qed.

(** ** Runs on the concrete NIC *)

Definition demo_config : BackendConfig := {|
  bc_provider := PROVIDER_UNKNOWN; bc_gpu_device_id := 0; bc_sq_depth := 64; bc_cq_depth := 64;
  bc_inline_threshold := 28; bc_pcie_relaxed_ordering := false; bc_traffic_class := 0; bc_loopback := false;
  bc_remote := no_dest; bc_hca_list := None; bc_pci_mmio_bridge := false; bc_queue_mem := HOST_COHERENT
|}.

Definition demo_start : rdma := {|
  rd_host := idle_host state0; rd_be := new_Backend demo_config; rd_qps := ∅; rd_fds := ∅; rd_libs := 0
|}.

Definition nic_host : HostEnv := demo_host true (fun _ => true) (fun _ => 0).

(** Initialised, data registered twice, shut down: what the process holds then,
    and whether something was given back in vain. *)
Definition demo_life (installed : option Provider) (dmabuf : bool) : option (list host_res * bool) :=
  let VE := demo_verbs installed dmabuf 17 (RdmaTopo.demo_gid []) in
  let TE := RdmaTopo.demo_topo in
  match init (E := nic_host) true demo_start with
  | (Some 0, s1) =>
      match run_calls [CRegister 4096 8192; CRegister 8192 4096] s1 with
      | (Some tt, s2) =>
          match shutdown (E := nic_host) s2 with
          | (Some tt, s3) => Some (elements (ho_held (rd_host s3)), ho_bad (rd_host s3))
          | _ => None
          end
      | _ => None
      end
  | _ => None
  end.

(** With no provider's library the process ends as it began; with one it keeps
    the two buffers of the queue pair and their regions, with the regions'
    descriptors if they were made from dma-bufs, and the protection domain they
    are on; with ionic the registration of the doorbell page as well. *)
Lemma queue_pair_leaks :
  demo_life None false = Some ([], false)
  /\ demo_life (Some MLX5) false
     = Some ([(KMr, 36865, 0); (KMr, 40961, 0); RDevice 28672; RDevice 32768; (KPd, 1, 0)], false)
  /\ demo_life (Some MLX5) true
     = Some ([(KMr, 40961, 0); (KMr, 49153, 0); RDevice 28672; RDevice 32768;
              RDmabuf 45056; RDmabuf 36864; (KPd, 1, 0)], false)
  /\ demo_life (Some IONIC) false
     = Some ([(KMr, 45057, 0); (KMr, 40961, 0); RDevice 36864; RDevice 32768; (KPd, 1, 0); RRegistered 1376256], false).
Proof. by vm_compute. Qed.

Definition plain_verbs : VerbsEnv := demo_verbs None true 17 (RdmaTopo.demo_gid []).
Definition plain_calls : list call := [CRegister 4096 8192; CRemoteKey 5].

#[local] Abbreviation plain_life :=
  (life (E := nic_host) (VE := plain_verbs) (TE := RdmaTopo.demo_topo) plain_calls demo_start) (only parsing).

Lemma plain_runs : fst plain_life = Some 0.
Proof. by vm_compute. Qed.
Lemma plain_unknown : be_provider (rd_be (snd plain_life)) = PROVIDER_UNKNOWN.
Proof. by vm_compute. Qed.

Lemma backend_lifetime_witness :
  exists s3, shutdown (E := nic_host) (VE := plain_verbs) (snd plain_life) = (Some tt, s3)
    /\ ho_held (rd_host s3) = ho_held (rd_host demo_start).
Proof.
  destruct (backend_lifetime demo_config plain_calls demo_start 0 (demo_host_ok true (fun _ => true) (fun _ => 0) : HostEnvOk nic_host)
    (demo_verbs_ok _ _ _ None true 17 (RdmaTopo.demo_gid []) : VerbsEnvOk nic_host plain_verbs) eq_refl eq_refl eq_refl
    plain_runs) as (s3 & pages & pds & Hs & _ & _ & _ & _ & _ & He & _).
  exists s3. split; [exact Hs|exact (He plain_unknown)].
Defined.

(** ** Registering data *)

Section Registration.
Context {E : HostEnv} {VE : VerbsEnv}.

Lemma lift_object (m : HostM unit) s : exists s', lift m s = (Some tt, s') /\ rd_be s' = rd_be s.
Proof using. unfold lift. destruct (m (rd_host s)) as [[] h]. by eexists. Qed.

Lemma dereg_mr_object mr s : exists s', dereg_mr mr s = (Some tt, s') /\ rd_be s' = rd_be s.
Proof using.
  unfold dereg_mr. set (closing := if ve_dmabuf then _ else _).
  assert (exists s1, closing s = (Some tt, s1) /\ rd_be s1 = rd_be s) as (s1 & H1 & B1).
  { subst closing. destruct ve_dmabuf; [|by exists s]. rewrite run_gets.
    destruct (rd_fds s !! mr) as [fd|]; [|by exists s].
    destruct (lift_object (HostModule.closeDmabuf fd) s) as (s1 & H1 & B1).
    rewrite (run_bind _ _ _ _ _ H1). by eexists. }
  rewrite (run_bind _ _ _ _ _ H1), <- B1. apply lift_object.
Qed.

Lemma drop_region_object s :
  exists s', drop_field F_heap_mr dereg_mr s = (Some tt, s') /\ be_ptr (rd_be s') F_heap_mr = NULL
    /\ be_host_qp (rd_be s') = be_host_qp (rd_be s) /\ be_gpu_qp (rd_be s') = be_gpu_qp (rd_be s)
    /\ be_provider (rd_be s') = be_provider (rd_be s).
Proof using.
  unfold drop_field, field. rewrite run_gets. destruct (Z.eqb_spec (be_ptr (rd_be s) F_heap_mr) NULL) as [H0|Hne].
  - by exists s.
  - destruct (dereg_mr_object (be_ptr (rd_be s) F_heap_mr) s) as (s1 & H1 & Hb).
    rewrite (run_bind _ _ _ _ _ H1). eexists. split; [done|]. cbn. by rewrite Hb.
Qed.

(** C31: What registering a buffer makes of the keys, whatever NIC and runtime do:
    when it succeeds, the host's and the GPU's queue pair are the same and have
    the keys of the region that is registered, in the provider's form; when the
    region cannot be made there is none and both are as they were; and when the
    copy fails there is a region, and its keys on the host, but the GPU's queue
    pair keeps the keys it had, of a region that is gone. *)
Theorem registration_outcome buf size q g s :
  buf <> NULL -> size <> 0 -> be_ptr (rd_be s) F_host_qp <> NULL -> be_ptr (rd_be s) F_gpu_qp <> NULL ->
  be_host_qp (rd_be s) = Some q -> be_gpu_qp (rd_be s) = Some g ->
  exists rc s', register_data_buffer buf size s = (Some rc, s') /\
    let mr := be_ptr (rd_be s') F_heap_mr in
    let p := be_provider (rd_be s) in
    let q' := with_keys (normalize_qp_key p (fst (ve_mr_keys mr))) (normalize_qp_key p (snd (ve_mr_keys mr))) q in
    (rc = 0 /\ mr <> NULL /\ be_host_qp (rd_be s') = Some q' /\ be_gpu_qp (rd_be s') = Some q'
       /\ (be_lkey (rd_be s'), be_rkey (rd_be s')) = ve_mr_keys mr)
    \/ (rc = -1 /\ mr = NULL /\ be_host_qp (rd_be s') = Some q /\ be_gpu_qp (rd_be s') = Some g)
    \/ (rc = -1 /\ mr <> NULL /\ be_host_qp (rd_be s') = Some q' /\ be_gpu_qp (rd_be s') = Some g).
Proof using.
  intros Hbuf Hsize Hh Hg Hq Hgq. unfold register_data_buffer, field, config, provider.
  rewrite !run_gets. rewrite (proj2 (Z.eqb_neq buf NULL) Hbuf), (proj2 (Z.eqb_neq size 0) Hsize),
    (proj2 (Z.eqb_neq _ NULL) Hh), (proj2 (Z.eqb_neq _ NULL) Hg). cbn [orb].
  rewrite run_gets. destruct (drop_region_object s) as (s1 & H1 & N1 & Q1 & G1 & P1).
  rewrite (run_bind _ _ _ _ _ H1), !run_gets.
  unfold reg_mr_host, obtain. set (pd := if is_null _ then _ else _). set (acc := data_access _).
  set (mr := ve_reg_mr (view (rd_host s1)) pd buf size acc).
  set (s2 := set_host (snd (((if is_null mr then ret tt else acquire (KMr, mr, 0)) ;;; ret mr) (tick (rd_host s1)))) s1).
  rewrite (run_bind _ _ s1 mr s2).
  2: { unfold lift, consult, bind, gets, modify, ret. cbn. fold mr. unfold s2, bind. by destruct (is_null mr). }
  assert (B2 : rd_be s2 = rd_be s1) by done. unfold set_field at 1, rbind at 1, bind, rmodify at 1.
  destruct (Z.eqb_spec mr NULL) as [E0|Hmr].
  - eexists _, _. split; [done|]. right. left. cbn. rewrite Q1, G1. by rewrite decide_True.
  - rewrite run_gets. cbn [rd_be set_be be_provider upd_ptr]. rewrite B2, P1.
    destruct (ve_mr_keys mr) as [lk rk] eqn:Ek. unfold on_host_qp, rbind, bind, rmodify, copy_qp, lift, consult, gets, modify, ret, rret.
    cbn. rewrite Q1, Hq. cbn. destruct (ve_hipMemcpy _ =? 0) eqn:Em; cbn; do 2 eexists; (split; [done|]).
    + left. cbn. rewrite decide_True by done. rewrite Ek.
      split; [exact (f_equal (fun b : bool => if b then 0 else -1) Em)|done].
    + right. right. cbn. rewrite decide_True by done. rewrite Ek, G1, Hgq.
      split; [exact (f_equal (fun b : bool => if b then 0 else -1) Em)|done].
Qed.
End Registration.

(** ** Two nodes *)

(** C8: Two nodes that are ready, each with its own host and NIC, swap their
    messages: whatever pieces the socket moves and however the two take turns,
    once both exchanges have succeeded each can connect, and then each queue
    pair is in RTS, sends to the other's number and identifier with the sequence
    number the other expects, and each GPU has the other's key in its own NIC's
    form. *)
Theorem peers_connected (VA VB : VerbsEnv) cap sa sb qa qb bufa bufb e :
  node_ready (VE := VA) sa qa -> node_ready (VE := VB) sb qb -> 0 <= bufa < 2 ^ 64 -> 0 <= bufb < 2 ^ 64 ->
  rtc (exchange_step cap 36)
    (exchange_start (encode (node_message (VE := VA) sa bufa)) (encode (node_message (VE := VB) sb bufb))) e ->
  p_rc (e_a e) = Some 0 -> p_rc (e_b e) = Some 0 ->
  exists sa' sb' na nb,
    connect_two (VE := VA) (decode (p_got (e_a e))) sa = (Some 0, sa')
    /\ connect_two (VE := VB) (decode (p_got (e_b e))) sb = (Some 0, sb')
    /\ rd_qps sa' !! be_ptr (rd_be sa) F_qp = Some na /\ rd_qps sb' !! be_ptr (rd_be sb) F_qp = Some nb
    /\ points_to na nb (@ve_qp_num VB (be_ptr (rd_be sb) F_qp)) (be_local_gid (rd_be sb))
    /\ points_to nb na (@ve_qp_num VA (be_ptr (rd_be sa) F_qp)) (be_local_gid (rd_be sa))
    /\ option_map q_rkey (be_gpu_qp (rd_be sa')) = Some (normalize_qp_key (be_provider (rd_be sa)) (be_rkey (rd_be sb)))
    /\ option_map q_rkey (be_gpu_qp (rd_be sb')) = Some (normalize_qp_key (be_provider (rd_be sb)) (be_rkey (rd_be sa))).
Proof.
  intros Ha Hb Hba Hbb Hr Ra Rb.
  pose proof (node_message_ok sa qa bufa Ha Hba) as Ma. pose proof (node_message_ok sb qb bufb Hb Hbb) as Mb.
  apply exchange_ok_reach in Hr.
  apply (got_whole 36) in Hr as [Ga Gb]; [|by apply length_encode..].
  rewrite (Ga Ra), (Gb Rb), !decode_encode by done. clear Ga Gb.
  destruct (side_connected sa qa (node_message (VE := VB) sb bufb) Ha) as (sa' & na & A1 & A2 & A3 & A4 & A5).
  destruct (side_connected sb qb (node_message (VE := VA) sa bufa) Hb) as (sb' & nb & B1 & B2 & B3 & B4 & B5).
  exists sa', sb', na, nb. unfold points_to. rewrite A4, B4.
  pose proof (nr_qp _ _ Ha) as Na%Z.eqb_neq. pose proof (nr_qp _ _ Hb) as Nb%Z.eqb_neq.
  split_and!; try done; cbn; rewrite ?Na, ?Nb; unfold u32; by rewrite !Z.mod_mod.
Qed.

(** Two such nodes, on NICs of different make: initialised, data registered. *)
Definition mlx5_node : VerbsEnv := demo_verbs (Some MLX5) false 17 (RdmaTopo.demo_gid [10; 0; 0; 1]).
Definition ionic_node : VerbsEnv := demo_verbs (Some IONIC) true 18 (RdmaTopo.demo_gid [10; 0; 0; 2]).

Definition node_state (VE : VerbsEnv) : rdma :=
  snd (life (E := nic_host) (VE := VE) (TE := RdmaTopo.demo_topo) [CRegister 4096 8192] demo_start).

(** All that [node_ready] asks of a state, as a test. *)
Definition ready_test (s : rdma) : bool :=
  negb (is_null (be_ptr (rd_be s) F_qp)) && negb (is_null (be_ptr (rd_be s) F_host_qp))
  && negb (is_null (be_ptr (rd_be s) F_gpu_qp)) && bool_decide (is_Some (be_host_qp (rd_be s)))
  && match rd_qps s !! be_ptr (rd_be s) F_qp with
     | Some now => bool_decide (qn_state now = IBV_QPS_RESET) || bool_decide (qn_state now = IBV_QPS_INIT)
     | None => false
     end
  && (0 <=? be_rkey (rd_be s)) && (be_rkey (rd_be s) <? 2 ^ 32)
  && (length (be_local_gid (rd_be s)) =? 16)%nat.

Lemma ready_test_ok {VE : VerbsEnv} s :
  nic_exact -> (forall v, ve_hipMemcpy v = 0) -> ready_test s = true -> exists qp, node_ready s qp.
Proof.
  intros Hn Hc H. unfold ready_test in H. repeat (apply andb_true_iff in H as [H ?]).
  destruct (rd_qps s !! be_ptr (rd_be s) F_qp) as [now|] eqn:Hq; [|done].
  destruct (be_host_qp (rd_be s)) as [qp|] eqn:Hqp; [|done]. exists qp.
  split; try done; try (apply Z.eqb_neq, negb_true_iff; done).
  - rewrite Hq. intros ? [= <-].
    match goal with Ht : bool_decide _ || _ = true |- _ => revert Ht end.
    destruct (qn_state now); by auto.
  - lia.
  - by apply Nat.eqb_eq.
Qed.

Lemma nodes_ready :
  (exists qa, node_ready (VE := mlx5_node) (node_state mlx5_node) qa)
  /\ (exists qb, node_ready (VE := ionic_node) (node_state ionic_node) qb).
Proof. split; (apply ready_test_ok; [apply demo_nic_exact|done|by vm_compute]). Qed.

(** The messages of the two cross in one piece each way. *)
Definition crossed (ma mb : list Z) : exchange :=
  let e := turn_b 36 (Moved 36) (turn_a 36 (Moved 36) (exchange_start ma mb)) in
  let e := turn_b 36 (Moved 36) (turn_a 36 (Moved 36) e) in
  turn_b 36 Interrupted (turn_a 36 Interrupted e).

Lemma crossed_reaches ma mb :
  length ma = 36%nat -> length mb = 36%nat ->
  rtc (exchange_step 4096 36) (exchange_start ma mb) (crossed ma mb)
  /\ p_rc (e_a (crossed ma mb)) = Some 0 /\ p_rc (e_b (crossed ma mb)) = Some 0.
Proof.
  intros Ha Hb. do 36 (destruct ma as [|? ma]; [done|]). do 36 (destruct mb as [|? mb]; [done|]).
  destruct ma, mb; [|done..]. split; [|done]. unfold crossed.
  eapply rtc_r; [|by apply step_b]. eapply rtc_r; [|by apply step_a].
  eapply rtc_r; [|apply step_b; vm_compute; lia]. eapply rtc_r; [|apply step_a; vm_compute; lia].
  eapply rtc_r; [|apply step_b; vm_compute; lia]. eapply rtc_r; [|apply step_a; vm_compute; lia].
  constructor.
Qed.

Definition demo_crossed : exchange :=
  crossed (encode (node_message (VE := mlx5_node) (node_state mlx5_node) 4096))
    (encode (node_message (VE := ionic_node) (node_state ionic_node) 8192)).

Lemma peers_connected_witness :
  exists sa' sb',
    connect_two (VE := mlx5_node) (decode (p_got (e_a demo_crossed))) (node_state mlx5_node) = (Some 0, sa')
    /\ connect_two (VE := ionic_node) (decode (p_got (e_b demo_crossed))) (node_state ionic_node) = (Some 0, sb').
Proof.
  destruct nodes_ready as [[qa Ha] [qb Hb]].
  destruct (crossed_reaches _ _ (length_encode _ (node_message_ok _ _ 4096 Ha ltac:(lia)))
    (length_encode _ (node_message_ok _ _ 8192 Hb ltac:(lia)))) as (Hr & Ra & Rb).
  destruct (peers_connected mlx5_node ionic_node 4096 _ _ qa qb 4096 8192 demo_crossed Ha Hb ltac:(lia) ltac:(lia)
    Hr Ra Rb) as (sa' & sb' & na & nb & H1 & H2 & _).
  exists sa', sb'. split; [exact H1|exact H2].
Defined.

Lemma connect_to_peer_outcome_witness :
  exists s', connect_to_peer (VE := mlx5_node) no_dest (node_state mlx5_node) = (Some 0, s')
    /\ same_apart (node_state mlx5_node) s'.
Proof.
  destruct nodes_ready as [[qa Ha] _]. destruct (nr_known _ _ Ha) as [now Hnow].
  pose proof (connect_to_peer_outcome (VE := mlx5_node) no_dest _ now _ (nr_exact _ _ Ha) (nr_qp _ _ Ha) eq_refl Hnow) as H.
  rewrite (bool_decide_eq_true_2 _ (nr_now _ _ Ha now Hnow)) in H. destruct H as (s' & R & S & _). exists s'. split; [exact R|exact S].
Defined.

Lemma node_has_copy : exists g, be_gpu_qp (rd_be (node_state mlx5_node)) = Some g.
Proof.
  assert (match be_gpu_qp (rd_be (node_state mlx5_node)) with Some _ => true | None => false end = true) as H by by vm_compute.
  revert H. generalize (be_gpu_qp (rd_be (node_state mlx5_node))). intros [g|]; [by exists g|done].
Qed.

Lemma registration_outcome_witness :
  exists rc s', register_data_buffer (VE := mlx5_node) 8192 4096 (node_state mlx5_node) = (Some rc, s').
Proof.
  assert (H1 : 8192 <> NULL) by done. assert (H2 : 4096 <> NULL) by done.
  destruct nodes_ready as [[qa Ha] _]. destruct node_has_copy as [g Hg].
  destruct (registration_outcome (VE := mlx5_node) 8192 4096 qa g (node_state mlx5_node) H1 H2
    (nr_host _ _ Ha) (nr_gpu _ _ Ha) (nr_host_qp _ _ Ha) Hg) as (rc & s' & R & _).
  exists rc, s'. exact R.
Defined.
